(* ===== verification/_CoqProject ===== *)
-Q . S2P
Prelude.v
Encoding.v
KeyBuilder.v
TrieNode.v
TrieSpec.v
TrieRefinement.v
TrieUpdate.v
TrieHash.v
TrieCommit.v
PatriciaTrie.v
TrieProof.v
PatriciaSpec.v
TrieHashes.v
TrieProperties.v
GoValues.v
GoCollections.v
SystemEI.v
Eei.v
EeiSpec.v
StakingData.v
WaitingList.v
Staking.v
StakingStore.v
QueueSpec.v
StakingLedger.v
StakingInvariant.v
StakingEpochEnd.v
StakingInstance.v
EeiProperties.v
StakingProperties.v
Floats.v
Config.v
ChainParameters.v
Validators.v
Shuffler.v
ValidatorsSpec.v
ShufflerSpec.v
ShufflerProperties.v
Ratings.v
RatingsSpec.v
RatingsProperties.v
Economics.v
EconomicsProperties.v
StateTrie.v
TrackableDataTrie.v
TrackableSpec.v
TrackableMap.v
StateProperties.v
UserAccount.v
AccountsDB.v
AccountsSpec.v
AccountsJournal.v
AccountsOps.v
AccountsRevert.v
StateTriesInstance.v
AccountsStore.v
AccountsProperties.v
PruningManager.v
PruningSpec.v
PruningProperties.v
Selection.v
SelectionSpec.v
NodesCoordinator.v
NodesRegistry.v
NodesEpoch.v
NodesSpec.v
NodesProperties.v
TxList.v
Breadcrumbs.v
TxHeap.v
TxCache.v
SelectionTracker.v
TxSelection.v
TxListSpec.v
TxSelectionSpec.v
TxSelectionTheory.v
TxPoolSpec.v
TxReachable.v
MempoolProperties.v
