(* ===== verification/Prelude.v ===== *)
(** * Verification of mx-chain-go

    A model of the parts of the MultiversX node that decide what the state of
    the chain is and who may extend it, with the theorems that make them
    correct.  The definitions are pure functions translated from the Go source;
    they keep its names, and they run.

    ** The program and its parts

    A node keeps the accounts of its shard in a Merkle trie, and the storage of
    each account in one of its own.  The accounts database gives out accounts,
    saves and removes them, journals what it does so that the transactions of a
    block can be reverted, and commits all tries at its end.  The nodes that a
    block gave up wait until it is final, or until it is rolled back, and are
    then pruned from the storage.  Transactions wait in the mempool, which
    knows which blocks were proposed and not executed yet, and selects from it
    what goes into the next block.  Metachain nodes
    run the system smart contracts, among them the staking contract, which
    keeps the register and the queue of the validators.  At the end of an epoch
    the registered validators reach the nodes coordinator: it lets the shuffler
    distribute them over the shards, builds a selector per shard with the
    chances that the rater derives from each validator's rating, and selects
    the consensus group of every round.  Group sizes and the length of a round
    come from the chain parameters of the epoch, and so do the steps by which
    ratings change.

    ** The files, bottom up

    - Prelude: results, the state and error monad [SE] in which methods that
      change their receiver are written, wrap-around of unsigned integers, and
      tactics.  Encoding, GoValues, Floats: byte strings, strings, decimal
      numbers and hexadecimal, [strconv], and IEEE floats with the effect of
      rounding.
    - The trie (src/trie).  KeyBuilder: node.go and keyBuilder/keyBuilder.go.
      TrieNode: leafNode.go, extensionNode.go, branchNode.go, node.go; a node
      is a value of the inductive type [node], each method one function, with
      the receiver as the call leaves it.  PatriciaTrie: patriciaMerkleTrie.go.
      TrieSpec defines the abstract trie and what it denotes, TrieRefinement,
      TrieUpdate, TrieHash, TrieCommit and TrieProof show that the nodes
      implement it, PatriciaSpec that the trie is a finite map ([TrieRep]);
      TrieHashes: the collection of dirty and of all hashes; TrieProperties:
      concrete parameters and the theorems.
    - The storage of an account (src/state).  StateTrie: the interface of data
      tries, a type class that the trie of PatriciaTrie satisfies.
      TrackableDataTrie: trackableDataTrie/trackableDataTrie.go and the journal
      entry for its saves.  TrackableSpec, TrackableMap: dirty data and leaves
      of both versions are one map; StateProperties: theorems.
    - The accounts (src/state).  UserAccount: accounts/userAccount.go.
      AccountsDB: accountsDB.go, journalEntries.go and dataTriesHolder.go; the
      state is the record [AccountsDB].  Accounts and data tries are shared in
      the code (the caller, the journal and the holder have the same object),
      so the state has a list of each and everything else has indices.
      AccountsSpec: laws of the tries below ([StateTriesOk], [StateCommitOk])
      and the invariant [consistent], which relates a database to the map [M]
      of its main trie and the contents [D] of its data tries.
      AccountsJournal: what the entries since a snapshot undo ([reverts]), and
      a program logic for the operations ([inside]); AccountsOps: saving and
      the other operations keep both; AccountsRevert: the relation [run] of
      everything that can happen between two points, its roll-back, and
      commit, which is given the answer of the collector of state accesses;
      StateTriesInstance: the trie of PatriciaTrie satisfies the laws;
      AccountsStore: storage and codes of single accounts;
      AccountsProperties: concrete parameters and theorems.
    - Pruning (src/state/storagePruningManager).  PruningManager:
      evictionWaitingList/memoryEvictionWaitingList.go,
      pruningBuffer/pruningBuffer.go, storagePruningManager.go, and the calls
      of the block processors (src/process/block).  PruningSpec: the list is
      an index, what it holds for a chain of states ([waiting]), and what a
      pruning removes.  PruningProperties: the relation [history] of commits,
      finality, roll-backs and dismissed results, and the theorem.
    - The mempool (src/txcache).  GoCollections: [sort.Search], the order
      of [range], and container/heap.  TxList: wrappedTransaction.go,
      orderedTransactionsList.go, txListForSender.go.  Breadcrumbs: what a
      tracked block does to the accounts.  TxHeap: the competition of senders.
      TxCache: the maps by hash and by sender, txCache.go, eviction.go and
      autoClean.go; the state is the record [TxCache], of which
      SelectionTracker, selectionTracker.go, is a part.  TxSelection: the
      virtual session and selection.go.  TxListSpec: orders, lists and heaps.
      TxSelectionSpec, TxSelectionTheory: what a round does, the invariant of
      the loop, and that the order of senders does not matter.  TxPoolSpec:
      the mempool is consistent ([poolOk], up to the bytes that clearing it
      forgot) and its operations keep it so; TxReachable: the mempools that can
      be reached, by a step relation with every operation, [Clear] among them,
      accounts after the tracked blocks, and selections from consistent
      mempools.  MempoolProperties: theorems.
    - The system contracts (src/vm/systemSmartContracts).  SystemEI: the
      interface of the environment, a type class, and what contracts rely on
      ([SystemEIOk]).  Eei: eei.go, the state is the record [vmContext].
      EeiSpec: that it provides the interface.  StakingData: stakingSaveLoad.go
      and staking.proto.  WaitingList: the linked queue of
      stakingWaitingList.go.  Staking: staking.go, every function that [Execute]
      dispatches to, for any environment of the class.  StakingStore,
      QueueSpec, StakingLedger, StakingInvariant, StakingEpochEnd: the queue is
      a sequence, the storage holds a ledger ([holds]), handlers keep it
      consistent.  StakingInstance: concrete parameters.  EeiProperties and StakingProperties: the theorems.
    - Chain parameters and ratings.  Config: the structs of src/config.
      ChainParameters: sharding/chainParametersHolder.go, with its invariant.
      Ratings: process/rating/ratingsData.go and blockSigningRater.go, with
      their float32 and float64 arithmetic; RatingsSpec and RatingsProperties:
      lemmas and theorems.
    - Fees and settings (src/process/economics).  Economics: gasConfigHandler.go,
      rewardsConfigHandler.go, globalSettings.go, economicsData.go and
      apiEconomicsData.go; EconomicsProperties: theorems.
    - The validators (src/sharding/nodesCoordinator).  Validators: lists by
      shard and the operations on them.  Shuffler: hashValidatorShuffler.go and
      validatorDistributor.go.  ValidatorsSpec, ShufflerSpec,
      ShufflerProperties: multisets of validators and the theorems.  Selection:
      expandedListSampling.go and selectionBasedProvider.go, with SelectionSpec.
      NodesCoordinator, NodesRegistry, NodesEpoch: indexHashedNodesCoordinator
      and its variants with rater, with registry and lite; the state is the
      record [indexHashedNodesCoordinator].  NodesSpec and
      NodesProperties: lemmas and theorems.

    ** What the theorems show

    - TrieProperties, KeyBuilder: update, deletion and lookup refine the finite
      map; the root hash depends on the contents only, and determines them when
      hashes do not collide; what is committed is read back; Merkle proofs are
      sound and complete; updates commute, deletion undoes insertion, key
      encodings are invertible and prefix free.
    - StateProperties: the storage of an account refines a map; a save that
      fails leaves the trie as it was; reverting a save undoes it.
    - AccountsProperties: reverting to a snapshot gives back accounts, codes,
      data tries and the journal, whatever was done since and wherever it
      failed; a commit persists the main trie and the tries of the holder and
      returns the root hash of the accounts, unless the collector of state
      accesses or the eviction list refuses, and reverting to 0 gives it back;
      storage that is saved and committed is read back by any later database,
      when the holder has no other trie for the address; the counter of a code
      is the number of accounts that have it.
      [recreated_account_loses_storage] shows that storage is lost when the
      holder has another trie, which a reverted creation leaves there; the code
      does not mean to do this.
    - PruningProperties: the storage always holds the states from the last final
      one to the head; what is given up is removed, and no more than two root
      hashes per state wait.  The relation [history] has pruning not blocked,
      no return to an earlier state of the chain, commits that mark exactly the
      nodes in which states differ, and a list that is large enough.  [blocked_rollback_loses_node]
      shows a roll-back while it is blocked after which a needed node is lost.
    - MempoolProperties: whatever is done to it, the mempool stays consistent,
      but that its counter of bytes keeps those of cleared transactions;
      additions and removals concern both maps; a selection keeps its limits,
      follows the nonces of each sender after the tracked blocks, and takes
      only what can be paid; it ends, and it does not depend on the order in
      which senders are visited.
    - EeiProperties: a nested call that fails leaves nothing but the value that
      was transferred before it (gas, logs and messages aside, in the epochs of
      [MultiClaimOnDelegationFlag] and [AlwaysMergeContextsInEEIFlag]), one that
      succeeds adds up; transfers move
      exactly their value; the output shows exactly the context.
    - StakingProperties: every successful call of every function keeps queue,
      register and counters consistent, while there is room for another node,
      the initialisation comes first and the delegation contracts that are told
      of nodes that left do not write to the contract; stake, unStake and unBond do what they say; callers
      without access and views change nothing; the linked list is the queue.
    - ShufflerProperties: an epoch change loses and duplicates no validator,
      keeps the minimum of every shard and fails in exactly the stated cases;
      the order in which Go walks a map does not matter.
    - NodesProperties: selecting by segments is cutting the expanded list;
      every round of a prepared epoch has a group, of the configured size
      before Andromeda and of all eligible validators since; the group of a
      round is one of lists that the coordinator had since the cache of groups
      was last empty, and of the stored lists when none were loaded or set
      since; the saved state is read back.
    - EconomicsProperties: fees lie between their bounds although prices are
      multiplied by a float, gas is computed back from refunds and balances,
      and settings are those in force.  The fee is that of using all gas since
      the gas price modifier.  The bounds are for prices below 2^53, which
      float64 represents; [nan_modifier_is_accepted] and
      [cheap_configuration_is_accepted] are configurations that pass all checks
      and for which prices are undefined or a division panics.
    - RatingsProperties: parameters and steps are those in force at the epoch;
      steps have the right sign and fit int32 in spite of rounding; ratings
      stay in range and have the configured chance, which may be 0; more misses in a row never give a better rating.

    ** Parameters and hypotheses

    Code that is not under src/ is a parameter, mostly a type class, and its
    documented behaviour a class of laws: hasher, marshalizer and storage of
    the trie ([TrieExternals], [TrieStorage], [HasherOk] and the laws of
    PatriciaSpec), marshalizer of the contracts ([StakingMarshalizerOk]),
    accounts, argument parser and contracts behind the environment
    ([EeiEnv]), hashers of shuffler and selection, cache, storer and encoding
    of the coordinator ([CacherOk], [BootStorerOk], [RegistryEncodingOk]),
    [slices.SortFunc] ([SliceSortLaws]), the order of map iteration
    ([MapRangeLaws]), and the conversion of floats that no int32 holds, which
    Go leaves to the processor ([indefinite32]); hasher and leaf encoding of
    account storage ([TrackableEnv], [TrackableOk]), hasher and marshalizer of
    accounts and codes ([AccountsEnv], [AccountsEnvOk]), the removal of nodes
    from storage ([TrieStorageManager], [TrieStorageManagerOk]), the order of [range] over
    maps ([KeyRange], [KeyRangeOk]), the session and the fees of the mempool, the
    arithmetic of mx-chain-core-go ([CoreMath]), [sort.Slice] ([SortSlice]) and
    [math.Pow] ([MathPow]).
    The theorems on root hashes and proofs assume that the hasher is injective
    ([CollisionFree]); where the shuffler and account storage need hashes that
    do not collide, they are those of the inputs at hand.  Every theorem with a hypothesis has a
    witness at a concrete input.  The staking contract is verified for the
    present configuration of its activation flags ([ModernEpoch],
    [RepairedQueue]); the code for earlier epochs is modelled, and the theorems
    on views and on callers without access hold for it as well.

    ** Recursion and fuel

    The loops over the heap of senders get one more than the number of
    transactions that its items still have to offer; [selection_ends] shows
    that this is enough.  Recursion over nodes is structural or by fuel: hashing,
    committing and collecting dirty hashes get the height of the node,
    collecting all hashes gets a bound that the instance of the interface is
    given ([patriciaStateTries]), and fails below the depth of the trie, walks
    along a key get one more than its length, loops over the queue get its stored length, [big.Int] digits get the bits
    of the number.  The refinement theorems state the result, so they also show
    that the fuel is enough.  The loop over consecutive misses is structural in
    the number of misses.

    ** Not modelled

    Locks, since every modelled method holds its lock to the end or reads one
    field; logging, metrics and statistics.  Of the trie: iteration over leaves
    on channels, snapshots, migration and synchronisation.  Of
    src/vm/systemSmartContracts: the other contracts.  Of
    src/sharding: genesis nodes and peer mapping.  Of
    src/state: what a write reports to the observers, what the collector of
    state accesses records (only that it can refuse a commit is modelled), peer accounts, recreation of all tries, and snapshots of the
    whole state, which copy tries to another storage in the background.
    [ImportAccount] is modelled but not among the operations of [run]: it
    writes without journalling, for imports at a hardfork.  Of src/txcache: configuration checks,
    preemption, diagnosis and the methods of the cache interface that do
    nothing.  Not
    reached: rewards at the end of an epoch (src/epochStart), the fork
    detector (src/process/sync), the processing of blocks
    (src/process/block).  Left aside as
    input and output, wiring or presentation: src/api, src/cmd, src/facade,
    src/factory, src/node, src/p2p, src/dataRetriever, src/outport,
    src/statusHandler, src/heartbeat and test code. *)

From stdpp Require Import base gmap list strings fin_maps.
From Stdlib Require Import ZArith Lia.

(** ** Go values *)

(** A Go [[]byte] whose nil-ness the code does not separate from emptiness;
    a byte is an integer in [0, 256). *)
Abbreviation bytes := (list Z).

(** Go's unsigned conversions and wrap-around. *)
Definition u8 (x : Z) : Z := x mod 2 ^ 8.
Definition u32 (x : Z) : Z := x mod 2 ^ 32.
Definition u64 (x : Z) : Z := x mod 2 ^ 64.

(** Go's [copy(dst, src)]: overwrites the first min(len dst, len src) bytes of
    [dst] and keeps its length. *)
Definition go_copy {A} (dst src : list A) : list A :=
  take (length dst) src ++ drop (length src) dst.

(** ** Fallible code: a value or a Go error. *)

Inductive result (E A : Type) : Type :=
| Ok (a : A)
| Err (e : E).
Arguments Ok {E A} a.
Arguments Err {E A} e.

#[export] Instance result_ret {E} : MRet (result E) := fun A a => Ok a.
#[export] Instance result_bind {E} : MBind (result E) := fun A B f m =>
  match m with Ok a => f a | Err e => Err e end.
#[export] Instance result_fmap {E} : FMap (result E) := fun A B f m =>
  match m with Ok a => Ok (f a) | Err e => Err e end.

Definition is_Ok {E A} (r : result E A) : bool :=
  match r with Ok _ => true | Err _ => false end.

(** ** Methods that mutate their receiver and may fail

    [SE S E A]: a Go method on a receiver (or on a shared context) of state
    [S] that returns an [A] or an error.  The state after an error is the state
    the statements executed before the error left behind. *)

Definition SE (S E A : Type) : Type := S -> S * result E A.

#[export] Instance se_ret {S E} : MRet (SE S E) := fun A a s => (s, Ok a).
#[export] Instance se_bind {S E} : MBind (SE S E) := fun A B f m s =>
  match m s with
  | (s', Ok a) => f a s'
  | (s', Err e) => (s', Err e)
  end.

Definition se_get {S E} : SE S E S := fun s => (s, Ok s).
Definition se_modify {S E} (f : S -> S) : SE S E () := fun s => (f s, Ok ()).
Definition se_lift {S E A} (r : result E A) : SE S E A := fun s => (s, r).
(** [if b { return err }] *)
Definition se_guard {S E} (b : bool) (e : E) : SE S E () := fun s =>
  (s, if b then Err e else Ok ()).
(** [if err != nil { return err }] *)
Definition se_check {S E} (o : option E) : SE S E () := fun s =>
  (s, match o with Some e => Err e | None => Ok () end).
(** Runs a method and changes the error it returns. *)
Definition se_mapErr {S E F A} (f : E -> F) (m : SE S E A) : SE S F A := fun s =>
  match m s with
  | (s', Ok a) => (s', Ok a)
  | (s', Err e) => (s', Err (f e))
  end.
(** Runs a method that cannot see the error of an inner call: the error is
    returned as a value. *)
Definition se_try {S E F A} (m : SE S E A) : SE S F (result E A) := fun s =>
  match m s with (s', r) => (s', Ok r) end.
(** Runs a method of a part [T] of the state and writes the part back. *)
Definition se_zoom {S T E A} (get : S -> T) (put : T -> S -> S) (m : SE T E A) : SE S E A :=
  fun s => match m (get s) with (t, r) => (put t s, r) end.
(** Runs a method of [T] on a value and injects the result state. *)
Definition se_on {S T E A} (inj : T -> S) (m : SE T E A) (t : T) : S * result E A :=
  match m t with (t', r) => (inj t', r) end.

(** [for _, a := range l { body(a) }] that stops at the first error. *)
Fixpoint se_for {S E A} (l : list A) (body : A -> SE S E ()) : SE S E () :=
  match l with
  | [] => mret ()
  | a :: l => _ ← body a; se_for l body
  end.

Lemma se_bind_Ok {S E A B} (m : SE S E A) (f : A -> SE S E B) s s' b :
  (m ≫= f) s = (s', Ok b) <-> exists s1 a, m s = (s1, Ok a) /\ f a s1 = (s', Ok b).
Proof.
  unfold mbind, se_bind. destruct (m s) as [s1 [a|e]]; split.
  - eauto.
  - intros (s2 & a' & E1 & E2). by injection E1 as -> ->.
  - done.
  - intros (s2 & a' & E1 & E2). done.
Qed.

Lemma se_bind_eq {S E A B} (m : SE S E A) (f : A -> SE S E B) s s1 a :
  m s = (s1, Ok a) -> (m ≫= f) s = f a s1.
Proof. unfold mbind, se_bind. by intros ->. Qed.

Lemma se_bind_err {S E A B} (m : SE S E A) (f : A -> SE S E B) s s1 e :
  m s = (s1, Err e) -> (m ≫= f) s = (s1, Err e).
Proof. unfold mbind, se_bind. by intros ->. Qed.

(** A loop that does not fail keeps an invariant on what it has visited. *)
Lemma se_for_ind {S E A} (P : list A -> S -> Prop) (body : A -> SE S E ()) l s :
  P [] s ->
  (forall done a rest s, l = done ++ a :: rest -> P done s ->
     exists s', body a s = (s', Ok ()) /\ P (done ++ [a]) s') ->
  exists s', se_for l body s = (s', Ok ()) /\ P l s'.
Proof.
  intros H0 Hstep.
  assert (G : forall rest dn s, l = dn ++ rest -> P dn s ->
    exists s', se_for rest body s = (s', Ok ()) /\ P l s').
  { induction rest as [|a rest IH]; intros dn s0 El H.
    - rewrite app_nil_r in El. subst. by exists s0.
    - destruct (Hstep dn a rest s0 El H) as (s1 & E1 & H1). cbn [se_for].
      unfold mbind, se_bind. rewrite E1. apply (IH (dn ++ [a])); [|done].
      by rewrite <- app_assoc. }
  by apply (G l []).
Qed.

Declare Scope go_scope.
Delimit Scope go_scope with go.
Open Scope Z_scope.

(** ** Automation *)

Create HintDb go.

Ltac invc H := inversion H; subst; clear H.

(** Case analysis on the scrutinee of the first match or if of the goal or of
    a hypothesis, remembering the equation. *)
Ltac case_goal :=
  match goal with
  | |- context [match ?x with _ => _ end] => destruct x eqn:?
  end.
Ltac case_in H :=
  match type of H with
  | context [match ?x with _ => _ end] => destruct x eqn:?
  end.

(** Bool conditions of the code to propositions. *)
#[export] Hint Rewrite andb_true_iff andb_false_iff orb_true_iff orb_false_iff
  negb_true_iff negb_false_iff Z.eqb_eq Z.eqb_neq Z.ltb_lt Z.ltb_ge Z.leb_le
  Z.leb_gt bool_decide_eq_true bool_decide_eq_false : go_bool.
Ltac bool_prop := repeat progress (autorewrite with go_bool in *).

(** ** Lists *)

Section lists.
Context {A : Type}.
Implicit Types (l : list A).

Lemma go_copy_length l1 l2 : length (go_copy l1 l2) = length l1.
Proof. unfold go_copy. rewrite length_app, length_take, length_drop. lia. Qed.

Lemma go_copy_same l1 l2 : length l1 = length l2 -> go_copy l1 l2 = l2.
Proof.
  intros H. unfold go_copy.
  rewrite take_ge, drop_ge, app_nil_r by lia. done.
Qed.
End lists.

#[export] Hint Rewrite @go_copy_length : go.
#[export] Hint Resolve go_copy_same : go.
