(* ===== verification/Encoding.v ===== *)
(** * Length-prefixed encodings

    Lists of byte strings as one byte string: what the concrete marshalizers
    of the instances are built from. *)

From stdpp Require Import base gmap list.
From Stdlib Require Import ZArith Lia.
From S2P Require Import Prelude.

Definition enc_list (l : bytes) : bytes := Z.of_nat (length l) :: l.
Definition dec_list (b : bytes) : option (bytes * bytes) :=
  match b with
  | [] => None
  | n :: r => Some (take (Z.to_nat n) r, drop (Z.to_nat n) r)
  end.

Lemma dec_enc_list l r : dec_list (enc_list l ++ r) = Some (l, r).
Proof. cbn. by rewrite Nat2Z.id, take_app_length, drop_app_length. Qed.

Fixpoint enc_lists (ls : list bytes) : bytes :=
  match ls with [] => [] | l :: ls => enc_list l ++ enc_lists ls end.
Fixpoint dec_lists (n : nat) (b : bytes) : option (list bytes * bytes) :=
  match n with
  | O => Some ([], b)
  | S n => '(l, b) ← dec_list b; '(ls, b) ← dec_lists n b; Some (l :: ls, b)
  end.

Lemma dec_enc_lists ls r : dec_lists (length ls) (enc_lists ls ++ r) = Some (ls, r).
Proof.
  induction ls as [|l ls IH]; [done|].
  cbn [length enc_lists dec_lists]. rewrite <- app_assoc, dec_enc_list. cbn. by rewrite IH.
Qed.

(** A type with fields: [ser] lists their bytes and [de] reads them back. *)
Class Serial (T : Type) (num : nat) := {
  ser : T -> list bytes;
  de : list bytes -> option T;
  ser_length x : length (ser x) = num;
  de_ser x : de (ser x) = Some x;
}.

Definition b2z (b : bool) : Z := if b then 1 else 0.
Definition z2b (z : Z) : bool := Z.odd z.
Lemma z2b_b2z b : z2b (b2z b) = b.
Proof. by destruct b. Qed.

Definition enc_option (o : option Z) : bytes := match o with Some v => [v] | None => [] end.
Definition dec_option (b : bytes) : option Z := head b.
Lemma dec_enc_option o : dec_option (enc_option o) = o.
Proof. by destruct o. Qed.

Section Serial.
Context {T : Type} {num : nat} {SR : Serial T num}.
Context {E : Type}.

Definition marshalSerial (x : T) : result E bytes := Ok (enc_lists (ser x)).
Definition unmarshalSerial (e : E) (b : bytes) : result E T :=
  match dec_lists num b ≫= (fun p => de p.1) with Some x => Ok x | None => Err e end.

Lemma unmarshal_marshal e x b : marshalSerial x = Ok b -> unmarshalSerial e b = Ok x.
Proof.
  intros [= <-]. unfold unmarshalSerial. pose proof (dec_enc_lists (ser x) []) as D.
  rewrite ser_length, app_nil_r in D. rewrite D. cbn. by rewrite de_ser.
Qed.

Lemma marshal_nonempty x : (0 < num)%nat -> enc_lists (ser x) <> [].
Proof.
  intros H. pose proof (ser_length x) as L. destruct (ser x) as [|l ls]; cbn in *; [lia|done].
Qed.
End Serial.
