(* ===== verification/KeyBuilder.v ===== *)
(** * Trie keys: nibbles and the key builder

    Models trie/keyBuilder/keyBuilder.go (the accumulator that the trie
    traversals use to rebuild a key) and the key functions of trie/node.go:
    [keyBytesToHex], its inverse [hexToTrieKeyBytes], [prefixLen] and
    [concat].  The theorems: both conversions are inverse of each other, the
    hex form is injective and prefix free (its terminator closes it), and a
    traversal that rebuilds the nibbles of a key gets that key back. *)

From stdpp Require Import base list.
From Stdlib Require Import ZArith Lia.
From S2P Require Import Prelude.

Inductive kb_error := ErrInvalidLength.

Definition NibbleSize : Z := 4.
Definition nibbleMask : Z := 15.
Definition hexTerminator : Z := 16.
Definition nrOfChildren : nat := 17.

(** The loop of [keyBytesToHex]: the source walks [str] forward and fills
    [nibbles] from its end; the last byte's nibbles come first, each byte as
    low nibble, high nibble. *)
Fixpoint keyBytesToHex_loop (str nibbles : bytes) : bytes :=
  match str with
  | [] => nibbles
  | b :: str' =>
      keyBytesToHex_loop str'
        (Z.land b nibbleMask :: Z.shiftr b NibbleSize :: nibbles)
  end.

Definition keyBytesToHex (str : bytes) : bytes :=
  keyBytesToHex_loop str [hexTerminator].

(** The loop of [hexToTrieKeyBytes]: two nibbles of [hex] at a time, written
    into [key] from its last byte to its first; [<<] on a byte wraps. *)
Fixpoint hexToTrieKeyBytes_loop (hex key : bytes) : bytes :=
  match hex with
  | lo :: hi :: hex' =>
      hexToTrieKeyBytes_loop hex'
        (Z.lor (u8 (Z.shiftl hi NibbleSize)) lo :: key)
  | _ => key
  end.

(** The source slices off the last element before anything else; on an empty
    [hex] that slice expression panics, here it is the empty key. *)
Definition hexToTrieKeyBytes (hex : bytes) : result kb_error bytes :=
  let hex := take (length hex - 1) hex in
  if Nat.odd (length hex) then Err ErrInvalidLength
  else Ok (hexToTrieKeyBytes_loop hex []).

(** prefixLen returns the length of the common prefix of a and b. *)
Fixpoint prefixLen (a b : bytes) : nat :=
  match a, b with
  | x :: a', y :: b' => if x =? y then S (prefixLen a' b') else 0%nat
  | _, _ => 0%nat
  end.

Definition concat (s1 s2 : bytes) : bytes := s1 ++ s2.

Definition childPosOutOfRange (pos : Z) : bool := Z.of_nat nrOfChildren <=? pos.

(** ** The key builder *)

Record keyBuilder := { kb_key : bytes }.

Definition NewKeyBuilder : keyBuilder := {| kb_key := [] |}.
Definition BuildKey (kb : keyBuilder) (keyPart : bytes) : keyBuilder :=
  {| kb_key := kb_key kb ++ keyPart |}.
Definition GetKey (kb : keyBuilder) : result kb_error bytes :=
  hexToTrieKeyBytes (kb_key kb).
Definition GetRawKey (kb : keyBuilder) : bytes := kb_key kb.
Definition Size (kb : keyBuilder) : Z := Z.of_nat (length (kb_key kb)).
Definition DeepClone (kb : keyBuilder) : keyBuilder :=
  {| kb_key := go_copy (replicate (length (kb_key kb)) 0) (kb_key kb) |}.

(** ** Hex keys *)

Definition is_nibble (x : Z) : Prop := 0 <= x < 16.
Definition is_byte (x : Z) : Prop := 0 <= x < 256.

(** Closed lists of bytes. *)
Ltac solve_bytes := repeat constructor; unfold is_byte, is_nibble; lia.

(** The keys that the trie sees: nibbles closed by the terminator. *)
Definition hexkey (k : bytes) : Prop :=
  exists ns, k = ns ++ [hexTerminator] /\ Forall is_nibble ns.

Lemma loop_app str acc :
  keyBytesToHex_loop str acc = keyBytesToHex_loop str [] ++ acc.
Proof.
  revert acc. induction str as [|b str IH]; intros acc; [done|].
  cbn [keyBytesToHex_loop]. rewrite IH, (IH [_; _]), <- app_assoc. done.
Qed.

Lemma keyBytesToHex_cons b str :
  keyBytesToHex (b :: str) =
  keyBytesToHex_loop str [] ++ [Z.land b nibbleMask; Z.shiftr b NibbleSize; hexTerminator].
Proof. unfold keyBytesToHex. cbn [keyBytesToHex_loop]. rewrite loop_app. done. Qed.

Lemma low_nibble b : Z.land b nibbleMask = b mod 16.
Proof. unfold nibbleMask. change 15 with (Z.ones 4). rewrite Z.land_ones by lia. done. Qed.

Lemma high_nibble b : Z.shiftr b NibbleSize = b / 16.
Proof. unfold NibbleSize. rewrite Z.shiftr_div_pow2 by lia. done. Qed.

Lemma join_nibbles hi lo :
  is_nibble hi -> is_nibble lo ->
  Z.lor (u8 (Z.shiftl hi NibbleSize)) lo = hi * 16 + lo.
Proof.
  unfold is_nibble, NibbleSize, u8. intros Hh Hl.
  rewrite Z.shiftl_mul_pow2, Z.mod_small by lia.
  rewrite <- Z.lxor_lor, <- Z.add_nocarry_lxor; [done| |];
    apply Z.bits_inj'; intros i Hi; rewrite Z.land_spec, Z.bits_0;
    destruct (Z.lt_ge_cases i 4).
  1,3: rewrite Z.mul_pow2_bits_low by lia; done.
  all: rewrite (Z.bits_above_log2 lo i), andb_false_r; try lia; try done.
  all: destruct (Z.eq_dec lo 0) as [->|]; [cbn; lia|].
  all: apply Z.log2_lt_pow2; [lia|].
  all: apply Z.lt_le_trans with (2 ^ 4); [lia|apply Z.pow_le_mono_r; lia].
Qed.

Lemma split_byte b : is_byte b ->
  is_nibble (Z.land b nibbleMask) /\ is_nibble (Z.shiftr b NibbleSize).
Proof.
  unfold is_byte, is_nibble. intros H. rewrite low_nibble, high_nibble.
  pose proof (Z.mod_pos_bound b 16). split; [lia|].
  split; [apply Z.div_pos; lia|apply Z.div_lt_upper_bound; lia].
Qed.

Lemma rejoin_byte b : is_byte b ->
  Z.lor (u8 (Z.shiftl (Z.shiftr b NibbleSize) NibbleSize)) (Z.land b nibbleMask) = b.
Proof.
  intros H. destruct (split_byte _ H). rewrite join_nibbles by done.
  rewrite low_nibble, high_nibble. pose proof (Z.div_mod b 16). lia.
Qed.

Lemma loop_nibbles str :
  Forall is_byte str -> Forall is_nibble (keyBytesToHex_loop str []).
Proof.
  induction 1 as [|b str Hb _ IH]; cbn [keyBytesToHex_loop]; [done|].
  rewrite loop_app. destruct (split_byte _ Hb).
  apply Forall_app; auto.
Qed.

Lemma loop_length str acc :
  length (keyBytesToHex_loop str acc) = (2 * length str + length acc)%nat.
Proof.
  revert acc. induction str as [|b str IH]; intros acc; cbn [keyBytesToHex_loop length]; [lia|].
  rewrite IH. cbn [length]. lia.
Qed.

Lemma keyBytesToHex_split str :
  keyBytesToHex str = keyBytesToHex_loop str [] ++ [hexTerminator].
Proof. apply loop_app. Qed.

Lemma keyBytesToHex_hexkey str : Forall is_byte str -> hexkey (keyBytesToHex str).
Proof.
  intros H. exists (keyBytesToHex_loop str []).
  rewrite keyBytesToHex_split. auto using loop_nibbles.
Qed.

Lemma hexToTrieKeyBytes_loop_app str acc key :
  Forall is_byte str ->
  hexToTrieKeyBytes_loop (keyBytesToHex_loop str acc) key =
  hexToTrieKeyBytes_loop acc (str ++ key).
Proof.
  intros H. revert acc key. induction H as [|b str Hb _ IH]; intros acc key; [done|].
  cbn [keyBytesToHex_loop]. rewrite IH. cbn [hexToTrieKeyBytes_loop].
  rewrite rejoin_byte by done. done.
Qed.

(** ** Common prefixes *)

Lemma prefixLen_le a b : (prefixLen a b <= length a)%nat /\ (prefixLen a b <= length b)%nat.
Proof.
  revert b. induction a as [|x a IH]; intros [|y b]; cbn [prefixLen length]; try lia.
  destruct (x =? y); [|lia]. destruct (IH b). lia.
Qed.

Lemma prefixLen_take a b : take (prefixLen a b) a = take (prefixLen a b) b.
Proof.
  revert b. induction a as [|x a IH]; intros [|y b]; cbn [prefixLen]; try done.
  destruct (Z.eqb_spec x y) as [->|]; [|done]. cbn [take]. f_equal. apply IH.
Qed.

(** The prefix is maximal: right after it the keys differ. *)
Lemma prefixLen_differ a b x y a' b' :
  drop (prefixLen a b) a = x :: a' -> drop (prefixLen a b) b = y :: b' -> x <> y.
Proof.
  revert b. induction a as [|u a IH]; intros [|v b]; cbn [prefixLen]; try done.
  destruct (Z.eqb_spec u v) as [->|]; cbn [drop]; [apply IH|congruence].
Qed.

Lemma prefixLen_app k a : prefixLen (k ++ a) k = length k.
Proof. induction k as [|x k IH]; cbn; [by destruct a|]. by rewrite Z.eqb_refl, IH. Qed.

Lemma prefixLen_whole a b : prefixLen a b = length b -> exists r, a = b ++ r.
Proof.
  intros H. exists (drop (length b) a).
  rewrite <- (take_drop (length b) a) at 1. rewrite <- H at 1.
  rewrite prefixLen_take, H, take_ge by lia. done.
Qed.

(** Two keys of which neither is a prefix of the other split at their common
    prefix into two different continuations. *)
Lemma prefixLen_split a b :
  (forall r, a <> b ++ r) -> (forall r, b <> a ++ r) ->
  exists p x y a' b', a = p ++ x :: a' /\ b = p ++ y :: b' /\ x <> y /\
    length p = prefixLen a b.
Proof.
  intros Ha Hb. set (n := prefixLen a b).
  destruct (prefixLen_le a b) as [La Lb].
  destruct (drop n a) as [|x a'] eqn:Ea.
  { apply (f_equal length) in Ea. rewrite length_drop in Ea. cbn in Ea.
    exfalso. apply (Hb (drop n b)). rewrite <- (take_drop n b) at 1. f_equal.
    unfold n. rewrite <- prefixLen_take. apply take_ge. unfold n in Ea. lia. }
  destruct (drop n b) as [|y b'] eqn:Eb.
  { apply (f_equal length) in Eb. rewrite length_drop in Eb. cbn in Eb.
    exfalso. apply (Ha (drop n a)). rewrite <- (take_drop n a) at 1. f_equal.
    unfold n. rewrite prefixLen_take. apply take_ge. unfold n in Eb. lia. }
  exists (take n a), x, y, a', b'. split_and!.
  - by rewrite <- Ea, take_drop.
  - unfold n. rewrite prefixLen_take. fold n. by rewrite <- Eb, take_drop.
  - eauto using prefixLen_differ.
  - rewrite length_take. lia.
Qed.

(** ** Hex keys are prefix free *)

Lemma hexkey_nonempty k : hexkey k -> k <> [].
Proof. intros (ns & -> & _). by destruct ns. Qed.

Lemma hexkey_cons x k :
  hexkey (x :: k) <-> (x = hexTerminator /\ k = []) \/ (is_nibble x /\ hexkey k).
Proof.
  split.
  - intros ([|n ns] & E & H).
    + injection E as -> ->. by left.
    + injection E as -> ->. invc H. right. split; [done|]. by exists ns.
  - intros [[-> ->]|[Hx (ns & -> & H)]].
    + by exists [].
    + exists (x :: ns). auto.
Qed.

Lemma nibble_not_terminator x : is_nibble x -> x <> hexTerminator.
Proof. unfold is_nibble, hexTerminator. lia. Qed.

Lemma hexkey_app_nibbles p k : Forall is_nibble p -> hexkey (p ++ k) <-> hexkey k.
Proof.
  induction 1 as [|x p Hx _ IH]; [done|]. cbn [app]. rewrite hexkey_cons, IH.
  pose proof (nibble_not_terminator x Hx). naive_solver.
Qed.

Lemma hexkey_prefix_nibbles p x k : hexkey (p ++ x :: k) -> Forall is_nibble p.
Proof.
  induction p as [|y p IH]; [done|]. cbn [app]. rewrite hexkey_cons.
  intros [[_ E]|[Hy H]]; [by destruct p|]. auto.
Qed.

Lemma hexkey_prefix_free k k' r : hexkey k -> hexkey k' -> k' = k ++ r -> r = [].
Proof.
  revert k'. induction k as [|x k IH]; intros k' Hk Hk' ->.
  - by apply hexkey_nonempty in Hk.
  - apply hexkey_cons in Hk. cbn [app] in Hk'. apply hexkey_cons in Hk'.
    destruct Hk as [[-> ->]|[Hx Hk]], Hk' as [[E1 E2]|[Hx' Hk']].
    + done.
    + by apply nibble_not_terminator in Hx'.
    + by apply app_eq_nil in E2 as [-> ->].
    + eauto.
Qed.

(** Different hex keys split at the end of their common prefix. *)
Lemma hexkey_split a b :
  hexkey a -> hexkey b -> a <> b ->
  exists p x y a' b', a = p ++ x :: a' /\ b = p ++ y :: b' /\ x <> y /\
    length p = prefixLen a b.
Proof.
  intros Ha Hb Hne. apply prefixLen_split; intros r E.
  - pose proof (hexkey_prefix_free _ _ _ Hb Ha E). subst r. by rewrite app_nil_r in E.
  - pose proof (hexkey_prefix_free _ _ _ Ha Hb E). subst r. by rewrite app_nil_r in E.
Qed.

Lemma hexkey_range x k : hexkey (x :: k) -> childPosOutOfRange x = false.
Proof.
  rewrite hexkey_cons. unfold childPosOutOfRange, is_nibble, hexTerminator, nrOfChildren.
  intros [[-> _]|[H _]]; [done|]. apply Z.leb_gt. lia.
Qed.

#[export] Hint Resolve hexkey_nonempty hexkey_range keyBytesToHex_hexkey : go.

(** ** Round trips *)

Lemma hexToTrieKeyBytes_of_nibbles str :
  Forall is_byte str ->
  hexToTrieKeyBytes (keyBytesToHex_loop str [] ++ [hexTerminator]) = Ok str.
Proof.
  intros H. unfold hexToTrieKeyBytes.
  rewrite take_app_le, take_ge by (rewrite length_app; cbn; lia).
  rewrite loop_length. cbn [length]. rewrite Nat.add_0_r, Nat.odd_mul. cbn [Nat.odd Nat.even negb andb].
  rewrite hexToTrieKeyBytes_loop_app by done. cbn. by rewrite app_nil_r.
Qed.

(** The nibble form loses nothing: for every key made of bytes,
    [hexToTrieKeyBytes (keyBytesToHex k)] succeeds and gives [k] back, however
    the traversal that rebuilds the hex key cuts it into parts: feeding any
    parts whose concatenation is the hex key to the key builder and asking for
    the key yields [k]. *)
Theorem keyBytesToHex_roundtrip (k : bytes) (parts : list bytes)
    (Hk : Forall is_byte k) (Hparts : mjoin parts = keyBytesToHex k) :
  hexToTrieKeyBytes (keyBytesToHex k) = Ok k /\
  GetKey (fold_left BuildKey parts NewKeyBuilder) = Ok k.
Proof.
  assert (E : hexToTrieKeyBytes (keyBytesToHex k) = Ok k).
  { rewrite keyBytesToHex_split. by apply hexToTrieKeyBytes_of_nibbles. }
  split; [done|]. unfold GetKey. rewrite <- E, <- Hparts. f_equal.
  assert (G : forall ps kb, kb_key (fold_left BuildKey ps kb) = kb_key kb ++ mjoin ps).
  { induction ps as [|p ps IH]; intros kb; cbn; [by rewrite app_nil_r|].
    rewrite IH. cbn. by rewrite <- app_assoc. }
  apply G.
Qed.

Lemma keyBytesToHex_roundtrip_witness :
  hexToTrieKeyBytes (keyBytesToHex [18; 255; 0]) = Ok [18; 255; 0] /\
  GetKey (fold_left BuildKey [[0]; [0; 15]; []; [15; 2]; [1; 16]] NewKeyBuilder) = Ok [18; 255; 0].
Proof.
  apply (keyBytesToHex_roundtrip [18; 255; 0] [[0]; [0; 15]; []; [15; 2]; [1; 16]]).
  - solve_bytes.
  - reflexivity.
Defined.

Lemma keyBytesToHex_inj k1 k2 :
  Forall is_byte k1 -> Forall is_byte k2 -> keyBytesToHex k1 = keyBytesToHex k2 -> k1 = k2.
Proof.
  intros H1 H2 E. rewrite !keyBytesToHex_split in E.
  assert (Some (Ok (E := kb_error) k1) = Some (Ok k2)) as [=]; [|done].
  by rewrite <- (hexToTrieKeyBytes_of_nibbles k1), <- (hexToTrieKeyBytes_of_nibbles k2), E.
Qed.

(** The hex form of keys is a prefix-free code: if the hex key of [k1] is a
    prefix of that of [k2], both keys are equal; so no key of the trie ends at
    an inner node of another key's path. *)
Theorem keyBytesToHex_prefix_free (k1 k2 r : bytes)
    (H1 : Forall is_byte k1) (H2 : Forall is_byte k2)
    (E : keyBytesToHex k2 = keyBytesToHex k1 ++ r) : k1 = k2.
Proof.
  pose proof (hexkey_prefix_free _ _ _ (keyBytesToHex_hexkey _ H1) (keyBytesToHex_hexkey _ H2) E).
  subst r. rewrite app_nil_r in E. symmetry. by apply keyBytesToHex_inj.
Qed.

Lemma keyBytesToHex_prefix_free_witness : [7; 1] = [7; 1].
Proof.
  apply (keyBytesToHex_prefix_free [7; 1] [7; 1] []).
  - solve_bytes.
  - solve_bytes.
  - reflexivity.
Defined.
