(* ===== verification/TrieNode.v ===== *)
(** * Trie nodes

    Models trie/node.go, trie/leafNode.go, trie/extensionNode.go and
    trie/branchNode.go: the three node types, their hashing, collapsing,
    encoding and decoding, lookup, insertion, deletion and commit.

    A node is a tree value; a method is a function of its receiver that returns
    the receiver as the call leaves it (see [SE] in the prelude).  Values stand
    for the pointers of the source because a node has one parent: wherever the
    source makes a new parent for an existing child it drops the old parent.
    The marshalizer and the hasher, which a trie gives to all its nodes and
    [NewTrie] refuses as nil, are parameters ([TrieExternals]), as is the
    storage ([TrieStorage]); logging and statistics are left out. *)

From stdpp Require Import base list strings.
From Stdlib Require Import ZArith Lia.
From S2P Require Import Prelude KeyBuilder.

(** ** Errors of trie/errors.go and of the calls the nodes make *)

Inductive trie_error :=
| ErrInvalidNode
| ErrInvalidEncoding
| ErrValueTooShort
| ErrChildPosOutOfRange
| ErrNodeNotFound
| ErrEmptyBranchNode
| ErrEmptyExtensionNode
| ErrEmptyLeafNode
| ErrNilNode
| ErrInvalidNodeVersion
| ErrInvalidLevelValue
| ErrInvalidTrieNodeVersion
| ErrMarshal (** an error of the marshalizer *)
| ErrStorage (** an error of the storage *)
| GetNodeFromDBErr (key : bytes) (err : trie_error)
| ErrWrap (op : string) (err : trie_error) (** fmt.Errorf("op %w", err) *)
| RuntimePanic (** nil dereference or index out of range in the source *)
| OutOfFuel. (** the model's recursion bound, see [node_tryGetWithVersion] *)

(** ** Code outside the repository *)

(** core.TrieData *)
Record TrieData := {
  td_Key : bytes;
  td_Value : option bytes; (** None is the nil slice *)
  td_Version : Z;
}.

(** The parts of the nodes that are stored (trie/node.proto). *)
Record CollapsedBn := { EncodedChildren : list bytes; ChildrenVersion : bytes }.
Record CollapsedEn := { en_Key : bytes; EncodedChild : bytes; ChildVersion : Z }.
Record CollapsedLn := { ln_Key : bytes; ln_Value : option bytes; ln_Version : Z }.

Class TrieExternals := {
  (** hashing.Hasher *)
  Compute : bytes -> bytes;
  (** marshal.Marshalizer, on the three stored structures *)
  MarshalBn : CollapsedBn -> result trie_error bytes;
  MarshalEn : CollapsedEn -> result trie_error bytes;
  MarshalLn : CollapsedLn -> result trie_error bytes;
  UnmarshalBn : bytes -> result trie_error CollapsedBn;
  UnmarshalEn : bytes -> result trie_error CollapsedEn;
  UnmarshalLn : bytes -> result trie_error CollapsedLn;
  (** core.NotSpecified, a core.TrieNodeVersion *)
  NotSpecified : Z;
}.

(** common.TrieStorageInteractor and common.BaseStorer. *)
Class TrieStorage (DB : Type) := {
  db_Get : DB -> bytes -> result trie_error bytes;
  db_Put : DB -> bytes -> bytes -> result trie_error DB;
}.

(** ** Nodes *)

Record baseNode := { hash : option bytes; dirty : bool }.

Record leafN := { ln_collapsed : CollapsedLn; ln_base : baseNode }.

Record extN (node : Type) := {
  en_collapsed : CollapsedEn;
  en_child : option node;
  en_base : baseNode;
}.
Arguments en_collapsed {node}.
Arguments en_child {node}.
Arguments en_base {node}.

Record branchN (node : Type) := {
  bn_collapsed : CollapsedBn;
  bn_children : list (option node);
  bn_base : baseNode;
}.
Arguments bn_collapsed {node}.
Arguments bn_children {node}.
Arguments bn_base {node}.

(** The node interface. *)
Inductive node :=
| NLeaf (ln : leafN)
| NExt (en : extN node)
| NBranch (bn : branchN node).

Abbreviation extensionNode := (extN node).
Abbreviation branchNode := (branchN node).

(** Node type bytes: the iota constants of trie/patriciaMerkleTrie.go. *)
Definition extension : Z := 0.
Definition leaf : Z := 1.
Definition branch : Z := 2.

Definition newBase : baseNode := {| hash := None; dirty := true |}.

(** A hash slice as bytes; nil is empty. *)
Definition hash_bytes (h : option bytes) : bytes := default [] h.

(** bytes.Equal: nil and empty are equal. *)
Definition bytes_Equal (a b : option bytes) : bool :=
  bool_decide (default [] a = default [] b).

(** Field updates. *)
Definition ln_set_base (b : baseNode) (ln : leafN) : leafN :=
  {| ln_collapsed := ln_collapsed ln; ln_base := b |}.
Definition en_set_base (b : baseNode) (en : extensionNode) : extensionNode :=
  {| en_collapsed := en_collapsed en; en_child := en_child en; en_base := b |}.
Definition en_set_child (c : option node) (en : extensionNode) : extensionNode :=
  {| en_collapsed := en_collapsed en; en_child := c; en_base := en_base en |}.
Definition en_set_encoded (h : bytes) (en : extensionNode) : extensionNode :=
  {| en_collapsed := {| en_Key := en_Key (en_collapsed en); EncodedChild := h;
                        ChildVersion := ChildVersion (en_collapsed en) |};
     en_child := en_child en; en_base := en_base en |}.
Definition bn_set_base (b : baseNode) (bn : branchNode) : branchNode :=
  {| bn_collapsed := bn_collapsed bn; bn_children := bn_children bn; bn_base := b |}.
Definition bn_set_child (pos : Z) (c : option node) (bn : branchNode) : branchNode :=
  {| bn_collapsed := bn_collapsed bn;
     bn_children := <[Z.to_nat pos := c]> (bn_children bn); bn_base := bn_base bn |}.
Definition bn_set_encoded (pos : Z) (h : bytes) (bn : branchNode) : branchNode :=
  {| bn_collapsed :=
       {| EncodedChildren := <[Z.to_nat pos := h]> (EncodedChildren (bn_collapsed bn));
          ChildrenVersion := ChildrenVersion (bn_collapsed bn) |};
     bn_children := bn_children bn; bn_base := bn_base bn |}.
Definition bn_set_versions (v : bytes) (bn : branchNode) : branchNode :=
  {| bn_collapsed := {| EncodedChildren := EncodedChildren (bn_collapsed bn);
                        ChildrenVersion := v |};
     bn_children := bn_children bn; bn_base := bn_base bn |}.

Definition bn_child (bn : branchNode) (pos : Z) : option node :=
  nth (Z.to_nat pos) (bn_children bn) None.
Definition bn_encoded (bn : branchNode) (pos : Z) : bytes :=
  nth (Z.to_nat pos) (EncodedChildren (bn_collapsed bn)) [].
Definition bn_version (bn : branchNode) (pos : Z) : Z :=
  nth (Z.to_nat pos) (ChildrenVersion (bn_collapsed bn)) 0.

(** The positions that a [for i := range bn.children] visits. *)
Definition positions : list Z := Z.of_nat <$> seq 0 nrOfChildren.

(** [bn.children[i] != nil || len(bn.EncodedChildren[i]) != 0] *)
Definition bn_present (bn : branchNode) (i : Z) : bool :=
  bool_decide (is_Some (bn_child bn i)) || negb (bool_decide (bn_encoded bn i = [])).

Definition set_hash (h : option bytes) (b : baseNode) : baseNode :=
  {| hash := h; dirty := dirty b |}.

(** ** Getters shared by the node types *)

Definition node_base (n : node) : baseNode :=
  match n with
  | NLeaf ln => ln_base ln
  | NExt en => en_base en
  | NBranch bn => bn_base bn
  end.
Definition set_base (b : baseNode) (n : node) : node :=
  match n with
  | NLeaf ln => NLeaf (ln_set_base b ln)
  | NExt en => NExt (en_set_base b en)
  | NBranch bn => NBranch (bn_set_base b bn)
  end.
Definition getHash (n : node) : option bytes := hash (node_base n).
Definition isDirty (n : node) : bool := dirty (node_base n).
Definition setGivenHash (h : option bytes) (n : node) : node :=
  set_base (set_hash h (node_base n)) n.

(** ** What the methods return *)

(** (value, depth, version); an error comes with the depth it occurred at. *)
Abbreviation get_result := (option bytes * Z * Z)%type.
Abbreviation get_error := (Z * trie_error)%type.

(** The new node, nil when nothing changes, and the hashes of the stored nodes
    that the insertion made obsolete. *)
Abbreviation insert_result := (option node * list (option bytes))%type.

(** Whether the key was there, the node that takes the place of the receiver,
    and the hashes of the stored nodes that the deletion made obsolete. *)
Abbreviation delete_result := (bool * option node * list (option bytes))%type.

(** ** Versions *)

Section Externals.
Context {X : TrieExternals} {DB : Type} {ST : TrieStorage DB}.

Abbreviation M S A := (SE S trie_error A).

Definition maxUint8 : Z := 255.

Definition leafNode_getVersion (ln : leafN) : result trie_error Z :=
  if maxUint8 <? ln_Version (ln_collapsed ln) then Err ErrInvalidNodeVersion
  else Ok (ln_Version (ln_collapsed ln)).

Definition extensionNode_getVersion (en : extensionNode) : result trie_error Z :=
  if maxUint8 <? ChildVersion (en_collapsed en) then Err ErrInvalidNodeVersion
  else Ok (ChildVersion (en_collapsed en)).

(** The first loop of getVersion: the version of the first present child and
    the positions after it. *)
Fixpoint getVersion_first (slots : list (bool * Z)) : Z * list (bool * Z) :=
  match slots with
  | [] => (0, [])
  | (false, _) :: slots' => getVersion_first slots'
  | (true, v) :: slots' => (v, slots')
  end.

Definition bn_slots (bn : branchNode) : list (bool * Z) :=
  (fun i => (bn_present bn i, bn_version bn i)) <$> positions.

Definition branchNode_getVersion (bn : branchNode) : result trie_error Z :=
  match ChildrenVersion (bn_collapsed bn) with
  | [] => Ok NotSpecified
  | _ =>
      let '(nodeVersion, rest) := getVersion_first (bn_slots bn) in
      if existsb (fun s => fst s && negb (snd s =? nodeVersion)) rest
      then Ok NotSpecified
      else Ok nodeVersion
  end.

Definition getVersion (n : node) : result trie_error Z :=
  match n with
  | NLeaf ln => leafNode_getVersion ln
  | NExt en => extensionNode_getVersion en
  | NBranch bn => branchNode_getVersion bn
  end.

Definition revertChildrenVersionSliceIfNeeded (bn : branchNode) : branchNode :=
  if existsb (fun v => negb (v =? u8 NotSpecified)) (ChildrenVersion (bn_collapsed bn))
  then bn
  else bn_set_versions [] bn.

Definition setVersionForChild (version childPos : Z) (bn : branchNode) : branchNode :=
  let sliceNotInitialized := bool_decide (ChildrenVersion (bn_collapsed bn) = []) in
  if (version =? NotSpecified) && sliceNotInitialized then bn
  else
    let bn := if sliceNotInitialized then bn_set_versions (replicate nrOfChildren 0) bn else bn in
    let bn := bn_set_versions
                (<[Z.to_nat childPos := u8 version]> (ChildrenVersion (bn_collapsed bn))) bn in
    if version =? NotSpecified then revertChildrenVersionSliceIfNeeded bn else bn.

(** ** Constructors *)

Definition newLeafNode (newData : TrieData) : leafN :=
  {| ln_collapsed := {| ln_Key := td_Key newData; ln_Value := td_Value newData;
                        ln_Version := td_Version newData |};
     ln_base := newBase |}.

Definition newExtensionNode (key : bytes) (child : option node) : result trie_error extensionNode :=
  match child with
  | None => Err ErrNilNode
  | Some c =>
      childVersion ← getVersion c;
      Ok {| en_collapsed := {| en_Key := key; EncodedChild := []; ChildVersion := childVersion |};
            en_child := Some c; en_base := newBase |}
  end.

Definition newBranchNode : branchNode :=
  {| bn_collapsed := {| EncodedChildren := replicate nrOfChildren []; ChildrenVersion := [] |};
     bn_children := replicate nrOfChildren None; bn_base := newBase |}.

(** ** Emptiness and collapsing *)

Definition leafNode_isEmptyOrNil (ln : leafN) : option trie_error :=
  match ln_Value (ln_collapsed ln) with None => Some ErrEmptyLeafNode | Some _ => None end.

Definition extensionNode_isEmptyOrNil (en : extensionNode) : option trie_error :=
  match en_child en, EncodedChild (en_collapsed en) with
  | None, [] => Some ErrEmptyExtensionNode
  | _, _ => None
  end.

Definition branchNode_isEmptyOrNil (bn : branchNode) : option trie_error :=
  if existsb (bn_present bn) positions then None else Some ErrEmptyBranchNode.

Definition isEmptyOrNil (n : node) : option trie_error :=
  match n with
  | NLeaf ln => leafNode_isEmptyOrNil ln
  | NExt en => extensionNode_isEmptyOrNil en
  | NBranch bn => branchNode_isEmptyOrNil bn
  end.

Definition extensionNode_isCollapsed (en : extensionNode) : bool :=
  bool_decide (en_child en = None /\ EncodedChild (en_collapsed en) <> []).

Definition branchNode_isCollapsed (bn : branchNode) : bool :=
  forallb (fun c => bool_decide (c = None)) (bn_children bn).

Definition branchNode_isPosCollapsed (bn : branchNode) (pos : Z) : bool :=
  bool_decide (bn_child bn pos = None /\ bn_encoded bn pos <> []).

(** ** Encoding, decoding and loading from the storage *)

Definition wrap (op : string) (o : option trie_error) : option trie_error := ErrWrap op <$> o.

Definition leafNode_getEncodedNode (ln : leafN) : result trie_error bytes :=
  match wrap "getEncodedNode error" (leafNode_isEmptyOrNil ln) with
  | Some e => Err e
  | None => marshaledNode ← MarshalLn (ln_collapsed ln); Ok (marshaledNode ++ [leaf])
  end.

Definition extensionNode_getEncodedNode (en : extensionNode) : result trie_error bytes :=
  match wrap "getEncodedNode error" (extensionNode_isEmptyOrNil en) with
  | Some e => Err e
  | None => marshaledNode ← MarshalEn (en_collapsed en); Ok (marshaledNode ++ [extension])
  end.

Definition branchNode_getEncodedNode (bn : branchNode) : result trie_error bytes :=
  match wrap "getEncodedNode error" (branchNode_isEmptyOrNil bn) with
  | Some e => Err e
  | None => marshaledNode ← MarshalBn (bn_collapsed bn); Ok (marshaledNode ++ [branch])
  end.

Definition getEncodedNode (n : node) : result trie_error bytes :=
  match n with
  | NLeaf ln => leafNode_getEncodedNode ln
  | NExt en => extensionNode_getEncodedNode en
  | NBranch bn => branchNode_getEncodedNode bn
  end.

Definition encodeNodeAndGetHash (n : node) : result trie_error bytes :=
  encNode ← getEncodedNode n; Ok (Compute encNode).

(** [&baseNode{}] *)
Definition emptyBase : baseNode := {| hash := None; dirty := false |}.

Definition getEmptyNodeOfType (t : Z) : result trie_error node :=
  if t =? extension then
    Ok (NExt {| en_collapsed := {| en_Key := []; EncodedChild := []; ChildVersion := 0 |};
                en_child := None; en_base := emptyBase |})
  else if t =? leaf then
    Ok (NLeaf {| ln_collapsed := {| ln_Key := []; ln_Value := None; ln_Version := 0 |};
                 ln_base := emptyBase |})
  else if t =? branch then
    Ok (NBranch {| bn_collapsed := {| EncodedChildren := []; ChildrenVersion := [] |};
                   bn_children := replicate nrOfChildren None; bn_base := emptyBase |})
  else Err ErrInvalidNode.

(** [marshalizer.Unmarshal(newNode, encNode)]: fills the stored part. *)
Definition Unmarshal (n : node) (encNode : bytes) : result trie_error node :=
  match n with
  | NLeaf ln =>
      c ← UnmarshalLn encNode; Ok (NLeaf {| ln_collapsed := c; ln_base := ln_base ln |})
  | NExt en =>
      c ← UnmarshalEn encNode;
      Ok (NExt {| en_collapsed := c; en_child := en_child en; en_base := en_base en |})
  | NBranch bn =>
      c ← UnmarshalBn encNode;
      Ok (NBranch {| bn_collapsed := c; bn_children := bn_children bn; bn_base := bn_base bn |})
  end.

Definition validateDecodedNode (n : node) : result trie_error () :=
  match n with
  | NBranch bn =>
      let nv := length (ChildrenVersion (bn_collapsed bn)) in
      if negb (length (EncodedChildren (bn_collapsed bn)) =? nrOfChildren)%nat
      then Err ErrInvalidEncoding
      else if negb (nv =? 0)%nat && negb (nv =? nrOfChildren)%nat then Err ErrInvalidEncoding
      else Ok ()
  | _ => Ok ()
  end.

Definition decodeNode (encNode : bytes) : result trie_error node :=
  match last encNode with
  | None => Err ErrInvalidEncoding
  | Some nodeType =>
      let encNode := take (length encNode - 1) encNode in
      newNode ← getEmptyNodeOfType nodeType;
      newNode ← Unmarshal newNode encNode;
      _ ← validateDecodedNode newNode;
      Ok newNode
  end.

Definition getNodeFromDBAndDecode (n : bytes) (db : DB) : result trie_error node :=
  match db_Get db n with
  | Err err => Err (GetNodeFromDBErr n err)
  | Ok encChild => decodeNode encChild
  end.

Definition branchNode_resolveCollapsed (pos : Z) (db : DB) : M branchNode unit :=
  bn ← se_get;
  _ ← se_check (wrap "resolveCollapsed error" (branchNode_isEmptyOrNil bn));
  _ ← se_guard (childPosOutOfRange pos) ErrChildPosOutOfRange;
  if bool_decide (bn_encoded bn pos = []) then mret ()
  else
    child ← se_lift (getNodeFromDBAndDecode (bn_encoded bn pos) db);
    se_modify (bn_set_child pos (Some (setGivenHash (Some (bn_encoded bn pos)) child))).

Definition extensionNode_resolveCollapsed (db : DB) : M extensionNode unit :=
  en ← se_get;
  _ ← se_check (wrap "resolveCollapsed error" (extensionNode_isEmptyOrNil en));
  let encoded := EncodedChild (en_collapsed en) in
  child ← se_lift (getNodeFromDBAndDecode encoded db);
  se_modify (en_set_child (Some (setGivenHash (Some encoded) child))).

(** What [resolveIfCollapsed] uses of the node interface. *)
Class NodeResolve (R : Type) := {
  nr_isEmptyOrNil : R -> option trie_error;
  nr_isPosCollapsed : R -> Z -> bool;
  nr_resolveCollapsed : Z -> DB -> M R unit;
}.

#[export] Instance leafNode_resolve : NodeResolve leafN := {|
  nr_isEmptyOrNil := leafNode_isEmptyOrNil;
  nr_isPosCollapsed := fun _ _ => false;
  nr_resolveCollapsed := fun _ _ => mret ();
|}.
#[export] Instance extensionNode_resolve : NodeResolve extensionNode := {|
  nr_isEmptyOrNil := extensionNode_isEmptyOrNil;
  nr_isPosCollapsed := fun en _ => extensionNode_isCollapsed en;
  nr_resolveCollapsed := fun _ => extensionNode_resolveCollapsed;
|}.
#[export] Instance branchNode_resolve : NodeResolve branchNode := {|
  nr_isEmptyOrNil := branchNode_isEmptyOrNil;
  nr_isPosCollapsed := branchNode_isPosCollapsed;
  nr_resolveCollapsed := branchNode_resolveCollapsed;
|}.
#[export] Instance node_resolve : NodeResolve node := {|
  nr_isEmptyOrNil := isEmptyOrNil;
  nr_isPosCollapsed := fun n pos =>
    match n with
    | NLeaf ln => nr_isPosCollapsed ln pos
    | NExt en => nr_isPosCollapsed en pos
    | NBranch bn => nr_isPosCollapsed bn pos
    end;
  nr_resolveCollapsed := fun pos db n =>
    match n with
    | NLeaf ln => se_on NLeaf (nr_resolveCollapsed pos db) ln
    | NExt en => se_on NExt (nr_resolveCollapsed pos db) en
    | NBranch bn => se_on NBranch (nr_resolveCollapsed pos db) bn
    end;
|}.

Definition resolveIfCollapsed {R} {NR : NodeResolve R} (pos : Z) (db : DB) : M R unit :=
  n ← se_get;
  _ ← se_check (nr_isEmptyOrNil n);
  if nr_isPosCollapsed n pos then nr_resolveCollapsed pos db else mret ().

(** Calls a method of the child, which the parent points to: the parent sees
    what the call does to the child, also when it fails. *)
Definition bn_on_child {E A} (pos : Z) (nilDeref : E) (m : SE node E A) : SE branchNode E A :=
  fun bn =>
    match bn_child bn pos with
    | Some c => match m c with (c', r) => (bn_set_child pos (Some c') bn, r) end
    | None => (bn, Err nilDeref)
    end.
Definition en_on_child {E A} (nilDeref : E) (m : SE node E A) : SE extensionNode E A :=
  fun en =>
    match en_child en with
    | Some c => match m c with (c', r) => (en_set_child (Some c') en, r) end
    | None => (en, Err nilDeref)
    end.

(** The dynamic dispatch of a call on the node interface. *)
Definition dispatch {E A} (l : SE leafN E A) (e : SE extensionNode E A)
    (b : SE branchNode E A) : SE node E A := fun n =>
  match n with
  | NLeaf ln => se_on NLeaf l ln
  | NExt en => se_on NExt e en
  | NBranch bn => se_on NBranch b bn
  end.

(** ** Lookup *)

Definition leafNode_tryGetWithVersion (key : bytes) (currentDepth : Z) : SE leafN get_error get_result :=
  ln ← se_get;
  _ ← se_mapErr (pair currentDepth) (se_check (wrap "tryGet error" (leafNode_isEmptyOrNil ln)));
  if bool_decide (key = ln_Key (ln_collapsed ln))
  then mret (ln_Value (ln_collapsed ln), currentDepth, ln_Version (ln_collapsed ln))
  else mret (None, currentDepth, 0).

Definition extensionNode_tryGetWithVersion
    (child_tryGet : bytes -> Z -> SE node get_error get_result)
    (key : bytes) (currentDepth : Z) (db : DB) : SE extensionNode get_error get_result :=
  en ← se_get;
  _ ← se_mapErr (pair currentDepth) (se_check (wrap "tryGet error" (extensionNode_isEmptyOrNil en)));
  let enKey := en_Key (en_collapsed en) in
  let keyTooShort := (length key <? length enKey)%nat in
  if keyTooShort then mret (None, currentDepth, 0)
  else
    let keysDontMatch := negb (bool_decide (enKey = take (length enKey) key)) in
    if keysDontMatch then mret (None, currentDepth, 0)
    else
      let key := drop (length enKey) key in
      _ ← se_mapErr (pair currentDepth) (resolveIfCollapsed 0 db);
      en_on_child (currentDepth, RuntimePanic) (child_tryGet key (u32 (currentDepth + 1))).

Definition branchNode_tryGetWithVersion
    (child_tryGet : bytes -> Z -> SE node get_error get_result)
    (key : bytes) (currentDepth : Z) (db : DB) : SE branchNode get_error get_result :=
  bn ← se_get;
  _ ← se_mapErr (pair currentDepth) (se_check (wrap "tryGet error" (branchNode_isEmptyOrNil bn)));
  match key with
  | [] => mret (None, currentDepth, 0)
  | childPos :: key =>
      _ ← se_guard (childPosOutOfRange childPos) (currentDepth, ErrChildPosOutOfRange);
      _ ← se_mapErr (pair currentDepth) (resolveIfCollapsed childPos db);
      bn ← se_get;
      match bn_child bn childPos with
      | None => mret (None, currentDepth, 0)
      | Some _ =>
          bn_on_child childPos (currentDepth, RuntimePanic)
            (child_tryGet key (u32 (currentDepth + 1)))
      end
  end.

(** The recursion of the source goes through the storage, so it is bounded by
    fuel: each call below consumes at least one nibble of the key, so that
    [S (length key)] is enough on well-formed tries (TrieRefinement). *)
Fixpoint node_tryGetWithVersion (fuel : nat) (db : DB) (key : bytes) (currentDepth : Z)
    : SE node get_error get_result :=
  match fuel with
  | O => fun n => (n, Err (currentDepth, OutOfFuel))
  | S fuel =>
      dispatch
        (leafNode_tryGetWithVersion key currentDepth)
        (extensionNode_tryGetWithVersion (node_tryGetWithVersion fuel db) key currentDepth db)
        (branchNode_tryGetWithVersion (node_tryGetWithVersion fuel db) key currentDepth db)
  end.

(** ** Insertion *)

Definition with_key (key : bytes) (d : TrieData) : TrieData :=
  {| td_Key := key; td_Value := td_Value d; td_Version := td_Version d |}.

Definition leafNode_insertInSameLn (newData : TrieData) (oldHashes : list (option bytes))
    : M leafN insert_result :=
  ln ← se_get;
  if bytes_Equal (ln_Value (ln_collapsed ln)) (td_Value newData) then mret (None, [])
  else
    let ln := {| ln_collapsed := {| ln_Key := ln_Key (ln_collapsed ln);
                                    ln_Value := td_Value newData;
                                    ln_Version := td_Version newData |};
                 ln_base := {| hash := None; dirty := true |} |} in
    _ ← se_modify (fun _ => ln);
    mret (Some (NLeaf ln), oldHashes).

Definition leafNode_insertInNewBn (newData : TrieData) (keyMatchLen : nat) (ln : leafN)
    : result trie_error branchNode :=
  let bn := newBranchNode in
  let lnKey := ln_Key (ln_collapsed ln) in
  match lnKey !! keyMatchLen, td_Key newData !! keyMatchLen with
  | Some oldChildPos, Some newChildPos =>
      if childPosOutOfRange oldChildPos || childPosOutOfRange newChildPos
      then Err ErrChildPosOutOfRange
      else
        oldLnVersion ← leafNode_getVersion ln;
        let newLnOldChildPos :=
          newLeafNode {| td_Key := drop (keyMatchLen + 1) lnKey;
                         td_Value := ln_Value (ln_collapsed ln);
                         td_Version := oldLnVersion |} in
        let bn := bn_set_child oldChildPos (Some (NLeaf newLnOldChildPos)) bn in
        let bn := setVersionForChild oldLnVersion oldChildPos bn in
        let newData := with_key (drop (keyMatchLen + 1) (td_Key newData)) newData in
        let newLnNewChildPos := newLeafNode newData in
        let bn := bn_set_child newChildPos (Some (NLeaf newLnNewChildPos)) bn in
        Ok (setVersionForChild (td_Version newData) newChildPos bn)
  | _, _ => Err RuntimePanic
  end.

Definition leafNode_insert (newData : TrieData) : M leafN insert_result :=
  ln ← se_get;
  _ ← se_check (wrap "insert error" (leafNode_isEmptyOrNil ln));
  let oldHash := if dirty (ln_base ln) then [] else [hash (ln_base ln)] in
  let nodeKey := ln_Key (ln_collapsed ln) in
  if bool_decide (td_Key newData = nodeKey) then leafNode_insertInSameLn newData oldHash
  else
    let keyMatchLen := prefixLen (td_Key newData) nodeKey in
    bn ← se_lift (leafNode_insertInNewBn newData keyMatchLen ln);
    if (keyMatchLen =? 0)%nat then mret (Some (NBranch bn), oldHash)
    else
      newEn ← se_lift (newExtensionNode (take keyMatchLen nodeKey) (Some (NBranch bn)));
      mret (Some (NExt newEn), oldHash).

Definition extensionNode_insertInSameEn (child_insert : TrieData -> M node insert_result)
    (newData : TrieData) (keyMatchLen : nat) : M extensionNode insert_result :=
  let newData := with_key (drop keyMatchLen (td_Key newData)) newData in
  '(newNode, oldHashes) ← en_on_child RuntimePanic (child_insert newData);
  match newNode with
  | None => mret (None, [])
  | Some _ =>
      en ← se_get;
      let oldHashes := if dirty (en_base en) then oldHashes else oldHashes ++ [hash (en_base en)] in
      newEn ← se_lift (newExtensionNode (en_Key (en_collapsed en)) newNode);
      mret (Some (NExt newEn), oldHashes)
  end.

Definition extensionNode_insertOldChildInBn (bn : branchNode) (oldChildPos : Z)
    (keyMatchLen : nat) (en : extensionNode) : result trie_error branchNode :=
  let keyReminder := drop (keyMatchLen + 1) (en_Key (en_collapsed en)) in
  match en_child en with
  | None => Err RuntimePanic
  | Some child =>
      childVersion ← getVersion child;
      let bn := setVersionForChild childVersion oldChildPos bn in
      if (length keyReminder <? 1)%nat then Ok (bn_set_child oldChildPos (Some child) bn)
      else
        followingExtensionNode ← newExtensionNode keyReminder (Some child);
        Ok (bn_set_child oldChildPos (Some (NExt followingExtensionNode)) bn)
  end.

Definition extensionNode_insertNewChildInBn (bn : branchNode) (newData : TrieData)
    (newChildPos : Z) (keyMatchLen : nat) : branchNode :=
  let newData := with_key (drop (keyMatchLen + 1) (td_Key newData)) newData in
  let bn := bn_set_child newChildPos (Some (NLeaf (newLeafNode newData))) bn in
  setVersionForChild (td_Version newData) newChildPos bn.

Definition extensionNode_insertInNewBn (newData : TrieData) (keyMatchLen : nat)
    (en : extensionNode) : result trie_error insert_result :=
  let oldHash := if dirty (en_base en) then [] else [hash (en_base en)] in
  let bn := newBranchNode in
  let enKey := en_Key (en_collapsed en) in
  match enKey !! keyMatchLen, td_Key newData !! keyMatchLen with
  | Some oldChildPos, Some newChildPos =>
      if childPosOutOfRange oldChildPos || childPosOutOfRange newChildPos
      then Err ErrChildPosOutOfRange
      else
        bn ← extensionNode_insertOldChildInBn bn oldChildPos keyMatchLen en;
        let bn := extensionNode_insertNewChildInBn bn newData newChildPos keyMatchLen in
        if (keyMatchLen =? 0)%nat then Ok (Some (NBranch bn), oldHash)
        else
          newEn ← newExtensionNode (take keyMatchLen enKey) (Some (NBranch bn));
          Ok (Some (NExt newEn), oldHash)
  | _, _ => Err RuntimePanic
  end.

Definition extensionNode_insert (child_insert : TrieData -> M node insert_result)
    (newData : TrieData) (db : DB) : M extensionNode insert_result :=
  en ← se_get;
  _ ← se_check (wrap "insert error" (extensionNode_isEmptyOrNil en));
  _ ← resolveIfCollapsed 0 db;
  en ← se_get;
  let keyMatchLen := prefixLen (td_Key newData) (en_Key (en_collapsed en)) in
  if (keyMatchLen =? length (en_Key (en_collapsed en)))%nat
  then extensionNode_insertInSameEn child_insert newData keyMatchLen
  else se_lift (extensionNode_insertInNewBn newData keyMatchLen en).

Definition branchNode_modifyNodeAfterInsert (modifiedHashes : list (option bytes))
    (childPos : Z) (newNode : node) : M branchNode (list (option bytes)) :=
  bn ← se_get;
  let modifiedHashes :=
    if dirty (bn_base bn) then modifiedHashes else modifiedHashes ++ [hash (bn_base bn)] in
  childVersion ← se_lift (getVersion newNode);
  _ ← se_modify (bn_set_child childPos (Some newNode));
  _ ← se_modify (setVersionForChild childVersion childPos);
  _ ← se_modify (bn_set_base {| hash := None; dirty := true |});
  mret modifiedHashes.

Definition branchNode_insertOnNilChild (newData : TrieData) (childPos : Z) : M branchNode insert_result :=
  modifiedHashes ← branchNode_modifyNodeAfterInsert [] childPos (NLeaf (newLeafNode newData));
  bn ← se_get;
  mret (Some (NBranch bn), modifiedHashes).

Definition branchNode_insertOnExistingChild (child_insert : TrieData -> M node insert_result)
    (newData : TrieData) (childPos : Z) : M branchNode insert_result :=
  '(newNode, modifiedHashes) ← bn_on_child childPos RuntimePanic (child_insert newData);
  match newNode with
  | None => mret (None, [])
  | Some newNode =>
      modifiedHashes ← branchNode_modifyNodeAfterInsert modifiedHashes childPos newNode;
      bn ← se_get;
      mret (Some (NBranch bn), modifiedHashes)
  end.

Definition branchNode_insert (child_insert : TrieData -> M node insert_result)
    (newData : TrieData) (db : DB) : M branchNode insert_result :=
  bn ← se_get;
  _ ← se_check (wrap "insert error" (branchNode_isEmptyOrNil bn));
  match td_Key newData with
  | [] => se_lift (Err ErrValueTooShort)
  | childPos :: key =>
      _ ← se_guard (childPosOutOfRange childPos) ErrChildPosOutOfRange;
      let newData := with_key key newData in
      _ ← resolveIfCollapsed childPos db;
      bn ← se_get;
      match bn_child bn childPos with
      | None => branchNode_insertOnNilChild newData childPos
      | Some _ => branchNode_insertOnExistingChild child_insert newData childPos
      end
  end.

Fixpoint node_insert (fuel : nat) (db : DB) (newData : TrieData) : M node insert_result :=
  match fuel with
  | O => se_lift (Err OutOfFuel)
  | S fuel =>
      dispatch
        (leafNode_insert newData)
        (extensionNode_insert (node_insert fuel db) newData db)
        (branchNode_insert (node_insert fuel db) newData db)
  end.

(** ** Deletion *)

Definition leafNode_delete (key : bytes) : M leafN delete_result :=
  ln ← se_get;
  if bool_decide (key = ln_Key (ln_collapsed ln)) then
    let oldHash := if dirty (ln_base ln) then [] else [hash (ln_base ln)] in
    mret (true, None, oldHash)
  else mret (false, Some (NLeaf ln), []).

Definition leafNode_reduceNode (pos : Z) (ln : leafN) : result trie_error (node * bool) :=
  let k := u8 pos :: ln_Key (ln_collapsed ln) in
  oldLnVersion ← leafNode_getVersion ln;
  Ok (NLeaf (newLeafNode {| td_Key := k; td_Value := ln_Value (ln_collapsed ln);
                            td_Version := oldLnVersion |}), true).

Definition extensionNode_reduceNode (pos : Z) (en : extensionNode) : result trie_error (node * bool) :=
  let k := u8 pos :: en_Key (en_collapsed en) in
  newEn ← newExtensionNode k (en_child en);
  Ok (NExt newEn, true).

Definition branchNode_reduceNode (pos : Z) (bn : branchNode) : result trie_error (node * bool) :=
  newEn ← newExtensionNode [u8 pos] (Some (NBranch bn));
  Ok (NExt newEn, false).

Definition reduceNode (pos : Z) (n : node) : result trie_error (node * bool) :=
  match n with
  | NLeaf ln => leafNode_reduceNode pos ln
  | NExt en => extensionNode_reduceNode pos en
  | NBranch bn => branchNode_reduceNode pos bn
  end.

Definition extensionNode_delete (child_delete : bytes -> M node delete_result)
    (key : bytes) (db : DB) : M extensionNode delete_result :=
  en ← se_get;
  _ ← se_check (wrap "delete error" (extensionNode_isEmptyOrNil en));
  _ ← se_guard (length key =? 0)%nat ErrValueTooShort;
  let enKey := en_Key (en_collapsed en) in
  let keyMatchLen := prefixLen key enKey in
  if (keyMatchLen <? length enKey)%nat then mret (false, Some (NExt en), [])
  else
    _ ← resolveIfCollapsed 0 db;
    '(dirty_, newNode, oldHashes) ← en_on_child RuntimePanic (child_delete (drop (length enKey) key));
    en ← se_get;
    if negb dirty_ then mret (false, Some (NExt en), [])
    else
      let oldHashes := if dirty (en_base en) then oldHashes else oldHashes ++ [hash (en_base en)] in
      match newNode with
      | Some (NLeaf newNode) =>
          let newLeafData := {| td_Key := concat enKey (ln_Key (ln_collapsed newNode));
                                td_Value := ln_Value (ln_collapsed newNode);
                                td_Version := u8 (ln_Version (ln_collapsed newNode)) |} in
          mret (true, Some (NLeaf (newLeafNode newLeafData)), oldHashes)
      | Some (NExt newNode) =>
          n ← se_lift (newExtensionNode (concat enKey (en_Key (en_collapsed newNode)))
                         (en_child newNode));
          mret (true, Some (NExt n), oldHashes)
      | Some (NBranch newNode) =>
          n ← se_lift (newExtensionNode enKey (Some (NBranch newNode)));
          mret (true, Some (NExt n), oldHashes)
      | None => mret (true, None, oldHashes)
      end.

(** getChildPosition: the number of children and the position of the last. *)
Definition getChildPosition (n : branchNode) : nat * Z :=
  fold_left (fun '(nr, pos) i => if bn_present n i then (S nr, i) else (nr, pos))
    positions (0%nat, 0).

Definition branchNode_setNewChild (childPos : Z) (newNode : option node) : M branchNode unit :=
  _ ← se_modify (fun bn => bn_set_base (set_hash None (bn_base bn)) bn);
  _ ← se_modify (bn_set_child childPos newNode);
  match newNode with
  | None =>
      _ ← se_modify (setVersionForChild NotSpecified childPos);
      se_modify (bn_set_encoded childPos [])
  | Some newNode =>
      childVersion ← se_lift (getVersion newNode);
      se_modify (setVersionForChild childVersion childPos)
  end.

(** The part of [delete] for a branch that is left with a single child. *)
Definition branchNode_reduceSingle (pos : Z) (oldHashes : list (option bytes)) (db : DB)
    : M branchNode delete_result :=
  _ ← resolveIfCollapsed pos db;
  _ ← bn_on_child pos RuntimePanic (resolveIfCollapsed pos db);
  bn ← se_get;
  match bn_child bn pos with
  | None => se_lift (Err RuntimePanic)
  | Some child =>
      '(newNode, newChildHash) ← se_lift (reduceNode pos child);
      let oldHashes :=
        if newChildHash && negb (isDirty child) then oldHashes ++ [getHash child] else oldHashes in
      mret (true, Some newNode, oldHashes)
  end.

Definition branchNode_delete (child_delete : bytes -> M node delete_result)
    (key : bytes) (db : DB) : M branchNode delete_result :=
  bn ← se_get;
  _ ← se_check (wrap "delete error" (branchNode_isEmptyOrNil bn));
  match key with
  | [] => se_lift (Err ErrValueTooShort)
  | childPos :: key =>
      _ ← se_guard (childPosOutOfRange childPos) ErrChildPosOutOfRange;
      _ ← resolveIfCollapsed childPos db;
      bn ← se_get;
      match bn_child bn childPos with
      | None => mret (false, Some (NBranch bn), [])
      | Some _ =>
          '(dirty_, newNode, oldHashes) ← bn_on_child childPos RuntimePanic (child_delete key);
          bn ← se_get;
          if negb dirty_ then mret (false, Some (NBranch bn), [])
          else
            let oldHashes :=
              if dirty (bn_base bn) then oldHashes else oldHashes ++ [hash (bn_base bn)] in
            _ ← branchNode_setNewChild childPos newNode;
            bn ← se_get;
            let '(numChildren, pos) := getChildPosition bn in
            if (numChildren =? 1)%nat then branchNode_reduceSingle pos oldHashes db
            else
              _ ← se_modify (fun bn => bn_set_base {| hash := hash (bn_base bn); dirty := dirty_ |} bn);
              bn ← se_get;
              mret (true, Some (NBranch bn), oldHashes)
      end
  end.

Fixpoint node_delete (fuel : nat) (db : DB) (key : bytes) : M node delete_result :=
  match fuel with
  | O => se_lift (Err OutOfFuel)
  | S fuel =>
      dispatch
        (leafNode_delete key)
        (extensionNode_delete (node_delete fuel db) key db)
        (branchNode_delete (node_delete fuel db) key db)
  end.

(** ** Hashing *)

(** The depth of a node in memory: the number of nested calls of [setHash],
    [commitDirty] and the other walks that do not load nodes. *)
Fixpoint height (n : node) : nat :=
  match n with
  | NLeaf _ => 1
  | NExt en => S (match en_child en with Some c => height c | None => 0 end)
  | NBranch bn =>
      S (fold_right (fun c h => Nat.max (match c with Some c => height c | None => 0 end) h)
           0%nat (bn_children bn))
  end.

Definition leafNode_hashNode : M leafN bytes :=
  ln ← se_get;
  _ ← se_check (wrap "hashNode error" (leafNode_isEmptyOrNil ln));
  se_lift (encodeNodeAndGetHash (NLeaf ln)).

Definition extensionNode_hashChildren (child_setHash : M node unit) : M extensionNode unit :=
  en ← se_get;
  _ ← se_check (wrap "hashChildren error" (extensionNode_isEmptyOrNil en));
  match en_child en with
  | None => mret ()
  | Some _ => en_on_child RuntimePanic child_setHash
  end.

Definition extensionNode_hashNode : M extensionNode bytes :=
  en ← se_get;
  _ ← se_check (wrap "hashNode error" (extensionNode_isEmptyOrNil en));
  _ ← match en_child en with
      | None => mret ()
      | Some child =>
          encChild ← se_lift (encodeNodeAndGetHash child);
          se_modify (en_set_encoded encChild)
      end;
  en ← se_get;
  se_lift (encodeNodeAndGetHash (NExt en)).

Definition branchNode_hashChildren (child_setHash : M node unit) : M branchNode unit :=
  bn ← se_get;
  _ ← se_check (wrap "hashChildren error" (branchNode_isEmptyOrNil bn));
  se_for positions (fun i =>
    bn ← se_get;
    match bn_child bn i with
    | None => mret ()
    | Some _ => bn_on_child i RuntimePanic child_setHash
    end).

Definition branchNode_hashNode : M branchNode bytes :=
  bn ← se_get;
  _ ← se_check (wrap "hashNode error" (branchNode_isEmptyOrNil bn));
  _ ← se_for positions (fun i =>
        bn ← se_get;
        match bn_child bn i with
        | None => mret ()
        | Some child =>
            encChild ← se_lift (encodeNodeAndGetHash child);
            se_modify (bn_set_encoded i encChild)
        end);
  bn ← se_get;
  se_lift (encodeNodeAndGetHash (NBranch bn)).

(** [hashChildrenAndNode]: on a leaf there are no children to hash. *)
Definition leafNode_setHash : M leafN unit :=
  ln ← se_get;
  _ ← se_check (wrap "setHash error" (leafNode_isEmptyOrNil ln));
  match hash (ln_base ln) with
  | Some _ => mret ()
  | None =>
      h ← leafNode_hashNode;
      se_modify (fun ln => ln_set_base (set_hash (Some h) (ln_base ln)) ln)
  end.

Definition extensionNode_setHash (child_setHash : M node unit) : M extensionNode unit :=
  en ← se_get;
  _ ← se_check (wrap "setHash error" (extensionNode_isEmptyOrNil en));
  match hash (en_base en) with
  | Some _ => mret ()
  | None =>
      h ← (if extensionNode_isCollapsed en then se_lift (encodeNodeAndGetHash (NExt en))
           else _ ← extensionNode_hashChildren child_setHash; extensionNode_hashNode);
      se_modify (fun en => en_set_base (set_hash (Some h) (en_base en)) en)
  end.

Definition branchNode_setHash (child_setHash : M node unit) : M branchNode unit :=
  bn ← se_get;
  _ ← se_check (wrap "setHash error" (branchNode_isEmptyOrNil bn));
  match hash (bn_base bn) with
  | Some _ => mret ()
  | None =>
      h ← (if branchNode_isCollapsed bn then se_lift (encodeNodeAndGetHash (NBranch bn))
           else _ ← branchNode_hashChildren child_setHash; branchNode_hashNode);
      se_modify (fun bn => bn_set_base (set_hash (Some h) (bn_base bn)) bn)
  end.

Fixpoint node_setHash (fuel : nat) : M node unit :=
  match fuel with
  | O => se_lift (Err OutOfFuel)
  | S fuel =>
      dispatch leafNode_setHash
        (extensionNode_setHash (node_setHash fuel)) (branchNode_setHash (node_setHash fuel))
  end.

Definition setHash : M node unit := fun n => node_setHash (height n) n.

(** [setHashConcurrent] of a branch's child: [setHash] with its own error text
    on a branch.  The goroutines of [setRootHash] work on disjoint subtrees, so
    running them one after the other gives their common result; which error
    arrives first on the channel is not determined, here it is the leftmost. *)
Definition branchNode_setHashConcurrent (child_setHash : M node unit) : M branchNode unit :=
  bn ← se_get;
  _ ← se_check (wrap "setHashConcurrent error" (branchNode_isEmptyOrNil bn));
  branchNode_setHash child_setHash.

Definition setHashConcurrent : M node unit := fun n =>
  match n with
  | NBranch bn => se_on NBranch (branchNode_setHashConcurrent (node_setHash (height n - 1))) bn
  | _ => setHash n
  end.

(** The goroutines: every child is hashed, also after an error of another. *)
Fixpoint bn_hash_all (l : list Z) : M branchNode (list trie_error) :=
  match l with
  | [] => mret []
  | i :: l =>
      bn ← se_get;
      r ← match bn_child bn i with
          | None => mret (Ok ())
          | Some _ => se_try (bn_on_child i RuntimePanic setHashConcurrent)
          end;
      errc ← bn_hash_all l;
      mret (match r with Ok _ => errc | Err e => e :: errc end)
  end.

Definition branchNode_setRootHash : M branchNode unit :=
  bn ← se_get;
  _ ← se_check (wrap "setRootHash error" (branchNode_isEmptyOrNil bn));
  match hash (bn_base bn) with
  | Some _ => mret ()
  | None =>
      h ← (if branchNode_isCollapsed bn then se_lift (encodeNodeAndGetHash (NBranch bn))
           else
             errc ← bn_hash_all positions;
             _ ← se_check (head errc);
             branchNode_hashNode);
      se_modify (fun bn => bn_set_base (set_hash (Some h) (bn_base bn)) bn)
  end.

Definition setRootHash : M node unit := fun n =>
  match n with
  | NBranch bn => se_on NBranch branchNode_setRootHash bn
  | _ => setHash n
  end.

(** ** Collapsing and commit *)

Definition hasValidHash (n : node) : result trie_error bool :=
  match isEmptyOrNil n with
  | Some e => Err e
  | None =>
      match getHash n with
      | None => Ok false
      | Some _ => Ok (negb (isDirty n))
      end
  end.

(** The collapsed copy; [clone] copies the children array but shares the
    slice of encoded children, so that the receiver's is filled too. *)
Definition branchNode_getCollapsedBn : M branchNode branchNode :=
  bn ← se_get;
  _ ← se_check (wrap "getCollapsed error" (branchNode_isEmptyOrNil bn));
  if branchNode_isCollapsed bn then mret bn
  else
    _ ← se_for positions (fun i =>
          bn ← se_get;
          match bn_child bn i with
          | None => mret ()
          | Some child =>
              ok ← se_lift (hasValidHash child);
              _ ← (if (ok : bool) then mret () else bn_on_child i RuntimePanic setHash);
              bn ← se_get;
              se_modify (bn_set_encoded i (hash_bytes (bn_child bn i ≫= getHash)))
          end);
    bn ← se_get;
    mret {| bn_collapsed := bn_collapsed bn;
            bn_children := replicate nrOfChildren None; bn_base := bn_base bn |}.

Definition extensionNode_getCollapsedEn : M extensionNode extensionNode :=
  en ← se_get;
  _ ← se_check (wrap "getCollapsed error" (extensionNode_isEmptyOrNil en));
  if extensionNode_isCollapsed en then mret en
  else
    match en_child en with
    | None => se_lift (Err RuntimePanic)
    | Some child =>
        ok ← se_lift (hasValidHash child);
        _ ← (if (ok : bool) then mret () else en_on_child RuntimePanic setHash);
        en ← se_get;
        mret (en_set_child None (en_set_encoded (hash_bytes (en_child en ≫= getHash)) en))
    end.

Definition getCollapsed : M node node :=
  dispatch
    (ln ← se_get; mret (NLeaf ln))
    (en ← extensionNode_getCollapsedEn; mret (NExt en))
    (bn ← branchNode_getCollapsedBn; mret (NBranch bn)).

Definition collapseAndEncodeNode : M node bytes :=
  n ← getCollapsed;
  se_lift (getEncodedNode n).

Definition computeAndSetNodeHash : M node bytes :=
  n ← se_get;
  let key := hash_bytes (getHash n) in
  if negb (bool_decide (key = [])) then mret key
  else
    _ ← setHash;
    n ← se_get;
    mret (hash_bytes (getHash n)).

(** The methods that write to the storage have the node and the storage as
    their state. *)
Definition on_node {R A} (m : M R A) : M (R * DB) A :=
  se_zoom fst (fun n s => (n, snd s)) m.
Definition on_db {R A} (m : M DB A) : M (R * DB) A :=
  se_zoom snd (fun db s => (fst s, db)) m.
Definition Put (key val : bytes) : M DB unit := fun db =>
  match db_Put db key val with
  | Ok db' => (db', Ok ())
  | Err e => (db, Err e)
  end.

Definition encodeNodeAndCommitToDB : M (node * DB) Z :=
  key ← on_node computeAndSetNodeHash;
  val ← on_node collapseAndEncodeNode;
  _ ← on_db (Put key val);
  mret (Z.of_nat (length val)).

(** Runs a method of the node interface on a receiver of a node type. *)
Definition as_node {R A} (inj : R -> node) (proj : node -> option R) (m : M (node * DB) A)
    : M (R * DB) A := fun s =>
  match m (inj (fst s), snd s) with
  | ((n, db), r) =>
      match proj n with
      | Some x => ((x, db), r)
      | None => ((fst s, db), Err RuntimePanic)
      end
  end.

Definition leafNode_commitDirty : M (leafN * DB) unit :=
  '(ln, _) ← se_get;
  _ ← se_check (wrap "commit error" (leafNode_isEmptyOrNil ln));
  if negb (dirty (ln_base ln)) then mret ()
  else
    _ ← on_node (se_modify (ln_set_base {| hash := hash (ln_base ln); dirty := false |}));
    _ ← as_node NLeaf (fun n => match n with NLeaf ln => Some ln | _ => None end)
          encodeNodeAndCommitToDB;
    mret ().

Definition on_committed_child {R} (get : R -> option node) (put : node -> R -> R)
    (m : M (node * DB) unit) : M (R * DB) unit := fun '(r, db) =>
  match get r with
  | None => ((r, db), Ok ())
  | Some c => match m (c, db) with ((c', db'), res) => ((put c' r, db'), res) end
  end.

Definition extensionNode_commitDirty (child_commitDirty : Z -> M (node * DB) unit)
    (level maxTrieLevelInMemory : Z) : M (extensionNode * DB) unit :=
  let level := u8 (level + 1) in
  '(en, _) ← se_get;
  _ ← se_check (wrap "commit error" (extensionNode_isEmptyOrNil en));
  if negb (dirty (en_base en)) then mret ()
  else
    _ ← on_committed_child en_child (fun c => en_set_child (Some c)) (child_commitDirty level);
    _ ← on_node (se_modify (fun en =>
          en_set_base {| hash := hash (en_base en); dirty := false |} en));
    _ ← as_node NExt (fun n => match n with NExt en => Some en | _ => None end)
          encodeNodeAndCommitToDB;
    if level =? maxTrieLevelInMemory then
      collapsedEn ← on_node extensionNode_getCollapsedEn;
      on_node (se_modify (fun _ => collapsedEn))
    else mret ().

Definition branchNode_commitDirty (child_commitDirty : Z -> M (node * DB) unit)
    (level maxTrieLevelInMemory : Z) : M (branchNode * DB) unit :=
  let level := u8 (level + 1) in
  '(bn, _) ← se_get;
  _ ← se_check (wrap "commit error" (branchNode_isEmptyOrNil bn));
  if negb (dirty (bn_base bn)) then mret ()
  else
    _ ← se_for positions (fun i =>
          on_committed_child (fun bn => bn_child bn i) (fun c => bn_set_child i (Some c))
            (child_commitDirty level));
    _ ← on_node (se_modify (fun bn =>
          bn_set_base {| hash := hash (bn_base bn); dirty := false |} bn));
    _ ← as_node NBranch (fun n => match n with NBranch bn => Some bn | _ => None end)
          encodeNodeAndCommitToDB;
    if level =? maxTrieLevelInMemory then
      collapsedBn ← on_node branchNode_getCollapsedBn;
      on_node (se_modify (fun _ => collapsedBn))
    else mret ().

Fixpoint node_commitDirty (fuel : nat) (maxTrieLevelInMemory level : Z) : M (node * DB) unit :=
  match fuel with
  | O => se_lift (Err OutOfFuel)
  | S fuel => fun '(n, db) =>
      match n with
      | NLeaf ln =>
          match leafNode_commitDirty (ln, db) with
          ((ln', db'), r) => ((NLeaf ln', db'), r)
          end
      | NExt en =>
          match extensionNode_commitDirty (node_commitDirty fuel maxTrieLevelInMemory)
                  level maxTrieLevelInMemory (en, db) with
          ((en', db'), r) => ((NExt en', db'), r)
          end
      | NBranch bn =>
          match branchNode_commitDirty (node_commitDirty fuel maxTrieLevelInMemory)
                  level maxTrieLevelInMemory (bn, db) with
          ((bn', db'), r) => ((NBranch bn', db'), r)
          end
      end
  end.

(** Committing a child changes its hash and its collapsedness, not its depth
    beyond the one it had, so the depth before is fuel enough. *)
Definition commitDirty (level maxTrieLevelInMemory : Z) : M (node * DB) unit := fun '(n, db) =>
  node_commitDirty (height n) maxTrieLevelInMemory level (n, db).

(** ** Proofs *)

Definition leafNode_getNext (key : bytes) : M leafN (option node * bytes) :=
  ln ← se_get;
  _ ← se_check (wrap "getNext error" (leafNode_isEmptyOrNil ln));
  if bool_decide (key = ln_Key (ln_collapsed ln)) then mret (None, [])
  else se_lift (Err ErrNodeNotFound).

Definition extensionNode_getNext (key : bytes) (db : DB) : M extensionNode (option node * bytes) :=
  en ← se_get;
  _ ← se_check (wrap "getNext error" (extensionNode_isEmptyOrNil en));
  let enKey := en_Key (en_collapsed en) in
  _ ← se_guard (length key <? length enKey)%nat ErrNodeNotFound;
  _ ← se_guard (negb (bool_decide (enKey = take (length enKey) key))) ErrNodeNotFound;
  _ ← resolveIfCollapsed 0 db;
  en ← se_get;
  mret (en_child en, drop (length enKey) key).

Definition branchNode_getNext (key : bytes) (db : DB) : M branchNode (option node * bytes) :=
  bn ← se_get;
  _ ← se_check (wrap "getNext error" (branchNode_isEmptyOrNil bn));
  match key with
  | [] => se_lift (Err ErrValueTooShort)
  | childPos :: key =>
      _ ← se_guard (childPosOutOfRange childPos) ErrChildPosOutOfRange;
      _ ← resolveIfCollapsed childPos db;
      bn ← se_get;
      match bn_child bn childPos with
      | None => se_lift (Err ErrNodeNotFound)
      | Some child => mret (Some child, key)
      end
  end.

Definition getNext (key : bytes) (db : DB) : M node (option node * bytes) :=
  dispatch (leafNode_getNext key) (extensionNode_getNext key db) (branchNode_getNext key db).

Definition getValue (n : node) : option bytes :=
  match n with
  | NLeaf ln => ln_Value (ln_collapsed ln)
  | _ => Some []
  end.

Definition leafNode_getNextHashAndKey (key : bytes) (ln : leafN) : bool * bytes * bytes :=
  if bool_decide (key = ln_Key (ln_collapsed ln)) then (true, [], []) else (false, [], []).

Definition extensionNode_getNextHashAndKey (key : bytes) (en : extensionNode) : bool * bytes * bytes :=
  let enKey := en_Key (en_collapsed en) in
  if bool_decide (key = []) then (false, [], [])
  else if (length key <? length enKey)%nat || negb (bool_decide (enKey `prefix_of` key))
  then (false, [], [])
  else (false, EncodedChild (en_collapsed en), drop (length enKey) key).

Definition branchNode_getNextHashAndKey (key : bytes) (bn : branchNode) : bool * bytes * bytes :=
  match key with
  | [] => (false, [], [])
  | pos :: nextKey => (false, bn_encoded bn pos, nextKey)
  end.

Definition getNextHashAndKey (key : bytes) (n : node) : bool * bytes * bytes :=
  match n with
  | NLeaf ln => leafNode_getNextHashAndKey key ln
  | NExt en => extensionNode_getNextHashAndKey key en
  | NBranch bn => branchNode_getNextHashAndKey key bn
  end.

End Externals.
