(* ===== verification/TrieSpec.v ===== *)
(** * What a trie stands for

    The abstract trie [ptrie] is a node tree with everything loaded and nothing
    cached: no hashes, no dirty flags, no collapsed children.  It denotes a
    finite map from hex keys to (value, version) pairs, [plookup].  [wf] is the
    shape that the trie operations keep: hex keys below every node, an
    extension only above a branch and with a nonempty key, at least two
    children in a branch.  The main result is canonicity: two well-formed tries
    with the same contents are equal ([plookup_canonical]). *)

From stdpp Require Import base list.
From Stdlib Require Import ZArith Lia.
From S2P Require Import Prelude KeyBuilder.

Inductive ptrie :=
| PLeaf (key value : bytes) (version : Z)
| PExt (key : bytes) (child : ptrie)
| PBranch (children : list (option ptrie)).

Definition slot (ts : list (option ptrie)) (x : Z) : option ptrie := nth (Z.to_nat x) ts None.

Section ptrie_induction.
Context (P : ptrie -> Prop).
Context (HL : forall k v ver, P (PLeaf k v ver)).
Context (HE : forall k t, P t -> P (PExt k t)).
Context (HB : forall ts, (forall x t, slot ts x = Some t -> P t) -> P (PBranch ts)).

Definition slotP (o : option ptrie) : Prop := match o with Some t => P t | None => True end.

Lemma slotP_slot ts : Forall slotP ts -> forall x t, slot ts x = Some t -> P t.
Proof.
  intros H x t E. unfold slot in E.
  destruct (Nat.lt_ge_cases (Z.to_nat x) (length ts)) as [L|L].
  - pose proof (proj1 (Forall_nth _ None ts) H _ L) as G. by rewrite E in G.
  - by rewrite nth_overflow in E.
Qed.

Fixpoint ptrie_rect' (p : ptrie) : P p :=
  match p with
  | PLeaf k v ver => HL k v ver
  | PExt k t => HE k t (ptrie_rect' t)
  | PBranch ts => HB ts (slotP_slot ts
      ((fix go (ts : list (option ptrie)) : Forall slotP ts :=
          match ts with
          | [] => Forall_nil_2 slotP
          | o :: ts => Forall_cons_2 slotP o ts
              (match o return slotP o with Some t => ptrie_rect' t | None => I end) (go ts)
          end) ts))
  end.
End ptrie_induction.

(** The entry of a key, by the same walk as [tryGetWithVersion]. *)
Fixpoint plookup (p : ptrie) (key : bytes) : option (bytes * Z) :=
  match p with
  | PLeaf k v ver => if bool_decide (key = k) then Some (v, ver) else None
  | PExt k t =>
      if bool_decide (k `prefix_of` key) then plookup t (drop (length k) key) else None
  | PBranch ts =>
      match key with
      | [] => None
      | x :: key' =>
          (fix go (ts : list (option ptrie)) (n : nat) : option (bytes * Z) :=
             match ts, n with
             | [], _ => None
             | Some t :: _, O => plookup t key'
             | None :: _, O => None
             | _ :: ts', S n' => go ts' n'
             end) ts (Z.to_nat x)
      end
  end.

Lemma plookup_branch ts x key :
  plookup (PBranch ts) (x :: key) = slot ts x ≫= fun t => plookup t key.
Proof.
  cbn [plookup]. unfold slot. generalize (Z.to_nat x) as n.
  induction ts as [|[t|] ts IH]; intros [|n]; cbn; auto.
Qed.

Lemma plookup_branch_nil ts : plookup (PBranch ts) [] = None.
Proof. done. Qed.

Lemma plookup_ext_app k t key : plookup (PExt k t) (k ++ key) = plookup t key.
Proof.
  cbn [plookup]. rewrite bool_decide_true by by apply prefix_app_r.
  by rewrite drop_app_length.
Qed.

Lemma plookup_ext_other k t key : ~ k `prefix_of` key -> plookup (PExt k t) key = None.
Proof. intros H. cbn [plookup]. by rewrite bool_decide_false. Qed.

(** ** Well-formed tries *)

(** The keys below a node: a hex key, or nothing below a terminator. *)
Definition keyok (term : bool) (k : bytes) : Prop := if term then k = [] else hexkey k.

Definition is_term (x : Z) : bool := x =? hexTerminator.

Definition inrange (x : Z) : Prop := 0 <= x <= hexTerminator.

Definition entry_ok (v : bytes) (ver : Z) : Prop := v <> [] /\ 0 <= ver < 256.

Inductive wf : bool -> ptrie -> Prop :=
| wf_leaf b k v ver : keyok b k -> entry_ok v ver -> wf b (PLeaf k v ver)
| wf_ext k ts : k <> [] -> Forall is_nibble k -> wf false (PBranch ts) ->
    wf false (PExt k (PBranch ts))
| wf_branch ts :
    length ts = nrOfChildren ->
    (forall x t, inrange x -> slot ts x = Some t -> wf (is_term x) t) ->
    (exists x y, x <> y /\ inrange x /\ inrange y /\ is_Some (slot ts x) /\ is_Some (slot ts y)) ->
    wf false (PBranch ts).

Lemma wf_leaf_inv b k v ver : wf b (PLeaf k v ver) -> keyok b k /\ entry_ok v ver.
Proof. intros H. by invc H. Qed.

Lemma wf_ext_inv b k t : wf b (PExt k t) ->
  b = false /\ k <> [] /\ Forall is_nibble k /\ (exists ts, t = PBranch ts) /\ wf false t.
Proof. intros H. invc H. eauto 10. Qed.

Lemma wf_branch_inv b ts : wf b (PBranch ts) ->
  b = false /\ length ts = nrOfChildren /\
  (forall x t, inrange x -> slot ts x = Some t -> wf (is_term x) t) /\
  (exists x y, x <> y /\ inrange x /\ inrange y /\ is_Some (slot ts x) /\ is_Some (slot ts y)).
Proof. intros H. by invc H. Qed.

Lemma keyok_cons b x k :
  keyok b (x :: k) <-> b = false /\ inrange x /\ keyok (is_term x) k.
Proof.
  unfold keyok, is_term, inrange. destruct b; [naive_solver|].
  rewrite hexkey_cons. unfold is_nibble, hexTerminator in *.
  destruct (Z.eqb_spec x 16); split; intros; destruct_and?; destruct_or?; naive_solver lia.
Qed.

Lemma keyok_app b p k : Forall is_nibble p -> keyok b k -> p <> [] -> keyok false (p ++ k) <-> b = false.
Proof.
  intros Hp Hk Hne. cbn. rewrite hexkey_app_nibbles by done. destruct b; cbn in Hk; [|naive_solver].
  subst k. split; [|done]. by intros ?%hexkey_nonempty.
Qed.

Lemma keyok_split b k1 k2 :
  keyok b k1 -> keyok b k2 -> k1 <> k2 ->
  b = false /\ exists p x y k1' k2', k1 = p ++ x :: k1' /\ k2 = p ++ y :: k2' /\ x <> y /\
    length p = prefixLen k1 k2.
Proof.
  destruct b; cbn; [congruence|]. intros. split; [done|]. by apply hexkey_split.
Qed.

Lemma keyok_app_tail p x k : keyok false (p ++ x :: k) ->
  Forall is_nibble p /\ inrange x /\ keyok (is_term x) k.
Proof.
  intros H. pose proof (hexkey_prefix_nibbles _ _ _ H) as Hp. split; [done|].
  cbn in H. rewrite hexkey_app_nibbles in H by done.
  by apply (keyok_cons false) in H as (_ & ? & ?).
Qed.

Lemma keyok_app_intro p x k :
  Forall is_nibble p -> inrange x -> keyok (is_term x) k -> keyok false (p ++ x :: k).
Proof.
  intros Hp Hx Hk. cbn. rewrite hexkey_app_nibbles by done. by apply (keyok_cons false).
Qed.

(** Every well-formed trie has an entry, and only under keys of its kind. *)
Lemma wf_inhabited b p : wf b p -> exists k e, keyok b k /\ plookup p k = Some e.
Proof.
  revert b. induction p as [k v ver|k t IH|ts IH] using ptrie_rect'; intros b H.
  - apply wf_leaf_inv in H as [? _]. exists k, (v, ver). cbn. by rewrite bool_decide_true.
  - apply wf_ext_inv in H as (-> & _ & Hk & _ & Ht).
    destruct (IH _ Ht) as (k' & e & Hk' & E). exists (k ++ k'), e.
    rewrite plookup_ext_app. split; [|done]. cbn. by rewrite hexkey_app_nibbles.
  - apply wf_branch_inv in H as (-> & _ & Hc & (x & y & _ & Hx & _ & [t Ht] & _)).
    destruct (IH _ _ Ht _ (Hc _ _ Hx Ht)) as (k & e & Hk & E).
    exists (x :: k), e. rewrite plookup_branch, Ht. split; [|done].
    by apply keyok_cons.
Qed.

Lemma slot_inhabited ts x : wf false (PBranch ts) -> inrange x ->
  is_Some (slot ts x) <->
  exists k, keyok false (x :: k) /\ is_Some (plookup (PBranch ts) (x :: k)).
Proof.
  intros H Hx. apply wf_branch_inv in H as (_ & _ & Hc & _). split.
  - intros [t Ht]. destruct (wf_inhabited _ _ (Hc _ _ Hx Ht)) as (k & e & Hk & E).
    exists k. rewrite plookup_branch, Ht, keyok_cons. cbn. rewrite E. eauto.
  - intros (k & _ & E). rewrite plookup_branch in E. destruct (slot ts x); [eauto|].
    by destruct E.
Qed.

(** A branch has entries under two different first nibbles. *)
Lemma wf_branch_two ts : wf false (PBranch ts) ->
  exists x y kx ky, x <> y /\ keyok false (x :: kx) /\ keyok false (y :: ky) /\
    is_Some (plookup (PBranch ts) (x :: kx)) /\ is_Some (plookup (PBranch ts) (y :: ky)).
Proof.
  intros H. pose proof H as (_ & _ & _ & (x & y & Hxy & Hx & Hy & Sx & Sy))%wf_branch_inv.
  apply slot_inhabited in Sx as (kx & ? & ?); [|done..].
  apply slot_inhabited in Sy as (ky & ? & ?); [|done..].
  exists x, y, kx, ky. naive_solver.
Qed.

(** Only a branch has entries under two different first nibbles. *)
Lemma branch_of_two b p x y kx ky : wf b p -> x <> y ->
  is_Some (plookup p (x :: kx)) -> is_Some (plookup p (y :: ky)) -> exists ts, p = PBranch ts.
Proof.
  intros Hw N [e Ex] [e' Ey]. destruct p as [k v ver|k t|ts]; [| |eauto].
  - cbn in Ex, Ey. repeat case_bool_decide; naive_solver.
  - apply wf_ext_inv in Hw as (_ & Hne & _).
    destruct (decide (k `prefix_of` x :: kx)) as [[r E]|NP]; [|by rewrite plookup_ext_other in Ex].
    destruct (decide (k `prefix_of` y :: ky)) as [[r' E']|NP]; [|by rewrite plookup_ext_other in Ey].
    destruct k; naive_solver.
Qed.

(** ** Canonicity *)

(** Same entries under every key that the trie may hold. *)
Definition same_entries (b : bool) (p q : ptrie) : Prop :=
  forall k, keyok b k -> plookup p k = plookup q k.

Lemma same_entries_sym b p q : same_entries b p q -> same_entries b q p.
Proof. intros H k Hk. symmetry. auto. Qed.

(** What lies at the end of an extension key that another trie shares. *)
Lemma ext_keys_prefix k ts k' t' :
  Forall is_nibble k -> wf false (PBranch ts) ->
  same_entries false (PExt k (PBranch ts)) (PExt k' t') -> k' `prefix_of` k.
Proof.
  intros Hk Hw Hs.
  destruct (wf_branch_two _ Hw) as (x & y & kx & ky & Hxy & Kx & Ky & Sx & Sy).
  assert (G : forall z r, keyok false (z :: r) -> is_Some (plookup (PBranch ts) (z :: r)) ->
            k' `prefix_of` (k ++ z :: r)).
  { intros z r Kz Sz. destruct (decide (k' `prefix_of` (k ++ z :: r))) as [|N]; [done|].
    assert (Kn : keyok false (k ++ z :: r)) by (cbn; by rewrite hexkey_app_nibbles).
    apply Hs in Kn. rewrite plookup_ext_app, (plookup_ext_other _ _ _ N) in Kn.
    rewrite Kn in Sz. by destruct Sz. }
  destruct (G _ _ Kx Sx) as [r1 E1], (G _ _ Ky Sy) as [r2 E2].
  destruct (Nat.le_gt_cases (length k') (length k)) as [L|L].
  - exists (drop (length k') k).
    apply (f_equal (take (length k'))) in E1.
    rewrite take_app_length, take_app_le in E1 by done. rewrite <- E1 at 1.
    by rewrite take_drop.
  - exfalso. apply Hxy.
    apply (f_equal (fun l => l !! length k)) in E1, E2.
    rewrite list_lookup_middle in E1, E2 by done.
    rewrite lookup_app_l in E1, E2 by done. congruence.
Qed.

Lemma branch_ne_common ts k t : wf false (PBranch ts) -> k <> [] ->
  ~ same_entries false (PBranch ts) (PExt k t).
Proof.
  intros Hw Hk Hs. destruct k as [|z k]; [done|].
  destruct (wf_branch_two _ Hw) as (x & y & kx & ky & Hxy & Kx & Ky & Sx & Sy).
  rewrite (Hs _ Kx) in Sx. rewrite (Hs _ Ky) in Sy. cbn [plookup] in Sx, Sy.
  case_bool_decide as Px; [|by destruct Sx]. case_bool_decide as Py; [|by destruct Sy].
  apply prefix_cons_inv_1 in Px. apply prefix_cons_inv_1 in Py. congruence.
Qed.

(** A leaf has one key, the others two. *)
Lemma leaf_ne_two b k v ver q k1 k2 :
  same_entries b (PLeaf k v ver) q -> keyok b k1 -> keyok b k2 ->
  is_Some (plookup q k1) -> is_Some (plookup q k2) -> k1 = k2.
Proof.
  intros Hs H1 H2 S1 S2. rewrite <- (Hs _ H1) in S1. rewrite <- (Hs _ H2) in S2.
  cbn in S1, S2. repeat case_bool_decide; try by (destruct S1 || destruct S2). congruence.
Qed.

Lemma leaf_only_leaf b k v ver q : wf b q -> same_entries b (PLeaf k v ver) q ->
  exists k' v' ver', q = PLeaf k' v' ver'.
Proof.
  intros Hq Hs. destruct q as [k' v' ver'|k' t|ts]; [eauto|exfalso..].
  - apply wf_ext_inv in Hq as (-> & _ & Hk & (ts & ->) & Ht).
    destruct (wf_branch_two _ Ht) as (x & y & kx & ky & Hxy & Kx & Ky & Sx & Sy).
    assert (k' ++ x :: kx = k' ++ y :: ky) as E%app_inv_head.
    { eapply (leaf_ne_two false); [done|..]; cbn [keyok];
        rewrite ?hexkey_app_nibbles, ?plookup_ext_app by done; done. }
    congruence.
  - pose proof Hq as (-> & _)%wf_branch_inv.
    destruct (wf_branch_two _ Hq) as (x & y & kx & ky & Hxy & Kx & Ky & Sx & Sy).
    assert (x :: kx = y :: ky) by (eapply (leaf_ne_two false); done). congruence.
Qed.

Lemma slot_ext ts us :
  length ts = nrOfChildren -> length us = nrOfChildren ->
  (forall x, inrange x -> slot ts x = slot us x) -> ts = us.
Proof.
  intros L1 L2 H. apply (nth_ext _ _ None None); [congruence|].
  intros n Hn. rewrite L1 in Hn. specialize (H (Z.of_nat n)).
  unfold slot, inrange, hexTerminator, nrOfChildren in *. rewrite Nat2Z.id in H.
  apply H. lia.
Qed.

(** Two well-formed tries with the same entries are the same tree: the trie is
    a canonical form of its contents. *)
Lemma plookup_canonical b p q : wf b p -> wf b q -> same_entries b p q -> p = q.
Proof.
  revert b q. induction p as [k v ver|k t IH|ts IH] using ptrie_rect'; intros b q Hp Hq Hs.
  - destruct (leaf_only_leaf _ _ _ _ _ Hq Hs) as (k' & v' & ver' & ->).
    apply wf_leaf_inv in Hp as [Hk _]. pose proof (Hs _ Hk) as E. cbn in E.
    rewrite bool_decide_true in E by done. case_bool_decide; congruence.
  - pose proof Hp as (-> & Hne & Hk & (ts & ->) & Ht)%wf_ext_inv.
    destruct q as [k' v' ver'|k' t'|us].
    + apply same_entries_sym, (leaf_only_leaf _ _ _ _ _ Hp) in Hs. by destruct Hs as (?&?&?&?).
    + pose proof Hq as (_ & _ & Hk' & (us & ->) & Hu)%wf_ext_inv.
      assert (k = k') as <-.
      { pose proof (ext_keys_prefix _ _ _ _ Hk Ht Hs) as P1.
        pose proof (ext_keys_prefix _ _ _ _ Hk' Hu (same_entries_sym _ _ _ Hs)) as P2.
        by apply (anti_symm prefix). }
      f_equal. apply (IH false); [done..|]. intros r Hr.
      specialize (Hs (k ++ r)). rewrite !plookup_ext_app in Hs. apply Hs.
      cbn. by rewrite hexkey_app_nibbles.
    + exfalso. apply (branch_ne_common us k (PBranch ts)); [done..|]. by apply same_entries_sym.
  - pose proof Hp as (-> & L1 & Hc1 & _)%wf_branch_inv. destruct q as [k' v' ver'|k' t'|us].
    + apply same_entries_sym, (leaf_only_leaf _ _ _ _ _ Hp) in Hs. by destruct Hs as (?&?&?&?).
    + apply wf_ext_inv in Hq as (_ & Hne & _). exfalso.
      by apply (branch_ne_common ts k' t').
    + pose proof Hq as (_ & L2 & Hc2 & _)%wf_branch_inv. f_equal.
      apply slot_ext; [done..|]. intros x Hx.
      assert (G : forall k, keyok (is_term x) k ->
                slot ts x ≫= (fun t => plookup t k) = slot us x ≫= fun t => plookup t k).
      { intros k Kk. specialize (Hs (x :: k)). rewrite !plookup_branch in Hs.
        apply Hs. by apply keyok_cons. }
      pose proof (slot_inhabited _ x Hp Hx) as S1. pose proof (slot_inhabited _ x Hq Hx) as S2.
      destruct (slot ts x) as [t|] eqn:Et, (slot us x) as [u|] eqn:Eu; [|exfalso..|done].
      * f_equal. eapply IH; eauto.
      * destruct (proj1 S1) as (k & Kk & Sk); [eauto|]. rewrite (Hs _ Kk) in Sk.
        destruct (proj2 S2); eauto. done.
      * destruct (proj1 S2) as (k & Kk & Sk); [eauto|]. rewrite <- (Hs _ Kk) in Sk.
        destruct (proj2 S1); eauto. done.
Qed.

(** ** The tree edits that insertion and deletion make *)

(** [k] put in front of every key of [t]: leaves and extensions absorb it, a
    branch gets an extension. *)
Definition pcons (k : bytes) (t : ptrie) : ptrie :=
  match t with
  | PLeaf k' v ver => PLeaf (k ++ k') v ver
  | PExt k' t' => PExt (k ++ k') t'
  | PBranch _ => match k with [] => t | _ => PExt k t end
  end.

Lemma plookup_pcons_app k t key : plookup (pcons k t) (k ++ key) = plookup t key.
Proof.
  destruct t as [k' v ver|k' t'|ts]; cbn [pcons].
  - cbn. destruct (decide (key = k')) as [->|N]; [by rewrite !bool_decide_true|].
    rewrite !bool_decide_false; [done|done|]. by intros ?%app_inv_head.
  - cbn. destruct (decide (k' `prefix_of` key)) as [P|N].
    + rewrite !bool_decide_true by (try apply prefix_app; done).
      by rewrite length_app, <- drop_drop, drop_app_length.
    + rewrite !bool_decide_false; [done|done|]. by intros ?%prefix_app_inv.
  - destruct k as [|x k]; [done|]. by rewrite plookup_ext_app.
Qed.

Lemma plookup_pcons_other k t key : ~ k `prefix_of` key -> plookup (pcons k t) key = None.
Proof.
  intros N. destruct t as [k' v ver|k' t'|ts]; cbn [pcons].
  - cbn. rewrite bool_decide_false; [done|].
    intros ->. apply N. by apply prefix_app_r.
  - apply plookup_ext_other. intros P. apply N. etrans; [|done]. by apply prefix_app_r.
  - destruct k as [|x k]; [by exfalso; apply N, prefix_nil|]. by apply plookup_ext_other.
Qed.

Lemma wf_pcons k t : Forall is_nibble k -> wf false t -> wf false (pcons k t).
Proof.
  intros Hk H. destruct t as [k' v ver|k' t'|ts]; cbn [pcons].
  - apply wf_leaf_inv in H as [? ?]. constructor; [|done]. cbn. by rewrite hexkey_app_nibbles.
  - apply wf_ext_inv in H as (_ & ? & ? & (ts & ->) & ?). constructor; [|by apply Forall_app|done].
    by destruct k.
  - destruct k; [done|]. by constructor.
Qed.

Lemma inrange_cases x : inrange x -> x = hexTerminator \/ is_nibble x.
Proof. unfold inrange, is_nibble, hexTerminator. lia. Qed.

Lemma wf_pcons_one x t : inrange x -> wf (is_term x) t -> wf false (pcons [x] t).
Proof.
  intros [->|Hx]%inrange_cases H.
  - destruct t as [k' v ver|k' t'|ts]; cbn in *.
    + apply wf_leaf_inv in H as [E ?]. cbn in E. subst k'. constructor; [by exists []|done].
    + by apply wf_ext_inv in H as (? & _).
    + by apply wf_branch_inv in H as (? & _).
  - apply wf_pcons; [by apply Forall_singleton|]. pose proof (nibble_not_terminator _ Hx).
    unfold is_term in H. by destruct (Z.eqb_spec x hexTerminator).
Qed.

Lemma slot_insert ts x y o :
  length ts = nrOfChildren -> inrange x -> inrange y ->
  slot (<[Z.to_nat x := o]> ts) y = if decide (x = y) then o else slot ts y.
Proof.
  unfold slot, inrange, hexTerminator, nrOfChildren. intros L Hx Hy.
  rewrite !nth_lookup. destruct (decide (x = y)) as [->|N].
  - by rewrite list_lookup_insert_eq by lia.
  - rewrite list_lookup_insert_ne; [done|lia].
Qed.

Lemma slot_out ts x : length ts = nrOfChildren -> ~ inrange x -> 0 <= x -> slot ts x = None.
Proof.
  unfold slot, inrange, hexTerminator, nrOfChildren. intros L Hx H0.
  apply nth_overflow. lia.
Qed.

Lemma plookup_branch_insert ts x o y key :
  length ts = nrOfChildren -> inrange x -> inrange y ->
  plookup (PBranch (<[Z.to_nat x := o]> ts)) (y :: key) =
  if decide (x = y) then o ≫= (fun t => plookup t key) else plookup (PBranch ts) (y :: key).
Proof.
  intros L Hx Hy. rewrite !plookup_branch, slot_insert by done. by destruct (decide (x = y)).
Qed.

Lemma wf_branch_insert ts x t :
  wf false (PBranch ts) -> inrange x -> wf (is_term x) t ->
  wf false (PBranch (<[Z.to_nat x := Some t]> ts)).
Proof.
  intros (_ & L & Hc & (a & c & Hac & Ha & Hc' & Sa & Sc))%wf_branch_inv Hx Ht.
  constructor; [by rewrite length_insert|..].
  - intros y u Hy. rewrite slot_insert by done. case_decide; [|eauto].
    subst. by intros [= <-].
  - exists a, c. rewrite !slot_insert by done. split_and!; try done; case_decide; eauto.
Qed.

(** The branch that a split makes. *)
Definition two (x : Z) (t : ptrie) (y : Z) (u : ptrie) : list (option ptrie) :=
  <[Z.to_nat y := Some u]> (<[Z.to_nat x := Some t]> (replicate nrOfChildren None)).

Lemma slot_empty x : slot (replicate nrOfChildren None) x = None.
Proof.
  unfold slot. rewrite nth_lookup.
  destruct (_ !! _) as [o|] eqn:E; [|done]. by apply lookup_replicate in E as [-> _].
Qed.

Lemma slot_two x t y u z : inrange x -> inrange y -> inrange z ->
  slot (two x t y u) z =
  if decide (y = z) then Some u else if decide (x = z) then Some t else None.
Proof.
  intros Hx Hy Hz. unfold two.
  rewrite slot_insert by (rewrite ?length_insert, ?length_replicate; done).
  case_decide; [done|]. rewrite slot_insert by (rewrite ?length_replicate; done).
  by rewrite slot_empty.
Qed.

Lemma length_two x t y u : length (two x t y u) = nrOfChildren.
Proof. unfold two. by rewrite !length_insert, length_replicate. Qed.

Lemma wf_two x t y u : x <> y -> inrange x -> inrange y ->
  wf (is_term x) t -> wf (is_term y) u -> wf false (PBranch (two x t y u)).
Proof.
  intros N Hx Hy Ht Hu. constructor; [apply length_two|..].
  - intros z w Hz. rewrite slot_two by done. repeat case_decide; naive_solver.
  - exists x, y. rewrite !slot_two by done. split_and!; try done; repeat case_decide; naive_solver.
Qed.

Lemma plookup_two x t y u z key : inrange x -> inrange y -> inrange z ->
  plookup (PBranch (two x t y u)) (z :: key) =
  if decide (y = z) then plookup u key else if decide (x = z) then plookup t key else None.
Proof.
  intros. rewrite plookup_branch, slot_two by done. by repeat case_decide.
Qed.
