(* ===== verification/TrieRefinement.v ===== *)
(** * The trie nodes implement the abstract trie

    [Rep D p n] says that the node [n], with what it has collapsed still in
    the storage [D], is the abstract trie [p]: its stored fields and versions,
    its cached hash and its dirty flag are right.  Lookup, insertion and
    deletion of TrieNode are shown to succeed on such nodes with the effect of
    a finite map on [p], to keep [Rep] and [wf], and to need no more fuel than
    the length of the key. *)

From stdpp Require Import base list.
From Stdlib Require Import ZArith Lia.
From S2P Require Import Prelude KeyBuilder TrieNode TrieSpec.

(** What the trie relies on of its hasher and marshalizer: hashes are not
    empty, encoding does not fail on nodes and decoding inverts it, and the
    version constant is the zero of its type. *)
Class TrieExternalsOk (X : TrieExternals) : Prop := {
  NotSpecified_zero : NotSpecified = 0;
  Compute_nonempty : forall b, Compute b <> [];
  MarshalBn_ok : forall c, exists b, MarshalBn c = Ok b /\ UnmarshalBn b = Ok c;
  MarshalEn_ok : forall c, exists b, MarshalEn c = Ok b /\ UnmarshalEn b = Ok c;
  MarshalLn_ok : forall c v, ln_Value c = Some v -> v <> [] ->
    exists b, MarshalLn c = Ok b /\ UnmarshalLn b = Ok c;
}.

(** The idealisation under which a hash stands for what it is the hash of. *)
Class CollisionFree (X : TrieExternals) : Prop :=
  Compute_inj : forall a b, Compute a = Compute b -> a = b.

(** Unfolds the method combinators and computes. *)
Ltac se_unfold :=
  unfold mbind, se_bind, mret, se_ret, se_get, se_modify, se_lift, se_guard, se_check,
    se_mapErr, se_try, se_zoom, result_bind, result_ret in *.
Ltac se_cbn := se_unfold; cbn beta iota zeta delta [wrap option_fmap option_map fmap] in *.
Ltac nr_cbn := se_cbn; cbn beta iota zeta delta
  [nr_isEmptyOrNil nr_isPosCollapsed nr_resolveCollapsed leafNode_resolve
   extensionNode_resolve branchNode_resolve node_resolve] in *.

Section Refinement.
Context {X : TrieExternals} {XOk : TrieExternalsOk X}.
Context {DB : Type} {ST : TrieStorage DB}.
Implicit Types (D : DB) (p t : ptrie) (n : node).

(** ** Versions, encodings and hashes of abstract tries *)

(** The version that all present children share, else NotSpecified. *)
Definition common (vs : list (option Z)) : Z :=
  match omap id vs with
  | [] => 0
  | v :: vs => if forallb (Z.eqb v) vs then v else 0
  end.

Fixpoint pver (p : ptrie) : Z :=
  match p with
  | PLeaf _ _ ver => ver
  | PExt _ t => pver t
  | PBranch ts => common (map (fun o => match o with Some t => Some (pver t) | None => None end) ts)
  end.

Definition oversion (o : option ptrie) : Z := match o with Some t => pver t | None => 0 end.

(** The slice of children versions is nil when it holds zeros only. *)
Definition compress (vs : list Z) : list Z := if forallb (Z.eqb 0) vs then [] else vs.
Definition cvers (ts : list (option ptrie)) : list Z := compress (map oversion ts).

Definition ok_or_nil {E} (r : result E bytes) : bytes := match r with Ok b => b | Err _ => [] end.

(** What is stored for a trie, under its hash. *)
Fixpoint penc (p : ptrie) : bytes :=
  match p with
  | PLeaf k v ver =>
      ok_or_nil (MarshalLn {| ln_Key := k; ln_Value := Some v; ln_Version := ver |}) ++ [leaf]
  | PExt k t =>
      ok_or_nil (MarshalEn {| en_Key := k; EncodedChild := Compute (penc t);
                              ChildVersion := pver t |}) ++ [extension]
  | PBranch ts =>
      ok_or_nil (MarshalBn
        {| EncodedChildren :=
             map (fun o => match o with Some t => Compute (penc t) | None => [] end) ts;
           ChildrenVersion := cvers ts |}) ++ [branch]
  end.

Definition phash (p : ptrie) : bytes := Compute (penc p).
Definition ohash (o : option ptrie) : bytes := match o with Some t => phash t | None => [] end.

Lemma phash_nonempty p : phash p <> [].
Proof. apply Compute_nonempty. Qed.

(** The whole trie is in the storage. *)
Inductive Stored (D : DB) : ptrie -> Prop :=
| Stored_leaf k v ver :
    db_Get D (phash (PLeaf k v ver)) = Ok (penc (PLeaf k v ver)) -> Stored D (PLeaf k v ver)
| Stored_ext k t :
    db_Get D (phash (PExt k t)) = Ok (penc (PExt k t)) -> Stored D t -> Stored D (PExt k t)
| Stored_branch ts :
    db_Get D (phash (PBranch ts)) = Ok (penc (PBranch ts)) ->
    (forall x t, inrange x -> slot ts x = Some t -> Stored D t) -> Stored D (PBranch ts).

Lemma Stored_get D p : Stored D p -> db_Get D (phash p) = Ok (penc p).
Proof. by intros []. Qed.

(** ** The representation of an abstract trie by a node *)

Definition base_ok (D : DB) (p : ptrie) (b : baseNode) : Prop :=
  (forall h, hash b = Some h -> h = phash p) /\
  (dirty b = false -> hash b = Some (phash p) /\ Stored D p).

Inductive Rep (D : DB) : ptrie -> node -> Prop :=
| Rep_leaf k v ver ln :
    ln_collapsed ln = {| ln_Key := k; ln_Value := Some v; ln_Version := ver |} ->
    base_ok D (PLeaf k v ver) (ln_base ln) ->
    Rep D (PLeaf k v ver) (NLeaf ln)
| Rep_ext k t en :
    en_Key (en_collapsed en) = k -> ChildVersion (en_collapsed en) = pver t ->
    (forall c, en_child en = Some c -> Rep D t c) ->
    (en_child en = None -> EncodedChild (en_collapsed en) = phash t /\ Stored D t) ->
    (hash (en_base en) <> None -> EncodedChild (en_collapsed en) = phash t /\
       forall c, en_child en = Some c -> getHash c <> None) ->
    base_ok D (PExt k t) (en_base en) ->
    Rep D (PExt k t) (NExt en)
| Rep_branch ts bn :
    length ts = nrOfChildren -> length (bn_children bn) = nrOfChildren ->
    length (EncodedChildren (bn_collapsed bn)) = nrOfChildren ->
    ChildrenVersion (bn_collapsed bn) = cvers ts ->
    (forall x t c, inrange x -> slot ts x = Some t -> bn_child bn x = Some c -> Rep D t c) ->
    (forall x t, inrange x -> slot ts x = Some t -> bn_child bn x = None ->
       bn_encoded bn x = phash t /\ Stored D t) ->
    (forall x, inrange x -> slot ts x = None -> bn_child bn x = None /\ bn_encoded bn x = []) ->
    (hash (bn_base bn) <> None -> forall x t, inrange x -> slot ts x = Some t ->
       bn_encoded bn x = phash t /\ forall c, bn_child bn x = Some c -> getHash c <> None) ->
    base_ok D (PBranch ts) (bn_base bn) ->
    Rep D (PBranch ts) (NBranch bn).

Lemma base_ok_new D p : base_ok D p newBase.
Proof. by split. Qed.

Lemma Rep_base D p n : Rep D p n -> base_ok D p (node_base n).
Proof. by intros []. Qed.

Lemma Rep_leaf_inv D k v ver n : Rep D (PLeaf k v ver) n ->
  exists ln, n = NLeaf ln /\
    ln_collapsed ln = {| ln_Key := k; ln_Value := Some v; ln_Version := ver |} /\
    base_ok D (PLeaf k v ver) (ln_base ln).
Proof. intros H. invc H. eauto. Qed.

Lemma Rep_ext_inv D k t n : Rep D (PExt k t) n ->
  exists en, n = NExt en /\
    en_Key (en_collapsed en) = k /\ ChildVersion (en_collapsed en) = pver t /\
    (forall c, en_child en = Some c -> Rep D t c) /\
    (en_child en = None -> EncodedChild (en_collapsed en) = phash t /\ Stored D t) /\
    (hash (en_base en) <> None -> EncodedChild (en_collapsed en) = phash t /\
       forall c, en_child en = Some c -> getHash c <> None) /\
    base_ok D (PExt k t) (en_base en).
Proof. intros H. inversion H; subst. eauto 20. Qed.

(** The part of [Rep] on a branch that does not speak of its cached hash. *)
Record branch_core (D : DB) (ts : list (option ptrie)) (bn : branchNode) : Prop := {
  bc_len : length ts = nrOfChildren;
  bc_children : length (bn_children bn) = nrOfChildren;
  bc_encoded : length (EncodedChildren (bn_collapsed bn)) = nrOfChildren;
  bc_versions : ChildrenVersion (bn_collapsed bn) = cvers ts;
  bc_loaded : forall x t c, inrange x -> slot ts x = Some t -> bn_child bn x = Some c -> Rep D t c;
  bc_collapsed : forall x t, inrange x -> slot ts x = Some t -> bn_child bn x = None ->
    bn_encoded bn x = phash t /\ Stored D t;
  bc_absent : forall x, inrange x -> slot ts x = None ->
    bn_child bn x = None /\ bn_encoded bn x = [];
}.

Record branch_rep (D : DB) (ts : list (option ptrie)) (bn : branchNode) : Prop := {
  br_core :> branch_core D ts bn;
  br_hashed : hash (bn_base bn) <> None -> forall x t, inrange x -> slot ts x = Some t ->
    bn_encoded bn x = phash t /\ forall c, bn_child bn x = Some c -> getHash c <> None;
  br_base : base_ok D (PBranch ts) (bn_base bn);
}.

Lemma Rep_branch_iff D ts bn : Rep D (PBranch ts) (NBranch bn) <-> branch_rep D ts bn.
Proof.
  split.
  - intros H. inversion H; subst. by constructor; [constructor|..].
  - intros [[] ? ?]. by constructor.
Qed.

Lemma Rep_branch_inv D ts n : Rep D (PBranch ts) n -> exists bn, n = NBranch bn /\ branch_rep D ts bn.
Proof. intros H. inversion H; subst. eexists. split; [done|]. by apply Rep_branch_iff. Qed.

(** A branch that differs in what it has loaded only. *)
Lemma branch_rep_core D ts bn bn' : branch_rep D ts bn -> branch_core D ts bn' ->
  bn_collapsed bn' = bn_collapsed bn -> bn_base bn' = bn_base bn ->
  (hash (bn_base bn) <> None -> forall x c, inrange x -> bn_child bn' x = Some c ->
     bn_child bn x = Some c \/ getHash c <> None) ->
  branch_rep D ts bn'.
Proof.
  intros [_ H1 H2] Hc E1 E2 E3. constructor; [done|..]; rewrite E2; [|done].
  intros N x t Hx Ht. destruct (H1 N x t Hx Ht) as [He Hh]. split.
  - unfold bn_encoded. by rewrite E1.
  - intros c Ec. destruct (E3 N x c Hx Ec); auto.
Qed.

(** ** Positions *)

Lemma positions_inrange x : x ∈ positions <-> inrange x.
Proof.
  unfold positions, inrange, hexTerminator. rewrite list_elem_of_fmap. split.
  - intros (n & -> & Hn). apply elem_of_seq in Hn. unfold nrOfChildren in Hn. lia.
  - intros H. exists (Z.to_nat x). rewrite elem_of_seq. unfold nrOfChildren. lia.
Qed.

Lemma positions_map {A} (ts : list (option ptrie)) (g : Z -> A) (f : option ptrie -> A) :
  length ts = nrOfChildren -> (forall x, inrange x -> g x = f (slot ts x)) ->
  g <$> positions = map f ts.
Proof.
  intros L H. apply list_eq. intros i. unfold positions.
  rewrite <- list_fmap_compose, list_lookup_fmap.
  change (map f ts) with (f <$> ts). rewrite list_lookup_fmap.
  destruct (Nat.lt_ge_cases i nrOfChildren) as [Li|Li].
  - rewrite lookup_seq_lt by done. destruct (lookup_lt_is_Some_2 ts i) as [o Ho]; [lia|].
    rewrite Ho. cbn. f_equal. rewrite H; [|unfold inrange, hexTerminator, nrOfChildren in *; lia].
    unfold slot. by rewrite Nat2Z.id, nth_lookup, Ho.
  - rewrite lookup_seq_ge by done. rewrite lookup_ge_None_2 by lia. done.
Qed.

Lemma bn_child_set bn x y o :
  length (bn_children bn) = nrOfChildren -> inrange x -> inrange y ->
  bn_child (bn_set_child x o bn) y = if decide (x = y) then o else bn_child bn y.
Proof.
  unfold bn_child, bn_set_child, inrange, hexTerminator, nrOfChildren. cbn. intros L Hx Hy.
  rewrite !nth_lookup. destruct (decide (x = y)) as [->|N].
  - by rewrite list_lookup_insert_eq by lia.
  - rewrite list_lookup_insert_ne; [done|lia].
Qed.

Lemma bn_encoded_set bn x y h :
  length (EncodedChildren (bn_collapsed bn)) = nrOfChildren -> inrange x -> inrange y ->
  bn_encoded (bn_set_encoded x h bn) y = if decide (x = y) then h else bn_encoded bn y.
Proof.
  unfold bn_encoded, bn_set_encoded, inrange, hexTerminator, nrOfChildren. cbn. intros L Hx Hy.
  rewrite !nth_lookup. destruct (decide (x = y)) as [->|N].
  - by rewrite list_lookup_insert_eq by lia.
  - rewrite list_lookup_insert_ne; [done|lia].
Qed.

Lemma inrange_position x : inrange x -> childPosOutOfRange x = false.
Proof. unfold inrange, childPosOutOfRange, hexTerminator, nrOfChildren. intros. apply Z.leb_gt. lia. Qed.

(** ** Presence of children *)

Lemma Rep_present D ts bn x : branch_core D ts bn -> inrange x ->
  bn_present bn x = bool_decide (is_Some (slot ts x)).
Proof.
  intros H Hx. unfold bn_present. destruct (slot ts x) as [t|] eqn:E.
  - rewrite (bool_decide_true (is_Some (Some t))) by eauto.
    destruct (bn_child bn x) eqn:C; [done|].
    destruct (bc_collapsed _ _ _ H _ _ Hx E C) as [-> _]. rewrite (bool_decide_false (phash t = [])); [done|].
    apply phash_nonempty.
  - destruct (bc_absent _ _ _ H _ Hx E) as [-> ->]. done.
Qed.

Lemma Rep_nonempty D p n b : wf b p -> Rep D p n -> isEmptyOrNil n = None.
Proof.
  intros Hw H. destruct H as [k v ver ln E _|k t en _ _ _ Hn _ _|ts bn L1 L2 L3 V H1 H2 H3 H4 H5]; cbn.
  - unfold leafNode_isEmptyOrNil. by rewrite E.
  - unfold extensionNode_isEmptyOrNil. destruct (en_child en); [done|].
    destruct Hn as [-> _]; [done|]. destruct (phash t) eqn:E; [|done]. by apply phash_nonempty in E.
  - apply wf_branch_inv in Hw as (_ & _ & _ & (x & _ & _ & Hx & _ & S & _)).
    unfold branchNode_isEmptyOrNil. rewrite (proj2 (existsb_exists _ _)); [done|].
    exists x. split; [by apply list_elem_of_In, positions_inrange|].
    rewrite (Rep_present D ts); [by apply bool_decide_true|by constructor|done].
Qed.

(** ** Versions *)

Definition opver (o : option ptrie) : option Z := pver <$> o.

Lemma pver_branch ts : pver (PBranch ts) = common (map opver ts).
Proof. done. Qed.

Lemma omap_opver_oversion ts v : v ∈ omap id (map opver ts) -> v ∈ map oversion ts.
Proof.
  induction ts as [|[t|] ts IH]; cbn; [done| |].
  - rewrite !elem_of_cons. naive_solver.
  - rewrite elem_of_cons. auto.
Qed.

Lemma common_cases vs : common vs = 0 \/ common vs ∈ omap id vs.
Proof.
  unfold common. destruct (omap id vs) as [|v l]; [by left|].
  case_match; [right; apply elem_of_cons; by left|by left].
Qed.

Lemma slot_elem ts o : length ts = nrOfChildren -> o ∈ ts -> exists x, inrange x /\ slot ts x = o.
Proof.
  intros L (i & Hi)%list_elem_of_lookup. exists (Z.of_nat i).
  pose proof (lookup_lt_Some _ _ _ Hi). unfold inrange, hexTerminator, slot, nrOfChildren in *.
  split; [lia|]. by rewrite Nat2Z.id, nth_lookup, Hi.
Qed.

Lemma pver_range b p : wf b p -> 0 <= pver p < 256.
Proof.
  revert b. induction p as [k v ver|k t IH|ts IH] using ptrie_rect'; intros b H.
  - by apply wf_leaf_inv in H as [_ [_ ?]].
  - apply wf_ext_inv in H as (_ & _ & _ & _ & ?). cbn. eauto.
  - apply wf_branch_inv in H as (_ & L & Hc & _). rewrite pver_branch.
    destruct (common_cases (map opver ts)) as [->|E%omap_opver_oversion]; [lia|].
    apply list_elem_of_fmap in E as (o & -> & Ho).
    destruct (slot_elem _ _ L Ho) as (x & Hx & E). destruct o as [t|]; cbn; [eauto|lia].
Qed.

Lemma existsb_other ts v :
  existsb (fun s : bool * Z => fst s && negb (snd s =? v))
    (map (fun o => (bool_decide (is_Some o), oversion o)) ts) =
  negb (forallb (Z.eqb v) (omap id (map opver ts))).
Proof.
  induction ts as [|[t|] ts IH]; cbn; [done| |done].
  rewrite IH, (Z.eqb_sym v). by destruct (pver t =? v).
Qed.

Lemma getVersion_first_common ts :
  (let '(v, rest) := getVersion_first (map (fun o => (bool_decide (is_Some o), oversion o)) ts) in
   if existsb (fun s => fst s && negb (snd s =? v)) rest then 0 else v) = common (map opver ts).
Proof.
  induction ts as [|[t|] ts IH]; cbn; [done| |done].
  rewrite existsb_other. unfold common. cbn. by destruct (forallb _ _).
Qed.

Lemma common_zero ts : forallb (Z.eqb 0) (map oversion ts) = true -> common (map opver ts) = 0.
Proof.
  intros H. destruct (common_cases (map opver ts)) as [->|E%omap_opver_oversion]; [done|].
  rewrite forallb_forall in H. symmetry. apply Z.eqb_eq, H. by apply list_elem_of_In.
Qed.

Lemma compress_nil vs : vs <> [] -> compress vs = [] <-> forallb (Z.eqb 0) vs = true.
Proof. unfold compress. intros. destruct (forallb _ _); naive_solver. Qed.

Lemma branch_getVersion D ts bn : branch_core D ts bn -> branchNode_getVersion bn = Ok (pver (PBranch ts)).
Proof.
  intros H. unfold branchNode_getVersion. rewrite pver_branch, NotSpecified_zero.
  pose proof (bc_versions _ _ _ H) as V. unfold cvers, compress in V.
  destruct (forallb (Z.eqb 0) (map oversion ts)) eqn:E.
  - by rewrite V, common_zero.
  - assert (bn_slots bn = map (fun o => (bool_decide (is_Some o), oversion o)) ts) as ->.
    { apply positions_map; [by apply H|]. intros x Hx. rewrite (Rep_present D ts) by done.
      f_equal. unfold bn_version. rewrite V. unfold slot. apply (map_nth oversion ts None). }
    rewrite V. destruct (map oversion ts) eqn:N; [done|]. rewrite <- getVersion_first_common.
    destruct (getVersion_first _) as [v rest]. by destruct (existsb _ _).
Qed.

Lemma getVersion_Rep b D p n : wf b p -> Rep D p n -> getVersion n = Ok (pver p).
Proof.
  intros Hw H. destruct p as [k v ver|k t|ts].
  - apply Rep_leaf_inv in H as (ln & -> & E & _). apply wf_leaf_inv in Hw as [_ [_ R]].
    cbn. unfold leafNode_getVersion, maxUint8. rewrite E. cbn.
    destruct (Z.ltb_spec 255 ver); [lia|done].
  - apply Rep_ext_inv in H as (en & -> & _ & V & _). apply wf_ext_inv in Hw as (_ & _ & _ & _ & Hw).
    apply pver_range in Hw. cbn. unfold extensionNode_getVersion, maxUint8. rewrite V.
    destruct (Z.ltb_spec 255 (pver t)); [lia|done].
  - apply Rep_branch_inv in H as (bn & -> & H). eapply branch_getVersion. apply H.
Qed.

Lemma compress_insert vs x v :
  length vs = nrOfChildren -> inrange x -> 0 <= v < 256 ->
  compress (<[Z.to_nat x := v]> vs) =
  (if v =? 0 then
     let vs' := <[Z.to_nat x := 0]> vs in if existsb (fun v => negb (v =? 0)) vs' then vs' else []
   else <[Z.to_nat x := v]> vs).
Proof.
  intros L Hx Hv. unfold compress. destruct (Z.eqb_spec v 0) as [->|N]; cbn zeta.
  - generalize (<[Z.to_nat x := 0]> vs). intros l.
    assert (forallb (Z.eqb 0) l = negb (existsb (fun v => negb (v =? 0)) l)) as ->.
    { induction l as [|a l IH]; cbn [forallb existsb]; [done|]. rewrite IH, (Z.eqb_sym 0). by destruct (a =? 0). }
    by destruct (existsb _ _).
  - destruct (forallb _ _) eqn:E; [|done]. exfalso. apply N.
    rewrite forallb_forall in E. symmetry. apply Z.eqb_eq, E, list_elem_of_In.
    apply list_elem_of_lookup. exists (Z.to_nat x). apply list_lookup_insert_eq.
    unfold inrange, hexTerminator, nrOfChildren in *. lia.
Qed.

Lemma compress_zero vs : length vs = nrOfChildren -> compress vs = [] -> vs = replicate nrOfChildren 0.
Proof.
  intros L H. apply compress_nil in H; [|by destruct vs].
  rewrite <- L. clear L. induction vs as [|v vs IH]; [done|]. cbn [forallb] in H.
  apply andb_prop in H as [<-%Z.eqb_eq H]. cbn. by rewrite <- IH.
Qed.

(** [setVersionForChild] keeps the compressed slice of the children's
    versions, and touches nothing else. *)
Lemma setVersionForChild_spec bn x v vs :
  length vs = nrOfChildren -> inrange x -> 0 <= v < 256 ->
  ChildrenVersion (bn_collapsed bn) = compress vs ->
  setVersionForChild v x bn = bn_set_versions (compress (<[Z.to_nat x := v]> vs)) bn.
Proof.
  intros L Hx Hv V. rewrite compress_insert by done.
  unfold setVersionForChild, revertChildrenVersionSliceIfNeeded. rewrite NotSpecified_zero.
  assert (u8 v = v) as -> by (apply Z.mod_small; lia). change (u8 0) with 0.
  destruct (bool_decide (ChildrenVersion (bn_collapsed bn) = [])) eqn:B.
  - apply bool_decide_eq_true in B. rewrite V in B.
    pose proof (compress_zero _ L B) as ->.
    destruct (Z.eqb_spec v 0) as [->|N]; cbn [andb]; [|done].
    rewrite list_insert_id'; [|intros; apply lookup_replicate_2;
      unfold inrange, hexTerminator, nrOfChildren in *; lia].
    destruct bn as [[] ? ?]. cbn in *. by rewrite V.
  - apply bool_decide_eq_false in B. rewrite andb_false_r.
    assert (compress vs = vs) as E.
    { rewrite V in B. unfold compress in *. by destruct (forallb _ _). }
    rewrite V, E. destruct (Z.eqb_spec v 0) as [->|N]; [|done]. cbn zeta. cbn.
    destruct (existsb _ _); done.
Qed.

(** ** Loading *)

Lemma decodeNode_app b ty : decodeNode (b ++ [ty]) =
  (newNode ← getEmptyNodeOfType ty; newNode ← Unmarshal newNode b;
   _ ← validateDecodedNode newNode; Ok newNode).
Proof.
  unfold decodeNode. rewrite last_snoc, length_app, Nat.add_sub, take_app_length. done.
Qed.

Lemma cvers_length ts : length ts = nrOfChildren ->
  length (cvers ts) = 0%nat \/ length (cvers ts) = nrOfChildren.
Proof.
  intros L. unfold cvers, compress. destruct (forallb _ _); [by left|].
  right. by rewrite length_map.
Qed.

Lemma bn_child_empty (bn : branchNode) x :
  bn_children bn = replicate nrOfChildren None -> bn_child bn x = None.
Proof.
  unfold bn_child. intros ->. rewrite nth_lookup.
  destruct (_ !! _) eqn:F; [by apply lookup_replicate in F as [-> _]|done].
Qed.

Lemma bn_encoded_ohash (bn : branchNode) ts x :
  EncodedChildren (bn_collapsed bn) = map ohash ts -> bn_encoded bn x = ohash (slot ts x).
Proof. unfold bn_encoded. intros ->. apply (map_nth ohash ts None). Qed.

(** The node that decoding a stored trie gives: collapsed, with its hash. *)
Lemma decode_penc D b p : wf b p -> Stored D p ->
  exists n, decodeNode (penc p) = Ok n /\ Rep D p (setGivenHash (Some (phash p)) n).
Proof.
  intros Hw Hs. assert (B : base_ok D p {| hash := Some (phash p); dirty := false |}).
  { split; [by intros h [= <-]|done]. }
  destruct p as [k v ver|k t|ts]; cbn [penc]; rewrite decodeNode_app; cbn.
  - apply wf_leaf_inv in Hw as [_ [Hv _]].
    destruct (MarshalLn_ok {| ln_Key := k; ln_Value := Some v; ln_Version := ver |} v)
      as (c & -> & U); [done..|]. cbn. rewrite U. cbn.
    eexists. split; [done|]. by constructor.
  - destruct (MarshalEn_ok {| en_Key := k; EncodedChild := Compute (penc t);
      ChildVersion := pver t |}) as (c & -> & U). cbn. rewrite U. cbn.
    eexists. split; [done|]. inversion Hs; subst. by constructor.
  - apply wf_branch_inv in Hw as (_ & L & _).
    destruct (MarshalBn_ok {| EncodedChildren := map ohash ts; ChildrenVersion := cvers ts |})
      as (c & E & U). change (map (fun o => _) ts) with (map ohash ts). rewrite E. cbn. rewrite U. cbn.
    rewrite length_map, L. cbn.
    assert (negb (length (cvers ts) =? 0)%nat && negb (length (cvers ts) =? nrOfChildren)%nat = false)
      as -> by (destruct (cvers_length ts L) as [->| ->]; done). cbn.
    eexists. split; [done|]. inversion Hs; subst.
    apply Rep_branch_iff. constructor; [constructor|..]; try done.
    + by cbn; rewrite length_map.
    + intros x t d _ _. by rewrite bn_child_empty.
    + intros x t Hx Ht _. rewrite (bn_encoded_ohash _ ts), Ht by done. eauto.
    + intros x _ Hx. by rewrite bn_child_empty, (bn_encoded_ohash _ ts), Hx.
    + intros _ x t _ Ht. rewrite (bn_encoded_ohash _ ts), Ht by done. split; [done|].
      intros d. by rewrite bn_child_empty.
Qed.

Lemma load_stored D b p : wf b p -> Stored D p ->
  exists n, getNodeFromDBAndDecode (phash p) D = Ok n /\ Rep D p (setGivenHash (Some (phash p)) n).
Proof.
  intros Hw Hs. destruct (decode_penc D b p Hw Hs) as (n & E & H). exists n.
  unfold getNodeFromDBAndDecode. by rewrite (Stored_get _ _ Hs).
Qed.

(** Writing back a representative of the same child. *)
Lemma branch_core_set_child D ts bn x t c :
  branch_core D ts bn -> inrange x -> slot ts x = Some t -> Rep D t c ->
  branch_core D ts (bn_set_child x (Some c) bn).
Proof.
  intros [L1 L2 L3 V H1 H2 H3] Hx Hs Hc. constructor; try done.
  - cbn. by rewrite length_insert.
  - intros y u d Hy Hu. rewrite bn_child_set by done. case_decide; [|eauto]. naive_solver.
  - intros y u Hy Hu. rewrite bn_child_set by done. case_decide; [done|]. by apply H2.
  - intros y Hy Hu. rewrite bn_child_set by done. case_decide; [congruence|]. by apply H3.
Qed.

Lemma branch_rep_set_child D ts bn x t c :
  branch_rep D ts bn -> inrange x -> slot ts x = Some t -> Rep D t c ->
  (forall c0, bn_child bn x = Some c0 -> getHash c = getHash c0) -> is_Some (bn_child bn x) ->
  branch_rep D ts (bn_set_child x (Some c) bn).
Proof.
  intros H Hx Hs Hc Hh [c0 E0]. apply (branch_rep_core D ts bn); [done| |done..|].
  - eapply branch_core_set_child; eauto. apply H.
  - intros N y d Hy. rewrite bn_child_set by (try done; apply H). case_decide as Dx; [|by left].
    intros [= <-]. right. subst y. rewrite (Hh _ E0). by apply (br_hashed _ _ _ H N x t).
Qed.

(** The children of a branch that may be short of one. *)
Definition slots_ok (ts : list (option ptrie)) : Prop :=
  length ts = nrOfChildren /\
  (forall x t, inrange x -> slot ts x = Some t -> wf (is_term x) t) /\
  (exists x, inrange x /\ is_Some (slot ts x)).

Lemma wf_slots_ok ts : wf false (PBranch ts) -> slots_ok ts.
Proof. intros (_ & L & H & (x & _ & _ & Hx & _ & S & _))%wf_branch_inv. unfold slots_ok. eauto. Qed.

Lemma branch_nonempty D ts bn : slots_ok ts -> branch_core D ts bn -> branchNode_isEmptyOrNil bn = None.
Proof.
  intros (_ & _ & x & Hx & S) H. unfold branchNode_isEmptyOrNil.
  rewrite (proj2 (existsb_exists _ _)); [done|].
  exists x. split; [by apply list_elem_of_In, positions_inrange|].
  rewrite (Rep_present D ts) by done. by apply bool_decide_true.
Qed.

Lemma branch_resolve D ts bn x :
  slots_ok ts -> branch_core D ts bn -> inrange x ->
  exists bn', resolveIfCollapsed x D bn = (bn', Ok ()) /\ branch_core D ts bn' /\
    bn_collapsed bn' = bn_collapsed bn /\ bn_base bn' = bn_base bn /\
    (forall y c, inrange y -> bn_child bn' y = Some c -> bn_child bn y = Some c \/ getHash c <> None) /\
    match slot ts x with
    | Some t => exists c, bn_child bn' x = Some c /\ Rep D t c
    | None => bn_child bn' x = None
    end.
Proof.
  intros Hw H Hx. pose proof (branch_nonempty D _ _ Hw H) as E.
  unfold resolveIfCollapsed. nr_cbn. rewrite E. unfold branchNode_isPosCollapsed.
  destruct (bool_decide _) eqn:C.
  - apply bool_decide_eq_true in C as [Cn Ce]. unfold branchNode_resolveCollapsed. se_cbn.
    rewrite E, inrange_position by done. cbn. rewrite bool_decide_false by done.
    destruct (slot ts x) as [t|] eqn:S; [|by destruct (bc_absent _ _ _ H _ Hx S)].
    destruct (bc_collapsed _ _ _ H _ _ Hx S Cn) as [Eh St]. rewrite Eh.
    destruct Hw as (_ & Hc & _).
    destruct (load_stored D _ _ (Hc _ _ Hx S) St) as (c & -> & R).
    eexists. split; [done|]. split; [by eapply branch_core_set_child|]. split_and!; [done..| |].
    + intros y d Hy. rewrite bn_child_set by (try apply H; done). case_decide; [|by left].
      intros [= <-]. right. by destruct c.
    + eexists. split; [|done]. rewrite bn_child_set by (try apply H; done). by rewrite decide_True.
  - apply bool_decide_eq_false in C. exists bn. split_and!; [done..|by left|].
    destruct (slot ts x) as [t|] eqn:S.
    + destruct (bn_child bn x) as [c|] eqn:Ec; [eauto using bc_loaded|].
      exfalso. apply C. split; [done|]. destruct (bc_collapsed _ _ _ H _ _ Hx S Ec) as [-> _].
      apply phash_nonempty.
    + by apply (bc_absent _ _ _ H).
Qed.

(** The same on a whole branch. *)
Lemma branch_rep_resolve D ts bn x :
  wf false (PBranch ts) -> branch_rep D ts bn -> inrange x ->
  exists bn', resolveIfCollapsed x D bn = (bn', Ok ()) /\ branch_rep D ts bn' /\
    bn_base bn' = bn_base bn /\
    match slot ts x with
    | Some t => exists c, bn_child bn' x = Some c /\ Rep D t c
    | None => bn_child bn' x = None
    end.
Proof.
  intros Hw H Hx.
  destruct (branch_resolve D ts bn x (wf_slots_ok _ Hw) H Hx) as (bn' & R & Hc & E1 & E2 & E3 & S).
  exists bn'. split_and!; try done. eapply branch_rep_core; eauto.
Qed.

Lemma ext_resolve D k t en x :
  wf false (PExt k t) -> Rep D (PExt k t) (NExt en) ->
  exists en' c, resolveIfCollapsed x D en = (en', Ok ()) /\ Rep D (PExt k t) (NExt en') /\
    en_base en' = en_base en /\ en_child en' = Some c /\ Rep D t c.
Proof.
  intros Hw H. pose proof (Rep_nonempty D _ _ _ Hw H) as E. cbn in E.
  apply Rep_ext_inv in H as (en0 & [= <-] & Ek & Ev & H1 & H2 & H3 & H4).
  unfold resolveIfCollapsed. nr_cbn. rewrite E. unfold extensionNode_isCollapsed.
  destruct (en_child en) as [c|] eqn:Ec.
  - rewrite bool_decide_false by naive_solver. exists en, c.
    split_and!; try done; [|by apply H1]. constructor; rewrite ?Ec; done.
  - destruct H2 as [Eh St]; [done|]. rewrite bool_decide_true.
    2: { split; [done|]. rewrite Eh. apply phash_nonempty. }
    unfold extensionNode_resolveCollapsed. se_cbn. rewrite E. cbn. rewrite Eh.
    apply wf_ext_inv in Hw as (_ & _ & _ & _ & Hw).
    destruct (load_stored D _ _ Hw St) as (c & -> & R).
    eexists _, _. split; [done|]. split_and!; try done. apply Rep_ext; cbn; try done.
    + by intros c' [= <-].
    + intros _. split; [done|]. intros c' [= <-]. by destruct c.
Qed.
(** ** Lookup *)

Lemma keyok_false_cons key : keyok false key ->
  exists x key', key = x :: key' /\ inrange x /\ keyok (is_term x) key'.
Proof.
  intros H. destruct key as [|x key]; [by apply hexkey_nonempty in H|].
  apply keyok_cons in H as (_ & ? & ?). eauto.
Qed.

Lemma prefix_take (k key : bytes) : k `prefix_of` key <-> k = take (length k) key.
Proof.
  split.
  - intros [r ->]. by rewrite take_app_length.
  - intros E. exists (drop (length k) key). rewrite E at 1. by rewrite take_drop.
Qed.

Lemma ext_key_rest k key : Forall is_nibble k -> hexkey key -> k `prefix_of` key ->
  exists r, key = k ++ r /\ hexkey r.
Proof. intros Hk H [r ->]. exists r. split; [done|]. by rewrite hexkey_app_nibbles in H. Qed.

(** Writing back a representative of the child of an extension. *)
Lemma ext_set_child D k t en c c' : Rep D (PExt k t) (NExt en) -> en_child en = Some c ->
  Rep D t c' -> getHash c' = getHash c -> Rep D (PExt k t) (NExt (en_set_child (Some c') en)).
Proof.
  intros (en0 & [= <-] & ? & ? & ? & ? & Hh & ?)%Rep_ext_inv Ec Hc Eh. apply Rep_ext; cbn; try done.
  - by intros ? [= <-].
  - intros N. destruct (Hh N) as [? G]. split; [done|]. intros ? [= <-]. rewrite Eh. by apply G.
Qed.

Definition get_of (p : ptrie) (key : bytes) (depth : Z) : get_result :=
  (fst <$> plookup p key, depth, default 0 (snd <$> plookup p key)).

Lemma node_tryGetWithVersion_spec D p fuel b n key d :
  wf b p -> Rep D p n -> keyok b key -> (length key < fuel)%nat ->
  exists n' depth, node_tryGetWithVersion fuel D key d n = (n', Ok (get_of p key depth)) /\
    Rep D p n' /\ getHash n' = getHash n.
Proof.
  revert fuel b n key d.
  induction p as [k v ver|k t IH|ts IH] using ptrie_rect'; intros [|fuel] b n key d Hw H Hk Hf;
    try lia; cbn [node_tryGetWithVersion].
  - pose proof (Rep_nonempty D _ _ _ Hw H) as E.
    apply Rep_leaf_inv in H as (ln & -> & El & Hb). cbn in E.
    exists (NLeaf ln), d. split; [|by split; [constructor|]].
    cbn. unfold se_on, leafNode_tryGetWithVersion. se_cbn. rewrite E, El. cbn.
    unfold get_of. cbn. by case_bool_decide.
  - pose proof (Rep_nonempty D _ _ _ Hw H) as E.
    pose proof H as (en & -> & Ek & _)%Rep_ext_inv. cbn in E.
    pose proof Hw as (-> & Hne & Hkn & _ & Hw')%wf_ext_inv.
    cbn. unfold se_on, extensionNode_tryGetWithVersion. se_cbn. rewrite E, Ek. se_cbn.
    assert (G : ~ k `prefix_of` key ->
      exists n' depth, (NExt en, Ok (E := get_error) (@None bytes, d, 0)) =
        (n', Ok (get_of (PExt k t) key depth)) /\ Rep D (PExt k t) n' /\ getHash n' = hash (en_base en)).
    { intros N. exists (NExt en), d. split; [|done]. unfold get_of. by rewrite plookup_ext_other. }
    destruct (Nat.ltb_spec (length key) (length k)) as [Ll|Ll].
    { apply G. intros P%prefix_length. lia. }
    destruct (decide (k `prefix_of` key)) as [P|N].
    2: { rewrite prefix_take in N. rewrite bool_decide_false by done. by apply G; rewrite prefix_take. }
    rewrite bool_decide_true by (by apply prefix_take). cbn [negb].
    destruct (ext_key_rest _ _ Hkn Hk P) as (r & -> & Hr). rewrite drop_app_length.
    destruct (ext_resolve D k t en 0 Hw H) as (en' & c & R & H' & Eb & Ec & Hc).
    rewrite R. unfold en_on_child. rewrite Ec.
    destruct (IH fuel false c r (u32 (d + 1)) Hw' Hc Hr) as (c' & depth & -> & Hc' & Eh).
    { rewrite length_app in Hf. destruct k; [done|]. cbn in Hf. lia. }
    exists (NExt (en_set_child (Some c') en')), depth. split_and!.
    + unfold get_of. by rewrite plookup_ext_app.
    + by eapply ext_set_child.
    + unfold getHash. cbn. by rewrite Eb.
  - pose proof (Rep_nonempty D _ _ _ Hw H) as E.
    pose proof H as (bn & -> & Hr)%Rep_branch_inv. cbn in E.
    pose proof Hw as (-> & _ & Hc & _)%wf_branch_inv.
    destruct (keyok_false_cons _ Hk) as (x & key' & -> & Hx & Hk').
    cbn. unfold se_on, branchNode_tryGetWithVersion. se_cbn. rewrite E, inrange_position by done. se_cbn.
    destruct (branch_rep_resolve D ts bn x Hw Hr Hx) as (bn' & R & Hr' & Eb & S). rewrite R.
    unfold get_of. rewrite plookup_branch. destruct (slot ts x) as [t|] eqn:Et.
    + destruct S as (c & Ec & Hcr). rewrite Ec. unfold bn_on_child. rewrite Ec.
      destruct (IH _ _ Et fuel _ c key' (u32 (d + 1)) (Hc _ _ Hx Et) Hcr Hk') as (c' & depth & -> & Hc' & Eh).
      { cbn in Hf. lia. }
      exists (NBranch (bn_set_child x (Some c') bn')), depth. split; [done|].
      split; [|unfold getHash; cbn; by rewrite Eb].
      apply Rep_branch_iff. eapply branch_rep_set_child; eauto. congruence.
    + rewrite S. exists (NBranch bn'), d. split; [done|].
      split; [by apply Rep_branch_iff|unfold getHash; cbn; by rewrite Eb].
Qed.
(** ** Building branches *)

Lemma branch_core_update D ts bn bn' x o co :
  branch_core D ts bn -> inrange x ->
  bn_children bn' = <[Z.to_nat x := co]> (bn_children bn) ->
  length (EncodedChildren (bn_collapsed bn')) = nrOfChildren ->
  (forall y, inrange y -> x <> y -> bn_encoded bn' y = bn_encoded bn y) ->
  ChildrenVersion (bn_collapsed bn') = compress (<[Z.to_nat x := oversion o]> (map oversion ts)) ->
  match o, co with
  | Some t, Some c => Rep D t c
  | None, None => bn_encoded bn' x = []
  | _, _ => False
  end ->
  branch_core D (<[Z.to_nat x := o]> ts) bn'.
Proof.
  intros [L1 L2 L3 V H1 H2 H3] Hx Ec Le Ee Ev Ho.
  assert (C : forall y, inrange y -> bn_child bn' y = if decide (x = y) then co else bn_child bn y).
  { intros y Hy. rewrite <- (bn_child_set bn x y co) by done. unfold bn_child. by rewrite Ec. }
  constructor.
  - by rewrite length_insert.
  - by rewrite Ec, length_insert.
  - done.
  - rewrite Ev. unfold cvers. f_equal. symmetry. apply list_fmap_insert.
  - intros y u d Hy. rewrite slot_insert, C by done. case_decide; [|eauto]. subst y.
    intros -> ->. done.
  - intros y u Hy. rewrite slot_insert, C by done. case_decide as Dy; [|rewrite Ee by done; by apply H2].
    intros -> ->. done.
  - intros y Hy. rewrite slot_insert, C by done. case_decide as Dy; [|rewrite Ee by done; by apply H3].
    subst y. intros ->. by destruct co.
Qed.

Lemma branch_rep_dirty D ts bn :
  branch_core D ts bn -> bn_base bn = newBase -> branch_rep D ts bn.
Proof. intros H E. constructor; [done|..]; rewrite E; [done|apply base_ok_new]. Qed.

Lemma branch_core_new D : branch_core D (replicate nrOfChildren None) newBranchNode.
Proof.
  constructor; try done.
  - intros x t c _. by rewrite slot_empty.
  - intros x t _. by rewrite slot_empty.
  - intros x _ _. split; [by apply bn_child_empty|]. unfold bn_encoded.
    change (EncodedChildren (bn_collapsed newBranchNode)) with (replicate nrOfChildren (@nil Z)).
    rewrite nth_lookup. destruct (_ !! _) eqn:F; [by apply lookup_replicate in F as [-> _]|done].
Qed.

(** A new child in a branch, in either order of the two statements. *)
Lemma put_child D ts bn x t c b :
  branch_core D ts bn -> inrange x -> wf b t -> Rep D t c ->
  let bn1 := setVersionForChild (pver t) x (bn_set_child x (Some c) bn) in
  branch_core D (<[Z.to_nat x := Some t]> ts) bn1 /\ bn_base bn1 = bn_base bn /\
  bn_set_child x (Some c) (setVersionForChild (pver t) x bn) = bn1.
Proof.
  intros H Hx Hw Hc. pose proof (pver_range _ _ Hw).
  assert (L : length (map oversion ts) = nrOfChildren) by (rewrite length_map; apply H).
  rewrite !(setVersionForChild_spec _ x (pver t) (map oversion ts)) by (try done; apply H).
  split_and!; [|done..].
  eapply (branch_core_update D ts bn _ x (Some t) (Some c)); try done; apply H.
Qed.

Lemma Rep_newLeaf D k v ver :
  Rep D (PLeaf k v ver) (NLeaf (newLeafNode {| td_Key := k; td_Value := Some v; td_Version := ver |})).
Proof. constructor; [done|apply base_ok_new]. Qed.

Lemma newExtensionNode_spec D k b t c : wf b t -> Rep D t c ->
  exists en, newExtensionNode k (Some c) = Ok en /\ Rep D (PExt k t) (NExt en).
Proof.
  intros Hw H. unfold newExtensionNode. rewrite (getVersion_Rep _ _ _ _ Hw H).
  eexists. split; [done|]. constructor; cbn; try done. by intros ? [= <-].
Qed.

(** [k] put in front of a branch: the branch itself or an extension above it. *)
Lemma Rep_pcons_branch D k ts bn : wf false (PBranch ts) -> Rep D (PBranch ts) (NBranch bn) ->
  k <> [] ->
  exists en, newExtensionNode k (Some (NBranch bn)) = Ok en /\ Rep D (pcons k (PBranch ts)) (NExt en).
Proof.
  intros Hw H Hk. destruct (newExtensionNode_spec D k _ _ _ Hw H) as (en & E & R).
  exists en. split; [done|]. by destruct k.
Qed.

(** ** Updates of an abstract trie *)

(** [p'] has the entries of [p], but for [key] that has the entry [o]. *)
Definition updated (b : bool) (p p' : ptrie) (key : bytes) (o : option (bytes * Z)) : Prop :=
  forall k, keyok b k -> plookup p' k = if decide (k = key) then o else plookup p k.

Lemma updated_split q x told y key' v ver :
  x <> y -> inrange x -> inrange y ->
  updated false (pcons (q ++ [x]) told)
    (pcons q (PBranch (two x told y (PLeaf key' v ver)))) (q ++ y :: key') (Some (v, ver)).
Proof.
  intros N Hx Hy k Hk. destruct (decide (q `prefix_of` k)) as [[r ->]|NP].
  - rewrite plookup_pcons_app. destruct r as [|z r].
    { rewrite decide_False by (intros E; apply (f_equal length) in E;
        rewrite !length_app in E; cbn in E; lia).
      rewrite plookup_branch_nil, plookup_pcons_other; [done|].
      intros P%prefix_length. rewrite !length_app in P. cbn in P. lia. }
    apply keyok_app_tail in Hk as (_ & Hz & _).
    rewrite plookup_two by done. destruct (decide (y = z)) as [<-|Ny].
    + cbn. destruct (decide (r = key')) as [->|Nr].
      * by rewrite bool_decide_true, decide_True.
      * rewrite bool_decide_false, decide_False by (try intros [=]%app_inv_head; done).
        rewrite plookup_pcons_other; [done|].
        intros [r' E]. rewrite <- app_assoc in E. apply app_inv_head in E. naive_solver.
    + rewrite (decide_False (P := q ++ z :: r = q ++ y :: key')) by (intros [=]%app_inv_head; done).
      case_decide as Dx.
      * subst z. change (x :: r) with ([x] ++ r). by rewrite app_assoc, plookup_pcons_app.
      * rewrite plookup_pcons_other; [done|].
        intros [r' E]. rewrite <- app_assoc in E. apply app_inv_head in E. naive_solver.
  - rewrite plookup_pcons_other by done. rewrite decide_False.
    2: { intros ->. apply NP. by apply prefix_app_r. }
    rewrite plookup_pcons_other; [done|]. intros P. apply NP. etrans; [|done]. by apply prefix_app_r.
Qed.

Lemma updated_pcons_ext k t t' key o : Forall is_nibble k ->
  updated false t t' key o -> updated false (PExt k t) (PExt k t') (k ++ key) o.
Proof.
  intros Hn H r Hr. destruct (decide (k `prefix_of` r)) as [P|N].
  - destruct (ext_key_rest _ _ Hn Hr P) as (r' & -> & Hr').
    rewrite !plookup_ext_app, (H _ Hr'). destruct (decide (r' = key)) as [->|Nr].
    + by rewrite decide_True.
    + rewrite decide_False; [done|]. by intros ?%app_inv_head.
  - rewrite !plookup_ext_other by done. rewrite decide_False; [done|].
    intros ->. apply N. by apply prefix_app_r.
Qed.

Lemma updated_branch ts x o o' key e :
  length ts = nrOfChildren -> inrange x -> slot ts x = o ->
  (forall k, keyok (is_term x) k -> (o' ≫= fun t => plookup t k) =
     if decide (k = key) then e else o ≫= fun t => plookup t k) ->
  updated false (PBranch ts) (PBranch (<[Z.to_nat x := o']> ts)) (x :: key) e.
Proof.
  intros L Hx E H r Hr. destruct (keyok_false_cons _ Hr) as (z & r' & -> & Hz & Hr').
  rewrite plookup_branch_insert by done. destruct (decide (x = z)) as [<-|N].
  - rewrite H, plookup_branch, E by done. repeat case_decide; congruence.
  - rewrite decide_False; [done|congruence].
Qed.
End Refinement.
