(* ===== verification/TrieUpdate.v ===== *)
(** * Insertion in the trie

    [node_insert_spec]: on a node that represents a well-formed abstract trie,
    [node_insert] does not fail, changes the entry of the key inserted and no
    other, and returns a node that represents the well-formed result; it
    returns no node exactly when the value is there already.

    ** Deletion from the trie

    [node_delete_spec]: on a node that represents a well-formed abstract trie,
    [node_delete] does not fail and tells whether the key was there.  It
    returns no node exactly when the key was the only one, and otherwise a node
    that represents the well-formed trie without it: branches left with one
    child are reduced, extensions are merged with what follows them. *)

From stdpp Require Import base list.
From Stdlib Require Import ZArith Lia.
From S2P Require Import Prelude KeyBuilder TrieNode TrieSpec TrieRefinement.

Section Insert.
Context {X : TrieExternals} {XOk : TrieExternalsOk X}.
Context {DB : Type} {ST : TrieStorage DB}.
Implicit Types (D : DB) (p t : ptrie) (n : node).

Definition insert_ok (D : DB) (b : bool) (p : ptrie) (n : node) (key v : bytes) (ver : Z)
    (out : node * result trie_error insert_result) : Prop :=
  match out with
  | (n', Ok (None, _)) => fst <$> plookup p key = Some v /\ Rep D p n' /\ getHash n' = getHash n
  | (_, Ok (Some m, _)) =>
      fst <$> plookup p key <> Some v /\
      exists p', wf b p' /\ Rep D p' m /\ updated b p p' key (Some (v, ver))
  | (_, Err _) => False
  end.

Lemma drop_middle {A} (q : list A) x r : drop (length q + 1) (q ++ x :: r) = r.
Proof. change (q ++ x :: r) with (q ++ [x] ++ r). rewrite app_assoc. apply drop_app_length'. by rewrite length_app. Qed.

Lemma leaf_split D ln q x k' v ver y key' v' ver' :
  ln_collapsed ln = {| ln_Key := q ++ x :: k'; ln_Value := Some v; ln_Version := ver |} ->
  x <> y -> inrange x -> inrange y -> wf (is_term x) (PLeaf k' v ver) ->
  wf (is_term y) (PLeaf key' v' ver') ->
  exists bn, leafNode_insertInNewBn {| td_Key := q ++ y :: key'; td_Value := Some v'; td_Version := ver' |}
      (length q) ln = Ok bn /\
    Rep D (PBranch (two x (PLeaf k' v ver) y (PLeaf key' v' ver'))) (NBranch bn).
Proof.
  intros E N Hx Hy Hw1 Hw2. unfold leafNode_insertInNewBn. rewrite E. cbn [td_Key ln_Key].
  rewrite !list_lookup_middle, !inrange_position by done. cbn [orb].
  pose proof (pver_range _ _ Hw1) as R1. pose proof (pver_range _ _ Hw2) as R2. cbn in R1, R2.
  unfold leafNode_getVersion, maxUint8. rewrite E. cbn [ln_Version].
  destruct (Z.ltb_spec 255 ver); [lia|]. se_cbn. cbn [td_Value td_Version ln_Value with_key td_Key].
  rewrite !drop_middle.
  destruct (put_child D _ _ x _ _ _ (branch_core_new D) Hx Hw1 (Rep_newLeaf D k' v ver)) as (H1 & B1 & _).
  destruct (put_child D _ _ y _ _ _ H1 Hy Hw2 (Rep_newLeaf D key' v' ver')) as (H2 & B2 & _).
  eexists. split; [done|]. apply Rep_branch_iff, branch_rep_dirty; [done|].
  etrans; [exact B2|]. etrans; [exact B1|done].
Qed.
Lemma pcons_nil_branch ts : pcons [] (PBranch ts) = PBranch ts.
Proof. done. Qed.

(** The extension that both kinds of split put above the new branch. *)
Lemma split_finish D q ts bn :
  wf false (PBranch ts) -> Forall is_nibble q -> Rep D (PBranch ts) (NBranch bn) ->
  wf false (pcons q (PBranch ts)) /\
  (q = [] -> Rep D (pcons q (PBranch ts)) (NBranch bn)) /\
  (q <> [] -> exists en, newExtensionNode q (Some (NBranch bn)) = Ok en /\
     Rep D (pcons q (PBranch ts)) (NExt en)).
Proof.
  intros Hw Hq H. split_and!; [by apply wf_pcons|by intros ->|by apply Rep_pcons_branch].
Qed.

Lemma length_zero_cases {A} (q : list A) :
  (q = [] /\ (length q =? 0)%nat = true) \/ (q <> [] /\ (length q =? 0)%nat = false).
Proof. destruct q; naive_solver. Qed.

Lemma is_term_nibble x : is_nibble x -> is_term x = false /\ inrange x.
Proof. unfold is_nibble, is_term, inrange, hexTerminator. destruct (Z.eqb_spec x 16); lia. Qed.

Lemma ext_split D q x kr t en y key v ver :
  wf false (PExt (q ++ x :: kr) t) -> Rep D (PExt (q ++ x :: kr) t) (NExt en) ->
  is_Some (en_child en) -> x <> y -> inrange y -> wf (is_term y) (PLeaf key v ver) ->
  exists bn0 bn, extensionNode_insertOldChildInBn newBranchNode x (length q) en = Ok bn0 /\
    extensionNode_insertNewChildInBn bn0
      {| td_Key := q ++ y :: key; td_Value := Some v; td_Version := ver |} y (length q) = bn /\
    wf false (PBranch (two x (pcons kr t) y (PLeaf key v ver))) /\
    Rep D (PBranch (two x (pcons kr t) y (PLeaf key v ver))) (NBranch bn).
Proof.
  intros Hw H [c Ec] N Hy Hl.
  apply wf_ext_inv in Hw as (_ & _ & Hn & (us & ->) & Hw).
  apply Forall_app in Hn as [_ Hn]. apply Forall_cons in Hn as [Hx Hkr].
  destruct (is_term_nibble _ Hx) as [Tx Rx].
  apply Rep_ext_inv in H as (en0 & [= <-] & Ek & _ & Hc & _). specialize (Hc _ Ec).
  assert (Hwt : wf (is_term x) (pcons kr (PBranch us))) by (rewrite Tx; by apply wf_pcons).
  assert (exists cn, Rep D (pcons kr (PBranch us)) cn /\
    extensionNode_insertOldChildInBn newBranchNode x (length q) en =
      Ok (setVersionForChild (pver (PBranch us)) x (bn_set_child x (Some cn) newBranchNode)))
    as (cn & Hcn & ->).
  { unfold extensionNode_insertOldChildInBn. rewrite Ec, Ek, drop_middle.
    rewrite (getVersion_Rep _ _ _ _ Hw Hc). se_cbn. destruct kr as [|z kr].
    - exists c. split; [done|]. cbn [length Nat.ltb Nat.leb].
      by destruct (put_child D _ _ x _ _ _ (branch_core_new D) Rx Hw Hc) as (_ & _ & ->).
    - destruct (newExtensionNode_spec D (z :: kr) _ _ _ Hw Hc) as (e & -> & He).
      exists (NExt e). split; [done|]. cbn [length Nat.ltb Nat.leb].
      assert (Hw' : wf false (PExt (z :: kr) (PBranch us))) by by constructor.
      destruct (put_child D _ _ x _ _ _ (branch_core_new D) Rx Hw' He) as (_ & _ & E).
      change (pver (PExt (z :: kr) (PBranch us))) with (pver (PBranch us)) in E. by rewrite E. }
  assert (pver (PBranch us) = pver (pcons kr (PBranch us))) as -> by by destruct kr.
  destruct (put_child D _ _ x _ _ _ (branch_core_new D) Rx Hwt Hcn) as (H1 & B1 & _).
  destruct (put_child D _ _ y _ _ _ H1 Hy Hl (Rep_newLeaf D key v ver)) as (H2 & B2 & _).
  eexists _, _. split; [done|]. split; [done|]. split; [by apply wf_two|].
  unfold extensionNode_insertNewChildInBn. cbn [with_key td_Key td_Value td_Version].
  rewrite drop_middle.
  apply Rep_branch_iff, branch_rep_dirty; [done|]. etrans; [exact B2|]. etrans; [exact B1|done].
Qed.

Lemma insert_leaf D b k v0 ver0 n fuel key v ver :
  wf b (PLeaf k v0 ver0) -> Rep D (PLeaf k v0 ver0) n -> keyok b key -> entry_ok v ver ->
  insert_ok D b (PLeaf k v0 ver0) n key v ver
    (node_insert (S fuel) D {| td_Key := key; td_Value := Some v; td_Version := ver |} n).
Proof.
  intros Hw H Hk Hv. pose proof (Rep_nonempty D _ _ _ Hw H) as E.
  pose proof H as (ln & -> & El & Hb)%Rep_leaf_inv. cbn in E. cbn [node_insert].
  unfold dispatch, se_on, leafNode_insert. se_cbn. rewrite E, El. se_cbn. cbn [td_Key ln_Key].
  destruct (decide (key = k)) as [->|N].
  - rewrite bool_decide_true by done. unfold leafNode_insertInSameLn, bytes_Equal. se_cbn.
    rewrite El. cbn [default ln_Value td_Value ln_Key td_Version].
    destruct (decide (v0 = v)) as [->|Nv].
    + rewrite bool_decide_true by done. cbn. by rewrite bool_decide_true.
    + rewrite bool_decide_false by done. cbn. rewrite bool_decide_true by done.
      split; [naive_solver|]. exists (PLeaf k v ver). split_and!.
      * by constructor.
      * constructor; [done|apply base_ok_new].
      * intros r _. cbn. by case_decide; case_bool_decide.
  - rewrite bool_decide_false by done. apply wf_leaf_inv in Hw as [Hk0 Hv0].
    destruct (keyok_split _ _ _ Hk Hk0 N) as (-> & q & y & x & key' & k' & -> & -> & Nxy & Lq).
    rewrite <- Lq. pose proof (keyok_app_tail _ _ _ Hk) as (Hq & Hy & Ky).
    pose proof (keyok_app_tail _ _ _ Hk0) as (_ & Hx & Kx).
    assert (W1 : wf (is_term x) (PLeaf k' v0 ver0)) by by constructor.
    assert (W2 : wf (is_term y) (PLeaf key' v ver)) by by constructor.
    destruct (leaf_split D ln q x k' v0 ver0 y key' v ver El) as (bn & -> & R); [done..|].
    pose proof (wf_two x _ y _ (not_eq_sym Nxy) Hx Hy W1 W2) as W.
    destruct (split_finish D q _ bn W Hq R) as (Wp & R0 & R1).
    assert (U : updated false (PLeaf (q ++ x :: k') v0 ver0) (pcons q (PBranch (two x (PLeaf k' v0 ver0) y (PLeaf key' v ver))))
              (q ++ y :: key') (Some (v, ver))).
    { change (x :: k') with ([x] ++ k'). rewrite app_assoc.
      by apply (updated_split q x (PLeaf k' v0 ver0) y key' v ver). }
    assert (Nl : fst <$> plookup (PLeaf (q ++ x :: k') v0 ver0) (q ++ y :: key') <> Some v).
    { cbn. by rewrite bool_decide_false by (intros [=]%app_inv_head; done). }
    destruct (length_zero_cases q) as [[-> ->]|[Nq ->]].
    + split; [done|]. eauto.
    + rewrite take_app_length. destruct (R1 Nq) as (en & -> & Re). split; [done|]. eauto.
Qed.

Lemma hexkey_not_prefix_nibbles key k : hexkey key -> Forall is_nibble k -> ~ key `prefix_of` k.
Proof.
  intros (ns & -> & _) Hk [r ->]. rewrite <- app_assoc, Forall_app in Hk. destruct Hk as [_ Hk].
  apply Forall_cons in Hk as [Hk _]. by apply nibble_not_terminator in Hk.
Qed.

Lemma insert_ext_split D k t en fuel key v ver :
  wf false (PExt k t) -> Rep D (PExt k t) (NExt en) -> hexkey key -> entry_ok v ver ->
  ~ k `prefix_of` key ->
  insert_ok D false (PExt k t) (NExt en) key v ver
    (node_insert (S fuel) D {| td_Key := key; td_Value := Some v; td_Version := ver |} (NExt en)).
Proof.
  intros Hw H Hk Hv NP. pose proof (Rep_nonempty D _ _ _ Hw H) as E. cbn in E.
  destruct (ext_resolve D k t en 0 Hw H) as (en' & c & R & H' & _ & Ec & _).
  pose proof Hw as (_ & Hne & Hkn & (us & ->) & Hw')%wf_ext_inv.
  cbn [node_insert]. unfold dispatch, se_on, extensionNode_insert. se_cbn. rewrite E. se_cbn.
  rewrite R. cbn [td_Key].
  pose proof H' as (en0 & [= <-] & Ek & _)%Rep_ext_inv. rewrite Ek.
  destruct (prefixLen_split key k) as (q & y & x & key' & kr & -> & -> & Nxy & Lq).
  { intros r ->. apply NP. by apply prefix_app_r. }
  { intros r ->. eapply hexkey_not_prefix_nibbles; [done..|]. by apply prefix_app_r. }
  rewrite <- Lq. rewrite (proj2 (Nat.eqb_neq _ _)) by (rewrite length_app; cbn; lia).
  apply (keyok_app_tail q y key') in Hk as (Hq & Hy & Ky).
  assert (Rx : inrange x).
  { apply Forall_app in Hkn as [_ Hkn]. apply Forall_cons in Hkn as [Hkn _]. by apply is_term_nibble. }
  assert (W2 : wf (is_term y) (PLeaf key' v ver)) by by constructor.
  destruct (ext_split D q x kr (PBranch us) en' y key' v ver Hw H') as (bn0 & bn & E0 & E1 & W & Rb);
    [rewrite Ec; eauto|done..|].
  unfold extensionNode_insertInNewBn. rewrite Ek. cbn [td_Key].
  rewrite !list_lookup_middle, !inrange_position by done. cbn [orb]. rewrite E0. se_cbn. rewrite E1.
  destruct (split_finish D q _ bn W Hq Rb) as (Wp & R0 & R1).
  assert (U : updated false (PExt (q ++ x :: kr) (PBranch us)) (pcons q (PBranch (two x (pcons kr (PBranch us)) y (PLeaf key' v ver))))
            (q ++ y :: key') (Some (v, ver))).
  { assert (PExt (q ++ x :: kr) (PBranch us) = pcons (q ++ [x]) (pcons kr (PBranch us))) as ->.
    { destruct kr; cbn; [|by rewrite <- app_assoc]. by destruct q. }
    by apply updated_split. }
  assert (Nl : fst <$> plookup (PExt (q ++ x :: kr) (PBranch us)) (q ++ y :: key') <> Some v)
    by by rewrite plookup_ext_other.
  destruct (length_zero_cases q) as [[-> ->]|[Nq ->]].
  - split; [done|]. eauto.
  - rewrite take_app_length. destruct (R1 Nq) as (e & -> & Re). split; [done|]. eauto.
Qed.
Lemma updated_some_branch ts p' key e :
  wf false (PBranch ts) -> wf false p' -> updated false (PBranch ts) p' key (Some e) ->
  exists us, p' = PBranch us.
Proof.
  intros Hw Hw' U. destruct (wf_branch_two _ Hw) as (x & y & kx & ky & N & Kx & Ky & Sx & Sy).
  apply (branch_of_two false p' x y kx ky Hw' N); rewrite U by done; case_decide; eauto.
Qed.

(** [modifyNodeAfterInsert] puts the new child [c] in the branch. *)
Lemma modify_after_insert D ts bn hs x b t c :
  branch_core D ts bn -> inrange x -> wf b t -> Rep D t c ->
  exists hs' bn', branchNode_modifyNodeAfterInsert hs x c bn = (bn', Ok hs') /\
    branch_rep D (<[Z.to_nat x := Some t]> ts) bn'.
Proof.
  intros H Hx Hw Hc. unfold branchNode_modifyNodeAfterInsert. se_cbn.
  rewrite (getVersion_Rep _ _ _ _ Hw Hc).
  destruct (put_child D ts bn x t c b H Hx Hw Hc) as (H1 & _ & _).
  eexists _, _. split; [done|]. apply branch_rep_dirty; [|done].
  destruct H1. by constructor.
Qed.

(** What the slot held before does not matter. *)
Lemma bn_set_child_twice bn x o o' : bn_set_child x o (bn_set_child x o' bn) = bn_set_child x o bn.
Proof. unfold bn_set_child. cbn. by rewrite list_insert_insert_eq. Qed.

Lemma modify_after_set bn hs x c o :
  branchNode_modifyNodeAfterInsert hs x c (bn_set_child x o bn) =
  match getVersion c with
  | Ok _ => branchNode_modifyNodeAfterInsert hs x c bn
  | Err e => (bn_set_child x o bn, Err e)
  end.
Proof.
  unfold branchNode_modifyNodeAfterInsert. se_cbn. destruct (getVersion c); [|done].
  by rewrite bn_set_child_twice.
Qed.

Lemma branch_put_ok D ts n0 bn0 bn hs x o t c key v ver :
  branch_core D ts bn0 -> (bn = bn0 \/ bn = bn_set_child x o bn0) ->
  wf false (PBranch ts) -> inrange x -> wf (is_term x) t -> Rep D t c ->
  (forall k, keyok (is_term x) k -> plookup t k =
     if decide (k = key) then Some (v, ver) else slot ts x ≫= fun t => plookup t k) ->
  fst <$> plookup (PBranch ts) (x :: key) <> Some v ->
  insert_ok D false (PBranch ts) n0 (x :: key) v ver
    (se_on NBranch (hs ← branchNode_modifyNodeAfterInsert hs x c;
                    bn ← se_get; mret (Some (NBranch bn), hs)) bn).
Proof.
  intros H Hbn Hw Hx Ht Hc U N.
  destruct (modify_after_insert D ts bn0 hs x _ _ _ H Hx Ht Hc) as (hs' & bn' & E & Hr).
  assert (branchNode_modifyNodeAfterInsert hs x c bn = (bn', Ok hs')) as E'.
  { destruct Hbn as [->| ->]; [done|]. by rewrite modify_after_set, (getVersion_Rep _ _ _ _ Ht Hc). }
  unfold se_on. se_cbn. rewrite E'. split; [done|].
  exists (PBranch (<[Z.to_nat x := Some t]> ts)). split_and!.
  - by apply wf_branch_insert.
  - by apply Rep_branch_iff.
  - eapply updated_branch; eauto. apply H.
Qed.

Lemma node_insert_spec D p fuel b n key v ver :
  wf b p -> Rep D p n -> keyok b key -> entry_ok v ver -> (length key < fuel)%nat ->
  insert_ok D b p n key v ver
    (node_insert fuel D {| td_Key := key; td_Value := Some v; td_Version := ver |} n).
Proof.
  revert fuel b n key.
  induction p as [k v0 ver0|k t IH|ts IH] using ptrie_rect'; intros [|fuel] b n key Hw H Hk Hv Hf;
    try lia.
  - by apply insert_leaf.
  - pose proof H as (en & -> & Ek & _)%Rep_ext_inv.
    pose proof Hw as (-> & Hne & Hkn & (us & ->) & Hw')%wf_ext_inv.
    destruct (decide (k `prefix_of` key)) as [P|N]; [|by apply insert_ext_split].
    destruct (ext_key_rest _ _ Hkn Hk P) as (r & -> & Hr).
    pose proof (Rep_nonempty D _ _ _ Hw H) as E. cbn in E.
    destruct (ext_resolve D _ _ en 0 Hw H) as (en' & c & R & H' & Eb & Ec & Hc).
    pose proof H' as (en0 & [= <-] & Ek' & Hcv & _ & _ & Hh & Hb)%Rep_ext_inv.
    cbn [node_insert]. unfold dispatch, se_on, extensionNode_insert. se_cbn. rewrite E. se_cbn.
    rewrite R. cbn [td_Key]. rewrite Ek', prefixLen_app, Nat.eqb_refl.
    unfold extensionNode_insertInSameEn. se_cbn. unfold en_on_child. rewrite Ec.
    unfold with_key. cbn [td_Key td_Value td_Version]. rewrite drop_app_length.
    assert (Lf : (length r < fuel)%nat).
    { rewrite length_app in Hf. destruct k; [done|]. cbn in Hf. lia. }
    pose proof (IH fuel false c r Hw' Hc Hr Hv Lf) as I.
    destruct (node_insert fuel D _ c) as [c' [[[m|] hs]|]]; [| |done]; unfold insert_ok in I |- *; se_cbn.
    + destruct I as (N & p' & Wp' & Rp' & U).
      destruct (updated_some_branch _ _ _ _ Hw' Wp' U) as (us' & ->). cbn [en_set_child en_collapsed].
      rewrite Ek'. destruct (newExtensionNode_spec D k _ _ _ Wp' Rp') as (e & -> & Re).
      split; [by rewrite plookup_ext_app|]. exists (PExt k (PBranch us')).
      split_and!; [by constructor|done|by apply updated_pcons_ext].
    + destruct I as (I & Rc & Eh). split; [by rewrite plookup_ext_app|].
      split; [by eapply ext_set_child|]. unfold getHash. cbn. by rewrite Eb.
  - pose proof (Rep_nonempty D _ _ _ Hw H) as E.
    pose proof H as (bn & -> & Hr)%Rep_branch_inv. cbn in E.
    pose proof Hw as (-> & _ & Hc & _)%wf_branch_inv.
    destruct (keyok_false_cons _ Hk) as (x & key' & -> & Hx & Hk').
    cbn [node_insert]. unfold dispatch. unfold se_on at 1. unfold branchNode_insert. se_cbn.
    rewrite E. cbn [wrap option_fmap option_map td_Key]. rewrite inrange_position by done. se_cbn.
    destruct (branch_rep_resolve D ts bn x Hw Hr Hx) as (bn' & R & Hr' & Eb & S). rewrite R.
    pose proof (plookup_branch ts x key') as L.
    unfold with_key. cbn [td_Value td_Version].
    destruct (slot ts x) as [t|] eqn:Et.
    + destruct S as (c & Ec & Hcr). rewrite Ec.
      unfold branchNode_insertOnExistingChild. se_cbn. unfold bn_on_child. rewrite Ec.
      assert (Lf : (length key' < fuel)%nat) by (cbn in Hf; lia).
      pose proof (IH _ _ Et fuel _ c key' (Hc _ _ Hx Et) Hcr Hk' Hv Lf) as I.
      destruct (node_insert fuel D _ c) as [c' [[[m|] hs]|]]; [| |done]; unfold insert_ok in I.
      * destruct I as (N & p' & Wp' & Rp' & U).
        apply (branch_put_ok D ts _ bn' _ _ x (Some c') p' m key'); try done.
        -- apply Hr'.
        -- by right.
        -- rewrite Et. apply U.
        -- by rewrite L.
      * destruct I as (I & Rc & Eh). unfold insert_ok. split; [by rewrite L|].
        split; [|unfold getHash; cbn; by rewrite Eb].
        apply Rep_branch_iff. eapply branch_rep_set_child; eauto. congruence.
    + rewrite S. assert (Wl : wf (is_term x) (PLeaf key' v ver)) by by constructor.
      apply (branch_put_ok D ts _ bn' _ _ x None (PLeaf key' v ver) _ key'); try done.
      * apply Hr'.
      * by left.
      * apply Rep_newLeaf.
      * intros k _. rewrite Et. cbn. by case_decide; case_bool_decide.
      * by rewrite L.
Qed.

End Insert.

Section Delete.
Context {X : TrieExternals} {XOk : TrieExternalsOk X}.
Context {DB : Type} {ST : TrieStorage DB}.
Implicit Types (D : DB) (p t : ptrie) (n : node).

(** An extension with its child in memory. *)
Definition loaded (n : node) : Prop :=
  match n with NExt en => is_Some (en_child en) | _ => True end.

Definition delete_ok (D : DB) (b : bool) (p : ptrie) (n : node) (key : bytes)
    (out : node * result trie_error delete_result) : Prop :=
  match out with
  | (n', Ok (false, m, _)) => plookup p key = None /\ m = Some n' /\ Rep D p n' /\ getHash n' = getHash n
  | (_, Ok (true, None, _)) =>
      is_Some (plookup p key) /\ forall k, keyok b k -> k <> key -> plookup p k = None
  | (_, Ok (true, Some m, _)) =>
      is_Some (plookup p key) /\
      exists p', wf b p' /\ Rep D p' m /\ loaded m /\ updated b p p' key None
  | (_, Err _) => False
  end.

Lemma newExtensionNode_loaded k o en : newExtensionNode k o = Ok en -> en_child en = o.
Proof. unfold newExtensionNode. destruct o; [|done]. cbn. destruct (getVersion n); [|done]. by intros [= <-]. Qed.

Lemma newExtensionNode_rep D k b t c : wf b t -> Rep D t c ->
  exists en, newExtensionNode k (Some c) = Ok en /\ Rep D (PExt k t) (NExt en) /\ loaded (NExt en).
Proof.
  intros Hw H. destruct (newExtensionNode_spec D k b t c Hw H) as (en & E & R).
  exists en. split_and!; [done..|]. cbn. rewrite (newExtensionNode_loaded _ _ _ E). eauto.
Qed.

(** ** Removing the child of a branch *)

(** What a cached hash says does not matter to the core. *)
Lemma branch_core_base D ts bn bn' : branch_core D ts bn ->
  bn_children bn' = bn_children bn -> bn_collapsed bn' = bn_collapsed bn -> branch_core D ts bn'.
Proof.
  intros [L1 L2 L3 V H1 H2 H3] E1 E2.
  assert (Ec : forall x, bn_child bn' x = bn_child bn x) by (intros; unfold bn_child; by rewrite E1).
  assert (Ee : forall x, bn_encoded bn' x = bn_encoded bn x) by (intros; unfold bn_encoded; by rewrite E2).
  constructor; rewrite ?E1, ?E2; try done; intros *; rewrite ?Ec, ?Ee; eauto.
Qed.

Lemma setNewChild_spec D ts bn x o co :
  branch_core D ts bn -> inrange x ->
  match o, co with
  | Some t, Some c => wf (is_term x) t /\ Rep D t c
  | None, None => True
  | _, _ => False
  end ->
  exists bn', branchNode_setNewChild x co bn = (bn', Ok ()) /\
    branch_core D (<[Z.to_nat x := o]> ts) bn' /\
    bn_base bn' = set_hash None (bn_base bn).
Proof.
  intros H Hx Ho.
  assert (L : length (map oversion ts) = nrOfChildren) by (rewrite length_map; apply H).
  unfold branchNode_setNewChild. se_cbn. destruct o as [t|], co as [c|]; try done.
  - destruct Ho as [Hw Hc]. rewrite (getVersion_Rep _ _ _ _ Hw Hc). se_cbn.
    assert (H0 : branch_core D ts (bn_set_base (set_hash None (bn_base bn)) bn)) by by eapply branch_core_base.
    destruct (put_child D ts _ x t c _ H0 Hx Hw Hc) as (H1 & B & _).
    eexists. split; [done|]. by split.
  - rewrite NotSpecified_zero.
    rewrite (setVersionForChild_spec _ x 0 (map oversion ts)) by (try done; apply H).
    eexists. split; [done|]. split; [|done].
    eapply (branch_core_update D ts bn _ x None None); try done.
    + cbn. rewrite length_insert. apply H.
    + intros y Hy N. unfold bn_encoded. cbn. rewrite !nth_lookup, list_lookup_insert_ne; [done|].
      unfold inrange in *. lia.
    + unfold bn_encoded. cbn. rewrite nth_lookup, list_lookup_insert_eq; [done|].
      rewrite (bc_encoded _ _ _ H). unfold inrange, hexTerminator, nrOfChildren in *. lia.
Qed.

(** ** Counting the children *)

Definition child_count (ts : list (option ptrie)) (l : list Z) (out : nat * Z) : Prop :=
  match out with
  | (O, _) => forall x, x ∈ l -> slot ts x = None
  | (S O, pos) => pos ∈ l /\ is_Some (slot ts pos) /\ forall x, x ∈ l -> x <> pos -> slot ts x = None
  | (S (S _), _) => exists x y, x <> y /\ x ∈ l /\ y ∈ l /\ is_Some (slot ts x) /\ is_Some (slot ts y)
  end.

Lemma child_count_snoc ts l i nr pos : i ∉ l -> child_count ts l (nr, pos) ->
  child_count ts (l ++ [i]) (if bool_decide (is_Some (slot ts i)) then (S nr, i) else (nr, pos)).
Proof.
  intros N H. assert (Hin : forall x, x ∈ l -> x ∈ l ++ [i]) by (intros; apply elem_of_app; by left).
  assert (Hi : i ∈ l ++ [i]) by (apply elem_of_app; right; by apply list_elem_of_singleton).
  assert (Hc : forall x, x ∈ l ++ [i] -> x ∈ l \/ x = i).
  { intros x [?|?%list_elem_of_singleton]%elem_of_app; auto. }
  case_bool_decide as S.
  - destruct nr as [|[|nr]]; cbn in H |- *.
    + split_and!; [done..|]. intros x [?| ->]%Hc ?; [auto|done].
    + destruct H as (Hp & Sp & _). exists pos, i. split_and!; auto. congruence.
    + destruct H as (x & y & ? & ? & ? & ? & ?). exists x, y. auto 10.
  - apply eq_None_not_Some in S. destruct nr as [|[|nr]]; cbn in H |- *.
    + intros x [?| ->]%Hc; auto.
    + destruct H as (? & ? & ?). split_and!; [auto..|]. intros x [?| ->]%Hc ?; auto.
    + destruct H as (x & y & ? & ? & ? & ? & ?). exists x, y. auto 10.
Qed.

Lemma getChildPosition_spec D ts bn : branch_core D ts bn ->
  child_count ts positions (getChildPosition bn).
Proof.
  intros H. unfold getChildPosition.
  assert (G : forall l1 l2 out, NoDup (l1 ++ l2) -> (forall x, x ∈ l2 -> inrange x) ->
    child_count ts l1 out ->
    child_count ts (l1 ++ l2) (fold_left
      (fun '(nr, pos) i => if bn_present bn i then (S nr, i) else (nr, pos)) l2 out)).
  { intros l1 l2. revert l1. induction l2 as [|i l2 IH]; intros l1 [nr pos] ND Hr Hc.
    - by rewrite app_nil_r.
    - cbn [fold_left]. rewrite (Rep_present D ts) by (try done; apply Hr, elem_of_cons; by left).
      replace (l1 ++ i :: l2) with ((l1 ++ [i]) ++ l2) in * by (by rewrite <- app_assoc).
      apply IH; [done|intros; apply Hr, elem_of_cons; by right|].
      apply child_count_snoc; [|done].
      rewrite <- app_assoc in ND. apply NoDup_app in ND as (_ & ND & _). intros Hi. eapply ND; [done|].
      apply elem_of_app. left. by apply list_elem_of_singleton. }
  apply (G [] positions (0%nat, 0)).
  - rewrite app_nil_l. apply NoDup_fmap_2; [intros ?? ?; lia|apply NoDup_seq].
  - intros x. by apply positions_inrange.
  - intros x Hx. by apply not_elem_of_nil in Hx.
Qed.
(** ** Reducing a branch with a single child *)

Ltac resolve_on :=
  unfold resolveIfCollapsed, se_on; se_unfold; cbn;
  repeat (case_match; simplify_eq; try done).

Lemma resolve_leaf x D ln :
  resolveIfCollapsed x D (NLeaf ln) = se_on NLeaf (resolveIfCollapsed x D) ln.
Proof. resolve_on. Qed.
Lemma resolve_ext x D en :
  resolveIfCollapsed x D (NExt en) = se_on NExt (resolveIfCollapsed x D) en.
Proof. resolve_on. Qed.
Lemma resolve_branch x D bn :
  resolveIfCollapsed x D (NBranch bn) = se_on NBranch (resolveIfCollapsed x D) bn.
Proof. resolve_on. Qed.

Lemma node_resolve_spec D b t c x : wf b t -> Rep D t c -> inrange x ->
  exists c', resolveIfCollapsed x D c = (c', Ok ()) /\ Rep D t c' /\ loaded c'.
Proof.
  intros Hw H Hx. destruct t as [k v ver|k u|ts].
  - pose proof (Rep_nonempty D _ _ _ Hw H) as E.
    pose proof H as (ln & -> & _)%Rep_leaf_inv. cbn in E. exists (NLeaf ln). split; [|done].
    rewrite resolve_leaf. unfold se_on, resolveIfCollapsed. nr_cbn. by rewrite E.
  - pose proof H as (en & -> & _)%Rep_ext_inv. pose proof Hw as (-> & _)%wf_ext_inv.
    destruct (ext_resolve D k u en x Hw H) as (en' & c & R & H' & _ & Ec & _).
    exists (NExt en'). split_and!; [|done|cbn; rewrite Ec; eauto].
    rewrite resolve_ext. unfold se_on. by rewrite R.
  - pose proof H as (bn & -> & Hr)%Rep_branch_inv. pose proof Hw as (-> & _)%wf_branch_inv.
    destruct (branch_rep_resolve D ts bn x Hw Hr Hx) as (bn' & R & H' & _).
    exists (NBranch bn'). split_and!; [|by apply Rep_branch_iff|done].
    rewrite resolve_branch. unfold se_on. by rewrite R.
Qed.

Lemma reduceNode_spec D b t c x : wf b t -> Rep D t c -> loaded c -> inrange x ->
  exists m f, reduceNode x c = Ok (m, f) /\ Rep D (pcons [x] t) m /\ loaded m.
Proof.
  intros Hw H Hl Hx.
  assert (u8 x = x) as E by (apply Z.mod_small; unfold inrange, hexTerminator in Hx; lia).
  destruct t as [k v ver|k u|ts].
  - pose proof (getVersion_Rep _ _ _ _ Hw H) as V.
    pose proof H as (ln & -> & El & _)%Rep_leaf_inv. cbn in V |- *.
    unfold leafNode_reduceNode. rewrite V, E, El. cbn. eexists _, _. split_and!; [done| |done].
    apply Rep_newLeaf.
  - pose proof H as (en & -> & Ek & _ & Hc & _)%Rep_ext_inv. cbn.
    unfold extensionNode_reduceNode. rewrite E, Ek. destruct Hl as [c Ec]. rewrite Ec.
    apply wf_ext_inv in Hw as (_ & _ & _ & _ & Hw).
    destruct (newExtensionNode_rep D (x :: k) _ _ _ Hw (Hc _ Ec)) as (e & -> & Re & Le).
    cbn. eauto 10.
  - pose proof H as (bn & -> & Hr)%Rep_branch_inv. cbn [reduceNode]. unfold branchNode_reduceNode.
    rewrite E. destruct (newExtensionNode_rep D [x] _ _ _ Hw H) as (e & -> & Re & Le).
    cbn. eauto 10.
Qed.

Lemma reduceSingle_spec D ts bn x hs : slots_ok ts -> branch_core D ts bn -> inrange x ->
  is_Some (slot ts x) ->
  exists bn' t m hs', slot ts x = Some t /\
    branchNode_reduceSingle x hs D bn = (bn', Ok (true, Some m, hs')) /\
    Rep D (pcons [x] t) m /\ loaded m.
Proof.
  intros Hs H Hx [t Et]. unfold branchNode_reduceSingle.
  destruct (branch_resolve D ts bn x Hs H Hx) as (bn1 & R & H1 & _ & _ & _ & S). rewrite Et in S.
  destruct S as (c & Ec & Hc). pose proof Hs as (_ & Hw & _).
  destruct (node_resolve_spec D _ t c x (Hw _ _ Hx Et) Hc Hx) as (c' & R' & Hc' & Lc').
  destruct (reduceNode_spec D _ t c' x (Hw _ _ Hx Et) Hc' Lc' Hx) as (m & f & Em & Hm & Lm).
  se_cbn. rewrite R. unfold bn_on_child. rewrite Ec, R'. se_cbn.
  rewrite bn_child_set, decide_True by (try done; apply H1). rewrite Em.
  eauto 10.
Qed.

(** A branch that has one child only has the entries of that child. *)
Lemma plookup_single ts x t : length ts = nrOfChildren -> slot ts x = Some t -> inrange x ->
  (forall y, inrange y -> y <> x -> slot ts y = None) ->
  same_entries false (PBranch ts) (pcons [x] t).
Proof.
  intros L Et Hx Ho k Hk. destruct (keyok_false_cons _ Hk) as (z & k' & -> & Hz & _).
  rewrite plookup_branch. destruct (decide (z = x)) as [->|N].
  - rewrite Et. symmetry. apply (plookup_pcons_app [x]).
  - rewrite Ho by done. rewrite plookup_pcons_other; [done|]. intros [r E]. naive_solver.
Qed.

(** The second half of a branch's [delete]: the child at [x] is replaced. *)
Definition branchNode_finish (x : Z) (m : option node) (hs : list (option bytes)) (D : DB)
    : SE branchNode trie_error delete_result :=
  _ ← branchNode_setNewChild x m;
  bn ← se_get;
  let '(numChildren, pos) := getChildPosition bn in
  if (numChildren =? 1)%nat then branchNode_reduceSingle pos hs D
  else
    _ ← se_modify (fun bn => bn_set_base {| hash := hash (bn_base bn); dirty := true |} bn);
    bn ← se_get;
    mret (true, Some (NBranch bn), hs).

Lemma slots_ok_update ts x o : wf false (PBranch ts) -> inrange x ->
  match o with Some t => wf (is_term x) t | None => True end ->
  slots_ok (<[Z.to_nat x := o]> ts).
Proof.
  intros (_ & L & Hc & (a & c & Hac & Ha & Hc' & Sa & Sc))%wf_branch_inv Hx Ho. split_and!.
  - by rewrite length_insert.
  - intros y u Hy. rewrite slot_insert by done. case_decide; [|eauto]. subst. by intros ->.
  - destruct (decide (x = a)) as [->|N]; [exists c|exists a]; rewrite slot_insert by done;
      rewrite decide_False; done.
Qed.

Lemma branch_finish_ok D ts bn x o co key hs n' n0 :
  branch_core D ts bn -> wf false (PBranch ts) -> inrange x ->
  match o, co with
  | Some t, Some c => wf (is_term x) t /\ Rep D t c
  | None, None => True
  | _, _ => False
  end ->
  is_Some (plookup (PBranch ts) (x :: key)) ->
  (forall k, keyok (is_term x) k -> (o ≫= fun t => plookup t k) =
     if decide (k = key) then None else slot ts x ≫= fun t => plookup t k) ->
  exists bn' m hs', branchNode_finish x co hs D bn = (bn', Ok (true, Some m, hs')) /\
    delete_ok D false (PBranch ts) n0 (x :: key) (n', Ok (true, Some m, hs')).
Proof.
  intros H Hw Hx Ho Sx U. pose proof Hw as (_ & L & _)%wf_branch_inv.
  destruct (setNewChild_spec D ts bn x o co H Hx Ho) as (bn1 & E & H1 & B).
  unfold branchNode_finish. se_cbn. rewrite E.
  set (ts' := <[Z.to_nat x := o]> ts) in *.
  assert (Hu : updated false (PBranch ts) (PBranch ts') (x :: key) None) by by eapply updated_branch.
  assert (Hs : slots_ok ts') by (apply slots_ok_update; [done..|]; by destruct o, co; destruct_and?).
  pose proof (getChildPosition_spec _ _ _ H1) as C. destruct (getChildPosition bn1) as [[|[|nr]] pos].
  - destruct Hs as (_ & _ & y & Hy & S). apply positions_inrange, C in Hy. rewrite Hy in S. by destruct S.
  - cbn [Nat.eqb]. destruct C as (Hp & Sp & Hone). apply positions_inrange in Hp.
    destruct (reduceSingle_spec D ts' bn1 pos hs Hs H1 Hp Sp) as (bn' & t & m & hs' & Et & -> & Hm & Lm).
    eexists _, _, _. split; [done|]. split; [done|]. exists (pcons [pos] t). split_and!; [|done..|].
    + apply wf_pcons_one; [done|]. by apply Hs.
    + assert (S : same_entries false (PBranch ts') (pcons [pos] t)).
      { apply plookup_single; [apply Hs|done..|]. intros y Hy. by apply Hone, positions_inrange. }
      intros k Hk. rewrite <- S by done. by apply Hu.
  - cbn [Nat.eqb]. eexists _, _, _. split; [done|]. split; [done|]. exists (PBranch ts').
    split_and!; [| |done|done].
    + destruct C as (a & c & ? & ?%positions_inrange & ?%positions_inrange & ? & ?).
      constructor; [apply Hs..|]. eauto 10.
    + apply Rep_branch_iff. constructor; [by eapply branch_core_base|..]; cbn; rewrite B; [done|].
      by split.
Qed.

(** ** The deletion *)

Lemma delete_leaf D b k v ver fuel n key :
  Rep D (PLeaf k v ver) n -> delete_ok D b (PLeaf k v ver) n key (node_delete (S fuel) D key n).
Proof.
  intros H. pose proof H as (ln & -> & El & _)%Rep_leaf_inv. cbn [node_delete].
  unfold dispatch, se_on, leafNode_delete. se_cbn. rewrite El. cbn [ln_Key].
  case_bool_decide as E; cbn.
  - subst. rewrite bool_decide_true by done. split; [eauto|].
    intros r _ N. by rewrite bool_decide_false.
  - by rewrite bool_decide_false.
Qed.

(** What [delete] puts below the extension: [k] in front of what is left. *)
Lemma ext_merge D k us m : wf false us -> Rep D us m -> loaded m -> k <> [] ->
  exists m', match m with
    | NLeaf ln => Ok (NLeaf (newLeafNode
        {| td_Key := concat k (ln_Key (ln_collapsed ln));
           td_Value := ln_Value (ln_collapsed ln);
           td_Version := u8 (ln_Version (ln_collapsed ln)) |}))
    | NExt en => NExt <$> newExtensionNode (concat k (en_Key (en_collapsed en))) (en_child en)
    | NBranch bn => NExt <$> newExtensionNode k (Some (NBranch bn))
    end = Ok m' /\ Rep D (pcons k us) m' /\ loaded m'.
Proof.
  intros Hw H Hl Hk. destruct us as [k' v ver|k' u|ts].
  - pose proof H as (ln & -> & El & _)%Rep_leaf_inv. apply wf_leaf_inv in Hw as [_ [_ Hv]].
    rewrite El. cbn [ln_Key ln_Value ln_Version].
    assert (u8 ver = ver) as -> by by apply Z.mod_small.
    eexists. split_and!; [done| |done]. apply Rep_newLeaf.
  - pose proof H as (en & -> & Ek & _ & Hc & _)%Rep_ext_inv.
    apply wf_ext_inv in Hw as (_ & _ & _ & _ & Hw). destruct Hl as [c Ec]. rewrite Ec, Ek.
    destruct (newExtensionNode_rep D (concat k k') _ _ _ Hw (Hc _ Ec)) as (e & -> & Re & Le).
    cbn. eexists. split_and!; done.
  - pose proof H as (bn & -> & _)%Rep_branch_inv.
    destruct (newExtensionNode_rep D k _ _ _ Hw H) as (e & -> & Re & Le). cbn.
    eexists. split_and!; [done|by destruct k|done].
Qed.

Lemma updated_pcons k ts us key o : Forall is_nibble k ->
  updated false (PBranch ts) us key o -> updated false (PExt k (PBranch ts)) (pcons k us) (k ++ key) o.
Proof.
  intros Hn U r Hr. destruct (decide (k `prefix_of` r)) as [P|N].
  - destruct (ext_key_rest _ _ Hn Hr P) as (r' & -> & Hr').
    rewrite plookup_pcons_app, plookup_ext_app, (U _ Hr').
    destruct (decide (r' = key)) as [->|Nr]; [by rewrite decide_True|].
    rewrite decide_False; [done|]. by intros ?%app_inv_head.
  - rewrite plookup_ext_other, plookup_pcons_other by done. rewrite decide_False; [done|].
    intros ->. apply N. by apply prefix_app_r.
Qed.

(** A branch is never emptied by one deletion. *)
Lemma branch_not_emptied ts key : wf false (PBranch ts) ->
  ~ forall k, keyok false k -> k <> key -> plookup (PBranch ts) k = None.
Proof.
  intros Hw H. destruct (wf_branch_two _ Hw) as (x & y & kx & ky & N & Kx & Ky & [e Sx] & [e' Sy]).
  destruct (decide (x :: kx = key)) as [<-|N'].
  - rewrite H in Sy; [done|done|]. congruence.
  - by rewrite H in Sx.
Qed.

Lemma delete_ext D k us fuel n key :
  wf false (PExt k (PBranch us)) -> Rep D (PExt k (PBranch us)) n -> hexkey key ->
  (forall c r, Rep D (PBranch us) c -> keyok false r -> (length r < length key)%nat ->
     delete_ok D false (PBranch us) c r (node_delete fuel D r c)) ->
  delete_ok D false (PExt k (PBranch us)) n key (node_delete (S fuel) D key n).
Proof.
  intros Hw H Hk IH. pose proof (Rep_nonempty D _ _ _ Hw H) as E.
  pose proof H as (en & -> & Ek & _)%Rep_ext_inv. cbn in E.
  pose proof Hw as (_ & Hne & Hkn & _ & Hw')%wf_ext_inv.
  cbn [node_delete]. unfold dispatch, se_on, extensionNode_delete. se_cbn. rewrite E. se_cbn.
  rewrite (proj2 (Nat.eqb_neq _ _)) by (destruct key; [by apply hexkey_nonempty in Hk|done]).
  rewrite Ek. destruct (Nat.ltb_spec (prefixLen key k) (length k)) as [Lk|Lk].
  { cbn [delete_ok]. split_and!; [|done..]. apply plookup_ext_other. intros [r ->].
    rewrite prefixLen_app in Lk. lia. }
  destruct (prefixLen_whole key k) as [r ->]; [destruct (prefixLen_le key k); lia|].
  rewrite drop_app_length.
  destruct (ext_resolve D _ _ en 0 Hw H) as (en' & c & R & H' & Eb & Ec & Hc). rewrite R.
  unfold en_on_child. rewrite Ec.
  assert (Hr : keyok false r) by (by apply hexkey_app_nibbles in Hk).
  assert (Lr : (length r < length (k ++ r))%nat) by (rewrite length_app; destruct k; cbn; [done|lia]).
  pose proof (IH c r Hc Hr Lr) as I. pose proof (plookup_ext_app k (PBranch us) r) as Pl.
  destruct (node_delete fuel D r c) as [c' [[[[] [m|]] hs]|]]; cbn [negb]; try (by exfalso).
  - destruct I as (S & p' & Wp & Rm & Lm & U).
    destruct (ext_merge D k p' m Wp Rm Lm Hne) as (m' & Em & Rm' & Lm').
    assert (G : forall hs n', delete_ok D false (PExt k (PBranch us)) (NExt en) (k ++ r) (n', Ok (true, Some m', hs))).
    { intros hs' n'. split; [by rewrite Pl|]. exists (pcons k p').
      split_and!; [by apply wf_pcons|done..|by apply updated_pcons]. }
    destruct m as [ln|e|bn']; cbn [en_set_child].
    + injection Em as <-. apply G.
    + destruct (newExtensionNode _ _); [|done]. injection Em as <-. apply G.
    + destruct (newExtensionNode _ _); [|done]. injection Em as <-. apply G.
  - destruct I as [_ I]. by apply branch_not_emptied in I.
  - destruct I as (N & [= <-] & Rc & Eh). cbn [delete_ok].
    split_and!; [by rewrite Pl|done|by eapply ext_set_child|unfold getHash; cbn; by rewrite Eb].
  - by destruct I as (_ & ? & _).
Qed.

Lemma branchNode_finish_set x m hs D bn co t b :
  match m with Some c => wf b t /\ Rep D t c | None => True end ->
  branchNode_finish x m hs D (bn_set_child x co bn) = branchNode_finish x m hs D bn.
Proof.
  intros Hm. assert (branchNode_setNewChild x m (bn_set_child x co bn) = branchNode_setNewChild x m bn) as E.
  { unfold branchNode_setNewChild. se_cbn. destruct m as [c|].
    - destruct Hm as [Hw Hc]. rewrite (getVersion_Rep _ _ _ _ Hw Hc). unfold bn_set_child. cbn.
      by rewrite list_insert_insert_eq.
    - unfold bn_set_child. cbn. by rewrite list_insert_insert_eq. }
  unfold branchNode_finish. se_cbn. by rewrite E.
Qed.

Lemma delete_branch D us fuel n x key :
  wf false (PBranch us) -> Rep D (PBranch us) n -> inrange x -> keyok (is_term x) key ->
  (forall t c, slot us x = Some t -> Rep D t c -> delete_ok D (is_term x) t c key (node_delete fuel D key c)) ->
  delete_ok D false (PBranch us) n (x :: key) (node_delete (S fuel) D (x :: key) n).
Proof.
  intros Hw H Hx Hk IH. pose proof (Rep_nonempty D _ _ _ Hw H) as E.
  pose proof H as (bn & -> & Hr)%Rep_branch_inv. cbn in E.
  pose proof Hw as (_ & _ & Hc & _)%wf_branch_inv. pose proof (plookup_branch us x key) as Pl.
  cbn [node_delete]. unfold dispatch, se_on, branchNode_delete. se_cbn. rewrite E.
  cbn [wrap option_fmap option_map]. rewrite inrange_position by done. se_cbn.
  destruct (branch_rep_resolve D us bn x Hw Hr Hx) as (bn' & R & Hr' & Eb & S). rewrite R.
  destruct (slot us x) as [t|] eqn:Et.
  2: { rewrite S. cbn [delete_ok]. split_and!; [done|done|by apply Rep_branch_iff|unfold getHash; cbn; by rewrite Eb]. }
  destruct S as (c & Ec & Hcr). rewrite Ec. unfold bn_on_child. rewrite Ec.
  pose proof (IH t c eq_refl Hcr) as I.
  destruct (node_delete fuel D key c) as [c' [[[[] m] hs]|]]; cbn [negb]; [| |done].
  - assert (F : forall o, match o, m with
                | Some t, Some c => wf (is_term x) t /\ Rep D t c
                | None, None => True | _, _ => False end ->
        is_Some (plookup t key) ->
        (forall k, keyok (is_term x) k -> (o ≫= fun t => plookup t k) =
           if decide (k = key) then None else plookup t k) ->
        forall hs, delete_ok D false (PBranch us) (NBranch bn) (x :: key)
          (match branchNode_finish x m hs D (bn_set_child x (Some c') bn') with
           | (b, r) => (NBranch b, r) end)).
    { intros o Ho So U hs'. rewrite (branchNode_finish_set _ _ _ _ _ _ (default t o) (is_term x)).
      2: { destruct m, o; done. }
      destruct (branch_finish_ok D us bn' x o m key hs' (NBranch bn') (NBranch bn) Hr' Hw Hx Ho) as (b & m' & h & -> & G);
        [by rewrite Pl|by rewrite Et|done]. }
    destruct m as [m|].
    + destruct I as (S & p' & Wp & Rm & _ & U).
      apply (F (Some p') (conj Wp Rm) S U).
    + destruct I as [S U]. apply (F None I S). intros k Kk. case_decide; [done|]. symmetry. by apply U.
  - destruct I as (N & [= ->] & Rc & Eh). cbn [delete_ok].
    split_and!; [by rewrite Pl|done| |unfold getHash; cbn; by rewrite Eb].
    apply Rep_branch_iff. eapply branch_rep_set_child; eauto. congruence.
Qed.

Lemma node_delete_spec D p fuel b n key :
  wf b p -> Rep D p n -> keyok b key -> (length key < fuel)%nat ->
  delete_ok D b p n key (node_delete fuel D key n).
Proof.
  revert fuel b n key.
  induction p as [k v ver|k t IH|ts IH] using ptrie_rect'; intros [|fuel] b n key Hw H Hk Hf; try lia.
  - by apply delete_leaf.
  - pose proof Hw as (-> & _ & _ & (us & ->) & Hw')%wf_ext_inv.
    apply delete_ext; try done. intros c r Hc Hr L. apply IH; try done. lia.
  - pose proof Hw as (-> & _ & Hc & _)%wf_branch_inv.
    destruct (keyok_false_cons _ Hk) as (x & key' & -> & Hx & Hk').
    apply delete_branch; try done. intros t c Et Ht.
    eapply IH; eauto. cbn in Hf. lia.
Qed.

End Delete.
