(* ===== verification/TrieHash.v ===== *)
(** * Hashing of trie nodes

    [setHash] and [setRootHash] do not fail on a node that represents a
    well-formed trie, give it the hash [phash] of the abstract trie and change
    nothing that it represents; [getEncodedNode] of a hashed node is the
    encoding [penc]. *)

From stdpp Require Import base list.
From Stdlib Require Import ZArith Lia.
From S2P Require Import Prelude KeyBuilder TrieNode TrieSpec TrieRefinement.

Section Hash.
Context {X : TrieExternals} {XOk : TrieExternalsOk X}.
Context {DB : Type} {ST : TrieStorage DB}.
Implicit Types (D : DB) (p t : ptrie) (n : node).

(** [Rep] without what the dirty flag claims: committing clears the flag
    before the node is stored. *)
Definition loosen (n : node) : node := set_base {| hash := getHash n; dirty := true |} n.
Definition Loose (D : DB) (p : ptrie) (n : node) : Prop := Rep D p (loosen n).

(** The hashes of the children are filled in. *)
Definition encoded_ok (p : ptrie) (n : node) : Prop :=
  match p, n with
  | PExt _ t, NExt en => EncodedChild (en_collapsed en) = phash t
  | PBranch ts, NBranch bn => forall x, inrange x -> bn_encoded bn x = ohash (slot ts x)
  | _, _ => True
  end.

(** The children in memory have their hash. *)
Definition kids_hashed (n : node) : Prop :=
  match n with
  | NLeaf _ => True
  | NExt en => forall c, en_child en = Some c -> getHash c <> None
  | NBranch bn => forall x c, inrange x -> bn_child bn x = Some c -> getHash c <> None
  end.

Definition hashed (p : ptrie) (n : node) : Prop :=
  getHash n = Some (phash p) /\ encoded_ok p n /\ kids_hashed n.

Lemma base_ok_loose D p h : (forall g, h = Some g -> g = phash p) ->
  base_ok D p {| hash := h; dirty := true |}.
Proof. by split. Qed.

Lemma Rep_Loose D p n : Rep D p n -> Loose D p n.
Proof.
  intros H. pose proof (Rep_base _ _ _ H) as [B _]. unfold Loose, loosen.
  destruct H; cbn; [by apply Rep_leaf|by apply Rep_ext|by apply Rep_branch].
Qed.

Lemma Loose_Rep D p n : Loose D p n ->
  (isDirty n = false -> getHash n = Some (phash p) /\ Stored D p) -> Rep D p n.
Proof.
  intros H B. pose proof (Rep_base _ _ _ H) as [B0 _].
  assert (G : base_ok D p (node_base n)) by (split; [by destruct n|done]).
  unfold Loose, loosen in H. destruct n as [ln|en|bn]; cbn in H, G; inversion H; subst.
  - by apply Rep_leaf.
  - by apply Rep_ext.
  - by apply Rep_branch.
Qed.

Lemma Loose_nonempty D p n b : wf b p -> Loose D p n -> isEmptyOrNil n = None.
Proof. intros Hw H. pose proof (Rep_nonempty _ _ _ _ Hw H). by destruct n. Qed.

Lemma Loose_hashed D p n h : Loose D p n -> getHash n = Some h -> hashed p n.
Proof.
  intros H E. pose proof (Rep_base _ _ _ H) as [B _].
  assert (B' : forall h, getHash n = Some h -> h = phash p) by by destruct n.
  split; [by rewrite E, (B' _ E)|]. unfold getHash in E.
  destruct p as [k v ver|k t|ts].
  - by apply Rep_leaf_inv in H as (ln & En & _); destruct n.
  - apply Rep_ext_inv in H as (en & En & _ & _ & _ & _ & Hh & _).
    destruct n; try discriminate En; injection En as <-.
    cbn in E, Hh. destruct Hh as [He Hk]; [unfold getHash; cbn; by rewrite E|done].
  - apply Rep_branch_inv in H as (bn & En & H). destruct n as [| |bn0]; try discriminate En; injection En as <-.
    cbn in E.
    assert (Hh : forall x, inrange x -> bn_encoded bn0 x = ohash (slot ts x) /\
              forall c, bn_child bn0 x = Some c -> getHash c <> None).
    { intros x Hx. destruct (slot ts x) as [t|] eqn:S.
      - apply (br_hashed _ _ _ H); [|done..]. unfold getHash. cbn. by rewrite E.
      - destruct (bc_absent _ _ _ H _ Hx S) as [Hc He]. split; [done|].
        intros c Ec. change (bn_child bn0 x = None) in Hc. congruence. }
    split; [intros x Hx; by apply Hh|intros x c Hx; by apply Hh].
Qed.

Lemma ohash_map (l : list bytes) ts : length l = nrOfChildren -> length ts = nrOfChildren ->
  (forall x, inrange x -> nth (Z.to_nat x) l [] = ohash (slot ts x)) -> l = map ohash ts.
Proof.
  intros L L' H. apply (nth_ext l (map ohash ts) [] []); [by rewrite length_map, L, L'|].
  intros i Li. specialize (H (Z.of_nat i)). rewrite Nat2Z.id in H.
  rewrite H by (unfold inrange, hexTerminator, nrOfChildren in *; lia).
  unfold slot. rewrite Nat2Z.id. symmetry. apply (map_nth ohash ts None).
Qed.

(** Encoding. *)
Lemma getEncodedNode_ok D p n b : wf b p -> Loose D p n -> encoded_ok p n ->
  getEncodedNode n = Ok (penc p).
Proof.
  intros Hw H He. pose proof (Loose_nonempty _ _ _ _ Hw H) as E.
  destruct p as [k v ver|k t|ts].
  - pose proof H as (ln & En & El & _)%Rep_leaf_inv. destruct n as [ln0| |]; try discriminate En; injection En as <-.
    cbn in El, E |- *. unfold leafNode_getEncodedNode. rewrite E, El. cbn.
    apply wf_leaf_inv in Hw as [_ [Hv _]].
    destruct (MarshalLn_ok {| ln_Key := k; ln_Value := Some v; ln_Version := ver |} v)
      as (c & -> & _); done.
  - pose proof H as (en & En & Ek & Ev & _)%Rep_ext_inv. destruct n as [|en0|]; try discriminate En; injection En as <-.
    cbn in Ek, Ev, E, He |- *. unfold extensionNode_getEncodedNode. rewrite E. cbn.
    destruct (en_collapsed en0) as [k0 c0 v0]. cbn in Ek, Ev, He. subst k0 c0 v0.
    unfold phash. by destruct (MarshalEn_ok {| en_Key := k; EncodedChild := Compute (penc t); ChildVersion := pver t |})
      as (c & -> & _).
  - pose proof H as (bn & En & Hr)%Rep_branch_inv. destruct n as [| |bn0]; try discriminate En; injection En as <-.
    cbn in E, He |- *. unfold branchNode_getEncodedNode. rewrite E. cbn.
    pose proof (bc_versions _ _ _ Hr) as Ev. pose proof (bc_encoded _ _ _ Hr) as L.
    pose proof (ohash_map _ _ L (bc_len _ _ _ Hr) He) as Ee. cbn in Ev, Ee.
    destruct (bn_collapsed bn0) as [c0 v0]. cbn in Ev, Ee. subst c0 v0.
    change (map (fun o => _) ts) with (map ohash ts).
    by destruct (MarshalBn_ok {| EncodedChildren := map ohash ts; ChildrenVersion := cvers ts |})
      as (c & -> & _).
Qed.

Lemma encodeNodeAndGetHash_ok D p n b : wf b p -> Loose D p n -> encoded_ok p n ->
  encodeNodeAndGetHash n = Ok (phash p).
Proof. intros. unfold encodeNodeAndGetHash. by rewrite (getEncodedNode_ok D p n b). Qed.
(** ** Depth in memory *)

Lemma height_ext en c : en_child en = Some c -> (height c < height (NExt en))%nat.
Proof. cbn. intros ->. lia. Qed.

Lemma height_branch bn x c : bn_child bn x = Some c -> (height c < height (NBranch bn))%nat.
Proof.
  unfold bn_child. cbn [height]. generalize (Z.to_nat x) as i.
  induction (bn_children bn) as [|o l IH]; intros [|i]; cbn; try done.
  - intros ->. lia.
  - intros ?%IH. lia.
Qed.

(** ** What a loose node is *)

Record branch_loose (D : DB) (ts : list (option ptrie)) (bn : branchNode) : Prop := {
  bl_core :> branch_core D ts bn;
  bl_hashed : hash (bn_base bn) <> None ->
    encoded_ok (PBranch ts) (NBranch bn) /\ kids_hashed (NBranch bn);
  bl_hash : forall h, hash (bn_base bn) = Some h -> h = phash (PBranch ts);
}.

Lemma Loose_branch D ts n : Loose D (PBranch ts) n <-> exists bn, n = NBranch bn /\ branch_loose D ts bn.
Proof.
  split.
  - intros H. pose proof H as (bn0 & En & Hr)%Rep_branch_inv.
    destruct n as [| |bn]; try discriminate En. injection En as <-.
    exists bn. split; [done|]. constructor.
    + destruct Hr as [[] _ _]. by constructor.
    + intros N. destruct (hash (bn_base bn)) as [h|] eqn:Eh; [|done].
      by apply (Loose_hashed _ _ _ h) in H as [_ ?].
    + by apply Hr.
  - intros (bn & -> & [[] Hh Hb]). apply Rep_branch_iff. constructor; [by constructor| |by split].
    intros N x t Hx Ht. destruct (Hh N) as [He Hk]. split; [|intros c; by apply Hk].
    change (bn_encoded bn x = phash t). by rewrite (He x Hx), Ht.
Qed.

Record ext_loose (D : DB) (k : bytes) (t : ptrie) (en : extensionNode) : Prop := {
  el_key : en_Key (en_collapsed en) = k;
  el_version : ChildVersion (en_collapsed en) = pver t;
  el_loaded : forall c, en_child en = Some c -> Rep D t c;
  el_collapsed : en_child en = None -> EncodedChild (en_collapsed en) = phash t /\ Stored D t;
  el_hashed : hash (en_base en) <> None -> EncodedChild (en_collapsed en) = phash t /\
    forall c, en_child en = Some c -> getHash c <> None;
  el_hash : forall h, hash (en_base en) = Some h -> h = phash (PExt k t);
}.

Lemma Loose_ext D k t n : Loose D (PExt k t) n <-> exists en, n = NExt en /\ ext_loose D k t en.
Proof.
  split.
  - intros (en0 & En & ? & ? & ? & ? & ? & [? _])%Rep_ext_inv.
    destruct n as [|en|]; try discriminate En. injection En as <-.
    exists en. split; [done|]. by constructor.
  - intros (en & -> & []). apply Rep_ext; try done.
Qed.

(** ** Hashing *)

Definition clean (n : node) : Prop := isDirty n = false.

Definition clean_children (bn : branchNode) : Prop :=
  forall x c, inrange x -> bn_child bn x = Some c -> clean c.

(** The children in memory are clean. *)
Definition clean_kids (n : node) : Prop :=
  match n with
  | NLeaf _ => True
  | NExt en => forall c, en_child en = Some c -> clean c
  | NBranch bn => clean_children bn
  end.

(** The outcome of hashing a node that represents [p]. *)
Definition hash_ok (D : DB) (p : ptrie) (n : node) (out : node * result trie_error unit) : Prop :=
  exists n', out = (n', Ok ()) /\ Loose D p n' /\ hashed p n' /\ isDirty n' = isDirty n /\
    (clean_kids n -> clean_kids n').

Lemma hash_ok_Rep D p n out : Rep D p n -> hash_ok D p n out ->
  exists n', out = (n', Ok ()) /\ Rep D p n' /\ hashed p n' /\ isDirty n' = isDirty n.
Proof.
  intros H (n' & -> & Hl & Hh & Hd & _). exists n'. split_and!; try done.
  apply Loose_Rep; [done|]. intros E. rewrite Hd in E. split; [apply Hh|].
  by apply (Rep_base _ _ _ H).
Qed.

Lemma setHash_leaf D k v ver fuel n b : wf b (PLeaf k v ver) -> Loose D (PLeaf k v ver) n ->
  hash_ok D (PLeaf k v ver) n (node_setHash (S fuel) n).
Proof.
  intros Hw H. pose proof (Loose_nonempty _ _ _ _ Hw H) as E.
  pose proof (encodeNodeAndGetHash_ok _ _ _ _ Hw H I) as Eh.
  pose proof H as (ln0 & En & El & Hb)%Rep_leaf_inv. destruct n as [ln| |]; try discriminate En.
  injection En as <-. cbn [node_setHash]. unfold dispatch, se_on, leafNode_setHash. se_cbn.
  cbn in E, El. rewrite E. cbn [wrap option_fmap option_map].
  destruct (hash (ln_base ln)) as [h|] eqn:Ehash.
  - exists (NLeaf ln). split_and!; [done..| |done|done]. by apply (Loose_hashed D _ _ h).
  - unfold leafNode_hashNode. se_cbn. rewrite E. cbn [wrap option_fmap option_map]. rewrite Eh.
    eexists. split_and!; [done| |done|done|done]. apply Rep_leaf; [done|].
    apply base_ok_loose. by intros g [= <-].
Qed.

Lemma ext_set_hash_loose D k t en : ext_loose D k t en ->
  encoded_ok (PExt k t) (NExt en) -> kids_hashed (NExt en) ->
  let n' := NExt (en_set_base (set_hash (Some (phash (PExt k t))) (en_base en)) en) in
  Loose D (PExt k t) n' /\ hashed (PExt k t) n'.
Proof.
  intros [] He Hk. split; [|done]. apply Loose_ext. eexists. split; [done|].
  constructor; try done. by intros h [= <-].
Qed.

Lemma setHash_ext D k t fuel n : wf false (PExt k t) -> Loose D (PExt k t) n ->
  (forall c, Rep D t c -> (height c < height n)%nat -> hash_ok D t c (node_setHash fuel c)) ->
  hash_ok D (PExt k t) n (node_setHash (S fuel) n).
Proof.
  intros Hw H IH. pose proof (Loose_nonempty _ _ _ _ Hw H) as E.
  pose proof H as (en & -> & He)%Loose_ext. cbn in E.
  pose proof Hw as (_ & _ & _ & _ & Hw')%wf_ext_inv.
  cbn [node_setHash]. unfold dispatch, se_on, extensionNode_setHash. se_cbn. rewrite E.
  cbn [wrap option_fmap option_map]. destruct (hash (en_base en)) as [h|] eqn:Ehash.
  { exists (NExt en). split_and!; [done..| |done|done]. by apply (Loose_hashed D _ _ h). }
  unfold extensionNode_isCollapsed. destruct (en_child en) as [c|] eqn:Ec.
  - rewrite bool_decide_false by naive_solver.
    pose proof (el_loaded _ _ _ _ He _ Ec) as Hc.
    destruct (hash_ok_Rep _ _ _ _ Hc (IH c Hc (height_ext _ _ Ec))) as (c' & R & Hc' & [Hh Hen] & Hd).
    unfold extensionNode_hashChildren, extensionNode_hashNode. se_cbn. rewrite E. se_cbn.
    rewrite Ec.
    unfold en_on_child. rewrite Ec, R. se_cbn.
    unfold extensionNode_isEmptyOrNil at 1. cbn [en_set_child en_child wrap option_fmap option_map].
    rewrite (encodeNodeAndGetHash_ok D t c' false Hw' (Rep_Loose _ _ _ Hc') (proj1 Hen)). se_cbn.
    set (en' := en_set_encoded (phash t) (en_set_child (Some c') en)).
    assert (He' : ext_loose D k t en').
    { destruct He. constructor; cbn; try done; rewrite ?Ehash; try done. by intros d [= <-]. }
    assert (H' : Loose D (PExt k t) (NExt en')) by (apply Loose_ext; eauto).
    rewrite (encodeNodeAndGetHash_ok D _ _ _ Hw H') by done.
    destruct (ext_set_hash_loose D k t en' He') as [HL HH]; [done| |].
    { intros d [= <-]. by rewrite Hh. }
    eexists. split_and!; [done|done|done|done|].
    intros Hk d [= <-]. unfold clean. rewrite Hd. by apply Hk.
  - destruct (el_collapsed _ _ _ _ He Ec) as [Een St].
    rewrite bool_decide_true by (split; [done|]; rewrite Een; apply phash_nonempty).
    rewrite (encodeNodeAndGetHash_ok D _ _ _ Hw H) by done.
    destruct (ext_set_hash_loose D k t en He Een) as [HL HH]; [intros d; cbn; by rewrite Ec|].
    eexists. by split_and!.
Qed.

(** A loop over the children that only works on the children in memory and
    leaves each of them hashed. *)
Definition hash_child (sub : SE node trie_error unit) (i : Z) : SE branchNode trie_error unit :=
  bn ← se_get;
  match bn_child bn i with
  | None => mret ()
  | Some _ => bn_on_child i RuntimePanic sub
  end.

Definition hashed_child (ts : list (option ptrie)) (bn : branchNode) (x : Z) : Prop :=
  forall t c, slot ts x = Some t -> bn_child bn x = Some c -> hashed t c.

Lemma positions_split done i rest : positions = done ++ i :: rest ->
  inrange i /\ i ∉ done /\ (forall x, x ∈ done -> inrange x).
Proof.
  intros E. assert (N : NoDup positions) by (apply NoDup_fmap_2; [intros ?? ?; lia|apply NoDup_seq]).
  rewrite E in N. apply NoDup_app in N as (_ & N & _).
  split_and!.
  - apply positions_inrange. rewrite E. apply elem_of_app. right. apply elem_of_cons. by left.
  - intros Hi. eapply N; [done|]. apply elem_of_cons. by left.
  - intros x Hx. apply positions_inrange. rewrite E. apply elem_of_app. by left.
Qed.

Lemma hash_children_loop D ts bn sub :
  branch_core D ts bn ->
  (forall x t c, inrange x -> slot ts x = Some t -> bn_child bn x = Some c ->
     exists c', sub c = (c', Ok ()) /\ Rep D t c' /\ hashed t c' /\ isDirty c' = isDirty c) ->
  exists bn', se_for positions (hash_child sub) bn = (bn', Ok ()) /\
    branch_core D ts bn' /\ bn_base bn' = bn_base bn /\ (clean_children bn -> clean_children bn') /\
    forall x, inrange x -> hashed_child ts bn' x.
Proof.
  intros H Hsub.
  destruct (se_for_ind (fun done bn' => branch_core D ts bn' /\ bn_base bn' = bn_base bn /\
    (clean_children bn -> clean_children bn') /\
    (forall x, x ∈ done -> hashed_child ts bn' x) /\
    (forall x, inrange x -> x ∉ done -> bn_child bn' x = bn_child bn x))
    (hash_child sub) positions bn) as (bn' & E & H' & Eb & Ec & Hd & _).
  - split_and!; try done. intros x Hx. by apply not_elem_of_nil in Hx.
  - intros dn i rest s Ep (Hs & Eb & Ec & Hd & Hr).
    destruct (positions_split _ _ _ Ep) as (Hi & Ni & Hdn).
    unfold hash_child. se_cbn. destruct (bn_child s i) as [c|] eqn:Es.
    + rewrite (Hr i) in Es by done. destruct (slot ts i) as [t|] eqn:St.
      2: { by destruct (bc_absent _ _ _ H _ Hi St) as [? _]; congruence. }
      destruct (Hsub i t c Hi St Es) as (c' & Ec' & Rc' & Hc' & Hd').
      unfold bn_on_child. rewrite (Hr i) by done. rewrite Es, Ec'.
      eexists. split; [done|]. split_and!; [by eapply branch_core_set_child|done|..].
      * intros Hk x d Hx Hd0. rewrite bn_child_set in Hd0 by (try done; apply Hs).
        case_decide; [|by eapply (Ec Hk)]. simplify_eq. unfold clean. rewrite Hd'. by eapply Hk.
      * intros x Hx%elem_of_app t' c0 St' Hc0. rewrite bn_child_set in Hc0; [|apply Hs|done|].
        2: { destruct Hx as [Hx| ->%list_elem_of_singleton]; [by apply Hdn|done]. }
        destruct (decide (i = x)) as [<-|N]; [congruence|].
        destruct Hx as [Hx|Hx%list_elem_of_singleton]; [by eapply Hd|congruence].
      * intros x Hx Nx. rewrite bn_child_set by (try done; apply Hs).
        apply not_elem_of_app in Nx as [Nx Nx']. rewrite list_elem_of_singleton in Nx'.
        rewrite decide_False by congruence. by apply Hr.
    + exists s. split; [done|]. split_and!; try done.
      * intros x [Hx| ->%list_elem_of_singleton]%elem_of_app; [by apply Hd|].
        intros t c _. by rewrite Es.
      * intros x Hx [Nx _]%not_elem_of_app. by apply Hr.
  - exists bn'. split_and!; try done. intros x Hx. by apply Hd, positions_inrange.
Qed.

(** The loops that copy the hashes of the children into the branch. *)
Lemma fill_loop D ts bn (body : Z -> SE branchNode trie_error unit) :
  branch_core D ts bn -> (forall x, inrange x -> hashed_child ts bn x) ->
  (forall x bn', inrange x -> branch_core D ts bn' -> bn_children bn' = bn_children bn ->
     body x bn' = match bn_child bn x with
                  | None => (bn', Ok ())
                  | Some _ => (bn_set_encoded x (ohash (slot ts x)) bn', Ok ())
                  end) ->
  exists bn', se_for positions body bn = (bn', Ok ()) /\ branch_core D ts bn' /\
    bn_base bn' = bn_base bn /\ bn_children bn' = bn_children bn /\
    encoded_ok (PBranch ts) (NBranch bn').
Proof.
  intros H Hh Hbody.
  assert (G : forall x, inrange x -> bn_child bn x = None -> bn_encoded bn x = ohash (slot ts x)).
  { intros x Hx Hc. destruct (slot ts x) as [t|] eqn:S; [by apply (bc_collapsed _ _ _ H)|].
    by apply (bc_absent _ _ _ H). }
  destruct (se_for_ind (fun done bn' => branch_core D ts bn' /\ bn_base bn' = bn_base bn /\
    bn_children bn' = bn_children bn /\
    (forall x, inrange x -> (x ∈ done \/ bn_child bn x = None) -> bn_encoded bn' x = ohash (slot ts x)))
    body positions bn) as (bn' & E & H' & Eb & Ec & Hd).
  - split_and!; try done. intros x Hx [N|N]; [by apply not_elem_of_nil in N|auto].
  - intros dn i rest s Ep (Hs & Eb & Ec & Hd).
    destruct (positions_split _ _ _ Ep) as (Hi & Ni & Hdn).
    rewrite Hbody by done. destruct (bn_child bn i) as [c|] eqn:Es.
    + eexists. split; [done|]. split_and!; try done.
      * destruct (slot ts i) as [t|] eqn:St.
        2: { destruct (bc_absent _ _ _ H _ Hi St) as [? _]. congruence. }
        constructor; try apply Hs; cbn [bn_children bn_set_encoded bn_collapsed ChildrenVersion EncodedChildren].
        -- rewrite length_insert. apply Hs.
        -- intros x u Hx Hu Hc. change (bn_child _ x) with (bn_child s x) in Hc.
           destruct (bc_collapsed _ _ _ Hs _ _ Hx Hu Hc) as [He Hst]. split; [|done].
           rewrite bn_encoded_set by (try done; apply Hs). case_decide; [|done]. cbn. congruence.
        -- intros x Hx Hu. destruct (bc_absent _ _ _ Hs _ Hx Hu) as [Hc He]. split; [done|].
           rewrite bn_encoded_set by (try done; apply Hs). case_decide; [|done]. congruence.
      * intros x Hx Hor. rewrite bn_encoded_set by (try done; apply Hs).
        case_decide as Dx; [by rewrite Dx|]. apply Hd; [done|].
        destruct Hor as [[?|?%list_elem_of_singleton]%elem_of_app|?]; [by left|congruence|by right].
    + exists s. split; [done|]. split_and!; try done. intros x Hx Hor. apply Hd; [done|].
      destruct Hor as [[?| ->%list_elem_of_singleton]%elem_of_app|?]; auto.
  - exists bn'. split_and!; try done. intros x Hx. apply Hd; [done|]. left. by apply positions_inrange.
Qed.

(** [hashNode] of a branch whose children are hashed. *)
Lemma branch_hashNode_ok D ts bn : wf false (PBranch ts) -> branch_core D ts bn ->
  hash (bn_base bn) = None -> (forall x, inrange x -> hashed_child ts bn x) ->
  exists bn', branchNode_hashNode bn = (bn', Ok (phash (PBranch ts))) /\
    branch_core D ts bn' /\ bn_base bn' = bn_base bn /\ bn_children bn' = bn_children bn /\
    encoded_ok (PBranch ts) (NBranch bn').
Proof.
  intros Hw H Eh Hh. pose proof (branch_nonempty D _ _ (wf_slots_ok _ Hw) H) as E.
  pose proof Hw as (_ & _ & Hc & _)%wf_branch_inv.
  unfold branchNode_hashNode. se_cbn. rewrite E. cbn [wrap option_fmap option_map].
  destruct (fill_loop D ts bn (fun i => bn ← se_get;
        match bn_child bn i with
        | None => mret ()
        | Some child => encChild ← se_lift (encodeNodeAndGetHash child);
                        se_modify (bn_set_encoded i encChild)
        end) H Hh) as (bn' & Ef & H' & Eb & Ec & He).
  - intros x b Hx Hb Ecb. assert (Ex : bn_child b x = bn_child bn x) by (unfold bn_child; by rewrite Ecb).
    se_cbn. rewrite Ex. destruct (bn_child bn x) as [c|] eqn:Ecx; [|done].
    destruct (slot ts x) as [t|] eqn:St.
    2: { destruct (bc_absent _ _ _ H _ Hx St) as [? _]. congruence. }
    rewrite (encodeNodeAndGetHash_ok D t c (is_term x)); [done|by apply Hc| |by apply (Hh x Hx t c)].
    eapply Rep_Loose, bc_loaded; eauto.
  - se_cbn. rewrite Ef.
    rewrite (encodeNodeAndGetHash_ok D (PBranch ts) (NBranch bn') false); [eauto 10|done| |done].
    apply Loose_branch. exists bn'. split; [done|]. by constructor; rewrite ?Eb, ?Eh.
Qed.

Lemma hashed_children_kids D ts bn : branch_core D ts bn ->
  (forall x, inrange x -> hashed_child ts bn x) -> kids_hashed (NBranch bn).
Proof.
  intros H Hh x c Hx Ec. destruct (slot ts x) as [t|] eqn:St.
  - destruct (Hh x Hx t c St Ec) as [E _]. by rewrite E.
  - destruct (bc_absent _ _ _ H _ Hx St). congruence.
Qed.

Lemma branch_set_hash_loose D ts bn : branch_core D ts bn -> encoded_ok (PBranch ts) (NBranch bn) ->
  kids_hashed (NBranch bn) ->
  let n' := NBranch (bn_set_base (set_hash (Some (phash (PBranch ts))) (bn_base bn)) bn) in
  Loose D (PBranch ts) n' /\ hashed (PBranch ts) n'.
Proof.
  intros [] He Hk. split; [|done]. apply Loose_branch. eexists. split; [done|].
  constructor; [by constructor|done|]. by intros h [= <-].
Qed.

Lemma isCollapsed_children bn : branchNode_isCollapsed bn = true -> forall x, bn_child bn x = None.
Proof.
  intros C x. unfold branchNode_isCollapsed in C. rewrite forallb_forall in C.
  unfold bn_child. rewrite nth_lookup.
  destruct (_ !! _) as [o|] eqn:L; [|done]. apply list_elem_of_lookup_2, list_elem_of_In, C in L.
  by apply bool_decide_eq_true in L.
Qed.

(** Hashing a branch, with the loop over the children given. *)
Lemma branch_hash_any D ts bn loop : wf false (PBranch ts) -> branch_loose D ts bn ->
  hash (bn_base bn) = None ->
  (exists bn', loop bn = (bn', Ok ()) /\ branch_core D ts bn' /\ bn_base bn' = bn_base bn /\
     (clean_children bn -> clean_children bn') /\ forall x, inrange x -> hashed_child ts bn' x) ->
  hash_ok D (PBranch ts) (NBranch bn) (se_on NBranch
    (h ← (if branchNode_isCollapsed bn then se_lift (encodeNodeAndGetHash (NBranch bn))
          else _ ← loop; branchNode_hashNode);
     se_modify (fun bn => bn_set_base (set_hash (Some h) (bn_base bn)) bn)) bn).
Proof.
  intros Hw H Eh (bn1 & El & H1 & Eb1 & Hk1 & Hh1). unfold se_on. se_cbn.
  destruct (branchNode_isCollapsed bn) eqn:C.
  - pose proof (isCollapsed_children bn C) as Hn.
    assert (He : encoded_ok (PBranch ts) (NBranch bn)).
    { intros x Hx. destruct (slot ts x) as [t|] eqn:S; [|by apply (bc_absent _ _ _ H)].
      by apply (bc_collapsed _ _ _ H). }
    rewrite (encodeNodeAndGetHash_ok D (PBranch ts) _ false); [|done|apply Loose_branch; eauto|done].
    eexists. split; [done|].
    destruct (branch_set_hash_loose D ts bn H He); [|done].
    intros x c _ Ex. by rewrite Hn in Ex.
  - rewrite El. destruct (branch_hashNode_ok D ts bn1 Hw H1) as (bn2 & En & H2 & Eb2 & Ec2 & He); [by rewrite Eb1|done|].
    rewrite En. eexists. split; [done|].
    assert (Hkids : kids_hashed (NBranch bn2)).
    { intros x c Hx. unfold bn_child. rewrite Ec2. by apply (hashed_children_kids D ts bn1). }
    destruct (branch_set_hash_loose D ts bn2 H2 He Hkids). split_and!; try done.
    + unfold isDirty. cbn. by rewrite Eb2, Eb1.
    + intros Hk x c Hx. unfold bn_child. cbn. rewrite Ec2. by apply Hk1.
Qed.

Lemma branch_hashed_already D ts bn h : branch_loose D ts bn -> hash (bn_base bn) = Some h ->
  hash_ok D (PBranch ts) (NBranch bn) (NBranch bn, Ok ()).
Proof.
  intros H E. assert (Hl : Loose D (PBranch ts) (NBranch bn)) by (apply Loose_branch; eauto).
  exists (NBranch bn). split_and!; [done..| |done|done]. by eapply Loose_hashed.
Qed.

Lemma setHash_branch D ts bn sub : wf false (PBranch ts) -> branch_loose D ts bn ->
  (forall x t c, inrange x -> slot ts x = Some t -> Rep D t c -> bn_child bn x = Some c ->
     hash_ok D t c (sub c)) ->
  hash_ok D (PBranch ts) (NBranch bn) (se_on NBranch (branchNode_setHash sub) bn).
Proof.
  intros Hw H Hsub. pose proof (branch_nonempty D _ _ (wf_slots_ok _ Hw) H) as E.
  unfold branchNode_setHash. unfold se_on. se_cbn. rewrite E. cbn [wrap option_fmap option_map].
  destruct (hash (bn_base bn)) as [h|] eqn:Eh; [by eapply branch_hashed_already|].
  apply (branch_hash_any D ts bn (branchNode_hashChildren sub) Hw H Eh).
  destruct (hash_children_loop D ts bn sub H) as (bn' & El & H' & Eb & Hk & Hh).
  - intros x t c Hx St Ec. pose proof (bc_loaded _ _ _ H _ _ _ Hx St Ec) as Rc.
    destruct (hash_ok_Rep _ _ _ _ Rc (Hsub _ _ _ Hx St Rc Ec)) as (c' & -> & ? & ? & ?). eauto.
  - exists bn'. split_and!; try done. unfold branchNode_hashChildren. se_cbn. rewrite E. se_cbn.
    etrans; [|exact El]. done.
Qed.

Lemma node_setHash_spec D p fuel b n : wf b p -> Loose D p n -> (height n <= fuel)%nat ->
  hash_ok D p n (node_setHash fuel n).
Proof.
  revert fuel b n.
  induction p as [k v ver|k t IH|ts IH] using ptrie_rect'; intros [|fuel] b n Hw H Hf;
    try (destruct n; cbn in Hf; lia).
  - by eapply setHash_leaf.
  - pose proof Hw as (-> & _ & _ & _ & Hw')%wf_ext_inv.
    apply setHash_ext; try done. intros c Hc L. eapply IH; [done|by apply Rep_Loose|lia].
  - pose proof Hw as (-> & _ & Hc & _)%wf_branch_inv.
    apply Loose_branch in H as (bn & -> & H).
    change (node_setHash (S fuel) (NBranch bn))
      with (se_on NBranch (branchNode_setHash (node_setHash fuel)) bn).
    apply setHash_branch; [done..|].
    intros x t c Hx St Rc Ec. eapply IH; [done|by apply Hc|by apply Rep_Loose|].
    apply height_branch in Ec. lia.
Qed.

Lemma setHash_spec D p b n : wf b p -> Loose D p n -> hash_ok D p n (setHash n).
Proof. intros. by eapply node_setHash_spec. Qed.

(** ** Hashing the root *)

Lemma setHashConcurrent_spec D p b n : wf b p -> Loose D p n -> hash_ok D p n (setHashConcurrent n).
Proof.
  intros Hw H. destruct p as [k v ver|k t|ts].
  - pose proof (setHash_spec D _ b n Hw H) as G.
    apply Rep_leaf_inv in H as (? & ? & _). by destruct n.
  - pose proof (setHash_spec D _ b n Hw H) as G. by apply Loose_ext in H as (? & -> & _).
  - apply Loose_branch in H as (bn & -> & H). pose proof Hw as (-> & _ & Hc & _)%wf_branch_inv.
    cbn [setHashConcurrent]. pose proof (branch_nonempty D _ _ (wf_slots_ok _ Hw) H) as E.
    unfold se_on, branchNode_setHashConcurrent. se_cbn. rewrite E. se_cbn.
    eapply (setHash_branch D ts bn _ Hw H).
    intros x t c Hx St Rc Ec. eapply node_setHash_spec; [by apply Hc|by apply Rep_Loose|].
    apply height_branch in Ec. lia.
Qed.

(** When no goroutine fails the loop that starts them is a plain loop. *)
Lemma bn_hash_all_ok l bn bn' : se_for l (hash_child setHashConcurrent) bn = (bn', Ok ()) ->
  bn_hash_all l bn = (bn', Ok []).
Proof.
  revert bn. induction l as [|i l IH]; intros bn.
  - by intros [= <-].
  - cbn [se_for bn_hash_all]. se_cbn.
    change (hash_child setHashConcurrent i bn) with
      (match bn_child bn i with
       | None => mret ()
       | Some _ => bn_on_child i RuntimePanic setHashConcurrent
       end bn).
    destruct (bn_child bn i) as [c|].
    + destruct (bn_on_child _ _ _ bn) as [bn1 [[]|]]; [|done]. intros E%IH. by rewrite E.
    + intros E%IH. by rewrite E.
Qed.

Lemma setRootHash_spec D p b n : wf b p -> Loose D p n -> hash_ok D p n (setRootHash n).
Proof.
  intros Hw H. destruct p as [k v ver|k t|ts].
  - pose proof (setHash_spec D _ b n Hw H) as G.
    apply Rep_leaf_inv in H as (? & ? & _). by destruct n.
  - pose proof (setHash_spec D _ b n Hw H) as G. by apply Loose_ext in H as (? & -> & _).
  - apply Loose_branch in H as (bn & -> & H). pose proof Hw as (-> & _ & Hc & _)%wf_branch_inv.
    cbn [setRootHash]. pose proof (branch_nonempty D _ _ (wf_slots_ok _ Hw) H) as E.
    unfold se_on, branchNode_setRootHash. se_cbn. rewrite E. cbn [wrap option_fmap option_map].
    destruct (hash (bn_base bn)) as [h|] eqn:Eh; [by eapply branch_hashed_already|].
    pose proof (branch_hash_any D ts bn
      (errc ← bn_hash_all positions; se_check (head errc)) Hw H Eh) as G.
    destruct (hash_children_loop D ts bn setHashConcurrent H) as (bn' & El & H' & Eb & Hk & Hh).
    + intros x t c Hx St Ec. pose proof (bc_loaded _ _ _ H _ _ _ Hx St Ec) as Rc.
      destruct (hash_ok_Rep _ _ _ _ Rc (setHashConcurrent_spec D t _ c (Hc _ _ Hx St) (Rep_Loose _ _ _ Rc)))
        as (c' & -> & ? & ? & ?). eauto.
    + apply bn_hash_all_ok in El. unfold se_on in G. se_cbn. rewrite El in G. cbn [head] in G.
      assert (G' := G (ex_intro _ bn' (conj eq_refl (conj H' (conj Eb (conj Hk Hh)))))).
      destruct (branchNode_isCollapsed bn); [done|]. by rewrite El in G' |- *.
Qed.

End Hash.
