(* ===== verification/TrieCommit.v ===== *)
(** * Committing a trie to the storage

    [commitDirty] does not fail on a node that represents a well-formed trie,
    writes every node of the trie that was not stored, loses nothing that was
    stored before, and leaves a clean node that represents the same trie on the
    new storage. *)

From stdpp Require Import base list.
From Stdlib Require Import ZArith Lia.
From S2P Require Import Prelude KeyBuilder TrieNode TrieSpec TrieRefinement TrieHash.

(** What committing relies on, besides the hasher not colliding: the storage is
    a map that accepts every write. *)
Class TrieStorageOk (DB : Type) (ST : TrieStorage DB) : Prop := {
  Put_ok : forall (D : DB) k v, exists D', db_Put D k v = Ok D' /\
    db_Get D' k = Ok v /\ forall k', k' <> k -> db_Get D' k' = db_Get D k';
}.

Section Commit.
Context {X : TrieExternals} {XOk : TrieExternalsOk X} {CF : CollisionFree X}.
Context {DB : Type} {ST : TrieStorage DB} {STOk : TrieStorageOk DB ST}.
Implicit Types (D : DB) (p t : ptrie) (n : node).

(** ** What the hash determines *)

Lemma MarshalLn_inj k v ver k' v' ver' : v <> [] -> v' <> [] ->
  ok_or_nil (MarshalLn {| ln_Key := k; ln_Value := Some v; ln_Version := ver |}) =
  ok_or_nil (MarshalLn {| ln_Key := k'; ln_Value := Some v'; ln_Version := ver' |}) ->
  k = k' /\ v = v' /\ ver = ver'.
Proof.
  intros N N'.
  destruct (MarshalLn_ok {| ln_Key := k; ln_Value := Some v; ln_Version := ver |} v) as (b & -> & U); [done..|].
  destruct (MarshalLn_ok {| ln_Key := k'; ln_Value := Some v'; ln_Version := ver' |} v') as (b' & -> & U'); [done..|].
  cbn. intros ->. rewrite U in U'. by injection U'.
Qed.

Lemma MarshalEn_inj c c' : ok_or_nil (MarshalEn c) = ok_or_nil (MarshalEn c') -> c = c'.
Proof.
  destruct (MarshalEn_ok c) as (b & -> & U). destruct (MarshalEn_ok c') as (b' & -> & U').
  cbn. intros ->. congruence.
Qed.

Lemma MarshalBn_inj c c' : ok_or_nil (MarshalBn c) = ok_or_nil (MarshalBn c') -> c = c'.
Proof.
  destruct (MarshalBn_ok c) as (b & -> & U). destruct (MarshalBn_ok c') as (b' & -> & U').
  cbn. intros ->. congruence.
Qed.

Lemma ohash_slot ts us x : map ohash ts = map ohash us -> ohash (slot ts x) = ohash (slot us x).
Proof.
  intros E. unfold slot. rewrite <- !(map_nth ohash). by rewrite E.
Qed.

(** The encoding of a trie determines it. *)
Lemma penc_inj p q b b' : wf b p -> wf b' q -> penc p = penc q -> p = q.
Proof.
  revert q b b'. induction p as [k v ver|k t IH|ts IH] using ptrie_rect'; intros [k' v' ver'|k' t'|us] b b' Hw Hw';
    cbn [penc]; intros [E Et]%app_inj_2; try done; try (by injection Et).
  - apply wf_leaf_inv in Hw as [_ [? _]]. apply wf_leaf_inv in Hw' as [_ [? _]].
    by apply MarshalLn_inj in E as (-> & -> & ->).
  - apply wf_ext_inv in Hw as (_ & _ & _ & _ & Hw). apply wf_ext_inv in Hw' as (_ & _ & _ & _ & Hw').
    apply MarshalEn_inj in E. injection E as -> E%Compute_inj _. f_equal. eauto.
  - apply MarshalBn_inj in E. injection E as E _.
    change (map ohash ts = map ohash us) in E.
    apply wf_branch_inv in Hw as (_ & L & Hc & _). apply wf_branch_inv in Hw' as (_ & L' & Hc' & _).
    f_equal. apply slot_ext; [done..|]. intros x Hx. pose proof (ohash_slot _ _ x E) as Ex.
    destruct (slot ts x) as [t|] eqn:S, (slot us x) as [u|] eqn:S'; cbn in Ex; [| | |done].
    + apply Compute_inj in Ex. f_equal. eapply IH; eauto.
    + by apply phash_nonempty in Ex.
    + symmetry in Ex. by apply phash_nonempty in Ex.
Qed.

(** ** Growing storages *)

(** Every trie whose root is stored is stored with all its nodes. *)
Definition closed D : Prop := forall b q, wf b q -> is_Ok (db_Get D (phash q)) = true -> Stored D q.

(** What is stored remains stored. *)
Record grows (D D' : DB) : Prop := {
  grows_stored q : Stored D q -> Stored D' q;
  grows_closed : closed D -> closed D';
}.
#[local] Coercion grows_stored : grows >-> Funclass.
#[local] Hint Resolve grows_stored : core.

#[local] Instance grows_preorder : PreOrder grows.
Proof. split; [by constructor|]. intros a b c [H1 C1] [H2 C2]. constructor; auto. Qed.

Lemma phash_inj p q : phash p = phash q -> penc p = penc q.
Proof. apply Compute_inj. Qed.

(** The children of [p] are stored. *)
Definition children_stored (D : DB) (p : ptrie) : Prop :=
  match p with
  | PLeaf _ _ _ => True
  | PExt _ t => Stored D t
  | PBranch ts => forall x t, inrange x -> slot ts x = Some t -> Stored D t
  end.

Lemma Stored_iff D p : Stored D p <-> db_Get D (phash p) = Ok (penc p) /\ children_stored D p.
Proof.
  split.
  - intros []; (split; [done|]); cbn; eauto.
  - intros [E H]. destruct p; by constructor.
Qed.

Lemma put_stored D D' p : db_Get D' (phash p) = Ok (penc p) ->
  (forall k, k <> phash p -> db_Get D' k = db_Get D k) -> forall q, Stored D q -> Stored D' q.
Proof.
  intros Eh Eo q. induction q as [k v ver|k t IH|ts IH] using ptrie_rect';
    intros [Eg Hc]%Stored_iff; apply Stored_iff; (split; [|cbn in *; eauto]).
  all: match goal with |- db_Get _ (phash ?q) = _ =>
    destruct (decide (phash q = phash p)) as [E|N];
      [by rewrite E, Eh, (phash_inj _ _ E)|by rewrite Eo] end.
Qed.

Lemma children_stored_put D D' p : (forall q, Stored D q -> Stored D' q) -> children_stored D p -> children_stored D' p.
Proof. intros G. destruct p; cbn; eauto. Qed.

Lemma children_stored_grows D D' p : grows D D' -> children_stored D p -> children_stored D' p.
Proof. intros G. by apply children_stored_put, G. Qed.

(** Writing a node whose children are stored. *)
Lemma put_grows D D' p b : wf b p -> children_stored D p -> db_Get D' (phash p) = Ok (penc p) ->
  (forall k, k <> phash p -> db_Get D' k = db_Get D k) -> grows D D'.
Proof.
  intros Hw Hc Eh Eo. pose proof (put_stored D D' p Eh Eo) as G. constructor; [done|]. intros C b' q Hq Hs.
  destruct (decide (phash q = phash p)) as [E|N].
  - apply phash_inj, (penc_inj _ _ b' b) in E; [|done..]. subst q. apply Stored_iff. split; [done|].
    by eapply children_stored_put.
  - rewrite Eo in Hs by done. by eapply G, C.
Qed.

Lemma Rep_grows D D' p n : grows D D' -> Rep D p n -> Rep D' p n.
Proof.
  intros G. revert n. assert (B : forall p b, base_ok D p b -> base_ok D' p b).
  { intros q b [H1 H2]. split; [done|]. intros E. destruct (H2 E). eauto. }
  induction p as [k v ver|k t IH|ts IH] using ptrie_rect'; intros n.
  - intros (ln & -> & E & Hb)%Rep_leaf_inv. apply Rep_leaf; eauto.
  - intros (en & -> & ? & ? & ? & Hs & ? & Hb)%Rep_ext_inv. apply Rep_ext; eauto.
    intros E. destruct (Hs E). eauto.
  - intros H. inversion H; subst. apply Rep_branch; eauto.
    intros x t Hx Ht Hc. match goal with H : context [Stored D _] |- _ => destruct (H x t Hx Ht Hc) end.
    eauto.
Qed.

Lemma branch_core_grows D D' ts bn : grows D D' -> branch_core D ts bn -> branch_core D' ts bn.
Proof.
  intros G H. constructor; try apply H.
  - intros. eapply Rep_grows, (bc_loaded _ _ _ H); eauto.
  - intros x t Hx Ht Hc. destruct (bc_collapsed _ _ _ H x t Hx Ht Hc). eauto.
Qed.

(** ** Collapsing *)

Lemma Rep_clean D p n : Rep D p n -> clean n -> hashed p n /\ Stored D p.
Proof.
  intros H C. destruct (proj2 (Rep_base _ _ _ H) C) as [E S]. split; [|done].
  eapply Loose_hashed; [by apply Rep_Loose|done].
Qed.

Lemma clean_hashed D p n : Rep D p n -> clean n -> getHash n <> None.
Proof. intros H C. destruct (Rep_clean _ _ _ H C) as [[E _] _]. by rewrite E. Qed.

Lemma clean_children_hashed D ts bn : branch_core D ts bn -> clean_children bn ->
  kids_hashed (NBranch bn).
Proof.
  intros H Hc x c Hx Ec. destruct (slot ts x) as [t|] eqn:St.
  - eapply clean_hashed; [by eapply (bc_loaded _ _ _ H)|by eapply Hc].
  - destruct (bc_absent _ _ _ H _ Hx St). congruence.
Qed.

Lemma hasValidHash_clean D p n b : wf b p -> Rep D p n -> clean n -> hasValidHash n = Ok true.
Proof.
  intros Hw H C. unfold hasValidHash. rewrite (Rep_nonempty _ _ _ _ Hw H).
  destruct (Rep_clean _ _ _ H C) as [[-> _] _]. by rewrite C.
Qed.

(** The collapsed copy of a hashed branch with clean children. *)
Lemma getCollapsedBn_ok D ts bn : wf false (PBranch ts) -> branch_core D ts bn ->
  clean_children bn -> hash (bn_base bn) = Some (phash (PBranch ts)) ->
  encoded_ok (PBranch ts) (NBranch bn) ->
  exists bn' col, branchNode_getCollapsedBn bn = (bn', Ok col) /\
    branch_core D ts bn' /\ bn_base bn' = bn_base bn /\ bn_children bn' = bn_children bn /\
    encoded_ok (PBranch ts) (NBranch bn') /\
    bn_base col = bn_base bn /\ encoded_ok (PBranch ts) (NBranch col) /\
    length (bn_children col) = nrOfChildren /\
    (forall x, bn_child col x = None) /\ bn_collapsed col = bn_collapsed bn'.
Proof.
  intros Hw H Hcl Eh He. pose proof (branch_nonempty D _ _ (wf_slots_ok _ Hw) H) as E.
  pose proof Hw as (_ & _ & Hc & _)%wf_branch_inv.
  unfold branchNode_getCollapsedBn. se_cbn. rewrite E. cbn [wrap option_fmap option_map].
  destruct (branchNode_isCollapsed bn) eqn:C.
  - exists bn, bn. split_and!; try done; [apply H|]. by apply isCollapsed_children.
  - destruct (fill_loop D ts bn (fun i => bn ← se_get;
        match bn_child bn i with
        | None => mret ()
        | Some child =>
            ok ← se_lift (hasValidHash child);
            _ ← (if (ok : bool) then mret () else bn_on_child i RuntimePanic setHash);
            bn ← se_get;
            se_modify (bn_set_encoded i (hash_bytes (bn_child bn i ≫= getHash)))
        end) H) as (bn' & Ef & H' & Eb & Ec & Hen).
    + intros x Hx t c St Ecx. eapply Rep_clean; [by eapply (bc_loaded _ _ _ H)|by eapply Hcl].
    + intros x b Hx Hb Ecb. assert (Ex : bn_child b x = bn_child bn x) by (unfold bn_child; by rewrite Ecb).
      se_cbn. rewrite Ex. destruct (bn_child bn x) as [c|] eqn:Ecx; [|done].
      destruct (slot ts x) as [t|] eqn:St.
      2: { destruct (bc_absent _ _ _ H _ Hx St) as [? _]. congruence. }
      pose proof (bc_loaded _ _ _ H _ _ _ Hx St Ecx) as Rc.
      rewrite (hasValidHash_clean D t c _ (Hc _ _ Hx St) Rc (Hcl _ _ Hx Ecx)).
      rewrite Ex. unfold mbind, option_bind.
      by destruct (Rep_clean _ _ _ Rc (Hcl _ _ Hx Ecx)) as [[-> _] _].
    + se_cbn. rewrite Ef. eexists _, _. split; [done|]. split_and!; try done.
      intros x. by apply bn_child_empty.
Qed.
(** What collapsing leaves: the receiver and the collapsed copy represent [p]. *)
Definition collapse_ok (D : DB) (p : ptrie) (n n' col : node) : Prop :=
  (Loose D p n' /\ hashed p n' /\ clean_kids n' /\ isDirty n' = isDirty n) /\
  Loose D p col /\ hashed p col /\ clean_kids col /\ isDirty col = isDirty n.

Lemma collapse_branch D ts bn : wf false (PBranch ts) -> branch_loose D ts bn ->
  clean_children bn -> hashed (PBranch ts) (NBranch bn) ->
  exists bn' col, branchNode_getCollapsedBn bn = (bn', Ok col) /\
    collapse_ok D (PBranch ts) (NBranch bn) (NBranch bn') (NBranch col).
Proof.
  intros Hw H Hcl (Eh & He & Hkh).
  destruct (getCollapsedBn_ok D ts bn Hw H Hcl Eh He)
    as (bn' & col & E & H' & Eb & Ec & He' & Ebc & Hec & Lc & Hcc & Ecol).
  assert (L : forall b, branch_core D ts b -> bn_base b = bn_base bn -> encoded_ok (PBranch ts) (NBranch b) ->
    clean_children b -> kids_hashed (NBranch b) ->
    Loose D (PBranch ts) (NBranch b) /\ hashed (PBranch ts) (NBranch b) /\
    clean_kids (NBranch b) /\ isDirty (NBranch b) = isDirty (NBranch bn)).
  { intros b Hb E1 E2 E3 E4. unfold hashed, isDirty, getHash. cbn. rewrite E1. split_and!; try done.
    apply Loose_branch. exists b. split; [done|]. constructor; [done|done|].
    rewrite E1. apply (bl_hash _ _ _ H). }
  exists bn', col. split; [done|]. split; apply L; try done.
  - intros x c. unfold bn_child. rewrite Ec. apply Hcl.
  - intros x c. unfold bn_child. rewrite Ec. apply Hkh.
  - constructor; try (rewrite Ecol; apply H'); [apply H'|done|..].
    + intros x t c _ _. by rewrite Hcc.
    + intros x t Hx Ht _. rewrite Hec, Ht by done. split; [done|].
      destruct (bn_child bn x) as [c|] eqn:Ecx.
      * by apply (Rep_clean D t c); [eapply (bc_loaded _ _ _ H)|eapply Hcl].
      * by apply (bc_collapsed _ _ _ H _ _ Hx Ht Ecx).
    + intros x Hx Ht. by rewrite Hcc, Hec, Ht.
  - intros x c _. by rewrite Hcc.
  - intros x c _. by rewrite Hcc.
Qed.

Lemma collapse_ext D k t en : wf false (PExt k t) -> ext_loose D k t en ->
  clean_kids (NExt en) -> hashed (PExt k t) (NExt en) ->
  exists en' col, extensionNode_getCollapsedEn en = (en', Ok col) /\
    collapse_ok D (PExt k t) (NExt en) (NExt en') (NExt col).
Proof.
  intros Hw H Hcl Hh. assert (HL : Loose D (PExt k t) (NExt en)) by (apply Loose_ext; eauto).
  pose proof (Loose_nonempty _ _ _ _ Hw HL) as E. cbn in E.
  pose proof Hw as (_ & _ & _ & _ & Hw')%wf_ext_inv.
  unfold extensionNode_getCollapsedEn. se_cbn. rewrite E. cbn [wrap option_fmap option_map].
  unfold extensionNode_isCollapsed. destruct (en_child en) as [c|] eqn:Ec.
  - rewrite bool_decide_false by naive_solver.
    pose proof (el_loaded _ _ _ _ H _ Ec) as Rc.
    rewrite (hasValidHash_clean D t c false Hw' Rc (Hcl _ Ec)).
    destruct (Rep_clean D t c Rc (Hcl _ Ec)) as [[Eh _] St].
    rewrite Ec. unfold mbind, option_bind. rewrite Eh.
    eexists _, _. split; [done|]. split; [by split_and!|]. destruct Hh as [Hh He].
    split_and!; [|done..]. apply Loose_ext. eexists. split; [done|]. destruct H. by constructor.
  - destruct (el_collapsed _ _ _ _ H Ec) as [Een St].
    rewrite bool_decide_true by (split; [done|]; rewrite Een; apply phash_nonempty).
    eexists _, _. split; [done|]. by split; split_and!.
Qed.

Lemma getCollapsed_ok D p n b : wf b p -> Loose D p n -> clean_kids n -> hashed p n ->
  exists n' col, getCollapsed n = (n', Ok col) /\ collapse_ok D p n n' col.
Proof.
  intros Hw H Hcl Hh. destruct p as [k v ver|k t|ts].
  - assert (exists ln, n = NLeaf ln) as [ln ->].
    { apply Rep_leaf_inv in H as (? & ? & _). destruct n; try done. eauto. }
    exists (NLeaf ln), (NLeaf ln). split; [done|]. by split; split_and!.
  - apply Loose_ext in H as (en & -> & H). pose proof Hw as (-> & _)%wf_ext_inv.
    destruct (collapse_ext D k t en Hw H Hcl Hh) as (en' & col & E & Hc).
    exists (NExt en'), (NExt col). split; [|done].
    unfold getCollapsed, dispatch, se_on. se_cbn. by rewrite E.
  - apply Loose_branch in H as (bn & -> & H). pose proof Hw as (-> & _)%wf_branch_inv.
    destruct (collapse_branch D ts bn Hw H Hcl Hh) as (bn' & col & E & Hc).
    exists (NBranch bn'), (NBranch col). split; [|done].
    unfold getCollapsed, dispatch, se_on. se_cbn. by rewrite E.
Qed.

(** ** Writing one node *)

Lemma computeAndSetNodeHash_ok D p n b : wf b p -> Loose D p n -> clean_kids n ->
  exists n', computeAndSetNodeHash n = (n', Ok (phash p)) /\ Loose D p n' /\ hashed p n' /\
    clean_kids n' /\ isDirty n' = isDirty n.
Proof.
  intros Hw H Hk. unfold computeAndSetNodeHash. se_cbn.
  destruct (getHash n) as [h|] eqn:E.
  - pose proof (Loose_hashed _ _ _ _ H E) as [Eh He]. rewrite E in Eh. simplify_eq. cbn [hash_bytes default].
    rewrite bool_decide_false by apply phash_nonempty. cbn [negb].
    exists n. by split_and!.
  - rewrite bool_decide_true by done. cbn [negb].
    destruct (setHash_spec D p b n Hw H) as (n' & -> & H' & Hh & Hd & Hk'). 
    destruct Hh as [Eh He]. rewrite Eh. exists n'. by split_and!; auto.
Qed.

Lemma children_stored_clean D p n : Loose D p n -> clean_kids n -> children_stored D p.
Proof.
  intros H Hk. destruct p as [k v ver|k t|ts]; cbn; [done| |].
  - apply Loose_ext in H as (en & -> & H). destruct (en_child en) as [c|] eqn:Ec.
    + eapply Rep_clean; [by eapply (el_loaded _ _ _ _ H)|by apply Hk].
    + by apply (el_collapsed _ _ _ _ H).
  - apply Loose_branch in H as (bn & -> & H). intros x t Hx Ht.
    destruct (bn_child bn x) as [c|] eqn:Ec.
    + by apply (Rep_clean D t c); [eapply (bc_loaded _ _ _ H)|eapply Hk].
    + by apply (bc_collapsed _ _ _ H _ _ Hx Ht Ec).
Qed.

Lemma Loose_grows D D' p n : grows D D' -> Loose D p n -> Loose D' p n.
Proof. apply Rep_grows. Qed.

Lemma encodeNodeAndCommitToDB_ok D p n b : wf b p -> Loose D p n -> clean_kids n ->
  exists n' D' sz, encodeNodeAndCommitToDB (n, D) = ((n', D'), Ok sz) /\
    Loose D' p n' /\ hashed p n' /\ clean_kids n' /\ isDirty n' = isDirty n /\
    Stored D' p /\ grows D D'.
Proof.
  intros Hw H Hk. destruct (computeAndSetNodeHash_ok D p n b Hw H Hk) as (n1 & E1 & H1 & Hh1 & Hk1 & Hd1).
  destruct (getCollapsed_ok D p n1 b Hw H1 Hk1 Hh1) as (n2 & col & E2 & (H2 & Hh2 & Hk2 & Hd2) & (Hc & Hhc & _)).
  destruct (Put_ok D (phash p) (penc p)) as (D' & Ep & Eg & Eo).
  assert (G : grows D D') by (apply (put_grows D D' p b Hw); [by apply (children_stored_clean D p n)|done..]).
  unfold encodeNodeAndCommitToDB, on_node, on_db, collapseAndEncodeNode, Put. se_cbn. cbn [fst snd].
  rewrite E1. cbn [fst snd]. rewrite E2, (getEncodedNode_ok D p col b Hw Hc) by apply Hhc. cbn [fst snd].
  rewrite Ep. eexists _, _, _. split; [done|]. split_and!; try done.
  - by apply (Loose_grows D).
  - congruence.
  - apply Stored_iff. split; [done|]. apply (children_stored_grows D); [done|].
    by apply (children_stored_clean D p n).
Qed.

(** ** Committing *)

Definition commit_ok (D : DB) (p : ptrie) (out : (node * DB) * result trie_error unit) : Prop :=
  exists n' D', out = ((n', D'), Ok ()) /\ Rep D' p n' /\ clean n' /\ grows D D'.

(** Writing a node that is marked clean already makes it so. *)
Lemma commit_self D p n b : wf b p -> Loose D p n -> clean_kids n -> clean n ->
  exists n' D' sz, encodeNodeAndCommitToDB (n, D) = ((n', D'), Ok sz) /\
    Rep D' p n' /\ clean n' /\ clean_kids n' /\ grows D D'.
Proof.
  intros Hw H Hk C.
  destruct (encodeNodeAndCommitToDB_ok D p n b Hw H Hk)
    as (n' & D' & sz & E & H' & Hh & Hk' & Hd & St & G).
  exists n', D', sz. split_and!; try done.
  - apply Loose_Rep; [done|]. intros _. split; [apply Hh|done].
  - unfold clean in *. congruence.
Qed.

Lemma collapse_Rep D p n n' col : collapse_ok D p n n' col -> Rep D p n -> clean n ->
  Rep D p col /\ clean col.
Proof.
  intros (_ & Hc & Hh & _ & Hd) H C. split; [|unfold clean in *; congruence].
  apply Loose_Rep; [done|]. intros _. split; [apply Hh|]. by eapply Rep_clean.
Qed.

Lemma commit_clean D p n : Rep D p n -> clean n -> commit_ok D p ((n, D), Ok ()).
Proof. intros. exists n, D. split_and!; try done. Qed.

Lemma commit_leaf D k v ver fuel m l n b : wf b (PLeaf k v ver) -> Rep D (PLeaf k v ver) n ->
  commit_ok D (PLeaf k v ver) (node_commitDirty (S fuel) m l (n, D)).
Proof.
  intros Hw H. pose proof (Rep_nonempty _ _ _ _ Hw H) as E.
  pose proof H as (ln & -> & El & Hb)%Rep_leaf_inv. cbn in E. cbn [node_commitDirty].
  unfold leafNode_commitDirty. se_cbn. rewrite E. cbn [wrap option_fmap option_map].
  destruct (dirty (ln_base ln)) eqn:Ed; cbn [negb].
  2: { by apply commit_clean. }
  unfold on_node. se_cbn. cbn [fst snd].
  set (ln1 := ln_set_base {| hash := hash (ln_base ln); dirty := false |} ln).
  assert (H1 : Loose D (PLeaf k v ver) (NLeaf ln1)).
  { apply Rep_leaf; [done|]. apply base_ok_loose. apply Hb. }
  destruct (commit_self D _ (NLeaf ln1) b Hw H1) as (n' & D' & sz & Ec & H' & C' & _ & G); [done..|].
  unfold as_node. cbn [fst snd]. rewrite Ec.
  pose proof H' as (ln' & -> & _)%Rep_leaf_inv. eexists _, _. by split_and!.
Qed.

Lemma ext_loose_base D k t en d : ext_loose D k t en ->
  ext_loose D k t (en_set_base {| hash := hash (en_base en); dirty := d |} en).
Proof. intros []. by constructor. Qed.

Lemma commit_ext D k t fuel m l n : wf false (PExt k t) -> Rep D (PExt k t) n ->
  (forall c l', Rep D t c -> (height c < height n)%nat ->
     commit_ok D t (node_commitDirty fuel m l' (c, D))) ->
  commit_ok D (PExt k t) (node_commitDirty (S fuel) m l (n, D)).
Proof.
  intros Hw H IH. pose proof (Rep_nonempty _ _ _ _ Hw H) as E.
  pose proof (Rep_Loose _ _ _ H) as (en & -> & He)%Loose_ext. cbn in E. cbn [node_commitDirty].
  unfold extensionNode_commitDirty. se_cbn. rewrite E. cbn [wrap option_fmap option_map].
  destruct (dirty (en_base en)) eqn:Ed; cbn [negb].
  2: { by apply commit_clean. }
  set (en1 := fun c => match c with None => en | Some c => en_set_child (Some c) en end).
  assert (exists o D1, on_committed_child en_child (fun c => en_set_child (Some c))
      (node_commitDirty fuel m (u8 (l + 1))) (en, D) = ((en1 o, D1), Ok ()) /\
    ext_loose D1 k t (en1 o) /\ clean_kids (NExt (en1 o)) /\ grows D D1) as (o & D1 & Eo & H1 & Hk & G).
  { unfold on_committed_child. destruct (en_child en) as [c|] eqn:Ec.
    - pose proof (el_loaded _ _ _ _ He _ Ec) as Rc.
      destruct (IH c (u8 (l + 1)) Rc (height_ext _ _ Ec)) as (c' & D1 & -> & Rc' & Cc & G).
      exists (Some c'), D1. split_and!; [done| | |done].
      + destruct He as [? ? ? ? Heh ?]. constructor; try done; [by intros d [= <-]|].
        intros N. destruct (Heh N) as [? _]. split; [done|]. intros d [= <-].
        by eapply clean_hashed.
      + by intros d [= <-].
    - exists None, D. split_and!; [done..| |done]. intros d. cbn. by rewrite Ec. }
  rewrite Eo. unfold on_node. se_cbn. cbn [fst snd].
  set (en2 := en_set_base {| hash := hash (en_base (en1 o)); dirty := false |} (en1 o)).
  assert (H2 : Loose D1 (PExt k t) (NExt en2)).
  { apply Loose_ext. exists en2. split; [done|]. by apply ext_loose_base. }
  destruct (commit_self D1 _ (NExt en2) false Hw H2) as (n' & D' & sz & Ec & H' & C' & Hk' & G');
    [by destruct o|done|].
  unfold as_node. cbn [fst snd]. rewrite Ec.
  pose proof (Rep_Loose _ _ _ H') as (en' & -> & He')%Loose_ext.
  destruct (u8 (l + 1) =? m).
  - cbn [fst snd]. destruct (collapse_ext D' k t en' Hw He' Hk') as (en3 & col & Ecol & Hc).
    { by eapply Rep_clean. }
    rewrite Ecol. destruct (collapse_Rep _ _ _ _ _ Hc H' C').
    eexists _, _. split_and!; [done..|]. by trans D1.
  - eexists _, _. split_and!; [done..|]. by trans D1.
Qed.

Lemma branch_loose_base D ts bn d : branch_loose D ts bn ->
  branch_loose D ts (bn_set_base {| hash := hash (bn_base bn); dirty := d |} bn).
Proof. intros [[] ? ?]. by constructor; [constructor|..]. Qed.

Lemma commit_children D ts bn (sub : SE (node * DB) trie_error unit) :
  branch_core D ts bn ->
  (forall x t c Dx, inrange x -> slot ts x = Some t -> bn_child bn x = Some c ->
     Rep Dx t c -> commit_ok Dx t (sub (c, Dx))) ->
  exists bn' D', se_for positions (fun i =>
      on_committed_child (fun bn => bn_child bn i) (fun c => bn_set_child i (Some c)) sub)
      (bn, D) = ((bn', D'), Ok ()) /\
    branch_core D' ts bn' /\ bn_base bn' = bn_base bn /\ bn_collapsed bn' = bn_collapsed bn /\
    clean_children bn' /\ grows D D'.
Proof.
  intros H Hsub.
  destruct (se_for_ind (fun dn s => branch_core (snd s) ts (fst s) /\ bn_base (fst s) = bn_base bn /\
      bn_collapsed (fst s) = bn_collapsed bn /\ grows D (snd s) /\
      (forall x c, x ∈ dn -> bn_child (fst s) x = Some c -> clean c) /\
      (forall x, inrange x -> x ∉ dn -> bn_child (fst s) x = bn_child bn x))
    (fun i => on_committed_child (fun bn => bn_child bn i) (fun c => bn_set_child i (Some c)) sub)
    positions (bn, D)) as ([bn' D'] & E & H' & Eb & Ec & G & Hd & _).
  - cbn. split_and!; try done. intros x c Hx. by apply not_elem_of_nil in Hx.
  - intros dn i rest [s Ds] Ep (Hs & Eb & Ec & G & Hd & Hr). cbn in Hs, Eb, Ec, G, Hd, Hr.
    destruct (positions_split _ _ _ Ep) as (Hi & Ni & Hdn).
    unfold on_committed_child. pose proof (Hr i Hi Ni) as Ei.
    destruct (bn_child s i) as [c|] eqn:Es.
    + symmetry in Ei. destruct (slot ts i) as [t|] eqn:St.
      2: { destruct (bc_absent _ _ _ H _ Hi St) as [? _]. congruence. }
      destruct (Hsub i t c Ds Hi St Ei (bc_loaded _ _ _ Hs _ _ _ Hi St Es)) as (c' & D1 & -> & Rc & Cc & G1).
      eexists. split; [done|]. cbn [fst snd].
      pose proof (branch_core_grows _ _ _ _ G1 Hs) as Hs1.
      split_and!; [by eapply branch_core_set_child|done|done|by trans Ds|..].
      * intros x d [Hx| ->%list_elem_of_singleton]%elem_of_app;
          rewrite bn_child_set by (auto; apply Hs); case_decide; naive_solver.
      * intros x Hx [Nx Nx']%not_elem_of_app. rewrite list_elem_of_singleton in Nx'.
        rewrite bn_child_set, decide_False by (auto; try apply Hs; congruence). by apply Hr.
    + exists (s, Ds). split; [done|]. cbn. split_and!; try done.
      * intros x d [Hx| ->%list_elem_of_singleton]%elem_of_app; [eauto|]. by rewrite Es.
      * intros x Hx [Nx _]%not_elem_of_app. by apply Hr.
  - exists bn', D'. split_and!; try done. intros x c Hx. by apply Hd, positions_inrange.
Qed.

Lemma commit_branch D ts fuel m l n : wf false (PBranch ts) -> Rep D (PBranch ts) n ->
  (forall x t c l' Dx, inrange x -> slot ts x = Some t -> Rep Dx t c -> (height c < height n)%nat ->
     commit_ok Dx t (node_commitDirty fuel m l' (c, Dx))) ->
  commit_ok D (PBranch ts) (node_commitDirty (S fuel) m l (n, D)).
Proof.
  intros Hw H IH. pose proof (Rep_nonempty _ _ _ _ Hw H) as E.
  pose proof (Rep_Loose _ _ _ H) as (bn & -> & Hb)%Loose_branch. cbn in E. cbn [node_commitDirty].
  unfold branchNode_commitDirty. se_cbn. rewrite E. cbn [wrap option_fmap option_map].
  destruct (dirty (bn_base bn)) eqn:Ed; cbn [negb].
  2: { by apply commit_clean. }
  destruct (commit_children D ts bn (node_commitDirty fuel m (u8 (l + 1))) Hb)
    as (bn1 & D1 & Eo & H1 & Eb & Ec & Hk & G).
  { intros x t c Dx Hx St Ecx Rc. eapply IH; eauto. by eapply height_branch. }
  rewrite Eo. unfold on_node. se_cbn. cbn [fst snd].
  set (bn2 := bn_set_base {| hash := hash (bn_base bn1); dirty := false |} bn1).
  assert (H2 : Loose D1 (PBranch ts) (NBranch bn2)).
  { apply Loose_branch. exists bn2. split; [done|]. apply branch_loose_base.
    constructor; [done|..]; rewrite Eb; [|apply Hb].
    intros N. split; [|by eapply clean_children_hashed].
    intros x Hx. unfold bn_encoded. rewrite Ec. by apply (bl_hashed _ _ _ Hb). }
  destruct (commit_self D1 _ (NBranch bn2) false Hw H2) as (n' & D' & sz & Ece & H' & C' & Hk' & G');
    [done..|].
  unfold as_node. cbn [fst snd]. rewrite Ece.
  pose proof (Rep_Loose _ _ _ H') as (bn' & -> & Hb')%Loose_branch.
  destruct (u8 (l + 1) =? m).
  - cbn [fst snd]. destruct (collapse_branch D' ts bn' Hw Hb' Hk') as (bn3 & col & Ecol & Hc).
    { by eapply Rep_clean. }
    rewrite Ecol. destruct (collapse_Rep _ _ _ _ _ Hc H' C').
    eexists _, _. split_and!; [done..|]. by trans D1.
  - eexists _, _. split_and!; [done..|]. by trans D1.
Qed.

Lemma node_commitDirty_spec p D fuel m l n b : wf b p -> Rep D p n -> (height n <= fuel)%nat ->
  commit_ok D p (node_commitDirty fuel m l (n, D)).
Proof.
  revert D fuel l n b.
  induction p as [k v ver|k t IH|ts IH] using ptrie_rect'; intros D [|fuel] l n b Hw H Hf;
    try (destruct n; cbn in Hf; lia).
  - by eapply commit_leaf.
  - pose proof Hw as (-> & _ & _ & _ & Hw')%wf_ext_inv.
    apply commit_ext; try done. intros c l' Hc L. eapply IH; [done..|lia].
  - pose proof Hw as (-> & _ & Hc & _)%wf_branch_inv.
    apply commit_branch; try done.
    intros x t c l' Dx Hx St Rc L. eapply IH; [done|by apply Hc|done|lia].
Qed.

Lemma commitDirty_spec p D m l n b : wf b p -> Rep D p n -> commit_ok D p (commitDirty l m (n, D)).
Proof. intros. by eapply node_commitDirty_spec. Qed.

End Commit.
