(* ===== verification/PatriciaTrie.v ===== *)
(** * The patricia merkle trie

    Models trie/patriciaMerkleTrie.go over the nodes of TrieNode: lookup,
    update, deletion, root hash, commit, recreation from a root hash, and Merkle
    proofs.  A method is a function of the trie, and of the storage that the
    trie points to, that returns both as the call leaves them.  The lock
    [mutOperation] makes each method atomic, so it is left out; logging is left
    out; marshalizer and hasher are those of [TrieExternals]. *)

From stdpp Require Import base list strings.
From Stdlib Require Import ZArith Lia.
From S2P Require Import Prelude KeyBuilder TrieNode.

Definition rootDepthLevel : Z := 0.

(** common.EmptyTrieHash and common.IsEmptyTrie (common/trie.go) *)
Definition EmptyTrieHash : bytes := replicate 32 0.

Definition IsEmptyTrie (root : bytes) : bool :=
  if (length root =? 0)%nat then true
  else if bool_decide (root = EmptyTrieHash) then true
  else false.

Record patriciaMerkleTrie := {
  root : option node;
  oldHashes : list (option bytes);
  oldRoot : bytes;
  maxTrieLevelInMemory : Z;
}.

Definition set_root (r : option node) (tr : patriciaMerkleTrie) : patriciaMerkleTrie :=
  {| root := r; oldHashes := oldHashes tr; oldRoot := oldRoot tr;
     maxTrieLevelInMemory := maxTrieLevelInMemory tr |}.
Definition set_oldHashes (l : list (option bytes)) (tr : patriciaMerkleTrie) : patriciaMerkleTrie :=
  {| root := root tr; oldHashes := l; oldRoot := oldRoot tr;
     maxTrieLevelInMemory := maxTrieLevelInMemory tr |}.
Definition set_oldRoot (h : bytes) (tr : patriciaMerkleTrie) : patriciaMerkleTrie :=
  {| root := root tr; oldHashes := oldHashes tr; oldRoot := h;
     maxTrieLevelInMemory := maxTrieLevelInMemory tr |}.

(** The collaborators of a trie are arguments of the model, so that only the
    level is left to refuse. *)
Definition NewTrie (maxTrieLevelInMemory : Z) : result trie_error patriciaMerkleTrie :=
  if maxTrieLevelInMemory =? 0 then Err ErrInvalidLevelValue
  else Ok {| root := None; oldHashes := []; oldRoot := [];
             maxTrieLevelInMemory := maxTrieLevelInMemory |}.

Section PatriciaTrie.
Context {X : TrieExternals} {DB : Type} {ST : TrieStorage DB}.

Abbreviation M S A := (SE S trie_error A).

(** A call on the root, which the trie points to. *)
Definition on_root {E A} (nilDeref : E) (m : SE node E A) : SE patriciaMerkleTrie E A := fun tr =>
  match root tr with
  | None => (tr, Err nilDeref)
  | Some n => match m n with (n', r) => (set_root (Some n') tr, r) end
  end.

(** ** Lookup *)

(** (value, depth, version); an error keeps the depth. *)
Definition GetWithVersion (db : DB) (key : bytes) : SE patriciaMerkleTrie get_error get_result :=
  tr ← se_get;
  match root tr with
  | None => mret (None, 0, 0)
  | Some _ =>
      let hexKey := keyBytesToHex key in
      se_mapErr (fun '(depth, err) => (depth, ErrWrap "trie get error" err))
        (on_root (rootDepthLevel, RuntimePanic)
           (node_tryGetWithVersion (S (length hexKey)) db hexKey rootDepthLevel))
  end.

Definition Get (db : DB) (key : bytes) : SE patriciaMerkleTrie get_error (option bytes * Z) :=
  '(value, depth, _) ← GetWithVersion db key;
  mret (value, depth).

(** ** Update *)

(** [if !tr.root.isDirty() { tr.oldRoot = tr.root.getHash() }] *)
Definition save_oldRoot (r : node) : M patriciaMerkleTrie unit :=
  if negb (isDirty r) then se_modify (set_oldRoot (hash_bytes (getHash r))) else mret ().

Definition delete (db : DB) (hexKey : bytes) : M patriciaMerkleTrie unit :=
  tr ← se_get;
  match root tr with
  | None => mret ()
  | Some r =>
      _ ← save_oldRoot r;
      '(_, newRoot, hashes) ← on_root RuntimePanic (node_delete (S (length hexKey)) db hexKey);
      _ ← se_modify (set_root newRoot);
      se_modify (fun tr => set_oldHashes (oldHashes tr ++ hashes) tr)
  end.

Definition update (db : DB) (key value : bytes) (version : Z) : M patriciaMerkleTrie unit :=
  let hexKey := keyBytesToHex key in
  if negb (length value =? 0)%nat then
    let newData := {| td_Key := hexKey; td_Value := Some value; td_Version := version |} in
    tr ← se_get;
    match root tr with
    | None => se_modify (set_root (Some (NLeaf (newLeafNode newData))))
    | Some r =>
        _ ← save_oldRoot r;
        '(newRoot, hashes) ← on_root RuntimePanic (node_insert (S (length hexKey)) db newData);
        match newRoot with
        | None => mret ()
        | Some _ =>
            _ ← se_modify (set_root newRoot);
            se_modify (fun tr => set_oldHashes (oldHashes tr ++ hashes) tr)
        end
    end
  else delete db hexKey.

Definition Update (db : DB) (key value : bytes) : M patriciaMerkleTrie unit :=
  update db key value NotSpecified.

Definition UpdateWithVersion (db : DB) (key value : bytes) (version : Z) : M patriciaMerkleTrie unit :=
  update db key value version.

Definition Delete (db : DB) (key : bytes) : M patriciaMerkleTrie unit :=
  let hexKey := keyBytesToHex key in
  delete db hexKey.

(** ** Root hash and commit *)

Definition getRootHash : M patriciaMerkleTrie bytes :=
  tr ← se_get;
  match root tr with
  | None => mret EmptyTrieHash
  | Some r =>
      match getHash r with
      | Some hash => mret hash
      | None =>
          _ ← on_root RuntimePanic setRootHash;
          tr ← se_get;
          mret (hash_bytes (root tr ≫= getHash))
      end
  end.

Definition RootHash : M patriciaMerkleTrie bytes := getRootHash.

Definition commit_root (maxLevel : Z) : M (patriciaMerkleTrie * DB) unit := fun '(tr, db) =>
  match root tr with
  | None => ((tr, db), Err RuntimePanic)
  | Some n =>
      match commitDirty 0 maxLevel (n, db) with
      | ((n', db'), r) => ((set_root (Some n') tr, db'), r)
      end
  end.

Definition Commit : M (patriciaMerkleTrie * DB) unit :=
  '(tr, _) ← se_get;
  match root tr with
  | None => mret ()
  | Some r =>
      if negb (isDirty r) then mret ()
      else
        _ ← se_zoom fst (fun tr s => (tr, snd s)) (on_root RuntimePanic setRootHash);
        _ ← se_modify (fun '(tr, db) => (set_oldHashes [] (set_oldRoot [] tr), db));
        commit_root (maxTrieLevelInMemory tr)
  end.

(** ** Recreation *)

Definition recreateFromDb (rootHash : bytes) (tsm : DB) (tr : patriciaMerkleTrie)
    : result trie_error patriciaMerkleTrie :=
  newTr ← NewTrie (maxTrieLevelInMemory tr);
  newRoot ← getNodeFromDBAndDecode rootHash tsm;
  Ok (set_root (Some (setGivenHash (Some rootHash) newRoot)) newTr).

Definition recreate (root : bytes) (tsm : DB) (tr : patriciaMerkleTrie)
    : result trie_error patriciaMerkleTrie :=
  if IsEmptyTrie root then NewTrie (maxTrieLevelInMemory tr)
  else recreateFromDb root tsm tr.

Definition GetObsoleteHashes (tr : patriciaMerkleTrie) : list (option bytes) := oldHashes tr.
Definition GetOldRoot (tr : patriciaMerkleTrie) : bytes := oldRoot tr.
Definition GetSerializedNode (db : DB) (hash : bytes) : result trie_error bytes := db_Get db hash.

(** ** Merkle proofs *)

(** A call on the child that [getNext] moves to, in place. *)
Definition on_next_child {A} (hexKey : bytes) (m : M node A) : M node A :=
  dispatch
    (se_lift (Err RuntimePanic))
    (en_on_child RuntimePanic m)
    (match hexKey with
     | [] => se_lift (Err RuntimePanic)
     | pos :: _ => bn_on_child pos RuntimePanic m
     end).

(** The loop of [GetProof]: from the current node down. *)
Fixpoint node_getProof (fuel : nat) (db : DB) (hexKey : bytes) : M node (list bytes * option bytes) :=
  match fuel with
  | O => se_lift (Err OutOfFuel)
  | S fuel =>
      currentNode ← se_get;
      encodedNode ← se_lift (getEncodedNode currentNode);
      '(next, hexKey') ← getNext hexKey db;
      match next with
      | None => mret ([encodedNode], getValue currentNode)
      | Some _ =>
          '(proof, value) ← on_next_child hexKey (node_getProof fuel db hexKey');
          mret (encodedNode :: proof, value)
      end
  end.

Definition GetProof (db : DB) (key : bytes) : M patriciaMerkleTrie (list bytes * option bytes) :=
  tr ← se_get;
  match root tr with
  | None => se_lift (Err ErrNilNode)
  | Some _ =>
      let hexKey := keyBytesToHex key in
      _ ← on_root RuntimePanic setRootHash;
      on_root RuntimePanic (node_getProof (S (length hexKey)) db hexKey)
  end.

(** The loop of [verifyProof]; an element of [proof] is nil or a node. *)
Fixpoint verifyProof_loop (proof : list (option bytes)) (wantHash key : bytes)
    : result trie_error bool :=
  match proof with
  | [] => Ok false
  | None :: _ => Ok false
  | Some encodedNode :: proof =>
      let hash := Compute encodedNode in
      if negb (bool_decide (wantHash = hash)) then Ok false
      else
        n ← decodeNode encodedNode;
        let '(proofVerified, wantHash, key) := getNextHashAndKey key n in
        if (proofVerified : bool) then Ok true else verifyProof_loop proof wantHash key
  end.

Definition verifyProof (rootHash key : bytes) (proof : list (option bytes)) : result trie_error bool :=
  verifyProof_loop proof rootHash (keyBytesToHex key).

Definition VerifyProof (rootHash key : bytes) (proof : list (option bytes)) : result trie_error bool :=
  ok ← verifyProof rootHash (Compute key) proof;
  if (ok : bool) then Ok true else verifyProof rootHash key proof.

(** ** Versions *)

(** core.TrieNodeVersionVerifier and core.AutoBalanceEnabled are code of
    another repository. *)
Definition checkIfMigrationPossible (IsValidVersion : Z -> bool) (AutoBalanceEnabled : Z)
    (NewVersion OldVersion : Z) : result trie_error unit :=
  if negb (IsValidVersion NewVersion) then Err (ErrWrap "newVersion" ErrInvalidTrieNodeVersion)
  else if negb (IsValidVersion OldVersion) then Err (ErrWrap "oldVersion" ErrInvalidTrieNodeVersion)
  else if (NewVersion =? NotSpecified) && (OldVersion =? AutoBalanceEnabled)
  then Err (ErrWrap "cannot migrate" ErrInvalidTrieNodeVersion)
  else Ok ().

(** [versionForNewlyAddedData] is core.GetVersionForNewData's result. *)
Definition IsMigratedToLatestVersion (versionForNewlyAddedData : Z) (tr : patriciaMerkleTrie)
    : result trie_error bool :=
  match root tr with
  | None => Ok true
  | Some r =>
      version ← getVersion r;
      Ok (version =? versionForNewlyAddedData)
  end.

End PatriciaTrie.
