(* ===== verification/TrieProof.v ===== *)
(** * Merkle proofs

    [node_getProof_spec]: the walk of [GetProof] finds exactly the keys that
    the trie holds, and what it collects is accepted by the loop of
    [verifyProof] from the hash of the trie.  [verifyProof_loop_sound]: from
    that hash the loop accepts nothing for other keys. *)

From stdpp Require Import base list.
From Stdlib Require Import ZArith Lia.
From S2P Require Import Prelude KeyBuilder TrieNode TrieSpec TrieRefinement TrieUpdate TrieHash.
From S2P Require Import TrieCommit PatriciaTrie.

Section Proof.
Context {X : TrieExternals} {XOk : TrieExternalsOk X}.
Context {DB : Type} {ST : TrieStorage DB}.
Implicit Types (D : DB) (p t : ptrie) (n : node).

(** ** Decoding what a trie is encoded to *)

Definition decoded (p : ptrie) : node :=
  match p with
  | PLeaf k v ver =>
      NLeaf {| ln_collapsed := {| ln_Key := k; ln_Value := Some v; ln_Version := ver |};
               ln_base := emptyBase |}
  | PExt k t =>
      NExt {| en_collapsed := {| en_Key := k; EncodedChild := phash t; ChildVersion := pver t |};
              en_child := None; en_base := emptyBase |}
  | PBranch ts =>
      NBranch {| bn_collapsed := {| EncodedChildren := map ohash ts; ChildrenVersion := cvers ts |};
                 bn_children := replicate nrOfChildren None; bn_base := emptyBase |}
  end.

Lemma decodeNode_penc b p : wf b p -> decodeNode (penc p) = Ok (decoded p).
Proof.
  intros Hw. destruct p as [k v ver|k t|ts]; cbn [penc]; rewrite decodeNode_app; cbn.
  - apply wf_leaf_inv in Hw as [_ [Hv _]].
    destruct (MarshalLn_ok {| ln_Key := k; ln_Value := Some v; ln_Version := ver |} v)
      as (c & -> & U); [done..|]. cbn. by rewrite U.
  - destruct (MarshalEn_ok {| en_Key := k; EncodedChild := Compute (penc t);
      ChildVersion := pver t |}) as (c & -> & U). cbn. by rewrite U.
  - apply wf_branch_inv in Hw as (_ & L & _).
    destruct (MarshalBn_ok {| EncodedChildren := map ohash ts; ChildrenVersion := cvers ts |})
      as (c & E & U). change (map (fun o => _) ts) with (map ohash ts). rewrite E. cbn. rewrite U. cbn.
    rewrite length_map, L. cbn.
    by destruct (cvers_length ts L) as [->| ->].
Qed.

Lemma getNext_leaf k v ver key : getNextHashAndKey key (decoded (PLeaf k v ver)) =
  (bool_decide (key = k), [], []).
Proof. cbn. unfold leafNode_getNextHashAndKey. cbn. by case_bool_decide. Qed.

Lemma getNext_ext k t r : k <> [] ->
  getNextHashAndKey (k ++ r) (decoded (PExt k t)) = (false, phash t, r).
Proof.
  intros N. cbn [getNextHashAndKey decoded]. unfold extensionNode_getNextHashAndKey.
  cbn [en_Key en_collapsed EncodedChild].
  rewrite bool_decide_false by (by destruct k).
  rewrite (bool_decide_true (k `prefix_of` k ++ r)) by by apply prefix_app_r.
  rewrite (proj2 (Nat.ltb_ge _ _)) by (rewrite length_app; lia). cbn [orb negb].
  by rewrite drop_app_length.
Qed.

Lemma getNext_ext_other k t key : ~ k `prefix_of` key ->
  getNextHashAndKey key (decoded (PExt k t)) = (false, [], []).
Proof.
  intros N. cbn [getNextHashAndKey decoded]. unfold extensionNode_getNextHashAndKey.
  cbn [en_Key en_collapsed EncodedChild].
  rewrite (bool_decide_false (k `prefix_of` key)) by done. rewrite orb_true_r.
  by case_bool_decide.
Qed.

Lemma getNext_branch ts x key :
  getNextHashAndKey (x :: key) (decoded (PBranch ts)) = (false, ohash (slot ts x), key).
Proof.
  cbn [getNextHashAndKey decoded branchNode_getNextHashAndKey].
  by rewrite (bn_encoded_ohash _ ts).
Qed.

(** One step of the verification over the encoding of a trie. *)
Lemma verify_step b p proof key : wf b p ->
  verifyProof_loop (Some (penc p) :: proof) (phash p) key =
  (let '(ok, wantHash, key) := getNextHashAndKey key (decoded p) in
   if (ok : bool) then Ok true else verifyProof_loop proof wantHash key).
Proof.
  intros Hw. cbn [verifyProof_loop]. rewrite bool_decide_true by done. cbn [negb].
  by rewrite (decodeNode_penc b p Hw).
Qed.

(** A list of encoded tries never makes the verification fail. *)
Definition encodings (proof : list bytes) : Prop :=
  Forall (fun e => exists b p, wf b p /\ e = penc p) proof.

Lemma verify_no_error proof h key : encodings proof ->
  exists ok, verifyProof_loop (map Some proof) h key = Ok ok.
Proof.
  intros H. revert h key. induction H as [|e proof (b & p & Hw & ->) _ IH]; intros h key.
  - by exists false.
  - cbn [map verifyProof_loop]. destruct (negb _); [by exists false|].
    rewrite (decodeNode_penc b p Hw). cbn.
    destruct (getNextHashAndKey key (decoded p)) as [[[] h'] key']; eauto.
Qed.

Lemma verify_nil_hash proof key : verifyProof_loop proof [] key <> Ok true.
Proof.
  destruct proof as [|[e|] proof]; cbn [verifyProof_loop]; [done| |done].
  rewrite bool_decide_false; [done|]. intros E. by apply (Compute_nonempty e).
Qed.

(** ** Soundness *)

Lemma verify_head {CF : CollisionFree X} b p proof key : wf b p ->
  verifyProof_loop proof (phash p) key = Ok true ->
  exists proof', (let '(ok, wantHash, key) := getNextHashAndKey key (decoded p) in
    if (ok : bool) then Ok true else verifyProof_loop proof' wantHash key) = Ok true.
Proof.
  intros Hw. destruct proof as [|[e|] proof]; [done| |done].
  destruct (decide (e = penc p)) as [->|N].
  - rewrite (verify_step b p proof key Hw). eauto.
  - cbn [verifyProof_loop]. rewrite bool_decide_false; [done|].
    intros E. apply N. symmetry. by apply Compute_inj.
Qed.

Lemma verifyProof_loop_sound {CF : CollisionFree X} p b proof key :
  wf b p -> keyok b key -> verifyProof_loop proof (phash p) key = Ok true ->
  is_Some (plookup p key).
Proof.
  revert b proof key. induction p as [k v ver|k t IH|ts IH] using ptrie_rect'; intros b proof key Hw Hk;
    intros (proof' & V)%(verify_head b _ proof key Hw); revert V.
  - rewrite getNext_leaf. cbn. case_bool_decide; [by eauto|]. by intros ?%verify_nil_hash.
  - apply wf_ext_inv in Hw as (-> & Hne & Hkn & _ & Hw).
    destruct (decide (k `prefix_of` key)) as [P|NP].
    + destruct (ext_key_rest _ _ Hkn Hk P) as (r & -> & Hr).
      rewrite getNext_ext, plookup_ext_app by done. by eapply IH.
    + rewrite getNext_ext_other by done. by intros ?%verify_nil_hash.
  - apply wf_branch_inv in Hw as (-> & _ & Hc & _).
    destruct (keyok_false_cons _ Hk) as (x & key' & -> & Hx & Hk').
    rewrite getNext_branch, plookup_branch. destruct (slot ts x) as [t|] eqn:S; cbn [ohash].
    + eapply IH; eauto.
    + by intros ?%verify_nil_hash.
Qed.

(** ** Completeness *)

Definition proof_ok (D : DB) (p : ptrie) (key : bytes) (n : node)
    (out : node * result trie_error (list bytes * option bytes)) : Prop :=
  (Rep D p (fst out) /\ getHash (fst out) = getHash n) /\
  match plookup p key with
  | Some (v, _) => exists proof, snd out = Ok (proof, Some v) /\ encodings proof /\
      verifyProof_loop (map Some proof) (phash p) key = Ok true
  | None => exists e, snd out = Err e
  end.

Lemma hashed_encoded D p n b : wf b p -> Rep D p n -> getHash n <> None ->
  getEncodedNode n = Ok (penc p).
Proof.
  intros Hw H N. destruct (getHash n) as [h|] eqn:E; [|done].
  apply (getEncodedNode_ok D p n b Hw (Rep_Loose _ _ _ H)).
  by destruct (Loose_hashed D p n h (Rep_Loose _ _ _ H) E) as (_ & ? & _).
Qed.

(** The first node of a proof, in front of the proof for a child. *)
Lemma proof_cons b p proof key h key' : wf b p ->
  getNextHashAndKey key (decoded p) = (false, h, key') -> encodings proof ->
  verifyProof_loop (map Some proof) h key' = Ok true ->
  encodings (penc p :: proof) /\ verifyProof_loop (map Some (penc p :: proof)) (phash p) key = Ok true.
Proof.
  intros Hw E Hp V. split; [constructor; eauto|]. cbn [map]. by rewrite (verify_step b p _ key Hw), E.
Qed.

Lemma getProof_leaf D b k v ver fuel n key : wf b (PLeaf k v ver) -> Rep D (PLeaf k v ver) n ->
  getHash n <> None -> proof_ok D (PLeaf k v ver) key n (node_getProof (S fuel) D key n).
Proof.
  intros Hw H N. pose proof (Rep_nonempty D _ _ _ Hw H) as E.
  pose proof (hashed_encoded _ _ _ _ Hw H N) as Ee.
  pose proof H as (ln & -> & El & _)%Rep_leaf_inv. cbn in E.
  cbn [node_getProof]. se_cbn. rewrite Ee. unfold getNext, dispatch, se_on, leafNode_getNext. se_cbn.
  rewrite E, El. cbn [wrap option_fmap option_map ln_Key]. unfold proof_ok. cbn [plookup].
  case_bool_decide as Ek.
  - split; [done|]. exists [penc (PLeaf k v ver)]. cbn [snd getValue]. rewrite El. split; [done|].
    split; [constructor; eauto|]. cbn [map].
    by rewrite (verify_step b _ _ _ Hw), getNext_leaf, bool_decide_true.
  - split; [done|]. cbn. eauto.
Qed.
Lemma getProof_ext D k t fuel n key : wf false (PExt k t) -> Rep D (PExt k t) n ->
  getHash n <> None -> hexkey key ->
  (forall c r, Rep D t c -> getHash c <> None -> keyok false r -> (length r < length key)%nat ->
     proof_ok D t r c (node_getProof fuel D r c)) ->
  proof_ok D (PExt k t) key n (node_getProof (S fuel) D key n).
Proof.
  intros Hw H N Hk IH. pose proof (Rep_nonempty D _ _ _ Hw H) as E.
  pose proof (hashed_encoded _ _ _ _ Hw H N) as Ee.
  pose proof H as (en & -> & Ek & _)%Rep_ext_inv. cbn in E.
  pose proof Hw as (_ & Hne & Hkn & _)%wf_ext_inv.
  cbn [node_getProof]. se_cbn. rewrite Ee. unfold getNext, dispatch, se_on, extensionNode_getNext. se_cbn.
  rewrite E, Ek. cbn [wrap option_fmap option_map]. unfold proof_ok.
  destruct (decide (k `prefix_of` key)) as [P|NP].
  2: { rewrite plookup_ext_other by done.
    destruct (Nat.ltb_spec (length key) (length k)) as [L|L]; [by split; [|eauto]|].
    rewrite bool_decide_false by by rewrite <- prefix_take. by split; [|eauto]. }
  destruct (ext_key_rest _ _ Hkn Hk P) as (r & -> & Hr).
  rewrite (proj2 (Nat.ltb_ge _ _)) by (rewrite length_app; lia).
  rewrite take_app_length, bool_decide_true by done. cbn [negb].
  destruct (ext_resolve D _ _ en 0 Hw H) as (en' & c & R & H' & Eb & Ec & Hc). rewrite R. se_cbn.
  rewrite Ec, drop_app_length.
  unfold on_next_child, dispatch, se_on, en_on_child. rewrite Ec.
  assert (Nc : getHash c <> None).
  { pose proof H' as (en0 & [= <-] & _ & _ & _ & _ & Hh & _)%Rep_ext_inv. apply Hh; [|done].
    rewrite Eb. done. }
  assert (Lr : (length r < length (k ++ r))%nat) by (rewrite length_app; destruct k; cbn; [done|lia]).
  destruct (IH c r Hc Nc Hr Lr) as [[Rc Eh] I].
  rewrite plookup_ext_app. destruct (node_getProof fuel D r c) as [c' res]. cbn [fst snd] in *.
  split.
  - destruct res as [[]|]; cbn [fst]; (split; [by eapply ext_set_child|]); unfold getHash; cbn; by rewrite Eb.
  - destruct (plookup t r) as [[v ver]|].
    + destruct I as (proof & -> & Hp & V). exists (penc (PExt k t) :: proof). split; [done|].
      eapply proof_cons; eauto using getNext_ext.
    + destruct I as (e & ->). eauto.
Qed.

Lemma getProof_branch D ts fuel n x key : wf false (PBranch ts) -> Rep D (PBranch ts) n ->
  getHash n <> None -> inrange x ->
  (forall t c, slot ts x = Some t -> Rep D t c -> getHash c <> None ->
     proof_ok D t key c (node_getProof fuel D key c)) ->
  proof_ok D (PBranch ts) (x :: key) n (node_getProof (S fuel) D (x :: key) n).
Proof.
  intros Hw H N Hx IH. pose proof (Rep_nonempty D _ _ _ Hw H) as E.
  pose proof (hashed_encoded _ _ _ _ Hw H N) as Ee.
  pose proof H as (bn & -> & Hr)%Rep_branch_inv. cbn in E.
  cbn [node_getProof]. se_cbn. rewrite Ee. unfold getNext, dispatch, se_on, branchNode_getNext. se_cbn.
  rewrite E. cbn [wrap option_fmap option_map]. rewrite inrange_position by done. se_cbn. unfold proof_ok.
  destruct (branch_rep_resolve D ts bn x Hw Hr Hx) as (bn' & R & Hr' & Eb & S). rewrite R.
  rewrite plookup_branch. destruct (slot ts x) as [t|] eqn:Et.
  2: { rewrite S. cbn. split; [|eauto]. split; [by apply Rep_branch_iff|].
       unfold getHash. cbn. by rewrite Eb. }
  destruct S as (c & Ec & Hcr). rewrite Ec. unfold on_next_child, dispatch, se_on, bn_on_child. rewrite Ec.
  assert (Nc : getHash c <> None).
  { pose proof (br_hashed _ _ _ Hr') as G. rewrite Eb in G. destruct (G N x t Hx Et) as [_ G']. by apply G'. }
  destruct (IH t c eq_refl Hcr Nc) as [[Rc Eh] I].
  destruct (node_getProof fuel D key c) as [c' res]. cbn [fst snd] in *.
  split.
  - assert (Rep D (PBranch ts) (NBranch (bn_set_child x (Some c') bn'))).
    { apply Rep_branch_iff. eapply branch_rep_set_child; eauto. congruence. }
    destruct res as [[]|]; cbn [fst]; (split; [done|]); unfold getHash; cbn; by rewrite Eb.
  - change (Some t ≫= fun t => plookup t key) with (plookup t key).
    destruct (plookup t key) as [[v ver]|].
    + destruct I as (proof & -> & Hp & V). exists (penc (PBranch ts) :: proof). split; [done|].
      apply (proof_cons false (PBranch ts) proof _ (phash t) key Hw); [|done..].
      by rewrite getNext_branch, Et.
    + destruct I as (e & ->). eauto.
Qed.

Lemma node_getProof_spec D p fuel b n key : wf b p -> Rep D p n -> getHash n <> None ->
  keyok b key -> (length key < fuel)%nat -> proof_ok D p key n (node_getProof fuel D key n).
Proof.
  revert fuel b n key.
  induction p as [k v ver|k t IH|ts IH] using ptrie_rect'; intros [|fuel] b n key Hw H N Hk Hf; try lia.
  - by eapply getProof_leaf.
  - pose proof Hw as (-> & _ & _ & _ & Hw')%wf_ext_inv.
    apply getProof_ext; try done. intros c r Hc Nc Hr L. eapply IH; try done. lia.
  - pose proof Hw as (-> & _ & Hc & _)%wf_branch_inv.
    destruct (keyok_false_cons _ Hk) as (x & key' & -> & Hx & Hk').
    apply getProof_branch; try done. intros t c Et Ht Nt.
    eapply IH; eauto. cbn in Hf. lia.
Qed.

End Proof.
