(* ===== verification/PatriciaSpec.v ===== *)
(** * The patricia merkle trie is a finite map

    [TrieRep D tr m]: the trie [tr] over the storage [D] holds the finite map
    [m] from keys to values with versions.  Every operation of PatriciaTrie
    refines the operation of finite maps; the root hash is a function of the
    map alone, and an injective one; what is committed can be read back. *)

From stdpp Require Import base gmap list.
From Stdlib Require Import ZArith Lia.
From S2P Require Import Prelude KeyBuilder TrieNode TrieSpec TrieRefinement TrieUpdate.
From S2P Require Import TrieHash TrieCommit PatriciaTrie TrieProof.

Abbreviation entry := (bytes * Z)%type.
Abbreviation contents := (gmap bytes entry).

(** What the trie relies on of the hasher beyond [TrieExternalsOk]. *)
Class HasherOk (X : TrieExternals) : Prop := {
  Compute_not_EmptyTrieHash : forall b, Compute b <> EmptyTrieHash;
  Compute_bytes : forall b, Forall is_byte b -> Forall is_byte (Compute b);
}.

Definition is_key (k : bytes) : Prop := Forall is_byte k.

(** The abstract trie [p] holds the map [m]. *)
Record holds (p : ptrie) (m : contents) : Prop := {
  holds_lookup : forall k, is_key k -> plookup p (keyBytesToHex k) = m !! k;
  holds_keys : forall k, is_Some (m !! k) -> is_key k;
  holds_hex : forall h, hexkey h -> is_Some (plookup p h) -> exists k, is_key k /\ h = keyBytesToHex k;
}.

Lemma holds_updated p p' m key o : is_key key -> holds p m ->
  updated false p p' (keyBytesToHex key) o ->
  holds p' (partial_alter (fun _ => o) key m).
Proof.
  intros Hk [Hl Hd Hh] U. constructor.
  - intros k Hk'. rewrite U by by apply keyBytesToHex_hexkey. destruct (decide (k = key)) as [->|N].
    + by rewrite decide_True, lookup_partial_alter_eq.
    + rewrite lookup_partial_alter_ne, decide_False by (by try intros ?%keyBytesToHex_inj).
      by apply Hl.
  - intros k. destruct (decide (k = key)) as [->|N]; [done|].
    rewrite lookup_partial_alter_ne by done. apply Hd.
  - intros h Hhx. rewrite U by done. case_decide as E; [eauto|]. by apply Hh.
Qed.

Lemma holds_inj p q m : wf false p -> wf false q -> holds p m -> holds q m -> p = q.
Proof.
  intros Hp Hq [Hl Hd Hh] [Hl' Hd' Hh']. apply (plookup_canonical false); [done..|].
  intros h Hx. destruct (plookup p h) as [e|] eqn:E, (plookup q h) as [e'|] eqn:E'; [| | |done].
  - destruct (Hh h Hx) as (k & Hk & ->); [eauto|]. rewrite Hl in E by done. rewrite Hl' in E' by done.
    congruence.
  - destruct (Hh h Hx) as (k & Hk & ->); [eauto|]. rewrite Hl in E by done. rewrite Hl' in E' by done.
    congruence.
  - destruct (Hh' h Hx) as (k & Hk & ->); [eauto|]. rewrite Hl in E by done. rewrite Hl' in E' by done.
    congruence.
Qed.

Lemma holds_fun p m m' : holds p m -> holds p m' -> m = m'.
Proof.
  intros [Hl Hd _] [Hl' Hd' _]. apply map_eq. intros k. destruct (decide (is_key k)) as [Hk|N].
  - by rewrite <- Hl, Hl'.
  - assert (G : forall m : contents, (forall k, is_Some (m !! k) -> is_key k) -> m !! k = None).
    { intros m0 H0. destruct (m0 !! k) eqn:E; [|done]. by destruct N; eauto. }
    by rewrite (G m), (G m').
Qed.

Lemma holds_nonempty p m : wf false p -> holds p m -> m <> ∅.
Proof.
  intros Hw [Hl _ Hh] ->. destruct (wf_inhabited _ _ Hw) as (h & e & Hx & E).
  destruct (Hh h Hx) as (k & Hk & ->); [eauto|]. rewrite Hl in E by done. by rewrite lookup_empty in E.
Qed.

Section Spec.
Context {X : TrieExternals} {XOk : TrieExternalsOk X} {HOk : HasherOk X}.
Context {DB : Type} {ST : TrieStorage DB}.
Implicit Types (D : DB) (p : ptrie) (m : contents) (tr : patriciaMerkleTrie).

Definition TrieRep D tr m : Prop :=
  match root tr with
  | None => m = ∅
  | Some n => exists p, wf false p /\ Rep D p n /\ holds p m
  end.

Lemma TrieRep_new D lvl tr : NewTrie lvl = Ok tr -> TrieRep D tr ∅.
Proof. unfold NewTrie. destruct (lvl =? 0); [done|]. by intros [= <-]. Qed.

(** ** Lookup *)

Lemma GetWithVersion_rep D tr m key : TrieRep D tr m -> is_key key ->
  exists tr' depth, GetWithVersion D key tr =
      (tr', Ok (fst <$> m !! key, depth, default 0 (snd <$> m !! key))) /\ TrieRep D tr' m.
Proof.
  unfold TrieRep, GetWithVersion. se_cbn. destruct (root tr) as [n|] eqn:E.
  - intros (p & Hw & H & Hm) Hk. unfold on_root. rewrite E.
    destruct (node_tryGetWithVersion_spec D p (S (length (keyBytesToHex key))) false n
      (keyBytesToHex key) rootDepthLevel Hw H) as (n' & depth & -> & H' & _);
      [by apply keyBytesToHex_hexkey|lia|].
    unfold get_of. rewrite (holds_lookup _ _ Hm key Hk). eexists _, depth. split; [done|]. cbn. eauto.
  - intros -> _. exists tr, 0. rewrite lookup_empty. split; [done|]. by rewrite E.
Qed.

(** ** Update *)

Lemma save_oldRoot_root r tr : exists tr', save_oldRoot r tr = (tr', Ok ()) /\ root tr' = root tr.
Proof. unfold save_oldRoot. destruct (negb (isDirty r)); eexists; by split. Qed.

(** Storing a value that is there already changes nothing, not even its
    version. *)
Definition put (key value : bytes) (version : Z) (m : contents) : contents :=
  if decide (fst <$> m !! key = Some value) then m else <[key := (value, version)]> m.

Lemma delete_rep D tr m key : TrieRep D tr m -> is_key key ->
  exists tr', delete D (keyBytesToHex key) tr = (tr', Ok ()) /\ TrieRep D tr' (base.delete key m).
Proof.
  unfold TrieRep, delete. se_cbn. destruct (root tr) as [n|] eqn:E.
  - intros (p & Hw & H & Hm) Hk. destruct (save_oldRoot_root n tr) as (tr1 & -> & E1).
    unfold on_root. rewrite E1, E.
    pose proof (node_delete_spec D p (S (length (keyBytesToHex key))) false n (keyBytesToHex key) Hw H
      (keyBytesToHex_hexkey _ Hk) (Nat.lt_succ_diag_r _)) as S.
    pose proof (holds_lookup _ _ Hm key Hk) as L. unfold delete_ok in S.
    destruct (node_delete _ _ _ _) as [n' [[[[] [r|]] hs]|]]; [..|done]; destruct S as (Sk & S).
    + destruct S as (p' & Hw' & H' & _ & U). eexists. split; [done|]. exists p'. split_and!; [done..|].
      by apply (holds_updated p p' m key None).
    + eexists. split; [done|]. cbn. apply map_eq. intros k. rewrite lookup_empty.
      destruct (decide (k = key)) as [->|N]; [by rewrite lookup_delete_eq|].
      rewrite lookup_delete_ne by done. destruct (m !! k) as [e|] eqn:Em; [|done].
      assert (Hk' : is_key k) by (eapply holds_keys; eauto).
      rewrite <- (holds_lookup _ _ Hm k Hk'), S in Em; [done|by apply keyBytesToHex_hexkey|].
      by intros ?%keyBytesToHex_inj.
    + destruct S as ([= <-] & H' & _). eexists. split; [done|]. exists p. split_and!; [done..|].
      rewrite delete_id; [done|]. congruence.
    + destruct S as ([=] & _).
  - intros -> _. exists tr. rewrite delete_empty. split; [done|]. by rewrite E.
Qed.
Lemma put_same key value version m : fst <$> m !! key = Some value -> put key value version m = m.
Proof. intros E. unfold put. by rewrite decide_True. Qed.

Lemma put_new key value version m :
  fst <$> m !! key <> Some value -> put key value version m = <[key := (value, version)]> m.
Proof. intros E. unfold put. by rewrite decide_False. Qed.

(** What an update with version does to the map. *)
Definition change (key value : bytes) (version : Z) (m : contents) : contents :=
  if decide (value = []) then base.delete key m else put key value version m.

Lemma lookup_change (key value : bytes) (version : Z) (m : contents) (k : bytes) :
  change key value version m !! k = if decide (k = key) then
    (if decide (value = []) then None
     else if decide (fst <$> m !! key = Some value) then m !! key else Some (value, version))
  else m !! k.
Proof.
  unfold change, put. destruct (decide (k = key)) as [->|N]; destruct (decide (value = [])).
  - by rewrite lookup_delete_eq.
  - case_decide; [done|]. by rewrite lookup_insert_eq.
  - by rewrite lookup_delete_ne.
  - case_decide; [done|]. by rewrite lookup_insert_ne.
Qed.

Lemma holds_single key value version : is_key key ->
  holds (PLeaf (keyBytesToHex key) value version) {[key := (value, version)]}.
Proof.
  intros Hk. constructor.
  - intros k Hk'. cbn. case_bool_decide as E.
    + apply keyBytesToHex_inj in E as ->; [|done..]. by rewrite lookup_singleton_eq.
    + rewrite lookup_singleton_ne; [done|]. by intros ->.
  - intros k [e He]. apply lookup_singleton_Some in He as [<- _]. done.
  - intros h Hx [e He]. cbn in He. case_bool_decide as E; [|done]. eauto.
Qed.

Lemma update_rep D tr m key value version : TrieRep D tr m -> is_key key -> entry_ok value version ->
  exists tr', update D key value version tr = (tr', Ok ()) /\
    TrieRep D tr' (put key value version m).
Proof.
  intros H Hk Hv. unfold TrieRep in H. unfold update.
  destruct (length_zero_cases value) as [[-> _]|[_ ->]]; [by destruct Hv|]. cbn [negb].
  se_cbn. destruct (root tr) as [n|] eqn:E.
  - destruct H as (p & Hw & H & Hm). destruct (save_oldRoot_root n tr) as (tr1 & -> & E1).
    unfold on_root. rewrite E1, E.
    pose proof (node_insert_spec D p (S (length (keyBytesToHex key))) false n (keyBytesToHex key)
      value version Hw H (keyBytesToHex_hexkey _ Hk) Hv (Nat.lt_succ_diag_r _)) as S.
    pose proof (holds_lookup _ _ Hm key Hk) as L. unfold insert_ok in S.
    destruct (node_insert _ _ _ _) as [n' [[[r|] hs]|]]; [..|done].
    + destruct S as (N & p' & Hw' & H' & U). eexists. split; [done|]. exists p'. split_and!; [done..|].
      rewrite put_new by congruence. by apply (holds_updated p p' m key (Some (value, version))).
    + destruct S as (N & H' & _). eexists. split; [done|]. exists p. split_and!; [done..|].
      rewrite put_same; [done|]. congruence.
  - subst m. eexists. split; [done|]. exists (PLeaf (keyBytesToHex key) value version). split_and!.
    + constructor; [by apply keyBytesToHex_hexkey|done].
    + apply Rep_newLeaf.
    + rewrite put_new by by rewrite lookup_empty. by apply holds_single.
Qed.

(** ** Root hash *)

(** The root hash of a map. *)
Inductive root_of : contents -> bytes -> Prop :=
| root_of_empty : root_of ∅ EmptyTrieHash
| root_of_trie m p : wf false p -> holds p m -> root_of m (phash p).

Lemma root_of_fun m h h' : root_of m h -> root_of m h' -> h = h'.
Proof.
  intros [|? p Hw Hm]; inversion 1 as [|? q Hw' Hm']; subst; try done.
  - by apply holds_nonempty in Hm'.
  - by apply holds_nonempty in Hm.
  - f_equal. eapply holds_inj; eauto.
Qed.

Lemma RootHash_rep D tr m : TrieRep D tr m ->
  exists tr' h, RootHash tr = (tr', Ok h) /\ TrieRep D tr' m /\ root_of m h /\
    (forall n, root tr' = Some n -> getHash n = Some h).
Proof.
  unfold TrieRep, RootHash, getRootHash. se_cbn. destruct (root tr) as [n|] eqn:E.
  - intros (p & Hw & H & Hm). destruct (getHash n) as [h|] eqn:Eh.
    + exists tr, h. rewrite E. assert (h = phash p) as ->.
      { destruct (Rep_base _ _ _ H) as [B _]. by apply B. }
      split_and!; [done|eauto|by constructor|]. by intros ? [= <-].
    + unfold on_root. rewrite E.
      destruct (hash_ok_Rep _ _ _ _ H (setRootHash_spec D p false n Hw (Rep_Loose _ _ _ H)))
        as (n' & -> & H' & [Eh' _] & _). cbn. rewrite Eh'.
      eexists _, _. split; [done|]. cbn. split_and!; [eauto|by constructor|]. by intros ? [= <-].
  - intros ->. exists tr, EmptyTrieHash. rewrite E. split_and!; [done..|constructor|done].
Qed.

End Spec.

(** ** What the hash determines, and what is stored *)

Section Stored.
Context {X : TrieExternals} {XOk : TrieExternalsOk X} {HOk : HasherOk X} {CF : CollisionFree X}.
Context {DB : Type} {ST : TrieStorage DB} {STOk : TrieStorageOk DB ST}.
Implicit Types (D : DB) (p : ptrie) (m : contents) (tr : patriciaMerkleTrie).

Lemma root_of_inj m m' h : root_of m h -> root_of m' h -> m = m'.
Proof.
  intros [|? p Hw Hm]; inversion 1 as [Em Eh|? q Hw' Hm' Em Eh]; subst; try done.
  - by apply Compute_not_EmptyTrieHash in Eh.
  - symmetry in Eh. by apply Compute_not_EmptyTrieHash in Eh.
  - apply Compute_inj in Eh. apply (penc_inj _ _ false false) in Eh; [|done..]. subst.
    by eapply holds_fun.
Qed.

(** The map is in the storage. *)
Definition committed D m : Prop := m = ∅ \/ exists p, wf false p /\ holds p m /\ Stored D p.

Lemma committed_grows D D' m : grows D D' -> committed D m -> committed D' m.
Proof. intros G [->|(p & ? & ? & ?)]; [by left|right; eauto 10 using grows_stored]. Qed.

Lemma TrieRep_grows D D' tr m : grows D D' -> TrieRep D tr m -> TrieRep D' tr m.
Proof.
  intros G. unfold TrieRep. destruct (root tr); [|done]. intros (p & ? & ? & ?).
  exists p. split_and!; [done| |done]. by eapply Rep_grows.
Qed.

Lemma Commit_rep D tr m : TrieRep D tr m ->
  exists tr' D', Commit (tr, D) = ((tr', D'), Ok ()) /\ TrieRep D' tr' m /\ committed D' m /\
    grows D D' /\ maxTrieLevelInMemory tr' = maxTrieLevelInMemory tr /\
    (forall n, root tr' = Some n -> isDirty n = false).
Proof.
  unfold TrieRep, Commit. se_cbn. destruct (root tr) as [n|] eqn:E; cbn [fst snd].
  - intros (p & Hw & H & Hm). destruct (isDirty n) eqn:Ed; cbn [negb].
    + unfold on_root. cbn [fst]. rewrite E.
      destruct (hash_ok_Rep _ _ _ _ H (setRootHash_spec D p false n Hw (Rep_Loose _ _ _ H)))
        as (n1 & -> & H1 & _). unfold commit_root.
      cbn [fst snd set_root set_oldHashes set_oldRoot root].
      destruct (commitDirty_spec p D (maxTrieLevelInMemory tr) 0 n1 false Hw H1)
        as (n2 & D' & -> & H2 & C & G).
      eexists _, _. split; [done|]. cbn. split_and!; [eauto| |done|done|by intros ? [= <-]].
      right. exists p. split_and!; [done..|]. by eapply Rep_clean.
    + exists tr, D. rewrite E. split_and!; [done|eauto| |by constructor|done|by intros ? [= <-]].
      right. exists p. split_and!; [done..|]. by eapply Rep_clean.
  - intros ->. exists tr, D. rewrite E. split_and!; [done..|by left|by constructor|done|done].
Qed.

Lemma recreate_rep D tr m h : root_of m h -> committed D m -> maxTrieLevelInMemory tr <> 0 ->
  exists tr', recreate h D tr = Ok tr' /\ TrieRep D tr' m /\
    maxTrieLevelInMemory tr' = maxTrieLevelInMemory tr /\ oldHashes tr' = [] /\ oldRoot tr' = [].
Proof.
  intros Hr Hc Hl. unfold recreate, recreateFromDb, NewTrie, IsEmptyTrie.
  rewrite (proj2 (Z.eqb_neq _ _) Hl). destruct Hr as [|m p Hw Hm].
  - rewrite bool_decide_true by done. cbn. eexists. by split_and!.
  - rewrite bool_decide_false by apply Compute_not_EmptyTrieHash.
    destruct (length_zero_cases (phash p)) as [[E _]|[_ ->]]; [by apply phash_nonempty in E|].
    destruct Hc as [->|(q & Hq & Hqm & St)]; [by apply holds_nonempty in Hm|].
    assert (q = p) as -> by by eapply holds_inj.
    destruct (load_stored D _ _ Hw St) as (n & E & H). cbn. rewrite E. cbn.
    eexists. split_and!; [done| |done..]. exists p. eauto.
Qed.

(** ** Merkle proofs *)

Lemma GetProof_rep D tr m key : TrieRep D tr m -> is_key key ->
  exists tr', TrieRep D tr' m /\
  match m !! key with
  | Some (v, _) => exists proof, GetProof D key tr = (tr', Ok (proof, Some v)) /\ encodings proof /\
      forall h, root_of m h -> verifyProof h key (map Some proof) = Ok true
  | None => exists e, GetProof D key tr = (tr', Err e)
  end.
Proof.
  unfold TrieRep, GetProof. intros H Hk. se_cbn. destruct (root tr) as [n|] eqn:E.
  - destruct H as (p & Hw & H & Hm). unfold on_root. rewrite E.
    destruct (hash_ok_Rep _ _ _ _ H (setRootHash_spec D p false n Hw (Rep_Loose _ _ _ H)))
      as (n1 & -> & H1 & [Eh _] & _). cbn [set_root root].
    pose proof (node_getProof_spec D p (S (length (keyBytesToHex key))) false n1 (keyBytesToHex key)
      Hw H1 ltac:(by rewrite Eh) (keyBytesToHex_hexkey _ Hk) (Nat.lt_succ_diag_r _)) as [[Rn _] G].
    rewrite (holds_lookup _ _ Hm key Hk) in G. destruct (node_getProof _ _ _ _) as [n2 res]. cbn in Rn, G.
    exists (set_root (Some n2) (set_root (Some n1) tr)). split; [cbn; eauto|].
    destruct (m !! key) as [[v ver]|].
    + destruct G as (proof & -> & Hp & V). exists proof. split_and!; [done..|].
      intros h Hr. by rewrite (root_of_fun m h (phash p)) by (done || by constructor).
    + destruct G as (e & ->). eauto.
  - subst m. exists tr. rewrite E, lookup_empty. split; [done|]. eauto.
Qed.

Lemma VerifyProof_complete h key proof : encodings proof ->
  verifyProof h key (map Some proof) = Ok true -> VerifyProof h key (map Some proof) = Ok true.
Proof.
  intros Hp V. unfold VerifyProof.
  destruct (verify_no_error proof h (keyBytesToHex (Compute key)) Hp) as [ok E].
  change (verifyProof h (Compute key) (map Some proof) = Ok ok) in E. rewrite E. by destruct ok.
Qed.

Lemma verifyProof_sound m h key proof : root_of m h -> is_key key ->
  verifyProof h key proof = Ok true -> is_Some (m !! key).
Proof.
  intros [|m' p Hw Hm] Hk V.
  - unfold verifyProof in V. destruct proof as [|[e|] proof]; cbn [verifyProof_loop] in V; [done| |done].
    rewrite bool_decide_false in V; [done|]. intros E. symmetry in E.
    by apply Compute_not_EmptyTrieHash in E.
  - rewrite <- (holds_lookup _ _ Hm key Hk).
    by eapply (verifyProof_loop_sound p false); [..|exact V]; [|apply keyBytesToHex_hexkey].
Qed.

(** ** Versions *)

(** A version that the root reports is that of every entry. *)
Lemma pver_all b p k e : wf b p -> pver p <> 0 -> keyok b k -> plookup p k = Some e -> snd e = pver p.
Proof.
  revert b k. induction p as [k' v ver|k' t IH|ts IH] using ptrie_rect'; intros b k Hw N Hk E.
  - cbn in E. case_bool_decide; [|done]. by injection E as <-.
  - apply wf_ext_inv in Hw as (-> & _ & Hkn & _ & Hw).
    destruct (decide (k' `prefix_of` k)) as [P|NP]; [|by rewrite plookup_ext_other in E].
    destruct (ext_key_rest _ _ Hkn Hk P) as (r & -> & Hr). rewrite plookup_ext_app in E.
    cbn in N |- *. eauto.
  - apply wf_branch_inv in Hw as (-> & L & Hc & _).
    destruct (keyok_false_cons _ Hk) as (x & k' & -> & Hx & Hk').
    rewrite plookup_branch in E. destruct (slot ts x) as [t|] eqn:S; [|done].
    assert (pver t = pver (PBranch ts)) as Ev.
    { rewrite pver_branch in N |- *. unfold common in N |- *.
      assert (I : pver t ∈ omap id (map opver ts)).
      { apply list_elem_of_omap. exists (Some (pver t)). split; [|done].
        apply list_elem_of_fmap. exists (Some t). split; [done|].
        unfold slot in S. rewrite nth_lookup in S. apply list_elem_of_lookup. exists (Z.to_nat x).
        destruct (ts !! Z.to_nat x) as [o|]; [|done]. cbn in S. congruence. }
      destruct (omap id (map opver ts)) as [|w l]; [done|].
      destruct (forallb (Z.eqb w) l) eqn:F; [|done].
      apply elem_of_cons in I as [->|I]; [done|].
      rewrite forallb_forall in F. symmetry. apply Z.eqb_eq, F. by apply list_elem_of_In. }
    rewrite <- Ev in N |- *. eapply IH; eauto.
Qed.

Lemma IsMigrated_rep D tr m v : TrieRep D tr m ->
  exists b, IsMigratedToLatestVersion v tr = Ok b /\
    (b = true -> v <> 0 -> forall key e, m !! key = Some e -> snd e = v).
Proof.
  unfold TrieRep, IsMigratedToLatestVersion. destruct (root tr) as [n|].
  - intros (p & Hw & H & Hm). rewrite (getVersion_Rep false D p n Hw H). eexists. split; [done|].
    intros <-%Z.eqb_eq N key e E. assert (Hk : is_key key) by (eapply holds_keys; eauto).
    apply (pver_all false p (keyBytesToHex key)); [done..|by apply keyBytesToHex_hexkey|].
    by rewrite (holds_lookup _ _ Hm).
  - intros ->. exists true. split; [done|]. intros _ _ key e. by rewrite lookup_empty.
Qed.

End Stored.
