(* ===== verification/TrieHashes.v ===== *)
(** * The hashes of a trie (trie/patriciaMerkleTrie.go and the node files)

    The hashes of the nodes that a commit would write, and those of all nodes,
    with which the state marks what it no longer uses. *)

From Stdlib Require Import ZArith Lia.
From stdpp Require Import base gmap list strings.
From S2P Require Import Prelude KeyBuilder TrieNode TrieSpec TrieRefinement TrieHash TrieCommit PatriciaTrie PatriciaSpec.

(** ** Dirty hashes *)

(** The set is that of the caller, which every call adds to. *)
Abbreviation Hashes := (gset bytes).

Definition leafNode_getDirtyHashes {X : TrieExternals} (ln : leafN) (hashes : Hashes) : result trie_error Hashes :=
  match wrap "getDirtyHashes error" (leafNode_isEmptyOrNil ln) with
  | Some err => Err err
  | None => if negb (dirty (ln_base ln)) then Ok hashes else Ok ({[hash_bytes (hash (ln_base ln))]} ∪ hashes)
  end.

Definition extensionNode_getDirtyHashes {X : TrieExternals} (child_getDirtyHashes : node -> Hashes -> result trie_error Hashes)
    (en : extensionNode) (hashes : Hashes) : result trie_error Hashes :=
  match wrap "getDirtyHashes error" (extensionNode_isEmptyOrNil en) with
  | Some err => Err err
  | None =>
      if negb (dirty (en_base en)) then Ok hashes
      else
        match en_child en with
        | None => Ok hashes
        | Some child =>
            hashes ← child_getDirtyHashes child hashes;
            Ok ({[hash_bytes (hash (en_base en))]} ∪ hashes)
        end
  end.

Fixpoint children_getDirtyHashes (child_getDirtyHashes : node -> Hashes -> result trie_error Hashes)
    (bn : branchNode) (positions : list Z) (hashes : Hashes) : result trie_error Hashes :=
  match positions with
  | [] => Ok hashes
  | i :: positions =>
      hashes ← match bn_child bn i with None => Ok hashes | Some child => child_getDirtyHashes child hashes end;
      children_getDirtyHashes child_getDirtyHashes bn positions hashes
  end.

Definition branchNode_getDirtyHashes {X : TrieExternals} (child_getDirtyHashes : node -> Hashes -> result trie_error Hashes)
    (bn : branchNode) (hashes : Hashes) : result trie_error Hashes :=
  match wrap "getDirtyHashes error" (branchNode_isEmptyOrNil bn) with
  | Some err => Err err
  | None =>
      if negb (dirty (bn_base bn)) then Ok hashes
      else
        hashes ← children_getDirtyHashes child_getDirtyHashes bn positions hashes;
        Ok ({[hash_bytes (hash (bn_base bn))]} ∪ hashes)
  end.

(** Only nodes in memory are visited: their height is fuel enough. *)
Fixpoint node_getDirtyHashes {X : TrieExternals} (fuel : nat) (n : node) (hashes : Hashes) : result trie_error Hashes :=
  match fuel with
  | O => Err OutOfFuel
  | S fuel =>
      match n with
      | NLeaf ln => leafNode_getDirtyHashes ln hashes
      | NExt en => extensionNode_getDirtyHashes (node_getDirtyHashes fuel) en hashes
      | NBranch bn => branchNode_getDirtyHashes (node_getDirtyHashes fuel) bn hashes
      end
  end.

Definition GetDirtyHashes {X : TrieExternals} : SE patriciaMerkleTrie trie_error Hashes :=
  tr ← se_get;
  match root tr with
  | None => mret ∅
  | Some _ =>
      _ ← on_root RuntimePanic setRootHash;
      tr ← se_get;
      match root tr with
      | None => se_lift (Err RuntimePanic)
      | Some n => se_lift (node_getDirtyHashes (height n) n ∅)
      end
  end.

(** ** All hashes *)

Section AllHashes.
Context {X : TrieExternals} {DB : Type} {ST : TrieStorage DB}.
Abbreviation M S A := (SE S trie_error A).

Definition leafNode_getAllHashes : M leafN (list bytes) :=
  ln ← se_get;
  _ ← se_check (wrap "getAllHashes error" (leafNode_isEmptyOrNil ln));
  mret [hash_bytes (hash (ln_base ln))].

Definition extensionNode_getAllHashes (child_getAllHashes : M node (list bytes)) (db : DB)
    : M extensionNode (list bytes) :=
  en ← se_get;
  _ ← se_check (wrap "getAllHashes error" (extensionNode_isEmptyOrNil en));
  _ ← resolveIfCollapsed 0 db;
  hashes ← en_on_child RuntimePanic child_getAllHashes;
  mret (hashes ++ [hash_bytes (hash (en_base en))]).

Fixpoint children_getAllHashes (child_getAllHashes : M node (list bytes)) (db : DB) (positions : list Z)
    (hashes : list bytes) : M branchNode (list bytes) :=
  match positions with
  | [] => mret hashes
  | i :: positions =>
      _ ← resolveIfCollapsed i db;
      bn ← se_get;
      match bn_child bn i with
      | None => children_getAllHashes child_getAllHashes db positions hashes
      | Some _ =>
          childrenHashes ← bn_on_child i RuntimePanic child_getAllHashes;
          children_getAllHashes child_getAllHashes db positions (hashes ++ childrenHashes)
      end
  end.

Definition branchNode_getAllHashes (child_getAllHashes : M node (list bytes)) (db : DB) : M branchNode (list bytes) :=
  bn ← se_get;
  _ ← se_check (wrap "getAllHashes error" (branchNode_isEmptyOrNil bn));
  hashes ← children_getAllHashes child_getAllHashes db positions [];
  mret (hashes ++ [hash_bytes (hash (bn_base bn))]).

(** The recursion goes through the storage: the depth of the trie is fuel
    enough. *)
Fixpoint node_getAllHashes (fuel : nat) (db : DB) : M node (list bytes) :=
  match fuel with
  | O => se_lift (Err OutOfFuel)
  | S fuel =>
      dispatch leafNode_getAllHashes (extensionNode_getAllHashes (node_getAllHashes fuel db) db)
        (branchNode_getAllHashes (node_getAllHashes fuel db) db)
  end.

Definition GetAllHashes (fuel : nat) (db : DB) : M patriciaMerkleTrie (list bytes) :=
  tr ← se_get;
  match root tr with
  | None => mret []
  | Some _ =>
      _ ← on_root RuntimePanic setRootHash;
      on_root RuntimePanic (node_getAllHashes fuel db)
  end.
End AllHashes.

(** ** What they return *)

(** The depth of a trie and the hashes of its nodes, children first. *)
Fixpoint pdepth (p : ptrie) : nat :=
  match p with
  | PLeaf _ _ _ => 1
  | PExt _ t => S (pdepth t)
  | PBranch ts => S (fold_right (fun o d => Nat.max (match o with Some t => pdepth t | None => 0 end) d) 0%nat ts)
  end.

Section Hashes.
Context {X : TrieExternals} {XOk : TrieExternalsOk X}.

Fixpoint phashes (p : ptrie) : list bytes :=
  match p with
  | PLeaf _ _ _ => [phash p]
  | PExt _ t => phashes t ++ [phash p]
  | PBranch ts => List.concat (map (fun o => match o with Some t => phashes t | None => [] end) ts) ++ [phash p]
  end.

Lemma pdepth_slot ts x t : slot ts x = Some t -> (pdepth t < pdepth (PBranch ts))%nat.
Proof.
  unfold slot. cbn [pdepth]. generalize (Z.to_nat x) as i.
  induction ts as [|o ts IH]; intros [|i]; cbn; try done.
  - intros ->. lia.
  - intros ?%IH. lia.
Qed.

Context {DB : Type} {ST : TrieStorage DB}.
Implicit Types (D : DB) (p t : ptrie) (n : node) (m : contents) (tr : patriciaMerkleTrie).

(** A node with its hash has children with theirs. *)
Lemma hashed_kids D p n : Rep D p n -> getHash n <> None -> hashed p n.
Proof. intros H N. destruct (getHash n) as [h|] eqn:E; [|done]. by eapply Loose_hashed, E; apply Rep_Loose. Qed.

Lemma node_getDirtyHashes_ok D p fuel b n hashes : wf b p -> Rep D p n -> (height n <= fuel)%nat ->
  exists hashes', node_getDirtyHashes fuel n hashes = Ok hashes'.
Proof.
  revert fuel b n hashes. induction p as [k v ver|k t IH|ts IH] using ptrie_rect'; intros fuel b n hashes Hw H Hf;
    (destruct fuel as [|fuel]; [by destruct n; cbn in Hf; lia|]); pose proof (Rep_nonempty D _ _ _ Hw H) as E.
  - apply Rep_leaf_inv in H as (ln & -> & _). cbn in *. unfold leafNode_getDirtyHashes. rewrite E. cbn.
    destruct (negb _); eauto.
  - pose proof (Rep_Loose _ _ _ H) as (en & -> & He)%Loose_ext. cbn in E. cbn [node_getDirtyHashes].
    unfold extensionNode_getDirtyHashes. rewrite E. cbn. destruct (negb _); [eauto|].
    destruct (en_child en) as [c|] eqn:Ec; [|eauto].
    pose proof Hw as (-> & _ & _ & _ & Hw')%wf_ext_inv.
    destruct (IH fuel false c hashes Hw' (el_loaded _ _ _ _ He c Ec)) as [hs ->]; [|cbn; eauto].
    pose proof (height_ext en c Ec). lia.
  - pose proof (Rep_Loose _ _ _ H) as (bn & -> & Hb)%Loose_branch. cbn in E. cbn [node_getDirtyHashes].
    unfold branchNode_getDirtyHashes. rewrite E. cbn [wrap fmap option_fmap option_map]. destruct (negb _); [eauto|].
    pose proof Hw as (-> & _ & Hc & _)%wf_branch_inv.
    assert (G : forall l hs, Forall inrange l ->
      exists hs', children_getDirtyHashes (node_getDirtyHashes fuel) bn l hs = Ok hs').
    { induction l as [|i l IHl]; intros hs F; [by eexists|]. apply Forall_cons in F as [Hi F].
      cbn [children_getDirtyHashes]. destruct (bn_child bn i) as [c|] eqn:Ec; [|cbn; by apply IHl].
      destruct (slot ts i) as [t|] eqn:St; [|by destruct (bc_absent _ _ _ Hb _ Hi St); congruence].
      destruct (IH i t St fuel _ c hs (Hc _ _ Hi St) (bc_loaded _ _ _ Hb _ _ _ Hi St Ec)) as [hs' ->]; [|cbn; by apply IHl].
      pose proof (height_branch bn i c Ec). lia. }
    destruct (G positions hashes) as [hs' ->]; [|unfold mbind, result_bind; eauto]. apply Forall_forall. intros x. apply positions_inrange.
Qed.

Lemma GetDirtyHashes_rep D tr m : TrieRep D tr m ->
  exists tr' hashes, GetDirtyHashes tr = (tr', Ok hashes) /\ TrieRep D tr' m.
Proof.
  unfold TrieRep, GetDirtyHashes. se_cbn. destruct (root tr) as [n|] eqn:E.
  - intros (p & Hw & H & Hm). unfold on_root. rewrite E.
    destruct (hash_ok_Rep _ _ _ _ H (setRootHash_spec D p false n Hw (Rep_Loose _ _ _ H))) as (n' & -> & H' & _).
    cbn [root set_root]. destruct (node_getDirtyHashes_ok D p (height n') false n' ∅ Hw H') as [hs ->]; [done|].
    eexists _, hs. split; [done|]. cbn. eauto.
  - intros ->. exists tr, ∅. by rewrite E.
Qed.

(** The hashes of all nodes, loading those that are not in memory. *)
Lemma map_slots {A} (f : option ptrie -> A) ts : length ts = nrOfChildren ->
  List.map (fun x => f (slot ts x)) positions = List.map f ts.
Proof.
  intros L. unfold positions. apply (nth_ext _ _ (f None) (f None)).
  { by rewrite ?length_map, ?length_fmap, ?length_map, length_seq. }
  intros i Hi. rewrite ?length_map, ?length_fmap, ?length_map, length_seq in Hi. rewrite (map_nth f ts None).
  rewrite nth_indep with (d' := f (slot ts (Z.of_nat i))) by (by rewrite ?length_map, ?length_fmap, ?length_map, length_seq).
  rewrite (map_nth (fun x => f (slot ts x)) _ (Z.of_nat i)). unfold slot. do 2 f_equal.
  change (Z.of_nat <$> seq 0 nrOfChildren) with (List.map Z.of_nat (seq 0 nrOfChildren)).
  rewrite (nth_indep _ _ (Z.of_nat 0)) by (by rewrite length_map, length_seq).
  rewrite map_nth, seq_nth by done. by rewrite Nat2Z.id.
Qed.

Lemma node_getAllHashes_spec D p fuel b n : wf b p -> Rep D p n -> getHash n <> None -> (pdepth p <= fuel)%nat ->
  exists n', node_getAllHashes fuel D n = (n', Ok (phashes p)) /\ Rep D p n' /\ getHash n' = getHash n.
Proof.
  revert fuel b n. induction p as [k v ver|k t IH|ts IH] using ptrie_rect'; intros fuel b n Hw H Hh Hf;
    (destruct fuel as [|fuel]; [cbn in Hf; lia|]); pose proof (Rep_nonempty D _ _ _ Hw H) as E;
    pose proof (proj1 (hashed_kids D _ n H Hh)) as Eh; cbn [node_getAllHashes].
  - pose proof H as (ln & -> & _)%Rep_leaf_inv. cbn in E. change (hash (ln_base ln) = Some (phash (PLeaf k v ver))) in Eh.
    exists (NLeaf ln). split; [|done].
    unfold dispatch, se_on, leafNode_getAllHashes. se_cbn. by rewrite E, Eh.
  - pose proof H as (en & -> & _)%Rep_ext_inv. cbn in E. change (hash (en_base en) = Some (phash (PExt k t))) in Eh.
    pose proof Hw as (-> & _ & _ & _ & Hw')%wf_ext_inv.
    unfold dispatch, se_on, extensionNode_getAllHashes. se_cbn. rewrite E.
    destruct (ext_resolve D k t en 0 Hw H) as (en' & c & -> & H' & Eb & Ec & Hc).
    assert (Hk : getHash c <> None).
    { apply (hashed_kids D _ (NExt en') H'); [|done]. unfold getHash. cbn. rewrite Eb, Eh. done. }
    unfold en_on_child. rewrite Ec. destruct (IH fuel false c Hw' Hc Hk) as (c' & -> & Hc' & Ec'); [cbn in Hf; lia|].
    exists (NExt (en_set_child (Some c') en')). split; [by rewrite Eh|].
    split; [by eapply ext_set_child|]. unfold getHash. cbn. by rewrite Eb.
  - pose proof H as (bn & -> & Hr)%Rep_branch_inv. cbn in E. change (hash (bn_base bn) = Some (phash (PBranch ts))) in Eh.
    pose proof Hw as (-> & _ & Hc & _)%wf_branch_inv.
    unfold dispatch, se_on, branchNode_getAllHashes. se_cbn. rewrite E.
    assert (G : forall l hs bn0, Forall inrange l -> branch_rep D ts bn0 -> bn_base bn0 = bn_base bn ->
      exists bn1, children_getAllHashes (node_getAllHashes fuel D) D l hs bn0 =
          (bn1, Ok (hs ++ List.concat (List.map (fun x => match slot ts x with Some t => phashes t | None => [] end) l))) /\
        branch_rep D ts bn1 /\ bn_base bn1 = bn_base bn).
    { induction l as [|x l IHl]; intros hs bn0 F H0 E0; [exists bn0; by rewrite app_nil_r|].
      apply Forall_cons in F as [Hx F]. cbn [children_getAllHashes]. se_cbn.
      destruct (branch_rep_resolve D ts bn0 x Hw H0 Hx) as (bn' & -> & H' & Eb & S). cbn [List.map List.concat].
      destruct (slot ts x) as [t|] eqn:St.
      2:{ rewrite S. apply IHl; [done..|congruence]. }
      destruct S as (c & Ec & Rc). rewrite Ec. unfold bn_on_child. rewrite Ec.
      assert (Hk : getHash c <> None).
      { apply (hashed_kids D (PBranch ts) (NBranch bn')) with x; [by apply Rep_branch_iff| |done..].
        unfold getHash. cbn. by rewrite Eb, E0, Eh. }
      pose proof (pdepth_slot ts x t St).
      destruct (IH x t St fuel _ c (Hc _ _ Hx St) Rc Hk) as (c' & -> & Rc' & Ec'); [lia|].
      rewrite (assoc_L (++)). apply IHl; [done| |cbn; congruence].
      eapply branch_rep_set_child; eauto. congruence. }
    destruct (G positions [] bn) as (bn1 & -> & H1 & E1); [|done..|].
    { apply Forall_forall. intros x. apply positions_inrange. }
    exists (NBranch bn1). split; [|split; [by apply Rep_branch_iff|unfold getHash; cbn; by rewrite E1]].
    pose proof Hw as (_ & L & _)%wf_branch_inv. cbn [app].
    pose proof (map_slots (fun o => match o with Some t => phashes t | None => [] end) ts L) as Em. cbn beta in Em.
    by rewrite Eh, Em.
Qed.
End Hashes.
