(* ===== verification/TrieProperties.v ===== *)
(** * A concrete hasher, marshalizer and storage

    An instance of the parameters of the trie that satisfies every law that
    the theorems assume, to evaluate the model on concrete inputs: a hasher
    that only tags its input, a length-prefixed marshalizer and a storage that
    is a finite map.

    ** Properties of the patricia merkle trie

    The theorems about trie/patriciaMerkleTrie.go, each with a witness on a
    concrete trie of three keys over the parameters of TrieInstance. *)

From stdpp Require Import base gmap list.
From Stdlib Require Import ZArith Lia.
From S2P Require Import Prelude Encoding KeyBuilder TrieNode TrieSpec TrieRefinement TrieCommit PatriciaTrie.
From S2P Require Import PatriciaSpec.

Definition ex_MarshalBn (c : CollapsedBn) : result trie_error bytes :=
  Ok (Z.of_nat (length (EncodedChildren c)) :: enc_lists (EncodedChildren c) ++ ChildrenVersion c).
Definition ex_UnmarshalBn (b : bytes) : result trie_error CollapsedBn :=
  match b with
  | [] => Err ErrMarshal
  | n :: r =>
      match dec_lists (Z.to_nat n) r with
      | Some (ls, v) => Ok {| EncodedChildren := ls; ChildrenVersion := v |}
      | None => Err ErrMarshal
      end
  end.

Definition ex_MarshalEn (c : CollapsedEn) : result trie_error bytes :=
  Ok (enc_list (en_Key c) ++ enc_list (EncodedChild c) ++ [ChildVersion c]).
Definition ex_UnmarshalEn (b : bytes) : result trie_error CollapsedEn :=
  match dec_lists 2 b with
  | Some ([k; h], [v]) => Ok {| en_Key := k; EncodedChild := h; ChildVersion := v |}
  | _ => Err ErrMarshal
  end.

Definition ex_MarshalLn (c : CollapsedLn) : result trie_error bytes :=
  match ln_Value c with
  | Some v => Ok (enc_list (ln_Key c) ++ enc_list v ++ [ln_Version c])
  | None => Err ErrMarshal
  end.
Definition ex_UnmarshalLn (b : bytes) : result trie_error CollapsedLn :=
  match dec_lists 2 b with
  | Some ([k; v], [ver]) => Ok {| ln_Key := k; ln_Value := Some v; ln_Version := ver |}
  | _ => Err ErrMarshal
  end.

#[export] Instance exX : TrieExternals := {|
  Compute := fun b => 1 :: b;
  MarshalBn := ex_MarshalBn; MarshalEn := ex_MarshalEn; MarshalLn := ex_MarshalLn;
  UnmarshalBn := ex_UnmarshalBn; UnmarshalEn := ex_UnmarshalEn; UnmarshalLn := ex_UnmarshalLn;
  NotSpecified := 0;
|}.

Abbreviation exDB := (gmap bytes bytes).

#[export] Instance exST : TrieStorage exDB := {|
  db_Get := fun D k => match D !! k with Some v => Ok v | None => Err ErrStorage end;
  db_Put := fun D k v => Ok (<[k := v]> D);
|}.

Lemma dec_two a b v : dec_lists 2 (enc_list a ++ enc_list b ++ [v]) = Some ([a; b], [v]).
Proof. rewrite <- (dec_enc_lists [a; b] [v]). cbn [enc_lists length]. by rewrite app_nil_r, <- app_assoc. Qed.

#[export] Instance exX_ok : TrieExternalsOk exX.
Proof.
  constructor; cbn.
  - done.
  - done.
  - intros [ls v]. eexists. split; [done|]. unfold ex_UnmarshalBn. cbn.
    by rewrite Nat2Z.id, dec_enc_lists.
  - intros [k h v]. eexists. split; [done|]. unfold ex_UnmarshalEn. cbn [en_Key EncodedChild ChildVersion].
    by rewrite dec_two.
  - intros [k o ver] v E _. cbn in E. subst o. eexists. split; [done|].
    unfold ex_UnmarshalLn. cbn [ln_Key ln_Version]. by rewrite dec_two.
Qed.

#[export] Instance exHasher_ok : HasherOk exX.
Proof.
  constructor; cbn.
  - intros b. discriminate.
  - intros b H. constructor; [unfold is_byte; lia|done].
Qed.

#[export] Instance exX_cf : CollisionFree exX.
Proof. by intros a b [= ->]. Qed.

#[export] Instance exST_ok : TrieStorageOk exDB exST.
Proof.
  constructor; cbn.
  - intros D k v. eexists. split; [done|]. split.
    + by rewrite lookup_insert_eq.
    + intros k' N. by rewrite lookup_insert_ne.
Qed.

(** ** The concrete trie *)

Definition ex_update (key value : bytes) (version : Z) (tr : patriciaMerkleTrie) : patriciaMerkleTrie :=
  fst (UpdateWithVersion (∅ : exDB) key value version tr).

Definition ex_empty : patriciaMerkleTrie :=
  {| root := None; oldHashes := []; oldRoot := []; maxTrieLevelInMemory := 2 |}.
Definition ex_trie : patriciaMerkleTrie :=
  ex_update [18; 52] [3] 1 (ex_update [33; 52] [2] 1 (ex_update [18; 50] [1] 1 ex_empty)).
Definition ex_map : contents :=
  put [18; 52] [3] 1 (put [33; 52] [2] 1 (put [18; 50] [1] 1 ∅)).

(** The three keys in another order. *)
Definition ex_trie' : patriciaMerkleTrie :=
  ex_update [18; 50] [1] 1 (ex_update [18; 52] [3] 1 (ex_update [33; 52] [2] 1 ex_empty)).

Ltac solve_key := repeat constructor; unfold is_byte; lia.
Ltac solve_entry := split; [done|lia].

Lemma ex_update_rep tr m key value version : TrieRep (∅ : exDB) tr m -> is_key key ->
  entry_ok value version -> TrieRep (∅ : exDB) (ex_update key value version tr) (put key value version m).
Proof.
  intros H Hk Hv. unfold ex_update, UpdateWithVersion.
  by destruct (update_rep ∅ tr m key value version H Hk Hv) as (tr' & -> & ?).
Qed.

Lemma ex_rep : TrieRep (∅ : exDB) ex_trie ex_map.
Proof. repeat (apply ex_update_rep; [|solve_key|solve_entry]). done. Qed.

Lemma ex_map_eq : put [18; 50] [1] 1 (put [18; 52] [3] 1 (put [33; 52] [2] 1 ∅)) = ex_map.
Proof. by vm_compute. Qed.

Lemma ex_rep' : TrieRep (∅ : exDB) ex_trie' ex_map.
Proof. rewrite <- ex_map_eq. repeat (apply ex_update_rep; [|solve_key|solve_entry]). done. Qed.

Lemma change_comm (m : contents) (k1 v1 : bytes) (ver1 : Z) (k2 v2 : bytes) (ver2 : Z) : k1 <> k2 ->
  change k1 v1 ver1 (change k2 v2 ver2 m) = change k2 v2 ver2 (change k1 v1 ver1 m).
Proof.
  intros N. apply map_eq. intros k. rewrite !lookup_change.
  repeat case_decide; simplify_eq; try done.
Qed.

Lemma delete_change (m : contents) (key value : bytes) (version : Z) :
  base.delete key (change key value version m) = base.delete key m.
Proof.
  apply map_eq. intros k. destruct (decide (k = key)) as [->|N].
  - by rewrite !lookup_delete_eq.
  - rewrite !lookup_delete_ne, lookup_change by done. by rewrite decide_False.
Qed.

Section Properties.
Context {X : TrieExternals} {XOk : TrieExternalsOk X} {HOk : HasherOk X}.
Context {DB : Type} {ST : TrieStorage DB}.
Implicit Types (D : DB) (m : contents) (tr : patriciaMerkleTrie).

Lemma change_rep D tr m key value version : TrieRep D tr m -> is_key key -> 0 <= version < 256 ->
  exists tr', UpdateWithVersion D key value version tr = (tr', Ok ()) /\
    TrieRep D tr' (change key value version m).
Proof.
  intros. unfold UpdateWithVersion, change. case_decide as E.
  - subst. by apply delete_rep.
  - by apply update_rep.
Qed.

(** C31. [GetWithVersion] on a trie that holds the map [m] never fails, returns
    the value and the version that [m] has for the key (nil and 0 when it has
    none), and leaves a trie that still holds [m]. *)
Theorem get_refines_map D tr m key (Hrep : TrieRep D tr m) (Hkey : is_key key) :
  exists tr' depth, GetWithVersion D key tr =
      (tr', Ok (fst <$> m !! key, depth, default 0 (snd <$> m !! key))) /\ TrieRep D tr' m.
Proof. by apply GetWithVersion_rep. Qed.

(** C1. [UpdateWithVersion] never fails; with a value it stores value and
    version under the key (a value that is there already keeps its version),
    with the empty value it removes the key; no other key changes. *)
Theorem update_refines_map D tr m key value version
    (Hrep : TrieRep D tr m) (Hkey : is_key key) (Hversion : 0 <= version < 256) :
  exists tr', UpdateWithVersion D key value version tr = (tr', Ok ()) /\
    TrieRep D tr' (change key value version m).
Proof. by apply change_rep. Qed.

(** C2. [Delete] never fails, removes the key and no other, and brings back
    the empty trie (no root) exactly when no key is left. *)
Theorem delete_refines_map D tr m key (Hrep : TrieRep D tr m) (Hkey : is_key key) :
  exists tr', Delete D key tr = (tr', Ok ()) /\ TrieRep D tr' (base.delete key m) /\
    (root tr' = None <-> base.delete key m = ∅).
Proof.
  destruct (delete_rep D tr m key Hrep Hkey) as (tr' & E & H). exists tr'. split_and!; [done..|].
  unfold TrieRep in H. destruct (root tr').
  - split; [done|]. destruct H as (p & Hw & _ & Hm). by intros ?%(holds_nonempty p).
  - done.
Qed.

(** C10. The root hash is defined for every trie and depends on the contents
    only, not on the storage, on what is loaded, or on the updates that led
    there; and (hashes not colliding) it determines the contents. *)
Theorem root_hash_canonical {DB'} {ST' : TrieStorage DB'} D (D' : DB') tr tr' m m' {CF : CollisionFree X}
    (Hrep : TrieRep D tr m) (Hrep' : TrieRep D' tr' m') :
  exists tr1 tr1' h h', RootHash tr = (tr1, Ok h) /\ RootHash tr' = (tr1', Ok h') /\
    TrieRep D tr1 m /\ TrieRep D' tr1' m' /\ (h = h' <-> m = m').
Proof.
  destruct (RootHash_rep D tr m Hrep) as (tr1 & h & E & H & R & _).
  destruct (RootHash_rep D' tr' m' Hrep') as (tr1' & h' & E' & H' & R' & _).
  exists tr1, tr1', h, h'. split_and!; [done..|]. split.
  - intros <-. by eapply root_of_inj.
  - intros <-. by eapply root_of_fun.
Qed.
(** Two updates of different keys give the same root hash in either
    order. *)
Theorem update_order_irrelevant D tr m k1 v1 ver1 k2 v2 ver2 (Hrep : TrieRep D tr m)
    (Hk1 : is_key k1) (Hk2 : is_key k2) (Hk : k1 <> k2)
    (Hv1 : 0 <= ver1 < 256) (Hv2 : 0 <= ver2 < 256) :
  exists h t12 t21,
    (_ ← UpdateWithVersion D k1 v1 ver1; _ ← UpdateWithVersion D k2 v2 ver2; RootHash) tr = (t12, Ok h) /\
    (_ ← UpdateWithVersion D k2 v2 ver2; _ ← UpdateWithVersion D k1 v1 ver1; RootHash) tr = (t21, Ok h).
Proof.
  destruct (change_rep D tr m k1 v1 ver1 Hrep Hk1 Hv1) as (t1 & E1 & H1).
  destruct (change_rep D t1 _ k2 v2 ver2 H1 Hk2 Hv2) as (t12 & E12 & H12).
  destruct (change_rep D tr m k2 v2 ver2 Hrep Hk2 Hv2) as (t2 & E2 & H2).
  destruct (change_rep D t2 _ k1 v1 ver1 H2 Hk1 Hv1) as (t21 & E21 & H21).
  destruct (RootHash_rep D t12 _ H12) as (t12' & h & Eh & _ & R & _).
  destruct (RootHash_rep D t21 _ H21) as (t21' & h' & Eh' & _ & R' & _).
  rewrite (change_comm m k1 v1 ver1 k2 v2 ver2) in R' by done.
  pose proof (root_of_fun _ _ _ R R') as <-.
  exists h, t12', t21'. unfold mbind, se_bind. rewrite E1, E12, E2, E21. done.
Qed.

(** Removing a key that was not there before it was stored restores the
    root hash. *)
Theorem delete_undoes_update D tr m key value version (Hrep : TrieRep D tr m) (Hkey : is_key key)
    (Habsent : m !! key = None) (Hversion : 0 <= version < 256) :
  exists h t1 t2, RootHash tr = (t1, Ok h) /\
    (_ ← UpdateWithVersion D key value version; _ ← Delete D key; RootHash) tr = (t2, Ok h).
Proof.
  destruct (RootHash_rep D tr m Hrep) as (t1 & h & E & _ & R & _).
  destruct (change_rep D tr m key value version Hrep Hkey Hversion) as (tr1 & E1 & H1).
  destruct (delete_rep D tr1 _ key H1 Hkey) as (tr2 & E2 & H2).
  destruct (RootHash_rep D tr2 _ H2) as (t2 & h' & E' & _ & R' & _).
  rewrite delete_change, delete_id in R' by done. pose proof (root_of_fun _ _ _ R R') as <-.
  exists h, t1, t2. split; [done|]. unfold mbind, se_bind, Delete. by rewrite E1, E2.
Qed.

(** [IsMigratedToLatestVersion] never fails, and when it says yes for a
    version other than NotSpecified every entry of the trie has that version. *)
Theorem migrated_entries_have_version D tr m v (Hrep : TrieRep D tr m) :
  exists b, IsMigratedToLatestVersion v tr = Ok b /\
    (b = true -> v <> 0 -> forall key e, m !! key = Some e -> snd e = v).
Proof. by eapply IsMigrated_rep. Qed.

(** C32. [GetProof] finds a proof and the value for the keys of the trie, and
    only for those (it fails for the others); [VerifyProof] accepts the proof
    against the root hash. *)
Theorem merkle_proof_complete D tr m key (Hrep : TrieRep D tr m) (Hkey : is_key key) :
  exists tr', TrieRep D tr' m /\
  match m !! key with
  | Some (v, _) => exists proof h tr0, GetProof D key tr = (tr', Ok (proof, Some v)) /\
      RootHash tr = (tr0, Ok h) /\ VerifyProof h key (map Some proof) = Ok true
  | None => exists e, GetProof D key tr = (tr', Err e)
  end.
Proof.
  destruct (GetProof_rep D tr m key Hrep Hkey) as (tr' & H & G). exists tr'. split; [done|].
  destruct (m !! key) as [[v ver]|]; [|done]. destruct G as (proof & E & Hp & V).
  destruct (RootHash_rep D tr m Hrep) as (tr0 & h & Eh & _ & R & _).
  exists proof, h, tr0. split_and!; [done..|]. apply VerifyProof_complete; auto.
Qed.

(** C12. Hashes not colliding, whatever list of nodes [VerifyProof] accepts
    against the root hash of a trie, the key or its hash is in the trie. *)
Theorem merkle_proof_sound {CF : CollisionFree X} D tr m key proof tr' h (Hrep : TrieRep D tr m)
    (Hkey : is_key key) (Hroot : RootHash tr = (tr', Ok h)) (Hok : VerifyProof h key proof = Ok true) :
  is_Some (m !! Compute key) \/ is_Some (m !! key).
Proof.
  destruct (RootHash_rep D tr m Hrep) as (tr0 & h' & Eh & _ & R & _). rewrite Hroot in Eh. simplify_eq.
  unfold VerifyProof in Hok. destruct (verifyProof h' (Compute key) proof) as [[]|] eqn:V; [| |done].
  - left. eapply verifyProof_sound; eauto. by apply Compute_bytes.
  - right. eapply verifyProof_sound; eauto.
Qed.

Section Commit.
Context {CF : CollisionFree X} {STOk : TrieStorageOk DB ST}.

(** [Commit] never fails, leaves no dirty root, keeps contents and root
    hash, and a second [Commit] changes neither trie nor storage. *)
Theorem commit_keeps_contents D tr m (Hrep : TrieRep D tr m) :
  exists tr' D' h tr1 tr2, Commit (tr, D) = ((tr', D'), Ok ()) /\ TrieRep D' tr' m /\
    RootHash tr = (tr1, Ok h) /\ RootHash tr' = (tr2, Ok h) /\
    Commit (tr', D') = ((tr', D'), Ok ()).
Proof.
  destruct (Commit_rep D tr m Hrep) as (tr' & D' & E & H & _ & _ & _ & C).
  destruct (RootHash_rep D tr m Hrep) as (tr1 & h & E1 & _ & R1 & _).
  destruct (RootHash_rep D' tr' m H) as (tr2 & h' & E2 & _ & R2 & _).
  pose proof (root_of_fun _ _ _ R1 R2) as <-.
  exists tr', D', h, tr1, tr2. split_and!; [done..|].
  unfold Commit, mbind, se_bind, se_get. destruct (root tr') as [n|] eqn:En; [|done].
  by rewrite (C n).
Qed.

(** C11. A committed trie can be read back from the storage by its root hash,
    also after other tries, such as later states of the same trie, were
    committed to that storage. *)
Theorem committed_trie_is_recreated D tr m other m' (Hrep : TrieRep D tr m)
    (Hlevel : maxTrieLevelInMemory tr <> 0)
    (Hrep' : TrieRep D other m') :
  exists tr1 D1 h tr1' other1 D2 tr2,
    Commit (tr, D) = ((tr1, D1), Ok ()) /\ RootHash tr1 = (tr1', Ok h) /\
    Commit (other, D1) = ((other1, D2), Ok ()) /\
    recreate h D2 tr1 = Ok tr2 /\ TrieRep D2 tr2 m /\ TrieRep D2 other1 m'.
Proof.
  destruct (Commit_rep D tr m Hrep) as (tr1 & D1 & E & H & Hc & G & L & _).
  destruct (RootHash_rep D1 tr1 m H) as (tr1' & h & E1 & _ & R & _).
  destruct (Commit_rep D1 other m' (TrieRep_grows _ _ _ _ G Hrep')) as (other1 & D2 & E2 & H2 & _ & G2 & _).
  destruct (recreate_rep D2 tr1 m h R (committed_grows _ _ _ G2 Hc)) as (tr2 & E3 & H3 & _);
    [congruence|].
  exists tr1, D1, h, tr1', other1, D2, tr2. by split_and!.
Qed.
End Commit.
End Properties.

(** ** Witnesses *)

Lemma ex_lookup : ex_map !! [18; 52] = Some ([3], 1).
Proof. by vm_compute. Qed.
Lemma ex_lookup_none : ex_map !! [5] = None.
Proof. by vm_compute. Qed.
Lemma ex_key1 : is_key [18; 52].
Proof. solve_key. Qed.
Lemma ex_key2 : is_key [5].
Proof. solve_key. Qed.

Lemma get_refines_map_witness :
  exists tr' depth, GetWithVersion (∅ : exDB) [18; 52] ex_trie = (tr', Ok (Some [3], depth, 1)) /\
    TrieRep (∅ : exDB) tr' ex_map.
Proof.
  pose proof (get_refines_map (∅ : exDB) ex_trie ex_map [18; 52] ex_rep ex_key1) as H.
  rewrite ex_lookup in H. exact H.
Defined.

Lemma update_refines_map_witness :
  exists tr', UpdateWithVersion (∅ : exDB) [5] [9] 1 ex_trie = (tr', Ok ()) /\
    TrieRep (∅ : exDB) tr' (change [5] [9] 1 ex_map).
Proof.
  apply (update_refines_map (∅ : exDB) ex_trie ex_map [5] [9] 1 ex_rep ex_key2). lia.
Defined.

Lemma delete_refines_map_witness :
  exists tr', Delete (∅ : exDB) [18; 52] ex_trie = (tr', Ok ()) /\
    TrieRep (∅ : exDB) tr' (base.delete [18; 52] ex_map) /\
    (root tr' = None <-> base.delete [18; 52] ex_map = ∅).
Proof. exact (delete_refines_map (∅ : exDB) ex_trie ex_map [18; 52] ex_rep ex_key1). Defined.

Lemma root_hash_canonical_witness :
  exists tr1 tr1' h h', RootHash ex_trie = (tr1, Ok h) /\ RootHash ex_trie' = (tr1', Ok h') /\ h = h'.
Proof.
  destruct (root_hash_canonical (∅ : exDB) (∅ : exDB) ex_trie ex_trie' ex_map ex_map ex_rep ex_rep')
    as (tr1 & tr1' & h & h' & E & E' & _ & _ & _ & H).
  exists tr1, tr1', h, h'. split_and!; [done..|]. by apply H.
Defined.

Lemma update_order_irrelevant_witness :
  exists h t12 t21,
    (_ ← UpdateWithVersion (∅ : exDB) [5] [9] 1; _ ← UpdateWithVersion ∅ [18; 52] [] 0; RootHash) ex_trie
      = (t12, Ok h) /\
    (_ ← UpdateWithVersion (∅ : exDB) [18; 52] [] 0; _ ← UpdateWithVersion ∅ [5] [9] 1; RootHash) ex_trie
      = (t21, Ok h).
Proof.
  apply (update_order_irrelevant (∅ : exDB) ex_trie ex_map [5] [9] 1 [18; 52] [] 0 ex_rep ex_key2 ex_key1);
    [done|lia|lia].
Defined.

Lemma delete_undoes_update_witness :
  exists h t1 t2, RootHash ex_trie = (t1, Ok h) /\
    (_ ← UpdateWithVersion (∅ : exDB) [5] [9] 1; _ ← Delete ∅ [5]; RootHash) ex_trie = (t2, Ok h).
Proof.
  apply (delete_undoes_update (∅ : exDB) ex_trie ex_map [5] [9] 1 ex_rep ex_key2 ex_lookup_none). lia.
Defined.

Lemma migrated_entries_have_version_witness :
  exists b, IsMigratedToLatestVersion 1 ex_trie = Ok b /\
    (b = true -> 1 <> 0 -> forall key e, ex_map !! key = Some e -> snd e = 1).
Proof. exact (migrated_entries_have_version (∅ : exDB) ex_trie ex_map 1 ex_rep). Defined.

Lemma merkle_proof_complete_witness :
  exists tr', TrieRep (∅ : exDB) tr' ex_map /\
    exists proof h tr0, GetProof (∅ : exDB) [18; 52] ex_trie = (tr', Ok (proof, Some [3])) /\
      RootHash ex_trie = (tr0, Ok h) /\ VerifyProof h [18; 52] (map Some proof) = Ok true.
Proof.
  pose proof (merkle_proof_complete (∅ : exDB) ex_trie ex_map [18; 52] ex_rep ex_key1) as H.
  rewrite ex_lookup in H. exact H.
Defined.

(** The root hash and the proof of the key, evaluated. *)
Definition ex_root_hash : bytes :=
  match RootHash ex_trie with (_, Ok h) => h | _ => [] end.
Definition ex_proof : list (option bytes) :=
  match GetProof (∅ : exDB) [18; 52] ex_trie with (_, Ok (proof, _)) => map Some proof | _ => [] end.

Lemma merkle_proof_sound_witness :
  VerifyProof ex_root_hash [18; 52] ex_proof = Ok true /\
  (is_Some (ex_map !! (1 :: [18; 52])) \/ is_Some (ex_map !! [18; 52])).
Proof.
  assert (V : VerifyProof ex_root_hash [18; 52] ex_proof = Ok true) by by vm_compute.
  split; [exact V|].
  apply (merkle_proof_sound (∅ : exDB) ex_trie ex_map [18; 52] ex_proof (fst (RootHash ex_trie))
    ex_root_hash ex_rep ex_key1); [by vm_compute|exact V].
Defined.

Lemma commit_keeps_contents_witness :
  exists tr' D' h tr1 tr2, Commit (ex_trie, ∅ : exDB) = ((tr', D'), Ok ()) /\ TrieRep D' tr' ex_map /\
    RootHash ex_trie = (tr1, Ok h) /\ RootHash tr' = (tr2, Ok h) /\
    Commit (tr', D') = ((tr', D'), Ok ()).
Proof. exact (commit_keeps_contents (∅ : exDB) ex_trie ex_map ex_rep). Defined.

Lemma committed_trie_is_recreated_witness :
  exists tr1 D1 h tr1' other1 D2 tr2,
    Commit (ex_trie, ∅ : exDB) = ((tr1, D1), Ok ()) /\ RootHash tr1 = (tr1', Ok h) /\
    Commit (ex_update [5] [9] 1 ex_trie, D1) = ((other1, D2), Ok ()) /\
    recreate h D2 tr1 = Ok tr2 /\ TrieRep D2 tr2 ex_map /\ TrieRep D2 other1 (put [5] [9] 1 ex_map).
Proof.
  apply (committed_trie_is_recreated (∅ : exDB) ex_trie ex_map (ex_update [5] [9] 1 ex_trie)
    (put [5] [9] 1 ex_map) ex_rep); [by vm_compute|].
  apply ex_update_rep; [exact ex_rep|exact ex_key2|solve_entry].
Defined.
