(* ===== verification/GoValues.v ===== *)
(** * Go strings, byte slices and big integers

    The conversions of the Go library that the system smart contracts use:
    [string(b)] and [[]byte(s)], hexadecimal, [strconv.Itoa], the unsigned
    big-endian bytes of a [big.Int], and signed 64 bit wrap-around.

    ** Decimal numbers in strings and keys

    [strconv.ParseInt(s, 10, 64)], that it reads back what [%d] prints, and
    that fields separated by a byte that is no digit can be told apart. *)

From Stdlib Require Import ZArith Lia String Ascii.
From stdpp Require Import base list strings pretty.
From S2P Require Import Prelude.

(** ** Signed and unsigned machine integers *)

Definition maxUint32 : Z := 2 ^ 32 - 1.
Definition maxUint64 : Z := 2 ^ 64 - 1.

(** A 64 bit pattern read as an [int64]. *)
Definition i64 (x : Z) : Z := (x + 2 ^ 63) mod 2 ^ 64 - 2 ^ 63.

(** A 32 bit pattern read as an [int32]. *)
Definition i32 (x : Z) : Z := (x + 2 ^ 31) mod 2 ^ 32 - 2 ^ 31.

Lemma i64_id x : - 2 ^ 63 <= x < 2 ^ 63 -> i64 x = x.
Proof. intros H. unfold i64. rewrite Z.mod_small by lia. lia. Qed.

Lemma i32_id x : - 2 ^ 31 <= x < 2 ^ 31 -> i32 x = x.
Proof. intros H. unfold i32. rewrite Z.mod_small by lia. lia. Qed.

Lemma u32_id x : 0 <= x < 2 ^ 32 -> u32 x = x.
Proof. intros H. by apply Z.mod_small. Qed.

Lemma u64_id x : 0 <= x < 2 ^ 64 -> u64 x = x.
Proof. intros H. by apply Z.mod_small. Qed.

(** ** Strings *)

(** A Go string is an arbitrary byte sequence, like a byte slice. *)
Definition byte_to_ascii (b : Z) : ascii := ascii_of_nat (Z.to_nat b).
Definition ascii_to_byte (c : ascii) : Z := Z.of_nat (nat_of_ascii c).

(** [string(b)] *)
Definition go_string (b : bytes) : string := string_of_list_ascii (List.map byte_to_ascii b).
(** [[]byte(s)] *)
Definition go_bytes (s : string) : bytes := List.map ascii_to_byte (list_ascii_of_string s).

(** [hex.EncodeToString] *)
Definition hex_digit (n : Z) : ascii :=
  byte_to_ascii (if n <? 10 then 48 + n else 87 + n).
Fixpoint hex_EncodeToString (b : bytes) : string :=
  match b with
  | [] => EmptyString
  | x :: b => String (hex_digit (x / 16)) (String (hex_digit (x mod 16)) (hex_EncodeToString b))
  end.

(** [strconv.Itoa] and [%d] *)
Definition itoa (n : Z) : string := pretty n.

(** The lists of validators (common/constants.go). *)
Definition EligibleList : string := "eligible".
Definition peerWaitingList : string := "waiting".
Definition LeavingList : string := "leaving".
Definition InactiveList : string := "inactive".
Definition JailedList : string := "jailed".
Definition NewList : string := "new".
Definition SelectedFromAuctionList : string := "selectedFromAuction".

Lemma list_ascii_of_string_app s t :
  list_ascii_of_string (s +:+ t) = list_ascii_of_string s ++ list_ascii_of_string t.
Proof.
  induction s as [|c s IH]; [done|].
  change (c :: list_ascii_of_string (s +:+ t) = c :: (list_ascii_of_string s ++ list_ascii_of_string t)).
  by rewrite IH.
Qed.

Lemma go_bytes_app s t : go_bytes (s +:+ t) = go_bytes s ++ go_bytes t.
Proof. unfold go_bytes. by rewrite list_ascii_of_string_app, List.map_app. Qed.

Lemma go_bytes_string (b : bytes) :
  Forall (fun x => 0 <= x < 256) b -> go_bytes (go_string b) = b.
Proof.
  intros H. unfold go_bytes, go_string. rewrite list_ascii_of_string_of_list_ascii, List.map_map.
  induction H as [|x b Hx _ IH]; [done|]. cbn [List.map]. f_equal; [|exact IH].
  unfold ascii_to_byte, byte_to_ascii. rewrite nat_ascii_embedding by lia. lia.
Qed.

(** ** Big integers *)

(** [big.NewInt(0).SetBytes(b)]: big-endian, unsigned. *)
Definition bigSetBytes (b : bytes) : Z := fold_left (fun acc x => acc * 256 + x) b 0.

(** The fuel bounds the number of base 256 digits. *)
Fixpoint bigBytes_loop (fuel : nat) (x : Z) (acc : bytes) : bytes :=
  match fuel with
  | O => acc
  | S fuel => if x <=? 0 then acc else bigBytes_loop fuel (x / 256) (x mod 256 :: acc)
  end.

(** [x.Bytes()]: the absolute value, big-endian, without leading zeros. *)
Definition bigBytes (x : Z) : bytes := bigBytes_loop (Z.to_nat (Z.log2 (Z.abs x)) + 1) (Z.abs x) [].

(** [x.Int64()] and [x.Uint64()]: the low 64 bits. *)
Definition bigInt64 (x : Z) : Z := if x <? 0 then i64 (- (i64 (- x))) else i64 x.
Definition bigUint64 (x : Z) : Z := u64 (Z.abs x).

Lemma bigSetBytes_acc (b : bytes) a :
  fold_left (fun acc x => acc * 256 + x) b a = a * 256 ^ Z.of_nat (length b) + bigSetBytes b.
Proof.
  unfold bigSetBytes. revert a. induction b as [|x b IH]; intros a; cbn [fold_left length].
  - rewrite Z.pow_0_r. lia.
  - rewrite (IH (a * 256 + x)), (IH (0 * 256 + x)), Nat2Z.inj_succ, Z.pow_succ_r by lia. lia.
Qed.

Lemma bigBytes_loop_spec fuel : forall x acc,
  0 <= x < 2 ^ Z.of_nat fuel ->
  bigSetBytes (bigBytes_loop fuel x acc) = x * 256 ^ Z.of_nat (length acc) + bigSetBytes acc.
Proof.
  induction fuel as [|fuel IH]; intros x acc H; cbn [bigBytes_loop].
  - change (2 ^ Z.of_nat 0) with 1 in H. replace x with 0 by lia. lia.
  - destruct (Z.leb_spec x 0) as [L|L].
    + replace x with 0 by lia. lia.
    + rewrite IH.
      * unfold bigSetBytes at 1. cbn [fold_left]. rewrite bigSetBytes_acc. cbn [length].
        rewrite Nat2Z.inj_succ, Z.pow_succ_r by lia.
        pose proof (Z.div_mod x 256). nia.
      * rewrite Nat2Z.inj_succ, Z.pow_succ_r in H by lia.
        split; [apply Z.div_pos; lia|].
        apply Z.div_lt_upper_bound; lia.
Qed.

(** Reading back the bytes of a non-negative integer. *)
Lemma bigSetBytes_bigBytes x : 0 <= x -> bigSetBytes (bigBytes x) = x.
Proof.
  intros H. unfold bigBytes. rewrite Z.abs_eq by done. rewrite bigBytes_loop_spec.
  - cbn. lia.
  - split; [done|]. rewrite Nat2Z.inj_add, Z2Nat.id by apply Z.log2_nonneg.
    destruct (Z.eq_dec x 0) as [->|N]; [done|].
    pose proof (Z.log2_spec x ltac:(lia)). replace (Z.log2 x + Z.of_nat 1) with (Z.succ (Z.log2 x)) by lia. lia.
Qed.

Definition digitOf (c : ascii) : option Z :=
  let n := ascii_to_byte c in if (48 <=? n) && (n <=? 57) then Some (n - 48) else None.

Fixpoint parseDigits (acc : Z) (s : string) : option Z :=
  match s with
  | EmptyString => Some acc
  | String c s => match digitOf c with Some d => parseDigits (acc * 10 + d) s | None => None end
  end.

(** At least one digit after an optional sign, and no overflow. *)
Definition ParseInt64 (s : string) : option Z :=
  let number s := match s with EmptyString => None | _ => parseDigits 0 s end in
  let signed := match s with
                | String "-"%char s => Z.opp <$> number s
                | String "+"%char s => number s
                | _ => number s
                end in
  match signed with
  | Some x => if (- 2 ^ 63 <=? x) && (x <? 2 ^ 63) then Some x else None
  | None => None
  end.

Definition isDigit (c : ascii) : Prop := is_Some (digitOf c).

Lemma digit_char x : (x < 10)%N -> digitOf (pretty_N_char x) = Some (Z.of_N x).
Proof.
  intros B. assert (x = 0 \/ x = 1 \/ x = 2 \/ x = 3 \/ x = 4 \/ x = 5 \/ x = 6 \/ x = 7 \/ x = 8 \/ x = 9)%N as C by lia.
  repeat (destruct C as [-> |C]; [reflexivity|]). by subst.
Qed.

Lemma parseDigits_go x : forall s, parseDigits 0 (pretty_N_go x s) = parseDigits (Z.of_N x) s.
Proof.
  induction (N.lt_wf_0 x) as [x _ IH]. intros s. destruct (decide (x = 0)%N) as [->|Hx].
  - by rewrite pretty_N_go_0.
  - rewrite pretty_N_go_step by lia. rewrite IH by (apply N.div_lt; lia). cbn [parseDigits].
    rewrite digit_char by (apply N.mod_lt; lia). f_equal.
    pose proof (N.div_mod x 10 ltac:(lia)). lia.
Qed.

Lemma digits_go x : forall s, Forall isDigit (list_ascii_of_string s) ->
  Forall isDigit (list_ascii_of_string (pretty_N_go x s)).
Proof.
  induction (N.lt_wf_0 x) as [x _ IH]. intros s D. destruct (decide (x = 0)%N) as [->|Hx].
  - by rewrite pretty_N_go_0.
  - rewrite pretty_N_go_step by lia. apply IH; [apply N.div_lt; lia|]. constructor; [|done].
    unfold isDigit. rewrite digit_char by (apply N.mod_lt; lia). by eexists.
Qed.

Lemma itoa_N x : 0 <= x -> itoa x = if decide (x = 0) then "0" else pretty_N_go (Z.to_N x) EmptyString.
Proof.
  intros Hx. unfold itoa. destruct x as [|p|p]; [reflexivity| |lia].
  rewrite decide_False by done. reflexivity.
Qed.

Lemma itoa_digits x : 0 <= x -> Forall isDigit (list_ascii_of_string (itoa x)).
Proof.
  intros Hx. rewrite itoa_N by done. destruct (decide (x = 0)).
  - constructor; [by eexists|constructor].
  - apply digits_go. constructor.
Qed.

Lemma itoa_nonempty x : 0 <= x -> itoa x <> EmptyString.
Proof.
  intros Hx E. rewrite itoa_N in E by done. destruct (decide (x = 0)); [done|].
  assert (P : parseDigits 0 (pretty_N_go (Z.to_N x) EmptyString) = Some 0) by (by rewrite E).
  rewrite parseDigits_go in P. cbn in P. injection P as P. lia.
Qed.

Lemma ParseInt64_itoa x : 0 <= x < 2 ^ 63 -> ParseInt64 (itoa x) = Some x.
Proof.
  intros B. pose proof (itoa_digits x ltac:(lia)) as D. pose proof (itoa_nonempty x ltac:(lia)) as Ne.
  assert (P : parseDigits 0 (itoa x) = Some x).
  { rewrite itoa_N by lia. destruct (decide (x = 0)) as [->|N0]; [done|].
    rewrite parseDigits_go. cbn. f_equal. lia. }
  unfold ParseInt64. destruct (itoa x) as [|c s]; [done|]. inversion D as [|? ? Dc _]; subst.
  assert (E : forall (a b c0 : option Z), match c with "-"%char => a | "+"%char => b | _ => c0 end = c0).
  { intros a b c0. destruct Dc as [d Dd]. destruct c as [[] [] [] [] [] [] [] []]; done. }
  rewrite E, P. rewrite (proj2 (Z.leb_le _ _)), (proj2 (Z.ltb_lt _ _)) by lia. done.
Qed.

(** ** Fields *)

(** A field without the separator is determined by the whole. *)
Lemma field_split {A} (x : A) a d a' d' : a ++ x :: d = a' ++ x :: d' -> x ∉ d -> x ∉ d' -> a = a' /\ d = d'.
Proof.
  intros E N N'. apply app_eq_app in E as [l [[-> E]|[-> E]]]; destruct l as [|y l]; cbn in E.
  - injection E as ->. by rewrite app_nil_r.
  - injection E as <- ->. exfalso. apply N'. apply elem_of_app. right. left.
  - injection E as ->. by rewrite app_nil_r.
  - injection E as <- ->. exfalso. apply N. apply elem_of_app. right. left.
Qed.

Lemma itoa_bytes x b : 0 <= x -> b ∈ go_bytes (itoa x) -> 48 <= b <= 57.
Proof.
  intros Hx Hb. apply list_elem_of_fmap in Hb as (c & -> & Hc). pose proof (itoa_digits x Hx) as D.
  rewrite Forall_forall in D. destruct (D c Hc) as [d E]. unfold digitOf in E.
  destruct (_ && _) eqn:F; [|done]. bool_prop. lia.
Qed.

Lemma ascii_to_byte_inj c d : ascii_to_byte c = ascii_to_byte d -> c = d.
Proof. intros E%Nat2Z.inj. rewrite <- (ascii_nat_embedding c), <- (ascii_nat_embedding d). by f_equal. Qed.

Lemma go_bytes_inj s t : go_bytes s = go_bytes t -> s = t.
Proof.
  revert t. induction s as [|c s IH]; intros [|d t]; cbn; try done.
  intros [= E1 E2]. apply Nat2Z.inj in E1. f_equal; [|by apply IH].
  apply ascii_to_byte_inj. unfold ascii_to_byte. by rewrite E1.
Qed.

Lemma itoa_bytes_inj x y : go_bytes (itoa x) = go_bytes (itoa y) -> x = y.
Proof. intros E%go_bytes_inj. unfold itoa in E. by apply (inj pretty) in E. Qed.
