(* ===== verification/GoCollections.v ===== *)
(** * Maps and sorted slices of the Go library

    The order in which [range] visits a map, which Go leaves open, and the
    binary search [sort.Search].

    ** container/heap of the Go library

    A heap in a slice, with the comparison [less] of its user: [Push] appends
    and moves up, [Pop] swaps the root with the last element, moves down and
    cuts off the last.  The loops get the length of the slice as fuel. *)

From Stdlib Require Import Arith Lia.
From stdpp Require Import base gmap list.
From S2P Require Import Prelude.

(** The order in which [range] visits the keys of a map of strings. *)
Class KeyRange := rangeKeys : gset bytes -> list bytes.
Class KeyRangeOk (KR : KeyRange) : Prop := rangeKeys_perm : forall X, rangeKeys X ≡ₚ elements X.

(** The entries of a map in that order. *)
Definition rangeMap {KR : KeyRange} {A} (m : gmap bytes A) : list (bytes * A) :=
  omap (fun k => v ← m !! k; Some (k, v)) (rangeKeys (dom m)).

(** The index of the first element that satisfies [f], the length without. *)
Fixpoint firstIndex {A} (f : A -> bool) (l : list A) : nat :=
  match l with
  | [] => 0
  | x :: l => if f x then 0 else S (firstIndex f l)
  end.

(** The loop of [sort.Search]. *)
Fixpoint Search_loop (fuel : nat) (f : nat -> bool) (i j : nat) : nat :=
  match fuel with
  | O => i
  | S fuel =>
      if Nat.ltb i j then
        let h := Nat.div (i + j) 2 in
        if f h then Search_loop fuel f i h else Search_loop fuel f (S h) j
      else i
  end.
Definition sort_Search (n : nat) (f : nat -> bool) : nat := Search_loop n f 0 n.

Local Open Scope nat_scope.

(** [f] is false up to some index and true from there. *)
Definition monotone (n : nat) (f : nat -> bool) : Prop := forall a b, a <= b < n -> f a = true -> f b = true.

Lemma Search_loop_spec f n fuel : monotone n f -> forall i j, j - i <= fuel -> i <= j <= n ->
  (forall k, k < i -> f k = false) -> (forall k, j <= k < n -> f k = true) ->
  let r := Search_loop fuel f i j in
  r <= n /\ (forall k, k < r -> f k = false) /\ (forall k, r <= k < n -> f k = true).
Proof.
  intros M. induction fuel as [|fuel IH]; intros i j Hf Hij H0 H1.
  - cbn. assert (i = j) as -> by lia. auto with lia.
  - cbn [Search_loop]. destruct (Nat.ltb_spec i j) as [L|L].
    2:{ assert (i = j) as -> by lia. auto with lia. }
    pose proof (Nat.div_mod_eq (i + j) 2). pose proof (Nat.mod_upper_bound (i + j) 2 ltac:(lia)).
    set (h := Nat.div (i + j) 2) in *. assert (Hh : i <= h < j) by lia. cbv zeta. destruct (f h) eqn:E.
    + apply IH; [lia|lia|done|]. intros k Hk. apply (M h k); [lia|done].
    + apply IH; [lia|lia| |done]. intros k Hk. destruct (f k) eqn:Ek; [|done].
      rewrite (M k h ltac:(lia) Ek) in E. done.
Qed.

(** [sort.Search] finds the first index at which a monotone function holds. *)
Lemma sort_Search_spec n f : monotone n f ->
  sort_Search n f <= n /\ (forall k, k < sort_Search n f -> f k = false) /\
  (forall k, sort_Search n f <= k < n -> f k = true).
Proof. intros M. apply Search_loop_spec; [done|lia..]. Qed.

Lemma firstIndex_spec {A} (f : A -> bool) l :
  firstIndex f l <= length l /\
  Forall (fun x => f x = false) (take (firstIndex f l) l) /\
  (forall x, l !! firstIndex f l = Some x -> f x = true).
Proof.
  induction l as [|x l (L & F & N)]; cbn; [done|]. destruct (f x) eqn:E; cbn.
  - split; [lia|]. split; [done|]. by intros y [= <-].
  - split; [lia|]. split; [by constructor|done].
Qed.

Lemma elem_of_rangeMap {KR : KeyRange} {KOk : KeyRangeOk KR} {A} (m : gmap bytes A) k v :
  (k, v) ∈ rangeMap m <-> m !! k = Some v.
Proof.
  unfold rangeMap. rewrite list_elem_of_omap. setoid_rewrite rangeKeys_perm. setoid_rewrite elem_of_elements. split.
  - intros (k' & _ & E). destruct (m !! k') as [v'|] eqn:E'; cbn in E; [|done]. by injection E as -> ->.
  - intros E. exists k. split; [by apply elem_of_dom_2 in E|]. by rewrite E.
Qed.

Local Open Scope nat_scope.

Section Heap.
Context {A : Type} (less : A -> A -> bool).
Implicit Types (items : list A).

(** [h.Less(i, j)] and [h.Swap(i, j)]: both panic out of range, which no call
    below is. *)
Definition Less items (i j : nat) : bool :=
  match items !! i, items !! j with Some a, Some b => less a b | _, _ => false end.
Definition Swap items (i j : nat) : list A :=
  match items !! i, items !! j with Some a, Some b => <[i := b]> (<[j := a]> items) | _, _ => items end.

Definition parent (j : nat) : nat := (j - 1) / 2.

Fixpoint up (fuel : nat) items (j : nat) : list A :=
  match fuel with
  | O => items
  | S fuel =>
      let i := parent j in
      if (i =? j) || negb (Less items j i) then items
      else up fuel (Swap items i j) i
  end.

Fixpoint down (fuel : nat) items (i n : nat) : list A :=
  match fuel with
  | O => items
  | S fuel =>
      let j1 := 2 * i + 1 in
      if n <=? j1 then items
      else
        let j2 := j1 + 1 in
        let j := if (j2 <? n) && Less items j2 j1 then j2 else j1 in
        if negb (Less items j i) then items
        else down fuel (Swap items i j) j n
  end.

Definition heap_Push (x : A) items : list A :=
  let items := items ++ [x] in
  up (length items) items (length items - 1).

Definition heap_Pop items : option (A * list A) :=
  match items with
  | [] => None
  | _ :: _ =>
      let n := length items - 1 in
      let items := down n (Swap items 0 n) 0 n in
      x ← items !! n; Some (x, take n items)
  end.

(** ** Swapping *)

Lemma Swap_length items i j : length (Swap items i j) = length items.
Proof. unfold Swap. destruct (items !! i), (items !! j); rewrite ?length_insert; done. Qed.

Lemma lookup_Swap items i j k a b : items !! i = Some a -> items !! j = Some b ->
  Swap items i j !! k = if decide (k = i) then Some b else if decide (k = j) then Some a else items !! k.
Proof.
  intros Ea Eb. unfold Swap. rewrite Ea, Eb. pose proof (lookup_lt_Some _ _ _ Ea). pose proof (lookup_lt_Some _ _ _ Eb).
  destruct (decide (k = i)) as [->|Ni].
  - by rewrite list_lookup_insert_eq by (rewrite length_insert; done).
  - rewrite list_lookup_insert_ne by done. destruct (decide (k = j)) as [->|Nj].
    + by rewrite list_lookup_insert_eq.
    + by rewrite list_lookup_insert_ne.
Qed.

Lemma Swap_perm items i j : Swap items i j ≡ₚ items.
Proof.
  unfold Swap. destruct (items !! i) as [a|] eqn:Ea, (items !! j) as [b|] eqn:Eb; try done.
  by apply Permutation_insert_swap.
Qed.

Lemma up_perm fuel items j : up fuel items j ≡ₚ items.
Proof.
  revert items j. induction fuel as [|fuel IH]; intros items j; [done|]. cbn.
  destruct (_ || _); [done|]. by rewrite IH, Swap_perm.
Qed.

Lemma down_perm fuel items i n : down fuel items i n ≡ₚ items.
Proof.
  revert items i. induction fuel as [|fuel IH]; intros items i; [done|]. cbn [down].
  destruct (n <=? _); [done|]. destruct (negb _); [done|]. by rewrite IH, Swap_perm.
Qed.

Lemma down_length fuel items i n : length (down fuel items i n) = length items.
Proof. apply Permutation_length, down_perm. Qed.

Lemma heap_Push_perm x items : heap_Push x items ≡ₚ x :: items.
Proof. unfold heap_Push. rewrite up_perm. apply Permutation_app_comm. Qed.

(** [down] leaves everything from [n] on alone. *)
Lemma lookup_down fuel items i n k : i < n <= length items -> n <= k -> down fuel items i n !! k = items !! k.
Proof.
  revert items i. induction fuel as [|fuel IH]; intros items i Hn Hk; [done|]. cbn [down].
  destruct (Nat.leb_spec n (2 * i + 1)) as [|H1]; [done|].
  set (j := if _ && _ then _ else _).
  assert (Hj : i < j < n).
  { subst j. destruct (Nat.ltb_spec (2 * i + 1 + 1) n) as [|]; cbn [andb]; [destruct (Less _ _ _)|]; lia. }
  destruct (negb _); [done|]. rewrite IH by (rewrite ?Swap_length; lia).
  destruct (items !! i) as [a|] eqn:Ea; [|apply lookup_ge_None in Ea; lia].
  destruct (items !! j) as [b|] eqn:Eb; [|apply lookup_ge_None in Eb; lia].
  rewrite (lookup_Swap items i j k a b) by done. rewrite !decide_False by lia. done.
Qed.

Lemma heap_Pop_perm items x rest : heap_Pop items = Some (x, rest) -> items ≡ₚ x :: rest.
Proof.
  destruct items as [|y ys] eqn:E; [done|]. rewrite <- E. unfold heap_Pop. rewrite E at 1. cbv zeta.
  set (n := length items - 1). set (l := down n (Swap items 0 n) 0 n).
  assert (Hl : length l = S n).
  { unfold l. rewrite down_length, Swap_length. subst n. rewrite E. cbn. lia. }
  destruct (l !! n) as [z|] eqn:Ez; cbn; [|done]. intros [= <- <-].
  transitivity l; [unfold l; by rewrite down_perm, Swap_perm|].
  rewrite <- (firstn_all l) at 1. rewrite Hl, (take_S_r _ _ _ Ez). symmetry. apply Permutation_cons_append.
Qed.

Lemma heap_Pop_nil items : heap_Pop items = None <-> items = [].
Proof.
  split; [|by intros ->]. destruct items as [|y ys] eqn:E; [done|]. rewrite <- E. unfold heap_Pop. rewrite E at 1.
  cbv zeta. destruct (_ !! _) as [z|] eqn:Ez; cbn; [done|]. apply lookup_ge_None in Ez.
  rewrite down_length, Swap_length, E in Ez. cbn in Ez. lia.
Qed.

(** ** The order *)

(** [le a b]: [b] does not go before [a]. *)
Definition le (a b : A) : Prop := less b a = false.

Class TotalOrder : Prop := {
  less_asym a b : less a b = true -> less b a = false;
  le_trans a b c : le a b -> le b c -> le a c;
}.

Context {TO : TotalOrder}.

Lemma le_refl a : le a a.
Proof. unfold le. destruct (less a a) eqn:E; [|done]. by rewrite (less_asym a a E) in E. Qed.

Definition leAt items (i k : nat) : Prop := forall a b, items !! i = Some a -> items !! k = Some b -> le a b.

(** The first [n] elements are a heap. *)
Definition heapOrd items (n : nat) : Prop := forall k, 0 < k < n -> leAt items (parent k) k.

Lemma parent_lt k : 0 < k -> parent k < k.
Proof. intros H. unfold parent. apply Nat.Div0.div_lt_upper_bound. lia. Qed.

Lemma parent_children i k : 0 < k -> parent k = i -> k = 2 * i + 1 \/ k = 2 * i + 2.
Proof.
  intros H E. unfold parent in E. pose proof (Nat.div_mod_eq (k - 1) 2) as D.
  pose proof (Nat.mod_upper_bound (k - 1) 2 ltac:(lia)). lia.
Qed.

Lemma parent_left i : parent (2 * i + 1) = i.
Proof. unfold parent. rewrite Nat.add_sub, Nat.mul_comm. by apply Nat.div_mul. Qed.

Lemma parent_right i : parent (2 * i + 1 + 1) = i.
Proof.
  unfold parent. replace (2 * i + 1 + 1 - 1) with (1 + i * 2) by lia. by rewrite Nat.div_add by done.
Qed.

(** The root goes first. *)
Lemma heapOrd_root items n k : heapOrd items n -> k < n -> n <= length items -> leAt items 0 k.
Proof.
  intros H. induction k as [k IH] using (well_founded_induction lt_wf). intros Hk Hn.
  destruct (decide (k = 0)) as [->|N].
  - intros a b Ea Eb. rewrite Ea in Eb. injection Eb as <-. apply le_refl.
  - pose proof (parent_lt k ltac:(lia)) as P. intros a b Ea Eb.
    destruct (items !! parent k) as [c|] eqn:Ec; [|apply lookup_ge_None in Ec; lia].
    eapply le_trans; [eapply (IH (parent k)); eauto; lia|]. eapply (H k); [lia|done|done].
Qed.

Lemma le_of_less a b : less a b = true -> le a b.
Proof. apply less_asym. Qed.

Lemma Less_at items i j a b : items !! i = Some a -> items !! j = Some b -> Less items i j = less a b.
Proof. intros Ea Eb. unfold Less. by rewrite Ea, Eb. Qed.

(** While an element moves up from [j], only it may go before its parent. *)
Record risingAt items (n j : nat) : Prop := {
  rising_others k : 0 < k < n -> k <> j -> leAt items (parent k) k;
  rising_grand k : 0 < k < n -> parent k = j -> 0 < j -> leAt items (parent j) k;
}.

Lemma rising_swap items n j a b : risingAt items n j -> j < n -> parent j <> j ->
  items !! parent j = Some a -> items !! j = Some b -> less b a = true ->
  risingAt (Swap items (parent j) j) n (parent j).
Proof.
  intros [O G] Hj Nj Ea Eb L. assert (J : 0 < j) by (destruct j; [done|lia]). pose proof (parent_lt j J) as P.
  pose proof (fun k => lookup_Swap items (parent j) j k a b Ea Eb) as S.
  constructor; intros k Hk; [intros Nk|intros Pk Hp]; intros x y; rewrite !S.
  - rewrite (decide_False (P := k = parent j)) by done. destruct (decide (k = j)) as [->|Nkj].
    + rewrite decide_True by done. intros [= <-] [= <-]. by apply le_of_less.
    + intros Ex Ey. destruct (decide (parent k = parent j)) as [Q|Q].
      * injection Ex as <-. apply (le_trans b a y); [by apply le_of_less|]. eapply (O k); [done..|by rewrite Q|done].
      * destruct (decide (parent k = j)) as [Q'|Q']; [|by eapply (O k)].
        injection Ex as <-. by eapply (G k).
  - pose proof (parent_lt _ Hp) as P'. rewrite (decide_False (P := parent (parent j) = parent j)) by lia.
    rewrite (decide_False (P := parent (parent j) = j)) by lia.
    rewrite (decide_False (P := k = parent j)) by (intros ->; pose proof (parent_lt (parent j) ltac:(lia)); lia).
    intros Ex. destruct (decide (k = j)) as [->|Nkj].
    + intros [= <-]. eapply (O (parent j)); [lia|lia|done|done].
    + intros Ey. apply (le_trans x a y); [eapply (O (parent j)); [lia|lia|done|done]|].
      eapply (O k); [done|done|by rewrite Pk|done].
Qed.

Lemma up_heapOrd fuel : forall items j, j < length items -> j < fuel -> risingAt items (length items) j ->
  heapOrd (up fuel items j) (length items).
Proof.
  induction fuel as [|fuel IH]; intros items j Hj Hf R; [lia|]. cbn [up]. cbv zeta.
  destruct (items !! parent j) as [a|] eqn:Ea.
  2:{ apply lookup_ge_None in Ea. destruct (decide (0 < j)) as [J|J]; [pose proof (parent_lt j J); lia|].
      assert (j = 0) as -> by lia. cbn in Ea. lia. }
  destruct (items !! j) as [b|] eqn:Eb; [|apply lookup_ge_None in Eb; lia].
  rewrite (Less_at _ _ _ _ _ Eb Ea). destruct (Nat.eqb_spec (parent j) j) as [Q|Q]; cbn [orb].
  - assert (j = 0) as -> by (destruct (decide (0 < j)) as [J|J]; [pose proof (parent_lt j J); lia|lia]).
    intros k Hk. apply (rising_others _ _ _ R); lia.
  - destruct (less b a) eqn:L; cbn [negb].
    + rewrite <- (Swap_length items (parent j) j).
      pose proof (parent_lt j ltac:(destruct j; [done|lia])) as P.
      apply IH; rewrite ?Swap_length; [lia|lia|]. by apply (rising_swap items _ j a b).
    + intros k Hk. destruct (decide (k = j)) as [->|Nk]; [|by apply (rising_others _ _ _ R)].
      intros x y Ex Ey. congruence.
Qed.

Lemma heap_Push_heapOrd x items : heapOrd items (length items) ->
  heapOrd (heap_Push x items) (length (heap_Push x items)).
Proof.
  intros H. unfold heap_Push at 2. rewrite (Permutation_length (up_perm _ _ _)).
  unfold heap_Push. rewrite length_app. cbn [length]. rewrite Nat.add_sub.
  rewrite <- (length_app items [x]) at 2. apply up_heapOrd; rewrite ?length_app; cbn [length]; [lia|lia|].
  constructor.
  - intros k Hk Nk a b. pose proof (parent_lt k ltac:(lia)) as P. rewrite !lookup_app_l by lia.
    apply (H k). lia.
  - intros k Hk Pk. pose proof (parent_lt k ltac:(lia)). lia.
Qed.

(** While an element moves down from [i], only its children may go before it. *)
Record sinkingAt items (n i : nat) : Prop := {
  sinking_others k : 0 < k < n -> parent k <> i -> leAt items (parent k) k;
  sinking_grand k : 0 < k < n -> parent k = i -> 0 < i -> leAt items (parent i) k;
}.

Lemma sinking_swap items n i j a b : sinkingAt items n i -> 0 < j < n -> parent j = i ->
  items !! i = Some a -> items !! j = Some b -> less b a = true ->
  (forall k, 0 < k < n -> parent k = i -> leAt items j k) ->
  sinkingAt (Swap items i j) n j.
Proof.
  intros [O G] Hj Pj Ea Eb L M. pose proof (parent_lt j ltac:(lia)) as P.
  pose proof (fun k => lookup_Swap items i j k a b Ea Eb) as S.
  constructor; intros k Hk Pk; [|intros _]; intros x y; rewrite !S; pose proof (parent_lt k ltac:(lia)) as Pk'.
  - rewrite (decide_False (P := parent k = j)) by done. destruct (decide (parent k = i)) as [Q|Q].
    + intros [= <-]. rewrite (decide_False (P := k = i)) by lia. destruct (decide (k = j)) as [->|Nk].
      * intros [= <-]. by apply le_of_less.
      * intros Ey. by eapply (M k).
    + intros Ex. destruct (decide (k = i)) as [->|Ni].
      * intros [= <-]. by eapply (G j); try done; lia.
      * rewrite (decide_False (P := k = j)) by congruence. by eapply (O k).
  - rewrite (decide_False (P := k = i)), (decide_False (P := k = j)) by lia.
    rewrite decide_True by done. intros [= <-] Ey. eapply (O k); [done|lia|by rewrite Pk|done].
Qed.

(** The child that goes first. *)
Lemma first_child items n i : 2 * i + 1 < n -> n <= length items ->
  let j := if (2 * i + 1 + 1 <? n) && Less items (2 * i + 1 + 1) (2 * i + 1) then 2 * i + 1 + 1 else 2 * i + 1 in
  0 < j < n /\ parent j = i /\ (forall k, 0 < k < n -> parent k = i -> leAt items j k).
Proof.
  intros Hn Hl. assert (R : forall k, leAt items k k).
  { intros k a b Ea Eb. rewrite Ea in Eb. injection Eb as <-. apply le_refl. }
  destruct (items !! (2 * i + 1)) as [a|] eqn:Ea; [|apply lookup_ge_None in Ea; lia].
  destruct (Nat.ltb_spec (2 * i + 1 + 1) n) as [H2|H2]; cbn [andb].
  - destruct (items !! (2 * i + 1 + 1)) as [b|] eqn:Eb; [|apply lookup_ge_None in Eb; lia].
    rewrite (Less_at _ _ _ _ _ Eb Ea). destruct (less b a) eqn:L; cbv zeta; (split; [lia|]); split;
      try apply parent_left; try apply parent_right; intros k Hk Pk;
      destruct (parent_children i k ltac:(lia) Pk) as [->| ->];
      rewrite ?(ltac:(lia) : 2 * i + 2 = 2 * i + 1 + 1); try apply R; intros x y Ex Ey; try congruence.
    rewrite Ex in Eb. injection Eb as ->. rewrite Ey in Ea. injection Ea as ->. by apply le_of_less.
  - cbv zeta. split; [lia|]. split; [apply parent_left|]. intros k Hk Pk.
    destruct (parent_children i k ltac:(lia) Pk) as [->| ->]; [apply R|lia].
Qed.

Lemma down_heapOrd fuel : forall items i n, i < n <= length items -> n - i <= fuel -> sinkingAt items n i ->
  heapOrd (down fuel items i n) n.
Proof.
  induction fuel as [|fuel IH]; intros items i n Hn Hf R; [lia|]. cbn [down].
  destruct (Nat.leb_spec n (2 * i + 1)) as [H1|H1].
  - intros k Hk. apply (sinking_others _ _ _ R); [done|]. intros Q.
    destruct (parent_children i k ltac:(lia) Q); lia.
  - destruct (first_child items n i H1 ltac:(lia)) as (Hj & Pj & M). revert Hj Pj M. cbv zeta.
    set (j := if _ && _ then _ else _). intros Hj Pj M. pose proof (parent_lt j ltac:(lia)) as P.
    destruct (items !! i) as [a|] eqn:Ea; [|apply lookup_ge_None in Ea; lia].
    destruct (items !! j) as [b|] eqn:Eb; [|apply lookup_ge_None in Eb; lia].
    rewrite (Less_at _ _ _ _ _ Eb Ea). destruct (less b a) eqn:L; cbn [negb].
    + apply IH; rewrite ?Swap_length; [lia|lia|]. by apply (sinking_swap items n i j a b).
    + intros k Hk. destruct (decide (parent k = i)) as [Q|Q]; [|by apply (sinking_others _ _ _ R)].
      intros x y Ex Ey. rewrite Q in Ex. rewrite Ea in Ex. injection Ex as <-.
      apply (le_trans a b y); [exact L|]. by eapply (M k).
Qed.

Lemma heapOrd_swapped items : heapOrd items (length items) -> 0 < length items - 1 ->
  sinkingAt (Swap items 0 (length items - 1)) (length items - 1) 0.
Proof.
  intros H Hn. set (n := length items - 1) in *.
  destruct (items !! 0) as [a|] eqn:Ea; [|apply lookup_ge_None in Ea; lia].
  destruct (items !! n) as [b|] eqn:Eb; [|apply lookup_ge_None in Eb; lia].
  constructor; [|lia]. intros k Hk Pk x y. pose proof (parent_lt k ltac:(lia)) as P.
  rewrite !(lookup_Swap items 0 n _ a b) by done. rewrite !decide_False by lia. apply (H k). lia.
Qed.

(** What [Pop] returns goes first, and leaves a heap. *)
Lemma heap_Pop_min items x rest : heapOrd items (length items) -> heap_Pop items = Some (x, rest) ->
  (forall y, y ∈ items -> le x y) /\ heapOrd rest (length rest).
Proof.
  intros H. destruct items as [|z zs] eqn:E; [done|]. rewrite <- E in *. unfold heap_Pop. rewrite E at 1. cbv zeta.
  assert (Hz : items !! 0 = Some z) by (by rewrite E). set (n := length items - 1).
  assert (Hl : length items = S n) by (subst n; rewrite E; cbn; lia).
  destruct (items !! n) as [b|] eqn:Eb; [|apply lookup_ge_None in Eb; lia].
  destruct (down n (Swap items 0 n) 0 n !! n) as [w|] eqn:Ew; cbn; [|done]. intros [= <- <-]. split.
  - assert (w = z) as ->.
    { destruct (decide (0 < n)) as [N|N].
      - rewrite lookup_down in Ew by (rewrite ?Swap_length; lia).
        rewrite (lookup_Swap items 0 n n z b) in Ew by done. rewrite decide_False, decide_True in Ew by lia. congruence.
      - replace n with 0 in Ew by lia. cbn in Ew.
        rewrite (lookup_Swap items 0 0 0 z z) in Ew by done. rewrite decide_True in Ew by done. congruence. }
    intros y Hy. apply list_elem_of_lookup in Hy as [k Ek]. pose proof (lookup_lt_Some _ _ _ Ek).
    by apply (heapOrd_root items (length items) k H ltac:(lia) ltac:(lia)).
  - rewrite length_take, down_length, Swap_length. replace (n `min` length items) with n by lia.
    assert (O : heapOrd (down n (Swap items 0 n) 0 n) n).
    { destruct (decide (0 < n)) as [N|N]; [|intros k Hk; lia].
      apply down_heapOrd; rewrite ?Swap_length; [lia|lia|]. by apply heapOrd_swapped. }
    intros k Hk a c. pose proof (parent_lt k ltac:(lia)). rewrite !lookup_take_lt by lia. by apply O.
Qed.
End Heap.
