(* ===== verification/SystemEI.v ===== *)
(** * The environment interface of the system smart contracts

    [SystemEI] (src/vm/interface.go) is what a system smart contract sees of
    the context it runs in: its storage, the return message and data, gas, calls
    to other contracts, and the state of the chain.  The contracts are
    translated against this class; [SystemEIOk] states what they rely on, and
    Eei.v shows that [vmContext] provides it. *)

From Stdlib Require Import ZArith Lia String Ascii.
From stdpp Require Import base gmap list strings.
From S2P Require Import Prelude GoValues.

(** ** Errors (src/vm/errors.go) and return codes *)

(** [ErrExternal] stands for an error of a library or of a component that the
    interfaces hide, with its message; [ErrPanic] for a Go panic on a nil
    pointer, which no caller recovers from. *)
Inductive vm_error :=
| ErrUnknownSystemSmartContract
| ErrInputArgsIsNil
| ErrInputCallValueIsNil
| ErrInputFunctionIsNil
| ErrInputCallerAddrIsNil
| ErrInputRecipientAddrIsNil
| ErrNotEnoughGas
| ErrInvalidWaitingList
| ErrElementNotFound
| ErrBLSPublicKeyAlreadyJailed
| ErrInternalErrorWhileSettingNewOwner
| ErrWaitingListDisabled
| ErrPanic
| ErrExternal (message : string).

#[export] Instance vm_error_eq_dec : EqDecision vm_error.
Proof. solve_decision. Defined.

(** [err.Error()] *)
Definition vm_Error (e : vm_error) : string :=
  match e with
  | ErrUnknownSystemSmartContract => "missing system smart contract on selected address"
  | ErrInputArgsIsNil => "input system smart contract arguments are nil"
  | ErrInputCallValueIsNil => "input value for system smart contract is nil"
  | ErrInputFunctionIsNil => "input function for system smart contract is nil"
  | ErrInputCallerAddrIsNil => "input called address for system smart contract is nil"
  | ErrInputRecipientAddrIsNil => "input recipient address for system smart contract is nil"
  | ErrNotEnoughGas => "not enough gas"
  | ErrInvalidWaitingList => "invalid waiting list"
  | ErrElementNotFound => "element was not found"
  | ErrBLSPublicKeyAlreadyJailed => "bls public key already jailed"
  | ErrInternalErrorWhileSettingNewOwner => "internal error when setting new contract owner"
  | ErrWaitingListDisabled => "waiting list is disabled since staking v4 activation"
  | ErrPanic => "invalid memory address or nil pointer dereference"
  | ErrExternal m => m
  end.

(** The return codes of the VM that this code uses. *)
Inductive ReturnCode := RC_Ok | RC_OutOfGas | RC_ExecutionFailed | RC_UserError.

#[export] Instance ReturnCode_eq_dec : EqDecision ReturnCode.
Proof. solve_decision. Defined.

(** ** Contract calls and their output

    A [big.Int] pointer that may be nil is an option. *)

Record ContractCallInput := {
  CallerAddr : option bytes;
  Arguments : list bytes;
  CallValue : option Z;
  GasProvided : Z;
  ESDTTransfers : nat;          (** how many transfers come with the call *)
  RecipientAddr : option bytes;
  Function : string;
}.

Record OutputTransfer := {
  ot_Index : Z;
  ot_Value : Z;
  ot_GasLimit : Z;
  ot_Data : bytes;
  ot_SenderAddress : bytes;
}.

Record OutputAccount := {
  oa_Address : bytes;
  oa_Nonce : Z;
  oa_Balance : option Z;
  oa_BalanceDelta : option Z;
  oa_StorageUpdates : gmap bytes bytes;
  oa_Code : bytes;
  oa_CodeMetadata : bytes;
  oa_CodeDeployerAddress : option bytes;
  oa_GasUsed : Z;
  oa_BytesAddedToStorage : Z;
  oa_BytesDeletedFromStorage : Z;
  oa_OutputTransfers : list OutputTransfer;
}.

Record LogEntry := {
  le_Identifier : bytes;
  le_Address : bytes;
  le_Topics : list bytes;
  le_Data : list bytes;
}.

Record VMOutput := {
  ReturnData : list bytes;
  vo_ReturnCode : ReturnCode;
  vo_ReturnMessage : string;
  GasRemaining : Z;
  GasRefund : Z;
  OutputAccounts : gmap bytes OutputAccount;
  Logs : list LogEntry;
}.

(** [CheckIfNil] of common.go; the argument itself is never nil here. *)
Definition CheckIfNil (args : ContractCallInput) : option vm_error :=
  match CallValue args with
  | None => Some ErrInputCallValueIsNil
  | Some _ =>
      if bool_decide (Function args = EmptyString) then Some ErrInputFunctionIsNil else
      match CallerAddr args with
      | None => Some ErrInputCallerAddrIsNil
      | Some _ =>
          match RecipientAddr args with
          | None => Some ErrInputRecipientAddrIsNil
          | Some _ => None
          end
      end
  end.

(** ** The interfaces *)

(** What the contracts read of the block chain.  [GetStorageData] is None when
    it fails; its value may be nil. *)
Class BlockchainHook := {
  GetStorageData : bytes -> bytes -> option (option bytes);
  (** the balance of the account, None when there is no account or balance *)
  GetUserAccountBalance : bytes -> option Z;
  (** the code of the account, None when there is no account *)
  GetUserAccountCode : bytes -> option bytes;
  CurrentNonce : Z;
  CurrentRound : Z;
  CurrentEpoch : Z;
  NumberOfShards : Z;
  GetShardOfAddress : bytes -> Z;
  hook_ProcessBuiltInFunction : ContractCallInput -> result vm_error VMOutput;
}.

(** The methods of [vm.SystemEI] that the modelled contracts call.  A read
    returns None for Go's nil. *)
Class SystemEI (S : Type) := {
  eei_ExecuteOnDestContext : bytes -> bytes -> Z -> bytes -> SE S vm_error VMOutput;
  eei_GetStorage : bytes -> S -> option bytes;
  eei_GetStorageFromAddress : bytes -> bytes -> S -> option bytes;
  eei_SetStorage : bytes -> bytes -> S -> S;
  eei_AddReturnMessage : string -> S -> S;
  eei_Finish : bytes -> S -> S;
  eei_UseGas : Z -> SE S vm_error ();
  eei_IsValidator : bytes -> bool;
  eei_CanUnJail : bytes -> bool;
  eei_IsBadRating : bytes -> bool;
}.

(** What a contract relies on: its storage is a map from keys to values that
    only writes change. *)
Class SystemEIOk (S : Type) (EI : SystemEI S) : Prop := {
  GetStorage_SetStorage k v s k' :
    eei_GetStorage k' (eei_SetStorage k v s) =
      if decide (k' = k) then Some v else eei_GetStorage k' s;
  GetStorage_AddReturnMessage m s k :
    eei_GetStorage k (eei_AddReturnMessage m s) = eei_GetStorage k s;
  GetStorage_Finish b s k : eei_GetStorage k (eei_Finish b s) = eei_GetStorage k s;
  GetStorage_UseGas g s k : eei_GetStorage k (eei_UseGas g s).1 = eei_GetStorage k s;
}.

(** ** How a contract reports

    A handler runs in [SE S ReturnCode]: an error is an early return with that
    code. *)

Section Reporting.
Context {S : Type} {EI : SystemEI S}.

(** [s.eei.AddReturnMessage(m)] *)
Definition say {E} (m : string) : SE S E () := se_modify (eei_AddReturnMessage m).
(** [s.eei.Finish(b)] *)
Definition finish {E} (b : bytes) : SE S E () := se_modify (eei_Finish b).
(** [s.eei.AddReturnMessage(m); return vmcommon.UserError] *)
Definition fail {A} (m : string) : SE S ReturnCode A :=
  _ ← say m; se_lift (Err RC_UserError).
(** [if b { s.eei.AddReturnMessage(m); return vmcommon.UserError }] *)
Definition failIf (b : bool) (m : string) : SE S ReturnCode () :=
  if b then fail m else mret ().
(** [if err != nil { s.eei.AddReturnMessage(f(err)); return rc }] *)
Definition orFailWith {A} (rc : ReturnCode) (f : vm_error -> string) (m : SE S vm_error A)
    : SE S ReturnCode A := fun s =>
  match m s with
  | (s', Ok a) => (s', Ok a)
  | (s', Err e) => (eei_AddReturnMessage (f e) s', Err rc)
  end.
Definition orFail {A} (f : vm_error -> string) (m : SE S vm_error A) : SE S ReturnCode A :=
  orFailWith RC_UserError f m.
(** [if err != nil { return vmcommon.UserError }] *)
Definition orReturn {A} (m : SE S vm_error A) : SE S ReturnCode A :=
  se_mapErr (fun _ => RC_UserError) m.

(** The return code of a handler: the one it ends with or returns early. *)
Definition runHandler (m : SE S ReturnCode ReturnCode) (s : S) : S * ReturnCode :=
  match m s with
  | (s', Ok rc) => (s', rc)
  | (s', Err rc) => (s', rc)
  end.
End Reporting.
