(* ===== verification/Eei.v ===== *)
(** * The execution context of the system smart contracts (eei.go)

    [vmContext] keeps the pending writes and transfers of the contracts that
    run in one call, and lets a contract call another.  Contracts, the
    argument parser, the accounts and the log formatting are parameters.  The
    maps of the context are copied where the code copies them; where it shares
    a map with [copyToNewContext] the model says so ([sharedStorage]). *)

From Stdlib Require Import ZArith Lia String Ascii.
From stdpp Require Import base gmap list strings fin_maps.
From S2P Require Import Prelude GoValues SystemEI.

Abbreviation Storage := (gmap bytes (gmap bytes bytes)).

Record vmContext := {
  scAddress : bytes;
  storageUpdate : Storage;
  outputAccounts : gmap bytes OutputAccount;
  gasRemaining : Z;
  returnMessage : string;
  output : list bytes;
  logs : list LogEntry;
  crtTransferIndex : Z;
}.

Definition set_scAddress (a : bytes) (h : vmContext) : vmContext :=
  {| scAddress := a; storageUpdate := storageUpdate h; outputAccounts := outputAccounts h;
     gasRemaining := gasRemaining h; returnMessage := returnMessage h; output := output h;
     logs := logs h; crtTransferIndex := crtTransferIndex h |}.
Definition set_storageUpdate (m : Storage) (h : vmContext) : vmContext :=
  {| scAddress := scAddress h; storageUpdate := m; outputAccounts := outputAccounts h;
     gasRemaining := gasRemaining h; returnMessage := returnMessage h; output := output h;
     logs := logs h; crtTransferIndex := crtTransferIndex h |}.
Definition set_outputAccounts (m : gmap bytes OutputAccount) (h : vmContext) : vmContext :=
  {| scAddress := scAddress h; storageUpdate := storageUpdate h; outputAccounts := m;
     gasRemaining := gasRemaining h; returnMessage := returnMessage h; output := output h;
     logs := logs h; crtTransferIndex := crtTransferIndex h |}.
Definition set_gasRemaining (g : Z) (h : vmContext) : vmContext :=
  {| scAddress := scAddress h; storageUpdate := storageUpdate h; outputAccounts := outputAccounts h;
     gasRemaining := g; returnMessage := returnMessage h; output := output h;
     logs := logs h; crtTransferIndex := crtTransferIndex h |}.
Definition set_returnMessage (m : string) (h : vmContext) : vmContext :=
  {| scAddress := scAddress h; storageUpdate := storageUpdate h; outputAccounts := outputAccounts h;
     gasRemaining := gasRemaining h; returnMessage := m; output := output h;
     logs := logs h; crtTransferIndex := crtTransferIndex h |}.
Definition set_output (o : list bytes) (h : vmContext) : vmContext :=
  {| scAddress := scAddress h; storageUpdate := storageUpdate h; outputAccounts := outputAccounts h;
     gasRemaining := gasRemaining h; returnMessage := returnMessage h; output := o;
     logs := logs h; crtTransferIndex := crtTransferIndex h |}.
Definition set_logs (l : list LogEntry) (h : vmContext) : vmContext :=
  {| scAddress := scAddress h; storageUpdate := storageUpdate h; outputAccounts := outputAccounts h;
     gasRemaining := gasRemaining h; returnMessage := returnMessage h; output := output h;
     logs := l; crtTransferIndex := crtTransferIndex h |}.
Definition set_crtTransferIndex (i : Z) (h : vmContext) : vmContext :=
  {| scAddress := scAddress h; storageUpdate := storageUpdate h; outputAccounts := outputAccounts h;
     gasRemaining := gasRemaining h; returnMessage := returnMessage h; output := output h;
     logs := logs h; crtTransferIndex := i |}.

(** The zero value of [vmcommon.OutputAccount]. *)
Definition emptyOutputAccount : OutputAccount :=
  {| oa_Address := []; oa_Nonce := 0; oa_Balance := None; oa_BalanceDelta := None;
     oa_StorageUpdates := ∅; oa_Code := []; oa_CodeMetadata := []; oa_CodeDeployerAddress := None;
     oa_GasUsed := 0; oa_BytesAddedToStorage := 0; oa_BytesDeletedFromStorage := 0;
     oa_OutputTransfers := [] |}.

Definition oa_with_Address (a : bytes) (o : OutputAccount) : OutputAccount :=
  {| oa_Address := a; oa_Nonce := oa_Nonce o; oa_Balance := oa_Balance o;
     oa_BalanceDelta := oa_BalanceDelta o; oa_StorageUpdates := oa_StorageUpdates o;
     oa_Code := oa_Code o; oa_CodeMetadata := oa_CodeMetadata o;
     oa_CodeDeployerAddress := oa_CodeDeployerAddress o; oa_GasUsed := oa_GasUsed o;
     oa_BytesAddedToStorage := oa_BytesAddedToStorage o;
     oa_BytesDeletedFromStorage := oa_BytesDeletedFromStorage o;
     oa_OutputTransfers := oa_OutputTransfers o |}.
Definition oa_with_Balance (b d : option Z) (o : OutputAccount) : OutputAccount :=
  {| oa_Address := oa_Address o; oa_Nonce := oa_Nonce o; oa_Balance := b;
     oa_BalanceDelta := d; oa_StorageUpdates := oa_StorageUpdates o;
     oa_Code := oa_Code o; oa_CodeMetadata := oa_CodeMetadata o;
     oa_CodeDeployerAddress := oa_CodeDeployerAddress o; oa_GasUsed := oa_GasUsed o;
     oa_BytesAddedToStorage := oa_BytesAddedToStorage o;
     oa_BytesDeletedFromStorage := oa_BytesDeletedFromStorage o;
     oa_OutputTransfers := oa_OutputTransfers o |}.
Definition oa_with_StorageUpdates (m : gmap bytes bytes) (o : OutputAccount) : OutputAccount :=
  {| oa_Address := oa_Address o; oa_Nonce := oa_Nonce o; oa_Balance := oa_Balance o;
     oa_BalanceDelta := oa_BalanceDelta o; oa_StorageUpdates := m;
     oa_Code := oa_Code o; oa_CodeMetadata := oa_CodeMetadata o;
     oa_CodeDeployerAddress := oa_CodeDeployerAddress o; oa_GasUsed := oa_GasUsed o;
     oa_BytesAddedToStorage := oa_BytesAddedToStorage o;
     oa_BytesDeletedFromStorage := oa_BytesDeletedFromStorage o;
     oa_OutputTransfers := oa_OutputTransfers o |}.
Definition oa_with_Code (c m : bytes) (d : option bytes) (o : OutputAccount) : OutputAccount :=
  {| oa_Address := oa_Address o; oa_Nonce := oa_Nonce o; oa_Balance := oa_Balance o;
     oa_BalanceDelta := oa_BalanceDelta o; oa_StorageUpdates := oa_StorageUpdates o;
     oa_Code := c; oa_CodeMetadata := m; oa_CodeDeployerAddress := d; oa_GasUsed := oa_GasUsed o;
     oa_BytesAddedToStorage := oa_BytesAddedToStorage o;
     oa_BytesDeletedFromStorage := oa_BytesDeletedFromStorage o;
     oa_OutputTransfers := oa_OutputTransfers o |}.
Definition oa_add_transfers (ts : list OutputTransfer) (o : OutputAccount) : OutputAccount :=
  {| oa_Address := oa_Address o; oa_Nonce := oa_Nonce o; oa_Balance := oa_Balance o;
     oa_BalanceDelta := oa_BalanceDelta o; oa_StorageUpdates := oa_StorageUpdates o;
     oa_Code := oa_Code o; oa_CodeMetadata := oa_CodeMetadata o;
     oa_CodeDeployerAddress := oa_CodeDeployerAddress o; oa_GasUsed := oa_GasUsed o;
     oa_BytesAddedToStorage := oa_BytesAddedToStorage o;
     oa_BytesDeletedFromStorage := oa_BytesDeletedFromStorage o;
     oa_OutputTransfers := oa_OutputTransfers o ++ ts |}.

(** ** Parameters *)

(** A system smart contract: whether it can be used, and its [Execute], which
    changes the context. *)
Record SystemSmartContract := {
  CanUseContract : bool;
  sc_Execute : ContractCallInput -> vmContext -> vmContext * ReturnCode;
}.

(** What [vmContext] has from outside: the epoch flags, the container of
    contracts by code (None when it is not set), the parser of call data, the
    account in the validator statistics (the list it is in and its temporary
    rating), the chance computer, the merge of output accounts, the format of
    the log of a call, the bytes of a code metadata that is readable only and
    the constants of the core package. *)
Class EeiEnv := {
  MultiClaimOnDelegationFlag : bool;
  SetSenderInEeiOutputTransferFlag : bool;
  AlwaysMergeContextsInEEIFlag : bool;
  systemContracts : option (bytes -> result vm_error SystemSmartContract);
  ParseData : string -> result vm_error (string * list bytes);
  GetExistingAccount : bytes -> option (string * Z);
  GetChance : Z -> Z;
  MergeOutputAccounts : OutputAccount -> OutputAccount -> OutputAccount;
  FormatLogDataForCall : string -> string -> list bytes -> list bytes;
  readableCodeMetadata : bytes;
  SystemAccountAddress : bytes;
  SCDeployInitFunctionName : string;
}.

(** The identifier of a plain transfer in the log. *)
Definition transferValueOnlyIdentifier : string := "transferValueOnly".

Section Eei.
Context {BH : BlockchainHook} {Env : EeiEnv}.
Implicit Types (host : vmContext).

(** ** Contracts and storage *)

Definition getCodeFromAddress (address : bytes) : bytes :=
  match GetUserAccountCode address with
  | None => address
  | Some [] => address
  | Some code => code
  end.

Definition containerGet (code : bytes) : result vm_error SystemSmartContract :=
  match systemContracts with
  | Some get => get code
  | None => Err ErrPanic
  end.

Definition GetContract (address : bytes) : result vm_error SystemSmartContract :=
  contract ← containerGet (getCodeFromAddress address);
  if negb (CanUseContract contract) then Err ErrUnknownSystemSmartContract else Ok contract.

Definition GetStorageFromAddress (address key : bytes) host : option bytes :=
  match storageUpdate host !! address with
  | Some m =>
      match m !! key with
      | Some value => Some value
      | None => match GetStorageData address key with Some data => data | None => None end
      end
  | None => match GetStorageData address key with Some data => data | None => None end
  end.

Definition GetStorage (key : bytes) host : option bytes :=
  GetStorageFromAddress (scAddress host) key host.

Definition SetStorageForAddress (address key value : bytes) host : vmContext :=
  let m := match storageUpdate host !! address with Some m => m | None => ∅ end in
  set_storageUpdate (<[address := <[key := value]> m]> (storageUpdate host)) host.

Definition SetStorage (key value : bytes) host : vmContext :=
  SetStorageForAddress (scAddress host) key value host.

(** ** Balances and transfers *)

Definition getPersistedBalance (addr : bytes) : Z :=
  match GetUserAccountBalance addr with Some b => b | None => 0 end.

Definition GetBalance (addr : bytes) host : Z :=
  match outputAccounts host !! addr with
  | Some outAcc =>
      match oa_Balance outAcc with Some b => b | None => getPersistedBalance addr end
      + match oa_BalanceDelta outAcc with Some d => d | None => 0 end
  | None => getPersistedBalance addr
  end.

(** The account of [&vmcommon.OutputAccount{Address, BalanceDelta: 0, Balance}]. *)
Definition freshOutputAccount (addr : bytes) : OutputAccount :=
  oa_with_Balance (Some (getPersistedBalance addr)) (Some 0) (oa_with_Address addr emptyOutputAccount).

(** [getSenderDestination] makes the accounts that are missing. *)
Definition touchAccount (addr : bytes) host : vmContext :=
  match outputAccounts host !! addr with
  | Some _ => host
  | None => set_outputAccounts (<[addr := freshOutputAccount addr]> (outputAccounts host)) host
  end.
Definition getSenderDestination (sender destination : bytes) host : vmContext :=
  touchAccount destination (touchAccount sender host).

Definition NextOutputTransferIndex host : vmContext * Z :=
  (set_crtTransferIndex (u32 (crtTransferIndex host + 1)) host, crtTransferIndex host).

Definition alterAccount (f : OutputAccount -> OutputAccount) (addr : bytes) host : vmContext :=
  set_outputAccounts (alter f addr (outputAccounts host)) host.

(** [acc.BalanceDelta.Add(acc.BalanceDelta, v)], in place. *)
Definition addDelta (v : Z) (addr : bytes) : SE vmContext vm_error () :=
  host ← se_get;
  match outputAccounts host !! addr with
  | Some acc =>
      match oa_BalanceDelta acc with
      | Some d => se_modify (alterAccount (oa_with_Balance (oa_Balance acc) (Some (d + v))) addr)
      | None => se_lift (Err ErrPanic)
      end
  | None => se_lift (Err ErrPanic)
  end.

Definition transferValueOnly (destination sender : bytes) (value : Z) : SE vmContext vm_error () :=
  _ ← se_modify (getSenderDestination sender destination);
  _ ← addDelta (- value) sender;
  addDelta value destination.

Definition Transfer (destination sender : bytes) (value : Z) (input : bytes) (gasLimit : Z)
    : SE vmContext vm_error () :=
  _ ← transferValueOnly destination sender value;
  _ ← se_modify (getSenderDestination sender destination);
  host ← se_get;
  let '(host', index) := NextOutputTransferIndex host in
  _ ← se_modify (fun _ => host');
  let senderAddress :=
    match outputAccounts host !! sender with Some acc => oa_Address acc | None => [] end in
  se_modify (alterAccount (oa_add_transfers
    [{| ot_Index := index; ot_Value := value; ot_GasLimit := gasLimit; ot_Data := input;
        ot_SenderAddress := if SetSenderInEeiOutputTransferFlag then senderAddress else [] |}])
    destination).

(** [for i := uint8(0); i < uint8(NumberOfShards()); i++] *)
Definition SendGlobalSettingToShard (input : bytes) (i : Z) host : vmContext :=
  let systemAddress := <[(length SystemAccountAddress - 1)%nat := i]> SystemAccountAddress in
  let globalOutAcc :=
    match outputAccounts host !! systemAddress with
    | Some acc => acc
    | None => freshOutputAccount systemAddress
    end in
  let '(host, index) := NextOutputTransferIndex host in
  let transfer := {| ot_Index := index; ot_Value := 0; ot_GasLimit := 0; ot_Data := input;
                     ot_SenderAddress := [] |} in
  set_outputAccounts
    (<[systemAddress := oa_add_transfers [transfer] globalOutAcc]> (outputAccounts host)) host.

Definition SendGlobalSettingToAll (input : bytes) host : vmContext :=
  fold_left (fun host i => SendGlobalSettingToShard input i host)
    (List.map Z.of_nat (seq 0 (Z.to_nat (u8 NumberOfShards)))) host.

Definition GetTotalSentToUser (dest : bytes) host : option Z :=
  match outputAccounts host !! dest with
  | Some acc => oa_BalanceDelta acc
  | None => Some 0
  end.

(** ** Return data *)

Definition Finish (value : bytes) host : vmContext := set_output (output host ++ [value]) host.

Definition AddReturnMessage (message : string) host : vmContext :=
  if bool_decide (message = EmptyString) then host
  else if bool_decide (returnMessage host = EmptyString) then set_returnMessage message host
  else set_returnMessage (returnMessage host +:+ "@" +:+ message) host.

Definition AddLogEntry (entry : LogEntry) host : vmContext := set_logs (logs host ++ [entry]) host.

Definition CleanCache host : vmContext :=
  {| scAddress := scAddress host; storageUpdate := ∅; outputAccounts := ∅; gasRemaining := 0;
     returnMessage := EmptyString; output := []; logs := []; crtTransferIndex := 1 |}.

Definition softCleanCache host : vmContext :=
  set_outputAccounts ∅ (set_output [] (set_returnMessage EmptyString host)).

Definition SetGasProvided (gasProvided : Z) host : vmContext := set_gasRemaining gasProvided host.

Definition UseGas (gasToConsume : Z) : SE vmContext vm_error () :=
  host ← se_get;
  _ ← se_guard (gasRemaining host <? gasToConsume) ErrNotEnoughGas;
  se_modify (set_gasRemaining (gasRemaining host - gasToConsume)).

Definition GasLeft host : Z := gasRemaining host.
Definition SetSCAddress (addr : bytes) host : vmContext := set_scAddress addr host.
Definition CleanStorageUpdates host : vmContext := set_storageUpdate ∅ host.

(** ** Nested contexts *)

(** [copyToNewContext] copies the pending writes only once
    MultiClaimOnDelegationFlag is enabled; before that the new context shares
    the map of the host, whose later writes it therefore sees. *)
Definition sharedStorage : bool := negb MultiClaimOnDelegationFlag.

Definition copyToNewContext host : vmContext :=
  {| scAddress := scAddress host; storageUpdate := storageUpdate host;
     outputAccounts := outputAccounts host; gasRemaining := 0; returnMessage := EmptyString;
     output := output host; logs := []; crtTransferIndex := 0 |}.

(** The pending writes of a context made by [copyToNewContext] of [host]. *)
Definition contextStorage (currContext host : vmContext) : Storage :=
  if sharedStorage then storageUpdate host else storageUpdate currContext.

Definition mergeAccounts (merge : option OutputAccount -> OutputAccount -> OutputAccount)
    (accs : list OutputAccount) host : vmContext :=
  fold_left (fun host rightAccount =>
    set_outputAccounts
      (<[oa_Address rightAccount := merge (outputAccounts host !! oa_Address rightAccount) rightAccount]>
         (outputAccounts host)) host) accs host.

(** The accounts of a map in some order: Go does not fix the order of
    iteration, and the keys are the addresses of the accounts. *)
Definition accountsOf (m : gmap bytes OutputAccount) : list OutputAccount :=
  List.map snd (map_to_list m).

Definition mergeContext (currContext : vmContext) host : vmContext :=
  let host := set_output (output host ++ output currContext) host in
  let host := AddReturnMessage (returnMessage currContext) host in
  let host := set_storageUpdate
    (union_with (fun left right => Some (right ∪ left))
       (storageUpdate host) (contextStorage currContext host)) host in
  let host := mergeAccounts
    (fun left right => MergeOutputAccounts (default emptyOutputAccount left) right)
    (accountsOf (outputAccounts currContext)) host in
  set_scAddress (scAddress currContext) host.

Definition addOutputAccounts (destination rightAccount : OutputAccount) : OutputAccount :=
  {| oa_Address :=
       if bool_decide (oa_Address rightAccount = []) then oa_Address destination
       else oa_Address rightAccount;
     oa_Nonce := Z.max (oa_Nonce destination) (oa_Nonce rightAccount);
     oa_Balance :=
       match oa_Balance rightAccount with Some b => Some b | None => oa_Balance destination end;
     oa_BalanceDelta :=
       Some (default 0 (oa_BalanceDelta destination) + default 0 (oa_BalanceDelta rightAccount));
     oa_StorageUpdates := oa_StorageUpdates destination;
     oa_Code :=
       if bool_decide (oa_Code rightAccount = []) then oa_Code destination
       else oa_Code rightAccount;
     oa_CodeMetadata :=
       if bool_decide (oa_CodeMetadata rightAccount = []) then oa_CodeMetadata destination
       else oa_CodeMetadata rightAccount;
     oa_CodeDeployerAddress :=
       match oa_CodeDeployerAddress rightAccount with
       | Some a => Some a
       | None => oa_CodeDeployerAddress destination
       end;
     oa_GasUsed := u64 (oa_GasUsed destination + oa_GasUsed rightAccount);
     oa_BytesAddedToStorage :=
       u64 (oa_BytesAddedToStorage destination + oa_BytesAddedToStorage rightAccount);
     oa_BytesDeletedFromStorage :=
       u64 (oa_BytesDeletedFromStorage destination + oa_BytesDeletedFromStorage rightAccount);
     oa_OutputTransfers := oa_OutputTransfers destination ++ oa_OutputTransfers rightAccount |}.

Definition zeroOutputAccount (addr : bytes) : OutputAccount :=
  oa_with_Balance (Some 0) (Some 0) (oa_with_Address addr emptyOutputAccount).

Definition properMergeContexts (parentContext : vmContext) (returnCode : ReturnCode) host
    : vmContext :=
  if negb MultiClaimOnDelegationFlag then mergeContext parentContext host else
  let host := set_scAddress (scAddress parentContext) host in
  let host := AddReturnMessage (returnMessage parentContext) host in
  let shouldMergeContexts := bool_decide (returnCode = RC_Ok) || AlwaysMergeContextsInEEIFlag in
  if negb shouldMergeContexts then host else
  let host := set_output (output host ++ output parentContext) host in
  mergeAccounts
    (fun left right => addOutputAccounts (default (zeroOutputAccount (oa_Address right)) left) right)
    (accountsOf (outputAccounts parentContext)) host.

(** ** Calls between contracts *)

Definition createDirectCallInput (destination sender : bytes) (value : Z) (function : string)
    (arguments : list bytes) : ContractCallInput :=
  {| CallerAddr := Some sender; Arguments := arguments; CallValue := Some value; GasProvided := 0;
     ESDTTransfers := 0; RecipientAddr := Some destination; Function := function |}.

Definition createContractCallInput (destination sender : bytes) (value : Z) (data : bytes)
    : result vm_error ContractCallInput :=
  '(function, arguments) ← ParseData (go_string data);
  mret (createDirectCallInput destination sender value function arguments).

Definition transferBeforeInternalExec (destination : bytes) (value : Z) (function : string)
    (arguments : list bytes) (sender : bytes) (callType : string) : SE vmContext vm_error () :=
  if negb MultiClaimOnDelegationFlag then Transfer destination sender value [] 0 else
  _ ← transferValueOnly destination sender value;
  se_modify (AddLogEntry
    {| le_Identifier := go_bytes transferValueOnlyIdentifier;
       le_Address := sender;
       le_Topics := [bigBytes value; destination];
       le_Data := FormatLogDataForCall callType function arguments |}).

Definition addContractDeployToOutput (contractAddress ownerAddress code : bytes) host : vmContext :=
  alterAccount (oa_with_Code code readableCodeMetadata (Some ownerAddress)) contractAddress
    (touchAccount contractAddress host).

Definition DeploySystemSC (baseContract newAddress ownerAddress : bytes) (initFunction : string)
    (value : Z) (input : list bytes) : SE vmContext vm_error ReturnCode :=
  _ ← se_guard (bool_decide (systemContracts = None)) ErrUnknownSystemSmartContract;
  let callInput := createDirectCallInput newAddress ownerAddress value initFunction input in
  host ← se_get;
  _ ← transferBeforeInternalExec newAddress value initFunction input (scAddress host)
        "DeploySmartContract";
  contract ← se_lift (containerGet baseContract);
  host ← se_get;
  let oldSCAddress := scAddress host in
  _ ← se_modify (SetSCAddress newAddress);
  host ← se_get;
  let '(host, returnCode) := sc_Execute contract callInput host in
  _ ← se_modify (fun _ => host);
  _ ← se_modify (SetSCAddress oldSCAddress);
  _ ← se_modify (addContractDeployToOutput newAddress ownerAddress baseContract);
  mret returnCode.

Definition outputOfAccount (outAcc : OutputAccount) (acc : OutputAccount) : OutputAccount :=
  {| oa_Address := oa_Address outAcc;
     oa_Nonce := if 0 <? oa_Nonce outAcc then oa_Nonce outAcc else oa_Nonce acc;
     oa_Balance := oa_Balance acc;
     oa_BalanceDelta := oa_BalanceDelta outAcc;
     oa_StorageUpdates := oa_StorageUpdates acc;
     oa_Code := if bool_decide (oa_Code outAcc = []) then oa_Code acc else oa_Code outAcc;
     oa_CodeMetadata :=
       if (0 <? CurrentNonce) && negb (bool_decide (oa_CodeMetadata outAcc = []))
       then oa_CodeMetadata outAcc else oa_CodeMetadata acc;
     oa_CodeDeployerAddress :=
       if (0 <? CurrentNonce) && negb (bool_decide (default [] (oa_CodeDeployerAddress outAcc) = []))
       then oa_CodeDeployerAddress outAcc else oa_CodeDeployerAddress acc;
     oa_GasUsed := oa_GasUsed acc;
     oa_BytesAddedToStorage := oa_BytesAddedToStorage acc;
     oa_BytesDeletedFromStorage := oa_BytesDeletedFromStorage acc;
     oa_OutputTransfers := oa_OutputTransfers outAcc |}.

(** The accounts with pending writes, then the output accounts over them. *)
Definition outputAccountsOf host : gmap bytes OutputAccount :=
  let outAccs := map_imap (fun addr updates =>
    Some (oa_with_StorageUpdates updates (oa_with_Address addr emptyOutputAccount)))
    (storageUpdate host) in
  merge (fun acc outAcc =>
    match outAcc with
    | Some outAcc => Some (outputOfAccount outAcc (default emptyOutputAccount acc))
    | None => acc
    end) outAccs (outputAccounts host).

Definition CreateVMOutput host : VMOutput :=
  {| ReturnData := output host; vo_ReturnCode := RC_Ok; vo_ReturnMessage := returnMessage host;
     GasRemaining := gasRemaining host; GasRefund := 0; OutputAccounts := outputAccountsOf host;
     Logs := logs host |}.

(** [&vmcommon.VMOutput{ReturnCode: rc, ReturnMessage: m}] *)
Definition bareVMOutput (rc : ReturnCode) (m : string) : VMOutput :=
  {| ReturnData := []; vo_ReturnCode := rc; vo_ReturnMessage := m; GasRemaining := 0;
     GasRefund := 0; OutputAccounts := ∅; Logs := [] |}.

Definition vo_with (rc : ReturnCode) (m : string) (vo : VMOutput) : VMOutput :=
  {| ReturnData := ReturnData vo; vo_ReturnCode := rc; vo_ReturnMessage := m;
     GasRemaining := GasRemaining vo; GasRefund := GasRefund vo;
     OutputAccounts := OutputAccounts vo; Logs := Logs vo |}.

(** The output accounts made by [CreateVMOutput] share the [BalanceDelta] of
    the accounts of the context, which [addOutputAccounts] changes in place. *)
Definition shareDeltas (host : vmContext) (vo : VMOutput) : VMOutput :=
  {| ReturnData := ReturnData vo; vo_ReturnCode := vo_ReturnCode vo;
     vo_ReturnMessage := vo_ReturnMessage vo;
     GasRemaining := GasRemaining vo; GasRefund := GasRefund vo;
     OutputAccounts := map_imap (fun addr acc =>
       Some (match oa_BalanceDelta acc, outputAccounts host !! addr with
             | Some _, Some acc' => oa_with_Balance (oa_Balance acc) (oa_BalanceDelta acc') acc
             | _, _ => acc
             end)) (OutputAccounts vo);
     Logs := Logs vo |}.

(** The deferred function of [ExecuteOnDestContext]. *)
Definition closeContext (currContext : vmContext) (returnCode : ReturnCode) host : vmContext :=
  properMergeContexts currContext returnCode (set_output [] host).

(** The body of [ExecuteOnDestContext] after the contract is found. *)
Definition executeContract (contract : SystemSmartContract) (callInput : ContractCallInput)
    (currContext : vmContext) host : vmContext * VMOutput :=
  let '(host, returnCode) := sc_Execute contract callInput host in
  if bool_decide (returnCode = RC_Ok) then
    let vmOutput := vo_with returnCode (returnMessage host) (CreateVMOutput host) in
    let host := closeContext currContext returnCode host in
    (host, if MultiClaimOnDelegationFlag then shareDeltas host vmOutput else vmOutput)
  else
    (* all changes must be deleted *)
    let host := set_outputAccounts ∅ host in
    let host := set_storageUpdate (contextStorage currContext host) host in
    let vmOutput := bareVMOutput returnCode (returnMessage host) in
    (closeContext currContext returnCode host, vmOutput).

Definition ExecuteOnDestContext (destination sender : bytes) (value : Z) (input : bytes)
    : SE vmContext vm_error VMOutput :=
  _ ← se_guard (bool_decide (systemContracts = None)) ErrUnknownSystemSmartContract;
  callInput ← se_lift (createContractCallInput destination sender value input);
  _ ← transferBeforeInternalExec destination value (Function callInput) (Arguments callInput)
        sender "ExecuteOnDestContext";
  host ← se_get;
  let currContext := copyToNewContext host in
  let host := SetSCAddress destination (softCleanCache host) in
  match GetContract destination with
  | Err e =>
      _ ← se_modify (fun _ => closeContext currContext RC_UserError host);
      se_lift (Err e)
  | Ok contract =>
      if bool_decide (Function callInput = SCDeployInitFunctionName) then
        _ ← se_modify (fun _ => closeContext currContext RC_UserError host);
        mret (bareVMOutput RC_UserError "cannot call smart contract init function")
      else
        let '(host, vmOutput) := executeContract contract callInput currContext host in
        _ ← se_modify (fun _ => host);
        mret vmOutput
  end.

(** ** Other changes of the accounts *)

Definition UpdateCodeDeployerAddress (scAddr newOwner : bytes) : SE vmContext vm_error () :=
  host ← se_get;
  match outputAccounts host !! scAddr with
  | None => se_lift (Err ErrInternalErrorWhileSettingNewOwner)
  | Some acc =>
      se_modify (alterAccount (oa_with_Code (oa_Code acc) (oa_CodeMetadata acc) (Some newOwner)) scAddr)
  end.

Definition AddCode (address code : bytes) host : vmContext :=
  alterAccount (fun acc => oa_with_Code code (oa_CodeMetadata acc) (oa_CodeDeployerAddress acc) acc)
    address (touchAccount address host).

Definition AddTxValueToSmartContract (value : Z) (scAddr : bytes) host : vmContext :=
  alterAccount (fun acc =>
    oa_with_Balance (Some (default (getPersistedBalance scAddr) (oa_Balance acc)))
      (Some (default 0 (oa_BalanceDelta acc) + value)) acc)
    scAddr (touchAccount scAddr host).

Definition mergeTransfers host (kv : bytes * OutputAccount) : vmContext :=
  let '(address, outAcc) := kv in
  if bool_decide (oa_OutputTransfers outAcc = []) then host else
  let leftAccount :=
    default (oa_with_Address address emptyOutputAccount) (outputAccounts host !! address) in
  set_outputAccounts
    (<[address := oa_add_transfers (oa_OutputTransfers outAcc) leftAccount]> (outputAccounts host)) host.

Definition ProcessBuiltInFunction (sender destination : bytes) (function : string)
    (arguments : list bytes) : SE vmContext vm_error VMOutput :=
  host ← se_get;
  let vmInput :=
    {| CallerAddr := Some sender; Arguments := arguments; CallValue := Some 0;
       GasProvided := GasLeft host; ESDTTransfers := 0; RecipientAddr := Some destination;
       Function := function |} in
  vmOutput ← se_lift (hook_ProcessBuiltInFunction vmInput);
  _ ← se_guard (negb (bool_decide (vo_ReturnCode vmOutput = RC_Ok)))
        (ErrExternal (vo_ReturnMessage vmOutput));
  _ ← se_modify (fun host => fold_left mergeTransfers (map_to_list (OutputAccounts vmOutput)) host);
  _ ← se_modify (fun host => fold_left (fun host e => AddLogEntry e host) (Logs vmOutput) host);
  mret vmOutput.

(** ** The validator statistics *)

Definition IsValidator (blsKey : bytes) : bool :=
  match GetExistingAccount blsKey with
  | None => false
  | Some (list, _) =>
      bool_decide (list = EligibleList) || bool_decide (list = peerWaitingList)
      || bool_decide (list = LeavingList)
  end.

Definition StatusFromValidatorStatistics (blsKey : bytes) : string :=
  match GetExistingAccount blsKey with None => InactiveList | Some (list, _) => list end.

Definition CanUnJail (blsKey : bytes) : bool :=
  match GetExistingAccount blsKey with
  | None => false
  | Some (list, _) => bool_decide (list = JailedList)
  end.

Definition IsBadRating (blsKey : bytes) : bool :=
  match GetExistingAccount blsKey with
  | None => false
  | Some (_, tempRating) => GetChance tempRating <? GetChance 0
  end.

(** ** The context as an environment of contracts *)

#[export] Instance vmContext_SystemEI : SystemEI vmContext := {|
  eei_ExecuteOnDestContext := ExecuteOnDestContext;
  eei_GetStorage := GetStorage;
  eei_GetStorageFromAddress := GetStorageFromAddress;
  eei_SetStorage := SetStorage;
  eei_AddReturnMessage := AddReturnMessage;
  eei_Finish := Finish;
  eei_UseGas := UseGas;
  eei_IsValidator := IsValidator;
  eei_CanUnJail := CanUnJail;
  eei_IsBadRating := IsBadRating;
|}.
End Eei.
