(* ===== verification/EeiSpec.v ===== *)
(** * What the execution context promises to the contracts

    [vmContext] is an environment as the contracts rely on ([SystemEIOk]).
    Transfers move exactly their value; a nested call that fails leaves no
    write behind, one that succeeds adds up the balances of caller and callee;
    the output of a call carries exactly the pending writes and balances. *)

From Stdlib Require Import ZArith Lia String Ascii.
From stdpp Require Import base gmap list strings fin_maps.
From S2P Require Import Prelude GoValues SystemEI Eei.

Section EeiSpec.
Context {BH : BlockchainHook} {Env : EeiEnv}.
Implicit Types (host : vmContext) (acc : OutputAccount).

(** ** Storage *)

Lemma set_get_address address key value host address' key' :
  GetStorageFromAddress address' key' (SetStorageForAddress address key value host) =
    if decide (address' = address /\ key' = key) then Some value
    else GetStorageFromAddress address' key' host.
Proof.
  unfold GetStorageFromAddress, SetStorageForAddress. cbn [storageUpdate set_storageUpdate].
  destruct (decide (address' = address)) as [->|Na].
  - rewrite lookup_insert_eq. destruct (decide (key' = key)) as [->|Nk].
    + by rewrite lookup_insert_eq, decide_True.
    + rewrite lookup_insert_ne, decide_False by naive_solver.
      by destruct (storageUpdate host !! address).
  - by rewrite lookup_insert_ne, decide_False by naive_solver.
Qed.

Lemma AddReturnMessage_storage m host :
  storageUpdate (AddReturnMessage m host) = storageUpdate host /\
  scAddress (AddReturnMessage m host) = scAddress host /\
  output (AddReturnMessage m host) = output host /\
  outputAccounts (AddReturnMessage m host) = outputAccounts host.
Proof. unfold AddReturnMessage. by repeat case_bool_decide. Qed.

#[export] Instance vmContext_SystemEIOk : SystemEIOk vmContext vmContext_SystemEI.
Proof.
  split; cbn [eei_GetStorage eei_SetStorage eei_AddReturnMessage eei_Finish eei_UseGas vmContext_SystemEI].
  - intros k v s k'. unfold GetStorage, SetStorage. cbn [scAddress SetStorageForAddress set_storageUpdate].
    rewrite set_get_address. destruct (decide (k' = k)) as [->|N].
    + by rewrite decide_True.
    + by rewrite decide_False by naive_solver.
  - intros m s k. unfold AddReturnMessage. by repeat case_bool_decide.
  - done.
  - intros g s k. unfold UseGas. rewrite (se_bind_eq _ _ s s s) by done.
    by destruct (gasRemaining s <? g).
Qed.

(** ** Accounts *)

(** An account that the methods of the context make: it stands under its
    address and its balances are not nil. *)
Definition kept (addr : bytes) acc : Prop :=
  oa_Address acc = addr /\ is_Some (oa_Balance acc) /\ is_Some (oa_BalanceDelta acc).
Definition wellKept host : Prop := map_Forall kept (outputAccounts host).

(** What an account says about a balance. *)
Definition deltaOf (o : option OutputAccount) : Z := default 0 (o ≫= oa_BalanceDelta).

Lemma kept_fresh addr : kept addr (freshOutputAccount addr).
Proof. split; [done|]. split; by eexists. Qed.

Lemma wellKept_touch addr host : wellKept host -> wellKept (touchAccount addr host).
Proof.
  intros W. unfold touchAccount. destruct (outputAccounts host !! addr) eqn:E; [done|].
  apply map_Forall_insert_2; [apply kept_fresh|done].
Qed.

Lemma touch_present addr host : is_Some (outputAccounts (touchAccount addr host) !! addr).
Proof.
  unfold touchAccount. destruct (outputAccounts host !! addr) eqn:E; [by eexists|].
  cbn. rewrite lookup_insert_eq. by eexists.
Qed.
Lemma touch_keeps addr host a : is_Some (outputAccounts host !! a) ->
  is_Some (outputAccounts (touchAccount addr host) !! a).
Proof.
  intros H. unfold touchAccount. destruct (outputAccounts host !! addr) eqn:E; [done|].
  cbn. destruct (decide (a = addr)) as [->|N].
  - rewrite lookup_insert_eq. by eexists.
  - by rewrite lookup_insert_ne.
Qed.

Lemma touch_balance addr host a : GetBalance a (touchAccount addr host) = GetBalance a host.
Proof.
  unfold GetBalance, touchAccount. destruct (outputAccounts host !! addr) eqn:E; [done|].
  cbn. destruct (decide (a = addr)) as [->|N].
  - rewrite lookup_insert_eq, E. cbn. lia.
  - by rewrite lookup_insert_ne.
Qed.

(** What a change of the accounts leaves alone. *)
Definition sameButAccounts host host' : Prop :=
  exists m, host' = set_outputAccounts m host.

Lemma touch_same addr host : sameButAccounts host (touchAccount addr host).
Proof.
  unfold touchAccount. destruct (outputAccounts host !! addr); [|by eexists].
  exists (outputAccounts host). by destruct host.
Qed.
Lemma same_trans h1 h2 h3 : sameButAccounts h1 h2 -> sameButAccounts h2 h3 -> sameButAccounts h1 h3.
Proof. intros [m1 ->] [m2 ->]. by exists m2. Qed.

Lemma addDelta_spec v addr host :
  wellKept host -> is_Some (outputAccounts host !! addr) ->
  exists host', addDelta v addr host = (host', Ok ()) /\ wellKept host' /\ sameButAccounts host host' /\
    (forall a, is_Some (outputAccounts host !! a) -> is_Some (outputAccounts host' !! a)) /\
    (forall a, GetBalance a host' = GetBalance a host + if decide (a = addr) then v else 0).
Proof.
  intros W [acc E]. destruct (W addr acc E) as (Ea & [b Eb] & [d Ed]).
  eexists. split; [|split; [|split; [|split]]].
  - unfold addDelta. rewrite (se_bind_eq _ _ host host host) by done. by rewrite E, Ed.
  - intros a acc' E'. cbn in E'. destruct (decide (a = addr)) as [->|N].
    + rewrite lookup_alter_eq, E in E'. cbn in E'. injection E' as <-.
      split; [done|]. rewrite Eb. split; by eexists.
    + rewrite lookup_alter_ne in E' by done. by apply W.
  - by eexists.
  - intros a [x Ex]. cbn. destruct (decide (a = addr)) as [->|N].
    + rewrite lookup_alter_eq, E. by eexists.
    + rewrite lookup_alter_ne by done. by eexists.
  - intros a. unfold GetBalance. cbn. destruct (decide (a = addr)) as [->|N].
    + rewrite lookup_alter_eq, E. cbn. rewrite Eb, Ed. lia.
    + rewrite lookup_alter_ne by done. destruct (outputAccounts host !! a); lia.
Qed.

Lemma transferValueOnly_spec destination sender value host : wellKept host ->
  exists host', transferValueOnly destination sender value host = (host', Ok ()) /\
    wellKept host' /\ sameButAccounts host host' /\
    (forall a, GetBalance a host' = GetBalance a host
       + (if decide (a = destination) then value else 0) - (if decide (a = sender) then value else 0)).
Proof.
  intros W. set (h1 := getSenderDestination sender destination host).
  assert (W1 : wellKept h1) by by apply wellKept_touch, wellKept_touch.
  assert (Hs : is_Some (outputAccounts h1 !! sender)) by apply touch_keeps, touch_present.
  assert (Hd : is_Some (outputAccounts h1 !! destination)) by apply touch_present.
  destruct (addDelta_spec (- value) sender h1 W1 Hs) as (h2 & R2 & W2 & S2 & P2 & B2).
  destruct (addDelta_spec value destination h2 W2 (P2 _ Hd)) as (h3 & R3 & W3 & S3 & P3 & B3).
  exists h3. split; [|split; [done|split]].
  - unfold transferValueOnly. rewrite (se_bind_eq _ _ host h1 ()) by done.
    by rewrite (se_bind_eq _ _ h1 h2 ()).
  - apply (same_trans _ h1); [|by apply (same_trans _ h2)].
    apply (same_trans _ (touchAccount sender host)); apply touch_same.
  - intros a. rewrite B3, B2. unfold h1, getSenderDestination. rewrite !touch_balance.
    repeat destruct (decide _); lia.
Qed.

Lemma Transfer_spec destination sender value input gasLimit host : wellKept host ->
  exists host' acc, Transfer destination sender value input gasLimit host = (host', Ok ()) /\
    wellKept host' /\
    (forall a, GetBalance a host' = GetBalance a host
       + (if decide (a = destination) then value else 0) - (if decide (a = sender) then value else 0)) /\
    storageUpdate host' = storageUpdate host /\
    outputAccounts host' !! destination = Some acc /\
    (exists before, oa_OutputTransfers acc = before ++
       [{| ot_Index := crtTransferIndex host; ot_Value := value; ot_GasLimit := gasLimit; ot_Data := input;
           ot_SenderAddress := if SetSenderInEeiOutputTransferFlag then sender else [] |}]) /\
    crtTransferIndex host' = u32 (crtTransferIndex host + 1).
Proof.
  intros W. destruct (transferValueOnly_spec destination sender value host W) as (h1 & R1 & W1 & [m E1] & B1).
  set (h2 := getSenderDestination sender destination h1).
  assert (W2 : wellKept h2) by by apply wellKept_touch, wellKept_touch.
  assert (Hs : is_Some (outputAccounts h2 !! sender)) by apply touch_keeps, touch_present.
  assert (Hd : is_Some (outputAccounts h2 !! destination)) by apply touch_present.
  assert (S2 : sameButAccounts h1 h2)
    by (apply (same_trans _ (touchAccount sender h1)); apply touch_same).
  destruct S2 as [m2 E2], Hd as [d Ed], Hs as [x Ex]. destruct (W2 _ _ Ex) as [Ax _].
  set (t := {| ot_Index := crtTransferIndex h2; ot_Value := value; ot_GasLimit := gasLimit; ot_Data := input;
     ot_SenderAddress := if SetSenderInEeiOutputTransferFlag then oa_Address x else [] |}).
  exists (alterAccount (oa_add_transfers [t]) destination (set_crtTransferIndex (u32 (crtTransferIndex h2 + 1)) h2)),
    (oa_add_transfers [t] d).
  assert (Ei : crtTransferIndex h2 = crtTransferIndex host) by by rewrite E2, E1.
  split; [|split; [|split; [|split; [|split; [|split]]]]].
  - unfold Transfer. rewrite (se_bind_eq _ _ host h1 () R1), (se_bind_eq _ _ h1 h2 ()) by done.
    rewrite (se_bind_eq _ _ h2 h2 h2) by done. unfold NextOutputTransferIndex. cbv beta iota.
    rewrite (se_bind_eq _ _ h2 (set_crtTransferIndex (u32 (crtTransferIndex h2 + 1)) h2) ()) by done.
    by rewrite Ex.
  - intros a acc E. cbn in E. destruct (decide (a = destination)) as [->|N].
    + rewrite lookup_alter_eq, Ed in E. injection E as <-. exact (W2 _ _ Ed).
    + rewrite lookup_alter_ne in E by done. by apply W2.
  - intros a. rewrite <- B1. rewrite <- (touch_balance sender h1 a).
    rewrite <- (touch_balance destination (touchAccount sender h1) a).
    change (touchAccount destination (touchAccount sender h1)) with h2.
    unfold GetBalance. cbn. destruct (decide (a = destination)) as [->|N].
    + by rewrite lookup_alter_eq, Ed.
    + by rewrite lookup_alter_ne.
  - cbn. by rewrite E2, E1.
  - cbn. by rewrite lookup_alter_eq, Ed.
  - exists (oa_OutputTransfers d). unfold t. cbn. by rewrite Ei, Ax.
  - cbn. by rewrite Ei.
Qed.

(** ** Merging accounts *)

(** One account merged. *)
Definition mergeOne (f : option OutputAccount -> OutputAccount -> OutputAccount) acc host : vmContext :=
  set_outputAccounts (<[oa_Address acc := f (outputAccounts host !! oa_Address acc) acc]>
                        (outputAccounts host)) host.

Lemma mergeAccounts_cons f acc accs host :
  mergeAccounts f (acc :: accs) host = mergeAccounts f accs (mergeOne f acc host).
Proof. done. Qed.

Lemma mergeAccounts_same f accs host : sameButAccounts host (mergeAccounts f accs host).
Proof.
  revert host. induction accs as [|acc accs IH]; intros host.
  - exists (outputAccounts host). by destruct host.
  - rewrite mergeAccounts_cons. eapply same_trans; [|apply IH]. by eexists.
Qed.

Lemma mergeAccounts_other f accs host addr : addr ∉ List.map oa_Address accs ->
  outputAccounts (mergeAccounts f accs host) !! addr = outputAccounts host !! addr.
Proof.
  revert host. induction accs as [|acc accs IH]; intros host N; [done|].
  cbn [List.map] in N. apply not_elem_of_cons in N as [N1 N2].
  rewrite mergeAccounts_cons, IH by done. cbn. by rewrite lookup_insert_ne.
Qed.

Lemma mergeAccounts_lookup f accs host addr acc :
  NoDup (List.map oa_Address accs) -> acc ∈ accs -> oa_Address acc = addr ->
  outputAccounts (mergeAccounts f accs host) !! addr = Some (f (outputAccounts host !! addr) acc).
Proof.
  revert host. induction accs as [|x accs IH]; intros host ND Hin Ea.
  - by apply elem_of_nil in Hin.
  - cbn [List.map] in ND. apply NoDup_cons in ND as [N ND]. rewrite mergeAccounts_cons.
    apply elem_of_cons in Hin as [->|Hin].
    + rewrite <- Ea, mergeAccounts_other by done. cbn. by rewrite lookup_insert_eq.
    + rewrite IH by done. cbn. rewrite lookup_insert_ne; [done|].
      intros F. apply N. rewrite F, <- Ea. by apply list_elem_of_fmap_2.
Qed.

Lemma accountsOf_addresses (m : gmap bytes OutputAccount) :
  map_Forall (fun a acc => oa_Address acc = a) m -> List.map oa_Address (accountsOf m) = (map_to_list m).*1.
Proof.
  intros H. unfold accountsOf. rewrite List.map_map. apply List.map_ext_in.
  intros [a acc] Hin%list_elem_of_In%elem_of_map_to_list. by apply H.
Qed.

Lemma merge_lookup (f : option OutputAccount -> OutputAccount -> OutputAccount)
    (m : gmap bytes OutputAccount) host (addr : bytes) :
  map_Forall (fun a acc => oa_Address acc = a) m ->
  outputAccounts (mergeAccounts f (accountsOf m) host) !! addr =
    match m !! addr with
    | Some acc => Some (f (outputAccounts host !! addr) acc)
    | None => outputAccounts host !! addr
    end.
Proof.
  intros H. destruct (m !! addr) as [acc|] eqn:E.
  - apply mergeAccounts_lookup.
    + rewrite accountsOf_addresses by done. apply NoDup_fst_map_to_list.
    + unfold accountsOf. apply (list_elem_of_fmap_2 snd _ (addr, acc)). by apply elem_of_map_to_list.
    + by apply H.
  - apply mergeAccounts_other. rewrite accountsOf_addresses by done.
    intros ([a acc] & -> & Hin)%list_elem_of_fmap. apply elem_of_map_to_list in Hin. cbn in E. congruence.
Qed.

(** ** The end of a nested call

    From the epoch of MultiClaimOnDelegationFlag on, when the two contexts are
    merged. *)

Definition mergesAccounts (rc : ReturnCode) : Prop := rc = RC_Ok \/ AlwaysMergeContextsInEEIFlag = true.

Lemma closeContext_spec parent rc host :
  MultiClaimOnDelegationFlag = true -> mergesAccounts rc -> wellKept parent ->
  let host' := closeContext parent rc host in
  scAddress host' = scAddress parent /\ storageUpdate host' = storageUpdate host /\
  output host' = output parent /\
  forall addr, outputAccounts host' !! addr =
    match outputAccounts parent !! addr with
    | Some acc => Some (addOutputAccounts
        (default (zeroOutputAccount addr) (outputAccounts host !! addr)) acc)
    | None => outputAccounts host !! addr
    end.
Proof.
  intros M Mg W. cbv zeta. unfold closeContext, properMergeContexts. rewrite M. cbn [negb].
  set (h1 := AddReturnMessage _ _).
  destruct (AddReturnMessage_storage (returnMessage parent)
    (set_scAddress (scAddress parent) (set_output [] host))) as (E1 & E2 & E3 & E4).
  fold h1 in E1, E2, E3, E4.
  replace (bool_decide (rc = RC_Ok) || AlwaysMergeContextsInEEIFlag) with true
    by (destruct Mg as [-> | ->]; [done|by rewrite orb_true_r]). cbn [negb].
  set (f := fun left right => _). set (h2 := set_output _ _).
  destruct (mergeAccounts_same f (accountsOf (outputAccounts parent)) h2) as [m Em].
  split; [|split; [|split]].
  - rewrite Em. exact E2.
  - rewrite Em. exact E1.
  - rewrite Em. cbn. by rewrite E3.
  - intros addr. rewrite merge_lookup.
    + change (outputAccounts h2) with (outputAccounts h1). rewrite E4. unfold f.
      destruct (outputAccounts parent !! addr) as [acc|] eqn:E; [|done].
      by destruct (W addr acc E) as [-> _].
    + intros a acc E. by destruct (W a acc E).
Qed.

Lemma closeContext_balance parent rc host addr :
  MultiClaimOnDelegationFlag = true -> mergesAccounts rc -> wellKept parent ->
  GetBalance addr (closeContext parent rc host) =
    match outputAccounts parent !! addr with
    | Some _ => GetBalance addr parent + deltaOf (outputAccounts host !! addr)
    | None => GetBalance addr host
    end.
Proof.
  intros M Mg W. destruct (closeContext_spec parent rc host M Mg W) as (_ & _ & _ & L).
  unfold GetBalance. rewrite L. destruct (outputAccounts parent !! addr) as [acc|] eqn:E; [|done].
  destruct (W addr acc E) as (_ & [b Eb] & [d Ed]). cbn. rewrite Eb, Ed. cbn. unfold deltaOf.
  destruct (outputAccounts host !! addr); cbn; lia.
Qed.

(** ** Nested calls *)

Definition sameWrites host host' : Prop :=
  scAddress host' = scAddress host /\ storageUpdate host' = storageUpdate host /\
  output host' = output host.
Definition sameBalances host host' : Prop := forall a, GetBalance a host' = GetBalance a host.
(** [value] went from [sender] to [destination], and nothing else moved. *)
Definition movedValue (destination sender : bytes) (value : Z) host host' : Prop :=
  forall a, GetBalance a host' = GetBalance a host
    + (if decide (a = destination) then value else 0) - (if decide (a = sender) then value else 0).

(** What an account of the context says besides its balance; an account that
    is not there says nothing. *)
Definition accountFields (o : option OutputAccount) :=
  let acc := default emptyOutputAccount o in
  (oa_Nonce acc, oa_Code acc, oa_CodeMetadata acc, oa_CodeDeployerAddress acc, oa_GasUsed acc,
   oa_BytesAddedToStorage acc, oa_BytesDeletedFromStorage acc, oa_OutputTransfers acc).

(** The accounts of [host'] are those of [host], with other balances, and maybe
    blank accounts of [news]. *)
Definition sameAccountFields (news : list bytes) host host' : Prop := forall a,
  accountFields (outputAccounts host' !! a) = accountFields (outputAccounts host !! a) /\
  (is_Some (outputAccounts host' !! a) -> is_Some (outputAccounts host !! a) \/ a ∈ news).

(** The counters of an account are uint64s. *)
Definition uints acc : Prop := 0 <= oa_Nonce acc /\ 0 <= oa_GasUsed acc < 2 ^ 64 /\
  0 <= oa_BytesAddedToStorage acc < 2 ^ 64 /\ 0 <= oa_BytesDeletedFromStorage acc < 2 ^ 64.
Definition allUints host : Prop := map_Forall (fun _ => uints) (outputAccounts host).

Lemma sameAccountFields_trans news h1 h2 h3 : sameAccountFields news h1 h2 -> sameAccountFields news h2 h3 -> sameAccountFields news h1 h3.
Proof.
  intros S1 S2 a. destruct (S1 a) as [E1 N1], (S2 a) as [E2 N2]. split; [by rewrite E2|]. intros H.
  destruct (N2 H); auto.
Qed.

Lemma sameAccountFields_uints news host host' : sameAccountFields news host host' -> allUints host -> allUints host'.
Proof.
  intros S U a acc E. destruct (S a) as [Ef _]. rewrite E in Ef. unfold uints.
  destruct (outputAccounts host !! a) as [acc0|] eqn:E0; cbn in Ef; injection Ef as -> _ _ _ -> -> -> _; [|done].
  by apply (U a acc0).
Qed.

Lemma touch_fields news addr host : addr ∈ news -> sameAccountFields news host (touchAccount addr host).
Proof.
  intros I a. unfold touchAccount. destruct (outputAccounts host !! addr) eqn:E; [by split; [|left]|].
  cbn. destruct (decide (a = addr)) as [->|N]; [rewrite lookup_insert_eq, E|rewrite lookup_insert_ne by done].
  - split; [done|by right].
  - split; [done|by left].
Qed.

Lemma addDelta_fields news v addr host host' : addDelta v addr host = (host', Ok ()) -> sameAccountFields news host host'.
Proof.
  unfold addDelta. rewrite (se_bind_eq _ _ host host host) by done.
  destruct (outputAccounts host !! addr) as [acc|] eqn:E; [|done]. destruct (oa_BalanceDelta acc); [|done].
  intros [= <-] a. cbn. destruct (decide (a = addr)) as [->|N]; [rewrite lookup_alter_eq, E|rewrite lookup_alter_ne by done].
  - split; [done|by left].
  - split; [done|by left].
Qed.

Lemma transferValueOnly_fields destination sender value host host' :
  transferValueOnly destination sender value host = (host', Ok ()) -> sameAccountFields [destination; sender] host host'.
Proof.
  unfold transferValueOnly. rewrite (se_bind_eq _ _ host (getSenderDestination sender destination host) ()) by done.
  intros R. apply se_bind_Ok in R as (h2 & [] & R2 & R3). eapply sameAccountFields_trans; [|by eapply addDelta_fields].
  eapply sameAccountFields_trans; [|by eapply addDelta_fields].
  eapply sameAccountFields_trans; apply touch_fields; set_solver.
Qed.

Lemma add_to_zero addr acc : uints acc ->
  accountFields (Some (addOutputAccounts (zeroOutputAccount addr) acc)) = accountFields (Some acc).
Proof.
  intros (N & G & A & D). unfold accountFields. cbn. rewrite Z.max_r, !u64_id by done.
  repeat case_bool_decide; by destruct (oa_CodeDeployerAddress acc); repeat f_equal.
Qed.

Lemma transferBefore_spec destination sender value f args callType host :
  MultiClaimOnDelegationFlag = true -> wellKept host ->
  exists mid, transferBeforeInternalExec destination value f args sender callType host = (mid, Ok ()) /\
    wellKept mid /\ sameWrites host mid /\ movedValue destination sender value host mid /\
    sameAccountFields [destination; sender] host mid.
Proof.
  intros M W.
  destruct (transferValueOnly_spec destination sender value host W) as (h1 & R1 & W1 & [m ->] & B1).
  pose proof (transferValueOnly_fields _ _ _ _ _ R1) as F1.
  unfold transferBeforeInternalExec. rewrite M. cbn [negb].
  eexists. split; [by rewrite (se_bind_eq _ _ host _ () R1)|]. split; [exact W1|split; [done|split; [exact B1|exact F1]]].
Qed.

(** A context that starts without accounts is closed to its parent. *)
Lemma close_empty parent rc host :
  MultiClaimOnDelegationFlag = true -> AlwaysMergeContextsInEEIFlag = true -> wellKept parent ->
  outputAccounts host = ∅ -> storageUpdate host = storageUpdate parent ->
  sameWrites parent (closeContext parent rc host) /\ sameBalances parent (closeContext parent rc host) /\
  (allUints parent -> sameAccountFields [] parent (closeContext parent rc host)).
Proof.
  intros M Al W E1 E2.
  destruct (closeContext_spec parent rc host M (or_intror Al) W) as (H1 & H2 & H3 & L).
  split; [split; [done|split; congruence]|]. split.
  2:{ intros U a. rewrite L, E1, lookup_empty. destruct (outputAccounts parent !! a) as [acc|] eqn:E; [|done].
      split; [apply add_to_zero; by apply (U a)|by left]. }
  intros a. rewrite closeContext_balance by (done || by right).
  destruct (outputAccounts parent !! a) as [acc|] eqn:E.
  - rewrite E1, lookup_empty. unfold deltaOf. cbn. lia.
  - unfold GetBalance. by rewrite E1, lookup_empty, E.
Qed.


Lemma failed_call_spec destination sender value input host host' r :
  MultiClaimOnDelegationFlag = true -> AlwaysMergeContextsInEEIFlag = true -> wellKept host ->
  ExecuteOnDestContext destination sender value input host = (host', r) ->
  (forall vmOutput, r = Ok vmOutput -> vo_ReturnCode vmOutput <> RC_Ok) ->
  sameWrites host host' /\ (sameBalances host host' \/ movedValue destination sender value host host') /\
  (allUints host -> sameAccountFields [destination; sender] host host').
Proof.
  intros M Al W. unfold ExecuteOnDestContext, se_guard.
  assert (Same : sameWrites host host /\ (sameBalances host host \/ movedValue destination sender value host host) /\
    (allUints host -> sameAccountFields [destination; sender] host host)).
  { split; [done|]. split; [by left|]. intros _ a. split; [done|by left]. }
  destruct (bool_decide (systemContracts = None)); [intros [= <- <-] _; by apply Same|].
  rewrite (se_bind_eq _ _ host host ()) by done.
  destruct (createContractCallInput _ _ _ _) as [ci|e]; [|intros [= <- <-] _; by apply Same].
  rewrite (se_bind_eq _ _ host host ci) by done.
  destruct (transferBefore_spec destination sender value (Function ci) (Arguments ci)
    "ExecuteOnDestContext" host M W) as (mid & R & Wm & Sm & Bm & Fm).
  rewrite (se_bind_eq _ _ host mid () R), (se_bind_eq _ _ mid mid mid) by done. cbv zeta.
  set (callee := SetSCAddress _ _). set (parent := copyToNewContext mid).
  assert (Fin : forall rc h, outputAccounts h = ∅ -> storageUpdate h = storageUpdate mid ->
    sameWrites host (closeContext parent rc h) /\
    (sameBalances host (closeContext parent rc h) \/
     movedValue destination sender value host (closeContext parent rc h)) /\
    (allUints host -> sameAccountFields [destination; sender] host (closeContext parent rc h))).
  { intros rc h E1 E2. destruct (close_empty parent rc h M Al Wm E1 E2) as ((H1 & H2 & H3) & Hb & Hf).
    destruct Sm as (S1 & S2 & S3). split.
    { split; [by etrans; [exact H1|exact S1]|split; [by etrans; [exact H2|exact S2]|by etrans; [exact H3|exact S3]]]. }
    split; [right; intros a; rewrite Hb; exact (Bm a)|]. intros U. eapply sameAccountFields_trans; [exact Fm|].
    intros a. destruct (Hf (sameAccountFields_uints _ _ _ Fm U) a) as [Ef N]. split; [exact Ef|]. intros Sa.
    destruct (N Sa) as [?|?%elem_of_nil]; [by left|done]. }
  destruct (GetContract destination) as [contract|e].
  2: { intros [= <- <-] _. by apply Fin. }
  destruct (bool_decide (Function ci = _)).
  { intros [= <- <-] _. by apply Fin. }
  unfold executeContract. destruct (sc_Execute contract ci callee) as [h rc].
  case_bool_decide as Erc.
  - intros [= <- <-] N. exfalso. eapply N; [done|]. by destruct MultiClaimOnDelegationFlag.
  - intros [= <- <-] _. apply Fin; [done|].
    cbn [storageUpdate set_storageUpdate]. unfold contextStorage, sharedStorage. by rewrite M.
Qed.

Lemma ok_call_spec destination sender value input host host' vmOutput :
  MultiClaimOnDelegationFlag = true -> wellKept host ->
  ExecuteOnDestContext destination sender value input host = (host', Ok vmOutput) ->
  vo_ReturnCode vmOutput = RC_Ok ->
  exists contract callInput mid callee,
    GetContract destination = Ok contract /\
    createContractCallInput destination sender value input = Ok callInput /\
    movedValue destination sender value host mid /\ sameWrites host mid /\
    sc_Execute contract callInput (SetSCAddress destination (softCleanCache mid)) = (callee, RC_Ok) /\
    ReturnData vmOutput = output callee /\
    scAddress host' = scAddress host /\ output host' = output host /\
    storageUpdate host' = storageUpdate callee /\
    forall a, GetBalance a host' =
      match outputAccounts mid !! a with
      | Some _ => GetBalance a mid + deltaOf (outputAccounts callee !! a)
      | None => GetBalance a callee
      end.
Proof.
  intros M W. unfold ExecuteOnDestContext, se_guard.
  destruct (bool_decide (systemContracts = None)); [by intros [=]|].
  rewrite (se_bind_eq _ _ host host ()) by done.
  destruct (createContractCallInput _ _ _ _) as [ci|e]; [|by intros [=]].
  rewrite (se_bind_eq _ _ host host ci) by done.
  destruct (transferBefore_spec destination sender value (Function ci) (Arguments ci)
    "ExecuteOnDestContext" host M W) as (mid & R & Wm & Sm & Bm & _).
  rewrite (se_bind_eq _ _ host mid () R), (se_bind_eq _ _ mid mid mid) by done. cbv zeta.
  destruct (GetContract destination) as [contract|e]; [|by intros [=]].
  destruct (bool_decide (Function ci = _)); [by intros [= <- <-]|].
  unfold executeContract. destruct (sc_Execute contract ci _) as [callee rc] eqn:Ex.
  case_bool_decide as Erc; [|by intros [= <- <-]]. subst rc. intros [= <- <-] _.
  destruct (closeContext_spec (copyToNewContext mid) RC_Ok callee M (or_introl eq_refl) Wm)
    as (H1 & H2 & H3 & _). destruct Sm as (S1 & S2 & S3).
  exists contract, ci, mid, callee. split; [done|split; [done|split; [done|split; [done|split; [done|]]]]].
  split; [by rewrite M|]. split; [by rewrite H1|split; [by rewrite H3|split; [done|]]].
  intros a. rewrite closeContext_balance by (done || by left). done.
Qed.

(** ** The output of a call *)

Lemma output_lookup host addr :
  outputAccountsOf host !! addr =
    match storageUpdate host !! addr, outputAccounts host !! addr with
    | Some updates, Some outAcc => Some (outputOfAccount outAcc
        (oa_with_StorageUpdates updates (oa_with_Address addr emptyOutputAccount)))
    | Some updates, None => Some (oa_with_StorageUpdates updates (oa_with_Address addr emptyOutputAccount))
    | None, Some outAcc => Some (outputOfAccount outAcc emptyOutputAccount)
    | None, None => None
    end.
Proof.
  unfold outputAccountsOf. rewrite lookup_merge, map_lookup_imap.
  by destruct (storageUpdate host !! addr), (outputAccounts host !! addr).
Qed.
End EeiSpec.
