(* ===== verification/StakingData.v ===== *)
(** * The data of the staking contract (staking.proto, stakingSaveLoad.go)

    The records that the staking contract keeps in its storage, its
    configuration, and the functions that load and save them.  The marshalizer
    is a parameter; a load into a record passes the values the record had. *)

From Stdlib Require Import ZArith Lia String Ascii.
From stdpp Require Import base gmap list strings.
From S2P Require Import Prelude GoValues SystemEI.

(** ** Records *)

Record StakedDataV1_0 := {
  v10_RegisterNonce : Z; v10_StakedNonce : Z; v10_Staked : bool; v10_UnStakedNonce : Z;
  v10_UnStakedEpoch : Z; v10_RewardAddress : bytes; v10_StakeValue : Z; v10_JailedRound : Z;
  v10_JailedNonce : Z; v10_UnJailedNonce : Z; v10_Jailed : bool; v10_Waiting : bool;
}.

(** [SlashValue] is a pointer that is nil when the stored data has no such
    field. *)
Record StakedDataV1_1 := {
  v11_RegisterNonce : Z; v11_StakedNonce : Z; v11_Staked : bool; v11_UnStakedNonce : Z;
  v11_UnStakedEpoch : Z; v11_RewardAddress : bytes; v11_StakeValue : Z; v11_JailedRound : Z;
  v11_JailedNonce : Z; v11_UnJailedNonce : Z; v11_Jailed : bool; v11_Waiting : bool;
  v11_NumJailed : Z; v11_SlashValue : option Z;
}.

Record StakedDataV2_0 := {
  RegisterNonce : Z;
  StakedNonce : Z;
  Staked : bool;
  UnStakedNonce : Z;
  UnStakedEpoch : Z;
  RewardAddress : bytes;
  StakeValue : Z;
  JailedRound : Z;
  JailedNonce : Z;
  UnJailedNonce : Z;
  Jailed : bool;
  Waiting : bool;
  NumJailed : Z;
  SlashValue : option Z;
  OwnerAddress : bytes;
}.

Record StakingNodesConfig := {
  MinNumNodes : Z;
  MaxNumNodes : Z;
  StakedNodes : Z;
  JailedNodes : Z;
}.

Record ElementInList := {
  BLSPublicKey : bytes;
  PreviousKey : bytes;
  NextKey : bytes;
}.

Record WaitingList := {
  FirstKey : bytes;
  LastKey : bytes;
  Length : Z;
  LastJailedKey : bytes;
}.

(** The two fields of [ValidatorDataV2] (validator.proto) that the staking
    contract reads from the storage of the validator contract. *)
Record ValidatorDataV2 := {
  TotalStakeValue : Z;
  BlsPubKeys : list bytes;
}.

(** ** Field updates *)

Definition set_Registered (nonce : Z) (d : StakedDataV2_0) : StakedDataV2_0 :=
  {| RegisterNonce := nonce; StakedNonce := StakedNonce d; Staked := Staked d;
     UnStakedNonce := UnStakedNonce d; UnStakedEpoch := UnStakedEpoch d;
     RewardAddress := RewardAddress d; StakeValue := StakeValue d; JailedRound := JailedRound d;
     JailedNonce := JailedNonce d; UnJailedNonce := UnJailedNonce d; Jailed := Jailed d;
     Waiting := Waiting d; NumJailed := NumJailed d; SlashValue := SlashValue d;
     OwnerAddress := OwnerAddress d |}.
Definition set_Waiting (w : bool) (d : StakedDataV2_0) : StakedDataV2_0 :=
  {| RegisterNonce := RegisterNonce d; StakedNonce := StakedNonce d; Staked := Staked d;
     UnStakedNonce := UnStakedNonce d; UnStakedEpoch := UnStakedEpoch d;
     RewardAddress := RewardAddress d; StakeValue := StakeValue d; JailedRound := JailedRound d;
     JailedNonce := JailedNonce d; UnJailedNonce := UnJailedNonce d; Jailed := Jailed d;
     Waiting := w; NumJailed := NumJailed d; SlashValue := SlashValue d;
     OwnerAddress := OwnerAddress d |}.
(** [Staked], [StakedNonce], [UnStakedNonce] and [UnStakedEpoch] *)
Definition set_Staking (staked : bool) (stakedNonce unStakedNonce unStakedEpoch : Z)
    (d : StakedDataV2_0) : StakedDataV2_0 :=
  {| RegisterNonce := RegisterNonce d; StakedNonce := stakedNonce; Staked := staked;
     UnStakedNonce := unStakedNonce; UnStakedEpoch := unStakedEpoch;
     RewardAddress := RewardAddress d; StakeValue := StakeValue d; JailedRound := JailedRound d;
     JailedNonce := JailedNonce d; UnJailedNonce := UnJailedNonce d; Jailed := Jailed d;
     Waiting := Waiting d; NumJailed := NumJailed d; SlashValue := SlashValue d;
     OwnerAddress := OwnerAddress d |}.
Definition set_Addresses (reward owner : bytes) (d : StakedDataV2_0) : StakedDataV2_0 :=
  {| RegisterNonce := RegisterNonce d; StakedNonce := StakedNonce d; Staked := Staked d;
     UnStakedNonce := UnStakedNonce d; UnStakedEpoch := UnStakedEpoch d;
     RewardAddress := reward; StakeValue := StakeValue d; JailedRound := JailedRound d;
     JailedNonce := JailedNonce d; UnJailedNonce := UnJailedNonce d; Jailed := Jailed d;
     Waiting := Waiting d; NumJailed := NumJailed d; SlashValue := SlashValue d;
     OwnerAddress := owner |}.
Definition set_StakeValue (v : Z) (d : StakedDataV2_0) : StakedDataV2_0 :=
  {| RegisterNonce := RegisterNonce d; StakedNonce := StakedNonce d; Staked := Staked d;
     UnStakedNonce := UnStakedNonce d; UnStakedEpoch := UnStakedEpoch d;
     RewardAddress := RewardAddress d; StakeValue := v; JailedRound := JailedRound d;
     JailedNonce := JailedNonce d; UnJailedNonce := UnJailedNonce d; Jailed := Jailed d;
     Waiting := Waiting d; NumJailed := NumJailed d; SlashValue := SlashValue d;
     OwnerAddress := OwnerAddress d |}.
Definition set_SlashValue (v : option Z) (d : StakedDataV2_0) : StakedDataV2_0 :=
  {| RegisterNonce := RegisterNonce d; StakedNonce := StakedNonce d; Staked := Staked d;
     UnStakedNonce := UnStakedNonce d; UnStakedEpoch := UnStakedEpoch d;
     RewardAddress := RewardAddress d; StakeValue := StakeValue d; JailedRound := JailedRound d;
     JailedNonce := JailedNonce d; UnJailedNonce := UnJailedNonce d; Jailed := Jailed d;
     Waiting := Waiting d; NumJailed := NumJailed d; SlashValue := v;
     OwnerAddress := OwnerAddress d |}.
(** [Jailed], [NumJailed], [JailedRound], [JailedNonce] and [UnJailedNonce] *)
Definition set_Jail (jailed : bool) (num round jailedNonce unJailedNonce : Z) (d : StakedDataV2_0)
    : StakedDataV2_0 :=
  {| RegisterNonce := RegisterNonce d; StakedNonce := StakedNonce d; Staked := Staked d;
     UnStakedNonce := UnStakedNonce d; UnStakedEpoch := UnStakedEpoch d;
     RewardAddress := RewardAddress d; StakeValue := StakeValue d; JailedRound := round;
     JailedNonce := jailedNonce; UnJailedNonce := unJailedNonce; Jailed := jailed;
     Waiting := Waiting d; NumJailed := num; SlashValue := SlashValue d;
     OwnerAddress := OwnerAddress d |}.

Definition cfg_with_StakedNodes (n : Z) (c : StakingNodesConfig) : StakingNodesConfig :=
  {| MinNumNodes := MinNumNodes c; MaxNumNodes := MaxNumNodes c; StakedNodes := n;
     JailedNodes := JailedNodes c |}.
Definition cfg_with_JailedNodes (n : Z) (c : StakingNodesConfig) : StakingNodesConfig :=
  {| MinNumNodes := MinNumNodes c; MaxNumNodes := MaxNumNodes c; StakedNodes := StakedNodes c;
     JailedNodes := n |}.
Definition cfg_with_limits (min max : Z) (c : StakingNodesConfig) : StakingNodesConfig :=
  {| MinNumNodes := min; MaxNumNodes := max; StakedNodes := StakedNodes c;
     JailedNodes := JailedNodes c |}.

Definition el_with_Previous (k : bytes) (e : ElementInList) : ElementInList :=
  {| BLSPublicKey := BLSPublicKey e; PreviousKey := k; NextKey := NextKey e |}.
Definition el_with_Next (k : bytes) (e : ElementInList) : ElementInList :=
  {| BLSPublicKey := BLSPublicKey e; PreviousKey := PreviousKey e; NextKey := k |}.

Definition wl_with_First (k : bytes) (w : WaitingList) : WaitingList :=
  {| FirstKey := k; LastKey := LastKey w; Length := Length w; LastJailedKey := LastJailedKey w |}.
Definition wl_with_Last (k : bytes) (w : WaitingList) : WaitingList :=
  {| FirstKey := FirstKey w; LastKey := k; Length := Length w; LastJailedKey := LastJailedKey w |}.
Definition wl_with_Length (n : Z) (w : WaitingList) : WaitingList :=
  {| FirstKey := FirstKey w; LastKey := LastKey w; Length := n; LastJailedKey := LastJailedKey w |}.
Definition wl_with_LastJailed (k : bytes) (w : WaitingList) : WaitingList :=
  {| FirstKey := FirstKey w; LastKey := LastKey w; Length := Length w; LastJailedKey := k |}.

(** ** The contract *)

(** The epoch flags that the contract asks for. *)
Inductive EpochFlag :=
| CorrectFirstQueuedFlag
| ValidatorToDelegationFlag
| StakingV2Flag
| CorrectLastUnJailedFlag
| CorrectJailedNotUnStakedEmptyQueueFlag
| StakeFlag
| StakingV4StartedFlag
| StakingV4Step1Flag
| FixCorrectSmallIntAndGasLimitsFlag.

(** The costs of the contract's gas schedule that it charges. *)
Record MetaChainSystemSCsCost := {
  Get : Z;
  FixWaitingListSize : Z;
}.

Record stakingSC := {
  unBondPeriod : Z;
  unBondPeriodSupernova : Z;
  stakeAccessAddr : bytes;
  jailAccessAddr : bytes;
  endOfEpochAccessAddr : bytes;
  gasCost : MetaChainSystemSCsCost;
  minNumNodes : Z;
  maxNumNodes : Z;
  stakeValue : Z;
  walletAddressLen : nat;
  minNodePrice : Z;
  IsFlagEnabled : EpochFlag -> bool;
  (** SupernovaRoundFlag in a round *)
  IsSupernovaEnabledInRound : Z -> bool;
}.

(** The marshalizer of the contract for one type of records.  [Unmarshal prev]
    is given the record it unmarshals into. *)
Class Marshalizer (T : Type) := {
  Marshal : T -> result vm_error bytes;
  Unmarshal : T -> bytes -> result vm_error T;
}.

Class StakingMarshalizer := {
  #[global] m_V1_0 :: Marshalizer StakedDataV1_0;
  #[global] m_V1_1 :: Marshalizer StakedDataV1_1;
  #[global] m_V2_0 :: Marshalizer StakedDataV2_0;
  #[global] m_config :: Marshalizer StakingNodesConfig;
  #[global] m_element :: Marshalizer ElementInList;
  #[global] m_head :: Marshalizer WaitingList;
  #[global] m_validator :: Marshalizer ValidatorDataV2;
}.

Definition ownerKey : bytes := go_bytes "owner".
Definition nodesConfigKey : bytes := go_bytes "nodesConfig".
Definition DefaultUnstakedEpoch : Z := maxUint32.

(** ** Loading and saving *)

Section SaveLoad.
Context {S : Type} {EI : SystemEI S} {MA : StakingMarshalizer}.
Context (sc : stakingSC).

(** [s.eei.GetStorage(key)] where nil counts as empty *)
Definition storageAt (key : bytes) (s : S) : bytes := default [] (eei_GetStorage key s).

(** [s.eei.SetStorage(key, value)] *)
Definition setStorage {E} (key value : bytes) : SE S E () := se_modify (eei_SetStorage key value).

Definition baseConfig : StakingNodesConfig :=
  {| MinNumNodes := i64 (minNumNodes sc); MaxNumNodes := i64 (maxNumNodes sc); StakedNodes := 0;
     JailedNodes := 0 |}.

Definition getConfig (s : S) : StakingNodesConfig :=
  let configData := storageAt nodesConfigKey s in
  if bool_decide (configData = []) then baseConfig else
  match Unmarshal baseConfig configData with
  | Err _ => baseConfig
  | Ok stakeConfig => stakeConfig
  end.

Definition setConfig {E} (config : StakingNodesConfig) : SE S E () :=
  match Marshal config with
  | Err _ => mret ()
  | Ok configData => setStorage nodesConfigKey configData
  end.

Definition newRegistrationData : StakedDataV2_0 :=
  {| RegisterNonce := 0; StakedNonce := maxUint64; Staked := false; UnStakedNonce := 0;
     UnStakedEpoch := DefaultUnstakedEpoch; RewardAddress := []; StakeValue := 0;
     JailedRound := maxUint64; JailedNonce := 0; UnJailedNonce := 0; Jailed := false;
     Waiting := false; NumJailed := 0; SlashValue := Some 0; OwnerAddress := [] |}.

Definition getOrCreateRegisteredData (key : bytes) : SE S vm_error StakedDataV2_0 := fun s =>
  let data := storageAt key s in
  let loaded :=
    if bool_decide (data = []) then Ok newRegistrationData
    else Unmarshal newRegistrationData data in
  (s, match loaded with
      | Err e => Err e
      | Ok registrationData =>
          Ok (match SlashValue registrationData with
              | None => set_SlashValue (Some 0) registrationData
              | Some _ => registrationData
              end)
      end).

Definition toV1P0 (d : StakedDataV2_0) : StakedDataV1_0 :=
  {| v10_RegisterNonce := RegisterNonce d; v10_StakedNonce := StakedNonce d;
     v10_Staked := Staked d; v10_UnStakedNonce := UnStakedNonce d;
     v10_UnStakedEpoch := UnStakedEpoch d; v10_RewardAddress := RewardAddress d;
     v10_StakeValue := StakeValue d; v10_JailedRound := JailedRound d;
     v10_JailedNonce := JailedNonce d; v10_UnJailedNonce := UnJailedNonce d;
     v10_Jailed := Jailed d; v10_Waiting := Waiting d |}.

Definition toV1P1 (d : StakedDataV2_0) : StakedDataV1_1 :=
  {| v11_RegisterNonce := RegisterNonce d; v11_StakedNonce := StakedNonce d;
     v11_Staked := Staked d; v11_UnStakedNonce := UnStakedNonce d;
     v11_UnStakedEpoch := UnStakedEpoch d; v11_RewardAddress := RewardAddress d;
     v11_StakeValue := StakeValue d; v11_JailedRound := JailedRound d;
     v11_JailedNonce := JailedNonce d; v11_UnJailedNonce := UnJailedNonce d;
     v11_Jailed := Jailed d; v11_Waiting := Waiting d; v11_NumJailed := NumJailed d;
     v11_SlashValue := SlashValue d |}.

Definition saveAsStakingDataV1P0 (key : bytes) (stakedData : StakedDataV2_0) : SE S vm_error () :=
  data ← se_lift (Marshal (toV1P0 stakedData));
  setStorage key data.

Definition saveAsStakingDataV1P1 (key : bytes) (stakedData : StakedDataV2_0) : SE S vm_error () :=
  data ← se_lift (Marshal (toV1P1 stakedData));
  setStorage key data.

Definition saveStakingData (key : bytes) (stakedData : StakedDataV2_0) : SE S vm_error () :=
  if negb (IsFlagEnabled sc StakeFlag) then saveAsStakingDataV1P0 key stakedData
  else if negb (IsFlagEnabled sc StakingV2Flag) then saveAsStakingDataV1P1 key stakedData
  else
    data ← se_lift (Marshal stakedData);
    setStorage key data.
End SaveLoad.
