(* ===== verification/WaitingList.v ===== *)
(** * The queue of the staking contract (stakingWaitingList.go)

    A doubly linked list in the storage of the contract: an element per queued
    key under [w_<key>], a head record under [waitingList], and the jailed keys
    in front of the others.  Loops over the list run with the length of the
    list as fuel: their counter starts at 1 and stops them once it is past the
    length. *)

From Stdlib Require Import ZArith Lia String Ascii.
From stdpp Require Import base gmap list strings.
From S2P Require Import Prelude GoValues SystemEI StakingData.

Definition waitingListHeadKey : bytes := go_bytes "waitingList".
Definition waitingElementPrefix : bytes := go_bytes "w_".

Record waitingListReturnData := {
  blsKeys : list bytes;
  stakedDataList : list StakedDataV2_0;
  lastKey : bytes;
  afterLastJailed : bool;
}.

Definition createWaitingListKey (blsKey : bytes) : bytes := waitingElementPrefix ++ blsKey.

(** [make([]byte, n)] *)
Definition make_bytes (n : nat) : bytes := replicate n 0.

Section WaitingList.
Context {S : Type} {EI : SystemEI S} {MA : StakingMarshalizer}.
Context (sc : stakingSC).

Definition emptyElement : ElementInList := {| BLSPublicKey := []; PreviousKey := []; NextKey := [] |}.
Definition emptyWaitingList : WaitingList :=
  {| FirstKey := []; LastKey := []; Length := 0; LastJailedKey := [] |}.

Definition getWaitingListElement (key : bytes) : SE S vm_error ElementInList := fun s =>
  let marshaledData := storageAt key s in
  (s, if bool_decide (marshaledData = []) then Err ErrElementNotFound
      else Unmarshal emptyElement marshaledData).

Definition saveWaitingListElement (key : bytes) (element : ElementInList) : SE S vm_error () :=
  marshaledData ← se_lift (Marshal element);
  setStorage key marshaledData.

Definition getWaitingListHead : SE S vm_error WaitingList := fun s =>
  let marshaledData := storageAt waitingListHeadKey s in
  (s, if bool_decide (marshaledData = []) then Ok emptyWaitingList
      else Unmarshal emptyWaitingList marshaledData).

Definition saveWaitingListHead (waitingList : WaitingList) : SE S vm_error () :=
  marshaledData ← se_lift (Marshal waitingList);
  setStorage waitingListHeadKey marshaledData.

Definition saveElementAndList (key : bytes) (element : ElementInList) (waitingList : WaitingList)
    : SE S vm_error () :=
  _ ← saveWaitingListElement key element;
  saveWaitingListHead waitingList.

(** ** Insertion *)

Definition startWaitingList (waitingList : WaitingList) (addJailed : bool) (blsKey : bytes)
    : SE S vm_error () :=
  let inWaitingListKey := createWaitingListKey blsKey in
  let waitingList := wl_with_Last inWaitingListKey (wl_with_First inWaitingListKey waitingList) in
  let waitingList := if addJailed then wl_with_LastJailed inWaitingListKey waitingList else waitingList in
  let elementInWaiting :=
    {| BLSPublicKey := blsKey; PreviousKey := LastKey waitingList; NextKey := [] |} in
  saveElementAndList inWaitingListKey elementInWaiting waitingList.

Definition addToEndOfTheList (waitingList : WaitingList) (blsKey : bytes) : SE S vm_error () :=
  let inWaitingListKey := createWaitingListKey blsKey in
  let oldLastKey := LastKey waitingList in
  lastElement ← getWaitingListElement (LastKey waitingList);
  let lastElement := el_with_Next inWaitingListKey lastElement in
  let elementInWaiting :=
    {| BLSPublicKey := blsKey; PreviousKey := oldLastKey; NextKey := [] |} in
  _ ← saveWaitingListElement oldLastKey lastElement;
  let waitingList := wl_with_Last inWaitingListKey waitingList in
  saveElementAndList inWaitingListKey elementInWaiting waitingList.

Definition insertAfterLastJailed (waitingList : WaitingList) (blsKey : bytes) : SE S vm_error () :=
  let inWaitingListKey := createWaitingListKey blsKey in
  if bool_decide (LastJailedKey waitingList = []) then
    let previousFirstKey := FirstKey waitingList in
    let waitingList := wl_with_LastJailed inWaitingListKey (wl_with_First inWaitingListKey waitingList) in
    let elementInWaiting :=
      {| BLSPublicKey := blsKey; PreviousKey := inWaitingListKey; NextKey := previousFirstKey |} in
    _ ← (if IsFlagEnabled sc CorrectFirstQueuedFlag && negb (bool_decide (previousFirstKey = [])) then
           previousFirstElement ← getWaitingListElement previousFirstKey;
           saveWaitingListElement previousFirstKey (el_with_Previous inWaitingListKey previousFirstElement)
         else mret ());
    saveElementAndList inWaitingListKey elementInWaiting waitingList
  else
    lastJailedElement ← getWaitingListElement (LastJailedKey waitingList);
    if bool_decide (LastKey waitingList = LastJailedKey waitingList) then
      addToEndOfTheList (wl_with_LastJailed inWaitingListKey waitingList) blsKey
    else
      firstNonJailedElement ← getWaitingListElement (NextKey lastJailedElement);
      let elementInWaiting :=
        {| BLSPublicKey := blsKey;
           PreviousKey := go_copy (make_bytes (length inWaitingListKey)) (LastJailedKey waitingList);
           NextKey := go_copy (make_bytes (length inWaitingListKey)) (NextKey lastJailedElement) |} in
      let lastJailedElement := el_with_Next inWaitingListKey lastJailedElement in
      let firstNonJailedElement := el_with_Previous inWaitingListKey firstNonJailedElement in
      let waitingList := wl_with_LastJailed inWaitingListKey waitingList in
      _ ← saveWaitingListElement (PreviousKey elementInWaiting) lastJailedElement;
      _ ← saveWaitingListElement (NextKey elementInWaiting) firstNonJailedElement;
      _ ← saveWaitingListElement inWaitingListKey elementInWaiting;
      saveWaitingListHead waitingList.

Definition addToWaitingList (blsKey : bytes) (addJailed : bool) : SE S vm_error () :=
  let inWaitingListKey := createWaitingListKey blsKey in
  s ← se_get;
  if negb (bool_decide (storageAt inWaitingListKey s = [])) then mret () else
  waitingList ← getWaitingListHead;
  let waitingList := wl_with_Length (u32 (Length waitingList + 1)) waitingList in
  if Length waitingList =? 1 then startWaitingList waitingList addJailed blsKey
  else if addJailed then insertAfterLastJailed waitingList blsKey
  else addToEndOfTheList waitingList blsKey.

(** ** Removal *)

Fixpoint searchPreviousFromHead_loop (fuel : nat) (waitingList : WaitingList)
    (inWaitingListKey nextKey : bytes) (index : Z) : SE S vm_error ElementInList :=
  match fuel with
  | O => se_lift (Err ErrElementNotFound)
  | Datatypes.S fuel =>
      if negb (bool_decide (nextKey = [])) && (index <=? Length waitingList) then
        element ← getWaitingListElement nextKey;
        if bool_decide (inWaitingListKey = NextKey element) then mret element
        else if bool_decide (NextKey element = []) then se_lift (Err ErrElementNotFound)
        else searchPreviousFromHead_loop fuel waitingList inWaitingListKey (NextKey element)
               (u32 (index + 1))
      else se_lift (Err ErrElementNotFound)
  end.

(** Also returns [elementToRemove], whose [PreviousKey] it corrects. *)
Definition searchPreviousFromHead (waitingList : WaitingList) (inWaitingListKey : bytes)
    (elementToRemove : ElementInList) : SE S vm_error (ElementInList * ElementInList) :=
  previousElement ← searchPreviousFromHead_loop (Datatypes.S (Z.to_nat (Length waitingList)))
    waitingList inWaitingListKey (FirstKey waitingList) 1;
  mret (previousElement,
        el_with_Previous (createWaitingListKey (BLSPublicKey previousElement)) elementToRemove).

(** The element in front of the one to remove, which the list may not have
    right: [previousElement, _ := getWaitingListElement(...)] and the two
    attempts that follow. *)
Definition findPreviousElement (waitingList : WaitingList) (inWaitingListKey : bytes)
    (elementToRemove : ElementInList) : SE S vm_error (ElementInList * ElementInList) :=
  found ← se_try (getWaitingListElement (PreviousKey elementToRemove));
  match found with
  | Ok previousElement => mret (previousElement, elementToRemove)
  | Err _ =>
      if IsFlagEnabled sc CorrectFirstQueuedFlag
      then searchPreviousFromHead waitingList inWaitingListKey elementToRemove
      else
        previousElement ← getWaitingListElement (PreviousKey elementToRemove);
        mret (previousElement, elementToRemove)
  end.

Definition removeElement (waitingList : WaitingList) (inWaitingListKey : bytes)
    (elementToRemove : ElementInList) : SE S vm_error () :=
  (* remove the first element *)
  let isFirstElementBeforeFix := negb (IsFlagEnabled sc CorrectFirstQueuedFlag)
    && bool_decide (PreviousKey elementToRemove = inWaitingListKey) in
  let isFirstElementAfterFix := IsFlagEnabled sc CorrectFirstQueuedFlag
    && bool_decide (FirstKey waitingList = inWaitingListKey) in
  if isFirstElementBeforeFix || isFirstElementAfterFix then
    let waitingList :=
      if bool_decide (inWaitingListKey = LastJailedKey waitingList)
      then wl_with_LastJailed [] waitingList else waitingList in
    nextElement ← getWaitingListElement (NextKey elementToRemove);
    let nextElement := el_with_Previous (NextKey elementToRemove) nextElement in
    let waitingList := wl_with_First (NextKey elementToRemove) waitingList in
    saveElementAndList (NextKey elementToRemove) nextElement waitingList
  else
    let waitingList :=
      if negb (IsFlagEnabled sc CorrectLastUnJailedFlag)
         || bool_decide (inWaitingListKey = LastJailedKey waitingList)
      then wl_with_LastJailed (PreviousKey elementToRemove) waitingList else waitingList in
    '(previousElement, elementToRemove) ←
       findPreviousElement waitingList inWaitingListKey elementToRemove;
    if bool_decide (NextKey elementToRemove = []) then
      let waitingList := wl_with_Last (PreviousKey elementToRemove) waitingList in
      let previousElement := el_with_Next [] previousElement in
      saveElementAndList (PreviousKey elementToRemove) previousElement waitingList
    else
      nextElement ← getWaitingListElement (NextKey elementToRemove);
      let nextElement := el_with_Previous (PreviousKey elementToRemove) nextElement in
      let previousElement := el_with_Next (NextKey elementToRemove) previousElement in
      _ ← saveWaitingListElement (NextKey elementToRemove) nextElement;
      saveElementAndList (PreviousKey elementToRemove) previousElement waitingList.

Definition removeFromWaitingList (blsKey : bytes) : SE S vm_error () :=
  let inWaitingListKey := createWaitingListKey blsKey in
  s ← se_get;
  let marshaledData := storageAt inWaitingListKey s in
  if bool_decide (marshaledData = []) then mret () else
  _ ← setStorage inWaitingListKey [];
  elementToRemove ← se_lift (Unmarshal emptyElement marshaledData);
  waitingList ← getWaitingListHead;
  if Length waitingList =? 0 then se_lift (Err ErrInvalidWaitingList) else
  let waitingList := wl_with_Length (u32 (Length waitingList - 1)) waitingList in
  if Length waitingList =? 0 then setStorage waitingListHeadKey []
  else removeElement waitingList inWaitingListKey elementToRemove.

(** ** Walking the queue *)

(** The loop of [getFirstElementsFromWaitingList]; returns the keys, their
    staking data, the last key and whether it met the last jailed key. *)
Fixpoint getFirstElements_loop (fuel : nat) (waitingListHead : WaitingList) (numNodes : Z)
    (nextKey : bytes) (index : Z) (acc : waitingListReturnData) : SE S vm_error waitingListReturnData :=
  match fuel with
  | O => mret acc
  | Datatypes.S fuel =>
      if negb (bool_decide (nextKey = [])) && (index <=? Length waitingListHead)
         && (index <=? numNodes) then
        element ← getWaitingListElement nextKey;
        stakedData ← getOrCreateRegisteredData (BLSPublicKey element);
        let nextKey' := if bool_decide (NextKey element = []) then nextKey
                        else go_copy nextKey (NextKey element) in
        let acc :=
          {| blsKeys := blsKeys acc ++ [BLSPublicKey element];
             stakedDataList := stakedDataList acc ++ [stakedData];
             lastKey := nextKey';
             afterLastJailed :=
               afterLastJailed acc || bool_decide (nextKey = LastJailedKey waitingListHead) |} in
        if bool_decide (NextKey element = []) then mret acc
        else getFirstElements_loop fuel waitingListHead numNodes nextKey' (u32 (index + 1)) acc
      else mret acc
  end.

Definition getFirstElementsFromWaitingList (numNodes : Z) : SE S vm_error waitingListReturnData :=
  waitingListHead ← getWaitingListHead;
  if Length waitingListHead =? 0
  then mret {| blsKeys := []; stakedDataList := []; lastKey := []; afterLastJailed := false |}
  else
    getFirstElements_loop (Datatypes.S (Z.to_nat (Length waitingListHead))) waitingListHead numNodes
      (FirstKey waitingListHead) 1
      {| blsKeys := []; stakedDataList := []; lastKey := FirstKey waitingListHead;
         afterLastJailed := false |}.
End WaitingList.
