(* ===== verification/Staking.v ===== *)
(** * The staking contract (staking.go, stakingWaitingList.go)

    Every function that [Execute] dispatches to.  A handler runs in
    [SE S ReturnCode]: [Err rc] is an early return with the code [rc].  The
    registration data that Go passes by pointer and changes in place is
    returned, and saved where the code saves it. *)

From Stdlib Require Import ZArith Lia String Ascii.
From stdpp Require Import base gmap list strings.
From S2P Require Import Prelude GoValues SystemEI StakingData WaitingList.

(** [const waiting] of validator.go *)
Definition waiting : Z := 3.
Definition TransactionValueMustBeZero : string := "transaction value must be zero".

(** [map[string]*validatorFundInfo]; the info is [numNodesToUnstake]. *)
Abbreviation CheckedOwners := (gmap bytes Z).

(** Constants and functions of the core package. *)
Class CoreEnv := {
  InitFunctionName : string;
  MetachainShardId : Z;
  IsSmartContractAddress : bytes -> bool;
}.

Section Staking.
Context {S : Type} {EI : SystemEI S} {BH : BlockchainHook} {MA : StakingMarshalizer} {CE : CoreEnv}.
Context (sc : stakingSC).
Abbreviation flag f := (IsFlagEnabled sc f).
Abbreviation handler := (SE S ReturnCode ReturnCode).

Definition getUnBondPeriod : Z :=
  if negb (IsSupernovaEnabledInRound sc CurrentRound) then unBondPeriod sc
  else unBondPeriodSupernova sc.

Definition callerIs (args : ContractCallInput) (addr : bytes) : bool :=
  bool_decide (default [] (CallerAddr args) = addr).
Definition callerString (args : ContractCallInput) : string := go_string (default [] (CallerAddr args)).
Definition arg (args : ContractCallInput) (i : nat) : bytes := nth i (Arguments args) [].
Definition numArgs (args : ContractCallInput) : nat := length (Arguments args).
Definition hasValue (args : ContractCallInput) : bool := negb (default 0 (CallValue args) =? 0).

Definition waitingListDisabled : bool := flag StakingV4StartedFlag && negb (flag StakingV4Step1Flag).

(** ** Counters *)

Definition addToStakedNodes {E} (value : Z) : SE S E () :=
  s ← se_get;
  let stakeConfig := getConfig sc s in
  setConfig (cfg_with_StakedNodes (i64 (StakedNodes stakeConfig + value)) stakeConfig).

Definition removeFromStakedNodes {E} : SE S E () :=
  s ← se_get;
  let stakeConfig := getConfig sc s in
  setConfig (if 0 <? StakedNodes stakeConfig
             then cfg_with_StakedNodes (StakedNodes stakeConfig - 1) stakeConfig else stakeConfig).

Definition removeFromJailedNodes {E} : SE S E () :=
  s ← se_get;
  let stakeConfig := getConfig sc s in
  setConfig (if 0 <? JailedNodes stakeConfig
             then cfg_with_JailedNodes (JailedNodes stakeConfig - 1) stakeConfig else stakeConfig).

Definition numSpareNodes (s : S) : Z :=
  let stakeConfig := getConfig sc s in
  i64 (i64 (StakedNodes stakeConfig - JailedNodes stakeConfig) - MinNumNodes stakeConfig).

Definition canStake (s : S) : bool :=
  if flag StakingV4StartedFlag then true else
  let stakeConfig := getConfig sc s in StakedNodes stakeConfig <? MaxNumNodes stakeConfig.

Definition canStakeIfOneRemoved (s : S) : bool :=
  let stakeConfig := getConfig sc s in StakedNodes stakeConfig <=? MaxNumNodes stakeConfig.

Definition canUnStake (s : S) : bool := 0 <? numSpareNodes s.
Definition canUnBond (s : S) : bool := 0 <=? numSpareNodes s.

Definition isNodeJailedOrWithBadRating (registrationData : StakedDataV2_0) (blsKey : bytes) : bool :=
  Jailed registrationData || eei_CanUnJail blsKey || eei_IsBadRating blsKey.

Definition activeStakingFor (stakingData : StakedDataV2_0) : StakedDataV2_0 :=
  set_Waiting false (set_Staking true CurrentNonce 0 DefaultUnstakedEpoch
    (set_Registered CurrentNonce stakingData)).

(** The fields that all ways to unstake set, but [StakedNonce]. *)
Definition unStakedNow (d : StakedDataV2_0) : StakedDataV2_0 :=
  set_Waiting false (set_Staking false (StakedNonce d) CurrentNonce CurrentEpoch d).

(** ** Staking *)

Definition processStakeV1 (blsKey : bytes) (registrationData : StakedDataV2_0) (addFirst : bool)
    : SE S vm_error StakedDataV2_0 :=
  if Staked registrationData then mret registrationData else
  let registrationData := set_Registered CurrentNonce registrationData in
  s ← se_get;
  if negb (canStake s) then
    _ ← say ("staking is full key put into waiting list " +:+ hex_EncodeToString blsKey);
    added ← se_try (addToWaitingList sc blsKey addFirst);
    match added with
    | Err err =>
        _ ← say "error while adding to waiting";
        se_lift (Err err)
    | Ok _ =>
        _ ← finish [waiting];
        mret (set_Waiting true registrationData)
    end
  else
    removed ← se_try (removeFromWaitingList sc blsKey);
    match removed with
    | Err err =>
        _ ← say "error while removing from waiting";
        se_lift (Err err)
    | Ok _ =>
        _ ← addToStakedNodes 1;
        mret (activeStakingFor registrationData)
    end.

Definition processStakeV2 (registrationData : StakedDataV2_0) : SE S vm_error StakedDataV2_0 :=
  if Staked registrationData then mret registrationData else
  let registrationData := set_Registered CurrentNonce registrationData in
  _ ← addToStakedNodes 1;
  mret (activeStakingFor registrationData).

Definition processStake (blsKey : bytes) (registrationData : StakedDataV2_0) (addFirst : bool)
    : SE S vm_error StakedDataV2_0 :=
  if flag StakingV4StartedFlag then processStakeV2 registrationData
  else processStakeV1 blsKey registrationData addFirst.

(** "cannot get or create registered data: error " *)
Definition loadOrFail (prefix : string) (blsKey : bytes) : SE S ReturnCode StakedDataV2_0 :=
  orFail (fun err => prefix +:+ vm_Error err) (getOrCreateRegisteredData blsKey).
Definition saveOrFail (prefix : string) (blsKey : bytes) (d : StakedDataV2_0) : SE S ReturnCode () :=
  orFail (fun err => prefix +:+ vm_Error err) (saveStakingData sc blsKey d).

Definition stake (args : ContractCallInput) (onlyRegister : bool) : handler :=
  _ ← failIf (negb (callerIs args (stakeAccessAddr sc)))
        ("stake function not allowed to be called by address " +:+ callerString args);
  _ ← failIf (Nat.ltb (numArgs args) 3)
        "not enough arguments, needed BLS key, reward address and owner address";
  registrationData ← loadOrFail "cannot get or create registered data: error " (arg args 0);
  _ ← failIf (isNodeJailedOrWithBadRating registrationData (arg args 0))
        "cannot stake node which is jailed or with bad rating";
  let registrationData :=
    set_StakeValue (stakeValue sc) (set_Addresses (arg args 1) (arg args 2) registrationData) in
  registrationData ← (if negb onlyRegister
                      then orReturn (processStake (arg args 0) registrationData false)
                      else mret registrationData);
  _ ← saveOrFail "cannot save staking registered data: error " (arg args 0) registrationData;
  mret RC_Ok.

(** ** Unstaking *)

Definition moveFirstFromWaitingToStaked : SE S vm_error bool :=
  waitingList ← getWaitingListHead;
  if Length waitingList =? 0 then mret false else
  elementInList ← getWaitingListElement (FirstKey waitingList);
  _ ← removeFromWaitingList sc (BLSPublicKey elementInList);
  nodeData ← getOrCreateRegisteredData (BLSPublicKey elementInList);
  if bool_decide (RewardAddress nodeData = []) || Staked nodeData
  then se_lift (Err ErrInvalidWaitingList) else
  let nodeData := set_Registered CurrentNonce
    (set_Staking true CurrentNonce 0 DefaultUnstakedEpoch (set_Waiting false nodeData)) in
  _ ← addToStakedNodes 1;
  _ ← saveStakingData sc (BLSPublicKey elementInList) nodeData;
  mret true.

Definition moveFirstFromWaitingToStakedIfNeeded (blsKey : bytes) : SE S vm_error bool :=
  found ← se_try (getWaitingListElement (createWaitingListKey blsKey));
  match found with
  | Ok _ =>
      _ ← removeFromWaitingList sc blsKey;
      mret false
  | Err _ => moveFirstFromWaitingToStaked
  end.

Definition checkUnStakeArgs (args : ContractCallInput) : SE S ReturnCode StakedDataV2_0 :=
  _ ← failIf (negb (callerIs args (stakeAccessAddr sc)))
        ("unStake function not allowed to be called by address " +:+ callerString args);
  _ ← failIf (Nat.ltb (numArgs args) 2) "not enough arguments, needed BLS key and reward address";
  registrationData ← loadOrFail "cannot get or create registered data: error " (arg args 0);
  _ ← failIf (bool_decide (RewardAddress registrationData = []))
        "cannot unStake a key that is not registered";
  _ ← failIf (negb (bool_decide (arg args 1 = RewardAddress registrationData)))
        "unStake possible only from staker caller";
  _ ← failIf (isNodeJailedOrWithBadRating registrationData (arg args 0))
        "cannot unStake node which is jailed or with bad rating";
  _ ← failIf (negb (Staked registrationData) && negb (Waiting registrationData))
        "cannot unStake node which was already unStaked";
  mret registrationData.

Definition doUnStake (key : bytes) (registrationData : StakedDataV2_0) : handler :=
  _ ← saveOrFail "cannot save staking data: error " key (unStakedNow registrationData);
  mret RC_Ok.

Definition tryUnStake (key : bytes) (registrationData : StakedDataV2_0) : handler :=
  s ← se_get;
  _ ← failIf (negb (canUnStake s)) "unStake is not possible as too many left";
  _ ← removeFromStakedNodes;
  doUnStake key registrationData.

Definition unStakeV1 (args : ContractCallInput) : handler :=
  registrationData ← checkUnStakeArgs args;
  if negb (Staked registrationData) then
    let registrationData := set_Waiting false registrationData in
    _ ← orFail vm_Error (removeFromWaitingList sc (arg args 0));
    _ ← saveOrFail "cannot save staking data: error " (arg args 0) registrationData;
    mret RC_Ok
  else
    s ← se_get;
    let addOneFromQueue := negb (flag CorrectLastUnJailedFlag) || canStakeIfOneRemoved s in
    _ ← (if addOneFromQueue then
           _ ← orFail vm_Error moveFirstFromWaitingToStaked; mret ()
         else mret ());
    tryUnStake (arg args 0) registrationData.

Definition unStakeV2 (args : ContractCallInput) : handler :=
  registrationData ← checkUnStakeArgs args;
  if negb (Staked registrationData) then
    _ ← say (vm_Error ErrWaitingListDisabled);
    mret RC_ExecutionFailed
  else tryUnStake (arg args 0) registrationData.

Definition unStake (args : ContractCallInput) : handler :=
  if flag StakingV4StartedFlag then unStakeV2 args else unStakeV1 args.

Definition unStakeAtEndOfEpoch (args : ContractCallInput) : handler :=
  if negb (callerIs args (endOfEpochAccessAddr sc)) then mret RC_UserError else
  _ ← failIf (negb (Nat.eqb (numArgs args) 1)) "not enough arguments, needed the BLS key";
  registrationData ← loadOrFail "cannot get or create registered data: error " (arg args 0);
  _ ← failIf (bool_decide (RewardAddress registrationData = []))
        "cannot unStake a key that is not registered";
  if Jailed registrationData && negb (Staked registrationData) then
    _ ← say "already unStaked at switchJailedToWaiting";
    mret RC_Ok
  else if negb (Staked registrationData) && negb (Waiting registrationData) then mret RC_Ok
  else
    _ ← (if Staked registrationData then removeFromStakedNodes else mret ());
    _ ← (if Waiting registrationData
         then orFail vm_Error (removeFromWaitingList sc (arg args 0)) else mret ());
    _ ← saveOrFail "cannot save staking data: error " (arg args 0) (unStakedNow registrationData);
    mret RC_Ok.

Definition unBond (args : ContractCallInput) : handler :=
  _ ← failIf (negb (callerIs args (stakeAccessAddr sc)))
        ("unBond function not allowed to be called by address " +:+ callerString args);
  _ ← failIf (Nat.ltb (numArgs args) 1) "not enough arguments, needed BLS key";
  registrationData ← loadOrFail "cannot get or create registered data: error " (arg args 0);
  let encodedBlsKey := hex_EncodeToString (arg args 0) in
  _ ← failIf (bool_decide (RewardAddress registrationData = []))
        ("cannot unBond key " +:+ encodedBlsKey +:+ " that is not registered");
  _ ← failIf (Staked registrationData)
        ("unBond is not possible for key " +:+ encodedBlsKey +:+ " which is staked");
  _ ← failIf (isNodeJailedOrWithBadRating registrationData (arg args 0))
        ("cannot unBond node which is jailed or with bad rating " +:+ encodedBlsKey);
  _ ← failIf (Waiting registrationData)
        ("unBond in not possible for key " +:+ encodedBlsKey +:+ " which is in waiting list");
  _ ← failIf (flag FixCorrectSmallIntAndGasLimitsFlag && (UnStakedNonce registrationData =? 0))
        ("cannot unBond key " +:+ encodedBlsKey +:+ " which was never unStaked");
  _ ← failIf ((0 <? UnStakedNonce registrationData)
              && (u64 (CurrentNonce - UnStakedNonce registrationData) <? getUnBondPeriod))
        ("unBond is not possible for key " +:+ encodedBlsKey +:+ " because unBond period did not pass");
  s ← se_get;
  _ ← failIf (negb (canUnBond s))
        "unBond is currently unavailable: number of total validators in the network is at minimum";
  _ ← failIf (eei_IsValidator (arg args 0))
        ("unBond is not possible: the node with key " +:+ encodedBlsKey +:+ " is still a validator");
  _ ← setStorage (arg args 0) [];
  mret RC_Ok.

(** ** Jail *)

Definition jailOne (argument : bytes) : SE S ReturnCode () :=
  stakedData ← loadOrFail "cannot get or create registered data: error " argument;
  _ ← failIf (bool_decide (RewardAddress stakedData = [])) "cannot jail a key that is not registered";
  saveOrFail "cannot save staking data: error " argument
    (set_Jail true (u32 (NumJailed stakedData + 1)) CurrentRound CurrentNonce
       (UnJailedNonce stakedData) stakedData).

Definition jail (args : ContractCallInput) : handler :=
  if negb (callerIs args (jailAccessAddr sc)) then mret RC_UserError else
  _ ← se_for (Arguments args) jailOne;
  mret RC_Ok.

Definition unJailOneV1 (argument : bytes) : SE S ReturnCode () :=
  stakedData ← loadOrFail "cannot get or created registered data: error " argument;
  _ ← failIf (bool_decide (RewardAddress stakedData = [])) "cannot unJail a key that is not registered";
  _ ← (if UnJailedNonce stakedData <=? JailedNonce stakedData then removeFromJailedNodes
       else mret ());
  saveOrFail "cannot save staking data: error " argument
    (set_Jail (Jailed stakedData) (NumJailed stakedData) maxUint64 (JailedNonce stakedData)
       CurrentNonce stakedData).

Definition unJailV1 (args : ContractCallInput) : handler :=
  _ ← failIf (negb (callerIs args (stakeAccessAddr sc)))
        ("unJail function not allowed to be called by address " +:+ callerString args);
  _ ← se_for (Arguments args) unJailOneV1;
  mret RC_Ok.

Definition unJail (args : ContractCallInput) : handler :=
  if negb (flag StakeFlag) then unJailV1 args else
  _ ← failIf (negb (callerIs args (stakeAccessAddr sc)))
        ("unJail function not allowed to be called by address " +:+ callerString args);
  _ ← failIf (negb (Nat.eqb (numArgs args) 1)) "wrong number of arguments, wanted 1";
  stakedData ← loadOrFail "cannot get or created registered data: error " (arg args 0);
  _ ← failIf (bool_decide (RewardAddress stakedData = [])) "cannot unJail a key that is not registered";
  _ ← failIf (negb (Jailed stakedData) && negb (eei_CanUnJail (arg args 0)))
        "cannot unJail a node which is not jailed";
  let stakedData := set_Jail false (NumJailed stakedData) maxUint64 (JailedNonce stakedData)
                      CurrentNonce stakedData in
  stakedData ← orReturn (processStake (arg args 0) stakedData (NumJailed stakedData =? 1));
  _ ← saveOrFail "cannot save staking data: error " (arg args 0) stakedData;
  mret RC_Ok.

Definition removeAndSetUnstaked {E} (registrationData : StakedDataV2_0) : SE S E StakedDataV2_0 :=
  _ ← removeFromStakedNodes;
  mret (set_Staking false maxUint64 CurrentNonce CurrentEpoch registrationData).

Definition tryRemoveJailedNodeFromStaked {E} (registrationData : StakedDataV2_0)
    : SE S E StakedDataV2_0 :=
  if negb (flag CorrectJailedNotUnStakedEmptyQueueFlag) then removeAndSetUnstaked registrationData
  else
    s ← se_get;
    if canUnStake s then removeAndSetUnstaked registrationData
    else
      _ ← say "did not switch as not enough validators remaining";
      mret registrationData.

Definition switchJailedWithWaiting (args : ContractCallInput) : handler :=
  _ ← failIf waitingListDisabled (vm_Error ErrWaitingListDisabled);
  _ ← failIf (negb (callerIs args (endOfEpochAccessAddr sc)))
        ("switchJailedWithWaiting function not allowed to be called by address " +:+ callerString args);
  if negb (Nat.eqb (numArgs args) 1) then mret RC_UserError else
  let blsKey := arg args 0 in
  registrationData ← orFail vm_Error (getOrCreateRegisteredData blsKey);
  _ ← failIf (bool_decide (RewardAddress registrationData = [])) "no need to jail as not a validator";
  _ ← failIf (negb (Staked registrationData)) "no need to jail as not a validator";
  _ ← failIf (Jailed registrationData) (vm_Error ErrBLSPublicKeyAlreadyJailed);
  switched ← orFail vm_Error (moveFirstFromWaitingToStakedIfNeeded blsKey);
  let registrationData :=
    set_Jail true (u32 (NumJailed registrationData + 1)) (JailedRound registrationData) CurrentNonce
      (UnJailedNonce registrationData) registrationData in
  registrationData ←
    (if negb switched && negb (flag CorrectJailedNotUnStakedEmptyQueueFlag) then
       _ ← say "did not switch as nobody in waiting, but jailed";
       mret registrationData
     else tryRemoveJailedNodeFromStaked registrationData);
  _ ← saveOrFail "cannot save staking data: error " blsKey registrationData;
  mret RC_Ok.

(** ** Addresses and configuration *)

Definition changeValidatorKey (args : ContractCallInput) : handler :=
  _ ← failIf (negb (callerIs args (stakeAccessAddr sc)))
        ("changeValidatorKey function not allowed to be called by address " +:+ callerString args);
  fail "function is deprecated".

Definition changeRewardAddressOne (newRewardAddress blsKey : bytes) : SE S ReturnCode () :=
  stakedData ← loadOrFail "cannot get or create registered data: error " blsKey;
  if bool_decide (RewardAddress stakedData = []) then mret () else
  saveOrFail "cannot save staking data: error " blsKey
    (set_Addresses newRewardAddress (OwnerAddress stakedData) stakedData).

Definition changeRewardAddress (args : ContractCallInput) : handler :=
  _ ← failIf (negb (callerIs args (stakeAccessAddr sc)))
        ("stake function not allowed to be called by address " +:+ callerString args);
  _ ← failIf (Nat.ltb (numArgs args) 2)
        ("invalid number of arguments: expected min 2, got " +:+ itoa (Z.of_nat (numArgs args)));
  let newRewardAddress := arg args 0 in
  _ ← failIf (negb (Nat.eqb (length newRewardAddress) (walletAddressLen sc))) "invalid reward address";
  _ ← se_for (drop 1 (Arguments args)) (changeRewardAddressOne newRewardAddress);
  mret RC_Ok.

Definition setOwnerOne (i : nat) (blsKey owner : bytes) : SE S ReturnCode () :=
  let stopped := "process stopped at index " +:+ itoa (Z.of_nat i) +:+ ", bls key "
                 +:+ hex_EncodeToString blsKey in
  let orStop (m : SE S vm_error StakedDataV2_0) : SE S ReturnCode StakedDataV2_0 :=
    r ← se_try m;
    match r with
    | Ok a => mret a
    | Err err => _ ← say (vm_Error err); fail stopped
    end in
  stakedData ← orStop (getOrCreateRegisteredData blsKey);
  if bool_decide (RewardAddress stakedData = []) then mret () else
  let stakedData := set_Addresses (RewardAddress stakedData) owner stakedData in
  _ ← orStop (_ ← saveStakingData sc blsKey stakedData; mret stakedData);
  mret ().

Fixpoint setOwners_loop (i : nat) (arguments : list bytes) : SE S ReturnCode () :=
  match arguments with
  | blsKey :: owner :: arguments =>
      _ ← setOwnerOne i blsKey owner;
      setOwners_loop (i + 2) arguments
  | _ => mret ()
  end.

Definition setOwnersOnAddresses (args : ContractCallInput) : handler :=
  _ ← failIf (negb (flag StakingV2Flag)) "invalid method to call";
  _ ← failIf (negb (callerIs args (endOfEpochAccessAddr sc)))
        ("setOwnersOnAddresses function not allowed to be called by address " +:+ callerString args);
  _ ← failIf (negb (Nat.even (numArgs args)))
        "invalid number of arguments: expected an even number of arguments";
  _ ← setOwners_loop 0 (Arguments args);
  mret RC_Ok.

Definition changeOwnerOne (newOwnerAddress blsKey : bytes) : SE S ReturnCode () :=
  registrationData ← orFail vm_Error (getOrCreateRegisteredData blsKey);
  _ ← failIf (bool_decide (RewardAddress registrationData = []))
        "cannot change owner and reward address for a key which is not registered";
  _ ← failIf (Jailed registrationData || eei_CanUnJail blsKey)
        "can not migrate nodes while jailed nodes exists";
  orFail vm_Error
    (saveStakingData sc blsKey (set_Addresses newOwnerAddress newOwnerAddress registrationData)).

Definition changeOwnerAndRewardAddress (args : ContractCallInput) : handler :=
  if negb (flag ValidatorToDelegationFlag) then mret RC_UserError else
  _ ← failIf (negb (callerIs args (stakeAccessAddr sc)))
        "change owner and reward address can be called by validator SC only";
  _ ← failIf (hasValue args) "callValue must be 0";
  _ ← failIf (Nat.ltb (numArgs args) 2) "number of arguments is 2 at minimum";
  let newOwnerAddress := arg args 0 in
  _ ← failIf (negb (IsSmartContractAddress newOwnerAddress))
        "new address must be a smart contract address";
  _ ← se_for (drop 1 (Arguments args)) (changeOwnerOne newOwnerAddress);
  mret RC_Ok.

Definition updateConfigMinNodes (args : ContractCallInput) : handler :=
  _ ← failIf (negb (callerIs args (endOfEpochAccessAddr sc)))
        ("updateConfigMinNodes function not allowed to be called by address " +:+ callerString args);
  s ← se_get;
  let stakeConfig := getConfig sc s in
  _ ← failIf (negb (Nat.eqb (numArgs args) 1)) "number of arguments must be 1";
  let newMinNodes := bigInt64 (bigSetBytes (arg args 0)) in
  _ ← failIf (newMinNodes <=? 0) "new minimum number of nodes zero or negative";
  _ ← failIf (i64 (maxNumNodes sc) <? newMinNodes)
        "new minimum number of nodes greater than maximum number of nodes";
  _ ← setConfig (cfg_with_limits newMinNodes (MaxNumNodes stakeConfig) stakeConfig);
  mret RC_Ok.

Definition updateConfigMaxNodes (args : ContractCallInput) : handler :=
  _ ← failIf (negb (flag StakingV2Flag)) "invalid method to call";
  _ ← failIf (negb (callerIs args (endOfEpochAccessAddr sc)))
        ("updateConfigMaxNodes function not allowed to be called by address " +:+ callerString args);
  s ← se_get;
  let stakeConfig := getConfig sc s in
  _ ← failIf (negb (Nat.eqb (numArgs args) 1)) "number of arguments must be 1";
  let newMaxNodes := bigInt64 (bigSetBytes (arg args 0)) in
  _ ← failIf (newMaxNodes <=? 0) "new max number of nodes zero or negative";
  _ ← failIf (newMaxNodes <? i64 (minNumNodes sc))
        "new max number of nodes less than min number of nodes";
  _ ← finish (bigBytes (MaxNumNodes stakeConfig));
  _ ← setConfig (cfg_with_limits (MinNumNodes stakeConfig) newMaxNodes stakeConfig);
  mret RC_Ok.

Definition init (args : ContractCallInput) : handler :=
  s ← se_get;
  _ ← failIf (negb (bool_decide (eei_GetStorage ownerKey s = None)))
        "smart contract was already initialized";
  let caller := default [] (CallerAddr args) in
  _ ← setStorage ownerKey caller;
  _ ← setStorage caller (bigBytes 0);
  _ ← setConfig {| MinNumNodes := i64 (minNumNodes sc); MaxNumNodes := i64 (maxNumNodes sc);
                   StakedNodes := 0; JailedNodes := 0 |};
  _ ← setStorage (go_bytes ("epoch_" +:+ itoa CurrentEpoch)) (bigBytes (stakeValue sc));
  mret RC_Ok.

(** ** Views *)

Definition slash (args : ContractCallInput) : handler :=
  fail "slash function called by not the owners address".

Definition get (args : ContractCallInput) : handler :=
  _ ← failIf (flag StakingV2Flag) "function deprecated";
  _ ← failIf (Nat.ltb (numArgs args) 1) "invalid number of arguments: expected min 1, got 0";
  s ← se_get;
  _ ← finish (storageAt (arg args 0) s);
  mret RC_Ok.

Definition isStaked (args : ContractCallInput) : handler :=
  _ ← failIf (Nat.ltb (numArgs args) 1) "invalid number of arguments: expected min 1, got 0";
  _ ← failIf (hasValue args) TransactionValueMustBeZero;
  registrationData ← loadOrFail "cannot get or create registered data: error " (arg args 0);
  _ ← failIf (bool_decide (RewardAddress registrationData = [])) "key is not registered";
  if Staked registrationData then mret RC_Ok else fail "account not staked".

Definition getStakedDataIfExists (args : ContractCallInput) : SE S ReturnCode StakedDataV2_0 :=
  _ ← orFailWith RC_OutOfGas (fun _ => "insufficient gas") (eei_UseGas (Get (gasCost sc)));
  _ ← failIf (negb (Nat.eqb (numArgs args) 1)) "number of arguments must be equal to 1";
  stakedData ← orFail vm_Error (getOrCreateRegisteredData (arg args 0));
  _ ← failIf (bool_decide (RewardAddress stakedData = [])) "blsKey not registered in staking sc";
  mret stakedData.

Definition getRewardAddress (args : ContractCallInput) : handler :=
  _ ← failIf (hasValue args) TransactionValueMustBeZero;
  stakedData ← getStakedDataIfExists args;
  _ ← finish (go_bytes (hex_EncodeToString (RewardAddress stakedData)));
  mret RC_Ok.

Definition getBLSKeyStatus (args : ContractCallInput) : handler :=
  _ ← failIf (hasValue args) TransactionValueMustBeZero;
  stakedData ← getStakedDataIfExists args;
  let status :=
    if Jailed stakedData || eei_CanUnJail (arg args 0) then "jailed"%string
    else if Waiting stakedData then "queued"%string
    else if Staked stakedData then "staked"%string else "unStaked"%string in
  _ ← finish (go_bytes status);
  mret RC_Ok.

Definition getTotalNumberOfRegisteredNodes (args : ContractCallInput) : handler :=
  _ ← failIf (negb (flag StakingV2Flag)) "invalid method to call";
  _ ← failIf (hasValue args) TransactionValueMustBeZero;
  waitingListHead ← orFail vm_Error getWaitingListHead;
  s ← se_get;
  let stakeConfig := getConfig sc s in
  let totalRegistered :=
    i64 (i64 (StakedNodes stakeConfig + JailedNodes stakeConfig) + Length waitingListHead) in
  _ ← finish (bigBytes totalRegistered);
  mret RC_Ok.

Definition getRemainingUnbondPeriod (args : ContractCallInput) : handler :=
  _ ← failIf (hasValue args) TransactionValueMustBeZero;
  stakedData ← getStakedDataIfExists args;
  _ ← failIf (UnStakedNonce stakedData =? 0) "not in unbond period";
  let passedNonce := u64 (CurrentNonce - UnStakedNonce stakedData) in
  _ ← (if getUnBondPeriod <=? passedNonce then
         finish (if flag StakingV2Flag then bigBytes 0 else go_bytes "0")
       else
         let remaining := getUnBondPeriod - passedNonce in
         finish (if flag StakingV2Flag then bigBytes remaining else go_bytes (itoa (i64 remaining))));
  mret RC_Ok.

Definition getOwner (args : ContractCallInput) : handler :=
  _ ← failIf (negb (flag StakingV2Flag)) "invalid method to call";
  _ ← failIf (negb (callerIs args (stakeAccessAddr sc))) "this is only a view function";
  _ ← failIf (Nat.ltb (numArgs args) 1)
        ("invalid number of arguments: expected min 1, got " +:+ itoa (Z.of_nat (numArgs args)));
  stakedData ← orFail vm_Error (getOrCreateRegisteredData (arg args 0));
  _ ← failIf (bool_decide (OwnerAddress stakedData = [])) "owner address is nil";
  _ ← finish (OwnerAddress stakedData);
  mret RC_Ok.

(** The index of the key in the loop of [getWaitingListIndex], None when the
    loop ends without it. *)
Fixpoint getWaitingListIndex_loop (fuel : nat) (waitingListHead : WaitingList)
    (waitingElementKey nextKey : bytes) (index : Z) : SE S vm_error (option Z) :=
  match fuel with
  | O => mret None
  | Datatypes.S fuel =>
      if negb (bool_decide (nextKey = [])) && (index <=? Length waitingListHead) then
        if bool_decide (nextKey = waitingElementKey) then mret (Some index) else
        prevElement ← getWaitingListElement nextKey;
        if bool_decide (NextKey prevElement = []) then mret None
        else getWaitingListIndex_loop fuel waitingListHead waitingElementKey
               (go_copy nextKey (NextKey prevElement)) (u32 (index + 1))
      else mret None
  end.

Definition getWaitingListIndex (args : ContractCallInput) : handler :=
  _ ← failIf (flag StakingV4StartedFlag) (vm_Error ErrWaitingListDisabled);
  _ ← failIf (negb (callerIs args (stakeAccessAddr sc))) "this is only a view function";
  _ ← failIf (negb (Nat.eqb (numArgs args) 1)) "number of arguments must be equal to 1";
  let waitingElementKey := createWaitingListKey (arg args 0) in
  _ ← orFail vm_Error (getWaitingListElement waitingElementKey);
  waitingListHead ← orFail vm_Error getWaitingListHead;
  if bool_decide (waitingElementKey = FirstKey waitingListHead) then
    _ ← finish (go_bytes (itoa 1)); mret RC_Ok
  else if bool_decide (waitingElementKey = LastKey waitingListHead) then
    _ ← finish (go_bytes (itoa (Length waitingListHead))); mret RC_Ok
  else
    prevElement ← orFail vm_Error (getWaitingListElement (FirstKey waitingListHead));
    found ← orFail vm_Error
      (getWaitingListIndex_loop (Z.to_nat (Length waitingListHead)) waitingListHead waitingElementKey
         (go_copy (make_bytes (length waitingElementKey)) (NextKey prevElement)) 2);
    match found with
    | Some index => _ ← finish (go_bytes (itoa index)); mret RC_Ok
    | None => fail "element in waiting list not found"
    end.

Definition getWaitingListSize (args : ContractCallInput) : handler :=
  _ ← failIf (flag StakingV4StartedFlag) (vm_Error ErrWaitingListDisabled);
  _ ← failIf (hasValue args) TransactionValueMustBeZero;
  _ ← orFailWith RC_OutOfGas (fun _ => "insufficient gas") (eei_UseGas (Get (gasCost sc)));
  waitingListHead ← orFail vm_Error getWaitingListHead;
  _ ← finish (go_bytes (itoa (Length waitingListHead)));
  mret RC_Ok.

Definition getWaitingListRegisterNonceAndRewardAddress (args : ContractCallInput) : handler :=
  _ ← failIf (negb (callerIs args (stakeAccessAddr sc))) "this is only a view function";
  _ ← failIf (negb (Nat.eqb (numArgs args) 0)) "number of arguments must be equal to 0";
  waitingListData ← orFail vm_Error (getFirstElementsFromWaitingList maxUint32);
  _ ← failIf (bool_decide (length (stakedDataList waitingListData) = 0%nat)) "no one in waitingList";
  _ ← se_for (zip (blsKeys waitingListData) (stakedDataList waitingListData)) (fun kd =>
        _ ← finish kd.1;
        _ ← finish (RewardAddress kd.2);
        finish (bigBytes (i64 (RegisterNonce kd.2))));
  mret RC_Ok.

(** ** The end of an epoch *)

Definition resetLastUnJailedFromQueue (args : ContractCallInput) : handler :=
  if negb (flag CorrectLastUnJailedFlag) then mret RC_UserError else
  _ ← failIf waitingListDisabled (vm_Error ErrWaitingListDisabled);
  _ ← failIf (negb (callerIs args (endOfEpochAccessAddr sc)))
        "stake nodes from waiting list can be called by endOfEpochAccess address only";
  _ ← failIf (negb (Nat.eqb (numArgs args) 0)) "number of arguments must be equal to 0";
  waitingList ← orFail vm_Error getWaitingListHead;
  if bool_decide (LastJailedKey waitingList = []) then mret RC_Ok else
  _ ← orFail vm_Error (saveWaitingListHead (wl_with_LastJailed [] waitingList));
  mret RC_Ok.

Definition countWithMinStake (blsKeys : list bytes) : SE S vm_error Z :=
  (fix go (keys : list bytes) (n : Z) : SE S vm_error Z :=
     match keys with
     | [] => mret n
     | blsKey :: keys =>
         stakedData ← getOrCreateRegisteredData blsKey;
         go keys (if Staked stakedData || Waiting stakedData || Jailed stakedData then n + 1 else n)
     end) blsKeys 0.

(** Returns [numNodesToUnstake] and the map with the info it adds. *)
Definition checkValidatorFunds (mapCheckedOwners : CheckedOwners) (owner : bytes) (nodePrice : Z)
    : SE S vm_error (CheckedOwners * Z) :=
  match mapCheckedOwners !! owner with
  | Some numNodesToUnstake => mret (mapCheckedOwners, numNodesToUnstake)
  | None =>
      s ← se_get;
      let marshaledData := default [] (eei_GetStorageFromAddress (stakeAccessAddr sc) owner s) in
      if bool_decide (marshaledData = []) then
        mret (<[owner := maxUint32]> mapCheckedOwners, maxUint32)
      else
        validatorData ← se_lift (Unmarshal {| TotalStakeValue := 0; BlsPubKeys := [] |} marshaledData);
        let numRegisteredKeys := Z.of_nat (length (BlsPubKeys validatorData)) in
        _ ← se_guard (nodePrice =? 0) ErrPanic;
        let numQualified := bigInt64 (TotalStakeValue validatorData / nodePrice) in
        if numRegisteredKeys <=? numQualified then mret (<[owner := 0]> mapCheckedOwners, 0)
        else
          numRegisteredNodesWithMinStake ← countWithMinStake (BlsPubKeys validatorData);
          let numToUnStake :=
            if numQualified <? numRegisteredNodesWithMinStake
            then u32 (i64 (numRegisteredNodesWithMinStake - numQualified)) else 0 in
          mret (<[owner := numToUnStake]> mapCheckedOwners, numToUnStake)
  end.

(** The loop of [cleanAdditionalQueueNotEnoughFunds], from the last key of the
    queue to the first; returns the owners and the keys taken from each. *)
Fixpoint cleanAdditionalQueue_loop (queue : list (bytes * StakedDataV2_0))
    (mapCheckedOwners : CheckedOwners) (listOfOwners : list bytes)
    (mapOwnersUnStakedNodes : gmap bytes (list bytes))
    : SE S vm_error (list bytes * gmap bytes (list bytes)) :=
  match queue with
  | [] => mret (listOfOwners, mapOwnersUnStakedNodes)
  | (blsKey, stakedData) :: queue =>
      let owner := OwnerAddress stakedData in
      '(mapCheckedOwners, numNodesToUnstake) ←
         checkValidatorFunds mapCheckedOwners owner (stakeValue sc);
      if numNodesToUnstake =? 0
      then cleanAdditionalQueue_loop queue mapCheckedOwners listOfOwners mapOwnersUnStakedNodes
      else
        let mapCheckedOwners := <[owner := numNodesToUnstake - 1]> mapCheckedOwners in
        _ ← removeFromWaitingList sc blsKey;
        registrationData ← getOrCreateRegisteredData blsKey;
        _ ← saveStakingData sc blsKey (unStakedNow registrationData);
        let '(listOfOwners, keys) :=
          match mapOwnersUnStakedNodes !! owner with
          | Some keys => (listOfOwners, keys)
          | None => (listOfOwners ++ [owner], [])
          end in
        cleanAdditionalQueue_loop queue mapCheckedOwners listOfOwners
          (<[owner := keys ++ [blsKey]]> mapOwnersUnStakedNodes)
  end.

Definition cleanAdditionalQueueNotEnoughFunds (waitingListData : waitingListReturnData)
    : SE S vm_error (list bytes * gmap bytes (list bytes)) :=
  cleanAdditionalQueue_loop
    (rev (zip (blsKeys waitingListData) (stakedDataList waitingListData))) ∅ [] ∅.

Definition cleanAdditionalQueue (args : ContractCallInput) : handler :=
  _ ← failIf (negb (flag CorrectLastUnJailedFlag)) "invalid method to call";
  _ ← failIf waitingListDisabled (vm_Error ErrWaitingListDisabled);
  _ ← failIf (negb (callerIs args (endOfEpochAccessAddr sc)))
        "stake nodes from waiting list can be called by endOfEpochAccess address only";
  _ ← failIf (negb (Nat.eqb (numArgs args) 0)) "number of arguments must be 0";
  waitingListData ← orFail vm_Error (getFirstElementsFromWaitingList maxUint32);
  if bool_decide (blsKeys waitingListData = []) then
    _ ← say "no nodes in queue"; mret RC_Ok
  else
    '(listOfOwners, mapOwnersAndBLSKeys) ←
       orFail vm_Error (cleanAdditionalQueueNotEnoughFunds waitingListData);
    _ ← se_for listOfOwners (fun owner =>
          _ ← finish owner;
          se_for (default [] (mapOwnersAndBLSKeys !! owner)) finish);
    mret RC_Ok.

(** The loop of [stakeNodesFromQueue]; returns [stakedNodes]. *)
Fixpoint stakeNodesFromQueue_loop (queue : list (bytes * StakedDataV2_0)) (numNodesToStake nodePrice : Z)
    (mapCheckedOwners : CheckedOwners) (stakedNodes : Z) : SE S ReturnCode Z :=
  match queue with
  | [] => mret stakedNodes
  | (blsKey, stakedData) :: queue =>
      if numNodesToStake <=? stakedNodes then mret stakedNodes else
      '(mapCheckedOwners, numNodesToUnstake) ←
         orFail vm_Error (checkValidatorFunds mapCheckedOwners (OwnerAddress stakedData) nodePrice);
      if 0 <? numNodesToUnstake
      then stakeNodesFromQueue_loop queue numNodesToStake nodePrice mapCheckedOwners stakedNodes
      else
        let stakedData := activeStakingFor stakedData in
        _ ← orFail vm_Error (saveStakingData sc blsKey stakedData);
        (* remove from waiting list *)
        _ ← orFail vm_Error (removeFromWaitingList sc blsKey);
        (* return the change key *)
        _ ← finish blsKey;
        _ ← finish (RewardAddress stakedData);
        stakeNodesFromQueue_loop queue numNodesToStake nodePrice mapCheckedOwners (u64 (stakedNodes + 1))
  end.

Definition stakeNodesFromQueue (args : ContractCallInput) : handler :=
  _ ← failIf (negb (flag StakingV2Flag)) "invalid method to call";
  _ ← failIf waitingListDisabled (vm_Error ErrWaitingListDisabled);
  _ ← failIf (negb (callerIs args (endOfEpochAccessAddr sc)))
        "stake nodes from waiting list can be called by endOfEpochAccess address only";
  _ ← failIf (negb (Nat.eqb (numArgs args) 1)) "number of arguments must be equal to 1";
  let numNodesToStake := bigUint64 (bigSetBytes (arg args 0)) in
  waitingListData ← orFail vm_Error (getFirstElementsFromWaitingList maxUint32);
  if bool_decide (blsKeys waitingListData = []) then
    _ ← say "no nodes in queue"; mret RC_Ok
  else
    let nodePriceToUse := if flag CorrectLastUnJailedFlag then stakeValue sc else minNodePrice sc in
    stakedNodes ← stakeNodesFromQueue_loop
      (zip (blsKeys waitingListData) (stakedDataList waitingListData)) numNodesToStake nodePriceToUse ∅ 0;
    _ ← addToStakedNodes (i64 stakedNodes);
    mret RC_Ok.

Definition executeOnStakeAtEndOfEpoch (destinationAddress : bytes) (listOfKeys : list bytes)
    (senderAddress : bytes) : SE S ReturnCode ReturnCode :=
  let unStakeCall :=
    fold_left (fun call key => call +:+ "@" +:+ hex_EncodeToString key) listOfKeys
      "unStakeAtEndOfEpoch"%string in
  vmOutput ← orFail vm_Error
    (eei_ExecuteOnDestContext destinationAddress senderAddress 0 (go_bytes unStakeCall));
  mret (vo_ReturnCode vmOutput).

(** The first loop of [unStakeAllNodesFromQueue]. *)
Fixpoint unStakeAll_loop (queue : list (bytes * StakedDataV2_0)) (orderedListOwners : list bytes)
    (mapOwnerKeys : gmap bytes (list bytes))
    : SE S ReturnCode (list bytes * gmap bytes (list bytes)) :=
  match queue with
  | [] => mret (orderedListOwners, mapOwnerKeys)
  | (blsKey, registrationData) :: queue =>
      result ← doUnStake blsKey registrationData;
      if negb (bool_decide (result = RC_Ok)) then se_lift (Err result) else
      (* delete element from waiting list *)
      _ ← setStorage (createWaitingListKey blsKey) [];
      let ownerAddr := OwnerAddress registrationData in
      let '(orderedListOwners, keys) :=
        match mapOwnerKeys !! ownerAddr with
        | Some keys => (orderedListOwners, keys)
        | None => (orderedListOwners ++ [ownerAddr], [])
        end in
      unStakeAll_loop queue orderedListOwners (<[ownerAddr := keys ++ [blsKey]]> mapOwnerKeys)
  end.

Definition unStakeAllNodesFromQueue (args : ContractCallInput) : handler :=
  _ ← failIf (negb (flag StakingV4Step1Flag)) "invalid method to call";
  _ ← failIf (negb (callerIs args (endOfEpochAccessAddr sc)))
        "stake nodes from waiting list can be called by endOfEpochAccess address only";
  _ ← failIf (negb (Nat.eqb (numArgs args) 0)) "number of arguments must be equal to 0";
  waitingListData ← orFail vm_Error (getFirstElementsFromWaitingList maxUint32);
  if bool_decide (blsKeys waitingListData = []) then mret RC_Ok else
  '(orderedListOwners, mapOwnerKeys) ←
     unStakeAll_loop (zip (blsKeys waitingListData) (stakedDataList waitingListData)) [] ∅;
  (* delete waiting list head element *)
  _ ← setStorage waitingListHeadKey [];
  (* call unStakeAtEndOfEpoch from the delegation contracts *)
  _ ← se_for orderedListOwners (fun owner =>
        if negb (GetShardOfAddress owner =? MetachainShardId) then mret () else
        returnCode ← executeOnStakeAtEndOfEpoch owner (default [] (mapOwnerKeys !! owner))
                       (default [] (RecipientAddr args));
        if negb (bool_decide (returnCode = RC_Ok)) then se_lift (Err returnCode) else mret ());
  mret RC_Ok.

(** ** Repairing the queue *)

(** The loop of [fixWaitingListQueueSize]; returns [index], [nextKey] and
    [foundLastJailedKey]. *)
Fixpoint fixWaitingListQueueSize_loop (fuel : nat) (waitingListHead : WaitingList) (nextKey : bytes)
    (index : Z) (foundLastJailedKey : bool) : SE S vm_error (Z * bytes * bool) :=
  match fuel with
  | O => mret (index, nextKey, foundLastJailedKey)
  | Datatypes.S fuel =>
      if negb (bool_decide (nextKey = [])) && (index <=? Length waitingListHead) then
        element ← getWaitingListElement nextKey;
        let foundLastJailedKey :=
          foundLastJailedKey || bool_decide (LastJailedKey waitingListHead = nextKey) in
        _ ← getOrCreateRegisteredData (BLSPublicKey element);
        if bool_decide (NextKey element = []) then mret (index, nextKey, foundLastJailedKey)
        else fixWaitingListQueueSize_loop fuel waitingListHead (go_copy nextKey (NextKey element))
               (u32 (index + 1)) foundLastJailedKey
      else mret (index, nextKey, foundLastJailedKey)
  end.

Definition fixWaitingListQueueSize (args : ContractCallInput) : handler :=
  _ ← failIf (negb (flag CorrectFirstQueuedFlag)) "invalid method to call";
  _ ← failIf (flag StakingV4StartedFlag) (vm_Error ErrWaitingListDisabled);
  _ ← failIf (hasValue args) TransactionValueMustBeZero;
  _ ← orFailWith RC_OutOfGas (fun _ => "insufficient gas")
        (eei_UseGas (FixWaitingListSize (gasCost sc)));
  waitingListHead ← orFail vm_Error getWaitingListHead;
  if Length waitingListHead <=? 1 then mret RC_Ok else
  '(index, nextKey, foundLastJailedKey) ← orFail vm_Error
     (fixWaitingListQueueSize_loop (Datatypes.S (Z.to_nat (Length waitingListHead))) waitingListHead
        (FirstKey waitingListHead) 1 (bool_decide (LastJailedKey waitingListHead = [])));
  let waitingListHead := wl_with_Last nextKey (wl_with_Length index waitingListHead) in
  let waitingListHead :=
    if negb foundLastJailedKey then wl_with_LastJailed [] waitingListHead else waitingListHead in
  _ ← orFail vm_Error (saveWaitingListHead waitingListHead);
  mret RC_Ok.

Definition addMissingNodeToQueue (args : ContractCallInput) : handler :=
  _ ← failIf (negb (flag CorrectFirstQueuedFlag)) "invalid method to call";
  _ ← failIf (flag StakingV4StartedFlag) (vm_Error ErrWaitingListDisabled);
  _ ← failIf (hasValue args) TransactionValueMustBeZero;
  _ ← orFailWith RC_OutOfGas (fun _ => "insufficient gas")
        (eei_UseGas (FixWaitingListSize (gasCost sc)));
  _ ← failIf (negb (Nat.eqb (numArgs args) 1)) "invalid number of arguments";
  let blsKey := arg args 0 in
  _ ← orFail vm_Error (getWaitingListElement (createWaitingListKey blsKey));
  waitingListData ← orFail vm_Error (getFirstElementsFromWaitingList maxUint32);
  _ ← failIf (bool_decide (blsKey ∈ blsKeys waitingListData)) "key is in queue, not missing";
  waitingList ← orFail vm_Error getWaitingListHead;
  let waitingList := wl_with_Length (u32 (Length waitingList + 1)) waitingList in
  _ ← orFail vm_Error
        (if Length waitingList =? 1 then startWaitingList waitingList false blsKey
         else addToEndOfTheList waitingList blsKey);
  mret RC_Ok.

(** ** Dispatch *)

Definition Execute_switch (args : ContractCallInput) : handler :=
  let f := Function args in
  let called (name : string) := bool_decide (f = name) in
  if called InitFunctionName then init args
  else if called "stake" then stake args false
  else if called "register" then stake args true
  else if called "unStake" then unStake args
  else if called "unBond" then unBond args
  else if called "get" then get args
  else if called "isStaked" then isStaked args
  else if called "slash" then slash args
  else if called "jail" then jail args
  else if called "unJail" then unJail args
  else if called "changeRewardAddress" then changeRewardAddress args
  else if called "changeValidatorKeys" then changeValidatorKey args
  else if called "switchJailedWithWaiting" then switchJailedWithWaiting args
  else if called "getQueueIndex" then getWaitingListIndex args
  else if called "getQueueSize" then getWaitingListSize args
  else if called "getRewardAddress" then getRewardAddress args
  else if called "getBLSKeyStatus" then getBLSKeyStatus args
  else if called "getRemainingUnBondPeriod" then getRemainingUnbondPeriod args
  else if called "getQueueRegisterNonceAndRewardAddress" then getWaitingListRegisterNonceAndRewardAddress args
  else if called "updateConfigMinNodes" then updateConfigMinNodes args
  else if called "setOwnersOnAddresses" then setOwnersOnAddresses args
  else if called "getOwner" then getOwner args
  else if called "updateConfigMaxNodes" then updateConfigMaxNodes args
  else if called "stakeNodesFromQueue" then stakeNodesFromQueue args
  else if called "unStakeAtEndOfEpoch" then unStakeAtEndOfEpoch args
  else if called "getTotalNumberOfRegisteredNodes" then getTotalNumberOfRegisteredNodes args
  else if called "resetLastUnJailedFromQueue" then resetLastUnJailedFromQueue args
  else if called "cleanAdditionalQueue" then cleanAdditionalQueue args
  else if called "changeOwnerAndRewardAddress" then changeOwnerAndRewardAddress args
  else if called "fixWaitingListQueueSize" then fixWaitingListQueueSize args
  else if called "addMissingNodeToQueue" then addMissingNodeToQueue args
  else if called "unStakeAllNodesFromQueue" then unStakeAllNodesFromQueue args
  else mret RC_UserError.

Definition Execute (args : ContractCallInput) : S -> S * ReturnCode :=
  runHandler
    (match CheckIfNil args with
     | Some _ => mret RC_UserError
     | None =>
         _ ← failIf (Nat.ltb 0 (ESDTTransfers args)) "cannot transfer ESDT to system SCs";
         Execute_switch args
     end).
End Staking.

(** [SetNewGasCost] *)
Definition SetNewGasCost (cost : MetaChainSystemSCsCost) (sc : stakingSC) : stakingSC :=
  {| unBondPeriod := unBondPeriod sc; unBondPeriodSupernova := unBondPeriodSupernova sc;
     stakeAccessAddr := stakeAccessAddr sc; jailAccessAddr := jailAccessAddr sc;
     endOfEpochAccessAddr := endOfEpochAccessAddr sc; gasCost := cost;
     minNumNodes := minNumNodes sc; maxNumNodes := maxNumNodes sc; stakeValue := stakeValue sc;
     walletAddressLen := walletAddressLen sc; minNodePrice := minNodePrice sc;
     IsFlagEnabled := IsFlagEnabled sc; IsSupernovaEnabledInRound := IsSupernovaEnabledInRound sc |}.
