(* ===== verification/StakingStore.v ===== *)
(** * What the staking contract relies on, and its storage

    The laws of its marshalizer, and how loads, saves and the reports of a
    contract act on its storage.  A key of the queue starts with [w_], so it
    is none of the other reserved keys. *)

From Stdlib Require Import ZArith Lia String Ascii.
From stdpp Require Import base gmap list strings.
From S2P Require Import Prelude GoValues SystemEI StakingData WaitingList Staking.

(** Records that are [valid] marshal without error and unmarshal to
    themselves, to at least a byte when they are [nonzero]: a record of zeros
    may marshal to nothing. *)
Class MarshalizerOk (T : Type) (M : Marshalizer T) (valid nonzero : T -> Prop) : Prop :=
  Marshal_ok : forall x, valid x ->
    exists b, Marshal x = Ok b /\ (nonzero x -> b <> []) /\ forall prev, Unmarshal prev b = Ok x.

Class StakingMarshalizerOk (MA : StakingMarshalizer) : Prop := {
  #[global] ok_V2_0 :: MarshalizerOk StakedDataV2_0 _ (fun d => SlashValue d <> None)
    (fun d => RewardAddress d <> []);
  #[global] ok_config :: MarshalizerOk StakingNodesConfig _ (fun _ => True)
    (fun c => 0 < MinNumNodes c);
  #[global] ok_element :: MarshalizerOk ElementInList _ (fun _ => True) (fun e => PreviousKey e <> []);
  #[global] ok_head :: MarshalizerOk WaitingList _ (fun _ => True) (fun w => FirstKey w <> []);
}.

Abbreviation wk := createWaitingListKey.

Lemma wk_inj a b : wk a = wk b -> a = b.
Proof. apply app_inv_head. Qed.
Lemma wk_nonempty a : wk a <> [].
Proof. done. Qed.
Lemma wk_not_head a : wk a <> waitingListHeadKey.
Proof. done. Qed.
Lemma wk_not_config a : wk a <> nodesConfigKey.
Proof. done. Qed.
Lemma head_not_config : waitingListHeadKey <> nodesConfigKey.
Proof. done. Qed.
Create HintDb staking.
#[export] Hint Resolve wk_inj wk_nonempty wk_not_head wk_not_config head_not_config : staking.

Section Store.
Context {S : Type} {EI : SystemEI S} {EIok : SystemEIOk S EI}.
Context {MA : StakingMarshalizer} {MAok : StakingMarshalizerOk MA}.
Context (sc : stakingSC).
Implicit Types (s : S) (k : bytes).

(** Two states agree on the storage outside the keys [ks]. *)
Definition agree (ks : bytes -> Prop) s s' : Prop :=
  forall k, ~ ks k -> storageAt k s' = storageAt k s.

Definition nowhere : bytes -> Prop := fun _ => False.

Lemma agree_refl ks s : agree ks s s.
Proof. by intros k _. Qed.
Lemma agree_trans (ks1 ks2 ks : bytes -> Prop) s1 s2 s3 :
  (forall k, ks1 k -> ks k) -> (forall k, ks2 k -> ks k) ->
  agree ks1 s1 s2 -> agree ks2 s2 s3 -> agree ks s1 s3.
Proof. intros H1 H2 A1 A2 k N. rewrite A2, A1; naive_solver. Qed.
Lemma agree_weaken (ks ks' : bytes -> Prop) s s' :
  (forall k, ks k -> ks' k) -> agree ks s s' -> agree ks' s s'.
Proof. intros H A k N. apply A. naive_solver. Qed.

Lemma storageAt_set k v s k' :
  storageAt k' (eei_SetStorage k v s) = if decide (k' = k) then v else storageAt k' s.
Proof. unfold storageAt. rewrite GetStorage_SetStorage. by destruct (decide (k' = k)). Qed.
Lemma storageAt_set_eq k v s : storageAt k (eei_SetStorage k v s) = v.
Proof. rewrite storageAt_set. by rewrite decide_True. Qed.
Lemma storageAt_set_ne k v s k' : k' <> k -> storageAt k' (eei_SetStorage k v s) = storageAt k' s.
Proof. intros N. rewrite storageAt_set. by rewrite decide_False. Qed.

Lemma set_agree k v s : agree (eq k) s (eei_SetStorage k v s).
Proof. intros k' N. apply storageAt_set_ne. naive_solver. Qed.

Lemma say_agree m s : agree nowhere s (eei_AddReturnMessage m s).
Proof. intros k _. unfold storageAt. by rewrite GetStorage_AddReturnMessage. Qed.
Lemma finish_agree b s : agree nowhere s (eei_Finish b s).
Proof. intros k _. unfold storageAt. by rewrite GetStorage_Finish. Qed.
Lemma useGas_agree g s : agree nowhere s (eei_UseGas g s).1.
Proof. intros k _. unfold storageAt. by rewrite GetStorage_UseGas. Qed.

(** ** Elements and the head of the queue *)

Definition el_at s k (e : ElementInList) : Prop := getWaitingListElement k s = (s, Ok e).
Definition head_is s (w : WaitingList) : Prop := getWaitingListHead s = (s, Ok w).

Lemma el_at_ext s s' k e : storageAt k s' = storageAt k s -> el_at s k e -> el_at s' k e.
Proof.
  unfold el_at, getWaitingListElement. intros -> H. by injection H as ->.
Qed.
Lemma head_is_ext s s' w :
  storageAt waitingListHeadKey s' = storageAt waitingListHeadKey s -> head_is s w -> head_is s' w.
Proof. unfold head_is, getWaitingListHead. intros -> H. by injection H as ->. Qed.

Lemma el_at_stored s k e : el_at s k e ->
  storageAt k s <> [] /\ Unmarshal emptyElement (storageAt k s) = Ok e.
Proof.
  unfold el_at, getWaitingListElement. intros H.
  case_bool_decide as E; [by injection H|]. split; [done|]. by injection H.
Qed.

Lemma saveElement_spec k e s : PreviousKey e <> [] ->
  exists s', saveWaitingListElement k e s = (s', Ok ()) /\ agree (eq k) s s' /\ el_at s' k e.
Proof.
  intros N. destruct (Marshal_ok e I) as (b & Em & Nb & Eu).
  exists (eei_SetStorage k b s). split; [|split; [apply set_agree|]].
  - unfold saveWaitingListElement. by erewrite se_bind_eq by (unfold se_lift; by rewrite Em).
  - unfold el_at, getWaitingListElement. rewrite storageAt_set_eq, bool_decide_false by auto.
    by rewrite Eu.
Qed.

Lemma saveHead_spec w s : FirstKey w <> [] ->
  exists s', saveWaitingListHead w s = (s', Ok ()) /\ agree (eq waitingListHeadKey) s s' /\ head_is s' w.
Proof.
  intros N. destruct (Marshal_ok w I) as (b & Em & Nb & Eu).
  exists (eei_SetStorage waitingListHeadKey b s). split; [|split; [apply set_agree|]].
  - unfold saveWaitingListHead. by erewrite se_bind_eq by (unfold se_lift; by rewrite Em).
  - unfold head_is, getWaitingListHead. rewrite storageAt_set_eq, bool_decide_false by auto.
    by rewrite Eu.
Qed.

Lemma saveElementAndList_spec k e w s : PreviousKey e <> [] -> FirstKey w <> [] ->
  k <> waitingListHeadKey ->
  exists s', saveElementAndList k e w s = (s', Ok ()) /\
    agree (fun k' => k' = k \/ k' = waitingListHeadKey) s s' /\ el_at s' k e /\ head_is s' w.
Proof.
  intros Ne Nw Nk. destruct (saveElement_spec k e s Ne) as (s1 & E1 & A1 & H1).
  destruct (saveHead_spec w s1 Nw) as (s2 & E2 & A2 & H2).
  exists s2. split; [|split; [|split; [|done]]].
  - unfold saveElementAndList. by rewrite (se_bind_eq _ _ _ _ _ E1).
  - eapply agree_trans; [| |exact A1|exact A2]; naive_solver.
  - apply (el_at_ext s1); [apply A2; naive_solver|done].
Qed.

(** ** Registration data and configuration *)

Definition reg_is s k (d : StakedDataV2_0) : Prop := getOrCreateRegisteredData k s = (s, Ok d).
Definition stored s k : Prop := storageAt k s <> [].

Lemma reg_is_ext s s' k d : storageAt k s' = storageAt k s -> reg_is s k d -> reg_is s' k d.
Proof. unfold reg_is, getOrCreateRegisteredData. intros -> H. by injection H as ->. Qed.

Lemma reg_is_absent s k : storageAt k s = [] -> reg_is s k newRegistrationData.
Proof. unfold reg_is, getOrCreateRegisteredData. intros ->. by rewrite bool_decide_true. Qed.

Lemma reg_is_slash s k d : reg_is s k d -> SlashValue d <> None.
Proof.
  unfold reg_is, getOrCreateRegisteredData. case_bool_decide; [by intros [= <-]|].
  destruct (Unmarshal _ _) as [d0|]; [|done]. destruct (SlashValue d0) eqn:Es; intros [= <-].
  - by rewrite Es.
  - done.
Qed.

Context (HStakeFlag : IsFlagEnabled sc StakeFlag = true).
Context (HStakingV2Flag : IsFlagEnabled sc StakingV2Flag = true).

Lemma saveStakingData_spec k d s : SlashValue d <> None -> RewardAddress d <> [] ->
  exists s', saveStakingData sc k d s = (s', Ok ()) /\ agree (eq k) s s' /\
    reg_is s' k d /\ stored s' k.
Proof using HStakeFlag HStakingV2Flag EIok MAok.
  intros N R. destruct (ok_V2_0 d N) as (b & Em & Nb & Eu).
  exists (eei_SetStorage k b s). split; [|split; [apply set_agree|split]].
  - unfold saveStakingData. rewrite HStakeFlag, HStakingV2Flag. cbn [negb].
    by erewrite se_bind_eq by (unfold se_lift; by rewrite Em).
  - unfold reg_is, getOrCreateRegisteredData. rewrite storageAt_set_eq, bool_decide_false by auto.
    rewrite Eu. by destruct (SlashValue d).
  - unfold stored. rewrite storageAt_set_eq. auto.
Qed.

Lemma getConfig_ext s s' :
  storageAt nodesConfigKey s' = storageAt nodesConfigKey s -> getConfig sc s' = getConfig sc s.
Proof. unfold getConfig. by intros ->. Qed.

Lemma setConfig_spec {E} c s : 0 < MinNumNodes c ->
  exists s', setConfig (E := E) c s = (s', Ok ()) /\ agree (eq nodesConfigKey) s s' /\ getConfig sc s' = c.
Proof.
  intros N. destruct (Marshal_ok c I) as (b & Em & Nb & Eu).
  exists (eei_SetStorage nodesConfigKey b s). split; [|split; [apply set_agree|]].
  - unfold setConfig. by rewrite Em.
  - unfold getConfig. rewrite storageAt_set_eq, bool_decide_false by auto. by rewrite Eu.
Qed.
End Store.
