(* ===== verification/QueueSpec.v ===== *)
(** * The queue of the staking contract is a list

    [queue s J N]: the storage [s] holds the doubly linked list of the keys
    [J ++ N], the jailed keys [J] first.  Insertion adds a key at the end of
    [J] or of [N], removal filters it out of both, the walk returns the keys in
    order, and none of them fails or touches other storage.  This is the
    behaviour with CorrectFirstQueuedFlag and CorrectLastUnJailedFlag enabled. *)

From Stdlib Require Import ZArith Lia String Ascii.
From stdpp Require Import base gmap list strings.
From S2P Require Import Prelude GoValues SystemEI StakingData WaitingList Staking StakingStore.

(** ** Positions in a list *)

Section positions.
Context {A : Type}.
Implicit Types (P Q M l : list A).

Lemma split_app P1 z Q1 P Q : P1 ++ z :: Q1 = P ++ Q ->
  (exists M, P = P1 ++ z :: M /\ Q1 = M ++ Q) \/ (exists M, P1 = P ++ M /\ Q = M ++ z :: Q1).
Proof.
  intros E. apply app_eq_inv in E as [(M & -> & E)|(M & -> & E)].
  - right. eauto.
  - destruct M as [|m M].
    + right. exists []. by rewrite !app_nil_r.
    + left. injection E as -> ->. eauto.
Qed.

Lemma split_mid P1 z Q1 P x Q : P1 ++ z :: Q1 = P ++ x :: Q ->
  (exists M, P = P1 ++ z :: M /\ Q1 = M ++ x :: Q) \/ (P1 = P /\ z = x /\ Q1 = Q) \/
  (exists M, P1 = P ++ x :: M /\ Q = M ++ z :: Q1).
Proof.
  intros E. apply split_app in E as [H|(M & -> & E)]; [by left|right].
  destruct M as [|m M]; injection E as -> ->.
  - left. by rewrite app_nil_r.
  - right. eauto.
Qed.

Lemma last_cons_app x M : exists m, last (x :: M) = Some m /\ m ∈ x :: M.
Proof.
  destruct (last (x :: M)) as [m|] eqn:E.
  - exists m. split; [done|]. apply last_Some in E as (l & ->). set_solver.
  - by apply last_None in E.
Qed.

Lemma last_app_cons P x M : last (P ++ x :: M) = last (x :: M).
Proof.
  rewrite last_app. destruct (last_cons_app x M) as (m & E & _). by rewrite E.
Qed.
End positions.

Lemma list_snoc_or_nil {A} (l : list A) : l = [] \/ exists P x, l = P ++ [x].
Proof. destruct l as [|x l _] using rev_ind; eauto. Qed.

Lemma list_cons_or_nil {A} (l : list A) : l = [] \/ exists x Q, l = x :: Q.
Proof. destruct l; eauto. Qed.

Lemma NoDup_mid {A} (P : list A) x Q : NoDup (P ++ x :: Q) -> x ∉ P /\ x ∉ Q /\ NoDup (P ++ Q).
Proof.
  rewrite <- Permutation_middle, NoDup_cons, not_elem_of_app. naive_solver.
Qed.

Lemma NoDup_mid_intro {A} (P : list A) x Q : x ∉ P ++ Q -> NoDup (P ++ Q) -> NoDup (P ++ x :: Q).
Proof. rewrite <- Permutation_middle, NoDup_cons. done. Qed.

(** An element of a list without duplicates is not elsewhere in it: the list
    is [A ++ y :: B] up to associativity. *)
Ltac nodup_at ND A y B :=
  exfalso; let H := fresh in
  assert (H : NoDup (A ++ y :: B)) by (by rewrite <- ?app_assoc in * );
  apply NoDup_mid in H as (? & ? & _); set_solver.

(** ** Links *)

Definition prevOf (P : list bytes) (x : bytes) : bytes :=
  match last P with Some a => wk a | None => wk x end.
Definition nextOf (Q : list bytes) : bytes := match Q with [] => [] | y :: _ => wk y end.
Definition lastOf (P : list bytes) : bytes := match last P with Some a => wk a | None => [] end.
Definition mkEl (P : list bytes) (x : bytes) (Q : list bytes) : ElementInList :=
  {| BLSPublicKey := x; PreviousKey := prevOf P x; NextKey := nextOf Q |}.
Definition headRec (J N : list bytes) : WaitingList :=
  {| FirstKey := nextOf (J ++ N); LastKey := lastOf (J ++ N); Length := Z.of_nat (length (J ++ N));
     LastJailedKey := lastOf J |}.

Lemma prevOf_nonempty P x : prevOf P x <> [].
Proof. unfold prevOf. by destruct (last P). Qed.

Lemma prevOf_snoc P y x : prevOf (P ++ [y]) x = wk y.
Proof. unfold prevOf. by rewrite last_snoc. Qed.

Lemma lastOf_snoc P y : lastOf (P ++ [y]) = wk y.
Proof. unfold lastOf. by rewrite last_snoc. Qed.

Lemma nextOf_app m M Q Q' : nextOf ((m :: M) ++ Q) = nextOf ((m :: M) ++ Q').
Proof. done. Qed.

Lemma mkEl_next P z m M Q Q' : mkEl P z ((m :: M) ++ Q) = mkEl P z ((m :: M) ++ Q').
Proof. done. Qed.

Lemma mkEl_prev P P' m M z Q : mkEl (P ++ m :: M) z Q = mkEl (P' ++ m :: M) z Q.
Proof. unfold mkEl, prevOf. by rewrite !last_app_cons. Qed.

(** The epochs in which the code that corrected the queue is in use. *)
Class RepairedQueue (sc : stakingSC) : Prop := {
  HFirst : IsFlagEnabled sc CorrectFirstQueuedFlag = true;
  HLast : IsFlagEnabled sc CorrectLastUnJailedFlag = true;
}.

(** Runs the next statement. *)
Ltac step H := rewrite (se_bind_eq _ _ _ _ _ H).

Section Queue.
Context {S : Type} {EI : SystemEI S} {EIok : SystemEIOk S EI}.
Context {MA : StakingMarshalizer} {MAok : StakingMarshalizerOk MA}.
Context (sc : stakingSC).
Context {RQ : RepairedQueue sc}.
(** The BLS keys have one length; the code copies queue keys into slices of
    that length. *)
Context (blsLen : nat).
Implicit Types (s : S) (P Q L J N : list bytes).

Definition is_key (x : bytes) : Prop := length x = blsLen.

Definition linked s L : Prop :=
  NoDup L /\ Forall is_key L /\
  (forall P x Q, L = P ++ x :: Q -> el_at s (wk x) (mkEl P x Q)) /\
  (forall x, is_key x -> x ∉ L -> storageAt (wk x) s = []).

Definition queue s J N : Prop :=
  linked s (J ++ N) /\ head_is s (headRec J N) /\ Z.of_nat (length (J ++ N)) < maxUint32.

(** The storage of the queue. *)
Definition queueKeys (k : bytes) : Prop :=
  (exists x, is_key x /\ k = wk x) \/ k = waitingListHeadKey.

Lemma linked_key s L x : linked s L -> x ∈ L -> is_key x.
Proof. intros (_ & K & _). by apply Forall_forall. Qed.

Definition neighbour P Q (y : bytes) : Prop := last P = Some y \/ head Q = Some y.

Lemma linked_insert s s' P x Q :
  linked s (P ++ Q) -> x ∉ P ++ Q -> is_key x ->
  (forall y, y <> x -> ~ neighbour P Q y -> storageAt (wk y) s' = storageAt (wk y) s) ->
  el_at s' (wk x) (mkEl P x Q) ->
  (forall P0 y, P = P0 ++ [y] -> el_at s' (wk y) (mkEl P0 y (x :: Q))) ->
  (forall y Q0, Q = y :: Q0 -> el_at s' (wk y) (mkEl (P ++ [x]) y Q0)) ->
  linked s' (P ++ x :: Q).
Proof.
  intros (ND & K & El & Ab) Nx Kx Same Ex EP EQ. split; [|split; [|split]].
  - by apply NoDup_mid_intro.
  - rewrite Forall_app in K. rewrite Forall_app, Forall_cons. tauto.
  - intros P1 z Q1 E. symmetry in E. apply split_mid in E as [(M & -> & ->)|[(-> & -> & ->)|(M & -> & ->)]].
    + destruct M as [|m M].
      * by apply EP.
      * rewrite (mkEl_next _ _ _ _ _ Q). eapply el_at_ext; [|apply El; by rewrite <- app_assoc].
        apply Same; [set_solver|]. intros [F|F].
        -- rewrite last_app_cons, last_cons_cons in F. destruct (last_cons_app m M) as (m' & Em & Hm).
           rewrite Em in F. injection F as ->. nodup_at ND P1 z ((m :: M) ++ Q).
        -- destruct Q as [|q Q]; [done|]. injection F as ->. nodup_at ND P1 z ((m :: M) ++ z :: Q).
    + done.
    + destruct M as [|m M].
      * by apply EQ.
      * replace (P ++ x :: m :: M) with ((P ++ [x]) ++ m :: M)
          by by rewrite <- app_assoc.
        rewrite (mkEl_prev _ P). eapply el_at_ext; [|apply El; by rewrite <- app_assoc].
        apply Same; [set_solver|]. intros [F|F].
        -- apply last_Some in F as (P' & ->). nodup_at ND P' z ((m :: M) ++ z :: Q1).
        -- injection F as ->. nodup_at ND P z (M ++ z :: Q1).
  - intros y Ky Ny. rewrite Same.
    + apply Ab; [done|set_solver].
    + set_solver.
    + intros [F|F].
      * apply last_Some in F as (P' & ->). set_solver.
      * destruct Q; [done|]. injection F as ->. set_solver.
Qed.

Lemma linked_remove s s' P x Q :
  linked s (P ++ x :: Q) ->
  (forall y, y <> x -> ~ neighbour P Q y -> storageAt (wk y) s' = storageAt (wk y) s) ->
  storageAt (wk x) s' = [] ->
  (forall P0 y, P = P0 ++ [y] -> el_at s' (wk y) (mkEl P0 y Q)) ->
  (forall y Q0, Q = y :: Q0 -> el_at s' (wk y) (mkEl P y Q0)) ->
  linked s' (P ++ Q).
Proof.
  intros (ND & K & El & Ab) Same Ex EP EQ. split; [|split; [|split]].
  - by apply NoDup_mid in ND as (_ & _ & ND).
  - rewrite Forall_app, Forall_cons in K. rewrite Forall_app. tauto.
  - intros P1 z Q1 E. symmetry in E. apply split_app in E as [(M & -> & ->)|(M & -> & ->)].
    + destruct M as [|m M].
      * by apply EP.
      * rewrite (mkEl_next _ _ _ _ _ (x :: Q)). eapply el_at_ext; [|apply El; by rewrite <- app_assoc].
        apply Same; [intros ->; nodup_at ND P1 x ((m :: M) ++ x :: Q)|]. intros [F|F].
        -- rewrite last_app_cons, last_cons_cons in F. destruct (last_cons_app m M) as (m' & Em & Hm).
           rewrite Em in F. injection F as ->. nodup_at ND P1 z ((m :: M) ++ x :: Q).
        -- destruct Q as [|q Q]; [done|]. injection F as ->. nodup_at ND P1 z ((m :: M) ++ x :: z :: Q).
    + destruct M as [|m M].
      * rewrite app_nil_r. by apply EQ.
      * rewrite (mkEl_prev _ (P ++ [x])). eapply el_at_ext.
        2: { apply El. by rewrite <- !app_assoc. }
        apply Same; [intros ->; nodup_at ND P x ((m :: M) ++ x :: Q1)|]. intros [F|F].
        -- apply last_Some in F as (P' & ->). nodup_at ND P' z (x :: (m :: M) ++ z :: Q1).
        -- injection F as ->. nodup_at ND (P ++ [x]) z (M ++ z :: Q1).
  - intros y Ky Ny. destruct (decide (y = x)) as [->|N]; [done|].
    rewrite Same; [apply Ab; [done|set_solver]|done|].
    intros [F|F].
    + apply last_Some in F as (P' & ->). set_solver.
    + destruct Q; [done|]. injection F as ->. set_solver.
Qed.

Lemma linked_ext s s' L :
  (forall x, is_key x -> storageAt (wk x) s' = storageAt (wk x) s) -> linked s L -> linked s' L.
Proof.
  intros Same (ND & K & El & Ab). split; [done|split; [done|split]].
  - intros P x Q E. eapply el_at_ext; [apply Same|by apply El].
    apply (proj1 (Forall_forall _ _) K). rewrite E. set_solver.
  - intros x Kx Nx. rewrite Same by done. by apply Ab.
Qed.

Lemma queue_ext ks s s' J N :
  agree ks s s' -> (forall k, queueKeys k -> ~ ks k) -> queue s J N -> queue s' J N.
Proof.
  intros A D (L & H & B). split; [|split; [|done]].
  - eapply linked_ext; [|done]. intros x Kx. apply A, D. left. eauto.
  - eapply head_is_ext; [|done]. apply A, D. by right.
Qed.

Lemma linked_mem s L x : linked s L -> is_key x -> x ∈ L <-> storageAt (wk x) s <> [].
Proof.
  intros (ND & K & El & Ab) Kx. split.
  - intros Hx. apply list_elem_of_split in Hx as (P & Q & ->). eapply el_at_stored. by apply El.
  - intros N. destruct (decide (x ∈ L)); [done|]. by apply Ab in n.
Qed.

Lemma linked_el s P x Q : linked s (P ++ x :: Q) -> el_at s (wk x) (mkEl P x Q).
Proof. intros (_ & _ & El & _). by apply El. Qed.

Lemma copy_key x y : is_key x -> is_key y ->
  go_copy (make_bytes (length (wk x))) (wk y) = wk y.
Proof.
  intros Hx Hy. apply go_copy_same. unfold make_bytes, wk.
  rewrite length_replicate, !length_app. by rewrite Hx, Hy.
Qed.

Lemma copy_key_key x y : is_key x -> is_key y -> go_copy (wk x) (wk y) = wk y.
Proof. intros Hx Hy. apply go_copy_same. unfold wk. rewrite !length_app. by rewrite Hx, Hy. Qed.

(** ** Insertion *)

Lemma addToEnd_spec s w P y x :
  linked s (P ++ [y]) -> x ∉ P ++ [y] -> is_key x -> LastKey w = wk y -> FirstKey w <> [] ->
  exists s', addToEndOfTheList w x s = (s', Ok ()) /\ agree queueKeys s s' /\
    linked s' (P ++ [y; x]) /\ head_is s' (wl_with_Last (wk x) w).
Proof.
  intros L Nx Kx Ew Nw. pose proof (linked_el s P y [] L) as Ey.
  assert (Ky : is_key y) by (eapply linked_key; [done|set_solver]).
  destruct (saveElement_spec (wk y) (el_with_Next (wk x) (mkEl P y [])) s) as (s1 & E1 & A1 & H1).
  { apply prevOf_nonempty. }
  destruct (saveElementAndList_spec (wk x)
    {| BLSPublicKey := x; PreviousKey := wk y; NextKey := [] |} (wl_with_Last (wk x) w) s1)
    as (s2 & E2 & A2 & H2 & Hw); [done|done|auto with staking|].
  assert (Nxy : wk x <> wk y) by (intros E; apply wk_inj in E as ->; set_solver).
  exists s2. split; [|split; [|split; [|done]]].
  - unfold addToEndOfTheList. rewrite Ew. step Ey. by step E1.
  - eapply agree_trans; [| |exact A1|exact A2]; unfold queueKeys; naive_solver.
  - replace (P ++ [y; x]) with ((P ++ [y]) ++ [x]) by by rewrite <- app_assoc.
    apply (linked_insert s); [by rewrite app_nil_r|by rewrite app_nil_r|done|..].
    + intros z Nz Nn. rewrite A2, A1; [done|..].
      * intros E. apply wk_inj in E as ->. apply Nn. left. apply last_snoc.
      * intros [E|E]; [by apply wk_inj in E|by apply wk_not_head in E].
    + unfold mkEl. by rewrite prevOf_snoc.
    + intros P0 z E. apply app_inj_tail in E as [-> ->].
      eapply el_at_ext; [|exact H1]. apply A2. intros [E|E]; [done|by apply wk_not_head in E].
    + done.
Qed.

(** [queue] without the head record, which a client of the lemmas builds. *)
Lemma queue_intro s J N w :
  linked s (J ++ N) -> head_is s w -> w = headRec J N ->
  Z.of_nat (length (J ++ N)) < maxUint32 -> queue s J N.
Proof. by intros L H -> B. Qed.

Lemma start_spec s w x (jailed : bool) :
  linked s [] -> is_key x ->
  exists s', startWaitingList w jailed x s = (s', Ok ()) /\ agree queueKeys s s' /\ linked s' [x] /\
    head_is s' (let w := wl_with_Last (wk x) (wl_with_First (wk x) w) in
                if jailed then wl_with_LastJailed (wk x) w else w).
Proof.
  intros L Kx.
  set (w' := let w := wl_with_Last (wk x) (wl_with_First (wk x) w) in
             if jailed then wl_with_LastJailed (wk x) w else w).
  assert (Ew : LastKey w' = wk x /\ FirstKey w' = wk x) by by destruct jailed.
  destruct Ew as [El Ef].
  destruct (saveElementAndList_spec (wk x)
    {| BLSPublicKey := x; PreviousKey := LastKey w'; NextKey := [] |} w' s)
    as (s' & E & A & H & Hw); [by rewrite El|by rewrite Ef|auto with staking|].
  exists s'. split; [exact E|split; [|split; [|done]]].
  - eapply agree_weaken; [|exact A]. unfold queueKeys. naive_solver.
  - apply (linked_insert s s' [] x []); [done|set_solver|done| |by rewrite El in H|..].
    + intros z Nz _. apply A. intros [E'|E']; [by apply wk_inj in E'|by apply wk_not_head in E'].
    + intros P0 y F. by destruct P0.
    + done.
Qed.

Lemma insertFront_spec s w y N x :
  linked s (y :: N) -> x ∉ y :: N -> is_key x -> FirstKey w = wk y -> LastJailedKey w = [] ->
  exists s', insertAfterLastJailed sc w x s = (s', Ok ()) /\ agree queueKeys s s' /\
    linked s' (x :: y :: N) /\ head_is s' (wl_with_LastJailed (wk x) (wl_with_First (wk x) w)).
Proof.
  intros L Nx Kx Ef Ej. pose proof (linked_el s [] y N L) as Ey.
  assert (Ky : is_key y) by (eapply linked_key; [done|set_solver]).
  destruct (saveElement_spec (wk y) (el_with_Previous (wk x) (mkEl [] y N)) s)
    as (s1 & E1 & A1 & H1); [done|].
  destruct (saveElementAndList_spec (wk x)
    {| BLSPublicKey := x; PreviousKey := wk x; NextKey := wk y |}
    (wl_with_LastJailed (wk x) (wl_with_First (wk x) w)) s1)
    as (s2 & E2 & A2 & H2 & Hw); [done|done|auto with staking|].
  assert (Nxy : wk x <> wk y) by (intros E; apply wk_inj in E as ->; set_solver).
  exists s2. split; [|split; [|split; [|done]]].
  - unfold insertAfterLastJailed. rewrite Ej, bool_decide_true, HFirst, Ef by done.
    rewrite bool_decide_false by done. cbn [andb negb].
    erewrite se_bind_eq; [exact E2|]. by step Ey.
  - eapply agree_trans; [| |exact A1|exact A2]; unfold queueKeys; naive_solver.
  - apply (linked_insert s s2 [] x (y :: N)); [done|set_solver|done| |exact H2|..].
    + intros z Nz Nn. rewrite A2, A1; [done|..].
      * intros E. apply wk_inj in E as ->. apply Nn. by right.
      * intros [E|E]; [by apply wk_inj in E|by apply wk_not_head in E].
    + intros P0 z F. by destruct P0.
    + intros z Q0 [= -> ->]. eapply el_at_ext; [|exact H1].
      apply A2. intros [E|E]; [done|by apply wk_not_head in E].
Qed.

Lemma insertMiddle_spec s w P j n N x :
  linked s (P ++ j :: n :: N) -> x ∉ P ++ j :: n :: N -> is_key x -> is_key j -> is_key n ->
  LastJailedKey w = wk j -> LastKey w <> wk j -> FirstKey w <> [] ->
  exists s', insertAfterLastJailed sc w x s = (s', Ok ()) /\ agree queueKeys s s' /\
    linked s' (P ++ j :: x :: n :: N) /\ head_is s' (wl_with_LastJailed (wk x) w).
Proof.
  intros L Nx Kx Kj Kn Ej El Ef.
  pose proof (linked_el s P j (n :: N) L) as Hj.
  assert (L' : linked s ((P ++ [j]) ++ n :: N)) by by rewrite <- app_assoc.
  pose proof (linked_el s (P ++ [j]) n N L') as Hn.
  assert (Nxj : wk x <> wk j) by (intros E; apply wk_inj in E as ->; set_solver).
  assert (Nxn : wk x <> wk n) by (intros E; apply wk_inj in E as ->; set_solver).
  assert (Njn : wk j <> wk n).
  { intros E. apply wk_inj in E as ->. destruct L as (ND & _). apply NoDup_mid in ND as (_ & F & _). set_solver. }
  destruct (saveElement_spec (wk j) (mkEl P j (x :: n :: N)) s) as (s1 & E1 & A1 & H1);
    [apply prevOf_nonempty|].
  destruct (saveElement_spec (wk n) (el_with_Previous (wk x) (mkEl (P ++ [j]) n N)) s1)
    as (s2 & E2 & A2 & H2); [done|].
  destruct (saveElement_spec (wk x)
    {| BLSPublicKey := x; PreviousKey := wk j; NextKey := wk n |} s2) as (s3 & E3 & A3 & H3); [done|].
  destruct (saveHead_spec (wl_with_LastJailed (wk x) w) s3) as (s4 & E4 & A4 & H4); [done|].
  exists s4. split; [|split; [|split; [|done]]].
  - unfold insertAfterLastJailed. rewrite Ej, bool_decide_false by done.
    step Hj. rewrite bool_decide_false by done. step Hn.
    cbn [PreviousKey NextKey mkEl nextOf]. rewrite !copy_key by done.
    step E1. step E2. by step E3.
  - intros k Nk. rewrite A4, A3, A2, A1; unfold queueKeys in Nk; naive_solver.
  - replace (P ++ j :: x :: n :: N) with ((P ++ [j]) ++ x :: n :: N) by by rewrite <- app_assoc.
    apply (linked_insert s); [done|by rewrite <- app_assoc|done|..].
    + intros z Nz Nn. rewrite A4, A3, A2, A1; [done|..]; intros E; try apply wk_inj in E as ->.
      * apply Nn. left. apply last_snoc.
      * apply Nn. by right.
      * done.
      * symmetry in E. by apply wk_not_head in E.
    + unfold mkEl. rewrite prevOf_snoc. eapply el_at_ext; [|exact H3]. apply A4. auto with staking.
    + intros P0 z E. apply app_inj_tail in E as [<- <-].
      eapply el_at_ext; [|exact H1]. rewrite A4, A3, A2; naive_solver auto with staking.
    + intros z Q0 [= <- <-]. unfold mkEl. rewrite prevOf_snoc.
      eapply el_at_ext; [|exact H2]. rewrite A4, A3; naive_solver auto with staking.
Qed.

(** What [addToWaitingList] does to the queue. *)
Definition queue_add (x : bytes) (jailed : bool) (q : list bytes * list bytes)
    : list bytes * list bytes :=
  let '(J, N) := q in
  if bool_decide (x ∈ J ++ N) then (J, N) else if jailed then (J ++ [x], N) else (J, N ++ [x]).

Lemma lastOf_nil P : lastOf P = [] -> P = [].
Proof. unfold lastOf. destruct (last P) eqn:E; [done|]. by apply last_None in E. Qed.

Lemma lastOf_app_cons P x M : lastOf (P ++ x :: M) = lastOf (x :: M).
Proof. unfold lastOf. by rewrite last_app_cons. Qed.

Lemma lastOf_mem x P : lastOf P = wk x -> x ∈ P.
Proof.
  unfold lastOf. destruct (last P) as [y|] eqn:E; [|done]. intros F.
  apply wk_inj in F as ->. apply last_Some in E as (P' & ->). set_solver.
Qed.

Lemma queue_length_S L x : Z.of_nat (length (L ++ [x])) < maxUint32 ->
  u32 (Z.of_nat (length L) + 1) = Z.of_nat (length (L ++ [x])).
Proof. rewrite length_app. unfold maxUint32. cbn [length]. intros H. rewrite u32_id; lia. Qed.

(** A key that is not queued yet, case by case. *)
Section AddNew.
Context (s : S) (J N : list bytes) (x : bytes).
Context (Hq : queue s J N) (Nx : x ∉ J ++ N) (Kx : is_key x).
Context (Bx : Z.of_nat (length ((J ++ N) ++ [x])) < maxUint32).

Definition grown : WaitingList :=
  wl_with_Length (Z.of_nat (length ((J ++ N) ++ [x]))) (headRec J N).

Definition added (m : SE S vm_error ()) (jailed : bool) : Prop :=
  exists s', m s = (s', Ok ()) /\ agree queueKeys s s' /\
    queue s' (if jailed then J ++ [x] else J) (if jailed then N else N ++ [x]).

Lemma added_intro m (jailed : bool) s' w' :
  m s = (s', Ok ()) -> agree queueKeys s s' ->
  linked s' ((if jailed then J ++ [x] else J) ++ (if jailed then N else N ++ [x])) ->
  head_is s' w' -> w' = headRec (if jailed then J ++ [x] else J) (if jailed then N else N ++ [x]) ->
  added m jailed.
Proof using Hq Kx Bx.
  intros E A L H Ew.
  assert (Perm : (if jailed then J ++ [x] else J) ++ (if jailed then N else N ++ [x])
                 ≡ₚ (J ++ N) ++ [x]) by (destruct jailed; solve_Permutation).
  exists s'. split; [done|split; [done|]]. apply (queue_intro s' _ _ w'); [done|done|done|by rewrite Perm].
Qed.

Lemma add_run (jailed : bool) :
  addToWaitingList sc x jailed s =
    (if bool_decide (J ++ N = []) then startWaitingList grown jailed x
     else if jailed then insertAfterLastJailed sc grown x else addToEndOfTheList grown x) s.
Proof using Hq Nx Bx Kx.
  destruct Hq as (L & Hh & B). unfold addToWaitingList.
  rewrite (se_bind_eq _ _ s s s) by done.
  rewrite (bool_decide_true (storageAt (wk x) s = [])) by by apply L. cbn [negb]. step Hh.
  cbn [Length headRec]. rewrite (queue_length_S (J ++ N) x) by done.
  cbn [Length wl_with_Length].
  replace (Z.of_nat (length ((J ++ N) ++ [x])) =? 1) with (bool_decide (J ++ N = [])); [done|].
  rewrite length_app. cbn [length]. destruct (J ++ N); cbn [length]; [done|].
  rewrite bool_decide_false by done. symmetry. apply Z.eqb_neq. lia.
Qed.

Lemma add_start jailed : J ++ N = [] -> added (startWaitingList grown jailed x) jailed.
Proof using All.
  intros E0. pose proof Hq as (L & _). apply app_eq_nil in E0 as [E1 E2].
  destruct (start_spec s grown x jailed) as (s' & E & A & L' & H'); [by rewrite E1, E2 in L|done|].
  eapply added_intro; [exact E|exact A| |exact H'|].
  - by rewrite E1, E2; destruct jailed.
  - unfold grown, headRec. by rewrite E1, E2; destruct jailed.
Qed.

Lemma add_front n N' : J = [] -> N = n :: N' -> added (insertAfterLastJailed sc grown x) true.
Proof using All.
  intros E1 E2. pose proof Hq as (L & _). rewrite E1, E2 in L. pose proof Nx as Nx'. rewrite E1, E2 in Nx'.
  destruct (insertFront_spec s grown n N' x L Nx' Kx) as (s' & E & A & L' & H').
  { unfold grown. by rewrite E1, E2. }
  { unfold grown. by rewrite E1. }
  eapply added_intro; [exact E|exact A|by rewrite E1, E2|exact H'|].
  unfold grown, headRec. rewrite E1, E2. unfold wl_with_LastJailed, wl_with_First, wl_with_Length.
  cbn. f_equal; rewrite ?length_app; cbn; lia.
Qed.

Lemma add_jailed_end P j : J = P ++ [j] -> N = [] -> added (insertAfterLastJailed sc grown x) true.
Proof using All.
  intros E1 E2. pose proof Hq as (L & _). pose proof Nx as Nx'. rewrite E2, app_nil_r, E1 in L, Nx'.
  assert (Ej : LastJailedKey grown = wk j /\ LastKey grown = wk j).
  { unfold grown. cbn. by rewrite E2, app_nil_r, E1, lastOf_snoc. }
  destruct Ej as [Ej El].
  destruct (addToEnd_spec s (wl_with_LastJailed (wk x) grown) P j x L Nx' Kx)
    as (s' & E & A & L' & H'); [done| |].
  { unfold grown. cbn. rewrite E2, app_nil_r, E1. by destruct P. }
  apply (added_intro _ _ s' (wl_with_Last (wk x) (wl_with_LastJailed (wk x) grown))); [|done| |done|].
  - unfold insertAfterLastJailed. rewrite Ej, El, bool_decide_false by done.
    step (linked_el s P j [] L). by rewrite bool_decide_true.
  - by rewrite E1, E2, app_nil_r, <- app_assoc.
  - unfold grown, headRec, wl_with_LastJailed, wl_with_Last, wl_with_Length. cbn.
    rewrite E1, E2, !app_nil_r, !lastOf_snoc. f_equal. by destruct P.
Qed.

Lemma add_jailed_middle P j n N' : J = P ++ [j] -> N = n :: N' ->
  added (insertAfterLastJailed sc grown x) true.
Proof using All.
  intros E1 E2. pose proof Hq as (L & _). pose proof Nx as Nx'.
  rewrite E1, E2, <- app_assoc in L, Nx'.
  assert (Kj : is_key j) by (eapply linked_key; [done|set_solver]).
  assert (Kn : is_key n) by (eapply linked_key; [done|set_solver]).
  destruct (insertMiddle_spec s grown P j n N' x) as (s' & E & A & L' & H'); try done.
  { unfold grown. cbn. by rewrite E1, lastOf_snoc. }
  { unfold grown. cbn. rewrite E1, E2, <- app_assoc. cbn. rewrite lastOf_app_cons. intros F.
    unfold lastOf in F. rewrite last_cons_cons in F. apply (lastOf_mem j (n :: N')) in F.
    destruct L as (ND & _). apply NoDup_mid in ND. tauto. }
  { unfold grown. cbn. rewrite E1. by destruct P. }
  eapply added_intro; [exact E|exact A| |exact H'|].
  - by rewrite E1, E2, <- !app_assoc.
  - unfold grown, headRec, wl_with_LastJailed, wl_with_Length. cbn.
    rewrite E1, E2, !lastOf_snoc, <- !app_assoc. cbn. rewrite !lastOf_app_cons. f_equal.
    + by destruct P.
    + repeat (rewrite length_app || cbn [length app]). lia.
Qed.

Lemma add_end : J ++ N <> [] -> added (addToEndOfTheList grown x) false.
Proof using All.
  intros E0. pose proof Hq as (L & _). destruct (exists_last E0) as (P & y & EP).
  pose proof Nx as Nx'. rewrite EP in L, Nx'.
  destruct (addToEnd_spec s grown P y x L Nx' Kx) as (s' & E & A & L' & H').
  { unfold grown. cbn. by rewrite EP, lastOf_snoc. }
  { unfold grown. cbn. rewrite EP. by destruct P. }
  eapply added_intro; [exact E|exact A| |exact H'|].
  - by rewrite app_assoc, EP, <- app_assoc.
  - unfold grown, headRec, wl_with_Last, wl_with_Length. cbn.
    rewrite (app_assoc J), lastOf_snoc. f_equal. rewrite EP, <- app_assoc. by destruct P.
Qed.

Lemma add_new_spec jailed : added (addToWaitingList sc x jailed) jailed.
Proof using All.
  unfold added. rewrite add_run. case_bool_decide as E0; [by apply add_start|].
  destruct jailed; [|by apply add_end].
  destruct (list_snoc_or_nil J) as [E1|(P & j & E1)], (list_cons_or_nil N) as [E2|(n & N' & E2)].
  - by rewrite E1, E2 in E0.
  - by eapply add_front.
  - by eapply add_jailed_end.
  - by eapply add_jailed_middle.
Qed.
End AddNew.

Theorem addToWaitingList_spec s J N x jailed :
  queue s J N -> is_key x -> Z.of_nat (length (J ++ N)) + 1 < maxUint32 ->
  exists s', addToWaitingList sc x jailed s = (s', Ok ()) /\ agree queueKeys s s' /\
    let '(J', N') := queue_add x jailed (J, N) in queue s' J' N'.
Proof.
  intros Hq Kx B. unfold queue_add. case_bool_decide as E.
  - exists s. split; [|split; [apply agree_refl|done]]. destruct Hq as (L & _).
    unfold addToWaitingList. rewrite (se_bind_eq _ _ s s s) by done.
    by rewrite bool_decide_false by by apply (linked_mem s (J ++ N)).
  - destruct (add_new_spec s J N x Hq E Kx) with (jailed := jailed) as (s' & R & A & Q).
    { rewrite length_app. cbn. lia. }
    exists s'. split; [done|split; [done|]]. by destruct jailed.
Qed.

(** ** Removal *)

(** The head record without the key between [P] and [Q]. *)
Definition unlinkedHead (w : WaitingList) (P : list bytes) (x : bytes) (Q : list bytes) : WaitingList :=
  {| FirstKey := nextOf (P ++ Q); LastKey := lastOf (P ++ Q); Length := Length w;
     LastJailedKey := if bool_decide (wk x = LastJailedKey w) then lastOf P else LastJailedKey w |}.

Lemma wl_eta w : {| FirstKey := FirstKey w; LastKey := LastKey w; Length := Length w;
                    LastJailedKey := LastJailedKey w |} = w.
Proof. by destruct w. Qed.

Section Remove.
Context (s s1 : S) (P Q : list bytes) (x : bytes) (w : WaitingList).
Context (Hl : linked s (P ++ x :: Q)) (As : agree (eq (wk x)) s s1) (Es : storageAt (wk x) s1 = []).
Context (Hf : FirstKey w = nextOf (P ++ x :: Q)) (Hla : LastKey w = lastOf (P ++ x :: Q)).

Definition removed (m : SE S vm_error ()) : Prop :=
  exists s', m s1 = (s', Ok ()) /\ agree queueKeys s s' /\ linked s' (P ++ Q) /\
    head_is s' (unlinkedHead w P x Q).

Lemma key_x : is_key x.
Proof using All. eapply linked_key; [exact Hl|set_solver]. Qed.
Lemma key_P y : y ∈ P -> is_key y.
Proof using All. intros H. eapply linked_key; [exact Hl|set_solver]. Qed.
Lemma key_Q y : y ∈ Q -> is_key y.
Proof using All. intros H. eapply linked_key; [exact Hl|set_solver]. Qed.

Lemma el_before P0 p Q0 : P ++ x :: Q = P0 ++ p :: Q0 -> p <> x -> el_at s1 (wk p) (mkEl P0 p Q0).
Proof using All.
  intros E Np. eapply el_at_ext; [|apply (linked_el s P0 p Q0); by rewrite <- E].
  apply As. intros F. by apply wk_inj in F.
Qed.

Lemma remove_first q Q' : P = [] -> Q = q :: Q' -> removed (removeElement sc w (wk x) (mkEl P x Q)).
Proof using All.
  intros E1 E2. pose proof Hl as Hl'. rewrite E1, E2 in Hl'.
  assert (Nqx : q <> x).
  { destruct Hl' as (ND & _). apply (NoDup_mid []) in ND as (_ & F & _). set_solver. }
  assert (Hq : el_at s1 (wk q) (mkEl [x] q Q')) by (apply el_before; [by rewrite E1, E2|done]).
  set (w' := if bool_decide (wk x = LastJailedKey w) then wl_with_LastJailed [] w else w).
  destruct (saveElementAndList_spec (wk q) (el_with_Previous (wk q) (mkEl [x] q Q'))
    (wl_with_First (wk q) w') s1) as (s2 & R2 & A2 & H2 & Hw); [done|done|auto with staking|].
  exists s2. split; [|split; [|split]].
  - unfold removeElement. rewrite HFirst, Hf, E1, E2. cbn [negb andb orb app nextOf].
    rewrite bool_decide_true by done. cbn [orb NextKey mkEl nextOf]. fold w'. by step Hq.
  - pose proof key_x. assert (is_key q) by (apply key_Q; rewrite E2; set_solver).
    eapply agree_trans; [| |exact As|exact A2]; unfold queueKeys; naive_solver.
  - apply (linked_remove s s2 P x Q); [done|..].
    + intros z Nz Nn. rewrite A2, As; [done|..].
      * intros F. by apply wk_inj in F.
      * intros [F|F]; [|by apply wk_not_head in F]. apply wk_inj in F as ->. apply Nn. right. by rewrite E2.
    + rewrite A2; [done|]. intros [F|F]; [by apply wk_inj in F|by apply wk_not_head in F].
    + intros P0 y F. rewrite E1 in F. by destruct P0.
    + intros y Q0 F. rewrite E2 in F. injection F as <- <-. by rewrite E1.
  - unfold unlinkedHead. rewrite E1, E2. cbn [app nextOf].
    replace (lastOf (q :: Q')) with (LastKey w).
    2: { rewrite Hla, E1, E2. cbn [app]. unfold lastOf. by rewrite last_cons_cons. }
    unfold w' in Hw. by destruct (bool_decide (wk x = LastJailedKey w)).
Qed.

Lemma remove_run_inner P0 p : P = P0 ++ [p] ->
  removeElement sc w (wk x) (mkEl P x Q) s1 =
    (let w' := if bool_decide (wk x = LastJailedKey w) then wl_with_LastJailed (wk p) w else w in
     let p' := mkEl P0 p (x :: Q) in
     if bool_decide (nextOf Q = []) then
       saveElementAndList (wk p) (el_with_Next [] p') (wl_with_Last (wk p) w') s1
     else
       (nextElement ← getWaitingListElement (nextOf Q);
        _ ← saveWaitingListElement (nextOf Q) (el_with_Previous (wk p) nextElement);
        saveElementAndList (wk p) (el_with_Next (nextOf Q) p') w') s1).
Proof using All.
  intros E1. pose proof Hl as (ND & _).
  assert (Npx : p <> x) by (apply NoDup_mid in ND as (F & _); set_solver).
  assert (Hp : el_at s1 (wk p) (mkEl P0 p (x :: Q))).
  { apply el_before; [by rewrite E1, <- app_assoc|done]. }
  assert (Nf : FirstKey w <> wk x).
  { rewrite Hf. destruct (list_cons_or_nil P) as [F|(y & P' & F)]; rewrite F.
    - rewrite F in E1. by destruct P0.
    - cbn. intros G. apply wk_inj in G as ->. apply NoDup_mid in ND as (G & _). rewrite F in G. set_solver. }
  assert (Ep : PreviousKey (mkEl P x Q) = wk p) by by (cbn; rewrite E1, prevOf_snoc).
  unfold removeElement. rewrite HFirst, HLast. cbn [negb andb orb].
  rewrite (bool_decide_false (FirstKey w = wk x)) by done. cbn [orb].
  set (w' := if bool_decide (wk x = LastJailedKey w) then _ else w).
  rewrite (se_bind_eq _ _ s1 s1 (mkEl P0 p (x :: Q), mkEl P x Q)).
  2: { unfold findPreviousElement. rewrite Ep.
       by rewrite (se_bind_eq _ _ s1 s1 (Ok (mkEl P0 p (x :: Q)))) by (unfold se_try; by rewrite Hp). }
  unfold w'. rewrite !Ep. cbv beta iota zeta. rewrite ?Ep. cbn [NextKey mkEl].
  by destruct (bool_decide (nextOf Q = [])).
Qed.

Lemma remove_last P0 p : P = P0 ++ [p] -> Q = [] -> removed (removeElement sc w (wk x) (mkEl P x Q)).
Proof using All.
  intros E1 E2. unfold removed. rewrite (remove_run_inner P0 p E1), E2. cbn [nextOf].
  rewrite bool_decide_true by done. cbn zeta.
  set (w' := if bool_decide _ then _ else w).
  assert (Ef : FirstKey (wl_with_Last (wk p) w') = nextOf P).
  { transitivity (FirstKey w); [unfold w'; by destruct (bool_decide _)|]. rewrite Hf, E1. by destruct P0. }
  destruct (saveElementAndList_spec (wk p) (mkEl P0 p []) (wl_with_Last (wk p) w') s1)
    as (s2 & R2 & A2 & H2 & Hw); [apply prevOf_nonempty|rewrite Ef, E1; by destruct P0|auto with staking|].
  pose proof Hl as (ND & _). apply NoDup_mid in ND as (Nx & _).
  exists s2. split; [exact R2|split; [|split]].
  - pose proof key_x. assert (is_key p) by (apply key_P; rewrite E1; set_solver).
    eapply agree_trans; [| |exact As|exact A2]; unfold queueKeys; naive_solver.
  - rewrite <- E2. apply (linked_remove s s2 P x Q); [done|..]; rewrite ?E2.
    + intros z Nz Nn. rewrite A2, As; [done|..].
      * intros F. by apply wk_inj in F.
      * intros [F|F]; [|by apply wk_not_head in F]. apply wk_inj in F as ->. apply Nn. left.
        rewrite E1. apply last_snoc.
    + rewrite A2; [done|]. intros [F|F]; [|by apply wk_not_head in F].
      apply wk_inj in F as ->. rewrite E1 in Nx. set_solver.
    + intros P1 y F. rewrite E1 in F. by apply app_inj_tail in F as [<- <-].
    + done.
  - assert (El : lastOf P = wk p) by by rewrite E1, lastOf_snoc.
    unfold unlinkedHead. rewrite app_nil_r, El, <- Ef. unfold w' in Hw |- *. by destruct (bool_decide (wk x = LastJailedKey w)).
Qed.

Lemma remove_inner P0 p q Q' : P = P0 ++ [p] -> Q = q :: Q' ->
  removed (removeElement sc w (wk x) (mkEl P x Q)).
Proof using All.
  intros E1 E2. unfold removed. rewrite (remove_run_inner P0 p E1), E2. cbn [nextOf].
  rewrite bool_decide_false by done. cbn zeta.
  set (w' := if bool_decide _ then _ else w).
  assert (Ef : FirstKey w' = nextOf (P ++ Q)).
  { transitivity (FirstKey w); [unfold w'; by destruct (bool_decide _)|]. rewrite Hf, E1. by destruct P0. }
  pose proof Hl as (ND & _). rewrite E2 in ND. pose proof (NoDup_mid _ _ _ ND) as (NxP & NxQ & ND').
  assert (Npx : p <> x) by (rewrite E1 in NxP; set_solver).
  assert (Nqx : q <> x) by set_solver.
  assert (Npq : wk p <> wk q).
  { intros F. apply wk_inj in F as ->. rewrite E1, <- app_assoc in ND'.
    apply NoDup_mid in ND' as (_ & F & _). set_solver. }
  assert (Hq : el_at s1 (wk q) (mkEl (P ++ [x]) q Q')).
  { apply el_before; [by rewrite E2, <- app_assoc|done]. }
  destruct (saveElement_spec (wk q) (el_with_Previous (wk p) (mkEl (P ++ [x]) q Q')) s1)
    as (s2 & R2 & A2 & H2); [done|].
  destruct (saveElementAndList_spec (wk p) (mkEl P0 p (q :: Q')) w' s2)
    as (s3 & R3 & A3 & H3 & Hw).
  { apply prevOf_nonempty. }
  { rewrite Ef, E1. by destruct P0. }
  { auto with staking. }
  exists s3. split; [|split; [|split]].
  - step Hq. by step R2.
  - pose proof key_x. assert (is_key p) by (apply key_P; rewrite E1; set_solver).
    assert (is_key q) by (apply key_Q; rewrite E2; set_solver).
    intros k Nk. rewrite A3, A2, As; unfold queueKeys in Nk; naive_solver.
  - rewrite <- E2. apply (linked_remove s s3 P x Q); [done|..].
    + intros z Nz Nn. rewrite A3, A2, As; [done|..].
      * intros F. by apply wk_inj in F.
      * intros F. apply wk_inj in F as ->. apply Nn. right. by rewrite E2.
      * intros [F|F]; [|by apply wk_not_head in F]. apply wk_inj in F as ->. apply Nn. left.
        rewrite E1. apply last_snoc.
    + rewrite A3, A2; [done|..].
      * intros F. by apply wk_inj in F.
      * intros [F|F]; [by apply wk_inj in F|by apply wk_not_head in F].
    + intros P1 y F. rewrite E1 in F. apply app_inj_tail in F as [<- <-]. by rewrite E2.
    + intros y Q0 F. rewrite E2 in F. injection F as <- <-. unfold mkEl. rewrite E1, prevOf_snoc.
      eapply el_at_ext; [|exact H2]. apply A3. naive_solver auto with staking.
  - unfold unlinkedHead. rewrite <- E2, <- Ef.
    replace (lastOf (P ++ Q)) with (LastKey w).
    2: { rewrite Hla, E2, !lastOf_app_cons. unfold lastOf. by rewrite last_cons_cons. }
    assert (El : lastOf P = wk p) by by rewrite E1, lastOf_snoc.
    rewrite El. unfold w' in Hw |- *.
    destruct (bool_decide (wk x = LastJailedKey w)); [done|by rewrite wl_eta].
Qed.
Lemma remove_linked : P ++ Q <> [] -> removed (removeElement sc w (wk x) (mkEl P x Q)).
Proof using All.
  intros N.
  destruct (list_snoc_or_nil P) as [E1|(P0 & p & E1)], (list_cons_or_nil Q) as [E2|(q & Q' & E2)].
  - by rewrite E1, E2 in N.
  - by eapply remove_first.
  - by eapply remove_last.
  - by eapply remove_inner.
Qed.
End Remove.

(** What [removeFromWaitingList] does to the queue. *)
Definition without (x : bytes) (l : list bytes) : list bytes := filter (fun y => y <> x) l.

Lemma without_absent x l : x ∉ l -> without x l = l.
Proof.
  intros N. unfold without. induction l as [|y l IH]; [done|].
  rewrite filter_cons_True by set_solver. f_equal. apply IH. set_solver.
Qed.

Lemma without_mid x P Q : x ∉ P -> x ∉ Q -> without x (P ++ x :: Q) = P ++ Q.
Proof.
  intros NP NQ. unfold without. rewrite filter_app, filter_cons_False by naive_solver.
  fold (without x P) (without x Q). by rewrite !without_absent.
Qed.

Lemma elem_without x y l : y ∈ without x l <-> y ∈ l /\ y <> x.
Proof. unfold without. rewrite list_elem_of_filter. tauto. Qed.

(** The head record after the removal is the one of the shorter queue. *)
Lemma unlinkedHead_headRec J N P x Q : NoDup (J ++ N) -> J ++ N = P ++ x :: Q ->
  unlinkedHead (wl_with_Length (Z.of_nat (length (P ++ Q))) (headRec J N)) P x Q
    = headRec (without x J) (without x N) /\ without x J ++ without x N = P ++ Q.
Proof.
  intros ND E. pose proof ND as ND'. rewrite E in ND'. apply NoDup_mid in ND' as (NP & NQ & _).
  assert (Ew : without x J ++ without x N = P ++ Q).
  { unfold without. rewrite <- filter_app, E. by apply without_mid. }
  split; [|done]. unfold unlinkedHead, headRec. rewrite Ew.
  unfold wl_with_Length. cbn [FirstKey LastKey Length LastJailedKey]. f_equal.
  symmetry in E. apply split_app in E as [(M & EJ & EQ)|(M & EP & EN)].
  - rewrite EJ, without_mid by (rewrite EQ in NQ; set_solver).
    destruct M as [|m M].
    + rewrite lastOf_snoc, app_nil_r. by rewrite bool_decide_true.
    + rewrite !lastOf_app_cons, bool_decide_false; [unfold lastOf; by rewrite last_cons_cons|].
      unfold lastOf. rewrite last_cons_cons. intros F. symmetry in F.
      apply (lastOf_mem x (m :: M)) in F. rewrite EQ in NQ. set_solver.
  - rewrite EP in NP. rewrite without_absent by set_solver. rewrite bool_decide_false; [done|].
    intros F. symmetry in F. apply lastOf_mem in F. set_solver.
Qed.

Lemma queue_length_P n : 0 < n < maxUint32 -> u32 (n - 1) = n - 1.
Proof. unfold maxUint32. intros H. rewrite u32_id; lia. Qed.

(** Removal of a queued key, up to the change of the links. *)
Lemma remove_run s J N P x Q : queue s J N -> J ++ N = P ++ x :: Q ->
  removeFromWaitingList sc x s =
    (if bool_decide (P ++ Q = []) then setStorage waitingListHeadKey []
     else removeElement sc (wl_with_Length (Z.of_nat (length (P ++ Q))) (headRec J N)) (wk x)
            (mkEl P x Q)) (eei_SetStorage (wk x) [] s).
Proof.
  intros (L & Hh & B) EL.
  pose proof (linked_el s P x Q ltac:(by rewrite <- EL)) as (Sx & Ux)%el_at_stored.
  set (s1 := eei_SetStorage (wk x) [] s).
  assert (Hh1 : head_is s1 (headRec J N)).
  { eapply head_is_ext; [apply set_agree; auto with staking|done]. }
  assert (Len : Z.of_nat (length (J ++ N)) = Z.of_nat (length (P ++ Q)) + 1).
  { rewrite EL, !length_app. cbn [length]. lia. }
  unfold removeFromWaitingList. rewrite (se_bind_eq _ _ s s s) by done.
  rewrite bool_decide_false by done. rewrite (se_bind_eq _ _ s s1 ()) by done.
  rewrite (se_bind_eq _ _ s1 s1 (mkEl P x Q)) by (unfold se_lift; by rewrite Ux).
  step Hh1. cbn [Length headRec]. rewrite (proj2 (Z.eqb_neq _ 0)) by lia.
  rewrite queue_length_P by lia. rewrite Len. cbn [Length wl_with_Length].
  replace (Z.of_nat (length (P ++ Q)) + 1 - 1) with (Z.of_nat (length (P ++ Q))) by lia.
  replace (Z.of_nat (length (P ++ Q)) =? 0) with (bool_decide (P ++ Q = [])); [done|].
  destruct (P ++ Q); [done|]. rewrite bool_decide_false by done. symmetry. apply Z.eqb_neq.
  cbn [length]. lia.
Qed.

Lemma remove_queued s J N x : queue s J N -> x ∈ J ++ N ->
  exists s', removeFromWaitingList sc x s = (s', Ok ()) /\ agree queueKeys s s' /\
    queue s' (without x J) (without x N).
Proof.
  intros Hq (P & Q & EL)%list_elem_of_split. rewrite (remove_run s J N P x Q Hq EL).
  pose proof Hq as (L & Hh & B).
  assert (Kx : is_key x) by (eapply linked_key; [exact L|rewrite EL; set_solver]).
  set (s1 := eei_SetStorage (wk x) [] s).
  assert (As : agree (eq (wk x)) s s1) by apply set_agree.
  destruct (unlinkedHead_headRec J N P x Q (proj1 L) EL) as [Hw Hwo].
  assert (Fin : forall s', linked s' (P ++ Q) -> head_is s' (headRec (without x J) (without x N)) ->
    queue s' (without x J) (without x N)).
  { intros s' L' H'. split; [by rewrite Hwo|split; [done|]]. rewrite Hwo.
    rewrite EL, length_app in B. cbn [length] in B. rewrite length_app. lia. }
  case_bool_decide as E0.
  - apply app_eq_nil in E0 as [-> ->]. exists (eei_SetStorage waitingListHeadKey [] s1).
    split; [done|split].
    + intros k Nk. rewrite storageAt_set_ne, As; unfold queueKeys in Nk; naive_solver.
    + apply Fin.
      * apply (linked_remove s _ [] x []); [by rewrite <- EL| |..]; try done.
        -- intros y Ny _. rewrite storageAt_set_ne by auto with staking. apply As.
           intros F. by apply wk_inj in F.
        -- rewrite storageAt_set_ne by auto with staking. apply storageAt_set_eq.
        -- intros P0 y F. by destruct P0.
      * apply app_eq_nil in Hwo as [-> ->]. unfold head_is, getWaitingListHead.
        rewrite storageAt_set_eq. by rewrite bool_decide_true.
  - destruct (remove_linked s s1 P Q x (wl_with_Length (Z.of_nat (length (P ++ Q))) (headRec J N)))
      as (s' & R & A & L' & H'); [by rewrite <- EL|done|apply storageAt_set_eq|by rewrite <- EL|
        by rewrite <- EL|done|].
    exists s'. split; [done|split; [done|]]. apply Fin; [done|by rewrite <- Hw].
Qed.

Theorem removeFromWaitingList_spec s J N x :
  queue s J N -> is_key x ->
  exists s', removeFromWaitingList sc x s = (s', Ok ()) /\ agree queueKeys s s' /\
    queue s' (without x J) (without x N).
Proof.
  intros Hq Kx. destruct (decide (x ∈ J ++ N)) as [Hx|Hx]; [by apply remove_queued|].
  exists s. split; [|split; [apply agree_refl|by rewrite !without_absent by set_solver]].
  destruct Hq as (L & _). unfold removeFromWaitingList. rewrite (se_bind_eq _ _ s s s) by done.
  by rewrite bool_decide_true by by apply L.
Qed.

(** ** The walk *)

(** From the element of [y], behind the keys [P]: the loop stops on its own
    before the fuel does. *)
Lemma getFirst_loop_spec s J N n (R : bytes -> StakedDataV2_0) Q : forall P y fuel acc,
  queue s J N -> J ++ N = P ++ y :: Q -> (forall z, z ∈ J ++ N -> reg_is s z (R z)) ->
  (length Q + 2 <= fuel)%nat ->
  exists d, getFirstElements_loop fuel (headRec J N) n (wk y) (Z.of_nat (length P) + 1) acc s = (s, Ok d) /\
    blsKeys d = blsKeys acc ++ take (Z.to_nat n - length P) (y :: Q) /\
    stakedDataList d = stakedDataList acc ++ map R (take (Z.to_nat n - length P) (y :: Q)).
Proof.
  induction Q as [|q Q IH]; intros P y fuel acc Hq EL HR Hf;
    (destruct fuel as [|fuel]; [lia|]); cbn [getFirstElements_loop];
    rewrite (bool_decide_false (wk y = [])) by done; cbn [negb andb];
    pose proof Hq as (L & Hh & B);
    (assert (Len : Length (headRec J N) = Z.of_nat (length (P ++ y :: _)))
       by (cbn [Length headRec]; by rewrite EL));
    rewrite (proj2 (Z.leb_le (Z.of_nat (length P) + 1) _))
      by (rewrite Len, length_app; cbn [length]; lia);
    cbn [andb]; (destruct (Z.leb_spec (Z.of_nat (length P) + 1) n) as [Hn|Hn]);
    [|exists acc; replace (Z.to_nat n - length P)%nat with 0%nat by lia; by rewrite !app_nil_r| |
      exists acc; replace (Z.to_nat n - length P)%nat with 0%nat by lia; by rewrite !app_nil_r].
  - step (linked_el s P y [] ltac:(by rewrite <- EL)). cbn [BLSPublicKey mkEl NextKey nextOf].
    step (HR y ltac:(rewrite EL; set_solver)). rewrite bool_decide_true by done.
    eexists. split; [done|]. cbn [blsKeys stakedDataList].
    destruct (Z.to_nat n - length P)%nat as [|m] eqn:E; [lia|]. cbn [take]. by rewrite take_nil.
  - step (linked_el s P y (q :: Q) ltac:(by rewrite <- EL)). cbn [BLSPublicKey mkEl NextKey nextOf].
    step (HR y ltac:(rewrite EL; set_solver)). rewrite bool_decide_false by done.
    rewrite copy_key_key by (eapply linked_key; [exact L|rewrite EL; set_solver]).
    rewrite u32_id.
    2: { rewrite EL, length_app in B. cbn [length] in B. unfold maxUint32 in B. lia. }
    replace (Z.of_nat (length P) + 1 + 1) with (Z.of_nat (length (P ++ [y])) + 1)
      by (rewrite length_app; cbn [length]; lia).
    edestruct (IH (P ++ [y]) q fuel) as (d & E & Eb & Es);
      [done|by rewrite EL, <- app_assoc|done|cbn [length] in Hf; lia|].
    exists d. split; [exact E|]. rewrite Eb, Es. cbn [blsKeys stakedDataList].
    rewrite length_app. cbn [length].
    destruct (Z.to_nat n - length P)%nat as [|m] eqn:E'; [lia|].
    replace (Z.to_nat n - (length P + 1))%nat with m by lia. cbn [take map].
    by rewrite <- !app_assoc.
Qed.

Theorem getFirstElements_spec s J N n (R : bytes -> StakedDataV2_0) :
  queue s J N -> (forall z, z ∈ J ++ N -> reg_is s z (R z)) ->
  exists d, getFirstElementsFromWaitingList n s = (s, Ok d) /\
    blsKeys d = take (Z.to_nat n) (J ++ N) /\
    stakedDataList d = map R (take (Z.to_nat n) (J ++ N)).
Proof.
  intros Hq HR. pose proof Hq as (L & Hh & B).
  unfold getFirstElementsFromWaitingList. step Hh. cbn [Length headRec].
  destruct (J ++ N) as [|y Q] eqn:EL.
  - cbn. eexists. split; [done|]. by rewrite take_nil.
  - rewrite (proj2 (Z.eqb_neq _ 0)) by (cbn [length]; lia). cbn [FirstKey headRec].
    rewrite EL. cbn [nextOf].
    edestruct (getFirst_loop_spec s J N n R Q [] y) as (d & E & Eb & Es);
      [done|done|by rewrite EL| |].
    2: { exists d. split; [exact E|]. rewrite Eb, Es. cbn [blsKeys stakedDataList app length].
         by rewrite Nat.sub_0_r. }
    cbn [length]. lia.
Qed.

Lemma getFirstElements_all s J N (R : bytes -> StakedDataV2_0) :
  queue s J N -> (forall z, z ∈ J ++ N -> reg_is s z (R z)) ->
  exists d, getFirstElementsFromWaitingList maxUint32 s = (s, Ok d) /\
    blsKeys d = J ++ N /\ stakedDataList d = map R (J ++ N).
Proof.
  intros Hq HR. destruct (getFirstElements_spec s J N maxUint32 R Hq HR) as (d & E & Eb & Es).
  destruct Hq as (_ & _ & B). exists d. rewrite Eb, Es, take_ge by lia. done.
Qed.

Lemma queue_nodup s J N : queue s J N -> NoDup (J ++ N).
Proof. by intros ((ND & _) & _). Qed.
End Queue.
