(* ===== verification/StakingLedger.v ===== *)
(** * The ledger that the storage of the staking contract holds

    [ledger] is the abstract state of the contract: the registered nodes, the
    queue with its jailed and other keys, and the configuration.  [holds s A]
    says that the storage [s] is a concrete form of [A].  Loads, saves, counters
    and queue operations of the code act on [A] as their names say and do not
    fail.  [consistent A] is the invariant of the contract.

    ** What a call cannot change, and what it cannot return

    [quiet m]: the method [m] leaves the storage as it is, whatever it
    returns.  The views of the contract are quiet, and so is every handler when
    its caller is none of the addresses with access.  [honest m]: [m] returns
    early with failures only.  Both are closed under the statements the code is
    made of, which the database [quiet] and the tactics below use. *)

From Stdlib Require Import ZArith Lia String Ascii.
From stdpp Require Import base gmap list strings fin_maps.
From S2P Require Import Prelude GoValues SystemEI StakingData WaitingList Staking StakingStore QueueSpec.

Record ledger := {
  nodes : gmap bytes StakedDataV2_0;
  jailedQueue : list bytes;
  restQueue : list bytes;
  nodesConfig : StakingNodesConfig;
}.

Definition theQueue (A : ledger) : list bytes := jailedQueue A ++ restQueue A.
Definition nodeData (A : ledger) (k : bytes) : StakedDataV2_0 :=
  default newRegistrationData (nodes A !! k).

Definition with_nodes (m : gmap bytes StakedDataV2_0) (A : ledger) : ledger :=
  {| nodes := m; jailedQueue := jailedQueue A; restQueue := restQueue A; nodesConfig := nodesConfig A |}.
Definition with_queue (q : list bytes * list bytes) (A : ledger) : ledger :=
  {| nodes := nodes A; jailedQueue := q.1; restQueue := q.2; nodesConfig := nodesConfig A |}.
Definition with_config (c : StakingNodesConfig) (A : ledger) : ledger :=
  {| nodes := nodes A; jailedQueue := jailedQueue A; restQueue := restQueue A; nodesConfig := c |}.

Definition with_node (k : bytes) (d : StakedDataV2_0) (A : ledger) : ledger :=
  with_nodes (<[k := d]> (nodes A)) A.
Definition without_queued (k : bytes) (A : ledger) : ledger :=
  with_queue (without k (jailedQueue A), without k (restQueue A)) A.
Definition with_queued (k : bytes) (jailed : bool) (A : ledger) : ledger :=
  with_queue (queue_add k jailed (jailedQueue A, restQueue A)) A.
Definition plusStaked (v : Z) (A : ledger) : ledger :=
  with_config (cfg_with_StakedNodes (i64 (StakedNodes (nodesConfig A) + v)) (nodesConfig A)) A.
Definition minusStaked (A : ledger) : ledger :=
  if 0 <? StakedNodes (nodesConfig A)
  then with_config (cfg_with_StakedNodes (StakedNodes (nodesConfig A) - 1) (nodesConfig A)) A else A.

(** ** The invariant *)

Definition isStakedNode (kv : bytes * StakedDataV2_0) : Prop := Staked kv.2 = true.
#[export] Instance isStakedNode_dec kv : Decision (isStakedNode kv).
Proof. unfold isStakedNode. apply _. Defined.

Definition numStaked (m : gmap bytes StakedDataV2_0) : Z := Z.of_nat (size (filter isStakedNode m)).
Definition stakedOf (o : option StakedDataV2_0) : Z :=
  match o with Some d => if Staked d then 1 else 0 | None => 0 end.

(** Registered keys have a reward address and are not staked and queued at
    once; the queue holds the nodes that wait; the counter counts the staked
    nodes. *)
Record consistent (A : ledger) : Prop := {
  c_nodes : forall k d, nodes A !! k = Some d ->
    RewardAddress d <> [] /\ (Staked d = true -> Waiting d = false);
  c_queue : forall k, k ∈ theQueue A <-> exists d, nodes A !! k = Some d /\ Waiting d = true;
  c_counter : StakedNodes (nodesConfig A) = numStaked (nodes A);
  c_min : 0 < MinNumNodes (nodesConfig A);
}.

(** There is room for one more node in the machine integers of the code. *)
Definition room (A : ledger) : Prop := Z.of_nat (size (nodes A)) + 1 < maxUint32.

Lemma numStaked_delete m k : numStaked m = numStaked (delete k m) + stakedOf (m !! k).
Proof.
  unfold numStaked. rewrite map_filter_delete. destruct (m !! k) as [d|] eqn:E; cbn [stakedOf].
  - destruct (Staked d) eqn:Es.
    + rewrite map_size_delete_Some by (eexists; by apply map_lookup_filter_Some_2).
      assert (size (filter isStakedNode m) <> 0)%nat; [|lia].
      rewrite map_size_non_empty_iff. intros F.
      assert (G : filter isStakedNode m !! k = Some d) by by apply map_lookup_filter_Some_2.
      by rewrite F, lookup_empty in G.
    + rewrite delete_id; [lia|]. apply map_lookup_filter_None_2. right. intros d' E'.
      rewrite E in E'. injection E' as <-. unfold isStakedNode. cbn. by rewrite Es.
  - rewrite delete_id; [lia|]. apply map_lookup_filter_None_2. by left.
Qed.

Lemma numStaked_insert m k d :
  numStaked (<[k := d]> m) = numStaked m - stakedOf (m !! k) + stakedOf (Some d).
Proof.
  rewrite (numStaked_delete (<[k := d]> m) k), (numStaked_delete m k).
  rewrite lookup_insert_eq, delete_insert_eq. lia.
Qed.

Lemma numStaked_nonneg m : 0 <= numStaked m.
Proof. unfold numStaked. lia. Qed.

Lemma numStaked_pos m k d : m !! k = Some d -> Staked d = true -> 0 < numStaked m.
Proof.
  intros E Es. rewrite (numStaked_delete m k), E. cbn. rewrite Es.
  pose proof (numStaked_nonneg (delete k m)). lia.
Qed.

Lemma numStaked_size m : numStaked m <= Z.of_nat (size m).
Proof.
  unfold numStaked. apply Nat2Z.inj_le. rewrite <- !size_dom. apply subseteq_size.
  apply dom_filter_subseteq.
Qed.

(** ** Successful runs

    [m s = (s', Ok a)] taken apart along the statements of [m]. *)

Section Runs.
Context {S : Type} {EI : SystemEI S}.
Implicit Types (s : S).

Lemma failIf_Ok b m s s' u : failIf b m s = (s', Ok u) -> b = false /\ s' = s.
Proof.
  unfold failIf. destruct b; [by intros [=]|]. intros [= <- _]. done.
Qed.

Lemma fail_Ok {A} m s s' (a : A) : fail m s = (s', Ok a) -> False.
Proof. by intros [=]. Qed.

Lemma orFailWith_Ok {A} rc f (m : SE S vm_error A) s s' a :
  orFailWith rc f m s = (s', Ok a) -> m s = (s', Ok a).
Proof. unfold orFailWith. destruct (m s) as [s1 [a1|e]]; intros [=]; by subst. Qed.

Lemma orFail_Ok {A} f (m : SE S vm_error A) s s' a :
  orFail f m s = (s', Ok a) -> m s = (s', Ok a).
Proof. apply orFailWith_Ok. Qed.

Lemma orReturn_Ok {A} (m : SE S vm_error A) s s' a :
  orReturn m s = (s', Ok a) -> m s = (s', Ok a).
Proof. unfold orReturn, se_mapErr. destruct (m s) as [s1 [a1|e]]; intros [=]; by subst. Qed.

Lemma se_get_Ok {E} s s' (a : S) : se_get (E := E) s = (s', Ok a) -> s' = s /\ a = s.
Proof. intros [= <- <-]. done. Qed.

Lemma mret_Ok {E A} s s' (a b : A) : (mret a : SE S E A) s = (s', Ok b) -> s' = s /\ b = a.
Proof. intros [= <- <-]. done. Qed.

Lemma se_lift_err_Ok {E A} (e : E) s s' (a : A) : se_lift (Err e) s = (s', Ok a) -> False.
Proof. by intros [=]. Qed.

Lemma se_modify_Ok {E} f s s' u : se_modify (E := E) f s = (s', Ok u) -> s' = f s.
Proof. intros [= <- _]. done. Qed.

Lemma se_for_Ok {E B} (P : S -> Prop) (body : B -> SE S E ()) :
  forall l s s' u, (forall b s s' u, b ∈ l -> P s -> body b s = (s', Ok u) -> P s') ->
  P s -> se_for l body s = (s', Ok u) -> P s'.
Proof.
  induction l as [|b l IH]; intros s s' u H H0 R.
  - by apply mret_Ok in R as [-> _].
  - apply se_bind_Ok in R as (s1 & v & R1 & R2).
    eapply (IH s1); [|by eapply H; [left| |]|done].
    intros b' t t' u' Hb. apply H. by right.
Qed.
End Runs.

(** One statement of a successful run. *)
Ltac run_step H :=
  first
    [ apply se_bind_Ok in H as (? & ? & ? & H)
    | apply failIf_Ok in H as [? ->]
    | apply orFail_Ok in H
    | apply orReturn_Ok in H
    | apply se_get_Ok in H as [-> ->]
    | apply mret_Ok in H as [-> ?]
    | apply se_modify_Ok in H as -> ].

Section Ledger.
Context {S : Type} {EI : SystemEI S} {EIok : SystemEIOk S EI} {BH : BlockchainHook}.
Context {MA : StakingMarshalizer} {MAok : StakingMarshalizerOk MA} {CE : CoreEnv}.
Context (sc : stakingSC) (blsLen : nat).

(** The epochs in which the repaired queue and the current format of the data
    are in use, and BLS keys that no reserved key can be confused with. *)
Class ModernEpoch : Prop := {
  #[global] HQueue :: RepairedQueue sc;
  HStake : IsFlagEnabled sc StakeFlag = true;
  HV2 : IsFlagEnabled sc StakingV2Flag = true;
  HLen : blsLen <> 11%nat;
}.
Context {ME : ModernEpoch}.
Implicit Types (s : S) (A : ledger) (k : bytes) (d : StakedDataV2_0).

Abbreviation key := (is_key blsLen).

Definition holds s A : Prop :=
  (forall k, key k -> match nodes A !! k with
                      | Some d => reg_is s k d /\ stored s k
                      | None => storageAt k s = []
                      end) /\
  (forall k d, nodes A !! k = Some d -> key k) /\
  queue blsLen s (jailedQueue A) (restQueue A) /\
  getConfig sc s = nodesConfig A.

Lemma key_not_queue k : key k -> ~ queueKeys blsLen k.
Proof using ME.
  unfold is_key. intros K [(x & Kx & ->)| ->].
  - unfold is_key in Kx. unfold wk in K. rewrite length_app in K. cbn in K. lia.
  - destruct ME. by apply HLen0.
Qed.
Lemma key_not_config k : key k -> k <> nodesConfigKey.
Proof using ME. unfold is_key. intros K ->. destruct ME. by apply HLen0. Qed.
Lemma queue_not_config k : queueKeys blsLen k -> k <> nodesConfigKey.
Proof. intros [(x & _ & ->)| ->]; [apply wk_not_config|apply head_not_config]. Qed.

(** ** What leaves the ledger as it is *)

Lemma holds_agree ks s s' A :
  agree ks s s' -> (forall k, key k -> ~ ks k) -> (forall k, queueKeys blsLen k -> ~ ks k) ->
  ~ ks nodesConfigKey -> holds s A -> holds s' A.
Proof.
  intros Ag Nk Nq Nc (Hn & Hk & Hq & Hc). split; [|split; [done|split]].
  - intros k K. specialize (Hn k K). rewrite <- (Ag k (Nk k K)) in Hn.
    destruct (nodes A !! k) as [d|]; [|done]. destruct Hn as [R St]. split.
    + eapply reg_is_ext; [by apply Ag, Nk|done].
    + unfold stored in *. by rewrite Ag by by apply Nk.
  - eapply (queue_ext sc); [exact Ag|done|done].
  - rewrite <- Hc. apply getConfig_ext. by apply Ag.
Qed.

Lemma holds_nowhere s s' A : agree nowhere s s' -> holds s A -> holds s' A.
Proof. intros Ag. eapply holds_agree; [exact Ag|by intros ? ? []|by intros ? ? []|by intros []]. Qed.
Lemma holds_say m s A : holds s A -> holds (eei_AddReturnMessage m s) A.
Proof. apply holds_nowhere, say_agree. Qed.
Lemma holds_finish b s A : holds s A -> holds (eei_Finish b s) A.
Proof. apply holds_nowhere, finish_agree. Qed.
Lemma holds_useGas g s s' u A : eei_UseGas g s = (s', Ok u) -> holds s A -> holds s' A.
Proof. intros E. apply holds_nowhere. pose proof (useGas_agree g s) as Ag. by rewrite E in Ag. Qed.

(** ** Loads and saves *)

Lemma load_spec s A k : holds s A -> key k -> reg_is s k (nodeData A k).
Proof.
  intros (Hn & _) K. specialize (Hn k K). unfold nodeData.
  destruct (nodes A !! k); cbn; [by destruct Hn|by apply reg_is_absent].
Qed.

Lemma load_Ok s A k s' d : holds s A -> key k ->
  getOrCreateRegisteredData k s = (s', Ok d) -> s' = s /\ d = nodeData A k.
Proof. intros H K E. rewrite (load_spec s A k H K) in E. by injection E. Qed.

Lemma nodeData_slash s A k : holds s A -> key k -> SlashValue (nodeData A k) <> None.
Proof. intros H K. eapply reg_is_slash, load_spec; done. Qed.

(** The part of [holds] on the registered nodes. *)
Definition registers s (m : gmap bytes StakedDataV2_0) : Prop :=
  (forall k, key k -> match m !! k with
                      | Some d => reg_is s k d /\ stored s k
                      | None => storageAt k s = []
                      end) /\
  (forall k d, m !! k = Some d -> key k).

Lemma holds_registers s A : holds s A -> registers s (nodes A).
Proof. by intros (? & ? & _). Qed.

Lemma registers_agree ks s s' m : agree ks s s' -> (forall k, key k -> ~ ks k) -> registers s m -> registers s' m.
Proof.
  intros Ag Nk [Hn Hk]. split; [|done]. intros k K. specialize (Hn k K).
  assert (E : storageAt k s' = storageAt k s) by by apply Ag, Nk.
  destruct (m !! k) as [d|]; [|by rewrite E]. destruct Hn as [R St]. split.
  - by eapply reg_is_ext.
  - unfold stored. by rewrite E.
Qed.

Lemma registers_saved s s' m k d : registers s m -> key k -> agree (eq k) s s' -> reg_is s' k d -> stored s' k ->
  registers s' (<[k := d]> m).
Proof.
  intros [Hn Hk] K Ag R St. split.
  - intros k' K'. destruct (decide (k' = k)) as [->|N]; [by rewrite lookup_insert_eq|].
    rewrite lookup_insert_ne by done. specialize (Hn k' K').
    assert (E : storageAt k' s' = storageAt k' s) by by apply Ag.
    destruct (m !! k') as [d'|]; [|by rewrite E]. destruct Hn as [R' St']. split.
    + by eapply reg_is_ext.
    + unfold stored. by rewrite E.
  - intros k' d' [[<- _]|[_ E']]%lookup_insert_Some; eauto.
Qed.

Lemma save_spec s A k d : holds s A -> key k -> SlashValue d <> None -> RewardAddress d <> [] ->
  exists s', saveStakingData sc k d s = (s', Ok ()) /\ holds s' (with_node k d A).
Proof.
  intros H K Ns Nr. pose proof H as (_ & _ & Hq & Hc).
  destruct (saveStakingData_spec sc HStake HV2 k d s Ns Nr) as (s' & E & Ag & R & St).
  destruct (registers_saved s s' _ k d (holds_registers s A H) K Ag R St) as [Hn' Hk'].
  exists s'. split; [done|]. split; [done|split; [done|split]].
  - eapply (queue_ext sc); [exact Ag| |exact Hq]. intros k' Q <-. by eapply key_not_queue.
  - cbn [nodesConfig with_node with_nodes]. rewrite <- Hc. apply getConfig_ext, Ag.
    intros F. by eapply key_not_config.
Qed.

Lemma save_Ok s A k d s' u : holds s A -> key k -> SlashValue d <> None -> RewardAddress d <> [] ->
  saveStakingData sc k d s = (s', Ok u) -> holds s' (with_node k d A).
Proof.
  intros H K Ns Nr E. destruct (save_spec s A k d H K Ns Nr) as (s1 & E1 & H1).
  rewrite E1 in E. by injection E as <-.
Qed.

Lemma clear_spec s A k : holds s A -> key k ->
  holds (eei_SetStorage k [] s) (with_nodes (delete k (nodes A)) A).
Proof.
  intros (Hn & Hk & Hq & Hc) K. pose proof (set_agree k [] s) as Ag. split; [|split; [|split]].
  - intros k' K'. cbn [nodes with_nodes]. destruct (decide (k' = k)) as [->|N].
    + rewrite lookup_delete_eq. apply storageAt_set_eq.
    + rewrite lookup_delete_ne by done. specialize (Hn k' K').
      pose proof (storageAt_set_ne k [] s k' N) as E'.
      destruct (nodes A !! k') as [d'|]; [|by rewrite E']. destruct Hn as [R' St']. split.
      * by eapply reg_is_ext.
      * unfold stored. by rewrite E'.
  - intros k' d' E'. cbn in E'. apply lookup_delete_Some in E' as [_ E']; eauto.
  - eapply (queue_ext sc); [exact Ag| |exact Hq]. intros k' Q <-. by eapply key_not_queue.
  - cbn [nodesConfig with_node with_nodes]. rewrite <- Hc. apply getConfig_ext, Ag.
    intros F. by eapply key_not_config.
Qed.

(** ** Configuration and counters *)


(** ** Configuration and counters *)

Lemma setConfig_holds {E} s A c : holds s A -> 0 < MinNumNodes c ->
  exists s', setConfig (E := E) c s = (s', Ok ()) /\ holds s' (with_config c A).
Proof.
  intros H Np. destruct (setConfig_spec sc (E := E) c s Np) as (s' & R & Ag & G).
  exists s'. split; [done|]. destruct H as (Hn & Hk & Hq & Hc).
  split; [|split; [done|split; [|done]]].
  - intros k K. specialize (Hn k K). cbn [nodes with_config].
    assert (Ek : storageAt k s' = storageAt k s).
    { apply Ag. intros F. by apply (key_not_config k). }
    destruct (nodes A !! k) as [d|]; [|by rewrite Ek]. destruct Hn as [Rg St]. split.
    + by eapply reg_is_ext.
    + unfold stored. by rewrite Ek.
  - eapply (queue_ext sc); [exact Ag| |exact Hq]. intros k Q F. by apply (queue_not_config k).
Qed.

Lemma setConfig_Ok {E} s A c s' u : holds s A -> 0 < MinNumNodes c ->
  setConfig (E := E) c s = (s', Ok u) -> holds s' (with_config c A).
Proof.
  intros H Np R. destruct (setConfig_holds (E := E) s A c H Np) as (s1 & R1 & H1).
  rewrite R1 in R. by injection R as <-.
Qed.

Lemma holds_config s A : holds s A -> getConfig sc s = nodesConfig A.
Proof. by intros (_ & _ & _ & Hc). Qed.

Lemma plusStaked_spec {E} s A v : holds s A -> 0 < MinNumNodes (nodesConfig A) ->
  exists s', addToStakedNodes sc (E := E) v s = (s', Ok ()) /\ holds s' (plusStaked v A).
Proof.
  intros H Np. destruct (setConfig_holds (E := E) s A
    (cfg_with_StakedNodes (i64 (StakedNodes (nodesConfig A) + v)) (nodesConfig A)) H Np) as (s' & R & H').
  exists s'. split; [|done]. unfold addToStakedNodes. rewrite (se_bind_eq _ _ s s s) by done.
  by rewrite (holds_config s A H).
Qed.

Lemma plusStaked_Ok {E} s A v s' u : holds s A -> 0 < MinNumNodes (nodesConfig A) ->
  addToStakedNodes sc (E := E) v s = (s', Ok u) -> holds s' (plusStaked v A).
Proof.
  intros H Np R. destruct (plusStaked_spec (E := E) s A v H Np) as (s1 & R1 & H1).
  rewrite R1 in R. by injection R as <-.
Qed.

Lemma with_config_id A : with_config (nodesConfig A) A = A.
Proof. by destruct A. Qed.

Lemma minusStaked_spec {E} s A : holds s A -> 0 < MinNumNodes (nodesConfig A) ->
  exists s', removeFromStakedNodes sc (E := E) s = (s', Ok ()) /\ holds s' (minusStaked A).
Proof.
  intros H Np.
  assert (Em : exists c, 0 < MinNumNodes c /\ with_config c A = minusStaked A /\
    c = if 0 <? StakedNodes (nodesConfig A)
        then cfg_with_StakedNodes (StakedNodes (nodesConfig A) - 1) (nodesConfig A)
        else nodesConfig A).
  { eexists. split; [|split; [|done]]; unfold minusStaked;
      destruct (0 <? _); [done|done|done|apply with_config_id]. }
  destruct Em as (c & Np' & Ew & Ec).
  destruct (setConfig_holds (E := E) s A c H Np') as (s' & R & H').
  exists s'. rewrite <- Ew. split; [|done]. unfold removeFromStakedNodes.
  rewrite (se_bind_eq _ _ s s s) by done. by rewrite (holds_config s A H), <- Ec.
Qed.

Lemma minusStaked_Ok {E} s A s' u : holds s A -> 0 < MinNumNodes (nodesConfig A) ->
  removeFromStakedNodes sc (E := E) s = (s', Ok u) -> holds s' (minusStaked A).
Proof.
  intros H Np R. destruct (minusStaked_spec (E := E) s A H Np) as (s1 & R1 & H1).
  rewrite R1 in R. by injection R as <-.
Qed.

(** ** The queue *)

Lemma holds_queue_agree s s' A q :
  agree (queueKeys blsLen) s s' -> queue blsLen s' q.1 q.2 -> holds s A -> holds s' (with_queue q A).
Proof.
  intros Ag Q (Hn & Hk & Hq & Hc). split; [|split; [done|split; [done|]]].
  - intros k K. specialize (Hn k K). cbn [nodes with_queue].
    assert (Ek : storageAt k s' = storageAt k s) by by apply Ag, key_not_queue.
    destruct (nodes A !! k) as [d|]; [|by rewrite Ek]. destruct Hn as [Rg St]. split.
    + by eapply reg_is_ext.
    + unfold stored. by rewrite Ek.
  - cbn [nodesConfig with_queue]. rewrite <- Hc. apply getConfig_ext, Ag.
    intros F. by apply (queue_not_config nodesConfigKey).
Qed.

Lemma enqueue_spec s A k jailed : holds s A -> key k ->
  Z.of_nat (length (theQueue A)) + 1 < maxUint32 ->
  exists s', addToWaitingList sc k jailed s = (s', Ok ()) /\ holds s' (with_queued k jailed A).
Proof.
  intros H K B. pose proof H as (_ & _ & Hq & _).
  destruct (addToWaitingList_spec sc blsLen s _ _ k jailed Hq K B) as (s' & R & Ag & Q).
  exists s'. split; [done|]. apply (holds_queue_agree s); [done| |done].
  by destruct (queue_add k jailed (jailedQueue A, restQueue A)).
Qed.

Lemma dequeue_spec s A k : holds s A -> key k ->
  exists s', removeFromWaitingList sc k s = (s', Ok ()) /\ holds s' (without_queued k A).
Proof.
  intros H K. pose proof H as (_ & _ & Hq & _).
  destruct (removeFromWaitingList_spec sc blsLen s _ _ k Hq K) as (s' & R & Ag & Q).
  exists s'. split; [done|]. by apply (holds_queue_agree s).
Qed.

Lemma dequeue_Ok s A k s' u : holds s A -> key k ->
  removeFromWaitingList sc k s = (s', Ok u) -> holds s' (without_queued k A).
Proof.
  intros H K R. destruct (dequeue_spec s A k H K) as (s1 & R1 & H1).
  rewrite R1 in R. by injection R as <-.
Qed.

Lemma walk_spec s A : holds s A ->
  exists (d : waitingListReturnData), getFirstElementsFromWaitingList maxUint32 s = (s, Ok d) /\
    blsKeys d = theQueue A /\ stakedDataList d = map (nodeData A) (theQueue A).
Proof.
  intros H. pose proof H as (_ & _ & Hq & _).
  apply (getFirstElements_all sc blsLen s _ _ (nodeData A) Hq).
  intros z Hz. apply (load_spec s A z H). destruct Hq as (L & _). by eapply linked_key.
Qed.

Lemma walk_Ok s A s' (d : waitingListReturnData) : holds s A ->
  getFirstElementsFromWaitingList maxUint32 s = (s', Ok d) ->
  s' = s /\ blsKeys d = theQueue A /\ stakedDataList d = map (nodeData A) (theQueue A).
Proof.
  intros H R. destruct (walk_spec s A H) as (d' & R' & E). rewrite R' in R. by injection R as <- <-.
Qed.

Lemma queue_key s A k : holds s A -> k ∈ theQueue A -> key k.
Proof. intros (_ & _ & (L & _) & _) Hk. by eapply linked_key. Qed.

Lemma head_Ok s A s' w : holds s A -> getWaitingListHead s = (s', Ok w) ->
  s' = s /\ w = headRec (jailedQueue A) (restQueue A).
Proof. intros (_ & _ & (_ & Hh & _) & _) R. rewrite Hh in R. by injection R as <- <-. Qed.
End Ledger.

Create HintDb quiet.

Section Quiet.
Context {S : Type} {EI : SystemEI S} {EIok : SystemEIOk S EI}.

Definition quiet {E A} (m : SE S E A) : Prop := forall s, agree nowhere s (m s).1.

Lemma agree_nowhere_trans (s1 s2 s3 : S) : agree nowhere s1 s2 -> agree nowhere s2 s3 -> agree nowhere s1 s3.
Proof. apply agree_trans; done. Qed.

Lemma quiet_bind {E A B} (m : SE S E A) (f : A -> SE S E B) :
  quiet m -> (forall a, quiet (f a)) -> quiet (m ≫= f).
Proof.
  intros Hm Hf s. unfold mbind, se_bind. specialize (Hm s). destruct (m s) as [s1 [a|e]]; [|done].
  eapply agree_nowhere_trans; [exact Hm|apply Hf].
Qed.

Lemma quiet_same {E A} (m : SE S E A) : (forall s, (m s).1 = s) -> quiet m.
Proof. intros H s. rewrite H. apply agree_refl. Qed.

Lemma quiet_ret {E A} (a : A) : quiet (mret a : SE S E A).
Proof. by apply quiet_same. Qed.
Lemma quiet_lift {E A} (r : result E A) : quiet (se_lift r).
Proof. by apply quiet_same. Qed.
Lemma quiet_get {E} : quiet (se_get (E := E)).
Proof. by apply quiet_same. Qed.
Lemma quiet_guard {E} b (e : E) : quiet (se_guard (S := S) b e).
Proof. by apply quiet_same. Qed.
Lemma quiet_say {E} m : quiet (say m : SE S E ()).
Proof. intros s. apply say_agree. Qed.
Lemma quiet_finish {E} b : quiet (finish b : SE S E ()).
Proof. intros s. apply finish_agree. Qed.
Lemma quiet_useGas g : quiet (eei_UseGas g).
Proof. intros s. apply useGas_agree. Qed.

Lemma quiet_if {E A} (b : bool) (m1 m2 : SE S E A) : (b = true -> quiet m1) -> (b = false -> quiet m2) ->
  quiet (if b then m1 else m2).
Proof. destruct b; auto. Qed.

Lemma quiet_for {E A} (l : list A) (body : A -> SE S E ()) : (forall a, quiet (body a)) -> quiet (se_for l body).
Proof. intros H. induction l as [|a l IH]; [apply quiet_ret|]. cbn. by apply quiet_bind. Qed.
End Quiet.

#[export] Hint Resolve quiet_ret quiet_lift quiet_get quiet_guard quiet_say quiet_finish quiet_useGas : quiet.

Section QuietReports.
Context {S : Type} {EI : SystemEI S} {EIok : SystemEIOk S EI}.
Context {A : Type}.

Lemma quiet_fail m : quiet (fail m : SE S ReturnCode A).
Proof. unfold fail. apply quiet_bind; auto with quiet. Qed.
Lemma quiet_failIf b m : quiet (failIf b m : SE S ReturnCode ()).
Proof. unfold failIf. apply quiet_if; intros _; [|apply quiet_ret]. unfold fail. apply quiet_bind; auto with quiet. Qed.
Lemma quiet_orFailWith rc f (m : SE S vm_error A) : quiet m -> quiet (orFailWith rc f m).
Proof.
  intros H s. unfold orFailWith. specialize (H s). destruct (m s) as [s1 [a|e]]; [done|].
  eapply agree_nowhere_trans; [exact H|apply say_agree].
Qed.
Lemma quiet_orFail f (m : SE S vm_error A) : quiet m -> quiet (orFail f m).
Proof. apply quiet_orFailWith. Qed.
Lemma quiet_orReturn (m : SE S vm_error A) : quiet m -> quiet (orReturn m).
Proof. intros H s. unfold orReturn, se_mapErr. specialize (H s). by destruct (m s) as [s1 [a|e]]. Qed.
Lemma quiet_try {E F} (m : SE S E A) : quiet m -> quiet (se_try (F := F) m).
Proof. intros H s. unfold se_try. specialize (H s). by destruct (m s). Qed.

(** A guard that fails stops the method. *)
Lemma quiet_guarded (b : bool) m (k : () -> SE S ReturnCode A) :
  (b = false -> quiet (k ())) -> quiet (failIf b m ≫= k).
Proof.
  intros H. unfold failIf. destruct b.
  - intros s. cbn. unfold mbind, se_bind, fail. cbn. apply say_agree.
  - intros s. unfold mbind, se_bind. cbn. by apply H.
Qed.
End QuietReports.

#[export] Hint Resolve quiet_fail quiet_failIf quiet_orFailWith quiet_orFail quiet_orReturn quiet_try : quiet.

Ltac quiet_step :=
  first
    [ solve [auto with quiet nocore]
    | apply quiet_bind; [|intros ?]
    | apply quiet_for; intros ?
    | apply quiet_orFailWith | apply quiet_orFail | apply quiet_orReturn | apply quiet_try
    | apply quiet_if; intros ?
    | match goal with |- quiet (let '_ := ?x in _) => destruct x end
    | match goal with |- quiet (match ?x with _ => _ end) => destruct x eqn:? end ].
Ltac quiet_all := repeat quiet_step.

Section Views.
Context {S : Type} {EI : SystemEI S} {EIok : SystemEIOk S EI} {BH : BlockchainHook}.
Context {MA : StakingMarshalizer} {CE : CoreEnv}.
Context (sc : stakingSC).

Lemma quiet_getElement k : quiet (getWaitingListElement (S := S) k).
Proof. by apply quiet_same. Qed.
Lemma quiet_getHead : quiet (getWaitingListHead (S := S)).
Proof. by apply quiet_same. Qed.
Lemma quiet_getData k : quiet (getOrCreateRegisteredData (S := S) k).
Proof. by apply quiet_same. Qed.
Hint Resolve quiet_getElement quiet_getHead quiet_getData : quiet.

Lemma quiet_load p k : quiet (loadOrFail (S := S) p k).
Proof. unfold loadOrFail. auto with quiet. Qed.
Hint Resolve quiet_load : quiet.

Lemma quiet_walk_loop fuel : forall w n k i acc, quiet (getFirstElements_loop (S := S) fuel w n k i acc).
Proof. induction fuel as [|fuel IH]; intros; cbn [getFirstElements_loop]; quiet_all. Qed.
Hint Resolve quiet_walk_loop : quiet.

Lemma quiet_walk n : quiet (getFirstElementsFromWaitingList (S := S) n).
Proof. unfold getFirstElementsFromWaitingList. quiet_all. Qed.
Hint Resolve quiet_walk : quiet.

Lemma quiet_index_loop fuel : forall w k1 k2 i, quiet (getWaitingListIndex_loop (S := S) fuel w k1 k2 i).
Proof. induction fuel as [|fuel IH]; intros; cbn [getWaitingListIndex_loop]; quiet_all. Qed.
Hint Resolve quiet_index_loop : quiet.

Lemma quiet_checkUnStakeArgs args : quiet (checkUnStakeArgs (S := S) sc args).
Proof. unfold checkUnStakeArgs. quiet_all. Qed.

Lemma quiet_getStakedData args : quiet (getStakedDataIfExists (S := S) sc args).
Proof. unfold getStakedDataIfExists. quiet_all. Qed.
Hint Resolve quiet_getStakedData : quiet.

(** The views. *)
Definition view (f : string) : Prop :=
  f ∈ ["get"; "isStaked"; "slash"; "changeValidatorKeys"; "getQueueIndex"; "getQueueSize"; "getRewardAddress";
       "getBLSKeyStatus"; "getRemainingUnBondPeriod"; "getQueueRegisterNonceAndRewardAddress";
       "getOwner"; "getTotalNumberOfRegisteredNodes"]%string.

Lemma quiet_get_view args : quiet (get (S := S) sc args).
Proof. unfold get. quiet_all. Qed.
Lemma quiet_isStaked args : quiet (isStaked (S := S) args).
Proof. unfold isStaked. quiet_all. Qed.
Lemma quiet_changeValidatorKey args : quiet (changeValidatorKey (S := S) sc args).
Proof. unfold changeValidatorKey. quiet_all. Qed.
Lemma quiet_getRewardAddress args : quiet (getRewardAddress (S := S) sc args).
Proof. unfold getRewardAddress. quiet_all. Qed.
Lemma quiet_getBLSKeyStatus args : quiet (getBLSKeyStatus (S := S) sc args).
Proof. unfold getBLSKeyStatus. quiet_all. Qed.
Lemma quiet_getTotal args : quiet (getTotalNumberOfRegisteredNodes (S := S) sc args).
Proof. unfold getTotalNumberOfRegisteredNodes. quiet_all. Qed.
Lemma quiet_getRemaining args : quiet (getRemainingUnbondPeriod (S := S) sc args).
Proof. unfold getRemainingUnbondPeriod. quiet_all. Qed.
Lemma quiet_getOwner args : quiet (getOwner (S := S) sc args).
Proof. unfold getOwner. quiet_all. Qed.
Lemma quiet_getIndex args : quiet (getWaitingListIndex (S := S) sc args).
Proof. unfold getWaitingListIndex. quiet_all. Qed.
Lemma quiet_getSize args : quiet (getWaitingListSize (S := S) sc args).
Proof. unfold getWaitingListSize. quiet_all. Qed.
Lemma quiet_getNonces args : quiet (getWaitingListRegisterNonceAndRewardAddress (S := S) sc args).
Proof. unfold getWaitingListRegisterNonceAndRewardAddress. quiet_all. Qed.
End Views.

(** ** Failures *)

Create HintDb honest.

Section Honest.
Context {S : Type} {EI : SystemEI S}.

Definition honest {A} (m : SE S ReturnCode A) : Prop := forall s s', m s <> (s', Err RC_Ok).

Lemma honest_bind {A B} (m : SE S ReturnCode A) (f : A -> SE S ReturnCode B) :
  honest m -> (forall a, honest (f a)) -> honest (m ≫= f).
Proof.
  intros Hm Hf s s'. unfold mbind, se_bind. specialize (Hm s). destruct (m s) as [s1 [a|e]].
  - apply Hf.
  - intros [= -> ->]. by eapply Hm.
Qed.
Lemma honest_ret {A} (a : A) : honest (mret a : SE S ReturnCode A).
Proof. by intros s s' [=]. Qed.
Lemma honest_lift {A} rc : rc <> RC_Ok -> honest (se_lift (Err rc) : SE S ReturnCode A).
Proof. intros N s s' [= _ E]. done. Qed.
Lemma honest_get : honest (se_get (S := S)).
Proof. by intros s s' [=]. Qed.
Lemma honest_modify (f : S -> S) : honest (se_modify f).
Proof. by intros s s' [=]. Qed.
Lemma honest_say m : honest (say m : SE S ReturnCode ()).
Proof. apply honest_modify. Qed.
Lemma honest_finish b : honest (finish b : SE S ReturnCode ()).
Proof. apply honest_modify. Qed.
Lemma honest_set k v : honest (setStorage k v : SE S ReturnCode ()).
Proof. apply honest_modify. Qed.
Lemma honest_fail {A} m : honest (fail m : SE S ReturnCode A).
Proof. by intros s s' [=]. Qed.
Lemma honest_failIf b m : honest (failIf b m : SE S ReturnCode ()).
Proof. unfold failIf. destruct b; [apply honest_fail|apply honest_ret]. Qed.
Lemma honest_orFailWith {A} rc f (m : SE S vm_error A) : rc <> RC_Ok -> honest (orFailWith rc f m).
Proof. intros N s s'. unfold orFailWith. destruct (m s) as [s1 [a|e]]; intros [=]. done. Qed.
Lemma honest_orFail {A} f (m : SE S vm_error A) : honest (orFail f m).
Proof. by apply honest_orFailWith. Qed.
Lemma honest_orReturn {A} (m : SE S vm_error A) : honest (orReturn m).
Proof. intros s s'. unfold orReturn, se_mapErr. destruct (m s) as [s1 [a|e]]; intros [=]. Qed.
Lemma honest_try {A} (m : SE S vm_error A) : honest (se_try m).
Proof. intros s s'. unfold se_try. destruct (m s). intros [=]. Qed.
Lemma honest_for {A} (l : list A) (body : A -> SE S ReturnCode ()) :
  (forall a, honest (body a)) -> honest (se_for l body).
Proof. intros H. induction l as [|a l IH]; [apply honest_ret|]. cbn. by apply honest_bind. Qed.
Lemma honest_if {A} (b : bool) (m1 m2 : SE S ReturnCode A) :
  (b = true -> honest m1) -> (b = false -> honest m2) -> honest (if b then m1 else m2).
Proof. destruct b; auto. Qed.

(** The run of an honest handler that answers Ok did not fail. *)
Lemma honest_run (m : SE S ReturnCode ReturnCode) s s' :
  honest m -> runHandler m s = (s', RC_Ok) -> m s = (s', Ok RC_Ok).
Proof.
  unfold runHandler. intros H. specialize (H s). destruct (m s) as [s1 [rc|e]]; intros [= -> ->]; [done|].
  by destruct (H s').
Qed.
End Honest.

#[export] Hint Resolve honest_ret honest_get honest_modify honest_say honest_finish honest_set honest_fail
  honest_failIf honest_orFail honest_orReturn honest_try : honest.

Ltac honest_step :=
  first
    [ solve [auto with honest nocore]
    | apply honest_bind; [|intros ?]
    | apply honest_for; intros ?
    | apply honest_orFailWith; discriminate
    | apply honest_if; intros ?
    | match goal with |- honest (let '_ := ?x in _) => destruct x end
    | match goal with |- honest (match ?x with _ => _ end) => destruct x eqn:? end ].
Ltac honest_all := repeat honest_step.

Section HonestHandlers.
Context {S : Type} {EI : SystemEI S} {BH : BlockchainHook}.
Context {MA : StakingMarshalizer} {CE : CoreEnv}.
Context (sc : stakingSC).

Lemma honest_setConfig c : honest (setConfig c : SE S ReturnCode ()).
Proof. unfold setConfig. honest_all. Qed.
Hint Resolve honest_setConfig : honest.
Lemma honest_plus v : honest (addToStakedNodes sc v : SE S ReturnCode ()).
Proof. unfold addToStakedNodes. honest_all. Qed.
Lemma honest_minus : honest (removeFromStakedNodes sc : SE S ReturnCode ()).
Proof. unfold removeFromStakedNodes. honest_all. Qed.
Lemma honest_minusJailed : honest (removeFromJailedNodes sc : SE S ReturnCode ()).
Proof. unfold removeFromJailedNodes. honest_all. Qed.
Lemma honest_load p k : honest (loadOrFail (S := S) p k).
Proof. apply honest_orFail. Qed.
Lemma honest_save p k d : honest (saveOrFail (S := S) sc p k d).
Proof. apply honest_orFail. Qed.
Hint Resolve honest_plus honest_minus honest_minusJailed honest_load honest_save : honest.

Lemma honest_checkUnStakeArgs args : honest (checkUnStakeArgs (S := S) sc args).
Proof. unfold checkUnStakeArgs. honest_all. Qed.
Lemma honest_tryUnStake k d : honest (tryUnStake (S := S) sc k d).
Proof. unfold tryUnStake, doUnStake. honest_all. Qed.
Lemma honest_getStakedData args : honest (getStakedDataIfExists (S := S) sc args).
Proof. unfold getStakedDataIfExists. honest_all. Qed.
Lemma honest_setOwner i k o : honest (setOwnerOne (S := S) sc i k o).
Proof. unfold setOwnerOne. cbv zeta. honest_all. Qed.
Hint Resolve honest_checkUnStakeArgs honest_tryUnStake honest_getStakedData honest_setOwner : honest.

Lemma honest_setOwners_loop n : forall l i, (length l <= n)%nat -> honest (setOwners_loop (S := S) sc i l).
Proof.
  induction n as [|n IH]; intros [|k [|owner l]] i Hn; try apply honest_ret; [cbn in Hn; lia|].
  cbn [setOwners_loop]. apply honest_bind; [apply honest_setOwner|]. intros _. apply IH. cbn in Hn. lia.
Qed.

Lemma honest_stakeNodes_loop l : forall n p m k, honest (stakeNodesFromQueue_loop (S := S) sc l n p m k).
Proof.
  induction l as [|[x d] l IH]; intros n p m k; cbn [stakeNodesFromQueue_loop]; [honest_all|].
  apply honest_if; intros _; [honest_all|]. apply honest_bind; [honest_all|]. intros [m' u].
  apply honest_if; intros _; [apply IH|]. repeat (apply honest_bind; [honest_all|intros _]). apply IH.
Qed.

Lemma honest_unStakeAll_loop l : forall o m, honest (unStakeAll_loop (S := S) sc l o m).
Proof.
  induction l as [|[x d] l IH]; intros o m; cbn [unStakeAll_loop]; [honest_all|].
  apply honest_bind; [unfold doUnStake; honest_all|]. intros rc. case_bool_decide as E; cbn [negb].
  - apply honest_bind; [honest_all|]. intros _. cbv zeta. destruct (m !! _); apply IH.
  - by apply honest_lift.
Qed.

Lemma honest_exec d l o : honest (executeOnStakeAtEndOfEpoch (S := S) d l o).
Proof. unfold executeOnStakeAtEndOfEpoch. honest_all. Qed.
Hint Resolve honest_exec : honest.

Lemma honest_unStakeAll args : honest (unStakeAllNodesFromQueue (S := S) sc args).
Proof.
  unfold unStakeAllNodesFromQueue. do 4 (apply honest_bind; [honest_all|intros ?]).
  apply honest_if; intros _; [honest_all|]. apply honest_bind; [apply honest_unStakeAll_loop|].
  intros [o m]. apply honest_bind; [honest_all|]. intros _. apply honest_bind; [|intros _; honest_all].
  apply honest_for. intros owner. apply honest_if; intros _; [honest_all|].
  apply honest_bind; [apply honest_exec|]. intros rc. case_bool_decide; cbn [negb]; [honest_all|].
  by apply honest_lift.
Qed.

Lemma honest_setOwners args : honest (setOwnersOnAddresses (S := S) sc args).
Proof. unfold setOwnersOnAddresses. honest_all. by eapply honest_setOwners_loop. Qed.
Lemma honest_stakeNodes args : honest (stakeNodesFromQueue (S := S) sc args).
Proof. unfold stakeNodesFromQueue. cbv zeta. honest_all. apply honest_stakeNodes_loop. Qed.
Hint Resolve honest_unStakeAll honest_setOwners honest_stakeNodes : honest.

Lemma honest_switch args : honest (Execute_switch (S := S) sc args).
Proof.
  unfold Execute_switch. cbv zeta. repeat (apply honest_if; intros _; [solve [
    auto with honest nocore |
    unfold init, stake, unStake, unStakeV1, unStakeV2, unBond, get, isStaked, slash, jail, jailOne, unJail,
      unJailV1, unJailOneV1, changeRewardAddress, changeRewardAddressOne, changeValidatorKey,
      switchJailedWithWaiting, tryRemoveJailedNodeFromStaked, removeAndSetUnstaked,
      getWaitingListIndex, getWaitingListSize, getRewardAddress, getBLSKeyStatus,
      getRemainingUnbondPeriod, getWaitingListRegisterNonceAndRewardAddress, updateConfigMinNodes,
      getOwner, updateConfigMaxNodes, unStakeAtEndOfEpoch, getTotalNumberOfRegisteredNodes,
      resetLastUnJailedFromQueue, cleanAdditionalQueue, changeOwnerAndRewardAddress, changeOwnerOne,
      fixWaitingListQueueSize, addMissingNodeToQueue; cbv zeta; honest_all]|]).
  apply honest_ret.
Qed.

Lemma Execute_Ok args s s' : Execute sc args s = (s', RC_Ok) ->
  CheckIfNil args = None /\ ESDTTransfers args = 0%nat /\ Execute_switch sc args s = (s', Ok RC_Ok).
Proof.
  unfold Execute. intros Run. apply honest_run in Run.
  - destruct (CheckIfNil args); [done|]. split; [done|].
    apply se_bind_Ok in Run as (s1 & u & R1 & R2). unfold failIf in R1.
    destruct (ESDTTransfers args); [|done]. injection R1 as <- _. done.
  - destruct (CheckIfNil args); [apply honest_ret|]. apply honest_bind; [apply honest_failIf|].
    intros _. apply honest_switch.
Qed.
End HonestHandlers.

(** ** Strangers *)

Section Strangers.
Context {S : Type} {EI : SystemEI S} {EIok : SystemEIOk S EI} {BH : BlockchainHook}.
Context {MA : StakingMarshalizer} {CE : CoreEnv}.
Context (sc : stakingSC) (args : ContractCallInput).

Hint Resolve quiet_getElement quiet_getHead quiet_getData quiet_load quiet_walk_loop quiet_walk
  quiet_index_loop quiet_checkUnStakeArgs quiet_getStakedData : quiet.

(** The caller is none of the addresses with access. *)
Definition stranger : Prop :=
  callerIs args (stakeAccessAddr sc) = false /\ callerIs args (jailAccessAddr sc) = false /\
  callerIs args (endOfEpochAccessAddr sc) = false.

(** The call is refused and the storage is as it was. *)
Definition refused (m : SE S ReturnCode ReturnCode) : Prop :=
  forall s, agree nowhere s (m s).1 /\ (runHandler m s).2 = RC_UserError.

Lemma refused_ret : refused (mret RC_UserError).
Proof. intros s. split; [apply agree_refl|done]. Qed.

Lemma refused_fail {A} m (k : A -> SE S ReturnCode ReturnCode) : refused (fail m ≫= k).
Proof. intros s. split; [apply say_agree|done]. Qed.

Lemma refused_denied (b : bool) m k : b = true -> refused (failIf b m ≫= k).
Proof. intros ->. apply refused_fail. Qed.

Lemma refused_next (b : bool) m k : (b = false -> refused (k ())) -> refused (failIf b m ≫= k).
Proof.
  intros H. destruct b; [apply refused_fail|]. intros s.
  change (agree nowhere s (k () s).1 /\ (runHandler (k ()) s).2 = RC_UserError). by apply H.
Qed.

Lemma refused_if (b : bool) m1 m2 : (b = true -> refused m1) -> (b = false -> refused m2) ->
  refused (if b then m1 else m2).
Proof. destruct b; auto. Qed.

(** Guards of the head of a handler, down to the one that refuses the caller. *)
Ltac deny :=
  repeat first
    [ apply refused_ret
    | apply refused_denied; cbn;
      match goal with H : callerIs _ _ = false |- _ => rewrite H; reflexivity end
    | match goal with H : callerIs _ _ = false |- refused (if negb (callerIs _ _) then _ else _) =>
        rewrite H; cbn [negb] end
    | apply refused_next; intros _
    | apply refused_if; intros _ ].

Lemma refused_unStake : callerIs args (stakeAccessAddr sc) = false -> refused (unStake sc args).
Proof.
  intros H. assert (R : forall s, exists s', checkUnStakeArgs sc args s = (s', Err RC_UserError) /\ agree nowhere s s').
  { intros s. unfold checkUnStakeArgs. rewrite H. eexists. split; [reflexivity|apply say_agree]. }
  unfold unStake, unStakeV1, unStakeV2.
  apply refused_if; intros _; intros s; destruct (R s) as (s' & E & A); unfold runHandler;
    by rewrite (se_bind_err _ _ _ _ _ E).
Qed.

(** Functions that anybody may call, besides the initialisation. *)
Definition publicRepair : list string := ["fixWaitingListQueueSize"; "addMissingNodeToQueue"]%string.
Definition publicView : list string :=
  ["get"; "isStaked"; "slash"; "getQueueSize"; "getRewardAddress"; "getBLSKeyStatus";
   "getRemainingUnBondPeriod"; "getTotalNumberOfRegisteredNodes"]%string.

Definition harmless (m : SE S ReturnCode ReturnCode) : Prop := quiet m /\ (Function args ∉ publicView -> refused m).

Lemma harmless_refused m : refused m -> harmless m.
Proof. intros R. split; [|done]. intros s. apply R. Qed.

Lemma harmless_if f (m1 m2 : SE S ReturnCode ReturnCode) :
  (Function args = f -> harmless m1) -> harmless m2 ->
  harmless (if bool_decide (Function args = f) then m1 else m2).
Proof. intros H1 H2. case_bool_decide; auto. Qed.

Lemma harmless_view m : quiet m -> Function args ∈ publicView -> harmless m.
Proof. intros Q V. split; [done|]. done. Qed.

Lemma harmless_switch : stranger -> Function args <> InitFunctionName -> Function args ∉ publicRepair ->
  harmless (Execute_switch sc args).
Proof.
  intros (H1 & H2 & H3) Ni Nr. unfold Execute_switch. cbv zeta.
  apply harmless_if; [done|].
  repeat (apply harmless_if; [intros Hf|]); [..|apply harmless_refused, refused_ret];
    try (exfalso; apply Nr; rewrite Hf; set_solver);
    try (apply harmless_view; [first [apply quiet_get_view | apply quiet_isStaked | apply quiet_fail
      | apply quiet_getRewardAddress | apply quiet_getBLSKeyStatus | apply quiet_getTotal
      | apply quiet_getRemaining | apply quiet_getSize]|rewrite Hf; set_solver]);
    apply harmless_refused; try (by apply refused_unStake);
    unfold stake, unBond, jail, unJail, unJailV1, changeRewardAddress, changeValidatorKey,
      switchJailedWithWaiting, getWaitingListIndex, getWaitingListRegisterNonceAndRewardAddress,
      updateConfigMinNodes, setOwnersOnAddresses, getOwner, updateConfigMaxNodes, stakeNodesFromQueue,
      unStakeAtEndOfEpoch, resetLastUnJailedFromQueue, cleanAdditionalQueue,
      changeOwnerAndRewardAddress, unStakeAllNodesFromQueue; deny.
Qed.
End Strangers.
