(* ===== verification/StakingInvariant.v ===== *)
(** * The staking contract keeps its ledger consistent

    Every handler that returns Ok takes a storage that holds a consistent
    ledger to one that does.  The proofs follow the statements of the handler
    on the abstract ledger ([run_step] and the lemmas of StakingLedger). *)

From Stdlib Require Import ZArith Lia String Ascii.
From stdpp Require Import base gmap list strings fin_maps.
From S2P Require Import Prelude GoValues SystemEI StakingData WaitingList Staking StakingStore.
From S2P Require Import QueueSpec StakingLedger.

(** What the contract relies on of the core package. *)
Class CoreEnvOk (CE : CoreEnv) : Prop :=
  empty_is_no_contract : IsSmartContractAddress [] = false.

Lemma elem_with_queued k y jailed A : y ∈ theQueue (with_queued k jailed A) <-> y ∈ theQueue A \/ y = k.
Proof.
  unfold theQueue, with_queued, queue_add. cbn. case_bool_decide as E; [|destruct jailed]; set_solver.
Qed.

Lemma elem_without_queued k y A : y ∈ theQueue (without_queued k A) <-> y ∈ theQueue A /\ y <> k.
Proof. unfold theQueue, without_queued. cbn. rewrite !elem_of_app, !elem_without. tauto. Qed.

Section Invariant.
Context {S : Type} {EI : SystemEI S} {EIok : SystemEIOk S EI} {BH : BlockchainHook}.
Context {MA : StakingMarshalizer} {MAok : StakingMarshalizerOk MA} {CE : CoreEnv} {CEok : CoreEnvOk CE}.
Context (sc : stakingSC) (blsLen : nat) {ME : ModernEpoch sc blsLen}.
Implicit Types (s : S) (A : ledger) (k : bytes) (d rd : StakedDataV2_0).

Abbreviation key := (is_key blsLen).
Abbreviation holds := (holds sc blsLen).

(** Once staking v4 has started the queue is empty. *)
Definition sound A : Prop :=
  consistent A /\ (IsFlagEnabled sc StakingV4StartedFlag = true -> theQueue A = []).

(** ** Changes of one node *)

Lemma sound_intro A A' k d :
  sound A -> nodes A' = <[k := d]> (nodes A) ->
  RewardAddress d <> [] -> (Staked d = true -> Waiting d = false) ->
  (forall y, y ∈ theQueue A' <-> y ∈ theQueue A /\ y <> k \/ y = k /\ Waiting d = true) ->
  StakedNodes (nodesConfig A') = StakedNodes (nodesConfig A) - stakedOf (nodes A !! k) + stakedOf (Some d) ->
  MinNumNodes (nodesConfig A') = MinNumNodes (nodesConfig A) ->
  (IsFlagEnabled sc StakingV4StartedFlag = true -> Waiting d = false) -> sound A'.
Proof.
  intros [C V4] En Rd SW Qu St Mi W4. split; [constructor|].
  - intros y dy. rewrite En. intros [[<- <-]|[_ E]]%lookup_insert_Some; [done|]. by apply (c_nodes A C y).
  - intros y. rewrite Qu, En, (c_queue A C y). destruct (decide (y = k)) as [->|N].
    + rewrite lookup_insert_eq. naive_solver.
    + rewrite lookup_insert_ne by done. naive_solver.
  - by rewrite St, En, (c_counter A C), numStaked_insert.
  - rewrite Mi. apply C.
  - intros F. specialize (V4 F). specialize (W4 F).
    destruct (theQueue A') as [|y l] eqn:E; [done|]. exfalso.
    destruct (Qu y) as [H _]. rewrite V4, W4 in H. destruct H as [[H _]|[_ H]]; [|set_solver|done].
    left.
Qed.

(** The data of a node changes, but not whether it is staked or waits. *)
Lemma sound_update A k d d0 :
  sound A -> nodes A !! k = Some d0 -> RewardAddress d <> [] ->
  Staked d = Staked d0 -> Waiting d = Waiting d0 -> sound (with_node k d A).
Proof.
  intros Sd E Rd Es Ew. pose proof Sd as [C V4].
  destruct (c_nodes A C k d0 E) as [_ SW].
  apply (sound_intro A _ k d); [done|done|done|by rewrite Es, Ew| |cbn|done|].
  - intros y. change (theQueue (with_node k d A)) with (theQueue A). destruct (decide (y = k)) as [->|N].
    + rewrite (c_queue A C k), E, Ew. naive_solver.
    + naive_solver.
  - rewrite E. cbn. rewrite Es. lia.
  - intros F. rewrite Ew. destruct (Waiting d0) eqn:W; [|done]. specialize (V4 F).
    assert (H : k ∈ theQueue A) by (apply (c_queue A C); eauto). rewrite V4 in H. by apply elem_of_nil in H.
Qed.

Lemma registered A k : RewardAddress (nodeData A k) <> [] -> nodes A !! k = Some (nodeData A k).
Proof. unfold nodeData. by destruct (nodes A !! k). Qed.

Lemma staked_registered A k : Staked (nodeData A k) = true -> nodes A !! k = Some (nodeData A k).
Proof. unfold nodeData. by destruct (nodes A !! k). Qed.

Lemma waiting_queued A k : consistent A -> k ∈ theQueue A <-> Waiting (nodeData A k) = true.
Proof.
  intros C. rewrite (c_queue A C k). unfold nodeData. destruct (nodes A !! k) as [d|]; cbn; naive_solver.
Qed.

Lemma stakedOf_nodeData A k : stakedOf (nodes A !! k) = if Staked (nodeData A k) then 1 else 0.
Proof. unfold nodeData. by destruct (nodes A !! k). Qed.

Lemma plus_one A : sound A -> room A ->
  StakedNodes (nodesConfig (plusStaked 1 A)) = StakedNodes (nodesConfig A) + 1.
Proof.
  intros [C _] R. cbn. rewrite (c_counter A C). apply i64_id.
  pose proof (numStaked_size (nodes A)). pose proof (numStaked_nonneg (nodes A)).
  unfold room, maxUint32 in R. lia.
Qed.

Lemma minus_one A k : consistent A -> Staked (nodeData A k) = true ->
  StakedNodes (nodesConfig (minusStaked A)) = StakedNodes (nodesConfig A) - 1.
Proof.
  intros C Es. pose proof (numStaked_pos _ _ _ (staked_registered A k Es) Es) as P.
  unfold minusStaked. rewrite (proj2 (Z.ltb_lt 0 _)); [done|]. by rewrite (c_counter A C).
Qed.

Lemma minusStaked_nodes A : nodes (minusStaked A) = nodes A.
Proof. unfold minusStaked. by destruct (0 <? _). Qed.
Lemma minusStaked_queue A : theQueue (minusStaked A) = theQueue A.
Proof. unfold minusStaked. by destruct (0 <? _). Qed.
Lemma minusStaked_min A : MinNumNodes (nodesConfig (minusStaked A)) = MinNumNodes (nodesConfig A).
Proof. unfold minusStaked. by destruct (0 <? _). Qed.

Lemma queue_bound s A : holds s A -> sound A -> Z.of_nat (length (theQueue A)) <= Z.of_nat (size (nodes A)).
Proof.
  intros (_ & _ & Hq & _) [C _]. pose proof (queue_nodup blsLen s _ _ Hq) as ND.
  rewrite <- size_dom, <- (size_list_to_set (C := gset bytes) (theQueue A)) by done.
  apply inj_le, subseteq_size. intros k. rewrite elem_of_list_to_set, (c_queue A C k), elem_of_dom.
  intros (d & E & _). by exists d.
Qed.

(** ** Staking a node *)

(** Data that is about to replace that of [k], and is the same in what the
    invariant speaks about. *)
Definition replaces A k rd : Prop :=
  Staked rd = Staked (nodeData A k) /\ Waiting rd = Waiting (nodeData A k) /\
  RewardAddress rd <> [] /\ SlashValue rd <> None.

Definition savable rd : Prop := RewardAddress rd <> [] /\ SlashValue rd <> None.

(** The outcome of a method that returns the data to save for [k]. *)
Definition staging s A k rd : Prop :=
  exists A', holds s A' /\ sound (with_node k rd A') /\ savable rd.

Lemma active_sound A A' k rd :
  sound A -> room A -> Staked (nodeData A k) = false -> RewardAddress rd <> [] ->
  nodes A' = nodes A -> nodesConfig A' = nodesConfig (plusStaked 1 A) ->
  (forall y, y ∈ theQueue A' <-> y ∈ theQueue A /\ y <> k) ->
  sound (with_node k (activeStakingFor rd) A').
Proof.
  intros Sd R Es Rr En Ec Eq.
  apply (sound_intro A _ k (activeStakingFor rd)); cbn; [done|by rewrite En|done|done| | | |done].
  - intros y. change (theQueue (with_node k (activeStakingFor rd) A')) with (theQueue A').
    rewrite Eq. naive_solver.
  - rewrite stakedOf_nodeData, Es, Ec, plus_one by done. lia.
  - by rewrite Ec.
Qed.

Lemma waits_sound A A' k rd :
  sound A -> Staked (nodeData A k) = false -> RewardAddress rd <> [] -> Staked rd = false ->
  nodes A' = nodes A -> nodesConfig A' = nodesConfig A ->
  (forall y, y ∈ theQueue A' <-> y ∈ theQueue A \/ y = k) ->
  IsFlagEnabled sc StakingV4StartedFlag = false ->
  sound (with_node k (set_Waiting true rd) A').
Proof.
  intros Sd Es Rr Er En Ec Eq V4.
  apply (sound_intro A _ k (set_Waiting true rd)); cbn; [done|by rewrite En|done| | | |by rewrite Ec|].
  - by rewrite Er.
  - intros y. change (theQueue (with_node k (set_Waiting true rd) A')) with (theQueue A').
    rewrite Eq. destruct (decide (y = k)); naive_solver.
  - rewrite stakedOf_nodeData, Es, Ec, Er. lia.
  - by rewrite V4.
Qed.

Lemma processStakeV1_Ok s A k rd addFirst s' rd' :
  holds s A -> sound A -> room A -> key k -> replaces A k rd -> Staked rd = false ->
  IsFlagEnabled sc StakingV4StartedFlag = false ->
  processStakeV1 sc k rd addFirst s = (s', Ok rd') -> staging s' A k rd'.
Proof.
  intros H Sd R K (Es & Ew & Rr & Sl) Er V4 Run. pose proof Sd as [C _]. rewrite Er in Es.
  unfold processStakeV1 in Run. rewrite Er in Run. run_step Run. apply se_get_Ok in H0 as [-> ->].
  destruct (negb (canStake sc s)).
  - run_step Run. apply se_modify_Ok in H0 as ->. run_step Run.
    destruct (enqueue_spec sc blsLen (eei_AddReturnMessage ("staking is full key put into waiting list " +:+ hex_EncodeToString k) s) A k addFirst) as (s1 & E1 & H1);
      [by apply holds_say|done| |].
    { pose proof (queue_bound s A H Sd). unfold room in R. lia. }
    unfold se_try in H0. rewrite E1 in H0. injection H0 as <- <-.
    run_step Run. apply se_modify_Ok in H0 as ->. apply mret_Ok in Run as [-> ->].
    exists (with_queued k addFirst A). split; [by apply holds_finish|split; [|by split]].
    apply (waits_sound A); try done. intros y. apply elem_with_queued.
  - run_step Run. destruct (dequeue_spec sc blsLen s A k H K) as (s1 & E1 & H1).
    unfold se_try in H0. rewrite E1 in H0. injection H0 as <- <-.
    run_step Run. apply (plusStaked_Ok sc blsLen _ _ _ _ _ H1) in H0; [|apply C].
    apply mret_Ok in Run as [-> ->].
    exists (plusStaked 1 (without_queued k A)). split; [done|split; [|by split]].
    apply (active_sound A); try done. intros y. apply elem_without_queued.
Qed.

Lemma processStake_Ok s A k rd addFirst s' rd' :
  holds s A -> sound A -> room A -> key k -> replaces A k rd ->
  processStake sc k rd addFirst s = (s', Ok rd') -> staging s' A k rd'.
Proof.
  intros H Sd R K Rp Run. pose proof Rp as (Es & Ew & Rr & Sl). pose proof Sd as [C V4].
  destruct (Staked rd) eqn:Er.
  - assert (E : s' = s /\ rd' = rd).
    { unfold processStake, processStakeV1, processStakeV2 in Run. rewrite Er in Run.
      destruct (IsFlagEnabled sc StakingV4StartedFlag); by apply mret_Ok in Run. }
    destruct E as [-> ->]. exists A. split; [done|split; [|by split]].
    apply (sound_update A k rd (nodeData A k)); [done|by apply staked_registered|done|by rewrite Er|done].
  - unfold processStake in Run. destruct (IsFlagEnabled sc StakingV4StartedFlag) eqn:F.
    + unfold processStakeV2 in Run. rewrite Er in Run. run_step Run.
      apply (plusStaked_Ok sc blsLen _ _ _ _ _ H) in H0; [|apply C]. apply mret_Ok in Run as [-> ->].
      exists (plusStaked 1 A). split; [done|split; [|by split]].
      apply (active_sound A); try done; intros y.
      change (theQueue (plusStaked 1 A)) with (theQueue A). rewrite V4 by done. set_solver.
    + by eapply processStakeV1_Ok.
Qed.

(** ** Unstaking a node *)

Lemma tryUnStake_Ok s A k s' rc :
  holds s A -> sound A -> key k -> Staked (nodeData A k) = true ->
  tryUnStake sc k (nodeData A k) s = (s', Ok rc) -> exists A', holds s' A' /\ sound A'.
Proof.
  intros H Sd K Es Run. pose proof Sd as [C V4].
  pose proof (staked_registered A k Es) as En. destruct (c_nodes A C k _ En) as [Rr SW].
  unfold tryUnStake in Run. do 2 run_step Run. apply se_get_Ok in H0 as [-> ->].
  apply failIf_Ok in H1 as [_ ->]. run_step Run.
  apply (minusStaked_Ok sc blsLen _ _ _ _ H) in H0; [|apply C].
  unfold doUnStake, saveOrFail in Run. run_step Run. apply orFail_Ok in H1. apply mret_Ok in Run as [-> _].
  apply (save_Ok sc blsLen _ _ _ _ _ _ H0 K) in H1; [|by eapply nodeData_slash|done].
  eexists. split; [exact H1|].
  apply (sound_intro A _ k (unStakedNow (nodeData A k))); try done.
  - cbn [nodes with_node with_nodes]. by rewrite minusStaked_nodes.
  - intros y. change (theQueue (with_node _ _ (minusStaked A))) with (theQueue (minusStaked A)).
    rewrite minusStaked_queue. specialize (SW Es).
    assert (k ∉ theQueue A) by (rewrite waiting_queued by done; by rewrite SW). set_solver.
  - cbn [nodesConfig with_node with_nodes]. rewrite (minus_one A k) by done. rewrite En. cbn. rewrite Es. lia.
  - apply minusStaked_min.
Qed.

(** What a change of other nodes keeps for the nodes that do not wait. *)
Definition others_kept A A1 : Prop :=
  size (nodes A1) = size (nodes A) /\
  forall k, Waiting (nodeData A k) = false -> nodes A1 !! k = nodes A !! k.

Lemma others_kept_refl A : others_kept A A.
Proof. done. Qed.

(** The node that leaves the front of the queue. *)
Definition moved (A : ledger) (x : bytes) : ledger :=
  with_node x (set_Registered CurrentNonce
    (set_Staking true CurrentNonce 0 DefaultUnstakedEpoch (set_Waiting false (nodeData A x))))
    (plusStaked 1 (without_queued x A)).

Lemma moveFirst_Ok s A s' b :
  holds s A -> sound A -> moveFirstFromWaitingToStaked sc s = (s', Ok b) ->
  (b = false /\ theQueue A = [] /\ s' = s) \/
  (b = true /\ exists x l, theQueue A = x :: l /\ holds s' (moved A x)).
Proof.
  intros H Sd Run. pose proof Sd as [C V4]. unfold moveFirstFromWaitingToStaked in Run.
  run_step Run. apply (head_Ok sc blsLen _ _ _ _ H) in H0 as [-> ->].
  cbn [Length FirstKey headRec] in Run. fold (theQueue A) in Run.
  destruct (theQueue A) as [|x l] eqn:Eq.
  - left. cbn in Run. by apply mret_Ok in Run as [-> ->].
  - right. rewrite (proj2 (Z.eqb_neq _ 0)) in Run by (cbn [length]; lia).
    assert (K : key x) by (eapply queue_key; [exact H|rewrite Eq; left]).
    pose proof H as (_ & _ & (L & _) & _). fold (theQueue A) in L. rewrite Eq in L.
    pose proof (linked_el blsLen s [] x l L) as Ex.
    cbn [nextOf] in Run. rewrite (se_bind_eq _ _ _ _ _ Ex) in Run. cbn [BLSPublicKey mkEl] in Run.
    run_step Run. apply (dequeue_Ok sc blsLen _ _ _ _ _ H K) in H0.
    run_step Run. apply (load_Ok sc blsLen _ _ _ _ _ H0 K) in H1 as [-> ->].
    change (nodeData (without_queued x A) x) with (nodeData A x) in Run.
    case_bool_decide as Er; [by apply se_lift_err_Ok in Run|]. cbn [orb] in Run.
    destruct (Staked (nodeData A x)) eqn:Es; [by apply se_lift_err_Ok in Run|].
    run_step Run. apply (plusStaked_Ok sc blsLen _ _ _ _ _ H0) in H1; [|apply C].
    run_step Run. apply mret_Ok in Run as [-> ->].
    apply (save_Ok sc blsLen _ _ _ _ _ _ H1 K) in H2; [|by eapply nodeData_slash|done].
    split; [done|]. by exists x, l.
Qed.

Lemma moved_sound s A x l :
  holds s A -> sound A -> room A -> theQueue A = x :: l -> RewardAddress (nodeData A x) <> [] ->
  sound (moved A x).
Proof.
  intros H Sd R Eq Rr. pose proof Sd as [C V4].
  assert (W : Waiting (nodeData A x) = true) by (apply waiting_queued; [done|rewrite Eq; left]).
  pose proof (registered A x Rr) as En. destruct (c_nodes A C x _ En) as [_ SW].
  eapply (sound_intro A _ x); [done|done|done|done| | |done|done].
  - intros y. change (theQueue (moved A x)) with (theQueue (without_queued x A)).
    rewrite elem_without_queued. cbn. naive_solver.
  - change (StakedNodes (nodesConfig (moved A x))) with (StakedNodes (nodesConfig (plusStaked 1 A))).
    rewrite plus_one by done. rewrite En. cbn. destruct (Staked (nodeData A x)); [|lia].
    specialize (SW eq_refl). congruence.
Qed.

Lemma moved_others A x : Waiting (nodeData A x) = true -> RewardAddress (nodeData A x) <> [] ->
  others_kept A (moved A x).
Proof.
  intros W Rr. split.
  - cbn. rewrite map_size_insert, (registered A x Rr). done.
  - intros k Wk. cbn. rewrite lookup_insert_ne; [done|]. intros ->. congruence.
Qed.

Lemma moveFirst_sound s A s' b :
  holds s A -> sound A -> room A -> moveFirstFromWaitingToStaked sc s = (s', Ok b) ->
  exists A1, holds s' A1 /\ sound A1 /\ others_kept A A1.
Proof.
  intros H Sd R Run. destruct (moveFirst_Ok s A s' b H Sd Run) as [(_ & _ & ->)|(_ & x & l & Eq & H')].
  - by exists A.
  - pose proof Sd as [C _].
    assert (Hx : x ∈ theQueue A) by (rewrite Eq; left).
    pose proof (proj1 (c_queue A C x) Hx) as (d & E & W).
    assert (Ed : nodeData A x = d) by (unfold nodeData; by rewrite E).
    destruct (c_nodes A C x d E) as [Rr _].
    exists (moved A x). split; [done|split].
    + eapply moved_sound; [exact H|done|done|done|by rewrite Ed].
    + apply moved_others; by rewrite Ed.
Qed.

Lemma kept_nodeData A A1 k : others_kept A A1 -> Waiting (nodeData A k) = false ->
  nodeData A1 k = nodeData A k.
Proof. intros [_ H] W. unfold nodeData at 1. rewrite (H k W). done. Qed.

Lemma room_kept A A1 : others_kept A A1 -> room A -> room A1.
Proof. intros [E _]. unfold room. by rewrite E. Qed.

(** ** Handlers *)

Definition keeps s : Prop := exists A, holds s A /\ sound A.

Lemma keeps_say m s : keeps s -> keeps (eei_AddReturnMessage m s).
Proof. intros (A & H & Sd). exists A. split; [by apply holds_say|done]. Qed.
Lemma keeps_finish b s : keeps s -> keeps (eei_Finish b s).
Proof. intros (A & H & Sd). exists A. split; [by apply holds_finish|done]. Qed.

Lemma save_keeps s A k rd p s' u :
  holds s A -> sound (with_node k rd A) -> key k -> savable rd ->
  saveOrFail sc p k rd s = (s', Ok u) -> keeps s'.
Proof.
  intros H Sd K [Rr Sl] Run. apply orFail_Ok in Run. eexists. split; [|exact Sd]. by eapply save_Ok.
Qed.

Lemma loadOrFail_Ok p s A k s' d : holds s A -> key k ->
  loadOrFail p k s = (s', Ok d) -> s' = s /\ d = nodeData A k.
Proof. intros H K Run. apply orFail_Ok in Run. by eapply load_Ok. Qed.

Lemma orFail_load_Ok f s A k s' d : holds s A -> key k ->
  orFail f (getOrCreateRegisteredData k) s = (s', Ok d) -> s' = s /\ d = nodeData A k.
Proof. intros H K Run. apply orFail_Ok in Run. by eapply load_Ok. Qed.

Lemma replaces_sound A k rd : sound A -> replaces A k rd -> sound (with_node k rd A).
Proof.
  intros Sd (Es & Ew & Rr & _). pose proof Sd as [C V4].
  apply (sound_intro A _ k rd); [done|done|done| | | |done|].
  - rewrite Es, Ew. intros E. by destruct (c_nodes A C k _ (staked_registered A k E)) as [_ SW]; apply SW.
  - intros y. change (theQueue (with_node k rd A)) with (theQueue A).
    rewrite Ew, <- (waiting_queued A k C). destruct (decide (y = k)); naive_solver.
  - rewrite stakedOf_nodeData. cbn. rewrite Es. destruct (Staked (nodeData A k)); lia.
  - intros F. rewrite Ew. destruct (Waiting (nodeData A k)) eqn:W; [|done].
    apply (waiting_queued A k C) in W. rewrite V4 in W by done. by apply elem_of_nil in W.
Qed.

(** Data with other fields changed only. *)
Lemma replaces_self s A k rd : holds s A -> key k -> RewardAddress rd <> [] ->
  Staked rd = Staked (nodeData A k) -> Waiting rd = Waiting (nodeData A k) ->
  SlashValue rd = SlashValue (nodeData A k) -> replaces A k rd.
Proof. intros H K Rr Es Ew Sl. repeat split; [done|done|done|]. rewrite Sl. by eapply nodeData_slash. Qed.

(** The node is neither staked nor queued any more. *)
Lemma idle_sound A A' k rd :
  sound A -> RewardAddress rd <> [] -> Staked rd = false -> Waiting rd = false ->
  nodes A' = nodes A -> (forall y, y ∈ theQueue A' <-> y ∈ theQueue A /\ y <> k) ->
  StakedNodes (nodesConfig A') = StakedNodes (nodesConfig A) - (if Staked (nodeData A k) then 1 else 0) ->
  MinNumNodes (nodesConfig A') = MinNumNodes (nodesConfig A) -> sound (with_node k rd A').
Proof.
  intros Sd Rr Es Ew En Eq Ec Em.
  apply (sound_intro A _ k rd); [done| |done|done| | |done|done].
  - cbn. by rewrite En.
  - intros y. change (theQueue (with_node k rd A')) with (theQueue A'). rewrite Eq, Ew. naive_solver.
  - rewrite stakedOf_nodeData. cbn [nodesConfig with_node with_nodes stakedOf]. rewrite Es, Ec. lia.
Qed.

Lemma not_queued_remove A k : consistent A -> Waiting (nodeData A k) = false ->
  forall y, y ∈ theQueue A <-> y ∈ theQueue A /\ y <> k.
Proof.
  intros C W y. assert (k ∉ theQueue A) by (rewrite waiting_queued by done; by rewrite W).
  split; [|tauto]. intros Hy. split; [done|]. by intros ->.
Qed.

Lemma stake_keeps s A args onlyRegister s' rc :
  holds s A -> sound A -> room A -> key (arg args 0) -> arg args 1 <> [] ->
  stake sc args onlyRegister s = (s', Ok rc) -> keeps s'.
Proof.
  intros H Sd R K Na Run. unfold stake in Run. do 3 run_step Run.
  apply failIf_Ok in H0 as [_ ->]. apply failIf_Ok in H1 as [_ ->].
  apply (loadOrFail_Ok _ _ A) in H2 as [-> ->]; [|done|done].
  run_step Run. apply failIf_Ok in H0 as [_ ->].
  set (rd := set_StakeValue _ _) in Run.
  assert (Rp : replaces A (arg args 0) rd) by by eapply replaces_self.
  run_step Run. run_step Run. apply mret_Ok in Run as [-> _].
  destruct onlyRegister; cbn [negb] in H0.
  - apply mret_Ok in H0 as [-> ->]. eapply save_keeps; [exact H| |exact K| |exact H1].
    + by apply replaces_sound.
    + split; apply Rp.
  - apply orReturn_Ok in H0. destruct (processStake_Ok _ A _ _ _ _ _ H Sd R K Rp H0) as (A' & H' & Sd' & Sv).
    eapply save_keeps; [exact H'|exact Sd'|exact K|exact Sv|exact H1].
Qed.

Lemma checkUnStakeArgs_Ok s A args s' rd :
  holds s A -> key (arg args 0) -> checkUnStakeArgs sc args s = (s', Ok rd) ->
  s' = s /\ rd = nodeData A (arg args 0) /\ RewardAddress rd <> [] /\
  (Staked rd = true \/ Waiting rd = true).
Proof.
  intros H K Run. unfold checkUnStakeArgs in Run. do 3 run_step Run.
  apply failIf_Ok in H0 as [_ ->]. apply failIf_Ok in H1 as [_ ->].
  apply (loadOrFail_Ok _ _ A) in H2 as [-> ->]; [|done|done].
  do 4 run_step Run. apply failIf_Ok in H0 as [Hr ->]. apply failIf_Ok in H1 as [_ ->].
  apply failIf_Ok in H2 as [_ ->]. apply failIf_Ok in H3 as [Hs ->].
  apply mret_Ok in Run as [-> ->]. bool_prop. destruct (Staked _), (Waiting _); naive_solver.
Qed.

Lemma unStakeV1_keeps s A args s' rc :
  holds s A -> sound A -> room A -> key (arg args 0) ->
  unStakeV1 sc args s = (s', Ok rc) -> keeps s'.
Proof.
  intros H Sd R K Run. pose proof Sd as [C V4]. unfold unStakeV1 in Run. run_step Run.
  apply (checkUnStakeArgs_Ok _ A) in H0 as (-> & -> & Rr & SW); [|done|done].
  destruct (Staked (nodeData A (arg args 0))) eqn:Es; cbn [negb] in Run.
  - do 2 run_step Run. apply se_get_Ok in H0 as [-> ->].
    assert (W : Waiting (nodeData A (arg args 0)) = false).
    { destruct (c_nodes A C _ _ (staked_registered A _ Es)) as [_ SW']. by apply SW'. }
    assert (Hm : exists A1, holds x1 A1 /\ sound A1 /\ others_kept A A1).
    { destruct (_ || _); [|apply mret_Ok in H1 as [-> _]; by exists A].
      run_step H1. apply mret_Ok in H1 as [-> _]. apply orFail_Ok in H0. by eapply moveFirst_sound. }
    destruct Hm as (A1 & H' & Sd' & Ok'). pose proof (kept_nodeData A A1 _ Ok' W) as E.
    rewrite <- E in Run, Es. by eapply tryUnStake_Ok.
  - destruct SW as [F|W]; [congruence|]. do 2 run_step Run. apply mret_Ok in Run as [-> _].
    apply orFail_Ok, (dequeue_Ok sc blsLen _ _ _ _ _ H K) in H0.
    eapply save_keeps; [exact H0| |exact K| |exact H1].
    + apply (idle_sound A); try done; [intros y; apply elem_without_queued|]. rewrite Es. cbn. lia.
    + split; [done|]. cbn. by eapply nodeData_slash.
Qed.

Lemma unStake_keeps s A args s' rc :
  holds s A -> sound A -> room A -> key (arg args 0) ->
  unStake sc args s = (s', Ok rc) -> keeps s'.
Proof.
  intros H Sd R K Run. unfold unStake in Run. destruct (IsFlagEnabled sc StakingV4StartedFlag).
  - unfold unStakeV2 in Run. run_step Run.
    apply (checkUnStakeArgs_Ok _ A) in H0 as (-> & -> & Rr & SW); [|done|done].
    destruct (Staked (nodeData A (arg args 0))) eqn:Es; cbn [negb] in Run.
    + by eapply tryUnStake_Ok.
    + run_step Run. apply se_modify_Ok in H0 as ->. apply mret_Ok in Run as [-> _].
      apply keeps_say. by exists A.
  - by eapply unStakeV1_keeps.
Qed.

Lemma unStakeAtEndOfEpoch_keeps s A args s' rc :
  holds s A -> sound A -> key (arg args 0) ->
  unStakeAtEndOfEpoch sc args s = (s', Ok rc) -> keeps s'.
Proof.
  intros H Sd K Run. pose proof Sd as [C V4]. unfold unStakeAtEndOfEpoch in Run.
  destruct (negb (callerIs _ _)); [apply mret_Ok in Run as [-> _]; by exists A|].
  do 2 run_step Run. apply failIf_Ok in H0 as [_ ->].
  apply (loadOrFail_Ok _ _ A) in H1 as [-> ->]; [|done|done].
  run_step Run. apply failIf_Ok in H0 as [Rr ->]. apply bool_decide_eq_false in Rr.
  set (k := arg args 0) in *. set (rd := nodeData A k) in *.
  pose proof (registered A k Rr) as En. destruct (c_nodes A C k _ En) as [_ SW].
  destruct (Jailed rd && negb (Staked rd)).
  { run_step Run. apply se_modify_Ok in H0 as ->. apply mret_Ok in Run as [-> _].
    apply keeps_say. by exists A. }
  destruct (negb (Staked rd) && negb (Waiting rd)) eqn:Idle;
    [apply mret_Ok in Run as [-> _]; by exists A|].
  do 3 run_step Run. apply mret_Ok in Run as [-> _].
  assert (Sv : savable (unStakedNow rd)) by (split; [done|by eapply nodeData_slash]).
  destruct (Staked rd) eqn:Es.
  - assert (W : Waiting rd = false) by by apply SW.
    rewrite W in H1. apply mret_Ok in H1 as [-> _].
    apply (minusStaked_Ok sc blsLen _ _ _ _ H) in H0; [|apply C].
    eapply save_keeps; [exact H0| |exact K|exact Sv|exact H2].
    apply (idle_sound A); [done|done|done|done|apply minusStaked_nodes| | |apply minusStaked_min].
    + intros y. rewrite minusStaked_queue. by apply not_queued_remove.
    + fold rd. rewrite Es. by apply (minus_one A k).
  - apply mret_Ok in H0 as [-> _]. destruct (Waiting rd) eqn:W; [|done].
    apply orFail_Ok, (dequeue_Ok sc blsLen _ _ _ _ _ H K) in H1.
    eapply save_keeps; [exact H1| |exact K|exact Sv|exact H2].
    apply (idle_sound A); try done; [intros y; apply elem_without_queued|].
    fold rd. rewrite Es. cbn. lia.
Qed.

Lemma unBond_Ok s A args s' rc : holds s A -> sound A -> key (arg args 0) ->
  unBond sc args s = (s', Ok rc) ->
  let d := nodeData A (arg args 0) in
  s' = eei_SetStorage (arg args 0) [] s /\ rc = RC_Ok /\
  RewardAddress d <> [] /\ Staked d = false /\ Waiting d = false /\ Jailed d = false /\
  (UnStakedNonce d = 0 \/ getUnBondPeriod sc <= u64 (CurrentNonce - UnStakedNonce d) \/
   UnStakedNonce d < 0) /\
  (IsFlagEnabled sc FixCorrectSmallIntAndGasLimitsFlag = true -> UnStakedNonce d <> 0) /\
  eei_IsValidator (arg args 0) = false.
Proof.
  intros H Sd K Run. unfold unBond in Run. do 3 run_step Run.
  apply failIf_Ok in H0 as [_ ->]. apply failIf_Ok in H1 as [_ ->].
  apply (loadOrFail_Ok _ _ A) in H2 as [-> ->]; [|done|done].
  do 6 run_step Run. apply failIf_Ok in H0 as [F1 ->]. apply failIf_Ok in H1 as [F2 ->].
  apply failIf_Ok in H2 as [F3 ->]. apply failIf_Ok in H3 as [F4 ->].
  apply failIf_Ok in H4 as [F5 ->]. apply failIf_Ok in H5 as [F6 ->].
  do 4 run_step Run. apply se_get_Ok in H0 as [-> ->]. apply failIf_Ok in H1 as [_ ->].
  apply failIf_Ok in H2 as [F7 ->]. apply se_modify_Ok in H3 as ->. apply mret_Ok in Run as [-> ->].
  apply bool_decide_eq_false in F1. unfold isNodeJailedOrWithBadRating in F3.
  apply orb_false_iff in F3 as [F3 _]. apply orb_false_iff in F3 as [F3 _].
  cbn zeta. repeat (split; [done|]). split; [|split; [|done]].
  - apply andb_false_iff in F6 as [F6|F6]; [apply Z.ltb_ge in F6|apply Z.ltb_ge in F6]; lia.
  - intros F. rewrite F in F5. cbn in F5. by apply Z.eqb_neq.
Qed.

Lemma unBond_keeps s A args s' rc :
  holds s A -> sound A -> key (arg args 0) -> unBond sc args s = (s', Ok rc) -> keeps s'.
Proof.
  intros H Sd K Run. pose proof Sd as [C V4].
  destruct (unBond_Ok s A args s' rc H Sd K Run) as (-> & _ & Rr & Es & W & _).
  eexists. split; [by apply clear_spec|]. split; [constructor|]; cbn.
  - intros y d [_ E]%lookup_delete_Some. by apply (c_nodes A C y).
  - intros y. change (theQueue (with_nodes _ A)) with (theQueue A).
    rewrite (not_queued_remove A (arg args 0) C W y), (c_queue A C y).
    setoid_rewrite lookup_delete_Some. naive_solver.
  - rewrite (c_counter A C), (numStaked_delete (nodes A) (arg args 0)), stakedOf_nodeData, Es. lia.
  - apply C.
  - exact V4.
Qed.

(** Handlers that change one node after another. *)
Lemma each_keeps {B} (body : B -> SE S ReturnCode ()) l s A s' u :
  (forall b s A s' u, b ∈ l -> holds s A -> sound A -> body b s = (s', Ok u) -> keeps s') ->
  holds s A -> sound A -> se_for l body s = (s', Ok u) -> keeps s'.
Proof.
  intros Hb H Sd Run. eapply (se_for_Ok keeps body); [|by exists A|exact Run].
  intros b t t' v Hin (B' & H' & Sd') R. by eapply Hb.
Qed.

Lemma jail_keeps s A args s' rc :
  holds s A -> sound A -> Forall key (Arguments args) -> jail sc args s = (s', Ok rc) -> keeps s'.
Proof.
  intros H Sd K Run. unfold jail in Run.
  destruct (negb _); [apply mret_Ok in Run as [-> _]; by exists A|].
  run_step Run. apply mret_Ok in Run as [-> _]. eapply each_keeps; [|exact H|exact Sd|exact H0].
  clear s A H Sd H0. intros k s A s' u Hk H Sd Run.
  rewrite Forall_forall in K. specialize (K k Hk).
  unfold jailOne in Run. run_step Run. apply (loadOrFail_Ok _ _ A) in H0 as [-> ->]; [|done|done].
  run_step Run. apply failIf_Ok in H0 as [Rr ->]. apply bool_decide_eq_false in Rr.
  assert (Rp : replaces A k (set_Jail true (u32 (NumJailed (nodeData A k) + 1)) CurrentRound
    CurrentNonce (UnJailedNonce (nodeData A k)) (nodeData A k))) by by eapply replaces_self.
  eapply save_keeps; [exact H|by apply replaces_sound|exact K|split; apply Rp|exact Run].
Qed.

Lemma unJail_keeps s A args s' rc :
  holds s A -> sound A -> room A -> key (arg args 0) -> unJail sc args s = (s', Ok rc) -> keeps s'.
Proof.
  intros H Sd R K Run. unfold unJail in Run. rewrite (HStake sc blsLen) in Run. cbn [negb] in Run.
  do 3 run_step Run. apply failIf_Ok in H0 as [_ ->]. apply failIf_Ok in H1 as [_ ->].
  apply (loadOrFail_Ok _ _ A) in H2 as [-> ->]; [|done|done].
  do 2 run_step Run. apply failIf_Ok in H0 as [Rr ->]. apply failIf_Ok in H1 as [_ ->].
  apply bool_decide_eq_false in Rr. set (rd := set_Jail _ _ _ _ _ _) in Run.
  assert (Rp : replaces A (arg args 0) rd) by by eapply replaces_self.
  do 2 run_step Run. apply mret_Ok in Run as [-> _]. apply orReturn_Ok in H0.
  destruct (processStake_Ok _ A _ _ _ _ _ H Sd R K Rp H0) as (A' & H' & Sd' & Sv).
  eapply save_keeps; [exact H'|exact Sd'|exact K|exact Sv|exact H1].
Qed.

(** The end of [switchJailedWithWaiting]: a message, or the node unstaked. *)
Lemma switch_run (switched : bool) rd s s' rd' :
  (if negb switched && negb (IsFlagEnabled sc CorrectJailedNotUnStakedEmptyQueueFlag) then
     _ ← say "did not switch as nobody in waiting, but jailed"; mret rd
   else tryRemoveJailedNodeFromStaked sc rd : SE S ReturnCode _) s = (s', Ok rd') ->
  (exists m, s' = eei_AddReturnMessage m s /\ rd' = rd) \/
  (rd' = set_Staking false maxUint64 CurrentNonce CurrentEpoch rd /\
   removeFromStakedNodes sc (E := ReturnCode) s = (s', Ok ())).
Proof.
  assert (U : removeAndSetUnstaked sc (E := ReturnCode) rd s = (s', Ok rd') ->
    rd' = set_Staking false maxUint64 CurrentNonce CurrentEpoch rd /\
    removeFromStakedNodes sc (E := ReturnCode) s = (s', Ok ())).
  { unfold removeAndSetUnstaked. intros Run. run_step Run. apply mret_Ok in Run as [-> ->]. by destruct x0. }
  destruct (_ && _).
  - intros Run. run_step Run. apply se_modify_Ok in H as ->. apply mret_Ok in Run as [-> ->]. eauto.
  - unfold tryRemoveJailedNodeFromStaked. destruct (negb _); [by auto|].
    intros Run. run_step Run. apply se_get_Ok in H as [-> ->]. destruct (canUnStake sc s); [by auto|].
    run_step Run. apply se_modify_Ok in H as ->. apply mret_Ok in Run as [-> ->]. eauto.
Qed.

Lemma switchJailed_keeps s A args s' rc :
  holds s A -> sound A -> room A -> key (arg args 0) ->
  switchJailedWithWaiting sc args s = (s', Ok rc) -> keeps s'.
Proof.
  intros H Sd R K Run. pose proof Sd as [C V4]. unfold switchJailedWithWaiting in Run.
  do 2 run_step Run. apply failIf_Ok in H0 as [_ ->]. apply failIf_Ok in H1 as [_ ->].
  destruct (negb (Nat.eqb _ _)); [apply mret_Ok in Run as [-> _]; by exists A|].
  cbv zeta in Run. set (k := arg args 0) in *.
  run_step Run. apply (orFail_load_Ok _ _ A) in H0 as [-> ->]; [|done|done].
  do 4 run_step Run. apply failIf_Ok in H0 as [Rr ->]. apply failIf_Ok in H1 as [Es ->].
  apply failIf_Ok in H2 as [_ ->]. apply orFail_Ok in H3.
  match type of H3 with _ = (?t, _) => rename t into s1 end.
  apply bool_decide_eq_false in Rr. apply negb_false_iff in Es.
  destruct (c_nodes A C k _ (staked_registered A k Es)) as [_ SW]. specialize (SW Es).
  assert (Hm : exists A1, holds s1 A1 /\ sound A1 /\ others_kept A A1).
  { unfold moveFirstFromWaitingToStakedIfNeeded in H3. run_step H3.
    assert (Ea : getWaitingListElement (createWaitingListKey k) s = (s, Err ErrElementNotFound)).
    { unfold getWaitingListElement. destruct H as (_ & _ & ((_ & _ & _ & Ab) & _) & _).
      rewrite bool_decide_true; [done|]. apply Ab; [done|]. fold (theQueue A).
      rewrite (waiting_queued A k C). by rewrite SW. }
    unfold se_try in H0. rewrite Ea in H0. injection H0 as <- <-. by eapply moveFirst_sound. }
  destruct Hm as (A1 & H' & Sd' & Ok'). pose proof (kept_nodeData A A1 k Ok' SW) as E.
  pose proof Sd' as [C' V4'].
  set (rd := set_Jail _ _ _ _ _ _) in Run.
  assert (Rp : replaces A1 k rd).
  { repeat split; [by rewrite E|by rewrite E|done|]. cbn. by eapply nodeData_slash. }
  do 2 run_step Run. apply mret_Ok in Run as [-> _].
  match type of H0 with _ = (?t, Ok ?d) => rename t into s2, d into rd' end.
  assert (Hu : (rd' = rd /\ holds s2 A1) \/
    (rd' = set_Staking false maxUint64 CurrentNonce CurrentEpoch rd /\ holds s2 (minusStaked A1))).
  { apply switch_run in H0 as [(m & -> & ->)|[-> H0]].
    - left. split; [done|]. by apply holds_say.
    - right. split; [done|]. apply (minusStaked_Ok sc blsLen _ _ _ _ H') in H0; [done|apply C']. }
  destruct Hu as [[-> Hh]|[-> Hh]].
  - eapply save_keeps; [exact Hh|by apply replaces_sound|exact K|split; apply Rp|exact H1].
  - refine (save_keeps _ _ _ _ _ _ _ Hh _ K _ H1); [|split; apply Rp].
    apply (idle_sound A1); [done|apply Rp|done| |apply minusStaked_nodes| | |apply minusStaked_min].
    + cbn. by destruct (nodeData A k).
    + intros y. rewrite minusStaked_queue. apply not_queued_remove; [done|]. by rewrite E.
    + rewrite E, Es. apply (minus_one A1 k); [done|]. by rewrite E.
Qed.

(** ** Addresses and configuration *)

Lemma readdress_keeps s A k reward owner f s' u :
  holds s A -> sound A -> key k -> reward <> [] ->
  orFail f (saveStakingData sc k (set_Addresses reward owner (nodeData A k))) s = (s', Ok u) -> keeps s'.
Proof.
  intros H Sd K Nr Run.
  assert (Rp : replaces A k (set_Addresses reward owner (nodeData A k))) by by eapply replaces_self.
  apply orFail_Ok in Run. eexists. split; [|by apply replaces_sound].
  eapply (save_Ok sc blsLen); [exact H|exact K|apply Rp|apply Rp|exact Run].
Qed.

Lemma changeRewardAddress_keeps s A args s' rc :
  holds s A -> sound A -> Forall key (drop 1 (Arguments args)) -> (0 < walletAddressLen sc)%nat ->
  changeRewardAddress sc args s = (s', Ok rc) -> keeps s'.
Proof.
  intros H Sd K W Run. unfold changeRewardAddress in Run.
  do 4 run_step Run. apply failIf_Ok in H0 as [_ ->]. apply failIf_Ok in H1 as [_ ->].
  apply failIf_Ok in H2 as [Hl ->]. apply mret_Ok in Run as [-> _].
  assert (Nr : arg args 0 <> []).
  { intros E. rewrite E in Hl. cbn in Hl. destruct (walletAddressLen sc); [lia|done]. }
  eapply each_keeps; [|exact H|exact Sd|exact H3].
  clear s A H Sd H3. intros k s A s' u Hk H Sd Run. rewrite Forall_forall in K. specialize (K k Hk).
  unfold changeRewardAddressOne in Run. run_step Run.
  apply (loadOrFail_Ok _ _ A) in H0 as [-> ->]; [|done|done].
  case_bool_decide; [apply mret_Ok in Run as [-> _]; by exists A|].
  eapply readdress_keeps; [exact H|exact Sd|exact K|exact Nr|exact Run].
Qed.

Lemma changeOwner_keeps s A args s' rc :
  holds s A -> sound A -> Forall key (drop 1 (Arguments args)) ->
  changeOwnerAndRewardAddress sc args s = (s', Ok rc) -> keeps s'.
Proof.
  intros H Sd K Run. unfold changeOwnerAndRewardAddress in Run.
  destruct (negb _); [apply mret_Ok in Run as [-> _]; by exists A|].
  do 5 run_step Run. apply failIf_Ok in H0 as [_ ->]. apply failIf_Ok in H1 as [_ ->].
  apply failIf_Ok in H2 as [_ ->]. apply failIf_Ok in H3 as [Hc ->]. apply mret_Ok in Run as [-> _].
  assert (Nr : arg args 0 <> []).
  { intros E. rewrite E, (empty_is_no_contract) in Hc. done. }
  eapply each_keeps; [|exact H|exact Sd|exact H4].
  clear s A H Sd H4. intros k s A s' u Hk H Sd Run. rewrite Forall_forall in K. specialize (K k Hk).
  unfold changeOwnerOne in Run. run_step Run.
  apply (orFail_load_Ok _ _ A) in H0 as [-> ->]; [|done|done].
  do 2 run_step Run. apply failIf_Ok in H0 as [_ ->]. apply failIf_Ok in H1 as [_ ->].
  eapply readdress_keeps; [exact H|exact Sd|exact K|exact Nr|exact Run].
Qed.

(** The keys of [setOwnersOnAddresses] are at the even positions. *)
Fixpoint evens (l : list bytes) : list bytes :=
  match l with a :: _ :: l => a :: evens l | _ => [] end.

Lemma setOwnerOne_keeps i k owner s A s' u :
  holds s A -> sound A -> key k -> setOwnerOne sc i k owner s = (s', Ok u) -> keeps s'.
Proof.
  intros H Sd K Run. unfold setOwnerOne in Run. cbv zeta in Run.
  run_step Run. run_step H0. unfold se_try in H1. rewrite (load_spec sc blsLen s A k H K) in H1.
  injection H1 as <- <-. apply mret_Ok in H0 as [-> ->].
  case_bool_decide as Er; [apply mret_Ok in Run as [-> _]; by exists A|].
  set (rd := set_Addresses _ owner _) in *.
  assert (Rp : replaces A k rd) by by eapply replaces_self.
  destruct (save_spec sc blsLen s A k rd H K) as (s1 & E1 & H1'); [apply Rp|apply Rp|].
  run_step Run. apply mret_Ok in Run as [-> _]. run_step H0. unfold se_try in H1.
  rewrite (se_bind_eq _ _ _ _ _ E1) in H1. injection H1 as <- <-.
  apply mret_Ok in H0 as [-> ->]. exists (with_node k rd A). split; [done|by apply replaces_sound].
Qed.

Lemma setOwners_loop_keeps n : forall l i s A s' u, (length l <= n)%nat ->
  holds s A -> sound A -> Forall key (evens l) -> setOwners_loop sc i l s = (s', Ok u) -> keeps s'.
Proof.
  induction n as [|n IH]; intros [|k [|owner l]] i s A s' u Hn H Sd K Run;
    try (apply mret_Ok in Run as [-> _]; by exists A); [cbn in Hn; lia|].
  cbn [setOwners_loop] in Run. cbn [evens] in K. apply Forall_cons in K as [Kk K].
  run_step Run. destruct (setOwnerOne_keeps _ _ _ _ A _ _ H Sd Kk H0) as (A' & H' & Sd').
  eapply IH; [|exact H'|exact Sd'|exact K|exact Run]. cbn in Hn. lia.
Qed.

Lemma setOwners_keeps s A args s' rc :
  holds s A -> sound A -> Forall key (evens (Arguments args)) ->
  setOwnersOnAddresses sc args s = (s', Ok rc) -> keeps s'.
Proof.
  intros H Sd K Run. unfold setOwnersOnAddresses in Run.
  do 4 run_step Run. apply failIf_Ok in H0 as [_ ->]. apply failIf_Ok in H1 as [_ ->].
  apply failIf_Ok in H2 as [_ ->]. apply mret_Ok in Run as [-> _].
  eapply setOwners_loop_keeps; [done|exact H|exact Sd|exact K|exact H3].
Qed.

Lemma sound_config A c : sound A -> StakedNodes c = StakedNodes (nodesConfig A) -> 0 < MinNumNodes c ->
  sound (with_config c A).
Proof.
  intros [C V4] Es Em. split; [constructor|done]; try apply C; [|done].
  cbn. rewrite Es. apply C.
Qed.

Lemma updateConfigMinNodes_keeps s A args s' rc :
  holds s A -> sound A -> updateConfigMinNodes sc args s = (s', Ok rc) -> keeps s'.
Proof.
  intros H Sd Run. unfold updateConfigMinNodes in Run. do 6 run_step Run.
  apply failIf_Ok in H0 as [_ ->]. apply se_get_Ok in H1 as [-> ->].
  apply failIf_Ok in H2 as [_ ->]. apply failIf_Ok in H3 as [Np ->]. apply failIf_Ok in H4 as [_ ->].
  apply mret_Ok in Run as [-> _]. apply Z.leb_gt in Np.
  apply (setConfig_Ok sc blsLen _ _ _ _ _ H) in H5; [|done].
  eexists. split; [exact H5|]. rewrite (holds_config sc blsLen s A H). by apply sound_config.
Qed.

Lemma updateConfigMaxNodes_keeps s A args s' rc :
  holds s A -> sound A -> updateConfigMaxNodes sc args s = (s', Ok rc) -> keeps s'.
Proof.
  intros H Sd Run. pose proof Sd as [C _]. unfold updateConfigMaxNodes in Run. do 8 run_step Run.
  apply failIf_Ok in H0 as [_ ->]. apply failIf_Ok in H1 as [_ ->]. apply se_get_Ok in H2 as [-> ->].
  apply failIf_Ok in H3 as [_ ->]. apply failIf_Ok in H4 as [_ ->]. apply failIf_Ok in H5 as [_ ->].
  apply se_modify_Ok in H6 as ->. apply mret_Ok in Run as [-> _].
  rewrite (holds_config sc blsLen s A H) in H7.
  apply (setConfig_Ok sc blsLen _ A _ _ _ ltac:(by apply holds_finish)) in H7; [|apply C].
  eexists. split; [exact H7|]. apply sound_config; [done|done|apply C].
Qed.
End Invariant.
