(* ===== verification/StakingEpochEnd.v ===== *)
(** * The queue at the end of an epoch

    The handlers that walk the whole queue - taking nodes from it, cleaning it,
    repairing its head - keep the ledger consistent; with the other handlers
    this gives the invariant of [Execute].

    ** What single calls of the staking contract do to its ledger

    Total descriptions: under the guards of the code the call answers Ok and
    the ledger changes as stated. *)

From Stdlib Require Import ZArith Lia String Ascii.
From stdpp Require Import base gmap list strings fin_maps.
From S2P Require Import Prelude GoValues SystemEI StakingData WaitingList Staking StakingStore QueueSpec.
From S2P Require Import StakingLedger StakingInvariant.

Section EpochEnd.
Context {S : Type} {EI : SystemEI S} {EIok : SystemEIOk S EI} {BH : BlockchainHook}.
Context {MA : StakingMarshalizer} {MAok : StakingMarshalizerOk MA} {CE : CoreEnv} {CEok : CoreEnvOk CE}.
Context (sc : stakingSC) (blsLen : nat) {ME : ModernEpoch sc blsLen}.
Implicit Types (s : S) (A : ledger) (k : bytes) (d rd : StakedDataV2_0).

Abbreviation key := (is_key blsLen).
Abbreviation holds := (holds sc blsLen).
Abbreviation sound := (sound sc).
Abbreviation keeps := (keeps sc blsLen).

(** ** Reads *)

Lemma countWithMinStake_state l s s' n :
  countWithMinStake (S := S) l s = (s', Ok n) -> s' = s.
Proof.
  unfold countWithMinStake. generalize 0 as m. revert s. induction l as [|k l IH]; intros s m Run.
  - by apply mret_Ok in Run as [-> _].
  - apply se_bind_Ok in Run as (s1 & d & R1 & R2). unfold getOrCreateRegisteredData in R1.
    injection R1 as <- _. by apply IH in R2.
Qed.

Lemma checkValidatorFunds_state m owner p s s' r :
  checkValidatorFunds sc m owner p s = (s', Ok r) -> s' = s.
Proof.
  unfold checkValidatorFunds. destruct (m !! owner); [by intros [-> _]%mret_Ok|].
  intros Run. run_step Run. apply se_get_Ok in H as [-> ->].
  case_bool_decide; [by apply mret_Ok in Run as [-> _]|]. run_step Run.
  unfold se_lift in H0. injection H0 as <- _. run_step Run.
  unfold se_guard in H0. injection H0 as <- _. cbv zeta in Run.
  destruct (_ <=? _); [by apply mret_Ok in Run as [-> _]|].
  run_step Run. apply countWithMinStake_state in H0 as ->. by apply mret_Ok in Run as [-> _].
Qed.

(** ** resetLastUnJailedFromQueue *)

Lemma resetLast_keeps s A args s' rc :
  holds s A -> sound A -> resetLastUnJailedFromQueue sc args s = (s', Ok rc) -> keeps s'.
Proof.
  intros H Sd Run. pose proof Sd as [C V4]. unfold resetLastUnJailedFromQueue in Run.
  destruct (negb _); [apply mret_Ok in Run as [-> _]; by exists A|].
  do 4 run_step Run. apply failIf_Ok in H0 as [_ ->]. apply failIf_Ok in H1 as [_ ->].
  apply failIf_Ok in H2 as [_ ->]. apply orFail_Ok, (head_Ok sc blsLen _ _ _ _ H) in H3 as [-> ->].
  case_bool_decide as El; [apply mret_Ok in Run as [-> _]; by exists A|].
  run_step Run. apply mret_Ok in Run as [-> _]. apply orFail_Ok in H0.
  set (w := wl_with_LastJailed [] (headRec (jailedQueue A) (restQueue A))) in *.
  assert (Nj : jailedQueue A <> []) by (intros E; apply El; cbn; by rewrite E).
  destruct (saveHead_spec w s) as (s1 & E1 & Ag & Hw).
  { unfold w. cbn. by destruct (jailedQueue A). }
  rewrite E1 in H0. injection H0 as <-.
  pose proof H as (_ & _ & (L & Hh & B) & _).
  exists (with_queue ([], theQueue A) A). split.
  - assert (Q : queue blsLen s1 [] (theQueue A)).
    { apply (queue_intro blsLen s1 [] (theQueue A) w); [|exact Hw|done|exact B].
      eapply (linked_ext sc blsLen); [|exact L]. intros x _. apply Ag. intros F. by apply (wk_not_head x). }
    apply (holds_queue_agree sc blsLen s); [|exact Q|exact H].
    eapply agree_weaken; [|exact Ag]. intros k <-. by right.
  - assert (Eq : theQueue (with_queue ([], theQueue A) A) = theQueue A) by done.
    split; [constructor|by rewrite Eq]; apply C.
Qed.

(** ** Taking nodes out of the queue *)

Lemma queued_facts A x : consistent A -> x ∈ theQueue A ->
  nodes A !! x = Some (nodeData A x) /\ RewardAddress (nodeData A x) <> [] /\
  Waiting (nodeData A x) = true /\ Staked (nodeData A x) = false.
Proof.
  intros C Hx. pose proof (proj1 (waiting_queued A x C) Hx) as W.
  assert (E : nodes A !! x = Some (nodeData A x)).
  { unfold nodeData in *. by destruct (nodes A !! x). }
  destruct (c_nodes A C x _ E) as [Rr SW]. repeat split; [done..|].
  destruct (Staked (nodeData A x)); [|done]. by rewrite SW in W.
Qed.

Definition leaves A x d : ledger := without_queued x (with_node x d A).

Lemma leaves_queue A x d y : y ∈ theQueue (leaves A x d) <-> y ∈ theQueue A /\ y <> x.
Proof. unfold leaves. by rewrite elem_without_queued. Qed.

Lemma leaves_nodeData A x d y : y <> x -> nodeData (leaves A x d) y = nodeData A y.
Proof. intros N. unfold nodeData. cbn. by rewrite lookup_insert_ne. Qed.

Lemma leaves_size A x d : nodes A !! x = Some (nodeData A x) ->
  size (nodes (leaves A x d)) = size (nodes A).
Proof. intros E. cbn. by rewrite map_size_insert, E. Qed.

(** The rest of the keys of a walk, when the first has left the queue. *)
Lemma rest_queued A x d (l : list (bytes * StakedDataV2_0)) :
  x ∉ map fst l -> Forall (fun p => p.1 ∈ theQueue A /\ p.2 = nodeData A p.1) l ->
  Forall (fun p => p.1 ∈ theQueue (leaves A x d) /\ p.2 = nodeData (leaves A x d) p.1) l.
Proof.
  rewrite !Forall_forall. intros Nx Hl p Hp. destruct (Hl p Hp) as [Hq Hd].
  assert (N : p.1 <> x).
  { intros E. apply Nx. rewrite <- E. by apply (list_elem_of_fmap_2 fst). }
  by rewrite leaves_queue, leaves_nodeData.
Qed.

Lemma save_and_leave s A x d s1 s2 u1 u2 :
  holds s A -> key x -> SlashValue d <> None -> RewardAddress d <> [] ->
  saveStakingData sc x d s = (s1, Ok u1) -> removeFromWaitingList sc x s1 = (s2, Ok u2) ->
  holds s2 (leaves A x d).
Proof.
  intros H K Sl Rr R1 R2. apply (save_Ok sc blsLen _ _ _ _ _ _ H K Sl Rr) in R1.
  by apply (dequeue_Ok sc blsLen _ _ _ _ _ R1 K) in R2.
Qed.

Lemma leave_and_save s A x d s1 s2 u1 u2 :
  holds s A -> key x -> SlashValue d <> None -> RewardAddress d <> [] ->
  removeFromWaitingList sc x s = (s1, Ok u1) -> saveStakingData sc x d s1 = (s2, Ok u2) ->
  holds s2 (leaves A x d).
Proof.
  intros H K Sl Rr R1 R2. apply (dequeue_Ok sc blsLen _ _ _ _ _ H K) in R1.
  by apply (save_Ok sc blsLen _ _ _ _ _ _ R1 K Sl Rr) in R2.
Qed.

(** The nodes of a walk over the queue. *)
Definition walked A (l : list (bytes * StakedDataV2_0)) : Prop :=
  NoDup (map fst l) /\ Forall (fun p => p.1 ∈ theQueue A /\ p.2 = nodeData A p.1) l.

Lemma walked_zip s A (d : waitingListReturnData) : holds s A ->
  blsKeys d = theQueue A -> stakedDataList d = map (nodeData A) (theQueue A) ->
  walked A (zip (blsKeys d) (stakedDataList d)).
Proof.
  intros (_ & _ & Hq & _) -> ->. pose proof (queue_nodup blsLen s _ _ Hq) as ND. split.
  - fold (theQueue A) in ND. change (NoDup (zip (theQueue A) (map (nodeData A) (theQueue A))).*1).
    by rewrite fst_zip by by rewrite length_map.
  - apply Forall_forall. intros p Hp.
    apply list_elem_of_lookup in Hp as (i & Hi). apply lookup_zip_with_Some in Hi as (x & d' & -> & E1 & E2).
    cbn. rewrite list_lookup_fmap, E1 in E2. injection E2 as <-.
    split; [|done]. by apply list_elem_of_lookup_2 in E1.
Qed.

Lemma walked_rev A l : walked A l -> walked A (rev l).
Proof.
  intros [ND F]. split.
  - by rewrite <- (Permutation_rev l).
  - by apply Forall_rev.
Qed.

Lemma walked_next A x dx l d : walked A ((x, dx) :: l) ->
  x ∈ theQueue A /\ dx = nodeData A x /\ walked (leaves A x d) l.
Proof.
  intros [ND F]. cbn in ND. apply NoDup_cons in ND as [Nx ND]. apply Forall_cons in F as [[Hx Hd] F].
  repeat split; [done|done|done|]. by apply rest_queued.
Qed.

Lemma walked_skip A p l : walked A (p :: l) -> walked A l.
Proof. intros [ND F]. cbn in ND. apply NoDup_cons in ND as [_ ND]. by apply Forall_cons in F as [_ F]. Qed.

(** ** stakeNodesFromQueue *)

(** The counter is behind by the [n] nodes staked so far. *)
Definition owing (n : Z) A : Prop :=
  sound (with_config (cfg_with_StakedNodes (StakedNodes (nodesConfig A) + n) (nodesConfig A)) A).

Lemma owing_consistent n A x : owing n A -> x ∈ theQueue A ->
  nodes A !! x = Some (nodeData A x) /\ RewardAddress (nodeData A x) <> [] /\
  Staked (nodeData A x) = false.
Proof.
  intros [C _] Hx.
  destruct (queued_facts (with_config _ A) x C Hx) as (E & Rr & _ & Es). by repeat split.
Qed.

Lemma owing_step n A x : owing n A -> x ∈ theQueue A ->
  owing (n + 1) (leaves A x (activeStakingFor (nodeData A x))).
Proof.
  intros Ow Hx. destruct (owing_consistent n A x Ow Hx) as (E & Rr & Es).
  apply (sound_intro sc blsLen _ _ x (activeStakingFor (nodeData A x)) Ow); [done|done|done| | |done|done].
  - intros y. change (y ∈ theQueue (leaves A x (activeStakingFor (nodeData A x))) <->
      y ∈ theQueue A /\ y <> x \/ y = x /\ false = true). rewrite leaves_queue. naive_solver.
  - cbn [nodes nodesConfig with_config stakedOf]. rewrite E. cbn. rewrite Es. lia.
Qed.

Lemma owing_bound n A : owing n A -> StakedNodes (nodesConfig A) + n <= Z.of_nat (size (nodes A)).
Proof. intros [C _]. pose proof (c_counter _ C) as E. cbn in E. rewrite E. apply numStaked_size. Qed.

Lemma stakeNodes_loop_Ok l : forall s A lim price m n s' n',
  holds s A -> owing n A -> room A -> 0 <= StakedNodes (nodesConfig A) -> 0 <= n -> walked A l ->
  stakeNodesFromQueue_loop sc l lim price m n s = (s', Ok n') ->
  exists A', holds s' A' /\ owing n' A' /\ 0 <= n' /\ size (nodes A') = size (nodes A) /\
    nodesConfig A' = nodesConfig A.
Proof.
  induction l as [|[x dx] l IH]; intros s A lim price m n s' n' H Ow R Hs Hn W Run;
    cbn [stakeNodesFromQueue_loop] in Run; [apply mret_Ok in Run as [-> ->]; by exists A|].
  destruct (lim <=? n); [apply mret_Ok in Run as [-> ->]; by exists A|].
  run_step Run. destruct x1 as [m' u]. apply orFail_Ok, checkValidatorFunds_state in H0 as ->.
  destruct (0 <? u).
  { eapply IH; [exact H|exact Ow|exact R|exact Hs|exact Hn|by eapply walked_skip|exact Run]. }
  cbv zeta in Run. destruct (walked_next A x dx l (activeStakingFor dx) W) as (Hx & -> & W').
  destruct (owing_consistent n A x Ow Hx) as (E & Rr & Es).
  do 4 run_step Run. apply orFail_Ok in H0, H1. apply se_modify_Ok in H2 as ->, H3 as ->.
  match type of H1 with _ = (?t, _) => rename t into s2 end.
  assert (H' : holds s2 (leaves A x (activeStakingFor (nodeData A x)))).
  { eapply (save_and_leave s A x); [exact H|by eapply queue_key| |exact Rr|exact H0|exact H1].
    cbn. eapply (nodeData_slash sc blsLen); [exact H|by eapply queue_key]. }
  assert (En : u64 (n + 1) = n + 1).
  { apply u64_id. pose proof (owing_bound n A Ow). unfold room, maxUint32 in R. lia. }
  rewrite En in Run.
  edestruct IH as (A' & HA & OwA & N' & Sz & Cf); [| | | | | |exact Run|].
  - by do 2 apply (holds_finish sc blsLen).
  - by apply owing_step.
  - unfold room. by rewrite leaves_size.
  - exact Hs.
  - lia.
  - exact W'.
  - exists A'. rewrite Sz, Cf, leaves_size by done. done.
Qed.

Lemma stakeNodes_keeps s A args s' rc :
  holds s A -> sound A -> room A -> stakeNodesFromQueue sc args s = (s', Ok rc) -> keeps s'.
Proof.
  intros H Sd R Run. pose proof Sd as [C V4]. unfold stakeNodesFromQueue in Run. cbv zeta in Run.
  do 5 run_step Run. apply failIf_Ok in H0 as [_ ->]. apply failIf_Ok in H1 as [_ ->].
  apply failIf_Ok in H2 as [_ ->]. apply failIf_Ok in H3 as [_ ->].
  apply orFail_Ok, (walk_Ok sc blsLen _ _ _ _ H) in H4 as (-> & Eb & Ed).
  case_bool_decide.
  { run_step Run. apply se_modify_Ok in H1 as ->. apply mret_Ok in Run as [-> _].
    apply (keeps_say sc blsLen). by exists A. }
  do 2 run_step Run. apply mret_Ok in Run as [-> _].
  assert (Hs : 0 <= StakedNodes (nodesConfig A)) by (rewrite (c_counter A C); apply numStaked_nonneg).
  assert (Ow0 : owing 0 A) by (unfold owing; rewrite Z.add_0_r; by destruct A as [? ? ? []]).
  destruct (stakeNodes_loop_Ok _ _ _ _ _ _ _ _ _ H Ow0 R Hs (Z.le_refl 0)
    (walked_zip _ _ _ H Eb Ed) H1) as (A' & H' & Ow & N' & Sz & Cf).
  pose proof (owing_bound _ _ Ow) as Bo. rewrite Sz, Cf in Bo. unfold room, maxUint32 in R.
  apply (plusStaked_Ok sc blsLen _ _ _ _ _ H') in H2; [|rewrite Cf; apply C].
  eexists. split; [exact H2|]. unfold plusStaked. rewrite !i64_id; [exact Ow|lia|].
  rewrite i64_id; rewrite ?Cf; lia.
Qed.

(** ** cleanAdditionalQueue *)

Lemma leaves_idle_sound A x : sound A -> x ∈ theQueue A -> sound (leaves A x (unStakedNow (nodeData A x))).
Proof.
  intros Sd Hx. destruct (queued_facts A x (proj1 Sd) Hx) as (E & Rr & _ & Es).
  apply (sound_intro sc blsLen _ _ x (unStakedNow (nodeData A x)) Sd); [done|done|done| | |done|done].
  - intros y. rewrite leaves_queue. cbn. naive_solver.
  - rewrite E. cbn. rewrite Es. lia.
Qed.

Lemma cleanQueue_loop_Ok l : forall s A m lo mo s' r,
  holds s A -> sound A -> walked A l ->
  cleanAdditionalQueue_loop sc l m lo mo s = (s', Ok r) -> keeps s'.
Proof.
  induction l as [|[x dx] l IH]; intros s A m lo mo s' r H Sd W Run;
    cbn [cleanAdditionalQueue_loop] in Run; [apply mret_Ok in Run as [-> _]; by exists A|].
  cbv zeta in Run. run_step Run. destruct x1 as [m' u]. apply checkValidatorFunds_state in H0 as ->.
  destruct (u =? 0).
  { eapply IH; [exact H|exact Sd|by eapply walked_skip|exact Run]. }
  destruct (walked_next A x dx l (unStakedNow (nodeData A x)) W) as (Hx & -> & W').
  destruct (queued_facts A x (proj1 Sd) Hx) as (E & Rr & Wx & Es).
  assert (K : key x) by by eapply queue_key.
  run_step Run. run_step Run.
  pose proof (dequeue_Ok sc blsLen _ _ _ _ _ H K H0) as Hd.
  apply (load_Ok sc blsLen _ _ _ _ _ Hd K) in H1 as [-> ->].
  change (nodeData (without_queued x A) x) with (nodeData A x) in Run. run_step Run.
  match type of H1 with _ = (?t, _) => rename t into s2 end.
  assert (H' : holds s2 (leaves A x (unStakedNow (nodeData A x)))).
  { eapply (leave_and_save s A x); [exact H|exact K|by eapply nodeData_slash|exact Rr|exact H0|exact H1]. }
  destruct (mo !! _); (eapply IH; [exact H'|by apply leaves_idle_sound|exact W'|exact Run]).
Qed.

Lemma finishAll_keeps (lo : list bytes) (mo : bytes -> list bytes) s s' u :
  keeps s -> se_for lo (fun owner => _ ← finish (E := ReturnCode) owner; se_for (mo owner) finish) s = (s', Ok u) ->
  keeps s'.
Proof.
  intros K Run. eapply (se_for_Ok keeps); [|exact K|exact Run].
  intros b t t' v _ Kt R. run_step R. apply se_modify_Ok in H as ->.
  eapply (se_for_Ok keeps); [|by apply (keeps_finish sc blsLen)|exact R].
  intros b' t1 t2 v' _ K1 R1. apply se_modify_Ok in R1 as ->. by apply (keeps_finish sc blsLen).
Qed.

Lemma cleanQueue_keeps s A args s' rc :
  holds s A -> sound A -> cleanAdditionalQueue sc args s = (s', Ok rc) -> keeps s'.
Proof.
  intros H Sd Run. unfold cleanAdditionalQueue in Run.
  do 5 run_step Run. apply failIf_Ok in H0 as [_ ->]. apply failIf_Ok in H1 as [_ ->].
  apply failIf_Ok in H2 as [_ ->]. apply failIf_Ok in H3 as [_ ->].
  apply orFail_Ok, (walk_Ok sc blsLen _ _ _ _ H) in H4 as (-> & Eb & Ed).
  case_bool_decide.
  { run_step Run. apply se_modify_Ok in H1 as ->. apply mret_Ok in Run as [-> _].
    apply (keeps_say sc blsLen). by exists A. }
  run_step Run. destruct x1 as [lo mo]. run_step Run. apply mret_Ok in Run as [-> _].
  apply orFail_Ok in H1. eapply (finishAll_keeps lo (fun owner => default [] (mo !! owner))); [|exact H2].
  eapply cleanQueue_loop_Ok; [exact H|exact Sd| |exact H1].
  by apply walked_rev, (walked_zip s).
Qed.

(** ** Repairing the queue *)

Lemma fixLoop_spec s A Q : forall P y fuel f,
  holds s A -> theQueue A = P ++ y :: Q -> (length Q + 2 <= fuel)%nat ->
  fixWaitingListQueueSize_loop fuel (headRec (jailedQueue A) (restQueue A)) (wk y)
    (Z.of_nat (length P) + 1) f s
  = (s, Ok (Z.of_nat (length (theQueue A)), lastOf (theQueue A),
            f || existsb (fun z => bool_decide (lastOf (jailedQueue A) = wk z)) (y :: Q))).
Proof.
  induction Q as [|q Q IH]; intros P y fuel f H EL Hf;
    (destruct fuel as [|fuel]; [lia|]); cbn [fixWaitingListQueueSize_loop];
    rewrite (bool_decide_false (wk y = [])) by done; cbn [negb andb];
    pose proof H as (_ & _ & (L & Hh & B) & _); fold (theQueue A) in L, B;
    assert (K : key y) by (eapply queue_key; [exact H|rewrite EL; set_solver]);
    cbn [Length headRec]; fold (theQueue A);
    rewrite (proj2 (Z.leb_le (Z.of_nat (length P) + 1) _))
      by (rewrite EL, length_app; cbn [length]; lia).
  - step (linked_el blsLen s P y [] ltac:(by rewrite <- EL)). cbn [BLSPublicKey mkEl NextKey nextOf].
    step (load_spec sc blsLen s A y H K). rewrite bool_decide_true by done.
    cbn [existsb LastJailedKey headRec]. rewrite orb_false_r, EL, lastOf_snoc, length_app. cbn [length].
    unfold mret, se_ret. do 4 f_equal. lia.
  - step (linked_el blsLen s P y (q :: Q) ltac:(by rewrite <- EL)). cbn [BLSPublicKey mkEl NextKey nextOf].
    step (load_spec sc blsLen s A y H K). rewrite bool_decide_false by done.
    rewrite (copy_key_key blsLen y q);
      [|exact K|eapply queue_key; [exact H|rewrite EL; set_solver]].
    rewrite u32_id.
    2: { rewrite EL, length_app in B. cbn [length] in B. unfold maxUint32 in B. lia. }
    replace (Z.of_nat (length P) + 1 + 1) with (Z.of_nat (length (P ++ [y])) + 1)
      by (rewrite length_app; cbn [length]; lia).
    rewrite IH; [|done|by rewrite EL, <- app_assoc|cbn [length] in Hf; lia].
    cbn [existsb LastJailedKey headRec]. by rewrite <- orb_assoc.
Qed.

Lemma fixLoop_all s A y Q f : holds s A -> theQueue A = y :: Q ->
  fixWaitingListQueueSize_loop (Datatypes.S (Z.to_nat (Z.of_nat (length (theQueue A)))))
    (headRec (jailedQueue A) (restQueue A)) (nextOf (theQueue A)) 1 f s
  = (s, Ok (Z.of_nat (length (theQueue A)), lastOf (theQueue A),
            f || existsb (fun z => bool_decide (lastOf (jailedQueue A) = wk z)) (theQueue A))).
Proof.
  intros H E. rewrite E at 2 5. cbn [nextOf].
  apply (fixLoop_spec s A Q [] y); [exact H|exact E|rewrite Nat2Z.id, E; cbn; lia].
Qed.

Lemma lastOf_jailed_found A : jailedQueue A <> [] ->
  existsb (fun z => bool_decide (lastOf (jailedQueue A) = wk z)) (theQueue A) = true.
Proof.
  intros N. destruct (exists_last N) as (P & j & E). apply existsb_exists. exists j.
  split; [|by rewrite E, lastOf_snoc, bool_decide_true].
  apply list_elem_of_In. unfold theQueue. rewrite E. set_solver.
Qed.

(** A queue that is in order is left as it is. *)
Lemma fixSize_keeps s A args s' rc :
  holds s A -> sound A -> fixWaitingListQueueSize sc args s = (s', Ok rc) -> keeps s'.
Proof.
  intros H Sd Run. unfold fixWaitingListQueueSize in Run.
  do 5 run_step Run. apply failIf_Ok in H0 as [_ ->]. apply failIf_Ok in H1 as [_ ->].
  apply failIf_Ok in H2 as [_ ->]. apply orFailWith_Ok in H3. apply (holds_useGas sc blsLen _ _ _ _ _ H3) in H.
  apply orFail_Ok, (head_Ok sc blsLen _ _ _ _ H) in H4 as [-> ->].
  cbn [Length headRec] in Run. fold (theQueue A) in Run.
  destruct (_ <=? 1) eqn:E1; [apply mret_Ok in Run as [-> _]; by exists A|]. apply Z.leb_gt in E1.
  run_step Run. apply orFail_Ok in H0. cbn [FirstKey LastJailedKey headRec] in H0. fold (theQueue A) in H0.
  destruct (list_cons_or_nil (theQueue A)) as [E|(y & Q & E)]; [rewrite E in E1; cbn in E1; lia|].
  rewrite (fixLoop_all _ A y Q _ H E) in H0. injection H0 as <- <-.
  set (w := wl_with_Last _ _) in Run.
  assert (Ew : w = headRec (jailedQueue A) (restQueue A)) by done.
  assert (Ef : bool_decide (lastOf (jailedQueue A) = []) ||
    existsb (fun z => bool_decide (lastOf (jailedQueue A) = wk z)) (theQueue A) = true).
  { destruct (decide (jailedQueue A = [])) as [->|N]; [done|]. by rewrite lastOf_jailed_found, orb_true_r. }
  cbv beta iota zeta in Run. rewrite Ef in Run. cbn [negb] in Run. rewrite Ew in Run.
  run_step Run. apply mret_Ok in Run as [-> _]. apply orFail_Ok in H0.
  match type of H0 with _ ?t = _ => set (s1 := t) in * end.
  destruct (saveHead_spec (headRec (jailedQueue A) (restQueue A)) s1) as (s2 & E2 & Ag & Hw).
  { cbn. fold (theQueue A). by rewrite E. }
  rewrite E2 in H0. injection H0 as <-. pose proof H as (_ & _ & (L & Hh & B) & _).
  exists A. split; [|done].
  replace A with (with_queue (jailedQueue A, restQueue A) A) by by destruct A.
  apply (holds_queue_agree sc blsLen s1); [| |done].
  - eapply agree_weaken; [|exact Ag]. intros k <-. by right.
  - apply (queue_intro blsLen _ _ _ (headRec (jailedQueue A) (restQueue A))); [|exact Hw|done|exact B].
    eapply (linked_ext sc blsLen); [|exact L]. intros x' _. apply Ag. intros F. by apply (wk_not_head x').
Qed.

(** No key is missing from the queue. *)
Lemma addMissing_fails s A args s' rc :
  holds s A -> sound A -> key (arg args 0) -> addMissingNodeToQueue sc args s = (s', Ok rc) -> False.
Proof.
  intros H Sd K Run. unfold addMissingNodeToQueue in Run.
  do 7 run_step Run. apply failIf_Ok in H0 as [_ ->]. apply failIf_Ok in H1 as [_ ->].
  apply failIf_Ok in H2 as [_ ->]. apply orFailWith_Ok in H3. apply (holds_useGas sc blsLen _ _ _ _ _ H3) in H.
  apply failIf_Ok in H4 as [_ ->]. apply orFail_Ok in H5.
  pose proof H as (_ & _ & ((_ & _ & _ & Ab) & _) & _).
  assert (Hq : arg args 0 ∈ theQueue A).
  { destruct (decide (arg args 0 ∈ theQueue A)) as [|N]; [done|]. specialize (Ab _ K N).
    unfold getWaitingListElement in H5. rewrite Ab, bool_decide_true in H5 by done. done. }
  unfold getWaitingListElement in H5. injection H5 as <- _.
  apply orFail_Ok, (walk_Ok sc blsLen _ _ _ _ H) in H6 as (-> & Eb & _).
  run_step Run. apply failIf_Ok in H0 as [F _]. rewrite Eb in F. by rewrite bool_decide_true in F.
Qed.

(** ** unStakeAllNodesFromQueue

    The queue is taken apart without being relinked: until its last element
    is gone, only the registrations and the absence of the others hold. *)

Definition drained s A : Prop :=
  registers blsLen s (nodes A) /\ getConfig sc s = nodesConfig A /\ Forall key (theQueue A) /\
  (forall x, key x -> x ∉ theQueue A -> storageAt (wk x) s = []).

Lemma holds_drained s A : holds s A -> drained s A.
Proof.
  intros H. pose proof H as (_ & _ & ((_ & K & _ & Ab) & _) & Hc).
  split; [by eapply holds_registers|]. by split_and!.
Qed.

Lemma drained_empty s A : drained s A -> theQueue A = [] -> holds (eei_SetStorage waitingListHeadKey [] s) A.
Proof.
  intros (Rg & Hc & _ & Ab) E. pose proof (set_agree waitingListHeadKey [] s) as Ag.
  unfold theQueue in E. apply app_eq_nil in E as [Ej Er].
  destruct (registers_agree blsLen _ _ _ (nodes A) Ag) as [Hn Hk]; [|done|].
  { intros k K <-. apply (key_not_queue sc blsLen _ K). by right. }
  split; [done|split; [done|split]].
  - rewrite Ej, Er. split; [|split; [|by vm_compute]].
    + split; [constructor|split; [constructor|split]].
      * intros P x Q F. by destruct P.
      * intros x Kx _. rewrite storageAt_set_ne by done. apply Ab; [done|]. unfold theQueue. rewrite Ej, Er. apply not_elem_of_nil.
    + unfold head_is, getWaitingListHead. by rewrite storageAt_set_eq.
  - rewrite <- Hc. apply getConfig_ext. by apply storageAt_set_ne.
Qed.

Lemma drain_one s A x s1 u : drained s A -> sound A -> x ∈ theQueue A ->
  saveStakingData sc x (unStakedNow (nodeData A x)) s = (s1, Ok u) ->
  drained (eei_SetStorage (wk x) [] s1) (leaves A x (unStakedNow (nodeData A x))).
Proof.
  intros (Rg & Hc & Kq & Ab) Sd Hx R1. set (d := unStakedNow (nodeData A x)) in *.
  destruct (queued_facts A x (proj1 Sd) Hx) as (E & Rr & _ & _).
  assert (K : key x) by (by eapply Forall_forall in Kq).
  assert (Ns : SlashValue d <> None).
  { pose proof (proj1 Rg x K) as Rx. rewrite E in Rx. destruct Rx as [Rx _]. apply reg_is_slash in Rx. exact Rx. }
  destruct (saveStakingData_spec sc (HStake sc blsLen) (HV2 sc blsLen) x d s Ns Rr) as (s1' & E1 & Ag & Rx & St).
  rewrite E1 in R1. injection R1 as <-. pose proof (set_agree (wk x) [] s1') as Ag2.
  assert (Sq : forall y, key y -> storageAt (wk y) s1' = storageAt (wk y) s).
  { intros y Ky. apply Ag. intros F. apply (key_not_queue sc blsLen x K). left. by exists y. }
  split; [|split; [|split]].
  - apply (registers_agree blsLen _ _ _ _ Ag2).
    + intros k Kk <-. apply (key_not_queue sc blsLen _ Kk). left. by exists x.
    + by apply (registers_saved blsLen s).
  - change (nodesConfig (leaves A x d)) with (nodesConfig A). rewrite <- Hc.
    rewrite (getConfig_ext sc s1'); [apply getConfig_ext, Ag|by apply storageAt_set_ne, not_eq_sym, wk_not_config].
    intros F. by apply (key_not_config sc blsLen x K).
  - rewrite Forall_forall in *. intros y Hy. apply Kq. by apply leaves_queue in Hy as [Hy _].
  - intros y Ky Ny. destruct (decide (y = x)) as [->|N]; [apply storageAt_set_eq|].
    rewrite storageAt_set_ne by (intros F; by apply N, wk_inj). rewrite Sq by done. apply Ab; [done|].
    intros Hy. apply Ny. by apply leaves_queue.
Qed.

Lemma unStakeAll_loop_Ok l : forall s A lo mo s' r, drained s A -> sound A -> walked A l ->
  (forall y, y ∈ theQueue A -> y ∈ map fst l) -> unStakeAll_loop sc l lo mo s = (s', Ok r) ->
  exists A', drained s' A' /\ sound A' /\ theQueue A' = [].
Proof.
  induction l as [|[x dx] l IH]; intros s A lo mo s' r Dr Sd W All Run; cbn [unStakeAll_loop] in Run.
  - apply mret_Ok in Run as [-> _]. exists A. split; [done|split; [done|]].
    destruct (theQueue A) as [|y q]; [done|]. specialize (All y (list_elem_of_here _ _)). by apply elem_of_nil in All.
  - destruct (walked_next A x dx l (unStakedNow (nodeData A x)) W) as (Hx & -> & W').
    run_step Run. unfold doUnStake, saveOrFail in H. run_step H. apply orFail_Ok in H0. apply mret_Ok in H as [-> ->].
    rewrite bool_decide_true in Run by done. cbn [negb] in Run. run_step Run. apply se_modify_Ok in H as ->.
    pose proof (drain_one s A x _ _ Dr Sd Hx H0) as Dr'.
    assert (All' : forall y, y ∈ theQueue (leaves A x (unStakedNow (nodeData A x))) -> y ∈ map fst l).
    { intros y [Hy N]%leaves_queue. specialize (All y Hy). cbn in All. by apply elem_of_cons in All as [|]. }
    destruct (mo !! _); (eapply IH; [exact Dr'|by apply leaves_idle_sound|exact W'|exact All'|exact Run]).
Qed.

(** The delegation contracts that are told that their nodes left write to
    their own storage only. *)
Definition quietOwners (args : ContractCallInput) : Prop := forall owner keys,
  quiet (executeOnStakeAtEndOfEpoch (S := S) owner keys (default [] (RecipientAddr args))).

Lemma unStakeAll_keeps s A args s' rc :
  holds s A -> sound A -> quietOwners args -> unStakeAllNodesFromQueue sc args s = (s', Ok rc) -> keeps s'.
Proof.
  intros H Sd Q Run. unfold unStakeAllNodesFromQueue in Run.
  do 4 run_step Run. apply failIf_Ok in H0 as [_ ->]. apply failIf_Ok in H1 as [_ ->]. apply failIf_Ok in H2 as [_ ->].
  apply orFail_Ok, (walk_Ok sc blsLen _ _ _ _ H) in H3 as (-> & Eb & Ed).
  case_bool_decide as Ek; [apply mret_Ok in Run as [-> _]; by exists A|]. clear Ek.
  apply se_bind_Ok in Run as (s1 & [lo mo] & H1 & Run). run_step Run. apply se_modify_Ok in H0 as ->.
  apply se_bind_Ok in Run as (s2 & u & H2 & Run). apply mret_Ok in Run as [-> _].
  destruct (unStakeAll_loop_Ok _ s A [] ∅ s1 (lo, mo) (holds_drained s A H) Sd (walked_zip _ _ _ H Eb Ed))
    as (A' & Dr & Sd' & Eq); [|exact H1|].
  { intros y Hy. rewrite Eb, Ed. change (y ∈ (zip (theQueue A) (map (nodeData A) (theQueue A))).*1).
    by rewrite fst_zip by by rewrite length_map. }
  exists A'. split; [|done]. eapply (holds_nowhere sc blsLen); [|by apply drained_empty].
  match type of H2 with se_for _ ?body ?t = _ => assert (Qf : quiet (se_for lo body)) end.
  { apply quiet_for. intros owner. apply quiet_if; intros _; [apply quiet_ret|].
    apply quiet_bind; [apply Q|]. intros rc'. apply quiet_if; intros _; [apply quiet_lift|apply quiet_ret]. }
  match type of H2 with _ ?t = _ => specialize (Qf t) end. by rewrite H2 in Qf.
Qed.

(** ** init *)

(** Keys that are none of the ledger. *)
Definition freeKey (k : bytes) : Prop := ~ key k /\ ~ queueKeys blsLen k /\ k <> nodesConfigKey.

(** The contract is initialised once, before anybody registers, with keys of
    its own. *)
Definition initOk (args : ContractCallInput) A : Prop :=
  nodes A = ∅ /\ 0 < i64 (minNumNodes sc) /\
  Forall freeKey [ownerKey; default [] (CallerAddr args); go_bytes ("epoch_" +:+ itoa CurrentEpoch)].

Lemma set_free s A k v : holds s A -> freeKey k -> holds (eei_SetStorage k v s) A.
Proof.
  intros H (N1 & N2 & N3). apply (holds_agree sc blsLen (eq k) s); [apply set_agree|..|done].
  - by intros k' K <-.
  - by intros k' K <-.
  - congruence.
Qed.

Lemma empty_sound A : nodes A = ∅ -> theQueue A = [] -> 0 < MinNumNodes (nodesConfig A) ->
  StakedNodes (nodesConfig A) = 0 -> sound A.
Proof.
  intros En Eq Mi St. split; [|done]. constructor; [| |by rewrite En, St|done].
  - intros k d. by rewrite En, lookup_empty.
  - intros k. rewrite Eq, En, elem_of_nil. split; [done|]. intros (d & E & _). by rewrite lookup_empty in E.
Qed.

Lemma init_keeps s A args s' rc : holds s A -> sound A -> initOk args A -> init sc args s = (s', Ok rc) -> keeps s'.
Proof.
  intros H Sd (En & Mi & F) Run. apply Forall_cons in F as [F1 F]. apply Forall_cons in F as [F2 F].
  apply Forall_cons in F as [F3 _]. unfold init in Run. cbv zeta in Run. run_step Run. apply se_get_Ok in H0 as [-> ->].
  do 5 run_step Run. apply failIf_Ok in H0 as [_ ->]. apply se_modify_Ok in H1 as ->. apply se_modify_Ok in H2 as ->.
  apply se_modify_Ok in H4 as ->. apply mret_Ok in Run as [-> _].
  apply (setConfig_Ok sc blsLen _ A) in H3; [|by apply set_free; [apply set_free|]|done].
  eexists. split; [apply set_free; [exact H3|done]|]. apply empty_sound; [done| |done|done].
  destruct (theQueue A) as [|y q] eqn:Eq; [exact Eq|]. destruct (c_queue A (proj1 Sd) y) as [Hy _].
  destruct Hy as (d & Ed & _); [rewrite Eq; left|]. by rewrite En, lookup_empty in Ed.
Qed.

(** ** The invariant of the contract *)

(** The BLS keys of a call have the length of keys, and a key is registered
    with a reward address: what the validator contract, the caller, checks. *)
Definition well_formed_call (args : ContractCallInput) : Prop :=
  let f := Function args in
  (f ∈ ["stake"; "register"]%string -> key (arg args 0) /\ arg args 1 <> []) /\
  (f ∈ ["unStake"; "unBond"; "unJail"; "switchJailedWithWaiting"; "unStakeAtEndOfEpoch";
        "addMissingNodeToQueue"]%string -> key (arg args 0)) /\
  (f = "jail"%string -> Forall key (Arguments args)) /\
  (f ∈ ["changeRewardAddress"; "changeOwnerAndRewardAddress"]%string ->
     Forall key (drop 1 (Arguments args))) /\
  (f = "setOwnersOnAddresses"%string -> Forall key (evens (Arguments args))).

Lemma quiet_keeps (m : SE S ReturnCode ReturnCode) s A s' rc :
  quiet m -> holds s A -> sound A -> m s = (s', Ok rc) -> keeps s'.
Proof.
  intros Q H Sd Run. exists A. split; [|done]. eapply (holds_nowhere sc blsLen); [|exact H].
  specialize (Q s). by rewrite Run in Q.
Qed.

(** The function of a call is in a list of names. *)
Ltac named := match goal with E : Function _ = _ |- _ => rewrite E end;
  repeat first [apply list_elem_of_here | apply list_elem_of_further].

Ltac next_case Run :=
  match type of Run with
  | (if bool_decide ?P then _ else _) _ = _ =>
      destruct (decide P);
      [rewrite (bool_decide_true P) in Run by assumption | rewrite (bool_decide_false P) in Run by assumption]
  end.

Lemma switch_keeps s A args s' rc :
  holds s A -> sound A -> room A -> (0 < walletAddressLen sc)%nat -> well_formed_call args ->
  (Function args = InitFunctionName -> initOk args A) ->
  (Function args = "unStakeAllNodesFromQueue"%string -> quietOwners args) ->
  Execute_switch sc args s = (s', Ok rc) -> keeps s'.
Proof.
  intros H Sd R W (W1 & W2 & W3 & W4 & W5) Ni Nu Run. unfold Execute_switch in Run. cbv zeta in Run.
  assert (Vw : forall m : SE S ReturnCode ReturnCode, quiet m -> m s = (s', Ok rc) -> keeps s')
    by (intros m Q E; by apply (quiet_keeps m s A s' rc)).
  next_case Run; [eapply init_keeps; [exact H|exact Sd|by apply Ni|exact Run]|].
  next_case Run; [eapply (stake_keeps sc blsLen); [exact H|exact Sd|exact R|apply W1; named|apply W1; named|exact Run]|].
  next_case Run; [eapply (stake_keeps sc blsLen); [exact H|exact Sd|exact R|apply W1; named|apply W1; named|exact Run]|].
  next_case Run; [eapply (unStake_keeps sc blsLen); [exact H|exact Sd|exact R|apply W2; named|exact Run]|].
  next_case Run; [eapply (unBond_keeps sc blsLen); [exact H|exact Sd|apply W2; named|exact Run]|].
  next_case Run; [eapply Vw; [apply quiet_get_view|exact Run]|].
  next_case Run; [eapply Vw; [apply quiet_isStaked|exact Run]|].
  next_case Run; [eapply Vw; [apply quiet_fail|exact Run]|].
  next_case Run; [eapply (jail_keeps sc blsLen); [exact H|exact Sd|by apply W3|exact Run]|].
  next_case Run; [eapply (unJail_keeps sc blsLen); [exact H|exact Sd|exact R|apply W2; named|exact Run]|].
  next_case Run; [eapply (changeRewardAddress_keeps sc blsLen); [exact H|exact Sd|apply W4; named|exact W|exact Run]|].
  next_case Run; [eapply Vw; [apply quiet_changeValidatorKey|exact Run]|].
  next_case Run; [eapply (switchJailed_keeps sc blsLen); [exact H|exact Sd|exact R|apply W2; named|exact Run]|].
  next_case Run; [eapply Vw; [apply quiet_getIndex|exact Run]|].
  next_case Run; [eapply Vw; [apply quiet_getSize|exact Run]|].
  next_case Run; [eapply Vw; [apply quiet_getRewardAddress|exact Run]|].
  next_case Run; [eapply Vw; [apply quiet_getBLSKeyStatus|exact Run]|].
  next_case Run; [eapply Vw; [apply quiet_getRemaining|exact Run]|].
  next_case Run; [eapply Vw; [apply quiet_getNonces|exact Run]|].
  next_case Run; [eapply (updateConfigMinNodes_keeps sc blsLen); [exact H|exact Sd|exact Run]|].
  next_case Run; [eapply (setOwners_keeps sc blsLen); [exact H|exact Sd|by apply W5|exact Run]|].
  next_case Run; [eapply Vw; [apply quiet_getOwner|exact Run]|].
  next_case Run; [eapply (updateConfigMaxNodes_keeps sc blsLen); [exact H|exact Sd|exact Run]|].
  next_case Run; [eapply stakeNodes_keeps; [exact H|exact Sd|exact R|exact Run]|].
  next_case Run; [eapply (unStakeAtEndOfEpoch_keeps sc blsLen); [exact H|exact Sd|apply W2; named|exact Run]|].
  next_case Run; [eapply Vw; [apply quiet_getTotal|exact Run]|].
  next_case Run; [eapply resetLast_keeps; [exact H|exact Sd|exact Run]|].
  next_case Run; [eapply cleanQueue_keeps; [exact H|exact Sd|exact Run]|].
  next_case Run; [eapply (changeOwner_keeps sc blsLen); [exact H|exact Sd|apply W4; named|exact Run]|].
  next_case Run; [eapply fixSize_keeps; [exact H|exact Sd|exact Run]|].
  next_case Run; [exfalso; eapply addMissing_fails; [exact H|exact Sd|apply W2; named|exact Run]|].
  next_case Run; [eapply unStakeAll_keeps; [exact H|exact Sd|by apply Nu|exact Run]|].
  apply mret_Ok in Run as [-> _]. by exists A.
Qed.
End EpochEnd.

Section Calls.
Context {S : Type} {EI : SystemEI S} {EIok : SystemEIOk S EI} {BH : BlockchainHook}.
Context {MA : StakingMarshalizer} {MAok : StakingMarshalizerOk MA} {CE : CoreEnv} {CEok : CoreEnvOk CE}.
Context (sc : stakingSC) (blsLen : nat) {ME : ModernEpoch sc blsLen}.
Implicit Types (s : S) (A : ledger) (k : bytes) (d rd : StakedDataV2_0).

Abbreviation key := (is_key blsLen).
Abbreviation holds := (holds sc blsLen).
Abbreviation sound := (sound sc).

(** A call of a function by an address, complete and without value. *)
Definition call_of (f : string) (caller : bytes) (args : ContractCallInput) : Prop :=
  CheckIfNil args = None /\ ESDTTransfers args = 0%nat /\ Function args = f /\
  CallerAddr args = Some caller /\ InitFunctionName <> f.

Lemma Execute_run f caller args s : call_of f caller args ->
  Execute sc args s = runHandler (Execute_switch sc args) s.
Proof.
  intros (N & E & _). unfold Execute. by rewrite N, E.
Qed.

Lemma callerIs_true f caller args : call_of f caller args -> callerIs args caller = true.
Proof. intros (_ & _ & _ & C & _). unfold callerIs. rewrite C. by rewrite bool_decide_true. Qed.

Lemma canStake_spec s A : holds s A ->
  canStake sc s = IsFlagEnabled sc StakingV4StartedFlag
                  || (StakedNodes (nodesConfig A) <? MaxNumNodes (nodesConfig A)).
Proof.
  intros H. unfold canStake. rewrite (holds_config sc blsLen s A H).
  by destruct (IsFlagEnabled sc StakingV4StartedFlag).
Qed.

(** ** stake *)

(** Where [stake] puts a node that is not staked yet. *)
Definition placed A k rd : ledger :=
  if IsFlagEnabled sc StakingV4StartedFlag then
    with_node k (activeStakingFor rd) (plusStaked 1 A)
  else if StakedNodes (nodesConfig A) <? MaxNumNodes (nodesConfig A) then
    with_node k (activeStakingFor rd) (plusStaked 1 (without_queued k A))
  else with_node k (set_Waiting true (set_Registered CurrentNonce rd)) (with_queued k false A).

Lemma activeStaking_registered rd : activeStakingFor (set_Registered CurrentNonce rd) = activeStakingFor rd.
Proof. done. Qed.

Lemma placed_sound A k rd : sound A -> room A -> Staked (nodeData A k) = false ->
  RewardAddress rd <> [] -> Staked rd = false -> sound (placed A k rd).
Proof.
  intros Sd R Es Rr Er. unfold placed. destruct (IsFlagEnabled sc StakingV4StartedFlag) eqn:V4.
  - apply (active_sound sc blsLen A); [done..|]. intros y. pose proof Sd as [_ E]. specialize (E V4).
    change (theQueue (plusStaked 1 A)) with (theQueue A). rewrite E. set_solver.
  - destruct (StakedNodes (nodesConfig A) <? MaxNumNodes (nodesConfig A)).
    + apply (active_sound sc blsLen A); [done..|]. intros y. apply elem_without_queued.
    + apply (waits_sound sc blsLen A); [done..| |done]. intros y. apply elem_with_queued.
Qed.

Lemma processStake_run s A k rd :
  holds s A -> sound A -> room A -> key k -> Staked rd = false ->
  RewardAddress rd <> [] -> SlashValue rd <> None ->
  exists s' rd', processStake sc k rd false s = (s', Ok rd') /\
    (forall s'' u, saveStakingData sc k rd' s' = (s'', Ok u) -> holds s'' (placed A k rd)) /\
    (exists s'', saveStakingData sc k rd' s' = (s'', Ok ())).
Proof.
  intros H Sd R K Er Rr Sl. pose proof Sd as [C _].
  assert (Fin : forall s' A' rd', holds s' A' -> RewardAddress rd' = RewardAddress rd ->
    SlashValue rd' = SlashValue rd -> with_node k rd' A' = placed A k rd ->
    (forall s'' u, saveStakingData sc k rd' s' = (s'', Ok u) -> holds s'' (placed A k rd)) /\
    (exists s'', saveStakingData sc k rd' s' = (s'', Ok ()))).
  { intros s' A' rd' H' E1 E2 E3. rewrite <- E1 in Rr. rewrite <- E2 in Sl.
    destruct (save_spec sc blsLen s' A' k rd' H' K Sl Rr) as (s1 & R1 & H1).
    split; [|by exists s1]. intros s'' u R2. rewrite R1 in R2. injection R2 as <-. by rewrite <- E3. }
  unfold processStake, processStakeV1, processStakeV2, placed in *. rewrite Er.
  destruct (IsFlagEnabled sc StakingV4StartedFlag) eqn:V4.
  - destruct (plusStaked_spec sc blsLen (E := vm_error) s A 1 H) as (s1 & R1 & H1); [apply C|].
    exists s1, (activeStakingFor rd). split; [by step R1|]. by apply (Fin s1 (plusStaked 1 A)).
  - rewrite (se_bind_eq _ _ s s s) by done. rewrite (canStake_spec s A H), V4. cbn [orb].
    destruct (StakedNodes _ <? _); cbn [negb].
    + destruct (dequeue_spec sc blsLen s A k H K) as (s1 & R1 & H1).
      destruct (plusStaked_spec sc blsLen (E := vm_error) s1 (without_queued k A) 1 H1)
        as (s2 & R2 & H2); [apply C|].
      exists s2, (activeStakingFor rd). split; [|by eapply Fin].
      rewrite (se_bind_eq _ _ s s1 (Ok ())) by (unfold se_try; by rewrite R1). by step R2.
    + rewrite (se_bind_eq _ _ s (eei_AddReturnMessage
        ("staking is full key put into waiting list " +:+ hex_EncodeToString k) s) ()) by done.
      edestruct (enqueue_spec sc blsLen) as (s1 & R1 & H1); [by apply (holds_say sc blsLen)|exact K| |].
      { pose proof (queue_bound sc blsLen s A H Sd). unfold room in R. lia. }
      eexists _, _. split.
      * rewrite (se_bind_eq _ _ _ s1 (Ok ())) by (unfold se_try; by rewrite R1).
        rewrite (se_bind_eq _ _ s1 (eei_Finish [waiting] s1) ()) by done. reflexivity.
      * eapply Fin; [by apply (holds_finish sc blsLen)|done|done|done].
Qed.

Lemma stake_run s A args :
  holds s A -> sound A -> room A -> call_of "stake" (stakeAccessAddr sc) args ->
  (3 <= numArgs args)%nat -> key (arg args 0) -> arg args 1 <> [] ->
  Staked (nodeData A (arg args 0)) = false ->
  isNodeJailedOrWithBadRating (S := S) (nodeData A (arg args 0)) (arg args 0) = false ->
  exists s', Execute sc args s = (s', RC_Ok) /\
    holds s' (placed A (arg args 0)
      (set_StakeValue (stakeValue sc) (set_Addresses (arg args 1) (arg args 2) (nodeData A (arg args 0))))) /\
    sound (placed A (arg args 0)
      (set_StakeValue (stakeValue sc) (set_Addresses (arg args 1) (arg args 2) (nodeData A (arg args 0))))).
Proof.
  intros H Sd R Call Na K Nr Es Jb. rewrite (Execute_run _ _ _ _ Call).
  pose proof (callerIs_true _ _ _ Call) as Ca. destruct Call as (_ & _ & Ef & _ & Ni).
  set (rd := set_StakeValue _ _).
  destruct (processStake_run s A (arg args 0) rd H Sd R K Es) as (s1 & rd' & R1 & Hs & s2 & R2);
    [done|by eapply (nodeData_slash sc blsLen)|].
  exists s2. split; [|split; [by eapply Hs|by apply placed_sound]].
  assert (Run : stake sc args false s = (s2, Ok RC_Ok)).
  { unfold stake. rewrite Ca. cbn [negb]. rewrite (se_bind_eq _ _ s s ()) by done.
    rewrite (proj2 (Nat.ltb_ge _ _) Na). rewrite (se_bind_eq _ _ s s ()) by done.
    rewrite (se_bind_eq _ _ s s (nodeData A (arg args 0))).
    2: { unfold loadOrFail, orFail, orFailWith. by rewrite (load_spec sc blsLen s A _ H K). }
    rewrite Jb. rewrite (se_bind_eq _ _ s s ()) by done. fold rd. cbn [negb].
    rewrite (se_bind_eq _ _ s s1 rd') by (unfold orReturn, se_mapErr; by rewrite R1).
    rewrite (se_bind_eq _ _ s1 s2 ()); [done|].
    unfold saveOrFail, orFail, orFailWith. by rewrite R2. }
  unfold runHandler, Execute_switch. cbv zeta. rewrite Ef.
  rewrite bool_decide_false by done. rewrite bool_decide_true by done. by rewrite Run.
Qed.

(** ** unStake *)

Lemma moveFirst_run s A x l : holds s A -> sound A -> theQueue A = x :: l ->
  exists s', moveFirstFromWaitingToStaked sc s = (s', Ok true) /\ holds s' (moved A x).
Proof.
  intros H Sd Eq. pose proof Sd as [C V4].
  assert (K : key x) by (eapply (queue_key sc blsLen); [exact H|rewrite Eq; set_solver]).
  assert (Hx : x ∈ theQueue A) by (rewrite Eq; set_solver).
  destruct (queued_facts A x C Hx) as (En & Rr & W & Es).
  pose proof H as (_ & _ & (L & Hh & _) & _). fold (theQueue A) in L. rewrite Eq in L.
  destruct (dequeue_spec sc blsLen s A x H K) as (s1 & R1 & H1).
  pose proof (load_spec sc blsLen s1 (without_queued x A) x H1 K) as Ld.
  destruct (plusStaked_spec sc blsLen (E := vm_error) s1 _ 1 H1) as (s2 & R2 & H2); [apply C|].
  destruct (save_spec sc blsLen s2 _ x (set_Registered CurrentNonce (set_Staking true CurrentNonce 0
    DefaultUnstakedEpoch (set_Waiting false (nodeData A x)))) H2 K) as (s3 & R3 & H3).
  3: { exists s3. split; [|exact H3].
       unfold moveFirstFromWaitingToStaked. step Hh. cbn [Length FirstKey headRec].
       fold (theQueue A). rewrite Eq. rewrite (proj2 (Z.eqb_neq _ 0)) by (cbn [length]; lia).
       cbn [nextOf]. step (linked_el blsLen s [] x l L). cbn [BLSPublicKey mkEl]. step R1. step Ld.
       change (nodeData (without_queued x A) x) with (nodeData A x).
       rewrite (bool_decide_false (RewardAddress _ = [])) by done. rewrite Es. cbn [orb].
       step R2. by step R3. }
  - cbn. by eapply (nodeData_slash sc blsLen).
  - done.
Qed.

Lemma tryUnStake_run s A k rd :
  holds s A -> key k -> RewardAddress rd <> [] -> SlashValue rd <> None -> 0 < MinNumNodes (nodesConfig A) ->
  0 < i64 (i64 (StakedNodes (nodesConfig A) - JailedNodes (nodesConfig A)) - MinNumNodes (nodesConfig A)) ->
  exists s', tryUnStake sc k rd s = (s', Ok RC_Ok) /\ holds s' (with_node k (unStakedNow rd) (minusStaked A)).
Proof.
  intros H K Rr Sl M Sp.
  destruct (minusStaked_spec sc blsLen (E := ReturnCode) s A H M) as (s1 & R1 & H1).
  destruct (save_spec sc blsLen s1 (minusStaked A) k (unStakedNow rd) H1 K Sl Rr) as (s2 & R2 & H2).
  exists s2. split; [|exact H2]. unfold tryUnStake. rewrite (se_bind_eq _ _ s s s) by done.
  unfold canUnStake, numSpareNodes. rewrite (holds_config sc blsLen s A H).
  rewrite (proj2 (Z.ltb_lt _ _) Sp). cbn [negb]. rewrite (se_bind_eq _ _ s s ()) by done. step R1.
  unfold doUnStake. rewrite (se_bind_eq _ _ s1 s2 ()); [done|].
  unfold saveOrFail, orFail, orFailWith. by rewrite R2.
Qed.

(** Enough validators stay when one more is staked and one leaves. *)
Definition spare A : Prop :=
  0 < i64 (i64 (StakedNodes (nodesConfig (plusStaked 1 A)) - JailedNodes (nodesConfig A))
           - MinNumNodes (nodesConfig A)).

Lemma unStake_run s A args x l :
  holds s A -> sound A -> call_of "unStake" (stakeAccessAddr sc) args -> (2 <= numArgs args)%nat ->
  key (arg args 0) -> let k := arg args 0 in Staked (nodeData A k) = true ->
  arg args 1 = RewardAddress (nodeData A k) ->
  isNodeJailedOrWithBadRating (S := S) (nodeData A k) k = false ->
  IsFlagEnabled sc StakingV4StartedFlag = false -> theQueue A = x :: l ->
  StakedNodes (nodesConfig A) <= MaxNumNodes (nodesConfig A) -> spare A ->
  exists s', Execute sc args s = (s', RC_Ok) /\
    holds s' (with_node k (unStakedNow (nodeData A k)) (minusStaked (moved A x))).
Proof.
  intros H Sd Call Na K k Es Ea Jb V4 Eq Mx Sp. rewrite (Execute_run _ _ _ _ Call).
  pose proof (callerIs_true _ _ _ Call) as Ca. destruct Call as (_ & _ & Ef & _ & Ni).
  pose proof Sd as [C _]. destruct (c_nodes A C k _ (staked_registered A k Es)) as [Rr SW].
  destruct (moveFirst_run s A x l H Sd Eq) as (s1 & R1 & H1).
  destruct (tryUnStake_run s1 (moved A x) k (nodeData A k) H1 K Rr) as (s2 & R2 & H2);
    [by eapply (nodeData_slash sc blsLen)|apply C|exact Sp|].
  exists s2. split; [|exact H2].
  assert (Ck : checkUnStakeArgs sc args s = (s, Ok (nodeData A k))).
  { unfold checkUnStakeArgs. rewrite Ca. cbn [negb]. rewrite (se_bind_eq _ _ s s ()) by done.
    rewrite (proj2 (Nat.ltb_ge _ _) Na). rewrite (se_bind_eq _ _ s s ()) by done.
    rewrite (se_bind_eq _ _ s s (nodeData A k)).
    2: { unfold loadOrFail, orFail, orFailWith. by rewrite (load_spec sc blsLen s A _ H K). }
    rewrite (bool_decide_false _ Rr). rewrite (se_bind_eq _ _ s s ()) by done.
    rewrite (bool_decide_true _ Ea). rewrite (se_bind_eq _ _ s s ()) by done.
    fold k. rewrite Jb. rewrite (se_bind_eq _ _ s s ()) by done. rewrite Es.
    by rewrite (se_bind_eq _ _ s s ()). }
  assert (Run : unStake sc args s = (s2, Ok RC_Ok)).
  { unfold unStake. rewrite V4. unfold unStakeV1. step Ck. rewrite Es. cbn [negb].
    rewrite (se_bind_eq _ _ s s s) by done. rewrite HLast. cbn [negb orb].
    unfold canStakeIfOneRemoved. rewrite (holds_config sc blsLen s A H), (proj2 (Z.leb_le _ _) Mx).
    rewrite (se_bind_eq _ _ s s1 ()); [exact R2|].
    rewrite (se_bind_eq _ _ s s1 true); [done|]. unfold orFail, orFailWith. by rewrite R1. }
  unfold runHandler, Execute_switch. cbv zeta. rewrite Ef.
  rewrite bool_decide_false by done. do 2 rewrite bool_decide_false by done.
  rewrite bool_decide_true by done. by rewrite Run.
Qed.

(** What the ledgers of these two calls say of the nodes. *)
Lemma nodeData_with_eq A k d : nodeData (with_node k d A) k = d.
Proof. unfold nodeData. cbn. by rewrite lookup_insert_eq. Qed.
Lemma nodeData_with_ne A k d y : y <> k -> nodeData (with_node k d A) y = nodeData A y.
Proof. intros N. unfold nodeData. cbn. by rewrite lookup_insert_ne. Qed.
Lemma nodeData_same A A' y : nodes A' = nodes A -> nodeData A' y = nodeData A y.
Proof. intros E. unfold nodeData. by rewrite E. Qed.

Lemma without_both k A : theQueue (without_queued k A) = without k (theQueue A).
Proof. unfold theQueue, without. cbn. by rewrite filter_app. Qed.

Lemma with_queued_rest k A :
  theQueue (with_queued k false A) =
    if decide (k ∈ theQueue A) then theQueue A else theQueue A ++ [k].
Proof.
  unfold theQueue, with_queued, queue_add. case_bool_decide as E; cbn.
  - by rewrite decide_True.
  - rewrite decide_False by done. by rewrite app_assoc.
Qed.

Lemma placed_facts A args : let k := arg args 0 in
  sound A -> room A -> Staked (nodeData A k) = false ->
  let active := IsFlagEnabled sc StakingV4StartedFlag
                || (StakedNodes (nodesConfig A) <? MaxNumNodes (nodesConfig A)) in
  let A' := placed A k (set_StakeValue (stakeValue sc) (set_Addresses (arg args 1) (arg args 2) (nodeData A k))) in
  Staked (nodeData A' k) = active /\ Waiting (nodeData A' k) = negb active /\
  RewardAddress (nodeData A' k) = arg args 1 /\ OwnerAddress (nodeData A' k) = arg args 2 /\
  RegisterNonce (nodeData A' k) = CurrentNonce /\
  theQueue A' = (if active then filter (fun y => y <> k) (theQueue A)
                 else if decide (k ∈ theQueue A) then theQueue A else theQueue A ++ [k]) /\
  StakedNodes (nodesConfig A') = StakedNodes (nodesConfig A) + (if active then 1 else 0) /\
  forall y, y <> k -> nodeData A' y = nodeData A y.
Proof.
  cbv zeta. set (k := arg args 0). intros Sd R Es. set (rd := set_StakeValue _ _).
  pose proof (plus_one sc A Sd R) as P1. unfold placed.
  destruct (IsFlagEnabled sc StakingV4StartedFlag) eqn:V4; cbn [orb].
  - rewrite nodeData_with_eq. repeat (split; [done|]).
    split; [|split; [exact P1|intros y N; by rewrite nodeData_with_ne]].
    pose proof Sd as [_ E]. change (theQueue A = filter (fun y => y <> k) (theQueue A)). by rewrite (E V4).
  - destruct (StakedNodes (nodesConfig A) <? MaxNumNodes (nodesConfig A)); rewrite nodeData_with_eq.
    + repeat (split; [done|]).
      split; [apply without_both|split; [exact P1|intros y N; by rewrite nodeData_with_ne]].
    + split; [exact Es|]. repeat (split; [done|]).
      split; [apply with_queued_rest|split; [|intros y N; by rewrite nodeData_with_ne]].
      cbn. lia.
Qed.

Lemma promoted_facts s A k x l :
  holds s A -> sound A -> room A -> Staked (nodeData A k) = true -> theQueue A = x :: l ->
  let A' := with_node k (unStakedNow (nodeData A k)) (minusStaked (moved A x)) in
  theQueue A' = l /\ Staked (nodeData A' x) = true /\ Waiting (nodeData A' x) = false /\
  Staked (nodeData A' k) = false /\ UnStakedNonce (nodeData A' k) = CurrentNonce /\
  StakedNodes (nodesConfig A') = StakedNodes (nodesConfig A) /\
  forall y, y <> k -> y <> x -> nodeData A' y = nodeData A y.
Proof.
  intros H Sd R Es Eq. pose proof Sd as [C _].
  assert (Hx : x ∈ theQueue A) by (rewrite Eq; set_solver).
  destruct (queued_facts A x C Hx) as (_ & _ & _ & Ex).
  assert (N : x <> k) by (intros ->; congruence).
  assert (Nx : forall y, nodeData (minusStaked (moved A x)) y = nodeData (moved A x) y)
    by (intros y; apply nodeData_same, minusStaked_nodes).
  cbv zeta. split; [|split; [|split; [|split; [|split; [|split]]]]].
  - change (theQueue (minusStaked (moved A x)) = l). rewrite minusStaked_queue.
    change (theQueue (without_queued x A) = l). rewrite without_both, Eq.
    destruct H as (_ & _ & Q & _). pose proof (queue_nodup blsLen s _ _ Q) as ND.
    change (NoDup (theQueue A)) in ND. rewrite Eq in ND. apply NoDup_cons in ND as [Nl _].
    unfold without. rewrite filter_cons_False by auto. by apply (without_absent sc).
  - rewrite nodeData_with_ne, Nx by done. unfold moved. by rewrite nodeData_with_eq.
  - rewrite nodeData_with_ne, Nx by done. unfold moved. by rewrite nodeData_with_eq.
  - by rewrite nodeData_with_eq.
  - by rewrite nodeData_with_eq.
  - change (StakedNodes (nodesConfig (minusStaked (moved A x))) = StakedNodes (nodesConfig A)).
    assert (P : StakedNodes (nodesConfig (moved A x)) = StakedNodes (nodesConfig A) + 1)
      by exact (plus_one sc A Sd R).
    unfold minusStaked. rewrite P, (c_counter A C). pose proof (numStaked_nonneg (nodes A)).
    rewrite (proj2 (Z.ltb_lt _ _)) by lia. cbn [StakedNodes nodesConfig with_config cfg_with_StakedNodes]. lia.
  - intros y Nk Ny. rewrite nodeData_with_ne, Nx by done. unfold moved. by rewrite nodeData_with_ne.
Qed.

(** ** unBond *)

Lemma Execute_unBond args s s' : Function args = "unBond"%string -> InitFunctionName <> "unBond"%string ->
  Execute sc args s = (s', RC_Ok) -> unBond sc args s = (s', Ok RC_Ok).
Proof.
  intros Ef Ni Run. apply Execute_Ok in Run as (_ & _ & Run). unfold Execute_switch in Run. cbv zeta in Run.
  rewrite Ef in Run. rewrite bool_decide_false in Run by done. exact Run.
Qed.
End Calls.
