(* ===== verification/StakingInstance.v ===== *)
(** * A concrete environment for the staking contract

    Instances of the parameters of the context and of the contract that
    satisfy the laws the theorems assume: a marshalizer, a chain at nonce 1000
    without accounts, two contracts (one that answers Ok, one that fails), and
    a staking contract with a place for two validators. *)

From Stdlib Require Import ZArith Lia String Ascii.
From stdpp Require Import base gmap list strings fin_maps.
From S2P Require Import Prelude Encoding GoValues SystemEI Eei EeiSpec StakingData WaitingList Staking.
From S2P Require Import StakingStore QueueSpec StakingLedger StakingInvariant StakingEpochEnd.

(** ** The marshalizer *)

#[export] Instance ser_V1_0 : Serial StakedDataV1_0 2.
Proof.
  refine {|
    ser d := [[v10_RegisterNonce d; v10_StakedNonce d; b2z (v10_Staked d); v10_UnStakedNonce d;
               v10_UnStakedEpoch d; v10_StakeValue d; v10_JailedRound d; v10_JailedNonce d;
               v10_UnJailedNonce d; b2z (v10_Jailed d); b2z (v10_Waiting d)]; v10_RewardAddress d];
    de l := match l with
      | [[rn; sn; st; un; ue; sv; jr; jn; ujn; ja; wa]; ra] => Some
          {| v10_RegisterNonce := rn; v10_StakedNonce := sn; v10_Staked := z2b st;
             v10_UnStakedNonce := un; v10_UnStakedEpoch := ue; v10_RewardAddress := ra;
             v10_StakeValue := sv; v10_JailedRound := jr; v10_JailedNonce := jn;
             v10_UnJailedNonce := ujn; v10_Jailed := z2b ja; v10_Waiting := z2b wa |}
      | _ => None
      end |}.
  - done.
  - intros []. cbn. by rewrite !z2b_b2z.
Defined.

#[export] Instance ser_V1_1 : Serial StakedDataV1_1 3.
Proof.
  refine {|
    ser d := [[v11_RegisterNonce d; v11_StakedNonce d; b2z (v11_Staked d); v11_UnStakedNonce d;
               v11_UnStakedEpoch d; v11_StakeValue d; v11_JailedRound d; v11_JailedNonce d;
               v11_UnJailedNonce d; b2z (v11_Jailed d); b2z (v11_Waiting d); v11_NumJailed d];
              v11_RewardAddress d; enc_option (v11_SlashValue d)];
    de l := match l with
      | [[rn; sn; st; un; ue; sv; jr; jn; ujn; ja; wa; nj]; ra; sl] => Some
          {| v11_RegisterNonce := rn; v11_StakedNonce := sn; v11_Staked := z2b st;
             v11_UnStakedNonce := un; v11_UnStakedEpoch := ue; v11_RewardAddress := ra;
             v11_StakeValue := sv; v11_JailedRound := jr; v11_JailedNonce := jn;
             v11_UnJailedNonce := ujn; v11_Jailed := z2b ja; v11_Waiting := z2b wa;
             v11_NumJailed := nj; v11_SlashValue := dec_option sl |}
      | _ => None
      end |}.
  - done.
  - intros []. cbn. by rewrite !z2b_b2z, dec_enc_option.
Defined.

#[export] Instance ser_V2_0 : Serial StakedDataV2_0 4.
Proof.
  refine {|
    ser d := [[RegisterNonce d; StakedNonce d; b2z (Staked d); UnStakedNonce d;
               UnStakedEpoch d; StakeValue d; JailedRound d; JailedNonce d;
               UnJailedNonce d; b2z (Jailed d); b2z (Waiting d); NumJailed d];
              RewardAddress d; enc_option (SlashValue d); OwnerAddress d];
    de l := match l with
      | [[rn; sn; st; un; ue; sv; jr; jn; ujn; ja; wa; nj]; ra; sl; oa] => Some
          {| RegisterNonce := rn; StakedNonce := sn; Staked := z2b st;
             UnStakedNonce := un; UnStakedEpoch := ue; RewardAddress := ra;
             StakeValue := sv; JailedRound := jr; JailedNonce := jn;
             UnJailedNonce := ujn; Jailed := z2b ja; Waiting := z2b wa;
             NumJailed := nj; SlashValue := dec_option sl; OwnerAddress := oa |}
      | _ => None
      end |}.
  - done.
  - intros []. cbn. by rewrite !z2b_b2z, dec_enc_option.
Defined.

#[export] Instance ser_config : Serial StakingNodesConfig 1.
Proof.
  refine {|
    ser c := [[MinNumNodes c; MaxNumNodes c; StakedNodes c; JailedNodes c]];
    de l := match l with
      | [[mi; ma; st; ja]] =>
          Some {| MinNumNodes := mi; MaxNumNodes := ma; StakedNodes := st; JailedNodes := ja |}
      | _ => None
      end |}; by intros [].
Defined.

#[export] Instance ser_element : Serial ElementInList 3.
Proof.
  refine {|
    ser e := [BLSPublicKey e; PreviousKey e; NextKey e];
    de l := match l with
      | [k; p; n] => Some {| BLSPublicKey := k; PreviousKey := p; NextKey := n |}
      | _ => None
      end |}; by intros [].
Defined.

#[export] Instance ser_head : Serial WaitingList 4.
Proof.
  refine {|
    ser w := [FirstKey w; LastKey w; [Length w]; LastJailedKey w];
    de l := match l with
      | [f; la; [n]; j] => Some {| FirstKey := f; LastKey := la; Length := n; LastJailedKey := j |}
      | _ => None
      end |}; by intros [].
Defined.

Definition marshalOf {T num} {SR : Serial T num} : Marshalizer T :=
  {| Marshal := marshalSerial; Unmarshal := fun _ => unmarshalSerial ErrPanic |}.

(** The validator data is not written by the contract. *)
Definition marshalValidator : Marshalizer ValidatorDataV2 :=
  {| Marshal := fun v => Ok (enc_lists ([TotalStakeValue v] :: BlsPubKeys v));
     Unmarshal := fun _ _ => Err ErrPanic |}.

#[export] Instance exMA : StakingMarshalizer := {|
  m_V1_0 := marshalOf; m_V1_1 := marshalOf; m_V2_0 := marshalOf; m_config := marshalOf;
  m_element := marshalOf; m_head := marshalOf; m_validator := marshalValidator;
|}.

Lemma marshalOf_ok {T num} {SR : Serial T num} (valid nonzero : T -> Prop) : (0 < num)%nat ->
  MarshalizerOk T marshalOf valid nonzero.
Proof.
  intros H x _. eexists. split; [done|]. split.
  - intros _. by apply marshal_nonempty.
  - intros prev. by apply unmarshal_marshal.
Qed.

#[export] Instance exMA_ok : StakingMarshalizerOk exMA.
Proof. constructor; apply marshalOf_ok; lia. Qed.

(** ** The chain and the context *)

#[export] Instance exBH : BlockchainHook := {|
  GetStorageData := fun _ _ => None; GetUserAccountBalance := fun _ => None;
  GetUserAccountCode := fun _ => None; CurrentNonce := 1000; CurrentRound := 1000;
  CurrentEpoch := 10; NumberOfShards := 3;
  GetShardOfAddress := fun a => if bool_decide (a = [8; 8]) then maxUint32 else 0;
  hook_ProcessBuiltInFunction := fun _ => Err (ErrExternal "none");
|}.

(** Writes a value, keeps a part of what it got and answers Ok. *)
Definition exGood : SystemSmartContract := {|
  CanUseContract := true;
  sc_Execute := fun _ host =>
    (Finish [42] (SetStorage [1] [2] (AddTxValueToSmartContract 7 (scAddress host) host)), RC_Ok);
|}.
(** Writes a value and fails. *)
Definition exBad : SystemSmartContract := {|
  CanUseContract := true;
  sc_Execute := fun _ host =>
    (AddReturnMessage "bad" (Finish [42] (SetStorage [1] [2] host)), RC_UserError);
|}.
Definition exGoodAddr : bytes := [200].
Definition exBadAddr : bytes := [201].

#[export] Instance exEnv : EeiEnv := {|
  MultiClaimOnDelegationFlag := true;
  SetSenderInEeiOutputTransferFlag := true;
  AlwaysMergeContextsInEEIFlag := true;
  systemContracts := Some (fun code =>
    if bool_decide (code = exGoodAddr) then Ok exGood
    else if bool_decide (code = exBadAddr) then Ok exBad
    else Err ErrUnknownSystemSmartContract);
  ParseData := fun f => Ok (f, []);
  GetExistingAccount := fun _ => None;
  GetChance := fun _ => 1;
  MergeOutputAccounts := fun _ right => right;
  FormatLogDataForCall := fun _ _ _ => [];
  readableCodeMetadata := [4; 0];
  SystemAccountAddress := [255; 255];
  SCDeployInitFunctionName := "_init";
|}.

Definition exHost : vmContext :=
  {| scAddress := [9]; storageUpdate := ∅; outputAccounts := ∅; gasRemaining := 100;
     returnMessage := EmptyString; output := []; logs := []; crtTransferIndex := 1 |}.

(** ** The contract *)

#[export] Instance exCE : CoreEnv := {|
  InitFunctionName := "_init"; MetachainShardId := maxUint32;
  IsSmartContractAddress := fun a => bool_decide (take 1 a = [0]);
|}.
#[export] Instance exCE_ok : CoreEnvOk exCE.
Proof. by vm_compute. Qed.

Definition exSC : stakingSC := {|
  unBondPeriod := 10; unBondPeriodSupernova := 20;
  stakeAccessAddr := [101]; jailAccessAddr := [102]; endOfEpochAccessAddr := [103];
  gasCost := {| Get := 1; FixWaitingListSize := 5 |};
  minNumNodes := 1; maxNumNodes := 2; stakeValue := 2500; walletAddressLen := 2; minNodePrice := 2500;
  IsFlagEnabled := fun f =>
    match f with StakingV4StartedFlag | StakingV4Step1Flag => false | _ => true end;
  IsSupernovaEnabledInRound := fun _ => false;
|}.

#[export] Instance exModern : ModernEpoch exSC 3.
Proof. by constructor. Qed.

Definition exArgs (f : string) (caller : bytes) (arguments : list bytes) : ContractCallInput :=
  {| CallerAddr := Some caller; Arguments := arguments; CallValue := Some 0; GasProvided := 100;
     ESDTTransfers := 0; RecipientAddr := Some [9]; Function := f |}.

(** ** A ledger with two validators and two nodes in the queue

    Made by running the contract: four nodes are staked, two of them find the
    places taken. *)

Definition exRun (args : ContractCallInput) (s : vmContext) : vmContext := fst (Execute exSC args s).
Definition exStake (k : bytes) : ContractCallInput := exArgs "stake" [101] [k; [7; 7]; [8; 8]].
Definition exKey (n : Z) : bytes := [n; n; n].

Definition exState : vmContext :=
  exRun (exStake (exKey 4)) (exRun (exStake (exKey 3))
    (exRun (exStake (exKey 2)) (exRun (exStake (exKey 1)) exHost))).

Definition exEmpty : ledger :=
  {| nodes := ∅; jailedQueue := []; restQueue := []; nodesConfig := baseConfig exSC |}.
Definition exStakeL (k : bytes) (A : ledger) : ledger :=
  placed exSC A k (set_StakeValue 2500 (set_Addresses [7; 7] [8; 8] (nodeData A k))).
Definition exLedger : ledger :=
  exStakeL (exKey 4) (exStakeL (exKey 3) (exStakeL (exKey 2) (exStakeL (exKey 1) exEmpty))).

Lemma exEmpty_holds : holds exSC 3 exHost exEmpty.
Proof.
  split; [|split; [|split]].
  - intros k _. by vm_compute.
  - intros k d E. by vm_compute in E.
  - split; [|split; [by vm_compute|done]].
    split; [constructor|split; [constructor|split; [|by vm_compute]]].
    intros P x Q E. by destruct P.
  - by vm_compute.
Qed.

Lemma exEmpty_sound : sound exSC exEmpty.
Proof.
  split; [|done]. constructor.
  - intros k d E. by vm_compute in E.
  - intros k. split; [intros H; by apply elem_of_nil in H|]. intros (d & E & _). by vm_compute in E.
  - by vm_compute.
  - by vm_compute.
Qed.

(** One more stake of a concrete ledger. *)
Lemma exStake_step s A k :
  holds exSC 3 s A /\ sound exSC A -> room A -> length k = 3%nat -> Staked (nodeData A k) = false ->
  Jailed (nodeData A k) = false ->
  holds exSC 3 (exRun (exStake k) s) (exStakeL k A) /\ sound exSC (exStakeL k A).
Proof.
  intros [H Sd] R K Es J.
  destruct (stake_run exSC 3 s A (exStake k) H Sd R) as (s' & E & H' & Sd');
    [done|cbn; lia|done|done|done| |].
  - unfold isNodeJailedOrWithBadRating. cbn [arg exStake]. change (arg (exStake k) 0) with k. by rewrite J.
  - unfold exRun. rewrite E. done.
Qed.

Lemma exState_ok : holds exSC 3 exState exLedger /\ sound exSC exLedger.
Proof.
  unfold exState, exLedger. do 4 (apply exStake_step; [|by vm_compute..]).
  split; [apply exEmpty_holds|apply exEmpty_sound].
Qed.

(** ** A context that only remembers whom it called

    The storage of one contract, in which other contracts cannot write. *)

Record exContext := {
  store : gmap bytes bytes;
  told : list bytes;
}.

Definition exAnswer : VMOutput := bareVMOutput RC_Ok "".

#[export] Instance exContext_SystemEI : SystemEI exContext := {|
  eei_ExecuteOnDestContext := fun destination _ _ _ s =>
    ({| store := store s; told := told s ++ [destination] |}, Ok exAnswer);
  eei_GetStorage := fun k s => store s !! k;
  eei_GetStorageFromAddress := fun _ _ _ => None;
  eei_SetStorage := fun k v s => {| store := <[k := v]> (store s); told := told s |};
  eei_AddReturnMessage := fun _ s => s;
  eei_Finish := fun _ s => s;
  eei_UseGas := fun _ s => (s, Ok ());
  eei_IsValidator := fun _ => false;
  eei_CanUnJail := fun _ => false;
  eei_IsBadRating := fun _ => false;
|}.

#[export] Instance exContext_ok : SystemEIOk exContext exContext_SystemEI.
Proof.
  constructor; try done. intros k v s k'. cbn. destruct (decide (k' = k)) as [->|N].
  - apply lookup_insert_eq.
  - by apply lookup_insert_ne.
Qed.

Definition exClearing : stakingSC :=
  {| unBondPeriod := 10; unBondPeriodSupernova := 20;
     stakeAccessAddr := [101]; jailAccessAddr := [102]; endOfEpochAccessAddr := [103];
     gasCost := {| Get := 1; FixWaitingListSize := 5 |};
     minNumNodes := 1; maxNumNodes := 2; stakeValue := 2500; walletAddressLen := 2; minNodePrice := 2500;
     IsFlagEnabled := fun f => match f with StakingV4StartedFlag => false | _ => true end;
     IsSupernovaEnabledInRound := fun _ => false |}.

#[export] Instance exClearingModern : ModernEpoch exClearing 3.
Proof. by constructor. Qed.

(** The storage of the staking contract of [exState]. *)
Definition exTold : exContext := {| store := default ∅ (storageUpdate exState !! [9]); told := [] |}.
Definition exClear (args : ContractCallInput) (s : exContext) : exContext := fst (Execute exClearing args s).

Lemma exTold_storage k : storageAt k exTold = storageAt k exState.
Proof.
  unfold storageAt, exTold. cbn. unfold GetStorage, GetStorageFromAddress.
  replace (scAddress exState) with [9] by by vm_compute. destruct (storageUpdate exState !! [9]) as [m|]; cbn.
  - by destruct (m !! k).
  - by rewrite lookup_empty.
Qed.

(** What a ledger says of a storage does not depend on what is around it. *)
Lemma holds_same {MA : StakingMarshalizer} {S1 S2} {E1 : SystemEI S1} {E2 : SystemEI S2} sc1 sc2 n (s1 : S1) (s2 : S2) A :
  (forall k, storageAt k s2 = storageAt k s1) -> baseConfig sc2 = baseConfig sc1 -> holds sc1 n s1 A -> holds sc2 n s2 A.
Proof.
  intros Es Eb (Hn & Hk & ((ND & K & El & Ab) & Hh & B) & Hc).
  split; [|split; [done|split; [split; [split; [done|split; [done|split]]|split; [|done]]|]]].
  - intros k Kk. specialize (Hn k Kk). unfold reg_is, stored, getOrCreateRegisteredData in *. rewrite Es.
    destruct (nodes A !! k); [|done]. destruct Hn as [E St]. split; [by injection E as ->|done].
  - intros P x Q E. specialize (El P x Q E). unfold el_at, getWaitingListElement in *. rewrite Es. by injection El as ->.
  - intros x Kx Nx. rewrite Es. by apply Ab.
  - unfold head_is, getWaitingListHead in *. rewrite Es. by injection Hh as ->.
  - unfold getConfig in *. by rewrite Es, Eb.
Qed.

Lemma exTold_ok : holds exClearing 3 exTold exLedger /\ sound exClearing exLedger.
Proof.
  destruct exState_ok as [H [C _]]. split; [|by split].
  exact (holds_same exSC exClearing 3 exState exTold exLedger exTold_storage eq_refl H).
Qed.

Lemma quiet_told owner keys sender : quiet (executeOnStakeAtEndOfEpoch (S := exContext) owner keys sender).
Proof. by intros s k _. Qed.
