(* ===== verification/EeiProperties.v ===== *)
(** * Properties of the execution context

    The theorems about vm/systemSmartContracts/eei.go, with witnesses on the
    two contracts of StakingInstance. *)

From Stdlib Require Import ZArith Lia String Ascii.
From stdpp Require Import base gmap list strings fin_maps.
From S2P Require Import Prelude GoValues SystemEI Eei EeiSpec StakingInstance.

Section Properties.
Context {BH : BlockchainHook} {Env : EeiEnv}.
Implicit Types (host : vmContext).

(** C28. Since the epochs of MultiClaimOnDelegation and AlwaysMergeContextsInEEI,
    a call to another contract that fails - it answers another code than Ok,
    the contract is not found, or it is the initialisation - leaves the
    pending writes, the return data and the address of the caller as they
    were.  No account changes its code, owner, nonce, counters or output
    transfers, and no account appears other than blank ones of the sender and
    the destination.  The balances are those before the call, or those after
    the transfer of its value alone, which a failing contract does not give
    back.  (Gas, logs and messages are what the contract made of them.) *)
Theorem failed_call_leaves_nothing destination sender value input host host' r
    (Hmulti : MultiClaimOnDelegationFlag = true) (Hmerge : AlwaysMergeContextsInEEIFlag = true)
    (Hkept : wellKept host) (Huints : allUints host)
    (Hrun : ExecuteOnDestContext destination sender value input host = (host', r))
    (Hfail : forall vmOutput, r = Ok vmOutput -> vo_ReturnCode vmOutput <> RC_Ok) :
  scAddress host' = scAddress host /\ storageUpdate host' = storageUpdate host /\
  output host' = output host /\
  (forall a, accountFields (outputAccounts host' !! a) = accountFields (outputAccounts host !! a) /\
     (is_Some (outputAccounts host' !! a) -> is_Some (outputAccounts host !! a) \/ a ∈ [destination; sender])) /\
  ((forall a, GetBalance a host' = GetBalance a host) \/
   (forall a, GetBalance a host' = GetBalance a host
      + (if decide (a = destination) then value else 0) - (if decide (a = sender) then value else 0))).
Proof.
  destruct (failed_call_spec destination sender value input host host' r Hmulti Hmerge Hkept Hrun Hfail)
    as ((H1 & H2 & H3) & B & F). split_and!; [done..|by apply F|exact B].
Qed.

(** A call that succeeds runs the contract found under the code of the
    destination on a context with the value transferred, without accounts and
    return data; afterwards the pending writes are those of the contract, its
    return data is in the output and not in the context, and every balance is
    that of the caller changed by what the contract moved. *)
Theorem successful_call_adds_up destination sender value input host host' vmOutput
    (Hmulti : MultiClaimOnDelegationFlag = true) (Hkept : wellKept host)
    (Hrun : ExecuteOnDestContext destination sender value input host = (host', Ok vmOutput))
    (Hok : vo_ReturnCode vmOutput = RC_Ok) :
  exists contract callInput mid callee,
    GetContract destination = Ok contract /\
    createContractCallInput destination sender value input = Ok callInput /\
    (forall a, GetBalance a mid = GetBalance a host
       + (if decide (a = destination) then value else 0) - (if decide (a = sender) then value else 0)) /\
    sc_Execute contract callInput (SetSCAddress destination (softCleanCache mid)) = (callee, RC_Ok) /\
    ReturnData vmOutput = output callee /\
    scAddress host' = scAddress host /\ output host' = output host /\
    storageUpdate host' = storageUpdate callee /\
    forall a, is_Some (outputAccounts mid !! a) ->
      GetBalance a host' = GetBalance a mid + deltaOf (outputAccounts callee !! a).
Proof.
  destruct (ok_call_spec destination sender value input host host' vmOutput Hmulti Hkept Hrun Hok)
    as (c & ci & mid & callee & H1 & H2 & H3 & _ & H5 & H6 & H7 & H8 & H9 & B).
  exists c, ci, mid, callee. split; [exact H1|split; [exact H2|split; [exact H3|split; [exact H5|]]]].
  split; [exact H6|split; [exact H7|split; [exact H8|split; [exact H9|]]]].
  intros a [acc E]. by rewrite B, E.
Qed.

(** [Transfer] never fails on accounts that the context made, takes the
    value from the sender, gives it to the destination and touches no other
    balance; it adds one transfer with a fresh index to the destination. *)
Theorem transfer_moves_value destination sender value input gasLimit host (Hkept : wellKept host) :
  exists host' acc, Transfer destination sender value input gasLimit host = (host', Ok ()) /\
    (forall a, GetBalance a host' = GetBalance a host
       + (if decide (a = destination) then value else 0) - (if decide (a = sender) then value else 0)) /\
    wellKept host' /\ storageUpdate host' = storageUpdate host /\
    outputAccounts host' !! destination = Some acc /\
    (exists before, oa_OutputTransfers acc = before ++
       [{| ot_Index := crtTransferIndex host; ot_Value := value; ot_GasLimit := gasLimit; ot_Data := input;
           ot_SenderAddress := if SetSenderInEeiOutputTransferFlag then sender else [] |}]) /\
    crtTransferIndex host' = u32 (crtTransferIndex host + 1).
Proof.
  destruct (Transfer_spec destination sender value input gasLimit host Hkept)
    as (host' & acc & R & W & B & St & L & Ts & Ix).
  by exists host', acc.
Qed.

(** The output of a call carries the pending writes and nothing else: each
    address with writes or with an account is in it, with exactly its writes,
    its balance change and its transfers. *)
Theorem output_matches_context host addr :
  let vmOutput := CreateVMOutput host in
  ReturnData vmOutput = output host /\ GasRemaining vmOutput = gasRemaining host /\
  (OutputAccounts vmOutput !! addr = None <->
     storageUpdate host !! addr = None /\ outputAccounts host !! addr = None) /\
  forall acc, OutputAccounts vmOutput !! addr = Some acc ->
    oa_StorageUpdates acc = default ∅ (storageUpdate host !! addr) /\
    oa_BalanceDelta acc = outputAccounts host !! addr ≫= oa_BalanceDelta /\
    oa_OutputTransfers acc = default [] (oa_OutputTransfers <$> outputAccounts host !! addr).
Proof.
  cbv zeta. split; [done|split; [done|]]. cbn [OutputAccounts CreateVMOutput]. rewrite output_lookup.
  destruct (storageUpdate host !! addr), (outputAccounts host !! addr); cbn;
    (split; [naive_solver|]); intros acc E; try done; by injection E as <-.
Qed.
End Properties.

(** ** Witnesses *)

Lemma failed_call_leaves_nothing_witness : exists host' r,
  ExecuteOnDestContext exBadAddr [9] 3 [] exHost = (host', r) /\
  storageUpdate host' = ∅ /\ output host' = [] /\ GetBalance exBadAddr host' = 3 /\
  accountFields (outputAccounts host' !! [9]) = accountFields (outputAccounts exHost !! [9]).
Proof.
  destruct (ExecuteOnDestContext exBadAddr [9] 3 [] exHost) as [host' r] eqn:E.
  destruct (failed_call_leaves_nothing exBadAddr [9] 3 [] exHost host' r) as (_ & H2 & H3 & H4 & _).
  - done.
  - done.
  - done.
  - done.
  - exact E.
  - intros o F. rewrite F in E. vm_compute in E. by injection E as _ <-.
  - exists host', r. split; [done|split; [exact H2|split; [exact H3|split; [|exact (proj1 (H4 [9]))]]]].
    vm_compute in E. by injection E as <- _.
Defined.

Lemma successful_call_adds_up_witness : exists host' vmOutput,
  ExecuteOnDestContext exGoodAddr [9] 3 [] exHost = (host', Ok vmOutput) /\
  ReturnData vmOutput = [[42]] /\ output host' = [] /\ GetBalance exGoodAddr host' = 10.
Proof.
  destruct (ExecuteOnDestContext exGoodAddr [9] 3 [] exHost) as [host' [vmOutput|e]] eqn:E.
  2: { vm_compute in E. done. }
  destruct (successful_call_adds_up exGoodAddr [9] 3 [] exHost host' vmOutput)
    as (_ & _ & _ & _ & _ & _ & _ & _ & _ & _ & H & _).
  - done.
  - done.
  - exact E.
  - vm_compute in E. by injection E as _ <-.
  - exists host', vmOutput. split; [done|]. split.
    + vm_compute in E. by injection E as _ <-.
    + split; [exact H|]. vm_compute in E. by injection E as <- _.
Defined.

Lemma transfer_moves_value_witness : exists host',
  Transfer [5] [9] 30 [1] 0 exHost = (host', Ok ()) /\ GetBalance [5] host' = 30 /\ GetBalance [9] host' = -30.
Proof.
  destruct (transfer_moves_value [5] [9] 30 [1] 0 exHost) as (host' & acc & R & B & _).
  - done.
  - exists host'. split; [exact R|]. split; [rewrite (B [5])|rewrite (B [9])]; by vm_compute.
Defined.

Lemma output_matches_context_witness : exists acc,
  OutputAccounts (CreateVMOutput (SetStorage [1] [2] exHost)) !! [9] = Some acc /\
  oa_StorageUpdates acc = {[ [1] := [2] ]}.
Proof.
  destruct (output_matches_context (SetStorage [1] [2] exHost) [9]) as (_ & _ & _ & H).
  eexists. split; [by vm_compute|]. etrans; [apply H; by vm_compute|by vm_compute].
Defined.
