(* ===== verification/StakingProperties.v ===== *)
(** * Properties of the staking contract

    The theorems about vm/systemSmartContracts/staking.go and
    stakingWaitingList.go, each with a witness on the ledger of two validators
    and two queued nodes of StakingInstance. *)

From Stdlib Require Import ZArith Lia String Ascii.
From stdpp Require Import base gmap list strings fin_maps.
From S2P Require Import Prelude GoValues SystemEI Eei EeiSpec StakingData WaitingList Staking.
From S2P Require Import StakingStore QueueSpec StakingLedger StakingInvariant StakingEpochEnd.
From S2P Require Import StakingEpochEnd StakingInstance.

Section Access.
Context {S : Type} {EI : SystemEI S} {EIok : SystemEIOk S EI} {BH : BlockchainHook}.
Context {MA : StakingMarshalizer} {CE : CoreEnv}.
Context (sc : stakingSC).
Implicit Types (s : S) (args : ContractCallInput).

Lemma nowhere_eq s s' k : agree nowhere s s' -> storageAt k s' = storageAt k s.
Proof. intros Ag. by apply Ag; intros []. Qed.

(** How a call runs, whatever its arguments are. *)
Lemma Execute_cases args s :
  agree nowhere s (Execute sc args s).1 /\ (Execute sc args s).2 = RC_UserError \/
  Execute sc args s = runHandler (Execute_switch sc args) s.
Proof.
  unfold Execute. destruct (CheckIfNil args).
  - left. split; [apply agree_refl|done].
  - destruct (Nat.ltb 0 (ESDTTransfers args)).
    + left. split; [apply say_agree|done].
    + by right.
Qed.

Lemma runHandler_state (m : SE S ReturnCode ReturnCode) s : (runHandler m s).1 = (m s).1.
Proof. unfold runHandler. by destruct (m s) as [s' [?|?]]. Qed.

Lemma quiet_either f args (m1 m2 : SE S ReturnCode ReturnCode) :
  (Function args = f -> quiet m1) -> (Function args <> f -> quiet m2) ->
  quiet (if bool_decide (Function args = f) then m1 else m2).
Proof. intros H1 H2. case_bool_decide; auto. Qed.

Lemma quiet_switch args : view (Function args) -> Function args <> InitFunctionName ->
  quiet (Execute_switch sc args).
Proof.
  intros V Ni. unfold Execute_switch. cbv zeta. apply quiet_either; [done|intros _].
  repeat (apply quiet_either; [intros Hf|intros _]);
    first [ by apply quiet_get_view | by apply quiet_isStaked | by apply quiet_fail
          | by apply quiet_changeValidatorKey | by apply quiet_getRewardAddress
          | by apply quiet_getBLSKeyStatus | by apply quiet_getTotal | by apply quiet_getRemaining
          | by apply quiet_getOwner | by apply quiet_getIndex | by apply quiet_getSize
          | by apply quiet_getNonces | by apply quiet_ret
          | exfalso; unfold view in V; rewrite Hf in V; set_solver ].
Qed.

(** A caller that is none of the three privileged addresses (validator
    contract, jail address, end of epoch address) changes no storage of the
    staking contract, whatever it calls, and is refused unless it calls a
    view; only the initialisation and the two repair functions are open. *)
Theorem stranger_changes_nothing args s (Hcaller : stranger sc args)
    (Hinit : Function args <> InitFunctionName) (Hrepair : Function args ∉ publicRepair) :
  (forall k, storageAt k (Execute sc args s).1 = storageAt k s) /\
  (Function args ∉ publicView -> (Execute sc args s).2 = RC_UserError).
Proof.
  destruct (harmless_switch sc args Hcaller Hinit Hrepair) as [Q R].
  destruct (Execute_cases args s) as [[Ag E]| ->].
  - split; [|done]. intros k. by apply nowhere_eq.
  - split; [|intros V; by destruct (R V s)]. intros k. rewrite runHandler_state. by apply nowhere_eq.
Qed.

(** The query functions never change the storage, for any caller and any
    arguments. *)
Theorem views_change_nothing args s (Hview : view (Function args))
    (Hinit : Function args <> InitFunctionName) :
  forall k, storageAt k (Execute sc args s).1 = storageAt k s.
Proof.
  intros k. destruct (Execute_cases args s) as [[Ag _]| ->]; [by apply nowhere_eq|].
  rewrite runHandler_state. by apply nowhere_eq, quiet_switch.
Qed.
End Access.

Section Queue.
Context {S : Type} {EI : SystemEI S} {EIok : SystemEIOk S EI}.
Context {MA : StakingMarshalizer} {MAok : StakingMarshalizerOk MA}.
Context (sc : stakingSC) (blsLen : nat) {RQ : RepairedQueue sc}.
Implicit Types (s : S) (J N : list bytes).

(** Inserting a key into the queue of jailed keys [J] and other keys [N]
    never fails: a new key goes to the end of its part (a jailed one before
    every other one), a key that is queued stays where it is, and nothing but
    the storage of the queue changes. *)
Theorem queue_insert s J N x (jailed : bool) (Hq : queue blsLen s J N) (Hx : length x = blsLen)
    (Hlen : Z.of_nat (length (J ++ N)) + 1 < maxUint32) :
  exists s', addToWaitingList sc x jailed s = (s', Ok ()) /\
    (if decide (x ∈ J ++ N) then queue blsLen s' J N
     else if jailed then queue blsLen s' (J ++ [x]) N else queue blsLen s' J (N ++ [x])) /\
    forall k, ~ queueKeys blsLen k -> storageAt k s' = storageAt k s.
Proof.
  destruct (addToWaitingList_spec sc blsLen s J N x jailed Hq Hx Hlen) as (s' & R & Ag & Q).
  exists s'. split; [done|split; [|exact Ag]]. unfold queue_add in Q. case_bool_decide as E.
  - by rewrite decide_True.
  - rewrite decide_False by done. by destruct jailed.
Qed.

(** C34. Removing a key takes exactly this key out of the queue, at the front,
    at the end, in the middle or at the border of the jailed part, and keeps
    the order of the others; nothing but the storage of the queue changes. *)
Theorem queue_remove s J N x (Hq : queue blsLen s J N) (Hx : length x = blsLen) :
  exists s', removeFromWaitingList sc x s = (s', Ok ()) /\
    queue blsLen s' (filter (fun y => y <> x) J) (filter (fun y => y <> x) N) /\
    forall k, ~ queueKeys blsLen k -> storageAt k s' = storageAt k s.
Proof.
  destruct (removeFromWaitingList_spec sc blsLen s J N x Hq Hx) as (s' & R & Ag & Q).
  exists s'. split; [done|]. by split.
Qed.

(** Walking the queue returns the first [n] keys in the order of the
    queue, each with its registration data [R], and changes nothing. *)
Theorem queue_walk s J N n (R : bytes -> StakedDataV2_0) (Hq : queue blsLen s J N)
    (HR : forall z, z ∈ J ++ N -> getOrCreateRegisteredData z s = (s, Ok (R z))) :
  exists d, getFirstElementsFromWaitingList n s = (s, Ok d) /\
    blsKeys d = take (Z.to_nat n) (J ++ N) /\
    stakedDataList d = map R (take (Z.to_nat n) (J ++ N)).
Proof. by apply (getFirstElements_spec sc blsLen). Qed.
End Queue.

Section LedgerProperties.
Context {S : Type} {EI : SystemEI S} {EIok : SystemEIOk S EI} {BH : BlockchainHook}.
Context {MA : StakingMarshalizer} {MAok : StakingMarshalizerOk MA} {CE : CoreEnv} {CEok : CoreEnvOk CE}.
Context (sc : stakingSC) (blsLen : nat) {ME : ModernEpoch sc blsLen}.
Implicit Types (s : S) (A : ledger) (k : bytes).


(** C33. Staking a new node succeeds and puts it where it belongs: among the
    validators, and no longer in the queue, when staking v4 has started or a
    place is free, and at the end of the queue otherwise; nobody else moves
    and the counter follows. *)
Theorem stake_places_node args s A
    (Hholds : holds sc blsLen s A) (Hsound : sound sc A) (Hroom : room A)
    (Hcall : call_of "stake" (stakeAccessAddr sc) args) (Hnum : (3 <= numArgs args)%nat)
    (Hkey : length (arg args 0) = blsLen) (Hreward : arg args 1 <> [])
    (Hstaked : Staked (nodeData A (arg args 0)) = false)
    (Hjail : isNodeJailedOrWithBadRating (nodeData A (arg args 0)) (arg args 0) = false) :
  let k := arg args 0 in
  let active := IsFlagEnabled sc StakingV4StartedFlag
                || (StakedNodes (nodesConfig A) <? MaxNumNodes (nodesConfig A)) in
  exists s' A', Execute sc args s = (s', RC_Ok) /\ holds sc blsLen s' A' /\ sound sc A' /\
    Staked (nodeData A' k) = active /\ Waiting (nodeData A' k) = negb active /\
    RewardAddress (nodeData A' k) = arg args 1 /\ OwnerAddress (nodeData A' k) = arg args 2 /\
    RegisterNonce (nodeData A' k) = CurrentNonce /\
    theQueue A' = (if active then filter (fun y => y <> k) (theQueue A)
                   else if decide (k ∈ theQueue A) then theQueue A else theQueue A ++ [k]) /\
    StakedNodes (nodesConfig A') = StakedNodes (nodesConfig A) + (if active then 1 else 0) /\
    forall y, y <> k -> nodeData A' y = nodeData A y.
Proof.
  cbv zeta.
  destruct (stake_run sc blsLen s A args Hholds Hsound Hroom Hcall Hnum Hkey Hreward Hstaked Hjail)
    as (s' & Run & H & Sd).
  eexists s', _. split; [exact Run|split; [exact H|split; [exact Sd|]]].
  by apply (placed_facts sc).
Qed.

(** When a validator unstakes and the queue is not empty, the first node
    of the queue takes its place: it is staked, leaves the queue, and the
    number of validators stays the same; the one that left starts its unbond
    period now, and nobody else changes. *)
Theorem unstake_promotes_first args s A x l
    (Hholds : holds sc blsLen s A) (Hsound : sound sc A) (Hroom : room A)
    (Hcall : call_of "unStake" (stakeAccessAddr sc) args) (Hnum : (2 <= numArgs args)%nat)
    (Hkey : length (arg args 0) = blsLen) (Hstaked : Staked (nodeData A (arg args 0)) = true)
    (Howner : arg args 1 = RewardAddress (nodeData A (arg args 0)))
    (Hjail : isNodeJailedOrWithBadRating (nodeData A (arg args 0)) (arg args 0) = false)
    (Hv4 : IsFlagEnabled sc StakingV4StartedFlag = false) (Hqueue : theQueue A = x :: l)
    (Hmax : StakedNodes (nodesConfig A) <= MaxNumNodes (nodesConfig A)) (Hspare : spare A) :
  let k := arg args 0 in
  exists s' A', Execute sc args s = (s', RC_Ok) /\ holds sc blsLen s' A' /\
    theQueue A' = l /\
    Staked (nodeData A' x) = true /\ Waiting (nodeData A' x) = false /\
    Staked (nodeData A' k) = false /\ UnStakedNonce (nodeData A' k) = CurrentNonce /\
    StakedNodes (nodesConfig A') = StakedNodes (nodesConfig A) /\
    forall y, y <> k -> y <> x -> nodeData A' y = nodeData A y.
Proof.
  cbv zeta.
  destruct (unStake_run sc blsLen s A args x l Hholds Hsound Hcall Hnum Hkey Hstaked Howner Hjail Hv4
    Hqueue Hmax Hspare) as (s' & Run & H).
  eexists s', _. split; [exact Run|split; [exact H|]]. by apply (promoted_facts sc blsLen s).
Qed.

(** Unbonding succeeds only for a node that is registered, neither staked
    nor queued nor jailed nor a validator, and whose unbond period, counted
    from the nonce at which it unstaked, is over; it then removes exactly the
    registration of this node. *)
Theorem unbond_after_period args s s' A
    (Hholds : holds sc blsLen s A) (Hsound : sound sc A) (Hf : Function args = "unBond"%string)
    (Hinit : InitFunctionName <> "unBond"%string) (Hkey : length (arg args 0) = blsLen)
    (Hfix : IsFlagEnabled sc FixCorrectSmallIntAndGasLimitsFlag = true)
    (Hnonce : 0 <= UnStakedNonce (nodeData A (arg args 0)) <= CurrentNonce)
    (Hnow : CurrentNonce < 2 ^ 64)
    (Hrun : Execute sc args s = (s', RC_Ok)) :
  let k := arg args 0 in
  k ∈ dom (nodes A) /\ Staked (nodeData A k) = false /\ k ∉ theQueue A /\
  Jailed (nodeData A k) = false /\ eei_IsValidator k = false /\
  UnStakedNonce (nodeData A k) + getUnBondPeriod sc <= CurrentNonce /\
  holds sc blsLen s' (with_nodes (delete k (nodes A)) A).
Proof.
  cbv zeta. apply (Execute_unBond sc) in Hrun; [|done..].
  destruct (unBond_Ok sc blsLen s A args s' RC_Ok Hholds Hsound Hkey Hrun)
    as (-> & _ & Rr & Es & Ew & Ej & Un & Nz & V). specialize (Nz Hfix).
  split; [|split; [done|split; [|split; [done|split; [done|split]]]]].
  - apply elem_of_dom. rewrite (registered A _ Rr). by eexists.
  - pose proof Hsound as [C _]. rewrite (waiting_queued A _ C). by rewrite Ew.
  - destruct Un as [Un|[Un|Un]]; [done| |lia]. rewrite u64_id in Un by lia. lia.
  - by apply clear_spec.
Qed.
End LedgerProperties.

(** ** Witnesses *)

Lemma stranger_changes_nothing_witness :
  (forall k, storageAt k (Execute exSC (exArgs "unStake" [55] [exKey 1; [7; 7]]) exState).1 = storageAt k exState) /\
  (Execute exSC (exArgs "unStake" [55] [exKey 1; [7; 7]]) exState).2 = RC_UserError.
Proof.
  destruct (stranger_changes_nothing exSC (exArgs "unStake" [55] [exKey 1; [7; 7]]) exState) as [H1 H2].
  - by vm_compute.
  - done.
  - by apply (bool_decide_unpack _).
  - split; [exact H1|]. apply H2. by apply (bool_decide_unpack _).
Defined.

Lemma views_change_nothing_witness :
  (Execute exSC (exArgs "getQueueSize" [55] []) exState).2 = RC_Ok /\
  forall k, storageAt k (Execute exSC (exArgs "getQueueSize" [55] []) exState).1 = storageAt k exState.
Proof.
  split; [by vm_compute|]. apply views_change_nothing.
  - by apply (bool_decide_unpack _).
  - done.
Defined.

Lemma exState_queue : queue 3 exState [] [exKey 3; exKey 4].
Proof.
  destruct exState_ok as [(_ & _ & Q & _) _].
  assert (E1 : jailedQueue exLedger = []) by by vm_compute.
  assert (E2 : restQueue exLedger = [exKey 3; exKey 4]) by by vm_compute.
  by rewrite E1, E2 in Q.
Qed.

Lemma queue_insert_witness : exists s',
  addToWaitingList exSC (exKey 9) true exState = (s', Ok ()) /\
  queue 3 s' [exKey 9] [exKey 3; exKey 4].
Proof.
  destruct (queue_insert exSC 3 exState [] [exKey 3; exKey 4] (exKey 9) true) as (s' & R & Q & _).
  - apply exState_queue.
  - done.
  - done.
  - exists s'. split; [exact R|]. rewrite decide_False in Q; [exact Q|].
    by apply (bool_decide_unpack _).
Defined.

Lemma queue_remove_witness : exists s',
  removeFromWaitingList exSC (exKey 3) exState = (s', Ok ()) /\ queue 3 s' [] [exKey 4].
Proof.
  destruct (queue_remove exSC 3 exState [] [exKey 3; exKey 4] (exKey 3)) as (s' & R & Q & _).
  - apply exState_queue.
  - done.
  - exists s'. split; [exact R|exact Q].
Defined.

Lemma queue_walk_witness : exists d,
  getFirstElementsFromWaitingList 1 exState = (exState, Ok d) /\ blsKeys d = [exKey 3].
Proof.
  destruct (queue_walk exSC 3 exState [] [exKey 3; exKey 4] 1 (nodeData exLedger)) as (d & R & K & _).
  - apply exState_queue.
  - intros z Hz. eapply (load_spec exSC 3); [apply exState_ok|].
    exact (linked_key 3 exState _ z (proj1 exState_queue) Hz).
  - exists d. split; [exact R|exact K].
Defined.


(** A fifth node finds no place. *)
Lemma stake_places_node_witness : exists s' A',
  Execute exSC (exStake (exKey 5)) exState = (s', RC_Ok) /\ holds exSC 3 s' A' /\
  Waiting (nodeData A' (exKey 5)) = true /\ theQueue A' = [exKey 3; exKey 4; exKey 5].
Proof.
  destruct exState_ok as [H Sd].
  destruct (stake_places_node exSC 3 (exStake (exKey 5)) exState exLedger)
    as (s' & A' & R & H' & _ & _ & W & _ & _ & _ & Q & _).
  - exact H.
  - exact Sd.
  - by vm_compute.
  - by repeat split.
  - cbn. lia.
  - done.
  - done.
  - by vm_compute.
  - by vm_compute.
  - exists s', A'. split; [exact R|split; [exact H'|split]].
    + etrans; [exact W|by vm_compute].
    + etrans; [exact Q|by vm_compute].
Defined.

Lemma unstake_promotes_first_witness : exists s' A',
  Execute exSC (exArgs "unStake" [101] [exKey 1; [7; 7]]) exState = (s', RC_Ok) /\
  holds exSC 3 s' A' /\ theQueue A' = [exKey 4] /\ Staked (nodeData A' (exKey 3)) = true.
Proof.
  destruct exState_ok as [H Sd].
  destruct (unstake_promotes_first exSC 3 (exArgs "unStake" [101] [exKey 1; [7; 7]]) exState exLedger
    (exKey 3) [exKey 4]) as (s' & A' & R & H' & Q & E & _).
  - exact H.
  - exact Sd.
  - by vm_compute.
  - by repeat split.
  - cbn. lia.
  - done.
  - by vm_compute.
  - by vm_compute.
  - by vm_compute.
  - done.
  - by vm_compute.
  - by vm_compute.
  - by vm_compute.
  - exists s', A'. split; [exact R|split; [exact H'|split; [exact Q|exact E]]].
Defined.

(** A node that unstaked at nonce 900. *)
Definition exLeft : StakedDataV2_0 :=
  set_Staking false 500 900 9 (set_Addresses [7; 7] [8; 8] newRegistrationData).
Definition exLeftState : vmContext := fst (saveStakingData exSC (exKey 5) exLeft exState).

Lemma exLeft_ok : holds exSC 3 exLeftState (with_node (exKey 5) exLeft exLedger) /\
  sound exSC (with_node (exKey 5) exLeft exLedger).
Proof.
  destruct exState_ok as [H Sd]. split.
  - destruct (save_spec exSC 3 exState exLedger (exKey 5) exLeft H) as (s' & R & H'); [done..|].
    unfold exLeftState. by rewrite R.
  - apply (sound_intro exSC 3 exLedger _ (exKey 5) exLeft); [exact Sd|done|done|done| |by vm_compute|done|done].
    intros y. change (theQueue (with_node (exKey 5) exLeft exLedger)) with (theQueue exLedger).
    assert (N : exKey 5 ∉ theQueue exLedger).
    { assert (E : theQueue exLedger = [exKey 3; exKey 4]) by by vm_compute.
      rewrite E. by apply (bool_decide_unpack _). }
    split; [|naive_solver]. intros Hy. left. split; [done|]. by intros ->.
Qed.

Lemma unbond_after_period_witness :
  let s' := exRun (exArgs "unBond" [101] [exKey 5]) exLeftState in
  exKey 5 ∈ dom (nodes (with_node (exKey 5) exLeft exLedger)) /\ 900 + getUnBondPeriod exSC <= CurrentNonce /\
  holds exSC 3 s' (with_nodes (delete (exKey 5) (nodes (with_node (exKey 5) exLeft exLedger)))
                     (with_node (exKey 5) exLeft exLedger)).
Proof.
  destruct exLeft_ok as [H Sd].
  assert (E : UnStakedNonce (nodeData (with_node (exKey 5) exLeft exLedger) (exKey 5)) = 900) by by vm_compute.
  destruct (unbond_after_period exSC 3 (exArgs "unBond" [101] [exKey 5]) exLeftState
    (exRun (exArgs "unBond" [101] [exKey 5]) exLeftState) (with_node (exKey 5) exLeft exLedger))
    as (D & _ & _ & _ & _ & P & H').
  - exact H.
  - exact Sd.
  - done.
  - done.
  - done.
  - done.
  - change (0 <= UnStakedNonce (nodeData (with_node (exKey 5) exLeft exLedger) (exKey 5)) <= 1000).
    rewrite E. lia.
  - done.
  - by vm_compute.
  - split; [exact D|split; [|exact H']]. rewrite <- E. exact P.
Defined.
