(* ===== verification/Floats.v ===== *)
(** * Go's float32 and float64

    The IEEE 754 arithmetic that Go prescribes, on the executable
    specification of binary floating point of the Standard Library, with the
    conversions between integers and floats.  The lemmas show that rounding
    never brings a product below a factor when the other factor is at least one,
    which the code on ratings relies on, nor above it when the other is at most
    one, which the code on fees relies on. *)

From stdpp Require Import base tactics.
From Stdlib Require Import ZArith Lia Bool.
From Stdlib Require Import SpecFloat.
From S2P Require Import Prelude.

(** ** Operations *)

Definition float32_mul : spec_float -> spec_float -> spec_float := SFmul 24 128.
Definition float32_div : spec_float -> spec_float -> spec_float := SFdiv 24 128.
Definition float32_add : spec_float -> spec_float -> spec_float := SFadd 24 128.
Definition float64_mul : spec_float -> spec_float -> spec_float := SFmul 53 1024.

(** [float32(n)] and [float64(n)] of an integer: the nearest float. *)
Definition float32_of_Z (n : Z) : spec_float := binary_normalize 24 128 n 0 false.
Definition float64_of_Z (n : Z) : spec_float := binary_normalize 53 1024 n 0 false.
(** [float64(f)] of a float32. *)
Definition float64_of_float32 (f : spec_float) : spec_float :=
  match f with
  | S754_finite s m e => binary_round 53 1024 s m e
  | _ => f
  end.

(** The integer part of the magnitude [m * 2 ^ e]. *)
Definition truncMag (m : positive) (e : Z) : Z :=
  if 0 <=? e then Zpos m * 2 ^ e else Zpos m / 2 ^ (- e).

(** Truncation towards zero; none for what is not a number or infinite. *)
Definition truncate (f : spec_float) : option Z :=
  match f with
  | S754_zero _ => Some 0
  | S754_finite s m e => Some (cond_Zopp s (truncMag m e))
  | _ => None
  end.

Definition minInt32 : Z := - 2 ^ 31.
Definition maxInt32 : Z := 2 ^ 31 - 1.

(** [int32(f)]: Go truncates towards zero and leaves the value to the
    implementation when it does not fit; [undefined] is the implementation. *)
Definition int32 (undefined : spec_float -> Z) (f : spec_float) : Z :=
  match truncate f with
  | Some n => if (minInt32 <=? n) && (n <=? maxInt32) then n else undefined f
  | None => undefined f
  end.

(** [uint32(f)] of a float that fits; outside of the range Go does not say. *)
Definition uint32_of_float32 (f : spec_float) : Z :=
  match f with
  | S754_finite false m e => u32 (Z.shiftl (Z.pos m) e)
  | _ => 0
  end.

(** A value that a Go float32 can have. *)
Definition valid32 (f : spec_float) : Prop := valid_binary 24 128 f = true.

(** ** Magnitudes *)

(** [m1 * 2 ^ e1 <= m2 * 2 ^ e2] *)
Definition mle (m1 e1 m2 e2 : Z) : Prop :=
  m1 * 2 ^ (e1 - Z.min e1 e2) <= m2 * 2 ^ (e2 - Z.min e1 e2).


Lemma pow_shift e k j : j <= k <= e -> 2 ^ (e - j) = 2 ^ (e - k) * 2 ^ (k - j).
Proof. intros H. rewrite <- Z.pow_add_r by lia. f_equal. lia. Qed.

(** Magnitudes may be compared at any common exponent. *)
Lemma mle_at k m1 e1 m2 e2 : k <= e1 -> k <= e2 ->
  mle m1 e1 m2 e2 <-> m1 * 2 ^ (e1 - k) <= m2 * 2 ^ (e2 - k).
Proof.
  intros H1 H2. unfold mle. set (j := Z.min e1 e2).
  rewrite (pow_shift e1 j k), (pow_shift e2 j k) by lia.
  pose proof (Z.pow_pos_nonneg 2 (j - k) ltac:(lia) ltac:(lia)). nia.
Qed.

Lemma mle_trans m1 e1 m2 e2 m3 e3 : mle m1 e1 m2 e2 -> mle m2 e2 m3 e3 -> mle m1 e1 m3 e3.
Proof.
  set (k := Z.min e1 (Z.min e2 e3)).
  rewrite !(mle_at k) by lia. lia.
Qed.

Lemma mle_refl m e : mle m e m e.
Proof. unfold mle. lia. Qed.

(** Integer parts keep the order. *)
Lemma truncMag_mono (m1 m2 : positive) e1 e2 : mle (Zpos m1) e1 (Zpos m2) e2 ->
  truncMag m1 e1 <= truncMag m2 e2.
Proof.
  set (k := Z.min 0 (Z.min e1 e2)). rewrite (mle_at k) by lia. intros H.
  assert (T : forall m e, k <= e -> truncMag m e = Zpos m * 2 ^ (e - k) / 2 ^ (- k)).
  { intros m e He. unfold truncMag. destruct (Z.leb_spec 0 e).
    - replace (e - k) with (e + - k) by lia. rewrite Z.pow_add_r, Z.mul_assoc by lia.
      by rewrite Z.div_mul by lia.
    - replace (- k) with (- e + (e - k)) by lia. rewrite Z.pow_add_r by lia.
      rewrite Z.div_mul_cancel_r; lia. }
  rewrite !T by lia. apply Z.div_le_mono; lia.
Qed.

Lemma truncMag_nonneg m e : 0 <= truncMag m e.
Proof. unfold truncMag. destruct (Z.leb_spec 0 e); [nia|]. apply Z.div_pos; lia. Qed.

(** ** Digits and shifts *)

Lemma digits2_bounds (p : positive) :
  2 ^ (Zpos (digits2_pos p) - 1) <= Zpos p < 2 ^ Zpos (digits2_pos p).
Proof.
  induction p as [p IH|p IH|]; cbn [digits2_pos]; [..|by simpl];
    set (d := Zpos (digits2_pos p)) in *; assert (0 < d) by lia;
    replace (Zpos (Pos.succ (digits2_pos p))) with (d + 1) by (unfold d; lia);
    replace (d + 1 - 1) with (d - 1 + 1) by lia; rewrite !Z.pow_add_r by lia; lia.
Qed.

Lemma digits2_le (p : positive) n : Zpos p < 2 ^ n -> 0 <= n -> Zpos (digits2_pos p) <= n.
Proof.
  intros H Hn. pose proof (digits2_bounds p) as [L _].
  assert (Zpos (digits2_pos p) - 1 < n); [|lia].
  apply (Z.pow_lt_mono_r_iff 2); lia.
Qed.

Lemma digits2_ge (p : positive) n : 2 ^ n <= Zpos p -> 0 <= n -> n < Zpos (digits2_pos p).
Proof.
  intros H Hn. pose proof (digits2_bounds p) as [_ L]. apply (Z.pow_lt_mono_r_iff 2); lia.
Qed.

(** Shifting a non-negative mantissa to the right divides it. *)
Lemma shr_1_m mrs : 0 <= shr_m mrs -> shr_m (shr_1 mrs) = shr_m mrs / 2.
Proof.
  destruct mrs as [m r s]. destruct m as [|[p|p|]|p]; try reflexivity; cbn [shr_m shr_1]; intros H.
  - apply (Z.div_unique _ 2 _ 1); lia.
  - apply (Z.div_unique _ 2 _ 0); lia.
  - lia.
Qed.

Lemma iter_pos_iter {A} (f : A -> A) p x : iter_pos f p x = Pos.iter f x p.
Proof.
  revert x. induction p as [p IH|p IH|]; intros x; cbn; [| |done].
  - rewrite !IH. by rewrite <- !Pos.iter_swap.
  - by rewrite !IH.
Qed.

Lemma shr_iter_m p mrs : 0 <= shr_m mrs -> shr_m (iter_pos shr_1 p mrs) = shr_m mrs / 2 ^ Zpos p.
Proof.
  intros H. rewrite iter_pos_iter.
  induction p as [|p IH] using Pos.peano_ind; [by apply shr_1_m|].
  rewrite Pos.iter_succ, shr_1_m, IH, Z.div_div by (try rewrite IH; try apply Z.div_pos; lia).
  f_equal. rewrite Pos2Z.inj_succ, Z.pow_succ_r; lia.
Qed.

(** ** Rounding *)

Section Rounding.
Context (prec emax : Z) (Hprec : 1 < prec) (Hmax : prec < emax).
Notation emin := (emin prec emax).
Notation fexp := (fexp prec emax).

(** The mantissa and the exponent of a float of the format, not
    necessarily the canonical ones. *)
Definition fits (m e : Z) : Prop := 0 < m < 2 ^ prec /\ emin <= e.

Lemma canonical_fits m e : bounded prec emax m e = true -> fits (Zpos m) e.
Proof.
  unfold bounded, canonical_mantissa, fits, SpecFloat.fexp. intros H.
  apply andb_prop in H as [H _]. apply Z.eqb_eq in H.
  pose proof (digits2_bounds m) as [_ L].
  pose proof (Z.pow_le_mono_r 2 (Zpos (digits2_pos m)) prec ltac:(lia) ltac:(lia)). lia.
Qed.

(** A canonical mantissa above the least exponent has all its digits. *)
Lemma canonical_normal m e : bounded prec emax m e = true -> emin < e -> 2 ^ (prec - 1) <= Zpos m.
Proof.
  unfold bounded, canonical_mantissa, SpecFloat.fexp. intros H He.
  apply andb_prop in H as [H _]. apply Z.eqb_eq in H.
  pose proof (digits2_bounds m) as [L _].
  by replace (prec - 1) with (Zpos (digits2_pos m) - 1) by lia.
Qed.

Lemma shr_fexp_spec m e l : 0 <= m ->
  let '(mrs, e') := shr_fexp prec emax m e l in
  e' = Z.max e (fexp (Zdigits2 m + e)) /\ shr_m mrs = m / 2 ^ (e' - e).
Proof.
  intros Hm. unfold shr_fexp.
  assert (R : shr_m (shr_record_of_loc m l) = m) by (by destruct l as [|[]]).
  destruct (fexp (Zdigits2 m + e) - e) as [|p|p] eqn:En; cbn [shr].
  - rewrite R, Z.sub_diag, Z.div_1_r. lia.
  - rewrite shr_iter_m, R by (rewrite R; done). split; [lia|]. do 2 f_equal. lia.
  - rewrite R, Z.sub_diag, Z.div_1_r. lia.
Qed.

Lemma round_ne_cases q l : round_nearest_even q l = q \/ round_nearest_even q l = q + 1.
Proof. destruct l as [|[]]; cbn; try destruct (Z.even q); auto. Qed.

(** The first shift leaves at most [prec] digits, and exactly [prec] above
    the least exponent. *)
Lemma first_shift (m : positive) e :
  let e1 := Z.max e (fexp (Zpos (digits2_pos m) + e)) in
  let q := Zpos m / 2 ^ (e1 - e) in
  emin <= e1 /\ 0 <= q < 2 ^ prec /\
  (e < e1 -> emin < e1 -> 2 ^ (prec - 1) <= q) /\
  (e <= fexp (Zpos (digits2_pos m) + e) -> emin < e1 -> 2 ^ (prec - 1) <= q).
Proof.
  intros e1 q. pose proof (digits2_bounds m) as [L U].
  assert (E1 : emin <= e1) by (unfold e1, SpecFloat.fexp; lia).
  assert (B : Zpos (digits2_pos m) <= prec + (e1 - e)) by (unfold e1, SpecFloat.fexp; lia).
  assert (G : e <= fexp (Zpos (digits2_pos m) + e) -> emin < e1 -> 2 ^ (prec - 1) <= q).
  { intros H1 H2. assert (Ee : e1 - e = Zpos (digits2_pos m) - prec) by (unfold e1, SpecFloat.fexp in *; lia).
    unfold q. apply Z.div_le_lower_bound; [lia|].
    rewrite <- Z.pow_add_r by lia. by replace (e1 - e + (prec - 1)) with (Zpos (digits2_pos m) - 1) by lia. }
  repeat split; try done.
  - unfold q. apply Z.div_pos; lia.
  - unfold q. apply Z.div_lt_upper_bound; [lia|].
    rewrite <- Z.pow_add_r by lia.
    pose proof (Z.pow_le_mono_r 2 (Zpos (digits2_pos m)) (e1 - e + prec) ltac:(lia) ltac:(lia)). lia.
  - intros H1 H2. apply G; [|done]. unfold e1 in *. lia.
Qed.

(** The second shift only renormalises a mantissa that was rounded up to
    the next power of two. *)
Lemma second_shift r e1 : 0 <= r <= 2 ^ prec -> emin <= e1 ->
  let '(mrs, e2) := shr_fexp prec emax r e1 loc_Exact in
  (shr_m mrs = r /\ e2 = e1 /\ r < 2 ^ prec) \/
  (shr_m mrs = 2 ^ (prec - 1) /\ e2 = e1 + 1 /\ r = 2 ^ prec).
Proof.
  intros Hr He. pose proof (shr_fexp_spec r e1 loc_Exact ltac:(lia)) as S.
  destruct (shr_fexp _ _ _ _ _) as [mrs e2]. destruct S as [E2 ->].
  destruct (decide (r = 2 ^ prec)) as [E|N].
  - right. assert (D : Zdigits2 r = prec + 1).
    { destruct r as [|p|p]; [lia| |lia]. cbn. pose proof (digits2_le p (prec + 1)) as A.
      pose proof (digits2_ge p prec) as C. rewrite Z.pow_add_r in A by lia. lia. }
    rewrite D in E2. unfold SpecFloat.fexp in E2. assert (e2 = e1 + 1) as -> by lia.
    replace (e1 + 1 - e1) with 1 by lia. rewrite E.
    replace prec with (prec - 1 + 1) at 1 by lia. rewrite Z.pow_add_r, Z.div_mul by lia. lia.
  - left. assert (D : Zdigits2 r <= prec).
    { destruct r as [|p|p]; [cbn; lia| |lia]. cbn. apply digits2_le; lia. }
    unfold SpecFloat.fexp in E2. assert (e2 = e1) as -> by lia.
    rewrite Z.sub_diag, Z.div_1_r. lia.
Qed.

(** Dropping digits does not bring a magnitude below one of the format. *)
Lemma shift_keeps m0 e0 (m : positive) e : fits m0 e0 -> mle m0 e0 (Zpos m) e ->
  let e1 := Z.max e (fexp (Zpos (digits2_pos m) + e)) in
  mle m0 e0 (Zpos m / 2 ^ (e1 - e)) e1.
Proof.
  intros [F1 F2] H e1. pose proof (first_shift m e) as (B1 & B2 & B3 & _). fold e1 in B1, B2, B3.
  destruct (Z.le_gt_cases e1 e0) as [C|C].
  - rewrite (mle_at e) in H by lia. rewrite Z.sub_diag, Z.mul_1_r in H.
    rewrite (mle_at e1) by lia. rewrite Z.sub_diag, Z.mul_1_r.
    apply Z.div_le_lower_bound; [lia|].
    rewrite (pow_shift e0 e1 e) in H by lia. lia.
  - destruct (Z.eq_dec e e1) as [E|N].
    + rewrite <- E, Z.sub_diag, Z.div_1_r. done.
    + rewrite (mle_at e0) by lia. rewrite Z.sub_diag, Z.mul_1_r.
      pose proof (B3 ltac:(lia) ltac:(lia)).
      pose proof (Z.pow_le_mono_r 2 1 (e1 - e0) ltac:(lia) ltac:(lia)).
      assert (2 ^ prec = 2 ^ (prec - 1) * 2) by (rewrite <- (Z.pow_add_r 2 _ 1) by lia; f_equal; lia). nia.
Qed.

Lemma round_aux_cases sx (m : positive) e l :
  (binary_round_aux prec emax sx (Zpos m) e l = S754_zero sx /\
     forall m0 e0, fits m0 e0 -> ~ mle m0 e0 (Zpos m) e) \/
  binary_round_aux prec emax sx (Zpos m) e l = S754_infinity sx \/
  exists mr er, binary_round_aux prec emax sx (Zpos m) e l = S754_finite sx mr er /\
    fits (Zpos mr) er /\
    (e <= fexp (Zpos (digits2_pos m) + e) -> bounded prec emax mr er = true) /\
    (forall m0 e0, fits m0 e0 -> mle m0 e0 (Zpos m) e -> mle m0 e0 (Zpos mr) er).
Proof.
  unfold binary_round_aux.
  pose proof (shr_fexp_spec (Zpos m) e l ltac:(lia)) as S1. cbn [Zdigits2] in S1.
  destruct (shr_fexp prec emax (Zpos m) e l) as [mrs1 e1]. destruct S1 as [E1 Q1].
  pose proof (first_shift m e) as (B1 & B2 & _ & B4).
  pose proof (fun m0 e0 F H => shift_keeps m0 e0 m e F H) as K. cbn zeta in K. rewrite <- E1, <- Q1 in *.
  set (q := shr_m mrs1) in *. set (r := round_nearest_even q _).
  assert (R : q <= r <= q + 1) by (destruct (round_ne_cases q (loc_of_shr_record mrs1)); unfold r; lia).
  pose proof (second_shift r e1 ltac:(lia) B1) as S2.
  destruct (shr_fexp prec emax r e1 loc_Exact) as [mrs2 e2].
  assert (KR : forall m0 e0, fits m0 e0 -> mle m0 e0 (Zpos m) e -> mle m0 e0 (shr_m mrs2) e2).
  { intros m0 e0 F H. apply (mle_trans _ _ q e1); [by apply K|].
    destruct S2 as [(-> & -> & _)|(-> & -> & Er)]; rewrite (mle_at e1) by lia.
    - rewrite Z.sub_diag. lia.
    - replace (e1 + 1 - e1) with 1 by lia. rewrite Z.sub_diag, <- Z.pow_add_r by lia.
      replace (prec - 1 + 1) with prec by lia. lia. }
  assert (P : 2 ^ (prec - 1) < 2 ^ prec) by (apply Z.pow_lt_mono_r; lia).
  destruct (shr_m mrs2) as [|mr|mr] eqn:E2.
  - left. split; [done|]. intros m0 e0 F H. pose proof (KR m0 e0 F H) as H'.
    destruct F. unfold mle in H'. pose proof (Z.pow_pos_nonneg 2 (e0 - Z.min e0 e2) ltac:(lia) ltac:(lia)). nia.
  - right. destruct (Z.leb_spec e2 (emax - prec)) as [Le|Gt]; [|by left]. right. exists mr, e2.
    split; [done|]. split; [unfold fits; destruct S2 as [(? & ? & ?)|(? & ? & ?)]; lia|]. split; [|done].
    intros H. specialize (B4 H). unfold bounded, canonical_mantissa. apply andb_true_intro.
    split; [|by apply Z.leb_le]. apply Z.eqb_eq.
    assert (D1 : Zpos (digits2_pos mr) <= prec) by (apply digits2_le; destruct S2 as [(? & ? & ?)|(? & ? & ?)]; lia).
    assert (D2 : emin < e2 -> prec - 1 < Zpos (digits2_pos mr)).
    { intros G. apply digits2_ge; [|lia]. destruct S2 as [(? & -> & ?)|(? & ? & ?)]; [specialize (B4 G)|]; lia. }
    assert (emin <= e2) by (destruct S2 as [(? & ? & ?)|(? & ? & ?)]; lia).
    unfold SpecFloat.fexp. lia.
  - exfalso. destruct S2 as [(? & ? & ?)|(? & ? & ?)]; lia.
Qed.

(** *** Products *)

Lemma digits2_mul (a b : positive) :
  Zpos (digits2_pos a) + Zpos (digits2_pos b) - 1 <= Zpos (digits2_pos (a * b)).
Proof.
  pose proof (digits2_bounds a) as [La _]. pose proof (digits2_bounds b) as [Lb _].
  pose proof (digits2_ge (a * b) ((Zpos (digits2_pos a) - 1) + (Zpos (digits2_pos b) - 1))) as H.
  rewrite Z.pow_add_r, Pos2Z.inj_mul in H by lia. specialize (H ltac:(nia)). lia.
Qed.

(** A product of floats has digits to spare: rounding makes it canonical. *)
Lemma mul_aligned mx ex my ey : bounded prec emax mx ex = true -> bounded prec emax my ey = true ->
  ex + ey <= fexp (Zpos (digits2_pos (mx * my)) + (ex + ey)).
Proof.
  unfold bounded, canonical_mantissa, SpecFloat.fexp, SpecFloat.emin. intros Hx Hy.
  apply andb_prop in Hx as [Hx _]. apply andb_prop in Hy as [Hy _].
  apply Z.eqb_eq in Hx, Hy. pose proof (digits2_mul mx my). lia.
Qed.

(** A float that is a number and at least one in magnitude. *)
Definition atLeastOne (s : bool) (f : spec_float) : Prop :=
  f = S754_infinity s \/
  exists m e, f = S754_finite s m e /\ bounded prec emax m e = true /\ mle 1 0 (Zpos m) e.

(** Multiplying by at least one does not decrease the magnitude. *)
Lemma mul_above sx mx ex sy y : fits (Zpos mx) ex -> atLeastOne sy y ->
  SFmul prec emax (S754_finite sx mx ex) y = S754_infinity (xorb sx sy) \/
  exists mr er, SFmul prec emax (S754_finite sx mx ex) y = S754_finite (xorb sx sy) mr er /\
    mle (Zpos mx) ex (Zpos mr) er /\ (bounded prec emax mx ex = true -> bounded prec emax mr er = true).
Proof.
  intros Fx [->|(my & ey & -> & Hy & H1)]; [by left|]. cbn [SFmul].
  assert (M : mle (Zpos mx) ex (Zpos (mx * my)) (ex + ey)).
  { rewrite (mle_at (ex + Z.min 0 ey)) by lia. rewrite (mle_at (Z.min 0 ey)) in H1 by lia.
    replace (ex - (ex + Z.min 0 ey)) with (0 - Z.min 0 ey) by lia.
    replace (ex + ey - (ex + Z.min 0 ey)) with (ey - Z.min 0 ey) by lia.
    rewrite Pos2Z.inj_mul. nia. }
  destruct (round_aux_cases (xorb sx sy) (mx * my) (ex + ey) loc_Exact)
    as [[_ Z]|[->|(mr & er & -> & _ & B & K)]].
  - by destruct (Z _ _ Fx M).
  - by left.
  - right. exists mr, er. split; [done|]. split; [by apply K|]. intros Hx. apply B, mul_aligned; done.
Qed.

(** A quotient that is finite has a mantissa of the format. *)
Lemma round_aux_fits sx mz e l s m er : 0 <= mz ->
  binary_round_aux prec emax sx mz e l = S754_finite s m er -> fits (Zpos m) er.
Proof.
  intros Hm. destruct mz as [|p|p]; [| |lia].
  - unfold binary_round_aux. pose proof (shr_fexp_spec 0 e l ltac:(lia)) as S1.
    destruct (shr_fexp prec emax 0 e l) as [mrs1 e1]. destruct S1 as [E1 Q1]. rewrite Z.div_0_l in Q1 by lia.
    pose proof (round_ne_cases (shr_m mrs1) (loc_of_shr_record mrs1)) as R.
    pose proof (Z.pow_lt_mono_r 2 1 prec ltac:(lia) ltac:(lia) ltac:(lia)).
    pose proof (second_shift (round_nearest_even (shr_m mrs1) (loc_of_shr_record mrs1)) e1 ltac:(lia)
      ltac:(unfold SpecFloat.fexp in E1; lia)) as S2.
    destruct (shr_fexp prec emax _ e1 loc_Exact) as [mrs2 e2].
    destruct S2 as [(E2 & -> & ?)|(E2 & -> & ?)]; [|lia].
    destruct (shr_m mrs2); [done| |done]. destruct (_ <=? _); [|done]. intros [= <- <- <-].
    split; [lia|]. unfold SpecFloat.fexp in E1. lia.
  - destruct (round_aux_cases sx p e l) as [[-> _]|[->|(mr & e' & -> & F & _)]]; [done|done|].
    by intros [= <- <- <-].
Qed.

Lemma div_fits x y s m e : SFdiv prec emax x y = S754_finite s m e -> fits (Zpos m) e.
Proof.
  destruct x as [?|?| |sx mx ex], y as [?|?| |sy my ey]; try done. cbn [SFdiv].
  unfold SFdiv_core_binary.
  set (m' := match _ with Z0 => _ | Zpos _ => _ | Zneg _ => _ end).
  assert (0 <= m').
  { unfold m'. destruct (ex - ey - _); [lia| |lia]. apply Z.shiftl_nonneg. lia. }
  pose proof (Z_div_mod m' (Zpos my) ltac:(lia)) as D.
  destruct (Z.div_eucl m' (Zpos my)) as [q r]. apply round_aux_fits. nia.
Qed.

(** *** Conversions that are exact *)

Lemma digits2_iter_xO (m d : positive) :
  Zpos (digits2_pos (Pos.iter xO m d)) = Zpos (digits2_pos m) + Zpos d.
Proof. induction d as [|d IH] using Pos.peano_ind; [cbn; lia|]. rewrite Pos.iter_succ. cbn. lia. Qed.

Lemma iter_xO (m d : positive) : Zpos (Pos.iter xO m d) = Zpos m * 2 ^ Zpos d.
Proof.
  induction d as [|d IH] using Pos.peano_ind; [cbn; lia|].
  rewrite Pos.iter_succ, (Pos2Z.inj_succ d), Z.pow_succ_r by lia. lia.
Qed.

Lemma round_aux_exact s m e : bounded prec emax m e = true ->
  binary_round_aux prec emax s (Zpos m) e loc_Exact = S754_finite s m e.
Proof.
  unfold bounded, canonical_mantissa. intros H. apply andb_prop in H as [H H']. apply Z.eqb_eq in H.
  assert (S : shr_fexp prec emax (Zpos m) e loc_Exact = ({| shr_m := Zpos m; shr_r := false; shr_s := false |}, e)).
  { unfold shr_fexp. cbn [Zdigits2]. by rewrite H, Z.sub_diag. }
  unfold binary_round_aux. rewrite S. cbn [shr_m loc_of_shr_record round_nearest_even]. rewrite S. cbn [shr_m].
  by rewrite H'.
Qed.

(** A magnitude with few enough digits is converted exactly. *)
Lemma binary_round_exact s m e : let f := fexp (Zpos (digits2_pos m) + e) in
  f <= e -> f <= emax - prec ->
  exists mz, binary_round prec emax s m e = S754_finite s mz f /\
    Zpos mz = Zpos m * 2 ^ (e - f) /\ bounded prec emax mz f = true.
Proof.
  intros f H1 H2. unfold binary_round, shl_align. fold f.
  assert (B : forall mz, Zpos (digits2_pos mz) + f = Zpos (digits2_pos m) + e -> bounded prec emax mz f = true).
  { intros mz E. unfold bounded, canonical_mantissa. rewrite E. fold f. rewrite Z.eqb_refl. by apply Z.leb_le. }
  clearbody f. destruct (f - e) as [|d|d] eqn:E; [|lia|].
  - exists m. assert (e = f) as -> by lia. rewrite round_aux_exact by (apply B; lia).
    rewrite Z.sub_diag, Z.mul_1_r. split; [done|]. split; [done|]. apply B; lia.
  - exists (Pos.iter xO m d). assert (Bz : bounded prec emax (Pos.iter xO m d) f = true).
    { apply B. rewrite digits2_iter_xO. lia. }
    rewrite round_aux_exact by done. split; [done|]. split; [|done]. rewrite iter_xO. do 2 f_equal. lia.
Qed.

End Rounding.

(** *** Upper bounds *)

Section UpperBounds.
Context (prec emax : Z) (Hprec : 1 < prec) (Hmax : prec < emax).
Notation emin := (emin prec emax).
Notation fexp := (fexp prec emax).
Notation fits := (fits prec emax).

Lemma shr_1_exact k : 0 <= k ->
  shr_1 {| shr_m := 2 * k; shr_r := false; shr_s := false |} = {| shr_m := k; shr_r := false; shr_s := false |}.
Proof. by destruct k. Qed.

Lemma shr_iter_exact p k : 0 <= k ->
  iter_pos shr_1 p {| shr_m := k * 2 ^ Zpos p; shr_r := false; shr_s := false |} = {| shr_m := k; shr_r := false; shr_s := false |}.
Proof.
  intros Hk. rewrite iter_pos_iter. revert k Hk. induction p as [|p IH] using Pos.peano_ind; intros k Hk.
  - replace (k * 2 ^ 1) with (2 * k) by lia. by apply shr_1_exact.
  - rewrite Pos.iter_succ_r. replace (k * 2 ^ Zpos (Pos.succ p)) with (2 * (k * 2 ^ Zpos p)) by
      (rewrite Pos2Z.inj_succ, Z.pow_succ_r by lia; lia).
    rewrite shr_1_exact by (pose proof (Z.pow_pos_nonneg 2 (Zpos p)); nia). by apply IH.
Qed.

(** Dropping zeros loses nothing. *)
Lemma shr_fexp_exact m e k : 0 <= k -> m = k * 2 ^ (Z.max e (fexp (Zdigits2 m + e)) - e) ->
  fst (shr_fexp prec emax m e loc_Exact) = {| shr_m := k; shr_r := false; shr_s := false |}.
Proof.
  intros Hk E. unfold shr_fexp. destruct (fexp (Zdigits2 m + e) - e) as [|p|p] eqn:En; cbn [shr fst shr_record_of_loc].
  - f_equal. rewrite E. replace (Z.max _ _ - e) with 0 by lia. lia.
  - replace (Z.max e (fexp (Zdigits2 m + e)) - e) with (Zpos p) in E by lia. rewrite E. by apply shr_iter_exact.
  - f_equal. rewrite E. replace (Z.max _ _ - e) with 0 by lia. lia.
Qed.

(** Rounding what is exact so far to the nearest does not bring it above a
    magnitude of the format. *)
Lemma round_aux_upper sx (m : positive) e m0 e0 mr er : fits m0 e0 -> mle (Zpos m) e m0 e0 ->
  binary_round_aux prec emax sx (Zpos m) e loc_Exact = S754_finite sx mr er -> mle (Zpos mr) er m0 e0.
Proof.
  intros [F1 F2] H. unfold binary_round_aux.
  pose proof (shr_fexp_spec prec emax (Zpos m) e loc_Exact ltac:(lia)) as S1.
  pose proof (shr_fexp_exact (Zpos m) e) as X. cbn [Zdigits2] in *.
  destruct (shr_fexp prec emax (Zpos m) e loc_Exact) as [mrs1 e1]. destruct S1 as [E1 Q1]. cbn [fst] in X.
  rewrite <- E1 in X. pose proof (first_shift prec emax Hprec m e) as (B1 & B2 & B3 & _). rewrite <- E1, <- Q1 in *.
  set (q := shr_m mrs1) in *. set (r := round_nearest_even q (loc_of_shr_record mrs1)).
  assert (R : q <= r <= q + 1) by (destruct (round_ne_cases q (loc_of_shr_record mrs1)); unfold r; lia).
  assert (Xr : forall k, 0 <= k -> Zpos m = k * 2 ^ (e1 - e) -> r = k).
  { intros k Hk Ek. specialize (X k Hk Ek). unfold r, q. by rewrite X. }
  assert (Le : e <= e1) by lia. pose proof (Z.pow_pos_nonneg 2 (e1 - e) ltac:(lia) ltac:(lia)) as P1.
  assert (K : mle r e1 m0 e0).
  { destruct (Z.le_gt_cases e1 e0) as [C|C].
    - rewrite (mle_at e) in H by lia. rewrite Z.sub_diag, Z.mul_1_r, (pow_shift e0 e1 e) in H by lia.
      rewrite (mle_at e1) by lia. rewrite Z.sub_diag, Z.mul_1_r. set (N := m0 * 2 ^ (e0 - e1)) in *.
      assert (HN : Zpos m <= N * 2 ^ (e1 - e)) by (unfold N; lia).
      pose proof (Z.mul_div_le (Zpos m) (2 ^ (e1 - e)) ltac:(lia)) as D. rewrite <- Q1 in D.
      destruct (Z.lt_ge_cases q N) as [L|L]; [lia|]. assert (0 <= N) by (unfold N; pose proof (Z.pow_nonneg 2 (e0 - e1)); nia).
      rewrite (Xr N); [lia|done|nia].
    - destruct (Z.eq_dec e e1) as [Ee|Ne].
      + rewrite (Xr (Zpos m)), <- Ee; [done|lia|]. rewrite <- Ee, Z.sub_diag. lia.
      + exfalso. specialize (B3 ltac:(lia) ltac:(lia)). set (j := Z.min e e0). rewrite (mle_at j) in H by lia.
        pose proof (Z.mul_div_le (Zpos m) (2 ^ (e1 - e)) ltac:(lia)) as D. rewrite <- Q1 in D.
        assert (Pj : 2 ^ (e1 - j) = 2 ^ (e1 - e) * 2 ^ (e - j)) by (apply pow_shift; lia).
        assert (Pk : 2 ^ (e1 - j) = 2 ^ (e1 - e0 - 1) * (2 * 2 ^ (e0 - j))).
        { rewrite <- (Z.pow_succ_r 2), <- Z.pow_add_r by lia. f_equal. lia. }
        pose proof (Z.pow_pos_nonneg 2 (e0 - j) ltac:(lia) ltac:(lia)). pose proof (Z.pow_pos_nonneg 2 (e - j) ltac:(lia) ltac:(lia)).
        pose proof (Z.pow_pos_nonneg 2 (e1 - e0 - 1) ltac:(lia) ltac:(lia)).
        assert (Pp : 2 ^ prec = 2 * 2 ^ (prec - 1)) by (rewrite <- Z.pow_succ_r by lia; f_equal; lia).
        assert (q * 2 ^ (e1 - j) <= Zpos m * 2 ^ (e - j)) by nia.
        assert (2 ^ (prec - 1) * 2 ^ (e1 - j) <= q * 2 ^ (e1 - j)) by nia.
        assert (m0 * 2 ^ (e0 - j) < 2 ^ prec * 2 ^ (e0 - j)) by nia.
        assert (2 ^ prec * 2 ^ (e0 - j) <= 2 ^ (prec - 1) * 2 ^ (e1 - j)) by nia. lia. }
  pose proof (second_shift prec emax Hprec r e1 ltac:(lia) B1) as S2.
  destruct (shr_fexp prec emax r e1 loc_Exact) as [mrs2 e2]. destruct (shr_m mrs2) as [|p|p] eqn:Em; [done| |done].
  destruct (e2 <=? emax - prec); [|done]. intros [= <- <-]. destruct S2 as [(E & -> & _)|(E & -> & Er)].
  - by rewrite E.
  - apply (mle_trans _ _ r e1); [|done]. rewrite E, (mle_at e1) by lia. replace (e1 + 1 - e1) with 1 by lia.
    rewrite Z.sub_diag, <- Z.pow_add_r by lia. replace (prec - 1 + 1) with prec by lia. lia.
Qed.

(** A magnitude of at most [2 ^ k] is not rounded to infinity. *)
Lemma round_aux_finite sx (m : positive) e k : mle (Zpos m) e 1 k -> emin <= k -> prec <= k -> k + 1 <= emax - prec ->
  binary_round_aux prec emax sx (Zpos m) e loc_Exact <> S754_infinity sx.
Proof.
  intros H Hk Hp Hm. assert (D : e <= k /\ Zpos (digits2_pos m) + e <= k + 1).
  { set (j := Z.min e k). rewrite (mle_at j) in H by lia. pose proof (Z.pow_pos_nonneg 2 (e - j) ltac:(lia) ltac:(lia)).
    assert (2 ^ (e - j) <= 2 ^ (k - j)) by nia. assert (e - j <= k - j) by (apply (Z.pow_le_mono_r_iff 2); lia).
    split; [lia|]. assert (Ej : j = e) by lia. rewrite Ej, Z.sub_diag, Z.mul_1_r in H.
    pose proof (digits2_le m (k - e + 1)). rewrite Z.pow_add_r in * by lia. lia. }
  unfold binary_round_aux. pose proof (shr_fexp_spec prec emax (Zpos m) e loc_Exact ltac:(lia)) as S1. cbn [Zdigits2] in S1.
  destruct (shr_fexp prec emax (Zpos m) e loc_Exact) as [mrs1 e1]. destruct S1 as [E1 Q1].
  pose proof (first_shift prec emax Hprec m e) as (B1 & B2 & _). rewrite <- E1, <- Q1 in *.
  set (r := round_nearest_even (shr_m mrs1) (loc_of_shr_record mrs1)).
  assert (R : shr_m mrs1 <= r <= shr_m mrs1 + 1) by (destruct (round_ne_cases (shr_m mrs1) (loc_of_shr_record mrs1)); unfold r; lia).
  pose proof (second_shift prec emax Hprec r e1 ltac:(lia) B1) as S2.
  assert (e1 <= k) by (unfold SpecFloat.fexp in E1; lia).
  destruct (shr_fexp prec emax r e1 loc_Exact) as [mrs2 e2]. destruct (shr_m mrs2); [done| |done].
  rewrite (proj2 (Z.leb_le e2 (emax - prec))); [done|]. lia.
Qed.

(** Multiplying by at most one does not increase the magnitude. *)
Lemma mul_below sx mx ex sy my ey k : fits (Zpos mx) ex -> mle (Zpos my) ey 1 0 -> mle (Zpos mx) ex 1 k ->
  emin <= k -> prec <= k -> k + 1 <= emax - prec ->
  SFmul prec emax (S754_finite sx mx ex) (S754_finite sy my ey) = S754_zero (xorb sx sy) \/
  exists mr er, SFmul prec emax (S754_finite sx mx ex) (S754_finite sy my ey) = S754_finite (xorb sx sy) mr er /\
    mle (Zpos mr) er (Zpos mx) ex.
Proof.
  intros Fx Hy Hx K1 K2 K3. cbn [SFmul].
  assert (M : mle (Zpos (mx * my)) (ex + ey) (Zpos mx) ex).
  { rewrite (mle_at (ex + Z.min 0 ey)) by lia. rewrite (mle_at (Z.min 0 ey)) in Hy by lia.
    replace (ex - (ex + Z.min 0 ey)) with (0 - Z.min 0 ey) by lia.
    replace (ex + ey - (ex + Z.min 0 ey)) with (ey - Z.min 0 ey) by lia.
    rewrite Pos2Z.inj_mul. nia. }
  pose proof (round_aux_finite (xorb sx sy) (mx * my) (ex + ey) k (mle_trans _ _ _ _ _ _ M Hx) K1 K2 K3) as NI.
  destruct (round_aux_cases prec emax Hprec Hmax (xorb sx sy) (mx * my) (ex + ey) loc_Exact) as [[Z _]|[I|(mr & er & E & _)]]; [by left|done|].
  right. exists mr, er. split; [done|]. by apply (round_aux_upper (xorb sx sy) (mx * my) (ex + ey)).
Qed.
End UpperBounds.

(** ** float32 values in the range of ratings *)

Lemma bounded_one (m : positive) e : bounded 24 128 m e = true -> -23 < e \/ e = -23 /\ 2 ^ 23 <= Zpos m ->
  mle 1 0 (Zpos m) e.
Proof.
  intros B H. rewrite (mle_at (-23)) by lia. destruct H as [H|[-> H]]; [|lia].
  pose proof (canonical_normal 24 128 m e B ltac:(unfold emin; lia)) as N.
  pose proof (Z.pow_le_mono_r 2 0 (e - -23) ltac:(lia) ltac:(lia)). change (24 - 1) with 23 in N. nia.
Qed.

Lemma compare_cont_Eq m n : Pos.compare_cont Eq m n = Pos.compare m n.
Proof. done. Qed.

(** What a check [f < 1] lets through. *)
Lemma not_below_one f : valid32 f -> f <> S754_nan -> SFltb f (float32_of_Z 1) = false ->
  atLeastOne 24 128 false f.
Proof.
  intros V N. change (float32_of_Z 1) with (S754_finite false 8388608 (-23)).
  destruct f as [s|[]| |[] m e]; try done; [left; done|]. unfold SFltb. cbn [SFcompare].
  intros H. right. exists m, e. split; [done|]. split; [done|]. apply bounded_one; [done|].
  destruct (Z.compare_spec e (-23)) as [->|L|L]; [|done|lia]. right. split; [done|].
  destruct (Pos.compare_spec m 8388608) as [->|?|?]; [lia| |lia].
  rewrite compare_cont_Eq in H.
  by rewrite (proj2 (Pos.compare_lt_iff m 8388608)) in H.
Qed.

(** What a check [f > -1] lets through. *)
Lemma not_above_minus_one f : valid32 f -> f <> S754_nan -> SFltb (float32_of_Z (-1)) f = false ->
  atLeastOne 24 128 true f.
Proof.
  intros V N. change (float32_of_Z (-1)) with (S754_finite true 8388608 (-23)).
  destruct f as [s|[]| |[] m e]; try done; [left; done|]. unfold SFltb. cbn [SFcompare].
  intros H. right. exists m, e. split; [done|]. split; [done|]. apply bounded_one; [done|].
  destruct (Z.compare_spec (-23) e) as [<-|L|L]; [|lia|done]. right. split; [done|].
  rewrite compare_cont_Eq in H.
  destruct (Pos.compare_spec 8388608 m) as [<-|?|?]; [lia|lia|done].
Qed.

Lemma float64_atLeastOne s f : atLeastOne 24 128 s f -> atLeastOne 53 1024 s (float64_of_float32 f).
Proof.
  intros [->|(m & e & -> & B & H)]; [by left|]. right. cbn [float64_of_float32].
  pose proof (canonical_fits 24 128 ltac:(lia) m e B) as [[_ F1] F2].
  pose proof (digits2_le m 24 F1 ltac:(lia)).
  unfold bounded in B. apply andb_prop in B as [_ B]. apply Z.leb_le in B. unfold emin in F2.
  destruct (binary_round_exact 53 1024 s m e) as (mz & E & Ez & Bz);
    [unfold fexp, emin; lia..|].
  eexists mz, _. split; [exact E|]. split; [done|].
  set (g := fexp _ _ _) in *. assert (g <= e) by (unfold g, fexp, emin; lia).
  rewrite (mle_at (Z.min 0 g)) by lia. rewrite (mle_at (Z.min 0 g)) in H by lia.
  rewrite Ez, <- Z.mul_assoc, <- Z.pow_add_r by lia. by replace (e - g + (g - Z.min 0 g)) with (e - Z.min 0 g) by lia.
Qed.

(** An int32 becomes a float64 exactly. *)
Lemma float64_negative (m : positive) : Zpos m <= 2 ^ 31 ->
  exists mz e, float64_of_Z (Zneg m) = S754_finite true mz e /\ bounded 53 1024 mz e = true /\ truncMag mz e = Zpos m.
Proof.
  intros H. cbn [float64_of_Z binary_normalize]. unfold float64_of_Z, binary_normalize.
  pose proof (digits2_le m 32 ltac:(lia) ltac:(lia)).
  destruct (binary_round_exact 53 1024 true m 0) as (mz & E & Ez & Bz); [unfold fexp, emin; lia..|].
  eexists mz, _. split; [exact E|]. split; [done|].
  set (g := fexp _ _ _) in *. assert (g < 0) by (unfold g, fexp, emin; lia).
  unfold truncMag. destruct (Z.leb_spec 0 g); [lia|]. rewrite Ez, Z.sub_0_l, Z.div_mul; lia.
Qed.

(** What a check [f < -2 ^ 31] lets through fits an int32. *)
Lemma not_below_min (m : positive) e : bounded 53 1024 m e = true ->
  SFltb (S754_finite true m e) (float64_of_Z minInt32) = false -> truncMag m e <= 2 ^ 31.
Proof.
  intros B. assert (float64_of_Z minInt32 = S754_finite true 4503599627370496 (-21)) as -> by reflexivity.
  unfold SFltb. cbn [SFcompare]. intros H.
  rewrite compare_cont_Eq in H.
  pose proof (canonical_fits 53 1024 ltac:(lia) m e B) as [[_ F] _].
  assert (2 ^ 31 = truncMag 4503599627370496 (-21)) as -> by reflexivity. apply truncMag_mono.
  assert (K : Zpos 4503599627370496 = 2 ^ 52) by reflexivity.
  set (k := 4503599627370496%positive) in *. clearbody k. change (2 ^ 53) with (2 ^ 52 * 2) in F.
  destruct (Z.compare_spec e (-21)) as [->|L|L]; [|clear H|done].
  - rewrite (mle_at (-21)) by lia. destruct (Pos.compare_spec m k); [lia|lia|done].
  - rewrite (mle_at e) by lia. rewrite Z.sub_diag, Z.mul_1_r, K.
    pose proof (Z.pow_le_mono_r 2 1 (-21 - e) ltac:(lia) ltac:(lia)) as P. change (2 ^ 1) with 2 in P. nia.
Qed.

(** ** float64 factors of at most one *)

(** An integer of at most 53 bits becomes a float64 exactly. *)
Lemma float64_positive (m : positive) : Zpos m < 2 ^ 53 ->
  exists mz e, float64_of_Z (Zpos m) = S754_finite false mz e /\ bounded 53 1024 mz e = true /\
    truncMag mz e = Zpos m /\ mle (Zpos mz) e 1 53.
Proof.
  intros H. unfold float64_of_Z, binary_normalize. pose proof (digits2_le m 53 ltac:(lia) ltac:(lia)).
  destruct (binary_round_exact 53 1024 false m 0) as (mz & E & Ez & Bz); [unfold fexp, emin; lia..|].
  eexists mz, _. split; [exact E|]. set (g := fexp _ _ _) in *. assert (g <= 0) by (unfold g, fexp, emin; lia).
  rewrite Z.sub_0_l in Ez. split; [done|]. split.
  - unfold truncMag. destruct (Z.leb_spec 0 g); [replace g with 0 in * by lia; lia|]. rewrite Ez, Z.div_mul; lia.
  - rewrite (mle_at g) by lia. rewrite Z.sub_diag, Z.mul_1_r, Ez, Z.mul_1_l. replace (53 - g) with (53 + - g) by lia.
    rewrite Z.pow_add_r by lia. pose proof (Z.pow_pos_nonneg 2 (- g)). nia.
Qed.

(** What a check [f > 1] lets through. *)
Lemma not_above_one (m : positive) e : bounded 53 1024 m e = true -> SFltb (float64_of_Z 1) (S754_finite false m e) = false ->
  mle (Zpos m) e 1 0.
Proof.
  intros B. assert (float64_of_Z 1 = S754_finite false 4503599627370496 (-52)) as -> by reflexivity.
  unfold SFltb. cbn [SFcompare]. rewrite compare_cont_Eq. intros H.
  pose proof (canonical_fits 53 1024 ltac:(lia) m e B) as [[_ F] _].
  assert (K : Zpos 4503599627370496 = 2 ^ 52) by reflexivity. set (k := 4503599627370496%positive) in *. clearbody k.
  change (2 ^ 53) with (2 ^ 52 * 2) in F. rewrite (mle_at (Z.min e (-53))) by lia.
  destruct (Z.compare_spec (-52) e) as [<-|L|L]; [|done|].
  - change (-52 - Z.min (-52) (-53)) with 1. change (0 - Z.min (-52) (-53)) with 53. change (2 ^ 53) with (2 ^ 52 * 2).
    destruct (Pos.compare_spec k m); [lia|done|lia].
  - replace (e - Z.min e (-53)) with 0 by lia. pose proof (Z.pow_le_mono_r 2 53 (0 - Z.min e (-53)) ltac:(lia) ltac:(lia)) as P.
    change (2 ^ 53) with (2 ^ 52 * 2) in P. lia.
Qed.

(** A share of an integer: at most the integer. *)
Lemma float64_share n (f : spec_float) : 0 <= n < 2 ^ 53 -> valid_binary 53 1024 f = true -> f <> S754_nan ->
  SFltb (float64_of_Z 1) f = false -> SFltb f (float64_of_Z 0) = false ->
  exists k, truncate (float64_mul (float64_of_Z n) f) = Some k /\ 0 <= k <= n.
Proof.
  intros Hn V Nn H1 H0. assert (C : (exists s, f = S754_zero s) \/ exists m e, f = S754_finite false m e).
  { destruct f as [s|[]| |[] m e]; try done; [by left; exists s|by right; exists m, e]. }
  destruct C as [[s ->]|(my & ey & ->)].
  - exists 0. split; [|lia]. destruct n as [|n|n]; [done| |lia]. destruct (float64_positive n) as (mz & e & -> & _); [lia|done].
  - destruct n as [|n|n]; [by exists 0|..|lia]. destruct (float64_positive n) as (mz & e & -> & Bz & T & M); [lia|].
    pose proof (not_above_one my ey V H1) as My.
    destruct (mul_below 53 1024 ltac:(lia) ltac:(lia) false mz e false my ey 53) as [E|(mr & er & E & Mr)];
      [by apply canonical_fits|done|done|unfold emin; lia|lia|lia|..]; unfold float64_mul; rewrite E.
    + exists 0. split; [done|lia].
    + exists (truncMag mr er). split; [done|]. split; [apply truncMag_nonneg|]. rewrite <- T. by apply truncMag_mono.
Qed.
