(* ===== verification/Config.v ===== *)
(** * The configuration values (config/config.go, config/ratingsConfig.go)

    The structs of the TOML files that the modelled components read. *)

From Stdlib Require Import ZArith SpecFloat.
From stdpp Require Import base list.
From S2P Require Import Prelude.

(** Parameters of the chain from an epoch on; [Hysteresis] is a float32. *)
Record ChainParametersByEpochConfig := {
  RoundDuration : Z;
  RoundsPerEpoch : Z;
  MinRoundsBetweenEpochs : Z;
  Hysteresis : spec_float;
  EnableEpoch : Z;
  ShardConsensusGroupSize : Z;
  ShardMinNumNodes : Z;
  MetachainConsensusGroupSize : Z;
  MetachainMinNumNodes : Z;
  Adaptivity : bool;
  Offset : Z;
}.

(** The value of a variable of the struct type that nothing was assigned to. *)
Definition zeroChainParameters : ChainParametersByEpochConfig :=
  {| RoundDuration := 0; RoundsPerEpoch := 0; MinRoundsBetweenEpochs := 0; Hysteresis := S754_zero false;
     EnableEpoch := 0; ShardConsensusGroupSize := 0; ShardMinNumNodes := 0; MetachainConsensusGroupSize := 0;
     MetachainMinNumNodes := 0; Adaptivity := false; Offset := 0 |}.

Record SelectionChanceConfig := {
  cfg_MaxThreshold : Z;
  cfg_ChancePercent : Z;
}.

Record General := {
  cfg_StartRating : Z;
  cfg_MaxRating : Z;
  cfg_MinRating : Z;
  cfg_SignedBlocksThreshold : spec_float;
  cfg_SelectionChances : list SelectionChanceConfig;
}.

(** The float32 fields are factors of the rating steps. *)
Record RatingSteps := {
  HoursToMaxRatingFromStartRating : Z;
  ProposerValidatorImportance : spec_float;
  ProposerDecreaseFactor : spec_float;
  ValidatorDecreaseFactor : spec_float;
  ConsecutiveMissedBlocksPenalty : spec_float;
  rs_EnableEpoch : Z;
}.

Definition zeroRatingSteps : RatingSteps :=
  {| HoursToMaxRatingFromStartRating := 0; ProposerValidatorImportance := S754_zero false;
     ProposerDecreaseFactor := S754_zero false; ValidatorDecreaseFactor := S754_zero false;
     ConsecutiveMissedBlocksPenalty := S754_zero false; rs_EnableEpoch := 0 |}.

(** [ShardChain] and [MetaChain] hold nothing but their steps by epoch. *)
Record RatingsConfig := {
  cfg_General : General;
  cfg_ShardChain : list RatingSteps;
  cfg_MetaChain : list RatingSteps;
}.
