(* ===== verification/ChainParameters.v ===== *)
(** * The holder of the chain parameters (sharding/chainParametersHolder.go)

    The parameters by activation epoch, checked and sorted once, and the
    current ones, which the holder follows at every start of an epoch. *)

From Stdlib Require Import ZArith Lia SpecFloat.
From stdpp Require Import base gmap list sorting.
From S2P Require Import Prelude Config.

Inductive ParamsError :=
| ErrMissingConfigurationForEpochZero
| ErrMissingChainParameters
| ErrDuplicateChainParametersEpoch
| ErrNegativeOrZeroConsensusGroupSize
| ErrMinNodesPerShardSmallerThanConsensusSize
| ErrInvalidSettingsForEpochStartTrigger
| ErrNoMatchingConfigurationFound.

Record chainParametersHolder := {
  currentChainParameters : ChainParametersByEpochConfig;
  chainParameters : list ChainParametersByEpochConfig;
}.

(** One round of the loop of [validateChainParameters] after the test for a
    repeated epoch. *)
Definition validateParams (p : ChainParametersByEpochConfig) : option ParamsError :=
  if ShardConsensusGroupSize p <? 1 then Some ErrNegativeOrZeroConsensusGroupSize
  else if ShardMinNumNodes p <? ShardConsensusGroupSize p then Some ErrMinNodesPerShardSmallerThanConsensusSize
  else if MetachainConsensusGroupSize p <? 1 then Some ErrNegativeOrZeroConsensusGroupSize
  else if MetachainMinNumNodes p <? MetachainConsensusGroupSize p then Some ErrMinNodesPerShardSmallerThanConsensusSize
  else if RoundsPerEpoch p <? 1 then Some ErrInvalidSettingsForEpochStartTrigger
  else if MinRoundsBetweenEpochs p <? 1 then Some ErrInvalidSettingsForEpochStartTrigger
  else if RoundsPerEpoch p <? MinRoundsBetweenEpochs p then Some ErrInvalidSettingsForEpochStartTrigger
  else None.

Fixpoint validateChainParameters_loop (epochs : gset Z) (l : list ChainParametersByEpochConfig)
    : option ParamsError :=
  match l with
  | [] => None
  | p :: l =>
      if bool_decide (EnableEpoch p ∈ epochs) then Some ErrDuplicateChainParametersEpoch
      else match validateParams p with
           | Some err => Some err
           | None => validateChainParameters_loop ({[EnableEpoch p]} ∪ epochs) l
           end
  end.

Definition validateChainParameters (l : list ChainParametersByEpochConfig) : option ParamsError :=
  validateChainParameters_loop ∅ l.

(** The notifiers of the arguments are not nil. *)
Definition validateArgs (l : list ChainParametersByEpochConfig) : option ParamsError :=
  if bool_decide (length l = 0%nat) then Some ErrMissingChainParameters else validateChainParameters l.

Definition laterEpoch (p q : ChainParametersByEpochConfig) : Prop := EnableEpoch q <= EnableEpoch p.
#[export] Instance laterEpoch_dec p q : Decision (laterEpoch p q).
Proof. unfold laterEpoch. apply _. Defined.

Definition NewChainParametersHolder (l : list ChainParametersByEpochConfig)
    : result ParamsError chainParametersHolder :=
  match validateArgs l with
  | Some err => Err err
  | None =>
      let sorted := merge_sort laterEpoch l in
      let earliestChainParams := List.last sorted zeroChainParameters in
      if negb (EnableEpoch earliestChainParams =? 0) then Err ErrMissingConfigurationForEpochZero
      else Ok {| currentChainParameters := earliestChainParams; chainParameters := sorted |}
  end.

Fixpoint getMatchingChainParametersUnprotected (epoch : Z) (configValues : list ChainParametersByEpochConfig)
    : result ParamsError ChainParametersByEpochConfig :=
  match configValues with
  | [] => Err ErrNoMatchingConfigurationFound
  | p :: configValues =>
      if EnableEpoch p <=? epoch then Ok p else getMatchingChainParametersUnprotected epoch configValues
  end.

Definition handleEpochChange (epoch : Z) (c : chainParametersHolder) : chainParametersHolder :=
  match getMatchingChainParametersUnprotected epoch (chainParameters c) with
  | Err _ => c
  | Ok p =>
      if EnableEpoch p =? EnableEpoch (currentChainParameters c) then c
      else {| currentChainParameters := p; chainParameters := chainParameters c |}
  end.

(** The header of the new epoch counts only with its epoch. *)
Definition EpochStartAction (epoch : Z) (c : chainParametersHolder) : chainParametersHolder :=
  handleEpochChange epoch c.

Definition CurrentChainParameters (c : chainParametersHolder) : ChainParametersByEpochConfig :=
  currentChainParameters c.

Definition AllChainParameters (c : chainParametersHolder) : list ChainParametersByEpochConfig :=
  chainParameters c.

Definition ChainParametersForEpoch (epoch : Z) (c : chainParametersHolder)
    : result ParamsError ChainParametersByEpochConfig :=
  getMatchingChainParametersUnprotected epoch (chainParameters c).

(** ** What is in force at an epoch *)

(** [x] is the entry of [l] with the latest activation epoch that [epoch] has
    reached. *)
Definition inForce {A} (key : A -> Z) (l : list A) (epoch : Z) (x : A) : Prop :=
  x ∈ l /\ key x <= epoch /\ forall y, y ∈ l -> key y <= epoch -> key y <= key x.

Lemma inForce_perm {A} (key : A -> Z) l l' epoch x : l ≡ₚ l' -> inForce key l epoch x -> inForce key l' epoch x.
Proof. intros P (I & L & M). split; [by rewrite <- P|]. split; [done|]. intros y. rewrite <- P. apply M. Qed.

(** What is in force stays so up to the next activation epoch. *)
Lemma inForce_same {A} (key : A -> Z) l e1 e2 x : e1 <= e2 ->
  (forall y, y ∈ l -> key y <= e2 -> key y <= e1) -> inForce key l e1 x -> inForce key l e2 x.
Proof.
  intros L N (I & Lx & M). split; [done|]. split; [lia|]. intros y Iy Ly. apply M; [done|]. by apply N.
Qed.

Lemma inForce_unique {A} (key : A -> Z) (l : list A) epoch x y : NoDup (key <$> l) ->
  inForce key l epoch x -> inForce key l epoch y -> x = y.
Proof.
  intros N (Ix & Lx & Mx) (Iy & Ly & My).
  assert (E : key x = key y) by (pose proof (Mx y Iy Ly); pose proof (My x Ix Lx); lia).
  apply list_elem_of_lookup in Ix as [i Hi]. apply list_elem_of_lookup in Iy as [j Hj].
  assert (i = j) as ->.
  { apply (NoDup_lookup (key <$> l) i j (key x)); [done|..]; rewrite list_lookup_fmap, ?Hi, ?Hj; cbn; by rewrite ?E. }
  congruence.
Qed.

(** The first entry that [epoch] has reached in a list sorted from the
    latest to the earliest is the one in force. *)
Lemma find_inForce {A} (key : A -> Z) (l : list A) epoch x :
  Sorted (fun a b => key b <= key a) l -> List.find (fun a => key a <=? epoch) l = Some x ->
  inForce key l epoch x.
Proof.
  intros S%Sorted_StronglySorted; [|intros ? ? ?; lia].
  induction S as [|a l S IH F]; [done|]. cbn [List.find].
  destruct (Z.leb_spec (key a) epoch) as [L|L].
  - intros [= <-]. split; [constructor|]. split; [done|]. intros y Iy _.
    apply elem_of_cons in Iy as [->|Iy]; [lia|]. rewrite Forall_forall in F. by apply F.
  - intros (I & Lx & M)%IH. split; [by constructor|]. split; [done|]. intros y Iy Ly.
    apply elem_of_cons in Iy as [->|Iy]; [lia|]. by apply M.
Qed.

Lemma getMatching_find epoch l x : getMatchingChainParametersUnprotected epoch l = Ok x <->
  List.find (fun p => EnableEpoch p <=? epoch) l = Some x.
Proof.
  induction l as [|p l IH]; cbn; [done|]. destruct (EnableEpoch p <=? epoch); [|done].
  split; by intros [= ->].
Qed.

(** ** The invariant of the holder *)

Lemma validate_loop_sound epochs l : validateChainParameters_loop epochs l = None ->
  NoDup (EnableEpoch <$> l) /\ (forall p, p ∈ l -> EnableEpoch p ∉ epochs /\ validateParams p = None).
Proof.
  revert epochs. induction l as [|p l IH]; intros epochs; cbn; [intros _; split; [constructor|intros ? I; inversion I]|].
  case_bool_decide as D; [done|]. destruct (validateParams p) eqn:V; [done|].
  intros (N & F)%IH. split.
  - constructor; [|done]. rewrite list_elem_of_fmap. intros (q & E & I). destruct (F q I) as [F' _]. set_solver.
  - intros q [->|I]%elem_of_cons; [done|]. destruct (F q I). set_solver.
Qed.

(** The holder of the parameters [l]. *)
Record holds (l : list ChainParametersByEpochConfig) (c : chainParametersHolder) : Prop := {
  holds_perm : chainParameters c ≡ₚ l;
  holds_sorted : Sorted laterEpoch (chainParameters c);
  holds_unique : NoDup (EnableEpoch <$> l);
  holds_zero : exists p, p ∈ l /\ EnableEpoch p = 0;
  holds_current : currentChainParameters c ∈ l;
}.

#[local] Instance laterEpoch_total : Total laterEpoch.
Proof. intros p q. unfold laterEpoch. lia. Qed.

Lemma last_elem {A} (l : list A) d : l <> [] -> List.last l d ∈ l.
Proof.
  induction l as [|x l IH]; [done|]. intros _. cbn [List.last]. destruct l as [|y l]; [constructor|].
  constructor. by apply IH.
Qed.

(** The last parameters of the sorted list are the earliest. *)
Lemma sorted_last_earliest (l : list ChainParametersByEpochConfig) d p : Sorted laterEpoch l -> p ∈ l ->
  EnableEpoch (List.last l d) <= EnableEpoch p.
Proof.
  intros S%Sorted_StronglySorted; [|intros ? ? ?; unfold laterEpoch; lia]. revert p.
  induction S as [|q l S IH F]; intros p I; [by apply not_elem_of_nil in I|]. cbn [List.last].
  destruct l as [|r l]; [apply list_elem_of_singleton in I as ->; lia|].
  rewrite Forall_forall in F.
  apply elem_of_cons in I as [->|I]; [|by apply IH].
  apply F. by apply last_elem.
Qed.

Lemma NewChainParametersHolder_holds l c : NewChainParametersHolder l = Ok c ->
  holds l c /\ EnableEpoch (currentChainParameters c) = 0.
Proof.
  unfold NewChainParametersHolder, validateArgs. case_bool_decide as D; [done|].
  unfold validateChainParameters. destruct (validateChainParameters_loop ∅ l) eqn:V; [done|].
  pose proof (merge_sort_Permutation laterEpoch l) as P.
  destruct (Z.eqb_spec (EnableEpoch (List.last (merge_sort laterEpoch l) zeroChainParameters)) 0) as [E|]; [|done].
  assert (I : List.last (merge_sort laterEpoch l) zeroChainParameters ∈ l).
  { rewrite <- (elem_of_Permutation_proper _ _ _ P). apply last_elem. intros E'.
    rewrite E' in P. apply Permutation_nil in P. by rewrite P in D. }
  cbn [negb]. intros [= <-]. split; [|done]. apply validate_loop_sound in V as [N _]. split; cbn; try done.
  - apply Sorted_merge_sort. apply _.
  - by eexists.
Qed.

Lemma matching_inForce l c epoch : holds l c -> 0 <= epoch ->
  exists p, getMatchingChainParametersUnprotected epoch (chainParameters c) = Ok p /\ inForce EnableEpoch l epoch p.
Proof.
  intros H He.
  destruct (getMatchingChainParametersUnprotected epoch (chainParameters c)) as [p|err] eqn:E.
  - exists p. split; [done|]. apply (inForce_perm _ (chainParameters c)); [apply H|].
    apply find_inForce; [apply (holds_sorted _ _ H)|]. by apply getMatching_find.
  - exfalso. destruct (holds_zero _ _ H) as (z & I & Ez). rewrite <- (holds_perm _ _ H) in I.
    clear H. induction (chainParameters c) as [|q qs IH]; [by apply not_elem_of_nil in I|]. cbn in E.
    destruct (Z.leb_spec (EnableEpoch q) epoch); [done|].
    apply elem_of_cons in I as [->|I]; [lia|]. by apply IH.
Qed.

(** The start of an epoch puts the parameters in force at it. *)
Lemma handleEpochChange_holds l c epoch : holds l c -> 0 <= epoch ->
  holds l (handleEpochChange epoch c) /\
  inForce EnableEpoch l epoch (currentChainParameters (handleEpochChange epoch c)).
Proof.
  intros H He. destruct (matching_inForce l c epoch H He) as (p & E & I).
  unfold handleEpochChange. rewrite E.
  destruct (Z.eqb_spec (EnableEpoch p) (EnableEpoch (currentChainParameters c))) as [Eq|N].
  - split; [done|]. destruct I as (Ip & Lp & Mp). pose proof (holds_current _ _ H).
    split; [done|]. rewrite <- Eq. done.
  - split; [|done]. destruct H. split; cbn; try done. apply I.
Qed.

(** The holder after the epochs whose starts it was told, the last one first. *)
Fixpoint epochsStarted (epochs : list Z) (c : chainParametersHolder) : chainParametersHolder :=
  match epochs with
  | [] => c
  | epoch :: epochs => EpochStartAction epoch (epochsStarted epochs c)
  end.

Lemma epochsStarted_holds l c epochs : NewChainParametersHolder l = Ok c -> Forall (Z.le 0) epochs ->
  holds l (epochsStarted epochs c) /\
  inForce EnableEpoch l (List.hd 0 epochs) (currentChainParameters (epochsStarted epochs c)).
Proof.
  intros N. destruct (NewChainParametersHolder_holds l c N) as [H E0].
  induction epochs as [|epoch epochs IH]; intros F; cbn.
  - split; [done|]. split; [apply H|]. split; [lia|]. intros y _ Ly. lia.
  - apply Forall_cons in F as [F0 F]. apply handleEpochChange_holds; [by apply IH|done].
Qed.
