(* ===== verification/Validators.v ===== *)
(** * Lists and maps of validators (sharding/nodesCoordinator)

    The validator, the lists of validators by shard, and the list operations
    of hashValidatorShuffler.go: removal by key, shuffling by hash, copying and
    moving between lists.  A Go map is a finite map; where the code iterates
    over one in the order of Go, the order of the map's list stands for an
    arbitrary one. *)

From Stdlib Require Import ZArith Lia.
From stdpp Require Import base gmap list sorting fin_maps.
From S2P Require Import Prelude.

(** Errors of the package, and [epochStart.ErrReceivedNewListNodeInStakingV4]. *)
Inductive nc_error :=
| ErrNilPubKey
| ErrInvalidShardId
| ErrInvalidNumberPubKeys
| ErrNilInputNodesMap
| ErrSmallShardEligibleListSize
| ErrSmallMetachainEligibleListSize
| ErrMapSizeZero
| ErrEpochNodesConfigDoesNotExist
| ErrNilRandomness
| ErrInvalidRandomnessSize
| ErrValidatorNotFound
| ErrNilWeights
| ErrInvalidSampleSize
| ErrInvalidWeight
| ErrNilRandomSelector
| ErrNilOrEmptyDestinationForDistribute
| ErrEmptyValidatorsList
| ErrReceivedAuctionValidatorsBeforeStakingV4
| ErrReceivedNewListNodeInStakingV4
| ErrKeyNotFoundInWaitingList
| ErrInvalidNumberOfShards
| ErrNilBlockBody
| ErrWrongTypeAssertion
| ErrHashTooShort   (** [binary.BigEndian.Uint64] panics on fewer than 8 bytes *)
| PanicIndexOutOfRange
| ErrCollaborator.  (** an error of a component behind an interface *)

Record Validator := {
  PubKey : bytes;
  Chances : Z;
  Index : Z;
}.

#[export] Instance Validator_eq_dec : EqDecision Validator.
Proof. solve_decision. Defined.

Definition NewValidator (pubKey : option bytes) (chances index : Z) : result nc_error Validator :=
  match pubKey with
  | None => Err ErrNilPubKey
  | Some k => Ok {| PubKey := k; Chances := chances; Index := index |}
  end.

(** [core.MetachainShardId] *)
Definition MetachainShardId : Z := 2 ^ 32 - 1.

Abbreviation ShardMap := (gmap Z (list Validator)).

(** [m[shard]] where a missing key reads as the nil slice. *)
Definition listOf (m : ShardMap) (shard : Z) : list Validator := default [] (m !! shard).

(** ** Orders *)

(** [bytes.Compare(a, b) <= 0], the order of [sort.Strings]. *)
Fixpoint bytes_leb (a b : bytes) : bool :=
  match a, b with
  | [], _ => true
  | _ :: _, [] => false
  | x :: a, y :: b => (x <? y) || ((x =? y) && bytes_leb a b)
  end.
Definition bytes_le (a b : bytes) : Prop := bytes_leb a b = true.
#[export] Instance bytes_le_dec a b : Decision (bytes_le a b).
Proof. unfold bytes_le. apply _. Defined.

Definition sort_Strings (keys : list bytes) : list bytes := merge_sort bytes_le keys.

(** Keys of a map in increasing order. *)
Definition sortKeys {A} (nodes : gmap Z A) : list Z := merge_sort Z.le (map_to_list nodes).*1.

(** [!Less(j, i)] of [validatorList]: by index, then by public key. *)
Definition validatorListLe (v w : Validator) : Prop :=
  Index v < Index w \/ (Index v = Index w /\ bytes_le (PubKey v) (PubKey w)).
#[export] Instance validatorListLe_dec v w : Decision (validatorListLe v w).
Proof. unfold validatorListLe. apply _. Defined.
Definition sort_validatorList (l : list Validator) : list Validator := merge_sort validatorListLe l.

(** ** Removal *)

(** The last element takes the place of the removed one. *)
Definition removeValidatorFromList (validators : list Validator) (index : nat) : list Validator :=
  if (length validators <=? index)%nat then validators
  else match last validators with
       | Some v => take (length validators - 1) (<[index := v]> validators)
       | None => validators
       end.

Definition removeValidatorFromListKeepOrder (validators : list Validator) (index : nat) : list Validator :=
  if (length validators <=? index)%nat then validators
  else take index validators ++ drop (S index) validators.

(** [for i := index - 1; i >= 0; i--] up to the first validator with the key,
    which is removed. *)
Fixpoint removeKey_loop (index : nat) (key : bytes) (validators : list Validator)
    : option (list Validator * Validator) :=
  match index with
  | O => None
  | S i =>
      match validators !! i with
      | Some val =>
          if bool_decide (PubKey val = key) then Some (removeValidatorFromList validators i, val)
          else removeKey_loop i key validators
      | None => removeKey_loop i key validators
      end
  end.

Fixpoint removeValidatorsFromList_loop (validatorsToRemove : list Validator) (maxToRemove : Z)
    (resultedList removed : list Validator) : list Validator * list Validator :=
  match validatorsToRemove with
  | [] => (resultedList, removed)
  | valToRemove :: rest =>
      if Z.of_nat (length removed) =? maxToRemove then (resultedList, removed) else
      match removeKey_loop (length resultedList) (PubKey valToRemove) resultedList with
      | Some (resultedList, val) =>
          removeValidatorsFromList_loop rest maxToRemove resultedList (removed ++ [val])
      | None => removeValidatorsFromList_loop rest maxToRemove resultedList removed
      end
  end.

(** The list without the removed validators, and the removed validators. *)
Definition removeValidatorsFromList (validators validatorsToRemove : list Validator) (maxToRemove : Z)
    : list Validator * list Validator :=
  removeValidatorsFromList_loop validatorsToRemove maxToRemove validators [].

(** The inner loop of [removeDuplicates], which does not stop at a match. *)
Fixpoint removeAllKey_loop (index : nat) (key : bytes) (validators : list Validator) : list Validator :=
  match index with
  | O => validators
  | S i =>
      match validators !! i with
      | Some val =>
          if bool_decide (key = PubKey val)
          then removeAllKey_loop i key (removeValidatorFromList validators i)
          else removeAllKey_loop i key validators
      | None => removeAllKey_loop i key validators
      end
  end.

Definition removeDuplicates (unstake additionalLeaving : list Validator) : list Validator :=
  fold_left (fun additionalCopy unstakeValidator =>
    removeAllKey_loop (length additionalCopy) (PubKey unstakeValidator) additionalCopy)
    unstake additionalLeaving.

(** ** Shuffling *)

(** [hashing/sha256] of the core package. *)
Class ShuffleHasher := shuffle_Compute : bytes -> bytes.

Section Shuffle.
Context {H : ShuffleHasher}.

Definition shuffleKey (randomness : bytes) (v : Validator) : bytes := shuffle_Compute (PubKey v ++ randomness).

Definition shuffleList (validators : list Validator) (randomness : bytes) : list Validator :=
  let keys := List.map (shuffleKey randomness) validators in
  let mapValidators : gmap bytes Validator :=
    fold_left (fun m v => <[shuffleKey randomness v := v]> m) validators ∅ in
  omap (fun key => mapValidators !! key) (sort_Strings keys).
End Shuffle.

(** ** Maps *)

Definition copyValidatorMap (validatorsMap : ShardMap) : ShardMap := validatorsMap.

Definition searchInMap (validatorMap : ShardMap) (pk : bytes) : bool :=
  existsb (fun kv : Z * list Validator => existsb (fun val => bool_decide (PubKey val = pk)) kv.2)
    (map_to_list validatorMap).

Definition getNumPubKeys (shardValidatorsMap : ShardMap) : Z :=
  fold_left (fun n (kv : Z * list Validator) => u32 (n + u32 (Z.of_nat (length kv.2))))
    (map_to_list shardValidatorsMap) 0.

Definition getMaxListSize (lists : ShardMap) : nat :=
  fold_left (fun maxSize (kv : Z * list Validator) =>
    if (maxSize <? length kv.2)%nat then length kv.2 else maxSize) (map_to_list lists) 0%nat.

(** [for shardId := uint32(0); shardId < shards; shardId++] *)
Definition shardIds (shards : Z) : list Z := List.map Z.of_nat (seq 0 (Z.to_nat shards)).

Definition createList (shardMap : ShardMap) (shardId : Z) : ShardMap :=
  match shardMap !! shardId with Some _ => shardMap | None => <[shardId := []]> shardMap end.

Definition createListsForAllShards (shardMap : ShardMap) (shards : Z) : ShardMap :=
  createList (fold_left createList (shardIds shards) shardMap) MetachainShardId.
