(* ===== verification/Shuffler.v ===== *)
(** * The shuffler of validators (hashValidatorShuffler.go, validatorDistributor.go)

    [UpdateNodeLists] computes the validators of the next epoch: leaving nodes
    are removed as far as the shards can spare them, a part of each shard's
    eligible nodes is shuffled out, waiting nodes fill their places, and new,
    selected and shuffled out nodes are distributed to the waiting lists. *)

From Stdlib Require Import ZArith Lia Floats.SpecFloat.
From stdpp Require Import base gmap list sorting fin_maps.
From S2P Require Import Prelude Floats Config Validators.

Record MaxNodesChangeConfig := {
  EpochEnable : Z;
  MaxNumNodes : Z;
  NodesToShufflePerShard : Z;
}.

Record ArgsUpdateNodes := {
  arg_ChainParameters : ChainParametersByEpochConfig;
  arg_Eligible : ShardMap;
  arg_Waiting : ShardMap;
  arg_NewNodes : list Validator;
  arg_UnStakeLeaving : list Validator;
  arg_AdditionalLeaving : list Validator;
  arg_Auction : list Validator;
  arg_Rand : bytes;
  arg_NbShards : Z;
  arg_Epoch : Z;
}.

Record ResUpdateNodes := {
  res_Eligible : ShardMap;
  res_Waiting : ShardMap;
  res_ShuffledOut : ShardMap;
  res_Leaving : list Validator;
  res_StillRemaining : list Validator;
  res_LowWaitingList : bool;
}.

Record shuffleNodesArg := {
  eligible : ShardMap;
  waiting : ShardMap;
  unstakeLeaving : list Validator;
  additionalLeaving : list Validator;
  newNodes : list Validator;
  auction : list Validator;
  randomness : bytes;
  nodesMeta : Z;
  nodesPerShard : Z;
  nbShards : Z;
  maxNodesToSwapPerShard : Z;
  maxNumNodes : Z;
  crossShard : bool;    (** which [ValidatorsDistributor] is set *)
  flagBalanceWaitingLists : bool;
  flagStakingV4Step2 : bool;
  flagStakingV4Step3 : bool;
  flagCleanupAuctionOnLowWaitingList : bool;
}.

Record shuffledNodesConfig := {
  numShuffled : Z;
  numNewEligible : Z;
  numNewWaiting : Z;
  numSelectedAuction : Z;
  cfg_maxNumNodes : Z;
  cfg_flagStakingV4Step2 : bool;
}.

(** The receiver, with the two flags it asks the enable epochs handler for. *)
Record randHashShuffler := {
  shuffleBetweenShards : bool;
  activeNodesConfig : MaxNodesChangeConfig;
  availableNodesConfigs : list MaxNodesChangeConfig;
  stakingV4Step2EnableEpoch : Z;
  rhs_flagStakingV4Step2 : bool;
  stakingV4Step3EnableEpoch : Z;
  rhs_flagStakingV4Step3 : bool;
  BalanceWaitingListsFlag : Z -> bool;
  CleanupAuctionOnLowWaitingListFlag : Z -> bool;
}.

Section Shuffler.
Context {H : ShuffleHasher}.

(** ** Leaving nodes *)

Definition removeNodesFromShard (existingNodes : ShardMap) (leavingNodes : list Validator) (shard : Z)
    (nbToRemove : Z) : ShardMap * list Validator * Z :=
  let nbToRemove := if Z.of_nat (length leavingNodes) <? nbToRemove
                    then Z.of_nat (length leavingNodes) else nbToRemove in
  let '(vList, removedNodes) := removeValidatorsFromList (listOf existingNodes shard) leavingNodes nbToRemove in
  let '(leavingNodes, _) :=
    removeValidatorsFromList leavingNodes removedNodes (Z.of_nat (length removedNodes)) in
  (<[shard := vList]> existingNodes, leavingNodes, Z.of_nat (length removedNodes)).

(** [numToRemove[shardId]], which reads as 0 when it is not set. *)
Definition numOf (numToRemove : gmap Z Z) (shardId : Z) : Z := default 0 (numToRemove !! shardId).

(** Also returns [numToRemove], whose entries the code decrements. *)
Definition removeNodesFromMap (existingNodes : ShardMap) (leavingNodes : list Validator)
    (numToRemove : gmap Z Z) : ShardMap * list Validator * gmap Z Z :=
  fold_left (fun '(existingNodes, leavingNodes, numToRemove) shardId =>
    let '(existingNodes, leavingNodes, numRemoved) :=
      removeNodesFromShard existingNodes leavingNodes shardId (numOf numToRemove shardId) in
    (existingNodes, leavingNodes, <[shardId := numOf numToRemove shardId - numRemoved]> numToRemove))
    (sortKeys existingNodes) (existingNodes, leavingNodes, numToRemove).

Definition removeLeavingNodesFromValidatorMaps (eligible waiting : ShardMap) (numToRemove : gmap Z Z)
    (leaving : list Validator) : ShardMap * ShardMap * list Validator * gmap Z Z :=
  let '(newWaiting, stillRemainingInLeaving, numToRemove) := removeNodesFromMap waiting leaving numToRemove in
  let '(newEligible, stillRemainingInLeaving, numToRemove) :=
    removeNodesFromMap eligible stillRemainingInLeaving numToRemove in
  (newEligible, newWaiting, stillRemainingInLeaving, numToRemove).

Definition removeLeavingNodesNotExistingInEligibleOrWaiting (leavingValidators : list Validator)
    (waiting eligible : ShardMap) : list Validator * list Validator :=
  let notFoundValidators := List.filter (fun v =>
    negb (searchInMap waiting (PubKey v)) && negb (searchInMap eligible (PubKey v))) leavingValidators in
  removeValidatorsFromList leavingValidators notFoundValidators (Z.of_nat (length notFoundValidators)).

Definition computeNumToRemovePerShard (numEligible numWaiting nodesPerShard : Z) : result nc_error Z :=
  if numEligible + numWaiting <? nodesPerShard then Err ErrSmallShardEligibleListSize
  else Ok (numEligible + numWaiting - nodesPerShard).

Fixpoint computeNumToRemove_loop (arg : shuffleNodesArg) (shards : list Z) (numToRemove : gmap Z Z)
    : result nc_error (gmap Z Z) :=
  match shards with
  | [] => Ok numToRemove
  | shardId :: shards =>
      maxToRemove ← computeNumToRemovePerShard (Z.of_nat (length (listOf (eligible arg) shardId)))
        (Z.of_nat (length (listOf (waiting arg) shardId))) (nodesPerShard arg);
      computeNumToRemove_loop arg shards (<[shardId := maxToRemove]> numToRemove)
  end.

Definition computeNumToRemove (arg : shuffleNodesArg) : result nc_error (gmap Z Z) :=
  if nbShards arg =? 0 then Ok ∅ else
  numToRemove ← computeNumToRemove_loop arg (shardIds (nbShards arg)) ∅;
  maxToRemove ← computeNumToRemovePerShard (Z.of_nat (length (listOf (eligible arg) MetachainShardId)))
    (Z.of_nat (length (listOf (waiting arg) MetachainShardId))) (nodesMeta arg);
  Ok (<[MetachainShardId := maxToRemove]> numToRemove).

(** ** Shuffling out *)

Definition shuffleOutShard (validators : list Validator) (validatorsToSelect : Z) (randomness : bytes)
    : list Validator * list Validator :=
  let validatorsToSelect := if Z.of_nat (length validators) <? validatorsToSelect
                            then Z.of_nat (length validators) else validatorsToSelect in
  let shardShuffledEligible := shuffleList validators randomness in
  (take (Z.to_nat validatorsToSelect) shardShuffledEligible,
   drop (Z.to_nat validatorsToSelect) shardShuffledEligible).

(** The shuffled out validators and the ones that stay. *)
Definition shuffleOutNodes (eligible : ShardMap) (numToShuffle : gmap Z Z) (randomness : bytes)
    : ShardMap * ShardMap :=
  fold_left (fun '(shuffledOutMap, newEligible) shardId =>
    let '(shardShuffledOut, validators) :=
      shuffleOutShard (listOf eligible shardId) (numOf numToShuffle shardId) randomness in
    (<[shardId := shardShuffledOut]> shuffledOutMap,
     <[shardId := fst (removeValidatorsFromList validators shardShuffledOut
                         (Z.of_nat (length shardShuffledOut)))]> newEligible))
    (sortKeys eligible) (∅, ∅).

(** ** Moving and distributing *)

Definition computeNeededNodes (destination source : list Validator) (maxNumNodes : Z) : Z :=
  let numCurrentNodes := u32 (Z.of_nat (length destination)) in
  let numSourceNodes := u32 (Z.of_nat (length source)) in
  let numNeededNodes := if numCurrentNodes <? maxNumNodes then maxNumNodes - numCurrentNodes else 0 in
  if numSourceNodes <? numNeededNodes then numSourceNodes else numNeededNodes.

(** The destination and what is left of the source.  The shards of the source
    are independent of one another, so their order does not matter. *)
Definition moveMaxNumNodesToMap (destination source : ShardMap) (numMeta numShard : Z)
    : ShardMap * ShardMap :=
  fold_left (fun '(destination, source) shardId =>
    let maxNodes := if shardId =? MetachainShardId then numMeta else numShard in
    let validators := listOf source shardId in
    let numNeededNodes := Z.to_nat (computeNeededNodes (listOf destination shardId) validators maxNodes) in
    (<[shardId := listOf destination shardId ++ take numNeededNodes validators]> destination,
     <[shardId := drop numNeededNodes validators]> source))
    (map_to_list source).*1 (destination, source).

Definition moveNodesToMap (destination source : ShardMap) : ShardMap * ShardMap :=
  fold_left (fun '(destination, source) shardId =>
    (<[shardId := listOf destination shardId ++ listOf source shardId]> destination,
     <[shardId := []]> source))
    (map_to_list source).*1 (destination, source).

(** Fills the lists up to the longest one; returns the validators that are
    left (the code keeps their index and number). *)
Definition equalizeValidatorsLists (destLists : ShardMap) (validators : list Validator)
    : ShardMap * list Validator :=
  let maxListSize := getMaxListSize destLists in
  fold_left (fun '(destLists, validators) shardID =>
    let shardList := listOf destLists shardID in
    if (length shardList <? maxListSize)%nat then
      let toMove := (maxListSize - length shardList)%nat in
      let toMove := if (length validators <? toMove)%nat then length validators else toMove in
      (<[shardID := shardList ++ take toMove validators]> destLists, drop toMove validators)
    else (destLists, validators))
    (sortKeys destLists) (destLists, validators).

(** [for i, v := range shuffledValidators] from the index [i] on. *)
Fixpoint distribute_loop (sortedShardIds : list Z) (i : Z) (validators : list Validator)
    (destLists : ShardMap) : ShardMap :=
  match validators with
  | [] => destLists
  | v :: validators =>
      let shardId := nth (Z.to_nat (u32 i mod u32 (Z.of_nat (length sortedShardIds)))) sortedShardIds 0 in
      distribute_loop sortedShardIds (i + 1) validators
        (<[shardId := listOf destLists shardId ++ [v]]> destLists)
  end.

Definition distributeValidators (destLists : ShardMap) (validators : list Validator) (randomness : bytes)
    (balanced : bool) : result nc_error ShardMap :=
  if bool_decide (destLists = ∅) then Err ErrNilOrEmptyDestinationForDistribute else
  let shuffledValidators := shuffleList validators randomness in
  let sortedShardIds := sortKeys destLists in
  let '(destLists, shuffledValidators) :=
    if balanced then equalizeValidatorsLists destLists shuffledValidators
    else (destLists, shuffledValidators) in
  Ok (distribute_loop sortedShardIds 0 shuffledValidators destLists).

Definition checkAndDistributeNewNodes (waiting : ShardMap) (newNodes : list Validator)
    (randomness : bytes) (flagStakingV4Step3 : bool) : result nc_error ShardMap :=
  if negb flagStakingV4Step3 then distributeValidators waiting newNodes randomness false
  else if (0 <? length newNodes)%nat then Err ErrReceivedNewListNodeInStakingV4
  else Ok waiting.

(** [DistributeValidators] of the two distributors: across shards all source
    lists are shuffled together and the source is left as it is; within shards
    the source lists move to their own shard. *)
Definition DistributeValidators (crossShard : bool) (destination source : ShardMap) (rand : bytes)
    (balanced : bool) : result nc_error (ShardMap * ShardMap) :=
  if crossShard then
    destination ← distributeValidators destination (concat (map_to_list source).*2) rand balanced;
    Ok (destination, source)
  else Ok (moveNodesToMap destination source).

Definition shouldDistributeShuffledToWaitingInStakingV4 (cfg : shuffledNodesConfig) : bool :=
  if negb (cfg_flagStakingV4Step2 cfg) then false else
  let totalNewWaiting := u32 (numNewWaiting cfg + numSelectedAuction cfg) in
  let totalNodes := u32 (u32 (totalNewWaiting + numNewEligible cfg) + numShuffled cfg) in
  totalNodes <=? cfg_maxNumNodes cfg.

(** ** The shuffle *)

(** [if toRemove > maxNodesToSwapPerShard] of every shard. *)
Definition limitToSwap (maxNodesToSwapPerShard : Z) (numToRemove : gmap Z Z) : gmap Z Z :=
  (fun toRemove => if maxNodesToSwapPerShard <? toRemove then maxNodesToSwapPerShard else toRemove)
    <$> numToRemove.

(** The shuffle up to the distribution of new nodes: the new eligible and
    waiting maps, the shuffled out map, and the leaving nodes that stay. *)
Definition removeAndShuffleOut (arg : shuffleNodesArg)
    : result nc_error (ShardMap * ShardMap * ShardMap * list Validator) :=
  let waitingCopy := createListsForAllShards (copyValidatorMap (waiting arg)) (nbShards arg) in
  let eligibleCopy := copyValidatorMap (eligible arg) in
  numToRemove ← computeNumToRemove arg;
  let numToRemove := limitToSwap (maxNodesToSwapPerShard arg) numToRemove in
  let '(remainingUnstakeLeaving, _) :=
    removeLeavingNodesNotExistingInEligibleOrWaiting (unstakeLeaving arg) waitingCopy eligibleCopy in
  let '(remainingAdditionalLeaving, _) :=
    removeLeavingNodesNotExistingInEligibleOrWaiting (additionalLeaving arg) waitingCopy eligibleCopy in
  let '(newEligible, newWaiting, stillRemainingUnstakeLeaving, numToRemove) :=
    removeLeavingNodesFromValidatorMaps eligibleCopy waitingCopy numToRemove remainingUnstakeLeaving in
  let '(newEligible, newWaiting, stillRemainingAdditionalLeaving, numToRemove) :=
    removeLeavingNodesFromValidatorMaps newEligible newWaiting numToRemove remainingAdditionalLeaving in
  let stillRemainingInLeaving := stillRemainingUnstakeLeaving ++ stillRemainingAdditionalLeaving in
  let '(shuffledOutMap, newEligible) := shuffleOutNodes newEligible numToRemove (randomness arg) in
  let '(newEligible, newWaiting) :=
    moveMaxNumNodesToMap newEligible newWaiting (nodesMeta arg) (nodesPerShard arg) in
  Ok (newEligible, newWaiting, shuffledOutMap, stillRemainingInLeaving).

Definition shuffleNodes (arg : shuffleNodesArg) : result nc_error ResUpdateNodes :=
  let allLeaving := unstakeLeaving arg ++ additionalLeaving arg in
  '(newEligible, newWaiting, shuffledOutMap, stillRemainingInLeaving) ← removeAndShuffleOut arg;
  newWaiting ← checkAndDistributeNewNodes newWaiting (newNodes arg) (randomness arg) (flagStakingV4Step3 arg);
  let shuffledNodesCfg :=
    {| numShuffled := getNumPubKeys shuffledOutMap;
       numNewEligible := getNumPubKeys newEligible;
       numNewWaiting := getNumPubKeys newWaiting;
       numSelectedAuction := u32 (Z.of_nat (length (auction arg)));
       cfg_maxNumNodes := maxNumNodes arg;
       cfg_flagStakingV4Step2 := flagStakingV4Step2 arg |} in
  let lowWaitingList := shouldDistributeShuffledToWaitingInStakingV4 shuffledNodesCfg in
  newWaiting ← (if flagStakingV4Step3 arg || lowWaitingList
                then distributeValidators newWaiting (auction arg) (randomness arg) (flagBalanceWaitingLists arg)
                else Ok newWaiting);
  '(newWaiting, shuffledOutMap) ←
    (if negb (flagStakingV4Step2 arg) || lowWaitingList
     then DistributeValidators (crossShard arg) newWaiting shuffledOutMap (randomness arg)
            (flagBalanceWaitingLists arg)
     else Ok (newWaiting, shuffledOutMap));
  let '(actualLeaving, _) := removeValidatorsFromList allLeaving stillRemainingInLeaving
                               (Z.of_nat (length stillRemainingInLeaving)) in
  Ok {| res_Eligible := newEligible; res_Waiting := newWaiting; res_ShuffledOut := shuffledOutMap;
        res_Leaving := actualLeaving; res_StillRemaining := stillRemainingInLeaving;
        res_LowWaitingList :=
          if flagCleanupAuctionOnLowWaitingList arg then lowWaitingList else false |}.

(** ** The number of shards *)

Definition metaHysteresis (chainParameters : ChainParametersByEpochConfig) : Z :=
  uint32_of_float32 (float32_mul (Hysteresis chainParameters)
    (float32_of_Z (MetachainMinNumNodes chainParameters))).
Definition shardHysteresis (chainParameters : ChainParametersByEpochConfig) : Z :=
  uint32_of_float32 (float32_mul (Hysteresis chainParameters)
    (float32_of_Z (ShardMinNumNodes chainParameters))).

(** How many eligible nodes there are, and waiting nodes in the same shards. *)
Definition countNodes (eligible waiting : ShardMap) : Z * Z :=
  fold_left (fun '(nbEligible, nbWaiting) shard =>
    (nbEligible + Z.of_nat (length (listOf eligible shard)),
     nbWaiting + Z.of_nat (length (listOf waiting shard)))) (map_to_list eligible).*1 (0, 0).

Definition computeNewShards (chainParameters : ChainParametersByEpochConfig) (eligible waiting : ShardMap)
    (numNewNodes numLeavingNodes nbShards : Z) : Z :=
  let '(nbEligible, nbWaiting) := countNodes eligible waiting in
  let nodesNewEpoch := u32 (nbEligible + nbWaiting + numNewNodes - numLeavingNodes) in
  let maxNodesMeta := u32 (MetachainMinNumNodes chainParameters + metaHysteresis chainParameters) in
  let maxNodesShard := u32 (ShardMinNumNodes chainParameters + shardHysteresis chainParameters) in
  let nodesForSplit := u32 (u32 (u32 (nbShards + 1) * maxNodesShard) + maxNodesMeta) in
  let nodesForMerge := u32 (u32 (nbShards * ShardMinNumNodes chainParameters)
                            + MetachainMinNumNodes chainParameters) in
  if nodesForSplit <? nodesNewEpoch then u32 (nodesNewEpoch - maxNodesMeta) / maxNodesShard
  else if nodesNewEpoch <? nodesForMerge then u32 (nbShards - 1)
  else nbShards.

(** Not implemented in the code: they log that and copy the maps. *)
Definition splitShards (eligible waiting : ShardMap) (newNbShards : Z) : ShardMap * ShardMap :=
  (copyValidatorMap eligible, copyValidatorMap waiting).
Definition mergeShards (eligible waiting : ShardMap) (newNbShards : Z) : ShardMap * ShardMap :=
  (copyValidatorMap eligible, copyValidatorMap waiting).

(** ** The shuffler *)

Definition epochEnableLe (c d : MaxNodesChangeConfig) : Prop := EpochEnable c <= EpochEnable d.
#[export] Instance epochEnableLe_dec c d : Decision (epochEnableLe c d).
Proof. unfold epochEnableLe. apply _. Defined.

Definition sortConfigs (configs : list MaxNodesChangeConfig) : list MaxNodesChangeConfig :=
  merge_sort epochEnableLe configs.

Definition NewHashValidatorsShuffler (shuffleBetweenShards : bool) (configs : list MaxNodesChangeConfig)
    (step2 step3 : Z) (balance cleanup : Z -> bool) : randHashShuffler :=
  {| shuffleBetweenShards := shuffleBetweenShards;
     activeNodesConfig := {| EpochEnable := 0; MaxNumNodes := 0; NodesToShufflePerShard := 0 |};
     availableNodesConfigs := sortConfigs configs;
     stakingV4Step2EnableEpoch := step2; rhs_flagStakingV4Step2 := false;
     stakingV4Step3EnableEpoch := step3; rhs_flagStakingV4Step3 := false;
     BalanceWaitingListsFlag := balance; CleanupAuctionOnLowWaitingListFlag := cleanup |}.

Definition UpdateShufflerConfig (epoch : Z) (chainParameters : ChainParametersByEpochConfig)
    (rhs : randHashShuffler) : randHashShuffler :=
  let active :=
    {| EpochEnable := EpochEnable (activeNodesConfig rhs);
       MaxNumNodes := MaxNumNodes (activeNodesConfig rhs);
       NodesToShufflePerShard := ShardMinNumNodes chainParameters |} in
  let active := fold_left (fun active maxNodesConfig =>
    if EpochEnable maxNodesConfig <=? epoch then maxNodesConfig else active)
    (availableNodesConfigs rhs) active in
  {| shuffleBetweenShards := shuffleBetweenShards rhs;
     activeNodesConfig := active;
     availableNodesConfigs := availableNodesConfigs rhs;
     stakingV4Step2EnableEpoch := stakingV4Step2EnableEpoch rhs;
     rhs_flagStakingV4Step2 := stakingV4Step2EnableEpoch rhs <=? epoch;
     stakingV4Step3EnableEpoch := stakingV4Step3EnableEpoch rhs;
     rhs_flagStakingV4Step3 := stakingV4Step3EnableEpoch rhs <=? epoch;
     BalanceWaitingListsFlag := BalanceWaitingListsFlag rhs;
     CleanupAuctionOnLowWaitingListFlag := CleanupAuctionOnLowWaitingListFlag rhs |}.

Definition UpdateNodeLists (args : ArgsUpdateNodes) : SE randHashShuffler nc_error ResUpdateNodes :=
  let chainParameters := arg_ChainParameters args in
  _ ← se_modify (UpdateShufflerConfig (arg_Epoch args) chainParameters);
  rhs ← se_get;
  let additionalLeaving := removeDuplicates (arg_UnStakeLeaving args) (arg_AdditionalLeaving args) in
  let totalLeavingNum := Z.of_nat (length additionalLeaving + length (arg_UnStakeLeaving args)) in
  let newNbShards := computeNewShards chainParameters (arg_Eligible args) (arg_Waiting args)
    (Z.of_nat (length (arg_NewNodes args))) totalLeavingNum (arg_NbShards args) in
  let canSplit := Adaptivity chainParameters && (arg_NbShards args <? newNbShards) in
  let canMerge := Adaptivity chainParameters && (newNbShards <? arg_NbShards args) in
  let '(eligibleAfterReshard, waitingAfterReshard) :=
    if canMerge then mergeShards (arg_Eligible args) (arg_Waiting args) newNbShards
    else if canSplit then splitShards (arg_Eligible args) (arg_Waiting args) newNbShards
    else (copyValidatorMap (arg_Eligible args), copyValidatorMap (arg_Waiting args)) in
  se_lift (shuffleNodes
    {| eligible := eligibleAfterReshard; waiting := waitingAfterReshard;
       unstakeLeaving := arg_UnStakeLeaving args; additionalLeaving := additionalLeaving;
       newNodes := arg_NewNodes args; auction := arg_Auction args; randomness := arg_Rand args;
       nodesMeta := MetachainMinNumNodes chainParameters;
       nodesPerShard := ShardMinNumNodes chainParameters;
       nbShards := arg_NbShards args;
       maxNodesToSwapPerShard := NodesToShufflePerShard (activeNodesConfig rhs);
       maxNumNodes := MaxNumNodes (activeNodesConfig rhs);
       crossShard := shuffleBetweenShards rhs;
       flagBalanceWaitingLists := BalanceWaitingListsFlag rhs (arg_Epoch args);
       flagStakingV4Step2 := rhs_flagStakingV4Step2 rhs;
       flagStakingV4Step3 := rhs_flagStakingV4Step3 rhs;
       flagCleanupAuctionOnLowWaitingList := CleanupAuctionOnLowWaitingListFlag rhs (arg_Epoch args) |}).
End Shuffler.
