(* ===== verification/ValidatorsSpec.v ===== *)
(** * The list operations of the shuffler, as operations on multisets

    Removal takes out exactly the keys asked for, shuffling by hash is a
    permutation that does not depend on the order of its input, and a map of
    lists is one multiset, [allOf], that an update of one list changes by that
    list. *)

From Stdlib Require Import ZArith Lia.
From stdpp Require Import base gmap list sorting fin_maps.
From S2P Require Import Prelude Validators.

(** Public keys of a list. *)
Abbreviation pks := (List.map PubKey).

Lemma pks_app l1 l2 : pks (l1 ++ l2) = pks l1 ++ pks l2.
Proof. apply List.map_app. Qed.

(** Permutations of concatenations, from others: by counting occurrences. *)
Ltac perm :=
  rewrite ?List.map_app in *;
  match goal with
  | |- @Permutation ?A _ _ =>
      apply (Permutation_count_occ (fun x y : A => decide (x = y)));
      let z := fresh in intros z;
      repeat match goal with
        | P : @Permutation A ?l1 ?l2 |- _ =>
            (pose proof (proj1 (Permutation_count_occ (fun x y : A => decide (x = y)) l1 l2) P z); clear P)
        end;
      rewrite ?count_occ_app in *; lia
  end.

#[export] Instance pks_Permutation : Proper ((≡ₚ) ==> (≡ₚ)) pks.
Proof. intros l1 l2 E. by apply Permutation_map. Qed.

(** ** Orders *)

#[export] Instance bytes_le_total : Total bytes_le.
Proof.
  unfold bytes_le. intros a. induction a as [|x a IH]; intros [|y b]; cbn; auto.
  destruct (Z.ltb_spec x y), (Z.ltb_spec y x), (Z.eqb_spec x y), (Z.eqb_spec y x); cbn; auto; lia.
Qed.

#[export] Instance bytes_le_trans : Transitive bytes_le.
Proof.
  unfold bytes_le. intros a. induction a as [|x a IH]; intros [|y b] [|z c]; cbn; try done.
  intros [H1|[H1 H1']%andb_true_iff]%orb_true_iff [H2|[H2 H2']%andb_true_iff]%orb_true_iff;
    apply orb_true_iff; rewrite ?Z.ltb_lt, ?Z.eqb_eq in *.
  - left. lia.
  - left. lia.
  - left. lia.
  - right. apply andb_true_iff. rewrite Z.eqb_eq. split; [lia|by eapply IH].
Qed.

#[export] Instance bytes_le_antisymm : AntiSymm (=) bytes_le.
Proof.
  unfold bytes_le. intros a. induction a as [|x a IH]; intros [|y b]; cbn; try done.
  intros [H1|[H1 H1']%andb_true_iff]%orb_true_iff [H2|[H2 H2']%andb_true_iff]%orb_true_iff;
    rewrite ?Z.ltb_lt, ?Z.eqb_eq in *; [lia..|]. subst. f_equal. by apply IH.
Qed.

(** ** Removal *)

Lemma insert_middle {A} (l : list A) i x y : l !! i = Some x ->
  exists l', l ≡ₚ x :: l' /\ <[i := y]> l ≡ₚ y :: l'.
Proof.
  intros E. exists (take i l ++ drop (S i) l). split.
  - rewrite <- (take_drop_middle l i x E) at 1. by rewrite Permutation_middle.
  - rewrite insert_take_drop by (by eapply lookup_lt_Some). by rewrite Permutation_middle.
Qed.

Lemma removeValidatorFromList_spec l i v : l !! i = Some v -> l ≡ₚ v :: removeValidatorFromList l i.
Proof.
  intros E. pose proof (lookup_lt_Some _ _ _ E) as Li. unfold removeValidatorFromList.
  rewrite (proj2 (Nat.leb_gt _ _) Li). destruct (last l) as [w|] eqn:El.
  2: { apply last_None in El. by subst. }
  apply last_Some in El as [l' ->]. rewrite length_app, Nat.add_1_r in *.
  replace (S (length l') - 1)%nat with (length l') by lia.
  destruct (decide (i < length l')%nat) as [Hi|Hi].
  - rewrite insert_app_l by done. rewrite take_app_length' by (by rewrite length_insert).
    rewrite lookup_app_l in E by done. destruct (insert_middle l' i v w E) as (l0 & P1 & P2).
    rewrite P2, P1. cbn. by rewrite <- (Permutation_cons_append l0 w).
  - assert (i = length l') as -> by lia. rewrite list_lookup_middle in E by done. injection E as ->.
    rewrite insert_app_r_alt by lia. rewrite Nat.sub_diag. cbn.
    rewrite take_app_length. by rewrite <- Permutation_cons_append.
Qed.

Lemma removeKey_loop_Some n key : forall l l' v, removeKey_loop n key l = Some (l', v) ->
  PubKey v = key /\ l ≡ₚ v :: l'.
Proof.
  induction n as [|i IH]; intros l l' v; cbn; [done|].
  destruct (l !! i) as [val|] eqn:E; [|by apply IH]. case_bool_decide as K; [|by apply IH].
  intros [= <- <-]. split; [done|]. by apply removeValidatorFromList_spec.
Qed.

Lemma removeKey_loop_None n key : forall l, removeKey_loop n key l = None ->
  forall i v, (i < n)%nat -> l !! i = Some v -> PubKey v <> key.
Proof.
  induction n as [|j IH]; intros l; cbn; [lia|]. intros H i v Hi E.
  destruct (decide (i = j)) as [->|N].
  - rewrite E in H. case_bool_decide as K; [done|exact K].
  - eapply IH; [|by assert (i < j)%nat by lia|done]. destruct (l !! j); [|done]. by case_bool_decide.
Qed.

Lemma removeKey_found l key : key ∈ pks l ->
  exists l' v, removeKey_loop (length l) key l = Some (l', v) /\ PubKey v = key /\ l ≡ₚ v :: l'.
Proof.
  intros Hk. destruct (removeKey_loop (length l) key l) as [[l' v]|] eqn:E.
  - exists l', v. split; [done|]. by eapply removeKey_loop_Some.
  - exfalso. apply list_elem_of_fmap in Hk as (v & -> & Hv). apply list_elem_of_lookup in Hv as [i Ei].
    by eapply (removeKey_loop_None _ _ _ E i v); [by eapply lookup_lt_Some| |].
Qed.

(** What is removed comes out of the list, in the order of the keys to remove,
    and at most [max] of them. *)
Lemma removeLoop_spec rem max : forall res0 removed0 res removed,
  Z.of_nat (length removed0) <= max ->
  removeValidatorsFromList_loop rem max res0 removed0 = (res, removed) ->
  exists new, removed = removed0 ++ new /\ res0 ≡ₚ new ++ res /\ pks new `sublist_of` pks rem /\
    Z.of_nat (length removed) <= max.
Proof.
  induction rem as [|x rem IH]; intros res0 removed0 res removed B; cbn.
  - intros [= <- <-]. exists []. rewrite app_nil_r. done.
  - destruct (Z.eqb_spec (Z.of_nat (length removed0)) max) as [Em|Em].
    { intros [= <- <-]. exists []. rewrite app_nil_r. split_and!; [done|done|apply sublist_nil_l|done]. }
    destruct (removeKey_loop _ _ _) as [[res1 v]|] eqn:E.
    + apply removeKey_loop_Some in E as [Ek Ep]. intros R. apply IH in R as (new & -> & P & Sb & Bd).
      * exists (v :: new). split_and!; [by rewrite <- app_assoc| |cbn; rewrite Ek; by apply sublist_skip|done].
        by rewrite Ep, P.
      * rewrite length_app. cbn. lia.
    + intros R. apply IH in R as (new & -> & P & Sb & Bd); [|done].
      exists new. split_and!; [done|done|by apply sublist_cons|done].
Qed.

Lemma remove_spec l rem max res removed : 0 <= max ->
  removeValidatorsFromList l rem max = (res, removed) ->
  l ≡ₚ removed ++ res /\ pks removed `sublist_of` pks rem /\ Z.of_nat (length removed) <= max.
Proof.
  intros B R. apply removeLoop_spec in R as (new & -> & P & Sb & Bd); [|done]. done.
Qed.

(** Keys that are in the list are all removed. *)
Lemma removeLoop_all rem max : forall res0 removed0 res removed,
  Z.of_nat (length removed0 + length rem) <= max -> pks rem ⊆+ pks res0 ->
  removeValidatorsFromList_loop rem max res0 removed0 = (res, removed) ->
  pks removed = pks removed0 ++ pks rem /\ pks res0 ≡ₚ pks rem ++ pks res.
Proof.
  induction rem as [|x rem IH]; intros res0 removed0 res removed B Sb; cbn.
  - intros [= <- <-]. by rewrite app_nil_r.
  - cbn in B, Sb. rewrite (proj2 (Z.eqb_neq _ _)) by lia.
    destruct (removeKey_found res0 (PubKey x)) as (res1 & v & -> & Ek & Ep).
    { eapply elem_of_submseteq; [|exact Sb]. left. }
    assert (Sb' : pks rem ⊆+ pks res1).
    { rewrite Ep in Sb. cbn in Sb. rewrite Ek in Sb.
      by apply (submseteq_app_inv_l (pks rem) (pks res1) [PubKey x]). }
    intros R. apply IH in R as [R1 R2]; [| |done].
    + rewrite R1, pks_app, <- app_assoc. cbn. rewrite Ek. split; [done|].
      rewrite Ep. cbn. by rewrite Ek, R2.
    + rewrite length_app. cbn. lia.
Qed.

Lemma remove_all l rem res removed : pks rem ⊆+ pks l ->
  removeValidatorsFromList l rem (Z.of_nat (length rem)) = (res, removed) ->
  pks l ≡ₚ pks rem ++ pks res.
Proof. intros Sb R. eapply removeLoop_all in R as [_ R]; [done| |done]. cbn. lia. Qed.

(** Keys that are not in the list change nothing. *)
Lemma remove_none l rem max : 0 <= max -> (forall k, k ∈ pks rem -> k ∉ pks l) ->
  removeValidatorsFromList l rem max = (l, []).
Proof.
  unfold removeValidatorsFromList. intros _. induction rem as [|x rem IH]; intros N; cbn; [done|].
  destruct (_ =? max); [done|]. destruct (removeKey_loop _ _ _) as [[l' v]|] eqn:E.
  - exfalso. apply removeKey_loop_Some in E as [Ek Ep]. apply (N (PubKey x)); [left|].
    rewrite Ep. cbn. rewrite Ek. left.
  - apply IH. intros k Hk. apply N. by right.
Qed.

(** [removeDuplicates] *)
Lemma removeAllKey_spec n key : forall l,
  exists gone, l ≡ₚ gone ++ removeAllKey_loop n key l /\ Forall (fun v => PubKey v = key) gone.
Proof.
  induction n as [|i IH]; intros l; cbn; [by exists []|].
  destruct (l !! i) as [val|] eqn:E; [|by apply IH]. case_bool_decide as K; [|by apply IH].
  destruct (IH (removeValidatorFromList l i)) as (gone & P & F). exists (val :: gone).
  split; [by rewrite (removeValidatorFromList_spec _ _ _ E), P at 1|by constructor].
Qed.

Lemma removeDuplicates_sub unstake : forall additional,
  pks (removeDuplicates unstake additional) ⊆+ pks additional.
Proof.
  unfold removeDuplicates. induction unstake as [|x unstake IH]; intros additional; cbn; [done|].
  etrans; [apply IH|]. destruct (removeAllKey_spec (length additional) (PubKey x) additional) as (g & P & _).
  apply pks_Permutation in P. rewrite P, pks_app. by apply submseteq_inserts_l.
Qed.

(** ** Shuffling *)

Section Shuffle.
Context {H : ShuffleHasher}.

(** The hashes of these keys with the randomness differ. *)
Definition noCollision (randomness : bytes) (keys : list bytes) : Prop :=
  forall a b, a ∈ keys -> b ∈ keys ->
    shuffle_Compute (a ++ randomness) = shuffle_Compute (b ++ randomness) -> a = b.

Lemma noCollision_sub r ks ks' : (forall k, k ∈ ks' -> k ∈ ks) -> noCollision r ks -> noCollision r ks'.
Proof. intros S N a b Ha Hb. apply N; by apply S. Qed.

Lemma shuffleMap_lookup r l : forall (m : gmap bytes Validator) v, noCollision r (pks l) -> NoDup (pks l) -> v ∈ l ->
  fold_left (fun m v => <[shuffleKey r v := v]> m) l m !! shuffleKey r v = Some v.
Proof.
  induction l as [|x l IH]; intros m v N ND Hv; [by apply elem_of_nil in Hv|]. cbn [fold_left].
  cbn in ND. apply NoDup_cons in ND as [Nx ND].
  assert (Nl : noCollision r (pks l)) by (eapply noCollision_sub; [|exact N]; by right).
  apply elem_of_cons in Hv as [->|Hv]; [|by apply IH].
  assert (G : forall l' (m : gmap bytes Validator), (forall w, w ∈ l' -> shuffleKey r w <> shuffleKey r x) ->
    fold_left (fun m v => <[shuffleKey r v := v]> m) l' m !! shuffleKey r x = m !! shuffleKey r x).
  { induction l' as [|w l' IHl]; intros m' F; [done|]. cbn [fold_left]. rewrite IHl.
    - apply lookup_insert_ne, F. left.
    - intros w' Hw. apply F. by right. }
  rewrite G; [by rewrite lookup_insert_eq|]. intros w Hw E. apply Nx.
  rewrite <- (N (PubKey w) (PubKey x)); [by apply list_elem_of_fmap_2| | |exact E]; [|left].
  right. by apply list_elem_of_fmap_2.
Qed.

Lemma omap_found {A B} (f : A -> option B) (g : B -> A) l :
  (forall v, v ∈ l -> f (g v) = Some v) -> omap f (List.map g l) = l.
Proof.
  induction l as [|x l IH]; intros F; [done|]. cbn. rewrite F by left. f_equal. apply IH.
  intros v Hv. apply F. by right.
Qed.

Lemma shuffleList_perm l r : noCollision r (pks l) -> NoDup (pks l) -> shuffleList l r ≡ₚ l.
Proof.
  intros N ND. unfold shuffleList, sort_Strings.
  rewrite (merge_sort_Permutation bytes_le).
  rewrite omap_found; [done|]. intros v Hv. by apply shuffleMap_lookup.
Qed.

Lemma sort_Strings_perm l l' : l ≡ₚ l' -> sort_Strings l = sort_Strings l'.
Proof.
  intros P. apply (Sorted_unique bytes_le); [apply Sorted_merge_sort, _..|].
  unfold sort_Strings. by rewrite !(merge_sort_Permutation bytes_le).
Qed.

(** The order in which the validators come does not matter. *)
Lemma shuffleList_order l l' r : noCollision r (pks l) -> NoDup (pks l) -> l ≡ₚ l' ->
  shuffleList l r = shuffleList l' r.
Proof.
  intros N ND P. unfold shuffleList.
  rewrite (sort_Strings_perm (List.map (shuffleKey r) l) (List.map (shuffleKey r) l'))
    by (by apply Permutation_map).
  set (keys := sort_Strings _).
  assert (F : forall k, k ∈ keys -> exists v, v ∈ l /\ k = shuffleKey r v).
  { intros k. unfold keys, sort_Strings. rewrite (merge_sort_Permutation bytes_le).
    intros (v & -> & Hv)%list_elem_of_fmap. exists v. by rewrite P. }
  clearbody keys. induction keys as [|k keys IH]; [done|]. cbn.
  destruct (F k) as (v & Hv & ->); [left|].
  rewrite (shuffleMap_lookup r l) by done. rewrite (shuffleMap_lookup r l').
  - f_equal. apply IH. intros k Hk. apply F. by right.
  - eapply noCollision_sub; [|exact N]. intros k. by rewrite P.
  - by rewrite <- P.
  - by rewrite <- P.
Qed.
End Shuffle.

(** ** A map of lists as one list *)

Definition allOf (m : ShardMap) : list Validator := concat (map_to_list m).*2.

Lemma concat_perm {A} (l l' : list (list A)) : l ≡ₚ l' -> concat l ≡ₚ concat l'.
Proof.
  induction 1 as [|x l l' _ IH|x y l|l l1 l2 _ IH1 _ IH2]; cbn; [done|by rewrite IH| |by rewrite IH1].
  rewrite !app_assoc. by rewrite (Permutation_app_comm y x).
Qed.

Lemma allOf_empty : allOf ∅ = [].
Proof. unfold allOf. by rewrite map_to_list_empty. Qed.

Lemma allOf_insert_new m k l : m !! k = None -> allOf (<[k := l]> m) ≡ₚ l ++ allOf m.
Proof.
  intros E. unfold allOf. rewrite (concat_perm _ ((k, l) :: map_to_list m).*2); [done|].
  by rewrite map_to_list_insert.
Qed.

Lemma allOf_insert m k l : allOf (<[k := l]> m) ++ listOf m k ≡ₚ l ++ allOf m.
Proof.
  unfold listOf. destruct (m !! k) as [l0|] eqn:E; cbn.
  - assert (E1 : allOf m ≡ₚ l0 ++ allOf (delete k m)).
    { rewrite <- (insert_delete_id m k l0 E) at 1. apply allOf_insert_new, lookup_delete_eq. }
    rewrite <- (insert_delete_eq m k l), allOf_insert_new, E1 by apply lookup_delete_eq.
    by rewrite <- app_assoc, (Permutation_app_comm (allOf _) l0).
  - rewrite app_nil_r. by apply allOf_insert_new.
Qed.

Lemma listOf_insert_eq m k l : listOf (<[k := l]> m) k = l.
Proof. unfold listOf. by rewrite lookup_insert_eq. Qed.
Lemma listOf_insert_ne m k l j : j <> k -> listOf (<[k := l]> m) j = listOf m j.
Proof. intros N. unfold listOf. by rewrite lookup_insert_ne. Qed.

(** Inserting a list that has the old one as a part. *)
Lemma allOf_extend m k l : allOf (<[k := listOf m k ++ l]> m) ≡ₚ l ++ allOf m.
Proof.
  apply (Permutation_app_inv_r (listOf m k)). rewrite allOf_insert, <- app_assoc.
  rewrite (Permutation_app_comm (listOf m k)), <- app_assoc. by rewrite (Permutation_app_comm (allOf m)).
Qed.
Lemma allOf_shrink m k gone l : listOf m k ≡ₚ gone ++ l -> allOf m ≡ₚ gone ++ allOf (<[k := l]> m).
Proof.
  intros P. apply (Permutation_app_inv_l l). rewrite <- allOf_insert, P, Permutation_app_comm, <- app_assoc.
  rewrite (Permutation_app_comm l (gone ++ _)), <- app_assoc. by rewrite (Permutation_app_comm l).
Qed.

Lemma elem_allOf m v : v ∈ allOf m <-> exists k l, m !! k = Some l /\ v ∈ l.
Proof.
  unfold allOf. rewrite list_elem_of_In, in_concat. split.
  - intros (l & Hl & Hv). apply list_elem_of_In, list_elem_of_fmap in Hl as ([k l'] & -> & Hl).
    apply elem_of_map_to_list in Hl. exists k, l'. by rewrite list_elem_of_In.
  - intros (k & l & E & Hv). exists l. rewrite <- !list_elem_of_In. split; [|done].
    apply list_elem_of_fmap. exists (k, l). split; [done|]. by apply elem_of_map_to_list.
Qed.

Lemma searchInMap_spec m pk : searchInMap m pk = true <-> pk ∈ pks (allOf m).
Proof.
  unfold searchInMap. rewrite existsb_exists. setoid_rewrite existsb_exists.
  setoid_rewrite bool_decide_eq_true. split.
  - intros ([k l] & Hkl & v & Hv & <-). apply list_elem_of_fmap_2, elem_allOf.
    exists k, l. rewrite <- list_elem_of_In in Hkl. rewrite <- list_elem_of_In in Hv. by apply elem_of_map_to_list in Hkl.
  - intros (v & -> & (k & l & E & Hv)%elem_allOf)%list_elem_of_fmap. exists (k, l).
    rewrite <- list_elem_of_In. split; [by apply elem_of_map_to_list|]. exists v. by rewrite <- list_elem_of_In.
Qed.

(** ** Shards *)

Lemma sortKeys_perm {A} (m : gmap Z A) : sortKeys m ≡ₚ (map_to_list m).*1.
Proof. apply merge_sort_Permutation. Qed.
Lemma sortKeys_NoDup {A} (m : gmap Z A) : NoDup (sortKeys m).
Proof. rewrite sortKeys_perm. apply NoDup_fst_map_to_list. Qed.
Lemma elem_sortKeys {A} (m : gmap Z A) k : k ∈ sortKeys m <-> is_Some (m !! k).
Proof.
  rewrite sortKeys_perm, list_elem_of_fmap. split.
  - intros ([k' x] & -> & E%elem_of_map_to_list). by exists x.
  - intros [x E]. exists (k, x). by rewrite elem_of_map_to_list.
Qed.

Lemma createList_listOf m k j : listOf (createList m k) j = listOf m j.
Proof.
  unfold createList. destruct (m !! k) eqn:E; [done|]. destruct (decide (j = k)) as [->|N].
  - rewrite listOf_insert_eq. unfold listOf. by rewrite E.
  - by apply listOf_insert_ne.
Qed.
Lemma createList_all m k : allOf (createList m k) ≡ₚ allOf m.
Proof. unfold createList. destruct (m !! k) eqn:E; [done|]. by rewrite allOf_insert_new. Qed.
Lemma insert_is_Some (m : ShardMap) k l j : is_Some (<[k := l]> m !! j) <-> is_Some (m !! j) \/ j = k.
Proof.
  destruct (decide (j = k)) as [->|N].
  - rewrite lookup_insert_eq. split; [by right|by eexists].
  - rewrite lookup_insert_ne by done. split; [by left|by intros [?|?]].
Qed.

Lemma createList_some m k j : is_Some (createList m k !! j) <-> is_Some (m !! j) \/ j = k.
Proof.
  unfold createList. destruct (m !! k) eqn:E; [|apply insert_is_Some].
  split; [by left|]. intros [F| ->]; [done|by eexists].
Qed.

Lemma createLists_fold ks : forall m, let m' := fold_left createList ks m in
  (forall j, listOf m' j = listOf m j) /\ allOf m' ≡ₚ allOf m /\
  (forall j, is_Some (m' !! j) <-> is_Some (m !! j) \/ j ∈ ks).
Proof.
  induction ks as [|k ks IH]; intros m; cbn.
  - split_and!; [done|done|]. intros j. rewrite elem_of_nil. naive_solver.
  - destruct (IH (createList m k)) as (I1 & I2 & I3). split_and!.
    + intros j. by rewrite I1, createList_listOf.
    + by rewrite I2, createList_all.
    + intros j. rewrite I3, createList_some, elem_of_cons. naive_solver.
Qed.

Lemma createAll_spec m n : let m' := createListsForAllShards m n in
  (forall j, listOf m' j = listOf m j) /\ allOf m' ≡ₚ allOf m /\
  (forall j, is_Some (m' !! j) <-> is_Some (m !! j) \/ j ∈ shardIds n \/ j = MetachainShardId).
Proof.
  cbv zeta. unfold createListsForAllShards. destruct (createLists_fold (shardIds n) m) as (I1 & I2 & I3).
  split_and!.
  - intros j. by rewrite createList_listOf.
  - by rewrite createList_all.
  - intros j. rewrite createList_some, I3. naive_solver.
Qed.

Lemma elem_shardIds n j : j ∈ shardIds n <-> 0 <= j < n.
Proof.
  unfold shardIds. rewrite list_elem_of_fmap. split.
  - intros (i & -> & Hi%elem_of_seq). lia.
  - intros Hj. exists (Z.to_nat j). rewrite elem_of_seq. lia.
Qed.
