(* ===== verification/ShufflerSpec.v ===== *)
(** * What the steps of the shuffler do to the validators

    Each step moves validators between the eligible, waiting, shuffled out and
    leaving lists without losing or copying one, and keeps enough of them in
    every shard.

    ** One shuffle of the validators, from the steps of the shuffler

    [shuffleNodes] on well-formed lists: when it fails, where every validator
    goes, and how many eligible validators each shard keeps. *)

From Stdlib Require Import ZArith Lia.
From stdpp Require Import base gmap list sorting fin_maps.
From S2P Require Import Prelude Config Validators Shuffler ValidatorsSpec.

Abbreviation len l := (Z.of_nat (length l)).

Lemma allOf_keys m : allOf m ≡ₚ concat (List.map (listOf m) (sortKeys m)).
Proof.
  rewrite (concat_perm (List.map (listOf m) (sortKeys m)) (List.map (listOf m) (map_to_list m).*1))
    by (by rewrite sortKeys_perm).
  unfold allOf. assert (X : List.map (listOf m) (map_to_list m).*1 = (map_to_list m).*2); [|by rewrite X].
  change (listOf m <$> (map_to_list m).*1 = (map_to_list m).*2). rewrite <- list_fmap_compose.
  apply list_fmap_ext. intros i [k l] E. cbn. unfold listOf.
  apply list_elem_of_lookup_2, elem_of_map_to_list in E. by rewrite E.
Qed.

Section ShufflerSpec.
Context {H : ShuffleHasher}.
Implicit Types (m E W : ShardMap) (num : gmap Z Z) (l leaving : list Validator).

Lemma numOf_insert_eq num s x : numOf (<[s := x]> num) s = x.
Proof. unfold numOf. by rewrite lookup_insert_eq. Qed.
Lemma numOf_insert_ne num s x j : j <> s -> numOf (<[s := x]> num) j = numOf num j.
Proof. intros N. unfold numOf. by rewrite lookup_insert_ne. Qed.

(** ** Removal of leaving nodes *)

Lemma removeShard_spec m leaving s nb m' leaving' n : 0 <= nb ->
  removeNodesFromShard m leaving s nb = (m', leaving', n) ->
  exists gone l', m' = <[s := l']> m /\ listOf m s ≡ₚ gone ++ l' /\
    pks leaving ≡ₚ pks gone ++ pks leaving' /\ n = len gone /\ n <= nb.
Proof.
  intros Hnb. unfold removeNodesFromShard. set (nb' := if _ <? _ then _ else nb).
  assert (B : 0 <= nb' <= nb) by (unfold nb'; destruct (Z.ltb_spec (len leaving) nb); lia).
  destruct (removeValidatorsFromList (listOf m s) leaving nb') as [l' gone] eqn:E1.
  destruct (removeValidatorsFromList leaving gone _) as [rest r] eqn:E2.
  intros [= <- <- <-]. apply remove_spec in E1 as (P & Sb & Bd); [|lia].
  exists gone, l'. split_and!; [done|done| |done|lia].
  eapply remove_all; [by apply sublist_submseteq|done].
Qed.

(** [gone] has left the map and the leaving list, and was counted. *)
Record removed (m m' : ShardMap) (leaving leaving' : list Validator) (num num' : gmap Z Z) : Prop := {
  rm_all : exists gone, allOf m ≡ₚ gone ++ allOf m' /\ pks leaving ≡ₚ pks gone ++ pks leaving';
  rm_size s : len (listOf m s) - numOf num s = len (listOf m' s) - numOf num' s;
  rm_num s : 0 <= numOf num' s <= numOf num s;
  rm_dom s : is_Some (m' !! s) <-> is_Some (m !! s);
}.

Lemma removeMap_fold ks : forall m leaving num m' leaving' num',
  (forall s, s ∈ ks -> is_Some (m !! s)) -> (forall s, 0 <= numOf num s) ->
  fold_left (fun '(existingNodes, leavingNodes, numToRemove) shardId =>
    let '(existingNodes, leavingNodes, numRemoved) :=
      removeNodesFromShard existingNodes leavingNodes shardId (numOf numToRemove shardId) in
    (existingNodes, leavingNodes, <[shardId := numOf numToRemove shardId - numRemoved]> numToRemove))
    ks (m, leaving, num) = (m', leaving', num') ->
  removed m m' leaving leaving' num num'.
Proof.
  induction ks as [|k ks IH]; intros m leaving num m' leaving' num' D N; cbn [fold_left].
  - intros [= <- <- <-]. split; [by exists []|done| |done]. intros s. split; [apply N|done].
  - destruct (removeNodesFromShard m leaving k (numOf num k)) as [[m1 leaving1] n] eqn:E1.
    apply removeShard_spec in E1 as (g1 & l1 & -> & P1 & L1 & -> & B1); [|apply N].
    assert (S1 : len (listOf m k) = len g1 + len l1) by (rewrite P1, length_app; lia).
    assert (Dk : is_Some (m !! k)) by (apply D; left).
    intros R. apply IH in R as [(g & P & L) Sz Nu Do].
    + split.
      * exists (g1 ++ g). split.
        -- rewrite <- app_assoc, <- P. by apply allOf_shrink.
        -- rewrite L1, L, pks_app. by rewrite app_assoc.
      * intros s. rewrite <- Sz. destruct (decide (s = k)) as [->|Ns].
        -- rewrite listOf_insert_eq, numOf_insert_eq. lia.
        -- by rewrite listOf_insert_ne, numOf_insert_ne.
      * intros s. destruct (Nu s) as [Nu1 Nu2]. split; [done|].
        destruct (decide (s = k)) as [->|Ns].
        -- rewrite numOf_insert_eq in Nu2. lia.
        -- by rewrite numOf_insert_ne in Nu2.
      * intros s. rewrite Do. destruct (decide (s = k)) as [->|Ns].
        -- rewrite lookup_insert_eq. split; [done|by eexists].
        -- by rewrite lookup_insert_ne.
    + intros s Hs. destruct (decide (s = k)) as [->|Ns].
      * rewrite lookup_insert_eq. by eexists.
      * rewrite lookup_insert_ne by done. apply D. by right.
    + intros s. destruct (decide (s = k)) as [->|Ns].
      * rewrite numOf_insert_eq. lia.
      * by rewrite numOf_insert_ne.
Qed.

Lemma removeMap_spec m leaving num m' leaving' num' : (forall s, 0 <= numOf num s) ->
  removeNodesFromMap m leaving num = (m', leaving', num') -> removed m m' leaving leaving' num num'.
Proof. intros N. apply removeMap_fold; [|done]. intros s. apply elem_sortKeys. Qed.

(** The same for the pair of maps; the size of a shard counts both. *)
Record removed2 (E W E' W' : ShardMap) (leaving leaving' : list Validator) (num num' : gmap Z Z) : Prop := {
  rm2_all : exists gone, allOf E ++ allOf W ≡ₚ gone ++ allOf E' ++ allOf W' /\
    pks leaving ≡ₚ pks gone ++ pks leaving';
  rm2_size s : len (listOf E s) + len (listOf W s) - numOf num s =
               len (listOf E' s) + len (listOf W' s) - numOf num' s;
  rm2_num s : 0 <= numOf num' s <= numOf num s;
  rm2_dom s : is_Some (W' !! s) <-> is_Some (W !! s);
  rm2_domE s : is_Some (E' !! s) <-> is_Some (E !! s);
}.

Lemma removeLeaving_spec E W num leaving E' W' leaving' num' : (forall s, 0 <= numOf num s) ->
  removeLeavingNodesFromValidatorMaps E W num leaving = (E', W', leaving', num') ->
  removed2 E W E' W' leaving leaving' num num'.
Proof.
  intros N. unfold removeLeavingNodesFromValidatorMaps.
  destruct (removeNodesFromMap W leaving num) as [[W1 leaving1] num1] eqn:R1.
  apply removeMap_spec in R1 as [(g1 & P1 & L1) S1 N1 D1]; [|done].
  destruct (removeNodesFromMap E leaving1 num1) as [[E1 leaving2] num2] eqn:R2.
  apply removeMap_spec in R2 as [(g2 & P2 & L2) S2 N2 D2]; [|intros s; apply N1].
  intros [= <- <- <- <-]. split.
  - exists (g1 ++ g2). split.
    + perm.
    + rewrite L1, L2, pks_app. by rewrite app_assoc.
  - intros s. specialize (S1 s). specialize (S2 s). lia.
  - intros s. specialize (N1 s). specialize (N2 s). lia.
  - done.
  - done.
Qed.

Definition notFound E W leaving : list Validator :=
  List.filter (fun v => negb (searchInMap W (PubKey v)) && negb (searchInMap E (PubKey v))) leaving.

Lemma List_filter_sublist {A} (f : A -> bool) (l : list A) : List.filter f l `sublist_of` l.
Proof. induction l as [|x l IH]; cbn; [done|]. destruct (f x); [by apply sublist_skip|by apply sublist_cons]. Qed.

Lemma pks_sublist l1 l2 : l1 `sublist_of` l2 -> pks l1 `sublist_of` pks l2.
Proof. induction 1; cbn; by constructor. Qed.

Lemma removeNotFound_spec leaving W E leaving' r :
  removeLeavingNodesNotExistingInEligibleOrWaiting leaving W E = (leaving', r) ->
  pks leaving ≡ₚ pks (notFound E W leaving) ++ pks leaving'.
Proof.
  intros R. eapply remove_all; [|exact R]. apply sublist_submseteq, pks_sublist, List_filter_sublist.
Qed.

(** ** Shuffling out *)

Lemma shuffleOutShard_spec l n r out rest : 0 <= n -> noCollision r (pks l) -> NoDup (pks l) ->
  shuffleOutShard l n r = (out, rest) ->
  l ≡ₚ out ++ rest /\ len out <= n /\
  fst (removeValidatorsFromList rest out (len out)) = rest.
Proof.
  intros Hn N ND. unfold shuffleOutShard. set (n' := if _ <? _ then _ else n).
  assert (B : 0 <= n' <= n) by (unfold n'; destruct (Z.ltb_spec (len l) n); lia).
  intros [= <- <-]. pose proof (shuffleList_perm l r N ND) as P.
  split; [by rewrite take_drop, P|]. split; [rewrite length_take; lia|].
  rewrite remove_none; [done|lia|]. intros k H1 H2.
  rewrite <- P, <- (take_drop (Z.to_nat n') (shuffleList l r)), pks_app in ND.
  apply NoDup_app in ND as (_ & D & _). by apply (D k).
Qed.

Lemma shuffleOut_fold E num r ks : (forall s, 0 <= numOf num s) ->
  (forall s, noCollision r (pks (listOf E s)) /\ NoDup (pks (listOf E s))) ->
  forall Sh N Sh' N', NoDup ks -> (forall s, s ∈ ks -> Sh !! s = None /\ N !! s = None) ->
  fold_left (fun '(shuffledOutMap, newEligible) shardId =>
    let '(shardShuffledOut, validators) := shuffleOutShard (listOf E shardId) (numOf num shardId) r in
    (<[shardId := shardShuffledOut]> shuffledOutMap,
     <[shardId := fst (removeValidatorsFromList validators shardShuffledOut (len shardShuffledOut))]> newEligible))
    ks (Sh, N) = (Sh', N') ->
  allOf Sh' ++ allOf N' ≡ₚ (allOf Sh ++ allOf N) ++ concat (List.map (listOf E) ks) /\
  (forall s, s ∈ ks -> len (listOf E s) = len (listOf Sh' s) + len (listOf N' s) /\
                       len (listOf Sh' s) <= numOf num s) /\
  (forall s, s ∉ ks -> listOf Sh' s = listOf Sh s /\ listOf N' s = listOf N s) /\
  (forall s, is_Some (N' !! s) <-> is_Some (N !! s) \/ s ∈ ks).
Proof.
  intros Hn Hk. induction ks as [|k ks IH]; intros Sh N Sh' N' ND D; cbn [fold_left].
  - intros [= <- <-]. cbn. rewrite app_nil_r. split_and!; [done| |done|].
    + intros s Hs. by apply elem_of_nil in Hs.
    + intros s. rewrite elem_of_nil. naive_solver.
  - apply NoDup_cons in ND as [Nk ND].
    destruct (shuffleOutShard (listOf E k) (numOf num k) r) as [out rest] eqn:E1.
    destruct (Hk k) as [Nc Nd].
    apply shuffleOutShard_spec in E1 as (P & B & Er); [|by apply Hn|done|done]. rewrite Er.
    destruct (D k) as [D1 D2]; [left|].
    intros R. apply IH in R as (I1 & I2 & I3 & I4); [|done|].
    + split_and!.
      * rewrite I1, !allOf_insert_new by done. cbn [List.map concat]. rewrite P.
        perm.
      * intros s [->|Hs]%elem_of_cons; [|by apply I2]. destruct (I3 k Nk) as [-> ->].
        rewrite !listOf_insert_eq, P, length_app. split; [lia|done].
      * intros s [Ns Ns']%not_elem_of_cons. destruct (I3 s Ns') as [-> ->].
        by rewrite !listOf_insert_ne.
      * intros s. rewrite I4, insert_is_Some, elem_of_cons. naive_solver.
    + intros s Hs. assert (s <> k) by (by intros ->). rewrite !lookup_insert_ne by done.
      apply D. by right.
Qed.

Lemma shuffleOut_spec E num r Sh E' : (forall s, 0 <= numOf num s) ->
  noCollision r (pks (allOf E)) -> NoDup (pks (allOf E)) -> shuffleOutNodes E num r = (Sh, E') ->
  allOf E ≡ₚ allOf Sh ++ allOf E' /\
  (forall s, len (listOf E s) = len (listOf Sh s) + len (listOf E' s) /\ len (listOf Sh s) <= numOf num s) /\
  (forall s, is_Some (E' !! s) <-> is_Some (E !! s)).
Proof.
  intros Hn N ND R.
  assert (Hk : forall s, noCollision r (pks (listOf E s)) /\ NoDup (pks (listOf E s))).
  { intros s. assert (P : allOf E ≡ₚ listOf E s ++ allOf (<[s := []]> E)) by (apply allOf_shrink; by rewrite app_nil_r).
    apply (Permutation_map PubKey) in P. rewrite map_app in P. split.
    - eapply noCollision_sub; [|exact N]. intros k Hk. rewrite P. apply elem_of_app. by left.
    - rewrite P in ND. by apply NoDup_app in ND as (? & _). }
  unfold shuffleOutNodes in R.
  apply (shuffleOut_fold E num r (sortKeys E)) in R as (P & Sz & Ot & Do); [|done|done|apply sortKeys_NoDup|by intros].
  split_and!.
  - rewrite P, allOf_empty, <- allOf_keys. done.
  - intros s. destruct (decide (s ∈ sortKeys E)) as [Hs|Hs]; [by apply Sz|].
    destruct (Ot s Hs) as [-> ->].
    assert (Es : listOf E s = []).
    { unfold listOf. destruct (E !! s) eqn:F; [|done]. exfalso. apply Hs, elem_sortKeys. by eexists. }
    rewrite Es. split; [done|]. apply Hn.
  - intros s. rewrite Do, elem_sortKeys, lookup_empty. split; [by intros [[]|]|by right].
Qed.

(** ** Moving *)

Definition moved (maxNodes : Z) (d l : list Validator) : nat := Z.to_nat (computeNeededNodes d l maxNodes).

Lemma moveMax_fold numMeta numShard ks : forall D S D' S', NoDup ks ->
  fold_left (fun '(destination, source) shardId =>
    let maxNodes := if shardId =? MetachainShardId then numMeta else numShard in
    let validators := listOf source shardId in
    let numNeededNodes := Z.to_nat (computeNeededNodes (listOf destination shardId) validators maxNodes) in
    (<[shardId := listOf destination shardId ++ take numNeededNodes validators]> destination,
     <[shardId := drop numNeededNodes validators]> source)) ks (D, S) = (D', S') ->
  allOf D' ++ allOf S' ≡ₚ allOf D ++ allOf S /\
  (forall s, s ∉ ks -> listOf D' s = listOf D s /\ listOf S' s = listOf S s) /\
  (forall s, s ∈ ks -> let n := moved (if s =? MetachainShardId then numMeta else numShard) (listOf D s) (listOf S s) in
     listOf D' s = listOf D s ++ take n (listOf S s) /\ listOf S' s = drop n (listOf S s)) /\
  (forall s, is_Some (S !! s) -> is_Some (S' !! s)) /\
  (forall s, is_Some (D' !! s) <-> is_Some (D !! s) \/ s ∈ ks).
Proof.
  induction ks as [|k ks IH]; intros D S D' S' ND; cbn [fold_left].
  - intros [= <- <-]. split_and!; [done|done| |done|].
    + intros s Hs. by apply elem_of_nil in Hs.
    + intros s. rewrite elem_of_nil. naive_solver.
  - apply NoDup_cons in ND as [Nk ND]. cbv zeta.
    fold (moved (if k =? MetachainShardId then numMeta else numShard) (listOf D k) (listOf S k)).
    set (n := moved _ _ _). intros R. apply IH in R as (I1 & I2 & I3 & I4 & I5); [|done].
    assert (P : allOf S ≡ₚ take n (listOf S k) ++ allOf (<[k := drop n (listOf S k)]> S)).
    { apply allOf_shrink. by rewrite take_drop. }
    pose proof (allOf_extend D k (take n (listOf S k))) as Q.
    split_and!.
    + perm.
    + intros s [Ns Ns']%not_elem_of_cons. destruct (I2 s Ns') as [-> ->]. by rewrite !listOf_insert_ne.
    + intros s [->|Hs]%elem_of_cons.
      * destruct (I2 k Nk) as [-> ->]. by rewrite !listOf_insert_eq.
      * assert (Ns : s <> k) by (by intros ->). specialize (I3 s Hs). cbv zeta in I3.
        by rewrite !listOf_insert_ne in I3 by done.
    + intros s Hs. apply I4, insert_is_Some. by left.
    + intros s. rewrite I5, insert_is_Some, elem_of_cons. naive_solver.
Qed.

Lemma moved_size maxNodes d l : 0 <= maxNodes -> len d < 2 ^ 32 -> len l < 2 ^ 32 ->
  Z.min maxNodes (len d + len l) <= len (d ++ take (moved maxNodes d l) l).
Proof.
  intros Hm Hd Hl. rewrite length_app, length_take. unfold moved, computeNeededNodes, u32.
  rewrite !Z.mod_small by lia.
  destruct (Z.ltb_spec (len d) maxNodes), (Z.ltb_spec (len l) (maxNodes - len d)); lia.
Qed.

Lemma moveMax_spec D S numMeta numShard D' S' : moveMaxNumNodesToMap D S numMeta numShard = (D', S') ->
  allOf D' ++ allOf S' ≡ₚ allOf D ++ allOf S /\
  (forall s, is_Some (S !! s) -> is_Some (S' !! s)) /\
  (forall s, is_Some (S !! s) -> let maxNodes := if s =? MetachainShardId then numMeta else numShard in
     0 <= maxNodes -> len (listOf D s) < 2 ^ 32 -> len (listOf S s) < 2 ^ 32 ->
     Z.min maxNodes (len (listOf D s) + len (listOf S s)) <= len (listOf D' s)) /\
  (forall s, is_Some (D' !! s) <-> is_Some (D !! s) \/ is_Some (S !! s)).
Proof.
  intros R. apply moveMax_fold in R as (P & _ & M & Do & DoD); [|apply NoDup_fst_map_to_list].
  split_and!; [done|done| |intros s; by rewrite DoD, <- sortKeys_perm, elem_sortKeys]. intros s Hs maxNodes Hm Hd Hl. destruct (M s) as [-> _].
  - rewrite <- sortKeys_perm. by apply elem_sortKeys.
  - by apply moved_size.
Qed.

Lemma moveNodes_fold ks : forall D S D' S',
  fold_left (fun '(destination, source) shardId =>
    (<[shardId := listOf destination shardId ++ listOf source shardId]> destination,
     <[shardId := []]> source)) ks (D, S) = (D', S') ->
  allOf D' ++ allOf S' ≡ₚ allOf D ++ allOf S /\ (forall s, listOf S' s = if decide (s ∈ ks) then [] else listOf S s).
Proof.
  induction ks as [|k ks IH]; intros D S D' S'; cbn [fold_left].
  - intros [= <- <-]. split; [done|]. intros s. rewrite decide_False; [done|by apply not_elem_of_nil].
  - intros R. apply IH in R as [P L].
    assert (Q : allOf S ≡ₚ listOf S k ++ allOf (<[k := []]> S)) by (apply allOf_shrink; by rewrite app_nil_r).
    pose proof (allOf_extend D k (listOf S k)) as Q'. split; [perm|].
    intros s. rewrite L. destruct (decide (s = k)) as [->|N].
    + rewrite listOf_insert_eq. rewrite (decide_True (P := k ∈ k :: ks)) by left. by destruct (decide _).
    + rewrite listOf_insert_ne by done. apply decide_ext. rewrite elem_of_cons. naive_solver.
Qed.

Lemma allOf_nils m : (forall s, listOf m s = []) -> allOf m = [].
Proof.
  intros E. apply Permutation_nil. rewrite allOf_keys.
  induction (sortKeys m) as [|k ks IH]; cbn; [done|]. by rewrite E.
Qed.

Lemma moveNodes_spec D S D' S' : moveNodesToMap D S = (D', S') ->
  allOf D' ≡ₚ allOf S ++ allOf D /\ forall s, listOf S' s = [].
Proof.
  intros R. apply moveNodes_fold in R as [P L].
  assert (N : forall s, listOf S' s = []).
  { intros s. rewrite L. destruct (decide _) as [|N]; [done|].
    unfold listOf. destruct (S !! s) eqn:F; [|done]. exfalso. apply N.
    rewrite <- sortKeys_perm. apply elem_sortKeys. by eexists. }
  split; [|done]. rewrite (allOf_nils S' N), app_nil_r in P. by rewrite P, Permutation_app_comm.
Qed.

(** ** Distributing *)

Lemma distribute_loop_spec ids l : forall i d, allOf (distribute_loop ids i l d) ≡ₚ l ++ allOf d.
Proof.
  induction l as [|v l IH]; intros i d; cbn [distribute_loop]; [done|]. cbv zeta.
  rewrite IH, allOf_extend. cbn. by rewrite Permutation_middle.
Qed.

Lemma equalize_fold mx ks : forall d l d' l',
  fold_left (fun '(destLists, validators) shardID =>
    let shardList := listOf destLists shardID in
    if (length shardList <? mx)%nat then
      let toMove := (mx - length shardList)%nat in
      let toMove := if (length validators <? toMove)%nat then length validators else toMove in
      (<[shardID := shardList ++ take toMove validators]> destLists, drop toMove validators)
    else (destLists, validators)) ks (d, l) = (d', l') ->
  allOf d' ++ l' ≡ₚ allOf d ++ l.
Proof.
  induction ks as [|k ks IH]; intros d l d' l'; cbn [fold_left].
  - by intros [= <- <-].
  - cbv zeta. destruct (_ <? mx)%nat; [|apply IH]. set (n := if (_ <? _)%nat then _ else _).
    intros R. apply IH in R. pose proof (allOf_extend d k (take n l)) as Q.
    assert (T : l ≡ₚ take n l ++ drop n l) by (by rewrite take_drop). perm.
Qed.

Lemma insert_some m k l j : is_Some (m !! j) -> is_Some (<[k := l]> m !! j).
Proof. intros S. apply insert_is_Some. by left. Qed.

Lemma distribute_loop_dom ids l j : forall i d, is_Some (d !! j) -> is_Some (distribute_loop ids i l d !! j).
Proof. induction l as [|v l IH]; intros i d S; cbn [distribute_loop]; [done|]. by apply IH, insert_some. Qed.

Lemma equalize_dom d l d' l' j : equalizeValidatorsLists d l = (d', l') -> is_Some (d !! j) -> is_Some (d' !! j).
Proof.
  unfold equalizeValidatorsLists. cbv zeta. generalize (getMaxListSize d) as mx. intros mx.
  generalize (sortKeys d) as ks. intros ks. revert d l. induction ks as [|k ks IH]; intros d0 l0; cbn [fold_left]; [by intros [= <- <-]|].
  cbv zeta. destruct (_ <? mx)%nat; [|apply IH]. intros R S. eapply IH; [exact R|]. by apply insert_some.
Qed.

Lemma distribute_spec d l r balanced j : is_Some (d !! j) -> noCollision r (pks l) -> NoDup (pks l) ->
  exists d', distributeValidators d l r balanced = Ok d' /\ allOf d' ≡ₚ l ++ allOf d /\ is_Some (d' !! j).
Proof.
  intros Hd N ND. unfold distributeValidators. rewrite bool_decide_false.
  2: { intros E. rewrite E, lookup_empty in Hd. by destruct Hd. }
  pose proof (shuffleList_perm l r N ND) as P. destruct balanced.
  - destruct (equalizeValidatorsLists d (shuffleList l r)) as [d1 l1] eqn:E.
    pose proof (equalize_dom _ _ _ _ j E Hd) as S1.
    unfold equalizeValidatorsLists in E. apply equalize_fold in E. eexists. split; [done|]. split.
    + rewrite distribute_loop_spec. perm.
    + by apply distribute_loop_dom.
  - eexists. split; [done|]. split; [by rewrite distribute_loop_spec, P|by apply distribute_loop_dom].
Qed.
End ShufflerSpec.

(** The least number of eligible validators of a shard. *)
Definition minNodes (arg : shuffleNodesArg) (s : Z) : Z :=
  if s =? MetachainShardId then nodesMeta arg else nodesPerShard arg.

Definition isShard (arg : shuffleNodesArg) (s : Z) : Prop :=
  s ∈ shardIds (nbShards arg) \/ s = MetachainShardId.

Definition numValidators (arg : shuffleNodesArg) (s : Z) : Z :=
  len (listOf (eligible arg) s) + len (listOf (waiting arg) s).

(** Every shard has at least the validators it needs. *)
Definition enoughNodes (arg : shuffleNodesArg) : Prop :=
  forall s, isShard arg s -> minNodes arg s <= numValidators arg s.

Definition enoughNodesb (arg : shuffleNodesArg) : bool :=
  forallb (fun s => nodesPerShard arg <=? numValidators arg s) (shardIds (nbShards arg)) &&
  (nodesMeta arg <=? numValidators arg MetachainShardId).

(** All validators that can be in a list of the next epoch. *)
Definition candidates (arg : shuffleNodesArg) : list Validator :=
  allOf (eligible arg) ++ allOf (waiting arg) ++ newNodes arg ++ auction arg.

Section ShufflerEpoch.
Context {H : ShuffleHasher}.
Implicit Types (arg : shuffleNodesArg) (num : gmap Z Z).

(** What the shuffler relies on: no validator is in two places, the hasher has
    no collision among them, and the numbers fit their types. *)
Record shuffleInput arg : Prop := {
  si_nodup : NoDup (pks (candidates arg));
  si_hash : noCollision (randomness arg) (pks (candidates arg));
  si_shards : 0 < nbShards arg <= MetachainShardId;
  si_small : len (candidates arg) < 2 ^ 32;
  si_nodesMeta : 0 <= nodesMeta arg;
  si_nodesPerShard : 0 <= nodesPerShard arg;
  si_swap : 0 <= maxNodesToSwapPerShard arg;
}.

Lemma shard_not_meta arg s : nbShards arg <= MetachainShardId ->
  s ∈ shardIds (nbShards arg) -> s <> MetachainShardId.
Proof. intros B I%elem_shardIds. lia. Qed.

Lemma enough_shards arg : nbShards arg <= MetachainShardId ->
  enoughNodes arg <-> enoughNodesb arg = true.
Proof.
  intros B. unfold enoughNodesb. rewrite andb_true_iff, forallb_forall, Z.leb_le. split.
  - intros E. split.
    + intros s I%list_elem_of_In. apply Z.leb_le. specialize (E s (or_introl I)). unfold minNodes in E.
      by rewrite (proj2 (Z.eqb_neq _ _) (shard_not_meta arg s B I)) in E.
    + by specialize (E MetachainShardId (or_intror eq_refl)).
  - intros [E M] s [I| ->]; [|done]. unfold minNodes.
    rewrite (proj2 (Z.eqb_neq _ _) (shard_not_meta arg s B I)). by apply Z.leb_le, E, list_elem_of_In.
Qed.

(** ** How many may leave *)

Lemma numToRemove_loop arg ks : NoDup ks -> forall num,
  computeNumToRemove_loop arg ks num =
    if forallb (fun s => nodesPerShard arg <=? numValidators arg s) ks
    then Ok (fold_left (fun num s => <[s := numValidators arg s - nodesPerShard arg]> num) ks num)
    else Err ErrSmallShardEligibleListSize.
Proof.
  induction 1 as [|k ks Nk ND IH]; intros num; [done|].
  cbn [computeNumToRemove_loop forallb fold_left]. unfold computeNumToRemovePerShard.
  fold (numValidators arg k). rewrite Z.leb_antisym.
  destruct (_ <? _); cbn; [done|]. apply IH.
Qed.

Lemma numToRemove_fold (f : Z -> Z) ks : forall num s, numOf (fold_left (fun num s => <[s := f s]> num) ks num) s =
  if decide (s ∈ ks) then f s else numOf num s.
Proof.
  induction ks as [|k ks IH]; intros num s; cbn [fold_left].
  - by rewrite decide_False by apply not_elem_of_nil.
  - rewrite IH. destruct (decide (s ∈ ks)) as [I|I].
    + by rewrite decide_True by (by right).
    + destruct (decide (s = k)) as [->|N].
      * rewrite numOf_insert_eq. by rewrite decide_True by left.
      * rewrite numOf_insert_ne by done. rewrite decide_False; [done|]. by apply not_elem_of_cons.
Qed.

Lemma shardIds_NoDup n : NoDup (shardIds n).
Proof. unfold shardIds. apply NoDup_fmap_2; [|apply NoDup_seq]. intros a b. apply Nat2Z.inj. Qed.

Lemma computeNumToRemove_spec arg : 0 < nbShards arg <= MetachainShardId ->
  if enoughNodesb arg
  then exists num, computeNumToRemove arg = Ok num /\
    (forall s, isShard arg s -> numOf num s = numValidators arg s - minNodes arg s) /\
    (forall s, ~ isShard arg s -> numOf num s = 0)
  else computeNumToRemove arg = Err ErrSmallShardEligibleListSize.
Proof.
  intros B. unfold computeNumToRemove, enoughNodesb. rewrite (proj2 (Z.eqb_neq _ _)) by lia.
  rewrite numToRemove_loop by apply shardIds_NoDup.
  destruct (forallb _ _) eqn:F; cbn; [|done]. unfold computeNumToRemovePerShard.
  fold (numValidators arg MetachainShardId). rewrite Z.leb_antisym. destruct (_ <? _); cbn; [done|].
  eexists. split; [done|]. split.
  - intros s [I| ->]; unfold minNodes.
    + assert (N := shard_not_meta arg s ltac:(lia) I). rewrite numOf_insert_ne by done.
      rewrite (numToRemove_fold (fun s => numValidators arg s - nodesPerShard arg)), decide_True by done.
      by rewrite (proj2 (Z.eqb_neq _ _) N).
    + by rewrite numOf_insert_eq, Z.eqb_refl.
  - intros s N. rewrite numOf_insert_ne by (intros ->; apply N; by right).
    rewrite (numToRemove_fold (fun s => numValidators arg s - nodesPerShard arg)), decide_False; [done|].
    intros I. apply N. by left.
Qed.

Lemma limitToSwap_spec mx num s : 0 <= mx -> numOf (limitToSwap mx num) s = Z.min mx (numOf num s).
Proof.
  intros Hm. unfold numOf, limitToSwap. rewrite lookup_fmap. destruct (num !! s) as [x|]; cbn; [|lia].
  destruct (Z.ltb_spec mx x); lia.
Qed.

(** ** Up to the distribution *)

(** The state after [removeAndShuffleOut]: nobody is lost, leaving nodes are
    removed, kept or unknown, and every shard has its eligible validators. *)
Record shuffledOut arg (E W Sh : ShardMap) (still gone : list Validator) : Prop := {
  so_all : allOf (eligible arg) ++ allOf (waiting arg) ≡ₚ gone ++ allOf E ++ allOf W ++ allOf Sh;
  so_leaving : exists unknown,
    pks (unstakeLeaving arg ++ additionalLeaving arg) ≡ₚ pks unknown ++ pks gone ++ pks still /\
    forall v, v ∈ unknown -> PubKey v ∉ pks (allOf (eligible arg) ++ allOf (waiting arg));
  so_enough s : isShard arg s -> minNodes arg s <= len (listOf E s);
  so_swap s : len (listOf Sh s) <= maxNodesToSwapPerShard arg;
  so_dom : is_Some (W !! MetachainShardId);
  so_domE s : is_Some (E !! s) <-> is_Some (eligible arg !! s) \/ is_Some (waiting arg !! s) \/ isShard arg s;
}.

Lemma notFound_spec E W leaving v : v ∈ notFound E W leaving -> PubKey v ∉ pks (allOf E ++ allOf W).
Proof.
  unfold notFound. rewrite list_elem_of_In, filter_In, andb_true_iff, !negb_true_iff. intros (_ & H1 & H2).
  rewrite pks_app. intros [K|K]%elem_of_app; apply searchInMap_spec in K; congruence.
Qed.

(** The two removals, first of [unstakeLeaving] and then of [additionalLeaving]. *)
Lemma removeBoth_spec E W num unstake additional E1 W1 still1 num1 E2 W2 still2 num2 :
  (forall s, 0 <= numOf num s) ->
  removeLeavingNodesFromValidatorMaps E W num unstake = (E1, W1, still1, num1) ->
  removeLeavingNodesFromValidatorMaps E1 W1 num1 additional = (E2, W2, still2, num2) ->
  removed2 E W E2 W2 (unstake ++ additional) (still1 ++ still2) num num2.
Proof.
  intros N R1 R2. apply removeLeaving_spec in R1 as [(g1 & P1 & L1) S1 N1 D1 F1]; [|done].
  apply removeLeaving_spec in R2 as [(g2 & P2 & L2) S2 N2 D2 F2]; [|intros s; apply N1].
  split.
  - exists (g1 ++ g2). split; perm.
  - intros s. rewrite S1. apply S2.
  - intros s. specialize (N1 s). specialize (N2 s). lia.
  - intros s. by rewrite D2.
  - intros s. by rewrite F2.
Qed.

Lemma shuffleInput_sub arg l : shuffleInput arg -> (exists r, candidates arg ≡ₚ l ++ r) ->
  NoDup (pks l) /\ noCollision (randomness arg) (pks l) /\ len l < 2 ^ 32.
Proof.
  intros I [r P]. pose proof P as P'. apply (Permutation_map PubKey) in P'. rewrite map_app in P'.
  destruct I as [ND N _ Sm _ _ _]. split_and!.
  - rewrite P' in ND. by apply NoDup_app in ND as [? _].
  - eapply noCollision_sub; [|exact N]. intros k Hk. rewrite P'. apply elem_of_app. by left.
  - rewrite P, length_app in Sm. lia.
Qed.

Lemma listOf_len m s : (length (listOf m s) <= length (allOf m))%nat.
Proof.
  assert (P : allOf m ≡ₚ listOf m s ++ allOf (<[s := []]> m)) by (apply allOf_shrink; by rewrite app_nil_r).
  rewrite P, length_app. lia.
Qed.

Lemma numToRemove_nonneg arg num : enoughNodes arg ->
  (forall s, isShard arg s -> numOf num s = numValidators arg s - minNodes arg s) ->
  (forall s, ~ isShard arg s -> numOf num s = 0) -> forall s, 0 <= numOf num s.
Proof.
  intros F Nn N0 s. destruct (decide (s ∈ shardIds (nbShards arg) \/ s = MetachainShardId)) as [Hs|Hs].
  - specialize (F s Hs). rewrite (Nn s Hs). lia.
  - by rewrite N0.
Qed.

Lemma removeAndShuffleOut_spec arg : shuffleInput arg ->
  if enoughNodesb arg
  then exists E W Sh still gone, removeAndShuffleOut arg = Ok (E, W, Sh, still) /\ shuffledOut arg E W Sh still gone
  else removeAndShuffleOut arg = Err ErrSmallShardEligibleListSize.
Proof.
  intros I. unfold removeAndShuffleOut, copyValidatorMap.
  pose proof (computeNumToRemove_spec arg (si_shards _ I)) as C.
  destruct (enoughNodesb arg) eqn:F; [|by rewrite C]. destruct C as (num & -> & Nn & N0). cbn.
  apply enough_shards in F; [|apply I]. pose proof (si_swap _ I) as Hsw.
  assert (Nb := numToRemove_nonneg arg num F Nn N0).
  destruct (createAll_spec (waiting arg) (nbShards arg)) as (C1 & C2 & C3). cbv zeta in C1, C2, C3.
  set (W0 := createListsForAllShards _ _) in *.
  destruct (removeLeavingNodesNotExistingInEligibleOrWaiting (unstakeLeaving arg) _ _) as [ul u1] eqn:Eu.
  destruct (removeLeavingNodesNotExistingInEligibleOrWaiting (additionalLeaving arg) _ _) as [al u2] eqn:Ea.
  apply removeNotFound_spec in Eu, Ea.
  destruct (removeLeavingNodesFromValidatorMaps _ _ _ ul) as [[[E1 W1] still1] num1] eqn:R1.
  destruct (removeLeavingNodesFromValidatorMaps E1 _ _ al) as [[[E2 W2] still2] num2] eqn:R2.
  assert (Lim : forall s, 0 <= numOf (limitToSwap (maxNodesToSwapPerShard arg) num) s).
  { intros s. rewrite limitToSwap_spec by done. specialize (Nb s). lia. }
  destruct (removeBoth_spec _ _ _ _ _ _ _ _ _ _ _ _ _ Lim R1 R2) as [(g & P & L) Sz Nu Do DoE].
  destruct (shuffleOutNodes _ _ _) as [Sh E3] eqn:So.
  assert (PC : candidates arg ≡ₚ (allOf E2 ++ allOf W2) ++ (g ++ newNodes arg ++ auction arg)).
  { unfold candidates. perm. }
  destruct (shuffleInput_sub arg (allOf E2) I) as (ND2 & NC2 & B2).
  { eexists. rewrite PC, <- app_assoc. done. }
  destruct (shuffleInput_sub arg (allOf E2 ++ allOf W2) I) as (_ & _ & B3); [by eexists|].
  apply shuffleOut_spec in So as (P3 & S3 & D3); [|intros s; apply Nu|done|done].
  destruct (moveMaxNumNodesToMap _ _ _ _) as [E4 W4] eqn:Mo.
  apply moveMax_spec in Mo as (P4 & D4 & M4 & D5).
  do 4 eexists. exists g. split; [done|]. split.
  - perm.
  - exists (notFound (eligible arg) W0 (unstakeLeaving arg) ++ notFound (eligible arg) W0 (additionalLeaving arg)).
    split; [perm|]. intros v Hv.
    assert (K : PubKey v ∉ pks (allOf (eligible arg) ++ allOf W0)).
    { apply elem_of_app in Hv as [Hv|Hv]; by apply notFound_spec in Hv. }
    by rewrite C2 in K.
  - intros s Hs. specialize (M4 s). cbv zeta in M4.
    assert (DW : is_Some (W2 !! s)) by (apply Do, C3; right; exact Hs).
    specialize (M4 DW). fold (minNodes arg s) in M4.
    pose proof (listOf_len W2 s) as LW. pose proof (listOf_len E2 s) as LE. rewrite length_app in B3.
    destruct (S3 s) as [S3a S3b]. specialize (Sz s). rewrite limitToSwap_spec, C1 in Sz by done.
    specialize (F s Hs). rewrite (Nn s Hs) in Sz. unfold numValidators in *. pose proof (Nu s) as [Nua Nub].
    assert (0 <= minNodes arg s) by (unfold minNodes; destruct (_ =? _); apply I). lia.
  - intros s. destruct (S3 s) as [_ S3b]. pose proof (Nu s) as [_ Nub]. rewrite limitToSwap_spec in Nub by done. lia.
  - apply D4, Do, C3. by do 2 right.
  - intros s. rewrite D5, D3, DoE, Do, C3. unfold isShard. naive_solver.
Qed.

(** ** The whole shuffle *)

(** The error of [shuffleNodes] on a well-formed input, if it has one. *)
Definition shuffleError arg : option nc_error :=
  if negb (enoughNodesb arg) then Some ErrSmallShardEligibleListSize
  else if flagStakingV4Step3 arg && negb (bool_decide (newNodes arg = [])) then Some ErrReceivedNewListNodeInStakingV4
  else None.

(** Where the validators are after the shuffle; [low] is [lowWaitingList]. *)
Record shuffled arg (res : ResUpdateNodes) (low : bool) (gone : list Validator) : Prop := {
  sh_all : allOf (eligible arg) ++ allOf (waiting arg) ++ newNodes arg
             ++ (if flagStakingV4Step3 arg || low then auction arg else [])
           ≡ₚ gone ++ allOf (res_Eligible res) ++ allOf (res_Waiting res)
             ++ (if negb (flagStakingV4Step2 arg) || low then [] else allOf (res_ShuffledOut res));
  sh_leaving : pks (unstakeLeaving arg ++ additionalLeaving arg)
               ≡ₚ pks (res_Leaving res) ++ pks (res_StillRemaining res);
  sh_gone : exists unknown, pks (res_Leaving res) ≡ₚ pks unknown ++ pks gone /\
    forall v, v ∈ unknown -> PubKey v ∉ pks (allOf (eligible arg) ++ allOf (waiting arg));
  sh_enough s : isShard arg s -> minNodes arg s <= len (listOf (res_Eligible res) s);
  sh_swap s : len (listOf (res_ShuffledOut res) s) <= maxNodesToSwapPerShard arg;
  sh_shards s : is_Some (res_Eligible res !! s) <->
    is_Some (eligible arg !! s) \/ is_Some (waiting arg !! s) \/ isShard arg s;
}.

Lemma distributeShuffled_spec cross d sh r balanced j : is_Some (d !! j) ->
  noCollision r (pks (allOf sh)) -> NoDup (pks (allOf sh)) ->
  exists d' sh', DistributeValidators cross d sh r balanced = Ok (d', sh') /\ allOf d' ≡ₚ allOf sh ++ allOf d /\
    forall s, len (listOf sh' s) <= len (listOf sh s).
Proof.
  intros Hd N ND. unfold DistributeValidators. destruct cross.
  - fold (allOf sh). destruct (distribute_spec d (allOf sh) r balanced j Hd N ND) as (d' & -> & P & _).
    by exists d', sh.
  - destruct (moveNodesToMap d sh) as [d' sh'] eqn:E. apply moveNodes_spec in E as [P Nil]. exists d', sh'.
    split_and!; [done|done|]. intros s. rewrite Nil. cbn. lia.
Qed.

Lemma checkNew_spec d l r step3 j : is_Some (d !! j) -> noCollision r (pks l) -> NoDup (pks l) ->
  if step3 && negb (bool_decide (l = []))
  then checkAndDistributeNewNodes d l r step3 = Err ErrReceivedNewListNodeInStakingV4
  else exists d', checkAndDistributeNewNodes d l r step3 = Ok d' /\ allOf d' ≡ₚ l ++ allOf d /\ is_Some (d' !! j).
Proof.
  intros Hd N ND. unfold checkAndDistributeNewNodes. destruct step3; cbn.
  - by destruct l; [exists d|].
  - by apply distribute_spec.
Qed.

Lemma distributeIf_spec (b : bool) d l r balanced j : is_Some (d !! j) -> noCollision r (pks l) -> NoDup (pks l) ->
  exists d', (if b then distributeValidators d l r balanced else Ok d) = Ok d' /\
    allOf d' ≡ₚ (if b then l else []) ++ allOf d /\ is_Some (d' !! j).
Proof. intros Hd N ND. destruct b; [by apply distribute_spec|by exists d]. Qed.

Lemma distributeShuffledIf_spec (b : bool) cross d sh r balanced j : is_Some (d !! j) ->
  noCollision r (pks (allOf sh)) -> NoDup (pks (allOf sh)) ->
  exists d' sh', (if b then DistributeValidators cross d sh r balanced else Ok (d, sh)) = Ok (d', sh') /\
    allOf d' ++ (if b then [] else allOf sh') ≡ₚ allOf sh ++ allOf d /\
    forall s, len (listOf sh' s) <= len (listOf sh s).
Proof.
  intros Hd N ND. destruct b.
  - destruct (distributeShuffled_spec cross d sh r balanced _ Hd N ND) as (d' & sh' & -> & P & L).
    exists d', sh'. split; [done|]. by rewrite app_nil_r.
  - exists d, sh. split; [done|]. split; [by rewrite Permutation_app_comm|done].
Qed.

Lemma shuffleNodes_spec arg : shuffleInput arg ->
  match shuffleError arg with
  | Some e => shuffleNodes arg = Err e
  | None => exists res low gone, shuffleNodes arg = Ok res /\ shuffled arg res low gone
  end.
Proof.
  intros I. pose proof (removeAndShuffleOut_spec arg I) as R. unfold shuffleError, shuffleNodes.
  destruct (enoughNodesb arg); cbn [negb]; [|by rewrite R].
  destruct R as (E & W & Sh & still & gone & -> & [All (unk & Lv & Unk) En Sw Dm DmE]). cbn.
  assert (PC : candidates arg ≡ₚ newNodes arg ++ auction arg ++ gone ++ allOf E ++ allOf W ++ allOf Sh)
    by (unfold candidates; perm).
  destruct (shuffleInput_sub arg (newNodes arg) I) as (ND1 & NC1 & _); [by eexists|].
  destruct (shuffleInput_sub arg (auction arg) I) as (ND2 & NC2 & _).
  { exists (newNodes arg ++ gone ++ allOf E ++ allOf W ++ allOf Sh). perm. }
  destruct (shuffleInput_sub arg (allOf Sh) I) as (ND3 & NC3 & _).
  { exists (newNodes arg ++ auction arg ++ gone ++ allOf E ++ allOf W). perm. }
  set (step3 := flagStakingV4Step3 arg) in *.
  pose proof (checkNew_spec W (newNodes arg) (randomness arg) step3 MetachainShardId Dm NC1 ND1) as New.
  destruct (step3 && _); [by rewrite New|]. destruct New as (W1 & -> & P1 & D1). cbn.
  set (low := shouldDistributeShuffledToWaitingInStakingV4 _).
  assert (Auc := distributeIf_spec (step3 || low) W1 (auction arg) (randomness arg) (flagBalanceWaitingLists arg)
    MetachainShardId D1 NC2 ND2).
  destruct Auc as (W2 & -> & P2 & D2). cbn.
  assert (Dis := distributeShuffledIf_spec (negb (flagStakingV4Step2 arg) || low) (crossShard arg) W2 Sh (randomness arg)
    (flagBalanceWaitingLists arg) MetachainShardId D2 NC3 ND3).
  destruct Dis as (W3 & Sh3 & -> & P3 & E3). cbn.
  destruct (removeValidatorsFromList _ still _) as [act u] eqn:Ra.
  apply remove_all in Ra.
  2: { rewrite Lv. apply submseteq_inserts_l, submseteq_inserts_l. done. }
  do 2 eexists. exists gone. split; [done|]. split; cbn [res_Eligible res_Waiting res_ShuffledOut res_Leaving res_StillRemaining].
  - fold step3. rewrite P3, P2, P1. perm.
  - rewrite Ra. by rewrite Permutation_app_comm.
  - exists unk. split; [|done]. apply (Permutation_app_inv_l (pks still)). rewrite <- Ra, Lv.
    rewrite app_assoc. apply Permutation_app_comm.
  - done.
  - intros s. etrans; [apply E3|apply Sw].
  - exact DmE.
Qed.
End ShufflerEpoch.
