(* ===== verification/ShufflerProperties.v ===== *)
(** * Properties of the shuffler of validators

    The theorems about sharding/nodesCoordinator/hashValidatorShuffler.go and
    validatorDistributor.go, with a witness on two shards and the metachain. *)

From Stdlib Require Import ZArith Lia Floats.SpecFloat.
From stdpp Require Import base gmap list sorting fin_maps.
From S2P Require Import Prelude Config Validators ValidatorsSpec Shuffler ShufflerSpec.

(** The argument of [shuffleNodes] in a call of [UpdateNodeLists] on [rhs]:
    resharding is not implemented, so the maps are the ones of the call. *)
Definition nodesArg (args : ArgsUpdateNodes) (rhs : randHashShuffler) : shuffleNodesArg :=
  let rhs := UpdateShufflerConfig (arg_Epoch args) (arg_ChainParameters args) rhs in
  {| eligible := arg_Eligible args; waiting := arg_Waiting args;
     unstakeLeaving := arg_UnStakeLeaving args;
     additionalLeaving := removeDuplicates (arg_UnStakeLeaving args) (arg_AdditionalLeaving args);
     newNodes := arg_NewNodes args; auction := arg_Auction args; randomness := arg_Rand args;
     nodesMeta := MetachainMinNumNodes (arg_ChainParameters args);
     nodesPerShard := ShardMinNumNodes (arg_ChainParameters args);
     nbShards := arg_NbShards args;
     maxNodesToSwapPerShard := NodesToShufflePerShard (activeNodesConfig rhs);
     maxNumNodes := MaxNumNodes (activeNodesConfig rhs);
     crossShard := shuffleBetweenShards rhs;
     flagBalanceWaitingLists := BalanceWaitingListsFlag rhs (arg_Epoch args);
     flagStakingV4Step2 := rhs_flagStakingV4Step2 rhs;
     flagStakingV4Step3 := rhs_flagStakingV4Step3 rhs;
     flagCleanupAuctionOnLowWaitingList := CleanupAuctionOnLowWaitingListFlag rhs (arg_Epoch args) |}.

Section Shuffler.
Context {H : ShuffleHasher}.
Implicit Types (args : ArgsUpdateNodes) (rhs : randHashShuffler).

Lemma UpdateNodeLists_eq args rhs : UpdateNodeLists args rhs =
  (UpdateShufflerConfig (arg_Epoch args) (arg_ChainParameters args) rhs, shuffleNodes (nodesArg args rhs)).
Proof.
  unfold UpdateNodeLists, mbind, se_bind, se_modify, se_get, se_lift, mergeShards, splitShards, copyValidatorMap.
  destruct (Adaptivity (arg_ChainParameters args)); cbn [andb]; [|done].
  cbv zeta. generalize (computeNewShards (arg_ChainParameters args) (arg_Eligible args) (arg_Waiting args)).
  intros f. by repeat case_match; simplify_eq.
Qed.

Lemma UpdateNodeLists_shuffled args rhs res : shuffleInput (nodesArg args rhs) ->
  (UpdateNodeLists args rhs).2 = Ok res -> exists low gone, shuffled (nodesArg args rhs) res low gone.
Proof.
  intros I. rewrite UpdateNodeLists_eq. cbn [snd]. pose proof (shuffleNodes_spec _ I) as S.
  destruct (shuffleError _); [by rewrite S|]. destruct S as (res' & low & gone & -> & S).
  intros [= <-]. by eauto.
Qed.

(** C14. An epoch change loses no validator and puts none in two places: the
    eligible, waiting and new validators, and the selected ones when they are
    taken, are the ones of the next epoch's eligible and waiting lists, of the
    shuffled out lists that are not yet redistributed, and the removed ones;
    and a removed validator was asked to leave and is reported as leaving, a
    leaving validator that could not be spared as still remaining. *)
Theorem UpdateNodeLists_conserves args rhs res (I : shuffleInput (nodesArg args rhs))
    (R : (UpdateNodeLists args rhs).2 = Ok res) :
  let arg := nodesArg args rhs in
  exists low gone unknown,
    let selected := if flagStakingV4Step3 arg || low then arg_Auction args else [] in
    let aside := if negb (flagStakingV4Step2 arg) || low then [] else allOf (res_ShuffledOut res) in
    allOf (arg_Eligible args) ++ allOf (arg_Waiting args) ++ arg_NewNodes args ++ selected
      ≡ₚ gone ++ allOf (res_Eligible res) ++ allOf (res_Waiting res) ++ aside /\
    NoDup (pks (gone ++ allOf (res_Eligible res) ++ allOf (res_Waiting res) ++ aside)) /\
    pks (arg_UnStakeLeaving args ++ additionalLeaving arg)
      ≡ₚ pks (res_Leaving res) ++ pks (res_StillRemaining res) /\
    pks (res_Leaving res) ≡ₚ pks unknown ++ pks gone /\
    forall v, v ∈ unknown -> PubKey v ∉ pks (allOf (arg_Eligible args) ++ allOf (arg_Waiting args)).
Proof.
  intros arg. destruct (UpdateNodeLists_shuffled args rhs res I R) as (low & gone & [All Lv (unk & Gn & Un) _ _ _]).
  exists low, gone, unk. cbv zeta. split_and!; [exact All| |exact Lv|exact Gn|exact Un].
  pose proof (si_nodup _ I) as ND. assert (Su : exists r, candidates arg ≡ₚ
    (allOf (arg_Eligible args) ++ allOf (arg_Waiting args) ++ arg_NewNodes args ++
     (if flagStakingV4Step3 arg || low then arg_Auction args else [])) ++ r).
  { unfold candidates. destruct (_ || low); [exists []|exists (auction arg)]; rewrite ?app_nil_r, <- ?app_assoc; done. }
  apply (shuffleInput_sub _ _ I) in Su as (ND' & _ & _).
  apply NoDup_ListNoDup in ND'. apply NoDup_ListNoDup. exact (Permutation_NoDup (Permutation_map PubKey All) ND').
Qed.

(** C15. After an epoch change every shard and the metachain keep at least
    their minimum of eligible validators, however many validators asked to
    leave or were shuffled out; and no more than the configured number per
    shard are shuffled out. *)
Theorem UpdateNodeLists_keeps_minimum args rhs res (I : shuffleInput (nodesArg args rhs))
    (R : (UpdateNodeLists args rhs).2 = Ok res) :
  (forall s, 0 <= s < arg_NbShards args ->
     ShardMinNumNodes (arg_ChainParameters args) <= len (listOf (res_Eligible res) s)) /\
  MetachainMinNumNodes (arg_ChainParameters args) <= len (listOf (res_Eligible res) MetachainShardId) /\
  (forall s, len (listOf (res_ShuffledOut res) s) <=
     NodesToShufflePerShard (activeNodesConfig (UpdateNodeLists args rhs).1)).
Proof.
  destruct (UpdateNodeLists_shuffled args rhs res I R) as (low & gone & [_ _ _ En Sw _]).
  split_and!; [| |by rewrite UpdateNodeLists_eq].
  - intros s Hs%elem_shardIds. specialize (En s (or_introl Hs)). unfold minNodes in En.
    by rewrite (proj2 (Z.eqb_neq _ _) (shard_not_meta _ s (proj2 (si_shards _ I)) Hs)) in En.
  - apply (En MetachainShardId). by right.
Qed.

(** C35. An epoch change fails exactly when a shard or the metachain has fewer
    validators than its minimum, or when new validators arrive that did not
    pass the auction once staking v4 is on; the shuffler has switched to the
    configuration of the epoch in any case. *)
Theorem UpdateNodeLists_errors args rhs (I : shuffleInput (nodesArg args rhs)) :
  (UpdateNodeLists args rhs).1 = UpdateShufflerConfig (arg_Epoch args) (arg_ChainParameters args) rhs /\
  forall e, (UpdateNodeLists args rhs).2 = Err e <->
    (~ enoughNodes (nodesArg args rhs) /\ e = ErrSmallShardEligibleListSize) \/
    (enoughNodes (nodesArg args rhs) /\ stakingV4Step3EnableEpoch rhs <= arg_Epoch args /\
     arg_NewNodes args <> [] /\ e = ErrReceivedNewListNodeInStakingV4).
Proof.
  rewrite UpdateNodeLists_eq. split; [done|]. intros e. cbn [snd]. pose proof (shuffleNodes_spec _ I) as S.
  rewrite enough_shards by apply I. unfold shuffleError in S.
  change (flagStakingV4Step3 (nodesArg args rhs)) with (stakingV4Step3EnableEpoch rhs <=? arg_Epoch args) in S.
  change (newNodes (nodesArg args rhs)) with (arg_NewNodes args) in S.
  destruct (enoughNodesb _); cbn [negb] in S; [|rewrite S; naive_solver].
  destruct (Z.leb_spec (stakingV4Step3EnableEpoch rhs) (arg_Epoch args)); cbn [andb] in S.
  - case_bool_decide as Nw; cbn [negb] in S.
    + destruct S as (res & low & gone & -> & _). naive_solver.
    + rewrite S. naive_solver.
  - destruct S as (res & low & gone & -> & _). naive_solver lia.
Qed.

(** The distribution across shards does not depend on the order in which
    Go iterates over the map of shuffled out validators, nor on the order of
    the lists: every node of the network computes the same waiting lists. *)
Theorem DistributeValidators_order destination (source : ShardMap) rand balanced order
    (N : noCollision rand (pks (allOf source))) (ND : NoDup (pks (allOf source))) (P : order ≡ₚ allOf source) :
  DistributeValidators true destination source rand balanced =
    (destination ← distributeValidators destination order rand balanced; Ok (destination, source)).
Proof.
  unfold DistributeValidators, distributeValidators. fold (allOf source).
  by rewrite (shuffleList_order (allOf source) order) by (by rewrite ?P).
Qed.
End Shuffler.

(** ** The witnesses: two shards and the metachain, staking v4 being on *)

Definition exHasher : ShuffleHasher := fun b => List.rev b.

Definition exValidator (n : Z) : Validator := {| PubKey := [n; n + 1]; Chances := 1; Index := n |}.
Definition exChain : ChainParametersByEpochConfig :=
  {| RoundDuration := 6000; RoundsPerEpoch := 14400; MinRoundsBetweenEpochs := 20;
     Hysteresis := binary_normalize 24 128 0 0 false; EnableEpoch := 0; ShardConsensusGroupSize := 2;
     ShardMinNumNodes := 2; MetachainConsensusGroupSize := 2; MetachainMinNumNodes := 2; Adaptivity := false;
     Offset := 0 |}.
Definition exArgs (new : list Validator) (nb : Z) : ArgsUpdateNodes :=
  {| arg_ChainParameters := exChain;
     arg_Eligible := <[0 := List.map exValidator [10; 11; 12]]> (<[1 := List.map exValidator [20; 21]]>
       (<[MetachainShardId := List.map exValidator [30; 31]]> ∅));
     arg_Waiting := <[0 := List.map exValidator [13]]> (<[MetachainShardId := List.map exValidator [32; 33]]> ∅);
     arg_NewNodes := new;
     arg_UnStakeLeaving := List.map exValidator [11; 20; 70];
     arg_AdditionalLeaving := List.map exValidator [11];
     arg_Auction := List.map exValidator [40; 41; 42];
     arg_Rand := [7; 9];
     arg_NbShards := nb;
     arg_Epoch := 5 |}.
Definition exShuffler : randHashShuffler := NewHashValidatorsShuffler true
  [{| EpochEnable := 4; MaxNumNodes := 12; NodesToShufflePerShard := 1 |}] 2 3 (fun _ => true) (fun _ => true).

Lemma exNoCollision r ks : noCollision (H := exHasher) r ks.
Proof.
  intros a b _ _ E. unfold shuffle_Compute, exHasher in E. apply (f_equal (@List.rev Z)) in E.
  rewrite !List.rev_involutive in E. by apply app_inv_tail in E.
Qed.

Lemma exInput new nb : NoDup (pks (candidates (nodesArg (exArgs new nb) exShuffler))) -> 0 < nb <= 2 ->
  len (candidates (nodesArg (exArgs new nb) exShuffler)) < 2 ^ 32 ->
  shuffleInput (H := exHasher) (nodesArg (exArgs new nb) exShuffler).
Proof. intros ND B L. split; [done|apply exNoCollision|cbn; unfold MetachainShardId; lia|done|done|done|done]. Qed.

Lemma exInputOk : shuffleInput (H := exHasher) (nodesArg (exArgs [] 2) exShuffler).
Proof. apply exInput; [apply (bool_decide_unpack _); by vm_compute|lia|by vm_compute]. Qed.

Lemma exInputNew : shuffleInput (H := exHasher) (nodesArg (exArgs [exValidator 50] 2) exShuffler).
Proof. apply exInput; [apply (bool_decide_unpack _); by vm_compute|lia|by vm_compute]. Qed.

Definition exResult : ResUpdateNodes :=
  match (UpdateNodeLists (H := exHasher) (exArgs [] 2) exShuffler).2 with
  | Ok res => res
  | Err _ => {| res_Eligible := ∅; res_Waiting := ∅; res_ShuffledOut := ∅; res_Leaving := [];
                res_StillRemaining := []; res_LowWaitingList := false |}
  end.

Lemma exResultOk : (UpdateNodeLists (H := exHasher) (exArgs [] 2) exShuffler).2 = Ok exResult.
Proof. by vm_compute. Qed.

Lemma UpdateNodeLists_conserves_witness : exists low gone unknown,
  allOf (arg_Eligible (exArgs [] 2)) ++ allOf (arg_Waiting (exArgs [] 2)) ++ [] ++
    (if true || low then arg_Auction (exArgs [] 2) else [])
    ≡ₚ gone ++ allOf (res_Eligible exResult) ++ allOf (res_Waiting exResult)
       ++ (if negb true || low then [] else allOf (res_ShuffledOut exResult)) /\
  pks (res_Leaving exResult) ≡ₚ pks unknown ++ pks gone.
Proof.
  pose proof (UpdateNodeLists_conserves (H := exHasher) (exArgs [] 2) exShuffler exResult exInputOk exResultOk)
    as (low & gone & unk & P & _ & _ & L & _).
  exists low, gone, unk. split; [exact P|exact L].
Defined.

Lemma UpdateNodeLists_keeps_minimum_witness :
  (forall s, 0 <= s < 2 -> 2 <= len (listOf (res_Eligible exResult) s)) /\
  res_StillRemaining exResult = [exValidator 20] /\ List.map PubKey (res_Leaving exResult) = [[11; 12]; [70; 71]].
Proof.
  split; [|split; by vm_compute].
  exact (proj1 (UpdateNodeLists_keeps_minimum (H := exHasher) (exArgs [] 2) exShuffler exResult exInputOk exResultOk)).
Defined.

Lemma UpdateNodeLists_errors_witness :
  (UpdateNodeLists (H := exHasher) (exArgs [exValidator 50] 2) exShuffler).2 = Err ErrReceivedNewListNodeInStakingV4.
Proof.
  apply (UpdateNodeLists_errors (H := exHasher) (exArgs [exValidator 50] 2) exShuffler exInputNew).
  right. split_and!; [|by vm_compute|done|done].
  apply (enough_shards (nodesArg (exArgs [exValidator 50] 2) exShuffler)); by vm_compute.
Defined.

Lemma DistributeValidators_order_witness : let source := arg_Eligible (exArgs [] 2) in
  DistributeValidators (H := exHasher) true (arg_Waiting (exArgs [] 2)) source [7; 9] true =
    (destination ← distributeValidators (H := exHasher) (arg_Waiting (exArgs [] 2)) (List.rev (allOf source)) [7; 9] true;
     Ok (destination, source)).
Proof.
  intros source. apply (DistributeValidators_order (H := exHasher) _ source [7; 9] true (List.rev (allOf source))).
  - apply exNoCollision.
  - apply (bool_decide_unpack _). by vm_compute.
  - symmetry. apply Permutation_rev.
Defined.
