(* ===== verification/Ratings.v ===== *)
(** * The ratings of validators (process/rating)

    [RatingsData] computes, for every epoch at which the configuration changes,
    by how much a rating goes up or down for blocks produced, validated and
    missed; [BlockSigningRater] applies these steps and gives a rating its
    chance of being selected for consensus. *)

From Stdlib Require Import ZArith Lia SpecFloat.
From stdpp Require Import base gmap list sorting.
From S2P Require Import Prelude GoValues Floats Config ChainParameters Validators.

Inductive RatingsError :=
| ErrMinRatingSmallerThanOne
| ErrMaxRatingIsSmallerThanMinRating
| ErrStartRatingNotBetweenMinAndMax
| ErrSignedBlocksThresholdNotBetweenZeroAndOne
| ErrInvalidRatingsConfig
| ErrHoursToMaxRatingFromStartRatingZero
| ErrConsecutiveMissedBlocksPenaltyLowerThanOne
| ErrDecreaseRatingsStepMoreThanMinusOne
| ErrMissingEpochZero
| ErrEmptyChainParametersConfiguration
| ErrOverflow
| ErrIncreaseStepLowerThanOne
| ErrNoMatchingConfigForProvidedEpoch
| ErrNilMinChanceIfZero
| ErrDuplicateThreshold
| ErrNoChancesForMaxThreshold
| ErrNoChancesProvided
| integerDivideByZero. (** a run-time panic *)

(** [if b { return err }] *)
Definition failIf (b : bool) (e : RatingsError) : result RatingsError () := if b then Err e else Ok ().

(** ** The steps (ratingStepData.go, selectionChance.go, chance.go) *)

Record RatingStep := {
  proposerIncreaseRatingStep : Z;
  proposerDecreaseRatingStep : Z;
  validatorIncreaseRatingStep : Z;
  validatorDecreaseRatingStep : Z;
  consecutiveMissedBlocksPenalty : spec_float;
}.

Record SelectionChance := {
  MaxThreshold : Z;
  ChancePercent : Z;
}.

(** ** The configuration in use (ratingsData.go) *)

Definition millisecondsInHour : Z := 3600 * 1000.

Record ratingsStepsData := {
  enableEpoch : Z;
  shardRatingsStepData : RatingStep;
  metaRatingsStepData : RatingStep;
}.

Record computeRatingStepArg := {
  arg_shardSize : Z;
  arg_consensusSize : Z;
  arg_roundTimeMillis : Z;
  arg_startRating : Z;
  arg_maxRating : Z;
  arg_hoursToMaxRatingFromStartRating : Z;
  arg_proposerDecreaseFactor : spec_float;
  arg_validatorDecreaseFactor : spec_float;
  arg_consecutiveMissedBlocksPenalty : spec_float;
  arg_proposerValidatorImportance : spec_float;
}.

Record RatingsData := {
  rd_startRating : Z;
  rd_maxRating : Z;
  rd_minRating : Z;
  rd_signedBlocksThreshold : spec_float;
  currentRatingsStepData : ratingsStepsData;
  ratingsStepsConfig : list ratingsStepsData;
  selectionChances : list SelectionChance;
  ratingsSetup : RatingsConfig;
}.

(** [slices.SortFunc] of golang.org/x/exp. *)
Class SliceSort := SortFunc : forall {A : Type}, (A -> A -> Z) -> list A -> list A.

(** What its documentation promises. *)
Class SliceSortLaws (S : SliceSort) : Prop := {
  SortFunc_perm : forall A cmp (l : list A), SortFunc cmp l ≡ₚ l;
  SortFunc_sorted : forall A (key : A -> Z) (l : list A),
    Sorted (fun a b => key a <= key b) (SortFunc (fun a b => key a - key b) l);
}.

(** The order in which [range] visits the keys of a map: Go leaves it open. *)
Class MapRange := rangeOrder : gset Z -> list Z.
Class MapRangeLaws (R : MapRange) : Prop := rangeOrder_perm : forall X, rangeOrder X ≡ₚ elements X.

Section Ratings.
(** [undefined] is what [int32(f)] gives where Go leaves it open. *)
Context {SS : SliceSort} {MR : MapRange} (undefined : spec_float -> Z).

Definition computeRatingStep (arg : computeRatingStepArg) : result RatingsError RatingStep :=
  _ ← failIf (arg_roundTimeMillis arg =? 0) integerDivideByZero;
  let blocksProducedInHours :=
    u32 (arg_hoursToMaxRatingFromStartRating arg * millisecondsInHour) / arg_roundTimeMillis arg in
  let ratingDifference := u32 (arg_maxRating arg - arg_startRating arg) in
  let proposerProbability :=
    float32_div (float32_of_Z blocksProducedInHours) (float32_of_Z (arg_shardSize arg)) in
  let validatorProbability := float32_mul proposerProbability (float32_of_Z (arg_consensusSize arg)) in
  let totalImportance := float32_add (arg_proposerValidatorImportance arg) (float32_of_Z 1) in
  let ratingFromProposer := float32_mul (float32_of_Z ratingDifference)
                              (float32_div (arg_proposerValidatorImportance arg) totalImportance) in
  let ratingFromValidator := float32_mul (float32_of_Z ratingDifference)
                               (float32_div (float32_of_Z 1) totalImportance) in
  let proposerIncrease := float32_div ratingFromProposer proposerProbability in
  let validatorIncrease := float32_div ratingFromValidator validatorProbability in
  let proposerDecrease := float32_mul proposerIncrease (arg_proposerDecreaseFactor arg) in
  let validatorDecrease := float32_mul validatorIncrease (arg_validatorDecreaseFactor arg) in
  _ ← failIf (SFltb (float32_of_Z maxInt32) proposerIncrease) ErrOverflow;
  _ ← failIf (SFltb (float32_of_Z maxInt32) validatorIncrease) ErrOverflow;
  _ ← failIf (SFltb proposerDecrease (float32_of_Z minInt32)) ErrOverflow;
  _ ← failIf (SFltb validatorDecrease (float32_of_Z minInt32)) ErrOverflow;
  _ ← failIf (int32 undefined proposerIncrease <? 1) ErrIncreaseStepLowerThanOne;
  _ ← failIf (int32 undefined validatorIncrease <? 1) ErrIncreaseStepLowerThanOne;
  Ok {| proposerIncreaseRatingStep := int32 undefined proposerIncrease;
        proposerDecreaseRatingStep := int32 undefined proposerDecrease;
        validatorIncreaseRatingStep := int32 undefined validatorIncrease;
        validatorDecreaseRatingStep := int32 undefined validatorDecrease;
        consecutiveMissedBlocksPenalty := arg_consecutiveMissedBlocksPenalty arg |}.

(** *** Checks of the configuration *)

Fixpoint checkRatingStepsByEpochConfigForDest_loop (l : list RatingSteps) : result RatingsError () :=
  match l with
  | [] => Ok ()
  | s :: l =>
      _ ← failIf (HoursToMaxRatingFromStartRating s =? 0) ErrHoursToMaxRatingFromStartRatingZero;
      _ ← failIf (SFltb (ConsecutiveMissedBlocksPenalty s) (float32_of_Z 1))
            ErrConsecutiveMissedBlocksPenaltyLowerThanOne;
      _ ← failIf (SFltb (float32_of_Z (-1)) (ProposerDecreaseFactor s)
                  || SFltb (float32_of_Z (-1)) (ValidatorDecreaseFactor s))
            ErrDecreaseRatingsStepMoreThanMinusOne;
      checkRatingStepsByEpochConfigForDest_loop l
  end.

Definition checkRatingStepsByEpochConfigForDest (l : list RatingSteps) : result RatingsError () :=
  _ ← failIf (bool_decide (length l = 0%nat)) ErrInvalidRatingsConfig;
  checkRatingStepsByEpochConfigForDest_loop l.

Definition verifyRatingsConfig (settings : RatingsConfig) : result RatingsError () :=
  let g := cfg_General settings in
  _ ← failIf (cfg_MinRating g <? 1) ErrMinRatingSmallerThanOne;
  _ ← failIf (cfg_MaxRating g <? cfg_MinRating g) ErrMaxRatingIsSmallerThanMinRating;
  _ ← failIf ((cfg_MaxRating g <? cfg_StartRating g) || (cfg_StartRating g <? cfg_MinRating g))
        ErrStartRatingNotBetweenMinAndMax;
  _ ← failIf (SFltb (float32_of_Z 1) (cfg_SignedBlocksThreshold g)
              || SFltb (cfg_SignedBlocksThreshold g) (float32_of_Z 0))
        ErrSignedBlocksThresholdNotBetweenZeroAndOne;
  _ ← checkRatingStepsByEpochConfigForDest (cfg_ShardChain settings);
  checkRatingStepsByEpochConfigForDest (cfg_MetaChain settings).

(** *** What is configured for an epoch *)

(** The last entry whose epoch has come, with whether there is one. *)
Definition getRatingStepsForEpoch (epoch : Z) (l : list RatingSteps) : RatingSteps * bool :=
  fold_left (fun acc s => if rs_EnableEpoch s <=? epoch then (s, true) else acc) l (zeroRatingSteps, false).

(** The list comes back as well: it is sorted in place. *)
Definition getChainParamsForEpoch (epoch : Z) (l : list ChainParametersByEpochConfig)
    : list ChainParametersByEpochConfig * (ChainParametersByEpochConfig * bool) :=
  let l := SortFunc (fun a b => EnableEpoch a - EnableEpoch b) l in
  (l, fold_left (fun acc p => if EnableEpoch p <=? epoch then (p, true) else acc) l (zeroChainParameters, false)).

Definition checkForEpochZeroConfiguration (cfg : RatingsConfig) (chain : list ChainParametersByEpochConfig) : bool :=
  snd (getRatingStepsForEpoch 0 (cfg_ShardChain cfg)) && snd (getRatingStepsForEpoch 0 (cfg_MetaChain cfg))
  && snd (snd (getChainParamsForEpoch 0 chain)).

Definition shardStepArg (g : General) (p : ChainParametersByEpochConfig) (s : RatingSteps) : computeRatingStepArg :=
  {| arg_shardSize := ShardMinNumNodes p; arg_consensusSize := ShardConsensusGroupSize p;
     arg_roundTimeMillis := RoundDuration p; arg_startRating := cfg_StartRating g; arg_maxRating := cfg_MaxRating g;
     arg_hoursToMaxRatingFromStartRating := HoursToMaxRatingFromStartRating s;
     arg_proposerDecreaseFactor := ProposerDecreaseFactor s;
     arg_validatorDecreaseFactor := ValidatorDecreaseFactor s;
     arg_consecutiveMissedBlocksPenalty := ConsecutiveMissedBlocksPenalty s;
     arg_proposerValidatorImportance := ProposerValidatorImportance s |}.

Definition metaStepArg (g : General) (p : ChainParametersByEpochConfig) (s : RatingSteps) : computeRatingStepArg :=
  {| arg_shardSize := MetachainMinNumNodes p; arg_consensusSize := MetachainConsensusGroupSize p;
     arg_roundTimeMillis := RoundDuration p; arg_startRating := cfg_StartRating g; arg_maxRating := cfg_MaxRating g;
     arg_hoursToMaxRatingFromStartRating := HoursToMaxRatingFromStartRating s;
     arg_proposerDecreaseFactor := ProposerDecreaseFactor s;
     arg_validatorDecreaseFactor := ValidatorDecreaseFactor s;
     arg_consecutiveMissedBlocksPenalty := ConsecutiveMissedBlocksPenalty s;
     arg_proposerValidatorImportance := ProposerValidatorImportance s |}.

Definition computeRatingStepsConfigForEpoch (setup : RatingsConfig) (epoch : Z)
    (chain : list ChainParametersByEpochConfig)
    : result RatingsError (list ChainParametersByEpochConfig * ratingsStepsData) :=
  let '(chain, (p, _)) := getChainParamsForEpoch epoch chain in
  let s := fst (getRatingStepsForEpoch epoch (cfg_ShardChain setup)) in
  shard ← computeRatingStep (shardStepArg (cfg_General setup) p s);
  let s := fst (getRatingStepsForEpoch epoch (cfg_MetaChain setup)) in
  meta ← computeRatingStep (metaStepArg (cfg_General setup) p s);
  Ok (chain, {| enableEpoch := epoch; shardRatingsStepData := shard; metaRatingsStepData := meta |}).

Fixpoint computeRatingStepsConfig_loop (setup : RatingsConfig) (epochs : list Z)
    (chain : list ChainParametersByEpochConfig) (acc : list ratingsStepsData)
    : result RatingsError (list ratingsStepsData) :=
  match epochs with
  | [] => Ok acc
  | epoch :: epochs =>
      '(chain, configForEpoch) ← computeRatingStepsConfigForEpoch setup epoch chain;
      computeRatingStepsConfig_loop setup epochs chain (acc ++ [configForEpoch])
  end.

Definition configuredEpochs (setup : RatingsConfig) (chain : list ChainParametersByEpochConfig) : gset Z :=
  list_to_set (rs_EnableEpoch <$> cfg_ShardChain setup) ∪ list_to_set (rs_EnableEpoch <$> cfg_MetaChain setup)
  ∪ list_to_set (EnableEpoch <$> chain).

Definition laterSteps (a b : ratingsStepsData) : Prop := enableEpoch b <= enableEpoch a.
#[export] Instance laterSteps_dec a b : Decision (laterSteps a b).
Proof. unfold laterSteps. apply _. Defined.

(** The list that is assigned to [ratingsStepsConfig]; its last entry exists
    because no list of epochs is empty. *)
Definition computeRatingStepsConfig (setup : RatingsConfig) (chain : list ChainParametersByEpochConfig)
    : result RatingsError (list ratingsStepsData) :=
  _ ← failIf (bool_decide (length chain = 0%nat)) ErrEmptyChainParametersConfiguration;
  l ← computeRatingStepsConfig_loop setup (rangeOrder (configuredEpochs setup chain)) chain [];
  let l := merge_sort laterSteps l in
  match last l with
  | Some earliestConfig => _ ← failIf (negb (enableEpoch earliestConfig =? 0)) ErrMissingEpochZero; Ok l
  | None => Err ErrMissingEpochZero
  end.

(** *** The component *)

Definition withSortedSteps (cfg : RatingsConfig) : RatingsConfig :=
  let sorted := SortFunc (fun a b => rs_EnableEpoch a - rs_EnableEpoch b) in
  {| cfg_General := cfg_General cfg; cfg_ShardChain := sorted (cfg_ShardChain cfg);
     cfg_MetaChain := sorted (cfg_MetaChain cfg) |}.

Definition getMatchingVersion (epoch : Z) (rd : RatingsData) : result RatingsError ratingsStepsData :=
  if enableEpoch (currentRatingsStepData rd) =? epoch then Ok (currentRatingsStepData rd)
  else match List.find (fun c => enableEpoch c <=? epoch) (ratingsStepsConfig rd) with
       | Some c => Ok c
       | None => Err ErrNoMatchingConfigForProvidedEpoch
       end.

(** The metrics that are published for the new steps are left out. *)
Definition EpochConfirmed (epoch : Z) (rd : RatingsData) : RatingsData :=
  match getMatchingVersion epoch rd with
  | Err _ => rd
  | Ok newVersion =>
      if enableEpoch (currentRatingsStepData rd) =? enableEpoch newVersion then rd
      else {| rd_startRating := rd_startRating rd; rd_maxRating := rd_maxRating rd;
              rd_minRating := rd_minRating rd; rd_signedBlocksThreshold := rd_signedBlocksThreshold rd;
              currentRatingsStepData := newVersion; ratingsStepsConfig := ratingsStepsConfig rd;
              selectionChances := selectionChances rd; ratingsSetup := ratingsSetup rd |}
  end.

(** A notifier at [currentEpoch] tells it to the handler that is registered. *)
Definition RegisterNotifyHandler (currentEpoch : Z) (handler : RatingsData) : RatingsData :=
  EpochConfirmed currentEpoch handler.

Definition chancesOf (g : General) : list SelectionChance :=
  (fun c => {| MaxThreshold := cfg_MaxThreshold c; ChancePercent := cfg_ChancePercent c |}) <$> cfg_SelectionChances g.

(** The notifier counts with its current epoch; neither it nor the holder is nil. *)
Definition NewRatingsData (cfg : RatingsConfig) (currentEpoch : Z) (holder : chainParametersHolder)
    : result RatingsError RatingsData :=
  _ ← verifyRatingsConfig cfg;
  let cfg := withSortedSteps cfg in
  let g := cfg_General cfg in
  _ ← failIf (negb (checkForEpochZeroConfiguration cfg (AllChainParameters holder))) ErrMissingEpochZero;
  let p := CurrentChainParameters holder in
  shard ← computeRatingStep
            (shardStepArg g p (fst (getRatingStepsForEpoch currentEpoch (cfg_ShardChain cfg))));
  meta ← computeRatingStep
           (metaStepArg g p (fst (getRatingStepsForEpoch currentEpoch (cfg_MetaChain cfg))));
  stepsConfig ← computeRatingStepsConfig cfg (AllChainParameters holder);
  Ok (RegisterNotifyHandler currentEpoch
    {| rd_startRating := cfg_StartRating g; rd_maxRating := cfg_MaxRating g; rd_minRating := cfg_MinRating g;
       rd_signedBlocksThreshold := cfg_SignedBlocksThreshold g;
       currentRatingsStepData := {| enableEpoch := currentEpoch; shardRatingsStepData := shard;
                                    metaRatingsStepData := meta |};
       ratingsStepsConfig := stepsConfig; selectionChances := chancesOf g; ratingsSetup := cfg |}).

Definition MetaChainRatingsStepHandler (rd : RatingsData) : RatingStep :=
  metaRatingsStepData (currentRatingsStepData rd).

(** Without a matching version the metachain gets the current steps of the shards. *)
Definition MetaChainRatingsStepHandlerForEpoch (epoch : Z) (rd : RatingsData) : RatingStep :=
  match getMatchingVersion epoch rd with
  | Ok steps => metaRatingsStepData steps
  | Err _ => shardRatingsStepData (currentRatingsStepData rd)
  end.

Definition ShardChainRatingsStepHandler (rd : RatingsData) : RatingStep :=
  shardRatingsStepData (currentRatingsStepData rd).

Definition ShardChainRatingsStepHandlerForEpoch (epoch : Z) (rd : RatingsData) : RatingStep :=
  match getMatchingVersion epoch rd with
  | Ok steps => shardRatingsStepData steps
  | Err _ => shardRatingsStepData (currentRatingsStepData rd)
  end.
End Ratings.

(** ** The rater (blockSigningRater.go) *)

Definition maxDecreaseValue : Z := minInt32.

Record selectionChance := {
  maxThreshold : Z;
  chancePercentage : Z;
}.

(** The handler of the ratings is shared with the notifier of epochs, which
    changes it: the operations take its state as an argument. *)
Record BlockSigningRater := {
  startRating : Z;
  signedBlocksThreshold : spec_float;
  maxRating : Z;
  minRating : Z;
  shardRatingsStepHandler : RatingStep;
  metaRatingsStepHandler : RatingStep;
  ratingChances : list selectionChance;
}.

Definition verifyRatingsData (rd : RatingsData) : result RatingsError () :=
  _ ← failIf (rd_minRating rd <? 1) ErrMinRatingSmallerThanOne;
  _ ← failIf (rd_maxRating rd <? rd_minRating rd) ErrMaxRatingIsSmallerThanMinRating;
  _ ← failIf ((rd_maxRating rd <? rd_startRating rd) || (rd_startRating rd <? rd_minRating rd))
        ErrStartRatingNotBetweenMinAndMax;
  _ ← failIf (bool_decide (length (selectionChances rd) = 0%nat)) ErrNoChancesProvided;
  _ ← failIf (SFltb (rd_signedBlocksThreshold rd) (float32_of_Z 0)
              || SFltb (float32_of_Z 1) (rd_signedBlocksThreshold rd))
        ErrSignedBlocksThresholdNotBetweenZeroAndOne;
  let meta := MetaChainRatingsStepHandler rd in
  let shard := ShardChainRatingsStepHandler rd in
  _ ← failIf (SFltb (consecutiveMissedBlocksPenalty meta) (float32_of_Z 1))
        ErrConsecutiveMissedBlocksPenaltyLowerThanOne;
  _ ← failIf (SFltb (consecutiveMissedBlocksPenalty shard) (float32_of_Z 1))
        ErrConsecutiveMissedBlocksPenaltyLowerThanOne;
  _ ← failIf ((-1 <? proposerDecreaseRatingStep shard) || (-1 <? validatorDecreaseRatingStep shard))
        ErrDecreaseRatingsStepMoreThanMinusOne;
  failIf ((-1 <? proposerDecreaseRatingStep meta) || (-1 <? validatorDecreaseRatingStep meta))
    ErrDecreaseRatingsStepMoreThanMinusOne.

Definition lowerThreshold (a b : selectionChance) : Prop := maxThreshold a <= maxThreshold b.
#[export] Instance lowerThreshold_dec a b : Decision (lowerThreshold a b).
Proof. unfold lowerThreshold. apply _. Defined.

(** Whether two neighbours have the same threshold. *)
Fixpoint duplicateThreshold (l : list selectionChance) : bool :=
  match l with
  | a :: l => match l with
              | b :: _ => (maxThreshold a =? maxThreshold b) || duplicateThreshold l
              | [] => false
              end
  | [] => false
  end.

(** [sort.Slice] leaves the order of equal thresholds open; they are refused
    right after it. *)
Definition NewBlockSigningRater (rd : RatingsData) : result RatingsError BlockSigningRater :=
  _ ← verifyRatingsData rd;
  let chances := merge_sort lowerThreshold
    ((fun c => {| maxThreshold := MaxThreshold c; chancePercentage := ChancePercent c |}) <$> selectionChances rd) in
  match chances, last chances with
  | first :: _, Some final =>
      _ ← failIf (0 <? maxThreshold first) ErrNilMinChanceIfZero;
      _ ← failIf (duplicateThreshold chances) ErrDuplicateThreshold;
      _ ← failIf (negb (maxThreshold final =? rd_maxRating rd)) ErrNoChancesForMaxThreshold;
      Ok {| startRating := rd_startRating rd; minRating := rd_minRating rd; maxRating := rd_maxRating rd;
            signedBlocksThreshold := rd_signedBlocksThreshold rd;
            shardRatingsStepHandler := ShardChainRatingsStepHandler rd;
            metaRatingsStepHandler := MetaChainRatingsStepHandler rd; ratingChances := chances |}
  | _, _ => Err ErrNoChancesProvided
  end.

Definition computeRating (ratingStep currentRating : Z) (bsr : BlockSigningRater) : Z :=
  let newVal := currentRating + ratingStep in
  if newVal <? minRating bsr then minRating bsr
  else if maxRating bsr <? newVal then maxRating bsr
  else u32 newVal.

Section Rater.
(** [SupernovaFlag epoch]: the flag is enabled in the epoch. *)
Context (SupernovaFlag : Z -> bool) (undefined : spec_float -> Z) (rd : RatingsData) (bsr : BlockSigningRater).

Definition getShardChainRatingsStepHandler (epoch : Z) : RatingStep :=
  if SupernovaFlag epoch then ShardChainRatingsStepHandlerForEpoch epoch rd else shardRatingsStepHandler bsr.

Definition getMetaChainRatingsStepHandler (epoch : Z) : RatingStep :=
  if SupernovaFlag epoch then MetaChainRatingsStepHandlerForEpoch epoch rd else metaRatingsStepHandler bsr.

Definition ComputeIncreaseProposer (shardId currentRating epoch : Z) : Z :=
  let ratingStep :=
    if shardId =? MetachainShardId then proposerIncreaseRatingStep (getMetaChainRatingsStepHandler epoch)
    else proposerIncreaseRatingStep (getShardChainRatingsStepHandler epoch) in
  computeRating ratingStep currentRating bsr.

Definition RevertIncreaseValidator (shardId currentRating nrReverts epoch : Z) : Z :=
  let ratingStep :=
    if shardId =? MetachainShardId then validatorIncreaseRatingStep (getMetaChainRatingsStepHandler epoch)
    else validatorIncreaseRatingStep (getShardChainRatingsStepHandler epoch) in
  let decreaseInt := i64 (i32 (- ratingStep) * nrReverts) in
  let decreaseValue :=
    if (decreaseInt <? maxDecreaseValue) || (0 <? decreaseInt) then maxDecreaseValue else i32 decreaseInt in
  computeRating decreaseValue currentRating bsr.

(** The loop over the consecutive misses. *)
Fixpoint missesLoop (consecutiveMisses : nat) (penalty computedFloat : spec_float) : spec_float :=
  match consecutiveMisses with
  | O => computedFloat
  | S consecutiveMisses =>
      let computedFloat := float64_mul computedFloat penalty in
      if SFltb computedFloat (float64_of_Z maxDecreaseValue) then float64_of_Z maxDecreaseValue
      else missesLoop consecutiveMisses penalty computedFloat
  end.

Definition ComputeDecreaseProposer (shardId currentRating consecutiveMisses epoch : Z) : Z :=
  let handler :=
    if shardId =? MetachainShardId then getMetaChainRatingsStepHandler epoch
    else getShardChainRatingsStepHandler epoch in
  let computedFloat :=
    missesLoop (Z.to_nat consecutiveMisses) (float64_of_float32 (consecutiveMissedBlocksPenalty handler))
      (float64_of_Z (proposerDecreaseRatingStep handler)) in
  computeRating (int32 undefined computedFloat) currentRating bsr.

Definition ComputeIncreaseValidator (shardId currentRating epoch : Z) : Z :=
  let ratingStep :=
    if shardId =? MetachainShardId then validatorIncreaseRatingStep (getMetaChainRatingsStepHandler epoch)
    else validatorIncreaseRatingStep (getShardChainRatingsStepHandler epoch) in
  computeRating ratingStep currentRating bsr.

Definition ComputeDecreaseValidator (shardId currentRating epoch : Z) : Z :=
  let ratingStep :=
    if shardId =? MetachainShardId then validatorDecreaseRatingStep (getMetaChainRatingsStepHandler epoch)
    else validatorDecreaseRatingStep (getShardChainRatingsStepHandler epoch) in
  computeRating ratingStep currentRating bsr.
End Rater.

Definition GetStartRating (bsr : BlockSigningRater) : Z := startRating bsr.
Definition GetSignedBlocksThreshold (bsr : BlockSigningRater) : spec_float := signedBlocksThreshold bsr.

(** The constructor leaves no rater without chances. *)
Definition GetChance (currentRating : Z) (bsr : BlockSigningRater) : Z :=
  match List.find (fun c => negb (maxThreshold c <? currentRating)) (ratingChances bsr) with
  | Some currentChance => chancePercentage currentChance
  | None => match ratingChances bsr with c :: _ => chancePercentage c | [] => 0 end
  end.
