(* ===== verification/RatingsSpec.v ===== *)
(** * The rating steps and their effect

    Bounds of the computed steps, how repeated misses add up in floating
    point, and that the steps used in an epoch are those of the configuration
    in force. *)

From Stdlib Require Import ZArith Lia SpecFloat.
From stdpp Require Import base gmap list sorting.
From S2P Require Import Prelude GoValues Floats Config ChainParameters Validators Ratings.

(** ** The monad *)

Lemma failIf_passes b e a : failIf b e = Ok a -> b = false.
Proof. by destruct b. Qed.

Lemma bind_Ok {E A B} (m : result E A) (k : A -> result E B) b : m ≫= k = Ok b -> exists a, m = Ok a /\ k a = Ok b.
Proof. destruct m; [|done]. cbn. eauto. Qed.

(** Takes apart an equation between a sequence of statements and a result. *)
Ltac steps_in H :=
  repeat (apply bind_Ok in H as (? & ? & H));
  repeat match goal with F : failIf _ _ = Ok _ |- _ => apply failIf_passes in F end.

(** ** Integers from floats *)

(** What an x86 processor gives for a float that no int32 can hold. *)
Definition indefinite32 (undefined : spec_float -> Z) : Prop := forall f, undefined f = minInt32.

Lemma int32_range undefined f : indefinite32 undefined -> minInt32 <= int32 undefined f <= maxInt32.
Proof.
  intros U. unfold int32. rewrite U. unfold minInt32, maxInt32. destruct (truncate f) as [n|]; [|lia].
  destruct (_ && _) eqn:E; [|lia]. bool_prop. unfold minInt32, maxInt32 in *. lia.
Qed.

(** A positive result comes from a positive finite float. *)
Lemma int32_positive undefined f : indefinite32 undefined -> 1 <= int32 undefined f ->
  exists m e, f = S754_finite false m e /\ int32 undefined f = truncMag m e /\ truncMag m e <= maxInt32.
Proof.
  intros U. unfold int32. rewrite U.
  destruct f as [s|s| |s m e]; [by intros [].. |]. cbn [truncate].
  destruct (_ && _) eqn:E; [|unfold minInt32; lia]. bool_prop. pose proof (truncMag_nonneg m e).
  destruct s; cbn [cond_Zopp] in *; [lia|]. intros _. exists m, e. tauto.
Qed.

(** ** The bounds of the steps *)

(** Steps that raise a rating for a block and lower it more for a missed one;
    the penalty for repeated misses does not shrink a step. *)
Record soundStep (s : RatingStep) : Prop := {
  sound_proposerIncrease : 1 <= proposerIncreaseRatingStep s <= maxInt32;
  sound_proposerDecrease : minInt32 <= proposerDecreaseRatingStep s <= - proposerIncreaseRatingStep s;
  sound_validatorIncrease : 1 <= validatorIncreaseRatingStep s <= maxInt32;
  sound_validatorDecrease : minInt32 <= validatorDecreaseRatingStep s <= - validatorIncreaseRatingStep s;
  sound_penalty : atLeastOne 24 128 false (consecutiveMissedBlocksPenalty s);
}.

(** The increase times a factor of at most minus one. *)
Lemma decrease_exceeds_increase undefined x y factor : indefinite32 undefined ->
  1 <= int32 undefined (float32_div x y) -> atLeastOne 24 128 true factor ->
  int32 undefined (float32_mul (float32_div x y) factor) <= - int32 undefined (float32_div x y).
Proof.
  intros U H F. destruct (int32_positive _ _ U H) as (m & e & E & -> & R). unfold float32_div in E.
  pose proof (div_fits 24 128 ltac:(lia) ltac:(lia) _ _ _ _ _ E) as Fx. unfold float32_div, float32_mul. rewrite E.
  assert (W : minInt32 <= - truncMag m e) by (unfold minInt32, maxInt32 in *; lia).
  destruct (mul_above 24 128 ltac:(lia) ltac:(lia) false m e true factor Fx F) as [->|(mr & er & -> & M & _)];
    cbn [xorb].
  - unfold int32. cbn [truncate]. by rewrite U.
  - apply truncMag_mono in M. unfold int32. cbn [truncate cond_Zopp]. rewrite U.
    destruct (_ && _); lia.
Qed.

(** Factors and penalty of the configuration are float32 numbers. *)
Definition numbers (s : RatingSteps) : Prop :=
  Forall (fun f => valid32 f /\ f <> S754_nan)
    [ProposerDecreaseFactor s; ValidatorDecreaseFactor s; ConsecutiveMissedBlocksPenalty s].

(** What the checks of the configuration let through. *)
Record acceptedSteps (s : RatingSteps) : Prop := {
  accepted_proposer : atLeastOne 24 128 true (ProposerDecreaseFactor s);
  accepted_validator : atLeastOne 24 128 true (ValidatorDecreaseFactor s);
  accepted_penalty : atLeastOne 24 128 false (ConsecutiveMissedBlocksPenalty s);
}.

Lemma checkSteps_accepted l : Forall numbers l -> checkRatingStepsByEpochConfigForDest l = Ok () ->
  Forall acceptedSteps l.
Proof.
  unfold checkRatingStepsByEpochConfigForDest. intros N H. steps_in H. clear -N H.
  induction N as [|s l N Nl IH]; [constructor|]. cbn [checkRatingStepsByEpochConfigForDest_loop] in H. steps_in H.
  unfold numbers in N. rewrite !Forall_cons in N. destruct N as ([V1 N1] & [V2 N2] & [V3 N3] & _).
  match goal with F : _ || _ = false |- _ => apply orb_false_iff in F as [F1 F2] end.
  constructor; [|by apply IH].
  split; [by apply not_above_minus_one.. |by apply not_below_one].
Qed.

Lemma computeRatingStep_sound undefined arg step : indefinite32 undefined ->
  atLeastOne 24 128 true (arg_proposerDecreaseFactor arg) ->
  atLeastOne 24 128 true (arg_validatorDecreaseFactor arg) ->
  atLeastOne 24 128 false (arg_consecutiveMissedBlocksPenalty arg) ->
  computeRatingStep undefined arg = Ok step -> soundStep step.
Proof.
  intros U Fp Fv P H. unfold computeRatingStep in H. cbn zeta in H. steps_in H. injection H as <-.
  repeat match goal with C : (_ <? 1) = false |- _ => apply Z.ltb_ge in C end.
  split; cbn; try done; split; try done;
    first [by apply decrease_exceeds_increase | by apply int32_range].
Qed.

(** ** Repeated misses *)

Section Misses.
Context (penalty : spec_float) (Penalty : atLeastOne 53 1024 false penalty).

(** One more miss: the magnitude does not shrink and stays within the range
    of an int32, or the loop is left with the least int32. *)
Lemma miss_step m e : bounded 53 1024 m e = true ->
  let x := float64_mul (S754_finite true m e) penalty in
  SFltb x (float64_of_Z maxDecreaseValue) = true \/
  exists m' e', x = S754_finite true m' e' /\ SFltb x (float64_of_Z maxDecreaseValue) = false /\
    bounded 53 1024 m' e' = true /\ truncMag m e <= truncMag m' e' <= 2 ^ 31.
Proof.
  intros B x. pose proof (canonical_fits 53 1024 ltac:(lia) m e B) as F.
  destruct (mul_above 53 1024 ltac:(lia) ltac:(lia) true m e false penalty F Penalty)
    as [E|(m' & e' & E & M & B')]; fold (float64_mul (S754_finite true m e) penalty) in E; fold x in E; rewrite E.
  - by left.
  - cbn [xorb] in *. destruct (SFltb (S754_finite true m' e') (float64_of_Z maxDecreaseValue)) eqn:L; [by left|right].
    exists m', e'. split; [done|]. split; [done|]. split; [by apply B'|]. split; [by apply truncMag_mono|].
    apply not_below_min; [by apply B'|done].
Qed.

(** More misses give at least the magnitude of fewer. *)
Lemma missesLoop_mono n1 n2 m e : bounded 53 1024 m e = true -> truncMag m e <= 2 ^ 31 ->
  exists m1 e1 m2 e2,
    missesLoop n1 penalty (S754_finite true m e) = S754_finite true m1 e1 /\
    missesLoop (n1 + n2) penalty (S754_finite true m e) = S754_finite true m2 e2 /\
    truncMag m e <= truncMag m1 e1 <= truncMag m2 e2 /\ truncMag m2 e2 <= 2 ^ 31.
Proof.
  assert (C : exists mk ek, float64_of_Z maxDecreaseValue = S754_finite true mk ek /\ truncMag mk ek = 2 ^ 31).
  { by exists 4503599627370496%positive, (-21). }
  destruct C as (mk & ek & C & Ck).
  revert n2 m e. induction n1 as [|n1 IH]; intros n2 m e B T.
  - exists m, e. cbn [missesLoop Nat.add]. revert m e B T. induction n2 as [|n2 IH]; intros m e B T; cbn [missesLoop].
    + exists m, e. repeat split; lia.
    + destruct (miss_step m e B) as [L|(m' & e' & E & L & B' & T')]; rewrite L.
      * exists mk, ek. rewrite C. repeat split; lia.
      * rewrite E. destruct (IH m' e' B' ltac:(lia)) as (m2 & e2 & _ & E2 & H1 & H2).
        exists m2, e2. rewrite E2. repeat split; lia.
  - cbn [missesLoop Nat.add]. destruct (miss_step m e B) as [L|(m' & e' & E & L & B' & T')]; rewrite L.
    + exists mk, ek, mk, ek. rewrite C. repeat split; lia.
    + rewrite E. destruct (IH n2 m' e' B' ltac:(lia)) as (m1 & e1 & m2 & e2 & E1 & E2 & H1 & H2).
      exists m1, e1, m2, e2. rewrite E1, E2. repeat split; lia.
Qed.
End Misses.

Lemma int32_negative undefined m e : truncMag m e <= 2 ^ 31 -> int32 undefined (S754_finite true m e) = - truncMag m e.
Proof.
  intros T. pose proof (truncMag_nonneg m e). unfold int32. cbn [truncate cond_Zopp].
  destruct (_ && _) eqn:E; [done|]. bool_prop. unfold minInt32, maxInt32 in E. lia.
Qed.

(** The decrease for some consecutive misses, one for more of them, and the
    one for none. *)
Lemma misses_decrease undefined penalty step n1 n2 :
  atLeastOne 24 128 false penalty -> minInt32 <= step <= -1 -> (n1 <= n2)%nat ->
  let decrease n := int32 undefined (missesLoop n (float64_of_float32 penalty) (float64_of_Z step)) in
  minInt32 <= decrease n2 <= decrease n1 /\ decrease n1 <= step /\ decrease 0%nat = step.
Proof.
  intros P S N decrease. destruct step as [|m|m]; [lia|lia|].
  destruct (float64_negative m ltac:(unfold minInt32 in S; lia)) as (mz & e & E & B & T).
  assert (Tm : truncMag mz e <= 2 ^ 31) by (unfold minInt32 in S; lia).
  destruct (missesLoop_mono _ (float64_atLeastOne _ _ P) n1 (n2 - n1) mz e B Tm)
    as (m1 & e1 & m2 & e2 & E1 & E2 & H1 & H2).
  replace (n1 + (n2 - n1))%nat with n2 in E2 by lia.
  unfold decrease. cbn [missesLoop]. rewrite E, E1, E2, !int32_negative by lia. unfold minInt32. lia.
Qed.

(** ** Ratings *)

(** The range of ratings of a rater. *)
Record validRater (bsr : BlockSigningRater) : Prop := {
  vr_min : 1 <= minRating bsr;
  vr_max : minRating bsr <= maxRating bsr < 2 ^ 32;
  vr_start : minRating bsr <= startRating bsr <= maxRating bsr;
}.

Lemma computeRating_clamps bsr step r : validRater bsr -> computeRating step r bsr =
  Z.max (minRating bsr) (Z.min (maxRating bsr) (r + step)).
Proof.
  intros [V1 V2 _]. unfold computeRating.
  destruct (Z.ltb_spec (r + step) (minRating bsr)); [lia|].
  destruct (Z.ltb_spec (maxRating bsr) (r + step)); [lia|]. rewrite u32_id; lia.
Qed.

(** ** The steps in force *)

(** The search for the last entry that has begun, in a sorted list. *)
Definition lastBegun {A} (key : A -> Z) (epoch : Z) (l : list A) (acc : A * bool) : A * bool :=
  fold_left (fun acc x => if key x <=? epoch then (x, true) else acc) l acc.

Lemma lastBegun_inForce {A} (key : A -> Z) epoch (l : list A) d z :
  Sorted (fun a b => key a <= key b) l -> z ∈ l -> key z <= epoch ->
  exists x, lastBegun key epoch l d = (x, true) /\ inForce key l epoch x.
Proof.
  intros S%Sorted_StronglySorted; [|intros ? ? ?; lia]. revert d z.
  induction S as [|x l S IH F]; intros d z I L; [by inversion I|].
  unfold lastBegun. cbn [fold_left]. fold (lastBegun key epoch l).
  rewrite Forall_forall in F. assert (Lx : key x <= epoch) by (apply elem_of_cons in I as [->|I%F]; lia).
  destruct (Z.leb_spec (key x) epoch) as [_|]; [|lia].
  destruct (decide (Exists (fun y => key y <= epoch) l)) as [E|N].
  - apply Exists_exists in E as (y & Iy & Ly). destruct (IH (x, true) y Iy Ly) as (w & E & (Iw & Lw & M)).
    exists w. split; [done|]. split; [by constructor|]. split; [done|]. intros u [->|Iu]%elem_of_cons Lu.
    + by apply F.
    + by apply M.
  - exists x. split.
    + clear -N. induction l as [|y l IH]; [done|]. rewrite Exists_cons in N. unfold lastBegun. cbn [fold_left].
      destruct (Z.leb_spec (key y) epoch); [by destruct N; left|]. apply IH. tauto.
    + split; [constructor|]. split; [done|]. intros u [->|Iu]%elem_of_cons Lu; [lia|].
      exfalso. apply N, Exists_exists. by exists u.
Qed.

Section InForce.
Context {SS : SliceSort} {SSL : SliceSortLaws SS} {MR : MapRange} {MRL : MapRangeLaws MR}.
Context (undefined : spec_float -> Z).
Context (cfg : RatingsConfig) (chain : list ChainParametersByEpochConfig).

(** The steps that the entries of the configuration in force at [epoch] give. *)
Definition stepsInForce (epoch : Z) (steps : ratingsStepsData) : Prop :=
  exists p s m,
    inForce EnableEpoch chain epoch p /\
    inForce rs_EnableEpoch (cfg_ShardChain cfg) epoch s /\
    inForce rs_EnableEpoch (cfg_MetaChain cfg) epoch m /\
    computeRatingStep undefined (shardStepArg (cfg_General cfg) p s) = Ok (shardRatingsStepData steps) /\
    computeRatingStep undefined (metaStepArg (cfg_General cfg) p m) = Ok (metaRatingsStepData steps).

Lemma stepsInForce_same e1 e2 steps : e1 <= e2 ->
  (forall y, y ∈ configuredEpochs cfg chain -> y <= e2 -> y <= e1) -> stepsInForce e1 steps -> stepsInForce e2 steps.
Proof.
  intros L N (p & s & m & Ip & Is & Im & E). exists p, s, m.
  unfold configuredEpochs in N.
  split; [|split; [|split; [|done]]]; (eapply inForce_same; [exact L| |done]);
    intros y Iy Ly; apply N; try done; rewrite !elem_of_union, !elem_of_list_to_set, !list_elem_of_fmap; eauto 6.
Qed.

(** Every list has an entry for epoch zero, and those of the setup are sorted. *)
Record orderedConfig : Prop := {
  oc_shard : Sorted (fun a b => rs_EnableEpoch a <= rs_EnableEpoch b) (cfg_ShardChain cfg);
  oc_meta : Sorted (fun a b => rs_EnableEpoch a <= rs_EnableEpoch b) (cfg_MetaChain cfg);
  oc_shard_zero : exists s, s ∈ cfg_ShardChain cfg /\ rs_EnableEpoch s <= 0;
  oc_meta_zero : exists s, s ∈ cfg_MetaChain cfg /\ rs_EnableEpoch s <= 0;
  oc_chain_zero : exists p, p ∈ chain /\ EnableEpoch p <= 0;
  oc_epochs : forall y, y ∈ configuredEpochs cfg chain -> 0 <= y;
}.
Context (OC : orderedConfig).

Lemma shard_entry epoch : 0 <= epoch ->
  inForce rs_EnableEpoch (cfg_ShardChain cfg) epoch (fst (getRatingStepsForEpoch epoch (cfg_ShardChain cfg))).
Proof.
  intros He. destruct (oc_shard_zero OC) as (z & I & L).
  destruct (lastBegun_inForce rs_EnableEpoch epoch _ (zeroRatingSteps, false) z (oc_shard OC) I ltac:(lia))
    as (x & E & F).
  unfold getRatingStepsForEpoch. unfold lastBegun in E. by rewrite E.
Qed.

Lemma meta_entry epoch : 0 <= epoch ->
  inForce rs_EnableEpoch (cfg_MetaChain cfg) epoch (fst (getRatingStepsForEpoch epoch (cfg_MetaChain cfg))).
Proof.
  intros He. destruct (oc_meta_zero OC) as (z & I & L).
  destruct (lastBegun_inForce rs_EnableEpoch epoch _ (zeroRatingSteps, false) z (oc_meta OC) I ltac:(lia))
    as (x & E & F).
  unfold getRatingStepsForEpoch. unfold lastBegun in E. by rewrite E.
Qed.

Lemma chain_entry epoch l : 0 <= epoch -> l ≡ₚ chain ->
  exists l' p b, getChainParamsForEpoch epoch l = (l', (p, b)) /\ l' ≡ₚ chain /\ inForce EnableEpoch chain epoch p.
Proof.
  intros He P. unfold getChainParamsForEpoch.
  pose proof (SortFunc_perm ChainParametersByEpochConfig (fun a b => EnableEpoch a - EnableEpoch b) l) as Q.
  pose proof (SortFunc_sorted ChainParametersByEpochConfig EnableEpoch l) as S.
  set (l' := SortFunc _ l) in *. destruct (oc_chain_zero OC) as (z & I & L).
  rewrite <- P, <- Q in I.
  destruct (lastBegun_inForce EnableEpoch epoch l' (zeroChainParameters, false) z S I ltac:(lia)) as (x & E & F).
  exists l', x, true. split; [f_equal; exact E|]. split; [by rewrite Q|].
  eapply inForce_perm; [|exact F]. by rewrite Q.
Qed.

Lemma stepsConfigForEpoch_inForce epoch l l' steps : 0 <= epoch -> l ≡ₚ chain ->
  computeRatingStepsConfigForEpoch undefined cfg epoch l = Ok (l', steps) ->
  l' ≡ₚ chain /\ enableEpoch steps = epoch /\ stepsInForce epoch steps.
Proof.
  intros He P H. unfold computeRatingStepsConfigForEpoch in H.
  destruct (chain_entry epoch l He P) as (l1 & p & b & E & P1 & F). rewrite E in H.
  apply bind_Ok in H as (shard & Es & H). apply bind_Ok in H as (meta & Em & H). injection H as <- <-.
  split; [done|]. split; [done|]. eexists p, _, _.
  split; [done|]. split; [by apply shard_entry|]. split; [by apply meta_entry|done].
Qed.

Lemma stepsConfig_loop_inForce epochs l acc res : Forall (Z.le 0) epochs -> l ≡ₚ chain ->
  computeRatingStepsConfig_loop undefined cfg epochs l acc = Ok res ->
  exists added, res = acc ++ added /\ enableEpoch <$> added = epochs /\
    Forall (fun c => stepsInForce (enableEpoch c) c) added.
Proof.
  intros F. revert l acc. induction F as [|epoch epochs He F IH]; intros l acc P H; cbn in H.
  - injection H as <-. exists []. by rewrite app_nil_r.
  - apply bind_Ok in H as ([l' c] & E & H).
    destruct (stepsConfigForEpoch_inForce _ _ _ _ He P E) as (P' & Ec & Fc).
    destruct (IH _ _ P' H) as (added & -> & Ea & Fa). exists (c :: added).
    split; [by rewrite <- app_assoc|]. cbn. rewrite Ea, Ec. split; [done|]. constructor; [by rewrite Ec|done].
Qed.

#[local] Instance laterSteps_total : Total laterSteps.
Proof. intros a b. unfold laterSteps. lia. Qed.

(** The table of steps: sorted, one entry for every configured epoch. *)
Record stepsTable (l : list ratingsStepsData) : Prop := {
  st_sorted : Sorted laterSteps l;
  st_epochs : forall y, y ∈ configuredEpochs cfg chain <-> exists c, c ∈ l /\ enableEpoch c = y;
  st_inForce : Forall (fun c => stepsInForce (enableEpoch c) c) l;
}.

Lemma computeRatingStepsConfig_table l : computeRatingStepsConfig undefined cfg chain = Ok l -> stepsTable l.
Proof.
  intros H. unfold computeRatingStepsConfig in H. apply bind_Ok in H as (? & _ & H).
  apply bind_Ok in H as (res & E & H).
  assert (R : forall y, y ∈ rangeOrder (configuredEpochs cfg chain) <-> y ∈ configuredEpochs cfg chain).
  { intros y. rewrite (MRL (configuredEpochs cfg chain)). by rewrite elem_of_elements. }
  destruct (stepsConfig_loop_inForce _ _ _ _ ltac:(apply Forall_forall; intros y Iy; apply (oc_epochs OC); by apply R)
    ltac:(done) E) as (added & -> & Ea & Fa).
  cbn [app] in H. pose proof (merge_sort_Permutation laterSteps added) as P.
  destruct (last _) as [c|]; [|done]. apply bind_Ok in H as (? & _ & H). injection H as <-.
  split.
  - apply Sorted_merge_sort. apply _.
  - intros y. rewrite <- R, <- Ea, list_elem_of_fmap. split.
    + intros (c' & -> & I). exists c'. by rewrite P.
    + intros (c' & I & <-). exists c'. by rewrite <- P.
  - by rewrite P.
Qed.

(** *** The component *)

Record followsConfig (rd : RatingsData) : Prop := {
  fc_current : stepsInForce (enableEpoch (currentRatingsStepData rd)) (currentRatingsStepData rd);
  fc_table : stepsTable (ratingsStepsConfig rd);
}.

Lemma find_step rd epoch : followsConfig rd -> 0 <= epoch -> exists c,
  List.find (fun c => enableEpoch c <=? epoch) (ratingsStepsConfig rd) = Some c /\
  enableEpoch c <= epoch /\ (forall y, y ∈ configuredEpochs cfg chain -> y <= epoch -> y <= enableEpoch c) /\
  stepsInForce (enableEpoch c) c.
Proof.
  intros [_ T] He. destruct (List.find _ _) as [c|] eqn:E.
  - exists c. split; [done|]. apply find_inForce in E; [|apply (st_sorted _ T)]. destruct E as (I & L & M).
    split; [done|]. split.
    + intros y (c' & I' & <-)%(st_epochs _ T) Ly. by apply M.
    + pose proof (st_inForce _ T) as F. rewrite Forall_forall in F. by apply F.
  - exfalso. destruct (oc_chain_zero OC) as (p & I & L).
    destruct (proj1 (st_epochs _ T (EnableEpoch p))) as (c & Ic & Ec).
    + unfold configuredEpochs. rewrite !elem_of_union, !elem_of_list_to_set, !list_elem_of_fmap. right. eauto.
    + pose proof (find_none _ _ E c (proj1 (list_elem_of_In _ _) Ic)) as N. apply Z.leb_gt in N. lia.
Qed.

Lemma getMatchingVersion_inForce rd epoch : followsConfig rd -> 0 <= epoch ->
  exists steps, getMatchingVersion epoch rd = Ok steps /\ stepsInForce epoch steps.
Proof.
  intros H He. unfold getMatchingVersion.
  destruct (Z.eqb_spec (enableEpoch (currentRatingsStepData rd)) epoch) as [E|N].
  - eexists. split; [done|]. rewrite <- E. apply H.
  - destruct (find_step rd epoch H He) as (c & -> & L & M & F). exists c. split; [done|].
    by eapply stepsInForce_same.
Qed.

Lemma EpochConfirmed_follows rd epoch : followsConfig rd -> 0 <= epoch ->
  followsConfig (EpochConfirmed epoch rd) /\
  stepsInForce epoch (currentRatingsStepData (EpochConfirmed epoch rd)).
Proof.
  intros H He. unfold EpochConfirmed, getMatchingVersion.
  destruct (Z.eqb_spec (enableEpoch (currentRatingsStepData rd)) epoch) as [E|N].
  - rewrite Z.eqb_refl. split; [done|]. rewrite <- E. apply H.
  - destruct (find_step rd epoch H He) as (c & -> & L & M & F).
    destruct (Z.eqb_spec (enableEpoch (currentRatingsStepData rd)) (enableEpoch c)) as [E|N'].
    + split; [done|]. apply (stepsInForce_same (enableEpoch c)); [done..|]. rewrite <- E. apply H.
    + split; [|by eapply stepsInForce_same]. split; [done|]. apply (fc_table _ H).
Qed.
End InForce.

(** ** Construction and the life of the component *)

(** The component after the epochs that were confirmed, the last one first. *)
Fixpoint epochsConfirmed (epochs : list Z) (rd : RatingsData) : RatingsData :=
  match epochs with
  | [] => rd
  | epoch :: epochs => EpochConfirmed epoch (epochsConfirmed epochs rd)
  end.

Lemma lastBegun_found {A} (key : A -> Z) epoch (l : list A) d : (lastBegun key epoch l d).2 = true -> d.2 = false ->
  exists x, x ∈ l /\ key x <= epoch.
Proof.
  unfold lastBegun. revert d. induction l as [|x l IH]; intros d H Hd; cbn in H; [congruence|].
  destruct (Z.leb_spec (key x) epoch) as [L|L].
  - exists x. split; [constructor|done].
  - destruct (IH d H Hd) as (y & I & Ly). exists y. split; [by constructor|done].
Qed.

Section Life.
Context {SS : SliceSort} {SSL : SliceSortLaws SS} {MR : MapRange} {MRL : MapRangeLaws MR}.
Context (undefined : spec_float -> Z).
Context (cfg : RatingsConfig) (chain : list ChainParametersByEpochConfig).
Context (Epochs : forall y, y ∈ configuredEpochs cfg chain -> 0 <= y).

Lemma withSortedSteps_perm :
  cfg_ShardChain (withSortedSteps cfg) ≡ₚ cfg_ShardChain cfg /\ cfg_MetaChain (withSortedSteps cfg) ≡ₚ cfg_MetaChain cfg.
Proof. split; apply SortFunc_perm. Qed.

Lemma stepsInForce_perm chain' epoch steps : chain' ≡ₚ chain ->
  stepsInForce undefined (withSortedSteps cfg) chain' epoch steps -> stepsInForce undefined cfg chain epoch steps.
Proof.
  intros P (p & s & m & Ip & Is & Im & E). destruct withSortedSteps_perm as [Ps Pm].
  exists p, s, m. split; [|split; [|split; [|done]]]; by (eapply inForce_perm; [|done]).
Qed.

Lemma sorted_orderedConfig chain' : chain' ≡ₚ chain ->
  checkForEpochZeroConfiguration (withSortedSteps cfg) chain' = true ->
  orderedConfig (withSortedSteps cfg) chain'.
Proof.
  intros P H. unfold checkForEpochZeroConfiguration in H. rewrite !andb_true_iff in H. destruct H as [[H1 H2] H3].
  destruct withSortedSteps_perm as [Ps Pm].
  split.
  - apply SortFunc_sorted.
  - apply SortFunc_sorted.
  - exact (lastBegun_found rs_EnableEpoch 0 _ (zeroRatingSteps, false) H1 eq_refl).
  - exact (lastBegun_found rs_EnableEpoch 0 _ (zeroRatingSteps, false) H2 eq_refl).
  - destruct (lastBegun_found EnableEpoch 0 _ (zeroChainParameters, false) H3 eq_refl) as (x & I & L).
    exists x. split; [|done]. by rewrite (SortFunc_perm _ _ chain') in I.
  - intros y Iy. apply Epochs. revert Iy. unfold configuredEpochs.
    rewrite !elem_of_union, !elem_of_list_to_set, !list_elem_of_fmap. setoid_rewrite Ps.
    setoid_rewrite Pm. by setoid_rewrite P.
Qed.

(** The life of a node: a holder that was told the starts of the epochs
    [started], the component that was created then, and was told later of
    the epochs [confirmed]. *)
Context (started : list Z) (Started : Forall (Z.le 0) started).
Context (h : chainParametersHolder) (H : NewChainParametersHolder chain = Ok h).
Context (rd : RatingsData) (R : NewRatingsData undefined cfg (List.hd 0 started) (epochsStarted started h) = Ok rd).

Lemma hd_nonneg epochs e : Forall (Z.le 0) epochs -> 0 <= e -> 0 <= List.hd e epochs.
Proof. by intros [|x l Hx Hl]. Qed.

Lemma NewRatingsData_follows :
  let chain' := AllChainParameters (epochsStarted started h) in
  chain' ≡ₚ chain /\ orderedConfig (withSortedSteps cfg) chain' /\
  followsConfig undefined (withSortedSteps cfg) chain' rd /\
  stepsInForce undefined (withSortedSteps cfg) chain' (List.hd 0 started) (currentRatingsStepData rd).
Proof.
  intros chain'. destruct (epochsStarted_holds chain h started H Started) as [Hh Cur].
  pose proof (holds_perm _ _ Hh) as P. fold (AllChainParameters (epochsStarted started h)) in P. fold chain' in P.
  pose proof R as R'. unfold NewRatingsData in R'.
  apply bind_Ok in R' as (? & V & R'). cbn zeta in R'. fold chain' in R'.
  apply bind_Ok in R' as (? & Z & R'). apply failIf_passes, negb_false_iff in Z.
  apply bind_Ok in R' as (shard & Es & R'). apply bind_Ok in R' as (meta & Em & R').
  apply bind_Ok in R' as (table & T & R'). injection R' as <-.
  pose proof (sorted_orderedConfig chain' P Z) as OC. split; [done|]. split; [done|].
  pose proof (hd_nonneg started 0 Started ltac:(done)) as Hhd.
  apply EpochConfirmed_follows; [done| |done].
  split; [|by apply computeRatingStepsConfig_table].
  eexists _, _, _. split; [|split; [by apply (shard_entry _ _ OC)|split; [by apply (meta_entry _ _ OC)|split; [exact Es|exact Em]]]].
  eapply inForce_perm; [|exact Cur]. done.
Qed.

Lemma epochsConfirmed_follows confirmed : Forall (Z.le 0) confirmed ->
  let chain' := AllChainParameters (epochsStarted started h) in
  followsConfig undefined (withSortedSteps cfg) chain' (epochsConfirmed confirmed rd) /\
  stepsInForce undefined (withSortedSteps cfg) chain' (List.hd (List.hd 0 started) confirmed)
    (currentRatingsStepData (epochsConfirmed confirmed rd)).
Proof.
  intros F chain'. destruct NewRatingsData_follows as (P & OC & Fc & Fs).
  induction F as [|epoch confirmed He F IH]; [done|]. cbn [epochsConfirmed List.hd].
  apply EpochConfirmed_follows; [done|apply IH|done].
Qed.

(** The steps that the component hands out at any time. *)
Lemma handlers_inForce confirmed epoch : Forall (Z.le 0) confirmed -> 0 <= epoch ->
  let rd := epochsConfirmed confirmed rd in
  stepsInForce undefined cfg chain epoch
    {| enableEpoch := epoch; shardRatingsStepData := ShardChainRatingsStepHandlerForEpoch epoch rd;
       metaRatingsStepData := MetaChainRatingsStepHandlerForEpoch epoch rd |} /\
  stepsInForce undefined cfg chain (List.hd (List.hd 0 started) confirmed)
    {| enableEpoch := enableEpoch (currentRatingsStepData rd);
       shardRatingsStepData := ShardChainRatingsStepHandler rd;
       metaRatingsStepData := MetaChainRatingsStepHandler rd |}.
Proof.
  intros F He rd'. destruct NewRatingsData_follows as (P & OC & _ & _).
  destruct (epochsConfirmed_follows confirmed F) as [Fc Fs].
  destruct (getMatchingVersion_inForce undefined _ _ OC (epochsConfirmed confirmed rd) epoch Fc He) as (steps & E & I).
  split; apply (stepsInForce_perm _ _ _ P).
  - unfold rd', ShardChainRatingsStepHandlerForEpoch, MetaChainRatingsStepHandlerForEpoch. by rewrite E.
  - exact Fs.
Qed.

(** *** Soundness *)

Context (U : indefinite32 undefined).
Context (Ns : Forall numbers (cfg_ShardChain cfg)) (Nm : Forall numbers (cfg_MetaChain cfg)).

Lemma stepsInForce_sound epoch steps : stepsInForce undefined cfg chain epoch steps ->
  soundStep (shardRatingsStepData steps) /\ soundStep (metaRatingsStepData steps).
Proof.
  intros (p & s & m & _ & (Is & _) & (Im & _) & Es & Em).
  pose proof R as R'. unfold NewRatingsData in R'. apply bind_Ok in R' as ([] & V & _).
  unfold verifyRatingsConfig in V. do 5 apply bind_Ok in V as (? & ? & V).
  match goal with C : checkRatingStepsByEpochConfigForDest _ = Ok ?x |- _ => destruct x;
    pose proof (checkSteps_accepted _ Ns C) as As end.
  pose proof (checkSteps_accepted _ Nm V) as Am.
  rewrite Forall_forall in As, Am. destruct (As _ Is), (Am _ Im).
  split; eapply computeRatingStep_sound; try exact U; try exact Es; try exact Em; done.
Qed.

Lemma handlers_sound confirmed epoch : Forall (Z.le 0) confirmed -> 0 <= epoch ->
  let rd := epochsConfirmed confirmed rd in
  soundStep (ShardChainRatingsStepHandlerForEpoch epoch rd) /\
  soundStep (MetaChainRatingsStepHandlerForEpoch epoch rd) /\
  soundStep (ShardChainRatingsStepHandler rd) /\ soundStep (MetaChainRatingsStepHandler rd).
Proof.
  intros F He rd'. destruct (handlers_inForce confirmed epoch F He) as [I J].
  apply stepsInForce_sound in I as [I1 I2]. apply stepsInForce_sound in J as [J1 J2]. done.
Qed.
End Life.

(** ** The rater *)

Lemma epochsConfirmed_app later confirmed rd :
  epochsConfirmed (later ++ confirmed) rd = epochsConfirmed later (epochsConfirmed confirmed rd).
Proof. induction later as [|e l IH]; cbn; [done|]. by rewrite IH. Qed.

(** Confirmed epochs change only the current steps. *)
Lemma EpochConfirmed_bounds epoch rd : rd_maxRating (EpochConfirmed epoch rd) = rd_maxRating rd.
Proof. unfold EpochConfirmed. destruct (getMatchingVersion epoch rd); [|done]. by destruct (_ =? _). Qed.

Lemma epochsConfirmed_bounds epochs rd : rd_maxRating (epochsConfirmed epochs rd) = rd_maxRating rd.
Proof. induction epochs as [|e l IH]; cbn; [done|]. by rewrite EpochConfirmed_bounds. Qed.

#[local] Instance lowerThreshold_total : Total lowerThreshold.
Proof. intros a b. unfold lowerThreshold. lia. Qed.

(** What the constructor of a rater guarantees. *)
Record raterOf (rd : RatingsData) (bsr : BlockSigningRater) : Prop := {
  ro_valid : validRater bsr;
  ro_shard : shardRatingsStepHandler bsr = ShardChainRatingsStepHandler rd;
  ro_meta : metaRatingsStepHandler bsr = MetaChainRatingsStepHandler rd;
  ro_sorted : Sorted lowerThreshold (ratingChances bsr);
  ro_last : exists c, last (ratingChances bsr) = Some c /\ maxThreshold c = maxRating bsr;
}.

Lemma NewBlockSigningRater_raterOf rd bsr : rd_maxRating rd < 2 ^ 32 -> NewBlockSigningRater rd = Ok bsr ->
  raterOf rd bsr.
Proof.
  intros Hmax H. unfold NewBlockSigningRater in H. apply bind_Ok in H as (? & V & H). cbn zeta in H.
  set (chances := merge_sort lowerThreshold _) in H.
  assert (S : Sorted lowerThreshold chances) by (apply Sorted_merge_sort; apply _). clearbody chances.
  destruct chances as [|first chances]; [done|]. destruct (last (first :: chances)) as [final|] eqn:L; [|done].
  unfold verifyRatingsData in V. cbn zeta in V. steps_in V. steps_in H. injection H as <-.
  repeat match goal with C : _ || _ = false |- _ => apply orb_false_iff in C as [] end.
  repeat match goal with
    | C : (_ <? _) = false |- _ => apply Z.ltb_ge in C
    | C : negb (_ =? _) = false |- _ => apply negb_false_iff, Z.eqb_eq in C
    end.
  split; cbn; [split; cbn; lia|done..|by exists final].
Qed.

Lemma last_in {A} (l : list A) x : last l = Some x -> x ∈ l.
Proof. rewrite last_lookup. apply list_elem_of_lookup_2. Qed.

(** A rating in range has the chance of the lowest threshold that it does not exceed. *)
Lemma GetChance_threshold rd bsr r : raterOf rd bsr -> r <= maxRating bsr -> exists c,
  c ∈ ratingChances bsr /\ r <= maxThreshold c /\
  (forall c', c' ∈ ratingChances bsr -> r <= maxThreshold c' -> maxThreshold c <= maxThreshold c') /\
  GetChance r bsr = chancePercentage c.
Proof.
  intros [_ _ _ S (final & L & E)] Hr. unfold GetChance. apply last_in in L.
  apply Sorted_StronglySorted in S; [|intros ? ? ?; unfold lowerThreshold; lia].
  destruct (List.find _ _) as [c|] eqn:F.
  - exists c. clear L. induction S as [|a l S IH Fa]; [done|]. cbn [List.find] in F.
    destruct (Z.ltb_spec (maxThreshold a) r) as [C|C]; cbn [negb] in F.
    + destruct (IH F) as (I & Lc & M & _). split; [by constructor|]. split; [done|]. split; [|done].
      intros c' [->|I']%elem_of_cons L'; [lia|]. by apply M.
    + injection F as ->. split; [constructor|]. split; [done|]. split; [|done]. rewrite Forall_forall in Fa.
      intros c' [->|I']%elem_of_cons _; [lia|]. by apply Fa.
  - pose proof (find_none _ _ F final (proj1 (list_elem_of_In _ _) L)) as N.
    apply negb_false_iff, Z.ltb_lt in N. lia.
Qed.

Section Steps.
Context (SupernovaFlag : Z -> bool) (undefined : spec_float -> Z) (rd : RatingsData) (bsr : BlockSigningRater).
Context (V : validRater bsr).
Context (Ss : forall epoch, 0 <= epoch -> soundStep (getShardChainRatingsStepHandler SupernovaFlag rd bsr epoch)).
Context (Sm : forall epoch, 0 <= epoch -> soundStep (getMetaChainRatingsStepHandler SupernovaFlag rd bsr epoch)).

Lemma ComputeDecreaseProposer_mono shardId r n1 n2 epoch : 0 <= epoch -> 0 <= n1 <= n2 -> r <= maxRating bsr ->
  minRating bsr <= ComputeDecreaseProposer SupernovaFlag undefined rd bsr shardId r n2 epoch
    <= ComputeDecreaseProposer SupernovaFlag undefined rd bsr shardId r n1 epoch /\
  (minRating bsr <= r -> ComputeDecreaseProposer SupernovaFlag undefined rd bsr shardId r n1 epoch <= r) /\
  ComputeDecreaseProposer SupernovaFlag undefined rd bsr shardId r 0 epoch =
    Z.max (minRating bsr) (r + proposerDecreaseRatingStep
      (if shardId =? MetachainShardId then getMetaChainRatingsStepHandler SupernovaFlag rd bsr epoch
       else getShardChainRatingsStepHandler SupernovaFlag rd bsr epoch)).
Proof.
  intros He Hn Hr. unfold ComputeDecreaseProposer. set (handler := if shardId =? _ then _ else _).
  assert (S : soundStep handler) by (unfold handler; destruct (_ =? _); auto).
  destruct (misses_decrease undefined (consecutiveMissedBlocksPenalty handler) (proposerDecreaseRatingStep handler)
    (Z.to_nat n1) (Z.to_nat n2)) as (M1 & M2 & M3); [apply S|destruct S; lia|lia|].
  cbn zeta in *. rewrite !computeRating_clamps by done. change (Z.to_nat 0) with 0%nat. rewrite M3.
  destruct V, S. lia.
Qed.

(** The events of a validator's life. *)
Inductive ratingEvent :=
| IncreaseProposer (shardId epoch : Z)
| IncreaseValidator (shardId epoch : Z)
| DecreaseProposer (shardId consecutiveMisses epoch : Z)
| DecreaseValidator (shardId epoch : Z)
| RevertValidator (shardId nrReverts epoch : Z).

Definition applyEvent (r : Z) (ev : ratingEvent) : Z :=
  match ev with
  | IncreaseProposer shardId epoch => ComputeIncreaseProposer SupernovaFlag rd bsr shardId r epoch
  | IncreaseValidator shardId epoch => ComputeIncreaseValidator SupernovaFlag rd bsr shardId r epoch
  | DecreaseProposer shardId n epoch => ComputeDecreaseProposer SupernovaFlag undefined rd bsr shardId r n epoch
  | DecreaseValidator shardId epoch => ComputeDecreaseValidator SupernovaFlag rd bsr shardId r epoch
  | RevertValidator shardId n epoch => RevertIncreaseValidator SupernovaFlag rd bsr shardId r n epoch
  end.

(** The arguments are a uint32 each. *)
Definition eventArgs (ev : ratingEvent) : Prop :=
  match ev with
  | IncreaseProposer _ epoch | IncreaseValidator _ epoch | DecreaseValidator _ epoch => 0 <= epoch
  | DecreaseProposer _ n epoch | RevertValidator _ n epoch => 0 <= epoch /\ 0 <= n < 2 ^ 32
  end.

Definition isIncrease (ev : ratingEvent) : bool :=
  match ev with IncreaseProposer _ _ | IncreaseValidator _ _ => true | _ => false end.

(** A revert takes the increases back, down to the least rating. *)
Lemma RevertIncreaseValidator_value shardId r n epoch : 0 <= epoch -> 0 <= n < 2 ^ 32 -> r <= maxRating bsr ->
  let step := validatorIncreaseRatingStep
    (if shardId =? MetachainShardId then getMetaChainRatingsStepHandler SupernovaFlag rd bsr epoch
     else getShardChainRatingsStepHandler SupernovaFlag rd bsr epoch) in
  RevertIncreaseValidator SupernovaFlag rd bsr shardId r n epoch =
    Z.max (minRating bsr) (r - Z.min (step * n) (2 ^ 31)).
Proof.
  intros He Hn Hr step. unfold RevertIncreaseValidator.
  replace (if shardId =? MetachainShardId then validatorIncreaseRatingStep _ else validatorIncreaseRatingStep _)
    with step by (unfold step; by destruct (shardId =? _)).
  assert (S : 1 <= step <= maxInt32) by (unfold step; destruct (shardId =? _); [apply Sm|apply Ss]; done).
  clearbody step. unfold maxInt32 in S. rewrite (i32_id (- step)) by lia. rewrite i64_id by nia.
  unfold maxDecreaseValue, minInt32. rewrite computeRating_clamps by done. destruct V.
  destruct (Z.ltb_spec (- step * n) (- 2 ^ 31)); cbn [orb]; [lia|].
  destruct (Z.ltb_spec 0 (- step * n)); [nia|]. rewrite i32_id by nia. lia.
Qed.

Lemma applyEvent_range r ev : eventArgs ev -> minRating bsr <= r <= maxRating bsr ->
  minRating bsr <= applyEvent r ev <= maxRating bsr /\
  (if isIncrease ev then r <= applyEvent r ev else applyEvent r ev <= r).
Proof.
  intros A Hr. pose proof V as [V1 V2 _]. destruct ev; cbn [applyEvent isIncrease eventArgs] in *.
  - unfold ComputeIncreaseProposer. rewrite computeRating_clamps by done. specialize (Ss _ A). specialize (Sm _ A).
    destruct Ss, Sm. destruct (_ =? _); lia.
  - unfold ComputeIncreaseValidator. rewrite computeRating_clamps by done. specialize (Ss _ A). specialize (Sm _ A).
    destruct Ss, Sm. destruct (_ =? _); lia.
  - destruct (ComputeDecreaseProposer_mono shardId r consecutiveMisses consecutiveMisses epoch) as (M1 & M2 & _); [lia..|].
    specialize (M2 ltac:(lia)). lia.
  - unfold ComputeDecreaseValidator. rewrite computeRating_clamps by done. specialize (Ss _ A). specialize (Sm _ A).
    destruct Ss, Sm. destruct (_ =? _); lia.
  - rewrite RevertIncreaseValidator_value by lia. destruct A as [A N]. specialize (Ss _ A). specialize (Sm _ A).
    destruct Ss, Sm. destruct (_ =? _); lia.
Qed.

Lemma events_range r evs : Forall eventArgs evs -> minRating bsr <= r <= maxRating bsr ->
  minRating bsr <= fold_left applyEvent evs r <= maxRating bsr.
Proof.
  intros F. revert r. induction F as [|ev evs A F IH]; intros r Hr; cbn; [done|].
  apply IH. by apply applyEvent_range.
Qed.
End Steps.

(** ** A run: holder, ratings and rater *)

(** The rater [bsr] was created when the epochs [confirmed] had been confirmed
    to the ratings, which by now know of the epochs [later] as well. *)
Record ratingsRun `{SliceSort, MapRange} (undefined : spec_float -> Z) (cfg : RatingsConfig)
    (chain : list ChainParametersByEpochConfig) (started confirmed later : list Z)
    (bsr : BlockSigningRater) (rd : RatingsData) : Prop := {
  run_created : exists h rd0, NewChainParametersHolder chain = Ok h /\
    NewRatingsData undefined cfg (List.hd 0 started) (epochsStarted started h) = Ok rd0 /\
    NewBlockSigningRater (epochsConfirmed confirmed rd0) = Ok bsr /\
    rd = epochsConfirmed later (epochsConfirmed confirmed rd0);
  run_epochs : Forall (Z.le 0) started /\ Forall (Z.le 0) confirmed /\ Forall (Z.le 0) later;
  run_configured : forall y, y ∈ configuredEpochs cfg chain -> 0 <= y;
  run_maxRating : cfg_MaxRating (cfg_General cfg) < 2 ^ 32;
  run_numbers : Forall numbers (cfg_ShardChain cfg) /\ Forall numbers (cfg_MetaChain cfg);
}.

Lemma NewRatingsData_maxRating `{SliceSort, MapRange} undefined cfg epoch h rd :
  NewRatingsData undefined cfg epoch h = Ok rd -> rd_maxRating rd = cfg_MaxRating (cfg_General cfg).
Proof.
  intros Hr. unfold NewRatingsData in Hr. cbn zeta in Hr.
  do 5 (apply bind_Ok in Hr as (? & _ & Hr)). injection Hr as <-. unfold RegisterNotifyHandler.
  by rewrite EpochConfirmed_bounds.
Qed.

Section Run.
Context {SS : SliceSort} {SSL : SliceSortLaws SS} {MR : MapRange} {MRL : MapRangeLaws MR}.
Context (undefined : spec_float -> Z) (U : indefinite32 undefined) (SupernovaFlag : Z -> bool).
Context cfg chain started confirmed later bsr rd
  (R : ratingsRun undefined cfg chain started confirmed later bsr rd).

Lemma run_rater : exists rd1, raterOf rd1 bsr.
Proof.
  destruct R as [(h & rd0 & H & Hr & Hb & ->) _ _ Hmax _]. eexists. apply NewBlockSigningRater_raterOf; [|exact Hb].
  by rewrite epochsConfirmed_bounds, (NewRatingsData_maxRating _ _ _ _ _ Hr).
Qed.

Lemma run_sound epoch : 0 <= epoch ->
  soundStep (getShardChainRatingsStepHandler SupernovaFlag rd bsr epoch) /\
  soundStep (getMetaChainRatingsStepHandler SupernovaFlag rd bsr epoch).
Proof.
  intros He. destruct R as [(h & rd0 & H & Hr & Hb & ->) (F1 & F2 & F3) Hc Hmax (Ns & Nm)].
  pose proof (handlers_sound undefined cfg chain Hc started F1 h H rd0 Hr U Ns Nm) as G.
  assert (Hm : rd_maxRating (epochsConfirmed confirmed rd0) < 2 ^ 32).
  { by rewrite epochsConfirmed_bounds, (NewRatingsData_maxRating _ _ _ _ _ Hr). }
  pose proof (NewBlockSigningRater_raterOf _ _ Hm Hb) as [_ Es Em _ _].
  unfold getShardChainRatingsStepHandler, getMetaChainRatingsStepHandler. rewrite Es, Em.
  rewrite <- epochsConfirmed_app.
  destruct (G (later ++ confirmed) epoch ltac:(by apply Forall_app) He) as (G1 & G2 & _ & _).
  destruct (G confirmed epoch F2 He) as (_ & _ & G3 & G4). by destruct (SupernovaFlag epoch).
Qed.
End Run.
