(* ===== verification/RatingsProperties.v ===== *)
(** * What the chain parameters and the ratings promise

    The holder hands out the parameters in force, the steps of the ratings are
    those of the configuration in force and point in the right direction,
    ratings stay in range, and missing more blocks never pays. *)

From Stdlib Require Import ZArith Lia SpecFloat.
From stdpp Require Import base gmap list sorting.
From S2P Require Import Prelude GoValues Floats Config ChainParameters Validators Ratings RatingsSpec.

(** ** The holder of the chain parameters *)

(** Once [NewChainParametersHolder] accepts a list of parameters, the
    current parameters after any starts of epochs, and those returned for any
    epoch, are the accepted ones with the latest activation epoch that has been
    reached; there are always some, and only one entry qualifies. *)
Theorem chain_parameters_follow_epochs (l : list ChainParametersByEpochConfig) (c : chainParametersHolder)
    (started : list Z) (epoch : Z) (New : NewChainParametersHolder l = Ok c)
    (Started : Forall (Z.le 0) started) (Epoch : 0 <= epoch) :
  let now := epochsStarted started c in
  inForce EnableEpoch l (List.hd 0 started) (CurrentChainParameters now) /\
  (exists p, ChainParametersForEpoch epoch now = Ok p /\ inForce EnableEpoch l epoch p) /\
  (forall p q, inForce EnableEpoch l epoch p -> inForce EnableEpoch l epoch q -> p = q) /\
  AllChainParameters now ≡ₚ l.
Proof.
  destruct (epochsStarted_holds l c started New Started) as [H Cur]. cbn zeta.
  split; [done|]. split; [by apply matching_inForce|]. split; [|apply H].
  intros p q. apply inForce_unique, H.
Qed.

Section Ratings.
  Context {SS : SliceSort} {SSL : SliceSortLaws SS} {MR : MapRange} {MRL : MapRangeLaws MR}.
  Context (undefined : spec_float -> Z).

(** ** The steps *)

(** C37. Whatever epochs were started before [RatingsData] was created and
    confirmed to it since, and in whatever order the map of epochs was walked:
    the steps it returns for an epoch are those that [computeRatingStep] gives
    for the chain parameters and rating settings in force at that epoch, and
    its current steps those in force at the last confirmed epoch. *)
Theorem rating_steps_in_force (cfg : RatingsConfig) (chain : list ChainParametersByEpochConfig)
    (started confirmed : list Z) (epoch : Z) (h : chainParametersHolder) (rd0 : RatingsData)
    (Configured : forall y, y ∈ configuredEpochs cfg chain -> 0 <= y)
    (Started : Forall (Z.le 0) started) (Confirmed : Forall (Z.le 0) confirmed) (Epoch : 0 <= epoch)
    (Holder : NewChainParametersHolder chain = Ok h)
    (New : NewRatingsData undefined cfg (List.hd 0 started) (epochsStarted started h) = Ok rd0) :
  let rd := epochsConfirmed confirmed rd0 in
  stepsInForce undefined cfg chain epoch
    {| enableEpoch := epoch; shardRatingsStepData := ShardChainRatingsStepHandlerForEpoch epoch rd;
       metaRatingsStepData := MetaChainRatingsStepHandlerForEpoch epoch rd |} /\
  stepsInForce undefined cfg chain (List.hd (List.hd 0 started) confirmed) (currentRatingsStepData rd).
Proof.
  destruct (handlers_inForce undefined cfg chain Configured started Started h Holder rd0 New confirmed epoch
    Confirmed Epoch) as [I J].
  split; [exact I|exact J].
Qed.

(** Every step in use rewards a block by at least one and by no more than
    an int32 holds, punishes a missed block by at least as much as it rewards a
    produced one, also within int32, and is never shrunk by the penalty for
    repeated misses: the float32 computation of the steps loses none of it. *)
Theorem rating_steps_sound (SupernovaFlag : Z -> bool) cfg chain started confirmed later bsr rd epoch
    (U : indefinite32 undefined) (R : ratingsRun undefined cfg chain started confirmed later bsr rd)
    (Epoch : 0 <= epoch) :
  soundStep (getShardChainRatingsStepHandler SupernovaFlag rd bsr epoch) /\
  soundStep (getMetaChainRatingsStepHandler SupernovaFlag rd bsr epoch).
Proof. by apply (run_sound undefined U SupernovaFlag cfg chain started confirmed later bsr rd R). Qed.

(** ** The ratings *)

(** A leader that misses more blocks in a row never gets a better rating:
    the float64 loop of [ComputeDecreaseProposer] is monotone in the number of
    misses, never raises a rating, never leaves the range of ratings, and
    without consecutive misses it takes off exactly one step. *)
Theorem more_misses_never_pay (SupernovaFlag : Z -> bool) cfg chain started confirmed later bsr rd
    (shardId r n1 n2 epoch : Z) (U : indefinite32 undefined)
    (R : ratingsRun undefined cfg chain started confirmed later bsr rd)
    (Epoch : 0 <= epoch) (Misses : 0 <= n1 <= n2) (Rating : minRating bsr <= r <= maxRating bsr) :
  let rating n := ComputeDecreaseProposer SupernovaFlag undefined rd bsr shardId r n epoch in
  minRating bsr <= rating n2 <= rating n1 /\ rating n1 <= r /\
  rating 0 = Z.max (minRating bsr) (r + proposerDecreaseRatingStep
    (if shardId =? MetachainShardId then getMetaChainRatingsStepHandler SupernovaFlag rd bsr epoch
     else getShardChainRatingsStepHandler SupernovaFlag rd bsr epoch)).
Proof.
  destruct (run_rater undefined _ _ _ _ _ _ _ R) as [rd1 Ro].
  pose proof (run_sound undefined U SupernovaFlag _ _ _ _ _ _ _ R) as S.
  destruct (ComputeDecreaseProposer_mono SupernovaFlag undefined rd bsr (ro_valid _ _ Ro)
    (fun e He => proj1 (S e He)) (fun e He => proj2 (S e He)) shardId r n1 n2 epoch)
    as (M1 & M2 & M3); [done|done|lia|].
  specialize (M2 ltac:(lia)). done.
Qed.

(** C38. From the start rating on, whatever blocks are produced, missed,
    validated or reverted in whatever shards and epochs: the rating stays
    between the least and the greatest rating, rewards never lower it and
    penalties and reverts never raise it, and its chance of selection is the
    configured percentage, which may be 0, of the lowest threshold that it does
    not exceed; there always is one. *)
Theorem ratings_stay_in_range (SupernovaFlag : Z -> bool) cfg chain started confirmed later bsr rd
    (evs : list ratingEvent) (ev : ratingEvent) (U : indefinite32 undefined)
    (R : ratingsRun undefined cfg chain started confirmed later bsr rd)
    (Args : Forall eventArgs (ev :: evs)) :
  let apply := applyEvent SupernovaFlag undefined rd bsr in
  let r := fold_left apply evs (GetStartRating bsr) in
  minRating bsr <= r <= maxRating bsr /\
  (if isIncrease ev then r <= apply r ev else apply r ev <= r) /\
  exists c, c ∈ ratingChances bsr /\ r <= maxThreshold c /\
    (forall c', c' ∈ ratingChances bsr -> r <= maxThreshold c' -> maxThreshold c <= maxThreshold c') /\
    GetChance r bsr = chancePercentage c.
Proof.
  destruct (run_rater undefined _ _ _ _ _ _ _ R) as [rd1 Ro].
  pose proof (run_sound undefined U SupernovaFlag _ _ _ _ _ _ _ R) as S. intros apply r.
  apply Forall_cons in Args as [A As].
  assert (B : minRating bsr <= r <= maxRating bsr).
  { apply (events_range SupernovaFlag undefined rd bsr (ro_valid _ _ Ro)
      (fun e He => proj1 (S e He)) (fun e He => proj2 (S e He))); [done|]. apply (ro_valid _ _ Ro). }
  split; [done|]. split; [|by apply (GetChance_threshold rd1); [done|apply B]].
  by apply (applyEvent_range SupernovaFlag undefined rd bsr (ro_valid _ _ Ro)
    (fun e He => proj1 (S e He)) (fun e He => proj2 (S e He))).
Qed.
End Ratings.

(** ** The witnesses: a chain whose rounds get ten times shorter in epoch 5 *)

#[local] Instance exSort : SliceSort := fun A cmp l =>
  @merge_sort A (fun a b => cmp a b <= 0) (fun a b => Z.le_dec (cmp a b) 0) l.
#[local] Instance exRange : MapRange := fun X => elements X.

Lemma exSort_laws : SliceSortLaws exSort.
Proof.
  split.
  - intros A cmp l. apply merge_sort_Permutation.
  - intros A key l. assert (T : Total (fun a b => key a - key b <= 0)) by (intros a b; lia).
    pose proof (@Sorted_merge_sort A (fun a b => key a - key b <= 0) (fun a b => Z.le_dec _ 0) T l) as S.
    assert (Q : forall k : list A, Sorted (fun a b => key a - key b <= 0) k -> Sorted (fun a b => key a <= key b) k).
    { induction 1 as [|a k Sk IH Hd]; constructor; [done|]. destruct Hd; constructor. lia. }
    apply Q, S.
Qed.
Lemma exRange_laws : MapRangeLaws exRange.
Proof. by intros X. Qed.

Definition exUndefined : spec_float -> Z := fun _ => minInt32.

Definition exParams (epoch duration : Z) : ChainParametersByEpochConfig :=
  {| RoundDuration := duration; RoundsPerEpoch := 14400; MinRoundsBetweenEpochs := 20;
     Hysteresis := float32_div (float32_of_Z 1) (float32_of_Z 5); EnableEpoch := epoch;
     ShardConsensusGroupSize := 63; ShardMinNumNodes := 400; MetachainConsensusGroupSize := 400;
     MetachainMinNumNodes := 400; Adaptivity := false; Offset := 0 |}.
Definition exChainParams : list ChainParametersByEpochConfig := [exParams 0 6000; exParams 5 600].

Definition exSteps (epoch hours : Z) : RatingSteps :=
  {| HoursToMaxRatingFromStartRating := hours; ProposerValidatorImportance := float32_of_Z 1;
     ProposerDecreaseFactor := float32_of_Z (-4); ValidatorDecreaseFactor := float32_of_Z (-4);
     ConsecutiveMissedBlocksPenalty := float32_div (float32_of_Z 3) (float32_of_Z 2); rs_EnableEpoch := epoch |}.
Definition exChance (t p : Z) : SelectionChanceConfig := {| cfg_MaxThreshold := t; cfg_ChancePercent := p |}.
Definition exRatings : RatingsConfig :=
  {| cfg_General := {| cfg_StartRating := 5000001; cfg_MaxRating := 10000000; cfg_MinRating := 1;
       cfg_SignedBlocksThreshold := float32_div (float32_of_Z 1) (float32_of_Z 100);
       cfg_SelectionChances := [exChance 10000000 20; exChance 0 5; exChance 5000000 17] |};
     cfg_ShardChain := [exSteps 3 48; exSteps 0 72]; cfg_MetaChain := [exSteps 0 55] |}.

Definition getOk {E A} (d : A) (r : result E A) : A := match r with Ok a => a | Err _ => d end.
Definition exHolder : chainParametersHolder :=
  getOk {| currentChainParameters := zeroChainParameters; chainParameters := [] |}
    (NewChainParametersHolder exChainParams).
Definition exStep : RatingStep :=
  {| proposerIncreaseRatingStep := 0; proposerDecreaseRatingStep := 0; validatorIncreaseRatingStep := 0;
     validatorDecreaseRatingStep := 0; consecutiveMissedBlocksPenalty := S754_zero false |}.
Definition exData : RatingsData :=
  getOk {| rd_startRating := 0; rd_maxRating := 0; rd_minRating := 0; rd_signedBlocksThreshold := S754_zero false;
           currentRatingsStepData := {| enableEpoch := 0; shardRatingsStepData := exStep; metaRatingsStepData := exStep |};
           ratingsStepsConfig := []; selectionChances := []; ratingsSetup := exRatings |}
    (NewRatingsData exUndefined exRatings 2 (epochsStarted [2; 1] exHolder)).
Definition exRater : BlockSigningRater :=
  getOk {| startRating := 0; signedBlocksThreshold := S754_zero false; maxRating := 0; minRating := 0;
           shardRatingsStepHandler := exStep; metaRatingsStepHandler := exStep; ratingChances := [] |}
    (NewBlockSigningRater (epochsConfirmed [3] exData)).
Definition exLater : RatingsData := epochsConfirmed [6; 5; 4] (epochsConfirmed [3] exData).

Lemma exConfigured y : y ∈ configuredEpochs exRatings exChainParams -> 0 <= y.
Proof. unfold configuredEpochs. cbn. set_solver by lia. Qed.

Lemma exRun : ratingsRun exUndefined exRatings exChainParams [2; 1] [3] [6; 5; 4] exRater exLater.
Proof.
  split.
  - exists exHolder, exData. repeat split; by vm_compute.
  - repeat split; repeat constructor; lia.
  - apply exConfigured.
  - by vm_compute.
  - split; repeat constructor; done.
Qed.

Lemma chain_parameters_follow_epochs_witness :
  inForce EnableEpoch exChainParams 7 (CurrentChainParameters (epochsStarted [7; 4; 2] exHolder)) /\
  RoundDuration (CurrentChainParameters (epochsStarted [7; 4; 2] exHolder)) = 600.
Proof.
  split; [|by vm_compute].
  exact (proj1 (chain_parameters_follow_epochs exChainParams exHolder [7; 4; 2] 3 ltac:(by vm_compute)
    ltac:(repeat constructor; lia) ltac:(lia))).
Defined.

Lemma rating_steps_in_force_witness :
  stepsInForce exUndefined exRatings exChainParams 6 (currentRatingsStepData exLater) /\
  proposerIncreaseRatingStep (shardRatingsStepData (currentRatingsStepData exLater)) = 3472.
Proof.
  split; [|by vm_compute].
  exact (proj2 (rating_steps_in_force (SSL := exSort_laws) (MRL := exRange_laws) exUndefined exRatings exChainParams
    [2; 1] [6; 5; 4; 3] 0 exHolder exData exConfigured ltac:(repeat constructor; lia) ltac:(repeat constructor; lia)
    ltac:(lia) ltac:(by vm_compute) ltac:(by vm_compute))).
Defined.

Lemma rating_steps_sound_witness : soundStep (getShardChainRatingsStepHandler (fun _ => true) exLater exRater 4).
Proof.
  exact (proj1 (rating_steps_sound (SSL := exSort_laws) (MRL := exRange_laws) exUndefined (fun _ => true)
    exRatings exChainParams [2; 1] [3] [6; 5; 4] exRater exLater 4 (fun _ => eq_refl) exRun ltac:(lia))).
Defined.

Lemma more_misses_never_pay_witness :
  ComputeDecreaseProposer (fun _ => false) exUndefined exLater exRater 0 5000001 5 3 <=
  ComputeDecreaseProposer (fun _ => false) exUndefined exLater exRater 0 5000001 2 3 /\
  ComputeDecreaseProposer (fun _ => false) exUndefined exLater exRater 0 5000001 5 3 = 3945321.
Proof.
  split; [|by vm_compute].
  refine (proj2 (proj1 (more_misses_never_pay (SSL := exSort_laws) (MRL := exRange_laws) exUndefined (fun _ => false)
    exRatings exChainParams [2; 1] [3] [6; 5; 4] exRater exLater 0 5000001 2 5 3 (fun _ => eq_refl) exRun
    ltac:(lia) ltac:(lia) _))).
  split; by vm_compute.
Defined.

Lemma exEvents : Forall eventArgs
  [IncreaseProposer 0 6; DecreaseProposer 0 3 6; IncreaseValidator 1 6; RevertValidator 1 20 6].
Proof. rewrite !Forall_cons, Forall_nil. cbn. lia. Qed.

Lemma ratings_stay_in_range_witness : let r := fold_left (applyEvent (fun _ => true) exUndefined exLater exRater)
    [DecreaseProposer 0 3 6; IncreaseValidator 1 6; RevertValidator 1 20 6] (GetStartRating exRater) in
  minRating exRater <= r <= maxRating exRater /\ GetChance r exRater = 17.
Proof.
  intros r. split; [|by vm_compute].
  exact (proj1 (ratings_stay_in_range (SSL := exSort_laws) (MRL := exRange_laws) exUndefined (fun _ => true)
    exRatings exChainParams [2; 1] [3] [6; 5; 4] exRater exLater
    [DecreaseProposer 0 3 6; IncreaseValidator 1 6; RevertValidator 1 20 6] (IncreaseProposer 0 6)
    (fun _ => eq_refl) exRun exEvents)).
Defined.

(** ** The hours are converted after the multiplication

    [hours * millisecondsInHour] is a uint32 and wraps around from 1194 hours
    on: one hour more makes the reward a thousand times greater instead of
    smaller. *)
Lemma hours_wrap_around :
  let reward hours := proposerIncreaseRatingStep <$>
    computeRatingStep exUndefined (shardStepArg (cfg_General exRatings) (exParams 0 6000) (exSteps 0 hours)) in
  reward 1193 = Ok 1397 /\ reward 1194 = Ok 1748251.
Proof. by vm_compute. Qed.
