(* ===== verification/Economics.v ===== *)
(** * Fees, gas limits, reward settings and inflation (process/economics)

    The settings in force at an epoch, read from the configuration, and what
    transactions cost.  Prices are multiplied by a float64 modifier.  Status
    handlers, which receive metrics, and nil checks are left out. *)

From Stdlib Require Import ZArith Lia String Ascii SpecFloat.
From stdpp Require Import base gmap list sorting strings.
From S2P Require Import Prelude GoValues Floats Config.

(** ** Errors (process/errors.go); the text that is wrapped around some of
    them is left out, and a run-time panic is among them *)
Inductive economics_error :=
| ErrInvalidGasModifier | ErrEmptyGasLimitSettings | ErrInvalidMinimumGasLimitForTx | ErrInvalidMaxGasLimitPerBlock
| ErrInvalidMaxGasLimitPerMiniBlock | ErrInvalidMaxGasLimitPerMetaBlock | ErrInvalidMaxGasLimitPerMetaMiniBlock
| ErrInvalidMaxGasLimitPerTx | ErrInvalidExtraGasLimitGuardedTx | ErrInvalidMaxGasHigherFactorAccepted
| ErrInvalidMinimumGasPrice | ErrInvalidGasPerDataByte | ErrInvalidGenesisTotalSupply | ErrInvalidMaxGasPriceSetGuardian
| ErrInvalidRewardsPercentages | ErrNilProtocolSustainabilityAddress | ErrNilEcosystemGrowthAddress
| ErrNilGrowthDividendAddress | ErrInvalidRewardsTopUpGradientPoint | ErrProtocolSustainabilityAddressInMetachain
| ErrDecodeAddress | ErrInvalidInflationPercentages | ErrEmptyEpochRewardsConfig | ErrEmptyYearSettings
| ErrEmptyChainParametersConfiguration | ErrZeroDurationForEpoch | ErrInsufficientGasPriceInTx | ErrInsufficientGasLimitInTx
| ErrMoreGasThanGasLimitPerBlock | ErrMoreGasThanGasLimitPerMiniBlockForSafeCrossShard | ErrTxValueOutOfBounds | ErrTxValueTooBig
| ErrInsufficientFunds | DivisionByZero.

(** ** Configuration (config/economicsConfig.go) *)

Record GasLimitSetting := {
  gls_EnableEpoch : Z;
  cfg_MaxGasLimitPerBlock : string;
  cfg_MaxGasLimitPerMiniBlock : string;
  cfg_MaxGasLimitPerMetaBlock : string;
  cfg_MaxGasLimitPerMetaMiniBlock : string;
  cfg_MaxGasLimitPerTx : string;
  cfg_MinGasLimit : string;
  cfg_ExtraGasLimitGuardedTx : string;
  cfg_MaxGasHigherFactorAccepted : string;
}.
Record FeeSettings := {
  GasLimitSettings : list GasLimitSetting;
  cfg_GasPerDataByte : string;
  cfg_MinGasPrice : string;
  cfg_GasPriceModifier : spec_float;
  cfg_MaxGasPriceSetGuardian : string;
  cfg_BlockCapacityOverestimationFactor : Z;
}.
Record TailInflationSettings := {
  tail_EnableEpoch : Z;
  StartYearInflation : spec_float;
  DecayPercentage : spec_float;
}.
Record YearSetting := {
  Year : Z;
  MaximumInflation : spec_float;
}.
Record GlobalSettings := {
  GenesisTotalSupply : string;
  MinimumInflation : spec_float;
  YearSettings : list YearSetting;
  TailInflation : TailInflationSettings;
}.
Record EpochRewardSettings := {
  cfg_LeaderPercentage : spec_float;
  cfg_DeveloperPercentage : spec_float;
  cfg_ProtocolSustainabilityPercentage : spec_float;
  cfg_ProtocolSustainabilityAddress : string;
  cfg_EcosystemGrowthPercentage : spec_float;
  cfg_EcosystemGrowthAddress : string;
  cfg_GrowthDividendPercentage : spec_float;
  cfg_GrowthDividendAddress : string;
  cfg_TopUpGradientPoint : string;
  cfg_TopUpFactor : spec_float;
  EpochEnable : Z;
}.
Record EconomicsConfig := {
  cfg_GlobalSettings : GlobalSettings;
  RewardsConfigByEpoch : list EpochRewardSettings;
  cfg_FeeSettings : FeeSettings;
}.

(** ** Go's library *)

(** [strconv.ParseUint(s, 10, 64)] and [big.NewInt(0).SetString(s, 10)]. *)
Definition ParseUint64 (s : string) : option Z :=
  match s with
  | EmptyString => None
  | _ => x ← parseDigits 0 s; if x <? 2 ^ 64 then Some x else None
  end.
Definition BigSetString (s : string) : option Z :=
  let number s := match s with EmptyString => None | _ => parseDigits 0 s end in
  match s with
  | String "-"%char s => Z.opp <$> number s
  | String "+"%char s => number s
  | _ => number s
  end.

(** [big.Int.Div], Euclidean; a zero divisor panics. *)
Definition bigDiv (x y : Z) : result economics_error Z :=
  if y =? 0 then Err DivisionByZero else Ok (if y <? 0 then - (x / - y) else x / y).

Definition float64_add : spec_float -> spec_float -> spec_float := SFadd 53 1024.
Definition float64_sub : spec_float -> spec_float -> spec_float := SFsub 53 1024.
Definition float64_div : spec_float -> spec_float -> spec_float := SFdiv 53 1024.

(** [uint64(f)], truncated towards zero; Go leaves open what does not fit. *)
Definition uint64 (undefined : spec_float -> Z) (f : spec_float) : Z :=
  match truncate f with
  | Some n => if (0 <=? n) && (n <? 2 ^ 64) then n else undefined f
  | None => undefined f
  end.

(** What [sort.Slice] makes of a slice, and what its documentation promises. *)
Class SortSlice := sort_Slice : forall {A : Type}, (A -> A -> bool) -> list A -> list A.
Class SortSliceOk (SO : SortSlice) : Prop := {
  sort_Slice_perm : forall A less (l : list A), sort_Slice less l ≡ₚ l;
  sort_Slice_sorted : forall A (key : A -> Z) (l : list A),
    Sorted (fun a b => key a <= key b) (sort_Slice (fun a b => key a <? key b) l);
}.

(** Of mx-chain-core-go: the arithmetic with overflow checks. *)
Class CoreMath := {
  SafeMul : Z -> Z -> Z;
  SafeSubUint64 : Z -> Z -> Z * bool;
  MinUint64 : Z -> Z -> Z;
}.
Class CoreMathOk (CM : CoreMath) : Prop := {
  SafeMul_ok a b : 0 <= a -> 0 <= b -> SafeMul a b = a * b;
  SafeSubUint64_ok a b : 0 <= b <= a -> SafeSubUint64 a b = (a - b, true);
}.

(** ** Gas settings (gasConfigHandler.go) *)

(** 0.00000001, the nearest float64. *)
Definition epsilon : spec_float := S754_finite false 6044629098073146 (-79).

Record gasConfig := {
  gasLimitSettingEpoch : Z;
  maxGasLimitPerBlock : Z;
  maxGasLimitPerMiniBlock : Z;
  maxGasLimitPerMetaBlock : Z;
  maxGasLimitPerMetaMiniBlock : Z;
  maxGasLimitPerTx : Z;
  minGasLimit : Z;
  extraGasLimitGuardedTx : Z;
  maxGasHigherFactorAccepted : Z;
}.
Definition zeroGasConfig : gasConfig :=
  {| gasLimitSettingEpoch := 0; maxGasLimitPerBlock := 0; maxGasLimitPerMiniBlock := 0; maxGasLimitPerMetaBlock := 0;
     maxGasLimitPerMetaMiniBlock := 0; maxGasLimitPerTx := 0; minGasLimit := 0; extraGasLimitGuardedTx := 0;
     maxGasHigherFactorAccepted := 0 |}.

Record gasConfigHandler := {
  gasLimitSettings : list gasConfig;
  minGasPrice : Z;
  gasPerDataByte : Z;
  genesisTotalSupply : Z;
  maxGasPriceSetGuardian : Z;
  blockCapacityOverestimationFactor : Z;
}.

Definition orErr {A} (o : option A) (e : economics_error) : result economics_error A :=
  match o with Some a => Ok a | None => Err e end.
Definition check (b : bool) (e : economics_error) : result economics_error () := if b then Err e else Ok ().

Definition checkAndParseGasLimitSettings (s : GasLimitSetting) : result economics_error gasConfig :=
  minGas ← orErr (ParseUint64 (cfg_MinGasLimit s)) ErrInvalidMinimumGasLimitForTx;
  perBlock ← orErr (ParseUint64 (cfg_MaxGasLimitPerBlock s)) ErrInvalidMaxGasLimitPerBlock;
  perMiniBlock ← orErr (ParseUint64 (cfg_MaxGasLimitPerMiniBlock s)) ErrInvalidMaxGasLimitPerMiniBlock;
  perMetaBlock ← orErr (ParseUint64 (cfg_MaxGasLimitPerMetaBlock s)) ErrInvalidMaxGasLimitPerMetaBlock;
  perMetaMiniBlock ← orErr (ParseUint64 (cfg_MaxGasLimitPerMetaMiniBlock s)) ErrInvalidMaxGasLimitPerMetaMiniBlock;
  perTx ← orErr (ParseUint64 (cfg_MaxGasLimitPerTx s)) ErrInvalidMaxGasLimitPerTx;
  extra ← orErr (ParseUint64 (cfg_ExtraGasLimitGuardedTx s)) ErrInvalidExtraGasLimitGuardedTx;
  factor ← orErr (ParseUint64 (cfg_MaxGasHigherFactorAccepted s)) ErrInvalidMaxGasHigherFactorAccepted;
  _ ← check (perBlock <? minGas) ErrInvalidMaxGasLimitPerBlock;
  _ ← check (perMiniBlock <? minGas) ErrInvalidMaxGasLimitPerMiniBlock;
  _ ← check (perMetaBlock <? minGas) ErrInvalidMaxGasLimitPerMetaBlock;
  _ ← check (perMetaMiniBlock <? minGas) ErrInvalidMaxGasLimitPerMetaMiniBlock;
  _ ← check (perTx <? minGas) ErrInvalidMaxGasLimitPerTx;
  _ ← check (factor <? 1) ErrInvalidMaxGasHigherFactorAccepted;
  Ok {| gasLimitSettingEpoch := gls_EnableEpoch s; maxGasLimitPerBlock := perBlock; maxGasLimitPerMiniBlock := perMiniBlock;
        maxGasLimitPerMetaBlock := perMetaBlock; maxGasLimitPerMetaMiniBlock := perMetaMiniBlock; maxGasLimitPerTx := perTx;
        minGasLimit := minGas; extraGasLimitGuardedTx := extra; maxGasHigherFactorAccepted := factor |}.

(** A loop that stops at the first error. *)
Fixpoint parseAll {A B} (f : A -> result economics_error B) (l : list A) : result economics_error (list B) :=
  match l with
  | [] => Ok []
  | x :: l => y ← f x; ys ← parseAll f l; Ok (y :: ys)
  end.

Definition checkAndParseFeeSettings (feeSettings : FeeSettings) : result economics_error (list gasConfig) :=
  _ ← check (SFltb (float64_of_Z 1) (cfg_GasPriceModifier feeSettings) || SFltb (cfg_GasPriceModifier feeSettings) epsilon)
        ErrInvalidGasModifier;
  _ ← check (length (GasLimitSettings feeSettings) =? 0)%nat ErrEmptyGasLimitSettings;
  parseAll checkAndParseGasLimitSettings (GasLimitSettings feeSettings).

(** convertGenericValues, into the handler. *)
Definition convertGenericValues (economics : EconomicsConfig) (settings : list gasConfig) : result economics_error gasConfigHandler :=
  let fees := cfg_FeeSettings economics in
  price ← orErr (ParseUint64 (cfg_MinGasPrice fees)) ErrInvalidMinimumGasPrice;
  perByte ← orErr (ParseUint64 (cfg_GasPerDataByte fees)) ErrInvalidGasPerDataByte;
  supply ← orErr (BigSetString (GenesisTotalSupply (cfg_GlobalSettings economics))) ErrInvalidGenesisTotalSupply;
  setGuardian ← orErr (ParseUint64 (cfg_MaxGasPriceSetGuardian fees)) ErrInvalidMaxGasPriceSetGuardian;
  Ok {| gasLimitSettings := settings; minGasPrice := price; gasPerDataByte := perByte; genesisTotalSupply := supply;
        maxGasPriceSetGuardian := setGuardian; blockCapacityOverestimationFactor := cfg_BlockCapacityOverestimationFactor fees |}.

Definition newGasConfigHandler {SO : SortSlice} (economics : EconomicsConfig) : result economics_error gasConfigHandler :=
  gasConfigSlice ← checkAndParseFeeSettings (cfg_FeeSettings economics);
  convertGenericValues economics (sort_Slice (fun a b => gasLimitSettingEpoch a <? gasLimitSettingEpoch b) gasConfigSlice).

(** The constructor refuses an empty slice; the code would panic on it. *)
Definition getGasConfigForEpoch (epoch : Z) (handler : gasConfigHandler) : gasConfig :=
  match gasLimitSettings handler with
  | [] => zeroGasConfig
  | first :: rest => fold_left (fun setting gc => if gasLimitSettingEpoch gc <=? epoch then gc else setting) rest first
  end.
Definition getMinGasLimit (epoch : Z) (handler : gasConfigHandler) : Z := minGasLimit (getGasConfigForEpoch epoch handler).
Definition getExtraGasLimitGuardedTx (epoch : Z) (handler : gasConfigHandler) : Z :=
  extraGasLimitGuardedTx (getGasConfigForEpoch epoch handler).
Definition getMaxGasLimitPerMetaBlock (epoch : Z) (handler : gasConfigHandler) : Z :=
  maxGasLimitPerMetaBlock (getGasConfigForEpoch epoch handler).
Definition getMaxGasLimitPerBlock (epoch : Z) (handler : gasConfigHandler) : Z :=
  maxGasLimitPerBlock (getGasConfigForEpoch epoch handler).
Definition getMaxGasLimitPerMetaMiniBlock (epoch : Z) (handler : gasConfigHandler) : Z :=
  maxGasLimitPerMetaMiniBlock (getGasConfigForEpoch epoch handler).
Definition getMaxGasLimitPerMiniBlock (epoch : Z) (handler : gasConfigHandler) : Z :=
  maxGasLimitPerMiniBlock (getGasConfigForEpoch epoch handler).
Definition getGasHigherFactorAccepted (epoch : Z) (handler : gasConfigHandler) : Z :=
  maxGasHigherFactorAccepted (getGasConfigForEpoch epoch handler).
Definition getMaxGasLimitPerTx (epoch : Z) (handler : gasConfigHandler) : Z :=
  maxGasLimitPerTx (getGasConfigForEpoch epoch handler).
Definition getMaxGasLimitPerBlockForSafeCrossShard {CM : CoreMath} (epoch : Z) (handler : gasConfigHandler) : Z :=
  let gc := getGasConfigForEpoch epoch handler in MinUint64 (maxGasLimitPerBlock gc) (maxGasLimitPerMetaBlock gc).
Definition getMaxGasLimitPerMiniBlockForSafeCrossShard {CM : CoreMath} (epoch : Z) (handler : gasConfigHandler) : Z :=
  let gc := getGasConfigForEpoch epoch handler in MinUint64 (maxGasLimitPerMiniBlock gc) (maxGasLimitPerMetaMiniBlock gc).

(** ** Reward settings (rewardsConfigHandler.go) *)

Record rewardsConfig := {
  rewardsSettingEpoch : Z;
  leaderPercentage : spec_float;
  protocolSustainabilityPercentage : spec_float;
  protocolSustainabilityAddress : bytes;
  ecosystemGrowthPercentage : spec_float;
  ecosystemGrowthAddress : bytes;
  growthDividendPercentage : spec_float;
  growthDividendAddress : bytes;
  developerPercentage : spec_float;
  topUpGradientPoint : Z;
  topUpFactor : spec_float;
}.
Definition zeroRewardsConfig : rewardsConfig :=
  {| rewardsSettingEpoch := 0; leaderPercentage := S754_zero false; protocolSustainabilityPercentage := S754_zero false;
     protocolSustainabilityAddress := []; ecosystemGrowthPercentage := S754_zero false; ecosystemGrowthAddress := [];
     growthDividendPercentage := S754_zero false; growthDividendAddress := []; developerPercentage := S754_zero false;
     topUpGradientPoint := 0; topUpFactor := S754_zero false |}.

(** The public key converter and the shard coordinator. *)
Class AddressEnv := {
  Decode : string -> option bytes;
  inMetachain : bytes -> bool;
}.

Definition isPercentageInvalid (percentage : spec_float) : bool :=
  SFltb percentage (float64_of_Z 0) || SFltb (float64_of_Z 1) percentage.

Definition checkRewardConfig (c : EpochRewardSettings) : result economics_error () :=
  _ ← check (isPercentageInvalid (cfg_LeaderPercentage c) || isPercentageInvalid (cfg_DeveloperPercentage c) ||
             isPercentageInvalid (cfg_ProtocolSustainabilityPercentage c) || isPercentageInvalid (cfg_TopUpFactor c) ||
             isPercentageInvalid (cfg_GrowthDividendPercentage c) || isPercentageInvalid (cfg_EcosystemGrowthPercentage c))
        ErrInvalidRewardsPercentages;
  let accPercentage := float64_add (float64_add (cfg_ProtocolSustainabilityPercentage c) (cfg_GrowthDividendPercentage c))
                         (cfg_EcosystemGrowthPercentage c) in
  _ ← check (isPercentageInvalid accPercentage) ErrInvalidRewardsPercentages;
  _ ← check (String.length (cfg_ProtocolSustainabilityAddress c) =? 0)%nat ErrNilProtocolSustainabilityAddress;
  _ ← check (String.length (cfg_EcosystemGrowthAddress c) =? 0)%nat ErrNilEcosystemGrowthAddress;
  _ ← check (String.length (cfg_GrowthDividendAddress c) =? 0)%nat ErrNilGrowthDividendAddress;
  _ ← orErr (BigSetString (cfg_TopUpGradientPoint c)) ErrInvalidRewardsTopUpGradientPoint;
  Ok ().

Definition decodeAddressAndVerifyShard {AE : AddressEnv} (address : string) : result economics_error bytes :=
  decodedAddress ← orErr (Decode address) ErrDecodeAddress;
  _ ← check (inMetachain decodedAddress) ErrProtocolSustainabilityAddressInMetachain;
  Ok decodedAddress.

(** One turn of the loop of checkAndParseRewardsSettings. *)
Definition parseRewardsSetting {AE : AddressEnv} (c : EpochRewardSettings) : result economics_error rewardsConfig :=
  _ ← checkRewardConfig c;
  let topUp := default 0 (BigSetString (cfg_TopUpGradientPoint c)) in
  protocolSustainability ← decodeAddressAndVerifyShard (cfg_ProtocolSustainabilityAddress c);
  ecosystemGrowth ← decodeAddressAndVerifyShard (cfg_EcosystemGrowthAddress c);
  growthDividend ← decodeAddressAndVerifyShard (cfg_GrowthDividendAddress c);
  Ok {| rewardsSettingEpoch := EpochEnable c; leaderPercentage := cfg_LeaderPercentage c;
        protocolSustainabilityPercentage := cfg_ProtocolSustainabilityPercentage c;
        protocolSustainabilityAddress := protocolSustainability;
        ecosystemGrowthPercentage := cfg_EcosystemGrowthPercentage c; ecosystemGrowthAddress := ecosystemGrowth;
        growthDividendPercentage := cfg_GrowthDividendPercentage c; growthDividendAddress := growthDividend;
        developerPercentage := cfg_DeveloperPercentage c; topUpGradientPoint := topUp; topUpFactor := cfg_TopUpFactor c |}.
Definition checkAndParseRewardsSettings {AE : AddressEnv} (l : list EpochRewardSettings) : result economics_error (list rewardsConfig) :=
  parseAll parseRewardsSetting l.

(** The handler is its settings. *)
Definition newRewardsConfigHandler {SO : SortSlice} {AE : AddressEnv} (l : list EpochRewardSettings)
    : result economics_error (list rewardsConfig) :=
  rewardsConfigSlice ← checkAndParseRewardsSettings l;
  Ok (sort_Slice (fun a b => rewardsSettingEpoch a <? rewardsSettingEpoch b) rewardsConfigSlice).

(** The settings of an epoch are used from the next one on. *)
Definition getRewardsConfigForEpoch (epoch : Z) (rewardsConfigSettings : list rewardsConfig) : rewardsConfig :=
  match rewardsConfigSettings with
  | [] => zeroRewardsConfig
  | first :: rest => fold_left (fun setting rc => if rewardsSettingEpoch rc <? epoch then rc else setting) rest first
  end.

(** ** Inflation (globalSettings.go) *)

Record inflationForEpochCompound := {
  enableEpoch : Z;
  maxInflation : spec_float;
}.
Definition laterInflation (a b : inflationForEpochCompound) : Prop := enableEpoch b <= enableEpoch a.
#[export] Instance laterInflation_dec a b : Decision (laterInflation a b).
Proof. unfold laterInflation. apply _. Defined.

Record globalSettingsHandler := {
  minInflation : spec_float;
  yearSettings : gmap Z spec_float;
  tailInflationActivationEpoch : Z;
  startYearInflation : spec_float;
  inflationForEpoch : list inflationForEpochCompound;
  decayPercentage : spec_float;
}.

Definition numberOfMillisecondsInYear : Z := 1000 * 60 * 60 * 24 * 365.

(** [math.Pow] *)
Class MathPow := Pow : spec_float -> spec_float -> spec_float.

(** One turn of the loop of calculateInflationForEpochCompound. *)
Definition inflationOf {MP : MathPow} (startYear : spec_float) (chainParams : ChainParametersByEpochConfig)
    : result economics_error inflationForEpochCompound :=
  let epochDurationInMilliseconds := u64 (RoundDuration chainParams * RoundsPerEpoch chainParams) in
  _ ← check (epochDurationInMilliseconds =? 0) ErrZeroDurationForEpoch;
  let one := float64_of_Z 1 in
  let numberOfEpochsPerYear := float64_div (float64_of_Z numberOfMillisecondsInYear) (float64_of_Z epochDurationInMilliseconds) in
  let inflationForCompound := float64_mul numberOfEpochsPerYear
        (float64_sub (Pow (float64_add one startYear) (float64_div one numberOfEpochsPerYear)) one) in
  _ ← check (isPercentageInvalid inflationForCompound) ErrInvalidInflationPercentages;
  Ok {| enableEpoch := EnableEpoch chainParams; maxInflation := inflationForCompound |}.
Definition calculateInflationForEpochCompound {MP : MathPow} (startYear : spec_float) (allChainParams : list ChainParametersByEpochConfig)
    : result economics_error (list inflationForEpochCompound) :=
  _ ← check (length allChainParams =? 0)%nat ErrEmptyChainParametersConfiguration;
  inflations ← parseAll (inflationOf startYear) allChainParams;
  Ok (merge_sort laterInflation inflations).

Definition newGlobalSettingsHandler {MP : MathPow} (s : GlobalSettings) (allChainParams : list ChainParametersByEpochConfig)
    : result economics_error globalSettingsHandler :=
  let years := fold_left (fun m y => <[Year y := MaximumInflation y]> m) (YearSettings s) ∅ in
  inflations ← calculateInflationForEpochCompound (StartYearInflation (TailInflation s)) allChainParams;
  _ ← check (isPercentageInvalid (MinimumInflation s) || isPercentageInvalid (StartYearInflation (TailInflation s)) ||
             isPercentageInvalid (DecayPercentage (TailInflation s))) ErrInvalidInflationPercentages;
  Ok {| minInflation := MinimumInflation s; yearSettings := years;
        tailInflationActivationEpoch := tail_EnableEpoch (TailInflation s);
        startYearInflation := StartYearInflation (TailInflation s); inflationForEpoch := inflations;
        decayPercentage := DecayPercentage (TailInflation s) |}.

Definition isTailInflationActive (epoch : Z) (g : globalSettingsHandler) : bool := tailInflationActivationEpoch g <? epoch.
Definition yearSettingsInflation (year : Z) (g : globalSettingsHandler) : spec_float :=
  default (minInflation g) (yearSettings g !! year).
Definition maxInflationRate (year epoch : Z) (g : globalSettingsHandler) : spec_float :=
  if isTailInflationActive epoch g then
    match List.find (fun i => enableEpoch i <=? epoch) (inflationForEpoch g) with
    | Some i => maxInflation i
    | None => S754_zero false
    end
  else yearSettingsInflation year g.

(** ** Fees (economicsData.go) *)

Inductive EnableEpochFlag := GasPriceModifierFlag | PenalizedTooMuchGasFlag.

(** The dynamic type of a transaction. *)
Inductive txType := typeTransaction | typeSmartContractResult | typeOther.
Record TransactionWithFee := {
  tx_type : txType;
  tx_GasPrice : Z;
  tx_GasLimit : Z;
  tx_Data : bytes;
  tx_Value : Z;
  RelayerAddr : bytes;
  RelayerSignature : bytes;
}.

(** The flags of epochs, the current epoch, what the version checker says of
    guarded transactions, and [uint64(f)] where Go leaves it open. *)
Class EconomicsEnv := {
  IsFlagEnabledInEpoch : EnableEpochFlag -> Z -> bool;
  GetCurrentEpoch : Z;
  IsGuardedTransaction : TransactionWithFee -> bool;
  undefined64 : spec_float -> Z;
}.

Record economicsData := {
  ed_gasConfig : gasConfigHandler;
  ed_rewardsConfig : list rewardsConfig;
  ed_globalSettings : globalSettingsHandler;
  gasPriceModifier : spec_float;
}.

Definition checkEconomicsConfig (economics : EconomicsConfig) : result economics_error () :=
  let global := cfg_GlobalSettings economics in
  _ ← check (isPercentageInvalid (MinimumInflation global)) ErrInvalidInflationPercentages;
  _ ← check (length (RewardsConfigByEpoch economics) =? 0)%nat ErrEmptyEpochRewardsConfig;
  _ ← check (length (YearSettings global) =? 0)%nat ErrEmptyYearSettings;
  check (existsb (fun y => isPercentageInvalid (MaximumInflation y)) (YearSettings global)) ErrInvalidInflationPercentages.

Definition NewEconomicsData {SO : SortSlice} {AE : AddressEnv} {MP : MathPow} (economics : EconomicsConfig)
    (allChainParams : list ChainParametersByEpochConfig) : result economics_error economicsData :=
  _ ← checkEconomicsConfig economics;
  gas ← newGasConfigHandler economics;
  rewards ← newRewardsConfigHandler (RewardsConfigByEpoch economics);
  global ← newGlobalSettingsHandler (cfg_GlobalSettings economics) allChainParams;
  Ok {| ed_gasConfig := gas; ed_rewardsConfig := rewards; ed_globalSettings := global;
        gasPriceModifier := cfg_GasPriceModifier (cfg_FeeSettings economics) |}.

Section Fees.
Context {EE : EconomicsEnv} {CM : CoreMath}.
Implicit Types (ed : economicsData) (tx : TransactionWithFee).

Definition isSmartContractResult tx : bool := match tx_type tx with typeSmartContractResult => true | _ => false end.

Definition GasPriceModifierInEpoch ed (epoch : Z) : spec_float :=
  if negb (IsFlagEnabledInEpoch GasPriceModifierFlag epoch) then float64_of_Z 1 else gasPriceModifier ed.
Definition GasPriceModifier ed : spec_float := GasPriceModifierInEpoch ed GetCurrentEpoch.
Definition MinGasPriceForProcessing ed : Z :=
  uint64 undefined64 (float64_mul (float64_of_Z (minGasPrice (ed_gasConfig ed))) (GasPriceModifier ed)).
Definition GasPriceForProcessingInEpoch ed tx (epoch : Z) : Z :=
  uint64 undefined64 (float64_mul (float64_of_Z (tx_GasPrice tx)) (GasPriceModifierInEpoch ed epoch)).
Definition GasPriceForProcessing ed tx : Z := GasPriceForProcessingInEpoch ed tx GetCurrentEpoch.
Definition GasPriceForMove tx : Z := tx_GasPrice tx.

Definition MinGasLimitInEpoch ed (epoch : Z) : Z := getMinGasLimit epoch (ed_gasConfig ed).

(** common.IsRelayedTxV3, of a transaction. *)
Definition IsRelayedTxV3 tx : bool := (0 <? length (RelayerAddr tx))%nat || (0 <? length (RelayerSignature tx))%nat.
Definition getExtraGasLimitRelayedTx ed tx (epoch : Z) : Z := if IsRelayedTxV3 tx then MinGasLimitInEpoch ed epoch else 0.

Definition ComputeGasLimitInEpoch ed tx (epoch : Z) : Z :=
  let gasLimit := getMinGasLimit epoch (ed_gasConfig ed) in
  let dataLen := Z.of_nat (length (tx_Data tx)) in
  let gasLimit := u64 (gasLimit + u64 (dataLen * gasPerDataByte (ed_gasConfig ed))) in
  match tx_type tx with
  | typeTransaction =>
      let gasLimit := if IsGuardedTransaction tx then u64 (gasLimit + getExtraGasLimitGuardedTx epoch (ed_gasConfig ed)) else gasLimit in
      u64 (gasLimit + getExtraGasLimitRelayedTx ed tx epoch)
  | _ => gasLimit
  end.
Definition ComputeGasLimit ed tx : Z := ComputeGasLimitInEpoch ed tx GetCurrentEpoch.

Definition ComputeMoveBalanceFeeInEpoch ed tx (epoch : Z) : Z :=
  if isSmartContractResult tx then 0 else SafeMul (GasPriceForMove tx) (ComputeGasLimitInEpoch ed tx epoch).
Definition ComputeMoveBalanceFee ed tx : Z := ComputeMoveBalanceFeeInEpoch ed tx GetCurrentEpoch.

Definition ComputeFeeForProcessingInEpoch ed tx (gasToUse epoch : Z) : Z :=
  SafeMul (GasPriceForProcessingInEpoch ed tx epoch) gasToUse.
Definition ComputeFeeForProcessing ed tx (gasToUse : Z) : Z := ComputeFeeForProcessingInEpoch ed tx gasToUse GetCurrentEpoch.

(** What remains when there is not enough gas is what the subtraction gives. *)
Definition SplitTxGasInCategoriesInEpoch ed tx (epoch : Z) : Z * Z :=
  let gasLimitMove := ComputeGasLimitInEpoch ed tx epoch in
  (gasLimitMove, fst (SafeSubUint64 (tx_GasLimit tx) gasLimitMove)).
Definition SplitTxGasInCategories ed tx : Z * Z := SplitTxGasInCategoriesInEpoch ed tx GetCurrentEpoch.

Definition ComputeTxFeeInEpoch ed tx (epoch : Z) : Z :=
  if IsFlagEnabledInEpoch GasPriceModifierFlag epoch then
    if isSmartContractResult tx then ComputeFeeForProcessingInEpoch ed tx (tx_GasLimit tx) epoch
    else
      let '(gasLimitForMoveBalance, difference) := SplitTxGasInCategoriesInEpoch ed tx epoch in
      let moveBalanceFee := SafeMul (GasPriceForMove tx) gasLimitForMoveBalance in
      if tx_GasLimit tx <=? gasLimitForMoveBalance then moveBalanceFee
      else moveBalanceFee + ComputeFeeForProcessingInEpoch ed tx difference epoch
  else if IsFlagEnabledInEpoch PenalizedTooMuchGasFlag epoch then SafeMul (tx_GasLimit tx) (tx_GasPrice tx)
  else ComputeMoveBalanceFeeInEpoch ed tx epoch.
Definition ComputeTxFee ed tx : Z := ComputeTxFeeInEpoch ed tx GetCurrentEpoch.

Definition CheckValidityTxValuesInEpoch ed tx (epoch : Z) : result economics_error () :=
  let gas := ed_gasConfig ed in
  _ ← check (tx_GasPrice tx <? minGasPrice gas) ErrInsufficientGasPriceInTx;
  _ ← check (negb (isSmartContractResult tx) && (tx_GasLimit tx <? ComputeGasLimitInEpoch ed tx epoch)) ErrInsufficientGasLimitInTx;
  _ ← check (getMaxGasLimitPerBlock epoch gas <? tx_GasLimit tx) ErrMoreGasThanGasLimitPerBlock;
  _ ← check (length (bigBytes (genesisTotalSupply gas)) <? length (bigBytes (tx_Value tx)))%nat ErrTxValueOutOfBounds;
  check (genesisTotalSupply gas <? tx_Value tx) ErrTxValueTooBig.
Definition CheckValidityTxValues ed tx : result economics_error () := CheckValidityTxValuesInEpoch ed tx GetCurrentEpoch.

Definition MaxGasLimitPerTxInEpoch ed (epoch : Z) : Z := getMaxGasLimitPerTx epoch (ed_gasConfig ed).
Definition MaxGasLimitPerTx ed : Z := MaxGasLimitPerTxInEpoch ed GetCurrentEpoch.
(** apiEconomicsData.go *)
Definition api_CheckValidityTxValues ed tx : result economics_error () :=
  _ ← check (MaxGasLimitPerTx ed <? tx_GasLimit tx) ErrMoreGasThanGasLimitPerMiniBlockForSafeCrossShard;
  CheckValidityTxValues ed tx.

(** [metachain]: the shard is the metachain. *)
Definition MaxGasLimitPerBlockInEpoch ed (metachain : bool) (epoch : Z) : Z :=
  if metachain then getMaxGasLimitPerMetaBlock epoch (ed_gasConfig ed) else getMaxGasLimitPerBlock epoch (ed_gasConfig ed).
Definition MaxGasLimitPerMiniBlockInEpoch ed (metachain : bool) (epoch : Z) : Z :=
  if metachain then getMaxGasLimitPerMetaMiniBlock epoch (ed_gasConfig ed) else getMaxGasLimitPerMiniBlock epoch (ed_gasConfig ed).
Definition MaxGasLimitPerBlockForSafeCrossShardInEpoch ed (epoch : Z) : Z :=
  getMaxGasLimitPerBlockForSafeCrossShard epoch (ed_gasConfig ed).
Definition MaxGasLimitPerMiniBlockForSafeCrossShardInEpoch ed (epoch : Z) : Z :=
  getMaxGasLimitPerMiniBlockForSafeCrossShard epoch (ed_gasConfig ed).

Definition ComputeGasUsedAndFeeBasedOnRefundValueInEpoch ed tx (refundValue epoch : Z) : result economics_error (Z * Z) :=
  if refundValue =? 0 then Ok (tx_GasLimit tx, ComputeTxFeeInEpoch ed tx epoch)
  else
    let txFee := if negb (IsFlagEnabledInEpoch PenalizedTooMuchGasFlag epoch) && negb (IsFlagEnabledInEpoch GasPriceModifierFlag epoch)
                 then SafeMul (tx_GasLimit tx) (tx_GasPrice tx) else ComputeTxFeeInEpoch ed tx epoch in
    let txFee := txFee - refundValue in
    let moveBalanceGasUnits := ComputeGasLimitInEpoch ed tx epoch in
    let scOpFee := txFee - ComputeMoveBalanceFeeInEpoch ed tx epoch in
    scOpGasUnits ← bigDiv scOpFee (GasPriceForProcessingInEpoch ed tx epoch);
    Ok (u64 (moveBalanceGasUnits + bigUint64 scOpGasUnits), txFee).
Definition ComputeGasUsedAndFeeBasedOnRefundValue ed tx (refundValue : Z) : result economics_error (Z * Z) :=
  ComputeGasUsedAndFeeBasedOnRefundValueInEpoch ed tx refundValue GetCurrentEpoch.

Definition ComputeTxFeeBasedOnGasUsedInEpoch ed tx (gasUsed epoch : Z) : Z :=
  let moveBalanceGasLimit := ComputeGasLimitInEpoch ed tx epoch in
  let moveBalanceFee := ComputeMoveBalanceFeeInEpoch ed tx epoch in
  if gasUsed <=? moveBalanceGasLimit then moveBalanceFee
  else moveBalanceFee + ComputeFeeForProcessingInEpoch ed tx (gasUsed - moveBalanceGasLimit) epoch.
Definition ComputeTxFeeBasedOnGasUsed ed tx (gasUsed : Z) : Z := ComputeTxFeeBasedOnGasUsedInEpoch ed tx gasUsed GetCurrentEpoch.

Definition ComputeGasUnitsFromRefundValue ed tx (refundValue epoch : Z) : result economics_error Z :=
  gasUnits ← bigDiv refundValue (i64 (GasPriceForProcessingInEpoch ed tx epoch));
  Ok (bigUint64 gasUnits).

Definition ComputeGasLimitBasedOnBalanceInEpoch ed tx (balance epoch : Z) : result economics_error Z :=
  let balanceWithoutTransferValue := balance - tx_Value tx in
  _ ← check (balanceWithoutTransferValue <? 1) ErrInsufficientFunds;
  let moveBalanceFee := ComputeMoveBalanceFeeInEpoch ed tx epoch in
  _ ← check (balanceWithoutTransferValue <? moveBalanceFee) ErrInsufficientFunds;
  if negb (IsFlagEnabledInEpoch GasPriceModifierFlag epoch) then
    gasLimitBig ← bigDiv balanceWithoutTransferValue (tx_GasPrice tx);
    Ok (bigUint64 gasLimitBig)
  else
    gasLimitFromRemainedBalance ← bigDiv (balanceWithoutTransferValue - moveBalanceFee) (GasPriceForProcessingInEpoch ed tx epoch);
    Ok (u64 (ComputeGasLimitInEpoch ed tx epoch + bigUint64 gasLimitFromRemainedBalance)).
Definition ComputeGasLimitBasedOnBalance ed tx (balance : Z) : result economics_error Z :=
  ComputeGasLimitBasedOnBalanceInEpoch ed tx balance GetCurrentEpoch.

(** Rewards and inflation in an epoch. *)
Definition LeaderPercentageInEpoch ed (epoch : Z) : spec_float := leaderPercentage (getRewardsConfigForEpoch epoch (ed_rewardsConfig ed)).
Definition DeveloperPercentageInEpoch ed (epoch : Z) : spec_float := developerPercentage (getRewardsConfigForEpoch epoch (ed_rewardsConfig ed)).
Definition ProtocolSustainabilityPercentageInEpoch ed (epoch : Z) : spec_float :=
  protocolSustainabilityPercentage (getRewardsConfigForEpoch epoch (ed_rewardsConfig ed)).
Definition RewardsTopUpGradientPointInEpoch ed (epoch : Z) : Z := topUpGradientPoint (getRewardsConfigForEpoch epoch (ed_rewardsConfig ed)).
Definition RewardsTopUpFactorInEpoch ed (epoch : Z) : spec_float := topUpFactor (getRewardsConfigForEpoch epoch (ed_rewardsConfig ed)).
Definition MaxInflationRate ed (year epoch : Z) : spec_float := maxInflationRate year epoch (ed_globalSettings ed).
End Fees.
