(* ===== verification/EconomicsProperties.v ===== *)
(** * What the fees guarantee

    Fees lie between the price of moving a balance and the price of all gas;
    gas and fees are computed back from refunds and from balances; settings are
    those in force at an epoch. *)

From Stdlib Require Import ZArith Lia String Ascii SpecFloat.
From stdpp Require Import base gmap list sorting strings.
From S2P Require Import Prelude GoValues Floats Config ChainParameters Economics.

(** ** Settings by epoch *)

Lemma check_Ok b e : check b e = Ok () <-> b = false.
Proof. by destruct b. Qed.

Lemma parseAll_Ok {A B} (f : A -> result economics_error B) l ys : parseAll f l = Ok ys -> Forall2 (fun x y => f x = Ok y) l ys.
Proof.
  revert ys. induction l as [|x l IH]; cbn; intros ys; [by intros [= <-]|].
  destruct (f x) as [y|] eqn:E; cbn; [|done]. destruct (parseAll f l) as [zs|]; cbn; [|done]. intros [= <-].
  constructor; [done|by apply IH].
Qed.

(** The last entry of a sorted slice that an epoch has reached is in force. *)
Lemma fold_inForce {A} (key : A -> Z) epoch rest : forall first, Sorted (fun a b => key a <= key b) (first :: rest) ->
  key first <= epoch ->
  inForce key (first :: rest) epoch (fold_left (fun cur x => if key x <=? epoch then x else cur) rest first).
Proof.
  induction rest as [|x rest IH]; intros first S L.
  { split; [apply list_elem_of_here|]. split; [done|]. intros y K%list_elem_of_singleton _. by subst. }
  apply Sorted_inv in S as [S H]. apply HdRel_inv in H. cbn [fold_left]. destruct (Z.leb_spec (key x) epoch) as [Lx|Lx].
  - destruct (IH x S Lx) as (I & B & M). split; [by apply list_elem_of_further|]. split; [done|].
    intros y Ky Ly. apply elem_of_cons in Ky as [->|Ky]; [|by apply M]. etrans; [exact H|]. apply M; [apply list_elem_of_here|done].
  - assert (N : forall y, y ∈ x :: rest -> epoch < key y).
    { apply Sorted_StronglySorted in S; [|intros ? ? ?; lia]. apply StronglySorted_inv in S as [_ F]. rewrite Forall_forall in F.
      intros y [->|K]%elem_of_cons; [done|]. specialize (F y K). lia. }
    replace (fold_left _ rest first) with first.
    + split; [apply list_elem_of_here|]. split; [done|]. intros y [->|K]%elem_of_cons Ly; [done|]. specialize (N y K). lia.
    + clear -N. assert (N' : forall y, y ∈ rest -> epoch < key y) by (intros y K; apply N; by apply list_elem_of_further). clear N.
      induction rest as [|y rest IH]; [done|]. cbn [fold_left].
      rewrite (proj2 (Z.leb_gt _ _)) by (apply N', list_elem_of_here). apply IH. intros z K. apply N'. by apply list_elem_of_further.
Qed.

(** A slice of settings that was parsed and sorted by epoch: what is in force
    was parsed from the setting in force. *)
Lemma parsed_inForce {SO : SortSlice} {SOk : SortSliceOk SO} {A B} (f : A -> result economics_error B) (keyA : A -> Z) (key : B -> Z)
    (l : list A) (ys : list B) epoch :
  parseAll f l = Ok ys -> (forall x y, f x = Ok y -> key y = keyA x) -> (exists x, x ∈ l /\ keyA x <= epoch) ->
  exists first rest x, sort_Slice (fun a b => key a <? key b) ys = first :: rest /\ inForce keyA l epoch x /\
    f x = Ok (fold_left (fun cur y => if key y <=? epoch then y else cur) rest first).
Proof.
  intros P K (x0 & I0 & L0). apply parseAll_Ok in P.
  pose proof (sort_Slice_perm _ (fun a b => key a <? key b) ys) as Pm. pose proof (sort_Slice_sorted _ key ys) as So.
  assert (Back : forall y, y ∈ ys -> exists x, x ∈ l /\ f x = Ok y /\ key y = keyA x).
  { intros y [i Ei]%list_elem_of_lookup. destruct (Forall2_lookup_r _ _ _ _ _ P Ei) as (x & Ex & Fx).
    exists x. split; [by eapply list_elem_of_lookup_2|]. split; [done|by apply K]. }
  assert (Forth : forall x, x ∈ l -> exists y, y ∈ ys /\ key y = keyA x).
  { intros x [i Ei]%list_elem_of_lookup. destruct (Forall2_lookup_l _ _ _ _ _ P Ei) as (y & Ey & Fy).
    exists y. split; [by eapply list_elem_of_lookup_2|by apply K]. }
  destruct (Forth x0 I0) as (y0 & J0 & E0). rewrite <- Pm in J0.
  destruct (sort_Slice (fun a b => key a <? key b) ys) as [|first rest]; [by apply elem_of_nil in J0|].
  assert (L : key first <= epoch).
  { apply elem_of_cons in J0 as [->|J0]; [lia|]. apply Sorted_StronglySorted in So; [|intros ? ? ?; lia].
    apply StronglySorted_inv in So as [_ F]. rewrite Forall_forall in F. specialize (F _ J0). lia. }
  destruct (fold_inForce key epoch rest first So L) as (I & B' & M). set (y := fold_left _ rest first) in *.
  rewrite Pm in I. destruct (Back y I) as (x & Ix & Fx & Ex). exists first, rest, x. split; [done|]. split; [|done].
  split; [done|]. split; [lia|]. intros x' I' L'. destruct (Forth x' I') as (y' & J' & E'). rewrite <- Ex, <- E'.
  apply M; [by rewrite Pm|lia].
Qed.

Lemma digitOf_range c d : digitOf c = Some d -> 0 <= d <= 9.
Proof. unfold digitOf. destruct (_ && _) eqn:E; [|done]. intros [= <-]. bool_prop. lia. Qed.

Lemma parseDigits_range s : forall acc n, 0 <= acc -> parseDigits acc s = Some n -> 0 <= n.
Proof.
  induction s as [|c s IH]; cbn; intros acc n B; [by intros [= <-]|]. destruct (digitOf c) as [d|] eqn:E; [|done].
  apply digitOf_range in E. apply IH. lia.
Qed.

Lemma ParseUint64_range s n : ParseUint64 s = Some n -> 0 <= n < 2 ^ 64.
Proof.
  unfold ParseUint64. destruct s as [|c s]; [done|]. destruct (parseDigits 0 (String c s)) as [x|] eqn:E; cbn; [|done].
  apply parseDigits_range in E; [|done]. destruct (Z.ltb_spec x (2 ^ 64)); [|done]. intros [= <-]. lia.
Qed.

(** What is known of gas settings that were accepted. *)
Record gasConfigOk (gc : gasConfig) : Prop := {
  gc_perBlock : minGasLimit gc <= maxGasLimitPerBlock gc;
  gc_perMiniBlock : minGasLimit gc <= maxGasLimitPerMiniBlock gc;
  gc_perMetaBlock : minGasLimit gc <= maxGasLimitPerMetaBlock gc;
  gc_perMetaMiniBlock : minGasLimit gc <= maxGasLimitPerMetaMiniBlock gc;
  gc_perTx : minGasLimit gc <= maxGasLimitPerTx gc;
  gc_factor : 1 <= maxGasHigherFactorAccepted gc;
}.

Ltac parsed H := repeat match type of H with
  | (orErr ?o _ ≫= _) = Ok _ => let E := fresh "E" in destruct o eqn:E; cbn [orErr] in H; [|discriminate H];
      change ((Ok ?a ≫= ?g)) with (g a) in H; cbv beta in H
  | (check ?b _ ≫= _) = Ok _ => let E := fresh "E" in destruct b eqn:E; cbn [check] in H; [discriminate H|];
      change ((Ok ?a ≫= ?g)) with (g a) in H; cbv beta in H
  end.

Lemma gasSetting_Ok s gc : checkAndParseGasLimitSettings s = Ok gc -> gasConfigOk gc /\ gasLimitSettingEpoch gc = gls_EnableEpoch s.
Proof.
  unfold checkAndParseGasLimitSettings. intros H. parsed H. injection H as <-. bool_prop. split; [|done].
  constructor; cbn [minGasLimit maxGasLimitPerBlock maxGasLimitPerMiniBlock maxGasLimitPerMetaBlock
    maxGasLimitPerMetaMiniBlock maxGasLimitPerTx maxGasHigherFactorAccepted]; lia.
Qed.

Lemma rewardsSetting_Ok {AE : AddressEnv} c rc : parseRewardsSetting c = Ok rc -> rewardsSettingEpoch rc = EpochEnable c.
Proof.
  unfold parseRewardsSetting. destruct (checkRewardConfig c) as [[]|],
    (decodeAddressAndVerifyShard (cfg_ProtocolSustainabilityAddress c)), (decodeAddressAndVerifyShard (cfg_EcosystemGrowthAddress c)),
    (decodeAddressAndVerifyShard (cfg_GrowthDividendAddress c)); cbn; try done. by intros [= <-].
Qed.

Section Constructed.
Context {SO : SortSlice} {SOk : SortSliceOk SO} {AE : AddressEnv} {MP : MathPow}.

Lemma NewEconomicsData_parts economics allChainParams ed : NewEconomicsData economics allChainParams = Ok ed ->
  newGasConfigHandler economics = Ok (ed_gasConfig ed) /\
  newRewardsConfigHandler (RewardsConfigByEpoch economics) = Ok (ed_rewardsConfig ed) /\
  gasPriceModifier ed = cfg_GasPriceModifier (cfg_FeeSettings economics).
Proof.
  unfold NewEconomicsData. destruct (checkEconomicsConfig economics) as [[]|]; cbn; [|done].
  destruct (newGasConfigHandler economics) as [g|]; cbn; [|done].
  destruct (newRewardsConfigHandler (RewardsConfigByEpoch economics)) as [r|]; cbn; [|done].
  destruct (newGlobalSettingsHandler _ allChainParams) as [h|]; cbn; [|done]. by intros [= <-].
Qed.

Lemma newGasConfigHandler_parts economics h : newGasConfigHandler economics = Ok h ->
  exists gcs, parseAll checkAndParseGasLimitSettings (GasLimitSettings (cfg_FeeSettings economics)) = Ok gcs /\
    gasLimitSettings h = sort_Slice (fun a b => gasLimitSettingEpoch a <? gasLimitSettingEpoch b) gcs /\
    SFltb (float64_of_Z 1) (cfg_GasPriceModifier (cfg_FeeSettings economics)) = false /\
    SFltb (cfg_GasPriceModifier (cfg_FeeSettings economics)) epsilon = false /\
    0 <= minGasPrice h < 2 ^ 64 /\ 0 <= gasPerDataByte h < 2 ^ 64.
Proof.
  unfold newGasConfigHandler, checkAndParseFeeSettings. intros H.
  destruct (SFltb _ _ || _) eqn:E1; cbn in H; [done|]. apply orb_false_iff in E1 as [E1 E2].
  destruct (length _ =? 0)%nat; cbn in H; [done|].
  destruct (parseAll _ _) as [gcs|]; cbn in H; [|done]. exists gcs. split; [done|].
  unfold convertGenericValues in H. parsed H. injection H as <-. cbn. split_and!; try done; by eapply ParseUint64_range.
Qed.

(** C39. The settings that are used in an epoch are those in force: the gas
    settings of the latest activation epoch that was reached, with a minimal
    gas limit that fits every other limit, and the reward settings of the
    latest activation epoch before it. *)
Theorem settings_in_force economics allChainParams ed epoch (H : NewEconomicsData economics allChainParams = Ok ed)
    (Hg : exists s, s ∈ GasLimitSettings (cfg_FeeSettings economics) /\ gls_EnableEpoch s <= epoch)
    (Hr : exists c, c ∈ RewardsConfigByEpoch economics /\ EpochEnable c < epoch) :
  (exists s, inForce gls_EnableEpoch (GasLimitSettings (cfg_FeeSettings economics)) epoch s /\
     checkAndParseGasLimitSettings s = Ok (getGasConfigForEpoch epoch (ed_gasConfig ed)) /\
     gasConfigOk (getGasConfigForEpoch epoch (ed_gasConfig ed))) /\
  (exists c, inForce EpochEnable (RewardsConfigByEpoch economics) (epoch - 1) c /\
     parseRewardsSetting c = Ok (getRewardsConfigForEpoch epoch (ed_rewardsConfig ed))).
Proof.
  destruct (NewEconomicsData_parts _ _ _ H) as (Eg & Er & _). split.
  - destruct (newGasConfigHandler_parts _ _ Eg) as (gcs & P & Es & _).
    destruct (parsed_inForce _ gls_EnableEpoch gasLimitSettingEpoch _ _ epoch P) as (first & rest & s & E & I & F); [|done|].
    { intros s gc Es'. by apply gasSetting_Ok. }
    exists s. unfold getGasConfigForEpoch. rewrite Es, E. split; [done|]. split; [done|]. by apply (gasSetting_Ok s).
  - unfold newRewardsConfigHandler, checkAndParseRewardsSettings in Er.
    destruct (parseAll _ _) as [rcs|] eqn:P; cbn in Er; [|done]. injection Er as Er.
    destruct (parsed_inForce _ EpochEnable rewardsSettingEpoch _ _ (epoch - 1) P) as (first & rest & c & E & I & F).
    { intros c rc. apply rewardsSetting_Ok. }
    { destruct Hr as (c & K & L). exists c. split; [done|lia]. }
    exists c. split; [done|]. rewrite <- Er. unfold getRewardsConfigForEpoch. rewrite E, F. f_equal.
    clear. revert first. induction rest as [|x rest IH]; intros first; [done|]. cbn [fold_left].
    replace (rewardsSettingEpoch x <? epoch) with (rewardsSettingEpoch x <=? epoch - 1) by lia. apply IH.
Qed.
End Constructed.

(** ** Fees *)

Section Fees.
Context {EE : EconomicsEnv} {CM : CoreMath} {CMOk : CoreMathOk CM}.
Implicit Types (ed : economicsData) (tx : TransactionWithFee).

(** The modifier of an accepted configuration, when it is a number. *)
Record modifierOk ed : Prop := {
  mo_valid : valid_binary 53 1024 (gasPriceModifier ed) = true;
  mo_number : gasPriceModifier ed <> S754_nan;
  mo_share : SFltb (float64_of_Z 1) (gasPriceModifier ed) = false;
  mo_positive : SFltb (gasPriceModifier ed) (float64_of_Z 0) = false;
}.

Lemma above_epsilon f : SFltb f epsilon = false -> SFltb f (float64_of_Z 0) = false.
Proof. by destruct f as [s|[]| |[] m e]. Qed.

(** A transaction whose price a float64 can tell from its neighbours. *)
Record pricedTx tx : Prop := {
  pt_price : 0 <= tx_GasPrice tx < 2 ^ 53;
  pt_limit : 0 <= tx_GasLimit tx < 2 ^ 64;
}.

Lemma processing_price ed tx epoch : modifierOk ed -> pricedTx tx ->
  0 <= GasPriceForProcessingInEpoch ed tx epoch <= tx_GasPrice tx.
Proof.
  intros [V N S P] [B _]. unfold GasPriceForProcessingInEpoch, GasPriceModifierInEpoch.
  assert (Sh : exists k, truncate (float64_mul (float64_of_Z (tx_GasPrice tx))
      (if negb (IsFlagEnabledInEpoch GasPriceModifierFlag epoch) then float64_of_Z 1 else gasPriceModifier ed)) = Some k /\ 0 <= k <= tx_GasPrice tx).
  { destruct (negb _); by apply float64_share. }
  destruct Sh as (k & E & Bk). unfold uint64. rewrite E, (proj2 (Z.leb_le 0 k)), (proj2 (Z.ltb_lt k (2 ^ 64))) by lia. done.
Qed.

Lemma u64_range x : 0 <= u64 x < 2 ^ 64.
Proof. apply Z.mod_pos_bound. lia. Qed.

Lemma ComputeGasLimit_range ed tx epoch : 0 <= ComputeGasLimitInEpoch ed tx epoch < 2 ^ 64.
Proof. unfold ComputeGasLimitInEpoch. destruct (tx_type tx); apply u64_range. Qed.

Lemma moveFee_eq ed tx epoch : pricedTx tx -> isSmartContractResult tx = false ->
  ComputeMoveBalanceFeeInEpoch ed tx epoch = tx_GasPrice tx * ComputeGasLimitInEpoch ed tx epoch.
Proof.
  intros [B _] E. pose proof (ComputeGasLimit_range ed tx epoch). unfold ComputeMoveBalanceFeeInEpoch. rewrite E.
  by apply SafeMul_ok; [apply B|lia].
Qed.

(** The fee for the gas that was used. *)
Lemma feeOnGasUsed_eq ed tx used epoch : modifierOk ed -> pricedTx tx -> isSmartContractResult tx = false ->
  ComputeTxFeeBasedOnGasUsedInEpoch ed tx used epoch =
    tx_GasPrice tx * ComputeGasLimitInEpoch ed tx epoch +
    GasPriceForProcessingInEpoch ed tx epoch * Z.max 0 (used - ComputeGasLimitInEpoch ed tx epoch).
Proof.
  intros M T E. pose proof (processing_price ed tx epoch M T). unfold ComputeTxFeeBasedOnGasUsedInEpoch. rewrite moveFee_eq by done.
  destruct (Z.leb_spec used (ComputeGasLimitInEpoch ed tx epoch)); [rewrite Z.max_l by lia; lia|].
  unfold ComputeFeeForProcessingInEpoch. rewrite SafeMul_ok, Z.max_r by lia. done.
Qed.

Lemma accepted_gas ed tx epoch : CheckValidityTxValuesInEpoch ed tx epoch = Ok () ->
  minGasPrice (ed_gasConfig ed) <= tx_GasPrice tx /\
  (isSmartContractResult tx = false -> ComputeGasLimitInEpoch ed tx epoch <= tx_GasLimit tx).
Proof.
  unfold CheckValidityTxValuesInEpoch. intros H. destruct (tx_GasPrice tx <? _) eqn:E1; cbn in H; [done|].
  destruct (negb _ && _) eqn:E2; cbn in H; [done|]. split; [lia|]. intros Es. rewrite Es in E2. cbn in E2. lia.
Qed.

(** The fee of a transaction is that of using all its gas. *)
Lemma txFee_eq ed tx epoch : modifierOk ed -> pricedTx tx -> isSmartContractResult tx = false ->
  IsFlagEnabledInEpoch GasPriceModifierFlag epoch = true -> ComputeGasLimitInEpoch ed tx epoch <= tx_GasLimit tx ->
  ComputeTxFeeInEpoch ed tx epoch = ComputeTxFeeBasedOnGasUsedInEpoch ed tx (tx_GasLimit tx) epoch.
Proof.
  intros M T E Fl L. pose proof (ComputeGasLimit_range ed tx epoch). unfold ComputeTxFeeInEpoch. rewrite Fl, E.
  unfold SplitTxGasInCategoriesInEpoch. rewrite SafeSubUint64_ok by lia. cbn [fst]. unfold ComputeTxFeeBasedOnGasUsedInEpoch.
  unfold ComputeMoveBalanceFeeInEpoch. by rewrite E.
Qed.

(** C17. The fee of a transaction that is accepted, is no smart contract result
    and has a gas price below 2 ^ 53, with a gas price modifier that is a number
    between 0 and 1: it is at least the fee for moving the balance and at most
    the price of all its gas, in every epoch and in spite of the rounding of
    prices.  Since the gas price modifier it is the fee of using all gas; before
    it is the price of all gas when too much gas is penalized, and else only the
    fee for moving the balance.  Using more gas never costs less. *)
Theorem fees_add_up ed tx epoch (M : modifierOk ed) (T : pricedTx tx) (E : isSmartContractResult tx = false)
    (H : CheckValidityTxValuesInEpoch ed tx epoch = Ok ()) :
  ComputeMoveBalanceFeeInEpoch ed tx epoch <= ComputeTxFeeInEpoch ed tx epoch <= tx_GasLimit tx * tx_GasPrice tx /\
  ComputeTxFeeInEpoch ed tx epoch =
    (if IsFlagEnabledInEpoch GasPriceModifierFlag epoch
     then ComputeTxFeeBasedOnGasUsedInEpoch ed tx (tx_GasLimit tx) epoch
     else if IsFlagEnabledInEpoch PenalizedTooMuchGasFlag epoch then tx_GasLimit tx * tx_GasPrice tx
     else ComputeMoveBalanceFeeInEpoch ed tx epoch) /\
  (forall used used', used <= used' ->
   ComputeTxFeeBasedOnGasUsedInEpoch ed tx used epoch <= ComputeTxFeeBasedOnGasUsedInEpoch ed tx used' epoch).
Proof.
  destruct (accepted_gas ed tx epoch H) as [_ L]. specialize (L E). pose proof (ComputeGasLimit_range ed tx epoch) as R.
  pose proof (processing_price ed tx epoch M T) as P. destruct T as [Bp Bl]. assert (T : pricedTx tx) by done.
  split; [split|split; [|intros u u' Lu; rewrite !feeOnGasUsed_eq by done; nia]].
  - destruct (IsFlagEnabledInEpoch GasPriceModifierFlag epoch) eqn:Fl.
    + rewrite txFee_eq, feeOnGasUsed_eq, moveFee_eq by done. nia.
    + rewrite moveFee_eq by done. unfold ComputeTxFeeInEpoch. rewrite Fl. destruct (IsFlagEnabledInEpoch PenalizedTooMuchGasFlag epoch).
      * rewrite SafeMul_ok by lia. nia.
      * rewrite moveFee_eq by done. lia.
  - destruct (IsFlagEnabledInEpoch GasPriceModifierFlag epoch) eqn:Fl.
    + rewrite txFee_eq, feeOnGasUsed_eq by done. nia.
    + unfold ComputeTxFeeInEpoch. rewrite Fl. destruct (IsFlagEnabledInEpoch PenalizedTooMuchGasFlag epoch).
      * rewrite SafeMul_ok by lia. lia.
      * rewrite moveFee_eq by done. nia.
  - destruct (IsFlagEnabledInEpoch GasPriceModifierFlag epoch) eqn:Fl; [by apply txFee_eq|].
    unfold ComputeTxFeeInEpoch. rewrite Fl. destruct (IsFlagEnabledInEpoch PenalizedTooMuchGasFlag epoch); [|done].
    rewrite SafeMul_ok by lia. done.
Qed.

Lemma bigDiv_pos x y : 0 < y -> bigDiv x y = Ok (x / y).
Proof. intros H. unfold bigDiv. rewrite (proj2 (Z.eqb_neq y 0)), (proj2 (Z.ltb_ge y 0)) by lia. done. Qed.

Lemma bigUint64_id x : 0 <= x < 2 ^ 64 -> bigUint64 x = x.
Proof. intros H. unfold bigUint64. rewrite Z.abs_eq by lia. by apply u64_id. Qed.

(** C18. The gas that a refund leaves: the fee is that of the transaction less
    the refund, and the gas is the most that this fee pays for; in particular
    a refund of what was not used gives back exactly the gas that was used. *)
Theorem gas_from_refund ed tx epoch refundValue (M : modifierOk ed) (T : pricedTx tx) (E : isSmartContractResult tx = false)
    (Fl : IsFlagEnabledInEpoch GasPriceModifierFlag epoch = true) (H : CheckValidityTxValuesInEpoch ed tx epoch = Ok ())
    (Pp : 0 < GasPriceForProcessingInEpoch ed tx epoch)
    (B : 0 < refundValue <= ComputeTxFeeInEpoch ed tx epoch - ComputeMoveBalanceFeeInEpoch ed tx epoch) :
  exists gasUsed,
    ComputeGasUsedAndFeeBasedOnRefundValueInEpoch ed tx refundValue epoch = Ok (gasUsed, ComputeTxFeeInEpoch ed tx epoch - refundValue) /\
    ComputeGasLimitInEpoch ed tx epoch <= gasUsed < tx_GasLimit tx /\
    ComputeTxFeeBasedOnGasUsedInEpoch ed tx gasUsed epoch <= ComputeTxFeeInEpoch ed tx epoch - refundValue
      < ComputeTxFeeBasedOnGasUsedInEpoch ed tx (gasUsed + 1) epoch /\
    (forall used, ComputeGasLimitInEpoch ed tx epoch <= used ->
       refundValue = ComputeTxFeeInEpoch ed tx epoch - ComputeTxFeeBasedOnGasUsedInEpoch ed tx used epoch -> gasUsed = used).
Proof.
  destruct (accepted_gas ed tx epoch H) as [_ L]. specialize (L E). pose proof (ComputeGasLimit_range ed tx epoch) as R.
  pose proof (pt_limit tx T) as Bl. unfold ComputeGasUsedAndFeeBasedOnRefundValueInEpoch. rewrite (proj2 (Z.eqb_neq refundValue 0)) by lia.
  rewrite Fl, andb_false_r, bigDiv_pos by done. rewrite txFee_eq, feeOnGasUsed_eq, moveFee_eq in * by done.
  setoid_rewrite (fun u => feeOnGasUsed_eq ed tx u epoch M T E).
  set (move := ComputeGasLimitInEpoch ed tx epoch) in *. set (price := GasPriceForProcessingInEpoch ed tx epoch) in *.
  set (p := tx_GasPrice tx) in *. set (limit := tx_GasLimit tx) in *. rewrite Z.max_r in * by lia.
  replace (p * move + price * (limit - move) - refundValue - p * move) with (price * (limit - move) - refundValue) by lia.
  set (q := (price * (limit - move) - refundValue) / price).
  assert (Q : price * q <= price * (limit - move) - refundValue < price * (q + 1)).
  { pose proof (Z.div_mod (price * (limit - move) - refundValue) price ltac:(lia)) as Dm. fold q in Dm.
    pose proof (Z.mod_pos_bound (price * (limit - move) - refundValue) price Pp). lia. }
  assert (Bq : 0 <= q < limit - move) by (split; [apply Z.div_pos; nia|nia]).
  exists (move + q). cbn [mbind result_bind]. rewrite bigUint64_id, u64_id by lia. rewrite !Z.max_r by lia.
  replace (move + q - move) with q by lia. replace (move + q + 1 - move) with (q + 1) by lia. split_and!; try lia; [done|].
  intros used Lu Er. rewrite Z.max_r in Er by lia. nia.
Qed.

(** C19. The gas limit that a balance allows: with less than the fee for moving
    the balance there is none; otherwise it is the largest amount of gas whose
    fee can be paid on top of the value. *)
Theorem gas_from_balance ed tx epoch balance (M : modifierOk ed) (T : pricedTx tx) (E : isSmartContractResult tx = false)
    (Fl : IsFlagEnabledInEpoch GasPriceModifierFlag epoch = true) (Pp : 0 < GasPriceForProcessingInEpoch ed tx epoch)
    (B : ComputeGasLimitInEpoch ed tx epoch + (balance - tx_Value tx) / GasPriceForProcessingInEpoch ed tx epoch < 2 ^ 64) :
  if (balance - tx_Value tx <? 1) || (balance - tx_Value tx <? ComputeMoveBalanceFeeInEpoch ed tx epoch)
  then ComputeGasLimitBasedOnBalanceInEpoch ed tx balance epoch = Err ErrInsufficientFunds
  else exists gasLimit, ComputeGasLimitBasedOnBalanceInEpoch ed tx balance epoch = Ok gasLimit /\
    ComputeGasLimitInEpoch ed tx epoch <= gasLimit /\
    tx_Value tx + ComputeTxFeeBasedOnGasUsedInEpoch ed tx gasLimit epoch <= balance
      < tx_Value tx + ComputeTxFeeBasedOnGasUsedInEpoch ed tx (gasLimit + 1) epoch.
Proof.
  pose proof (ComputeGasLimit_range ed tx epoch) as R. pose proof (pt_price tx T) as Bp. unfold ComputeGasLimitBasedOnBalanceInEpoch.
  destruct (balance - tx_Value tx <? 1) eqn:E1; [done|]. destruct (balance - tx_Value tx <? ComputeMoveBalanceFeeInEpoch ed tx epoch) eqn:E2; [done|].
  apply Z.ltb_ge in E2. cbn [orb check mbind result_bind]. rewrite Fl. cbn [negb]. rewrite bigDiv_pos by done. cbn [mbind result_bind].
  setoid_rewrite (fun u => feeOnGasUsed_eq ed tx u epoch M T E). rewrite moveFee_eq in * by done.
  set (move := ComputeGasLimitInEpoch ed tx epoch) in *. set (price := GasPriceForProcessingInEpoch ed tx epoch) in *.
  set (p := tx_GasPrice tx) in *. set (rest := balance - tx_Value tx - p * move). set (q := rest / price).
  assert (Q : price * q <= rest < price * (q + 1)).
  { pose proof (Z.div_mod rest price ltac:(lia)) as Dm. fold q in Dm. pose proof (Z.mod_pos_bound rest price Pp). lia. }
  assert (Bq : 0 <= q <= (balance - tx_Value tx) / price) by (split; [apply Z.div_pos; lia|apply Z.div_le_mono; unfold rest; nia]).
  exists (move + q). rewrite bigUint64_id, u64_id by lia. rewrite !Z.max_r by lia. split; [done|].
  replace (move + q - move) with q by lia. replace (move + q + 1 - move) with (q + 1) by lia. unfold rest in Q. lia.
Qed.
End Fees.

(** The price for processing is zero when the product of price and modifier is
    below one; a refund then divides by zero. *)
Lemma cheap_gas_divides_by_zero {EE : EconomicsEnv} {CM : CoreMath} ed tx refundValue epoch : refundValue <> 0 ->
  GasPriceForProcessingInEpoch ed tx epoch = 0 ->
  ComputeGasUsedAndFeeBasedOnRefundValueInEpoch ed tx refundValue epoch = Err DivisionByZero.
Proof.
  intros N E. unfold ComputeGasUsedAndFeeBasedOnRefundValueInEpoch. rewrite (proj2 (Z.eqb_neq refundValue 0)) by done. by rewrite E.
Qed.

(** ** A concrete configuration *)

#[local] Open Scope string_scope.

Definition ex_modifier : spec_float := S754_finite false 5764607523034235 (-59).
Definition ex_settings (epoch : Z) (minGasLimit maxPerTx : string) : GasLimitSetting :=
  {| gls_EnableEpoch := epoch; cfg_MaxGasLimitPerBlock := "1500000000"; cfg_MaxGasLimitPerMiniBlock := "250000000";
     cfg_MaxGasLimitPerMetaBlock := "15000000000"; cfg_MaxGasLimitPerMetaMiniBlock := "250000000";
     cfg_MaxGasLimitPerTx := maxPerTx; cfg_MinGasLimit := minGasLimit; cfg_ExtraGasLimitGuardedTx := "50000";
     cfg_MaxGasHigherFactorAccepted := "10" |}.
Definition ex_half : spec_float := S754_finite false 4503599627370496 (-53).
Definition ex_tenth : spec_float := S754_finite false 7205759403792794 (-56).
Definition ex_rewards (epoch : Z) (topUp : string) : EpochRewardSettings :=
  {| cfg_LeaderPercentage := ex_tenth; cfg_DeveloperPercentage := ex_half; cfg_ProtocolSustainabilityPercentage := ex_tenth;
     cfg_ProtocolSustainabilityAddress := "a"; cfg_EcosystemGrowthPercentage := ex_tenth; cfg_EcosystemGrowthAddress := "b";
     cfg_GrowthDividendPercentage := ex_tenth; cfg_GrowthDividendAddress := "c"; cfg_TopUpGradientPoint := topUp;
     cfg_TopUpFactor := ex_half; EpochEnable := epoch |}.
Definition ex_economics (minGasPrice : string) (modifier : spec_float) : EconomicsConfig :=
  {| cfg_GlobalSettings :=
       {| GenesisTotalSupply := "20000000000000000000000000"; MinimumInflation := S754_zero false;
          YearSettings := [{| Year := 1; MaximumInflation := ex_tenth |}];
          TailInflation := {| tail_EnableEpoch := 100; StartYearInflation := S754_zero false; DecayPercentage := S754_zero false |} |};
     RewardsConfigByEpoch := [ex_rewards 5 "3000"; ex_rewards 0 "2000"];
     cfg_FeeSettings :=
       {| GasLimitSettings := [ex_settings 4 "50000" "600000000"; ex_settings 0 "50000" "1500000000"];
          cfg_GasPerDataByte := "1500"; cfg_MinGasPrice := minGasPrice; cfg_GasPriceModifier := modifier;
          cfg_MaxGasPriceSetGuardian := "2000000000"; cfg_BlockCapacityOverestimationFactor := 200 |} |}.
Definition ex_chainParameters : ChainParametersByEpochConfig :=
  {| RoundDuration := 6000; RoundsPerEpoch := 14400; MinRoundsBetweenEpochs := 20; Hysteresis := S754_zero false;
     EnableEpoch := 0; ShardConsensusGroupSize := 1; ShardMinNumNodes := 1; MetachainConsensusGroupSize := 1;
     MetachainMinNumNodes := 1; Adaptivity := false; Offset := 0 |}.

#[local] Close Scope string_scope.

#[local] Instance exSortSlice : SortSlice := fun A less l =>
  List.fold_right (fix insert (x : A) (l : list A) : list A :=
    match l with [] => [x] | y :: l => if less y x then y :: insert x l else x :: y :: l end) [] l.
#[local] Instance exAddresses : AddressEnv := {| Decode s := Some (go_bytes s); inMetachain _ := false |}.
#[local] Instance exPow : MathPow := fun x _ => x.
#[local] Instance exEconomics : EconomicsEnv :=
  {| IsFlagEnabledInEpoch _ _ := true; GetCurrentEpoch := 7; IsGuardedTransaction _ := false; undefined64 _ := 0 |}.
#[local] Instance exCoreMath : CoreMath :=
  {| SafeMul := Z.mul; SafeSubUint64 a b := if a <? b then (0, false) else (a - b, true); MinUint64 := Z.min |}.
#[local] Instance exCoreMath_ok : CoreMathOk exCoreMath.
Proof. constructor; cbn; [done|]. intros a b H. by rewrite (proj2 (Z.ltb_ge a b)) by lia. Qed.

Definition ex_ed : economicsData :=
  match NewEconomicsData (ex_economics "1000000000" ex_modifier) [ex_chainParameters] with
  | Ok ed => ed
  | Err _ => {| ed_gasConfig := {| gasLimitSettings := []; minGasPrice := 0; gasPerDataByte := 0; genesisTotalSupply := 0;
                  maxGasPriceSetGuardian := 0; blockCapacityOverestimationFactor := 0 |}; ed_rewardsConfig := [];
                ed_globalSettings := {| minInflation := S754_zero false; yearSettings := ∅; tailInflationActivationEpoch := 0;
                  startYearInflation := S754_zero false; inflationForEpoch := []; decayPercentage := S754_zero false |};
                gasPriceModifier := S754_zero false |}
  end.
Definition ex_tx : TransactionWithFee :=
  {| tx_type := typeTransaction; tx_GasPrice := 1000000000; tx_GasLimit := 600000; tx_Data := [1; 2]; tx_Value := 5;
     RelayerAddr := []; RelayerSignature := [] |}.

Lemma exSortSlice_ok : SortSliceOk exSortSlice.
Proof.
  constructor.
  - intros A less l. induction l as [|x l IH]; [done|]. unfold sort_Slice, exSortSlice in *. cbn [List.fold_right].
    etrans; [|by apply (Permutation_skip x), IH]. generalize (List.fold_right
      (fix insert (x : A) (l : list A) : list A := match l with [] => [x] | y :: l0 => if less y x then y :: insert x l0 else x :: y :: l0 end) [] l).
    intros s. induction s as [|y s IHs]; [done|]. destruct (less y x); [|done]. rewrite IHs. constructor.
  - intros A key l. induction l as [|x l IH]; [constructor|]. unfold sort_Slice, exSortSlice in *. cbn [List.fold_right].
    revert IH. generalize (List.fold_right (fix insert (x : A) (l : list A) : list A :=
      match l with [] => [x] | y :: l0 => if key y <? key x then y :: insert x l0 else x :: y :: l0 end) [] l).
    intros s S. induction S as [|y s S IH H]; [repeat constructor|]. destruct (Z.ltb_spec (key y) (key x)) as [L|L].
    + constructor; [done|]. destruct H as [|z s H]; [constructor; lia|]. destruct (Z.ltb_spec (key z) (key x)); constructor; lia.
    + constructor; [by constructor|constructor; lia].
Qed.

Lemma ex_ed_new : NewEconomicsData (ex_economics "1000000000" ex_modifier) [ex_chainParameters] = Ok ex_ed.
Proof. by vm_compute. Qed.

(** The modifier of a configuration that was accepted is a share, unless it is
    not a number. *)
Lemma NewEconomicsData_modifier {SO : SortSlice} {AE : AddressEnv} {MP : MathPow} economics allChainParams ed :
  NewEconomicsData economics allChainParams = Ok ed ->
  valid_binary 53 1024 (cfg_GasPriceModifier (cfg_FeeSettings economics)) = true ->
  cfg_GasPriceModifier (cfg_FeeSettings economics) <> S754_nan -> modifierOk ed.
Proof.
  intros H V N. destruct (NewEconomicsData_parts _ _ _ H) as (Eg & _ & Em).
  destruct (newGasConfigHandler_parts _ _ Eg) as (_ & _ & _ & S & P & _). constructor; rewrite Em; try done. by apply above_epsilon.
Qed.

(** What is not a number passes the checks of the configuration, and a minimal
    price whose product with the modifier is below one makes refunds panic. *)
Lemma nan_modifier_is_accepted :
  is_Ok (NewEconomicsData (ex_economics "1000000000" S754_nan) [ex_chainParameters]) = true.
Proof. by vm_compute. Qed.
Lemma cheap_configuration_is_accepted :
  match NewEconomicsData (ex_economics "10" ex_modifier) [ex_chainParameters] with
  | Ok ed =>
      let tx := {| tx_type := typeTransaction; tx_GasPrice := 10; tx_GasLimit := 600000; tx_Data := []; tx_Value := 0;
                   RelayerAddr := []; RelayerSignature := [] |} in
      CheckValidityTxValuesInEpoch ed tx 7 = Ok () /\
      ComputeGasUsedAndFeeBasedOnRefundValueInEpoch ed tx 1 7 = Err DivisionByZero
  | Err _ => False
  end.
Proof. by vm_compute. Qed.

(** ** Witnesses *)

Lemma ex_modifierOk : modifierOk ex_ed.
Proof. apply (NewEconomicsData_modifier _ _ _ ex_ed_new); by vm_compute. Qed.

Lemma ex_pricedTx : pricedTx ex_tx.
Proof. constructor; cbn; lia. Qed.

Lemma ex_accepted : CheckValidityTxValuesInEpoch ex_ed ex_tx 7 = Ok ().
Proof. by vm_compute. Qed.

Lemma ex_price : GasPriceForProcessingInEpoch ex_ed ex_tx 7 = 10000000.
Proof. by vm_compute. Qed.

Lemma settings_in_force_witness : exists s c,
  inForce gls_EnableEpoch (GasLimitSettings (cfg_FeeSettings (ex_economics "1000000000" ex_modifier))) 7 s /\
  inForce EpochEnable (RewardsConfigByEpoch (ex_economics "1000000000" ex_modifier)) (7 - 1) c /\
  maxGasLimitPerTx (getGasConfigForEpoch 7 (ed_gasConfig ex_ed)) = 600000000 /\
  topUpGradientPoint (getRewardsConfigForEpoch 7 (ed_rewardsConfig ex_ed)) = 3000.
Proof.
  destruct (@settings_in_force exSortSlice exSortSlice_ok _ _ _ _ _ 7 ex_ed_new) as ((s & Is & _) & (c & Ic & _)).
  - exists (ex_settings 4 "50000" "600000000"). split; [apply list_elem_of_here|cbn; lia].
  - exists (ex_rewards 5 "3000"). split; [apply list_elem_of_here|cbn; lia].
  - exists s, c. split; [done|]. split; [done|]. by vm_compute.
Defined.

Lemma fees_add_up_witness :
  ComputeMoveBalanceFeeInEpoch ex_ed ex_tx 7 = 53000 * 1000000000 /\
  ComputeTxFeeInEpoch ex_ed ex_tx 7 = 53000 * 1000000000 + 547000 * 10000000 /\
  ComputeMoveBalanceFeeInEpoch ex_ed ex_tx 7 <= ComputeTxFeeInEpoch ex_ed ex_tx 7 <= tx_GasLimit ex_tx * tx_GasPrice ex_tx.
Proof.
  split; [by vm_compute|]. split; [by vm_compute|].
  exact (proj1 (fees_add_up (EE := exEconomics) ex_ed ex_tx 7 ex_modifierOk ex_pricedTx eq_refl ex_accepted)).
Defined.

Lemma gas_from_refund_witness : exists gasUsed,
  ComputeGasUsedAndFeeBasedOnRefundValueInEpoch ex_ed ex_tx (100000 * 10000000) 7 =
    Ok (gasUsed, ComputeTxFeeInEpoch ex_ed ex_tx 7 - 100000 * 10000000) /\ gasUsed = 500000.
Proof.
  destruct (gas_from_refund (EE := exEconomics) ex_ed ex_tx 7 (100000 * 10000000) ex_modifierOk ex_pricedTx eq_refl eq_refl ex_accepted
    ltac:(rewrite ex_price; lia) ltac:(by vm_compute)) as (g & E & _ & _ & U).
  exists g. split; [exact E|]. apply U; by vm_compute.
Defined.

Lemma gas_from_balance_witness : exists gasLimit,
  ComputeGasLimitBasedOnBalanceInEpoch ex_ed ex_tx 60000000000000 7 = Ok gasLimit /\
  tx_Value ex_tx + ComputeTxFeeBasedOnGasUsedInEpoch ex_ed ex_tx gasLimit 7 <= 60000000000000.
Proof.
  pose proof (gas_from_balance (EE := exEconomics) ex_ed ex_tx 7 60000000000000 ex_modifierOk ex_pricedTx eq_refl eq_refl
    ltac:(rewrite ex_price; lia) ltac:(by vm_compute)) as H.
  replace ((60000000000000 - tx_Value ex_tx <? 1) || (60000000000000 - tx_Value ex_tx <? ComputeMoveBalanceFeeInEpoch ex_ed ex_tx 7))
    with false in H by (by vm_compute).
  destruct H as (g & E & _ & L & _). exists g. by split.
Defined.
