(* ===== verification/StateTrie.v ===== *)
(** * The tries that the state uses

    What the account storage relies on of a trie, as a type class, and that
    the patricia merkle trie provides it over any storage. *)

From Stdlib Require Import ZArith Lia.
From stdpp Require Import base gmap list.
From S2P Require Import Prelude KeyBuilder TrieNode TrieSpec TrieRefinement PatriciaTrie PatriciaSpec.

(** The methods of state.DataTrie (interface.go) that read and change entries. *)
Class DataTrie (T : Type) := {
  GetWithVersion : bytes -> SE T trie_error (option bytes * Z * Z);
  UpdateWithVersion : bytes -> bytes -> Z -> SE T trie_error ();
  Delete : bytes -> SE T trie_error ();
  RootHash : SE T trie_error bytes;
}.

(** [Holds t m]: the trie [t] holds the map [m] of values with versions;
    [HashedAs m h]: the root hash of a trie that holds [m] is [h]. *)
Class DataTrieOk (T : Type) {DT : DataTrie T} := {
  Holds : T -> contents -> Prop;
  Holds_entry : forall t m k v version, Holds t m -> m !! k = Some (v, version) -> v <> [] /\ 0 <= version < 256;
  GetWithVersion_ok : forall t m key, Holds t m -> is_key key ->
    exists t' depth, GetWithVersion key t =
      (t', Ok (fst <$> m !! key, depth, default 0 (snd <$> m !! key))) /\ Holds t' m;
  UpdateWithVersion_ok : forall t m key value version, Holds t m -> is_key key -> 0 <= version < 256 ->
    exists t', UpdateWithVersion key value version t = (t', Ok ()) /\ Holds t' (change key value version m);
  Delete_ok : forall t m key, Holds t m -> is_key key ->
    exists t', Delete key t = (t', Ok ()) /\ Holds t' (base.delete key m);
  HashedAs : contents -> bytes -> Prop;
  RootHash_ok : forall t m, Holds t m -> exists t' h, RootHash t = (t', Ok h) /\ Holds t' m /\ HashedAs m h;
  HashedAs_fun : forall m h h', HashedAs m h -> HashedAs m h' -> h = h';
}.

(** Every entry of a well-formed trie has a value and a version of a byte. *)
Lemma wf_entry b p k e : wf b p -> keyok b k -> plookup p k = Some e -> entry_ok (fst e) (snd e).
Proof.
  revert b k. induction p as [k' v ver|k' t IH|ts IH] using ptrie_rect'; intros b k Hw Hk E.
  - apply wf_leaf_inv in Hw as [_ Hv]. cbn in E. case_bool_decide; [|done]. by injection E as <-.
  - apply wf_ext_inv in Hw as (-> & _ & Hkn & _ & Hw).
    destruct (decide (k' `prefix_of` k)) as [P|NP]; [|by rewrite plookup_ext_other in E].
    destruct (ext_key_rest _ _ Hkn Hk P) as (r & -> & Hr). rewrite plookup_ext_app in E. eauto.
  - apply wf_branch_inv in Hw as (-> & L & Hc & _).
    destruct (keyok_false_cons _ Hk) as (x & k' & -> & Hx & Hk').
    rewrite plookup_branch in E. destruct (slot ts x) as [t|] eqn:S; [|done]. eapply IH; eauto.
Qed.

Section Instance.
Context {X : TrieExternals} {XOk : TrieExternalsOk X} {HOk : HasherOk X}.
Context {DB : Type} {ST : TrieStorage DB} .

#[export] Instance patriciaDataTrie (db : DB) : DataTrie patriciaMerkleTrie := {
  GetWithVersion key := se_mapErr snd (PatriciaTrie.GetWithVersion db key);
  UpdateWithVersion key value version := PatriciaTrie.UpdateWithVersion db key value version;
  Delete key := PatriciaTrie.Delete db key;
  RootHash := PatriciaTrie.RootHash;
}.

Lemma TrieRep_entry db tr m k v version : TrieRep db tr m -> m !! k = Some (v, version) ->
  v <> [] /\ 0 <= version < 256.
Proof.
  unfold TrieRep. destruct (root tr) as [n|]; [|by intros ->]. intros (p & Hw & _ & Hm) E.
  assert (K : is_key k) by (eapply holds_keys; eauto). rewrite <- (holds_lookup _ _ Hm k K) in E.
  change (entry_ok v version). apply (wf_entry false p (keyBytesToHex k) (v, version)); [done| |done].
  by apply keyBytesToHex_hexkey.
Qed.

#[export] Instance patriciaDataTrie_ok (db : DB) : DataTrieOk patriciaMerkleTrie (DT := patriciaDataTrie db).
Proof.
  refine {| Holds := TrieRep db; HashedAs := root_of |}.
  - intros t m k v version. apply TrieRep_entry.
  - intros t m key H K. destruct (GetWithVersion_rep db t m key H K) as (t' & depth & E & H').
    exists t', depth. split; [|done]. unfold GetWithVersion, patriciaDataTrie, se_mapErr. by rewrite E.
  - intros t m key value version H K V. unfold change, UpdateWithVersion, patriciaDataTrie.
    unfold PatriciaTrie.UpdateWithVersion. case_decide as D.
    + subst. unfold update. cbn [length Nat.eqb negb]. by apply delete_rep.
    + by apply update_rep.
  - intros t m key H K. by apply delete_rep.
  - intros t m H. destruct (RootHash_rep db t m H) as (t' & h & E & H' & R & _). by exists t', h.
  - intros m h h' R R'. by apply (root_of_fun m).
Defined.
End Instance.
