(* ===== verification/TrackableDataTrie.v ===== *)
(** * The storage of an account (state/trackableDataTrie/trackableDataTrie.go)

    Writes are kept as dirty data and go to the data trie together.  A leaf is
    stored under its key with the address appended to the value (the version
    not specified) or under the hash of its key with key and address in the
    value (the auto balanced version); a write moves a leaf from the first form
    to the second.  The records that are collected of every access are left
    out, but for the list of changes that [SaveDirtyData] returns. *)

From Stdlib Require Import ZArith Lia.
From stdpp Require Import base gmap list sorting.
From S2P Require Import Prelude TrieNode PatriciaSpec StateTrie Validators GoCollections.

Inductive state_error :=
| ErrNilTrie
| ErrInvalidDataTrieLeaf
| ErrLeafSizeTooBig
| ErrIndexOutOfRange
| ErrMarshal
| ErrNilAddress
| ErrNilAccountHandler
| ErrInvalidAddressLength
| ErrAccNotFound
| ErrAccountAddressIsReserved
| ErrSnapshotValueOutOfBounds
| ErrNilOrEmptyDataTrieUpdates
| ErrInvalidRootHash
| ErrInsufficientFunds
| ErrOperationNotPermitted
| ErrInvalidKey
| ErrInvalidIdentifier
| ErrTrie (err : trie_error).

(** dataTrieValue.TrieLeafData *)
Record TrieLeafData := {
  tld_Value : bytes;
  tld_Key : bytes;
  tld_Address : bytes;
}.

Record dirtyData := {
  dd_index : Z;
  dd_value : bytes;
  dd_newVersion : Z;
}.

(** The trie is in the state of the methods that use it: an option, since an
    account may have none, or the trie itself where it is not nil. *)
Record trackableDataTrie := {
  dirty : gmap bytes dirtyData;
  identifier : bytes;
}.

Inductive dataTrieOperation := NotSpecifiedOperation | DeleteOperation.

(** stateChange.DataTrieChange, always a write *)
Record DataTrieChange := {
  dtc_Key : bytes;
  dtc_Val : bytes;
  dtc_Version : Z;
  dtc_Operation : dataTrieOperation;
}.

(** Hasher, marshalizer and the core package; the activation flags of the
    current epoch.  [versionForNewData] is core.GetVersionForNewData. *)
Class TrackableEnv := {
  AutoBalanceEnabled : Z;
  VersionNotSpecified : Z;
  MaxLeafSize : Z;
  versionForNewData : Z;
  AutoBalanceDataTriesFlag : bool;
  FixDataTrieLeafValidationFlag : bool;
  leaf_Compute : bytes -> bytes;
  MarshalLeaf : TrieLeafData -> result state_error bytes;
  UnmarshalLeaf : bytes -> result state_error TrieLeafData;
}.

Section Trackable.
Context {TE : TrackableEnv} {KR : KeyRange} {T : Type} {DT : DataTrie T}.

Definition onTrie {A} (m : SE T trie_error A) : SE T state_error A := se_mapErr ErrTrie m.

Definition getIndexForKey (key : bytes) (tdt : trackableDataTrie) : Z :=
  match dirty tdt !! key with
  | Some existingVal => dd_index existingVal
  | None => Z.of_nat (size (dirty tdt))
  end.

Definition setDirty (key : bytes) (dataEntry : dirtyData) (tdt : trackableDataTrie) : trackableDataTrie :=
  {| dirty := <[key := dataEntry]> (dirty tdt); identifier := identifier tdt |}.

Definition SaveKeyValue (key value : bytes) (tdt : trackableDataTrie) : result state_error trackableDataTrie :=
  if MaxLeafSize <? Z.of_nat (length value) then Err ErrLeafSizeTooBig
  else Ok (setDirty key {| dd_index := getIndexForKey key tdt; dd_value := value;
                           dd_newVersion := versionForNewData |} tdt).

Definition getKeyForVersion (key : bytes) (version : Z) : bytes :=
  if version =? AutoBalanceEnabled then leaf_Compute key else key.

Definition getValueForVersion (key value : bytes) (version : Z) (tdt : trackableDataTrie) : result state_error bytes :=
  if (length value =? 0)%nat then Ok []
  else if version =? AutoBalanceEnabled
       then MarshalLeaf {| tld_Value := value; tld_Key := key; tld_Address := identifier tdt |}
       else Ok (value ++ key ++ identifier tdt).

Definition getOriginalKeyFromTrieData (trieData : TrieData) : result state_error bytes :=
  if td_Version trieData =? AutoBalanceEnabled
  then valWithMetadata ← UnmarshalLeaf (default [] (td_Value trieData)); Ok (tld_Key valWithMetadata)
  else Ok (td_Key trieData).

Definition getValueAutoBalanceVersion (key val : bytes) (tdt : trackableDataTrie) : result state_error bytes :=
  dataTrieVal ← UnmarshalLeaf val;
  let validBinding := bool_decide (tld_Key dataTrieVal = key) && bool_decide (tld_Address dataTrieVal = identifier tdt) in
  if negb validBinding && FixDataTrieLeafValidationFlag then Err ErrInvalidDataTrieLeaf
  else Ok (tld_Value dataTrieVal).

(** common.TrimSuffixFromValue, nil for a value that is too short *)
Definition TrimSuffixFromValue (value : bytes) (suffixLength : nat) : bytes :=
  if (length value <? suffixLength)%nat then [] else take (length value - suffixLength) value.

Definition getValueNotSpecifiedVersion (key val : bytes) (tdt : trackableDataTrie) : bytes :=
  TrimSuffixFromValue val (length key + length (identifier tdt)).

(** The value of a leaf: [None] is the nil slice. *)
Definition valueOf (d : TrieData) : bytes := default [] (td_Value d).

Definition getValueWithoutMetadata (key : bytes) (trieData : TrieData) (tdt : trackableDataTrie)
    : result state_error bytes :=
  if (length (valueOf trieData) =? 0)%nat then Ok []
  else if td_Version trieData =? AutoBalanceEnabled
       then getValueAutoBalanceVersion key (valueOf trieData) tdt
       else Ok (getValueNotSpecifiedVersion key (valueOf trieData) tdt).

Definition newTrieData (key : bytes) (value : option bytes) (version : Z) : TrieData :=
  {| td_Key := key; td_Value := value; td_Version := version |}.

(** The second half: the leaf under the key itself. *)
Definition retrieveRaw (key : bytes) (legacyAtHashedKey : bool) : SE T state_error (TrieData * Z) :=
  '(valWithMetadata, depth, version) ← onTrie (GetWithVersion key);
  let versionMismatch := negb (length (default [] valWithMetadata) =? 0)%nat && negb (version =? VersionNotSpecified) in
  let validateVersion := versionMismatch && FixDataTrieLeafValidationFlag in
  if negb (length (default [] valWithMetadata) =? 0)%nat then
    if validateVersion then se_lift (Err ErrInvalidDataTrieLeaf)
    else mret (newTrieData key valWithMetadata VersionNotSpecified, depth)
  else if legacyAtHashedKey then mret (newTrieData key None VersionNotSpecified, depth)
  else mret (newTrieData (getKeyForVersion key versionForNewData) None versionForNewData, depth).

Definition retrieveValueFromTrie (key : bytes) (writesHashedKey : bool) : SE T state_error (TrieData * Z) :=
  if AutoBalanceDataTriesFlag then
    let hashedKey := leaf_Compute key in
    '(valWithMetadata, depth, version) ← onTrie (GetWithVersion hashedKey);
    let versionMismatch := negb (length (default [] valWithMetadata) =? 0)%nat && negb (version =? AutoBalanceEnabled) in
    let validateVersion := versionMismatch && FixDataTrieLeafValidationFlag in
    if negb (length (default [] valWithMetadata) =? 0)%nat then
      if validateVersion then
        if negb (version =? VersionNotSpecified) || writesHashedKey then se_lift (Err ErrInvalidDataTrieLeaf)
        else retrieveRaw key true
      else mret (newTrieData hashedKey valWithMetadata AutoBalanceEnabled, depth)
    else retrieveRaw key false
  else retrieveRaw key false.

(** [if check.IfNil(tdt.tr) { return state.ErrNilTrie }] *)
Definition onDataTrie {A} (m : SE T state_error A) : SE (option T) state_error A := fun tr =>
  match tr with
  | Some t => let '(t', r) := m t in (Some t', r)
  | None => (None, Err ErrNilTrie)
  end.

Definition RetrieveValue (key : bytes) (tdt : trackableDataTrie) : SE (option T) state_error (bytes * Z) :=
  match dirty tdt !! key with
  | Some dataEntry => mret (dd_value dataEntry, 0)
  | None => onDataTrie (
      '(trieValue, depth) ← retrieveValueFromTrie key false;
      val ← se_lift (getValueWithoutMetadata key trieValue tdt);
      mret (val, depth))
  end.

(** ** Saving *)

Definition deleteOldEntryIfMigrated (key : bytes) (newData : dirtyData) (oldEntry : TrieData)
    : SE T state_error bool :=
  if negb AutoBalanceDataTriesFlag then mret false
  else
    let isMigration := (td_Version oldEntry =? VersionNotSpecified) && (dd_newVersion newData =? AutoBalanceEnabled) in
    if isMigration && negb (length (dd_value newData) =? 0)%nat
    then _ ← onTrie (Delete key); mret true
    else mret false.

(** The key that was deleted, empty for none. *)
Definition deleteFromTrie (oldVal : TrieData) (key : bytes) : SE T state_error bytes :=
  if (length (valueOf oldVal) =? 0)%nat then mret []
  else if td_Version oldVal =? AutoBalanceEnabled
       then let keyForTrie := leaf_Compute key in _ ← onTrie (Delete keyForTrie); mret keyForTrie
       else if td_Version oldVal =? VersionNotSpecified
            then _ ← onTrie (Delete key); mret key
            else mret [].

Definition modifyTrie (key : bytes) (dataEntry : dirtyData) (oldVal : TrieData) (tdt : trackableDataTrie)
    : SE T state_error bytes :=
  let version := dd_newVersion dataEntry in
  let newKey := getKeyForVersion key version in
  if (length (dd_value dataEntry) =? 0)%nat then deleteFromTrie oldVal key
  else
    value ← se_lift (getValueForVersion key (dd_value dataEntry) version tdt);
    _ ← onTrie (UpdateWithVersion newKey value version);
    mret newKey.

(** Errors of single updates are logged. *)
Definition applyUpdate (t : T) (trieUpdate : TrieData) : T :=
  fst (UpdateWithVersion (td_Key trieUpdate) (valueOf trieUpdate) (td_Version trieUpdate) t).
Definition rollbackAppliedUpdates (oldValues : list TrieData) (t : T) : T :=
  fold_left applyUpdate (List.rev oldValues) t.

(** [if err != nil { rollback; return err }] *)
Definition orRollback {A} (trieUpdates : list TrieData) (m : SE T state_error A) : SE T state_error A := fun t =>
  match m t with
  | (t', Err e) => (rollbackAppliedUpdates trieUpdates t', Err e)
  | r => r
  end.

(** The variables of the loop of [updateTrie]; the slice [oldValues] has the
    values of the keys visited, then those that were appended. *)
Record updateLoop := {
  ul_oldValues : list TrieData;
  ul_appended : list TrieData;
  ul_newData : list (option DataTrieChange);
  ul_deletedKeys : list DataTrieChange;
  ul_trieUpdates : list TrieData;
}.

Definition deletedChange (key : bytes) (oldVal : TrieData) (tdt : trackableDataTrie) : DataTrieChange :=
  {| dtc_Key := key; dtc_Val := getValueNotSpecifiedVersion key (valueOf oldVal) tdt; dtc_Version := 0;
     dtc_Operation := DeleteOperation |}.

(** The change that is reported of a key. *)
Definition newChange (key : bytes) (dataEntry : dirtyData) (oldVal : TrieData) (tdt : trackableDataTrie)
    : result state_error DataTrieChange :=
  if (length (dd_value dataEntry) =? 0)%nat then
    val ← getValueWithoutMetadata key oldVal tdt;
    Ok {| dtc_Key := key; dtc_Val := val; dtc_Version := td_Version oldVal; dtc_Operation := DeleteOperation |}
  else Ok {| dtc_Key := key; dtc_Val := dd_value dataEntry; dtc_Version := dd_newVersion dataEntry;
             dtc_Operation := NotSpecifiedOperation |}.

(** What is appended to [trieUpdates] and [oldValues] after a key was written. *)
Definition journalKey (wasDeleted isFirstMigration : bool) (dataTrieKey : bytes) (oldVal : TrieData)
    : list TrieData * list TrieData :=
  if (length dataTrieKey =? 0)%nat then ([], [])
  else
    let old := if wasDeleted then [] else [oldVal] in
    if isFirstMigration
    then (old ++ [newTrieData dataTrieKey None 0], [newTrieData dataTrieKey None 0])
    else (old, []).

(** A leaf that cannot be decoded stops the update. *)
Definition checkBinding (key : bytes) (oldVal : TrieData) (tdt : trackableDataTrie) : result state_error () :=
  match getValueAutoBalanceVersion key (valueOf oldVal) tdt with
  | Err decodeErr => if FixDataTrieLeafValidationFlag then Err decodeErr else Ok ()
  | Ok _ => Ok ()
  end.

(** The end of a round of the loop: [trieUpdates] and [deletedKeys] are those
    before [modifyTrie], which returned [dataTrieKey]. *)
Definition recordKey (key : bytes) (dataEntry : dirtyData) (tdt : trackableDataTrie) (oldVal : TrieData)
    (wasDeleted : bool) (trieUpdates : list TrieData) (deletedKeys : list DataTrieChange) (dataTrieKey : bytes)
    (l : updateLoop) : SE T state_error updateLoop :=
  let isFirstMigration :=
    (td_Version oldVal =? VersionNotSpecified) && (dd_newVersion dataEntry =? AutoBalanceEnabled) in
  let '(updates, appended) := journalKey wasDeleted isFirstMigration dataTrieKey oldVal in
  let trieUpdates := trieUpdates ++ updates in
  let l := {| ul_oldValues := ul_oldValues l ++ [oldVal]; ul_appended := ul_appended l ++ appended;
              ul_newData := ul_newData l; ul_deletedKeys := deletedKeys; ul_trieUpdates := trieUpdates |} in
  if (length dataTrieKey =? 0)%nat then mret l
  else
    _ ← orRollback trieUpdates
          (se_guard (Z.of_nat (length (ul_newData l)) - 1 <? dd_index dataEntry) ErrIndexOutOfRange);
    change ← orRollback trieUpdates (se_lift (newChange key dataEntry oldVal tdt));
    mret {| ul_oldValues := ul_oldValues l; ul_appended := ul_appended l;
            ul_newData := <[Z.to_nat (dd_index dataEntry) := Some change]> (ul_newData l);
            ul_deletedKeys := ul_deletedKeys l; ul_trieUpdates := ul_trieUpdates l |}.

(** One round of the loop. *)
Definition updateKey (key : bytes) (dataEntry : dirtyData) (tdt : trackableDataTrie) (l : updateLoop)
    : SE T state_error updateLoop :=
  let writesHashedKey := negb (length (dd_value dataEntry) =? 0)%nat && (dd_newVersion dataEntry =? AutoBalanceEnabled) in
  '(oldVal, _) ← orRollback (ul_trieUpdates l) (retrieveValueFromTrie key writesHashedKey);
  _ ← orRollback (ul_trieUpdates l)
        (se_lift (if (td_Version oldVal =? AutoBalanceEnabled) && negb (length (valueOf oldVal) =? 0)%nat
                  then checkBinding key oldVal tdt else Ok ()));
  wasDeleted ← orRollback (ul_trieUpdates l) (deleteOldEntryIfMigrated key dataEntry oldVal);
  let trieUpdates := if (wasDeleted : bool) then ul_trieUpdates l ++ [oldVal] else ul_trieUpdates l in
  let deletedKeys := if wasDeleted then ul_deletedKeys l ++ [deletedChange key oldVal tdt] else ul_deletedKeys l in
  dataTrieKey ← orRollback trieUpdates (modifyTrie key dataEntry oldVal tdt);
  recordKey key dataEntry tdt oldVal wasDeleted trieUpdates deletedKeys dataTrieKey l.

Fixpoint updateTrie_loop (keys : list bytes) (tdt : trackableDataTrie) (l : updateLoop) : SE T state_error updateLoop :=
  match keys with
  | [] => mret l
  | key :: keys =>
      let dataEntry := default {| dd_index := 0; dd_value := []; dd_newVersion := 0 |} (dirty tdt !! key) in
      l ← updateKey key dataEntry tdt l;
      updateTrie_loop keys tdt l
  end.

(** The keys in the order in which they are written. *)
Definition dirtyKeys (tdt : trackableDataTrie) : list bytes :=
  let keys := rangeKeys (dom (dirty tdt)) in
  if (1 <? length keys)%nat && FixDataTrieLeafValidationFlag then sort_Strings keys else keys.

Definition changeKeyLe (a b : DataTrieChange) : Prop := bytes_le (dtc_Key a) (dtc_Key b).
#[export] Instance changeKeyLe_dec a b : Decision (changeKeyLe a b).
Proof. unfold changeKeyLe. apply _. Defined.

(** The changes, the old values, and the storage without dirty data. *)
Definition updateTrie (tdt : trackableDataTrie)
    : SE T state_error (list DataTrieChange * list TrieData * trackableDataTrie) :=
  l ← updateTrie_loop (dirtyKeys tdt) tdt
        {| ul_oldValues := []; ul_appended := []; ul_newData := replicate (size (dirty tdt)) None;
           ul_deletedKeys := []; ul_trieUpdates := [] |};
  let stateChanges := List.filter (fun c => negb (length (dtc_Key c) =? 0)%nat) (omap id (ul_newData l)) in
  mret (stateChanges ++ merge_sort changeKeyLe (ul_deletedKeys l), ul_oldValues l ++ ul_appended l,
        {| dirty := ∅; identifier := identifier tdt |}).

(** [Recreate] is that of the main trie. *)
Definition SaveDirtyData (Recreate : bytes -> result trie_error T) (tdt : trackableDataTrie)
    : SE (option T) state_error (list DataTrieChange * list TrieData * trackableDataTrie) := fun tr =>
  if (size (dirty tdt) =? 0)%nat then (tr, Ok ([], [], tdt))
  else
    match match tr with Some t => Ok t | None => Recreate [] end with
    | Err e => (tr, Err (ErrTrie e))
    | Ok t => onDataTrie (updateTrie tdt) (Some t)
    end.

(** Revert of journalEntryDataTrieUpdates; the root hash is that which the
    account gets. *)
Fixpoint revertUpdates (trieUpdates : list TrieData) : SE T state_error () :=
  match trieUpdates with
  | [] => mret ()
  | trieUpdate :: trieUpdates =>
      _ ← onTrie (UpdateWithVersion (td_Key trieUpdate) (valueOf trieUpdate) (td_Version trieUpdate));
      revertUpdates trieUpdates
  end.
Definition journalEntryDataTrieUpdates_Revert (trieUpdates : list TrieData) : SE T state_error bytes :=
  _ ← revertUpdates (List.rev trieUpdates);
  onTrie RootHash.

(** The leaves that the migrator collected from the trie become dirty data. *)
Fixpoint migrateLeaves (newVersion : Z) (leaves : list TrieData) (tdt : trackableDataTrie)
    : result state_error trackableDataTrie :=
  match leaves with
  | [] => Ok tdt
  | leafData :: leaves =>
      originalKey ← getOriginalKeyFromTrieData leafData;
      val ← getValueWithoutMetadata originalKey leafData tdt;
      migrateLeaves newVersion leaves
        (setDirty originalKey {| dd_index := getIndexForKey originalKey tdt; dd_value := val;
                                 dd_newVersion := newVersion |} tdt)
  end.
End Trackable.
