(* ===== verification/TrackableSpec.v ===== *)
(** * The storage of an account over the contents of its trie

    What the methods of TrackableDataTrie do to the map that the data trie
    holds: every key that is written is one of six cases, what is journalled
    undoes it, and a failed update is undone.

    ** Saving the dirty data of an account

    The rounds of [updateTrie] one after the other: a failed save is undone,
    what it returns undoes a successful one, and seen as a map from the keys of
    the account to their values it writes exactly the dirty data. *)

From Stdlib Require Import ZArith Lia.
From stdpp Require Import base gmap list sorting.
From S2P Require Import Prelude TrieNode TrieSpec PatriciaSpec GoCollections Validators StateTrie TrackableDataTrie.

(** Hash, marshalizer and versions, and the flags of the current epochs. *)
Class TrackableOk (TE : TrackableEnv) : Prop := {
  AutoBalance_on : AutoBalanceDataTriesFlag = true;
  FixValidation_on : FixDataTrieLeafValidationFlag = true;
  versionForNewData_on : versionForNewData = AutoBalanceEnabled;
  NotSpecified_version : VersionNotSpecified = 0;
  AutoBalance_version : 0 < AutoBalanceEnabled < 256;
  leaf_Compute_key : forall b, is_key (leaf_Compute b) /\ leaf_Compute b <> [];
  MarshalLeaf_ok : forall l, exists b, MarshalLeaf l = Ok b /\ b <> [] /\ UnmarshalLeaf b = Ok l;
}.

(** ** Undoing updates of a map *)

Definition undoOne (m : contents) (d : TrieData) : contents := change (td_Key d) (valueOf d) (td_Version d) m.
Definition undo (l : list TrieData) (m : contents) : contents := fold_left undoOne (List.rev l) m.

Lemma undo_app l l' m : undo (l ++ l') m = undo l (undo l' m).
Proof. unfold undo. by rewrite rev_app_distr, fold_left_app. Qed.

Lemma undo_snoc l d m : undo (l ++ [d]) m = undo l (undoOne m d).
Proof. by rewrite undo_app. Qed.

Lemma change_nil key version m : change key [] version m = base.delete key m.
Proof. unfold change. by rewrite decide_True. Qed.

Lemma change_absent key v version m : m !! key = None -> v <> [] -> change key v version m = <[key := (v, version)]> m.
Proof.
  intros E N. unfold change, put. rewrite decide_False by done. rewrite E, decide_False; [done|]. by intros [=].
Qed.

(** Putting an old value back. *)
Lemma change_back key v w version m : m !! key = Some (v, version) -> v <> [] ->
  change key v version (change key w version m) = m.
Proof.
  intros E N. destruct (decide (w = [])) as [->|W].
  - rewrite change_nil, change_absent by (done || apply lookup_delete_eq).
    rewrite insert_delete_eq. by apply insert_id.
  - unfold change. rewrite !decide_False by done. unfold put at 2. case_decide as Q.
    + rewrite E in Q. injection Q as <-. apply put_same. by rewrite E.
    + rewrite put_new, insert_insert_eq; [by apply insert_id|]. rewrite lookup_insert_eq. cbn.
      rewrite E in Q. intros [= ->]. by apply Q.
Qed.

Section Spec.
Context {TE : TrackableEnv} {TOk : TrackableOk TE} {KR : KeyRange} {KOk : KeyRangeOk KR}.
Context {T : Type} {DT : DataTrie T} {DOk : DataTrieOk T}.
Implicit Types (m : contents) (t : T) (tdt : trackableDataTrie) (key : bytes).

Abbreviation AB := AutoBalanceEnabled.
Abbreviation NS := VersionNotSpecified.
Abbreviation hashOf := leaf_Compute.

Lemma AB_not_NS : AB <> NS.
Proof. rewrite NotSpecified_version. pose proof AutoBalance_version. lia. Qed.

Lemma AB_byte : 0 <= AB < 256.
Proof. pose proof AutoBalance_version. lia. Qed.

(** ** Reading *)

Definition rawC m key (legacy : bool) : result state_error TrieData :=
  match m !! key with
  | Some (v, version) => if version =? NS then Ok (newTrieData key (Some v) NS) else Err ErrInvalidDataTrieLeaf
  | None => Ok (if legacy then newTrieData key None NS else newTrieData (hashOf key) None AB)
  end.

Definition retrieveC m key (writesHashedKey : bool) : result state_error TrieData :=
  match m !! hashOf key with
  | Some (v, version) =>
      if version =? AB then Ok (newTrieData (hashOf key) (Some v) AB)
      else if negb (version =? NS) || writesHashedKey then Err ErrInvalidDataTrieLeaf
      else rawC m key true
  | None => rawC m key false
  end.

(** The result of a method that leaves the contents as they are. *)
Definition reads {A B} (t : T) m (r : T * result state_error (A * B)) (o : result state_error A) : Prop :=
  exists t', Holds t' m /\ match o with
    | Ok a => exists b, r = (t', Ok (a, b))
    | Err e => r = (t', Err e)
    end.

Lemma length_nonzero {A} (v : list A) : v <> [] -> (length v =? 0)%nat = false.
Proof. by destruct v. Qed.

Lemma retrieveRaw_spec t m key legacy : Holds t m -> is_key key ->
  reads t m (retrieveRaw key legacy t) (rawC m key legacy).
Proof.
  intros Ht K. destruct (GetWithVersion_ok t m key Ht K) as (t' & depth & E & Ht'). exists t'. split; [done|].
  unfold retrieveRaw, rawC, onTrie, se_mapErr, mbind, se_bind. rewrite E.
  destruct (m !! key) as [[v version]|] eqn:L; cbn [fmap option_fmap option_map fst snd default id].
  - pose proof (Holds_entry t m key v version Ht L) as [N _]. rewrite length_nonzero by done. cbn [negb andb].
    rewrite FixValidation_on, andb_true_r. destruct (version =? NS); cbn [negb]; [by eexists|done].
  - cbn [length Nat.eqb negb andb]. destruct legacy; [by eexists|]. rewrite versionForNewData_on.
    unfold getKeyForVersion. rewrite Z.eqb_refl. by eexists.
Qed.

Lemma retrieve_spec t m key w : Holds t m -> is_key key ->
  reads t m (retrieveValueFromTrie key w t) (retrieveC m key w).
Proof.
  intros Ht K. destruct (GetWithVersion_ok t m (hashOf key) Ht (proj1 (leaf_Compute_key key))) as (t' & depth & E & Ht').
  unfold retrieveValueFromTrie, retrieveC, onTrie, se_mapErr, mbind, se_bind. rewrite AutoBalance_on, E.
  destruct (m !! hashOf key) as [[v version]|] eqn:L; cbn [fmap option_fmap option_map fst snd default id].
  - pose proof (Holds_entry t m (hashOf key) v version Ht L) as [N _]. rewrite length_nonzero by done. cbn [negb andb].
    rewrite FixValidation_on, andb_true_r. destruct (Z.eqb_spec version AB) as [->|]; cbn [negb].
    + exists t'. split; [done|]. by eexists.
    + destruct (_ || w); [by exists t'|]. by apply retrieveRaw_spec.
  - cbn [length Nat.eqb negb andb]. by apply retrieveRaw_spec.
Qed.

(** What is read is there. *)
Lemma retrieveC_cases m key w d : retrieveC m key w = Ok d ->
  (exists v, d = newTrieData (hashOf key) (Some v) AB /\ m !! hashOf key = Some (v, AB)) \/
  (exists v, d = newTrieData key (Some v) NS /\ m !! key = Some (v, NS) /\ (w = true -> m !! hashOf key = None)) \/
  (d = newTrieData (hashOf key) None AB /\ m !! hashOf key = None /\ m !! key = None) \/
  (d = newTrieData key None NS /\ m !! key = None /\ w = false /\ exists v, m !! hashOf key = Some (v, NS)).
Proof.
  unfold retrieveC, rawC. destruct (m !! hashOf key) as [[v version]|] eqn:E.
  - destruct (Z.eqb_spec version AB) as [->|].
    + intros [= <-]. left. eauto.
    + destruct (Z.eqb_spec version NS) as [->|]; cbn [negb orb]; [|done]. destruct w; [done|].
      destruct (m !! key) as [[v' version']|] eqn:E'.
      * destruct (Z.eqb_spec version' NS) as [->|]; [|done]. intros [= <-]. right. left. exists v'. by split_and!.
      * intros [= <-]. right. right. right. split_and!; eauto.
  - destruct (m !! key) as [[v' version']|] eqn:E'.
    + destruct (Z.eqb_spec version' NS) as [->|]; [|done]. intros [= <-]. right. left. by exists v'.
    + intros [= <-]. right. right. by left.
Qed.

(** ** Writing one key *)

(** The leaf [v] is one of [key] of this account. *)
Definition bound tdt key (v : bytes) : Prop :=
  exists leaf, UnmarshalLeaf v = Ok leaf /\ tld_Key leaf = key /\ tld_Address leaf = identifier tdt.

Definition leafOf tdt key (value : bytes) : TrieLeafData :=
  {| tld_Value := value; tld_Key := key; tld_Address := identifier tdt |}.

(** The cases of a key with the new value [value]: the old value that is kept,
    what is appended to the old values, what is journalled, and the contents
    after it. *)
Inductive keyStep tdt m key (value : bytes) : TrieData -> list TrieData -> list TrieData -> contents -> Prop :=
| step_nothing k version : value = [] -> m !! k = None ->
    (k = hashOf key /\ m !! key = None) \/ (k = key /\ exists v, m !! hashOf key = Some (v, NS)) ->
    0 <= version < 256 ->
    keyStep tdt m key value (newTrieData k None version) [] [] m
| step_delete v : value = [] -> m !! hashOf key = Some (v, AB) -> bound tdt key v ->
    let old := newTrieData (hashOf key) (Some v) AB in
    keyStep tdt m key value old [] [old] (base.delete (hashOf key) m)
| step_delete_raw v : value = [] -> m !! key = Some (v, NS) ->
    let old := newTrieData key (Some v) NS in
    let gone := newTrieData key None 0 in
    keyStep tdt m key value old [gone] [old; gone] (base.delete key m)
| step_overwrite v b : value <> [] -> m !! hashOf key = Some (v, AB) -> bound tdt key v ->
    MarshalLeaf (leafOf tdt key value) = Ok b -> b <> [] ->
    let old := newTrieData (hashOf key) (Some v) AB in
    keyStep tdt m key value old [] [old] (put (hashOf key) b AB m)
| step_new b : value <> [] -> m !! hashOf key = None -> m !! key = None ->
    MarshalLeaf (leafOf tdt key value) = Ok b -> b <> [] ->
    let old := newTrieData (hashOf key) None AB in
    keyStep tdt m key value old [] [old] (<[hashOf key := (b, AB)]> m)
| step_migrate v b : value <> [] -> m !! hashOf key = None -> m !! key = Some (v, NS) ->
    MarshalLeaf (leafOf tdt key value) = Ok b -> b <> [] ->
    let old := newTrieData key (Some v) NS in
    let gone := newTrieData (hashOf key) None 0 in
    keyStep tdt m key value old [gone] [old; gone] (<[hashOf key := (b, AB)]> (base.delete key m)).

Definition wfUpdate (d : TrieData) : Prop := is_key (td_Key d) /\ 0 <= td_Version d < 256.

Lemma rollback_spec l : forall t m, Forall wfUpdate l -> Holds t m -> Holds (rollbackAppliedUpdates l t) (undo l m).
Proof.
  unfold rollbackAppliedUpdates, undo. induction l as [|d l IH] using rev_ind; intros t m F Ht; [done|].
  rewrite rev_app_distr. cbn. apply Forall_app in F as [F [[K V] _]%Forall_cons].
  apply IH; [done|]. unfold applyUpdate, undoOne.
  destruct (UpdateWithVersion_ok t m (td_Key d) (valueOf d) (td_Version d) Ht K V) as (t' & -> & Ht'). done.
Qed.

(** What is journalled undoes the step. *)
Lemma keyStep_undo tdt m key value old ap delta m' : (forall k v version, m !! k = Some (v, version) -> v <> []) ->
  keyStep tdt m key value old ap delta m' -> undo delta m' = m.
Proof.
  intros E S. unfold undo. destruct S; cbn [List.rev app fold_left]; unfold undoOne; cbn [td_Key td_Value td_Version newTrieData valueOf default id].
  - done.
  - rewrite <- (change_nil (hashOf key) AB m). apply change_back; eauto.
  - rewrite change_nil, delete_delete_eq, <- (change_nil key NS m). apply change_back; eauto.
  - replace (put (hashOf key) b AB m) with (change (hashOf key) b AB m) by (unfold change; by rewrite decide_False).
    apply change_back; eauto.
  - rewrite change_nil. by apply delete_insert_id.
  - rewrite change_nil, delete_insert_id by (rewrite lookup_delete_None; by right).
    rewrite <- (change_nil key NS m). apply change_back; eauto.
Qed.

Definition badIndex (entry : dirtyData) (l : updateLoop) : Prop :=
  Z.of_nat (length (ul_newData l)) <= dd_index entry.

(** The end of a round: it fails, undoing everything, for an index that is out
    of range, and journals otherwise. *)
Lemma recordKey_spec t m key entry tdt old wasDeleted ups dels dataTrieKey l :
  let '(updates, appended) := journalKey wasDeleted
    ((td_Version old =? NS) && (dd_newVersion entry =? AB)) dataTrieKey old in
  Holds t m -> Forall wfUpdate (ups ++ updates) -> is_Ok (newChange key entry old tdt) = true ->
  (exists t' e, recordKey key entry tdt old wasDeleted ups dels dataTrieKey l t = (t', Err e) /\
     Holds t' (undo (ups ++ updates) m) /\ badIndex entry l) \/
  (exists t' l', recordKey key entry tdt old wasDeleted ups dels dataTrieKey l t = (t', Ok l') /\ Holds t' m /\
     ul_oldValues l' = ul_oldValues l ++ [old] /\ ul_appended l' = ul_appended l ++ appended /\
     ul_trieUpdates l' = ups ++ updates /\ length (ul_newData l') = length (ul_newData l)).
Proof.
  unfold recordKey. destruct (journalKey _ _ _ _) as [updates appended]. intros Ht F N.
  destruct (length dataTrieKey =? 0)%nat.
  - right. eexists t, _. by split_and!.
  - unfold mbind, se_bind, orRollback, se_guard, se_lift. cbn [ul_newData].
    destruct (Z.ltb_spec (Z.of_nat (length (ul_newData l)) - 1) (dd_index entry)) as [B|B].
    + left. eexists _, _. split; [reflexivity|]. split; [by apply rollback_spec|]. unfold badIndex. lia.
    + right. destruct (newChange key entry old tdt) as [change|]; [|done]. eexists t, _.
      split; [reflexivity|]. cbn. rewrite length_insert. by split_and!.
Qed.

Lemma binding_cases tdt key v :
  (bound tdt key v /\ exists value, getValueAutoBalanceVersion key v tdt = Ok value) \/
  (~ bound tdt key v /\ exists e, getValueAutoBalanceVersion key v tdt = Err e).
Proof.
  unfold getValueAutoBalanceVersion, bound. rewrite FixValidation_on.
  destruct (UnmarshalLeaf v) as [leaf|e] eqn:E; cbn.
  - rewrite andb_true_r. destruct (bool_decide (tld_Key leaf = key)) eqn:K; bool_prop; cbn.
    + destruct (bool_decide (tld_Address leaf = identifier tdt)) eqn:A; bool_prop; cbn; [left; split; [by exists leaf|by eexists]|right].
      split; [|by eexists]. intros (leaf' & Q & _ & Q'). injection Q as <-. by apply A.
    + right. split; [|by eexists]. intros (leaf' & Q & Q' & _). injection Q as <-. by apply K.
  - right. split; [|by eexists]. by intros (leaf & ? & _).
Qed.

Lemma deleteOld_spec t m key entry old : Holds t m -> is_key key ->
  let w := (td_Version old =? NS) && (dd_newVersion entry =? AB) && negb (length (dd_value entry) =? 0)%nat in
  exists t', deleteOldEntryIfMigrated key entry old t = (t', Ok w) /\
    Holds t' (if w then base.delete key m else m).
Proof.
  intros Ht K w. unfold deleteOldEntryIfMigrated. rewrite AutoBalance_on. cbn [negb]. fold w. destruct w.
  - destruct (Delete_ok t m key Ht K) as (t' & E & Ht'). exists t'. split; [|done].
    unfold onTrie, se_mapErr, mbind, se_bind. by rewrite E.
  - by exists t.
Qed.

(** What [modifyTrie] does when there is a value to write. *)
Lemma modify_write t m key entry old tdt : Holds t m -> dd_newVersion entry = AB -> dd_value entry <> [] ->
  exists t' b, modifyTrie key entry old tdt t = (t', Ok (hashOf key)) /\ b <> [] /\
    MarshalLeaf (leafOf tdt key (dd_value entry)) = Ok b /\ Holds t' (put (hashOf key) b AB m).
Proof.
  intros Ht V N. destruct (MarshalLeaf_ok (leafOf tdt key (dd_value entry))) as (b & Eb & Nb & _).
  destruct (UpdateWithVersion_ok t m (hashOf key) b AB Ht (proj1 (leaf_Compute_key key)) AB_byte) as (t' & E & Ht').
  exists t', b. split_and!; [|done|done|].
  - unfold modifyTrie, getValueForVersion, getKeyForVersion. rewrite length_nonzero by done. rewrite V, Z.eqb_refl.
    fold (leafOf tdt key (dd_value entry)). rewrite Eb. unfold onTrie, se_mapErr, mbind, se_bind, se_lift. by rewrite E.
  - unfold change in Ht'. by rewrite decide_False in Ht'.
Qed.

(** What it does when the key is to be deleted. *)
Lemma modify_delete t m key entry k v version tdt : Holds t m -> is_key k -> dd_value entry = [] -> v <> [] ->
  (k = hashOf key /\ version = AB \/ k = key /\ version = NS) ->
  exists t', modifyTrie key entry (newTrieData k (Some v) version) tdt t = (t', Ok k) /\ Holds t' (base.delete k m).
Proof.
  intros Ht K V N C. destruct (Delete_ok t m k Ht K) as (t' & E & Ht'). exists t'. split; [|done].
  unfold modifyTrie, deleteFromTrie. rewrite V. cbn [length Nat.eqb newTrieData valueOf td_Value td_Version default id].
  rewrite length_nonzero by done. unfold onTrie, se_mapErr, mbind, se_bind.
  destruct C as [[-> ->]|[-> ->]].
  - rewrite Z.eqb_refl. by rewrite E.
  - rewrite (proj2 (Z.eqb_neq NS AB)) by (intros Q; by apply AB_not_NS). by rewrite Z.eqb_refl, E.
Qed.

(** How a round ends: everything undone, for a reason, or one of the steps. *)
Definition writesHash (entry : dirtyData) : bool :=
  negb (length (dd_value entry) =? 0)%nat && (dd_newVersion entry =? AB).

Definition unreadable tdt m key (w : bool) : Prop :=
  is_Ok (retrieveC m key w) = false \/ (exists v, m !! hashOf key = Some (v, AB) /\ ~ bound tdt key v).

Definition roundEnds tdt m key (entry : dirtyData) (l : updateLoop) (r : T * result state_error updateLoop) : Prop :=
  (exists t' e, r = (t', Err e) /\ Holds t' (undo (ul_trieUpdates l) m) /\
     (unreadable tdt m key (writesHash entry) \/ badIndex entry l)) \/
  (exists t' l' old ap delta m', r = (t', Ok l') /\ Holds t' m' /\
     keyStep tdt m key (dd_value entry) old ap delta m' /\ Forall wfUpdate delta /\
     ul_oldValues l' = ul_oldValues l ++ [old] /\ ul_appended l' = ul_appended l ++ ap /\
     ul_trieUpdates l' = ul_trieUpdates l ++ delta /\ length (ul_newData l') = length (ul_newData l)).

Lemma recordKey_ends t m m' key entry tdt old ap delta w dels k l :
  Holds t m' -> (forall k v version, m !! k = Some (v, version) -> v <> []) ->
  keyStep tdt m key (dd_value entry) old ap delta m' ->
  Forall wfUpdate (ul_trieUpdates l) -> Forall wfUpdate delta ->
  is_Ok (newChange key entry old tdt) = true ->
  (exists updates, journalKey w ((td_Version old =? NS) && (dd_newVersion entry =? AB)) k old = (updates, ap) /\
     delta = (if w then [old] else []) ++ updates) ->
  roundEnds tdt m key entry l
    (recordKey key entry tdt old w (if w then ul_trieUpdates l ++ [old] else ul_trieUpdates l) dels k l t).
Proof.
  intros Ht N S F F' C (updates & J & D). set (ups := if w then _ else _).
  assert (U : ups ++ updates = ul_trieUpdates l ++ delta)
    by (subst delta ups; destruct w; [by rewrite <- (assoc_L (++))|done]).
  pose proof (recordKey_spec t m' key entry tdt old w ups dels k l) as R. rewrite J, U in R.
  destruct (R Ht ltac:(by apply Forall_app) C) as [(t' & e & E & Ht' & B)|(t' & l' & E & Ht' & Q)].
  - left. exists t', e. split; [done|]. rewrite undo_app, (keyStep_undo _ _ _ _ _ _ _ _ N S) in Ht'. by split; [|right].
  - right. destruct Q as (Q1 & Q2 & Q3 & Q4). by exists t', l', old, ap, delta, m'.
Qed.

(** A round whose parts succeed is its end. *)
Lemma updateKey_run t t1 t2 t3 key entry tdt l old depth w k :
  retrieveValueFromTrie key (writesHash entry) t = (t1, Ok (old, depth)) ->
  (td_Version old = AB -> valueOf old <> [] -> bound tdt key (valueOf old)) ->
  deleteOldEntryIfMigrated key entry old t1 = (t2, Ok w) ->
  modifyTrie key entry old tdt t2 = (t3, Ok k) ->
  exists dels, updateKey key entry tdt l t =
    recordKey key entry tdt old w (if w then ul_trieUpdates l ++ [old] else ul_trieUpdates l) dels k l t3.
Proof.
  intros E1 B E2 E3. eexists. unfold updateKey. fold (writesHash entry).
  unfold mbind, se_bind, orRollback at 1 2 3 4. rewrite E1.
  assert (C : (if (td_Version old =? AB) && negb (length (valueOf old) =? 0)%nat then checkBinding key old tdt else Ok ())
              = Ok ()).
  { destruct (Z.eqb_spec (td_Version old) AB) as [V|]; [|done]. destruct (valueOf old) as [|x v] eqn:Ev; [done|].
    cbn [length Nat.eqb negb andb]. unfold checkBinding. rewrite Ev.
    destruct (binding_cases tdt key (x :: v)) as [[_ [value ->]]|[NB _]]; [done|]. destruct NB. by apply B. }
  rewrite C. cbn. rewrite E2, E3. reflexivity.
Qed.

Lemma modify_nothing key entry k version tdt t : dd_value entry = [] ->
  modifyTrie key entry (newTrieData k None version) tdt t = (t, Ok []).
Proof. intros V. unfold modifyTrie, deleteFromTrie. by rewrite V. Qed.

Lemma AB_NS_eqb : (AB =? NS) = false.
Proof. apply Z.eqb_neq, AB_not_NS. Qed.

Lemma wf_pair old k : wfUpdate old -> is_key k -> Forall wfUpdate [old; newTrieData k None 0].
Proof. intros F K. apply Forall_cons. split; [done|]. apply Forall_singleton. split; [done|]. cbn. lia. Qed.

Section Round.
Context (t : T) (m : contents) (key : bytes) (entry : dirtyData) (tdt : trackableDataTrie) (l : updateLoop).
Hypothesis Ht : Holds t m.
Hypothesis Hkey : is_key key.
Hypothesis Hnonempty : key <> [].
Hypothesis Hversion : dd_newVersion entry = AB.
Hypothesis Hups : Forall wfUpdate (ul_trieUpdates l).

(** A round that reads [old] makes a step, once the trie can be modified and
    the step is what is journalled. *)
Lemma round_of old ap delta m' t1 depth w k :
  retrieveValueFromTrie key (writesHash entry) t = (t1, Ok (old, depth)) -> Holds t1 m ->
  (td_Version old = AB -> valueOf old <> [] -> bound tdt key (valueOf old)) ->
  (td_Version old =? NS) && negb (length (dd_value entry) =? 0)%nat = w ->
  (forall t2, Holds t2 (if w then base.delete key m else m) ->
     exists t3, modifyTrie key entry old tdt t2 = (t3, Ok k) /\ Holds t3 m') ->
  keyStep tdt m key (dd_value entry) old ap delta m' -> Forall wfUpdate delta ->
  (exists updates, journalKey w (td_Version old =? NS) k old = (updates, ap) /\
     delta = (if w then [old] else []) ++ updates) ->
  roundEnds tdt m key entry l (updateKey key entry tdt l t).
Proof using All.
  intros E H1 B W M S F J. destruct (deleteOld_spec t1 m key entry old H1 Hkey) as (t2 & E2 & H2).
  rewrite Hversion, Z.eqb_refl, andb_true_r in E2, H2. rewrite W in E2, H2.
  destruct (M t2 H2) as (t3 & E3 & H3).
  destruct (updateKey_run t t1 t2 t3 key entry tdt l old depth w k E B E2 E3) as [dels ->].
  apply (recordKey_ends t3 m m' key entry tdt old ap delta w dels k l); [done| |done..| |].
  - intros k0 v version Q. by apply (Holds_entry t m k0 v version Ht).
  - unfold newChange. destruct (length (dd_value entry) =? 0)%nat; [|done].
    unfold getValueWithoutMetadata. destruct (valueOf old) as [|x v] eqn:Ev; [done|]. cbn [length Nat.eqb].
    destruct (Z.eqb_spec (td_Version old) AB) as [V|]; [|done].
    destruct (binding_cases tdt key (x :: v)) as [[_ [value ->]]|[NB _]]; [done|]. destruct NB. by apply B.
  - rewrite Hversion, Z.eqb_refl, andb_true_r. done.
Qed.

Let W := writesHash entry.

(** The old value is a leaf under the hash. *)
Lemma round_hashed t1 depth v : m !! hashOf key = Some (v, AB) -> bound tdt key v ->
  retrieveValueFromTrie key W t = (t1, Ok (newTrieData (hashOf key) (Some v) AB, depth)) -> Holds t1 m ->
  roundEnds tdt m key entry l (updateKey key entry tdt l t).
Proof using All.
  intros L B E H1. set (old := newTrieData _ _ _) in *. pose proof (proj1 (leaf_Compute_key key)) as Kh.
  assert (Nv : v <> []) by (by apply (Holds_entry t m (hashOf key) v AB Ht)).
  assert (Fo : Forall wfUpdate [old]) by (apply Forall_singleton; split; [done|apply AB_byte]).
  assert (J : exists updates, journalKey false (td_Version old =? NS) (hashOf key) old = (updates, []) /\
                [old] = [] ++ updates).
  { exists [old]. split; [|done]. unfold journalKey. rewrite length_nonzero by apply leaf_Compute_key.
    subst old. cbn [td_Version newTrieData]. by rewrite AB_NS_eqb. }
  destruct (decide (dd_value entry = [])) as [V|V].
  - apply (round_of old [] [old] (base.delete (hashOf key) m) t1 depth false (hashOf key)); try done.
    + subst old. cbn [td_Version newTrieData]. by rewrite AB_NS_eqb.
    + intros t2 H2. apply (modify_delete t2 m key entry (hashOf key) v AB tdt); auto.
    + rewrite V. by apply step_delete.
  - destruct (MarshalLeaf_ok (leafOf tdt key (dd_value entry))) as (b & Eb & Nb & _).
    apply (round_of old [] [old] (put (hashOf key) b AB m) t1 depth false (hashOf key)); try done.
    + subst old. cbn [td_Version newTrieData]. by rewrite AB_NS_eqb.
    + intros t2 H2. destruct (modify_write t2 m key entry old tdt H2 Hversion V) as (t3 & b' & E3 & _ & Eb' & H3).
      rewrite Eb in Eb'. injection Eb' as <-. by exists t3.
    + by apply step_overwrite.
Qed.

(** It is a leaf under the key itself. *)
Lemma round_raw t1 depth v : m !! key = Some (v, NS) -> (W = true -> m !! hashOf key = None) ->
  retrieveValueFromTrie key W t = (t1, Ok (newTrieData key (Some v) NS, depth)) -> Holds t1 m ->
  roundEnds tdt m key entry l (updateKey key entry tdt l t).
Proof using All.
  intros L Hw E H1. set (old := newTrieData _ _ _) in *. pose proof (proj1 (leaf_Compute_key key)) as Kh.
  assert (Nv : v <> []) by (by apply (Holds_entry t m key v NS Ht)).
  assert (Vo : wfUpdate old) by (split; [done|cbn; rewrite NotSpecified_version; lia]).
  destruct (decide (dd_value entry = [])) as [V|V].
  - set (gone := newTrieData key None 0).
    apply (round_of old [gone] [old; gone] (base.delete key m) t1 depth false key); try done.
    + intros Q. destruct AB_not_NS. done.
    + rewrite V. by rewrite andb_false_r.
    + intros t2 H2. apply (modify_delete t2 m key entry key v NS tdt); auto.
    + rewrite V. by apply step_delete_raw.
    + by apply wf_pair.
    + exists [old; gone]. split; [|done]. unfold journalKey. rewrite length_nonzero by done.
      subst old. cbn [td_Version newTrieData]. by rewrite Z.eqb_refl.
  - destruct (MarshalLeaf_ok (leafOf tdt key (dd_value entry))) as (b & Eb & Nb & _).
    assert (Lh : m !! hashOf key = None).
    { apply Hw. unfold W, writesHash. by rewrite length_nonzero, Hversion, Z.eqb_refl. }
    set (gone := newTrieData (hashOf key) None 0).
    apply (round_of old [gone] [old; gone] (<[hashOf key := (b, AB)]> (base.delete key m)) t1 depth true (hashOf key));
      try done.
    + intros Q. destruct AB_not_NS. done.
    + rewrite length_nonzero by done. subst old. cbn [td_Version newTrieData]. by rewrite Z.eqb_refl.
    + intros t2 H2. destruct (modify_write t2 _ key entry old tdt H2 Hversion V) as (t3 & b' & E3 & _ & Eb' & H3).
      rewrite Eb in Eb'. injection Eb' as <-. exists t3. split; [done|]. rewrite put_new in H3; [done|].
      by rewrite (proj2 (lookup_delete_None _ _ _)) by (by right).
    + by apply step_migrate.
    + by apply wf_pair.
    + exists [gone]. split; [|done]. unfold journalKey. rewrite length_nonzero by apply leaf_Compute_key.
      subst old. cbn [td_Version newTrieData]. by rewrite Z.eqb_refl.
Qed.

(** There is none, under the hash or under the key. *)
Lemma round_absent t1 depth k version : (k = hashOf key /\ version = AB /\ m !! hashOf key = None /\ m !! key = None) \/
    (k = key /\ version = NS /\ m !! key = None /\ W = false /\ exists v, m !! hashOf key = Some (v, NS)) ->
  retrieveValueFromTrie key W t = (t1, Ok (newTrieData k None version, depth)) -> Holds t1 m ->
  roundEnds tdt m key entry l (updateKey key entry tdt l t).
Proof using All.
  intros C E H1. set (old := newTrieData _ _ _) in *. pose proof (proj1 (leaf_Compute_key key)) as Kh.
  assert (Vr : 0 <= version < 256).
  { destruct C as [(_ & -> & _)|(_ & -> & _)]; [apply AB_byte|rewrite NotSpecified_version; lia]. }
  destruct (decide (dd_value entry = [])) as [V|V].
  - apply (round_of old [] [] m t1 depth false []); try done.
    + rewrite V. by rewrite andb_false_r.
    + intros t2 H2. exists t2. split; [by apply modify_nothing|done].
    + destruct C as [(-> & _ & ? & ?)|(-> & _ & ? & _ & ?)]; apply step_nothing; auto.
    + by exists [].
  - destruct C as [(-> & -> & Lh & Lk)|(_ & _ & _ & Hw & _)].
    2:{ unfold W, writesHash in Hw. by rewrite length_nonzero, Hversion, Z.eqb_refl in Hw. }
    destruct (MarshalLeaf_ok (leafOf tdt key (dd_value entry))) as (b & Eb & Nb & _).
    apply (round_of old [] [old] (<[hashOf key := (b, AB)]> m) t1 depth false (hashOf key)); try done.
    + subst old. cbn [td_Version newTrieData]. by rewrite AB_NS_eqb.
    + intros t2 H2. destruct (modify_write t2 m key entry old tdt H2 Hversion V) as (t3 & b' & E3 & _ & Eb' & H3).
      rewrite Eb in Eb'. injection Eb' as <-. exists t3. split; [done|]. rewrite put_new in H3; [done|]. by rewrite Lh.
    + by apply step_new.
    + apply Forall_singleton. by split.
    + exists [old]. split; [|done]. unfold journalKey. rewrite length_nonzero by apply leaf_Compute_key.
      subst old. cbn [td_Version newTrieData]. by rewrite AB_NS_eqb.
Qed.

Lemma undo_all t' e : Holds t' m -> unreadable tdt m key W ->
  roundEnds tdt m key entry l (rollbackAppliedUpdates (ul_trieUpdates l) t', Err e).
Proof using Hups. intros H' U. left. eexists _, e. split; [done|]. split; [by apply rollback_spec|by left]. Qed.

Lemma updateKey_ends : roundEnds tdt m key entry l (updateKey key entry tdt l t).
Proof using All.
  destruct (retrieve_spec t m key W Ht Hkey) as (t1 & H1 & E).
  destruct (retrieveC m key W) as [old|e] eqn:R.
  - destruct E as [depth E].
    destruct (retrieveC_cases _ _ _ _ R) as [(v & -> & L)|[(v & -> & L & Hw)|[(-> & Lh & Lk)|(-> & Lk & Hw & Lg)]]].
    + destruct (binding_cases tdt key v) as [[B _]|[NB [e G]]]; [by apply (round_hashed t1 depth v)|].
      assert (Nv : v <> []) by (by apply (Holds_entry t m (hashOf key) v AB Ht)).
      unfold updateKey. fold (writesHash entry) W. unfold mbind, se_bind, orRollback at 1 2. rewrite E. cbn.
      rewrite Z.eqb_refl, length_nonzero by done. cbn [negb andb]. unfold checkBinding.
      cbn [valueOf newTrieData td_Value default id]. rewrite G, FixValidation_on.
      apply undo_all; [done|]. right. by exists v.
    + by apply (round_raw t1 depth v).
    + by apply (round_absent t1 depth (hashOf key) AB); [left|..].
    + by apply (round_absent t1 depth key NS); [right|..].
  - unfold updateKey. fold (writesHash entry) W. unfold mbind, se_bind, orRollback at 1. rewrite E.
    apply undo_all; [done|]. left. by rewrite R.
Qed.
End Round.
End Spec.

Section Update.
Context {TE : TrackableEnv} {TOk : TrackableOk TE} {KR : KeyRange} {KOk : KeyRangeOk KR}.
Context {T : Type} {DT : DataTrie T} {DOk : DataTrieOk T}.
Implicit Types (m : contents) (t : T) (tdt : trackableDataTrie) (key : bytes).

Abbreviation AB := AutoBalanceEnabled.
Abbreviation NS := VersionNotSpecified.
Abbreviation hashOf := leaf_Compute.

Definition entryOf tdt key : dirtyData :=
  default {| dd_index := 0; dd_value := []; dd_newVersion := 0 |} (dirty tdt !! key).

(** A key that was written with [SaveKeyValue]. *)
Record written tdt key : Prop := {
  written_key : is_key key;
  written_nonempty : key <> [];
  written_version : dd_newVersion (entryOf tdt key) = AB;
}.

(** The steps of a list of keys, with the old values and what was appended. *)
Inductive keySteps tdt : contents -> list bytes -> list TrieData -> list TrieData -> contents -> Prop :=
| steps_nil m : keySteps tdt m [] [] [] m
| steps_snoc m m1 m2 keys key O A old ap delta : keySteps tdt m keys O A m1 ->
    keyStep tdt m1 key (dd_value (entryOf tdt key)) old ap delta m2 ->
    keySteps tdt m (keys ++ [key]) (O ++ [old]) (A ++ ap) m2.

(** The state of the loop after the keys [keys]. *)
Record loopAfter tdt m keys (l : updateLoop) m1 : Prop := {
  la_steps : keySteps tdt m keys (ul_oldValues l) (ul_appended l) m1;
  la_wf : Forall wfUpdate (ul_trieUpdates l);
  la_undo : undo (ul_trieUpdates l) m1 = m;
}.

(** How the loop ends: undone, at a key that cannot be read or has no place, or
    after all steps. *)
Definition loopEnds tdt m keys (size : nat) (r : T * result state_error updateLoop) : Prop :=
  (exists t' e done key rest l m1, r = (t', Err e) /\ Holds t' m /\ keys = done ++ key :: rest /\
     loopAfter tdt m done l m1 /\
     (unreadable tdt m1 key (writesHash (entryOf tdt key)) \/ Z.of_nat size <= dd_index (entryOf tdt key))) \/
  (exists t' l m', r = (t', Ok l) /\ Holds t' m' /\ loopAfter tdt m keys l m' /\ length (ul_newData l) = size).

Lemma updateTrie_loop_ends tdt m rest : forall done l t m1, Forall (written tdt) rest -> Holds t m1 ->
  loopAfter tdt m done l m1 ->
  loopEnds tdt m (done ++ rest) (length (ul_newData l)) (updateTrie_loop rest tdt l t).
Proof.
  induction rest as [|key rest IH]; intros done l t m1 F Ht L.
  - right. exists t, l, m1. by rewrite app_nil_r.
  - apply Forall_cons in F as [[K N V] F]. cbn. fold (entryOf tdt key). unfold mbind, se_bind.
    destruct (updateKey_ends t m1 key (entryOf tdt key) tdt l Ht K N V (la_wf _ _ _ _ _ L))
      as [(t' & e & E & Ht' & R)|(t' & l' & old & ap & delta & m' & E & Ht' & S & Wd & Eo & Ea & Eu & El)].
    + left. rewrite E. exists t', e, done, key, rest, l, m1. split_and!; try done.
      by rewrite (la_undo _ _ _ _ _ L) in Ht'.
    + rewrite E, <- El, cons_middle, (assoc_L (++)). apply (IH _ l' t' m'); [done..|]. constructor.
      * rewrite Eo, Ea. by apply (steps_snoc _ _ m1 m' _ _ _ _ _ _ delta); [apply L|].
      * rewrite Eu. by apply Forall_app; split; [apply L|].
      * rewrite Eu, undo_app, (keyStep_undo tdt m1 key (dd_value (entryOf tdt key)) old ap delta m'); [apply L| |done].
        intros k v version Q. by apply (Holds_entry t m1 k v version Ht).
Qed.

(** All dirty data was written with [SaveKeyValue]. *)
Definition allWritten tdt : Prop := forall key, is_Some (dirty tdt !! key) -> written tdt key.

Lemma dirtyKeys_perm tdt : dirtyKeys tdt ≡ₚ elements (dom (dirty tdt)).
Proof.
  unfold dirtyKeys. destruct (_ && _).
  - unfold sort_Strings. rewrite merge_sort_Permutation. apply rangeKeys_perm.
  - apply rangeKeys_perm.
Qed.

Lemma elem_of_dirtyKeys tdt key : key ∈ dirtyKeys tdt <-> is_Some (dirty tdt !! key).
Proof. by rewrite dirtyKeys_perm, elem_of_elements, elem_of_dom. Qed.

Lemma NoDup_dirtyKeys tdt : NoDup (dirtyKeys tdt).
Proof. rewrite dirtyKeys_perm. apply NoDup_elements. Qed.

Definition loopStart tdt : updateLoop :=
  {| ul_oldValues := []; ul_appended := []; ul_newData := replicate (size (dirty tdt)) None;
     ul_deletedKeys := []; ul_trieUpdates := [] |}.

Lemma updateTrie_ends tdt t m : Holds t m -> allWritten tdt ->
  loopEnds tdt m (dirtyKeys tdt) (size (dirty tdt)) (updateTrie_loop (dirtyKeys tdt) tdt (loopStart tdt) t).
Proof.
  intros Ht D. pose proof (updateTrie_loop_ends tdt m (dirtyKeys tdt) [] (loopStart tdt) t m) as L.
  cbn [app loopStart ul_newData] in L. rewrite length_replicate in L. apply L; [|done|].
  - apply Forall_forall. intros key K. apply D. by apply elem_of_dirtyKeys.
  - constructor; [apply steps_nil|done|done].
Qed.

(** ** What is returned undoes the steps *)

Lemma lookup_undo_gone A m k : Forall (fun d => valueOf d = []) A ->
  undo A m !! k = if decide (k ∈ td_Key <$> A) then None else m !! k.
Proof.
  revert m. induction A as [|d A IH] using rev_ind; intros m F.
  - rewrite decide_False; [done|]. cbn. by intros ?%elem_of_nil.
  - apply Forall_app in F as [F [V _]%Forall_cons]. rewrite undo_snoc, IH by done.
    unfold undoOne. rewrite lookup_change, fmap_app. cbn.
    destruct (decide (k ∈ td_Key <$> A)) as [I|N].
    + rewrite decide_True; [done|]. apply elem_of_app. by left.
    + destruct (decide (k = td_Key d)) as [->|Nk].
      * rewrite V, decide_True by done. rewrite decide_True; [done|]. apply elem_of_app. right. by apply list_elem_of_singleton.
      * rewrite decide_False; [done|]. by intros [?| ->%list_elem_of_singleton]%elem_of_app.
Qed.

Lemma undo_gone_change A m k v version : Forall (fun d => valueOf d = []) A -> ~ (k ∈ td_Key <$> A) ->
  change k v version (undo A m) = undo A (change k v version m).
Proof.
  intros F N. apply map_eq. intros x. rewrite lookup_change, !lookup_undo_gone, lookup_change by done.
  destruct (decide (x = k)) as [->|]; [|done]. by destruct (decide (k ∈ td_Key <$> A)).
Qed.

(** Undoing what a step returns, rather than what it journals. *)
Lemma keyStep_back tdt m key value old ap delta m' : (forall k v version, m !! k = Some (v, version) -> v <> []) ->
  keyStep tdt m key value old ap delta m' ->
  undoOne (undo ap m') old = m /\ Forall (fun d => valueOf d = []) ap.
Proof.
  intros N S. assert (A : Forall (fun d => valueOf d = []) ap).
  { destruct S; try done; by apply Forall_singleton. }
  split; [|done]. pose proof (keyStep_undo _ _ _ _ _ _ _ _ N S) as U.
  assert (C : delta = [old] ++ ap \/ (ap = [] /\ m' = m /\ valueOf old = [] /\ m !! td_Key old = None))
    by (destruct S; auto).
  destruct C as [->|(-> & -> & V & E)]; [by rewrite undo_app in U|].
  cbn. unfold undoOne. rewrite V, change_nil. by apply delete_id.
Qed.

(** Every key that was appended is free, or has the leaf of a key that was
    written. *)
Definition takenBack tdt (keys : list bytes) (A : list TrieData) m : Prop :=
  Forall (fun d => valueOf d = [] /\
    (m !! td_Key d = None \/
     exists k b, k ∈ keys /\ m !! td_Key d = Some (b, AB) /\ bound tdt k b)) A.

Lemma bound_marshal tdt key value b : MarshalLeaf (leafOf tdt key value) = Ok b -> bound tdt key b.
Proof.
  intros E. destruct (MarshalLeaf_ok (leafOf tdt key value)) as (b' & E' & _ & U). rewrite E in E'. injection E' as <-.
  by exists (leafOf tdt key value).
Qed.

Lemma bound_fun tdt k k' b : bound tdt k b -> bound tdt k' b -> k = k'.
Proof. intros (l & E & K & _) (l' & E' & K' & _). congruence. Qed.

Lemma lookup_put_same k v w version m : m !! k = Some (v, version) -> put k w version m !! k = Some (w, version).
Proof.
  intros E. unfold put. case_decide as D; [|apply lookup_insert_eq].
  rewrite E in D. injection D as ->. done.
Qed.

(** A step only deletes, or puts a leaf of its key. *)
Lemma keyStep_lookup tdt m key value old ap delta m' k : keyStep tdt m key value old ap delta m' ->
  m' !! k = m !! k \/ m' !! k = None \/ exists b, m' !! k = Some (b, AB) /\ b <> [] /\ bound tdt key b.
Proof.
  intros S. destruct S as [| | |v b N L B M Nb|b N L L' M Nb|v b N L L' M Nb]; [by left|..].
  - destruct (decide (k = hashOf key)) as [->|]; [right; left; apply lookup_delete_eq|left; by apply lookup_delete_ne].
  - destruct (decide (k = key)) as [->|]; [right; left; apply lookup_delete_eq|left; by apply lookup_delete_ne].
  - destruct (decide (k = hashOf key)) as [->|D].
    + right. right. exists b. split_and!; [by apply (lookup_put_same _ v)|done|by eapply bound_marshal].
    + left. unfold put. case_decide; [done|]. by apply lookup_insert_ne.
  - destruct (decide (k = hashOf key)) as [->|D]; [|left; by apply lookup_insert_ne].
    right. right. exists b. split_and!; [apply lookup_insert_eq|done|by eapply bound_marshal].
  - destruct (decide (k = hashOf key)) as [->|D].
    + right. right. exists b. split_and!; [apply lookup_insert_eq|done|by eapply bound_marshal].
    + rewrite lookup_insert_ne by done.
      destruct (decide (k = key)) as [->|]; [right; left; apply lookup_delete_eq|left; by apply lookup_delete_ne].
Qed.

Definition noEmpty m : Prop := forall k v version, m !! k = Some (v, version) -> v <> [].

Lemma keyStep_noEmpty tdt m key value old ap delta m' : keyStep tdt m key value old ap delta m' ->
  noEmpty m -> noEmpty m'.
Proof.
  intros S N k v version E.
  destruct (keyStep_lookup _ _ _ _ _ _ _ _ k S) as [Q|[Q|(b & Q & Nb & _)]]; rewrite E in Q; [by eapply N|done|].
  by injection Q as -> _.
Qed.

Lemma keyStep_takenBack tdt m keys A key value old ap delta m' : keyStep tdt m key value old ap delta m' ->
  takenBack tdt keys A m -> takenBack tdt (keys ++ [key]) (A ++ ap) m'.
Proof.
  intros S F. apply Forall_app. split.
  - eapply Forall_impl; [exact F|]. intros d [V C]. split; [done|].
    destruct (keyStep_lookup _ _ _ _ _ _ _ _ (td_Key d) S) as [Q|[Q|(b & Q & _ & B)]]; [|by left|].
    + rewrite Q. destruct C as [C|(k & b & K & E & B)]; [by left|right]. exists k, b. split; [|done].
      apply elem_of_app. by left.
    + right. exists key, b. split; [|done]. apply elem_of_app. right. by apply list_elem_of_singleton.
  - destruct S as [| | |v b N L B M Nb|b N L L' M Nb|v b N L L' M Nb]; try done; apply Forall_singleton; split; try done.
    + left. apply lookup_delete_eq.
    + right. exists key, b. split_and!; [|apply lookup_insert_eq|by eapply bound_marshal].
      apply elem_of_app. right. by apply list_elem_of_singleton.
Qed.

(** What was taken back before a step can be taken back after undoing it. *)
Lemma keyStep_undo_gone tdt m keys A key value old ap delta m' : keyStep tdt m key value old ap delta m' ->
  noEmpty m -> takenBack tdt keys A m -> ~ (key ∈ keys) ->
  undoOne (undo A (undo ap m')) old = undo A m.
Proof.
  intros S N F K. assert (FA : Forall (fun d => valueOf d = []) A) by (by eapply Forall_impl; [exact F|intros d []]).
  destruct (keyStep_back _ _ _ _ _ _ _ _ N S) as [U _].
  destruct (decide (td_Key old ∈ td_Key <$> A)) as [I|I].
  2:{ unfold undoOne. rewrite undo_gone_change by done. by f_equal. }
  apply list_elem_of_fmap in I as (d & Ed & Id). pose proof (proj1 (Forall_forall _ _) F d Id) as [_ C].
  rewrite <- Ed in C.
  assert (G : forall e, ~ (m !! td_Key old = Some (e, NS)) /\ (m !! td_Key old = Some (e, AB) -> ~ bound tdt key e)).
  { intros e. destruct C as [C|(k & b & Kk & C & B)]; rewrite C; [done|]. split.
    - intros [= _ Q]. by apply AB_not_NS.
    - intros [= <-] B'. by rewrite (bound_fun _ _ _ _ B B') in Kk. }
  assert (V : valueOf old = [] /\ forall x, x <> td_Key old -> undo ap m' !! x = m !! x).
  { destruct S as [| v ? L B| v ? L |v b ? L B|b ? L|v b ? ? L]; cbn [td_Key newTrieData] in G; try done.
    - by destruct (proj2 (G v) L).
    - by destruct (proj1 (G v)).
    - by destruct (proj2 (G v) L).
    - split; [done|]. intros x Nx. by apply lookup_insert_ne.
    - by destruct (proj1 (G v)). }
  destruct V as [V E]. unfold undoOne. apply map_eq. intros x. rewrite lookup_change, V, (lookup_undo_gone A m), (lookup_undo_gone A (undo ap m')) by done.
  destruct (decide (x = td_Key old)) as [->|Nx].
  - by destruct (decide (td_Key old ∈ td_Key <$> A)) as [|[]]; [|rewrite Ed; apply list_elem_of_fmap_2].
  - rewrite ?(lookup_undo_gone A (undo ap m')) by done. by rewrite E.
Qed.

(** The old values that [updateTrie] returns undo it. *)
Lemma keySteps_undo tdt m keys O A m' : keySteps tdt m keys O A m' -> noEmpty m -> NoDup keys ->
  undo (O ++ A) m' = m /\ takenBack tdt keys A m' /\ noEmpty m'.
Proof.
  induction 1 as [m|m m1 m2 keys key O A old ap delta _ IH S]; intros N D; [split; [done|split; [by apply Forall_nil|done]]|].
  apply NoDup_app in D as (D & Dk & _). destruct (IH N D) as (U & B & N1). split_and!.
  - assert (K : ~ (key ∈ keys)) by (intros K; apply (Dk key K), list_elem_of_singleton; done).
    rewrite undo_app in U. rewrite <- app_assoc, !undo_app.
    change (undo O (undoOne (undo A (undo ap m2)) old) = m).
    by rewrite (keyStep_undo_gone _ _ _ _ _ _ _ _ _ _ S N1 B K).
  - by eapply keyStep_takenBack.
  - by eapply keyStep_noEmpty.
Qed.
End Update.
