(* ===== verification/TrackableMap.v ===== *)
(** * The storage of an account as a map

    What the methods of TrackableDataTrie promise: a map from keys to values,
    which writes change at once and [SaveDirtyData] brings into the trie.  The
    tries that the storage of an account may have are put together here with
    the dirty data into the map they stand for. *)

From Stdlib Require Import ZArith Lia.
From stdpp Require Import base gmap list sorting.
From S2P Require Import Prelude TrieNode TrieSpec PatriciaSpec StateTrie Validators GoCollections TrackableDataTrie TrackableSpec.
From S2P Require Import TrackableSpec.

(** An empty value is no value. *)
Definition nonempty (value : bytes) : option bytes := if decide (value = []) then None else Some value.

(** The storage as a map. *)
Definition storageMap := bytes -> option bytes.
Definition writeMap (key value : bytes) (L : storageMap) : storageMap := fun k =>
  if decide (k = key) then nonempty value else L k.

Section Map.
Context {TE : TrackableEnv} {TOk : TrackableOk TE} {KR : KeyRange} {KOk : KeyRangeOk KR}.
Context {T : Type} {DT : DataTrie T} {DOk : DataTrieOk T}.
Implicit Types (m : contents) (t : T) (tr : option T) (tdt : trackableDataTrie) (key : bytes) (L : storageMap).

Abbreviation AB := AutoBalanceEnabled.
Abbreviation NS := VersionNotSpecified.
Abbreviation hashOf := leaf_Compute.

(** The keys of an account: no two of them have their leaves in one place. *)
Record properKeys (K : bytes -> Prop) : Prop := {
  proper_key k : K k -> is_key k /\ k <> [];
  proper_hash k k' : K k -> K k' -> hashOf k = hashOf k' -> k = k';
  proper_raw k k' : K k -> K k' -> hashOf k <> k';
}.

(** The leaf of a key, of either version, is that of its value. *)
Definition slot (address : bytes) m key (o : option bytes) : Prop :=
  match o with
  | None => m !! hashOf key = None /\ m !! key = None
  | Some value => value <> [] /\
      ((exists b, m !! hashOf key = Some (b, AB) /\ m !! key = None /\
          UnmarshalLeaf b = Ok {| tld_Value := value; tld_Key := key; tld_Address := address |}) \/
       (m !! hashOf key = None /\ m !! key = Some (value ++ key ++ address, NS)))
  end.

Definition represents (K : bytes -> Prop) (address : bytes) m L : Prop := forall key, K key -> slot address m key (L key).

(** ** One key *)

Lemma NS_not_AB (b b' : bytes) : Some (b, NS) <> Some (b', AB).
Proof. intros [= _ Q]. by apply AB_not_NS. Qed.

Lemma slot_written tdt m key value b : value <> [] -> MarshalLeaf (leafOf tdt key value) = Ok b ->
  m !! hashOf key = Some (b, AB) -> m !! key = None -> slot (identifier tdt) m key (nonempty value).
Proof.
  intros N E Lh Lk. unfold nonempty. rewrite decide_False by done. split; [done|]. left. exists b. split_and!; [done..|].
  destruct (MarshalLeaf_ok (leafOf tdt key value)) as (b' & E' & _ & U). rewrite E in E'. by injection E' as <-.
Qed.

Lemma slot_step tdt m key value old ap delta m' o : keyStep tdt m key value old ap delta m' -> key <> hashOf key ->
  slot (identifier tdt) m key o -> slot (identifier tdt) m' key (nonempty value).
Proof.
  intros S D H.
  assert (Hh : forall v, m !! hashOf key = Some (v, AB) -> m !! key = None).
  { intros v E. destruct o as [x|]; [|by apply H]. destruct H as [_ [(b & _ & ? & _)|[E' _]]]; [done|by rewrite E in E']. }
  assert (Hk : forall v, m !! key = Some (v, NS) -> m !! hashOf key = None).
  { intros v E. destruct o as [x|]; [|by apply H]. destruct H as [_ [(b & _ & E' & _)|[? _]]]; [by rewrite E in E'|done]. }
  destruct S as [k version -> E C _|v -> Lh _|v -> Lk|v b N Lh _ M Nb|b N Lh Lk M Nb|v b N Lh Lk M Nb]; cbn.
  - destruct C as [[-> Lk]|[-> [v Lh]]]; [done|]. exfalso. destruct o as [x|]; [|by destruct H; congruence].
    destruct H as [_ [(b & E' & _)|[E' _]]]; rewrite Lh in E'; [|done]. by apply NS_not_AB in E'.
  - split; [apply lookup_delete_eq|]. rewrite lookup_delete_ne by done. by eapply Hh.
  - split; [|apply lookup_delete_eq]. rewrite lookup_delete_ne by done. by eapply Hk.
  - apply (slot_written tdt _ _ _ b); [done..|by apply (lookup_put_same _ v)|].
    unfold put. case_decide; [by eapply Hh|]. rewrite lookup_insert_ne by done. by eapply Hh.
  - apply (slot_written tdt _ _ _ b); [done..|apply lookup_insert_eq|by rewrite lookup_insert_ne].
  - apply (slot_written tdt _ _ _ b); [done..|apply lookup_insert_eq|].
    rewrite lookup_insert_ne by done. apply lookup_delete_eq.
Qed.

Lemma keyStep_elsewhere tdt m key value old ap delta m' k : keyStep tdt m key value old ap delta m' ->
  k <> key -> k <> hashOf key -> m' !! k = m !! k.
Proof.
  intros S Nk Nh. unfold put in S.
  destruct S as [| | |v b N Lh B M Nb| |]; rewrite ?lookup_delete_ne, ?lookup_insert_ne, ?lookup_delete_ne by done; try done.
  unfold put. case_decide; [done|]. by rewrite lookup_insert_ne.
Qed.

Lemma slot_elsewhere K tdt m key value old ap delta m' k o : keyStep tdt m key value old ap delta m' ->
  properKeys K -> K key -> K k -> k <> key -> slot (identifier tdt) m k o -> slot (identifier tdt) m' k o.
Proof.
  intros S P Kk Kk' D H. unfold slot.
  rewrite (keyStep_elsewhere _ _ _ _ _ _ _ _ k S), (keyStep_elsewhere _ _ _ _ _ _ _ _ (hashOf k) S); [done|..].
  - by apply (proper_raw K).
  - intros E. by apply D, (proper_hash K).
  - done.
  - intros E. by apply (proper_raw K P key k).
Qed.

(** Every slot is read as its value. *)
Lemma trimmed tdt key value : getValueNotSpecifiedVersion key (value ++ key ++ identifier tdt) tdt = value.
Proof.
  unfold getValueNotSpecifiedVersion, TrimSuffixFromValue. rewrite !length_app.
  destruct (Nat.ltb_spec (length value + (length key + length (identifier tdt))) (length key + length (identifier tdt)));
    [lia|].
  rewrite Nat.add_sub. apply take_app_length.
Qed.

Lemma slot_retrieve tdt m key o w : noEmpty m -> slot (identifier tdt) m key o ->
  exists d, retrieveC m key w = Ok d /\ getValueWithoutMetadata key d tdt = Ok (default [] o).
Proof.
  intros Ne H. unfold retrieveC, rawC. destruct o as [value|]; cbn in H.
  - destruct H as [N [(b & E & E' & U)|[E E']]]; rewrite E, ?E', Z.eqb_refl; eexists; (split; [done|]);
      unfold getValueWithoutMetadata; cbn [valueOf newTrieData td_Value td_Version default id].
    + rewrite length_nonzero, Z.eqb_refl by (by eapply Ne). unfold getValueAutoBalanceVersion. rewrite U. cbn.
      by rewrite !bool_decide_true.
    + rewrite length_nonzero by (by eapply Ne). rewrite (proj2 (Z.eqb_neq NS AB)) by (intros Q; apply AB_not_NS; congruence).
      by rewrite trimmed.
  - destruct H as [-> ->]. by eexists.
Qed.

Lemma slot_readable tdt m key o w : noEmpty m -> slot (identifier tdt) m key o -> ~ unreadable tdt m key w.
Proof.
  intros Ne H [R|(v & E & NB)].
  - destruct (slot_retrieve tdt m key o w Ne H) as (d & E & _). by rewrite E in R.
  - destruct o as [value|]; cbn in H; [|by rewrite (proj1 H) in E].
    destruct H as [_ [(b & E' & _ & U)|[E' _]]]; rewrite E in E'; [|done]. injection E' as <-. apply NB.
    by exists {| tld_Value := value; tld_Key := key; tld_Address := identifier tdt |}.
Qed.

(** ** All of them *)

Definition overlay tdt L : storageMap := fun key =>
  match dirty tdt !! key with
  | Some dataEntry => nonempty (dd_value dataEntry)
  | None => L key
  end.

Lemma keySteps_represents K tdt m keys O A m' L : keySteps tdt m keys O A m' -> properKeys K -> NoDup keys ->
  Forall K keys -> represents K (identifier tdt) m L ->
  represents K (identifier tdt) m' (fun key =>
    if decide (key ∈ keys) then nonempty (dd_value (entryOf tdt key)) else L key).
Proof.
  intros S P. induction S as [m|m m1 m2 keys key O A old ap delta _ IH S]; intros D F R.
  - intros k Kk. rewrite decide_False by (by intros ?%elem_of_nil). by apply R.
  - apply NoDup_app in D as (D & Dk & _). apply Forall_app in F as [F [Kkey _]%Forall_cons].
    specialize (IH D F R). intros k Kk. specialize (IH k Kk). cbn beta in IH.
    destruct (decide (k = key)) as [->|N].
    + rewrite decide_True by (apply elem_of_app; right; by apply list_elem_of_singleton).
      eapply slot_step; [exact S| |exact IH]. intros E. by apply (proper_raw K P key key).
    + destruct (decide (k ∈ keys)) as [I|I].
      * rewrite decide_True by (apply elem_of_app; by left). exact (slot_elsewhere K tdt m1 key _ old ap delta m2 k _ S P Kkey Kk N IH).
      * rewrite decide_False; [exact (slot_elsewhere K tdt m1 key _ old ap delta m2 k _ S P Kkey Kk N IH)|]. by intros [?|?%list_elem_of_singleton]%elem_of_app.
Qed.

(** ** The methods *)

Lemma Holds_noEmpty t m : Holds t m -> noEmpty m.
Proof. intros H k v version E. by apply (Holds_entry t m k v version H). Qed.

(** An account without a trie has nothing stored. *)
Definition HoldsOpt tr m : Prop := match tr with Some t => Holds t m | None => m = ∅ end.

(** Dirty data that was written with [SaveKeyValue]. *)
Record dirtyOk (K : bytes -> Prop) tdt : Prop := {
  dirty_keys key : is_Some (dirty tdt !! key) -> K key;
  dirty_entry key e : dirty tdt !! key = Some e -> dd_newVersion e = AB /\ dd_index e < Z.of_nat (size (dirty tdt));
}.

(** [Storage K tr tdt L]: trie and dirty data together are the map [L]. *)
Definition Storage (K : bytes -> Prop) tr tdt L : Prop :=
  dirtyOk K tdt /\ exists m L0, HoldsOpt tr m /\ represents K (identifier tdt) m L0 /\
    forall key, K key -> L key = overlay tdt L0 key.

Lemma dirtyOk_written K tdt : properKeys K -> dirtyOk K tdt -> allWritten tdt.
Proof.
  intros P D key S. destruct (proper_key K P key) as [Kk N]; [by apply (dirty_keys K tdt D)|]. constructor; [done..|].
  unfold entryOf. destruct S as [e E]. rewrite E. cbn. by apply (dirty_entry K tdt D key).
Qed.

Lemma overlay_write key value entry tdt L k : dd_value entry = value ->
  overlay (setDirty key entry tdt) L k = writeMap key value (overlay tdt L) k.
Proof.
  intros V. unfold overlay, writeMap, setDirty. cbn. destruct (decide (k = key)) as [->|N].
  - by rewrite lookup_insert_eq, V.
  - by rewrite lookup_insert_ne.
Qed.

(** The index of a new entry is free, and those of the others remain. *)
Lemma setDirty_ok K key value tdt : K key -> dirtyOk K tdt ->
  dirtyOk K (setDirty key {| dd_index := getIndexForKey key tdt; dd_value := value; dd_newVersion := AB |} tdt).
Proof.
  intros Kk [D1 D2]. unfold setDirty, getIndexForKey. constructor; cbn.
  - intros k. destruct (decide (k = key)) as [->|N]; [done|]. rewrite lookup_insert_ne by done. apply D1.
  - intros k e. destruct (dirty tdt !! key) as [e0|] eqn:E0.
    + rewrite map_size_insert_Some by (by eexists). destruct (decide (k = key)) as [->|N].
      * rewrite lookup_insert_eq. intros [= <-]. split; [done|]. cbn. by apply (D2 key).
      * rewrite lookup_insert_ne by done. apply D2.
    + rewrite map_size_insert_None by done. destruct (decide (k = key)) as [->|N].
      * rewrite lookup_insert_eq. intros [= <-]. split; [done|]. cbn. lia.
      * rewrite lookup_insert_ne by done. intros E. destruct (D2 k e E). split; [done|lia].
Qed.

Lemma SaveKeyValue_spec K tr tdt L key value : Storage K tr tdt L -> K key ->
  match SaveKeyValue key value tdt with
  | Ok tdt' => Z.of_nat (length value) <= MaxLeafSize /\ Storage K tr tdt' (writeMap key value L)
  | Err e => e = ErrLeafSizeTooBig /\ MaxLeafSize < Z.of_nat (length value)
  end.
Proof.
  intros (D & m & L0 & H & R & E) Kk. unfold SaveKeyValue.
  destruct (Z.ltb_spec MaxLeafSize (Z.of_nat (length value))); [done|]. split; [done|].
  rewrite versionForNewData_on. split; [by apply setDirty_ok|]. exists m, L0. split_and!; [done..|].
  intros k Kk'. rewrite (overlay_write key value) by done. unfold writeMap. by rewrite E.
Qed.

Lemma RetrieveValue_spec K tr tdt L key : properKeys K -> Storage K tr tdt L -> K key ->
  exists tr', Storage K tr' tdt L /\
    ((exists depth, RetrieveValue key tdt tr = (tr', Ok (default [] (L key), depth))) \/
     (tr = None /\ dirty tdt !! key = None /\ RetrieveValue key tdt tr = (tr', Err ErrNilTrie))).
Proof.
  intros P (D & m & L0 & H & R & E) Kk. unfold RetrieveValue.
  destruct (dirty tdt !! key) as [e|] eqn:Ed.
  - exists tr. split; [split; [done|by exists m, L0]|]. left. exists 0. rewrite E by done. unfold overlay. rewrite Ed.
    unfold nonempty. by destruct (decide (dd_value e = [])) as [->|].
  - destruct tr as [t|].
    2:{ exists None. split; [split; [done|by exists m, L0]|]. by right. }
    destruct (slot_retrieve tdt m key (L0 key) false (Holds_noEmpty t m H) (R key Kk)) as (d & Er & Eg).
    destruct (retrieve_spec t m key false H (proj1 (proper_key K P key Kk))) as (t' & H' & Q). rewrite Er in Q.
    destruct Q as [depth Q]. exists (Some t'). split; [split; [done|by exists m, L0]|]. left. exists depth.
    unfold onDataTrie, mbind, se_bind, se_lift. rewrite Q, Eg, E by done. unfold overlay. by rewrite Ed.
Qed.

(** [updateTrie] is its loop. *)
Lemma updateTrie_result tdt t :
  match updateTrie_loop (dirtyKeys tdt) tdt (loopStart tdt) t with
  | (t', Err e) => updateTrie tdt t = (t', Err e)
  | (t', Ok l) => exists changes, updateTrie tdt t =
      (t', Ok (changes, ul_oldValues l ++ ul_appended l, {| dirty := ∅; identifier := identifier tdt |}))
  end.
Proof.
  unfold updateTrie. fold (loopStart tdt). unfold mbind, se_bind.
  destruct (updateTrie_loop _ _ _ t) as [t' [l|e]]; [by eexists|done].
Qed.

Lemma updateTrie_saves K tdt t m L : properKeys K -> dirtyOk K tdt -> Holds t m -> represents K (identifier tdt) m L ->
  exists t' changes olds m', updateTrie tdt t =
    (t', Ok (changes, olds, {| dirty := ∅; identifier := identifier tdt |})) /\ Holds t' m' /\
    represents K (identifier tdt) m' (overlay tdt L).
Proof.
  intros P D H R. pose proof (updateTrie_result tdt t) as U.
  assert (F : Forall K (dirtyKeys tdt)).
  { apply Forall_forall. intros k Kk. apply (dirty_keys K tdt D). by apply elem_of_dirtyKeys. }
  pose proof (NoDup_dirtyKeys tdt) as N.
  destruct (updateTrie_ends tdt t m H (dirtyOk_written K tdt P D))
    as [(t' & e & ks & key & rest & l & m1 & _ & _ & E & A & B)|(t' & l & m' & E & H' & A & _)].
  - exfalso. rewrite E in F, N. apply Forall_app in F as [F [Kkey _]%Forall_cons]. apply NoDup_app in N as (N & Nk & _).
    assert (I : is_Some (dirty tdt !! key)).
    { apply elem_of_dirtyKeys. rewrite E. apply elem_of_app. right. apply list_elem_of_here. }
    destruct B as [B|B].
    + pose proof (keySteps_represents K _ _ _ _ _ _ _ (la_steps _ _ _ _ _ A) P N F R key Kkey) as S.
      eapply slot_readable; [|exact S|exact B].
      apply (keySteps_undo _ _ _ _ _ _ (la_steps _ _ _ _ _ A)); [by eapply Holds_noEmpty|done].
    + destruct I as [e0 Ee]. pose proof (proj2 (dirty_entry K tdt D key e0 Ee)) as Q.
      unfold entryOf in B. rewrite Ee in B. cbn in B. lia.
  - rewrite E in U. destruct U as [changes U]. exists t', changes, (ul_oldValues l ++ ul_appended l), m'.
    split_and!; [done..|]. intros k Kk.
    pose proof (keySteps_represents K _ _ _ _ _ _ _ (la_steps _ _ _ _ _ A) P N F R k Kk) as S. cbn beta in S.
    unfold overlay. unfold entryOf in S. destruct (dirty tdt !! k) as [e|] eqn:Ek.
    + rewrite decide_True in S; [done|]. apply elem_of_dirtyKeys. by rewrite Ek.
    + rewrite decide_False in S; [done|]. rewrite elem_of_dirtyKeys, Ek. by intros [].
Qed.

(** ** Saving *)

(** [Recreate] of the main trie gives an empty trie for no root hash. *)
Definition recreatesEmpty (Recreate : bytes -> result trie_error T) : Prop :=
  exists t, Recreate [] = Ok t /\ Holds t ∅.

(** Whatever trie it gives for no root hash is empty. *)
Definition emptyForEmpty (Recreate : bytes -> result trie_error T) : Prop := forall t, Recreate [] = Ok t -> Holds t ∅.

Lemma recreatesEmpty_only Recreate : recreatesEmpty Recreate -> emptyForEmpty Recreate.
Proof. intros (t & E & H) t'. rewrite E. by intros [= <-]. Qed.

(** The trie that is updated. *)
Lemma SaveDirtyData_cases Recreate tdt tr m : HoldsOpt tr m -> dirty tdt <> ∅ -> emptyForEmpty Recreate ->
  (exists e, tr = None /\ SaveDirtyData Recreate tdt tr = (tr, Err e)) \/
  (exists t, Holds t m /\ SaveDirtyData Recreate tdt tr = onDataTrie (updateTrie tdt) (Some t)).
Proof.
  intros H N Em. unfold SaveDirtyData. destruct (Nat.eqb_spec (size (dirty tdt)) 0) as [Z|_].
  - by apply map_size_empty_iff in Z.
  - destruct tr as [t|]; [right; by exists t|]. cbn in H. subst m. destruct (Recreate []) as [t|e] eqn:E.
    + right. exists t. split; [by apply Em|done].
    + left. by exists (ErrTrie e).
Qed.

Lemma SaveDirtyData_trie Recreate tdt tr m : HoldsOpt tr m -> dirty tdt <> ∅ -> recreatesEmpty Recreate ->
  exists t, Holds t m /\ SaveDirtyData Recreate tdt tr = onDataTrie (updateTrie tdt) (Some t).
Proof.
  intros H N Rc. destruct (SaveDirtyData_cases Recreate tdt tr m H N) as [(e & -> & Er)|]; [by apply recreatesEmpty_only| |done].
  exfalso. destruct Rc as (t & E & _). revert Er. unfold SaveDirtyData. rewrite E.
  destruct (Nat.eqb_spec (size (dirty tdt)) 0) as [Z|_]; [by apply map_size_empty_iff in Z|].
  unfold onDataTrie. by destruct (updateTrie tdt t).
Qed.

Lemma SaveDirtyData_empty Recreate tdt tr : dirty tdt = ∅ -> SaveDirtyData Recreate tdt tr = (tr, Ok ([], [], tdt)).
Proof. intros E. unfold SaveDirtyData. by rewrite E, map_size_empty. Qed.

Lemma SaveDirtyData_spec K Recreate tr tdt L : properKeys K -> recreatesEmpty Recreate -> Storage K tr tdt L ->
  exists tr' changes olds tdt', SaveDirtyData Recreate tdt tr = (tr', Ok (changes, olds, tdt')) /\
    dirty tdt' = ∅ /\ Storage K tr' tdt' L.
Proof.
  intros P Rc S. destruct (decide (dirty tdt = ∅)) as [E|E].
  - exists tr, [], [], tdt. by rewrite SaveDirtyData_empty.
  - destruct S as (D & m & L0 & H & R & EL).
    destruct (SaveDirtyData_trie Recreate tdt tr m H E Rc) as (t & Ht & ->).
    destruct (updateTrie_saves K tdt t m L0 P D Ht R) as (t' & changes & olds & m' & Eu & H' & R').
    eexists (Some t'), changes, olds, _. unfold onDataTrie. rewrite Eu. split; [done|]. split; [done|]. split.
    + constructor; cbn; intros k; [|intros e]; rewrite lookup_empty; [by intros []|done].
    + exists m', (overlay tdt L0). split_and!; [done..|]. cbn. intros k Kk. rewrite EL by done.
      unfold overlay at 2. cbn. by rewrite lookup_empty.
Qed.

(** A save that fails leaves the contents as they were. *)
Lemma SaveDirtyData_failed Recreate tr tdt m tr' e : emptyForEmpty Recreate -> HoldsOpt tr m -> allWritten tdt ->
  SaveDirtyData Recreate tdt tr = (tr', Err e) -> HoldsOpt tr' m.
Proof.
  intros Rc H W. destruct (decide (dirty tdt = ∅)) as [E|E]; [by rewrite SaveDirtyData_empty|].
  destruct (SaveDirtyData_cases Recreate tdt tr m H E Rc) as [(e' & _ & ->)|(t & Ht & ->)]; [by intros [= <- _]|].
  pose proof (updateTrie_result tdt t) as U. unfold onDataTrie.
  destruct (updateTrie_ends tdt t m Ht W) as [(t' & e' & ks & key & rest & l & m1 & El & Ht' & _)|(t' & l & m' & El & _)];
    rewrite El in U.
  - rewrite U. by intros [= <- _].
  - destruct U as [changes ->]. by intros [=].
Qed.

(** What a save returns takes it back, and the root hash with it. *)
Lemma revertUpdates_spec us : forall t m, Forall wfUpdate us -> Holds t m ->
  exists t', revertUpdates us t = (t', Ok ()) /\ Holds t' (fold_left undoOne us m).
Proof.
  induction us as [|d us IH]; intros t m F H; [by exists t|]. apply Forall_cons in F as [[Kd V] F].
  destruct (UpdateWithVersion_ok t m (td_Key d) (valueOf d) (td_Version d) H Kd V) as (t1 & E & H1).
  destruct (IH t1 _ F H1) as (t' & E' & H'). exists t'. split; [|done].
  cbn [revertUpdates]. unfold onTrie, se_mapErr, mbind, se_bind. by rewrite E.
Qed.

Lemma keyStep_wf tdt m key value old ap delta m' : is_key key -> keyStep tdt m key value old ap delta m' ->
  wfUpdate old /\ Forall wfUpdate ap.
Proof.
  intros K S. pose proof (proj1 (leaf_Compute_key key)) as Kh. pose proof AB_byte as B.
  assert (Z0 : 0 <= NS < 256) by (rewrite NotSpecified_version; lia).
  assert (G : forall k, is_key k -> Forall wfUpdate [newTrieData k None 0]).
  { intros k Kk. apply Forall_singleton. split; [done|]. cbn. lia. }
  destruct S as [k version _ _ C V| | | | |]; (split; [split; [|done]|try done; by apply G]); try done.
  by destruct C as [[-> _]|[-> _]].
Qed.

Lemma keySteps_wf tdt m keys O A m' : keySteps tdt m keys O A m' -> Forall (written tdt) keys ->
  Forall wfUpdate (O ++ A).
Proof.
  induction 1 as [m|m m1 m2 keys key O A old ap delta _ IH S]; intros F; [done|].
  apply Forall_app in F as [F [[K _ _] _]%Forall_cons]. destruct (keyStep_wf _ _ _ _ _ _ _ _ K S) as [W W'].
  apply Forall_app in IH as [IO IA]; [|done].
  rewrite !Forall_app. split_and!; [done|by apply Forall_singleton|done|done].
Qed.

(** What a save returns takes it back. *)
Lemma SaveDirtyData_saved Recreate tr tdt m tr' changes olds tdt' :
  emptyForEmpty Recreate -> HoldsOpt tr m -> allWritten tdt -> dirty tdt <> ∅ ->
  SaveDirtyData Recreate tdt tr = (tr', Ok (changes, olds, tdt')) ->
  exists t' m', tr' = Some t' /\ Holds t' m' /\ Forall wfUpdate olds /\ undo olds m' = m /\
    tdt' = {| dirty := ∅; identifier := identifier tdt |}.
Proof.
  intros Rc H W E. destruct (SaveDirtyData_cases Recreate tdt tr m H E Rc) as [(e & _ & ->)|(t & Ht & ->)]; [by intros [=]|].
  pose proof (updateTrie_result tdt t) as U. unfold onDataTrie.
  destruct (updateTrie_ends tdt t m Ht W) as [(t' & e' & ks & key & rest & l & m1 & El & _)|(t' & l & m' & El & Ht' & A & _)];
    rewrite El in U.
  - rewrite U. by intros [=].
  - destruct U as [changes' ->]. intros [= <- _ <- <-]. pose proof (la_steps _ _ _ _ _ A) as S.
    destruct (keySteps_undo _ _ _ _ _ _ S (Holds_noEmpty t m Ht) (NoDup_dirtyKeys tdt)) as (Un & _).
    exists t', m'. split_and!; [done..| |done|done].
    eapply keySteps_wf; [exact S|]. apply Forall_forall. intros k K. apply W. by apply elem_of_dirtyKeys.
Qed.

(** Reverting the journal entry undoes the updates. *)
Lemma Revert_undoes olds t m : Forall wfUpdate olds -> Holds t m ->
  exists t' h, journalEntryDataTrieUpdates_Revert olds t = (t', Ok h) /\ Holds t' (undo olds m) /\ HashedAs (undo olds m) h.
Proof.
  intros F H. destruct (revertUpdates_spec (List.rev olds) t m) as (t1 & E1 & H1); [by apply Forall_rev|done|].
  change (Holds t1 (undo olds m)) in H1. destruct (RootHash_ok t1 _ H1) as (t2 & h & E2 & H2 & Q).
  exists t2, h. split; [|done]. unfold journalEntryDataTrieUpdates_Revert, mbind, se_bind, onTrie, se_mapErr.
  by rewrite E1, E2.
Qed.

Lemma SaveDirtyData_reverted Recreate tr tdt m tr' changes olds tdt' :
  emptyForEmpty Recreate -> HoldsOpt tr m -> allWritten tdt -> dirty tdt <> ∅ ->
  SaveDirtyData Recreate tdt tr = (tr', Ok (changes, olds, tdt')) ->
  exists t' t'' h, tr' = Some t' /\ journalEntryDataTrieUpdates_Revert olds t' = (t'', Ok h) /\
    Holds t'' m /\ HashedAs m h.
Proof.
  intros Rc H W N E.
  destruct (SaveDirtyData_saved Recreate tr tdt m tr' changes olds tdt' Rc H W N E) as (t' & m' & -> & H' & F & <- & _).
  destruct (Revert_undoes olds t' m' F H') as (t'' & h & E'' & ? & ?). by exists t', t'', h.
Qed.

Lemma SaveDirtyData_some Recreate tdt t tr' r : SaveDirtyData Recreate tdt (Some t) = (tr', r) -> is_Some tr'.
Proof.
  unfold SaveDirtyData. destruct (size (dirty tdt) =? 0)%nat; [by intros [= <- _]|]. unfold onDataTrie.
  destruct (updateTrie tdt t) as [t' r']. by intros [= <- _].
Qed.

(** Both ends of a save. *)
Lemma SaveDirtyData_outcome Recreate tdt tr m : emptyForEmpty Recreate -> HoldsOpt tr m -> allWritten tdt ->
  exists tr' r m', SaveDirtyData Recreate tdt tr = (tr', r) /\ HoldsOpt tr' m' /\ (is_Some tr -> is_Some tr') /\
    match r with
    | Err _ => m' = m
    | Ok (_, olds, tdt') => allWritten tdt' /\ Forall wfUpdate olds /\ undo olds m' = m /\ (olds <> [] -> is_Some tr')
    end.
Proof.
  intros Rc H W. destruct (SaveDirtyData Recreate tdt tr) as [tr' r] eqn:E. exists tr', r.
  assert (Hs : is_Some tr -> is_Some tr') by (intros [t ->]; by eapply SaveDirtyData_some).
  destruct (decide (dirty tdt = ∅)) as [Ed|Nd].
  { rewrite SaveDirtyData_empty in E by done. injection E as <- <-. exists m. by split_and!. }
  destruct r as [[[changes olds] tdt']|e].
  - destruct (SaveDirtyData_saved Recreate tr tdt m tr' changes olds tdt' Rc H W Nd E) as (t' & m' & -> & H' & F & U & ->).
    exists m'. split_and!; try done. intros k [x Q]. cbn in Q. by rewrite lookup_empty in Q.
  - exists m. split_and!; try done. by eapply SaveDirtyData_failed.
Qed.

Lemma keySteps_length tdt m keys O A m' : keySteps tdt m keys O A m' -> length O = length keys.
Proof. induction 1 as [m|m m1 m2 keys key O A old ap delta _ IH _]; [done|]. rewrite !length_app. cbn. lia. Qed.

Lemma dirtyKeys_nonempty tdt : dirty tdt <> ∅ -> dirtyKeys tdt <> [].
Proof.
  intros N E. apply N, map_empty. intros k. apply eq_None_not_Some. intros S%elem_of_dirtyKeys. rewrite E in S.
  by apply not_elem_of_nil in S.
Qed.

(** A save of dirty data: the contents, and what it returns to be journalled. *)
Lemma SaveDirtyData_stores K Recreate tr tdt L : properKeys K -> recreatesEmpty Recreate -> Storage K tr tdt L ->
  dirty tdt <> ∅ ->
  exists t' changes olds m', SaveDirtyData Recreate tdt tr =
      (Some t', Ok (changes, olds, {| dirty := ∅; identifier := identifier tdt |})) /\ Holds t' m' /\
    represents K (identifier tdt) m' L /\ olds <> [] /\ Forall wfUpdate olds.
Proof.
  intros P Rc (D & m & L0 & H & R & EL) N.
  destruct (SaveDirtyData_trie Recreate tdt tr m H N Rc) as (t & Ht & Es).
  destruct (updateTrie_saves K tdt t m L0 P D Ht R) as (t' & changes & olds & m' & Eu & H' & R').
  rewrite Es. unfold onDataTrie. exists t', changes, olds, m'. rewrite Eu. split; [done|]. split; [done|].
  split; [intros key Kk; rewrite EL by done; by apply R'|].
  pose proof (updateTrie_result tdt t) as U.
  destruct (updateTrie_ends tdt t m Ht (dirtyOk_written K tdt P D))
    as [(t1 & e & ks & key & rest & l & m1 & El & _)|(t1 & l & m1 & El & _ & A & _)]; rewrite El in U; [congruence|].
  destruct U as [changes' U]. rewrite Eu in U. injection U as -> -> ->. pose proof (la_steps _ _ _ _ _ A) as St. split.
  - intros [E _]%app_eq_nil. apply keySteps_length in St. rewrite E in St.
    by apply (dirtyKeys_nonempty tdt N), nil_length_inv.
  - eapply keySteps_wf; [exact St|]. apply Forall_forall. intros k Kk.
    apply (dirtyOk_written K tdt P D). by apply elem_of_dirtyKeys.
Qed.
End Map.
