(* ===== verification/StateProperties.v ===== *)
(** * Properties of the storage of an account

    The theorems about state/trackableDataTrie/trackableDataTrie.go, over any
    trie that satisfies the interface of StateTrie, with witnesses on a
    concrete patricia merkle trie. *)

From Stdlib Require Import ZArith Lia.
From stdpp Require Import base gmap list sorting.
From S2P Require Import Prelude Encoding KeyBuilder TrieNode PatriciaTrie PatriciaSpec TrieProperties.
From S2P Require Import StateTrie Validators GoCollections TrackableDataTrie TrackableSpec TrackableMap.

Section Properties.
Context {TE : TrackableEnv} {TOk : TrackableOk TE} {KR : KeyRange} {KOk : KeyRangeOk KR}.
Context {T : Type} {DT : DataTrie T} {DOk : DataTrieOk T}.
Implicit Types (tr : option T) (tdt : trackableDataTrie) (L : storageMap).


(** C26. A save that fails, at whatever leaf and for whatever reason, leaves the
    contents of the trie as they were. *)
Theorem failed_save_changes_nothing Recreate tr tr' tdt m e (HR : recreatesEmpty Recreate) (Hm : HoldsOpt tr m)
    (HW : allWritten tdt) (E : SaveDirtyData Recreate tdt tr = (tr', Err e)) : HoldsOpt tr' m.
Proof. apply recreatesEmpty_only in HR. by eapply SaveDirtyData_failed. Qed.

(** C27. Reverting the journal entry of a successful save, the old values that
    it returned, restores the contents of the trie and its root hash, also when
    leaves were migrated and keys coincide with hashes of other keys. *)
Theorem save_is_reverted Recreate tr tr' tdt tdt' m changes olds (HR : recreatesEmpty Recreate) (Hm : HoldsOpt tr m)
    (HW : allWritten tdt) (Hd : dirty tdt <> ∅)
    (E : SaveDirtyData Recreate tdt tr = (tr', Ok (changes, olds, tdt'))) :
  exists t' t'' h, tr' = Some t' /\ journalEntryDataTrieUpdates_Revert olds t' = (t'', Ok h) /\ Holds t'' m /\
    (forall t0 t1 h0, Holds t0 m -> RootHash t0 = (t1, Ok h0) -> h0 = h).
Proof.
  destruct (SaveDirtyData_reverted Recreate tr tdt m tr' changes olds tdt' (recreatesEmpty_only _ HR) Hm HW Hd E)
    as (t' & t'' & h & -> & Er & H & Q).
  exists t', t'', h. split_and!; [done..|]. intros t0 t1 h0 H0 E0.
  destruct (RootHash_ok t0 m H0) as (t2 & h1 & E1 & _ & Q1). rewrite E0 in E1. injection E1 as _ <-.
  by apply (HashedAs_fun m).
Qed.
End Properties.

(** ** A concrete account *)

Definition ex_MarshalLeaf (l : TrieLeafData) : result state_error bytes :=
  Ok (enc_lists [tld_Value l; tld_Key l; tld_Address l]).
Definition ex_UnmarshalLeaf (b : bytes) : result state_error TrieLeafData :=
  match dec_lists 3 b with
  | Some ([v; k; a], _) => Ok {| tld_Value := v; tld_Key := k; tld_Address := a |}
  | _ => Err ErrMarshal
  end.

#[export] Instance exTrackable : TrackableEnv := {|
  AutoBalanceEnabled := 1; VersionNotSpecified := 0; MaxLeafSize := 100; versionForNewData := 1;
  AutoBalanceDataTriesFlag := true; FixDataTrieLeafValidationFlag := true;
  leaf_Compute := fun b => 1 :: ((fun x => x mod 256) <$> b);
  MarshalLeaf := ex_MarshalLeaf; UnmarshalLeaf := ex_UnmarshalLeaf;
|}.

#[export] Instance exTrackable_ok : TrackableOk exTrackable.
Proof.
  constructor; cbn; try done.
  - intros b. split; [|done]. apply Forall_cons. split; [unfold is_byte; lia|].
    apply Forall_fmap, Forall_true. intros x. cbn. unfold is_byte. apply Z.mod_pos_bound. lia.
  - intros [v k a]. eexists. split; [done|]. split; [done|]. unfold ex_UnmarshalLeaf. cbn [tld_Value tld_Key tld_Address].
    pose proof (dec_enc_lists [v; k; a] []) as E. rewrite app_nil_r in E. cbn [length] in E. by rewrite E.
Qed.

#[export] Instance exRange : KeyRange := elements.
#[export] Instance exRange_ok : KeyRangeOk exRange.
Proof. by intros X. Qed.

#[export] Instance exDataTrie : DataTrie patriciaMerkleTrie := patriciaDataTrie (∅ : exDB).
#[export] Instance exDataTrie_ok : DataTrieOk patriciaMerkleTrie := patriciaDataTrie_ok (∅ : exDB).

Definition ex_Recreate (root : bytes) : result trie_error patriciaMerkleTrie := recreate root (∅ : exDB) ex_empty.

Lemma ex_recreatesEmpty : recreatesEmpty ex_Recreate.
Proof. eexists. split; [vm_compute; reflexivity|]. done. Qed.

(** The leaf of [7] is of the old version, that of [8] of the new; [9] is new. *)
Definition ex_address : bytes := [65].
Definition ex_leaf (key value : bytes) : bytes := enc_lists [value; key; ex_address].
Definition ex_dataTrie : patriciaMerkleTrie :=
  ex_update [1; 8] (ex_leaf [8] [6]) 1 (ex_update [7] ([5; 5] ++ [7] ++ ex_address) 0 ex_empty).
Definition ex_data : contents := put [1; 8] (ex_leaf [8] [6]) 1 (put [7] ([5; 5] ++ [7] ++ ex_address) 0 ∅).

Lemma ex_data_holds : HoldsOpt (Some ex_dataTrie) ex_data.
Proof. cbn. repeat (apply ex_update_rep; [|solve_key|solve_entry]). done. Qed.

Definition ex_entry (index : Z) (value : bytes) : dirtyData :=
  {| dd_index := index; dd_value := value; dd_newVersion := 1 |}.
Definition ex_account : trackableDataTrie :=
  {| dirty := <[[9] := ex_entry 2 [4]]> (<[[8] := ex_entry 1 []]> (<[[7] := ex_entry 0 [3]]> ∅)); identifier := ex_address |}.

Definition ex_keys (k : bytes) : Prop := k ∈ [[7]; [8]; [9]].

Lemma ex_keys_proper : properKeys ex_keys.
Proof.
  unfold ex_keys. constructor.
  - intros k. rewrite !elem_of_cons, elem_of_nil. intros [->|[->|[->|[]]]]; (split; [solve_key|done]).
  - intros k k'. rewrite !elem_of_cons, !elem_of_nil. by intros [->|[->|[->|[]]]] [->|[->|[->|[]]]].
  - intros k k'. rewrite !elem_of_cons, !elem_of_nil. by intros [->|[->|[->|[]]]] [->|[->|[->|[]]]].
Qed.

Lemma ex_account_keys key : is_Some (dirty ex_account !! key) -> ex_keys key.
Proof.
  unfold ex_keys. cbn. rewrite !lookup_insert_is_Some, lookup_empty, !elem_of_cons, elem_of_nil.
  intros [?|[_ [?|[_ [?|[_ [x E]]]]]]]; subst; auto. discriminate E.
Qed.

Lemma ex_account_written : allWritten ex_account.
Proof.
  intros key K. apply ex_account_keys in K. pose proof (proper_key _ ex_keys_proper key K) as [? ?].
  unfold ex_keys in K. rewrite !elem_of_cons, elem_of_nil in K.
  constructor; [done..|]. by destruct K as [->|[->|[->|[]]]].
Qed.




Lemma save_is_reverted_witness : exists tr' changes olds tdt' t' t'' h,
  SaveDirtyData ex_Recreate ex_account (Some ex_dataTrie) = (tr', Ok (changes, olds, tdt')) /\ length olds = 4%nat /\
  tr' = Some t' /\ journalEntryDataTrieUpdates_Revert olds t' = (t'', Ok h) /\ Holds t'' ex_data.
Proof.
  destruct (SaveDirtyData ex_Recreate ex_account (Some ex_dataTrie)) as [tr' r] eqn:E.
  assert (L : match r with Ok (_, olds, _) => length olds = 4%nat | Err _ => False end)
    by (change r with (tr', r).2; rewrite <- E; by vm_compute).
  destruct r as [[[changes olds] tdt']|]; [|done].
  destruct (save_is_reverted ex_Recreate (Some ex_dataTrie) tr' ex_account tdt' ex_data changes olds ex_recreatesEmpty
              ex_data_holds ex_account_written ltac:(done) E) as (t' & t'' & h & Q & Er & H & _).
  by exists tr', changes, olds, tdt', t', t'', h.
Defined.

(** The leaf of [8] is that of another account: the save fails after [7] was
    migrated. *)
Definition ex_badTrie : patriciaMerkleTrie :=
  ex_update [1; 8] (enc_lists [[6]; [8]; [66]]) 1 (ex_update [7] ([5; 5] ++ [7] ++ ex_address) 0 ex_empty).
Definition ex_badData : contents := put [1; 8] (enc_lists [[6]; [8]; [66]]) 1 (put [7] ([5; 5] ++ [7] ++ ex_address) 0 ∅).

Lemma ex_badData_holds : HoldsOpt (Some ex_badTrie) ex_badData.
Proof. cbn. repeat (apply ex_update_rep; [|solve_key|solve_entry]). done. Qed.

Lemma failed_save_changes_nothing_witness : exists tr',
  SaveDirtyData ex_Recreate ex_account (Some ex_badTrie) = (tr', Err ErrInvalidDataTrieLeaf) /\ HoldsOpt tr' ex_badData.
Proof.
  destruct (SaveDirtyData ex_Recreate ex_account (Some ex_badTrie)) as [tr' r] eqn:E.
  assert (L : r = Err ErrInvalidDataTrieLeaf) by (change r with (tr', r).2; rewrite <- E; by vm_compute).
  subst r. exists tr'. split; [done|].
  exact (failed_save_changes_nothing ex_Recreate (Some ex_badTrie) tr' ex_account ex_badData ErrInvalidDataTrieLeaf
           ex_recreatesEmpty ex_badData_holds ex_account_written E).
Defined.
