(* ===== verification/UserAccount.v ===== *)
(** * User accounts (state/accounts/userAccount.go)

    The data of an account that go to the main trie, and the object that
    callers change before they save it.  The storage of the account is a
    [trackableDataTrie]; its data trie is a pointer. *)

From Stdlib Require Import ZArith Lia.
From stdpp Require Import base gmap list.
From S2P Require Import Prelude GoValues TrieNode StateTrie GoCollections TrackableDataTrie.

Record UserAccountData := {
  Nonce : Z;
  Balance : Z;
  CodeHash : bytes;
  RootHash_ : bytes;
  Address : bytes;
  DeveloperReward : Z;
  OwnerAddress : bytes;
  UserName : bytes;
  CodeMetadata : bytes;
}.

Record userAccount := {
  ua_data : UserAccountData;
  ua_tracker : trackableDataTrie;
  ua_dataTrie : option nat;
  ua_code : bytes;
  ua_hasNewCode : bool;
}.

Definition data_with_Nonce (v : Z) (d : UserAccountData) : UserAccountData :=
  {| Nonce := v; Balance := Balance d; CodeHash := CodeHash d; RootHash_ := RootHash_ d; Address := Address d;
     DeveloperReward := DeveloperReward d; OwnerAddress := OwnerAddress d; UserName := UserName d; CodeMetadata := CodeMetadata d |}.
Definition data_with_Balance (v : Z) (d : UserAccountData) : UserAccountData :=
  {| Nonce := Nonce d; Balance := v; CodeHash := CodeHash d; RootHash_ := RootHash_ d; Address := Address d;
     DeveloperReward := DeveloperReward d; OwnerAddress := OwnerAddress d; UserName := UserName d; CodeMetadata := CodeMetadata d |}.
Definition data_with_CodeHash (v : bytes) (d : UserAccountData) : UserAccountData :=
  {| Nonce := Nonce d; Balance := Balance d; CodeHash := v; RootHash_ := RootHash_ d; Address := Address d;
     DeveloperReward := DeveloperReward d; OwnerAddress := OwnerAddress d; UserName := UserName d; CodeMetadata := CodeMetadata d |}.
Definition data_with_RootHash (v : bytes) (d : UserAccountData) : UserAccountData :=
  {| Nonce := Nonce d; Balance := Balance d; CodeHash := CodeHash d; RootHash_ := v; Address := Address d;
     DeveloperReward := DeveloperReward d; OwnerAddress := OwnerAddress d; UserName := UserName d; CodeMetadata := CodeMetadata d |}.
Definition data_with_DeveloperReward (v : Z) (d : UserAccountData) : UserAccountData :=
  {| Nonce := Nonce d; Balance := Balance d; CodeHash := CodeHash d; RootHash_ := RootHash_ d; Address := Address d;
     DeveloperReward := v; OwnerAddress := OwnerAddress d; UserName := UserName d; CodeMetadata := CodeMetadata d |}.
Definition data_with_OwnerAddress (v : bytes) (d : UserAccountData) : UserAccountData :=
  {| Nonce := Nonce d; Balance := Balance d; CodeHash := CodeHash d; RootHash_ := RootHash_ d; Address := Address d;
     DeveloperReward := DeveloperReward d; OwnerAddress := v; UserName := UserName d; CodeMetadata := CodeMetadata d |}.
Definition data_with_UserName (v : bytes) (d : UserAccountData) : UserAccountData :=
  {| Nonce := Nonce d; Balance := Balance d; CodeHash := CodeHash d; RootHash_ := RootHash_ d; Address := Address d;
     DeveloperReward := DeveloperReward d; OwnerAddress := OwnerAddress d; UserName := v; CodeMetadata := CodeMetadata d |}.
Definition data_with_CodeMetadata (v : bytes) (d : UserAccountData) : UserAccountData :=
  {| Nonce := Nonce d; Balance := Balance d; CodeHash := CodeHash d; RootHash_ := RootHash_ d; Address := Address d;
     DeveloperReward := DeveloperReward d; OwnerAddress := OwnerAddress d; UserName := UserName d; CodeMetadata := v |}.

(** The same object with other data, storage or data trie. *)
Definition onData (f : UserAccountData -> UserAccountData) (a : userAccount) : userAccount :=
  {| ua_data := f (ua_data a); ua_tracker := ua_tracker a; ua_dataTrie := ua_dataTrie a; ua_code := ua_code a;
     ua_hasNewCode := ua_hasNewCode a |}.
Definition setTracker (t : trackableDataTrie) (a : userAccount) : userAccount :=
  {| ua_data := ua_data a; ua_tracker := t; ua_dataTrie := ua_dataTrie a; ua_code := ua_code a;
     ua_hasNewCode := ua_hasNewCode a |}.
Definition SetDataTrie (t : nat) (a : userAccount) : userAccount :=
  {| ua_data := ua_data a; ua_tracker := ua_tracker a; ua_dataTrie := Some t; ua_code := ua_code a;
     ua_hasNewCode := ua_hasNewCode a |}.

Definition NewUserAccount (address : bytes) : result state_error userAccount :=
  if (length address =? 0)%nat then Err ErrNilAddress
  else Ok {| ua_data := {| Nonce := 0; Balance := 0; CodeHash := []; RootHash_ := []; Address := address; DeveloperReward := 0;
                           OwnerAddress := []; UserName := []; CodeMetadata := [] |};
             ua_tracker := {| dirty := ∅; identifier := address |}; ua_dataTrie := None; ua_code := []; ua_hasNewCode := false |}.

Definition AddressBytes (a : userAccount) : bytes := Address (ua_data a).
Definition SetUserName (userName : bytes) (a : userAccount) : userAccount := onData (data_with_UserName userName) a.

Definition AddToBalance (value : Z) (a : userAccount) : result state_error userAccount :=
  let newBalance := Balance (ua_data a) + value in
  if newBalance <? 0 then Err ErrInsufficientFunds else Ok (onData (data_with_Balance newBalance) a).
Definition SubFromBalance (value : Z) (a : userAccount) : result state_error userAccount :=
  let newBalance := Balance (ua_data a) - value in
  if newBalance <? 0 then Err ErrInsufficientFunds else Ok (onData (data_with_Balance newBalance) a).

Definition ClaimDeveloperRewards (sndAddress : bytes) (a : userAccount) : result state_error (userAccount * Z) :=
  if negb (bool_decide (sndAddress = OwnerAddress (ua_data a))) then Err ErrOperationNotPermitted
  else Ok (onData (data_with_DeveloperReward 0) a, DeveloperReward (ua_data a)).
Definition AddToDeveloperReward (value : Z) (a : userAccount) : userAccount :=
  onData (data_with_DeveloperReward (DeveloperReward (ua_data a) + value)) a.

Definition ChangeOwnerAddress (sndAddress newAddress : bytes) (a : userAccount) : result state_error userAccount :=
  if negb (bool_decide (sndAddress = OwnerAddress (ua_data a))) then Err ErrOperationNotPermitted
  else if negb (length newAddress =? length (Address (ua_data a)))%nat then Err ErrInvalidAddressLength
  else Ok (onData (data_with_OwnerAddress newAddress) a).
Definition SetOwnerAddress (address : bytes) (a : userAccount) : userAccount := onData (data_with_OwnerAddress address) a.

Definition IncreaseNonce (value : Z) (a : userAccount) : userAccount :=
  onData (data_with_Nonce (u64 (Nonce (ua_data a) + value))) a.
Definition SetCodeHash (codeHash : bytes) (a : userAccount) : userAccount := onData (data_with_CodeHash codeHash) a.
Definition SetRootHash (roothash : bytes) (a : userAccount) : userAccount := onData (data_with_RootHash roothash) a.
Definition SetCodeMetadata (codeMetadata : bytes) (a : userAccount) : userAccount := onData (data_with_CodeMetadata codeMetadata) a.

Definition SetCode (code : bytes) (a : userAccount) : userAccount :=
  {| ua_data := ua_data a; ua_tracker := ua_tracker a; ua_dataTrie := ua_dataTrie a; ua_code := code; ua_hasNewCode := true |}.
Definition HasNewCode (a : userAccount) : bool := ua_hasNewCode a.

(** A write to the storage, by the method of the embedded tracker. *)
Definition account_SaveKeyValue {TE : TrackableEnv} (key value : bytes) (a : userAccount) : result state_error userAccount :=
  t ← SaveKeyValue key value (ua_tracker a); Ok (setTracker t a).
