(* ===== verification/AccountsDB.v ===== *)
(** * The accounts database (state/accountsDB.go, state/dataTriesHolder.go)

    Accounts and contract codes are leaves of the main trie, the storage of an
    account is a trie of its own.  Account objects and tries are shared: the
    caller of [SaveAccount] keeps its account, the journal keeps it too, and a
    data trie is reached from the account, from the holder of data tries and
    from the journal.  Both are therefore pointers into lists of the state.
    What the collector of state accesses records is left out; a commit hands
    it the new root hash, and whether it takes it is an argument. *)

From Stdlib Require Import ZArith Lia.
From stdpp Require Import base gmap list sorting.
From S2P Require Import Prelude GoValues TrieNode StateTrie Validators GoCollections TrackableDataTrie UserAccount.

(** What the database uses of common.Trie; [S] is the storage that its tries
    share. *)
Class StateTries (S T : Type) := {
  onStorage : S -> DataTrie T;
  Recreate : S -> bytes -> T -> result trie_error T;
  Commit : SE (T * S) trie_error ();
  GetOldRoot : T -> bytes;
  GetObsoleteHashes : T -> list bytes;
  GetDirtyHashes : SE T trie_error (gset bytes);
  GetAllHashes : S -> SE T trie_error (list bytes);
}.

(** state/codeEntry.proto *)
Record CodeEntry := {
  Code : bytes;
  NumReferences : Z;
}.

(** Hasher and marshalizer; [UnmarshalAccount] fills the fields of an account. *)
Class AccountsEnv := {
  code_Compute : bytes -> bytes;
  MarshalAccount : UserAccountData -> result state_error bytes;
  UnmarshalAccount : bytes -> UserAccountData -> result state_error UserAccountData;
  MarshalCode : CodeEntry -> result state_error bytes;
  UnmarshalCode : bytes -> result state_error CodeEntry;
  pruningEnabled : bool;
}.

(** state.StoragePruningManager: what the commit uses of it. *)
Class StoragePruning (P : Type) :=
  MarkForEviction : bytes -> bytes -> gset bytes -> gset bytes -> SE P state_error ().

(** state/journalEntries.go: the account of data trie updates is that of the
    caller, the one of an account entry was made for the journal. *)
Inductive JournalEntry :=
| journalEntryCode (oldCodeEntry : option CodeEntry) (oldCodeHash : bytes) (newCodeEntry : option CodeEntry)
    (newCodeHash : bytes)
| journalEntryAccount (account : userAccount)
| journalEntryAccountCreation (address : bytes)
| journalEntryDataTrieUpdates (trieUpdates : list TrieData) (account : nat)
| journalEntryDataTrieRemove (rootHash : bytes).

Record AccountsDB (S T P : Type) := {
  mainTrie : T;
  storage : S;
  storagePruningManager : P;
  triePointers : list T;
  accountPointers : list userAccount;
  dataTries : gmap bytes nat;
  obsoleteDataTrieHashes : gmap bytes (list bytes);
  lastRootHash : bytes;
  entries : list JournalEntry;
}.
Arguments mainTrie {S T P}.
Arguments storage {S T P}.
Arguments storagePruningManager {S T P}.
Arguments triePointers {S T P}.
Arguments accountPointers {S T P}.
Arguments dataTries {S T P}.
Arguments obsoleteDataTrieHashes {S T P}.
Arguments lastRootHash {S T P}.
Arguments entries {S T P}.

Section Accounts.
Context {S T P : Type} {ST : StateTries S T} {SP : StoragePruning P}.
Context {AE : AccountsEnv} {TE : TrackableEnv} {KR : KeyRange}.

Abbreviation DB := (AccountsDB S T P).
Abbreviation ADB := (SE DB state_error).
Implicit Types (adb : DB).

(** ** Fields and pointers *)

Definition with_mainTrie (t : T) adb : DB :=
  {| mainTrie := t; storage := storage adb; storagePruningManager := storagePruningManager adb;
     triePointers := triePointers adb; accountPointers := accountPointers adb; dataTries := dataTries adb;
     obsoleteDataTrieHashes := obsoleteDataTrieHashes adb; lastRootHash := lastRootHash adb; entries := entries adb |}.
Definition with_storage (s : S) adb : DB :=
  {| mainTrie := mainTrie adb; storage := s; storagePruningManager := storagePruningManager adb;
     triePointers := triePointers adb; accountPointers := accountPointers adb; dataTries := dataTries adb;
     obsoleteDataTrieHashes := obsoleteDataTrieHashes adb; lastRootHash := lastRootHash adb; entries := entries adb |}.
Definition with_pruning (p : P) adb : DB :=
  {| mainTrie := mainTrie adb; storage := storage adb; storagePruningManager := p;
     triePointers := triePointers adb; accountPointers := accountPointers adb; dataTries := dataTries adb;
     obsoleteDataTrieHashes := obsoleteDataTrieHashes adb; lastRootHash := lastRootHash adb; entries := entries adb |}.
Definition with_triePointers (l : list T) adb : DB :=
  {| mainTrie := mainTrie adb; storage := storage adb; storagePruningManager := storagePruningManager adb;
     triePointers := l; accountPointers := accountPointers adb; dataTries := dataTries adb;
     obsoleteDataTrieHashes := obsoleteDataTrieHashes adb; lastRootHash := lastRootHash adb; entries := entries adb |}.
Definition with_accountPointers (l : list userAccount) adb : DB :=
  {| mainTrie := mainTrie adb; storage := storage adb; storagePruningManager := storagePruningManager adb;
     triePointers := triePointers adb; accountPointers := l; dataTries := dataTries adb;
     obsoleteDataTrieHashes := obsoleteDataTrieHashes adb; lastRootHash := lastRootHash adb; entries := entries adb |}.
Definition with_dataTries (m : gmap bytes nat) adb : DB :=
  {| mainTrie := mainTrie adb; storage := storage adb; storagePruningManager := storagePruningManager adb;
     triePointers := triePointers adb; accountPointers := accountPointers adb; dataTries := m;
     obsoleteDataTrieHashes := obsoleteDataTrieHashes adb; lastRootHash := lastRootHash adb; entries := entries adb |}.
Definition with_obsolete (m : gmap bytes (list bytes)) adb : DB :=
  {| mainTrie := mainTrie adb; storage := storage adb; storagePruningManager := storagePruningManager adb;
     triePointers := triePointers adb; accountPointers := accountPointers adb; dataTries := dataTries adb;
     obsoleteDataTrieHashes := m; lastRootHash := lastRootHash adb; entries := entries adb |}.
Definition with_lastRootHash (h : bytes) adb : DB :=
  {| mainTrie := mainTrie adb; storage := storage adb; storagePruningManager := storagePruningManager adb;
     triePointers := triePointers adb; accountPointers := accountPointers adb; dataTries := dataTries adb;
     obsoleteDataTrieHashes := obsoleteDataTrieHashes adb; lastRootHash := h; entries := entries adb |}.
Definition with_entries (l : list JournalEntry) adb : DB :=
  {| mainTrie := mainTrie adb; storage := storage adb; storagePruningManager := storagePruningManager adb;
     triePointers := triePointers adb; accountPointers := accountPointers adb; dataTries := dataTries adb;
     obsoleteDataTrieHashes := obsoleteDataTrieHashes adb; lastRootHash := lastRootHash adb; entries := l |}.

(** A call on the main trie. *)
Definition onMainTrie {A} (m : DataTrie T -> SE T trie_error A) : ADB A := fun adb =>
  let '(t, r) := m (onStorage (storage adb)) (mainTrie adb) in
  (with_mainTrie t adb, match r with Ok a => Ok a | Err e => Err (ErrTrie e) end).

Definition main_Get (key : bytes) : ADB (option bytes) :=
  '(val, _, _) ← onMainTrie (fun _ => GetWithVersion key); mret val.
Definition main_Update (key value : bytes) : ADB () := onMainTrie (fun _ => UpdateWithVersion key value 0).
Definition main_Delete (key : bytes) : ADB () := onMainTrie (fun _ => Delete key).

(** The account behind a pointer; a pointer to nothing is nil. *)
Definition accountAt (account : nat) : ADB userAccount := fun adb =>
  (adb, match accountPointers adb !! account with Some a => Ok a | None => Err ErrNilAccountHandler end).
Definition setAccount (account : nat) (a : userAccount) adb : DB :=
  with_accountPointers (<[account := a]> (accountPointers adb)) adb.
Definition newAccount (a : userAccount) : ADB nat := fun adb =>
  (with_accountPointers (accountPointers adb ++ [a]) adb, Ok (length (accountPointers adb))).
Definition newTrie (t : T) : ADB nat := fun adb =>
  (with_triePointers (triePointers adb ++ [t]) adb, Ok (length (triePointers adb))).

(** What a method of an account's storage left of its data trie: the trie
    itself, or a new one that the account now has. *)
Definition storeDataTrie (account : nat) (tr : option T) adb : DB :=
  match accountPointers adb !! account, tr with
  | Some a, Some t =>
      match ua_dataTrie a with
      | Some p => with_triePointers (<[p := t]> (triePointers adb)) adb
      | None => setAccount account (SetDataTrie (length (triePointers adb)) a)
                  (with_triePointers (triePointers adb ++ [t]) adb)
      end
  | _, _ => adb
  end.

(** A method of the storage of an account; it returns the new tracker. *)
Definition onAccountStorage {A} (account : nat)
    (m : DataTrie T -> trackableDataTrie -> SE (option T) state_error (A * trackableDataTrie)) : ADB A := fun adb =>
  match accountPointers adb !! account with
  | None => (adb, Err ErrNilAccountHandler)
  | Some a =>
      let '(tr, r) := m (onStorage (storage adb)) (ua_tracker a) (p ← ua_dataTrie a; triePointers adb !! p) in
      let adb := storeDataTrie account tr adb in
      match r with
      | Ok (x, tracker) =>
          (with_accountPointers (alter (setTracker tracker) account (accountPointers adb)) adb, Ok x)
      | Err e => (adb, Err e)
      end
  end.

(** The storage methods that callers use. *)
Definition userAccount_RetrieveValue (account : nat) (key : bytes) : ADB (bytes * Z) :=
  onAccountStorage account (fun _ tdt =>
    r ← TrackableDataTrie.RetrieveValue key tdt; mret (r, tdt)).
Definition userAccount_SaveDirtyData (account : nat) : ADB (list DataTrieChange * list TrieData) := fun adb =>
  onAccountStorage account (fun _ tdt =>
    '(newValues, oldValues, tdt) ← TrackableDataTrie.SaveDirtyData
        (fun rootHash => Recreate (storage adb) rootHash (mainTrie adb)) tdt;
    mret (newValues, oldValues, tdt)) adb.
(** A call on the data trie of an account. *)
Definition dataTrie_RootHash (account : nat) : ADB bytes :=
  onAccountStorage account (fun _ tdt => h ← onDataTrie (onTrie RootHash); mret (h, tdt)).

(** A method that changes the fields of an account. *)
Definition userAccount_do (account : nat) (f : userAccount -> result state_error userAccount) : ADB () := fun adb =>
  match accountPointers adb !! account with
  | None => (adb, Err ErrNilAccountHandler)
  | Some a => match f a with Ok a => (setAccount account a adb, Ok ()) | Err e => (adb, Err e) end
  end.

(** ** Journal *)

Definition NewJournalEntryAccountCreation (address : bytes) : result state_error JournalEntry :=
  if (length address =? 0)%nat then Err ErrInvalidAddressLength else Ok (journalEntryAccountCreation address).
Definition NewJournalEntryDataTrieUpdates (trieUpdates : list TrieData) (account : nat)
    : result state_error JournalEntry :=
  if (length trieUpdates =? 0)%nat then Err ErrNilOrEmptyDataTrieUpdates
  else Ok (journalEntryDataTrieUpdates trieUpdates account).
Definition NewJournalEntryDataTrieRemove (rootHash : bytes) : result state_error JournalEntry :=
  if (length rootHash =? 0)%nat then Err ErrInvalidRootHash else Ok (journalEntryDataTrieRemove rootHash).

Definition journalize (entry : JournalEntry) : ADB () :=
  se_modify (fun adb => with_entries (entries adb ++ [entry]) adb).
Definition JournalLen adb : nat := length (entries adb).

(** ** Codes *)

Definition GetCode (codeHash : bytes) : ADB bytes := fun adb =>
  if (length codeHash =? 0)%nat then (adb, Ok [])
  else
    match main_Get codeHash adb with
    | (adb, Err _) => (adb, Ok [])
    | (adb, Ok val) =>
        (adb, Ok (match UnmarshalCode (default [] val) with Ok codeEntry => Code codeEntry | Err _ => [] end))
    end.

Definition getCodeEntry (codeHash : bytes) : ADB (option CodeEntry) :=
  val ← main_Get codeHash;
  if (length (default [] val) =? 0)%nat then mret None
  else codeEntry ← se_lift (UnmarshalCode (default [] val)); mret (Some codeEntry).

Definition saveCodeEntry (codeHash : bytes) (entry : CodeEntry) : ADB bytes :=
  codeEntry ← se_lift (MarshalCode entry);
  _ ← main_Update codeHash codeEntry;
  mret codeEntry.

Definition updateOldCodeEntry (oldCodeHash : bytes) (oldCodeEntry : option CodeEntry) : ADB () :=
  match oldCodeEntry with
  | None => mret ()
  | Some oldCodeEntry =>
      if NumReferences oldCodeEntry <=? 1 then main_Delete oldCodeHash
      else
        _ ← saveCodeEntry oldCodeHash
              {| Code := Code oldCodeEntry; NumReferences := u32 (NumReferences oldCodeEntry - 1) |};
        mret ()
  end.

Definition updateNewCodeEntry (newCodeHash : bytes) (newCodeEntry : option CodeEntry) (newCode : bytes) : ADB () :=
  if (length newCode =? 0)%nat then mret ()
  else
    let references := match newCodeEntry with Some e => NumReferences e | None => 0 end in
    _ ← saveCodeEntry newCodeHash {| Code := newCode; NumReferences := u32 (references + 1) |};
    mret ().

Definition saveCode (account : nat) (oldAcc : option userAccount) : ADB () :=
  newAcc ← accountAt account;
  if negb (HasNewCode newAcc) then mret ()
  else
    let oldCodeHash := match oldAcc with Some old => CodeHash (ua_data old) | None => [] end in
    let newCode := ua_code newAcc in
    let newCodeHash := if (length newCode =? 0)%nat then [] else code_Compute newCode in
    if bool_decide (oldCodeHash = newCodeHash)
    then userAccount_do account (fun a => Ok (SetCodeHash newCodeHash a))
    else
      oldCodeEntry ← getCodeEntry oldCodeHash;
      newCodeEntry ← getCodeEntry newCodeHash;
      _ ← journalize (journalEntryCode oldCodeEntry oldCodeHash newCodeEntry newCodeHash);
      _ ← updateOldCodeEntry oldCodeHash oldCodeEntry;
      _ ← updateNewCodeEntry newCodeHash newCodeEntry newCode;
      userAccount_do account (fun a => Ok (SetCodeHash newCodeHash a)).

(** ** Loading *)

Definition isReservedAccountAddress (address value : bytes) : bool :=
  match UnmarshalCode value with
  | Err _ => false
  | Ok codeEntry =>
      if (length (Code codeEntry) =? 0)%nat then false else bool_decide (code_Compute (Code codeEntry) = address)
  end.

(** accountCreator.CreateAccount, then [Unmarshal] into the account. *)
Definition accountFromBytes (address value : bytes) : result state_error userAccount :=
  acnt ← NewUserAccount address;
  data ← UnmarshalAccount value (ua_data acnt);
  Ok (onData (fun _ => data) acnt).

Definition getAccount (address : bytes) : ADB (option userAccount) :=
  val ← main_Get address;
  match val with
  | None => mret None
  | Some val =>
      acnt ← se_lift (NewUserAccount address);
      match UnmarshalAccount val (ua_data acnt) with
      | Ok data => mret (Some (onData (fun _ => data) acnt))
      | Err err => se_lift (Err (if isReservedAccountAddress address val then ErrAccountAddressIsReserved else err))
      end
  end.

(** [main] is the main trie of the caller; it is that of the database. *)
Definition loadDataTrieConcurrentSafe (account : nat) : ADB () :=
  a ← accountAt account;
  adb ← se_get;
  match dataTries adb !! AddressBytes a with
  | Some dataTrie => userAccount_do account (fun a => Ok (SetDataTrie dataTrie a))
  | None =>
      if (length (RootHash_ (ua_data a)) =? 0)%nat then mret ()
      else
        match Recreate (storage adb) (RootHash_ (ua_data a)) (mainTrie adb) with
        | Err e => se_lift (Err (ErrTrie e))
        | Ok t =>
            dataTrie ← newTrie t;
            _ ← userAccount_do account (fun a => Ok (SetDataTrie dataTrie a));
            se_modify (fun adb => with_dataTries (<[AddressBytes a := dataTrie]> (dataTries adb)) adb)
        end
  end.

Definition LoadAccount (address : bytes) : ADB nat :=
  if (length address =? 0)%nat then se_lift (Err ErrNilAddress)
  else
    acnt ← getAccount address;
    match acnt with
    | None => acnt ← se_lift (NewUserAccount address); newAccount acnt
    | Some acnt =>
        account ← newAccount acnt;
        _ ← loadDataTrieConcurrentSafe account;
        mret account
    end.

Definition GetExistingAccount (address : bytes) : ADB nat :=
  if (length address =? 0)%nat then se_lift (Err ErrNilAddress)
  else
    acnt ← getAccount address;
    match acnt with
    | None => se_lift (Err ErrAccNotFound)
    | Some acnt =>
        account ← newAccount acnt;
        _ ← loadDataTrieConcurrentSafe account;
        mret account
    end.

Definition GetAccountFromBytes (address accountBytes : bytes) : ADB nat :=
  if (length address =? 0)%nat then se_lift (Err ErrNilAddress)
  else
    acnt ← se_lift (accountFromBytes address accountBytes);
    account ← newAccount acnt;
    _ ← loadDataTrieConcurrentSafe account;
    mret account.

(** ** Saving *)

Definition saveDataTrie (account : nat) : ADB (list DataTrieChange) :=
  '(newValues, oldValues) ← userAccount_SaveDirtyData account;
  if (length oldValues =? 0)%nat then mret []
  else
    entry ← se_lift (NewJournalEntryDataTrieUpdates oldValues account);
    _ ← journalize entry;
    rootHash ← dataTrie_RootHash account;
    _ ← userAccount_do account (fun a => Ok (SetRootHash rootHash a));
    a ← accountAt account;
    adb ← se_get;
    _ ← match dataTries adb !! AddressBytes a, ua_dataTrie a with
        | None, Some trie => se_modify (fun adb => with_dataTries (<[AddressBytes a := trie]> (dataTries adb)) adb)
        | _, _ => mret ()
        end;
    mret newValues.

Definition saveCodeAndDataTrie (oldAcc : option userAccount) (account : nat) : ADB (list DataTrieChange) :=
  newValues ← saveDataTrie account;
  _ ← saveCode account oldAcc;
  mret newValues.

Definition saveAccountToTrie (a : userAccount) : ADB bytes :=
  buff ← se_lift (MarshalAccount (ua_data a));
  _ ← main_Update (AddressBytes a) buff;
  mret buff.

Definition ImportAccount (account : nat) : ADB () :=
  a ← accountAt account;
  _ ← saveAccountToTrie a;
  mret ().

Definition SaveAccount (account : nat) : ADB () :=
  a ← accountAt account;
  oldAccount ← getAccount (AddressBytes a);
  entry ← match oldAccount with
          | None => se_lift (NewJournalEntryAccountCreation (AddressBytes a))
          | Some old => mret (journalEntryAccount old)
          end;
  _ ← journalize entry;
  _ ← saveCodeAndDataTrie oldAccount account;
  a ← accountAt account;
  _ ← saveAccountToTrie a;
  mret ().

(** ** Removing *)

Definition removeCode (baseAcc : userAccount) : ADB () :=
  let oldCodeHash := CodeHash (ua_data baseAcc) in
  oldCodeEntry ← getCodeEntry oldCodeHash;
  _ ← journalize (journalEntryCode oldCodeEntry oldCodeHash None []);
  updateOldCodeEntry oldCodeHash oldCodeEntry.

Definition removeDataTrie (baseAcc : userAccount) : ADB () :=
  let rootHash := RootHash_ (ua_data baseAcc) in
  if (length rootHash =? 0)%nat then mret ()
  else
    adb ← se_get;
    match Recreate (storage adb) rootHash (mainTrie adb) with
    | Err e => se_lift (Err (ErrTrie e))
    | Ok dataTrie =>
        match GetAllHashes (storage adb) dataTrie with
        | (_, Err e) => se_lift (Err (ErrTrie e))
        | (_, Ok hashes) =>
            _ ← se_modify (fun adb => with_obsolete (<[rootHash := hashes]> (obsoleteDataTrieHashes adb)) adb);
            entry ← se_lift (NewJournalEntryDataTrieRemove rootHash);
            journalize entry
        end
    end.

Definition removeCodeAndDataTrie (acnt : userAccount) : ADB () :=
  _ ← removeCode acnt;
  removeDataTrie acnt.

Definition RemoveAccount (address : bytes) : ADB () :=
  if (length address =? 0)%nat then se_lift (Err ErrNilAddress)
  else
    acnt ← getAccount address;
    match acnt with
    | None => se_lift (Err ErrAccNotFound)
    | Some acnt =>
        _ ← journalize (journalEntryAccount acnt);
        _ ← removeCodeAndDataTrie acnt;
        main_Delete address
    end.

(** ** Reverting *)

Definition revertCodeEntry (codeHash : bytes) (codeEntry : option CodeEntry) : ADB () :=
  if (length codeHash =? 0)%nat then mret ()
  else
    match codeEntry with
    | None => main_Update codeHash []
    | Some entry => _ ← saveCodeEntry codeHash entry; mret ()
    end.

(** The methods Revert: the account that is to be saved, if any. *)
Definition journalEntryCode_Revert (oldCodeEntry : option CodeEntry) (oldCodeHash : bytes) (newCodeEntry : option CodeEntry)
    (newCodeHash : bytes) : ADB (option userAccount) :=
  if bool_decide (oldCodeHash = newCodeHash) then mret None
  else
    _ ← revertCodeEntry oldCodeHash oldCodeEntry;
    _ ← revertCodeEntry newCodeHash newCodeEntry;
    mret None.
Definition journalEntryAccount_Revert (account : userAccount) : ADB (option userAccount) := mret (Some account).
Definition journalEntryAccountCreation_Revert (address : bytes) : ADB (option userAccount) :=
  _ ← main_Update address []; mret None.
(** The updates of the data trie are those of TrackableDataTrie. *)
Definition entryDataTrieUpdates_Revert (trieUpdates : list TrieData) (account : nat) : ADB (option userAccount) :=
  rootHash ← onAccountStorage account (fun _ tdt =>
    h ← onDataTrie (journalEntryDataTrieUpdates_Revert trieUpdates); mret (h, tdt));
  _ ← userAccount_do account (fun a => Ok (SetRootHash rootHash a));
  a ← accountAt account;
  mret (Some a).
Definition journalEntryDataTrieRemove_Revert (rootHash : bytes) : ADB (option userAccount) :=
  _ ← se_modify (fun adb => with_obsolete (base.delete rootHash (obsoleteDataTrieHashes adb)) adb);
  mret None.

Definition Revert (entry : JournalEntry) : ADB (option userAccount) :=
  match entry with
  | journalEntryCode oldCodeEntry oldCodeHash newCodeEntry newCodeHash =>
      journalEntryCode_Revert oldCodeEntry oldCodeHash newCodeEntry newCodeHash
  | journalEntryAccount account => journalEntryAccount_Revert account
  | journalEntryAccountCreation address => journalEntryAccountCreation_Revert address
  | journalEntryDataTrieUpdates trieUpdates account => entryDataTrieUpdates_Revert trieUpdates account
  | journalEntryDataTrieRemove rootHash => journalEntryDataTrieRemove_Revert rootHash
  end.

(** An entry that cannot be reverted stays, with those before it. *)
Definition orKeepEntries {A} (i : nat) (m : ADB A) : ADB A := fun adb =>
  match m adb with
  | (adb, Err err) => (with_entries (take (i + 1) (entries adb)) adb, Err err)
  | r => r
  end.

(** The loop, from [snapshot + count - 1] down to [snapshot]. *)
Fixpoint revert_loop (snapshot count : nat) : ADB () :=
  match count with
  | O => mret ()
  | Datatypes.S count =>
      let i := (snapshot + count)%nat in
      adb ← se_get;
      _ ← match entries adb !! i with
          | None => mret ()
          | Some entry =>
              account ← orKeepEntries i (Revert entry);
              match account with
              | None => mret ()
              | Some account => orKeepEntries i (_ ← saveAccountToTrie account; mret ())
              end
          end;
      revert_loop snapshot count
  end.

(** ** Recreating *)

Definition recreateTrie (rootHash : bytes) : ADB () := fun adb =>
  let adb := with_entries [] (with_dataTries ∅ (with_obsolete ∅ adb)) in
  match Recreate (storage adb) rootHash (mainTrie adb) with
  | Err e => (adb, Err (ErrTrie e))
  | Ok newTrie => (with_mainTrie newTrie adb, Ok ())
  end.

Definition RevertToSnapshot (snapshot : Z) : ADB () :=
  adb ← se_get;
  if (Z.of_nat (length (entries adb)) <? snapshot) || (snapshot <? 0) then se_lift (Err ErrSnapshotValueOutOfBounds)
  else if snapshot =? 0 then recreateTrie (lastRootHash adb)
  else
    _ ← revert_loop (Z.to_nat snapshot) (length (entries adb) - Z.to_nat snapshot);
    se_modify (fun adb => with_entries (take (Z.to_nat snapshot) (entries adb)) adb).

Definition main_RootHash : ADB bytes := onMainTrie (fun _ => RootHash).

Definition RecreateTrie (rootHash : bytes) : ADB () :=
  _ ← recreateTrie rootHash;
  se_modify (with_lastRootHash rootHash).

Definition recreateTrieIfNeeded (rootHash : bytes) : ADB () :=
  currentRootHash ← main_RootHash;
  if bool_decide (currentRootHash = rootHash) then mret () else recreateTrie rootHash.

Definition RecreateTrieIfNeeded (rootHash : bytes) : ADB () :=
  _ ← recreateTrieIfNeeded rootHash;
  se_modify (with_lastRootHash rootHash).

(** ** Committing *)

(** The hashes that the commit of a trie makes obsolete and new. *)
Definition commitTrie (hashes : gset bytes * gset bytes) : SE (T * S) trie_error (gset bytes * gset bytes) :=
  hashes ← if pruningEnabled then
             '(tr, _) ← se_get;
             newTrieHashes ← se_zoom fst (fun tr p => (tr, snd p)) GetDirtyHashes;
             mret (fst hashes ∪ list_to_set (GetObsoleteHashes tr), snd hashes ∪ newTrieHashes)
           else mret hashes;
  _ ← Commit;
  mret hashes.

(** Of a data trie and of the main trie. *)
Definition commitDataTrie (trie : nat) (hashes : gset bytes * gset bytes) : ADB (gset bytes * gset bytes) := fun adb =>
  match triePointers adb !! trie with
  | None => (adb, Ok hashes)
  | Some t =>
      let '((t, s), r) := commitTrie hashes (t, storage adb) in
      (with_storage s (with_triePointers (<[trie := t]> (triePointers adb)) adb),
       match r with Ok hashes => Ok hashes | Err e => Err (ErrTrie e) end)
  end.
Definition commitMainTrie (hashes : gset bytes * gset bytes) : ADB (gset bytes * gset bytes) := fun adb =>
  let '((t, s), r) := commitTrie hashes (mainTrie adb, storage adb) in
  (with_storage s (with_mainTrie t adb), match r with Ok hashes => Ok hashes | Err e => Err (ErrTrie e) end).

Fixpoint commitDataTries (tries : list nat) (hashes : gset bytes * gset bytes) : ADB (gset bytes * gset bytes) :=
  match tries with
  | [] => mret hashes
  | trie :: tries => hashes ← commitDataTrie trie hashes; commitDataTries tries hashes
  end.

(** dataTriesHolder.GetAll: a map is visited in any order. *)
Definition GetAll (tries : gmap bytes nat) : list nat := snd <$> rangeMap tries.

Definition markForEviction (oldRoot newRoot : bytes) (hashes : gset bytes * gset bytes) : ADB () := fun adb =>
  if negb pruningEnabled then (adb, Ok ())
  else
    let oldHashes := fst hashes ∪ list_to_set (concat (snd <$> rangeMap (obsoleteDataTrieHashes adb))) in
    let '(p, r) := MarkForEviction oldRoot newRoot oldHashes (snd hashes) (storagePruningManager adb) in
    (with_pruning p adb, r).

(** [CommitCollectedAccesses] is the outcome of the collector of state accesses
    for the new root hash. *)
Definition commit (CommitCollectedAccesses : bytes -> result state_error ()) : ADB bytes :=
  _ ← se_modify (with_entries []);
  adb ← se_get;
  hashes ← commitDataTries (GetAll (dataTries adb)) (∅, ∅);
  _ ← se_modify (with_dataTries ∅);
  adb ← se_get;
  let oldRoot := GetOldRoot (mainTrie adb) in
  hashes ← commitMainTrie hashes;
  newRoot ← main_RootHash;
  _ ← se_lift (CommitCollectedAccesses newRoot);
  _ ← markForEviction oldRoot newRoot hashes;
  _ ← se_modify (fun adb => with_obsolete ∅ (with_lastRootHash newRoot adb));
  mret newRoot.

(** NewAccountsDB, over a trie. *)
Definition NewAccountsDB (Trie : T) (s : S) (p : P) : DB :=
  {| mainTrie := Trie; storage := s; storagePruningManager := p; triePointers := []; accountPointers := [];
     dataTries := ∅; obsoleteDataTrieHashes := ∅; lastRootHash := []; entries := [] |}.
End Accounts.
