(* ===== verification/AccountsSpec.v ===== *)
(** * The accounts database over the contents of its tries

    What the laws of tries, hasher and marshalizers make of the primitives of
    AccountsDB: the main trie is a map of accounts and codes, the data tries
    are a list of maps, and reverting a journal entry writes to both. *)

From Stdlib Require Import ZArith Lia.
From stdpp Require Import base gmap list sorting.
From S2P Require Import Prelude GoValues TrieNode PatriciaSpec StateTrie Validators GoCollections TrackableDataTrie.
From S2P Require Import TrackableSpec TrackableMap UserAccount AccountsDB.

(** The account that is filled by [Unmarshal]. *)
Definition emptyData (address : bytes) : UserAccountData :=
  {| Nonce := 0; Balance := 0; CodeHash := []; RootHash_ := []; Address := address; DeveloperReward := 0;
     OwnerAddress := []; UserName := []; CodeMetadata := [] |}.
Definition accountOf (data : UserAccountData) : userAccount :=
  {| ua_data := data; ua_tracker := {| dirty := ∅; identifier := Address data |}; ua_dataTrie := None; ua_code := [];
     ua_hasNewCode := false |}.

(** A code that is referenced, by less accounts than its counter can hold. *)
Definition codeOk (c : CodeEntry) : Prop := Code c <> [] /\ 0 <= NumReferences c < 2 ^ 32.

(** Accounts and codes are told apart by the fields that they start with. *)
Class AccountsEnvOk (AE : AccountsEnv) : Prop := {
  code_Compute_key b : is_key (code_Compute b) /\ code_Compute b <> [];
  MarshalAccount_ok d : exists b, MarshalAccount d = Ok b /\ b <> [] /\ UnmarshalAccount b (emptyData (Address d)) = Ok d;
  MarshalCode_ok c : codeOk c -> exists b, MarshalCode c = Ok b /\ b <> [] /\ UnmarshalCode b = Ok c;
  account_not_code d b : MarshalAccount d = Ok b -> exists e, UnmarshalCode b = Err e;
  code_not_account c b a : codeOk c -> MarshalCode c = Ok b -> exists e, UnmarshalAccount b a = Err e;
}.

(** [StorageOk s]: the storage has no root of a trie without the rest of it. *)
Class StateTriesOk (S T : Type) {ST : StateTries S T} := {
  tries_ok : forall s : S, @DataTrieOk T (onStorage s);
  StorageOk : S -> Prop;
  Recreate_empty : forall s t t', Recreate s [] t = Ok t' -> @Holds T (onStorage s) (tries_ok s) t' ∅;
  Recreate_root : forall s m h t t', StorageOk s -> @HashedAs T (onStorage s) (tries_ok s) m h ->
    Recreate s h t = Ok t' -> exists m', @Holds T (onStorage s) (tries_ok s) t' m';
}.

(** The storage: tries that are committed remain, and can be recreated from
    their root hash. *)
Class StateCommitOk (S T : Type) {ST : StateTries S T} {STOk : StateTriesOk S T} := {
  extends : S -> S -> Prop;
  extends_preorder : PreOrder extends;
  Holds_extends : forall s s' t m, extends s s' -> @Holds T _ (tries_ok s) t m -> @Holds T _ (tries_ok s') t m;
  HashedAs_extends : forall s s' m h, extends s s' -> @HashedAs T _ (tries_ok s) m h -> @HashedAs T _ (tries_ok s') m h;
  Persisted : S -> contents -> Prop;
  Persisted_extends : forall s s' m, extends s s' -> Persisted s m -> Persisted s' m;
  GetDirtyHashes_ok : forall s t m, @Holds T _ (tries_ok s) t m ->
    exists t' hashes, GetDirtyHashes t = (t', Ok hashes) /\ @Holds T _ (tries_ok s) t' m;
  Commit_ok : forall s t m, @Holds T _ (tries_ok s) t m -> StorageOk s ->
    exists t' s', Commit (t, s) = ((t', s'), Ok ()) /\ @Holds T _ (tries_ok s') t' m /\ extends s s' /\
      StorageOk s' /\ Persisted s' m;
  Recreate_persisted : forall s t m0 m h, @Holds T _ (tries_ok s) t m0 -> Persisted s m ->
    @HashedAs T _ (tries_ok s) m h -> exists t', Recreate s h t = Ok t' /\ @Holds T _ (tries_ok s) t' m;
  Recreate_none : forall s t m0, @Holds T _ (tries_ok s) t m0 ->
    exists t', Recreate s [] t = Ok t' /\ @Holds T _ (tries_ok s) t' ∅;
  HashedAs_nonempty : forall s m h, @HashedAs T _ (tries_ok s) m h -> h <> [];
}.

(** ** The main trie as a map *)

(** Main tries have no versions. *)
Definition unversioned (M : contents) : Prop := forall k v version, M !! k = Some (v, version) -> version = 0.
Definition write (key value : bytes) (M : contents) : contents := change key value 0 M.

Lemma lookup_write key value M k : unversioned M ->
  write key value M !! k = if decide (k = key) then (if decide (value = []) then None else Some (value, 0)) else M !! k.
Proof.
  intros U. unfold write. rewrite lookup_change. case_decide as E; [|done]. case_decide; [done|].
  case_decide as F; [|done]. destruct (M !! key) as [[v version]|] eqn:L; [|done].
  injection F as ->. by rewrite (U _ _ _ L).
Qed.

Lemma write_unversioned key value M : unversioned M -> unversioned (write key value M).
Proof.
  intros U k v version. rewrite lookup_write by done. repeat case_decide; [done|by intros [= _ <-]|apply U].
Qed.

Section Accounts.
Context {S T P : Type} {ST : StateTries S T} {STOk : StateTriesOk S T} {SP : StoragePruning P}.
Context {AE : AccountsEnv} {AOk : AccountsEnvOk AE} {TE : TrackableEnv} {TOk : TrackableOk TE}.
Context {KR : KeyRange} {KOk : KeyRangeOk KR}.

Abbreviation DB := (AccountsDB S T P).
Abbreviation ADB := (SE DB state_error).
Implicit Types (adb : DB) (M : contents) (D : list contents).

#[local] Instance trieOf (s : S) : DataTrie T := onStorage s.
#[local] Instance trieOf_ok (s : S) : @DataTrieOk T (trieOf s) := tries_ok s.

Definition HoldsAt (s : S) : T -> contents -> Prop := @Holds T (trieOf s) (trieOf_ok s).

(** A root hash, or none. *)
Definition validRoot (s : S) (rootHash : bytes) : Prop :=
  rootHash = [] \/ exists m, @HashedAs T (trieOf s) (trieOf_ok s) m rootHash.

Lemma validRoot_recreated s rootHash t t' : StorageOk s -> validRoot s rootHash -> Recreate s rootHash t = Ok t' ->
  exists m, HoldsAt s t' m.
Proof.
  intros O [->|[m H]] E; [exists ∅; by eapply Recreate_empty|by eapply Recreate_root].
Qed.

(** Addresses and code hashes are bytes. *)
Record dataOk (s : S) (d : UserAccountData) : Prop := {
  data_address : is_key (Address d) /\ Address d <> [];
  data_codeHash : is_key (CodeHash d);
  data_rootHash : validRoot s (RootHash_ d);
}.

(** The leaf of an account or of a code. *)
Definition leafOk (s : S) (k v : bytes) : Prop :=
  (exists d, dataOk s d /\ Address d = k /\ MarshalAccount d = Ok v) \/ (exists c, codeOk c /\ MarshalCode c = Ok v).

Record canonical (s : S) M : Prop := {
  canonical_key k : is_Some (M !! k) -> is_key k /\ k <> [];
  canonical_unversioned : unversioned M;
  canonical_leaf k v version : M !! k = Some (v, version) -> leafOk s k v;
}.

Lemma leafOk_nonempty s k v : leafOk s k v -> v <> [].
Proof.
  intros [(d & _ & _ & E)|(c & C & E)].
  - destruct (MarshalAccount_ok d) as (b & E' & N & _). congruence.
  - destruct (MarshalCode_ok c C) as (b & E' & N & _). congruence.
Qed.

Lemma canonical_write s M k v : canonical s M -> is_key k -> k <> [] -> leafOk s k v \/ v = [] ->
  canonical s (write k v M).
Proof.
  intros C K N V. pose proof (canonical_unversioned s M C) as U. constructor.
  - intros k'. rewrite lookup_write by done. case_decide as E; [by subst|]. apply (canonical_key s M C).
  - by apply write_unversioned.
  - intros k' v' version. rewrite lookup_write by done. repeat case_decide; [done| |apply (canonical_leaf s M C)].
    intros [= <- _]. subst. by destruct V.
Qed.

Lemma account_leaf s d b : dataOk s d -> MarshalAccount d = Ok b -> leafOk s (Address d) b.
Proof. intros O E. left. by exists d. Qed.
Lemma code_leaf s k c b : codeOk c -> MarshalCode c = Ok b -> leafOk s k b.
Proof. intros C E. right. by exists c. Qed.

(** ** Pointers *)

Record accountOk (s : S) (tries : nat) (a : userAccount) : Prop := {
  account_data : dataOk s (ua_data a);
  account_written : allWritten (ua_tracker a);
  account_trie p : ua_dataTrie a = Some p -> (p < tries)%nat;
}.

Definition codeEntryOk (codeHash : bytes) (codeEntry : option CodeEntry) : Prop :=
  is_key codeHash /\ match codeEntry with Some c => codeOk c | None => True end.

Definition entryOk (s : S) (accounts : list userAccount) (e : JournalEntry) : Prop :=
  match e with
  | journalEntryCode oldEntry oldHash newEntry newHash => codeEntryOk oldHash oldEntry /\ codeEntryOk newHash newEntry
  | journalEntryAccount a => dataOk s (ua_data a)
  | journalEntryAccountCreation address => is_key address /\ address <> []
  | journalEntryDataTrieUpdates updates account => Forall wfUpdate updates /\
      exists a, accounts !! account = Some a /\ is_Some (ua_dataTrie a)
  | journalEntryDataTrieRemove _ => True
  end.

(** The database holds the map [M] and the data tries [D]. *)
Record consistent adb M D : Prop := {
  storage_ok : StorageOk (storage adb);
  main_holds : HoldsAt (storage adb) (mainTrie adb) M;
  main_canonical : canonical (storage adb) M;
  tries_hold : Forall2 (HoldsAt (storage adb)) (triePointers adb) D;
  accounts_ok : Forall (accountOk (storage adb) (length D)) (accountPointers adb);
  holder_ok address p : dataTries adb !! address = Some p -> (p < length D)%nat;
  journal_ok : Forall (entryOk (storage adb) (accountPointers adb)) (entries adb);
}.

(** What remains of an account object, whatever is done to it. *)
Definition sameAccount (a a' : userAccount) : Prop :=
  AddressBytes a' = AddressBytes a /\ (forall p, ua_dataTrie a = Some p -> ua_dataTrie a' = Some p).
Definition stable (l l' : list userAccount) : Prop :=
  forall account a, l !! account = Some a -> exists a', l' !! account = Some a' /\ sameAccount a a'.

Lemma sameAccount_refl a : sameAccount a a.
Proof. by split. Qed.
Lemma sameAccount_trans a b c : sameAccount a b -> sameAccount b c -> sameAccount a c.
Proof. intros [E H] [E' H']. split; [congruence|auto]. Qed.
Lemma stable_refl l : stable l l.
Proof. intros account a E. exists a. by split; [|apply sameAccount_refl]. Qed.
Lemma stable_trans l1 l2 l3 : stable l1 l2 -> stable l2 l3 -> stable l1 l3.
Proof.
  intros H H' account a E. destruct (H account a E) as (b & Eb & Sb). destruct (H' account b Eb) as (c & Ec & Sc).
  exists c. split; [done|by eapply sameAccount_trans].
Qed.
Lemma stable_app l l' : stable l (l ++ l').
Proof. intros account a E. exists a. split; [by apply lookup_app_l_Some|apply sameAccount_refl]. Qed.
Lemma stable_insert l account a a' : l !! account = Some a -> sameAccount a a' -> stable l (<[account := a']> l).
Proof.
  intros E H i b Eb. destruct (decide (i = account)) as [->|N].
  - exists a'. rewrite list_lookup_insert_eq by (by eapply lookup_lt_Some). split; [done|congruence].
  - exists b. rewrite list_lookup_insert_ne by done. split; [done|apply sameAccount_refl].
Qed.

Lemma entryOk_stable s l l' e : stable l l' -> entryOk s l e -> entryOk s l' e.
Proof.
  intros H. destruct e as [| | |updates account|]; cbn; try done. intros (F & a & E & [p Ep]). split; [done|].
  destruct (H account a E) as (a' & E' & _ & H'). exists a'. split; [done|]. exists p. auto.
Qed.

Lemma accountOk_more s n n' a : (n <= n')%nat -> accountOk s n a -> accountOk s n' a.
Proof. intros L [A W H]. constructor; [done..|]. intros p E. specialize (H p E). lia. Qed.

(** ** Calls on the main trie *)

Lemma consistent_main adb M D t M' : consistent adb M D -> HoldsAt (storage adb) t M' -> canonical (storage adb) M' ->
  consistent (with_mainTrie t adb) M' D.
Proof. intros C H H'. destruct C. by constructor. Qed.

Lemma main_Get_spec adb M D key : consistent adb M D -> is_key key ->
  exists t, main_Get key adb = (with_mainTrie t adb, Ok (fst <$> M !! key)) /\ consistent (with_mainTrie t adb) M D.
Proof.
  intros C K. destruct (GetWithVersion_ok (DT := trieOf (storage adb)) (mainTrie adb) M key (main_holds _ _ _ C) K)
    as (t & depth & E & H).
  exists t. split; [|apply (consistent_main adb M D); [done|done|apply C]].
  unfold main_Get, onMainTrie, mbind, se_bind. change (onStorage (storage adb)) with (trieOf (storage adb)). by rewrite E.
Qed.

Lemma main_Update_spec adb M D key value : consistent adb M D -> is_key key -> key <> [] ->
  leafOk (storage adb) key value \/ value = [] ->
  exists t, main_Update key value adb = (with_mainTrie t adb, Ok ()) /\
    consistent (with_mainTrie t adb) (write key value M) D.
Proof.
  intros C K N V.
  destruct (UpdateWithVersion_ok (DT := trieOf (storage adb)) (mainTrie adb) M key value 0 (main_holds _ _ _ C) K ltac:(lia))
    as (t & E & H).
  exists t. split.
  - unfold main_Update, onMainTrie. change (onStorage (storage adb)) with (trieOf (storage adb)). by rewrite E.
  - apply (consistent_main adb M D); [done..|]. by apply canonical_write; [apply C|..].
Qed.

Lemma main_Delete_spec adb M D key : consistent adb M D -> is_key key -> key <> [] ->
  exists t, main_Delete key adb = (with_mainTrie t adb, Ok ()) /\ consistent (with_mainTrie t adb) (write key [] M) D.
Proof.
  intros C K N. destruct (Delete_ok (DT := trieOf (storage adb)) (mainTrie adb) M key (main_holds _ _ _ C) K) as (t & E & H).
  exists t. split.
  - unfold main_Delete, onMainTrie. change (onStorage (storage adb)) with (trieOf (storage adb)). by rewrite E.
  - apply (consistent_main adb M D); [done| |by apply canonical_write; [apply C|..|right]]. unfold write. by rewrite change_nil.
Qed.

(** ** Reading accounts and codes *)

Lemma getCodeEntry_spec adb M D codeHash : consistent adb M D -> is_key codeHash ->
  exists t, consistent (with_mainTrie t adb) M D /\
    ((exists e, getCodeEntry codeHash adb = (with_mainTrie t adb, Err e)) \/
     (M !! codeHash = None /\ getCodeEntry codeHash adb = (with_mainTrie t adb, Ok None)) \/
     (exists c b, codeOk c /\ MarshalCode c = Ok b /\ M !! codeHash = Some (b, 0) /\
        getCodeEntry codeHash adb = (with_mainTrie t adb, Ok (Some c)))).
Proof.
  intros C K. destruct (main_Get_spec adb M D codeHash C K) as (t & E & C'). exists t. split; [done|].
  unfold getCodeEntry, mbind, se_bind. rewrite E. destruct (M !! codeHash) as [[b version]|] eqn:L; cbn.
  2:{ right. by left. }
  pose proof (main_canonical _ _ _ C) as CM. pose proof (canonical_leaf _ M CM _ _ _ L) as Lf.
  pose proof (canonical_unversioned _ M CM _ _ _ L) as ->.
  destruct (Nat.eqb_spec (length b) 0) as [Z|_]; [apply nil_length_inv in Z; by destruct (leafOk_nonempty _ _ _ Lf)|].
  unfold se_lift. destruct Lf as [(d & _ & _ & Em)|(c & Co & Em)].
  - left. destruct (account_not_code d b Em) as [e ->]. by exists e.
  - right. right. exists c, b. destruct (MarshalCode_ok c Co) as (b' & Em' & _ & U). rewrite Em in Em'. injection Em' as <-.
    by rewrite U.
Qed.

Lemma getAccount_spec adb M D address : consistent adb M D -> is_key address -> address <> [] ->
  exists t, consistent (with_mainTrie t adb) M D /\
    ((exists e, getAccount address adb = (with_mainTrie t adb, Err e) /\
        exists c b, codeOk c /\ MarshalCode c = Ok b /\ M !! address = Some (b, 0)) \/
     (M !! address = None /\ getAccount address adb = (with_mainTrie t adb, Ok None)) \/
     (exists d b, dataOk (storage adb) d /\ Address d = address /\ MarshalAccount d = Ok b /\ M !! address = Some (b, 0) /\
        getAccount address adb = (with_mainTrie t adb, Ok (Some (accountOf d))))).
Proof.
  intros C K N. destruct (main_Get_spec adb M D address C K) as (t & E & C'). exists t. split; [done|].
  unfold getAccount, mbind, se_bind. rewrite E. destruct (M !! address) as [[b version]|] eqn:L; cbn.
  2:{ right. by left. }
  pose proof (main_canonical _ _ _ C) as CM. pose proof (canonical_leaf _ M CM _ _ _ L) as Lf.
  pose proof (canonical_unversioned _ M CM _ _ _ L) as ->.
  unfold NewUserAccount. destruct (Nat.eqb_spec (length address) 0) as [Z|_]; [by apply nil_length_inv in Z|].
  unfold se_lift. cbn [ua_data]. change (UnmarshalAccount b _) with (UnmarshalAccount b (emptyData address)).
  destruct Lf as [(d & Od & <- & Em)|(c & Co & Em)].
  - right. right. exists d, b. destruct (MarshalAccount_ok d) as (b' & Em' & _ & U). rewrite Em in Em'. injection Em' as <-.
    by rewrite U.
  - left. destruct (code_not_account c b (emptyData address) Co Em) as [e ->].
    eexists. split; [done|]. by exists c, b.
Qed.
End Accounts.
