(* ===== verification/AccountsJournal.v ===== *)
(** * What the journal of the accounts database undoes

    Reverting entries, from the last to the first, as a relation on the
    contents of the tries, and the invariant that a running operation keeps:
    reverting what it journalled so far gives back the contents that it
    started with, whatever is done at the keys that its entries cover.

    ** The steps of the operations of the accounts database

    One rule for each statement that the operations are made of: calls on the
    main trie, on account objects and on their storage, and the journal. *)

From Stdlib Require Import ZArith Lia.
From stdpp Require Import base gmap list sorting.
From S2P Require Import Prelude TrieNode PatriciaSpec GoValues GoCollections Validators StateTrie TrackableDataTrie.
From S2P Require Import TrackableSpec TrackableMap UserAccount AccountsDB AccountsSpec.

(** The map is the same but for some keys. *)
Definition agree (X : list bytes) (M M1 : contents) : Prop := forall k, k ∉ X -> M1 !! k = M !! k.

Lemma agrees_refl X M : agree X M M.
Proof. by intros k _. Qed.
Lemma agrees_trans X M M1 M2 : agree X M M1 -> agree X M1 M2 -> agree X M M2.
Proof. intros H H' k N. rewrite H', H; done. Qed.
Lemma agree_nil M M1 : agree [] M M1 -> M1 = M.
Proof. intros H. apply map_eq. intros k. apply H, not_elem_of_nil. Qed.
Lemma agree_more X X' M M1 : X ⊆ X' -> agree X M M1 -> agree X' M M1.
Proof. intros I H k N. apply H. intros K. by apply N, I. Qed.
Lemma agree_write X k v M : unversioned M -> k ∈ X -> agree X M (write k v M).
Proof. intros U K k' N. rewrite lookup_write by done. rewrite decide_False; [done|]. by intros ->. Qed.

Section Journal.
Context {S T P : Type} {ST : StateTries S T} {STOk : StateTriesOk S T} {SP : StoragePruning P}.
Context {AE : AccountsEnv} {AOk : AccountsEnvOk AE} {TE : TrackableEnv} {TOk : TrackableOk TE}.
Context {KR : KeyRange} {KOk : KeyRangeOk KR}.

Abbreviation DB := (AccountsDB S T P).
Implicit Types (adb : DB) (M : contents) (D : list contents) (X : list bytes) (l : list userAccount).

Definition accountBytes (d : UserAccountData) : bytes := match MarshalAccount d with Ok b => b | Err _ => [] end.
Definition codeBytes (o : option CodeEntry) : bytes :=
  match o with Some c => match MarshalCode c with Ok b => b | Err _ => [] end | None => [] end.
Definition undoCode (codeHash : bytes) (o : option CodeEntry) M : contents :=
  if decide (codeHash = []) then M else write codeHash (codeBytes o) M.

(** Reverting an entry; what is written at the account of data trie updates
    does not matter. *)
Inductive undone l : JournalEntry -> contents -> list contents -> contents -> list contents -> Prop :=
| undone_code o h n h' M D :
    undone l (journalEntryCode o h n h') M D (if decide (h = h') then M else undoCode h' n (undoCode h o M)) D
| undone_account a M D : undone l (journalEntryAccount a) M D (write (AddressBytes a) (accountBytes (ua_data a)) M) D
| undone_creation address M D : undone l (journalEntryAccountCreation address) M D (write address [] M) D
| undone_data updates account a p m v M D : l !! account = Some a -> ua_dataTrie a = Some p -> D !! p = Some m ->
    undone l (journalEntryDataTrieUpdates updates account) M D (write (AddressBytes a) v M) (<[p := undo updates m]> D)
| undone_remove rootHash M D : undone l (journalEntryDataTrieRemove rootHash) M D M D.

Inductive undoneAll l : list JournalEntry -> contents -> list contents -> contents -> list contents -> Prop :=
| undoneAll_nil M D : undoneAll l [] M D M D
| undoneAll_snoc es e M D M1 D1 M2 D2 : undone l e M D M1 D1 -> undoneAll l es M1 D1 M2 D2 ->
    undoneAll l (es ++ [e]) M D M2 D2.

Lemma undoneAll_nil_inv l M D M2 D2 : undoneAll l [] M D M2 D2 -> M2 = M /\ D2 = D.
Proof. intros H. inversion H as [|es e]; [done|]. by destruct es. Qed.

Lemma undoneAll_snoc_inv l es e M D M2 D2 : undoneAll l (es ++ [e]) M D M2 D2 ->
  exists M1 D1, undone l e M D M1 D1 /\ undoneAll l es M1 D1 M2 D2.
Proof.
  intros H. inversion H as [? ? E|es' e' ? ? M1 D1 ? ? U U' E]; [by destruct es|].
  apply app_inj_tail in E as [-> ->]. by exists M1, D1.
Qed.

Lemma undoneAll_app_inv l es es' M D M2 D2 : undoneAll l (es ++ es') M D M2 D2 ->
  exists M1 D1, undoneAll l es' M D M1 D1 /\ undoneAll l es M1 D1 M2 D2.
Proof.
  revert M D. induction es' as [|e es' IH] using rev_ind; intros M D.
  - rewrite app_nil_r. intros H. exists M, D. split; [apply undoneAll_nil|done].
  - rewrite (assoc_L (++)). intros (M1 & D1 & U & H)%undoneAll_snoc_inv.
    destruct (IH M1 D1 H) as (M' & D' & U' & H'). exists M', D'. split; [by eapply undoneAll_snoc|done].
Qed.

Lemma undoCode_unversioned h o M : unversioned M -> unversioned (undoCode h o M).
Proof. intros U. unfold undoCode. case_decide; [done|by apply write_unversioned]. Qed.

Lemma undone_unversioned l e M D M1 D1 : undone l e M D M1 D1 -> unversioned M -> unversioned M1.
Proof.
  intros H U. destruct H; [case_decide; [done|by repeat apply undoCode_unversioned]|by apply write_unversioned..|done].
Qed.

(** ** What entries restore *)

(** Reverting [es] gives [M0] and [D0], and maybe further data tries, from any
    map that is [M] but for the keys [X]. *)
Definition restores X (es : list JournalEntry) l M D M0 D0 : Prop :=
  forall l' M1 D1 M2 D2, stable l l' -> unversioned M1 -> agree X M M1 -> D `prefix_of` D1 ->
    undoneAll l' es M1 D1 M2 D2 -> M2 = M0 /\ D0 `prefix_of` D2.

Section Restores.
Context (X : list bytes) (es : list JournalEntry) (l : list userAccount) (M : contents) (D : list contents).
Context (M0 : contents) (D0 : list contents).
Hypothesis (R : restores X es l M D M0 D0).

Lemma restores_less X' : X' ⊆ X -> restores X' es l M D M0 D0.
Proof using R. intros I l' M1 D1 M2 D2 Hs U A Hp H. eapply R; [done..| |done|done]. by eapply agree_more. Qed.

Lemma restores_agree M' : agree X M M' -> restores X es l M' D M0 D0.
Proof using R. intros A l' M1 D1 M2 D2 Hs U A' Hp H. eapply R; [done..| |done|done]. by eapply agrees_trans. Qed.

Lemma restores_stable l' D' : stable l l' -> D `prefix_of` D' -> restores X es l' M D' M0 D0.
Proof using R.
  intros Hs Hp l1 M1 D1 M2 D2 Hs1 U A Hp1 H. eapply R; [|done|done| |done]; [by eapply stable_trans|by etrans].
Qed.

(** The entries of a run after another. *)
Lemma restores_app es' l' M' D' : stable l l' -> restores [] es' l' M' D' M D -> restores [] (es ++ es') l' M' D' M0 D0.
Proof using R.
  intros Hs R' l1 M1 D1 M2 D2 Hs1 U A Hp (M3 & D3 & H & H')%undoneAll_app_inv.
  destruct (R' l1 M1 D1 M3 D3 Hs1 U A Hp H) as [-> Hp'].
  assert (U3 : unversioned M).
  { clear - H U. revert M1 D1 U H. induction es' as [|e es'' IH] using rev_ind; intros M1 D1 U H.
    - apply undoneAll_nil_inv in H as [-> _]. done.
    - apply undoneAll_snoc_inv in H as (M4 & D4 & H & H'). eapply IH; [|done]. by eapply undone_unversioned. }
  by apply (R l1 M D3 M2 D2); [by eapply stable_trans|done|apply agrees_refl|..].
Qed.

(** An entry that writes the value that a key has covers the key. *)
Lemma restores_account d b : MarshalAccount d = Ok b -> M !! Address d = Some (b, 0) -> b <> [] ->
  restores (Address d :: X) (es ++ [journalEntryAccount (accountOf d)]) l M D M0 D0.
Proof using R.
  intros E L N l' M1 D1 M2 D2 Hs U A Hp (M3 & D3 & H & H')%undoneAll_snoc_inv. inversion H. subst.
  eapply R; [done| | |done|done]; [by apply write_unversioned|]. intros k K. rewrite lookup_write by done.
  unfold AddressBytes, accountBytes. cbn [ua_data accountOf]. rewrite E. case_decide as Q.
  - subst k. by rewrite decide_False, L.
  - apply A. by apply not_elem_of_cons.
Qed.

Lemma restores_creation address : M !! address = None ->
  restores (address :: X) (es ++ [journalEntryAccountCreation address]) l M D M0 D0.
Proof using R.
  intros L l' M1 D1 M2 D2 Hs U A Hp (M3 & D3 & H & H')%undoneAll_snoc_inv. inversion H. subst.
  eapply R; [done| | |done|done]; [by apply write_unversioned|]. intros k K. rewrite lookup_write by done.
  case_decide as Q; [by subst k; rewrite decide_True, L|]. apply A. by apply not_elem_of_cons.
Qed.

(** The leaf of a code, if there is one. *)
Definition codeLeaf (h : bytes) (o : option CodeEntry) : Prop :=
  match o with None => M !! h = None | Some c => exists b, b <> [] /\ MarshalCode c = Ok b /\ M !! h = Some (b, 0) end.

Lemma lookup_undoCode h o M1 k : unversioned M1 -> codeLeaf h o ->
  undoCode h o M1 !! k = if decide (k = h /\ h <> []) then M !! h else M1 !! k.
Proof using.
  intros U C. unfold undoCode. case_decide as E; [by rewrite decide_False by naive_solver|].
  rewrite lookup_write by done. case_decide as Q; [|by rewrite decide_False by naive_solver].
  rewrite (decide_True (P := k = h /\ h <> [])) by done. destruct o as [c|]; cbn in *; [|by rewrite C].
  destruct C as (b & Nb & -> & ->). by rewrite decide_False.
Qed.

Lemma restores_code o h n h' : codeLeaf h o -> codeLeaf h' n -> h <> h' ->
  restores (filter (fun k => k <> []) [h; h'] ++ X) (es ++ [journalEntryCode o h n h']) l M D M0 D0.
Proof using R.
  intros Co Cn N l' M1 D1 M2 D2 Hs U A Hp (M3 & D3 & H & H')%undoneAll_snoc_inv. inversion H. subst.
  rewrite decide_False in H' by done. pose proof (undoCode_unversioned h o M1 U) as U1.
  eapply R; [done| | |done|done]; [by apply undoCode_unversioned|].
  intros k K. rewrite !lookup_undoCode by done. destruct (decide (k = h' /\ h' <> [])) as [[-> _]|N1]; [done|].
  destruct (decide (k = h /\ h <> [])) as [[-> _]|N2]; [done|]. apply A.
  rewrite not_elem_of_app, list_elem_of_filter, !elem_of_cons, elem_of_nil. split; [|done]. naive_solver.
Qed.

(** Updates of a data trie, whose account is covered. *)
Lemma restores_data updates account a p m m' D' : D' !! p = Some m' -> undo updates m' = m -> D = <[p := m]> D' ->
  l !! account = Some a -> ua_dataTrie a = Some p -> AddressBytes a ∈ X ->
  restores X (es ++ [journalEntryDataTrieUpdates updates account]) l M D' M0 D0.
Proof using R.
  intros Lm Um -> La Lp K l' M1 D1 M2 D2 Hs U A Hp (M3 & D3 & H & H')%undoneAll_snoc_inv.
  inversion H as [| | |? ? a1 p1 m1 v ? ? La1 Lp1 Lm1|]. subst.
  destruct (Hs account a La) as (a2 & La2 & Ea & Sa). rewrite La1 in La2. injection La2 as <-.
  rewrite (Sa p Lp) in Lp1. injection Lp1 as <-. destruct Hp as [D2' ->].
  rewrite lookup_app_l, Lm in Lm1 by (by eapply lookup_lt_Some). injection Lm1 as <-.
  eapply R; [done| | | |done]; [by apply write_unversioned| |].
  - rewrite Ea. eapply agrees_trans; [done|]. by apply agree_write.
  - rewrite insert_app_l by (by eapply lookup_lt_Some). by apply prefix_app_r.
Qed.

Lemma restores_remove rootHash : restores X (es ++ [journalEntryDataTrieRemove rootHash]) l M D M0 D0.
Proof using R.
  intros l' M1 D1 M2 D2 Hs U A Hp (M3 & D3 & H & H')%undoneAll_snoc_inv. inversion H. subst. by eapply R.
Qed.

(** Removing the code of an account that has none. *)
Lemma restores_no_code o n h : restores X (es ++ [journalEntryCode o h n h]) l M D M0 D0.
Proof using R.
  intros l' M1 D1 M2 D2 Hs U A Hp (M3 & D3 & H & H')%undoneAll_snoc_inv. inversion H. subst.
  rewrite decide_True in H' by done. by eapply R.
Qed.
End Restores.

Lemma restores_nil l M D : restores [] [] l M D M D.
Proof.
  intros l' M1 D1 M2 D2 _ _ A Hp [-> ->]%undoneAll_nil_inv. split; [by apply agree_nil|done].
Qed.

(** ** The invariant of a run *)

Record frame adb adb' : Prop := {
  frame_storage : storage adb' = storage adb;
  frame_root : lastRootHash adb' = lastRootHash adb;
  frame_pruning : storagePruningManager adb' = storagePruningManager adb;
  frame_holder : dataTries adb ⊆ dataTries adb';
  frame_accounts : stable (accountPointers adb) (accountPointers adb');
}.

Lemma frame_refl adb : frame adb adb.
Proof. constructor; [done..|apply stable_refl]. Qed.
Lemma frame_trans adb1 adb2 adb3 : frame adb1 adb2 -> frame adb2 adb3 -> frame adb1 adb3.
Proof. intros [? ? ? ? Hs] [? ? ? ? Hs']. constructor; [congruence..|by etrans|by eapply stable_trans]. Qed.

Record inside adb0 M0 D0 X adb M D : Prop := {
  inside_frame : frame adb0 adb;
  inside_consistent : consistent adb M D;
  inside_journal : exists es, entries adb = entries adb0 ++ es /\ restores X es (accountPointers adb) M D M0 D0;
}.

Lemma inside_refl adb M D : consistent adb M D -> inside adb M D [] adb M D.
Proof.
  intros C. constructor; [apply frame_refl|done|]. exists []. split; [by rewrite app_nil_r|apply restores_nil].
Qed.

Lemma inside_trans adb0 M0 D0 X adb1 M1 D1 adb2 M2 D2 : inside adb0 M0 D0 X adb1 M1 D1 ->
  inside adb1 M1 D1 [] adb2 M2 D2 -> inside adb0 M0 D0 [] adb2 M2 D2.
Proof.
  intros [F1 C1 (es1 & E1 & R1)] [F2 C2 (es2 & E2 & R2)]. constructor; [by eapply frame_trans|done|].
  exists (es1 ++ es2). split; [by rewrite E2, E1, (assoc_L (++))|].
  apply (restores_app X es1 (accountPointers adb1) M1 D1 M0 D0 R1); [apply F2|done].
Qed.

Lemma inside_less adb0 M0 D0 X X' adb M D : X' ⊆ X -> inside adb0 M0 D0 X adb M D -> inside adb0 M0 D0 X' adb M D.
Proof.
  intros I [F C (es & E & R)]. constructor; [done..|]. exists es. split; [done|by eapply restores_less].
Qed.

(** What holds after a call that returns or fails. *)
Definition after {A} (r : DB * result state_error A) (Q : A -> DB -> Prop) (E : DB -> Prop) : Prop :=
  match r with
  | (adb, Ok a) => Q a adb
  | (adb, Err _) => E adb
  end.

Lemma after_bind {A B} (m : SE DB state_error A) (f : A -> SE DB state_error B) adb Q1 Q E :
  after (m adb) Q1 E -> (forall a adb', Q1 a adb' -> after (f a adb') Q E) -> after ((m ≫= f) adb) Q E.
Proof.
  intros H G. unfold mbind, se_bind. unfold after in H. destruct (m adb) as [adb' [a|e]]; [by apply G|done].
Qed.

Lemma after_bind2 {A B C} (m : SE DB state_error A) (f : A -> SE DB state_error B) (g : B -> SE DB state_error C) adb Q1 Q E :
  after ((m ≫= f) adb) Q1 E -> (forall b adb', Q1 b adb' -> after (g b adb') Q E) ->
  after ((m ≫= fun a => f a ≫= g) adb) Q E.
Proof.
  intros H G. unfold mbind, se_bind in *. destruct (m adb) as [adb1 [a|e]]; [|done].
  unfold after in H. destruct (f a adb1) as [adb2 [b|e]]; [by apply G|done].
Qed.
End Journal.

(** Changing an element that is there. *)
Lemma alter_some {A} (f : A -> A) (l : list A) i a : l !! i = Some a -> alter f i l = <[i := f a]> l.
Proof.
  intros E. apply list_eq. intros j. destruct (decide (j = i)) as [->|N].
  - rewrite list_lookup_alter_eq, E, list_lookup_insert_eq by (by eapply lookup_lt_Some). done.
  - by rewrite list_lookup_alter_ne, list_lookup_insert_ne.
Qed.

Lemma insert_same {A} (l : list A) i a b : <[i := a]> (<[i := b]> l) = <[i := a]> l.
Proof. apply list_insert_insert_eq. Qed.

Section Rules.
Context {S T P : Type} {ST : StateTries S T} {STOk : StateTriesOk S T} {SP : StoragePruning P}.
Context {AE : AccountsEnv} {AOk : AccountsEnvOk AE} {TE : TrackableEnv} {TOk : TrackableOk TE}.
Context {KR : KeyRange} {KOk : KeyRangeOk KR}.

Abbreviation DB := (AccountsDB S T P).
Abbreviation ADB := (SE DB state_error).
Implicit Types (adb : DB) (M : contents) (D : list contents) (X : list bytes) (l : list userAccount).

#[local] Existing Instance trieOf.
#[local] Existing Instance trieOf_ok.

(** The database on which the operation started. *)
Context (adb0 : DB) (M0 : contents) (D0 : list contents).
Abbreviation inside := (inside adb0 M0 D0).

Lemma inside_storage X adb M D : inside X adb M D -> storage adb = storage adb0.
Proof. intros I. apply (frame_storage _ _ (inside_frame _ _ _ _ _ _ _ I)). Qed.

Definition Inside X adb : Prop := exists M D, inside X adb M D.

Lemma Inside_less X X' adb : X' ⊆ X -> Inside X adb -> Inside X' adb.
Proof. intros I (M & D & H). exists M, D. by eapply inside_less. Qed.

Lemma Inside_done X adb : Inside X adb -> Inside [] adb.
Proof. apply Inside_less, list_subseteq_nil. Qed.

(** A call on the main trie that writes covered keys only. *)
Lemma inside_main X adb M D t M' : inside X adb M D -> consistent (with_mainTrie t adb) M' D -> agree X M M' ->
  inside X (with_mainTrie t adb) M' D.
Proof.
  intros [[] C (es & E & R)] C' A. constructor; [by constructor|done|].
  exists es. split; [done|by eapply restores_agree].
Qed.

Lemma inside_journalize X X' adb M D e : inside X adb M D -> entryOk (storage adb0) (accountPointers adb) e ->
  (forall es, restores X es (accountPointers adb) M D M0 D0 ->
     restores X' (es ++ [e]) (accountPointers adb) M D M0 D0) ->
  inside X' (with_entries (entries adb ++ [e]) adb) M D.
Proof.
  intros I O H. rewrite <- (inside_storage _ _ _ _ I) in O. destruct I as [[] C (es & E & R)].
  constructor; [by constructor| |].
  - destruct C. constructor; try done. apply Forall_app. split; [done|by apply Forall_singleton].
  - exists (es ++ [e]). split; [by rewrite (assoc_L (++)), <- E|by apply H].
Qed.

(** The accounts and data tries change, the rest does not. *)
Lemma inside_pointers X adb adb' M D D' : inside X adb M D -> consistent adb' M D' -> frame adb adb' ->
  entries adb' = entries adb -> D `prefix_of` D' -> inside X adb' M D'.
Proof.
  intros [F C (es & E & R)] C' F' E' Hp. constructor; [by eapply frame_trans|done|].
  exists es. split; [congruence|]. eapply restores_stable; [done|apply F'|done].
Qed.

Lemma Forall_accountOk_more s n n' l : (n <= n')%nat -> Forall (accountOk s n) l -> Forall (accountOk s n') l.
Proof. intros L F. eapply Forall_impl; [exact F|]. intros a. by apply accountOk_more. Qed.

Lemma journal_stable s l l' es : stable l l' -> Forall (entryOk s l) es -> Forall (entryOk s l') es.
Proof. intros H F. eapply Forall_impl; [exact F|]. intros e. by apply entryOk_stable. Qed.

(** Another state of an account object. *)
Lemma consistent_account adb M D account a a' : consistent adb M D -> accountPointers adb !! account = Some a ->
  sameAccount a a' -> accountOk (storage adb) (length D) a' ->
  consistent (setAccount account a' adb) M D /\ frame adb (setAccount account a' adb).
Proof.
  intros C E Sa O. assert (H : stable (accountPointers adb) (accountPointers (setAccount account a' adb))).
  { cbn. by eapply stable_insert. }
  split; [|by constructor]. destruct C. constructor; try done; cbn.
  - by apply Forall_insert.
  - by eapply journal_stable.
Qed.

Lemma inside_account X adb M D account a a' : inside X adb M D -> accountPointers adb !! account = Some a ->
  sameAccount a a' -> accountOk (storage adb0) (length D) a' -> inside X (setAccount account a' adb) M D.
Proof.
  intros I E Sa O. rewrite <- (inside_storage _ _ _ _ I) in O. destruct (consistent_account adb M D account a a') as [C F]; [by apply I|done..|].
  by apply (inside_pointers X adb _ M D D).
Qed.

Lemma inside_accountOk X adb M D account a : inside X adb M D -> accountPointers adb !! account = Some a ->
  accountOk (storage adb0) (length D) a.
Proof.
  intros I E. rewrite <- (inside_storage _ _ _ _ I).
  exact (proj1 (Forall_lookup _ _) (accounts_ok _ _ _ (inside_consistent _ _ _ _ _ _ _ I)) account a E).
Qed.

Lemma after_do X adb account (f : userAccount -> userAccount) : Inside X adb ->
  (forall a, sameAccount a (f a)) -> (forall n a, accountOk (storage adb0) n a -> accountOk (storage adb0) n (f a)) ->
  after (userAccount_do account (fun a => Ok (f a)) adb) (fun _ => Inside X) (Inside X).
Proof.
  intros (M & D & I) Hs Ho. unfold userAccount_do. destruct (accountPointers adb !! account) as [a|] eqn:E; cbn.
  - exists M, D. apply (inside_account X adb M D account a); [done..|]. by eapply Ho, inside_accountOk.
  - by exists M, D.
Qed.

(** ** The storage of an account *)

(** The contents of the data trie of an account. *)
Definition storedIn D (a : userAccount) : contents := default ∅ (p ← ua_dataTrie a; D !! p).

(** What a storage method did to the data tries: nothing, a change of the trie
    of the account, or a new trie that the account now has. *)
Inductive stored D (a : userAccount) (m : contents) : list contents -> userAccount -> Prop :=
| stored_nothing tracker : ua_dataTrie a = None -> m = ∅ -> stored D a m D (setTracker tracker a)
| stored_here p tracker : ua_dataTrie a = Some p -> (p < length D)%nat -> stored D a m (<[p := m]> D) (setTracker tracker a)
| stored_new tracker : ua_dataTrie a = None ->
    stored D a m (D ++ [m]) (setTracker tracker (SetDataTrie (length D) a)).

Lemma stored_same D a m D' a' : stored D a m D' a' -> sameAccount a a' /\ ua_data a' = ua_data a.
Proof. intros []; (split; [split; [done|]|done]); cbn; congruence. Qed.

(** The trie of the account now, and the data tries with the old contents. *)
Lemma stored_back D a m D' a' p : stored D a m D' a' -> ua_dataTrie a' = Some p ->
  D' !! p = Some m /\ D `prefix_of` <[p := storedIn D a]> D'.
Proof.
  unfold storedIn. intros [tracker E _|q tracker E L|tracker E]; cbn; rewrite ?E; intros [= <-]; cbn.
  - destruct (lookup_lt_is_Some_2 D q L) as [m0 Em]. rewrite Em. cbn. split; [by apply list_lookup_insert_eq|].
    rewrite list_insert_insert_eq, list_insert_id by done. done.
  - split; [by apply list_lookup_middle|]. rewrite insert_app_r_alt, Nat.sub_diag by done. by apply prefix_app_r.
Qed.

(** The other tries remain; a trie that the account did not have is new. *)
Definition others (a : userAccount) D D' : Prop := forall q m0, ua_dataTrie a <> Some q -> D !! q = Some m0 -> D' !! q = Some m0.
Definition ownOrNew (a : userAccount) D (p : nat) : Prop :=
  ua_dataTrie a = Some p \/ (ua_dataTrie a = None /\ (length D <= p)%nat).

Lemma stored_others D a m D' a' : stored D a m D' a' -> others a D D'.
Proof.
  intros [tracker E _|p tracker E L|tracker E] q m0 N Em; [done|rewrite list_lookup_insert_ne by congruence; done|].
  by apply lookup_app_l_Some.
Qed.

Lemma stored_own D a m D' a' p : stored D a m D' a' -> ua_dataTrie a' = Some p -> ownOrNew a D p.
Proof.
  unfold ownOrNew. intros [tracker E _|q tracker E L|tracker E]; cbn; intros Ep; [by left..|].
  right. injection Ep as <-. by split.
Qed.

Lemma others_trans a b D1 D2 D3 p : ownOrNew a D1 p -> ua_dataTrie b = Some p -> others a D1 D2 -> others b D2 D3 -> others a D1 D3.
Proof.
  intros O Eb H1 H2 q m0 N Em. apply H2; [|by apply H1]. rewrite Eb. intros [= ->].
  destruct O as [?|[_ L]]; [done|]. apply lookup_lt_Some in Em. lia.
Qed.

Lemma stored_unchanged D a D' a' : stored D a (storedIn D a) D' a' -> D `prefix_of` D'.
Proof.
  unfold storedIn. intros H. inversion H as [tracker E|p tracker E L|tracker E]; subst; [done| |by apply prefix_app_r].
  rewrite E. cbn. destruct (lookup_lt_is_Some_2 D p L) as [m0 Em]. rewrite Em. cbn. by rewrite list_insert_id.
Qed.

Lemma stored_length D a m D' a' : stored D a m D' a' -> (length D <= length D')%nat.
Proof. intros []; rewrite ?length_insert, ?length_app; lia. Qed.

Lemma stored_trie s D a m D' a' p : stored D a m D' a' -> accountOk s (length D) a -> ua_dataTrie a' = Some p ->
  (p < length D')%nat.
Proof.
  intros [tracker E _|q tracker E L|tracker E] O; cbn; [congruence| |].
  - intros [= <-]%(eq_trans (eq_sym E)). by rewrite length_insert.
  - intros [= <-]. rewrite length_app. cbn. lia.
Qed.

(** The trie that a storage method of an account works on. *)
Definition trieBehind adb (a : userAccount) : option T := p ← ua_dataTrie a; triePointers adb !! p.

Lemma trieBehind_holds adb M D account a : consistent adb M D -> accountPointers adb !! account = Some a ->
  HoldsOpt (DT := trieOf (storage adb)) (trieBehind adb a) (storedIn D a).
Proof.
  intros C E. unfold trieBehind, storedIn. destruct (ua_dataTrie a) as [p|] eqn:Ep; [|done]. cbn.
  pose proof (proj1 (Forall_lookup _ _) (accounts_ok _ _ _ C) account a E) as O. pose proof (account_trie _ _ _ O p Ep) as L.
  destruct (lookup_lt_is_Some_2 D p L) as [m Em].
  destruct (Forall2_lookup_r _ _ _ _ _ (tries_hold _ _ _ C) Em) as (t & Et & H). by rewrite Et, Em.
Qed.

(** The state that a storage method leaves. *)
Definition newPointers adb (a : userAccount) (tr : option T) : list T * userAccount :=
  match ua_dataTrie a, tr with
  | Some p, Some t => (<[p := t]> (triePointers adb), a)
  | None, Some t => (triePointers adb ++ [t], SetDataTrie (length (triePointers adb)) a)
  | _, None => (triePointers adb, a)
  end.
Definition afterStorage adb account (a : userAccount) (tr : option T) (tracker : trackableDataTrie) : DB :=
  with_accountPointers (<[account := setTracker tracker (snd (newPointers adb a tr))]> (accountPointers adb))
    (with_triePointers (fst (newPointers adb a tr)) adb).

Lemma setTracker_id a : setTracker (ua_tracker a) a = a.
Proof. by destruct a. Qed.

Lemma onAccountStorage_eq {A} adb account a
    (f : DataTrie T -> trackableDataTrie -> SE (option T) state_error (A * trackableDataTrie)) tr r :
  accountPointers adb !! account = Some a ->
  f (trieOf (storage adb)) (ua_tracker a) (trieBehind adb a) = (tr, r) ->
  onAccountStorage account f adb =
    (afterStorage adb account a tr match r with Ok (_, tracker) => tracker | Err _ => ua_tracker a end,
     match r with Ok (x, _) => Ok x | Err e => Err e end).
Proof.
  intros E Ef. pose proof (lookup_lt_Some _ _ _ E) as L. unfold onAccountStorage. rewrite E.
  change (onStorage (storage adb)) with (trieOf (storage adb)).
  change (p ← ua_dataTrie a; triePointers adb !! p) with (trieBehind adb a). rewrite Ef.
  assert (G : storeDataTrie account tr adb = with_accountPointers (<[account := snd (newPointers adb a tr)]> (accountPointers adb))
    (with_triePointers (fst (newPointers adb a tr)) adb)).
  { unfold storeDataTrie, newPointers. rewrite E. destruct adb, tr, (ua_dataTrie a);
      unfold setAccount, with_accountPointers, with_triePointers; cbn in *; by rewrite ?(list_insert_id _ _ _ E). }
  rewrite G. unfold afterStorage. destruct r as [[x tracker]|e]; f_equal.
  - unfold with_accountPointers. f_equal. cbn.
    rewrite (alter_some _ _ _ (snd (newPointers adb a tr))) by (by apply list_lookup_insert_eq). apply insert_same.
  - f_equal. f_equal. unfold newPointers. destruct a, tr, ua_dataTrie; done.
Qed.

Lemma newPointers_holds adb M D account a tr m : consistent adb M D -> accountPointers adb !! account = Some a ->
  HoldsOpt (DT := trieOf (storage adb)) tr m -> (is_Some (trieBehind adb a) -> is_Some tr) ->
  exists D', Forall2 (HoldsAt (storage adb)) (fst (newPointers adb a tr)) D' /\
    (forall tracker, stored D a m D' (setTracker tracker (snd (newPointers adb a tr)))) /\
    (is_Some tr -> is_Some (ua_dataTrie (snd (newPointers adb a tr)))).
Proof.
  intros C E H Hs. pose proof (proj1 (Forall_lookup _ _) (accounts_ok _ _ _ C) account a E) as O.
  pose proof (tries_hold _ _ _ C) as F. unfold newPointers. destruct (ua_dataTrie a) as [p|] eqn:Ep.
  - pose proof (account_trie _ _ _ O p Ep) as L. rewrite <- (Forall2_length _ _ _ F) in L.
    destruct tr as [t|].
    2:{ destruct Hs as [? [=]]. unfold trieBehind. rewrite Ep. cbn. by apply lookup_lt_is_Some. }
    exists (<[p := m]> D). split; [by apply Forall2_insert|]. split; [intros tracker|intros _; cbn; by eexists].
    apply stored_here; [done|by rewrite <- (Forall2_length _ _ _ F)].
  - destruct tr as [t|].
    + exists (D ++ [m]). split; [by apply Forall2_app; [|apply Forall2_cons]|].
      split; [|done]. intros tracker. cbn. rewrite (Forall2_length _ _ _ F). by apply stored_new.
    + exists D. split; [done|]. split; [intros tracker; by apply stored_nothing|by intros []].
Qed.

(** A storage method that leaves its trie holding [m]. *)
Lemma onAccountStorage_spec {A} adb M D account a
    (f : DataTrie T -> trackableDataTrie -> SE (option T) state_error (A * trackableDataTrie)) tr m r :
  consistent adb M D -> accountPointers adb !! account = Some a ->
  f (trieOf (storage adb)) (ua_tracker a) (trieBehind adb a) = (tr, r) ->
  HoldsOpt (DT := trieOf (storage adb)) tr m -> (is_Some (trieBehind adb a) -> is_Some tr) ->
  match r with Ok (_, tracker) => allWritten tracker | Err _ => True end ->
  exists adb' D' a', onAccountStorage account f adb =
      (adb', match r with Ok (x, _) => Ok x | Err e => Err e end) /\
    consistent adb' M D' /\ frame adb adb' /\ entries adb' = entries adb /\ dataTries adb' = dataTries adb /\
    stored D a m D' a' /\ (is_Some tr -> is_Some (ua_dataTrie a')) /\
    accountPointers adb' = <[account := a']> (accountPointers adb).
Proof.
  intros C E Ef H Hs W. destruct (newPointers_holds adb M D account a tr m C E H Hs) as (D' & F & St & Hn).
  rewrite (onAccountStorage_eq adb account a f tr r E Ef).
  set (tracker := match r with Ok (_, tracker) => tracker | Err _ => ua_tracker a end).
  pose proof (proj1 (Forall_lookup _ _) (accounts_ok _ _ _ C) account a E) as O.
  assert (Wt : allWritten tracker) by (subst tracker; destruct r as [[x tr']|]; [done|apply O]).
  specialize (St tracker). set (a' := setTracker tracker _) in *. destruct (stored_same _ _ _ _ _ St) as [Sa Ed].
  assert (Hst : stable (accountPointers adb) (<[account := a']> (accountPointers adb))) by (by eapply stable_insert).
  eexists _, D', a'. split; [done|]. split; [|split; [by constructor|done]].
  destruct C as [HC HM CM _ HA HH HJ]. constructor; try done; cbn.
  - apply Forall_insert; [by eapply Forall_accountOk_more, HA; eapply stored_length|].
    constructor; [change (dataOk (storage adb) (ua_data a')); rewrite Ed; apply O|done|]. intros p. by eapply stored_trie.
  - intros address p Ep. pose proof (HH address p Ep). pose proof (stored_length _ _ _ _ _ St). lia.
  - by eapply journal_stable.
Qed.
End Rules.
