(* ===== verification/AccountsOps.v ===== *)
(** * The operations of the accounts database are journalled

    Whatever SaveAccount, RemoveAccount and the loading of accounts do, and
    wherever they fail, the entries that they added take it back.

    ** Runs of the accounts database

    The operations of the previous file composed: SaveAccount, RemoveAccount,
    the loading of accounts and what callers do to account objects, and the
    runs that are made of them. *)

From Stdlib Require Import ZArith Lia.
From stdpp Require Import base gmap list sorting.
From S2P Require Import Prelude TrieNode PatriciaSpec GoValues GoCollections Validators StateTrie TrackableDataTrie.
From S2P Require Import TrackableSpec TrackableMap UserAccount AccountsDB AccountsSpec.
From S2P Require Import AccountsJournal.

Section Save.
Context {S T P : Type} {ST : StateTries S T} {STOk : StateTriesOk S T} {SP : StoragePruning P}.
Context {AE : AccountsEnv} {AOk : AccountsEnvOk AE} {TE : TrackableEnv} {TOk : TrackableOk TE}.
Context {KR : KeyRange} {KOk : KeyRangeOk KR}.

Abbreviation DB := (AccountsDB S T P).
Implicit Types (adb : DB) (M : contents) (D : list contents) (X : list bytes) (l : list userAccount).

#[local] Existing Instance trieOf.
#[local] Existing Instance trieOf_ok.

Context (adb0 : DB) (M0 : contents) (D0 : list contents).
Abbreviation inside := (inside adb0 M0 D0).
Abbreviation Inside := (Inside adb0 M0 D0).

(** ** Data tries *)

(** A storage method that leaves the contents of the trie. *)
Lemma after_reads {A} X adb account (Q : A -> Prop)
    (f : DataTrie T -> trackableDataTrie -> SE (option T) state_error (A * trackableDataTrie)) :
  Inside X adb ->
  (forall tr m tdt, HoldsOpt (DT := trieOf (storage adb)) tr m -> allWritten tdt ->
     exists tr' r, f (trieOf (storage adb)) tdt tr = (tr', r) /\ HoldsOpt (DT := trieOf (storage adb)) tr' m /\
       (is_Some tr -> is_Some tr') /\ match r with Ok (x, tracker) => allWritten tracker /\ Q x | Err _ => True end) ->
  after (onAccountStorage account f adb) (fun x adb' => Inside X adb' /\ Q x) (Inside X).
Proof.
  intros (M & D & I) H. destruct (accountPointers adb !! account) as [a|] eqn:E.
  2:{ unfold onAccountStorage. rewrite E. by exists M, D. }
  pose proof (inside_consistent _ _ _ _ _ _ _ I) as C.
  destruct (H _ _ (ua_tracker a) (trieBehind_holds adb M D account a C E)) as (tr' & r & Ef & H' & Hs & Wq).
  { eapply account_written, inside_accountOk; done. }
  destruct (onAccountStorage_spec adb M D account a f tr' _ r C E Ef H' Hs)
    as (adb' & D' & a' & -> & C' & F & Ee & _ & St & _ & _).
  { by destruct r as [[x tracker]|]; [apply Wq|]. }
  assert (I' : Inside X adb').
  { exists M, D'. apply (inside_pointers _ _ _ X adb adb' M D D'); try done. by eapply stored_unchanged. }
  destruct r as [[x tracker]|]; [split; [done|apply Wq]|done].
Qed.

Lemma dataTrie_RootHash_after X adb account : Inside X adb ->
  after (dataTrie_RootHash account adb) (fun h adb' => Inside X adb' /\ validRoot (storage adb0) h) (Inside X).
Proof.
  intros I. apply after_reads; [done|]. intros [t|] m tdt H W.
  - destruct (RootHash_ok (DT := trieOf (storage adb)) t m H) as (t' & h & E & H' & Hh).
    exists (Some t'), (Ok (h, tdt)). split_and!; [|done..|].
    + unfold mbind, se_bind, onDataTrie, onTrie, se_mapErr. by rewrite E.
    + destruct I as (M & D & I). rewrite <- (inside_storage _ _ _ _ _ _ _ I).
      right. exists m. exact Hh.
  - by exists None, (Err ErrNilTrie).
Qed.

Lemma RetrieveValue_after X adb account key : Inside X adb -> is_key key ->
  after (userAccount_RetrieveValue account key adb) (fun _ adb' => Inside X adb' /\ True) (Inside X).
Proof.
  intros I K. apply after_reads; [done|]. intros tr m tdt H W. unfold RetrieveValue.
  destruct (dirty tdt !! key) as [e|]; [by eexists tr, (Ok (_, tdt))|].
  destruct tr as [t|]; [|by exists None, (Err ErrNilTrie)].
  destruct (retrieve_spec (DT := trieOf (storage adb)) t m key false H K) as (t' & H' & Q).
  unfold onDataTrie, mbind, se_bind, se_lift.
  destruct (retrieveC m key false) as [d|e].
  - destruct Q as [depth ->]. destruct (getValueWithoutMetadata key d tdt) as [v|e].
    + by eexists (Some t'), (Ok (_, tdt)).
    + by eexists (Some t'), (Err e).
  - rewrite Q. by eexists (Some t'), (Err _).
Qed.

(** What was saved can be journalled. *)
Lemma SaveDirtyData_after X adb M D account a : inside X adb M D -> accountPointers adb !! account = Some a ->
  AddressBytes a ∈ X ->
  after (userAccount_SaveDirtyData account adb)
    (fun r adb' => if decide (snd r = []) then Inside X adb'
                   else Inside X (with_entries (entries adb' ++ [journalEntryDataTrieUpdates (snd r) account]) adb'))
    (Inside X).
Proof.
  intros I E K. pose proof (inside_consistent _ _ _ _ _ _ _ I) as C.
  pose proof (inside_accountOk _ _ _ _ _ _ _ _ _ I E) as O.
  pose proof (trieBehind_holds adb M D account a C E) as H.
  set (R := fun rootHash => Recreate (storage adb) rootHash (mainTrie adb)).
  assert (Em : emptyForEmpty (DT := trieOf (storage adb)) R) by (intros t'; apply Recreate_empty).
  destruct (SaveDirtyData_outcome (DT := trieOf (storage adb)) R (ua_tracker a) _ _ Em H (account_written _ _ _ O))
    as (tr & r & m' & Es & H' & Hs & Hr).
  set (r' := match r with Ok (n, o, tdt) => Ok (n, o, tdt) | Err e => Err e end).
  destruct (onAccountStorage_spec adb M D account a (fun DT tdt => '(newValues, oldValues, tdt) ←
              SaveDirtyData (DT := DT) R tdt; mret (newValues, oldValues, tdt)) tr m' r' C E)
    as (adb' & D' & a' & Eq & C' & F & Ee & _ & St & Ht & Ea); [|done|done| |].
  { unfold mbind, se_bind. rewrite Es. by destruct r as [[[]]|]. }
  { subst r'. by destruct r as [[[]]|]; [apply Hr|]. }
  change (onAccountStorage account _ adb) with (userAccount_SaveDirtyData account adb) in Eq.
  unfold after. rewrite Eq. subst r'.
  destruct r as [[[changes olds] tdt']|e].
  2:{ subst m'. exists M, D'. apply (inside_pointers _ _ _ X adb adb' M D D'); try done. by eapply stored_unchanged. }
  destruct Hr as (_ & Wf & U & Hn). cbn [snd]. case_decide as Q.
  - rewrite Q in U. cbn in U. subst m'. exists M, D'. apply (inside_pointers _ _ _ X adb adb' M D D'); try done.
    by eapply stored_unchanged.
  - destruct (Ht (Hn Q)) as [p Ep]. destruct (stored_back _ _ _ _ _ _ St Ep) as [Lm Hp].
    destruct (stored_same _ _ _ _ _ St) as [[Ead _] _]. destruct I as [F0 _ (es & Ees & Re)].
    assert (La : accountPointers adb' !! account = Some a').
    { rewrite Ea. apply list_lookup_insert_eq. by eapply lookup_lt_Some. }
    exists M, D'. constructor; [eapply frame_trans; [done|]; destruct F; by constructor| |].
    + destruct C'. constructor; try done. apply Forall_app. split; [done|]. apply Forall_singleton.
      split; [done|]. exists a'. split; [exact La|by rewrite Ep].
    + exists (es ++ [journalEntryDataTrieUpdates olds account]). cbn. rewrite Ee, Ees, (assoc_L (++)). split; [done|].
      apply (restores_data X es _ M (<[p := storedIn D a]> D') M0 D0) with (a := a') (p := p) (m := storedIn D a) (m' := m');
        try done; [|by rewrite Ead].
      eapply restores_stable; [done|apply F|done].
Qed.

(** ** Small steps *)

Lemma journalize_after X X' adb M D e : inside X adb M D -> entryOk (storage adb0) (accountPointers adb) e ->
  (forall es, restores X es (accountPointers adb) M D M0 D0 ->
     restores X' (es ++ [e]) (accountPointers adb) M D M0 D0) ->
  after (journalize e adb) (fun _ adb' => exists t, adb' = t /\ inside X' t M D) (fun _ => False).
Proof. intros I O H. exists (with_entries (entries adb ++ [e]) adb). split; [done|]. by eapply inside_journalize. Qed.

Lemma accountAt_after X adb account : Inside X adb ->
  after (accountAt account adb) (fun a adb' => adb' = adb /\ accountPointers adb !! account = Some a) (Inside X).
Proof. intros I. unfold accountAt, after. by destruct (accountPointers adb !! account). Qed.

Lemma setRootHash_after X adb account h : Inside X adb -> validRoot (storage adb0) h ->
  after (userAccount_do account (fun a => Ok (SetRootHash h a)) adb) (fun _ => Inside X) (Inside X).
Proof. intros I G. apply after_do; [done|by intros a|]. intros n a [[A C R] W H]. by constructor. Qed.

Lemma setCodeHash_after X adb account h : Inside X adb -> is_key h ->
  after (userAccount_do account (fun a => Ok (SetCodeHash h a)) adb) (fun _ => Inside X) (Inside X).
Proof. intros I K. apply after_do; [done|by intros a|]. intros n a [[A C R] W H]. by constructor. Qed.

(** A data trie is put where the holder has none. *)
Lemma holder_put X adb M D address trie : inside X adb M D -> dataTries adb !! address = None -> (trie < length D)%nat ->
  Inside X (with_dataTries (<[address := trie]> (dataTries adb)) adb).
Proof.
  intros I E L. exists M, D. apply (inside_pointers _ _ _ X adb _ M D D); try done.
  - destruct (inside_consistent _ _ _ _ _ _ _ I) as [? ? ? ? ? Hh ?]. constructor; try done. intros address' p. cbn.
    intros [[<- <-]|[_ Q]]%lookup_insert_Some; [done|by eapply Hh].
  - constructor; try done; [by apply insert_subseteq|apply stable_refl].
Qed.

Lemma saveDataTrie_after X adb account a : Inside X adb -> accountPointers adb !! account = Some a -> AddressBytes a ∈ X ->
  after (saveDataTrie account adb) (fun _ => Inside X) (Inside X).
Proof.
  intros (M & D & I) E K. unfold saveDataTrie. eapply after_bind; [by eapply SaveDirtyData_after|].
  intros [newValues oldValues] adb1 I1. cbn [snd] in I1. case_decide as Q.
  { subst oldValues. done. }
  destruct (Nat.eqb_spec (length oldValues) 0) as [Z|Nz]; [by apply nil_length_inv in Z|].
  unfold NewJournalEntryDataTrieUpdates. rewrite (proj2 (Nat.eqb_neq _ _) Nz).
  change (after ((dataTrie_RootHash account ≫= fun rootHash =>
    userAccount_do account (fun a => Ok (SetRootHash rootHash a)) ≫= fun _ => accountAt account ≫= fun a =>
    se_get ≫= fun adb => match dataTries adb !! AddressBytes a, ua_dataTrie a with
      | None, Some trie => se_modify (fun adb => with_dataTries (<[AddressBytes a := trie]> (dataTries adb)) adb)
      | _, _ => mret ()
      end ≫= fun _ => mret newValues) (with_entries (entries adb1 ++ [journalEntryDataTrieUpdates oldValues account]) adb1))
    (fun _ => Inside X) (Inside X)).
  eapply after_bind; [by apply dataTrie_RootHash_after|]. intros h adb2 [I2 Gh].
  eapply after_bind; [by apply setRootHash_after|]. intros [] adb3 I3.
  eapply after_bind; [by apply accountAt_after|]. intros a' adb4 [-> Ea].
  unfold se_get, mbind, se_bind. destruct (dataTries adb3 !! AddressBytes a') eqn:Eh; [done|].
  destruct (ua_dataTrie a') as [trie|] eqn:Et; [|done]. cbn. destruct I3 as (M3 & D3 & I3).
  apply (holder_put X adb3 M3 D3); [done..|]. eapply account_trie; [|done]. by eapply inside_accountOk.
Qed.

(** ** Codes *)

Lemma getCodeEntry_after X adb M D h : inside X adb M D -> is_key h ->
  after (getCodeEntry h adb)
    (fun o adb' => inside X adb' M D /\ codeLeaf M h o /\ codeEntryOk h o /\ accountPointers adb' = accountPointers adb)
    (Inside X).
Proof.
  intros I K. destruct (getCodeEntry_spec adb M D h (inside_consistent _ _ _ _ _ _ _ I) K) as (t & C & H).
  assert (I' : inside X (with_mainTrie t adb) M D) by (by apply (inside_main _ _ _ X adb M D); [| |apply agrees_refl]).
  destruct H as [[e ->]|[[L ->]|(c & b & Co & Em & L & ->)]]; cbn.
  - by exists M, D.
  - by split_and!.
  - split_and!; try done. exists b. split_and!; [|done..].
    destruct (MarshalCode_ok c Co) as (b' & Em' & Nb & _). congruence.
Qed.

Lemma write_after X adb M D k v : inside X adb M D -> k ∈ X -> is_key k -> k <> [] -> leafOk (storage adb0) k v ->
  after (main_Update k v adb) (fun _ => Inside X) (Inside X).
Proof.
  intros I Kx K N L. pose proof (inside_consistent _ _ _ _ _ _ _ I) as C.
  rewrite <- (inside_storage _ _ _ _ _ _ _ I) in L.
  destruct (main_Update_spec adb M D k v C K N (or_introl L)) as (t & -> & C'). exists (write k v M), D.
  apply (inside_main _ _ _ X adb M D); [done..|]. apply agree_write; [|done]. apply C.
Qed.

Lemma delete_after X adb M D k : inside X adb M D -> k ∈ X -> is_key k -> k <> [] ->
  after (main_Delete k adb) (fun _ => Inside X) (Inside X).
Proof.
  intros I Kx K N. pose proof (inside_consistent _ _ _ _ _ _ _ I) as C.
  destruct (main_Delete_spec adb M D k C K N) as (t & -> & C'). exists (write k [] M), D.
  apply (inside_main _ _ _ X adb M D); [done..|]. apply agree_write; [|done]. apply C.
Qed.

Lemma saveCodeEntry_after X adb k c : Inside X adb -> k ∈ X -> is_key k -> k <> [] -> codeOk c ->
  after (saveCodeEntry k c adb) (fun _ => Inside X) (Inside X).
Proof.
  intros (M & D & I) Kx K N Co. destruct (MarshalCode_ok c Co) as (b & Em & _). unfold saveCodeEntry.
  eapply after_bind with (Q1 := fun b' adb' => b' = b /\ adb' = adb); [by rewrite Em|]. intros ? ? [-> ->].
  eapply after_bind; [apply (write_after X adb M D); [done..|by eapply code_leaf]|]. by intros [] adb'.
Qed.

Lemma u32_range x : 0 <= u32 x < 2 ^ 32.
Proof. unfold u32. apply Z.mod_pos_bound. lia. Qed.

Lemma updateOldCodeEntry_after X adb h o : Inside X adb -> codeEntryOk h o -> (o <> None -> h ∈ X /\ h <> []) ->
  after (updateOldCodeEntry h o adb) (fun _ => Inside X) (Inside X).
Proof.
  intros I [K Co] H. unfold updateOldCodeEntry. destruct o as [c|]; [|done]. destruct (H ltac:(done)) as [Kx N].
  destruct (NumReferences c <=? 1).
  - destruct I as (M & D & I). by eapply delete_after.
  - eapply after_bind; [apply saveCodeEntry_after; try done|by intros b adb']. split; [apply Co|apply u32_range].
Qed.

Lemma updateNewCodeEntry_after X adb h o newCode : Inside X adb -> (newCode <> [] -> h ∈ X /\ h <> [] /\ is_key h) ->
  after (updateNewCodeEntry h o newCode adb) (fun _ => Inside X) (Inside X).
Proof.
  intros I H. unfold updateNewCodeEntry. destruct (Nat.eqb_spec (length newCode) 0) as [_|Z]; [done|].
  assert (Nc : newCode <> []) by (by intros ->). destruct (H Nc) as (Kx & N & K).
  eapply after_bind; [apply saveCodeEntry_after; try done|by intros b adb']. split; [done|apply u32_range].
Qed.
End Save.

Section Ops.
Context {S T P : Type} {ST : StateTries S T} {STOk : StateTriesOk S T} {SP : StoragePruning P}.
Context {AE : AccountsEnv} {AOk : AccountsEnvOk AE} {TE : TrackableEnv} {TOk : TrackableOk TE}.
Context {KR : KeyRange} {KOk : KeyRangeOk KR}.

Abbreviation DB := (AccountsDB S T P).
Implicit Types (adb : DB) (M : contents) (D : list contents) (X : list bytes) (l : list userAccount).

#[local] Existing Instance trieOf.
#[local] Existing Instance trieOf_ok.

Section From.
Context (adb0 : DB) (M0 : contents) (D0 : list contents).
Abbreviation inside := (inside adb0 M0 D0).
Abbreviation Inside := (Inside adb0 M0 D0).

Lemma after_mono {A} (r : DB * result state_error A) X X' : X' ⊆ X -> after r (fun _ => Inside X) (Inside X) ->
  after r (fun _ => Inside X') (Inside X').
Proof. intros I. unfold after. destruct r as [adb [a|e]]; by apply Inside_less. Qed.

(** ** Saving *)

(** The keys that a code entry of the journal covers. *)
Definition codeKeys (h h' : bytes) : list bytes := filter (fun k => k <> []) [h; h'].

Lemma elem_of_codeKeys k h h' X : k <> [] -> k = h \/ k = h' -> k ∈ codeKeys h h' ++ X.
Proof.
  intros N E. apply elem_of_app. left. apply list_elem_of_filter. split; [done|].
  rewrite !elem_of_cons, elem_of_nil. tauto.
Qed.

(** A code entry is journalled. *)
Lemma journal_code_after X adb M D h o h' n : inside X adb M D -> codeLeaf M h o -> codeEntryOk h o ->
  codeLeaf M h' n -> codeEntryOk h' n -> h <> h' ->
  after (journalize (journalEntryCode o h n h') adb) (fun _ => Inside (codeKeys h h' ++ X)) (Inside (codeKeys h h' ++ X)).
Proof.
  intros I Lo Co Ln Cn Nh. exists M, D. eapply inside_journalize; [done|by split|].
  intros es R. by apply restores_code.
Qed.

Lemma codeLeaf_covered X adb M D h o h' : inside X adb M D -> codeLeaf M h o -> o <> None ->
  h ∈ codeKeys h h' ++ X /\ h <> [].
Proof.
  intros I Lo No. destruct o as [c|]; [|done]. destruct Lo as (b & _ & _ & L).
  assert (N : h <> []).
  { eapply canonical_key; [|by eexists]. by destruct (inside_consistent _ _ _ _ _ _ _ I). }
  split; [apply elem_of_codeKeys; auto|done].
Qed.

(** No code has the empty hash. *)
Lemma codeLeaf_nil X adb M D o : inside X adb M D -> codeLeaf M [] o -> o = None.
Proof.
  intros I Lo. destruct o as [c|]; [|done]. by destruct (codeLeaf_covered X adb M D [] (Some c) [] I Lo).
Qed.

Lemma codeLeaf_none X adb M D : inside X adb M D -> codeLeaf M [] None.
Proof.
  intros I. cbn. destruct (M !! []) eqn:L; [|done]. destruct (inside_consistent _ _ _ _ _ _ _ I) as [_ _ CM _ _ _ _].
  by destruct (canonical_key _ M CM []) as [_ []]; [by eexists|].
Qed.

Lemma saveCode_after X adb account old : Inside X adb ->
  (forall o, old = Some o -> is_key (CodeHash (ua_data o))) ->
  after (saveCode account old adb) (fun _ => Inside X) (Inside X).
Proof.
  intros I Ho. unfold saveCode. eapply after_bind; [by apply accountAt_after|]. intros a ? [-> Ea].
  destruct (negb (HasNewCode a)); [done|].
  set (h := match old with Some o => CodeHash (ua_data o) | None => [] end).
  set (h' := if (length (ua_code a) =? 0)%nat then [] else code_Compute (ua_code a)). cbn zeta.
  assert (Kh : is_key h) by (subst h; destruct old as [o|]; [by apply Ho|apply Forall_nil_2]).
  assert (Kh' : is_key h') by (subst h'; destruct (length (ua_code a) =? 0)%nat; [apply Forall_nil_2|apply code_Compute_key]).
  case_bool_decide as Eh; [by apply setCodeHash_after|]. destruct I as (M & D & I).
  eapply after_bind; [by apply getCodeEntry_after|]. intros o adb1 (I1 & Lo & Co & _).
  eapply after_bind; [by apply getCodeEntry_after|]. intros n adb2 (I2 & Ln & Cn & _).
  apply (after_mono _ (codeKeys h h' ++ X)); [by apply list_subseteq_app_r|].
  eapply after_bind; [by apply (journal_code_after X adb2 M D)|]. intros [] adb3 I3.
  eapply after_bind; [apply updateOldCodeEntry_after; [done..|by eapply codeLeaf_covered]|]. intros [] adb4 I4.
  apply after_bind with (Q1 := fun _ => Inside (codeKeys h h' ++ X)); [|intros [] adb5 I5; by apply setCodeHash_after].
  apply updateNewCodeEntry_after; [done|]. intros Nc.
  assert (N : h' <> []) by (subst h'; destruct (ua_code a); [done|apply code_Compute_key]).
  split_and!; [apply elem_of_codeKeys; auto|done..].
Qed.

Lemma saveAccountToTrie_after X adb a : Inside X adb -> AddressBytes a ∈ X -> dataOk (storage adb0) (ua_data a) ->
  after (saveAccountToTrie a adb) (fun _ => Inside X) (Inside X).
Proof.
  intros (M & D & I) Kx O. destruct (MarshalAccount_ok (ua_data a)) as (b & Em & _). unfold saveAccountToTrie.
  eapply after_bind with (Q1 := fun b' adb' => b' = b /\ adb' = adb); [by rewrite Em|]. intros ? ? [-> ->].
  destruct O as [[K N] C R]. apply after_bind with (Q1 := fun _ => Inside X); [|by intros [] adb'].
  apply (write_after _ _ _ X adb M D); [done..|]. by apply account_leaf.
Qed.

(** What [getAccount] returns of the map. *)
Definition accountLeaf M (address : bytes) (o : option userAccount) : Prop :=
  match o with
  | None => M !! address = None
  | Some a => exists d b, a = accountOf d /\ dataOk (storage adb0) d /\ Address d = address /\ MarshalAccount d = Ok b /\ b <> [] /\
      M !! address = Some (b, 0)
  end.

Lemma getAccount_after X adb M D address : inside X adb M D -> is_key address -> address <> [] ->
  after (getAccount address adb)
    (fun o adb' => inside X adb' M D /\ accountLeaf M address o /\ accountPointers adb' = accountPointers adb)
    (Inside X).
Proof.
  intros I K N. destruct (getAccount_spec adb M D address (inside_consistent _ _ _ _ _ _ _ I) K N) as (t & C & H).
  assert (I' : inside X (with_mainTrie t adb) M D) by (by apply (inside_main _ _ _ X adb M D); [| |apply agrees_refl]).
  destruct H as [(e & -> & _)|[[L ->]|(d & b & Od & Ea & Em & L & ->)]]; cbn.
  - by exists M, D.
  - by split_and!.
  - rewrite (inside_storage _ _ _ _ _ _ _ I) in Od. split_and!; try done. exists d, b. destruct (MarshalAccount_ok d) as (b' & Em' & Nb & _).
    split_and!; try done. congruence.
Qed.

(** The entry of the account that is saved or removed covers its address. *)
Lemma journal_account_after adb M D address a : inside [] adb M D -> accountLeaf M address (Some a) ->
  after (journalize (journalEntryAccount a) adb) (fun _ adb' => inside [address] adb' M D) (Inside []).
Proof.
  intros I (d & b & -> & Od & <- & Em & Nb & L). change (after _ _ _) with (inside [Address d]
    (with_entries (entries adb ++ [journalEntryAccount (accountOf d)]) adb) M D).
  eapply inside_journalize; [done|done|]. intros es R. by apply (restores_account [] es _ M D M0 D0 R d b).
Qed.

Lemma journal_creation_after adb M D address : inside [] adb M D -> is_key address -> address <> [] ->
  M !! address = None ->
  after (journalize (journalEntryAccountCreation address) adb) (fun _ adb' => inside [address] adb' M D) (Inside []).
Proof.
  intros I K N L. change (after _ _ _) with (inside [address]
    (with_entries (entries adb ++ [journalEntryAccountCreation address]) adb) M D).
  eapply inside_journalize; [done|by split|]. intros es R. by apply restores_creation.
Qed.

(** The entry of the account that is saved. *)
Definition savedEntry (address : bytes) (old : option userAccount) : JournalEntry :=
  match old with None => journalEntryAccountCreation address | Some old => journalEntryAccount old end.

Lemma savedEntry_eq adb address old : address <> [] ->
  (match old with
   | None => se_lift (NewJournalEntryAccountCreation address) | Some old => mret (journalEntryAccount old)
   end : SE DB state_error JournalEntry) adb = (adb, Ok (savedEntry address old)).
Proof.
  intros N. destruct old; [done|]. unfold NewJournalEntryAccountCreation.
  by destruct (Nat.eqb_spec (length address) 0) as [Z|_]; [apply nil_length_inv in Z|].
Qed.

Lemma journal_saved_after adb M D address old : inside [] adb M D -> is_key address -> address <> [] ->
  accountLeaf M address old ->
  after (journalize (savedEntry address old) adb) (fun _ adb' => inside [address] adb' M D) (Inside []).
Proof.
  intros I K N L. destruct old as [old|]; [by apply journal_account_after|by apply journal_creation_after].
Qed.

Lemma after_done {A} (r : DB * result state_error A) X : after r (fun _ => Inside X) (Inside X) ->
  after r (fun _ => Inside []) (Inside []).
Proof. apply after_mono, list_subseteq_nil. Qed.

(** An account object keeps its address. *)
Lemma same_address X adb account a0 a : Inside X adb -> accountPointers adb0 !! account = Some a0 ->
  accountPointers adb !! account = Some a -> AddressBytes a = AddressBytes a0.
Proof.
  intros (M & D & I) E0 E. destruct (frame_accounts _ _ (inside_frame _ _ _ _ _ _ _ I) account a0 E0) as (a' & E' & Sa & _).
  congruence.
Qed.

Lemma SaveAccount_after account : consistent adb0 M0 D0 ->
  after (SaveAccount account adb0) (fun _ => Inside []) (Inside []).
Proof.
  intros C. pose proof (inside_refl adb0 M0 D0 C) as I. assert (I0 : Inside [] adb0) by (by exists M0, D0).
  unfold SaveAccount. eapply after_bind; [by apply accountAt_after|]. intros a adb1 [-> E].
  destruct (account_data _ _ _ (inside_accountOk _ _ _ _ _ _ _ _ _ I E)) as [[K N] _ _].
  eapply after_bind; [by apply getAccount_after|]. intros old adb2 (I2 & L & E2).
  set (address := AddressBytes a) in *. apply (after_done _ [address]).
  pose proof (journal_saved_after adb2 M0 D0 address old I2 K N L) as I3. apply after_bind with
    (Q1 := fun entry adb => entry = savedEntry address old /\ adb = adb2); [by rewrite savedEntry_eq|].
  intros ? ? [-> ->]. set (adb3 := with_entries (entries adb2 ++ [savedEntry address old]) adb2).
  change (inside [address] adb3 M0 D0) in I3. apply after_bind with (Q1 := fun _ adb => adb = adb3); [done|]. intros [] ? ->.
  assert (Kx : address ∈ [address]) by apply list_elem_of_here.
  apply after_bind with (Q1 := fun _ => Inside [address]).
  { unfold saveCodeAndDataTrie. apply after_bind with (Q1 := fun _ => Inside [address]).
    - destruct (frame_accounts _ _ (inside_frame _ _ _ _ _ _ _ I3) account a E) as (a3 & E3 & Sa & _).
      apply (saveDataTrie_after adb0 M0 D0 [address] adb3 account a3); [by exists M0, D0|done|by rewrite Sa].
    - intros ? adb4 I4. apply after_bind with (Q1 := fun _ => Inside [address]); [|by intros []].
      apply saveCode_after; [done|]. intros o ->. destruct L as (d & b & -> & Od & _). apply Od. }
  intros ? adb5 I5. eapply after_bind; [by apply accountAt_after|]. intros a5 ? [-> E5].
  pose proof (same_address _ _ _ _ _ I5 E E5) as Sa. destruct I5 as (M5 & D5 & I5).
  apply after_bind with (Q1 := fun _ => Inside [address]); [|by intros b adb6].
  apply saveAccountToTrie_after; [by exists M5, D5|by rewrite Sa|]. eapply account_data, inside_accountOk; done.
Qed.

(** ** Removing *)

Lemma removeCode_after X adb M D a : inside X adb M D -> dataOk (storage adb0) (ua_data a) ->
  after (removeCode a adb) (fun _ => Inside X) (Inside X).
Proof.
  intros I O. unfold removeCode. set (h := CodeHash (ua_data a)).
  eapply after_bind; [apply getCodeEntry_after; [done|apply O]|]. intros o adb1 (I1 & Lo & Co & _).
  destruct (decide (h = [])) as [Eh|Nh].
  - rewrite Eh in *. rewrite (codeLeaf_nil X adb1 M D o I1 Lo) in *. exists M, D.
    eapply inside_journalize; [done|by split|]. intros es R. by apply restores_no_code.
  - pose proof (codeLeaf_none X adb1 M D I1) as Ln. assert (Cn : codeEntryOk [] None) by (split; [apply Forall_nil_2|done]).
    apply (after_mono _ (codeKeys h [] ++ X)); [by apply list_subseteq_app_r|].
    eapply after_bind; [by apply (journal_code_after X adb1 M D)|]. intros [] adb2 I2.
    apply updateOldCodeEntry_after; [done..|by eapply codeLeaf_covered].
Qed.

Lemma removeDataTrie_after X adb a : Inside X adb -> after (removeDataTrie a adb) (fun _ => Inside X) (Inside X).
Proof.
  intros (M & D & I). unfold removeDataTrie. set (h := RootHash_ (ua_data a)).
  destruct (Nat.eqb_spec (length h) 0) as [_|Nz]; [by exists M, D|].
  unfold se_get at 1, mbind at 1, se_bind at 1. destruct (Recreate _ _ _) as [t|e]; [|by exists M, D].
  destruct (GetAllHashes _ _) as [t' [hashes|e]]; [|by exists M, D].
  unfold NewJournalEntryDataTrieRemove. rewrite (proj2 (Nat.eqb_neq _ _) Nz).
  set (adb1 := with_obsolete (<[h := hashes]> (obsoleteDataTrieHashes adb)) adb).
  assert (I1 : inside X adb1 M D).
  { destruct I as [[] [] J]. constructor; [by constructor|by constructor|exact J]. }
  exists M, D. change (inside X (with_entries (entries adb1 ++ [journalEntryDataTrieRemove h]) adb1) M D).
  eapply inside_journalize; [done|done|]. intros es R. by apply restores_remove.
Qed.

Lemma RemoveAccount_after address : consistent adb0 M0 D0 -> is_key address ->
  after (RemoveAccount address adb0) (fun _ => Inside []) (Inside []).
Proof.
  intros C K. pose proof (inside_refl adb0 M0 D0 C) as I. unfold RemoveAccount.
  destruct (Nat.eqb_spec (length address) 0) as [_|Nz]; [by exists M0, D0|].
  assert (N : address <> []) by (by intros ->). eapply after_bind; [by apply getAccount_after|].
  intros [a|] adb1 (I1 & L & _); [|by exists M0, D0]. apply (after_done _ [address]).
  assert (O : dataOk (storage adb0) (ua_data a)) by (destruct L as (d & b & -> & Od & _); done).
  eapply after_bind with (Q1 := fun _ adb' => inside [address] adb' M0 D0).
  { exact (journal_account_after adb1 M0 D0 address a I1 L). }
  intros [] adb2 I2. apply after_bind with (Q1 := fun _ => Inside [address]).
  - unfold removeCodeAndDataTrie. apply after_bind with (Q1 := fun _ => Inside [address]).
    + by apply (removeCode_after [address] adb2 M0 D0).
    + intros [] adb3 I3. by apply removeDataTrie_after.
  - intros [] adb3 (M3 & D3 & I3). by apply (delete_after _ _ _ [address] adb3 M3 D3); [|apply list_elem_of_here|..].
Qed.

(** ** Loading *)

Lemma newAccount_after X adb M D a : inside X adb M D -> accountOk (storage adb0) (length D) a ->
  after (newAccount a adb) (fun account adb' => inside X adb' M D /\ accountPointers adb' !! account = Some a) (Inside X).
Proof.
  intros I O. rewrite <- (inside_storage _ _ _ _ _ _ _ I) in O. cbn. split; [|by apply list_lookup_middle]. pose proof (inside_consistent _ _ _ _ _ _ _ I) as C.
  apply (inside_pointers _ _ _ X adb _ M D D); try done.
  - destruct C. constructor; try done; cbn.
    + apply Forall_app. split; [done|by apply Forall_singleton].
    + eapply journal_stable; [apply stable_app|done].
  - constructor; try done. apply stable_app.
Qed.

Lemma SetDataTrie_after X adb M D account a p : inside X adb M D -> accountPointers adb !! account = Some a ->
  ua_dataTrie a = None -> (p < length D)%nat ->
  after (userAccount_do account (fun a => Ok (SetDataTrie p a)) adb) (fun _ adb' => inside X adb' M D /\
    dataTries adb' = dataTries adb) (Inside X).
Proof.
  intros I E En L. unfold userAccount_do. rewrite E. cbn. split; [|done].
  apply (inside_account _ _ _ X adb M D account a); [done..| |].
  - split; [done|]. rewrite En. by intros.
  - destruct (inside_accountOk _ _ _ _ _ _ _ _ _ I E). constructor; try done. by intros q [= <-].
Qed.

Lemma newTrie_after X adb M D t m : inside X adb M D -> HoldsAt (storage adb) t m ->
  after (newTrie t adb) (fun p adb' => inside X adb' M (D ++ [m]) /\ p = length D /\
    accountPointers adb' = accountPointers adb /\ dataTries adb' = dataTries adb) (Inside X).
Proof.
  intros I H. pose proof (inside_consistent _ _ _ _ _ _ _ I) as C. cbn. split_and!; try done.
  2:{ apply (Forall2_length _ _ _ (tries_hold _ _ _ C)). }
  apply (inside_pointers _ _ _ X adb _ M D (D ++ [m])); try done.
  - destruct C as [? ? ? F A Hh J]. constructor; try done; cbn.
    + by apply Forall2_app; [|apply Forall2_cons].
    + eapply Forall_accountOk_more; [|done]. rewrite length_app. lia.
    + intros address p Ep. specialize (Hh address p Ep). rewrite length_app. lia.
  - constructor; try done. apply stable_refl.
  - by apply prefix_app_r.
Qed.

Lemma loadDataTrie_after X adb M D account a : inside X adb M D -> accountPointers adb !! account = Some a ->
  ua_dataTrie a = None ->
  after (loadDataTrieConcurrentSafe account adb) (fun _ => Inside X) (Inside X).
Proof.
  intros I E En. pose proof (inside_consistent _ _ _ _ _ _ _ I) as C. unfold loadDataTrieConcurrentSafe.
  eapply after_bind; [by apply accountAt_after; exists M, D|]. intros a' adb' [-> E']. rewrite E in E'. injection E' as <-.
  unfold se_get at 1, mbind at 1, se_bind at 1. destruct (dataTries adb !! AddressBytes a) as [p|] eqn:Eh.
  { pose proof (SetDataTrie_after X adb M D account a p I E En (holder_ok _ _ _ C _ _ Eh)) as A.
    unfold after in *. destruct (userAccount_do _ _ _) as [adb' [[]|]]; [|done]. exists M, D. apply A. }
  destruct (length _ =? 0)%nat; [by exists M, D|]. destruct (Recreate _ _ _) as [t|e] eqn:Er; [|by exists M, D].
  pose proof (data_rootHash _ _ (account_data _ _ _ (inside_accountOk _ _ _ _ _ _ _ _ _ I E))) as Gr.
  rewrite <- (inside_storage _ _ _ _ _ _ _ I) in Gr.
  destruct (validRoot_recreated _ _ _ _ (storage_ok _ _ _ C) Gr Er) as [m H]. eapply after_bind; [by apply (newTrie_after X adb M D t m)|].
  intros p adb1 (I1 & -> & Ea & Ed). assert (L : (length D < length (D ++ [m]))%nat) by (rewrite length_app; cbn; lia).
  eapply after_bind; [apply (SetDataTrie_after X adb1 M (D ++ [m]) account a (length D)); [done|congruence|done..]|].
  intros [] adb2 [I2 Ed2]. apply (holder_put _ _ _ X adb2 M (D ++ [m])); [done|congruence|done].
Qed.

(** A new account object with its data trie. *)
Lemma loaded_after adb M D a : inside [] adb M D -> accountOk (storage adb0) (length D) a -> ua_dataTrie a = None ->
  after ((account ← newAccount a; _ ← loadDataTrieConcurrentSafe account; mret account) adb)
    (fun _ => Inside []) (Inside []).
Proof.
  intros I O En. eapply after_bind; [by apply newAccount_after|]. intros account adb1 [I1 E1].
  apply after_bind with (Q1 := fun _ => Inside []); [|by intros []].
  by apply (loadDataTrie_after [] adb1 M D account a).
Qed.

Lemma accountOf_ok n d : dataOk (storage adb0) d -> accountOk (storage adb0) n (accountOf d).
Proof. intros O. constructor; [done| |done]. intros k [e E]. cbn in E. by rewrite lookup_empty in E. Qed.

Lemma NewUserAccount_ok address : address <> [] -> NewUserAccount address = Ok (accountOf (emptyData address)).
Proof.
  intros N. unfold NewUserAccount. destruct (Nat.eqb_spec (length address) 0) as [Z|_]; [by apply nil_length_inv in Z|done].
Qed.

Lemma accountFromBytes_eq address value : address <> [] -> accountFromBytes address value =
  match UnmarshalAccount value (emptyData address) with
  | Ok d => Ok (onData (fun _ => d) (accountOf (emptyData address)))
  | Err e => Err e
  end.
Proof. intros N. unfold accountFromBytes. by rewrite NewUserAccount_ok. Qed.

Lemma emptyData_ok address : is_key address -> address <> [] -> dataOk (storage adb0) (emptyData address).
Proof. intros K N. constructor; [done|apply Forall_nil_2|by left]. Qed.

Lemma LoadAccount_after address : consistent adb0 M0 D0 -> is_key address ->
  after (LoadAccount address adb0) (fun _ => Inside []) (Inside []).
Proof.
  intros C K. pose proof (inside_refl adb0 M0 D0 C) as I. unfold LoadAccount.
  destruct (Nat.eqb_spec (length address) 0) as [_|Nz]; [by exists M0, D0|].
  assert (N : address <> []) by (by intros ->). eapply after_bind; [by apply getAccount_after|].
  intros [a|] adb1 (I1 & L & _).
  - destruct L as (d & b & -> & Od & _). by apply (loaded_after adb1 M0 D0); [|apply accountOf_ok|..].
  - rewrite NewUserAccount_ok by done. cbn.
    pose proof (newAccount_after [] adb1 M0 D0 (accountOf (emptyData address)) I1) as A.
    exists M0, D0. apply A. by apply accountOf_ok, emptyData_ok.
Qed.

Lemma GetExistingAccount_after address : consistent adb0 M0 D0 -> is_key address ->
  after (GetExistingAccount address adb0) (fun _ => Inside []) (Inside []).
Proof.
  intros C K. pose proof (inside_refl adb0 M0 D0 C) as I. unfold GetExistingAccount.
  destruct (Nat.eqb_spec (length address) 0) as [_|Nz]; [by exists M0, D0|].
  assert (N : address <> []) by (by intros ->). eapply after_bind; [by apply getAccount_after|].
  intros [a|] adb1 (I1 & L & _); [|by exists M0, D0].
  destruct L as (d & b & -> & Od & _). by apply (loaded_after adb1 M0 D0); [|apply accountOf_ok|..].
Qed.

Lemma GetAccountFromBytes_after address accountBytes : consistent adb0 M0 D0 ->
  (forall d, UnmarshalAccount accountBytes (emptyData address) = Ok d -> dataOk (storage adb0) d) ->
  after (GetAccountFromBytes address accountBytes adb0) (fun _ => Inside []) (Inside []).
Proof.
  intros C Hd. pose proof (inside_refl adb0 M0 D0 C) as I. unfold GetAccountFromBytes.
  destruct (Nat.eqb_spec (length address) 0) as [_|Nz]; [by exists M0, D0|].
  rewrite accountFromBytes_eq by (by intros ->). destruct (UnmarshalAccount _ _) as [d|e] eqn:Eu; [|by exists M0, D0].
  apply (loaded_after adb0 M0 D0); try done. constructor; [by apply Hd| |done]. intros k [e E]. cbn in E. by rewrite lookup_empty in E.
Qed.
End From.
End Ops.
