(* ===== verification/AccountsRevert.v ===== *)
(** * Reverting the journal of the accounts database

    RevertToSnapshot reverts the entries one by one, and a run with nested
    snapshots is taken back by reverting to the snapshot that it started at.

    ** Committing and recreating the accounts database

    A commit persists the main trie and the data tries of the holder without
    a change of their contents; what is persisted can be recreated, which is
    how the database reverts to the last commit. *)

From Stdlib Require Import ZArith Lia.
From stdpp Require Import base gmap list sorting.
From S2P Require Import Prelude TrieNode PatriciaSpec GoValues GoCollections Validators StateTrie TrackableDataTrie.
From S2P Require Import TrackableSpec TrackableMap UserAccount AccountsDB AccountsSpec.
From S2P Require Import AccountsJournal AccountsOps.

(** The methods of account objects that change them. *)
Inductive accountMethod :=
| do_SaveKeyValue (key value : bytes)
| do_AddToBalance (value : Z)
| do_SubFromBalance (value : Z)
| do_IncreaseNonce (value : Z)
| do_SetCode (code : bytes)
| do_SetCodeMetadata (codeMetadata : bytes)
| do_SetUserName (userName : bytes)
| do_SetOwnerAddress (address : bytes)
| do_ChangeOwnerAddress (sndAddress newAddress : bytes)
| do_ClaimDeveloperRewards (sndAddress : bytes)
| do_AddToDeveloperReward (value : Z).

Definition doMethod {TE : TrackableEnv} (m : accountMethod) (a : userAccount) : result state_error userAccount :=
  match m with
  | do_SaveKeyValue key value => account_SaveKeyValue key value a
  | do_AddToBalance value => AddToBalance value a
  | do_SubFromBalance value => SubFromBalance value a
  | do_IncreaseNonce value => Ok (IncreaseNonce value a)
  | do_SetCode code => Ok (SetCode code a)
  | do_SetCodeMetadata codeMetadata => Ok (SetCodeMetadata codeMetadata a)
  | do_SetUserName userName => Ok (SetUserName userName a)
  | do_SetOwnerAddress address => Ok (SetOwnerAddress address a)
  | do_ChangeOwnerAddress sndAddress newAddress => ChangeOwnerAddress sndAddress newAddress a
  | do_ClaimDeveloperRewards sndAddress => fst <$> ClaimDeveloperRewards sndAddress a
  | do_AddToDeveloperReward value => Ok (AddToDeveloperReward value a)
  end.

(** The keys of storage are not empty. *)
Definition methodOk (m : accountMethod) : Prop :=
  match m with do_SaveKeyValue key _ => is_key key /\ key <> [] | _ => True end.

(** What is done with the database between two snapshots. *)
Inductive call :=
| call_SaveAccount (account : nat)
| call_RemoveAccount (address : bytes)
| call_LoadAccount (address : bytes)
| call_GetExistingAccount (address : bytes)
| call_GetAccountFromBytes (address accountBytes : bytes)
| call_GetCode (codeHash : bytes)
| call_RetrieveValue (account : nat) (key : bytes)
| call_method (account : nat) (m : accountMethod).

Section Revert.
Context {S T P : Type} {ST : StateTries S T} {STOk : StateTriesOk S T} {SP : StoragePruning P}.
Context {AE : AccountsEnv} {AOk : AccountsEnvOk AE} {TE : TrackableEnv} {TOk : TrackableOk TE}.
Context {KR : KeyRange} {KOk : KeyRangeOk KR}.

Abbreviation DB := (AccountsDB S T P).
Implicit Types (adb : DB) (M : contents) (D : list contents) (l : list userAccount).

#[local] Existing Instance trieOf.
#[local] Existing Instance trieOf_ok.

(** The state after a call, whether it fails or not. *)
Definition runCall (c : call) adb : DB :=
  match c with
  | call_SaveAccount account => fst (SaveAccount account adb)
  | call_RemoveAccount address => fst (RemoveAccount address adb)
  | call_LoadAccount address => fst (LoadAccount address adb)
  | call_GetExistingAccount address => fst (GetExistingAccount address adb)
  | call_GetAccountFromBytes address accountBytes => fst (GetAccountFromBytes address accountBytes adb)
  | call_GetCode codeHash => fst (GetCode codeHash adb)
  | call_RetrieveValue account key => fst (userAccount_RetrieveValue account key adb)
  | call_method account m => fst (userAccount_do account (doMethod m) adb)
  end.

Definition callOk (s : S) (c : call) : Prop :=
  match c with
  | call_SaveAccount _ => True
  | call_RemoveAccount k | call_LoadAccount k | call_GetExistingAccount k | call_GetCode k | call_RetrieveValue _ k =>
      is_key k
  | call_GetAccountFromBytes address accountBytes =>
      forall d, UnmarshalAccount accountBytes (emptyData address) = Ok d -> dataOk s d
  | call_method _ m => methodOk m
  end.

(** Calls, and reverts to snapshots that were taken on the way. *)
Inductive run : DB -> DB -> Prop :=
| run_none adb : run adb adb
| run_call adb adb1 c : run adb adb1 -> callOk (storage adb) c -> run adb (runCall c adb1)
| run_revert adb adb1 adb2 : run adb adb1 -> run adb1 adb2 ->
    run adb (fst (RevertToSnapshot (Z.of_nat (JournalLen adb1)) adb2)).

(** ** Calls *)

Lemma doMethod_ok s m n a a' : methodOk m -> accountOk s n a -> doMethod m a = Ok a' ->
  accountOk s n a' /\ sameAccount a a'.
Proof.
  intros Hm [[A C R] W H].
  assert (G : forall d, Address d = AddressBytes a -> is_key (CodeHash d) -> validRoot s (RootHash_ d) ->
    accountOk s n (onData (fun _ => d) a) /\ sameAccount a (onData (fun _ => d) a)).
  { intros d E Kd Gd. split; [|by split]. constructor; [|done..]. constructor; [by cbn; rewrite E|done..]. }
  destruct m; cbn [doMethod].
  - unfold account_SaveKeyValue, SaveKeyValue. destruct (_ <? _); [done|]. intros [= <-].
    split; [|by split]. constructor; [by constructor| |done]. intros k. cbn. destruct Hm as [Kk Nk].
    destruct (decide (k = key)) as [->|N].
    + intros _. constructor; try done. unfold entryOf. cbn. rewrite lookup_insert_eq. cbn. apply versionForNewData_on.
    + rewrite lookup_insert_ne by done. intros [Hk Nk' V]%W. constructor; try done.
      unfold entryOf in *. cbn. by rewrite lookup_insert_ne.
  - unfold AddToBalance. destruct (_ <? _); [done|]. intros [= <-]. by apply G.
  - unfold SubFromBalance. destruct (_ <? _); [done|]. intros [= <-]. by apply G.
  - intros [= <-]. by apply G.
  - intros [= <-]. split; [by constructor|by split].
  - intros [= <-]. by apply G.
  - intros [= <-]. by apply G.
  - intros [= <-]. by apply G.
  - unfold ChangeOwnerAddress. destruct (negb _); [done|]. destruct (negb _); [done|]. intros [= <-]. by apply G.
  - unfold ClaimDeveloperRewards. destruct (negb _); [done|]. intros [= <-]. by apply G.
  - intros [= <-]. by apply G.
Qed.

Lemma after_fst {A} (r : DB * result state_error A) (Q : DB -> Prop) : after r (fun _ => Q) Q -> Q (fst r).
Proof. unfold after. by destruct r as [adb [a|e]]. Qed.

Lemma runCall_inside adb M D c : consistent adb M D -> callOk (storage adb) c ->
  Inside adb M D [] (runCall c adb).
Proof.
  intros C O. pose proof (inside_refl adb M D C) as I. assert (I0 : Inside adb M D [] adb) by (by exists M, D).
  destruct c; cbn [runCall callOk] in *.
  - apply after_fst. by apply SaveAccount_after.
  - apply after_fst. by apply RemoveAccount_after.
  - apply after_fst. by apply LoadAccount_after.
  - apply after_fst. by apply GetExistingAccount_after.
  - apply after_fst. by apply GetAccountFromBytes_after.
  - unfold GetCode. destruct (_ =? _)%nat; [done|]. destruct (main_Get_spec adb M D codeHash C O) as (t & E & C').
    rewrite E. cbn. exists M, D. by apply (inside_main _ _ _ [] adb M D); [| |apply agrees_refl].
  - pose proof (RetrieveValue_after adb M D [] adb account key I0 O) as A. unfold after in A.
    destruct (userAccount_RetrieveValue account key adb) as [adb' [v|e]]; apply A.
  - unfold userAccount_do. destruct (accountPointers adb !! account) as [a|] eqn:E; [|done].
    destruct (doMethod m a) as [a'|e] eqn:Em; [|done]. cbn.
    destruct (doMethod_ok (storage adb) m (length D) a a' O (inside_accountOk _ _ _ _ _ _ _ _ _ I E) Em) as [Oa Sa].
    exists M, D. by apply (inside_account _ _ _ [] adb M D account a).
Qed.

(** ** Reverting one entry *)

Lemma with_mainTrie_id adb : with_mainTrie (mainTrie adb) adb = adb.
Proof. by destruct adb. Qed.

Lemma revertCodeEntry_spec adb M D h o : consistent adb M D -> codeEntryOk h o ->
  exists t, revertCodeEntry h o adb = (with_mainTrie t adb, Ok ()) /\
    consistent (with_mainTrie t adb) (undoCode h o M) D.
Proof.
  intros C [K Co]. unfold revertCodeEntry, undoCode. destruct (Nat.eqb_spec (length h) 0) as [Z|Nz].
  { apply nil_length_inv in Z. exists (mainTrie adb). rewrite with_mainTrie_id. split; [done|]. by rewrite decide_True. }
  assert (N : h <> []) by (by intros ->). rewrite decide_False by done. destruct o as [c|]; cbn.
  - destruct (MarshalCode_ok c Co) as (b & Em & _). rewrite Em.
    destruct (main_Update_spec adb M D h b C K N) as (t & E & C'); [left; by eapply code_leaf|].
    exists t. split; [|done]. unfold saveCodeEntry, mbind, se_bind, se_lift. by rewrite Em, E.
  - apply main_Update_spec; auto.
Qed.

Lemma saveAccountToTrie_spec adb M D a : consistent adb M D -> dataOk (storage adb) (ua_data a) ->
  exists t b, saveAccountToTrie a adb = (with_mainTrie t adb, Ok b) /\
    consistent (with_mainTrie t adb) (write (AddressBytes a) (accountBytes (ua_data a)) M) D.
Proof.
  intros C O. destruct (MarshalAccount_ok (ua_data a)) as (b & Em & _). unfold accountBytes. rewrite Em.
  destruct (data_address _ _ O) as [K N].
  destruct (main_Update_spec adb M D (AddressBytes a) b C K N) as (t & E & C'); [left; by apply account_leaf|].
  exists t, b. split; [|done]. unfold saveAccountToTrie, mbind, se_bind, se_lift. by rewrite Em, E.
Qed.

Definition saved (o : option userAccount) adb1 adb2 : Prop :=
  match o with None => adb2 = adb1 | Some a => exists b, saveAccountToTrie a adb1 = (adb2, Ok b) end.

(** How an entry is reverted. *)
Definition reverts l (e : JournalEntry) adb M D : Prop :=
  exists adb1 o adb2 M2 D2, Revert e adb = (adb1, Ok o) /\ saved o adb1 adb2 /\ undone l e M D M2 D2 /\
    consistent adb2 M2 D2 /\ frame adb adb2 /\ entries adb1 = entries adb /\ entries adb2 = entries adb.

Lemma frame_main adb t : frame adb (with_mainTrie t adb).
Proof. constructor; try done. apply stable_refl. Qed.

Lemma reverts_code l adb M D o h n h' : consistent adb M D -> codeEntryOk h o -> codeEntryOk h' n ->
  reverts l (journalEntryCode o h n h') adb M D.
Proof.
  intros C Co Cn. pose proof (undone_code l o h n h' M D) as U. unfold reverts. cbn [Revert]. unfold journalEntryCode_Revert. case_bool_decide as Eh.
  - rewrite decide_True in U by done. exists adb, None, adb, M, D. split_and!; try done. apply frame_refl.
  - rewrite decide_False in U by done. destruct (revertCodeEntry_spec adb M D h o C Co) as (t & E & C1).
    destruct (revertCodeEntry_spec (with_mainTrie t adb) (undoCode h o M) D h' n C1 Cn) as (t' & E' & C2).
    exists (with_mainTrie t' (with_mainTrie t adb)), None, (with_mainTrie t' (with_mainTrie t adb)). eexists _, D.
    split; [unfold mbind, se_bind; by rewrite E, E'|]. split_and!; try done.
    eapply frame_trans; apply frame_main.
Qed.

Lemma reverts_account l adb M D a : consistent adb M D -> dataOk (storage adb) (ua_data a) ->
  reverts l (journalEntryAccount a) adb M D.
Proof.
  intros C O. destruct (saveAccountToTrie_spec adb M D a C O) as (t & b & E & C').
  exists adb, (Some a), (with_mainTrie t adb). eexists _, D. split_and!; [done|by exists b|apply undone_account|done| |done..].
  apply frame_main.
Qed.

Lemma reverts_creation l adb M D address : consistent adb M D -> is_key address -> address <> [] ->
  reverts l (journalEntryAccountCreation address) adb M D.
Proof.
  intros C K N. destruct (main_Update_spec adb M D address [] C K N) as (t & E & C'); [by right|].
  exists (with_mainTrie t adb), None, (with_mainTrie t adb). eexists _, D.
  split; [cbn [Revert]; unfold journalEntryAccountCreation_Revert, mbind, se_bind; by rewrite E|].
  split_and!; [done|apply undone_creation|done|apply frame_main|done..].
Qed.

Lemma reverts_data s l adb M D updates account : consistent adb M D -> stable l (accountPointers adb) ->
  entryOk s l (journalEntryDataTrieUpdates updates account) ->
  reverts l (journalEntryDataTrieUpdates updates account) adb M D.
Proof.
  intros C Hl (Wf & a0 & E0 & [p Ep0]). destruct (Hl account a0 E0) as (a & E & [Ea Ht]). pose proof (Ht p Ep0) as Ep.
  pose proof (proj1 (Forall_lookup _ _) (accounts_ok _ _ _ C) account a E) as O.
  destruct (lookup_lt_is_Some_2 D p (account_trie _ _ _ O p Ep)) as [m Em].
  destruct (Forall2_lookup_r _ _ _ _ _ (tries_hold _ _ _ C) Em) as (t & Et & H).
  destruct (Revert_undoes (DT := trieOf (storage adb)) updates t m Wf H) as (t' & h & Er & H' & Hh).
  destruct (onAccountStorage_spec adb M D account a (fun DT tdt =>
        h ← onDataTrie (journalEntryDataTrieUpdates_Revert (DT := DT) updates); mret (h, tdt)) (Some t') (undo updates m)
        (Ok (h, ua_tracker a)) C E) as (adb1 & D1 & a1 & Eq & C1 & F1 & Ee1 & _ & St & _ & Ea1); [|done|done|apply O|].
  { unfold trieBehind. rewrite Ep. cbn. rewrite Et. unfold mbind, se_bind, onDataTrie. by rewrite Er. }
  assert (L1 : accountPointers adb1 !! account = Some a1).
  { rewrite Ea1. apply list_lookup_insert_eq. by eapply lookup_lt_Some. }
  assert (ED : D1 = <[p := undo updates m]> D) by (destruct St; congruence).
  pose proof (proj1 (Forall_lookup _ _) (accounts_ok _ _ _ C1) account a1 L1) as O1.
  set (a2 := SetRootHash h a1). assert (Gh : validRoot (storage adb1) h).
  { rewrite (frame_storage _ _ F1). right. eexists. exact Hh. }
  assert (O2 : accountOk (storage adb1) (length D1) a2) by (destruct O1 as [[? ? ?] ? ?]; by constructor).
  destruct (consistent_account adb1 M D1 account a1 a2 C1 L1) as [C2 F2]; [by split|done|].
  destruct (saveAccountToTrie_spec _ M D1 a2 C2 (account_data _ _ _ O2)) as (t2 & b & E2 & C3).
  exists (setAccount account a2 adb1), (Some a2), (with_mainTrie t2 (setAccount account a2 adb1)).
  exists (write (AddressBytes a2) (accountBytes (ua_data a2)) M), D1.
  split.
  { cbn [Revert]. unfold entryDataTrieUpdates_Revert, mbind at 1, se_bind at 1. change (onStorage (storage adb)) with (trieOf (storage adb)).
    rewrite Eq. unfold mbind, se_bind, userAccount_do. rewrite L1. unfold accountAt.
    assert (L2 : accountPointers (setAccount account a2 adb1) !! account = Some a2).
    { cbn. apply list_lookup_insert_eq. by eapply lookup_lt_Some. }
    cbn beta iota. change (setAccount account (SetRootHash h a1) adb1) with (setAccount account a2 adb1). by rewrite L2. }
  split; [by exists b|]. split.
  { rewrite ED. assert (Ea2 : AddressBytes a2 = AddressBytes a0).
    { change (AddressBytes a1 = AddressBytes a0). destruct (stored_same _ _ _ _ _ St) as [[-> _] _]. done. }
    rewrite Ea2. by apply (undone_data l updates account a0 p m). }
  split_and!; try done. eapply frame_trans; [done|]. eapply frame_trans; [done|]. apply frame_main.
Qed.

(** Every entry can be reverted. *)
Lemma reverts_entry l adb M D e : consistent adb M D -> stable l (accountPointers adb) -> entryOk (storage adb) l e ->
  reverts l e adb M D.
Proof.
  intros C Hl O. destruct e as [o h n h'|a|address|updates account|h].
  - destruct O. by apply reverts_code.
  - by apply reverts_account.
  - destruct O. by apply reverts_creation.
  - by eapply reverts_data.
  - set (adb1 := with_obsolete (base.delete h (obsoleteDataTrieHashes adb)) adb).
    exists adb1, None, adb1, M, D. split_and!; try done; [apply undone_remove|by destruct C; constructor|].
    constructor; try done. apply stable_refl.
Qed.

(** ** Reverting to a snapshot *)

Lemma revert_loop_spec s l snapshot es : forall adb M D post, storage adb = s -> consistent adb M D -> stable l (accountPointers adb) ->
  Forall (entryOk s l) es -> drop snapshot (entries adb) = es ++ post ->
  exists adb' M' D', revert_loop snapshot (length es) adb = (adb', Ok ()) /\ undoneAll l es M D M' D' /\
    consistent adb' M' D' /\ frame adb adb' /\ entries adb' = entries adb.
Proof.
  induction es as [|e es IH] using rev_ind; intros adb M D post Es C Hl Oe Ed.
  { exists adb, M, D. split_and!; [done|apply undoneAll_nil|done|apply frame_refl|done]. }
  apply Forall_app in Oe as [Oe [Oe1 _]%Forall_cons].
  rewrite <- Es in Oe1. destruct (reverts_entry l adb M D e C Hl Oe1) as (adb1 & o & adb2 & M2 & D2 & E & Sv & U & C2 & F & Ee1 & Ee2).
  destruct (IH adb2 M2 D2 (e :: post)) as (adb' & M' & D' & E' & U' & C' & F' & Ee'); try done.
  { rewrite <- Es. apply F. }
  { eapply stable_trans; [done|apply F]. }
  { by rewrite Ee2, Ed, <- (assoc_L (++)). }
  exists adb', M', D'. split_and!; [|by eapply undoneAll_snoc|done|by eapply frame_trans|congruence].
  rewrite length_app, Nat.add_comm. cbn [length Nat.add revert_loop]. unfold se_get, mbind at 1, se_bind at 1.
  assert (Lk : entries adb !! (snapshot + length es)%nat = Some e).
  { rewrite <- lookup_drop, Ed, <- (assoc_L (++)). by apply list_lookup_middle. }
  rewrite Lk. unfold orKeepEntries, mbind, se_bind. rewrite E. destruct o as [a|].
  - destruct Sv as [b Eb]. by rewrite Eb.
  - cbn in Sv. by subst adb2.
Qed.

Lemma consistent_entries adb M D (es : list JournalEntry) : consistent adb M D -> es ⊆ entries adb -> consistent (with_entries es adb) M D.
Proof. intros [] Hl. constructor; try done. cbn. apply Forall_forall. intros e K. by eapply Forall_forall, Hl. Qed.

(** What was journalled after a snapshot is reverted. *)
Lemma RevertToSnapshot_spec adb M D es0 es : consistent adb M D -> entries adb = es0 ++ es -> es0 <> [] ->
  exists adb' M' D', RevertToSnapshot (Z.of_nat (length es0)) adb = (adb', Ok ()) /\
    undoneAll (accountPointers adb) es M D M' D' /\ consistent adb' M' D' /\ frame adb adb' /\ entries adb' = es0.
Proof.
  intros C E N. pose proof (journal_ok _ _ _ C) as J. rewrite E in J. apply Forall_app in J as [_ J].
  destruct (revert_loop_spec (storage adb) (accountPointers adb) (length es0) es adb M D [] eq_refl C (stable_refl _) J) as
    (adb1 & M1 & D1 & E1 & U & C1 & F & Ee).
  { by rewrite E, drop_app_length, app_nil_r. }
  exists (with_entries es0 adb1), M1, D1. split_and!; [|done| | |done].
  - unfold RevertToSnapshot, se_get, mbind at 1, se_bind at 1. rewrite E, length_app.
    destruct (Z.ltb_spec (Z.of_nat (length es0 + length es)) (Z.of_nat (length es0))); [lia|].
    destruct (Z.ltb_spec (Z.of_nat (length es0)) 0); [lia|]. cbn [orb].
    destruct (Z.eqb_spec (Z.of_nat (length es0)) 0); [by destruct es0|]. rewrite Nat2Z.id, Nat.add_comm, Nat.add_sub.
    unfold mbind, se_bind. rewrite E1. unfold se_modify. by rewrite Ee, E, take_app_length.
  - apply consistent_entries; [done|]. rewrite Ee, E. by apply list_subseteq_app_l.
  - eapply frame_trans; [done|]. constructor; try done. apply stable_refl.
Qed.

(** ** Runs *)

(** A run can be taken back. *)
Lemma run_inside adb adb' : run adb adb' -> forall M D, consistent adb M D ->
  entries adb <> [] -> exists M' D', inside adb M D [] adb' M' D'.
Proof.
  induction 1 as [adb|adb adb1 c _ IH O|adb adb1 adb2 _ IH1 _ IH2]; intros M D C N.
  - exists M, D. by apply inside_refl.
  - destruct (IH M D C N) as (M1 & D1 & I1).
    rewrite <- (inside_storage _ _ _ _ _ _ _ I1) in O.
    destruct (runCall_inside adb1 M1 D1 c (inside_consistent _ _ _ _ _ _ _ I1) O) as (M2 & D2 & I2).
    exists M2, D2. by eapply inside_trans.
  - destruct (IH1 M D C N) as (M1 & D1 & I1). pose proof (inside_consistent _ _ _ _ _ _ _ I1) as C1.
    assert (N1 : entries adb1 <> []).
    { destruct I1 as [_ _ (es & -> & _)]. by destruct (entries adb). }
    destruct (IH2 M1 D1 C1 N1) as (M2 & D2 & [F2 C2 (es2 & E2 & R2)]).
    destruct (RevertToSnapshot_spec adb2 M2 D2 (entries adb1) es2 C2 E2 N1) as (adb3 & M3 & D3 & E3 & U & C3 & F3 & Ee3).
    unfold JournalLen. rewrite E3. cbn [fst].
    destruct (R2 (accountPointers adb2) M2 D2 M3 D3 (stable_refl _)) as [-> Hp]; try done.
    { by eapply canonical_unversioned, C2. }
    exists M1, D3. apply (inside_pointers _ _ _ [] adb1 adb3 M1 D1 D3); try done. by eapply frame_trans.
Qed.

(** Reverting to a snapshot gives back what there was when it was taken. *)
Lemma run_reverted adb adb' M D : consistent adb M D -> entries adb <> [] ->
  run adb adb' -> exists adb'' D'', RevertToSnapshot (Z.of_nat (JournalLen adb)) adb' = (adb'', Ok ()) /\
    consistent adb'' M D'' /\ D `prefix_of` D'' /\ frame adb adb'' /\ entries adb'' = entries adb.
Proof.
  intros C N H. destruct (run_inside adb adb' H M D C N) as (M2 & D2 & [F2 C2 (es2 & E2 & R2)]).
  destruct (RevertToSnapshot_spec adb' M2 D2 (entries adb) es2 C2 E2 N) as (adb3 & M3 & D3 & E3 & U & C3 & F3 & Ee3).
  destruct (R2 (accountPointers adb') M2 D2 M3 D3 (stable_refl _)) as [-> Hp]; try done.
  { by eapply canonical_unversioned, C2. }
  exists adb3, D3. split_and!; try done. by eapply frame_trans.
Qed.
End Revert.

Section Commit.
Context {S T P : Type} {ST : StateTries S T} {STOk : StateTriesOk S T} {SC : StateCommitOk S T} {SP : StoragePruning P}.
Context {AE : AccountsEnv} {AOk : AccountsEnvOk AE} {TE : TrackableEnv} {TOk : TrackableOk TE}.
Context {KR : KeyRange} {KOk : KeyRangeOk KR}.

Abbreviation DB := (AccountsDB S T P).
Implicit Types (adb : DB) (M : contents) (D : list contents) (s : S).

#[local] Existing Instance trieOf.
#[local] Existing Instance trieOf_ok.
#[local] Existing Instance extends_preorder.

(** ** Larger storages *)

Lemma validRoot_extends s s' h : extends s s' -> validRoot s h -> validRoot s' h.
Proof. intros G [->|[m H]]; [by left|]. right. exists m. by eapply HashedAs_extends. Qed.

Lemma dataOk_extends s s' d : extends s s' -> dataOk s d -> dataOk s' d.
Proof. intros G [? ? ?]. constructor; [done..|]. by eapply validRoot_extends. Qed.

Lemma canonical_extends s s' M : extends s s' -> canonical s M -> canonical s' M.
Proof.
  intros G [K U L]. constructor; [done..|]. intros k v version E.
  destruct (L k v version E) as [(d & O & Ed)|?]; [|by right]. left. exists d. split; [|done]. by eapply dataOk_extends.
Qed.

Lemma entryOk_extends s s' l e : extends s s' -> entryOk s l e -> entryOk s' l e.
Proof. intros G. destruct e; cbn; try done. by apply dataOk_extends. Qed.

Lemma consistent_extends adb M D s' : consistent adb M D -> extends (storage adb) s' -> StorageOk s' ->
  consistent (with_storage s' adb) M D.
Proof.
  intros [HS HM CM HD HA HH HJ] G O. constructor; try done; cbn.
  - by eapply Holds_extends.
  - by eapply canonical_extends.
  - eapply Forall2_impl; [exact HD|]. intros t m. by apply Holds_extends.
  - eapply Forall_impl; [exact HA|]. intros a [? ? ?]. constructor; [|done..]. by eapply dataOk_extends.
  - eapply Forall_impl; [exact HJ|]. intros e. by apply entryOk_extends.
Qed.

(** ** Committing *)

Lemma commitTrie_spec hashes s t m : HoldsAt s t m -> StorageOk s ->
  exists t' s' hashes', commitTrie hashes (t, s) = ((t', s'), Ok hashes') /\ HoldsAt s' t' m /\ extends s s' /\
    StorageOk s' /\ Persisted s' m.
Proof.
  intros H O. unfold commitTrie. destruct pruningEnabled.
  - destruct (GetDirtyHashes_ok s t m H) as (t1 & new & E & H1). destruct (Commit_ok s t1 m H1 O) as (t' & s' & E' & R).
    eexists t', s', _. split; [|exact R]. unfold mbind, se_bind, se_get, se_zoom, mret, se_ret. cbn. rewrite E. cbn. by rewrite E'.
  - destruct (Commit_ok s t m H O) as (t' & s' & E' & R). exists t', s', hashes. split; [|exact R].
    unfold mbind, se_bind, mret, se_ret. cbn. by rewrite E'.
Qed.

(** What a commit leaves as it is. *)
Definition sameFields adb adb' : Prop :=
  accountPointers adb' = accountPointers adb /\ dataTries adb' = dataTries adb /\ entries adb' = entries adb /\
  lastRootHash adb' = lastRootHash adb.

Lemma sameFields_refl adb : sameFields adb adb.
Proof. done. Qed.
Lemma sameFields_trans adb1 adb2 adb3 : sameFields adb1 adb2 -> sameFields adb2 adb3 -> sameFields adb1 adb3.
Proof. intros (? & ? & ? & ?) (? & ? & ? & ?). split_and!; congruence. Qed.

Lemma commitDataTrie_spec hashes adb M D p : consistent adb M D -> (p < length D)%nat ->
  exists adb' hashes' m, commitDataTrie p hashes adb = (adb', Ok hashes') /\ consistent adb' M D /\
    extends (storage adb) (storage adb') /\ D !! p = Some m /\ Persisted (storage adb') m /\ sameFields adb adb'.
Proof.
  intros C L. destruct (lookup_lt_is_Some_2 D p L) as [m Em]. pose proof (tries_hold _ _ _ C) as F.
  destruct (Forall2_lookup_r _ _ _ _ _ F Em) as (t & Et & H). unfold commitDataTrie. rewrite Et.
  destruct (commitTrie_spec hashes _ t m H (storage_ok _ _ _ C)) as (t' & s' & hashes' & E & H' & G & O & Hp).
  rewrite E. cbn. eexists _, hashes', m. split; [done|]. split; [|done].
  pose proof (consistent_extends adb M D s' C G O) as [? ? ? F' ? ? ?]. constructor; try done; cbn in *.
  rewrite <- (list_insert_id D p m Em). by apply Forall2_insert.
Qed.

Lemma commitDataTries_spec ps : forall hashes adb M D, consistent adb M D -> Forall (fun p => p < length D)%nat ps ->
  exists adb' hashes', commitDataTries ps hashes adb = (adb', Ok hashes') /\ consistent adb' M D /\
    extends (storage adb) (storage adb') /\ sameFields adb adb' /\
    forall p, p ∈ ps -> exists m, D !! p = Some m /\ Persisted (storage adb') m.
Proof.
  induction ps as [|p ps IH]; intros hashes adb M D C F.
  - exists adb, hashes. split_and!; [done..| ]. by intros p ?%not_elem_of_nil.
  - apply Forall_cons in F as [L F].
    destruct (commitDataTrie_spec hashes adb M D p C L) as (adb1 & hs1 & m & E & C1 & G & Em & Hp & Sf).
    destruct (IH hs1 adb1 M D C1 F) as (adb2 & hs2 & E2 & C2 & G2 & Sf2 & H2). exists adb2, hs2.
    split; [cbn [commitDataTries]; unfold mbind, se_bind; by rewrite E, E2|].
    split; [done|]. split; [by etrans|]. split; [by eapply sameFields_trans|].
    intros q [->|K]%elem_of_cons; [|by apply H2]. exists m. split; [done|]. by eapply Persisted_extends.
Qed.

Lemma commitMainTrie_spec hashes adb M D : consistent adb M D ->
  exists adb' hashes', commitMainTrie hashes adb = (adb', Ok hashes') /\ consistent adb' M D /\
    extends (storage adb) (storage adb') /\ sameFields adb adb' /\ Persisted (storage adb') M.
Proof.
  intros C. unfold commitMainTrie.
  destruct (commitTrie_spec hashes _ _ M (main_holds _ _ _ C) (storage_ok _ _ _ C)) as (t' & s' & hashes' & E & H' & G & O & Hp).
  rewrite E. eexists _, hashes'. split; [done|]. split; [|done].
  by destruct (consistent_extends adb M D s' C G O); constructor.
Qed.

Lemma main_RootHash_spec adb M D : consistent adb M D -> exists t h, main_RootHash adb = (with_mainTrie t adb, Ok h) /\
  consistent (with_mainTrie t adb) M D /\ @HashedAs T (trieOf (storage adb)) (trieOf_ok (storage adb)) M h.
Proof.
  intros C. destruct (RootHash_ok (DT := trieOf (storage adb)) (mainTrie adb) M (main_holds _ _ _ C)) as (t & h & E & H & Hh).
  exists t, h. unfold main_RootHash, onMainTrie. change (onStorage (storage adb)) with (trieOf (storage adb)). rewrite E.
  split; [done|]. split; [|done]. by apply (consistent_main adb M D); [| |apply C].
Qed.

(** The database is that of its last commit, but for what was done since. *)
Definition settled adb M : Prop :=
  Persisted (storage adb) M /\ @HashedAs T (trieOf (storage adb)) (trieOf_ok (storage adb)) M (lastRootHash adb) /\
  canonical (storage adb) M.

Lemma settled_recreated adb M M0 D : settled adb M -> consistent adb M0 D ->
  exists adb', recreateTrie (lastRootHash adb) adb = (adb', Ok ()) /\ consistent adb' M D /\
    storage adb' = storage adb /\ lastRootHash adb' = lastRootHash adb /\ entries adb' = [].
Proof.
  intros (Hp & Hh & CM) C. unfold recreateTrie. cbn [storage mainTrie lastRootHash with_entries with_dataTries with_obsolete].
  destruct (Recreate_persisted _ (mainTrie adb) M0 M (lastRootHash adb) (main_holds _ _ _ C) Hp Hh) as (t & E & H).
  rewrite E. eexists. split; [done|]. split; [|done]. destruct C. by constructor.
Qed.

(** Whether the collector of state accesses takes the root hash of a commit, and
    the eviction list its hashes. *)
Definition marked (collect : bytes -> result state_error ()) adb adb' (r : result state_error bytes) (rootHash : bytes) : Prop :=
  match r with
  | Ok h => h = rootHash /\ lastRootHash adb' = rootHash /\ collect rootHash = Ok ()
  | Err e => lastRootHash adb' = lastRootHash adb /\ (collect rootHash = Err e \/
      (collect rootHash = Ok () /\ pruningEnabled = true /\
       exists oldRoot olds news p, snd (MarkForEviction oldRoot rootHash olds news p) = Err e))
  end.

Lemma markForEviction_spec adb M D oldRoot newRoot hashes : consistent adb M D ->
  exists p r, markForEviction oldRoot newRoot hashes adb = (with_pruning p adb, r) /\ consistent (with_pruning p adb) M D /\
    match r with Ok () => True | Err e => pruningEnabled = true /\ exists olds news p, snd (MarkForEviction oldRoot newRoot olds news p) = Err e end.
Proof.
  intros C. assert (G : forall p, consistent (with_pruning p adb) M D) by (intros p; by destruct C; constructor).
  unfold markForEviction. destruct pruningEnabled; cbn [negb].
  - destruct (MarkForEviction _ _ _ _ _) as [p r] eqn:E. exists p, r. split; [done|]. split; [done|].
    destruct r as [[]|e]; [done|]. split; [done|]. by do 3 eexists; rewrite E.
  - exists (storagePruningManager adb), (Ok ()). split; [|done]. by destruct adb.
Qed.

(** The contents of the data tries of the holder are persisted. *)
Definition dataPersisted adb D s' : Prop :=
  forall address p, dataTries adb !! address = Some p -> exists m, D !! p = Some m /\ Persisted s' m.

(** What follows the commit of the tries. *)
Lemma finishCommit_spec collect adb M D oldRoot newRoot hashes : consistent adb M D ->
  exists p r, (_ ← se_lift (collect newRoot); markForEviction oldRoot newRoot hashes) adb = (with_pruning p adb, r) /\
    consistent (with_pruning p adb) M D /\
    match r with
    | Ok () => collect newRoot = Ok ()
    | Err e => collect newRoot = Err e \/ (collect newRoot = Ok () /\ pruningEnabled = true /\
        exists olds news p, snd (MarkForEviction oldRoot newRoot olds news p) = Err e)
    end.
Proof.
  intros C. unfold mbind, se_bind, se_lift. destruct (collect newRoot) as [[]|e].
  - destruct (markForEviction_spec adb M D oldRoot newRoot hashes C) as (p & r & E & C' & Hr). exists p, r.
    split_and!; [done..|]. destruct r as [[]|e]; [done|]. by right.
  - exists (storagePruningManager adb), (Err e). assert (Ep : with_pruning (storagePruningManager adb) adb = adb) by (by destruct adb).
    rewrite Ep. split_and!; [done..|]. by left.
Qed.

Lemma commit_spec collect adb M D : consistent adb M D ->
  exists adb' r rootHash, commit collect adb = (adb', r) /\ consistent adb' M D /\
    @HashedAs T (trieOf (storage adb')) (trieOf_ok (storage adb')) M rootHash /\ marked collect adb adb' r rootHash /\
    entries adb' = [] /\ Persisted (storage adb') M /\ dataPersisted adb D (storage adb') /\
    extends (storage adb) (storage adb').
Proof.
  intros C. unfold commit. set (adb1 := with_entries [] adb).
  assert (C1 : consistent adb1 M D) by (by destruct C; constructor).
  destruct (commitDataTries_spec (GetAll (dataTries adb)) (∅, ∅) adb1 M D C1) as (adb2 & hs2 & E2 & C2 & G2 & Sf2 & H2).
  { apply Forall_forall. intros p K. unfold GetAll in K.
    apply list_elem_of_fmap in K as ([address q] & -> & K). apply elem_of_rangeMap in K. by eapply (holder_ok _ _ _ C). }
  set (adb3 := with_dataTries ∅ adb2).
  assert (C3 : consistent adb3 M D) by (by destruct C2; constructor).
  destruct (commitMainTrie_spec hs2 adb3 M D C3) as (adb4 & hs4 & E4 & C4 & G4 & Sf4 & Hp).
  destruct (main_RootHash_spec adb4 M D C4) as (t & h & E5 & C5 & Hh).
  destruct (finishCommit_spec collect (with_mainTrie t adb4) M D (GetOldRoot (mainTrie adb3)) h hs4 C5) as (p & r & E6 & C6 & Hr).
  set (adb6 := with_pruning p (with_mainTrie t adb4)) in *.
  set (adb7 := with_obsolete ∅ (with_lastRootHash h adb6)).
  exists (match r with Ok _ => adb7 | Err _ => adb6 end), (match r with Ok _ => Ok h | Err e => Err e end), h.
  split.
  { unfold se_modify, se_get, mret, se_ret, mbind, se_bind in *. cbv beta iota zeta. fold adb1.
    change (dataTries adb1) with (dataTries adb). rewrite E2. cbv beta iota. fold adb3. rewrite E4, E5.
    destruct (se_lift (collect h) _) as [adb5 [[]|e5]]; [rewrite E6; by destruct r as [[]|]|]. by injection E6 as -> <-. }
  assert (C7 : consistent adb7 M D) by (by destruct C6; constructor).
  assert (El : lastRootHash adb4 = lastRootHash adb) by (etrans; [apply Sf4|]; apply Sf2).
  split; [by destruct r|]. split; [by destruct r|]. split; [destruct r as [[]|e]; cbn; [done|]|].
  { split; [done|]. destruct Hr as [?|(? & ? & olds & news & p' & ?)]; [by left|]. right. split_and!; [done..|].
    by eexists _, olds, news, p'. }
  assert (Ee : entries adb4 = []) by (etrans; [apply Sf4|]; apply Sf2).
  split; [by destruct r|]. assert (Es : forall (x : result state_error ()), storage (match x with Ok _ => adb7 | Err _ => adb6 end) = storage adb4).
  { by intros []. }
  rewrite Es. split; [done|]. split; [|by etrans].
  intros address q Eq. destruct (H2 q) as (m & Em & Hm).
  { unfold GetAll. apply list_elem_of_fmap. exists (address, q). split; [done|]. by apply elem_of_rangeMap. }
  exists m. split; [done|]. by eapply Persisted_extends.
Qed.

(** ** Runs that may revert to the last commit *)

Lemma RevertToSnapshot_zero adb : RevertToSnapshot 0 adb = recreateTrie (lastRootHash adb) adb.
Proof.
  unfold RevertToSnapshot, se_get, mbind, se_bind. cbn.
  by destruct (Z.ltb_spec (Z.of_nat (length (entries adb))) 0); [lia|].
Qed.

Record since adb0 M0 adb : Prop := {
  since_storage : storage adb = storage adb0;
  since_root : lastRootHash adb = lastRootHash adb0;
  since_consistent : exists M D, consistent adb M D;
}.

Lemma run_since adb adb' M0 : run adb adb' -> settled adb M0 -> (exists M D, consistent adb M D) -> since adb M0 adb'.
Proof.
  intros H. revert M0. induction H as [adb|adb adb1 c _ IH O|adb adb1 adb2 _ IH1 H2 IH2]; intros M0 St C.
  - by constructor.
  - destruct (IH M0 St C) as [Es Er (M1 & D1 & C1)]. rewrite <- Es in O.
    destruct (runCall_inside adb1 M1 D1 c C1 O) as (M2 & D2 & [F C2 _]).
    constructor; [by rewrite (frame_storage _ _ F)|by rewrite (frame_root _ _ F)|by exists M2, D2].
  - destruct (IH1 M0 St C) as [Es1 Er1 (M1 & D1 & C1)].
    assert (St1 : settled adb1 M0) by (unfold settled; by rewrite Es1, Er1).
    destruct (decide (entries adb1 = [])) as [En|Nn].
    + destruct (IH2 M0 St1 ltac:(by exists M1, D1)) as [Es2 Er2 (M2 & D2 & C2)].
      assert (St2 : settled adb2 M0) by (unfold settled; by rewrite Es2, Er2).
      destruct (settled_recreated adb2 M0 M2 D2 St2 C2) as (adb3 & E3 & C3 & Es3 & Er3 & _).
      assert (E : RevertToSnapshot (Z.of_nat (JournalLen adb1)) adb2 = (adb3, Ok ())).
      { unfold JournalLen. by rewrite En, RevertToSnapshot_zero. }
      rewrite E. cbn. constructor; [congruence|congruence|by exists M0, D2].
    + destruct (run_reverted adb1 adb2 M1 D1 C1 Nn H2) as (adb3 & D3 & E3 & C3 & _ & F & _). rewrite E3. cbn.
      constructor; [rewrite (frame_storage _ _ F); congruence|rewrite (frame_root _ _ F); congruence|by exists M1, D3].
Qed.

Lemma run_recreated adb adb' M M' D' : settled adb M -> consistent adb M' D' -> run adb adb' ->
  exists adb'' D'', RevertToSnapshot 0 adb' = (adb'', Ok ()) /\ consistent adb'' M D'' /\ entries adb'' = [] /\
    storage adb'' = storage adb /\ lastRootHash adb'' = lastRootHash adb.
Proof.
  intros St C H. destruct (run_since adb adb' M H St) as [Es Er (M2 & D2 & C2)]; [by exists M', D'|].
  assert (St2 : settled adb' M) by (unfold settled; by rewrite Es, Er).
  destruct (settled_recreated adb' M M2 D2 St2 C2) as (adb3 & E3 & C3 & Es3 & Er3 & Ee).
  exists adb3, D2. split; [|split_and!; congruence || done].
  by rewrite RevertToSnapshot_zero.
Qed.

(** What is persisted can be recreated, without the data tries of the holder. *)
Lemma RecreateTrie_ok adb M0 D M rootHash : consistent adb M0 D -> Persisted (storage adb) M ->
  @HashedAs T (trieOf (storage adb)) (trieOf_ok (storage adb)) M rootHash -> canonical (storage adb) M ->
  exists adb', RecreateTrie rootHash adb = (adb', Ok ()) /\ consistent adb' M D /\ storage adb' = storage adb /\
    dataTries adb' = ∅ /\ lastRootHash adb' = rootHash.
Proof.
  intros C Hp Hh CM. destruct (Recreate_persisted _ (mainTrie adb) M0 M rootHash (main_holds _ _ _ C) Hp Hh) as (t & E & H).
  unfold RecreateTrie, recreateTrie, mbind, se_bind. cbn [storage mainTrie with_entries with_dataTries with_obsolete].
  rewrite E. eexists. split; [done|]. split; [|done]. destruct C. by constructor.
Qed.
End Commit.
