(* ===== verification/StateTriesInstance.v ===== *)
(** * Patricia merkle tries as the tries of the state

    The interface of AccountsDB, its laws, and that the trie of PatriciaTrie
    over any storage satisfies them. *)

From Stdlib Require Import ZArith Lia.
From stdpp Require Import base gmap list.
From S2P Require Import Prelude KeyBuilder TrieNode TrieSpec TrieRefinement TrieHash TrieCommit PatriciaTrie PatriciaSpec.
From S2P Require Import TrieUpdate TrieHashes StateTrie TrackableDataTrie UserAccount AccountsDB AccountsSpec.

(** Methods that leave the maximal level in memory as it is. *)
Definition keepsLevel {E A} (m : SE patriciaMerkleTrie E A) : Prop :=
  forall tr, maxTrieLevelInMemory (fst (m tr)) = maxTrieLevelInMemory tr.

Section Level.
Context {X : TrieExternals} {DB : Type} {ST : TrieStorage DB}.

Lemma level_bind {E A B} (m : SE patriciaMerkleTrie E A) (f : A -> SE patriciaMerkleTrie E B) :
  keepsLevel m -> (forall a, keepsLevel (f a)) -> keepsLevel (m ≫= f).
Proof.
  intros H G tr. unfold mbind, se_bind. specialize (H tr). destruct (m tr) as [tr' [a|e]]; [|done].
  by rewrite (G a tr').
Qed.
Lemma level_ret {E A} (a : A) : keepsLevel (E := E) (mret a).
Proof. done. Qed.
Lemma level_lift {E A} (r : result E A) : keepsLevel (se_lift r).
Proof. done. Qed.
Lemma keeps_get {E} : keepsLevel (E := E) se_get.
Proof. done. Qed.
Lemma level_modify {E} f : (forall tr, maxTrieLevelInMemory (f tr) = maxTrieLevelInMemory tr) -> keepsLevel (E := E) (se_modify f).
Proof. intros H tr. apply H. Qed.
Lemma keeps_root {E A} (e : E) (m : SE node E A) : keepsLevel (on_root e m).
Proof. intros tr. unfold on_root. destruct (root tr); [|done]. by destruct (m n). Qed.
Lemma keeps_mapErr {E F A} (f : E -> F) (m : SE patriciaMerkleTrie E A) : keepsLevel m -> keepsLevel (se_mapErr f m).
Proof. intros H tr. unfold se_mapErr. specialize (H tr). by destruct (m tr) as [tr' [a|e]]. Qed.

Create HintDb level.
Hint Resolve level_ret level_lift keeps_get keeps_root keeps_mapErr : level.
Ltac level := repeat first
  [ progress auto with level
  | apply level_bind; [|intros]
  | apply level_modify; intros
  | case_goal ].

Lemma keeps_save_oldRoot n : keepsLevel (save_oldRoot n).
Proof. unfold save_oldRoot. level. Qed.
Hint Resolve keeps_save_oldRoot : level.

Lemma keeps_GetWithVersion D key : keepsLevel (PatriciaTrie.GetWithVersion D key).
Proof. unfold PatriciaTrie.GetWithVersion. level. Qed.
Lemma keeps_delete D key : keepsLevel (PatriciaTrie.delete D key).
Proof. unfold PatriciaTrie.delete. level. Qed.
Hint Resolve keeps_delete : level.
Lemma keeps_update D key value version : keepsLevel (PatriciaTrie.update D key value version).
Proof. unfold PatriciaTrie.update. level. Qed.
Lemma keeps_RootHash : keepsLevel PatriciaTrie.RootHash.
Proof. unfold PatriciaTrie.RootHash, getRootHash. level. Qed.
Lemma keeps_GetDirtyHashes : keepsLevel TrieHashes.GetDirtyHashes.
Proof. unfold TrieHashes.GetDirtyHashes. level. Qed.
End Level.

Section Instance.
Context {X : TrieExternals} {XOk : TrieExternalsOk X} {HOk : HasherOk X} {CF : CollisionFree X}.
Context {DB : Type} {ST : TrieStorage DB} {STOk : TrieStorageOk DB ST}.

(** [fuel]: a bound on the depth of the tries whose nodes are listed. *)
#[export] Instance patriciaStateTries (fuel : nat) : StateTries DB patriciaMerkleTrie := {
  onStorage := patriciaDataTrie;
  Recreate s rootHash t := recreate rootHash s t;
  Commit := PatriciaTrie.Commit;
  GetOldRoot := PatriciaTrie.GetOldRoot;
  GetObsoleteHashes t := default [] <$> PatriciaTrie.GetObsoleteHashes t;
  GetDirtyHashes := TrieHashes.GetDirtyHashes;
  GetAllHashes s := TrieHashes.GetAllHashes fuel s;
}.

(** A trie with a level: one that [NewTrie] accepts. *)
Definition LevelRep (db : DB) (tr : patriciaMerkleTrie) (m : contents) : Prop :=
  TrieRep db tr m /\ maxTrieLevelInMemory tr <> 0.

Lemma keeps_level {E A} (m : SE patriciaMerkleTrie E A) tr tr' r : keepsLevel m -> m tr = (tr', r) ->
  maxTrieLevelInMemory tr <> 0 -> maxTrieLevelInMemory tr' <> 0.
Proof. intros K E0. specialize (K tr). rewrite E0 in K. cbn in K. congruence. Qed.

#[export] Instance patriciaLevelTrie_ok (db : DB) : DataTrieOk patriciaMerkleTrie (DT := patriciaDataTrie db).
Proof.
  refine {| Holds := LevelRep db; HashedAs := root_of |}.
  - intros t m k v version [H _]. by eapply TrieRep_entry.
  - intros t m key [H L] K. destruct (@GetWithVersion_ok _ _ (patriciaDataTrie_ok db) t m key H K) as (t' & depth & E & H').
    exists t', depth. split; [done|split; [done|]]. eapply keeps_level; [|exact E|done]. cbn.
    apply keeps_mapErr, keeps_GetWithVersion.
  - intros t m key value version [H L] K V. destruct (@UpdateWithVersion_ok _ _ (patriciaDataTrie_ok db) t m key value version H K V) as (t' & E & H').
    exists t'. split; [done|split; [done|]]. exact (keeps_level _ _ _ _ (keeps_update db key value version) E L).
  - intros t m key [H L] K. destruct (@Delete_ok _ _ (patriciaDataTrie_ok db) t m key H K) as (t' & E & H').
    exists t'. split; [done|split; [done|]]. exact (keeps_level _ _ _ _ (keeps_delete db (keyBytesToHex key)) E L).
  - intros t m [H L]. destruct (@RootHash_ok _ _ (patriciaDataTrie_ok db) t m H) as (t' & h & E & H' & R).
    exists t', h. split_and!; [done| |done]. split; [done|]. exact (keeps_level _ _ _ _ keeps_RootHash E L).
  - intros m h h'. apply root_of_fun.
Defined.

Lemma recreate_root s m h t t' : closed s -> root_of m h -> recreate h s t = Ok t' -> exists m', LevelRep s t' m'.
Proof.
  intros O R E. assert (L : maxTrieLevelInMemory t <> 0).
  { unfold recreate, recreateFromDb, NewTrie in E. intros Z. rewrite Z in E. by destruct (IsEmptyTrie h). }
  assert (C : committed s m).
  { destruct R as [|m p Hw Hm]; [by left|]. right. exists p. split_and!; [done..|]. apply (O false p Hw).
    unfold recreate, recreateFromDb, IsEmptyTrie in E. rewrite bool_decide_false in E by apply Compute_not_EmptyTrieHash.
    destruct (length_zero_cases (phash p)) as [[Ep _]|[_ Eb]]; [by apply phash_nonempty in Ep|]. rewrite Eb in E.
    cbn in E. unfold NewTrie in E. rewrite (proj2 (Z.eqb_neq _ _) L) in E. cbn in E.
    unfold getNodeFromDBAndDecode in E. by destruct (db_Get s (phash p)). }
  destruct (recreate_rep s t m h R C L) as (t'' & E' & H & L' & _). rewrite E in E'. injection E' as <-.
  exists m. split; [done|congruence].
Qed.

#[export] Instance patriciaStateTries_ok fuel : StateTriesOk DB patriciaMerkleTrie (ST := patriciaStateTries fuel).
Proof.
  refine {| tries_ok := patriciaLevelTrie_ok : forall s, @DataTrieOk _ (@onStorage _ _ (patriciaStateTries fuel) s);
            StorageOk := closed |}.
  - intros s t t' E. change (recreate [] s t = Ok t') in E. change (LevelRep s t' ∅).
    unfold recreate, NewTrie in E. destruct (IsEmptyTrie []) eqn:I; [|done].
    destruct (Z.eqb_spec (maxTrieLevelInMemory t) 0); [done|]. injection E as <-. by split.
  - intros s m h t t' O R E. exact (recreate_root s m h t t' O R E).
Defined.

#[export] Instance patriciaStateCommit_ok fuel : StateCommitOk DB patriciaMerkleTrie (STOk := patriciaStateTries_ok fuel).
Proof.
  refine {| extends := grows; Persisted := committed |}.
  - apply grows_preorder.
  - intros s s' t m G [H L]. split; [by eapply TrieRep_grows|done].
  - done.
  - apply committed_grows.
  - intros s t m [H L]. destruct (GetDirtyHashes_rep s t m H) as (t' & hashes & E & H').
    exists t', hashes. split; [done|split; [done|]]. exact (keeps_level _ _ _ _ keeps_GetDirtyHashes E L).
  - intros s t m [H L] O. destruct (Commit_rep s t m H) as (t' & s' & E & H' & C & G & L' & _).
    exists t', s'. split_and!; [done|split; [done|congruence]|done|by apply G|done].
  - intros s t m0 m h [_ L] C R. destruct (recreate_rep s t m h R C L) as (t' & E & H & L' & _).
    exists t'. split; [done|split; [done|congruence]].
  - intros s t m0 [_ L]. cbn. unfold recreate, NewTrie. rewrite (proj2 (Z.eqb_neq _ _) L).
    eexists. split; [done|]. by split.
  - intros s m h R. destruct R as [|m p _ _]; [done|]. apply phash_nonempty.
Defined.
End Instance.
