(* ===== verification/AccountsStore.v ===== *)
(** * Storage that is saved, committed and loaded again

    What SaveAccount writes to the data trie of an account, the root hash that
    it puts in the leaf of the account, and that an account that is loaded from
    committed tries has the storage that was saved.

    ** The reference counters of contract codes

    A code is stored once, under its hash, with the number of accounts that
    have it; SaveAccount and RemoveAccount keep the numbers right. *)

From Stdlib Require Import ZArith Lia.
From stdpp Require Import base gmap list sorting.
From S2P Require Import Prelude TrieNode PatriciaSpec GoValues GoCollections Validators StateTrie TrackableDataTrie.
From S2P Require Import TrackableSpec TrackableMap UserAccount AccountsDB AccountsSpec AccountsJournal AccountsOps.
From S2P Require Import AccountsRevert.

Section Store.
Context {S T P : Type} {ST : StateTries S T} {STOk : StateTriesOk S T} {SC : StateCommitOk S T} {SP : StoragePruning P}.
Context {AE : AccountsEnv} {AOk : AccountsEnvOk AE} {TE : TrackableEnv} {TOk : TrackableOk TE}.
Context {KR : KeyRange} {KOk : KeyRangeOk KR}.

Abbreviation DB := (AccountsDB S T P).
Implicit Types (adb : DB) (M : contents) (D : list contents) (s : S).

#[local] Existing Instance trieOf.
#[local] Existing Instance trieOf_ok.

(** ** Steps *)

Lemma consistent_entry adb M D e : consistent adb M D -> entryOk (storage adb) (accountPointers adb) e ->
  consistent (with_entries (entries adb ++ [e]) adb) M D.
Proof. intros [] O. constructor; try done. apply Forall_app. split; [done|by apply Forall_singleton]. Qed.

(** The account object after a storage method: another tracker, and maybe a
    new data trie. *)
Definition sameObject (a a' : userAccount) : Prop :=
  ua_data a' = ua_data a /\ ua_code a' = ua_code a /\ ua_hasNewCode a' = ua_hasNewCode a /\
  (forall p, ua_dataTrie a = Some p -> ua_dataTrie a' = Some p).

(** [onAccountStorage_spec] for a method that returns; the tracker of the
    account is the one that it returned. *)
Lemma onAccountStorage_ok {A} adb M D account a
    (f : DataTrie T -> trackableDataTrie -> SE (option T) state_error (A * trackableDataTrie)) t m x tracker :
  consistent adb M D -> accountPointers adb !! account = Some a ->
  f (trieOf (storage adb)) (ua_tracker a) (trieBehind adb a) = (Some t, Ok (x, tracker)) ->
  HoldsAt (storage adb) t m -> allWritten tracker ->
  exists adb' D' a' p, onAccountStorage account f adb = (adb', Ok x) /\ consistent adb' M D' /\ frame adb adb' /\
    entries adb' = entries adb /\ dataTries adb' = dataTries adb /\ accountPointers adb' !! account = Some a' /\
    sameObject a a' /\ ua_tracker a' = tracker /\ ua_dataTrie a' = Some p /\ D' !! p = Some m /\
    others a D D' /\ ownOrNew a D p.
Proof.
  intros C E Ef H W. destruct (onAccountStorage_spec adb M D account a f (Some t) m (Ok (x, tracker)) C E Ef H ltac:(done) W)
    as (adb' & D' & a1 & Eq & C' & F & Ee & Ed & St & Ht & _).
  pose proof (onAccountStorage_eq adb account a f (Some t) (Ok (x, tracker)) E Ef) as Eq'. rewrite Eq in Eq'. injection Eq' as ->.
  set (a' := setTracker tracker (snd (newPointers adb a (Some t)))).
  assert (La : accountPointers (afterStorage adb account a (Some t) tracker) !! account = Some a').
  { cbn. apply list_lookup_insert_eq. by eapply lookup_lt_Some. }
  assert (Sa : sameObject a a') by (subst a'; unfold newPointers; destruct (ua_dataTrie a) eqn:Ep; split_and!; cbn; congruence).
  clear St Ht a1. destruct (newPointers_holds adb M D account a (Some t) m C E H ltac:(done)) as (D1 & F1 & St & Ht).
  specialize (St tracker). fold a' in St. destruct (Ht ltac:(done)) as [p Ep]. change (ua_dataTrie a' = Some p) in Ep.
  destruct (stored_back _ _ _ _ _ _ St Ep) as [Lm _]. pose proof (stored_others _ _ _ _ _ St) as So.
  pose proof (stored_own _ _ _ _ _ _ St Ep) as Ow.
  exists (afterStorage adb account a (Some t) tracker), D1, a', p. split; [done|]. split; [|done].
  destruct C' as [? ? ? F' HA HH ?]. pose proof (Forall2_length _ _ _ F1) as L1. pose proof (Forall2_length _ _ _ F') as L2.
  cbn in L2. constructor; try done; cbn.
  - eapply Forall_accountOk_more; [|exact HA]. lia.
  - intros address q Eq'. specialize (HH address q Eq'). lia.
Qed.

Lemma sameObject_data a a' : sameObject a a' -> ua_data a' = ua_data a.
Proof. by intros []. Qed.

Lemma consistent_account_lookup adb M D account a : consistent adb M D -> accountPointers adb !! account = Some a ->
  accountOk (storage adb) (length D) a.
Proof. intros C E. exact (proj1 (Forall_lookup _ _) (accounts_ok _ _ _ C) account a E). Qed.

(** A call on an account object. *)
Lemma userAccount_do_ok adb M D account a a' f : consistent adb M D -> accountPointers adb !! account = Some a ->
  f a = Ok a' -> sameAccount a a' -> accountOk (storage adb) (length D) a' ->
  userAccount_do account f adb = (setAccount account a' adb, Ok ()) /\ consistent (setAccount account a' adb) M D /\
  accountPointers (setAccount account a' adb) !! account = Some a'.
Proof.
  intros C E Ef Sa O. unfold userAccount_do. rewrite E, Ef. split; [done|]. split.
  - by eapply consistent_account.
  - cbn. apply list_lookup_insert_eq. by eapply lookup_lt_Some.
Qed.

(** The root hash of the data trie of an account. *)
Lemma dataTrie_RootHash_ok adb M D account a p m : consistent adb M D -> accountPointers adb !! account = Some a ->
  ua_dataTrie a = Some p -> D !! p = Some m ->
  exists adb' D' a' h, dataTrie_RootHash account adb = (adb', Ok h) /\ consistent adb' M D' /\ frame adb adb' /\
    dataTries adb' = dataTries adb /\ accountPointers adb' !! account = Some a' /\ sameObject a a' /\
    ua_tracker a' = ua_tracker a /\ D' !! p = Some m /\ others a D D' /\ @HashedAs T (trieOf (storage adb)) (trieOf_ok (storage adb)) m h.
Proof.
  intros C E Ep Em. pose proof (trieBehind_holds adb M D account a C E) as H. unfold storedIn in H.
  destruct (Forall2_lookup_r _ _ _ _ _ (tries_hold _ _ _ C) Em) as (t & Et & Ht).
  destruct (RootHash_ok (DT := trieOf (storage adb)) t m Ht) as (t' & h & Eh & H' & Hh).
  destruct (onAccountStorage_ok adb M D account a (fun DT tdt => h ← onDataTrie (onTrie (RootHash (DataTrie := DT))); mret (h, tdt))
    t' m h (ua_tracker a) C E) as (adb' & D' & a' & q & Eq & C' & F & _ & Ed & La & Sa & Etr & Eq' & Lm & So & _).
  - unfold trieBehind. rewrite Ep. cbn. rewrite Et. unfold mbind, se_bind, onDataTrie, onTrie, se_mapErr. by rewrite Eh.
  - done.
  - apply (account_written _ _ _ (consistent_account_lookup adb M D account a C E)).
  - destruct Sa as (Sa1 & Sa2 & Sa3 & Sa4). rewrite (Sa4 p Ep) in Eq'. injection Eq' as <-.
    exists adb', D', a', h. by split_and!.
Qed.

(** ** Saving *)

(** The data trie of an account in the database: the holder has it, its
    contents [m] stand for the map [L] and have the root hash [h]. *)
Record storedAt (K : bytes -> Prop) adb D address p m h (L : bytes -> option bytes) : Prop := {
  stored_holder : dataTries adb !! address = Some p;
  stored_contents : D !! p = Some m;
  stored_represents : represents K address m L;
  stored_hash : @HashedAs T (trieOf (storage adb)) (trieOf_ok (storage adb)) m h;
}.

(** An account object whose storage is [L], together with its data trie. *)
Record storedBy (K : bytes -> Prop) adb a (L : bytes -> option bytes) : Prop := {
  by_storage : Storage (DT := trieOf (storage adb)) K (trieBehind adb a) (ua_tracker a) L;
  by_identifier : identifier (ua_tracker a) = AddressBytes a;
}.

(** There is something to save, or it is saved already. *)
Definition saveable (K : bytes -> Prop) adb D a (L : bytes -> option bytes) : Prop :=
  dirty (ua_tracker a) <> ∅ \/
  exists p m, ua_dataTrie a = Some p /\ storedAt K adb D (AddressBytes a) p m (RootHash_ (ua_data a)) L.

(** What saving the storage of an account leaves: its trie [p] holds [m], which
    stands for [L]; the holder has [p], unless it had a trie for the address. *)
Record storageSaved (K : bytes -> Prop) adb D a L adb' D' p m h : Prop := {
  saved_in : storage adb' = storage adb;
  saved_holder address : dataTries adb' !! address =
    if decide (address = AddressBytes a) then Some (default p (dataTries adb !! address)) else dataTries adb !! address;
  saved_contents : D' !! p = Some m;
  saved_represents : represents K (AddressBytes a) m L;
  saved_hash : @HashedAs T (trieOf (storage adb)) (trieOf_ok (storage adb)) m h;
  saved_trie : ownOrNew a D p;
  saved_others : others a D D';
}.

Lemma SaveDirtyData_ok K adb M D account a L : properKeys K -> consistent adb M D ->
  accountPointers adb !! account = Some a -> storedBy K adb a L -> dirty (ua_tracker a) <> ∅ ->
  exists adb' D' a' p m values olds, userAccount_SaveDirtyData account adb = (adb', Ok (values, olds)) /\ consistent adb' M D' /\
    frame adb adb' /\ entries adb' = entries adb /\ dataTries adb' = dataTries adb /\
    accountPointers adb' !! account = Some a' /\ sameObject a a' /\ dirty (ua_tracker a') = ∅ /\
    ua_dataTrie a' = Some p /\ D' !! p = Some m /\ others a D D' /\ ownOrNew a D p /\
    represents K (AddressBytes a) m L /\ olds <> [] /\ Forall wfUpdate olds.
Proof.
  intros P0 C E [St Id] N. set (R := fun rootHash => Recreate (storage adb) rootHash (mainTrie adb)).
  assert (Rc : recreatesEmpty (DT := trieOf (storage adb)) R) by (eapply Recreate_none, main_holds, C).
  destruct (SaveDirtyData_stores (DT := trieOf (storage adb)) K R (trieBehind adb a) (ua_tracker a) L P0 Rc St N)
    as (t & values & olds & m & Es & H & Hr & No & Wf). rewrite Id in Hr.
  destruct (onAccountStorage_ok adb M D account a (fun DT tdt => '(newValues, oldValues, tdt) ←
              SaveDirtyData (DT := DT) R tdt; mret (newValues, oldValues, tdt)) t m (values, olds)
              {| dirty := ∅; identifier := identifier (ua_tracker a) |} C E)
    as (adb' & D' & a' & p & Eq & C' & F & Ee & Ed & La & Sa & Etr & Ep & Lm & So & Ow).
  - unfold mbind, se_bind. by rewrite Es.
  - done.
  - intros k [x Q]. cbn in Q. by rewrite lookup_empty in Q.
  - exists adb', D', a', p, m, values, olds. split_and!; try done. by rewrite Etr.
Qed.

(** The holder gets the trie of an account that it has none of. *)
Definition keepTrie (a : userAccount) adb : DB :=
  match dataTries adb !! AddressBytes a, ua_dataTrie a with
  | None, Some trie => with_dataTries (<[AddressBytes a := trie]> (dataTries adb)) adb
  | _, _ => adb
  end.

Lemma keepTrie_ok adb M D a p : consistent adb M D -> ua_dataTrie a = Some p -> (p < length D)%nat ->
  consistent (keepTrie a adb) M D /\ storage (keepTrie a adb) = storage adb /\
  accountPointers (keepTrie a adb) = accountPointers adb /\
  forall address, dataTries (keepTrie a adb) !! address =
    if decide (address = AddressBytes a) then Some (default p (dataTries adb !! address)) else dataTries adb !! address.
Proof.
  intros C Ep L. unfold keepTrie. rewrite Ep. destruct (dataTries adb !! AddressBytes a) as [q|] eqn:E.
  - split_and!; try done. intros address. case_decide; [|done]. subst address. by rewrite E.
  - split_and!; try done.
    + destruct C as [? ? ? ? ? HH ?]. constructor; try done. intros k q. cbn. intros [[<- <-]|[_ Q]]%lookup_insert_Some; eauto.
    + intros address. cbn. case_decide; [subst address; by rewrite lookup_insert_eq, E|]. by rewrite lookup_insert_ne.
Qed.

(** The storage of an account without dirty data is saved already. *)
Lemma saveDataTrie_clean K adb M D account a L p m : consistent adb M D ->
  accountPointers adb !! account = Some a -> dirty (ua_tracker a) = ∅ -> ua_dataTrie a = Some p ->
  storedAt K adb D (AddressBytes a) p m (RootHash_ (ua_data a)) L ->
  exists adb' D' a' h, saveDataTrie account adb = (adb', Ok []) /\ consistent adb' M D' /\
    accountPointers adb' !! account = Some a' /\ ua_data a' = data_with_RootHash h (ua_data a) /\
    ua_code a' = ua_code a /\ ua_hasNewCode a' = ua_hasNewCode a /\ ua_dataTrie a' = Some p /\
    storageSaved K adb D a L adb' D' p m h.
Proof.
  intros C E Ed Ep [Hh Em Hr Hs]. destruct (Forall2_lookup_r _ _ _ _ _ (tries_hold _ _ _ C) Em) as (t & Et & Ht).
  destruct (onAccountStorage_ok adb M D account a (fun DT tdt => '(newValues, oldValues, tdt) ←
              SaveDirtyData (DT := DT) (fun rootHash => Recreate (storage adb) rootHash (mainTrie adb)) tdt;
              mret (newValues, oldValues, tdt)) t m ([], []) (ua_tracker a) C E)
    as (adb' & D' & a' & q & Eq & C' & F & Ee & Ed' & La & (Da & Co & Fl & Tr) & Etr & Ep' & Lm & So & Ow).
  - unfold trieBehind, mbind, se_bind, SaveDirtyData. rewrite Ep. cbn. rewrite Et, Ed. done.
  - done.
  - apply (account_written _ _ _ (consistent_account_lookup adb M D account a C E)).
  - rewrite (Tr p Ep) in Ep'. injection Ep' as <-. exists adb', D', a', (RootHash_ (ua_data a)).
    split; [unfold saveDataTrie, userAccount_SaveDirtyData, mbind, se_bind in *; by rewrite Eq|].
    split_and!; [done|done|rewrite Da; by destruct (ua_data a)|done|done|by apply Tr|].
    constructor; [apply (frame_storage _ _ F)| |done..]. intros address. rewrite Ed'. case_decide; [|done]. subst address. by rewrite Hh.
Qed.

Lemma saveDataTrie_dirty K adb M D account a L : properKeys K -> consistent adb M D ->
  accountPointers adb !! account = Some a -> storedBy K adb a L -> dirty (ua_tracker a) <> ∅ ->
  exists adb' D' a' p m h values, saveDataTrie account adb = (adb', Ok values) /\ consistent adb' M D' /\
    accountPointers adb' !! account = Some a' /\ ua_data a' = data_with_RootHash h (ua_data a) /\
    ua_code a' = ua_code a /\ ua_hasNewCode a' = ua_hasNewCode a /\ ua_dataTrie a' = Some p /\
    storageSaved K adb D a L adb' D' p m h.
Proof.
  intros P0 C E B N. destruct (SaveDirtyData_ok K adb M D account a L P0 C E B N)
    as (adb1 & D1 & a1 & p & m & values & olds & E1 & C1 & F1 & _ & Ed1 & La1 & S1 & _ & Ep1 & Lm1 & So1 & Ow & Hr & No & Wf).
  pose proof S1 as (Da1 & Co1 & Fl1 & Tr1).
  set (adb2 := with_entries (entries adb1 ++ [journalEntryDataTrieUpdates olds account]) adb1).
  assert (C2 : consistent adb2 M D1).
  { apply consistent_entry; [done|]. split; [done|]. exists a1. split; [done|by eexists]. }
  destruct (dataTrie_RootHash_ok adb2 M D1 account a1 p m C2 La1 Ep1 Lm1)
    as (adb3 & D3 & a3 & h & E3 & C3 & F3 & Ed3 & La3 & S3 & Et3 & Lm3 & So3 & Hh).
  pose proof S3 as (Da3 & Co3 & Fl3 & Tr3).
  assert (Es3 : storage adb3 = storage adb) by (rewrite (frame_storage _ _ F3); apply (frame_storage _ _ F1)).
  pose proof (consistent_account_lookup adb3 M D3 account a3 C3 La3) as O3. set (a4 := SetRootHash h a3).
  destruct (userAccount_do_ok adb3 M D3 account a3 a4 (fun a => Ok (SetRootHash h a)) C3 La3 eq_refl ltac:(by split))
    as (E4 & C4 & La4).
  { destruct O3 as [[? ? ?] ? ?]. constructor; [|done..]. constructor; [done..|]. right. exists m. cbn. rewrite Es3.
    rewrite <- (frame_storage _ _ F1). exact Hh. }
  set (adb4 := setAccount account a4 adb3) in *.
  assert (Ea : AddressBytes a4 = AddressBytes a) by (unfold AddressBytes; cbn; by rewrite Da3, Da1).
  assert (Ep4 : ua_dataTrie a4 = Some p) by (cbn; by apply Tr3).
  assert (Ed4 : dataTries adb4 = dataTries adb) by (cbn; rewrite Ed3; exact Ed1).
  destruct (keepTrie_ok adb4 M D3 a4 p C4 Ep4) as (C5 & Es5 & Ea5 & Ed5); [by eapply lookup_lt_Some|].
  exists (keepTrie a4 adb4), D3, a4, p, m, h, values. split.
  { unfold saveDataTrie, mbind, se_bind. rewrite E1. destruct (Nat.eqb_spec (length olds) 0) as [Z|Nz]; [by apply nil_length_inv in Z|].
    unfold NewJournalEntryDataTrieUpdates. rewrite (proj2 (Nat.eqb_neq _ _) Nz). unfold se_lift, journalize, se_modify at 1.
    fold adb2. rewrite E3, E4. unfold accountAt, se_get. rewrite La4. cbv beta iota. unfold keepTrie.
    rewrite Ep4. by destruct (dataTries adb4 !! AddressBytes a4). }
  split_and!; [done|by rewrite Ea5|cbn; by rewrite Da3, Da1|cbn; congruence|cbn; congruence|done|].
  constructor; [by rewrite Es5|by intros address; rewrite Ed5, Ea, Ed4|done|done| |done|exact (others_trans a a1 D D1 D3 p Ow Ep1 So1 So3)].
  rewrite <- (frame_storage _ _ F1). exact Hh.
Qed.

Lemma saveDataTrie_ok K adb M D account a L : properKeys K -> consistent adb M D ->
  accountPointers adb !! account = Some a -> storedBy K adb a L -> saveable K adb D a L ->
  exists adb' D' a' p m h values, saveDataTrie account adb = (adb', Ok values) /\ consistent adb' M D' /\
    accountPointers adb' !! account = Some a' /\ ua_data a' = data_with_RootHash h (ua_data a) /\
    ua_code a' = ua_code a /\ ua_hasNewCode a' = ua_hasNewCode a /\ ua_dataTrie a' = Some p /\
    storageSaved K adb D a L adb' D' p m h.
Proof.
  intros P0 C E B V. destruct (decide (dirty (ua_tracker a) = ∅)) as [Ed|N]; [|by apply (saveDataTrie_dirty K)].
  destruct V as [?|(p & m & Ep & St)]; [done|].
  destruct (saveDataTrie_clean K adb M D account a L p m C E Ed Ep St) as (adb' & D' & a' & h & Q & ?).
  by exists adb', D', a', p, m, h, [].
Qed.

(** An address with no code: its leaf is that of an account, or there is none. *)
Definition noCodeAt M (address : bytes) : Prop :=
  forall c b, codeOk c -> MarshalCode c = Ok b -> M !! address <> Some (b, 0).

Lemma getAccount_ok adb M D address : consistent adb M D -> is_key address -> address <> [] -> noCodeAt M address ->
  exists t o, getAccount address adb = (with_mainTrie t adb, Ok o) /\ consistent (with_mainTrie t adb) M D /\
    (forall a, o = Some a -> dataOk (storage adb) (ua_data a)).
Proof.
  intros C K N Nc. destruct (getAccount_spec adb M D address C K N) as (t & C' & H).
  destruct H as [(e & _ & c & b & Co & Em & E)|[[_ E]|(d & b & Od & _ & _ & _ & E)]].
  - by destruct (Nc c b Co Em).
  - exists t, None. by split_and!.
  - exists t, (Some (accountOf d)). split_and!; [done..|]. by intros a [= <-].
Qed.

(** ** Loading *)

(** The leaf of an account is read as the account. *)
Lemma getAccount_leaf adb M D d : consistent adb M D -> dataOk (storage adb) d ->
  M !! Address d = Some (accountBytes d, 0) ->
  exists t, getAccount (Address d) adb = (with_mainTrie t adb, Ok (Some (accountOf d))) /\
    consistent (with_mainTrie t adb) M D.
Proof.
  intros C [[K N] _ _] E. destruct (MarshalAccount_ok d) as (b & Em & _ & U). unfold accountBytes in E. rewrite Em in E.
  destruct (getAccount_spec adb M D (Address d) C K N) as (t & C' & H). exists t. split; [|done].
  destruct H as [(e & _ & c & b' & Co & Ec & E')|[[E' _]|(d' & b' & _ & Ed & Em' & E' & G)]].
  - rewrite E in E'. injection E' as <-. destruct (code_not_account c b (emptyData (Address d)) Co Ec) as [e' Q]. congruence.
  - congruence.
  - rewrite E in E'. injection E' as <-. destruct (MarshalAccount_ok d') as (b' & Em'' & _ & U'). rewrite Em' in Em''.
    injection Em'' as <-. rewrite Ed in U'. rewrite U in U'. by injection U' as ->.
Qed.

(** A data trie that is not in the holder is recreated from the storage. *)
Lemma loadDataTrie_ok adb M D account a m : consistent adb M D -> accountPointers adb !! account = Some a ->
  ua_dataTrie a = None -> dataTries adb !! AddressBytes a = None -> Persisted (storage adb) m ->
  @HashedAs T (trieOf (storage adb)) (trieOf_ok (storage adb)) m (RootHash_ (ua_data a)) ->
  exists adb' t p, loadDataTrieConcurrentSafe account adb = (adb', Ok ()) /\ consistent adb' M (D ++ [m]) /\
    storage adb' = storage adb /\ accountPointers adb' !! account = Some (SetDataTrie p a) /\
    triePointers adb' !! p = Some t /\ HoldsAt (storage adb) t m /\ dataTries adb' !! AddressBytes a = Some p.
Proof.
  intros C E En Eh Hp Hh. destruct (Recreate_persisted _ (mainTrie adb) M m _ (main_holds _ _ _ C) Hp Hh) as (t & Er & H).
  pose proof (newTrie_after adb M D [] adb M D t m (inside_refl adb M D C) H) as (I1 & Ep & Ea1 & Ed1).
  set (adb1 := with_triePointers (triePointers adb ++ [t]) adb) in *. set (p := length (triePointers adb)) in *.
  assert (L : (p < length (D ++ [m]))%nat) by (rewrite Ep, length_app; cbn; lia).
  assert (E1 : accountPointers adb1 !! account = Some a) by done.
  pose proof (SetDataTrie_after adb M D [] adb1 M (D ++ [m]) account a p I1 E1 En L) as A.
  unfold userAccount_do in A. rewrite E1 in A. destruct A as [I2 Ed2].
  set (adb2 := setAccount account (SetDataTrie p a) adb1) in *.
  destruct (keepTrie_ok adb2 M (D ++ [m]) (SetDataTrie p a) p (inside_consistent _ _ _ _ _ _ _ I2) eq_refl L) as (C3 & Es3 & Ea3 & Ed3).
  assert (Ek : keepTrie (SetDataTrie p a) adb2 = with_dataTries (<[AddressBytes a := p]> (dataTries adb2)) adb2).
  { unfold keepTrie. change (AddressBytes (SetDataTrie p a)) with (AddressBytes a). rewrite Ed2. change (dataTries adb1) with (dataTries adb).
    by rewrite Eh. }
  exists (keepTrie (SetDataTrie p a) adb2), t, p. split.
  { unfold loadDataTrieConcurrentSafe, accountAt, se_get, mbind, se_bind. rewrite E. cbv beta iota. rewrite Eh.
    destruct (Nat.eqb_spec (length (RootHash_ (ua_data a))) 0) as [Z|_].
    { apply nil_length_inv in Z. rewrite Z in Hh. by apply HashedAs_nonempty in Hh. }
    rewrite Er. unfold newTrie, userAccount_do. fold adb1 p. rewrite E1, Ek. done. }
  split; [done|]. split; [by rewrite Es3|]. split; [|split; [|split; [done|]]].
  3:{ rewrite Ek. apply lookup_insert_eq. }
  - rewrite Ea3. cbn. apply list_lookup_insert_eq. by eapply lookup_lt_Some.
  - rewrite Ek. cbn. subst p. by apply list_lookup_middle.
Qed.

Lemma GetExistingAccount_loads K adb M D d m L : consistent adb M D -> dataOk (storage adb) d ->
  M !! Address d = Some (accountBytes d, 0) -> dataTries adb !! Address d = None -> Persisted (storage adb) m ->
  @HashedAs T (trieOf (storage adb)) (trieOf_ok (storage adb)) m (RootHash_ d) -> represents K (Address d) m L ->
  exists adb' D' account a, GetExistingAccount (Address d) adb = (adb', Ok account) /\ consistent adb' M D' /\
    accountPointers adb' !! account = Some a /\ ua_data a = d /\ storedBy K adb' a L /\ ua_dataTrie a <> None.
Proof.
  intros C O E Eh Hp Hh Hr. destruct (getAccount_leaf adb M D d C O E) as (t & Eg & C1).
  set (adb1 := with_mainTrie t adb) in *. set (adb2 := with_accountPointers (accountPointers adb1 ++ [accountOf d]) adb1).
  pose proof (newAccount_after adb1 M D [] adb1 M D (accountOf d) (inside_refl adb1 M D C1) (accountOf_ok adb1 (length D) d O)) as [I2 E2].
  change (inside adb1 M D [] adb2 M D) in I2. set (account := length (accountPointers adb1)) in *.
  destruct (loadDataTrie_ok adb2 M D account (accountOf d) m (inside_consistent _ _ _ _ _ _ _ I2) E2 eq_refl Eh Hp Hh)
    as (adb3 & t3 & p & E3 & C3 & Es3 & La3 & Lt3 & H3 & Ed3).
  exists adb3, (D ++ [m]), account, (SetDataTrie p (accountOf d)). split.
  { unfold GetExistingAccount. destruct (Nat.eqb_spec (length (Address d)) 0) as [Z|_].
    { apply nil_length_inv in Z. destruct O as [[_ []] _ _]. done. }
    unfold mbind, se_bind. rewrite Eg. change (newAccount (accountOf d) adb1) with ((adb2, Ok account) : DB * result state_error nat).
    cbv beta iota. by rewrite E3. }
  split; [done|]. split; [done|]. split; [done|]. split; [|done]. constructor; [|done].
  unfold trieBehind. cbn [ua_dataTrie SetDataTrie mbind option_bind]. unfold mbind, option_bind. rewrite Lt3, Es3. split.
  - constructor; cbn; intros k; [|intros e]; rewrite lookup_empty; [by intros []|done].
  - exists m, L. split_and!; [done..|]. intros key _. unfold overlay. cbn. by rewrite lookup_empty.
Qed.

(** An account whose address the holder has a trie for gets that trie. *)
Lemma GetExistingAccount_held K adb M D d p m L : consistent adb M D -> dataOk (storage adb) d ->
  M !! Address d = Some (accountBytes d, 0) -> dataTries adb !! Address d = Some p -> D !! p = Some m ->
  represents K (Address d) m L ->
  exists adb' account a, GetExistingAccount (Address d) adb = (adb', Ok account) /\ accountPointers adb' !! account = Some a /\
    ua_data a = d /\ storedBy K adb' a L /\ is_Some (trieBehind adb' a).
Proof.
  intros C O E Eh Em Hr. destruct (getAccount_leaf adb M D d C O E) as (t & Eg & C1).
  destruct (Forall2_lookup_r _ _ _ _ _ (tries_hold _ _ _ C) Em) as (t0 & Et & Ht).
  set (adb1 := with_mainTrie t adb) in *. set (account := length (accountPointers adb1)).
  set (adb2 := with_accountPointers (accountPointers adb1 ++ [accountOf d]) adb1).
  assert (La : accountPointers adb2 !! account = Some (accountOf d)) by (by apply list_lookup_middle).
  exists (setAccount account (SetDataTrie p (accountOf d)) adb2), account, (SetDataTrie p (accountOf d)). split.
  { unfold GetExistingAccount. destruct (Nat.eqb_spec (length (Address d)) 0) as [Z|_].
    { apply nil_length_inv in Z. destruct O as [[_ []] _ _]. done. }
    unfold mbind, se_bind. rewrite Eg. change (newAccount (accountOf d) adb1) with ((adb2, Ok account) : DB * result state_error nat).
    cbv beta iota. unfold loadDataTrieConcurrentSafe, accountAt, se_get, mbind, se_bind. rewrite La. cbv beta iota.
    change (dataTries adb2 !! AddressBytes (accountOf d)) with (dataTries adb !! Address d). rewrite Eh.
    unfold userAccount_do. by rewrite La. }
  split; [cbn; apply list_lookup_insert_eq; by eapply lookup_lt_Some|]. split; [done|].
  assert (Tb : trieBehind (setAccount account (SetDataTrie p (accountOf d)) adb2) (SetDataTrie p (accountOf d)) = Some t0).
  { unfold trieBehind. cbn. exact Et. }
  split; [|by rewrite Tb]. constructor; [|done]. rewrite Tb. split.
  - constructor; cbn; intros k; [|intros e]; rewrite lookup_empty; [by intros []|done].
  - exists m, L. split_and!; [done..|]. intros key _. unfold overlay. cbn. by rewrite lookup_empty.
Qed.

(** Reading the storage of an account. *)
Lemma RetrieveValue_ok K adb account a L key : properKeys K -> accountPointers adb !! account = Some a ->
  storedBy K adb a L -> is_Some (trieBehind adb a) -> K key ->
  exists adb' depth, userAccount_RetrieveValue account key adb = (adb', Ok (default [] (L key), depth)).
Proof.
  intros P0 E [St _] [t Et] Kk.
  destruct (RetrieveValue_spec (DT := trieOf (storage adb)) K (trieBehind adb a) (ua_tracker a) L key P0 St Kk)
    as (tr' & _ & [[depth Q]|(Q & _)]); [|congruence].
  eexists _, depth. unfold userAccount_RetrieveValue.
  rewrite (onAccountStorage_eq adb account a _ tr' (Ok ((default [] (L key), depth), ua_tracker a)) E); [done|].
  unfold mbind, se_bind. by rewrite Q.
Qed.
End Store.

Section Codes.
Context {AE : AccountsEnv} {AOk : AccountsEnvOk AE}.
Implicit Types (M : contents).

(** The account and the code that a leaf of the main trie is. *)
Definition accountIn M (address : bytes) : option UserAccountData :=
  '(b, _) ← M !! address; match UnmarshalAccount b (emptyData address) with Ok d => Some d | Err _ => None end.
Definition codeIn M (codeHash : bytes) : option CodeEntry :=
  '(b, _) ← M !! codeHash; match UnmarshalCode b with Ok c => Some c | Err _ => None end.

(** The accounts that have a code, and the counter of the code. *)
Definition users M (codeHash : bytes) : gset bytes :=
  filter (fun address => CodeHash <$> accountIn M address = Some codeHash) (dom M).
Definition references M (codeHash : bytes) : Z :=
  match codeIn M codeHash with Some c => NumReferences c | None => 0 end.

Definition counted M : Prop := forall codeHash, codeHash <> [] -> references M codeHash = Z.of_nat (size (users M codeHash)).

(** The code hash of the account at an address, which may not exist. *)
Definition codeHashAt M (address : bytes) : bytes := from_option CodeHash [] (accountIn M address).

Lemma elem_of_users M h address : address ∈ users M h <-> CodeHash <$> accountIn M address = Some h.
Proof.
  unfold users. rewrite elem_of_filter, elem_of_dom. split; [tauto|]. intros E. split; [done|].
  unfold accountIn in E. by destruct (M !! address).
Qed.

Lemma accountIn_leaf M d : M !! Address d = Some (accountBytes d, 0) -> accountIn M (Address d) = Some d.
Proof.
  intros E. unfold accountIn. rewrite E. cbn. unfold accountBytes. destruct (MarshalAccount_ok d) as (b & -> & _ & U).
  by rewrite U.
Qed.

Lemma codeIn_leaf M h c : codeOk c -> M !! h = Some (codeBytes (Some c), 0) -> codeIn M h = Some c.
Proof.
  intros Co E. unfold codeIn. rewrite E. cbn. destruct (MarshalCode_ok c Co) as (b & -> & _ & U). by rewrite U.
Qed.

Lemma codeIn_codeLeaf M h o : codeEntryOk h o -> codeLeaf M h o -> codeIn M h = o.
Proof.
  intros [_ Co] L. destruct o as [c|]; cbn in L; [|unfold codeIn; by rewrite L].
  destruct L as (b & _ & Em & L). apply codeIn_leaf; [done|]. cbn. by rewrite Em.
Qed.

(** ** Writing leaves *)

(** A leaf that is no account: absent, or a code. *)
Definition notAccount (v : bytes) : Prop := v = [] \/ exists c, codeOk c /\ MarshalCode c = Ok v.

Lemma accountIn_write M k v address : unversioned M -> accountIn (write k v M) address =
  if decide (address = k) then if decide (v = []) then None
    else match UnmarshalAccount v (emptyData address) with Ok d => Some d | Err _ => None end
  else accountIn M address.
Proof.
  intros U. unfold accountIn. rewrite lookup_write by done. case_decide; [|done]. by case_decide.
Qed.

Lemma codeIn_write M k v h : unversioned M -> codeIn (write k v M) h =
  if decide (h = k) then if decide (v = []) then None
    else match UnmarshalCode v with Ok c => Some c | Err _ => None end
  else codeIn M h.
Proof.
  intros U. unfold codeIn. rewrite lookup_write by done. case_decide; [|done]. by case_decide.
Qed.

Lemma accountIn_write_code M k v address : unversioned M -> notAccount v -> accountIn M k = None ->
  accountIn (write k v M) address = accountIn M address.
Proof.
  intros U V N. rewrite accountIn_write by done. case_decide as E; [|done]. subst address. rewrite N.
  case_decide as Ev; [done|]. destruct V as [?|(c & Co & Em)]; [done|].
  by destruct (code_not_account c v (emptyData k) Co Em) as [e ->].
Qed.

Lemma users_ext M M' h : (forall address, accountIn M' address = accountIn M address) -> users M' h = users M h.
Proof. intros H. apply set_eq. intros address. by rewrite !elem_of_users, H. Qed.

Lemma users_write_account M d h : unversioned M ->
  users (write (Address d) (accountBytes d) M) h =
  if decide (CodeHash d = h) then {[Address d]} ∪ users M h else users M h ∖ {[Address d]}.
Proof.
  intros U. assert (N : accountBytes d <> []).
  { unfold accountBytes. by destruct (MarshalAccount_ok d) as (b & -> & ? & _). }
  assert (E : accountIn (write (Address d) (accountBytes d) M) (Address d) = Some d).
  { apply accountIn_leaf. rewrite lookup_write, decide_True by done. by rewrite decide_False. }
  apply set_eq. intros address. rewrite elem_of_users. destruct (decide (address = Address d)) as [->|Na].
  - rewrite E. cbn. case_decide; [set_solver|]. split; [by intros [= ?]|set_solver].
  - rewrite accountIn_write, decide_False, <- elem_of_users by done. case_decide; set_solver.
Qed.

Lemma users_write_nothing M address h : unversioned M -> users (write address [] M) h = users M h ∖ {[address]}.
Proof.
  intros U. apply set_eq. intros k. rewrite elem_of_difference, !elem_of_users, accountIn_write by done.
  case_decide; [|set_solver]. rewrite decide_True by done. cbn. set_solver.
Qed.

(** ** Counting *)

(** What [updateOldCodeEntry] and [updateNewCodeEntry] make of the main trie. *)
Definition dropCode (h : bytes) (o : option CodeEntry) M : contents :=
  match o with
  | None => M
  | Some c => write h (codeBytes (if NumReferences c <=? 1 then None
                                  else Some {| Code := Code c; NumReferences := u32 (NumReferences c - 1) |})) M
  end.
Definition addCode (h newCode : bytes) (n : option CodeEntry) M : contents :=
  if decide (newCode = []) then M
  else write h (codeBytes (Some {| Code := newCode; NumReferences := u32 (from_option NumReferences 0 n + 1) |})) M.

Lemma references_codeIn M h : references M h = from_option NumReferences 0 (codeIn M h).
Proof. unfold references. by destruct (codeIn M h). Qed.

Lemma codeBytes_code c : codeOk c -> codeBytes (Some c) <> [] /\ UnmarshalCode (codeBytes (Some c)) = Ok c /\ notAccount (codeBytes (Some c)).
Proof.
  intros Co. cbn. destruct (MarshalCode_ok c Co) as (b & Em & N & U). rewrite Em. split_and!; [done..|]. right. by exists c.
Qed.

Lemma references_write_code M h c k : unversioned M -> codeOk c ->
  references (write h (codeBytes (Some c)) M) k = if decide (k = h) then NumReferences c else references M k.
Proof.
  intros U Co. destruct (codeBytes_code c Co) as (N & Um & _). unfold references. rewrite codeIn_write by done.
  case_decide; [|done]. rewrite decide_False by done. by rewrite Um.
Qed.

Lemma references_write_nothing M h k : unversioned M ->
  references (write h [] M) k = if decide (k = h) then 0 else references M k.
Proof. intros U. unfold references. rewrite codeIn_write by done. case_decide; [|done]. by rewrite decide_True. Qed.

Lemma codeLeaf_notAccount M h o : codeEntryOk h o -> codeLeaf M h o -> accountIn M h = None.
Proof.
  intros [_ Co] L. unfold accountIn. destruct o as [c|]; cbn in L; [|by rewrite L]. destruct L as (b & _ & Em & L). rewrite L. cbn.
  by destruct (code_not_account c b (emptyData h) Co Em) as [e ->].
Qed.

Lemma dropCode_spec M h o : unversioned M -> codeEntryOk h o -> codeLeaf M h o ->
  unversioned (dropCode h o M) /\ (forall address, accountIn (dropCode h o M) address = accountIn M address) /\
  forall k, references (dropCode h o M) k = if decide (k = h) then Z.max 0 (references M k - 1) else references M k.
Proof.
  intros U Co L. pose proof (codeIn_codeLeaf M h o Co L) as E. pose proof (codeLeaf_notAccount M h o Co L) as Na.
  unfold dropCode. destruct o as [c|].
  2:{ split_and!; [done..|]. intros k. case_decide as Q; [|done]. subst k. rewrite references_codeIn, E. done. }
  assert (Rh : references M h = NumReferences c) by (by rewrite references_codeIn, E). destruct Co as [_ [Cn Cr]].
  destruct (Z.leb_spec (NumReferences c) 1).
  - cbn [codeBytes]. split_and!; [by apply write_unversioned|by intros; apply accountIn_write_code; [|left|]|].
    intros k. rewrite references_write_nothing by done. case_decide; [subst k; lia|done].
  - assert (Co' : codeOk {| Code := Code c; NumReferences := u32 (NumReferences c - 1) |}) by (split; [done|apply u32_range]).
    split_and!; [by apply write_unversioned|by intros; apply accountIn_write_code; [|apply codeBytes_code|]|].
    intros k. rewrite references_write_code by done. case_decide; [|done]. subst k. cbn [NumReferences]. unfold u32.
    rewrite Z.mod_small by lia. lia.
Qed.

Lemma addCode_spec M h newCode n : unversioned M -> accountIn M h = None -> newCode <> [] ->
  0 <= from_option NumReferences 0 n < 2 ^ 32 - 1 ->
  unversioned (addCode h newCode n M) /\ (forall address, accountIn (addCode h newCode n M) address = accountIn M address) /\
  forall k, references (addCode h newCode n M) k = if decide (k = h) then from_option NumReferences 0 n + 1 else references M k.
Proof.
  intros U Na N B. unfold addCode. rewrite decide_False by done. set (r := from_option NumReferences 0 n) in *.
  assert (Co : codeOk {| Code := newCode; NumReferences := u32 (r + 1) |}) by (split; [done|apply u32_range]).
  split_and!; [by apply write_unversioned|by intros; apply accountIn_write_code; [|apply codeBytes_code|]|].
  intros k. rewrite references_write_code by done. case_decide; [|done]. cbn [NumReferences]. unfold u32.
  rewrite Z.mod_small by lia. done.
Qed.

(** The leaf of an account that is saved. *)
Lemma references_write_account M d k : unversioned M ->
  references (write (Address d) (accountBytes d) M) k = if decide (k = Address d) then 0 else references M k.
Proof.
  intros U. unfold references. rewrite codeIn_write by done. case_decide; [|done]. case_decide; [done|].
  unfold accountBytes. destruct (MarshalAccount_ok d) as (b & Em & _). rewrite Em.
  by destruct (account_not_code d b Em) as [e ->].
Qed.

Lemma users_size M h : (size (users M h) <= size M)%nat.
Proof.
  rewrite <- size_dom. apply subseteq_size. unfold users. intros k. rewrite elem_of_filter. tauto.
Qed.

Lemma elem_of_users_at M h address : h <> [] -> address ∈ users M h <-> codeHashAt M address = h.
Proof.
  intros N. rewrite elem_of_users. unfold codeHashAt. destruct (accountIn M address); cbn; [|naive_solver].
  split; [by intros [= ?]|by intros ->].
Qed.

(** What the counters of [M] and [M'] must be, if the account at [address] changed its code hash from
    [h0] to [h1]. *)
Lemma counted_moved M M' address h1 : counted M -> references M address = 0 -> address <> [] -> h1 <> address ->
  (forall h, h <> [] -> users M' h = if decide (h1 = h) then {[address]} ∪ users M h else users M h ∖ {[address]}) ->
  (forall h, h <> [] -> h <> address -> references M' h =
     if decide (codeHashAt M address = h1) then references M h
     else if decide (h = h1) then references M h + 1
     else if decide (h = codeHashAt M address) then Z.max 0 (references M h - 1) else references M h) ->
  references M' address = 0 -> counted M'.
Proof.
  intros C Z Na N1 Hu Hr Z' h Nh. pose proof (elem_of_users_at M h address Nh) as Ku. pose proof (C h Nh) as Ch.
  assert (S0 : users M address = ∅).
  { apply leibniz_equiv, size_empty_inv. pose proof (C address Na) as Ca. rewrite Z in Ca. lia. }
  assert (N0 : codeHashAt M address <> address).
  { intros E. apply elem_of_users_at in E; [|done]. rewrite S0 in E. set_solver. }
  assert (G : address ∈ users M h -> (0 < size (users M h))%nat).
  { intros K. destruct (decide (size (users M h) = 0)%nat) as [E|]; [|lia]. apply size_empty_inv in E. set_solver. }
  rewrite Hu by done. destruct (decide (h = address)) as [->|Nha].
  { rewrite Z', decide_False, S0 by done. by replace ((∅ : gset bytes) ∖ {[address]}) with (∅ : gset bytes) by set_solver. }
  rewrite Hr by done. destruct (decide (codeHashAt M address = h1)) as [E|E]; [destruct (decide (h1 = h)) as [->|Nh1]|].
  - apply Ku in E. by replace ({[address]} ∪ users M h) with (users M h) by set_solver.
  - assert (address ∉ users M h) by (rewrite Ku; congruence).
    by replace (users M h ∖ {[address]}) with (users M h) by set_solver.
  - destruct (decide (h = h1)) as [->|Nh1].
    + rewrite decide_True by done. assert (K : address ∉ users M h1) by (by rewrite Ku).
      rewrite size_union, size_singleton by set_solver. lia.
    + rewrite (decide_False (P := h1 = h)) by congruence. destruct (decide (h = codeHashAt M address)) as [E'|N'].
      * assert (K : address ∈ users M h) by (by apply Ku). specialize (G K). rewrite size_difference, size_singleton by set_solver. lia.
      * assert (K : address ∉ users M h) by (rewrite Ku; congruence).
        by replace (users M h ∖ {[address]}) with (users M h) by set_solver.
Qed.
End Codes.

Section Operations.
Context {S T P : Type} {ST : StateTries S T} {STOk : StateTriesOk S T} {SP : StoragePruning P}.
Context {AE : AccountsEnv} {AOk : AccountsEnvOk AE} {TE : TrackableEnv} {TOk : TrackableOk TE}.
Context {KR : KeyRange} {KOk : KeyRangeOk KR}.

Abbreviation DB := (AccountsDB S T P).
Implicit Types (adb : DB) (M : contents) (D : list contents).

#[local] Existing Instance trieOf.
#[local] Existing Instance trieOf_ok.

(** ** What saving the storage leaves *)

Record onlyStorage account adb adb' : Prop := {
  only_main : mainTrie adb' = mainTrie adb;
  only_storage : storage adb' = storage adb;
  only_account a : accountPointers adb !! account = Some a -> exists a' h, accountPointers adb' !! account = Some a' /\
    ua_data a' = data_with_RootHash h (ua_data a) /\ ua_code a' = ua_code a /\ ua_hasNewCode a' = ua_hasNewCode a;
}.

Lemma only_refl account adb : onlyStorage account adb adb.
Proof.
  constructor; [done..|]. intros a E. exists a, (RootHash_ (ua_data a)). split_and!; [done| |done..]. by destruct (ua_data a).
Qed.
Lemma only_trans account adb1 adb2 adb3 : onlyStorage account adb1 adb2 -> onlyStorage account adb2 adb3 ->
  onlyStorage account adb1 adb3.
Proof.
  intros [? ? H] [? ? H']. constructor; [congruence..|]. intros a E. destruct (H a E) as (a' & h & E' & Ed & Ec & Ef).
  destruct (H' a' E') as (a'' & h' & E'' & Ed' & Ec' & Ef'). exists a'', h'. split_and!; [done| |congruence..].
  rewrite Ed', Ed. by destruct (ua_data a).
Qed.

Definition keepsCodes {A} account (m : SE DB state_error A) : Prop := forall adb, onlyStorage account adb (fst (m adb)).

Lemma keepsCodes_bind {A B} account (m : SE DB state_error A) (f : A -> SE DB state_error B) :
  keepsCodes account m -> (forall x, keepsCodes account (f x)) -> keepsCodes account (m ≫= f).
Proof.
  intros H G adb. unfold mbind, se_bind. specialize (H adb). destruct (m adb) as [adb' [x|e]]; [|done].
  eapply only_trans; [exact H|apply G].
Qed.
Lemma keepsCodes_same {A} account (m : SE DB state_error A) :
  (forall adb, mainTrie (fst (m adb)) = mainTrie adb /\ storage (fst (m adb)) = storage adb /\
     accountPointers (fst (m adb)) = accountPointers adb) -> keepsCodes account m.
Proof.
  intros H adb. destruct (H adb) as (E1 & E2 & E3). destruct (only_refl account adb) as [_ _ G].
  constructor; [done..|]. intros a. rewrite E3. apply G.
Qed.

Lemma keepsCodes_do account f : (forall a, exists h, f a = Ok (SetRootHash h a)) -> keepsCodes account (userAccount_do account f).
Proof.
  intros H adb. unfold userAccount_do. destruct (accountPointers adb !! account) as [a|] eqn:E; [|apply only_refl].
  destruct (H a) as [h ->]. constructor; [done..|]. intros a'. rewrite E. intros [= <-]. exists (SetRootHash h a), h. cbn.
  split_and!; [|done..]. apply list_lookup_insert_eq. by eapply lookup_lt_Some.
Qed.

Lemma keepsCodes_storage {A} account
    (f : DB -> DataTrie T -> trackableDataTrie -> SE (option T) state_error (A * trackableDataTrie)) :
  keepsCodes account (fun adb => onAccountStorage account (f adb) adb).
Proof.
  intros adb. destruct (accountPointers adb !! account) as [a|] eqn:E.
  2:{ unfold onAccountStorage. rewrite E. apply only_refl. }
  destruct (f adb (trieOf (storage adb)) (ua_tracker a) (trieBehind adb a)) as [tr r] eqn:Ef.
  rewrite (onAccountStorage_eq adb account a (f adb) tr r E Ef). cbn [fst]. constructor; [done..|].
  intros a'. rewrite E. intros [= <-]. eexists _, (RootHash_ (ua_data a)). split.
  - cbn. apply list_lookup_insert_eq. by eapply lookup_lt_Some.
  - assert (Q : data_with_RootHash (RootHash_ (ua_data a)) (ua_data a) = ua_data a) by (by destruct (ua_data a)).
    rewrite Q. unfold newPointers. by destruct (ua_dataTrie a), tr.
Qed.

Lemma saveDataTrie_only account : keepsCodes account (saveDataTrie account).
Proof.
  unfold saveDataTrie. apply keepsCodes_bind.
  { apply (keepsCodes_storage account (fun adb _ tdt => _)). }
  intros [newValues oldValues]. case_goal; [by apply keepsCodes_same|].
  apply keepsCodes_bind; [by apply keepsCodes_same|]. intros entry.
  apply keepsCodes_bind; [by apply keepsCodes_same|]. intros [].
  apply keepsCodes_bind; [apply (keepsCodes_storage account (fun _ => _))|]. intros h.
  apply keepsCodes_bind; [apply keepsCodes_do; by eexists|]. intros [].
  apply keepsCodes_bind; [apply keepsCodes_same; intros adb; unfold accountAt; by destruct (_ !! _)|]. intros a.
  apply keepsCodes_bind; [by apply keepsCodes_same|]. intros adb0.
  apply keepsCodes_bind; [|by intros []; apply keepsCodes_same].
  destruct (_ !! _); [by apply keepsCodes_same|]. destruct (ua_dataTrie a); by apply keepsCodes_same.
Qed.

(** The contents of the main trie are those that it had. *)
Lemma consistent_only account adb adb' M M' D D' : onlyStorage account adb adb' -> consistent adb M D ->
  consistent adb' M' D' -> consistent adb' M D'.
Proof.
  intros [Em Es _] C C'. destruct C' as [? _ _ ? ? ? ?]. constructor; try done; rewrite ?Em, ?Es; apply C.
Qed.

(** ** Writing codes *)

Lemma saveCodeEntry_spec adb M D h c : consistent adb M D -> is_key h -> h <> [] -> codeOk c ->
  exists t b, saveCodeEntry h c adb = (with_mainTrie t adb, Ok b) /\
    consistent (with_mainTrie t adb) (write h (codeBytes (Some c)) M) D.
Proof.
  intros C K N Co. destruct (MarshalCode_ok c Co) as (b & Em & _).
  destruct (main_Update_spec adb M D h b C K N) as (t & E & C'); [left; by eapply code_leaf|].
  exists t, b. cbn. rewrite Em. split; [|done]. unfold saveCodeEntry, mbind, se_bind, se_lift. by rewrite Em, E.
Qed.

Lemma updateOldCodeEntry_spec adb M D h o : consistent adb M D -> codeEntryOk h o -> codeLeaf M h o ->
  exists t, updateOldCodeEntry h o adb = (with_mainTrie t adb, Ok ()) /\ consistent (with_mainTrie t adb) (dropCode h o M) D.
Proof.
  intros C [K Co] L. unfold updateOldCodeEntry, dropCode. destruct o as [c|].
  2:{ exists (mainTrie adb). by rewrite with_mainTrie_id. }
  assert (N : h <> []).
  { destruct L as (b & _ & _ & L). apply (canonical_key _ M (main_canonical _ _ _ C)). by eexists. }
  destruct (NumReferences c <=? 1); [by apply main_Delete_spec|].
  destruct (saveCodeEntry_spec adb M D h {| Code := Code c; NumReferences := u32 (NumReferences c - 1) |} C K N)
    as (t & b & E & C'); [split; [apply Co|apply u32_range]|].
  exists t. split; [|done]. unfold mbind, se_bind. by rewrite E.
Qed.

Lemma updateNewCodeEntry_spec adb M D h n newCode : consistent adb M D -> is_key h -> (newCode <> [] -> h <> []) ->
  exists t, updateNewCodeEntry h n newCode adb = (with_mainTrie t adb, Ok ()) /\
    consistent (with_mainTrie t adb) (addCode h newCode n M) D.
Proof.
  intros C K N. unfold updateNewCodeEntry, addCode. destruct (Nat.eqb_spec (length newCode) 0) as [Z|Nz].
  { apply nil_length_inv in Z. rewrite decide_True by done. exists (mainTrie adb). by rewrite with_mainTrie_id. }
  assert (Nn : newCode <> []) by (by intros ->). rewrite decide_False by done.
  replace (from_option NumReferences 0 n) with (match n with Some e => NumReferences e | None => 0 end) by (by destruct n).
  destruct (saveCodeEntry_spec adb M D h {| Code := newCode; NumReferences := u32 (match n with Some e => NumReferences e | None => 0 end + 1) |} C K (N Nn))
    as (t & b & E & C'); [split; [done|apply u32_range]|].
  exists t. split; [|done]. unfold mbind, se_bind. by rewrite E.
Qed.

Lemma getCodeEntry_ok adb M D h adb' o : consistent adb M D -> is_key h -> getCodeEntry h adb = (adb', Ok o) ->
  exists t, adb' = with_mainTrie t adb /\ consistent adb' M D /\ codeEntryOk h o /\ codeLeaf M h o.
Proof.
  intros C K E. destruct (getCodeEntry_spec adb M D h C K) as (t & C' & [[e Q]|[[L Q]|(c & b & Co & Em & L & Q)]]); rewrite E in Q.
  - done.
  - injection Q as -> ->. exists t. by split_and!.
  - injection Q as -> ->. exists t. split_and!; [done..|]. exists b. destruct (MarshalCode_ok c Co) as (b' & Em' & N & _).
    by rewrite Em in Em'; injection Em' as <-.
Qed.

(** The code that an account will have. *)
Definition newCodeHash (a : userAccount) : bytes :=
  if (length (ua_code a) =? 0)%nat then [] else code_Compute (ua_code a).
Definition nextCodeHash (a : userAccount) : bytes := if HasNewCode a then newCodeHash a else CodeHash (ua_data a).

Definition savedCodes (h0 : bytes) (a : userAccount) M M' : Prop :=
  (h0 = nextCodeHash a /\ M' = M) \/
  (h0 <> nextCodeHash a /\ nextCodeHash a = newCodeHash a /\ exists o n, codeEntryOk h0 o /\ codeLeaf M h0 o /\
     codeEntryOk (newCodeHash a) n /\ codeLeaf M (newCodeHash a) n /\ M' = addCode (newCodeHash a) (ua_code a) n (dropCode h0 o M)).

Lemma newCodeHash_key a : is_key (newCodeHash a) /\ (newCodeHash a = [] <-> ua_code a = []).
Proof.
  unfold newCodeHash. destruct (code_Compute_key (ua_code a)) as [K N]. destruct (ua_code a) eqn:E; cbn.
  - by split; [apply Forall_nil_2|].
  - rewrite <- E in *. split; [done|]. split; [done|by rewrite E].
Qed.

(** The storage and the data tries are the same. *)
Definition sameTries adb adb' : Prop :=
  storage adb' = storage adb /\ triePointers adb' = triePointers adb /\ dataTries adb' = dataTries adb.

Lemma setCodeHash_ok adb adb' M D account a h : consistent adb M D -> accountPointers adb !! account = Some a -> is_key h ->
  userAccount_do account (fun a => Ok (SetCodeHash h a)) adb = (adb', Ok ()) ->
  consistent adb' M D /\ sameTries adb adb' /\ exists a', accountPointers adb' !! account = Some a' /\
    ua_data a' = data_with_CodeHash h (ua_data a) /\ ua_dataTrie a' = ua_dataTrie a.
Proof.
  intros C E K Q. unfold userAccount_do in Q. rewrite E in Q. injection Q as <-.
  pose proof (proj1 (Forall_lookup _ _) (accounts_ok _ _ _ C) account a E) as [[? ? ?] ? ?].
  split; [|split; [done|eexists; split; [cbn; apply list_lookup_insert_eq; by eapply lookup_lt_Some|done]]].
  eapply consistent_account; [done..|by split|]. by constructor.
Qed.

Lemma saveCode_codes adb adb' M D account a old : consistent adb M D -> accountPointers adb !! account = Some a ->
  let h0 := match old with Some o => CodeHash (ua_data o) | None => [] end in
  is_key h0 -> saveCode account old adb = (adb', Ok ()) ->
  exists M', consistent adb' M' D /\ ((HasNewCode a = false -> CodeHash (ua_data a) = h0) -> savedCodes h0 a M M') /\
    sameTries adb adb' /\ exists a', accountPointers adb' !! account = Some a' /\
    ua_data a' = data_with_CodeHash (nextCodeHash a) (ua_data a) /\ ua_dataTrie a' = ua_dataTrie a.
Proof.
  intros C E h0 K0 Es. assert (Ea : accountAt account adb = (adb, Ok a)) by (unfold accountAt; by rewrite E).
  unfold saveCode, mbind, se_bind in Es. rewrite Ea in Es. unfold savedCodes, nextCodeHash.
  destruct (HasNewCode a); cbn [negb] in Es.
  2:{ injection Es as <-. exists M. split; [done|]. split; [intros Hf; specialize (Hf eq_refl); by left|]. split; [done|].
      exists a. split; [done|]. by destruct (ua_data a). }
  fold h0 in Es. fold (newCodeHash a) in Es. cbv zeta in Es. destruct (newCodeHash_key a) as [K1 Hn].
  case_bool_decide as Eh.
  { destruct (setCodeHash_ok adb adb' M D account a _ C E K1 Es) as [C' H']. exists M. split; [done|]. by split; [left|]. }
  destruct (getCodeEntry h0 adb) as [adb1 [o|]] eqn:E1; [|done].
  destruct (getCodeEntry_ok adb M D h0 adb1 o C K0 E1) as (t1 & -> & C1 & Co & Lo).
  destruct (getCodeEntry (newCodeHash a) (with_mainTrie t1 adb)) as [adb2 [n|]] eqn:E2; [|done].
  destruct (getCodeEntry_ok _ M D (newCodeHash a) adb2 n C1 K1 E2) as (t2 & -> & C2 & Cn & Ln).
  set (adb3 := with_entries (entries adb ++ [journalEntryCode o h0 n (newCodeHash a)]) (with_mainTrie t2 (with_mainTrie t1 adb))).
  assert (C3 : consistent adb3 M D).
  { destruct C2. constructor; try done. apply Forall_app. split; [done|]. by apply Forall_singleton. }
  change (journalize (journalEntryCode o h0 n (newCodeHash a)) (with_mainTrie t2 (with_mainTrie t1 adb)))
    with ((adb3, Ok ()) : DB * result state_error ()) in Es. cbv beta iota in Es.
  destruct (updateOldCodeEntry_spec adb3 M D h0 o C3 Co Lo) as (t4 & E4 & C4). rewrite E4 in Es.
  destruct (updateNewCodeEntry_spec _ _ D (newCodeHash a) n (ua_code a) C4 K1) as (t5 & E5 & C5); [tauto|]. rewrite E5 in Es.
  destruct (setCodeHash_ok _ adb' _ D account a _ C5 E K1 Es) as (C' & S' & H'). eexists. split; [exact C'|]. split; [|by split].
  intros _. right. split_and!; [done..|]. by exists o, n.
Qed.

(** ** The counters after a save and a removal *)

Lemma unversioned_dropCode M h o : unversioned M -> unversioned (dropCode h o M).
Proof. intros U. unfold dropCode. destruct o; [by apply write_unversioned|done]. Qed.

Lemma savedCodes_spec M M1 h0 a : counted M -> unversioned M -> Z.of_nat (size M) < 2 ^ 32 - 1 -> savedCodes h0 a M M1 ->
  unversioned M1 /\ (forall address, accountIn M1 address = accountIn M address) /\
  forall h, h <> [] -> references M1 h =
     if decide (h0 = nextCodeHash a) then references M h
     else if decide (h = nextCodeHash a) then references M h + 1
     else if decide (h = h0) then Z.max 0 (references M h - 1) else references M h.
Proof.
  intros C U B [[-> ->]|(N & En & o & n & Co & Lo & Cn & Ln & ->)]; [split_and!; [done..|]; intros h _; by rewrite decide_True|].
  rewrite En in *. destruct (dropCode_spec M h0 o U Co Lo) as (U1 & A1 & R1).
  destruct (decide (ua_code a = [])) as [Ec|Nc].
  - unfold addCode. rewrite decide_True by done. split_and!; [done..|]. intros h Nh. rewrite R1, (decide_False (P := h0 = _)) by done.
    rewrite (decide_False (P := h = newCodeHash a)); [done|]. intros ->. by apply Nh, newCodeHash_key.
  - assert (N1 : newCodeHash a <> []) by (intros E; by apply Nc, newCodeHash_key).
    assert (Er : references M (newCodeHash a) = from_option NumReferences 0 n) by (by rewrite references_codeIn, (codeIn_codeLeaf M _ n)).
    destruct (addCode_spec (dropCode h0 o M) (newCodeHash a) (ua_code a) n) as (U2 & A2 & R2); [done| |done| |].
    + rewrite A1. by apply (codeLeaf_notAccount M _ n).
    + rewrite <- Er, C by done. pose proof (users_size M (newCodeHash a)). lia.
    + split_and!; [done|intros; by rewrite A2|]. intros h Nh. rewrite R2, R1, <- Er, (decide_False (P := h0 = _)) by done.
      case_decide as E; [by subst h|done].
Qed.

(** The leaf of an account has no code. *)
Lemma accountLeaf_references adb0 M address old : accountLeaf adb0 M address old -> references M address = 0 /\
  codeHashAt M address = match old with Some o => CodeHash (ua_data o) | None => [] end.
Proof.
  intros L. unfold references, codeIn, codeHashAt, accountIn. destruct old as [old|]; cbn in L; [|by rewrite L].
  destruct L as (d & b & -> & _ & <- & Em & _ & L). rewrite L. cbn.
  destruct (account_not_code d b Em) as [e ->]. destruct (MarshalAccount_ok d) as (b' & Em' & _ & Um). rewrite Em in Em'. injection Em' as <-.
  by rewrite Um.
Qed.

Lemma counted_saved adb0 M M1 d a old : counted M -> unversioned M -> Z.of_nat (size M) < 2 ^ 32 - 1 ->
  accountLeaf adb0 M (Address d) old -> Address d <> [] -> nextCodeHash a <> Address d ->
  savedCodes (match old with Some o => CodeHash (ua_data o) | None => [] end) a M M1 -> CodeHash d = nextCodeHash a ->
  counted (write (Address d) (accountBytes d) M1).
Proof.
  intros C U B L Na N1 Sv Ed. destruct (accountLeaf_references adb0 M _ old L) as [Z Eh]. rewrite <- Eh in Sv.
  destruct (savedCodes_spec M M1 _ a C U B Sv) as (U1 & A1 & R1).
  apply (counted_moved M _ (Address d) (nextCodeHash a)); try done.
  - intros h _. rewrite users_write_account, Ed, (users_ext M M1) by done. done.
  - intros h Nh Nha. rewrite references_write_account, decide_False, R1 by done. done.
  - rewrite references_write_account by done. by rewrite decide_True.
Qed.

Lemma accountBytes_nonempty d : accountBytes d <> [].
Proof. unfold accountBytes. by destruct (MarshalAccount_ok d) as (b & -> & ? & _). Qed.

(** Code and leaf of an account, once its storage is saved. *)
Lemma saveCodeAndLeaf_counted adb0 adb adb' M D account a old : consistent adb M D -> accountPointers adb !! account = Some a ->
  counted M -> Z.of_nat (size M) < 2 ^ 32 - 1 -> nextCodeHash a <> AddressBytes a -> accountLeaf adb0 M (AddressBytes a) old ->
  (HasNewCode a = false -> CodeHash (ua_data a) = codeHashAt M (AddressBytes a)) ->
  (_ ← saveCode account old; a ← accountAt account; _ ← saveAccountToTrie a; mret ()) adb = (adb', Ok ()) ->
  exists M' d, consistent adb' M' D /\ counted M' /\ accountIn M' (AddressBytes a) = Some d /\ CodeHash d = nextCodeHash a.
Proof.
  intros C E Ct B N1 L Hf Es. destruct (accountLeaf_references adb0 M _ old L) as [_ Eh].
  destruct (account_data _ _ _ (proj1 (Forall_lookup _ _) (accounts_ok _ _ _ C) account a E)) as [[_ N] _ _].
  unfold mbind, se_bind, mret, se_ret in Es. destruct (saveCode account old adb) as [adb4 [[]|]] eqn:E4; [|done].
  destruct (saveCode_codes adb adb4 M D account a old C E) as (M4 & C4 & Sv & _ & a4 & La4 & Ed4 & _); [|done|].
  { destruct old as [o|]; [|apply Forall_nil_2]. destruct L as (d & b & -> & Od & _). apply Od. }
  specialize (Sv ltac:(by intros Q; rewrite Hf)).
  unfold accountAt in Es. rewrite La4 in Es.
  destruct (saveAccountToTrie_spec adb4 M4 D a4 C4) as (t & b & E5 & C5).
  { by eapply account_data, (proj1 (Forall_lookup _ _) (accounts_ok _ _ _ C4)). }
  rewrite E5 in Es. injection Es as <-. exists (write (AddressBytes a4) (accountBytes (ua_data a4)) M4), (ua_data a4). split; [exact C5|].
  assert (Ead : Address (ua_data a4) = AddressBytes a) by (by rewrite Ed4).
  assert (Ecd : CodeHash (ua_data a4) = nextCodeHash a) by (by rewrite Ed4). rewrite <- Ead. split; [|split; [|done]].
  - apply (counted_saved adb0 M M4 (ua_data a4) a old); [done|apply C|done|by rewrite Ead..|done|done].
  - apply accountIn_leaf. rewrite lookup_write by apply C4. rewrite decide_True by done. by rewrite decide_False by apply accountBytes_nonempty.
Qed.

Lemma SaveAccount_counted adb adb' M D account a : consistent adb M D -> accountPointers adb !! account = Some a ->
  counted M -> Z.of_nat (size M) < 2 ^ 32 - 1 -> nextCodeHash a <> AddressBytes a ->
  (HasNewCode a = false -> CodeHash (ua_data a) = codeHashAt M (AddressBytes a)) -> SaveAccount account adb = (adb', Ok ()) ->
  exists M' D' d, consistent adb' M' D' /\ counted M' /\ accountIn M' (AddressBytes a) = Some d /\ CodeHash d = nextCodeHash a.
Proof.
  intros C E Ct B N1 Hf Es. pose proof (inside_refl adb M D C) as I.
  destruct (account_data _ _ _ (inside_accountOk _ _ _ _ _ _ _ _ _ I E)) as [[K N] _ _].
  pose proof (getAccount_after adb M D [] adb M D (AddressBytes a) I K N) as G.
  assert (Ea : accountAt account adb = (adb, Ok a)) by (unfold accountAt; by rewrite E).
  unfold SaveAccount, mbind, se_bind in Es. rewrite Ea in Es. destruct (getAccount (AddressBytes a) adb) as [adb1 [old|]]; [|done].
  destruct G as (I1 & L & Ep1). rewrite savedEntry_eq in Es by done. cbv beta iota in Es.
  pose proof (journal_saved_after adb M D adb1 M D (AddressBytes a) old I1 K N L) as I2.
  set (adb2 := with_entries (entries adb1 ++ [savedEntry (AddressBytes a) old]) adb1).
  change (inside adb M D [AddressBytes a] adb2 M D) in I2. change (journalize (savedEntry (AddressBytes a) old) adb1) with
    ((adb2, Ok ()) : DB * result state_error ()) in Es. cbv beta iota in Es. unfold saveCodeAndDataTrie, mbind, se_bind in Es.
  assert (E2 : accountPointers adb2 !! account = Some a) by (cbn; by rewrite Ep1).
  pose proof (saveDataTrie_after adb M D [AddressBytes a] adb2 account a ltac:(by exists M, D) E2 ltac:(apply list_elem_of_here)) as G3.
  pose proof (saveDataTrie_only account adb2) as O3. destruct (saveDataTrie account adb2) as [adb3 [values|]]; [|done].
  destruct G3 as (M3 & D3 & I3). cbn [fst] in O3.
  pose proof (consistent_only account adb2 adb3 M M3 D D3 O3 (inside_consistent _ _ _ _ _ _ _ I2) (inside_consistent _ _ _ _ _ _ _ I3)) as C3.
  destruct (only_account _ _ _ O3 a E2) as (a3 & h & E3 & Ed3 & Ec3 & Ef3).
  assert (Q : nextCodeHash a3 = nextCodeHash a) by (unfold nextCodeHash, newCodeHash, HasNewCode; by rewrite Ec3, Ef3, Ed3).
  assert (Qa : AddressBytes a3 = AddressBytes a) by (unfold AddressBytes; by rewrite Ed3).
  destruct (saveCodeAndLeaf_counted adb adb3 adb' M D3 account a3 old C3 E3 Ct B) as (M' & d & H); [by rewrite Q, Qa|by rewrite Qa| | |].
  - unfold HasNewCode. rewrite Ef3, Ed3, Qa. exact Hf.
  - unfold mbind, se_bind, mret, se_ret. unfold mret, se_ret in Es. by destruct (saveCode account old adb3) as [adb4 [[]|]].
  - rewrite Q, Qa in H. by exists M', D3, d.
Qed.

(** ** Removing *)

Lemma removeDataTrie_main adb adb' M D a : consistent adb M D -> removeDataTrie a adb = (adb', Ok ()) -> consistent adb' M D.
Proof.
  intros C Es. unfold removeDataTrie in Es. destruct (length _ =? 0)%nat eqn:Z; [by injection Es as <-|].
  unfold se_get at 1, mbind at 1, se_bind at 1 in Es. destruct (Recreate _ _ _) as [t|e]; [|done].
  destruct (GetAllHashes _ _) as [t' [hashes|e]]; [|done].
  unfold NewJournalEntryDataTrieRemove in Es. rewrite Z in Es. injection Es as <-.
  destruct C. constructor; try done. apply Forall_app. split; [done|]. by apply Forall_singleton.
Qed.

Lemma removeCode_spec adb M D a : consistent adb M D -> is_key (CodeHash (ua_data a)) ->
  forall adb', removeCode a adb = (adb', Ok ()) -> exists o, codeEntryOk (CodeHash (ua_data a)) o /\ codeLeaf M (CodeHash (ua_data a)) o /\
    consistent adb' (dropCode (CodeHash (ua_data a)) o M) D.
Proof.
  intros C K adb' Es. set (h := CodeHash (ua_data a)) in *. unfold removeCode, mbind, se_bind in Es. fold h in Es. cbv zeta in Es.
  destruct (getCodeEntry h adb) as [adb1 [o|]] eqn:E1; [|done].
  destruct (getCodeEntry_ok adb M D h adb1 o C K E1) as (t1 & -> & C1 & Co & Lo). exists o. split; [done|]. split; [done|].
  set (adb2 := with_entries (entries adb ++ [journalEntryCode o h None []]) (with_mainTrie t1 adb)).
  change (journalize (journalEntryCode o h None []) (with_mainTrie t1 adb)) with ((adb2, Ok ()) : DB * result state_error ()) in Es.
  cbv beta iota in Es. assert (C2 : consistent adb2 M D).
  { destruct C1. constructor; try done. apply Forall_app. split; [done|]. apply Forall_singleton. split; [done|]. by split; [apply Forall_nil_2|]. }
  destruct (updateOldCodeEntry_spec adb2 M D h o C2 Co Lo) as (t & E & C'). rewrite E in Es. by injection Es as <-.
Qed.

Lemma counted_removed adb0 M address a o : counted M -> unversioned M -> address <> [] -> accountLeaf adb0 M address (Some a) ->
  let h := CodeHash (ua_data a) in codeEntryOk h o -> codeLeaf M h o ->
  counted (write address [] (dropCode h o M)).
Proof.
  intros C U Na L h Co Lo. destruct (accountLeaf_references adb0 M _ (Some a) L) as [Z Eh]. fold h in Eh.
  destruct (dropCode_spec M h o U Co Lo) as (U1 & A1 & R1).
  apply (counted_moved M _ address []); try done; rewrite ?Eh.
  - intros k Nk. rewrite users_write_nothing, (users_ext M (dropCode h o M)) by done. by rewrite decide_False.
  - intros k Nk Nka. rewrite references_write_nothing, decide_False, R1 by done. rewrite (decide_False (P := k = [])) by done.
    destruct (decide (h = [])) as [E|_]; [|done]. rewrite decide_False; [done|congruence].
  - rewrite references_write_nothing by done. by rewrite decide_True.
Qed.

Lemma RemoveAccount_counted adb adb' M D address : consistent adb M D -> is_key address -> counted M ->
  RemoveAccount address adb = (adb', Ok ()) ->
  exists M' , consistent adb' M' D /\ counted M' /\ M' !! address = None.
Proof.
  intros C K Ct Es. unfold RemoveAccount in Es. destruct (Nat.eqb_spec (length address) 0) as [Z|Nz]; [done|].
  assert (N : address <> []) by (by intros ->). pose proof (inside_refl adb M D C) as I.
  pose proof (getAccount_after adb M D [] adb M D address I K N) as G. unfold mbind, se_bind in Es.
  destruct (getAccount address adb) as [adb1 [[a|]|]]; [|done..]. destruct G as (I1 & L & _).
  pose proof (journal_account_after adb M D adb1 M D address a I1 L) as I2.
  set (adb2 := with_entries (entries adb1 ++ [journalEntryAccount a]) adb1). change (inside adb M D [address] adb2 M D) in I2.
  change (journalize (journalEntryAccount a) adb1) with ((adb2, Ok ()) : DB * result state_error ()) in Es.
  cbv beta iota in Es. unfold removeCodeAndDataTrie, mbind, se_bind in Es.
  destruct (removeCode a adb2) as [adb3 [[]|]] eqn:E3; [|done].
  assert (Kc : is_key (CodeHash (ua_data a))) by (destruct L as (d & b & -> & Od & _); apply Od).
  destruct (removeCode_spec adb2 M D a (inside_consistent _ _ _ _ _ _ _ I2) Kc adb3 E3) as (o & Co & Lo & C3).
  destruct (removeDataTrie a adb3) as [adb4 [[]|]] eqn:E4; [|done].
  pose proof (removeDataTrie_main adb3 adb4 _ D a C3 E4) as C4.
  destruct (main_Delete_spec adb4 _ D address C4 K N) as (t & E5 & C5). rewrite E5 in Es. injection Es as <-.
  eexists. split; [exact C5|]. split.
  - by apply (counted_removed adb M address a o); [|apply C|..].
  - rewrite lookup_write by apply C4. by rewrite !decide_True.
Qed.
End Operations.

Section Saved.
Context {S T P : Type} {ST : StateTries S T} {STOk : StateTriesOk S T} {SC : StateCommitOk S T} {SP : StoragePruning P}.
Context {AE : AccountsEnv} {AOk : AccountsEnvOk AE} {TE : TrackableEnv} {TOk : TrackableOk TE}.
Context {KR : KeyRange} {KOk : KeyRangeOk KR}.

Abbreviation DB := (AccountsDB S T P).
Implicit Types (adb : DB) (M : contents) (D : list contents).

#[local] Existing Instance trieOf.
#[local] Existing Instance trieOf_ok.

(** ** Accounts that are saved *)

(** What the leaf of a saved account has. *)
Definition savedData (h : bytes) (a : userAccount) : UserAccountData :=
  data_with_CodeHash (nextCodeHash a) (data_with_RootHash h (ua_data a)).

(** What follows the storage. *)
Definition saveRest (account : nat) (old : option userAccount) : SE DB state_error () :=
  _ ← saveCode account old; a ← accountAt account; _ ← saveAccountToTrie a; mret ().

Lemma SaveAccount_run adb account a adb1 old adb3 values : accountPointers adb !! account = Some a -> AddressBytes a <> [] ->
  getAccount (AddressBytes a) adb = (adb1, Ok old) ->
  saveDataTrie account (with_entries (entries adb1 ++ [savedEntry (AddressBytes a) old]) adb1) = (adb3, Ok values) ->
  SaveAccount account adb = saveRest account old adb3.
Proof.
  intros E N Eg Es. assert (Ea : accountAt account adb = (adb, Ok a)) by (unfold accountAt; by rewrite E).
  unfold SaveAccount, saveRest, mbind, se_bind. rewrite Ea, Eg, savedEntry_eq by done. cbv beta iota.
  change (journalize (savedEntry (AddressBytes a) old) adb1) with
    ((with_entries (entries adb1 ++ [savedEntry (AddressBytes a) old]) adb1, Ok ()) : DB * result state_error ()). cbv beta iota.
  unfold saveCodeAndDataTrie, mbind, se_bind. rewrite Es. unfold mret, se_ret. by destruct (saveCode account old adb3) as [adb4 [[]|e]].
Qed.

Lemma saveRest_ok adb adb' M D account a old : consistent adb M D -> accountPointers adb !! account = Some a ->
  (forall o, old = Some o -> is_key (CodeHash (ua_data o))) -> saveRest account old adb = (adb', Ok ()) ->
  exists M' a', consistent adb' M' D /\ sameTries adb adb' /\ accountPointers adb' !! account = Some a' /\
    ua_dataTrie a' = ua_dataTrie a /\
    M' !! AddressBytes a = Some (accountBytes (data_with_CodeHash (nextCodeHash a) (ua_data a)), 0).
Proof.
  intros C E Ko Es. unfold saveRest, mbind, se_bind in Es. destruct (saveCode account old adb) as [adb4 [[]|]] eqn:E4; [|done].
  destruct (saveCode_codes adb adb4 M D account a old C E) as (M4 & C4 & _ & St & a4 & La4 & Ed4 & Et4); [|done|].
  { destruct old as [o|]; [by apply Ko|apply Forall_nil_2]. }
  unfold accountAt in Es. rewrite La4 in Es. pose proof (proj1 (Forall_lookup _ _) (accounts_ok _ _ _ C4) account a4 La4) as O4.
  destruct (saveAccountToTrie_spec adb4 M4 D a4 C4 (account_data _ _ _ O4)) as (t & b & E5 & C5). rewrite E5 in Es. injection Es as <-.
  eexists _, a4. split; [exact C5|]. split; [done|]. split; [done|]. split; [done|].
  assert (Ead : AddressBytes a = AddressBytes a4) by (unfold AddressBytes; by rewrite Ed4). rewrite Ead, <- Ed4.
  rewrite lookup_write by apply C4. rewrite decide_True by done. by rewrite decide_False by apply accountBytes_nonempty.
Qed.

(** Without new code nothing fails. *)
Lemma saveRest_succeeds adb M D account a old : consistent adb M D -> accountPointers adb !! account = Some a ->
  HasNewCode a = false -> snd (saveRest account old adb) = Ok ().
Proof.
  intros C E Hc. assert (Ea : accountAt account adb = (adb, Ok a)) by (unfold accountAt; by rewrite E).
  unfold saveRest, saveCode, mbind, se_bind. rewrite Ea, Hc. cbn [negb]. unfold mret, se_ret. rewrite Ea.
  pose proof (proj1 (Forall_lookup _ _) (accounts_ok _ _ _ C) account a E) as O.
  destruct (saveAccountToTrie_spec adb M D a C (account_data _ _ _ O)) as (t & b & E5 & C5). by rewrite E5.
Qed.

(** What saves the storage in [SaveAccount], after the account was read. *)
Lemma SaveAccount_storage K adb M D account a L adb1 old : properKeys K -> consistent adb M D ->
  accountPointers adb !! account = Some a -> storedBy K adb a L -> saveable K adb D a L ->
  getAccount (AddressBytes a) adb = (adb1, Ok old) ->
  exists adb3 D3 a3 p m h values, (forall o, old = Some o -> is_key (CodeHash (ua_data o))) /\
    saveDataTrie account (with_entries (entries adb1 ++ [savedEntry (AddressBytes a) old]) adb1) = (adb3, Ok values) /\
    consistent adb3 M D3 /\ accountPointers adb3 !! account = Some a3 /\ ua_data a3 = data_with_RootHash h (ua_data a) /\
    ua_code a3 = ua_code a /\ ua_hasNewCode a3 = ua_hasNewCode a /\ ua_dataTrie a3 = Some p /\
    storageSaved K adb D a L adb3 D3 p m h.
Proof.
  intros P0 C E [B1 B2] V Eg. destruct (account_data _ _ _ (consistent_account_lookup adb M D account a C E)) as [[Ka Na] _ _].
  destruct (getAccount_spec adb M D (AddressBytes a) C Ka Na) as (t & C1 & H).
  assert (Q : adb1 = with_mainTrie t adb /\ forall o, old = Some o -> dataOk (storage adb) (ua_data o)).
  { destruct H as [(e & G & _)|[[_ G]|(d & b & Od & _ & _ & _ & G)]]; rewrite Eg in G; [done|by injection G as -> ->|].
    injection G as -> ->. split; [done|]. by intros o [= <-]. }
  destruct Q as [-> Ho].
  assert (C2 : consistent (with_entries (entries adb ++ [savedEntry (AddressBytes a) old]) (with_mainTrie t adb)) M D).
  { apply (consistent_entry (with_mainTrie t adb)); [done|]. destruct old as [o|]; [by apply Ho|done]. }
  destruct (saveDataTrie_ok K _ M D account a L P0 C2 E) as (adb3 & D3 & a3 & p & m & h & values & E3 & C3 & La3 & Da3 & Co3 & Fl3 & Tr3 & St3).
  { by constructor. }
  { destruct V as [?|(p & m & Ep & [? ? ? ?])]; [by left|]. right. exists p, m. by split. }
  exists adb3, D3, a3, p, m, h, values. split_and!; try done; [intros o Eo; by apply Ho|]. by destruct St3.
Qed.

Lemma SaveAccount_stored K adb adb' M D account a L : properKeys K -> consistent adb M D ->
  accountPointers adb !! account = Some a -> storedBy K adb a L -> saveable K adb D a L ->
  SaveAccount account adb = (adb', Ok ()) ->
  exists M' D' a' p m h, consistent adb' M' D' /\ storageSaved K adb D a L adb' D' p m h /\
    accountPointers adb' !! account = Some a' /\ ua_dataTrie a' = Some p /\
    M' !! AddressBytes a = Some (accountBytes (savedData h a), 0).
Proof.
  intros P0 C E B V Es. destruct (account_data _ _ _ (consistent_account_lookup adb M D account a C E)) as [[Ka Na] _ _].
  destruct (getAccount (AddressBytes a) adb) as [adb1 [old|]] eqn:Eg.
  2:{ unfold SaveAccount, mbind, se_bind, accountAt in Es. by rewrite E, Eg in Es. }
  destruct (SaveAccount_storage K adb M D account a L adb1 old P0 C E B V Eg)
    as (adb3 & D3 & a3 & p & m & h & values & Ko & E3 & C3 & La3 & Da3 & Co3 & Fl3 & Tr3 & St3).
  rewrite (SaveAccount_run adb account a adb1 old adb3 values E Na Eg E3) in Es.
  destruct (saveRest_ok adb3 adb' M D3 account a3 old C3 La3 Ko Es) as (M' & a' & C' & (Q1 & Q2 & Q3) & La' & Tr' & EM).
  assert (Ec : nextCodeHash a3 = nextCodeHash a) by (unfold nextCodeHash, newCodeHash, HasNewCode; by rewrite Co3, Fl3, Da3).
  exists M', D3, a', p, m, h. split; [done|]. split; [|split; [done|split; [congruence|]]].
  - destruct St3. constructor; try done; [by rewrite Q1|by intros address; rewrite Q3].
  - unfold AddressBytes in EM. rewrite Da3 in EM. rewrite Ec in EM. exact EM.
Qed.

Lemma SaveAccount_succeeds K adb M D account a L : properKeys K -> consistent adb M D ->
  accountPointers adb !! account = Some a -> storedBy K adb a L -> saveable K adb D a L ->
  noCodeAt M (AddressBytes a) -> HasNewCode a = false -> snd (SaveAccount account adb) = Ok ().
Proof.
  intros P0 C E B V Nc Hc. destruct (account_data _ _ _ (consistent_account_lookup adb M D account a C E)) as [[Ka Na] _ _].
  destruct (getAccount_ok adb M D (AddressBytes a) C Ka Na Nc) as (t & old & Eg & _).
  destruct (SaveAccount_storage K adb M D account a L _ old P0 C E B V Eg)
    as (adb3 & D3 & a3 & p & m & h & values & Ko & E3 & C3 & La3 & Da3 & Co3 & Fl3 & Tr3 & St3).
  rewrite (SaveAccount_run adb account a _ old adb3 values E Na Eg E3).
  apply (saveRest_succeeds adb3 M D3 account a3 old C3 La3). unfold HasNewCode. by rewrite Fl3.
Qed.

(** ** Tries that the holder does not have *)

Definition putTrie (p : nat) (t : T) adb : DB := with_triePointers (<[p := t]> (triePointers adb)) adb.

(** What is done to another trie does not matter. *)
Definition ignores {A} (p : nat) (t : T) (m : SE DB state_error A) : Prop :=
  forall adb, m (putTrie p t adb) = (putTrie p t (fst (m adb)), snd (m adb)).

Lemma ignores_bind {A B} p t (m : SE DB state_error A) (f : A -> SE DB state_error B) :
  ignores p t m -> (forall x, ignores p t (f x)) -> ignores p t (m ≫= f).
Proof.
  intros H G adb. unfold mbind, se_bind. rewrite H. destruct (m adb) as [adb' [x|e]]; [apply G|done].
Qed.

Lemma commitDataTrie_ignores p t q hashes : q <> p -> ignores p t (commitDataTrie q hashes).
Proof.
  intros N adb. unfold commitDataTrie, putTrie. cbn. rewrite list_lookup_insert_ne by done.
  destruct (triePointers adb !! q) as [tq|]; [|done]. destruct (commitTrie hashes _) as [[t' s'] r]. cbn. f_equal.
  unfold with_storage, with_triePointers. cbn. by rewrite list_insert_insert_ne by done.
Qed.

Lemma commitDataTries_ignores p t qs : forall hashes, p ∉ qs -> ignores p t (commitDataTries qs hashes).
Proof.
  induction qs as [|q qs IH]; intros hashes N; cbn [commitDataTries]; [by intros adb|]. apply not_elem_of_cons in N as [N1 N2].
  apply ignores_bind; [by apply commitDataTrie_ignores|]. intros hs. by apply IH.
Qed.

Lemma commitMainTrie_ignores p t hashes : ignores p t (commitMainTrie hashes).
Proof. intros adb. unfold commitMainTrie. cbn. by destruct (commitTrie hashes _) as [[t' s'] r]. Qed.

Lemma onMainTrie_ignores {A} p t (m : DataTrie T -> SE T trie_error A) : ignores p t (onMainTrie m).
Proof. intros adb. unfold onMainTrie. cbn. by destruct (m _ _) as [t' [x|e]]. Qed.

Lemma markForEviction_ignores p t oldRoot newRoot hashes : ignores p t (markForEviction oldRoot newRoot hashes).
Proof. intros adb. unfold markForEviction. cbn. destruct pruningEnabled; [|done]. by destruct (MarkForEviction _ _ _ _ _). Qed.

(** A commit does not depend on a trie that the holder does not have, and
    stores nothing of it. *)
Lemma commit_ignores collect p t adb : (forall address, dataTries adb !! address <> Some p) ->
  commit collect (putTrie p t adb) = (putTrie p t (fst (commit collect adb)), snd (commit collect adb)).
Proof.
  intros N. assert (G : p ∉ GetAll (dataTries adb)).
  { unfold GetAll. intros K. apply list_elem_of_fmap in K as ([address q] & -> & K). apply elem_of_rangeMap in K. by apply (N address). }
  unfold commit, mbind, se_bind, se_modify, se_get. cbv beta iota zeta.
  change (with_entries [] (putTrie p t adb)) with (putTrie p t (with_entries [] adb)).
  change (dataTries (putTrie p t (with_entries [] adb))) with (dataTries adb).
  change (dataTries (with_entries [] adb)) with (dataTries adb).
  rewrite (commitDataTries_ignores p t _ (∅, ∅) G).
  destruct (commitDataTries _ _ (with_entries [] adb)) as [adb1 [hashes|e]]; [|done]. cbn [fst snd].
  change (with_dataTries ∅ (putTrie p t adb1)) with (putTrie p t (with_dataTries ∅ adb1)).
  change (mainTrie (putTrie p t (with_dataTries ∅ adb1))) with (mainTrie (with_dataTries ∅ adb1)).
  rewrite (commitMainTrie_ignores p t).
  destruct (commitMainTrie hashes (with_dataTries ∅ adb1)) as [adb2 [hashes'|e]]; [|done]. cbn [fst snd].
  unfold main_RootHash. rewrite (onMainTrie_ignores p t). destruct (onMainTrie _ adb2) as [adb3 [newRoot|e]]; [|done]. cbn [fst snd].
  unfold se_lift. destruct (collect newRoot) as [[]|e]; [|done]. rewrite (markForEviction_ignores p t).
  by destruct (markForEviction _ _ _ adb3) as [adb4 [[]|e]].
Qed.
End Saved.
