(* ===== verification/AccountsProperties.v ===== *)
(** * A concrete accounts database

    Encodings of accounts and codes that satisfy the laws that the theorems
    assume, and a database over an empty storage to evaluate the model on.

    ** What the accounts database guarantees

    Reverting to a snapshot gives back the accounts, codes and data tries of
    the snapshot; a commit persists them and reverting to it gives them back;
    the storage of an account that is saved and committed is that of the
    account when it is loaded again; the counters of codes are kept. *)

From Stdlib Require Import ZArith Lia.
From stdpp Require Import base gmap list sorting.
From S2P Require Import Prelude Encoding KeyBuilder TrieNode TrieSpec TrieCommit PatriciaTrie PatriciaSpec.
From S2P Require Import TrieProperties GoValues GoCollections Validators StateTrie TrackableDataTrie TrackableSpec.
From S2P Require Import TrackableSpec TrackableMap StateProperties UserAccount AccountsDB AccountsSpec.
From S2P Require Import AccountsJournal AccountsRevert StateTriesInstance AccountsStore.

(** An account starts with 1, a code with 2. *)
Definition ex_MarshalAccount (d : UserAccountData) : result state_error bytes :=
  Ok (1 :: Nonce d :: Balance d :: DeveloperReward d ::
      enc_lists [CodeHash d; RootHash_ d; Address d; OwnerAddress d; UserName d; CodeMetadata d]).
Definition ex_UnmarshalAccount (b : bytes) (d : UserAccountData) : result state_error UserAccountData :=
  match b with
  | tag :: nonce :: balance :: reward :: rest =>
      match tag =? 1, dec_lists 6 rest with
      | true, Some ([codeHash; rootHash; address; owner; name; metadata], _) =>
          Ok {| Nonce := nonce; Balance := balance; CodeHash := codeHash; RootHash_ := rootHash; Address := address;
                DeveloperReward := reward; OwnerAddress := owner; UserName := name; CodeMetadata := metadata |}
      | _, _ => Err ErrMarshal
      end
  | _ => Err ErrMarshal
  end.
Definition ex_MarshalCode (c : CodeEntry) : result state_error bytes := Ok (2 :: NumReferences c :: Code c).
Definition ex_UnmarshalCode (b : bytes) : result state_error CodeEntry :=
  match b with
  | tag :: n :: code => if tag =? 2 then Ok {| Code := code; NumReferences := n |} else Err ErrMarshal
  | _ => Err ErrMarshal
  end.

#[export] Instance exAccounts : AccountsEnv := {|
  code_Compute := fun b => 9 :: ((fun x => x mod 256) <$> b);
  MarshalAccount := ex_MarshalAccount; UnmarshalAccount := ex_UnmarshalAccount;
  MarshalCode := ex_MarshalCode; UnmarshalCode := ex_UnmarshalCode; pruningEnabled := true;
|}.

#[export] Instance exAccounts_ok : AccountsEnvOk exAccounts.
Proof.
  constructor; cbn.
  - intros b. split; [|done]. apply Forall_cons. split; [unfold is_byte; lia|].
    apply Forall_fmap, Forall_true. intros x. cbn. unfold is_byte. apply Z.mod_pos_bound. lia.
  - intros d. eexists. split; [done|]. split; [done|]. unfold ex_UnmarshalAccount. cbn [Z.eqb Pos.eqb].
    pose proof (dec_enc_lists [CodeHash d; RootHash_ d; Address d; OwnerAddress d; UserName d; CodeMetadata d] []) as E.
    rewrite app_nil_r in E. cbn [length] in E. rewrite E. by destruct d.
  - intros c _. eexists. split; [done|]. split; [done|]. by destruct c.
  - intros d b [= <-]. by eexists.
  - intros c b a _ [= <-]. cbn. destruct (Code c) as [|x [|y l]]; by eexists.
Qed.

(** A collector that takes every root hash. *)
Definition exCollect : bytes -> result state_error () := fun _ => Ok ().

#[export] Instance exPruning : StoragePruning () := fun _ _ _ _ p => (p, Ok ()).
#[export] Instance exTries : StateTries exDB patriciaMerkleTrie := patriciaStateTries 20.
#[export] Instance exTries_ok : StateTriesOk exDB patriciaMerkleTrie := patriciaStateTries_ok 20.
#[export] Instance exCommit_ok : StateCommitOk exDB patriciaMerkleTrie := patriciaStateCommit_ok 20.

Definition exAccountsDB : Type := AccountsDB exDB patriciaMerkleTrie ().

(** The database over an empty storage. *)
Definition ex_genesis : exAccountsDB := NewAccountsDB ex_empty ∅ ().

Lemma ex_closed : closed (∅ : exDB).
Proof. intros b q _ E. cbn in E. by rewrite lookup_empty in E. Qed.

Lemma canonical_empty s : canonical (ST := exTries) s ∅.
Proof.
  constructor.
  - intros k [x E]. by rewrite lookup_empty in E.
  - intros k v version E. by rewrite lookup_empty in E.
  - intros k v version E. by rewrite lookup_empty in E.
Qed.

Lemma NewAccountsDB_consistent (s : exDB) : closed s -> consistent (NewAccountsDB ex_empty s () : exAccountsDB) ∅ [].
Proof. intros O. constructor; try done. apply canonical_empty. Qed.

(** Calls, of which the last decides. *)
Fixpoint calls (cs : list call) (adb : exAccountsDB) : exAccountsDB :=
  match cs with
  | [] => adb
  | c :: cs => calls cs (runCall c adb)
  end.

Lemma calls_app cs1 cs2 adb : calls (cs1 ++ cs2) adb = calls cs2 (calls cs1 adb).
Proof. revert adb. induction cs1; cbn; auto. Qed.

(** Calls from genesis, whose storage is empty. *)
Lemma calls_run cs : Forall (callOk (∅ : exDB)) cs -> forall adb, storage adb = ∅ ->
  (exists M D, consistent adb M D) -> run adb (calls cs adb) /\ storage (calls cs adb) = ∅ /\ exists M D, consistent (calls cs adb) M D.
Proof.
  induction cs as [|c cs IH] using rev_ind; intros F adb Es C; [by split; [apply run_none|]|].
  apply Forall_app in F as [F [O _]%Forall_cons]. destruct (IH F adb Es C) as (R & Es' & M & D & C').
  rewrite calls_app. cbn [calls]. rewrite <- Es in O. split; [by apply run_call|].
  rewrite Es, <- Es' in O. destruct (runCall_inside (calls cs adb) M D c C' O) as (M' & D' & [F' C'' _]).
  split; [by rewrite (frame_storage _ _ F')|by exists M', D'].
Qed.

Section Properties.
Context {S T P : Type} {ST : StateTries S T} {STOk : StateTriesOk S T} {SC : StateCommitOk S T} {SP : StoragePruning P}.
Context {AE : AccountsEnv} {AOk : AccountsEnvOk AE} {TE : TrackableEnv} {TOk : TrackableOk TE}.
Context {KR : KeyRange} {KOk : KeyRangeOk KR}.

Implicit Types (adb : AccountsDB S T P) (M : contents) (D : list contents).

#[local] Existing Instance trieOf.
#[local] Existing Instance trieOf_ok.

(** Databases over the same storage that hold the same have the same root hash. *)
Lemma same_RootHash adb1 adb2 M D1 D2 : storage adb2 = storage adb1 -> consistent adb1 M D1 -> consistent adb2 M D2 ->
  snd (main_RootHash adb2) = snd (main_RootHash adb1).
Proof.
  intros Es C1 C2. destruct (main_RootHash_spec adb1 M D1 C1) as (t1 & h1 & -> & _ & H1).
  destruct (main_RootHash_spec adb2 M D2 C2) as (t2 & h2 & -> & _ & H2). cbn. rewrite Es in H2.
  by rewrite (HashedAs_fun (DT := trieOf (storage adb1)) M h1 h2 H1 H2).
Qed.

(** C3. Whatever was saved, removed, loaded, written to account objects and
    reverted since a snapshot was taken, and wherever it failed: reverting to
    the snapshot succeeds and gives back the accounts and codes of the main
    trie, and so its root hash, the contents of every data trie that there
    was, and the journal. *)
Theorem snapshot_is_restored adb adb' M D (C : consistent adb M D) (N : entries adb <> []) (R : run adb adb') :
  exists adb'' D'', RevertToSnapshot (Z.of_nat (JournalLen adb)) adb' = (adb'', Ok ()) /\
    consistent adb'' M D'' /\ D `prefix_of` D'' /\ entries adb'' = entries adb /\
    snd (main_RootHash adb'') = snd (main_RootHash adb).
Proof.
  destruct (run_reverted adb adb' M D C N R) as (adb'' & D'' & E & C'' & Hp & F & Ee).
  exists adb'', D''. split_and!; [done..|]. by apply (same_RootHash adb adb'' M D D''); [apply F|..].
Qed.

(** C5. Over a storage that takes and keeps the nodes of the tries (the laws of
    [StateCommitOk]), a commit fails only when the collector of state accesses
    refuses the new root hash or the eviction list the hashes of the nodes, and
    then the root hash of the last commit stays; otherwise it returns the root
    hash of the accounts that the main trie holds, which becomes that of the
    last commit.  Failing or not, it has persisted the main trie and every data
    trie of the holder by then, the journal is empty, and no contents are
    changed. *)
Theorem commit_persists collect adb M D (C : consistent adb M D) :
  exists adb' r rootHash, commit collect adb = (adb', r) /\ consistent adb' M D /\ marked collect adb adb' r rootHash /\
    snd (main_RootHash adb') = Ok rootHash /\ entries adb' = [] /\ Persisted (storage adb') M /\
    dataPersisted adb D (storage adb') /\ extends (storage adb) (storage adb').
Proof.
  destruct (commit_spec collect adb M D C) as (adb' & r & h & E & C' & Hh & Mk & Ee & Hp & Hd & G).
  exists adb', r, h. split_and!; try done. destruct (main_RootHash_spec adb' M D C') as (t & h' & -> & _ & H'). cbn.
  by rewrite (HashedAs_fun (DT := trieOf (storage adb')) M h' h H' Hh).
Qed.

(** C24. Reverting to 0 gives back what was committed last, whatever was done
    since then. *)
Theorem last_commit_is_restored collect adb adb1 adb2 M D rootHash (C : consistent adb M D) (E : commit collect adb = (adb1, Ok rootHash))
    (R : run adb1 adb2) :
  exists adb3 D3, RevertToSnapshot 0 adb2 = (adb3, Ok ()) /\ consistent adb3 M D3 /\ entries adb3 = [] /\
    snd (main_RootHash adb3) = Ok rootHash.
Proof.
  destruct (commit_spec collect adb M D C) as (adb' & r & h & E' & C1 & Hh & Mk & _ & Hp & _). rewrite E in E'. injection E' as <- <-.
  destruct Mk as (<- & Er & _). assert (St : settled adb1 M) by (split; [done|]; rewrite Er; split; [done|apply C1]).
  destruct (run_recreated adb1 adb2 M M D St C1 R) as (adb3 & D3 & E3 & C3 & Ee & Es & _).
  exists adb3, D3. split_and!; try done. destruct (main_RootHash_spec adb3 M D3 C3) as (t & h' & -> & _ & H'). cbn.
  rewrite Es in H'. by rewrite (HashedAs_fun (DT := trieOf (storage adb1)) M h' rootHash H' Hh).
Qed.

(** The holder has no other trie for the address of the account. *)
Definition holdsOwnTrie adb (a : userAccount) : Prop := forall p, dataTries adb !! AddressBytes a = Some p -> ua_dataTrie a = Some p.

(** C4. Storage that is saved survives a commit.  Let the dirty data and the
    data trie of an account object stand for the map [L] on a set [K] of proper
    keys, let there be something to save or let it be saved already, and let
    the holder have no other trie for the address of the account (a trie that
    a reverted creation left there is the exception that loses the storage).
    Without new code, and at an address
    without a code, the account can be saved; and whenever it is saved, with or
    without new code, and then committed, the committed root hash can be
    recreated in any database over the committed storage (or a larger one), the
    account exists there with the balance, nonce and code hash that it was
    saved with, and reading any key of [K] gives the value of [L]. *)
Theorem saved_storage_survives collect K adb M D account a L (HK : properKeys K) (C : consistent adb M D)
    (E : accountPointers adb !! account = Some a) (B : storedBy K adb a L) (V : saveable K adb D a L) (H : holdsOwnTrie adb a) :
  (noCodeAt M (AddressBytes a) -> HasNewCode a = false -> snd (SaveAccount account adb) = Ok ()) /\
  forall adb1 adb2 rootHash, SaveAccount account adb = (adb1, Ok ()) -> commit collect adb1 = (adb2, Ok rootHash) ->
    forall adb3 M3 D3, consistent adb3 M3 D3 -> extends (storage adb2) (storage adb3) ->
    exists adb4 adb5 loaded b, RecreateTrie rootHash adb3 = (adb4, Ok ()) /\
      GetExistingAccount (AddressBytes a) adb4 = (adb5, Ok loaded) /\ accountPointers adb5 !! loaded = Some b /\
      Balance (ua_data b) = Balance (ua_data a) /\ Nonce (ua_data b) = Nonce (ua_data a) /\
      CodeHash (ua_data b) = nextCodeHash a /\
      forall key, K key -> exists adb6 depth,
        userAccount_RetrieveValue loaded key adb5 = (adb6, Ok (default [] (L key), depth)).
Proof.
  split; [by apply (SaveAccount_succeeds K adb M D account a L)|]. intros adb1 adb2 rootHash E1 E2 adb3 M3 D3 C3 G.
  destruct (SaveAccount_stored K adb adb1 M D account a L HK C E B V E1) as (M1 & D1 & a1 & p & m & h & C1 & St & La1 & Tr1 & EM1).
  destruct (commit_spec collect adb1 M1 D1 C1) as (adb' & r & h' & E2' & C2 & Hh2 & Mk & _ & Hp & Hd & G2).
  rewrite E2 in E2'. injection E2' as <- <-. destruct Mk as [<- _]. pose proof (saved_in _ _ _ _ _ _ _ _ _ _ St) as Es1.
  destruct (Hd (AddressBytes a) p) as (m' & Em & Hpm).
  { rewrite (saved_holder _ _ _ _ _ _ _ _ _ _ St), decide_True by done. f_equal.
    destruct (dataTries adb !! AddressBytes a) as [q|] eqn:Eq; [|done]. cbn. pose proof (H q Eq) as Ea.
    destruct (saved_trie _ _ _ _ _ _ _ _ _ _ St) as [?|[? _]]; congruence. }
  rewrite (saved_contents _ _ _ _ _ _ _ _ _ _ St) in Em. injection Em as <-.
  pose proof (extends_preorder (S := S) (T := T)) as Pre. assert (G13 : extends (storage adb1) (storage adb3)) by (by etrans).
  pose proof (saved_hash _ _ _ _ _ _ _ _ _ _ St) as Hh. rewrite <- Es1 in Hh. pose proof (HashedAs_extends _ _ _ _ G13 Hh) as Hh3.
  destruct (RecreateTrie_ok adb3 M3 D3 M1 rootHash C3) as (adb4 & E4 & C4 & Es4 & Ed4 & _).
  { exact (Persisted_extends _ _ _ G Hp). }
  { exact (HashedAs_extends _ _ _ _ G Hh2). }
  { eapply canonical_extends; [exact G|apply C2]. }
  set (d := savedData h a) in *.
  assert (O : dataOk (storage adb4) d).
  { pose proof (account_data _ _ _ (consistent_account_lookup adb M D account a C E)) as [? ? _]. constructor; [done| |].
    - cbn. unfold nextCodeHash. destruct (HasNewCode a); [apply newCodeHash_key|done].
    - right. exists m. by rewrite Es4. }
  destruct (GetExistingAccount_loads K adb4 M1 D3 d m L C4 O EM1) as (adb5 & D5 & loaded & b & E5 & C5 & Lb & Eb & Bb & Nt).
  - by rewrite Ed4, lookup_empty.
  - rewrite Es4. exact (Persisted_extends _ _ _ G Hpm).
  - by rewrite Es4.
  - apply (saved_represents _ _ _ _ _ _ _ _ _ _ St).
  - exists adb4, adb5, loaded, b. split_and!; try done; [by rewrite Eb..|].
    intros key Kk. apply (RetrieveValue_ok K adb5 loaded b L key HK Lb Bb); [|done].
    pose proof (trieBehind_holds adb5 M1 D5 loaded b C5 Lb) as Ht. unfold trieBehind in *.
    destruct (ua_dataTrie b) as [q|] eqn:Eq; [|done]. cbn.
    pose proof (account_trie _ _ _ (consistent_account_lookup adb5 M1 D5 loaded b C5 Lb) q Eq) as Lq.
    rewrite <- (Forall2_length _ _ _ (tries_hold _ _ _ C5)) in Lq. by apply lookup_lt_is_Some.
Qed.

(** C40. The holder keeps the data trie of an account whose creation was
    reverted.  Whenever the holder has a trie of contents [L0] for an address,
    and an account object of that address, whose trie is not in the holder, is
    saved with dirty data that make its storage [L]: the leaf of the account
    gets the root hash of [L], but loading the account afterwards gives an
    account with this root hash whose storage is read as [L0]; and a commit
    does not depend on the trie of [L], whatever it is, so nothing of it is
    stored. *)
Theorem recreated_account_loses_storage collect K adb adb1 M D account a L p0 m0 L0 (HK : properKeys K) (C : consistent adb M D)
    (E : accountPointers adb !! account = Some a) (B : storedBy K adb a L) (N : dirty (ua_tracker a) <> ∅)
    (H : dataTries adb !! AddressBytes a = Some p0) (E0 : D !! p0 = Some m0) (R0 : represents K (AddressBytes a) m0 L0)
    (U : forall address q, dataTries adb !! address = Some q -> ua_dataTrie a <> Some q)
    (Es : SaveAccount account adb = (adb1, Ok ())) :
  exists M1 D1 a1 p m h adb2 loaded b, consistent adb1 M1 D1 /\
    M1 !! AddressBytes a = Some (accountBytes (savedData h a), 0) /\
    represents K (AddressBytes a) m L /\ @HashedAs T (trieOf (storage adb1)) (trieOf_ok (storage adb1)) m h /\
    GetExistingAccount (AddressBytes a) adb1 = (adb2, Ok loaded) /\ accountPointers adb2 !! loaded = Some b /\
    RootHash_ (ua_data b) = h /\
    (forall key, K key -> exists adb3 depth,
       userAccount_RetrieveValue loaded key adb2 = (adb3, Ok (default [] (L0 key), depth))) /\
    accountPointers adb1 !! account = Some a1 /\ ua_dataTrie a1 = Some p /\ D1 !! p = Some m /\
    forall t, commit collect (putTrie p t adb1) = (putTrie p t (fst (commit collect adb1)), snd (commit collect adb1)).
Proof.
  destruct (SaveAccount_stored K adb adb1 M D account a L HK C E B ltac:(by left) Es)
    as (M1 & D1 & a1 & p & m & h & C1 & [Es1 Hd Em Hr Hh Tr Ot] & La1 & Tr1 & EM1). rewrite <- Es1 in Hh.
  assert (O : dataOk (storage adb1) (savedData h a)).
  { pose proof (account_data _ _ _ (consistent_account_lookup adb M D account a C E)) as [? ? _]. constructor; [done| |].
    - cbn. unfold nextCodeHash. destruct (HasNewCode a); [apply newCodeHash_key|done].
    - right. by exists m. }
  destruct (GetExistingAccount_held K adb1 M1 D1 (savedData h a) p0 m0 L0 C1 O EM1) as (adb2 & loaded & b & E2 & Lb & Eb & Bb & Tb).
  - rewrite Hd, decide_True by done. change (Address (savedData h a)) with (AddressBytes a). by rewrite H.
  - by apply Ot; [apply (U _ _ H)|].
  - done.
  - exists M1, D1, a1, p, m, h, adb2, loaded, b. split_and!; try done; [by rewrite Eb| |].
    + intros key Kk. by apply (RetrieveValue_ok K adb2 loaded b L0 key HK Lb Bb).
    + intros t. apply commit_ignores. intros address. rewrite Hd.
      assert (Np : forall q, dataTries adb !! address = Some q -> q <> p).
      { intros q Eq ->. pose proof (holder_ok _ _ _ C _ _ Eq) as Lq. destruct Tr as [Ep|[_ Lp]]; [by apply (U _ _ Eq)|lia]. }
      case_decide as Ea; [subst address; rewrite H in *; cbn; intros [= ->]; by apply (Np p)|]. intros Eq. by apply (Np p Eq).
Qed.

(** C8. The counter of a code is the number of accounts that have it: saving
    an account with or without new code, and removing an account, keep it so,
    and the account has the code that was set or no leaf at all. *)
Theorem code_counters_are_kept adb adb' M D (C : consistent adb M D) (Ct : counted M) :
  (forall account a (E : accountPointers adb !! account = Some a) (B : Z.of_nat (size M) < 2 ^ 32 - 1)
     (N : nextCodeHash a <> AddressBytes a) (Hf : HasNewCode a = false -> CodeHash (ua_data a) = codeHashAt M (AddressBytes a))
     (Es : SaveAccount account adb = (adb', Ok ())),
     exists M' D', consistent adb' M' D' /\ counted M' /\ codeHashAt M' (AddressBytes a) = nextCodeHash a) /\
  (forall address (K : is_key address) (Es : RemoveAccount address adb = (adb', Ok ())),
     exists M', consistent adb' M' D /\ counted M' /\ M' !! address = None).
Proof.
  split.
  - intros account a E B N Hf Es.
    destruct (SaveAccount_counted adb adb' M D account a C E Ct B N Hf Es) as (M' & D' & d & C' & Ct' & Ed & Eh).
    exists M', D'. split_and!; [done..|]. unfold codeHashAt. by rewrite Ed.
  - intros address K Es. by eapply RemoveAccount_counted.
Qed.
End Properties.

(** ** A concrete database *)

(** An account that is saved, and what is done after the snapshot. *)
Definition ex_first : list call := [call_LoadAccount [65]; call_method 0 (do_AddToBalance 5); call_SaveAccount 0].
Definition ex_rest : list call :=
  [call_LoadAccount [66]; call_method 1 (do_SaveKeyValue [7] [3]); call_method 1 (do_SetCode [55]); call_SaveAccount 1;
   call_RemoveAccount [65]].
Definition ex_snapshot : exAccountsDB := calls ex_first ex_genesis.

(** An account with storage is created, which is reverted, and created again. *)
Definition ex_create (account : nat) (value : bytes) : list call :=
  [call_LoadAccount [66]; call_method account (do_SaveKeyValue [7] value); call_SaveAccount account].
Definition ex_created_again : exAccountsDB :=
  calls (ex_create 2 [4]) (fst (RevertToSnapshot 1 (calls (ex_create 1 [3]) ex_snapshot))).

(** Saved and committed, the account that was created again cannot be loaded. *)
Lemma created_again_cannot_be_loaded :
  snd (RevertToSnapshot 1 (calls (ex_create 1 [3]) ex_snapshot)) = Ok () /\
  snd (userAccount_RetrieveValue 2 [7] ex_created_again) = Ok ([4], 0) /\
  (let '(adb, rootHash) := commit exCollect ex_created_again in
   is_Ok rootHash = true /\ is_Ok (snd (GetExistingAccount [65] adb)) = true /\
   is_Ok (snd (GetExistingAccount [66] adb)) = false).
Proof. vm_compute. repeat split. Qed.

(** ** Witnesses *)

Lemma ex_calls_ok : Forall (callOk (S := exDB) ∅) (ex_first ++ ex_rest).
Proof. repeat constructor; cbn; try done; unfold is_byte; lia. Qed.

Lemma ex_snapshot_run : run ex_snapshot (calls ex_rest ex_snapshot) /\ storage ex_snapshot = ∅ /\
  exists M D, consistent ex_snapshot M D.
Proof.
  pose proof ex_calls_ok as [F1 F2]%Forall_app.
  destruct (calls_run ex_first F1 ex_genesis eq_refl) as (_ & Es & C).
  { exists ∅, []. apply NewAccountsDB_consistent, ex_closed. }
  split; [|done]. by apply (calls_run ex_rest F2 ex_snapshot Es C).
Qed.

Lemma snapshot_is_restored_witness : exists adb'' M D,
  consistent ex_snapshot M D /\ JournalLen (calls ex_rest ex_snapshot) = 6%nat /\
  RevertToSnapshot 1 (calls ex_rest ex_snapshot) = (adb'', Ok ()) /\
  snd (main_RootHash adb'') = snd (main_RootHash ex_snapshot).
Proof.
  destruct ex_snapshot_run as (R & _ & M & D & C).
  destruct (snapshot_is_restored ex_snapshot (calls ex_rest ex_snapshot) M D C ltac:(done) R) as (adb'' & D'' & E & _ & _ & _ & Eh).
  exists adb'', M, D. split; [done|]. split; [by vm_compute|]. by split.
Defined.

Lemma commit_persists_witness : exists M D adb' rootHash, consistent ex_snapshot M D /\
  commit exCollect ex_snapshot = (adb', Ok rootHash) /\ consistent adb' M D /\ committed (storage adb') M.
Proof.
  destruct ex_snapshot_run as (_ & _ & M & D & C).
  destruct (commit_persists exCollect ex_snapshot M D C) as (adb' & r & h & E & C' & Mk & _ & _ & Hp & _).
  exists M, D, adb', h. split; [done|]. split; [|done]. rewrite E. f_equal.
  assert (L : is_Ok r = true) by (change r with (adb', r).2; rewrite <- E; by vm_compute).
  destruct r as [h'|]; [|done]. by destruct Mk as [-> _].
Defined.

Lemma last_commit_is_restored_witness : exists M D adb1 rootHash adb3,
  commit exCollect ex_snapshot = (adb1, Ok rootHash) /\ RevertToSnapshot 0 (runCall (call_RemoveAccount [65]) adb1) = (adb3, Ok ()) /\
  consistent ex_snapshot M D /\ snd (main_RootHash adb3) = Ok rootHash.
Proof.
  destruct ex_snapshot_run as (_ & _ & M & D & C). destruct (commit exCollect ex_snapshot) as [adb1 r] eqn:E.
  assert (L : is_Ok r = true) by (change r with (adb1, r).2; rewrite <- E; by vm_compute). destruct r as [h|]; [|done].
  destruct (last_commit_is_restored exCollect ex_snapshot adb1 (runCall (call_RemoveAccount [65]) adb1) M D h C E) as (adb3 & D3 & E3 & _ & _ & Eh).
  { apply run_call; [apply run_none|]. cbn. repeat constructor; unfold is_byte; lia. }
  exists M, D, adb1, h, adb3. by split_and!.
Defined.

(** The account [66] with a write to its storage, not saved yet. *)
Definition ex_written : exAccountsDB := calls [call_LoadAccount [66]; call_method 0 (do_SaveKeyValue [7] [3])] ex_genesis.
Definition ex_written_account : userAccount :=
  setTracker {| dirty := {[ [7] := {| dd_index := 0; dd_value := [3]; dd_newVersion := 1 |} ]}; identifier := [66] |}
    (accountOf (emptyData [66])).
Definition ex_written_storage : storageMap := fun key => if decide (key = [7]) then Some [3] else None.

Lemma ex_address_key x : 0 <= x < 256 -> is_key [x] /\ [x] <> [].
Proof. intros B. split; [by apply Forall_singleton|done]. Qed.

Lemma ex_account_ok a : AddressBytes a = [66] -> CodeHash (ua_data a) = [] -> RootHash_ (ua_data a) = [] ->
  ua_dataTrie a = None -> allWritten (ua_tracker a) -> accountOk (ST := exTries) (∅ : exDB) 0 a.
Proof.
  intros Ea Ec Er Et W. constructor; [|done|by rewrite Et]. constructor; [|rewrite Ec; apply Forall_nil_2|by left].
  change (Address (ua_data a)) with (AddressBytes a). rewrite Ea. by apply ex_address_key.
Qed.

Lemma ex_genesis_with (adb : exAccountsDB) a : adb = with_accountPointers [a] ex_genesis ->
  accountOk (ST := exTries) (∅ : exDB) 0 a -> consistent adb ∅ [].
Proof.
  intros -> O. destruct (NewAccountsDB_consistent ∅ ex_closed). constructor; try done. by apply Forall_singleton.
Qed.

Lemma ex_written_consistent : consistent ex_written ∅ [].
Proof.
  apply (ex_genesis_with _ ex_written_account); [by vm_compute|]. apply ex_account_ok; try done.
  intros key [e E]. cbn in E. apply lookup_singleton_Some in E as [<- <-].
  destruct (ex_address_key 7) as [K N]; [lia|]. by constructor.
Qed.

Lemma ex_written_stored : storedBy ex_keys ex_written ex_written_account ex_written_storage.
Proof.
  constructor; [|done]. split.
  - constructor; cbn; intros key; [|intros e]; intros E.
    + destruct E as [e E]. apply lookup_singleton_Some in E as [<- _]. unfold ex_keys. rewrite !elem_of_cons. auto.
    + apply lookup_singleton_Some in E as [<- <-]. split; [done|]. by vm_compute.
  - exists ∅, (fun _ => None). split; [done|]. unfold represents, ex_keys.
    split; intros key; rewrite !elem_of_cons, elem_of_nil; intros [->|[->|[->|[]]]]; try by vm_compute.
    all: split; [done|by right].
Qed.

Lemma ex_written_saved : exists M D, consistent (fst (SaveAccount 0 ex_written)) M D.
Proof.
  destruct (runCall_inside ex_written ∅ [] (call_SaveAccount 0) ex_written_consistent I) as (M & D & [_ C _]). by exists M, D.
Qed.

Lemma no_code_in_empty address : noCodeAt ∅ address.
Proof. intros c b _ _. by rewrite lookup_empty. Qed.

(** The account is loaded by a database that starts over the committed storage. *)
Lemma saved_storage_survives_witness : exists adb1 adb2 rootHash adb4 adb5 loaded adb6 depth,
  SaveAccount 0 ex_written = (adb1, Ok ()) /\ commit exCollect adb1 = (adb2, Ok rootHash) /\
  RecreateTrie rootHash (NewAccountsDB ex_empty (storage adb2) () : exAccountsDB) = (adb4, Ok ()) /\
  GetExistingAccount [66] adb4 = (adb5, Ok loaded) /\
  userAccount_RetrieveValue loaded [7] adb5 = (adb6, Ok ([3], depth)).
Proof.
  destruct (saved_storage_survives exCollect ex_keys ex_written ∅ [] 0 ex_written_account ex_written_storage ex_keys_proper
    ex_written_consistent ltac:(by vm_compute) ex_written_stored ltac:(by left) ltac:(by vm_compute)) as [Hs H].
  specialize (Hs (no_code_in_empty _) eq_refl). destruct (SaveAccount 0 ex_written) as [adb1 r1] eqn:E1. cbn [snd] in Hs. subst r1.
  assert (X1 : adb1 = fst (SaveAccount 0 ex_written)) by (by rewrite E1).
  destruct (commit exCollect adb1) as [adb2 r] eqn:E2.
  assert (L : is_Ok r = true) by (change r with (adb2, r).2; rewrite <- E2, X1; by vm_compute). destruct r as [h|]; [|done].
  destruct (H adb1 adb2 h eq_refl E2 (NewAccountsDB ex_empty (storage adb2) ()) ∅ []) as (adb4 & adb5 & loaded & b & E4 & E5 & _ & _ & _ & _ & R).
  { apply NewAccountsDB_consistent. destruct ex_written_saved as (M & D & C). destruct (commit_spec exCollect _ M D C) as (adb' & r & h' & Ec & C' & _).
    rewrite <- X1, E2 in Ec. injection Ec as <- _. apply (storage_ok _ _ _ C'). }
  { apply (extends_preorder (S := exDB) (T := patriciaMerkleTrie)). }
  destruct (R [7]) as (adb6 & depth & E6); [apply list_elem_of_here|].
  exists adb1, adb2, h, adb4, adb5, loaded, adb6, depth. by split_and!.
Defined.

(** The account [66] is created, which is reverted, and created again. *)
Definition ex_reverted : exAccountsDB := fst (RevertToSnapshot 1 (calls (ex_create 1 [3]) ex_snapshot)).
Definition ex_again : exAccountsDB := calls [call_LoadAccount [66]; call_method 2 (do_SaveKeyValue [7] [4])] ex_reverted.
Definition ex_again_account : userAccount :=
  setTracker {| dirty := {[ [7] := {| dd_index := 0; dd_value := [4]; dd_newVersion := 1 |} ]}; identifier := [66] |}
    (accountOf (emptyData [66])).
Definition ex_again_storage : storageMap := fun key => if decide (key = [7]) then Some [4] else None.

Lemma ex_again_consistent : exists M D, consistent ex_again M D.
Proof.
  destruct ex_snapshot_run as (_ & Es & M & D & C).
  destruct (calls_run (ex_create 1 [3])) with (adb := ex_snapshot) as (R & _ & _); [|done|by exists M, D|].
  { repeat constructor; cbn; try done; unfold is_byte; lia. }
  destruct (run_reverted ex_snapshot _ M D C ltac:(done) R) as (adb & D' & E & C' & _ & F & _).
  assert (X : ex_reverted = adb) by (unfold ex_reverted; change 1 with (Z.of_nat (JournalLen ex_snapshot)); by rewrite E).
  unfold ex_again. rewrite X. apply (calls_run [call_LoadAccount [66]; call_method 2 (do_SaveKeyValue [7] [4])]).
  - repeat constructor; cbn; try done; unfold is_byte; lia.
  - by rewrite (frame_storage _ _ F).
  - by exists M, D'.
Qed.

Lemma ex_again_stored : storedBy ex_keys ex_again ex_again_account ex_again_storage.
Proof.
  constructor; [|done]. split.
  - constructor; cbn; intros key; [|intros e]; intros E.
    + destruct E as [e E]. apply lookup_singleton_Some in E as [<- _]. unfold ex_keys. rewrite !elem_of_cons. auto.
    + apply lookup_singleton_Some in E as [<- <-]. split; [done|]. by vm_compute.
  - exists ∅, (fun _ => None). split; [done|]. unfold represents, ex_keys.
    split; intros key; rewrite !elem_of_cons, elem_of_nil; intros [->|[->|[->|[]]]]; try by vm_compute.
    all: split; [done|by right].
Qed.

(** A trie without a root holds nothing. *)
Lemma no_root_holds_nothing (s : exDB) t m : HoldsAt (ST := exTries) s t m -> root t = None -> represents ex_keys [66] m (fun _ => None).
Proof.
  intros H Er. assert (G : forall key, is_key key -> m !! key = None).
  { intros key K. destruct (GetWithVersion_ok (DT := trieOf (ST := exTries) s) t m key H K) as (t' & depth & E & _).
    destruct t as [r oh orr mx]. cbn in Er. subst r. cbn in E. destruct (m !! key) as [x|]; [|done]. by destruct x. }
  intros key K. destruct (proper_key _ ex_keys_proper key K) as [Kk _]. split; [|by apply G]. apply G, leaf_Compute_key.
Qed.

Lemma recreated_account_loses_storage_witness : exists adb1 adb2 loaded adb3 depth,
  SaveAccount 2 ex_again = (adb1, Ok ()) /\ ex_again_storage [7] = Some [4] /\
  GetExistingAccount [66] adb1 = (adb2, Ok loaded) /\ userAccount_RetrieveValue loaded [7] adb2 = (adb3, Ok ([], depth)).
Proof.
  destruct ex_again_consistent as (M & D & C). destruct (SaveAccount 2 ex_again) as [adb1 r] eqn:Es.
  assert (L : r = Ok ()) by (change r with (adb1, r).2; rewrite <- Es; by vm_compute). subst r.
  assert (Eh : dataTries ex_again !! AddressBytes ex_again_account = Some 0%nat) by (by vm_compute).
  destruct (lookup_lt_is_Some_2 D 0) as [m0 E0]; [apply (holder_ok _ _ _ C _ _ Eh)|].
  destruct (Forall2_lookup_r _ _ _ _ _ (tries_hold _ _ _ C) E0) as (t0 & Et & Ht).
  assert (Er : root <$> triePointers ex_again !! 0%nat = Some None) by (by vm_compute). rewrite Et in Er. injection Er as Er.
  destruct (recreated_account_loses_storage exCollect ex_keys ex_again adb1 M D 2 ex_again_account ex_again_storage 0 m0
    (fun _ => None) ex_keys_proper C ltac:(by vm_compute) ex_again_stored ltac:(done) Eh E0 (no_root_holds_nothing _ _ _ Ht Er)
    ltac:(done) Es) as (M1 & D1 & a1 & p & m & h & adb2 & loaded & b & _ & _ & _ & _ & E2 & _ & _ & R & _).
  destruct (R [7]) as (adb3 & depth & E3); [apply list_elem_of_here|].
  exists adb1, adb2, loaded, adb3, depth. by split_and!.
Defined.

(** The account [66] with a code. *)
Definition ex_coded : exAccountsDB := calls [call_LoadAccount [66]; call_method 0 (do_SetCode [55])] ex_genesis.

Lemma ex_coded_consistent : consistent ex_coded ∅ [].
Proof.
  apply (ex_genesis_with _ (SetCode [55] (accountOf (emptyData [66])))); [by vm_compute|]. apply ex_account_ok; try done.
  intros key [e E]. cbn in E. by rewrite lookup_empty in E.
Qed.

Lemma counted_empty : counted ∅.
Proof. intros h _. by vm_compute. Qed.

Lemma code_counters_are_kept_witness : exists adb1 M1 D1 adb2 M2,
  SaveAccount 0 ex_coded = (adb1, Ok ()) /\ consistent adb1 M1 D1 /\ codeHashAt M1 [66] = [9; 55] /\ counted M1 /\
  RemoveAccount [66] adb1 = (adb2, Ok ()) /\ consistent adb2 M2 D1 /\ counted M2 /\ M2 !! [66] = None.
Proof.
  destruct (SaveAccount 0 ex_coded) as [adb1 r1] eqn:E1.
  assert (X1 : adb1 = fst (SaveAccount 0 ex_coded)) by (by rewrite E1).
  assert (L1 : r1 = Ok ()) by (change r1 with (adb1, r1).2; rewrite <- E1; by vm_compute). subst r1.
  destruct (code_counters_are_kept ex_coded adb1 ∅ [] ex_coded_consistent counted_empty) as [Hs _].
  destruct (Hs 0%nat (SetCode [55] (accountOf (emptyData [66]))) ltac:(by vm_compute) ltac:(done) ltac:(done) ltac:(done) E1)
    as (M1 & D1 & C1 & Ct1 & Eh).
  destruct (RemoveAccount [66] adb1) as [adb2 r2] eqn:E2.
  assert (L2 : r2 = Ok ()) by (change r2 with (adb2, r2).2; rewrite <- E2, X1; by vm_compute). subst r2.
  destruct (code_counters_are_kept adb1 adb2 M1 D1 C1 Ct1) as [_ Hr].
  destruct (Hr [66] (proj1 (ex_address_key 66 ltac:(lia))) E2) as (M2 & C2 & Ct2 & N2).
  exists adb1, M1, D1, adb2, M2. by split_and!.
Defined.
