(* ===== verification/PruningManager.v ===== *)
(** * Pruning of the state (state/storagePruningManager)

    The hashes that a block makes obsolete and those that it adds wait under
    the old and the new root hash until the block is final or rolled back;
    then they are removed from the storage or forgotten.  The eviction waiting
    list, the buffer of operations that wait while pruning is blocked and the
    manager of both.  Locks and logging are left out. *)

From Stdlib Require Import ZArith Lia.
From stdpp Require Import base gmap list.
From S2P Require Import Prelude GoValues TrieNode GoCollections StateTrie TrackableDataTrie UserAccount AccountsDB.

(** state.TriePruningIdentifier, a byte that is appended to root hashes, and
    the operation that is appended in the buffer. *)
Definition OldRoot : Z := 0.
Definition NewRoot : Z := 1.
Definition cancelPruneOperation : Z := 0.
Definition pruneOperation : Z := 1.

(** ** The eviction waiting list (evictionWaitingList/memoryEvictionWaitingList.go) *)

Record rootHashData := {
  numReferences : Z;
  hashes : gset bytes;
}.

(** A hashInfo is its list of root hashes. *)
Record memoryEvictionWaitingList := {
  cache : gmap bytes rootHashData;
  reversedCache : gmap bytes (list bytes);
  rootHashesSize : Z;
  hashesSize : Z;
}.

(** The storage manager of the tries, as far as pruning uses it. *)
Class TrieStorageManager (S : Type) := {
  IsPruningBlocked : S -> bool;
  Remove : bytes -> SE S state_error ();
}.

Section Pruning.
Context {KR : KeyRange}.

Definition with_caches (c : gmap bytes rootHashData) (r : gmap bytes (list bytes)) (mewl : memoryEvictionWaitingList)
    : memoryEvictionWaitingList :=
  {| cache := c; reversedCache := r; rootHashesSize := rootHashesSize mewl; hashesSize := hashesSize mewl |}.

(** The place of a root hash; [None] is -1. *)
Fixpoint index (info : list bytes) (roothash : bytes) : option nat :=
  match info with
  | [] => None
  | hash :: info => if bool_decide (hash = roothash) then Some O else S <$> index info roothash
  end.

Definition putHash (rootHash : bytes) (r : gmap bytes (list bytes)) (hash : bytes) : gmap bytes (list bytes) :=
  match r !! hash with
  | None => <[hash := [rootHash]]> r
  | Some info =>
      match index info rootHash with
      | Some _ => r
      | None => <[hash := info ++ [rootHash]]> r
      end
  end.
Definition putInReversedCache (rootHash : bytes) (hashes : gset bytes) (r : gmap bytes (list bytes)) : gmap bytes (list bytes) :=
  fold_left (putHash rootHash) (rangeKeys hashes) r.

Definition putInCache (rootHash : bytes) (hs : gset bytes) (c : gmap bytes rootHashData) : gmap bytes rootHashData :=
  match c !! rootHash with
  | None => <[rootHash := {| numReferences := 1; hashes := hs |}]> c
  | Some rhData => <[rootHash := {| numReferences := u64 (numReferences rhData + 1); hashes := hashes rhData |}]> c
  end.

Definition cachesFull (mewl : memoryEvictionWaitingList) : bool :=
  (rootHashesSize mewl <? Z.of_nat (size (cache mewl))) || (hashesSize mewl <? Z.of_nat (size (reversedCache mewl))).

Definition Put (rootHash : bytes) (hashes : gset bytes) (mewl : memoryEvictionWaitingList) : memoryEvictionWaitingList :=
  let mewl := with_caches (putInCache rootHash hashes (cache mewl)) (putInReversedCache rootHash hashes (reversedCache mewl)) mewl in
  if negb (cachesFull mewl) then mewl else with_caches ∅ ∅ mewl.

Definition removeHash (rootHash : bytes) (r : gmap bytes (list bytes)) (hash : bytes) : gmap bytes (list bytes) :=
  match r !! hash with
  | None => r
  | Some info =>
      match index info rootHash with
      | None => r
      | Some idx => if (length info =? 1)%nat then base.delete hash r else <[hash := base.delete idx info]> r
      end
  end.
Definition removeFromReversedCache (rootHash : bytes) (hashes : gset bytes) (r : gmap bytes (list bytes))
    : gmap bytes (list bytes) :=
  fold_left (removeHash rootHash) (rangeKeys hashes) r.

(** It returns no error. *)
Definition Evict (rootHash : bytes) (mewl : memoryEvictionWaitingList) : memoryEvictionWaitingList * gset bytes :=
  match cache mewl !! rootHash with
  | None => (mewl, ∅)
  | Some rhData =>
      if numReferences rhData <=? 1 then
        (with_caches (base.delete rootHash (cache mewl))
           (removeFromReversedCache rootHash (hashes rhData) (reversedCache mewl)) mewl, hashes rhData)
      else
        (with_caches (<[rootHash := {| numReferences := numReferences rhData - 1; hashes := hashes rhData |}]> (cache mewl))
           (reversedCache mewl) mewl, ∅)
  end.

Fixpoint shouldKeep_loop (roothashes : list bytes) (identifier : Z) : result state_error bool :=
  match roothashes with
  | [] => Ok false
  | key :: roothashes =>
      match list.last key with
      | None => Err ErrInvalidKey
      | Some lastByte =>
          if (lastByte =? OldRoot) && (identifier =? OldRoot) then shouldKeep_loop roothashes identifier else Ok true
      end
  end.

Definition ShouldKeepHash (hash : bytes) (identifier : Z) (mewl : memoryEvictionWaitingList) : result state_error bool :=
  match reversedCache mewl !! hash with
  | None => Ok false
  | Some info => shouldKeep_loop info identifier
  end.

Definition Reset (mewl : memoryEvictionWaitingList) : memoryEvictionWaitingList := with_caches ∅ ∅ mewl.
Definition CacheLen (mewl : memoryEvictionWaitingList) : nat := size (cache mewl).

Definition NewMemoryEvictionWaitingList (rootHashesSize hashesSize : Z) : option memoryEvictionWaitingList :=
  if rootHashesSize <? 1 then None
  else if hashesSize <? 1 then None
  else Some {| cache := ∅; reversedCache := ∅; rootHashesSize := rootHashesSize; hashesSize := hashesSize |}.

(** ** The buffer (pruningBuffer/pruningBuffer.go) *)

Record pruningBuffer := {
  buffer : list bytes;
  buffer_size : Z;
}.

Definition NewPruningBuffer (pruningBufferLen : Z) : pruningBuffer := {| buffer := []; buffer_size := pruningBufferLen |}.

Definition Add (rootHash : bytes) (pb : pruningBuffer) : pruningBuffer :=
  if buffer_size pb =? 0 then pb
  else if Z.of_nat (length (buffer pb)) =? buffer_size pb
       then {| buffer := drop 1 (buffer pb) ++ [rootHash]; buffer_size := buffer_size pb |}
       else {| buffer := buffer pb ++ [rootHash]; buffer_size := buffer_size pb |}.
Definition RemoveAll (pb : pruningBuffer) : pruningBuffer * list bytes :=
  ({| buffer := []; buffer_size := buffer_size pb |}, buffer pb).
Definition Len (pb : pruningBuffer) : nat := length (buffer pb).

(** ** The manager (storagePruningManager.go) *)

Record storagePruningManager := {
  dbEvictionWaitingList : memoryEvictionWaitingList;
  spm_buffer : pruningBuffer;
}.

Definition with_list (mewl : memoryEvictionWaitingList) (spm : storagePruningManager) : storagePruningManager :=
  {| dbEvictionWaitingList := mewl; spm_buffer := spm_buffer spm |}.
Definition with_buffer (pb : pruningBuffer) (spm : storagePruningManager) : storagePruningManager :=
  {| dbEvictionWaitingList := dbEvictionWaitingList spm; spm_buffer := pb |}.

Definition NewStoragePruningManager (evictionWaitingList : memoryEvictionWaitingList) (pruningBufferLen : Z)
    : storagePruningManager :=
  {| dbEvictionWaitingList := evictionWaitingList; spm_buffer := NewPruningBuffer pruningBufferLen |}.

(** What is both old and new is dropped from both. *)
Definition removeDuplicatedKeys (oldHashes newHashes : gset bytes) : gset bytes * gset bytes :=
  (oldHashes ∖ newHashes, newHashes ∖ oldHashes).

Definition spm_markForEviction (rootHash : bytes) (hashes : gset bytes) (identifier : Z) (spm : storagePruningManager)
    : storagePruningManager :=
  if (length rootHash =? 0)%nat || (size hashes =? 0)%nat then spm
  else with_list (Put (rootHash ++ [identifier]) hashes (dbEvictionWaitingList spm)) spm.

Definition spm_MarkForEviction (oldRoot newRoot : bytes) (oldHashes newHashes : gset bytes) (spm : storagePruningManager)
    : storagePruningManager :=
  if bool_decide (newRoot = oldRoot) then spm
  else
    let '(oldHashes, newHashes) := removeDuplicatedKeys oldHashes newHashes in
    let spm := spm_markForEviction newRoot newHashes NewRoot spm in
    spm_markForEviction oldRoot oldHashes OldRoot spm.

(** The eviction waiting list in memory takes what it is given. *)
#[export] Instance managedPruning : StoragePruning storagePruningManager := fun oldRoot newRoot oldHashes newHashes spm =>
  (spm_MarkForEviction oldRoot newRoot oldHashes newHashes spm, Ok ()).

Context {S : Type} {SM : TrieStorageManager S}.

Definition cancelPrune (rootHash : bytes) (spm : storagePruningManager) : storagePruningManager :=
  with_list (fst (Evict rootHash (dbEvictionWaitingList spm))) spm.

Fixpoint remove_loop (keys : list bytes) (identifier : Z) : SE (storagePruningManager * S) state_error () :=
  match keys with
  | [] => mret ()
  | key :: keys =>
      '(spm, _) ← se_get;
      shouldKeepHash ← se_lift (ShouldKeepHash key identifier (dbEvictionWaitingList spm));
      if (shouldKeepHash : bool) then remove_loop keys identifier
      else
        _ ← se_zoom snd (fun s p => (fst p, s)) (Remove key);
        remove_loop keys identifier
  end.

(** [enabled]: what the handler says of pruning. *)
Definition removeFromDb (rootHash : bytes) (enabled : bool) : SE (storagePruningManager * S) state_error () :=
  fun '(spm, s) =>
    let '(mewl, hashes) := Evict rootHash (dbEvictionWaitingList spm) in
    let spm := with_list mewl spm in
    if negb enabled then ((spm, s), Ok ())
    else
      match list.last rootHash with
      | None => ((spm, s), Err ErrInvalidIdentifier)
      | Some identifier => remove_loop (rangeKeys hashes) identifier (spm, s)
      end.

(** Errors are logged. *)
Definition prune (rootHash : bytes) (enabled : bool) (p : storagePruningManager * S) : storagePruningManager * S :=
  fst (removeFromDb rootHash enabled p).

Definition resolveBufferedHash (enabled : bool) (p : storagePruningManager * S) (rootHash : bytes)
    : storagePruningManager * S :=
  match list.last rootHash with
  | None => p
  | Some operation =>
      let rootHash := take (length rootHash - 1) rootHash in
      if operation =? pruneOperation then prune rootHash enabled p
      else if operation =? cancelPruneOperation then (cancelPrune rootHash (fst p), snd p)
      else p
  end.
Definition resolveBufferedHashes (oldHashes : list bytes) (enabled : bool) (p : storagePruningManager * S)
    : storagePruningManager * S :=
  fold_left (resolveBufferedHash enabled) oldHashes p.

Definition PruneTrie (rootHash : bytes) (identifier : Z) (enabled : bool) (p : storagePruningManager * S)
    : storagePruningManager * S :=
  let '(spm, s) := p in
  let rootHash := rootHash ++ [identifier] in
  if IsPruningBlocked s then
    if identifier =? NewRoot then (cancelPrune rootHash spm, s)
    else (with_buffer (Add (rootHash ++ [pruneOperation]) (spm_buffer spm)) spm, s)
  else
    let '(pb, oldHashes) := RemoveAll (spm_buffer spm) in
    prune rootHash enabled (resolveBufferedHashes oldHashes enabled (with_buffer pb spm, s)).

Definition CancelPrune (rootHash : bytes) (identifier : Z) (p : storagePruningManager * S) : storagePruningManager * S :=
  let '(spm, s) := p in
  let rootHash := rootHash ++ [identifier] in
  if IsPruningBlocked s || negb (Len (spm_buffer spm) =? 0)%nat
  then (with_buffer (Add (rootHash ++ [cancelPruneOperation]) (spm_buffer spm)) spm, s)
  else (cancelPrune rootHash spm, s).

Definition EvictionWaitingListCacheLen (spm : storagePruningManager) : nat := CacheLen (dbEvictionWaitingList spm).
Definition spm_Reset (spm : storagePruningManager) : storagePruningManager :=
  {| dbEvictionWaitingList := Reset (dbEvictionWaitingList spm); spm_buffer := fst (RemoveAll (spm_buffer spm)) |}.

(** ** What the block processors do with it (process/block/baseProcess.go, shardblock.go) *)

Record pruningContext := {
  isPruningEnabled : bool;
  lastRestartNonce : Z;
  pruningDelay : Z;
  closingNodeStarted : bool;
}.

(** Whether the pruning handler lets data be removed. *)
Definition getPruningHandler (ctx : pruningContext) (finalHeaderNonce : Z) : bool :=
  if (finalHeaderNonce <? lastRestartNonce ctx) || (u64 (finalHeaderNonce - lastRestartNonce ctx) <=? pruningDelay ctx)
  then false
  else negb (closingNodeStarted ctx).

(** A header became final after another. *)
Definition updateStateStorage (ctx : pruningContext) (finalHeaderNonce : Z) (currRootHash prevRootHash : bytes)
    (p : storagePruningManager * S) : storagePruningManager * S :=
  if negb (isPruningEnabled ctx) then p
  else if bool_decide (prevRootHash = currRootHash) then p
  else PruneTrie prevRootHash OldRoot (getPruningHandler ctx finalHeaderNonce) (CancelPrune prevRootHash NewRoot p).

(** The root hashes of a header for one of the accounts databases: its own, the
    one after its scheduled transactions, when there is one, and the one before
    those of the previous header. *)
Record headerRoots := {
  headerRootHash : bytes;
  scheduledRootHash : option bytes;
  startScheduledRootHash : option bytes;
}.

(** The work of PruneStateOnRollback for one accounts database. *)
Definition PruneStateOnRollback (ctx : pruningContext) (currNonce : Z) (curr prev : headerRoots)
    (p : storagePruningManager * S) : storagePruningManager * S :=
  if negb (isPruningEnabled ctx) then p
  else
    let rootHash := default (headerRootHash curr) (scheduledRootHash curr) in
    let prevRootHash := default (headerRootHash prev) (scheduledRootHash prev) in
    let p := match startScheduledRootHash prev with
             | Some start => if bool_decide (start = prevRootHash) then CancelPrune start OldRoot p else p
             | None => p
             end in
    if bool_decide (rootHash = prevRootHash) then p
    else PruneTrie rootHash NewRoot (getPruningHandler ctx currNonce) (CancelPrune prevRootHash OldRoot p).

(** The execution results of a settled header, each with its nonce, after the
    one before them, which has been found. *)
Fixpoint pruneTrieHeaderV3_loop (ctx : pruningContext) (prevRootHash : bytes) (results : list (Z * bytes))
    (p : storagePruningManager * S) : storagePruningManager * S :=
  match results with
  | [] => p
  | (nonce, currentRootHash) :: results =>
      pruneTrieHeaderV3_loop ctx currentRootHash results
        (if bool_decide (prevRootHash = currentRootHash) then p
         else PruneTrie prevRootHash OldRoot (getPruningHandler ctx nonce) (CancelPrune prevRootHash NewRoot p))
  end.
Definition pruneTrieHeaderV3 (ctx : pruningContext) (prevRootHash : bytes) (results : list (Z * bytes))
    (p : storagePruningManager * S) : storagePruningManager * S :=
  if negb (isPruningEnabled ctx) then p else pruneTrieHeaderV3_loop ctx prevRootHash results p.

Definition cancelPruneForRootHashTransition (prevRootHash currentRootHash : bytes) (p : storagePruningManager * S)
    : storagePruningManager * S :=
  if (length prevRootHash =? 0)%nat || (length currentRootHash =? 0)%nat then p
  else if bool_decide (prevRootHash = currentRootHash) then p
  else CancelPrune prevRootHash OldRoot (CancelPrune currentRootHash NewRoot p).

(** The results of a batch after its anchor. *)
Fixpoint dismissed_loop (prevRootHash : bytes) (results : list bytes) (p : storagePruningManager * S)
    : storagePruningManager * S :=
  match results with
  | [] => p
  | currentRootHash :: results =>
      dismissed_loop currentRootHash results (cancelPruneForRootHashTransition prevRootHash currentRootHash p)
  end.
Definition cancelPruneForDismissedBatch (anchorResult : option bytes) (results : list bytes)
    (p : storagePruningManager * S) : storagePruningManager * S :=
  match anchorResult with
  | None => p
  | Some prevRootHash => dismissed_loop prevRootHash results p
  end.
Definition cancelPruneForDismissedExecutionResults (ctx : pruningContext) (batches : list (option bytes * list bytes))
    (p : storagePruningManager * S) : storagePruningManager * S :=
  if negb (isPruningEnabled ctx) then p
  else fold_left (fun p batch => cancelPruneForDismissedBatch (fst batch) (snd batch) p) batches p.

Definition maxGapForEWLThreshold : Z := 250.
Definition ewlEntriesPerResult : Z := 2.
Definition ewlTolerancePercent : Z := 130.
Definition ewlThresholdMinBaseline : Z := 10.

(** The gap is capped, so the products do not wrap around. *)
Definition computeEWLResetThreshold (maxProposalNonceGap : Z) : Z :=
  let gap := if maxGapForEWLThreshold <? maxProposalNonceGap then maxGapForEWLThreshold else maxProposalNonceGap in
  let expected := u64 (gap * ewlEntriesPerResult) in
  u64 (expected * ewlTolerancePercent) / 100 + ewlThresholdMinBaseline.

(** For one of the accounts databases. *)
Definition checkEWLSizeAndReset (ctx : pruningContext) (ewlResetThreshold : Z) (p : storagePruningManager * S)
    : storagePruningManager * S :=
  if negb (isPruningEnabled ctx) then p
  else if ewlResetThreshold <? Z.of_nat (EvictionWaitingListCacheLen (fst p)) then (spm_Reset (fst p), snd p)
  else p.
Definition cleanupDismissedEWLEntries (ctx : pruningContext) (ewlResetThreshold : Z)
    (dismissedBatches : list (option bytes * list bytes)) (p : storagePruningManager * S) : storagePruningManager * S :=
  checkEWLSizeAndReset ctx ewlResetThreshold
    (match dismissedBatches with [] => p | _ => cancelPruneForDismissedExecutionResults ctx dismissedBatches p end).
End Pruning.
