(* ===== verification/PruningSpec.v ===== *)
(** * What the eviction waiting list holds

    The reversed cache is the inverse of the cache; what a pruning removes;
    and the entries that wait for the blocks that are not final. *)

From Stdlib Require Import ZArith Lia.
From stdpp Require Import base gmap list.
From S2P Require Import Prelude GoValues TrieNode GoCollections StateTrie TrackableDataTrie UserAccount AccountsDB PruningManager.

(** A loop over different keys, each of which changes its own entry. *)
Lemma fold_own_key {A} (f : gmap bytes A -> bytes -> gmap bytes A) (g : option A -> option A)
    (F : forall m h k, f m h !! k = if decide (k = h) then g (m !! k) else m !! k) ks : NoDup ks -> forall m k,
  fold_left f ks m !! k = if decide (k ∈ ks) then g (m !! k) else m !! k.
Proof.
  induction ks as [|h ks IH]; intros N m k; [done|]. apply NoDup_cons in N as [Nh N]. cbn [fold_left].
  rewrite IH, F by done. destruct (decide (k = h)) as [->|Nk].
  - by rewrite (decide_False (P := h ∈ ks)), decide_True by (done || apply list_elem_of_here).
  - destruct (decide (k ∈ ks)) as [K|K]; [by rewrite decide_True by (by apply list_elem_of_further)|].
    rewrite decide_False; [done|]. by intros [?|?]%elem_of_cons.
Qed.

(** Along a list, a property that holds later but not now begins somewhere. *)
Lemma crossing {A} (Q : A -> Prop) `{forall a, Decision (Q a)} (l : list A) i j a b :
  l !! i = Some a -> l !! j = Some b -> (i <= j)%nat -> ~ Q a -> Q b ->
  exists k x y, (i <= k < j)%nat /\ l !! k = Some x /\ l !! (k + 1)%nat = Some y /\ ~ Q x /\ Q y.
Proof.
  intros Ei Ej L Na. revert b Ej. induction L as [|j L IH]; intros b Ej Qb; [congruence|].
  destruct (l !! j) as [c|] eqn:Ec.
  - destruct (decide (Q c)) as [Qc|Nc].
    + destruct (IH c eq_refl Qc) as (k & x & y & B & R). exists k, x, y. split; [lia|done].
    + exists j, c, b. rewrite Nat.add_1_r. split; [lia|done].
  - apply lookup_ge_None in Ec. apply lookup_lt_Some in Ej. lia.
Qed.

Lemma index_None info k : index info k = None <-> k ∉ info.
Proof.
  induction info as [|h info IH]; cbn; [split; [intros _; apply not_elem_of_nil|done]|]. rewrite not_elem_of_cons.
  case_bool_decide as E; [naive_solver|]. destruct (index info k); cbn; [|naive_solver].
  split; [done|]. intros [_ N]. by apply IH in N.
Qed.

Lemma index_Some info k i : index info k = Some i -> info !! i = Some k.
Proof.
  revert i. induction info as [|h info IH]; cbn; intros i; [done|]. case_bool_decide as E; [by intros [= <-]; rewrite E|].
  destruct (index info k) as [i'|]; cbn; [|done]. intros [= <-]. by apply IH.
Qed.

Section Index.
Context {KR : KeyRange} {KOk : KeyRangeOk KR}.
Implicit Types (mewl : memoryEvictionWaitingList) (hs : gset bytes).

Lemma rangeKeys_set hs : NoDup (rangeKeys hs) /\ forall k, k ∈ rangeKeys hs <-> k ∈ hs.
Proof.
  pose proof (rangeKeys_perm hs) as E. split; [rewrite E; apply NoDup_elements|]. intros k. by rewrite E, elem_of_elements.
Qed.

(** The root hashes under which a hash waits. *)
Definition marks mewl (h : bytes) : list bytes := default [] (reversedCache mewl !! h).

Definition put1 (rootHash : bytes) (o : option (list bytes)) : option (list bytes) :=
  match o with
  | None => Some [rootHash]
  | Some info => match index info rootHash with Some _ => Some info | None => Some (info ++ [rootHash]) end
  end.
Definition remove1 (rootHash : bytes) (o : option (list bytes)) : option (list bytes) :=
  match o with
  | None => None
  | Some info => match index info rootHash with
                 | None => Some info
                 | Some idx => if (length info =? 1)%nat then None else Some (base.delete idx info)
                 end
  end.

Lemma lookup_putInReversedCache rootHash hs r h : putInReversedCache rootHash hs r !! h =
  if decide (h ∈ hs) then put1 rootHash (r !! h) else r !! h.
Proof.
  destruct (rangeKeys_set hs) as [N E]. unfold putInReversedCache. rewrite (fold_own_key _ (put1 rootHash)); [|clear|done].
  - destruct (decide (h ∈ hs)) as [K|K]; [by rewrite decide_True by (by apply E)|by rewrite decide_False by (by rewrite E)].
  - intros m h k. unfold putHash, put1. destruct (m !! h) as [info|] eqn:L; [destruct (index info rootHash) eqn:Ei|];
      (destruct (decide (k = h)) as [->|Nk]; [by rewrite ?lookup_insert_eq, ?L, ?Ei|by rewrite ?lookup_insert_ne]).
Qed.

Lemma lookup_removeFromReversedCache rootHash hs r h : removeFromReversedCache rootHash hs r !! h =
  if decide (h ∈ hs) then remove1 rootHash (r !! h) else r !! h.
Proof.
  destruct (rangeKeys_set hs) as [N E]. unfold removeFromReversedCache. rewrite (fold_own_key _ (remove1 rootHash)); [|clear|done].
  - destruct (decide (h ∈ hs)) as [K|K]; [by rewrite decide_True by (by apply E)|by rewrite decide_False by (by rewrite E)].
  - intros m h k. unfold removeHash, remove1.
    destruct (m !! h) as [info|] eqn:L; [destruct (index info rootHash) eqn:Ei; [destruct (length info =? 1)%nat eqn:El|]|];
      (destruct (decide (k = h)) as [->|Nk];
       [by rewrite ?lookup_insert_eq, ?lookup_delete_eq, ?L, ?Ei, ?El|by rewrite ?lookup_insert_ne, ?lookup_delete_ne]).
Qed.

Lemma elem_of_put1 rootHash o k : NoDup (default [] o) -> NoDup (default [] (put1 rootHash o)) /\
  (k ∈ default [] (put1 rootHash o) <-> k = rootHash \/ k ∈ default [] o).
Proof.
  intros N. destruct o as [info|]; cbn in *.
  - destruct (index info rootHash) eqn:E; cbn.
    + split; [done|]. apply index_Some, list_elem_of_lookup_2 in E. naive_solver.
    + apply index_None in E. split; [|rewrite elem_of_app, elem_of_cons, elem_of_nil; tauto].
      apply NoDup_app. split; [done|]. split; [|apply NoDup_singleton]. by intros x K ->%list_elem_of_singleton.
  - split; [apply NoDup_singleton|]. rewrite list_elem_of_singleton, elem_of_nil. tauto.
Qed.

Lemma put1_full rootHash o : o <> Some [] -> put1 rootHash o <> Some [].
Proof.
  destruct o as [info|]; cbn; [|done]. destruct (index info rootHash); [done|]. intros _ [= E]. by apply app_eq_nil in E as [_ ?].
Qed.

Lemma remove1_full rootHash o : o <> Some [] -> remove1 rootHash o <> Some [].
Proof.
  destruct o as [info|]; cbn; [|done]. destruct (index info rootHash) as [i|] eqn:E; [|done].
  destruct (Nat.eqb_spec (length info) 1) as [L|L]; [done|]. intros _ [= D]. apply index_Some, lookup_lt_Some in E.
  apply (f_equal length) in D. rewrite length_delete in D by (by apply lookup_lt_is_Some). cbn in D. lia.
Qed.

Lemma elem_of_delete_nodup {A} (l : list A) i x y : NoDup l -> l !! i = Some x -> y ∈ base.delete i l <-> y <> x /\ y ∈ l.
Proof.
  intros N E. pose proof (delete_Permutation l i x E) as Pm. rewrite Pm in N. apply NoDup_cons in N as [Nx N].
  assert (K : y ∈ l <-> y ∈ x :: base.delete i l) by (by rewrite <- Pm). rewrite K, elem_of_cons. naive_solver.
Qed.

Lemma elem_of_remove1 rootHash o k : NoDup (default [] o) -> NoDup (default [] (remove1 rootHash o)) /\
  (k ∈ default [] (remove1 rootHash o) <-> k <> rootHash /\ k ∈ default [] o).
Proof.
  intros N. destruct o as [info|]; cbn in *; [|split; [done|]; rewrite elem_of_nil; tauto].
  destruct (index info rootHash) as [i|] eqn:E.
  - apply index_Some in E. pose proof (elem_of_delete_nodup info i rootHash k N E) as D.
    destruct (Nat.eqb_spec (length info) 1) as [L|_]; cbn.
    + split; [apply NoDup_nil_2|]. rewrite <- D. destruct info as [|x [|y info]]; [done| |done].
      destruct i; [done|by apply lookup_lt_Some in E; cbn in E; lia].
    + split; [|done]. pose proof (delete_Permutation info i rootHash E) as Pm. rewrite Pm in N. by apply NoDup_cons in N as [_ N].
  - apply index_None in E. split; [done|]. cbn. split; [|tauto]. intros K. split; [|done]. by intros ->.
Qed.

(** The reversed cache lists, for every hash, the entries that have it; no
    entry was put twice. *)
Record indexed mewl : Prop := {
  ix_full h : reversedCache mewl !! h <> Some [];
  ix_marks h key : key ∈ marks mewl h <-> exists d, cache mewl !! key = Some d /\ h ∈ hashes d;
  ix_nodup h : NoDup (marks mewl h);
  ix_once key d : cache mewl !! key = Some d -> numReferences d = 1;
}.

(** An entry before the sizes are looked at. *)
Definition putBoth (rootHash : bytes) hs mewl : memoryEvictionWaitingList :=
  with_caches (putInCache rootHash hs (cache mewl)) (putInReversedCache rootHash hs (reversedCache mewl)) mewl.

Lemma putBoth_indexed rootHash hs mewl : indexed mewl -> cache mewl !! rootHash = None ->
  indexed (putBoth rootHash hs mewl) /\
  cache (putBoth rootHash hs mewl) = <[rootHash := {| numReferences := 1; hashes := hs |}]> (cache mewl).
Proof.
  intros [Fu M N O] E. unfold putBoth. cbn [cache with_caches]. unfold putInCache at 2. rewrite E.
  split; [|done]. constructor; cbn [cache with_caches]; unfold putInCache; rewrite ?E.
  - intros h. cbn [reversedCache with_caches]. rewrite lookup_putInReversedCache. destruct (decide (h ∈ hs)); [|apply Fu].
    by apply put1_full.
  - intros h key. unfold marks. cbn [reversedCache with_caches]. rewrite lookup_putInReversedCache.
    destruct (elem_of_put1 rootHash (reversedCache mewl !! h) key (N h)) as [_ P].
    destruct (decide (key = rootHash)) as [->|Nk].
    + rewrite lookup_insert_eq. destruct (decide (h ∈ hs)) as [K|K].
      * rewrite P. split; [|by left]. intros _. by eexists.
      * split; [|intros (d & [= <-] & K'); by destruct K].
        intros Q. apply M in Q as (d & Q & _). congruence.
    + rewrite lookup_insert_ne by done. rewrite <- M. unfold marks. destruct (decide (h ∈ hs)); [rewrite P; tauto|done].
  - intros h. unfold marks. cbn [reversedCache with_caches]. rewrite lookup_putInReversedCache.
    destruct (decide (h ∈ hs)); [|apply N]. exact (proj1 (elem_of_put1 rootHash _ rootHash (N h))).
  - intros key d. intros [[<- <-]|[_ Q]]%lookup_insert_Some; [done|by eapply O].
Qed.

Lemma Evict_indexed rootHash mewl : indexed mewl -> indexed (fst (Evict rootHash mewl)) /\
  cache (fst (Evict rootHash mewl)) = base.delete rootHash (cache mewl) /\
  snd (Evict rootHash mewl) = from_option hashes ∅ (cache mewl !! rootHash).
Proof.
  intros [Fu M N O]. unfold Evict. destruct (cache mewl !! rootHash) as [d|] eqn:E.
  2:{ cbn. split; [done|]. split; [|done]. symmetry. by apply delete_id. }
  rewrite (proj2 (Z.leb_le _ _)) by (rewrite (O _ _ E); lia). cbn [fst snd cache with_caches]. split; [|done].
  constructor; cbn [cache with_caches].
  - intros h. cbn [reversedCache with_caches]. rewrite lookup_removeFromReversedCache.
    destruct (decide (h ∈ hashes d)); [|apply Fu]. by apply remove1_full.
  - intros h key. unfold marks. cbn [reversedCache with_caches]. rewrite lookup_removeFromReversedCache.
    destruct (elem_of_remove1 rootHash (reversedCache mewl !! h) key (N h)) as [_ R].
    destruct (decide (key = rootHash)) as [->|Nk].
    + rewrite lookup_delete_eq. split; [|by intros (? & ? & _)]. destruct (decide (h ∈ hashes d)) as [K|K]; [rewrite R; tauto|].
      intros Q. apply M in Q as (d' & Q & K'). rewrite E in Q. injection Q as <-. by destruct K.
    + rewrite lookup_delete_ne, <- M by done. unfold marks. destruct (decide (h ∈ hashes d)); [rewrite R; naive_solver|done].
  - intros h. unfold marks. cbn [reversedCache with_caches]. rewrite lookup_removeFromReversedCache.
    destruct (decide (h ∈ hashes d)); [|apply N]. exact (proj1 (elem_of_remove1 rootHash _ rootHash (N h))).
  - intros key d' [_ Q]%lookup_delete_Some. by eapply O.
Qed.

Lemma Evict_sizes rootHash mewl : rootHashesSize (fst (Evict rootHash mewl)) = rootHashesSize mewl /\
  hashesSize (fst (Evict rootHash mewl)) = hashesSize mewl.
Proof. unfold Evict. destruct (cache mewl !! rootHash) as [d|]; [destruct (numReferences d <=? 1)|]; done. Qed.

Lemma Put_sizes rootHash hs mewl : rootHashesSize (Put rootHash hs mewl) = rootHashesSize mewl /\
  hashesSize (Put rootHash hs mewl) = hashesSize mewl.
Proof. unfold Put. by case_match. Qed.
End Index.

(** ** Lists of what waits *)

(** What the pruning relies on of the storage manager. *)
Class TrieStorageManagerOk (D : Type) {SM : TrieStorageManager D} := {
  Stored : D -> bytes -> Prop;
  Remove_ok key s : exists s', Remove key s = (s', Ok ()) /\ IsPruningBlocked s' = IsPruningBlocked s /\
    forall h, Stored s' h <-> Stored s h /\ h <> key;
}.

Section Listed.
Context {KR : KeyRange} {KOk : KeyRangeOk KR}.
Implicit Types (mewl : memoryEvictionWaitingList) (hs : gset bytes) (w : list (bytes * gset bytes)).

(** The list waits for exactly these root hashes, each with its hashes. *)
Definition listed mewl w : Prop :=
  indexed mewl /\ forall key hs, hashes <$> cache mewl !! key = Some hs <-> (key, hs) ∈ w /\ hs <> ∅.

Lemma listed_ext mewl w w' : listed mewl w -> (forall key hs, (key, hs) ∈ w' <-> (key, hs) ∈ w) -> listed mewl w'.
Proof. intros [I L] E. split; [done|]. intros key hs. by rewrite E. Qed.

Lemma listed_marks mewl w h key : listed mewl w -> key ∈ marks mewl h <-> exists hs, (key, hs) ∈ w /\ h ∈ hs.
Proof.
  intros [I L]. rewrite ix_marks by done. split.
  - intros (d & E & K). exists (hashes d). split; [|done]. apply L. by rewrite E.
  - intros (hs & K & H). assert (N : hs <> ∅) by (intros ->; by apply not_elem_of_empty in H).
    pose proof (proj2 (L key hs) (conj K N)) as E. apply fmap_Some in E as (d & E & ->). by exists d.
Qed.

Lemma listed_sizes mewl w U : listed mewl w -> (forall key hs, (key, hs) ∈ w -> hs ⊆ U) ->
  (size (cache mewl) <= length w)%nat /\ (size (reversedCache mewl) <= size U)%nat.
Proof.
  intros Lw HU. split.
  - rewrite <- (size_dom (D := gset bytes)). transitivity (size (list_to_set w.*1 : gset bytes)).
    + apply subseteq_size. intros key [d E]%elem_of_dom. apply elem_of_list_to_set, list_elem_of_fmap.
      exists (key, hashes d). split; [done|]. apply Lw. by rewrite E.
    + rewrite <- (length_fmap fst w). clear. induction w.*1 as [|key l IH]; cbn; [by rewrite size_empty|].
      rewrite size_union_alt, size_singleton. apply le_n_S. etrans; [|exact IH]. apply subseteq_size, subseteq_difference_l. done.
  - rewrite <- (size_dom (D := gset bytes)). apply subseteq_size. intros h [info E]%elem_of_dom.
    destruct info as [|key info]; [by destruct (ix_full _ (proj1 Lw) h)|].
    assert (K : key ∈ marks mewl h) by (unfold marks; rewrite E; apply list_elem_of_here).
    apply (listed_marks _ _ _ _ Lw) in K as (hs & K & H). by apply (HU _ _ K).
Qed.

Lemma keys_functional w key hs hs' : NoDup w.*1 -> (key, hs) ∈ w -> (key, hs') ∈ w -> hs = hs'.
Proof.
  intros N [i Ei]%list_elem_of_lookup [j Ej]%list_elem_of_lookup. enough (i = j) by congruence.
  apply (NoDup_lookup w.*1 i j key N); by rewrite list_lookup_fmap, ?Ei, ?Ej.
Qed.

Lemma listed_lookup mewl w key hs : listed mewl w -> NoDup w.*1 -> (key, hs) ∈ w ->
  from_option hashes ∅ (cache mewl !! key) = hs.
Proof.
  intros [I L] N K. destruct (cache mewl !! key) as [d|] eqn:E; cbn.
  - specialize (L key (hashes d)). rewrite E in L. destruct (proj1 L eq_refl) as [K' _]. by apply (keys_functional w key).
  - destruct (decide (hs = ∅)) as [->|Ne]; [done|]. specialize (proj2 (L key hs) (conj K Ne)). by rewrite E.
Qed.

Lemma listed_fresh mewl w key : listed mewl w -> key ∉ w.*1 -> cache mewl !! key = None.
Proof.
  intros [I L] N. destruct (cache mewl !! key) as [d|] eqn:E; [|done]. destruct N. apply list_elem_of_fmap.
  exists (key, hashes d). split; [done|]. apply L. by rewrite E.
Qed.

Lemma Evict_listed mewl w w' key : listed mewl w -> (forall k hs, (k, hs) ∈ w' <-> (k, hs) ∈ w /\ k <> key) ->
  listed (fst (Evict key mewl)) w'.
Proof.
  intros [I L] H. destruct (Evict_indexed key mewl I) as (I' & E & _). split; [done|]. intros k hs. rewrite E, H.
  destruct (decide (k = key)) as [->|N].
  - rewrite lookup_delete_eq. cbn. split; [done|]. by intros [[_ ?] _].
  - rewrite lookup_delete_ne by done. rewrite L. tauto.
Qed.

Lemma listed_cons_empty mewl w key : listed mewl w -> listed mewl ((key, ∅) :: w).
Proof.
  intros [I L]. split; [done|]. intros k hs. rewrite L, elem_of_cons. split; [tauto|]. intros [[[= -> ->]|K] N]; [done|tauto].
Qed.

Lemma Evict_head mewl w key hs : listed mewl ((key, hs) :: w) -> key ∉ w.*1 -> listed (fst (Evict key mewl)) w.
Proof.
  intros L N. apply (Evict_listed _ _ _ _ L). intros k hs'. rewrite elem_of_cons. split; [|by intros [[[= -> _]|K] ?]].
  intros K. split; [by right|]. intros ->. apply N, list_elem_of_fmap. by exists (key, hs').
Qed.

(** There is room for these entries. *)
Definition room w mewl : Prop :=
  Z.of_nat (length w) <= rootHashesSize mewl /\ Z.of_nat (size (⋃ w.*2)) <= hashesSize mewl.

Lemma Put_listed mewl w key hs : listed mewl w -> key ∉ w.*1 -> room ((key, hs) :: w) mewl -> hs <> ∅ ->
  listed (Put key hs mewl) ((key, hs) :: w).
Proof.
  intros L N [R1 R2] Ne. pose proof (listed_fresh _ _ _ L N) as Ef.
  destruct (putBoth_indexed key hs mewl (proj1 L) Ef) as [I E].
  assert (L' : listed (putBoth key hs mewl) ((key, hs) :: w)).
  { split; [done|]. intros k hs'. rewrite E, elem_of_cons. destruct (decide (k = key)) as [->|Nk].
    - rewrite lookup_insert_eq. cbn. split; [intros [= <-]; auto|]. intros [[[= ->]|K] _]; [done|]. destruct N.
      apply list_elem_of_fmap. by exists (key, hs').
    - rewrite lookup_insert_ne by done. rewrite (proj2 L). split; [tauto|]. intros [[[= -> _]|K] ?]; [done|tauto]. }
  destruct (listed_sizes _ _ (⋃ ((key, hs) :: w).*2) L') as [S1 S2].
  { intros k hs' K h Kh. apply elem_of_union_list. exists hs'. split; [|done]. apply list_elem_of_fmap. by exists (k, hs'). }
  unfold Put. change (with_caches _ _ mewl) with (putBoth key hs mewl). replace (cachesFull (putBoth key hs mewl)) with false; [done|].
  symmetry. unfold cachesFull. change (rootHashesSize (putBoth key hs mewl)) with (rootHashesSize mewl).
  change (hashesSize (putBoth key hs mewl)) with (hashesSize mewl). apply orb_false_iff. rewrite !Z.ltb_ge. lia.
Qed.
End Listed.

(** ** What a pruning removes *)

Section Pruned.
Context {KR : KeyRange} {KOk : KeyRangeOk KR} {D : Type} {SM : TrieStorageManager D} {SMOk : TrieStorageManagerOk D}.
Implicit Types (mewl : memoryEvictionWaitingList) (hs : gset bytes) (w : list (bytes * gset bytes)).
Implicit Types (spm : storagePruningManager) (s : D).

(** A root hash for which [h] waits makes the pruning keep it, unless both are
    old. *)
Definition kept w (identifier : Z) (h : bytes) : Prop :=
  exists r i hs, (r ++ [i], hs) ∈ w /\ h ∈ hs /\ ~ (i = OldRoot /\ identifier = OldRoot).

(** Root hashes come with an identifier. *)
Definition identified w : Prop := forall key hs, (key, hs) ∈ w -> exists r i, key = r ++ [i].

Lemma shouldKeep_loop_spec keys identifier : (forall key, key ∈ keys -> exists r i, key = r ++ [i]) ->
  exists b, shouldKeep_loop keys identifier = Ok b /\
    (b = true <-> exists r i, r ++ [i] ∈ keys /\ ~ (i = OldRoot /\ identifier = OldRoot)).
Proof.
  induction keys as [|key keys IH]; intros H.
  { exists false. split; [done|]. split; [done|]. by intros (r & i & K%elem_of_nil & _). }
  destruct (H key (list_elem_of_here _ _)) as (r & i & ->). cbn [shouldKeep_loop]. rewrite last_snoc.
  destruct ((i =? OldRoot) && (identifier =? OldRoot)) eqn:E.
  - apply andb_true_iff in E as [->%Z.eqb_eq ->%Z.eqb_eq]. destruct IH as (b & -> & Hb); [intros key K; apply H; by apply list_elem_of_further|].
    exists b. split; [done|]. rewrite Hb. split; intros (r' & i' & K & N); exists r', i'; (split; [|done]); [by apply list_elem_of_further|].
    apply elem_of_cons in K as [K|K]; [|done]. apply app_inj_tail in K as [_ ->]. by destruct N.
  - exists true. split; [done|]. split; [|done]. intros _. exists r, i. split; [apply list_elem_of_here|].
    intros [-> ->]. by rewrite !Z.eqb_refl in E.
Qed.

Lemma ShouldKeepHash_spec mewl w h identifier : listed mewl w -> identified w ->
  exists b, ShouldKeepHash h identifier mewl = Ok b /\ (b = true <-> kept w identifier h).
Proof.
  intros L I. unfold ShouldKeepHash.
  assert (E : kept w identifier h <-> exists r i, r ++ [i] ∈ marks mewl h /\ ~ (i = OldRoot /\ identifier = OldRoot)).
  { unfold kept. setoid_rewrite (listed_marks mewl w h _ L). naive_solver. }
  unfold marks in E. destruct (reversedCache mewl !! h) as [info|] eqn:Er; cbn in E.
  - destruct (shouldKeep_loop_spec info identifier) as (b & -> & Hb); [|exists b; by rewrite Hb, E].
    intros key K. destruct (proj1 (listed_marks mewl w h key L)) as (hs & K' & _); [by unfold marks; rewrite Er|]. by eapply I.
  - exists false. split; [done|]. rewrite E. split; [done|]. by intros (r & i & K%elem_of_nil & _).
Qed.

Lemma remove_loop_spec spm s w identifier keys : listed (dbEvictionWaitingList spm) w -> identified w ->
  exists s', remove_loop keys identifier (spm, s) = ((spm, s'), Ok ()) /\ IsPruningBlocked s' = IsPruningBlocked s /\
    forall h, Stored s' h <-> Stored s h /\ ~ (h ∈ keys /\ ~ kept w identifier h).
Proof.
  intros L I. revert s. induction keys as [|key keys IH]; intros s.
  { exists s. split_and!; [done..|]. intros h. rewrite elem_of_nil. tauto. }
  cbn [remove_loop]. destruct (ShouldKeepHash_spec _ w key identifier L I) as (b & Eb & Hb).
  unfold mbind, se_bind, se_get, se_lift. cbn beta iota. rewrite Eb. destruct b.
  - destruct (IH s) as (s' & -> & B & St). exists s'. split_and!; [done..|]. intros h. rewrite St, elem_of_cons.
    assert (Kk : kept w identifier key) by (by apply Hb). destruct (decide (h = key)) as [->|Nh]; tauto.
  - unfold se_zoom. cbn [snd fst]. destruct (Remove_ok key s) as (s1 & -> & B1 & St1). cbn beta iota.
    destruct (IH s1) as (s' & -> & B & St). exists s'. split_and!; [done|congruence|]. intros h. rewrite St, St1, elem_of_cons.
    assert (Nk : ~ kept w identifier key) by (by rewrite <- Hb).
    destruct (decide (h = key)) as [->|Nh]; tauto.
Qed.

Lemma prune_spec spm s w w' rootHash identifier hs enabled : listed (dbEvictionWaitingList spm) w -> NoDup w.*1 ->
  (rootHash ++ [identifier], hs) ∈ w -> (forall k hs, (k, hs) ∈ w' <-> (k, hs) ∈ w /\ k <> rootHash ++ [identifier]) ->
  identified w' ->
  exists mewl' s', prune (rootHash ++ [identifier]) enabled (spm, s) = (with_list mewl' spm, s') /\ listed mewl' w' /\
    rootHashesSize mewl' = rootHashesSize (dbEvictionWaitingList spm) /\ hashesSize mewl' = hashesSize (dbEvictionWaitingList spm) /\
    IsPruningBlocked s' = IsPruningBlocked s /\
    forall h, Stored s' h <-> Stored s h /\ ~ (enabled = true /\ h ∈ hs /\ ~ kept w' identifier h).
Proof.
  intros L N K H I. pose proof (Evict_listed _ _ w' _ L H) as L'.
  destruct (Evict_indexed (rootHash ++ [identifier]) _ (proj1 L)) as (_ & _ & Eh). rewrite (listed_lookup _ _ _ _ L N K) in Eh.
  pose proof (Evict_sizes (rootHash ++ [identifier]) (dbEvictionWaitingList spm)) as [S1 S2].
  unfold prune, removeFromDb. destruct (Evict (rootHash ++ [identifier]) (dbEvictionWaitingList spm)) as [mewl' hs'] eqn:E.
  cbn [fst snd] in *. subst hs'. destruct enabled; cbn [negb].
  2:{ exists mewl', s. split_and!; try done. intros h. split; [intros ?|tauto]. split; [done|]. by intros [? _]. }
  rewrite last_snoc.
  destruct (remove_loop_spec (with_list mewl' spm) s w' identifier (rangeKeys hs) L' I) as (s' & -> & B & St).
  exists mewl', s'. split_and!; try done. intros h. rewrite St, (proj2 (rangeKeys_set hs)). tauto.
Qed.
End Pruned.

(** ** The states of the blocks from the last final one on *)

Section Chain.
Context (nodes : bytes -> gset bytes).
Implicit Types (remains : gset bytes) (chain : list bytes).

(** What waits for a chain of root hashes: under the old root of each block
    the nodes that the block gave up, and under its new root those that it
    added.  [remains] still waits under the first. *)
Fixpoint waiting remains chain : list (bytes * gset bytes) :=
  match chain with
  | [] => []
  | a :: rest =>
      (a ++ [NewRoot], remains) ::
      match rest with
      | [] => []
      | b :: _ => (a ++ [OldRoot], nodes a ∖ nodes b) :: waiting (nodes b ∖ nodes a) rest
      end
  end.

Definition liveNodes chain : gset bytes := ⋃ (nodes <$> chain).

Lemma elem_of_liveNodes chain h : h ∈ liveNodes chain <-> exists r, r ∈ chain /\ h ∈ nodes r.
Proof.
  unfold liveNodes. rewrite elem_of_union_list. split.
  - intros (X & (r & -> & K)%list_elem_of_fmap & H). by exists r.
  - intros (r & K & H). exists (nodes r). split; [|done]. apply list_elem_of_fmap. by exists r.
Qed.

(** What waits for the blocks after a state. *)
Fixpoint waitingAfter (a : bytes) (blocks : list bytes) : list (bytes * gset bytes) :=
  match blocks with
  | [] => []
  | b :: blocks => (a ++ [OldRoot], nodes a ∖ nodes b) :: (b ++ [NewRoot], nodes b ∖ nodes a) :: waitingAfter b blocks
  end.

Lemma waiting_after remains a blocks : waiting remains (a :: blocks) = (a ++ [NewRoot], remains) :: waitingAfter a blocks.
Proof.
  revert a remains. induction blocks as [|b blocks IH]; intros a remains; [done|].
  change (waiting remains (a :: b :: blocks)) with
    ((a ++ [NewRoot], remains) :: (a ++ [OldRoot], nodes a ∖ nodes b) :: waiting (nodes b ∖ nodes a) (b :: blocks)).
  by rewrite IH.
Qed.

Lemma waiting_app remains chain a blocks :
  waiting remains (chain ++ a :: blocks) = waiting remains (chain ++ [a]) ++ waitingAfter a blocks.
Proof.
  revert remains. induction chain as [|x chain IH]; intros remains; [by rewrite !app_nil_l, !waiting_after|].
  destruct chain as [|y chain].
  - cbn [app]. rewrite !waiting_after. done.
  - specialize (IH (nodes y ∖ nodes x)). cbn [app] in *.
    assert (U : forall l, waiting remains (x :: y :: l) =
      (x ++ [NewRoot], remains) :: (x ++ [OldRoot], nodes x ∖ nodes y) :: waiting (nodes y ∖ nodes x) (y :: l)) by done.
    by rewrite !U, IH.
Qed.

Lemma waiting_in remains chain key hs : (key, hs) ∈ waiting remains chain -> (forall a, head chain = Some a -> remains ⊆ nodes a) ->
  exists r i, key = r ++ [i] /\ r ∈ chain /\ (i = OldRoot \/ i = NewRoot) /\ hs ⊆ nodes r.
Proof.
  revert remains. induction chain as [|a chain IH]; intros remains; [by intros ?%elem_of_nil|]. cbn [waiting].
  intros [[= -> ->]|K]%elem_of_cons H.
  { exists a, NewRoot. split_and!; [done|apply list_elem_of_here|by right|by apply H]. }
  destruct chain as [|b chain]; [by apply elem_of_nil in K|]. apply elem_of_cons in K as [[= -> ->]|K].
  - exists a, OldRoot. split_and!; [done|apply list_elem_of_here|by left|set_solver].
  - destruct (IH _ K) as (r & i & -> & Kr & R); [intros ? [= <-]; set_solver|]. exists r, i.
    split_and!; try apply R; [done|by apply list_elem_of_further].
Qed.

Lemma waiting_NoDup remains chain : NoDup chain -> NoDup (waiting remains chain).*1.
Proof.
  revert remains. induction chain as [|a chain IH]; intros remains; [intros; apply NoDup_nil_2|]. intros [Na N]%NoDup_cons.
  destruct chain as [|b chain]; [apply NoDup_singleton|]. cbn [waiting fmap list_fmap fst].
  change (NoDup ((a ++ [NewRoot]) :: (a ++ [OldRoot]) :: (waiting (nodes b ∖ nodes a) (b :: chain)).*1)).
  assert (F : forall i, a ++ [i] ∉ (waiting (nodes b ∖ nodes a) (b :: chain)).*1).
  { intros i ((key, hs) & E & K)%list_elem_of_fmap. cbn in E. subst key.
    destruct (waiting_in _ _ _ _ K) as (r & j & [-> _]%app_inj_tail & Kr & _); [intros ? [= <-]; set_solver|done]. }
  apply NoDup_cons. split; [|apply NoDup_cons; split; [apply F|by apply IH]].
  intros [[_ ?]%app_inj_tail|K]%elem_of_cons; [done|by apply F in K].
Qed.

Lemma waiting_length remains chain : (length (waiting remains chain) <= 2 * length chain)%nat.
Proof.
  revert remains. induction chain as [|a chain IH]; intros remains; [cbn; lia|]. destruct chain as [|b chain]; [cbn; lia|].
  specialize (IH (nodes b ∖ nodes a)). cbn [waiting length] in *. lia.
Qed.

Lemma waiting_identified remains chain : (forall a, head chain = Some a -> remains ⊆ nodes a) -> identified (waiting remains chain).
Proof. intros H key hs K. destruct (waiting_in _ _ _ _ K H) as (r & i & -> & _). by exists r, i. Qed.

Lemma waiting_step remains chain i a b : chain !! i = Some a -> chain !! (i + 1)%nat = Some b ->
  (a ++ [OldRoot], nodes a ∖ nodes b) ∈ waiting remains chain /\ (b ++ [NewRoot], nodes b ∖ nodes a) ∈ waiting remains chain.
Proof.
  revert remains i. induction chain as [|x chain IH]; intros remains i; [done|]. destruct chain as [|y chain].
  { destruct i; [by intros _ ?|done]. }
  destruct i as [|i]; cbn [waiting].
  - intros [= ->] [= ->]. split; [apply list_elem_of_further, list_elem_of_here|].
    apply list_elem_of_further, list_elem_of_further. destruct chain; apply list_elem_of_here.
  - intros Ea Eb. destruct (IH (nodes y ∖ nodes x) i Ea Eb) as [K1 K2].
    by split; apply list_elem_of_further, list_elem_of_further.
Qed.

(** What is given up by the first block is kept when a later state has it
    again, what the last block added when an earlier state had it. *)
Lemma kept_old remains b chain h : remains ⊆ nodes b -> h ∉ nodes b ->
  kept (waiting remains (b :: chain)) OldRoot h <-> h ∈ liveNodes (b :: chain).
Proof.
  intros Sub Nb. rewrite elem_of_liveNodes. split.
  - intros (r & i & hs & K & H & _). destruct (waiting_in _ _ _ _ K) as (r' & j & [-> _]%app_inj_tail & Kr & _ & Hs).
    + by intros ? [= <-].
    + exists r'. split; [done|by apply Hs].
  - intros (r & [j Ej]%list_elem_of_lookup & H).
    destruct (crossing (fun x => h ∈ nodes x) (b :: chain) 0 j b r eq_refl Ej) as (k & x & y & _ & Ex & Ey & Nx & Hy); [lia|done..|].
    exists y, NewRoot, (nodes y ∖ nodes x). split; [by apply (waiting_step remains _ _ _ _ Ex Ey)|]. split; [set_solver|by intros [? _]].
Qed.

Lemma kept_new remains chain a h : (forall x, head (chain ++ [a]) = Some x -> remains ⊆ nodes x) -> h ∉ nodes a ->
  kept (waiting remains (chain ++ [a])) NewRoot h <-> h ∈ liveNodes (chain ++ [a]).
Proof.
  intros Sub Na. rewrite elem_of_liveNodes. split.
  - intros (r & i & hs & K & H & _). destruct (waiting_in _ _ _ _ K Sub) as (r' & j & [-> _]%app_inj_tail & Kr & _ & Hs).
    exists r'. split; [done|by apply Hs].
  - intros (r & [j Ej]%list_elem_of_lookup & H). pose proof (lookup_lt_Some _ _ _ Ej) as Lt. rewrite length_app in Lt. cbn in Lt.
    assert (Ea : (chain ++ [a]) !! length chain = Some a) by (by apply list_lookup_middle).
    destruct (crossing (fun x => h ∉ nodes x) (chain ++ [a]) j (length chain) r a Ej Ea) as (k & x & y & _ & Ex & Ey & Nx & Hy);
      [lia|tauto|done|]. assert (Hx : h ∈ nodes x) by (destruct (decide (h ∈ nodes x)); tauto).
    exists x, OldRoot, (nodes x ∖ nodes y). split; [by apply (waiting_step remains _ _ _ _ Ex Ey)|]. split; [set_solver|by intros [_ ?]].
Qed.
End Chain.
