(* ===== verification/PruningProperties.v ===== *)
(** * What pruning keeps and what it removes

    Whatever blocks are committed, become final or are rolled back, the storage
    holds the nodes of the states from the last final one on, and no others;
    and a roll-back while pruning is blocked that breaks this. *)

From Stdlib Require Import ZArith Lia.
From stdpp Require Import base gmap list.
From S2P Require Import Prelude GoValues TrieNode GoCollections StateTrie TrackableDataTrie UserAccount AccountsDB.
From S2P Require Import StateProperties PruningManager PruningSpec.

Section Pruning.
Context {KR : KeyRange} {KOk : KeyRangeOk KR} {D : Type} {SM : TrieStorageManager D} {SMOk : TrieStorageManagerOk D}.
Context (nodes : bytes -> gset bytes).
Implicit Types (spm : storagePruningManager) (s : D) (p : storagePruningManager * D) (chain : list bytes).

(** The eviction waiting list has room for the states of a chain. *)
Definition roomFor chain (mewl : memoryEvictionWaitingList) : Prop :=
  2 * Z.of_nat (length chain) <= rootHashesSize mewl /\ Z.of_nat (size (liveNodes nodes chain)) <= hashesSize mewl.

(** The states from that of the last final block to that of the head, nodes
    that were left in the storage without need, and how they come about.  A
    commit brings the nodes of its state to the storage and marks what it gave
    up and what it added; states are different, and pruning is not blocked. *)
Inductive history : list bytes -> gset bytes -> storagePruningManager * D -> Prop :=
| history_start genesis rootHashesSize hashesSize mewl pruningBufferLen s :
    NewMemoryEvictionWaitingList rootHashesSize hashesSize = Some mewl -> genesis <> [] -> IsPruningBlocked s = false ->
    (forall h, Stored s h <-> h ∈ liveNodes nodes [genesis]) ->
    history [genesis] ∅ (NewStoragePruningManager mewl pruningBufferLen, s)
| history_commit chain a b spare oldHashes newHashes spm s s' :
    history (chain ++ [a]) spare (spm, s) -> b ∉ chain ++ [a] -> b <> [] ->
    removeDuplicatedKeys oldHashes newHashes = (nodes a ∖ nodes b, nodes b ∖ nodes a) ->
    roomFor (chain ++ [a; b]) (dbEvictionWaitingList spm) ->
    IsPruningBlocked s' = false -> (forall h, Stored s' h <-> Stored s h \/ h ∈ nodes b) ->
    history (chain ++ [a; b]) spare (spm_MarkForEviction a b oldHashes newHashes spm, s')
| history_final a b chain spare ctx nonce p :
    history (a :: b :: chain) spare p -> isPruningEnabled ctx = true ->
    history (b :: chain) (if getPruningHandler ctx nonce then spare else spare ∪ nodes a) (updateStateStorage ctx nonce b a p)
| history_rollback chain a b spare ctx nonce curr prev p :
    history (chain ++ [a; b]) spare p -> isPruningEnabled ctx = true ->
    default (headerRootHash curr) (scheduledRootHash curr) = b -> default (headerRootHash prev) (scheduledRootHash prev) = a ->
    history (chain ++ [a]) (if getPruningHandler ctx nonce then spare else spare ∪ nodes b)
      (PruneStateOnRollback ctx nonce curr prev p)
| history_dismissed chain a results spare p :
    history (chain ++ a :: results) spare p ->
    history (chain ++ [a]) (spare ∪ liveNodes nodes results) (cancelPruneForDismissedBatch (Some a) results p)
| history_same chain a spare ctx nonce p :
    history chain spare p -> history chain spare (updateStateStorage ctx nonce a a p)
| history_commit_same chain a spare oldHashes newHashes spm s :
    history chain spare (spm, s) -> history chain spare (spm_MarkForEviction a a oldHashes newHashes spm, s).

Record chainOk chain (spare : gset bytes) p : Prop := {
  ck_nodup : NoDup chain;
  ck_names : Forall (fun r => r <> []) chain;
  ck_listed : exists remains, (forall a, head chain = Some a -> remains ⊆ nodes a) /\
    listed (dbEvictionWaitingList (fst p)) (waiting nodes remains chain);
  ck_buffer : buffer (spm_buffer (fst p)) = [];
  ck_free : IsPruningBlocked (snd p) = false;
  ck_stored h : h ∈ liveNodes nodes chain -> Stored (snd p) h;
  ck_others h : Stored (snd p) h -> h ∈ liveNodes nodes chain \/ h ∈ spare;
}.

Lemma start_ok genesis n m mewl len s : NewMemoryEvictionWaitingList n m = Some mewl -> genesis <> [] ->
  IsPruningBlocked s = false -> (forall h, Stored s h <-> h ∈ liveNodes nodes [genesis]) ->
  chainOk [genesis] ∅ (NewStoragePruningManager mewl len, s).
Proof.
  intros E N F St. unfold NewMemoryEvictionWaitingList in E. destruct (n <? 1); [done|]. destruct (m <? 1); [done|].
  injection E as <-. constructor; try done; try (cbn [snd]; setoid_rewrite St; tauto).
  - apply NoDup_singleton.
  - by apply Forall_singleton.
  - exists ∅. split; [by intros ? _|]. split.
    + constructor; cbn; [done| | |done].
      * intros h key. unfold marks. cbn. rewrite lookup_empty. cbn. rewrite elem_of_nil. split; [done|]. by intros (d & E & _).
      * intros h. unfold marks. cbn. apply NoDup_nil_2.
    + intros key hs. cbn. rewrite lookup_empty, list_elem_of_singleton. cbn. split; [done|]. by intros [[= _ ->] ?].
Qed.

Lemma mark_listed spm w r hs id : listed (dbEvictionWaitingList spm) w -> r ++ [id] ∉ w.*1 -> r <> [] ->
  room ((r ++ [id], hs) :: w) (dbEvictionWaitingList spm) ->
  let spm' := spm_markForEviction r hs id spm in
  listed (dbEvictionWaitingList spm') ((r ++ [id], hs) :: w) /\ spm_buffer spm' = spm_buffer spm /\
  rootHashesSize (dbEvictionWaitingList spm') = rootHashesSize (dbEvictionWaitingList spm) /\
  hashesSize (dbEvictionWaitingList spm') = hashesSize (dbEvictionWaitingList spm).
Proof.
  intros L N Nr R spm'. unfold spm', spm_markForEviction.
  destruct (Nat.eqb_spec (length r) 0) as [E|_]; [by apply length_zero_iff_nil in E|]. cbn [orb].
  destruct (Nat.eqb_spec (size hs) 0) as [E|E].
  - apply size_empty_iff, leibniz_equiv in E. subst hs. split; [by apply listed_cons_empty|done].
  - cbn [dbEvictionWaitingList with_list spm_buffer]. destruct (Put_sizes (r ++ [id]) hs (dbEvictionWaitingList spm)) as [-> ->].
    split; [|done]. apply Put_listed; try done. intros ->. by rewrite size_empty in E.
Qed.

Lemma room_of chain w mewl : roomFor chain mewl -> (forall key hs, (key, hs) ∈ w -> hs ⊆ liveNodes nodes chain) ->
  (length w <= 2 * length chain)%nat -> room w mewl.
Proof.
  intros [R1 R2] Sub L. split; [lia|]. etrans; [|exact R2]. apply inj_le, subseteq_size.
  intros h (X & (e & -> & K)%list_elem_of_fmap & H)%elem_of_union_list. destruct e as [key hs]. by apply (Sub key hs).
Qed.

Lemma liveNodes_snoc chain a blocks h :
  h ∈ liveNodes nodes (chain ++ a :: blocks) <-> h ∈ liveNodes nodes (chain ++ [a]) \/ h ∈ liveNodes nodes blocks.
Proof.
  rewrite !elem_of_liveNodes. setoid_rewrite elem_of_app. setoid_rewrite elem_of_cons. setoid_rewrite elem_of_nil. naive_solver.
Qed.

Lemma liveNodes_one a h : h ∈ liveNodes nodes [a] <-> h ∈ nodes a.
Proof. rewrite elem_of_liveNodes. setoid_rewrite list_elem_of_singleton. naive_solver. Qed.

Lemma liveNodes_cons a chain h : h ∈ liveNodes nodes (a :: chain) <-> h ∈ nodes a \/ h ∈ liveNodes nodes chain.
Proof. rewrite !elem_of_liveNodes. setoid_rewrite elem_of_cons. naive_solver. Qed.

Lemma commit_ok chain a b spare oldHashes newHashes spm s s' : chainOk (chain ++ [a]) spare (spm, s) -> b ∉ chain ++ [a] -> b <> [] ->
  removeDuplicatedKeys oldHashes newHashes = (nodes a ∖ nodes b, nodes b ∖ nodes a) ->
  roomFor (chain ++ [a; b]) (dbEvictionWaitingList spm) ->
  IsPruningBlocked s' = false -> (forall h, Stored s' h <-> Stored s h \/ h ∈ nodes b) ->
  chainOk (chain ++ [a; b]) spare (spm_MarkForEviction a b oldHashes newHashes spm, s').
Proof.
  intros [N Nm (remains & Sub & L) Bf _ St So] Nb Ne E R F' St'. cbn [fst snd] in *.
  assert (Ec : chain ++ [a; b] = (chain ++ [a]) ++ [b]) by (by rewrite <- app_assoc).
  assert (N' : NoDup (chain ++ [a; b])).
  { rewrite Ec. apply NoDup_app. split; [done|]. split; [|apply NoDup_singleton]. by intros x K ->%list_elem_of_singleton. }
  assert (Sub' : forall x, head (chain ++ [a; b]) = Some x -> remains ⊆ nodes x) by (by destruct chain).
  assert (Na : a <> []) by (rewrite Forall_app, Forall_singleton in Nm; tauto).
  pose proof (waiting_NoDup nodes remains _ N') as Nk. pose proof (waiting_length nodes remains (chain ++ [a; b])) as Ln.
  assert (Su : forall key hs, (key, hs) ∈ waiting nodes remains (chain ++ [a; b]) -> hs ⊆ liveNodes nodes (chain ++ [a; b])).
  { intros key hs K. destruct (waiting_in nodes _ _ _ _ K Sub') as (r & i & _ & Kr & _ & Hs). etrans; [exact Hs|].
    intros h H. apply elem_of_liveNodes. by exists r. }
  rewrite waiting_app in Nk, Ln, Su. cbn [waitingAfter] in Nk, Ln, Su. set (w := waiting nodes remains (chain ++ [a])) in *.
  set (o := (a ++ [OldRoot], nodes a ∖ nodes b)) in *. set (n := (b ++ [NewRoot], nodes b ∖ nodes a)) in *.
  assert (P : w ++ [o; n] ≡ₚ o :: n :: w) by (rewrite (Permutation_app_comm w); done).
  assert (Nk' : NoDup (o :: n :: w).*1) by (by rewrite <- P). cbn in Nk'. apply NoDup_cons in Nk' as [Fo Nk']. apply NoDup_cons in Nk' as [Fn _].
  rewrite length_app in Ln. cbn in Ln. unfold spm_MarkForEviction. rewrite bool_decide_false, E.
  2:{ intros ->. apply Nb, elem_of_app. right. apply list_elem_of_here. }
  destruct (mark_listed spm w b (nodes b ∖ nodes a) NewRoot L Fn Ne) as (L1 & B1 & S1 & T1).
  { apply (room_of (chain ++ [a; b])); [done| |cbn; lia]. intros key hs K. apply (Su key). rewrite P. by apply list_elem_of_further. }
  destruct (mark_listed (spm_markForEviction b (nodes b ∖ nodes a) NewRoot spm) _ a (nodes a ∖ nodes b) OldRoot L1 Fo Na) as (L2 & B2 & _).
  { apply (room_of (chain ++ [a; b])); [unfold roomFor; by rewrite S1, T1| |cbn; lia]. intros key hs K. apply (Su key). by rewrite P. }
  constructor; cbn [fst snd]; [done| | |congruence|done| |].
  - rewrite Ec. apply Forall_app. split; [done|by apply Forall_singleton].
  - exists remains. split; [done|]. rewrite waiting_app. cbn [waitingAfter]. fold w o n. apply (listed_ext _ _ _ L2). intros key hs. by rewrite P.
  - intros h. rewrite liveNodes_snoc, liveNodes_one, St'. intros [K|K]; auto.
  - intros h. rewrite liveNodes_snoc, liveNodes_one, St'. intros [K|K]; [apply So in K|]; tauto.
Qed.

(** Forgetting what waits under one root hash and pruning another. *)
Lemma cancel_and_prune spm s w w' r1 i1 r2 i2 hs enabled : listed (dbEvictionWaitingList spm) w -> NoDup w.*1 ->
  buffer (spm_buffer spm) = [] -> IsPruningBlocked s = false -> (r2 ++ [i2], hs) ∈ w -> r1 ++ [i1] <> r2 ++ [i2] ->
  (forall key hs, (key, hs) ∈ w' <-> (key, hs) ∈ w /\ key <> r1 ++ [i1] /\ key <> r2 ++ [i2]) -> identified w' ->
  exists spm' s', PruneTrie r2 i2 enabled (CancelPrune r1 i1 (spm, s)) = (spm', s') /\ listed (dbEvictionWaitingList spm') w' /\
    buffer (spm_buffer spm') = [] /\ IsPruningBlocked s' = false /\
    forall h, Stored s' h <-> Stored s h /\ ~ (enabled = true /\ h ∈ hs /\ ~ kept w' i2 h).
Proof.
  intros L N B F K Ne H I. unfold CancelPrune, Len. rewrite F, B. cbn [length Nat.eqb negb orb]. unfold PruneTrie. rewrite F.
  unfold RemoveAll. cbn [spm_buffer cancelPrune with_list]. rewrite B. cbn [resolveBufferedHashes fold_left].
  set (w1 := filter (fun e => e.1 <> r1 ++ [i1]) w).
  assert (H1 : forall key hs, (key, hs) ∈ w1 <-> (key, hs) ∈ w /\ key <> r1 ++ [i1]).
  { intros key hs'. unfold w1. rewrite list_elem_of_filter. cbn. tauto. }
  assert (L1 : listed (dbEvictionWaitingList (cancelPrune (r1 ++ [i1]) spm)) w1) by (by apply (Evict_listed _ w)).
  destruct (prune_spec (with_buffer {| buffer := []; buffer_size := buffer_size (spm_buffer spm) |} (cancelPrune (r1 ++ [i1]) spm))
    s w1 w' r2 i2 hs enabled L1) as (mewl' & s' & E & L' & _ & _ & B' & St); [| | |done|].
  - unfold w1. apply (sublist_NoDup _ w.*1); [done|]. apply fmap_sublist, sublist_filter.
  - apply H1. split; [done|]. congruence.
  - intros key hs'. rewrite H, H1. tauto.
  - exists (with_list mewl' (with_buffer {| buffer := []; buffer_size := buffer_size (spm_buffer spm) |} (cancelPrune (r1 ++ [i1]) spm))), s'.
    split_and!; [exact E|done|done|congruence|done].
Qed.

(** A root hash that is not in the chain is in no entry. *)
Lemma not_waiting remains chain r i key hs : (forall a, head chain = Some a -> remains ⊆ nodes a) -> r ∉ chain ->
  (key, hs) ∈ waiting nodes remains chain -> key <> r ++ [i].
Proof.
  intros Sub N K ->. destruct (waiting_in nodes _ _ _ _ K Sub) as (r' & j & [-> _]%app_inj_tail & Kr & _). done.
Qed.

Lemma final_ok a b chain spare ctx nonce p : chainOk (a :: b :: chain) spare p -> isPruningEnabled ctx = true ->
  chainOk (b :: chain) (if getPruningHandler ctx nonce then spare else spare ∪ nodes a) (updateStateStorage ctx nonce b a p).
Proof.
  destruct p as [spm s]. intros [N Nm (remains & Sub & L) Bf F St So] En. cbn [fst snd] in *.
  pose proof (waiting_NoDup nodes remains _ N) as Nk.
  apply NoDup_cons in N as [Na N]. apply Forall_cons in Nm as [_ Nm].
  assert (Sub' : forall x, head (b :: chain) = Some x -> nodes b ∖ nodes a ⊆ nodes x) by (intros ? [= <-]; set_solver).
  unfold updateStateStorage. rewrite En, bool_decide_false by (intros ->; apply Na, list_elem_of_here). cbn [negb].
  set (enabled := getPruningHandler ctx nonce).
  destruct (cancel_and_prune spm s _ (waiting nodes (nodes b ∖ nodes a) (b :: chain)) a NewRoot a OldRoot (nodes a ∖ nodes b) enabled L Nk Bf F)
    as (spm' & s' & -> & L' & B' & F' & St').
  - apply list_elem_of_further, list_elem_of_here.
  - by intros [_ ?]%app_inj_tail.
  - intros key hs. change (waiting nodes remains (a :: b :: chain)) with
      ((a ++ [NewRoot], remains) :: (a ++ [OldRoot], nodes a ∖ nodes b) :: waiting nodes (nodes b ∖ nodes a) (b :: chain)).
    rewrite !elem_of_cons. split; [|naive_solver]. intros K. split; [tauto|].
    split; by apply (not_waiting _ _ _ _ _ _ Sub' Na K).
  - by apply waiting_identified.
  - constructor; cbn [fst snd]; try done; [by exists (nodes b ∖ nodes a)| |]; intros h; rewrite St'.
    + intros K. split; [apply St, liveNodes_cons; by right|]. intros (_ & [_ Hb]%elem_of_difference & Nh). apply Nh, kept_old; [set_solver|done..].
    + intros [K Nh]. destruct (decide (h ∈ liveNodes nodes (b :: chain))) as [Hl|Hl]; [by left|right].
      apply So in K as [K%liveNodes_cons|K]; [|destruct enabled; set_solver]. destruct K as [K|K]; [|done].
      destruct enabled; [|set_solver]. destruct Nh. assert (Hb : h ∉ nodes b) by (intros Hb; apply Hl, liveNodes_cons; by left).
      split_and!; [done|set_solver|]. rewrite kept_old by (done || set_solver). done.
Qed.

(** Forgetting twice is forgetting once. *)
Lemma CancelPrune_free r i spm s : buffer (spm_buffer spm) = [] -> IsPruningBlocked s = false ->
  CancelPrune r i (spm, s) = (cancelPrune (r ++ [i]) spm, s).
Proof. intros B F. unfold CancelPrune, Len. by rewrite F, B. Qed.

Lemma cancelPrune_twice key spm w : listed (dbEvictionWaitingList spm) w -> cancelPrune key (cancelPrune key spm) = cancelPrune key spm.
Proof.
  intros [I _]. destruct (Evict_indexed key _ I) as (_ & E & _). unfold cancelPrune at 1, Evict at 1.
  cbn [cancelPrune with_list dbEvictionWaitingList]. rewrite E, lookup_delete_eq. by destruct spm.
Qed.

Lemma rollback_ok chain a b spare ctx nonce curr prev p : chainOk (chain ++ [a; b]) spare p -> isPruningEnabled ctx = true ->
  default (headerRootHash curr) (scheduledRootHash curr) = b -> default (headerRootHash prev) (scheduledRootHash prev) = a ->
  chainOk (chain ++ [a]) (if getPruningHandler ctx nonce then spare else spare ∪ nodes b) (PruneStateOnRollback ctx nonce curr prev p).
Proof.
  destruct p as [spm s]. intros [N Nm (remains & Sub & L) Bf F St So] En Eb Ea. cbn [fst snd] in *.
  pose proof (waiting_NoDup nodes remains _ N) as Nk.
  assert (Ec : chain ++ [a; b] = (chain ++ [a]) ++ [b]) by (by rewrite <- app_assoc).
  rewrite Ec in N, Nm. apply NoDup_app in N as (N & Nb & _). apply Forall_app in Nm as [Nm _].
  assert (Kb : b ∉ chain ++ [a]) by (intros K; by apply (Nb b K), list_elem_of_here). clear Nb.
  assert (Sub' : forall x, head (chain ++ [a]) = Some x -> remains ⊆ nodes x) by (by destruct chain).
  set (enabled := getPruningHandler ctx nonce).
  replace (PruneStateOnRollback ctx nonce curr prev (spm, s)) with (PruneTrie b NewRoot enabled (CancelPrune a OldRoot (spm, s))).
  2:{ unfold PruneStateOnRollback. rewrite En, Ea, Eb. cbn [negb].
      rewrite (bool_decide_false (b = a)) by (intros ->; apply Kb, elem_of_app; right; apply list_elem_of_here).
      destruct (startScheduledRootHash prev) as [start|]; [|done]. case_bool_decide as E; [subst start|done].
      rewrite !(CancelPrune_free a OldRoot) by done. by rewrite (cancelPrune_twice _ _ _ L). }
  rewrite waiting_app in L, Nk. cbn [waitingAfter] in L, Nk.
  destruct (cancel_and_prune spm s _ (waiting nodes remains (chain ++ [a])) a OldRoot b NewRoot (nodes b ∖ nodes a) enabled L Nk Bf F)
    as (spm' & s' & -> & L' & B' & F' & St').
  - apply elem_of_app. right. apply list_elem_of_further, list_elem_of_here.
  - by intros [_ ?]%app_inj_tail.
  - intros key hs. rewrite elem_of_app, !elem_of_cons, elem_of_nil. split; [|naive_solver]. intros K. split; [tauto|].
    split; [|by apply (not_waiting _ _ _ _ _ _ Sub' Kb K)]. intros ->. rewrite fmap_app in Nk.
    apply NoDup_app in Nk as (_ & Nk & _). apply (Nk (a ++ [OldRoot])); [|apply list_elem_of_here].
    apply list_elem_of_fmap. by exists (a ++ [OldRoot], hs).
  - by apply waiting_identified.
  - constructor; cbn [fst snd]; try done; [by exists remains| |]; intros h; rewrite St'.
    + intros K. split; [apply St, liveNodes_snoc; by left|]. intros (_ & [_ Ha]%elem_of_difference & Nh). by apply Nh, kept_new.
    + intros [K Nh]. destruct (decide (h ∈ liveNodes nodes (chain ++ [a]))) as [Hl|Hl]; [by left|right].
      apply So in K as [K|K]; [|destruct enabled; set_solver]. apply liveNodes_snoc in K as [K|K%liveNodes_one]; [done|].
      destruct enabled; [|set_solver]. destruct Nh.
      assert (Ha : h ∉ nodes a) by (intros Ha; apply Hl, (liveNodes_snoc chain a []); left; apply elem_of_liveNodes; exists a; split;
        [apply elem_of_app; right; apply list_elem_of_here|done]).
      split_and!; [done|set_solver|]. by rewrite kept_new.
Qed.

Lemma dismissed_loop_ok w results : forall a spm s, listed (dbEvictionWaitingList spm) (w ++ waitingAfter nodes a results) ->
  NoDup (w ++ waitingAfter nodes a results).*1 -> buffer (spm_buffer spm) = [] -> IsPruningBlocked s = false ->
  NoDup (a :: results) -> Forall (fun r => r <> []) (a :: results) ->
  exists spm', dismissed_loop a results (spm, s) = (spm', s) /\ listed (dbEvictionWaitingList spm') w /\ buffer (spm_buffer spm') = [].
Proof.
  induction results as [|b results IH]; intros a spm s L Nk B F N Nm.
  { exists spm. cbn [waitingAfter] in L. rewrite app_nil_r in L. done. }
  cbn [dismissed_loop waitingAfter] in *. apply NoDup_cons in N as [Na N]. apply Forall_cons in Nm as [Nea Nm].
  pose proof Nm as [Neb _]%Forall_cons. unfold cancelPruneForRootHashTransition.
  destruct (Nat.eqb_spec (length a) 0) as [E|_]; [by apply length_zero_iff_nil in E|].
  destruct (Nat.eqb_spec (length b) 0) as [E|_]; [by apply length_zero_iff_nil in E|]. cbn [orb].
  rewrite bool_decide_false by (intros ->; apply Na, list_elem_of_here).
  rewrite (CancelPrune_free b NewRoot), (CancelPrune_free a OldRoot) by done.
  set (R := waitingAfter nodes b results) in *. set (o := (a ++ [OldRoot], nodes a ∖ nodes b)) in *. set (n := (b ++ [NewRoot], nodes b ∖ nodes a)) in *.
  assert (P : w ++ o :: n :: R ≡ₚ o :: n :: w ++ R) by (by rewrite <- !Permutation_middle).
  rewrite P in Nk. cbn in Nk. apply NoDup_cons in Nk as [Fo Nk]. pose proof Nk as [Fn Nk']%NoDup_cons.
  apply IH; [|done|done|done|done|done]. apply (Evict_head _ _ _ (nodes a ∖ nodes b)); [|by intros K; apply Fo, list_elem_of_further].
  apply (Evict_head _ _ _ (nodes b ∖ nodes a)).
  - apply (listed_ext _ _ _ L). intros key hs. rewrite P, !elem_of_cons. tauto.
  - change (b ++ [NewRoot] ∉ (a ++ [OldRoot]) :: (w ++ R).*1). apply not_elem_of_cons. split; [|done].
    intros E. apply Fo. rewrite <- E. apply list_elem_of_here.
Qed.

Lemma dismissed_ok chain a results spare p : chainOk (chain ++ a :: results) spare p ->
  chainOk (chain ++ [a]) (spare ∪ liveNodes nodes results) (cancelPruneForDismissedBatch (Some a) results p).
Proof.
  destruct p as [spm s]. intros [N Nm (remains & Sub & L) Bf F St So]. cbn [fst snd] in *.
  pose proof (waiting_NoDup nodes remains _ N) as Nk. rewrite waiting_app in L, Nk.
  assert (Ec : chain ++ a :: results = (chain ++ [a]) ++ results) by (by rewrite <- app_assoc).
  pose proof N as N'. pose proof Nm as Nm'. rewrite Ec in N', Nm'. apply NoDup_app in N' as (N' & _ & _). apply Forall_app in Nm' as [Nm' _].
  apply NoDup_app in N as (_ & _ & N). apply Forall_app in Nm as [_ Nm].
  destruct (dismissed_loop_ok _ results a spm s L Nk Bf F N Nm) as (spm' & E & L' & B'). cbn [cancelPruneForDismissedBatch]. rewrite E.
  constructor; cbn [fst snd]; try done.
  - exists remains. split; [by destruct chain|done].
  - intros h K. apply St, liveNodes_snoc. by left.
  - intros h K%So. rewrite liveNodes_snoc in K. set_solver.
Qed.

Lemma history_ok chain spare p : history chain spare p -> chainOk chain spare p.
Proof.
  induction 1.
  - by eapply start_ok.
  - by eapply commit_ok.
  - by apply final_ok.
  - by apply rollback_ok.
  - by apply dismissed_ok.
  - unfold updateStateStorage. rewrite bool_decide_true by done. by destruct (isPruningEnabled ctx).
  - unfold spm_MarkForEviction. by rewrite bool_decide_true.
Qed.

(** Two entries wait for each state. *)
Lemma waiting_count chain spare p : chainOk chain spare p -> (CacheLen (dbEvictionWaitingList (fst p)) <= 2 * length chain)%nat.
Proof.
  intros [_ _ (remains & Sub & L) _ _ _ _]. etrans; [|apply (waiting_length nodes remains chain)].
  eapply (listed_sizes _ _ (⋃ (waiting nodes remains chain).*2)); [exact L|]. intros key hs K h Kh.
  apply elem_of_union_list. exists hs. split; [|done]. apply list_elem_of_fmap. by exists (key, hs).
Qed.

(** C9. Let blocks be committed, become final, be rolled back or have their
    execution results dismissed, in any order, as long as pruning is not
    blocked, no commit returns to an earlier state of the chain, every commit
    stores the nodes of its state and marks exactly the nodes in which it
    differs from the state before, and the eviction list has room for the
    states of the chain.  Then every node of the states from that of the last
    final block to that of the head is in the storage, and nothing else but
    what blocks left there whose results were dismissed or for which the
    removal of data was switched off; at most two root hashes per state wait
    for eviction.  (A roll-back while pruning is blocked can lose a node, see
    [blocked_rollback_loses_node].) *)
Theorem storage_holds_live_states chain spare spm s (H : history chain spare (spm, s)) :
  (forall h, h ∈ liveNodes nodes chain -> Stored s h) /\
  (forall h, Stored s h -> h ∈ liveNodes nodes chain \/ h ∈ spare) /\
  (CacheLen (dbEvictionWaitingList spm) <= 2 * length chain)%nat.
Proof.
  pose proof (history_ok chain spare (spm, s) H) as C. split_and!; [apply C|apply C|exact (waiting_count chain spare _ C)].
Qed.

(** The list is not reset while there are no more states than the gap between
    proposed and executed blocks allows, up to the cap. *)
Lemma safety_net_stays_aside chain spare p ctx maxProposalNonceGap : history chain spare p ->
  Z.of_nat (length chain) <= maxProposalNonceGap -> Z.of_nat (length chain) <= maxGapForEWLThreshold ->
  checkEWLSizeAndReset ctx (computeEWLResetThreshold maxProposalNonceGap) p = p.
Proof.
  intros H L1 L2. destruct p as [spm s]. pose proof (waiting_count chain spare _ (history_ok _ _ _ H)) as C. cbn [fst] in C.
  unfold checkEWLSizeAndReset, EvictionWaitingListCacheLen. cbn [fst snd]. destruct (isPruningEnabled ctx); [|done]. cbn [negb].
  enough (E : Z.of_nat (CacheLen (dbEvictionWaitingList spm)) <= computeEWLResetThreshold maxProposalNonceGap)
    by (destruct (Z.ltb_spec (computeEWLResetThreshold maxProposalNonceGap) (Z.of_nat (CacheLen (dbEvictionWaitingList spm)))); [lia|done]).
  unfold computeEWLResetThreshold, maxGapForEWLThreshold, ewlEntriesPerResult, ewlTolerancePercent, ewlThresholdMinBaseline, u64 in *.
  set (gap := if 250 <? maxProposalNonceGap then 250 else maxProposalNonceGap).
  assert (B : Z.of_nat (length chain) <= gap <= 250) by (unfold gap; destruct (Z.ltb_spec 250 maxProposalNonceGap); lia).
  rewrite (Z.mod_small (gap * 2)), (Z.mod_small (gap * 2 * 130)) by lia.
  assert (2 * gap <= gap * 2 * 130 / 100) by (apply Z.div_le_lower_bound; lia). lia.
Qed.

(** The execution results of a settled header become final one after another. *)
Lemma history_settled ctx a results chain spare p : isPruningEnabled ctx = true -> history (a :: results.*2 ++ chain) spare p ->
  exists spare', history (List.last results.*2 a :: chain) spare' (pruneTrieHeaderV3 ctx a results p).
Proof.
  intros En. unfold pruneTrieHeaderV3. rewrite En. cbn [negb]. revert a spare p. induction results as [|[nonce b] results IH]; intros a spare p H.
  { by exists spare. }
  cbn [pruneTrieHeaderV3_loop]. cbn [fmap list_fmap snd app] in H. apply (history_final a b _ spare ctx nonce) in H; [|done].
  unfold updateStateStorage in H. rewrite En in H. cbn [negb] in H. destruct (IH b _ _ H) as [spare' H']. exists spare'.
  change (((nonce, b) :: results).*2) with (b :: results.*2).
  replace (List.last (b :: results.*2) a) with (List.last results.*2 b); [exact H'|].
  clear. revert a b. induction results as [|[? c] results IH]; intros a b; [done|]. cbn [fmap list_fmap snd].
  change (List.last (c :: results.*2) b = List.last (c :: results.*2) a). by rewrite <- (IH a c), <- (IH b c).
Qed.
End Pruning.

(** ** A concrete storage *)

Record exStore := {
  es_blocked : bool;
  es_nodes : gset bytes;
}.

#[export] Instance exManager : TrieStorageManager exStore := {|
  IsPruningBlocked := es_blocked;
  Remove key := fun s => ({| es_blocked := es_blocked s; es_nodes := es_nodes s ∖ {[key]} |}, Ok ());
|}.

Lemma exManager_remove key s : exists s', Remove key s = (s', Ok ()) /\ IsPruningBlocked s' = IsPruningBlocked s /\
  forall h, h ∈ es_nodes s' <-> h ∈ es_nodes s /\ h <> key.
Proof. eexists. split; [done|]. split; [done|]. intros h. cbn. set_solver. Qed.

#[export] Instance exManager_ok : TrieStorageManagerOk exStore := {| Stored s h := h ∈ es_nodes s; Remove_ok := exManager_remove |}.

(** Four states; the third has a node of the first again, and so has the
    fourth. *)
Definition ex_state_nodes (root : bytes) : gset bytes :=
  match root with
  | [1] => {[ [11]; [12]; [13] ]}
  | [2] => {[ [11]; [14] ]}
  | [3] => {[ [12]; [14]; [15] ]}
  | [4] => {[ [12]; [13]; [16] ]}
  | _ => ∅
  end.

Definition exPair : Type := storagePruningManager * exStore.
(** A block that leads from one state to another. *)
Definition ex_block (old new : bytes) (p : exPair) : exPair :=
  (spm_MarkForEviction old new (ex_state_nodes old) (ex_state_nodes new) (fst p),
   {| es_blocked := es_blocked (snd p); es_nodes := es_nodes (snd p) ∪ ex_state_nodes new |}).
Definition ex_setBlocked (blocked : bool) (p : exPair) : exPair :=
  (fst p, {| es_blocked := blocked; es_nodes := es_nodes (snd p) |}).
Definition ex_start : exPair :=
  (NewStoragePruningManager {| cache := ∅; reversedCache := ∅; rootHashesSize := 10; hashesSize := 20 |} 10,
   {| es_blocked := false; es_nodes := ex_state_nodes [1] |}).

Definition ex_context : pruningContext :=
  {| isPruningEnabled := true; lastRestartNonce := 0; pruningDelay := 2; closingNodeStarted := false |}.
Definition ex_header (root : bytes) : headerRoots :=
  {| headerRootHash := root; scheduledRootHash := None; startScheduledRootHash := None |}.
Definition ex_rollback (curr prev : bytes) : exPair -> exPair := PruneStateOnRollback ex_context 7 (ex_header curr) (ex_header prev).
Definition ex_final (curr prev : bytes) : exPair -> exPair := updateStateStorage ex_context 7 curr prev.

(** Two blocks, the second is rolled back, another takes its place, and the
    first becomes final. *)
Definition ex_pruned : exPair :=
  ex_final [2] [1] (ex_block [2] [4] (ex_rollback [3] [2] (ex_block [2] [3] (ex_block [1] [2] ex_start)))).

Lemma ex_block_history chain a b p : history ex_state_nodes (chain ++ [a]) ∅ p -> b ∉ chain ++ [a] -> b <> [] ->
  roomFor ex_state_nodes (chain ++ [a; b]) (dbEvictionWaitingList (fst p)) -> es_blocked (snd p) = false ->
  history ex_state_nodes (chain ++ [a; b]) ∅ (ex_block a b p).
Proof.
  destruct p as [spm s]. intros H N Ne R F. eapply history_commit; try done. intros h. cbn. by rewrite elem_of_union.
Qed.

Lemma storage_holds_live_states_witness : exists spm s,
  ex_pruned = (spm, s) /\ history ex_state_nodes [[2]; [4]] ∅ (spm, s) /\
  (forall h, h ∈ liveNodes ex_state_nodes [[2]; [4]] -> Stored s h) /\ es_nodes s = {[ [11]; [14]; [12]; [13]; [16] ]}.
Proof.
  assert (H : history ex_state_nodes [[2]; [4]] ∅ ex_pruned).
  { apply (history_final _ [1] [2] [[4]] ∅ ex_context 7); [|done].
    apply (ex_block_history [[1]] [2] [4]); [|by apply (bool_decide_eq_true_1 _); vm_compute|done| |by vm_compute].
    - apply (history_rollback _ [[1]] [2] [3] ∅ ex_context 7 (ex_header [3]) (ex_header [2])); [|done..].
      apply (ex_block_history [[1]] [2] [3]); [|by apply (bool_decide_eq_true_1 _); vm_compute|done| |by vm_compute].
      + apply (ex_block_history [] [1] [2]); [|by apply (bool_decide_eq_true_1 _); vm_compute|done| |by vm_compute].
        * eapply (history_start _ [1] 10 20); [done..|]. intros h. unfold liveNodes. cbn. set_solver.
        * by vm_compute.
      + by vm_compute.
    - by vm_compute. }
  destruct ex_pruned as [spm s] eqn:E. exists spm, s. split; [done|]. split; [done|].
  split; [exact (proj1 (storage_holds_live_states ex_state_nodes [[2]; [4]] ∅ spm s H))|].
  change s with (snd (spm, s)). rewrite <- E. by vm_compute.
Defined.

(** A block is rolled back, or its results are dismissed, while pruning is
    blocked, and another block takes its place: the list then has two
    references to the entry of the first block, and pruning removes a node that
    the new block still has. *)
Definition ex_replaced (leave : exPair -> exPair) : exPair :=
  ex_setBlocked false (ex_block [1] [4] (leave (ex_setBlocked true (ex_block [1] [2] ex_start)))).

Lemma blocked_rollback_loses_node :
  let nodeLost p := bool_decide (ex_state_nodes [4] ⊆ es_nodes (snd p)) &&
    negb (bool_decide ([12] ∈ es_nodes (snd (ex_final [4] [1] p)))) in
  bool_decide ([12] ∈ ex_state_nodes [4]) = true /\
  nodeLost (ex_replaced (ex_rollback [2] [1])) = true /\
  nodeLost (ex_replaced (cancelPruneForDismissedExecutionResults ex_context [(Some [1], [[2]])])) = true.
Proof. by vm_compute. Qed.
