(* ===== verification/Selection.v ===== *)
(** * Selection of the consensus group (expandedListSampling.go, selectionBasedProvider.go)

    A validator appears in the expanded list as often as its chances say.  The
    provider draws from that list and, instead of cutting the drawn validator
    out of it, keeps the segments of the drawn validators and moves every later
    index past them. *)

From Stdlib Require Import ZArith Lia.
From stdpp Require Import base gmap list.
From S2P Require Import Prelude Validators.

(** [hashing.Hasher] of the nodes coordinator. *)
Class SelectionHasher := selection_Compute : bytes -> bytes.

Definition minWeight : Z := 1.

Record validatorEntry := {
  startIndex : Z;
  numAppearances : Z;
}.

Record SelectionBasedProvider := {
  sortedSlice : list validatorEntry;
  size : Z;
}.

Definition NewSelectionBasedProvider : SelectionBasedProvider := {| sortedSlice := []; size := 0 |}.

(** The random selector; the hasher is a parameter. *)
Record selectorExpandedList := {
  expandedList : list Z;
  uniqueItems : Z;
}.

(** ** The segment of a validator in the expanded list *)

(** [for i := idx - 1; i >= 0; i--], from [i] = [n] - 1. *)
Fixpoint startIdx_loop (n : nat) (expEligibleList : list Z) (val : Z) : Z :=
  match n with
  | O => 0
  | S i => if bool_decide (expEligibleList !! i = Some val) then startIdx_loop i expEligibleList val
           else Z.of_nat i + 1
  end.

(** [for i := idx + 1; i < listLen; i++], on the list from [i] on. *)
Fixpoint endIdx_loop (i : Z) (rest : list Z) (val listLen : Z) : Z :=
  match rest with
  | [] => listLen - 1
  | x :: rest => if x =? val then endIdx_loop (i + 1) rest val listLen else i - 1
  end.

Definition computeStartIndexAndNumAppearancesForValidator (expEligibleList : list Z) (idx : nat) : Z * Z :=
  let val := nth idx expEligibleList 0 in
  let startIdx := startIdx_loop idx expEligibleList val in
  let endIdx := endIdx_loop (Z.of_nat idx + 1) (drop (S idx) expEligibleList) val
                  (Z.of_nat (length expEligibleList)) in
  (startIdx, endIdx - startIdx + 1).

(** ** The provider *)

(** Inserts before the first entry that does not start earlier. *)
Fixpoint insertEntry (ve : validatorEntry) (sorted : list validatorEntry) : list validatorEntry :=
  match sorted with
  | [] => [ve]
  | e :: rest => if startIndex ve <=? startIndex e then ve :: sorted else e :: insertEntry ve rest
  end.

Definition addToSortedSlice (ve : validatorEntry) (sbp : SelectionBasedProvider) : SelectionBasedProvider :=
  {| sortedSlice := insertEntry ve (sortedSlice sbp); size := size sbp + numAppearances ve |}.

Definition add (expElList : list Z) (index : nat) (sbp : SelectionBasedProvider) : SelectionBasedProvider :=
  let '(startIdx, numAppearances) := computeStartIndexAndNumAppearancesForValidator expElList index in
  addToSortedSlice {| startIndex := startIdx; numAppearances := numAppearances |} sbp.

Definition clean (sbp : SelectionBasedProvider) : SelectionBasedProvider := {| sortedSlice := []; size := 0 |}.

(** [binary.BigEndian.PutUint64] and [Uint64], which reads the first 8 bytes
    and panics when there are fewer. *)
Definition BigEndian_PutUint64 (x : Z) : bytes :=
  List.map (fun k => Z.land (Z.shiftr x (8 * k)) 255) [7; 6; 5; 4; 3; 2; 1; 0].
Definition BigEndian_Uint64 (b : bytes) : option Z :=
  if (length b <? 8)%nat then None
  else Some (fold_left (fun acc x => Z.lor (Z.shiftl acc 8) x) (take 8 b) 0).

Fixpoint adjustIndex_loop (entries : list validatorEntry) (index : Z) : Z :=
  match entries with
  | [] => index
  | entry :: entries =>
      if index <? u64 (startIndex entry) then index
      else adjustIndex_loop entries (u64 (index + u64 (numAppearances entry)))
  end.

Definition adjustIndex (sbp : SelectionBasedProvider) (index : Z) : Z := adjustIndex_loop (sortedSlice sbp) index.

Section Selection.
Context {H : SelectionHasher}.

Definition computeRandomnessAsUint64 (randomness : bytes) (index : Z) : option Z :=
  BigEndian_Uint64 (selection_Compute (BigEndian_PutUint64 (u64 index) ++ randomness)).

(** [for i := int64(0); i < numValidators; i++], with [n] rounds left. *)
Fixpoint Get_loop (n : nat) (i : Z) (randomness : bytes) (expandedEligibleList : list Z) (validators : list Z)
    (sbp : SelectionBasedProvider) : SelectionBasedProvider * result nc_error (list Z) :=
  match n with
  | O => (sbp, Ok validators)
  | S n =>
      match computeRandomnessAsUint64 randomness i with
      | None => (sbp, Err ErrHashTooShort)
      | Some newRandomness =>
          let lenExpandedList := Z.of_nat (length expandedEligibleList) in
          if lenExpandedList <=? size sbp then (sbp, Err ErrInvalidSampleSize) else
          let index := newRandomness mod u64 (lenExpandedList - size sbp) in
          let index := Z.to_nat (adjustIndex sbp index) in
          Get_loop n (i + 1) randomness expandedEligibleList
            (validators ++ [nth index expandedEligibleList 0]) (add expandedEligibleList index sbp)
      end
  end.

Definition Get (randomness : bytes) (numValidators : Z) (expandedEligibleList : list Z)
    : SE SelectionBasedProvider nc_error (list Z) := fun sbp =>
  match randomness with
  | [] => (sbp, Err ErrNilRandomness)
  | _ =>
      if Z.of_nat (length expandedEligibleList) <? numValidators then (sbp, Err ErrInvalidSampleSize) else
      let '(sbp, r) := Get_loop (Z.to_nat numValidators) 0 randomness expandedEligibleList [] sbp in
      (clean sbp, r)
  end.

(** ** The selector *)

(** [for i := 0; i < len(weightList); i++] from the index [i] on. *)
Fixpoint expandList_loop (i : Z) (weightList : list Z) (expandedValidatorList : list Z) : result nc_error (list Z) :=
  match weightList with
  | [] => Ok expandedValidatorList
  | w :: weightList =>
      if w <? minWeight then Err ErrInvalidWeight
      else expandList_loop (i + 1) weightList (expandedValidatorList ++ replicate (Z.to_nat w) (u32 i))
  end.
Definition expandList (weightList : list Z) : result nc_error (list Z) := expandList_loop 0 weightList [].

Definition NewSelectorExpandedList (weightList : list Z) : result nc_error selectorExpandedList :=
  match weightList with
  | [] => Err ErrNilWeights
  | _ =>
      expanded ← expandList weightList;
      Ok {| expandedList := expanded; uniqueItems := u32 (Z.of_nat (length weightList)) |}
  end.

Definition Select (s : selectorExpandedList) (randSeed : bytes) (sampleSize : Z) : result nc_error (list Z) :=
  match randSeed with
  | [] => Err ErrNilRandomness
  | _ =>
      if (sampleSize =? 0) || (uniqueItems s <? sampleSize) then Err ErrInvalidSampleSize
      else (Get randSeed sampleSize (expandedList s) NewSelectionBasedProvider).2
  end.
End Selection.
