(* ===== verification/SelectionSpec.v ===== *)
(** * The selection simulates cutting the expanded list

    The reference cuts a drawn validator out of the expanded list before the
    next draw; the segments that the provider keeps are those of the drawn
    validators, and the moved index is the place of the cut list's element. *)

From Stdlib Require Import ZArith Lia.
From stdpp Require Import base gmap list.
From S2P Require Import Prelude Validators Selection.

(** ** The reference *)

(** The expanded list of the weights [ws] of the validators from [k] on. *)
Fixpoint expandFrom (k : Z) (ws : list Z) : list Z :=
  match ws with
  | [] => []
  | w :: ws => replicate (Z.to_nat w) k ++ expandFrom (k + 1) ws
  end.

(** Draws by the random numbers [rands], cutting the drawn value out of [l]. *)
Fixpoint reslice (rands : list Z) (l : list Z) : list Z :=
  match rands with
  | [] => []
  | r :: rands =>
      match l !! Z.to_nat (r mod Z.of_nat (length l)) with
      | Some v => v :: reslice rands (filter (fun x => x <> v) l)
      | None => []
      end
  end.

(** The segments of the drawn validators. *)
Fixpoint blocks (k off : Z) (ws sel : list Z) : list validatorEntry :=
  match ws with
  | [] => []
  | w :: ws =>
      (if decide (k ∈ sel) then [{| startIndex := off; numAppearances := w |}] else [])
      ++ blocks (k + 1) (off + w) ws sel
  end.

Definition sum (ws : list Z) : Z := foldr Z.add 0 ws.
Definition live (sel l : list Z) : list Z := filter (fun x => x ∉ sel) l.

Abbreviation valid ws := (Forall (fun w => 1 <= w) ws).

Lemma sum_nonneg ws : valid ws -> 0 <= sum ws.
Proof. induction 1; cbn; unfold sum in *; lia. Qed.

Lemma live_app sel l1 l2 : live sel (l1 ++ l2) = live sel l1 ++ live sel l2.
Proof. apply filter_app. Qed.

Lemma live_replicate sel n k : live sel (replicate n k) = if decide (k ∈ sel) then [] else replicate n k.
Proof.
  unfold live. induction n as [|n IH]; cbn [replicate]; [by destruct (decide _)|]. rewrite filter_cons, IH.
  by destruct (decide (k ∈ sel)), (decide (k ∉ sel)).
Qed.

Lemma elem_expandFrom ws : valid ws -> forall k v, v ∈ expandFrom k ws <-> k <= v < k + Z.of_nat (length ws).
Proof.
  induction 1 as [|w ws Hw _ IH]; intros k v; cbn [expandFrom length].
  - split; [by intros ?%elem_of_nil|lia].
  - rewrite elem_of_app, IH, elem_of_replicate. lia.
Qed.

Lemma length_expandFrom ws : valid ws -> forall k, Z.of_nat (length (expandFrom k ws)) = sum ws.
Proof.
  induction 1 as [|w ws Hw _ IH]; intros k; cbn; [done|]. rewrite length_app, length_replicate.
  specialize (IH (k + 1)). fold (sum ws). lia.
Qed.

Lemma expandList_loop_spec ws : valid ws -> forall i acc, 0 <= i -> i + Z.of_nat (length ws) <= 2 ^ 32 ->
  expandList_loop i ws acc = Ok (acc ++ expandFrom i ws).
Proof.
  induction 1 as [|w ws Hw _ IH]; intros i acc Hi B; cbn [expandList_loop expandFrom].
  - by rewrite app_nil_r.
  - unfold minWeight. rewrite (proj2 (Z.ltb_ge _ _) Hw). cbn [length] in B. rewrite IH by lia.
    unfold u32. by rewrite Z.mod_small, <- app_assoc by lia.
Qed.

(** ** The moved index *)

Lemma blocks_start ws sel : valid ws -> forall k off e, e ∈ blocks k off ws sel -> off <= startIndex e.
Proof.
  induction 1 as [|w ws Hw _ IH]; intros k off e; cbn; [by intros ?%elem_of_nil|].
  intros [He|He]%elem_of_app.
  - destruct (decide _); [|by apply elem_of_nil in He]. apply list_elem_of_singleton in He as ->. done.
  - apply IH in He. lia.
Qed.

Lemma adjust_before es index : 0 <= index -> (forall e, e ∈ es -> index < startIndex e < 2 ^ 63) ->
  adjustIndex_loop es index = index.
Proof.
  intros Hi B. destruct es as [|e es]; cbn; [done|]. destruct (B e) as [B1 B2]; [left|].
  unfold u64. rewrite Z.mod_small by lia. by rewrite (proj2 (Z.ltb_lt _ _) B1).
Qed.

Lemma blocks_bound ws sel : valid ws -> forall k off e, e ∈ blocks k off ws sel -> startIndex e <= off + sum ws.
Proof.
  induction 1 as [|w ws Hw V IH]; intros k off e; cbn; [by intros ?%elem_of_nil|]. fold (sum ws).
  intros [He|He]%elem_of_app.
  - destruct (decide _); [|by apply elem_of_nil in He]. apply list_elem_of_singleton in He as ->. cbn.
    pose proof (sum_nonneg _ V). lia.
  - apply IH in He. lia.
Qed.

Lemma adjust_spec ws sel : valid ws -> forall k off i, 0 <= off -> off + sum ws < 2 ^ 63 ->
  (i < length (live sel (expandFrom k ws)))%nat ->
  exists j, adjustIndex_loop (blocks k off ws sel) (off + Z.of_nat i) = off + Z.of_nat j /\
    expandFrom k ws !! j = live sel (expandFrom k ws) !! i.
Proof.
  induction 1 as [|w ws Hw V IH]; intros k off i Ho B; [cbn; lia|]. cbn in B. fold (sum ws) in B.
  pose proof (sum_nonneg _ V) as S0. cbn [expandFrom blocks]. rewrite live_app, live_replicate.
  destruct (decide (k ∈ sel)) as [K|K]; cbn [app]; intros Hi.
  - destruct (IH (k + 1) (off + w) i) as (j & E & L); [lia..|done|].
    assert (Ji : Z.of_nat i < sum ws).
    { rewrite <- (length_expandFrom ws V (k + 1)). pose proof (length_filter (fun x => x ∉ sel) (expandFrom (k + 1) ws)).
      unfold live in Hi. lia. }
    exists (Z.to_nat w + j)%nat. split.
    + cbn [adjustIndex_loop startIndex numAppearances]. unfold u64. rewrite (Z.mod_small off), (Z.mod_small w) by lia.
      rewrite Z.mod_small by lia. rewrite (proj2 (Z.ltb_ge _ _)) by lia.
      replace (off + Z.of_nat i + w) with (off + w + Z.of_nat i) by lia. rewrite E. lia.
    + rewrite lookup_app_r by (rewrite length_replicate; lia). rewrite length_replicate, <- L. f_equal. lia.
  - destruct (decide (i < Z.to_nat w)%nat) as [I|I].
    + exists i. rewrite adjust_before; [|lia|].
      * split; [done|]. by rewrite !lookup_app_l by (by rewrite length_replicate).
      * intros e He. pose proof (blocks_start ws sel V _ _ _ He). pose proof (blocks_bound ws sel V _ _ _ He). lia.
    + rewrite length_app, length_replicate in Hi.
      destruct (IH (k + 1) (off + w) (i - Z.to_nat w)%nat) as (j & E & L); [lia..|].
      exists (Z.to_nat w + j)%nat. split.
      * replace (off + Z.of_nat i) with (off + w + Z.of_nat (i - Z.to_nat w)) by lia. rewrite E. lia.
      * rewrite !lookup_app_r by (rewrite length_replicate; lia). rewrite length_replicate, <- L. f_equal. lia.
Qed.

(** ** The segment of the drawn validator *)

Lemma startIdx_run pre w v post : forall j, v ∉ pre -> (length pre <= j <= length pre + w)%nat ->
  startIdx_loop j (pre ++ replicate w v ++ post) v = Z.of_nat (length pre).
Proof.
  induction j as [|j IH]; intros N B; cbn [startIdx_loop]; [lia|].
  case_bool_decide as E.
  - apply IH; [done|]. destruct (decide (j < length pre)%nat) as [L|L]; [|lia]. exfalso. apply N.
    rewrite lookup_app_l in E by done. by eapply list_elem_of_lookup_2.
  - destruct (decide (j < length pre)%nat) as [L|L]; [lia|]. exfalso. apply E.
    rewrite lookup_app_r, lookup_app_l by (rewrite ?length_replicate; lia). apply lookup_replicate_2. lia.
Qed.

Lemma endIdx_run m v post listLen : v ∉ post -> forall i, listLen = i + Z.of_nat (m + length post) ->
  endIdx_loop i (replicate m v ++ post) v listLen = i + Z.of_nat m - 1.
Proof.
  intros N. induction m as [|m IH]; intros i El; cbn [replicate app endIdx_loop].
  - destruct post as [|x post]; cbn in *; [lia|]. apply not_elem_of_cons in N as [N _].
    rewrite (proj2 (Z.eqb_neq _ _)) by done. lia.
  - rewrite Z.eqb_refl, IH by lia. lia.
Qed.

Lemma drop_run {A} (pre : list A) w v post j : (length pre <= j < length pre + w)%nat ->
  drop (S j) (pre ++ replicate w v ++ post) = replicate (length pre + w - S j) v ++ post.
Proof.
  intros B. rewrite drop_app_ge, drop_app_le by (rewrite ?length_replicate; lia). rewrite drop_replicate.
  do 2 f_equal. lia.
Qed.

Lemma compute_run pre w v post j : v ∉ pre -> v ∉ post -> (length pre <= j < length pre + w)%nat ->
  computeStartIndexAndNumAppearancesForValidator (pre ++ replicate w v ++ post) j
    = (Z.of_nat (length pre), Z.of_nat w).
Proof.
  intros N1 N2 B. unfold computeStartIndexAndNumAppearancesForValidator.
  assert (E : nth j (pre ++ replicate w v ++ post) 0 = v).
  { apply nth_lookup_Some. rewrite lookup_app_r, lookup_app_l by (rewrite ?length_replicate; lia).
    apply lookup_replicate_2. lia. }
  rewrite E, startIdx_run, drop_run by (done || lia). rewrite endIdx_run; [|done|].
  - f_equal. lia.
  - rewrite !length_app, length_replicate. lia.
Qed.

Lemma expandFrom_split ws m w : valid ws -> ws !! m = Some w -> forall k,
  exists pre post, expandFrom k ws = pre ++ replicate (Z.to_nat w) (k + Z.of_nat m) ++ post /\
    Z.of_nat (length pre) = sum (take m ws) /\ k + Z.of_nat m ∉ pre /\ k + Z.of_nat m ∉ post.
Proof.
  intros V. revert m w. induction V as [|x ws Hx V IH]; intros m w E k; [done|].
  destruct m as [|m]; cbn in E.
  - injection E as ->. exists [], (expandFrom (k + 1) ws). rewrite Z.add_0_r. split_and!; [done|done| |].
    + by intros ?%elem_of_nil.
    + rewrite elem_expandFrom by done. lia.
  - destruct (IH m w E (k + 1)) as (pre & post & E1 & L & N1 & N2).
    replace (k + 1 + Z.of_nat m) with (k + Z.of_nat (S m)) in * by lia.
    exists (replicate (Z.to_nat x) k ++ pre), post. split_and!; [by cbn; rewrite E1, <- app_assoc| | |done].
    + cbn. rewrite length_app, length_replicate. fold (sum (take m ws)). lia.
    + rewrite elem_of_app, elem_of_replicate. intros [?|?]; [lia|done].
Qed.

Lemma insert_blocks ws m w sel : valid ws -> ws !! m = Some w -> forall k off,
  k + Z.of_nat m ∉ sel ->
  insertEntry {| startIndex := off + sum (take m ws); numAppearances := w |} (blocks k off ws sel)
    = blocks k off ws (k + Z.of_nat m :: sel).
Proof.
  intros V. revert m w. induction V as [|x ws Hx V IH]; intros m w E k off N; [done|].
  destruct m as [|m]; cbn in E.
  - injection E as ->. cbn. rewrite Z.add_0_r in *. rewrite Z.add_0_r.
    rewrite (decide_True (P := k ∈ k :: sel)) by left. rewrite decide_False by done. cbn.
    assert (Eb : blocks (k + 1) (off + w) ws (k :: sel) = blocks (k + 1) (off + w) ws sel).
    { assert (G : forall l j o, k < j -> blocks j o l (k :: sel) = blocks j o l sel).
      { induction l as [|y l IHl]; intros j o Hj; [done|]. cbn. rewrite IHl by lia. f_equal.
        apply decide_ext. rewrite elem_of_cons. split; [intros [->|?]; [lia|done]|by right]. }
      apply G. lia. }
    rewrite Eb. destruct (blocks (k + 1) (off + w) ws sel) as [|e es] eqn:Be; [done|]. cbn.
    assert (B : off + w <= startIndex e) by (apply (blocks_start ws sel V (k + 1)); rewrite Be; left).
    by rewrite (proj2 (Z.leb_le _ _)) by lia.
  - cbn [take blocks]. cbn [sum foldr]. fold (sum (take m ws)).
    assert (S0 : 0 <= sum (take m ws)) by (apply sum_nonneg, Forall_take, V).
    specialize (IH m w E (k + 1) (off + x)). replace (k + 1 + Z.of_nat m) with (k + Z.of_nat (S m)) in IH by lia.
    replace (off + (x + sum (take m ws))) with (off + x + sum (take m ws)) by lia.
    specialize (IH N).
    rewrite (decide_ext (k ∈ k + Z.of_nat (S m) :: sel) (k ∈ sel)).
    2: { rewrite elem_of_cons. split; [intros [?|?]; [lia|done]|by right]. }
    destruct (decide (k ∈ sel)); cbn [app insertEntry startIndex]; [|exact IH].
    rewrite (proj2 (Z.leb_gt _ _)) by lia. by rewrite IH.
Qed.

(** ** Drawing *)

Lemma live_cons v sel l : live (v :: sel) l = filter (fun x => x <> v) (live sel l).
Proof.
  unfold live. rewrite list_filter_filter. apply list_filter_iff. intros x. rewrite not_elem_of_cons. done.
Qed.

Lemma live_none (v : Z) (l : list Z) : v ∉ l -> filter (fun x => x <> v) l = l.
Proof.
  intros N. induction l as [|x l IH]; [done|]. apply not_elem_of_cons in N as [N1 N2].
  rewrite filter_cons, decide_True by done. by rewrite IH.
Qed.

Lemma live_nil l : live [] l = l.
Proof.
  unfold live. induction l as [|x l IH]; [done|].
  rewrite filter_cons, decide_True by apply not_elem_of_nil. by rewrite IH.
Qed.

Lemma cut_length ws m w sel : valid ws -> ws !! m = Some w -> Z.of_nat m ∉ sel ->
  Z.of_nat (length (live (Z.of_nat m :: sel) (expandFrom 0 ws))) = Z.of_nat (length (live sel (expandFrom 0 ws))) - w.
Proof.
  intros V E N. destruct (expandFrom_split ws m w V E 0) as (pre & post & -> & _ & N1 & N2). rewrite ?Z.add_0_l in *.
  assert (Hw : 1 <= w) by (eapply Forall_lookup_1 in V; done).
  assert (L : forall l, Z.of_nat m ∉ l -> live (Z.of_nat m :: sel) l = live sel l).
  { intros l Nl. rewrite live_cons. apply live_none. unfold live. by intros [_ ?]%list_elem_of_filter. }
  rewrite !live_app, (L pre), (L post), !live_replicate by done. rewrite decide_True by left. rewrite decide_False by done.
  rewrite !length_app, length_replicate. cbn. lia.
Qed.

(** What the provider holds when the validators [sel] were drawn. *)
Record drawn (ws sel : list Z) (sbp : SelectionBasedProvider) : Prop := {
  dr_slice : sortedSlice sbp = blocks 0 0 ws sel;
  dr_size : size sbp = sum ws - Z.of_nat (length (live sel (expandFrom 0 ws)));
}.

Lemma drawn_nil ws : valid ws -> drawn ws [] NewSelectionBasedProvider.
Proof.
  intros V. split; cbn.
  - generalize 0 at 1. generalize 0. induction ws as [|w ws IH]; intros z k; [done|]. cbn.
    rewrite decide_False by (by intros ?%elem_of_nil). apply IH. by inversion V.
  - rewrite live_nil, (length_expandFrom ws V). lia.
Qed.

Lemma add_drawn ws sel sbp j v : valid ws -> drawn ws sel sbp -> v ∉ sel -> expandFrom 0 ws !! j = Some v ->
  drawn ws (v :: sel) (add (expandFrom 0 ws) j sbp).
Proof.
  intros V [Sl Sz] N E. pose proof (list_elem_of_lookup_2 _ _ _ E) as Hv.
  apply (elem_expandFrom ws V) in Hv. destruct (Z_of_nat_complete v) as [m ->]; [lia|].
  destruct (lookup_lt_is_Some_2 ws m) as [w Ew]; [lia|].
  assert (Hw : 1 <= w) by (eapply Forall_lookup_1 in V; done).
  pose proof (cut_length ws m w sel V Ew N) as C.
  destruct (expandFrom_split ws m w V Ew 0) as (pre & post & E1 & L & N1 & N2). rewrite ?Z.add_0_l in *.
  assert (B : (length pre <= j < length pre + Z.to_nat w)%nat).
  { rewrite E1 in E. destruct (decide (j < length pre)%nat) as [B|B].
    - rewrite lookup_app_l in E by done. apply list_elem_of_lookup_2 in E. done.
    - split; [lia|]. destruct (decide (j < length pre + Z.to_nat w)%nat) as [B2|B2]; [done|].
      rewrite !lookup_app_r in E by (rewrite ?length_replicate; lia). by apply list_elem_of_lookup_2 in E. }
  unfold add. rewrite E1 at 1. rewrite (compute_run pre (Z.to_nat w) (Z.of_nat m) post j N1 N2 B).
  split; cbn [addToSortedSlice sortedSlice size numAppearances].
  - rewrite Sl, L, Z2Nat.id by lia. apply (insert_blocks ws m w sel V Ew 0 0). done.
  - rewrite Sz, C. lia.
Qed.

Section Draw.
Context {H : SelectionHasher}.
(** Hashes have at least the 8 bytes that are read. *)
Context (Hlen : forall b, (8 <= length (selection_Compute b))%nat).

Definition draw (randomness : bytes) (i : Z) : Z := default 0 (computeRandomnessAsUint64 randomness i).

Lemma draw_Some randomness i : computeRandomnessAsUint64 randomness i = Some (draw randomness i).
Proof.
  unfold draw, computeRandomnessAsUint64, BigEndian_Uint64.
  by rewrite (proj2 (Nat.ltb_ge _ _) (Hlen _)).
Qed.

Definition draws (randomness : bytes) (i : Z) (n : nat) : list Z :=
  List.map (fun j => draw randomness (i + Z.of_nat j)) (seq 0 n).

Lemma draws_S randomness i n : draws randomness i (S n) = draw randomness i :: draws randomness (i + 1) n.
Proof.
  unfold draws. cbn [seq List.map]. rewrite Z.add_0_r. f_equal.
  rewrite <- seq_shift, map_map. apply map_ext. intros j. f_equal. lia.
Qed.

Lemma Get_loop_spec ws randomness : valid ws -> sum ws < 2 ^ 63 -> forall n i sel vals sbp,
  drawn ws sel sbp -> NoDup sel -> (forall v, v ∈ sel -> 0 <= v < Z.of_nat (length ws)) ->
  (n + length sel <= length ws)%nat ->
  (Get_loop n i randomness (expandFrom 0 ws) vals sbp).2
    = Ok (vals ++ reslice (draws randomness i n) (live sel (expandFrom 0 ws))).
Proof.
  intros V B. induction n as [|n IH]; intros i sel vals sbp D ND Rg Ln.
  - cbn. by rewrite app_nil_r.
  - cbn [Get_loop]. rewrite draw_Some, draws_S. cbn [reslice].
    set (l := live sel (expandFrom 0 ws)) in *. pose proof (length_expandFrom ws V 0) as Le.
    assert (Lpos : (0 < length l)%nat).
    { destruct l as [|x l'] eqn:El; [|cbn; lia]. exfalso.
      assert (Sub : List.map Z.of_nat (seq 0 (length ws)) ⊆+ sel).
      { apply NoDup_submseteq; [apply NoDup_fmap_2; [apply _|apply NoDup_seq]|].
        intros v (m & -> & Hm%elem_of_seq)%list_elem_of_fmap. apply dec_stable. intros Nv.
        assert (X : Z.of_nat m ∈ l) by (apply list_elem_of_filter; split; [done|apply elem_expandFrom; [done|lia]]).
        rewrite El in X. by apply elem_of_nil in X. }
      apply submseteq_length in Sub. rewrite length_map, length_seq in Sub. lia. }
    assert (Lf : (length l <= length (expandFrom 0 ws))%nat) by apply length_filter.
    rewrite (dr_size _ _ _ D), Le. fold l. rewrite (proj2 (Z.leb_gt _ _)) by lia.
    replace (u64 (sum ws - (sum ws - Z.of_nat (length l)))) with (Z.of_nat (length l))
      by (unfold u64; rewrite Z.mod_small; lia).
    set (r := draw randomness i mod _). assert (Br : 0 <= r < Z.of_nat (length l)) by (apply Z.mod_pos_bound; lia).
    destruct (adjust_spec ws sel V 0 0 (Z.to_nat r)) as (j & Ej & Lj); [lia|lia|fold l; lia|].
    unfold adjustIndex. rewrite (dr_slice _ _ _ D). rewrite !Z.add_0_l, Z2Nat.id in Ej by lia. rewrite Ej, Nat2Z.id.
    destruct (lookup_lt_is_Some_2 l (Z.to_nat r)) as [v Ev]; [lia|]. rewrite Ev. fold l in Lj. rewrite Ev in Lj.
    assert (Hv : v ∉ sel /\ v ∈ expandFrom 0 ws) by (apply list_elem_of_lookup_2 in Ev; by apply list_elem_of_filter in Ev).
    rewrite (nth_lookup_Some _ _ 0 v Lj), (IH (i + 1) (v :: sel)).
    + rewrite <- app_assoc. cbn. by rewrite live_cons.
    + apply add_drawn; [done..|apply Hv|done].
    + constructor; [apply Hv|done].
    + intros u [->|Hu]%elem_of_cons; [|by apply Rg]. destruct Hv as [_ Hv]. apply (elem_expandFrom ws V) in Hv. lia.
    + cbn. lia.
Qed.
End Draw.

(** ** The reference draws different values *)

Lemma reslice_sub rands : forall l v, v ∈ reslice rands l -> v ∈ l.
Proof.
  induction rands as [|r rands IH]; intros l v; cbn; [by intros ?%elem_of_nil|].
  destruct (l !! _) as [x|] eqn:E; [|by intros ?%elem_of_nil]. intros [->|Hv]%elem_of_cons.
  - by eapply list_elem_of_lookup_2.
  - by apply IH, list_elem_of_filter in Hv as [_ Hv].
Qed.

Lemma reslice_NoDup rands : forall l, NoDup (reslice rands l).
Proof.
  induction rands as [|r rands IH]; intros l; cbn; [constructor|].
  destruct (l !! _) as [x|] eqn:E; [|constructor]. constructor; [|apply IH].
  by intros [? _]%reslice_sub%list_elem_of_filter.
Qed.

Lemma reslice_length rands : forall l (u : list Z), NoDup u -> (forall v, v ∈ u -> v ∈ l) ->
  (length rands <= length u)%nat -> length (reslice rands l) = length rands.
Proof.
  induction rands as [|r rands IH]; intros l u ND Su Ln; cbn; [done|]. cbn in Ln.
  destruct (lookup_lt_is_Some_2 l (Z.to_nat (r mod Z.of_nat (length l)))) as [x Ex].
  { destruct u as [|y u]; [cbn in Ln; lia|]. destruct l as [|z l]; [by destruct (not_elem_of_nil y (Su y ltac:(left)))|].
    pose proof (Z.mod_pos_bound r (Z.of_nat (length (z :: l)))). cbn in *. lia. }
  rewrite Ex. cbn. f_equal. apply (IH _ (filter (fun y => y <> x) u)).
  - by apply NoDup_filter.
  - intros v [? ?]%list_elem_of_filter. apply list_elem_of_filter. auto.
  - assert (C : (length u <= S (length (filter (fun y => y <> x) u)))%nat); [|lia].
    clear -ND. induction ND as [|y u Ny ND IHu]; [cbn; lia|]. rewrite filter_cons. destruct (decide (y <> x)) as [?|E].
    + cbn. lia.
    + apply dec_stable in E as ->. rewrite live_none by done. cbn. lia.
Qed.
