(* ===== verification/NodesCoordinator.v ===== *)
(** * The nodes coordinator (indexHashedNodesCoordinator.go and its variants)

    Which validators each shard has in each stored epoch, which of them form
    the consensus group of a round, and how the lists of the next epoch follow
    from the validator infos of an epoch start block.  The coordinator with
    rater replaces three helper methods; the chance computer of the rater is
    [None] for the coordinator without.  Locks are left out: the methods run
    one at a time. *)

From Stdlib Require Import ZArith Lia String Ascii.
From stdpp Require Import base gmap list sorting strings fin_maps.
From S2P Require Import Prelude GoValues Config Validators Shuffler Selection.

Definition defaultSelectionChances : Z := 1.
Definition minEpochsToWait : Z := 1.
Definition leaderSelectionSize : Z := 1.
Definition maxRandomnessSize : Z := 48.
Definition nodesCoordinatorStoredEpochs : Z := 4.

Record savedConsensusGroup := {
  leader : Validator;
  consensusGroup : list Validator;
}.

Record epochNodesConfig := {
  cfg_nbShards : Z;
  cfg_shardID : Z;
  eligibleMap : ShardMap;
  waitingMap : ShardMap;
  selectors : gmap Z selectorExpandedList;
  leavingMap : ShardMap;
  shuffledOutMap : ShardMap;
  newList : list Validator;
  auctionList : list Validator;
  cfg_lowWaitingList : bool;
}.

Definition emptyNodesConfig : epochNodesConfig :=
  {| cfg_nbShards := 0; cfg_shardID := 0; eligibleMap := ∅; waitingMap := ∅; selectors := ∅; leavingMap := ∅;
     shuffledOutMap := ∅; newList := []; auctionList := []; cfg_lowWaitingList := false |}.

(** [state.ShardValidatorInfo] *)
Record ShardValidatorInfo := {
  PublicKey : option bytes;
  ShardId : Z;
  ListName : string;
  vi_Index : Z;
  TempRating : Z;
  PreviousList : string;
  PreviousIndex : Z;
}.

(** The cache of consensus groups: it may forget entries. *)
Class Cacher (C : Type) := {
  cache_Get : bytes -> C -> option savedConsensusGroup;
  cache_Put : bytes -> savedConsensusGroup -> C -> C;
  cache_Clear : C -> C;
}.

(** The other components the coordinator is built with. *)
Class CoordinatorEnv := {
  ChainParametersForEpoch : Z -> option ChainParametersByEpochConfig;
  CurrentChainParameters : ChainParametersByEpochConfig;
  AndromedaFlag : Z -> bool;
  StakingV4Step1EnableEpoch : Z;
  StakingV4Step2Epoch : Z;
  RefactorPeersMiniBlocksFlag : Z -> bool;
  GetValidatorInfo : bytes -> result nc_error ShardValidatorInfo;
  UnmarshalValidatorInfo : bytes -> result nc_error ShardValidatorInfo;
  MinMetaHysteresisNodes : Z;
  MinShardHysteresisNodes : Z;
  (** the rater's [ChanceComputer], when there is a rater *)
  chanceComputer : option (Z -> Z);
}.

Record indexHashedNodesCoordinator {C B : Type} := {
  shardIDAsObserver : Z;
  currentEpoch : Z;
  numTotalEligible : Z;
  selfPubKey : bytes;
  savedStateKey : bytes;
  shuffler : randHashShuffler;
  bootStorer : B;
  nodesConfig : gmap Z epochNodesConfig;
  consensusGroupCacher : C;
  startEpoch : Z;
  publicKeyToValidatorMap : gmap bytes (Validator * Z);
  isFullArchive : bool;
  stopRequests : nat;        (** values sent on [chanStopNode] *)
  isValidatorNode : bool;    (** the type set in the node type provider *)
  flagStakingV4Started : bool;
  nc_flagStakingV4Step2 : bool;
}.
Arguments indexHashedNodesCoordinator : clear implicits.

Section Setters.
Context {C B : Type}.
Implicit Types (s : indexHashedNodesCoordinator C B).

Definition nc_with_nodesConfig (m : gmap Z epochNodesConfig) s : indexHashedNodesCoordinator C B :=
  {| shardIDAsObserver := shardIDAsObserver s; currentEpoch := currentEpoch s;
     numTotalEligible := numTotalEligible s; selfPubKey := selfPubKey s; savedStateKey := savedStateKey s;
     shuffler := shuffler s; bootStorer := bootStorer s; nodesConfig := m; consensusGroupCacher := consensusGroupCacher s;
     startEpoch := startEpoch s; publicKeyToValidatorMap := publicKeyToValidatorMap s;
     isFullArchive := isFullArchive s; stopRequests := stopRequests s; isValidatorNode := isValidatorNode s;
     flagStakingV4Started := flagStakingV4Started s; nc_flagStakingV4Step2 := nc_flagStakingV4Step2 s |}.
Definition nc_with_keys (k : bytes) (m : gmap bytes (Validator * Z)) s : indexHashedNodesCoordinator C B :=
  {| shardIDAsObserver := shardIDAsObserver s; currentEpoch := currentEpoch s;
     numTotalEligible := numTotalEligible s; selfPubKey := selfPubKey s; savedStateKey := k;
     shuffler := shuffler s; bootStorer := bootStorer s; nodesConfig := nodesConfig s; consensusGroupCacher := consensusGroupCacher s;
     startEpoch := startEpoch s; publicKeyToValidatorMap := m;
     isFullArchive := isFullArchive s; stopRequests := stopRequests s; isValidatorNode := isValidatorNode s;
     flagStakingV4Started := flagStakingV4Started s; nc_flagStakingV4Step2 := nc_flagStakingV4Step2 s |}.
Definition nc_with_cache (c : C) s : indexHashedNodesCoordinator C B :=
  {| shardIDAsObserver := shardIDAsObserver s; currentEpoch := currentEpoch s;
     numTotalEligible := numTotalEligible s; selfPubKey := selfPubKey s; savedStateKey := savedStateKey s;
     shuffler := shuffler s; bootStorer := bootStorer s; nodesConfig := nodesConfig s; consensusGroupCacher := c;
     startEpoch := startEpoch s; publicKeyToValidatorMap := publicKeyToValidatorMap s;
     isFullArchive := isFullArchive s; stopRequests := stopRequests s; isValidatorNode := isValidatorNode s;
     flagStakingV4Started := flagStakingV4Started s; nc_flagStakingV4Step2 := nc_flagStakingV4Step2 s |}.
Definition nc_with_shuffler (r : randHashShuffler) s : indexHashedNodesCoordinator C B :=
  {| shardIDAsObserver := shardIDAsObserver s; currentEpoch := currentEpoch s;
     numTotalEligible := numTotalEligible s; selfPubKey := selfPubKey s; savedStateKey := savedStateKey s;
     shuffler := r; bootStorer := bootStorer s; nodesConfig := nodesConfig s; consensusGroupCacher := consensusGroupCacher s;
     startEpoch := startEpoch s; publicKeyToValidatorMap := publicKeyToValidatorMap s;
     isFullArchive := isFullArchive s; stopRequests := stopRequests s; isValidatorNode := isValidatorNode s;
     flagStakingV4Started := flagStakingV4Started s; nc_flagStakingV4Step2 := nc_flagStakingV4Step2 s |}.
Definition nc_with_epoch (e : Z) s : indexHashedNodesCoordinator C B :=
  {| shardIDAsObserver := shardIDAsObserver s; currentEpoch := e;
     numTotalEligible := numTotalEligible s; selfPubKey := selfPubKey s; savedStateKey := savedStateKey s;
     shuffler := shuffler s; bootStorer := bootStorer s; nodesConfig := nodesConfig s; consensusGroupCacher := consensusGroupCacher s;
     startEpoch := startEpoch s; publicKeyToValidatorMap := publicKeyToValidatorMap s;
     isFullArchive := isFullArchive s; stopRequests := stopRequests s; isValidatorNode := isValidatorNode s;
     flagStakingV4Started := flagStakingV4Started s; nc_flagStakingV4Step2 := nc_flagStakingV4Step2 s |}.
Definition nc_with_node (total : Z) (isValidator : bool) (stops : nat) s : indexHashedNodesCoordinator C B :=
  {| shardIDAsObserver := shardIDAsObserver s; currentEpoch := currentEpoch s;
     numTotalEligible := total; selfPubKey := selfPubKey s; savedStateKey := savedStateKey s;
     shuffler := shuffler s; bootStorer := bootStorer s; nodesConfig := nodesConfig s; consensusGroupCacher := consensusGroupCacher s;
     startEpoch := startEpoch s; publicKeyToValidatorMap := publicKeyToValidatorMap s;
     isFullArchive := isFullArchive s; stopRequests := stops; isValidatorNode := isValidator;
     flagStakingV4Started := flagStakingV4Started s; nc_flagStakingV4Step2 := nc_flagStakingV4Step2 s |}.
Definition nc_with_storer (b : B) s : indexHashedNodesCoordinator C B :=
  {| shardIDAsObserver := shardIDAsObserver s; currentEpoch := currentEpoch s;
     numTotalEligible := numTotalEligible s; selfPubKey := selfPubKey s; savedStateKey := savedStateKey s;
     shuffler := shuffler s; bootStorer := b; nodesConfig := nodesConfig s; consensusGroupCacher := consensusGroupCacher s;
     startEpoch := startEpoch s; publicKeyToValidatorMap := publicKeyToValidatorMap s;
     isFullArchive := isFullArchive s; stopRequests := stopRequests s; isValidatorNode := isValidatorNode s;
     flagStakingV4Started := flagStakingV4Started s; nc_flagStakingV4Step2 := nc_flagStakingV4Step2 s |}.
Definition nc_with_flags (started step2 : bool) s : indexHashedNodesCoordinator C B :=
  {| shardIDAsObserver := shardIDAsObserver s; currentEpoch := currentEpoch s;
     numTotalEligible := numTotalEligible s; selfPubKey := selfPubKey s; savedStateKey := savedStateKey s;
     shuffler := shuffler s; bootStorer := bootStorer s; nodesConfig := nodesConfig s; consensusGroupCacher := consensusGroupCacher s;
     startEpoch := startEpoch s; publicKeyToValidatorMap := publicKeyToValidatorMap s;
     isFullArchive := isFullArchive s; stopRequests := stopRequests s; isValidatorNode := isValidatorNode s;
     flagStakingV4Started := started; nc_flagStakingV4Step2 := step2 |}.
End Setters.

(** [searchInMap]: the shard of the first match in the order of the map. *)
Definition searchShard (validatorMap : ShardMap) (pk : bytes) : option Z :=
  fst <$> List.find (fun kv : Z * list Validator => existsb (fun val => bool_decide (PubKey val = pk)) kv.2)
    (map_to_list validatorMap).

Definition nc_isValidator (config : epochNodesConfig) (pk : bytes) : bool :=
  searchInMap (eligibleMap config) pk || searchInMap (waitingMap config) pk.

Section Coordinator.
Context {C B : Type} {CC : Cacher C} {Env : CoordinatorEnv} {SH : ShuffleHasher} {H : SelectionHasher}.
Abbreviation NC := (indexHashedNodesCoordinator C B).
Implicit Types (s : NC).

(** ** The helper of the coordinator, with and without rater *)

Definition GetChance (rating : Z) : Z :=
  match chanceComputer with Some f => f rating | None => defaultSelectionChances end.

Definition ValidatorsWeights (validators : list Validator) : list Z :=
  match chanceComputer with
  | None => List.map (fun _ => defaultSelectionChances) validators
  | Some f => List.map (fun v => if Chances v <? f 0 then f 0 else Chances v) validators
  end.

Fixpoint ComputeAdditionalLeaving_loop (f : Z -> Z) (allValidators : list ShardValidatorInfo)
    (extraLeavingNodesMap : ShardMap) : result nc_error ShardMap :=
  match allValidators with
  | [] => Ok extraLeavingNodesMap
  | vInfo :: allValidators =>
      if bool_decide (ListName vInfo = InactiveList) || bool_decide (ListName vInfo = JailedList)
      then ComputeAdditionalLeaving_loop f allValidators extraLeavingNodesMap else
      let chances := f (TempRating vInfo) in
      if chances <? f 0 then
        val ← NewValidator (PublicKey vInfo) chances (vi_Index vInfo);
        ComputeAdditionalLeaving_loop f allValidators
          (<[ShardId vInfo := listOf extraLeavingNodesMap (ShardId vInfo) ++ [val]]> extraLeavingNodesMap)
      else ComputeAdditionalLeaving_loop f allValidators extraLeavingNodesMap
  end.

Definition ComputeAdditionalLeaving (allValidators : list ShardValidatorInfo) : result nc_error ShardMap :=
  match chanceComputer with
  | None => Ok ∅
  | Some f => ComputeAdditionalLeaving_loop f allValidators ∅
  end.

(** ** The lists of an epoch *)

(** [ChainParametersForEpoch] with the current parameters as a fall-back. *)
Definition chainParametersOr (epoch : Z) : ChainParametersByEpochConfig :=
  default CurrentChainParameters (ChainParametersForEpoch epoch).

Definition ConsensusGroupSizeForShardAndEpoch (shardID epoch : Z) : Z :=
  if shardID =? MetachainShardId then MetachainConsensusGroupSize (chainParametersOr epoch)
  else ShardConsensusGroupSize (chainParametersOr epoch).

Fixpoint createSelectors_loop (lists : list (Z * list Validator)) (acc : gmap Z selectorExpandedList)
    : result nc_error (gmap Z selectorExpandedList) :=
  match lists with
  | [] => Ok acc
  | (shard, vList) :: lists =>
      selector ← NewSelectorExpandedList (ValidatorsWeights vList);
      createSelectors_loop lists (<[shard := selector]> acc)
  end.

Definition createSelectors (nodesConfig : epochNodesConfig) : result nc_error (gmap Z selectorExpandedList) :=
  createSelectors_loop (map_to_list (eligibleMap nodesConfig)) ∅.

(** The shard and whether the node is a validator. *)
Definition computeShardForSelfPublicKey (nodesCfg : epochNodesConfig) s : Z * bool :=
  let pubKey := selfPubKey s in
  let selfShard := match nodesConfig s !! currentEpoch s with
                   | Some epNodesConfig => cfg_shardID epNodesConfig
                   | None => shardIDAsObserver s
                   end in
  match searchShard (eligibleMap nodesCfg) pubKey with Some shardId => (shardId, true) | None =>
  match searchShard (waitingMap nodesCfg) pubKey with Some shardId => (shardId, true) | None =>
  match searchShard (leavingMap nodesCfg) pubKey with Some shardId => (shardId, true) | None =>
  if nc_flagStakingV4Step2 s then
    match searchShard (shuffledOutMap nodesCfg) pubKey with
    | Some shardId => (shardId, true)
    | None => (selfShard, false)
    end
  else (selfShard, false)
  end end end.

(** The check of every shard below [uint32(len(eligible)-1)], and the sum. *)
Fixpoint countEligible_loop (shards : list Z) (eligible : ShardMap) (groupSize numTotalEligible : Z)
    : result nc_error Z :=
  match shards with
  | [] => Ok numTotalEligible
  | shardId :: shards =>
      let nbNodesShard := Z.of_nat (length (listOf eligible shardId)) in
      if nbNodesShard <? groupSize then Err ErrSmallShardEligibleListSize
      else countEligible_loop shards eligible groupSize (u64 (numTotalEligible + nbNodesShard))
  end.

(** A nil map is [None].  The configuration of an epoch that is already stored
    is changed in place, so it stays changed when the selectors fail. *)
Definition setNodesPerShards (eligible waiting : option ShardMap) (leaving shuffledOut : ShardMap) (epoch : Z)
    (lowWaitingList : bool) : SE NC nc_error () := fun s =>
  match eligible, waiting with
  | Some eligible, Some waiting =>
      match ChainParametersForEpoch epoch with
      | None => (s, Err ErrCollaborator)
      | Some currentChainParameters =>
          let nodesList := listOf eligible MetachainShardId in
          if Z.of_nat (length nodesList) <? MetachainConsensusGroupSize currentChainParameters
          then (s, Err ErrSmallMetachainEligibleListSize) else
          let nbShards := u32 (Z.of_nat (base.size eligible) - 1) in
          match countEligible_loop (shardIds nbShards) eligible (ShardConsensusGroupSize currentChainParameters)
                  (Z.of_nat (length nodesList)) with
          | Err e => (s, Err e)
          | Ok total =>
              let old := default emptyNodesConfig (nodesConfig s !! epoch) in
              let cfg shard sel :=
                {| cfg_nbShards := nbShards; cfg_shardID := shard; eligibleMap := eligible; waitingMap := waiting;
                   selectors := sel; leavingMap := leaving; shuffledOutMap := shuffledOut;
                   newList := newList old; auctionList := auctionList old; cfg_lowWaitingList := lowWaitingList |} in
              let '(shard, isCurrentNodeValidator) :=
                computeShardForSelfPublicKey (cfg (cfg_shardID old) (selectors old)) s in
              match createSelectors (cfg shard ∅) with
              | Err e =>
                  (match nodesConfig s !! epoch with
                   | Some _ => nc_with_nodesConfig (<[epoch := cfg shard ∅]> (nodesConfig s)) s
                   | None => s
                   end, Err e)
              | Ok sel =>
                  let s := nc_with_nodesConfig (<[epoch := cfg shard sel]> (nodesConfig s)) s in
                  let stops := if isFullArchive s && isCurrentNodeValidator then S (stopRequests s)
                               else stopRequests s in
                  (nc_with_node total isCurrentNodeValidator stops s, Ok ())
              end
          end
      end
  | _, _ => (s, Err ErrNilInputNodesMap)
  end.

(** ** The consensus group of a round *)

(** [fmt.Sprintf("%s_%v_%v_%v", randomness, round, shardID, epoch)] *)
Definition consensusKey (randomness : bytes) (round shardID epoch : Z) : bytes :=
  randomness ++ go_bytes ("_" +:+ itoa round +:+ "_" +:+ itoa shardID +:+ "_" +:+ itoa epoch).

(** [fmt.Sprintf("%d-%s", round, randomness)] *)
Definition roundRandomness (round : Z) (randomness : bytes) : bytes := go_bytes (itoa round +:+ "-") ++ randomness.

Definition searchConsensusForKey (key : bytes) s : option savedConsensusGroup :=
  cache_Get key (consensusGroupCacher s).

Definition cacheConsensusGroup (key : bytes) (group : list Validator) (ldr : Validator) s : NC :=
  nc_with_cache (cache_Put key {| leader := ldr; consensusGroup := group |} (consensusGroupCacher s)) s.

(** A nil selector is [None]; an index out of the list panics. *)
Definition selectValidators (selector : option selectorExpandedList) (randomness : bytes) (selectionSize : Z)
    (eligibleList : list Validator) : result nc_error (list Validator) :=
  match selector with
  | None => Err ErrNilRandomSelector
  | Some selector =>
      match randomness with
      | [] => Err ErrNilRandomness
      | _ =>
          selectedIndexes ← Select selector randomness selectionSize;
          match mapM (fun i => selectedIndexes !! i ≫= fun j => eligibleList !! Z.to_nat j) (seq 0 (Z.to_nat selectionSize)) with
          | Some selectedValidators => Ok selectedValidators
          | None => Err PanicIndexOutOfRange
          end
      end
  end.

Definition selectLeaderAndConsensusGroup (selector : option selectorExpandedList) (randomness : bytes)
    (eligibleList : list Validator) (consensusSize epoch : Z) : result nc_error (Validator * list Validator) :=
  if negb (AndromedaFlag epoch) then
    tempList ← selectValidators selector randomness (u32 consensusSize) eligibleList;
    match tempList with
    | [] => Err ErrEmptyValidatorsList
    | ldr :: _ => Ok (ldr, tempList)
    end
  else
    selectedValidators ← selectValidators selector randomness leaderSelectionSize eligibleList;
    match selectedValidators with
    | [] => Err PanicIndexOutOfRange
    | ldr :: _ => Ok (ldr, eligibleList)
    end.

Definition ComputeConsensusGroup (randomness : bytes) (round shardID epoch : Z)
    : SE NC nc_error (Validator * list Validator) := fun s =>
  match randomness with
  | [] => (s, Err ErrNilRandomness)
  | _ =>
      if maxRandomnessSize <? Z.of_nat (length randomness) then (s, Err ErrInvalidRandomnessSize) else
      match nodesConfig s !! epoch with
      | None => (s, Err ErrEpochNodesConfigDoesNotExist)
      | Some cfg =>
          if (cfg_nbShards cfg <=? shardID) && negb (shardID =? MetachainShardId)
          then (s, Err ErrInvalidShardId) else
          let key := consensusKey randomness round shardID epoch in
          match searchConsensusForKey key s with
          | Some savedCG => (s, Ok (leader savedCG, consensusGroup savedCG))
          | None =>
              match selectLeaderAndConsensusGroup (selectors cfg !! shardID) (roundRandomness round randomness)
                      (listOf (eligibleMap cfg) shardID) (ConsensusGroupSizeForShardAndEpoch shardID epoch) epoch with
              | Err e => (s, Err e)
              | Ok (ldr, validatorsGroup) =>
                  (cacheConsensusGroup key validatorsGroup ldr s, Ok (ldr, validatorsGroup))
              end
          end
      end
  end.

Definition GetConsensusValidatorsPublicKeys (randomness : bytes) (round shardID epoch : Z)
    : SE NC nc_error (bytes * list bytes) :=
  '(ldr, consensusNodes) ← ComputeConsensusGroup randomness round shardID epoch;
  mret (PubKey ldr, List.map PubKey consensusNodes).

(** ** Queries *)

Definition GetValidatorWithPublicKey (publicKey : bytes) s : result nc_error (Validator * Z) :=
  match publicKey with
  | [] => Err ErrNilPubKey
  | _ => match publicKeyToValidatorMap s !! publicKey with Some v => Ok v | None => Err ErrValidatorNotFound end
  end.

Definition configOf (epoch : Z) s : result nc_error epochNodesConfig :=
  match nodesConfig s !! epoch with Some cfg => Ok cfg | None => Err ErrEpochNodesConfigDoesNotExist end.

(** A shard without validators has no entry in the result. *)
Definition keysOf (m : ShardMap) : gmap Z (list bytes) :=
  List.map PubKey <$> filter (fun kv : Z * list Validator => kv.2 <> []) m.

Definition GetAllEligibleValidatorsPublicKeysForShard (epoch shardID : Z) s : result nc_error (list bytes) :=
  cfg ← configOf epoch s; Ok (List.map PubKey (listOf (eligibleMap cfg) shardID)).
Definition GetAllEligibleValidatorsPublicKeys (epoch : Z) s : result nc_error (gmap Z (list bytes)) :=
  cfg ← configOf epoch s; Ok (keysOf (eligibleMap cfg)).
Definition GetAllWaitingValidatorsPublicKeys (epoch : Z) s : result nc_error (gmap Z (list bytes)) :=
  cfg ← configOf epoch s; Ok (keysOf (waitingMap cfg)).
Definition GetAllLeavingValidatorsPublicKeys (epoch : Z) s : result nc_error (gmap Z (list bytes)) :=
  cfg ← configOf epoch s; Ok (keysOf (leavingMap cfg)).
Definition GetAllShuffledOutValidatorsPublicKeys (epoch : Z) s : result nc_error (gmap Z (list bytes)) :=
  cfg ← configOf epoch s; Ok (keysOf (shuffledOutMap cfg)).
Definition GetShuffledOutToAuctionValidatorsPublicKeys (epoch : Z) s : result nc_error (gmap Z (list bytes)) :=
  cfg ← configOf epoch s;
  if cfg_lowWaitingList cfg then Ok ∅ else GetAllShuffledOutValidatorsPublicKeys epoch s.
Definition ShardIdForEpoch (epoch : Z) s : result nc_error Z := cfg ← configOf epoch s; Ok (cfg_shardID cfg).
Definition IsEpochInConfig (epoch : Z) s : bool := bool_decide (is_Some (nodesConfig s !! epoch)).
Definition GetCachedEpochs s : gset Z := dom (nodesConfig s).

(** The indexes at which a key occurs. *)
Definition indexesOf (pubKey : bytes) (keys : list bytes) : list Z :=
  List.map (fun iv : nat * bytes => Z.of_nat iv.1)
    (List.filter (fun iv : nat * bytes => bool_decide (pubKey = iv.2)) (combine (seq 0 (length keys)) keys)).

Definition GetValidatorsIndexes (publicKeys : list bytes) (epoch : Z) s : result nc_error (list Z) :=
  validatorsPubKeys ← GetAllEligibleValidatorsPublicKeys epoch s;
  cfg ← configOf epoch s;
  let signersIndexes := concat (List.map (fun pubKey =>
    indexesOf pubKey (default [] (validatorsPubKeys !! cfg_shardID cfg))) publicKeys) in
  if Nat.eqb (length publicKeys) (length signersIndexes) then Ok signersIndexes
  else Err ErrInvalidNumberPubKeys.

(** The eligible keys of the node's shard in an epoch. *)
Definition shardEligibleKeys (epoch : Z) s : result nc_error (list bytes) :=
  keys ← GetAllEligibleValidatorsPublicKeys epoch s;
  shard ← ShardIdForEpoch epoch s;
  Ok (default [] (keys !! shard)).

(** The keys of the epoch, and those of the previous one when it is stored. *)
Definition GetConsensusWhitelistedNodes (epoch : Z) s : result nc_error (gset bytes) :=
  let prev := if startEpoch s <? epoch
              then match shardEligibleKeys (u32 (epoch - 1)) s with Ok keys => keys | Err _ => [] end else [] in
  new ← shardEligibleKeys epoch s;
  Ok (list_to_set (prev ++ new)).

Definition getMinHysteresisNodes (shardId : Z) : Z :=
  if shardId =? MetachainShardId then MinMetaHysteresisNodes else MinShardHysteresisNodes.

Fixpoint searchWaitingEpochsLeftForPublicKeyInShard (idx : Z) (publicKey : bytes) (shardId : Z)
    (shardWaiting : list Validator) : result nc_error Z :=
  match shardWaiting with
  | [] => Err ErrKeyNotFoundInWaitingList
  | val :: shardWaiting =>
      if bool_decide (PubKey val = publicKey) then
        let minHysteresisNodes := getMinHysteresisNodes shardId in
        if minHysteresisNodes =? 0 then Ok minEpochsToWait
        else Ok (u32 (u32 idx / minHysteresisNodes + minEpochsToWait))
      else searchWaitingEpochsLeftForPublicKeyInShard (idx + 1) publicKey shardId shardWaiting
  end.

(** The first shard of the map's order whose waiting list has the key. *)
Fixpoint searchWaiting_loop (publicKey : bytes) (lists : list (Z * list Validator)) : result nc_error Z :=
  match lists with
  | [] => Err ErrKeyNotFoundInWaitingList
  | (shardId, shardWaiting) :: lists =>
      match searchWaitingEpochsLeftForPublicKeyInShard 0 publicKey shardId shardWaiting with
      | Ok epochsLeft => Ok epochsLeft
      | Err _ => searchWaiting_loop publicKey lists
      end
  end.

Definition GetWaitingEpochsLeftForPublicKey (publicKey : bytes) (currentEpoch : Z) s : result nc_error Z :=
  match publicKey with
  | [] => Err ErrNilPubKey
  | _ => cfg ← configOf currentEpoch s; searchWaiting_loop publicKey (map_to_list (waitingMap cfg))
  end.

(** ** The validators of the next epoch *)

Definition createSortedListFromMap (validatorsMap : ShardMap) : list Validator :=
  sort_validatorList (concat (map_to_list validatorsMap).*2).

Definition with_index (i : Z) (v : Validator) : Validator := {| PubKey := PubKey v; Chances := Chances v; Index := i |}.
Definition appendTo (m : ShardMap) (shardId : Z) (v : Validator) : ShardMap :=
  <[shardId := listOf m shardId ++ [v]]> m.

(** Also returns the validator, whose index the code overwrites: the leaving
    map holds the same object. *)
Definition addValidatorToPreviousMap (eligible waiting : ShardMap) (currentValidator : Validator)
    (validatorInfo : ShardValidatorInfo) s : ShardMap * ShardMap * Validator :=
  let shardId := ShardId validatorInfo in
  if negb (flagStakingV4Started s) || bool_decide (PreviousList validatorInfo = EmptyString)
  then (appendTo eligible shardId currentValidator, waiting, currentValidator)
  else if bool_decide (PreviousList validatorInfo = EligibleList) then
    let currentValidator := with_index (PreviousIndex validatorInfo) currentValidator in
    (appendTo eligible shardId currentValidator, waiting, currentValidator)
  else if bool_decide (PreviousList validatorInfo = peerWaitingList) then
    let currentValidator := with_index (PreviousIndex validatorInfo) currentValidator in
    (eligible, appendTo waiting shardId currentValidator, currentValidator)
  else (eligible, waiting, currentValidator).

(** The lists that [computeNodesConfigFromList] fills. *)
Record infoLists := {
  il_eligible : ShardMap;
  il_waiting : ShardMap;
  il_leaving : ShardMap;
  il_new : list Validator;
  il_auction : list Validator;
}.

Definition addValidatorInfo (validatorInfo : ShardValidatorInfo) (ls : infoLists) s : result nc_error infoLists :=
  currentValidator ← NewValidator (PublicKey validatorInfo) (GetChance (TempRating validatorInfo)) (vi_Index validatorInfo);
  let shardId := ShardId validatorInfo in
  let list := ListName validatorInfo in
  if bool_decide (list = peerWaitingList) then
    Ok {| il_eligible := il_eligible ls; il_waiting := appendTo (il_waiting ls) shardId currentValidator;
          il_leaving := il_leaving ls; il_new := il_new ls; il_auction := il_auction ls |}
  else if bool_decide (list = EligibleList) then
    Ok {| il_eligible := appendTo (il_eligible ls) shardId currentValidator; il_waiting := il_waiting ls;
          il_leaving := il_leaving ls; il_new := il_new ls; il_auction := il_auction ls |}
  else if bool_decide (list = LeavingList) then
    let '(eligible, waiting, currentValidator) :=
      addValidatorToPreviousMap (il_eligible ls) (il_waiting ls) currentValidator validatorInfo s in
    Ok {| il_eligible := eligible; il_waiting := waiting;
          il_leaving := appendTo (il_leaving ls) shardId currentValidator;
          il_new := il_new ls; il_auction := il_auction ls |}
  else if bool_decide (list = NewList) then
    if nc_flagStakingV4Step2 s then Err ErrReceivedNewListNodeInStakingV4
    else Ok {| il_eligible := il_eligible ls; il_waiting := il_waiting ls; il_leaving := il_leaving ls;
               il_new := il_new ls ++ [currentValidator]; il_auction := il_auction ls |}
  else if bool_decide (list = SelectedFromAuctionList) then
    if nc_flagStakingV4Step2 s
    then Ok {| il_eligible := il_eligible ls; il_waiting := il_waiting ls; il_leaving := il_leaving ls;
               il_new := il_new ls; il_auction := il_auction ls ++ [currentValidator] |}
    else Err ErrReceivedAuctionValidatorsBeforeStakingV4
  else Ok ls.

Fixpoint addValidatorInfos (validatorInfos : list ShardValidatorInfo) (ls : infoLists) s : result nc_error infoLists :=
  match validatorInfos with
  | [] => Ok ls
  | validatorInfo :: validatorInfos =>
      ls ← addValidatorInfo validatorInfo ls s; addValidatorInfos validatorInfos ls s
  end.

Definition computeNodesConfigFromList (validatorInfos : list ShardValidatorInfo) s
    : result nc_error epochNodesConfig :=
  ls ← addValidatorInfos validatorInfos
         {| il_eligible := ∅; il_waiting := ∅; il_leaving := ∅; il_new := []; il_auction := [] |} s;
  if bool_decide (il_eligible ls = ∅) then Err ErrMapSizeZero else
  Ok {| cfg_nbShards := u32 (Z.of_nat (base.size (il_eligible ls)) - 1); cfg_shardID := 0;
        eligibleMap := sort_validatorList <$> il_eligible ls; waitingMap := sort_validatorList <$> il_waiting ls;
        selectors := ∅; leavingMap := sort_validatorList <$> il_leaving ls; shuffledOutMap := ∅;
        newList := sort_validatorList (il_new ls); auctionList := sort_validatorList (il_auction ls);
        cfg_lowWaitingList := false |}.

(** ** The validators that left *)

Definition computeActuallyLeaving_shard (leaving : list Validator) (shardId : Z)
    '(actuallyLeaving, actuallyRemaining, processed) (v : Validator) : ShardMap * ShardMap * gset bytes :=
  if bool_decide (PubKey v ∈ processed) then (actuallyLeaving, actuallyRemaining, processed) else
  let processed := {[PubKey v]} ∪ processed in
  if existsb (fun leavingValidator => bool_decide (PubKey v = PubKey leavingValidator)) leaving
  then (appendTo actuallyLeaving shardId v, actuallyRemaining, processed)
  else (actuallyLeaving, appendTo actuallyRemaining shardId v, processed).

Definition computeActuallyLeaving (unstakeLeaving : ShardMap) (leaving : list Validator)
    (acc : ShardMap * ShardMap * gset bytes) : ShardMap * ShardMap * gset bytes :=
  fold_left (fun acc shardId =>
    fold_left (computeActuallyLeaving_shard leaving shardId) (listOf unstakeLeaving shardId) acc)
    (sortKeys unstakeLeaving) acc.

Definition createActuallyLeavingPerShards (unstakeLeaving additionalLeaving : ShardMap) (leaving : list Validator)
    : ShardMap * ShardMap :=
  let acc := computeActuallyLeaving unstakeLeaving leaving (∅, ∅, ∅) in
  let '(actuallyLeaving, actuallyRemaining, _) := computeActuallyLeaving additionalLeaving leaving acc in
  (actuallyLeaving, actuallyRemaining).
End Coordinator.
