(* ===== verification/NodesRegistry.v ===== *)
(** * The stored state of the nodes coordinator

    indexHashedNodesCoordinatorRegistry.go, its variant with auction, the two
    registries and their factory: the lists of the last epochs, by decimal
    strings of epochs and shards, are encoded and put in the boot storer. *)

From Stdlib Require Import ZArith Lia String Ascii.
From stdpp Require Import base gmap list sorting strings fin_maps.
From S2P Require Import Prelude GoValues Config Validators Shuffler Selection NodesCoordinator.

Definition NodesCoordinatorRegistryKeyPrefix : string := "indexHashed_".

Record SerializableValidator := {
  sv_PubKey : bytes;
  sv_Chances : Z;
  sv_Index : Z;
}.
Abbreviation SerializableMap := (gmap string (list SerializableValidator)).

Record EpochValidators := {
  EligibleValidators : SerializableMap;
  WaitingValidators : SerializableMap;
  LeavingValidators : SerializableMap;
}.

Record NodesCoordinatorRegistry := {
  EpochsConfig : gmap string EpochValidators;
  CurrentEpoch : Z;
}.

Record EpochValidatorsWithAuction := {
  Eligible : SerializableMap;
  Waiting : SerializableMap;
  Leaving : SerializableMap;
  ShuffledOut : SerializableMap;
  LowWaitingList : bool;
}.

Record NodesCoordinatorRegistryWithAuction := {
  EpochsConfigWithAuction : gmap string EpochValidatorsWithAuction;
  wa_CurrentEpoch : Z;
}.

(** The two implementations of [NodesCoordinatorRegistryHandler], and of
    [EpochValidatorsHandler]. *)
Inductive NodesCoordinatorRegistryHandler :=
| OldRegistry (r : NodesCoordinatorRegistry)
| RegistryWithAuction (r : NodesCoordinatorRegistryWithAuction).
Inductive EpochValidatorsHandler :=
| OldEpoch (e : EpochValidators)
| EpochWithAuction (e : EpochValidatorsWithAuction).

Definition GetCurrentEpoch (r : NodesCoordinatorRegistryHandler) : Z :=
  match r with OldRegistry r => CurrentEpoch r | RegistryWithAuction r => wa_CurrentEpoch r end.
Definition GetEpochsConfig (r : NodesCoordinatorRegistryHandler) : gmap string EpochValidatorsHandler :=
  match r with
  | OldRegistry r => OldEpoch <$> EpochsConfig r
  | RegistryWithAuction r => EpochWithAuction <$> EpochsConfigWithAuction r
  end.
Definition GetEligibleValidators (e : EpochValidatorsHandler) : SerializableMap :=
  match e with OldEpoch e => EligibleValidators e | EpochWithAuction e => Eligible e end.
Definition GetWaitingValidators (e : EpochValidatorsHandler) : SerializableMap :=
  match e with OldEpoch e => WaitingValidators e | EpochWithAuction e => Waiting e end.
Definition GetLeavingValidators (e : EpochValidatorsHandler) : SerializableMap :=
  match e with OldEpoch e => LeavingValidators e | EpochWithAuction e => Leaving e end.

(** The storer of the boot unit, and the encoders: the marshalizer the factory
    is built with, and [encoding/json]. *)
Class BootStorer (B : Type) := {
  boot_Get : bytes -> B -> result nc_error bytes;
  boot_Put : bytes -> bytes -> B -> B * result nc_error ();
}.
Class RegistryEncoding := {
  marshaller_Marshal : NodesCoordinatorRegistryHandler -> result nc_error bytes;
  marshaller_Unmarshal : bytes -> result nc_error NodesCoordinatorRegistryWithAuction;
  json_Marshal : NodesCoordinatorRegistryHandler -> result nc_error bytes;
  json_Unmarshal : bytes -> result nc_error NodesCoordinatorRegistry;
  factory_stakingV4Step2EnableEpoch : Z;
}.

(** ** Validators as they are stored *)

Definition ValidatorArrayToSerializableValidatorArray (validators : list Validator) : list SerializableValidator :=
  List.map (fun v => {| sv_PubKey := PubKey v; sv_Chances := Chances v; sv_Index := Index v |}) validators.

(** [NewValidator] fails on a nil key only, which is not told from an empty
    one here. *)
Definition serializableValidatorArrayToValidatorArray (sValidators : list SerializableValidator) : list Validator :=
  List.map (fun v => {| PubKey := sv_PubKey v; Chances := sv_Chances v; Index := sv_Index v |}) sValidators.

(** A new map with the keys printed by [fmt.Sprint]. *)
Definition printKeys {A A'} (f : A -> A') (m : gmap Z A) : gmap string A' :=
  list_to_map (List.map (fun kv : Z * A => (itoa kv.1, f kv.2)) (map_to_list m)).

(** A new map with the keys read by [strconv.ParseInt], [f] for the values. *)
Fixpoint parseKeys_loop {A A'} (f : A -> result nc_error A') (l : list (string * A)) (acc : gmap Z A')
    : result nc_error (gmap Z A') :=
  match l with
  | [] => Ok acc
  | (k, v) :: l =>
      match ParseInt64 k with
      | None => Err ErrCollaborator
      | Some key => v ← f v; parseKeys_loop f l (<[u32 key := v]> acc)
      end
  end.

Definition serializableValidatorsMapToValidatorsMap (sValidators : SerializableMap) : result nc_error ShardMap :=
  parseKeys_loop (fun v => Ok (serializableValidatorArrayToValidatorArray v)) (map_to_list sValidators) ∅.

Definition epochNodesConfigToEpochValidators (config : epochNodesConfig) : EpochValidators :=
  {| EligibleValidators := printKeys ValidatorArrayToSerializableValidatorArray (eligibleMap config);
     WaitingValidators := printKeys ValidatorArrayToSerializableValidatorArray (waitingMap config);
     LeavingValidators := printKeys ValidatorArrayToSerializableValidatorArray (leavingMap config) |}.

Definition epochNodesConfigToEpochValidatorsWithAuction (config : epochNodesConfig) : EpochValidatorsWithAuction :=
  {| Eligible := printKeys ValidatorArrayToSerializableValidatorArray (eligibleMap config);
     Waiting := printKeys ValidatorArrayToSerializableValidatorArray (waitingMap config);
     Leaving := printKeys ValidatorArrayToSerializableValidatorArray (leavingMap config);
     ShuffledOut := printKeys ValidatorArrayToSerializableValidatorArray (shuffledOutMap config);
     LowWaitingList := cfg_lowWaitingList config |}.

Definition epochValidatorsToEpochNodesConfig (config : EpochValidatorsHandler) : result nc_error epochNodesConfig :=
  eligible ← serializableValidatorsMapToValidatorsMap (GetEligibleValidators config);
  waiting ← serializableValidatorsMapToValidatorsMap (GetWaitingValidators config);
  leaving ← serializableValidatorsMapToValidatorsMap (GetLeavingValidators config);
  '(shuffledOut, low) ←
    (match config with
     | OldEpoch _ => Ok (∅, false)
     | EpochWithAuction e => m ← serializableValidatorsMapToValidatorsMap (ShuffledOut e); Ok (m, LowWaitingList e)
     end);
  Ok {| cfg_nbShards := 0; cfg_shardID := 0; eligibleMap := eligible; waitingMap := waiting; selectors := ∅;
        leavingMap := leaving; shuffledOutMap := shuffledOut; newList := []; auctionList := [];
        cfg_lowWaitingList := low |}.

Section Registry.
Context {C B : Type} {CC : Cacher C} {BS : BootStorer B} {Env : CoordinatorEnv} {RE : RegistryEncoding}.
Context {SH : ShuffleHasher} {H : SelectionHasher}.
Abbreviation NC := (indexHashedNodesCoordinator C B).
Implicit Types (s : NC).

(** ** To the registry *)

Definition getLastEpochConfig s : Z :=
  fold_left (fun lastEpoch epoch => if lastEpoch <? epoch then epoch else lastEpoch)
    (map_to_list (nodesConfig s)).*1 0.

Definition getMinAndLastEpoch s : Z * Z :=
  let lastEpoch := getLastEpochConfig s in
  (if nodesCoordinatorStoredEpochs <=? lastEpoch then lastEpoch - nodesCoordinatorStoredEpochs + 1 else 0, lastEpoch).

(** [for epoch := minEpoch; epoch <= lastEpoch; epoch++]: at most four. *)
Definition storedEpochs s : list Z :=
  let '(minEpoch, lastEpoch) := getMinAndLastEpoch s in
  List.map (fun i => minEpoch + Z.of_nat i) (seq 0 (Z.to_nat (lastEpoch - minEpoch + 1))).

Definition addEpoch {A} (f : epochNodesConfig -> A) (cfgs : gmap Z epochNodesConfig) (m : gmap string A) (epoch : Z)
    : gmap string A :=
  match cfgs !! epoch with Some epochNodesData => <[itoa epoch := f epochNodesData]> m | None => m end.

Definition epochsToRegistry {A} (f : epochNodesConfig -> A) s : gmap string A :=
  fold_left (addEpoch f (nodesConfig s)) (storedEpochs s) ∅.

Definition nodesCoordinatorToOldRegistry s : NodesCoordinatorRegistryHandler :=
  OldRegistry {| EpochsConfig := epochsToRegistry epochNodesConfigToEpochValidators s;
                 CurrentEpoch := currentEpoch s |}.

Definition nodesCoordinatorToRegistryWithAuction s : NodesCoordinatorRegistryHandler :=
  RegistryWithAuction {| EpochsConfigWithAuction := epochsToRegistry epochNodesConfigToEpochValidatorsWithAuction s;
                         wa_CurrentEpoch := currentEpoch s |}.

Definition NodesCoordinatorToRegistry (epoch : Z) s : NodesCoordinatorRegistryHandler :=
  if StakingV4Step2Epoch <=? epoch then nodesCoordinatorToRegistryWithAuction s
  else nodesCoordinatorToOldRegistry s.

Definition GetRegistryData (registry : NodesCoordinatorRegistryHandler) (epoch : Z) : result nc_error bytes :=
  if factory_stakingV4Step2EnableEpoch <=? epoch then marshaller_Marshal registry else json_Marshal registry.

Definition internalKey (key : bytes) : bytes := go_bytes NodesCoordinatorRegistryKeyPrefix ++ key.

Definition saveState (key : bytes) (epoch : Z) : SE NC nc_error () := fun s =>
  match GetRegistryData (NodesCoordinatorToRegistry epoch s) epoch with
  | Err e => (s, Err e)
  | Ok data => let '(b, r) := boot_Put (internalKey key) data (bootStorer s) in (nc_with_storer b s, r)
  end.

(** ** From the registry *)

Definition createOldRegistry (buff : bytes) : result nc_error NodesCoordinatorRegistryHandler :=
  r ← json_Unmarshal buff; Ok (OldRegistry r).

Definition CreateNodesCoordinatorRegistry (buff : bytes) : result nc_error NodesCoordinatorRegistryHandler :=
  match marshaller_Unmarshal buff with
  | Ok r => Ok (RegistryWithAuction r)
  | Err _ => createOldRegistry buff
  end.

Definition cfg_with_shards (n shard : Z) (sel : gmap Z selectorExpandedList) (cfg : epochNodesConfig) : epochNodesConfig :=
  {| cfg_nbShards := n; cfg_shardID := shard; eligibleMap := eligibleMap cfg; waitingMap := waitingMap cfg;
     selectors := sel; leavingMap := leavingMap cfg; shuffledOutMap := shuffledOutMap cfg; newList := newList cfg;
     auctionList := auctionList cfg; cfg_lowWaitingList := cfg_lowWaitingList cfg |}.

Definition registryEpoch (epochValidators : EpochValidatorsHandler) s : result nc_error epochNodesConfig :=
  cfg ← epochValidatorsToEpochNodesConfig epochValidators;
  let nbShards := u32 (Z.of_nat (base.size (eligibleMap cfg))) in
  if nbShards <? 2 then Err ErrInvalidNumberOfShards else
  let shardID := (computeShardForSelfPublicKey (cfg_with_shards (nbShards - 1) 0 ∅ cfg) s).1 in
  sel ← createSelectors (cfg_with_shards (nbShards - 1) shardID ∅ cfg);
  Ok (cfg_with_shards (nbShards - 1) shardID sel cfg).

Definition registryToNodesCoordinator (config : NodesCoordinatorRegistryHandler) s
    : result nc_error (gmap Z epochNodesConfig) :=
  parseKeys_loop (fun epochValidators => registryEpoch epochValidators s) (map_to_list (GetEpochsConfig config)) ∅.

(** The key and the current epoch are set before the lists are read. *)
Definition baseLoadState (key : bytes) : SE NC nc_error () := fun s =>
  match boot_Get (internalKey key) (bootStorer s) with
  | Err e => (s, Err e)
  | Ok data =>
      match CreateNodesCoordinatorRegistry data with
      | Err e => (s, Err e)
      | Ok config =>
          let s := nc_with_epoch (GetCurrentEpoch config) (nc_with_keys key (publicKeyToValidatorMap s) s) in
          match registryToNodesCoordinator config s with
          | Err e => (s, Err e)
          | Ok m => (nc_with_nodesConfig m s, Ok ())
          end
      end
  end.

Definition LoadState (key : bytes) : SE NC nc_error () := baseLoadState key.
End Registry.
