(* ===== verification/NodesEpoch.v ===== *)
(** * The nodes coordinator at the change of epochs

    EpochStartPrepare and EpochStartAction of indexHashedNodesCoordinator.go,
    indexHashedNodesCoordinatorLite.go, and the two constructors. *)

From Stdlib Require Import ZArith Lia String Ascii.
From stdpp Require Import base gmap list sorting strings fin_maps.
From S2P Require Import Prelude GoValues Config Validators Shuffler Selection NodesCoordinator NodesRegistry.

(** What the handlers read of a header, and the bodies they tell apart. *)
Record HeaderHandler := {
  IsStartOfEpochBlock : bool;
  isMetaHeader : bool;
  PrevRandSeed : bytes;
  hdr_Epoch : Z;
}.
Record MiniBlock := {
  isPeerBlock : bool;
  TxHashes : list bytes;
}.
Inductive BodyHandler :=
| NilBody
| OtherBody
| BlockBody (MiniBlocks : list MiniBlock).

(** [shuffledOutHandler.Process], which is told the shard of the node. *)
Class ShuffledOutHandler (S : Type) := shuffledOut_Process : Z -> S -> S * result nc_error ().

Section Epoch.
Context {C B : Type} {CC : Cacher C} {BS : BootStorer B} {Env : CoordinatorEnv} {RE : RegistryEncoding}.
Context {SH : ShuffleHasher} {H : SelectionHasher}.
Abbreviation NC := (indexHashedNodesCoordinator C B).
Implicit Types (s : NC).

(** ** Keys to validators *)

Definition addKeys (shards : list (Z * list Validator)) (m : gmap bytes (Validator * Z)) : gmap bytes (Validator * Z) :=
  fold_left (fun m (kv : Z * list Validator) => fold_left (fun m v => <[PubKey v := (v, kv.1)]> m) kv.2 m) shards m.

Definition createPublicKeyToValidatorMap (eligible waiting : ShardMap) : gmap bytes (Validator * Z) :=
  addKeys (map_to_list waiting) (addKeys (map_to_list eligible) ∅).

(** Later epochs overwrite the entries of earlier ones. *)
Definition fillPublicKeyToValidatorMap s : NC :=
  let m := fold_left (fun m epoch =>
    match nodesConfig s !! epoch with
    | Some cfg => createPublicKeyToValidatorMap (eligibleMap cfg) (waitingMap cfg) ∪ m
    | None => m
    end) (sortKeys (nodesConfig s)) ∅ in
  nc_with_keys (savedStateKey s) m s.

(** ** The infos in the block *)

Definition getShardValidatorInfoData (txHash : bytes) (epoch : Z) : result nc_error ShardValidatorInfo :=
  if RefactorPeersMiniBlocksFlag epoch then GetValidatorInfo txHash else UnmarshalValidatorInfo txHash.

Fixpoint validatorInfos_loop (txHashes : list bytes) (epoch : Z) (allValidatorInfo : list ShardValidatorInfo)
    : result nc_error (list ShardValidatorInfo) :=
  match txHashes with
  | [] => Ok allValidatorInfo
  | txHash :: txHashes =>
      shardValidatorInfo ← getShardValidatorInfoData txHash epoch;
      validatorInfos_loop txHashes epoch (allValidatorInfo ++ [shardValidatorInfo])
  end.

Definition createValidatorInfoFromBody (body : BodyHandler) (epoch : Z) : result nc_error (list ShardValidatorInfo) :=
  match body with
  | BlockBody miniBlocks =>
      validatorInfos_loop (concat (List.map TxHashes (List.filter isPeerBlock miniBlocks))) epoch []
  | NilBody => Err ErrNilBlockBody
  | OtherBody => Err ErrWrongTypeAssertion
  end.

Definition updateEpochFlags (epoch : Z) s : NC :=
  nc_with_flags (StakingV4Step1EnableEpoch <=? epoch) (StakingV4Step2Epoch <=? epoch) s.

(** ** The start of an epoch *)

Definition shufflerArgs (chainParams : ChainParametersByEpochConfig) (newNodesConfig : epochNodesConfig)
    (additionalLeavingMap : ShardMap) (auction : list Validator) (randomness : bytes) (newEpoch : Z)
    : ArgsUpdateNodes :=
  {| arg_ChainParameters := chainParams;
     arg_Eligible := eligibleMap newNodesConfig;
     arg_Waiting := waitingMap newNodesConfig;
     arg_NewNodes := newList newNodesConfig;
     arg_UnStakeLeaving := createSortedListFromMap (leavingMap newNodesConfig);
     arg_AdditionalLeaving := createSortedListFromMap additionalLeavingMap;
     arg_Auction := auction;
     arg_Rand := randomness;
     arg_NbShards := cfg_nbShards newNodesConfig;
     arg_Epoch := newEpoch |}.

(** [setNodesPerShards] with what the shuffler returned. *)
Definition setShuffled (newNodesConfig : epochNodesConfig) (additionalLeavingMap : ShardMap) (res : ResUpdateNodes)
    (epoch : Z) : SE NC nc_error () :=
  let '(leavingNodesMap, _) :=
    createActuallyLeavingPerShards (leavingMap newNodesConfig) additionalLeavingMap (res_Leaving res) in
  setNodesPerShards (Some (res_Eligible res)) (Some (res_Waiting res)) leavingNodesMap (res_ShuffledOut res)
    epoch (res_LowWaitingList res).

(** The shuffler's result for the lists, with the shuffler's state. *)
Definition runShuffler (args : ArgsUpdateNodes) : SE NC nc_error ResUpdateNodes := fun s =>
  let '(r, res) := UpdateNodeLists args (shuffler s) in (nc_with_shuffler r s, res).

(** Errors are logged and end the handler, but for those of [setNodesPerShards]
    and [saveState], which are only logged. *)
Definition EpochStartPrepare (metaHdr : HeaderHandler) (body : BodyHandler) s : NC :=
  if negb (IsStartOfEpochBlock metaHdr) then s else
  if negb (isMetaHeader metaHdr) then s else
  let randomness := PrevRandSeed metaHdr in
  let newEpoch := hdr_Epoch metaHdr in
  if match body with NilBody => true | _ => false end && (newEpoch =? currentEpoch s) then s else
  let s := updateEpochFlags newEpoch s in
  match createValidatorInfoFromBody body newEpoch with Err _ => s | Ok allValidatorInfo =>
  match computeNodesConfigFromList allValidatorInfo s with Err _ => s | Ok newNodesConfig =>
  match ComputeAdditionalLeaving allValidatorInfo with Err _ => s | Ok additionalLeavingMap =>
  match runShuffler (shufflerArgs (chainParametersOr newEpoch) newNodesConfig additionalLeavingMap
          (auctionList newNodesConfig) randomness newEpoch) s with
  | (s, Err _) => s
  | (s, Ok resUpdateNodes) =>
      let s := (setShuffled newNodesConfig additionalLeavingMap resUpdateNodes newEpoch s).1 in
      let s := fillPublicKeyToValidatorMap s in
      let s := (saveState randomness newEpoch s).1 in
      let s := nc_with_keys randomness (publicKeyToValidatorMap s) s in
      nc_with_cache (cache_Clear (consensusGroupCacher s)) s
  end end end end.

(** Epochs are [uint32]s, [epochToRemove] an [int32]. *)
Definition removeEpochs (epochToRemove : Z) s : NC :=
  nc_with_nodesConfig (filter (fun kv : Z * epochNodesConfig => epochToRemove < kv.1) (nodesConfig s)) s.

Definition EpochStartAction (hdr : HeaderHandler) s : NC :=
  let newEpoch := hdr_Epoch hdr in
  let epochToRemove := i32 (i32 newEpoch - nodesCoordinatorStoredEpochs) in
  let s := nc_with_epoch newEpoch s in
  let s := (saveState (savedStateKey s) newEpoch s).1 in
  if 0 <=? epochToRemove then removeEpochs epochToRemove s else s.

(** ** The lite coordinator *)

Definition removeOlderEpochs (epoch maxDelta : Z) s : NC :=
  if epoch <? maxDelta then s
  else if (Z.of_nat (base.size (nodesConfig s)) <? maxDelta) then s
  else removeEpochs (epoch - maxDelta) s.

(** No auction list is given to the shuffler here. *)
Definition SetNodesConfigFromValidatorsInfo (epoch : Z) (randomness : bytes)
    (validatorsInfo : list ShardValidatorInfo) : SE NC nc_error () :=
  s ← se_get;
  newNodesConfig ← se_lift (computeNodesConfigFromList validatorsInfo s);
  additionalLeavingMap ← se_lift (ComputeAdditionalLeaving validatorsInfo);
  match ChainParametersForEpoch epoch with
  | None => se_lift (Err ErrCollaborator)
  | Some chainParameters =>
      resUpdateNodes ← runShuffler
        (shufflerArgs chainParameters newNodesConfig additionalLeavingMap [] randomness epoch);
      _ ← setShuffled newNodesConfig additionalLeavingMap resUpdateNodes epoch;
      se_modify (removeOlderEpochs epoch nodesCoordinatorStoredEpochs)
  end.

(** ** Construction *)

(** [NewIndexHashedNodesCoordinator] after the checks for nil arguments; [s]
    has the given fields, no flags, no keys and only an empty configuration
    for its epoch. *)
Definition NewIndexHashedNodesCoordinator (nbShards : Z) (savedKey : bytes) (eligibleNodes waitingNodes : ShardMap)
    : SE NC nc_error () := fun s =>
  if nbShards <? 1 then (s, Err ErrInvalidNumberOfShards) else
  if (nbShards <=? shardIDAsObserver s) && negb (shardIDAsObserver s =? MetachainShardId)
  then (s, Err ErrInvalidShardId) else
  match selfPubKey s with
  | [] => (s, Err ErrNilPubKey)
  | _ =>
      let epoch := currentEpoch s in
      let s := nc_with_keys savedKey ∅ (nc_with_nodesConfig
        {[epoch := cfg_with_shards nbShards (shardIDAsObserver s) ∅ emptyNodesConfig]} s) in
      match setNodesPerShards (Some eligibleNodes) (Some waitingNodes) ∅ ∅ epoch false s with
      | (s, Err e) => (s, Err e)
      | (s, Ok _) => ((saveState (savedStateKey s) epoch (fillPublicKeyToValidatorMap s)).1, Ok ())
      end
  end.

(** [NewIndexHashedNodesCoordinatorWithRater]: from here on the helper is the
    one with the rater, so the selectors of the current epoch are made anew. *)
Definition NewIndexHashedNodesCoordinatorWithRater : SE NC nc_error () := fun s =>
  match nodesConfig s !! currentEpoch s with
  | None => (s, Ok ())
  | Some cfg =>
      match createSelectors cfg with
      | Err e => (nc_with_nodesConfig (<[currentEpoch s :=
                    cfg_with_shards (cfg_nbShards cfg) (cfg_shardID cfg) ∅ cfg]> (nodesConfig s)) s, Err e)
      | Ok sel => (nc_with_nodesConfig (<[currentEpoch s :=
                    cfg_with_shards (cfg_nbShards cfg) (cfg_shardID cfg) sel cfg]> (nodesConfig s)) s, Ok ())
      end
  end.

(** ** Shuffling out of the own node *)

Definition ShuffleOutForEpoch {S} {SOH : ShuffledOutHandler S} (epoch : Z) s (h : S) : S :=
  match nodesConfig s !! epoch with
  | Some cfg => if nc_isValidator cfg (selfPubKey s) then (shuffledOut_Process (cfg_shardID cfg) h).1 else h
  | None => h
  end.
End Epoch.
