(* ===== verification/NodesSpec.v ===== *)
(** * The consensus group of a stored epoch

    What the selectors of a stored epoch select, and that the cache of groups
    holds nothing else.

    ** Reading back the stored state of the nodes coordinator *)

From Stdlib Require Import ZArith Lia String Ascii.
From stdpp Require Import base gmap list sorting strings fin_maps pretty.
From S2P Require Import Prelude GoValues Config Validators Shuffler ValidatorsSpec ShufflerSpec Selection.
From S2P Require Import SelectionSpec NodesCoordinator NodesRegistry NodesEpoch.

(** ** Keys of the cache *)

Lemma consensusKey_inj r r' round round' shard shard' epoch epoch' :
  0 <= round -> 0 <= round' -> 0 <= shard -> 0 <= shard' -> 0 <= epoch -> 0 <= epoch' ->
  consensusKey r round shard epoch = consensusKey r' round' shard' epoch' ->
  r = r' /\ round = round' /\ shard = shard' /\ epoch = epoch'.
Proof.
  intros R R' S S' E E' K. unfold consensusKey in K. rewrite !go_bytes_app in K. cbn in K.
  change (ascii_to_byte "_") with 95 in K.
  assert (N : forall x, 0 <= x -> (95 : Z) ∉ go_bytes (itoa x)) by (intros x Hx I; apply itoa_bytes in I; lia).
  assert (A : forall (w x y z : bytes), w ++ 95 :: x ++ 95 :: y ++ 95 :: z = ((w ++ 95 :: x) ++ 95 :: y) ++ 95 :: z)
    by (intros w x y z; by rewrite <- !app_assoc).
  rewrite !A in K.
  apply field_split in K as [K K3]; [|by apply N..]. apply field_split in K as [K K2]; [|by apply N..].
  apply field_split in K as [K K1]; [|by apply N..].
  split_and!; [done|by apply itoa_bytes_inj..].
Qed.

(** ** Selectors *)

Lemma NewSelector_spec ws : ws <> [] -> valid ws -> Z.of_nat (length ws) < 2 ^ 32 ->
  NewSelectorExpandedList ws = Ok {| expandedList := expandFrom 0 ws; uniqueItems := Z.of_nat (length ws) |}.
Proof.
  intros Ne V B. unfold NewSelectorExpandedList, expandList. rewrite expandList_loop_spec by (done || lia).
  cbn. unfold u32. rewrite Z.mod_small by lia. by destruct ws.
Qed.

Lemma NewSelector_inv ws sel : NewSelectorExpandedList ws = Ok sel -> ws <> [] /\ valid ws.
Proof.
  unfold NewSelectorExpandedList. destruct ws as [|w ws]; [done|]. intros R. split; [done|].
  assert (G : forall l i acc r, expandList_loop i l acc = Ok r -> valid l).
  { induction l as [|x l IH]; intros i acc r; cbn; [constructor|]. unfold minWeight.
    destruct (Z.ltb_spec x 1); [done|]. intros E. constructor; [lia|by eapply IH]. }
  unfold expandList in R. destruct (expandList_loop 0 (w :: ws) []) eqn:E; [|done]. by eapply G.
Qed.

Section Select.
Context {H : SelectionHasher}.
Context (Hlen : forall b, (8 <= length (selection_Compute b))%nat).

Lemma Select_spec ws randSeed k sel : NewSelectorExpandedList ws = Ok sel ->
  Z.of_nat (length ws) < 2 ^ 32 -> sum ws < 2 ^ 63 -> randSeed <> [] -> 0 < k <= Z.of_nat (length ws) ->
  Select sel randSeed k = Ok (reslice (draws randSeed 0 (Z.to_nat k)) (expandFrom 0 ws)).
Proof.
  intros R B Bs Hr Hk. apply NewSelector_inv in R as RV. destruct RV as [Ne V].
  rewrite (NewSelector_spec ws Ne V B) in R. injection R as <-. unfold Select. cbn [uniqueItems expandedList].
  rewrite (proj2 (Z.eqb_neq _ _)), (proj2 (Z.ltb_ge _ _)) by lia. cbn [orb]. destruct randSeed as [|r rs]; [done|].
  pose proof (length_expandFrom ws V 0) as L.
  assert (Ls : Z.of_nat (length ws) <= sum ws).
  { clear -V. induction V as [|w ws Hw V IH]; cbn; [done|]. fold (sum ws). lia. }
  unfold Get. rewrite (proj2 (Z.ltb_ge _ _)) by lia.
  pose proof (Get_loop_spec Hlen ws (r :: rs) V Bs (Z.to_nat k) 0 [] [] NewSelectionBasedProvider (drawn_nil ws V)) as G.
  destruct (Get_loop _ _ _ _ _ _) as [sbp' res]. cbn [snd] in G |- *. rewrite G.
  - by rewrite live_nil.
  - constructor.
  - by intros v ?%elem_of_nil.
  - cbn. lia.
Qed.

Lemma reslice_expand_length rands ws : valid ws -> (length rands <= length ws)%nat ->
  length (reslice rands (expandFrom 0 ws)) = length rands.
Proof.
  intros V B. apply (reslice_length rands _ (List.map Z.of_nat (seq 0 (length ws)))).
  - apply NoDup_fmap_2; [apply _|apply NoDup_seq].
  - intros v (m & -> & Hm%elem_of_seq)%list_elem_of_fmap. apply elem_expandFrom; [done|]. lia.
  - by rewrite length_map, length_seq.
Qed.

(** What a selection of [k] validators of [l] is. *)
Record selection (l : list Validator) (k : Z) (group : list Validator) : Prop := {
  sel_size : Z.of_nat (length group) = k;
  sel_in v : v ∈ group -> v ∈ l;
  sel_nodup : NoDup (pks l) -> NoDup (pks group);
}.

Lemma mapM_lookup {A} (l : list A) (ixs : list Z) : (forall i, i ∈ ixs -> 0 <= i < Z.of_nat (length l)) ->
  exists out, mapM (fun n => ixs !! n ≫= fun j => l !! Z.to_nat j) (seq 0 (length ixs)) = Some out /\
    Forall2 (fun i x => l !! Z.to_nat i = Some x) ixs out.
Proof.
  intros B.
  assert (G : exists out, Forall2 (fun i x => l !! Z.to_nat i = Some x) ixs out).
  { induction ixs as [|i ixs IH]; [by exists []|]. destruct IH as [out F]; [intros j Hj; apply B; by right|].
    destruct (lookup_lt_is_Some_2 l (Z.to_nat i)) as [x E]; [specialize (B i ltac:(left)); lia|].
    exists (x :: out). by constructor. }
  destruct G as [out F]. exists out. split; [|done]. apply mapM_Some. apply Forall2_same_length_lookup_2.
  - rewrite length_seq. by apply Forall2_length in F.
  - intros n m x En Ex. apply lookup_seq in En as [-> _]. cbn.
    destruct (Forall2_lookup_r _ _ _ _ _ F Ex) as (i & Ei & Ei'). by rewrite Ei.
Qed.

Lemma selectValidators_spec ws l randomness k sel : NewSelectorExpandedList ws = Ok sel -> length ws = length l ->
  Z.of_nat (length l) < 2 ^ 32 -> sum ws < 2 ^ 63 -> randomness <> [] -> 0 < k <= Z.of_nat (length l) ->
  exists group, selectValidators (Some sel) randomness k l = Ok group /\ selection l k group.
Proof.
  intros R El B Bs Hr Hk. unfold selectValidators. rewrite (Select_spec ws randomness k sel R) by (done || lia).
  apply NewSelector_inv in R as [_ V]. destruct randomness as [|r rs]; [done|]. cbn [mbind result_bind].
  set (ixs := reslice _ _). assert (Li : length ixs = Z.to_nat k).
  { unfold ixs. rewrite reslice_expand_length by (done || (unfold draws; rewrite length_map, length_seq; lia)).
    unfold draws. by rewrite length_map, length_seq. }
  destruct (mapM_lookup l ixs) as (group & E & F).
  { intros i Hi. apply reslice_sub, (elem_expandFrom ws V) in Hi. lia. }
  rewrite Li in E. rewrite E. exists group. split; [done|]. split.
  - apply Forall2_length in F. lia.
  - intros v Hv. apply list_elem_of_lookup in Hv as [n En].
    destruct (Forall2_lookup_r _ _ _ _ _ F En) as (i & _ & Ei). by eapply list_elem_of_lookup_2.
  - intros ND. apply NoDup_alt. intros n m key En Em. rewrite list_lookup_fmap in En, Em.
    destruct (group !! n) as [v|] eqn:Vn; [|done]. destruct (group !! m) as [v'|] eqn:Vm; [|done].
    destruct (Forall2_lookup_r _ _ _ _ _ F Vn) as (i & In & Ei). destruct (Forall2_lookup_r _ _ _ _ _ F Vm) as (j & Im & Ej).
    assert (Eij : Z.to_nat i = Z.to_nat j).
    { eapply NoDup_lookup; [exact ND| |]; rewrite list_lookup_fmap, ?Ei, ?Ej; [exact En|exact Em]. }
    assert (Bi : 0 <= i) by (apply list_elem_of_lookup_2, reslice_sub, (elem_expandFrom ws V) in In; lia).
    assert (Bj : 0 <= j) by (apply list_elem_of_lookup_2, reslice_sub, (elem_expandFrom ws V) in Im; lia).
    assert (i = j) as <- by lia. eapply NoDup_lookup; [apply reslice_NoDup|exact In|exact Im].
Qed.
End Select.

(** ** The configuration of an epoch *)

Definition hasShard (n shard : Z) : Prop := 0 <= shard < n \/ shard = MetachainShardId.

Section Config.
Context {C B : Type} {CC : Cacher C} {Env : CoordinatorEnv} {H : SelectionHasher}.
Abbreviation NC := (indexHashedNodesCoordinator C B).
Implicit Types (s : NC) (cfg : epochNodesConfig).

Lemma createSelectors_loop_Ok ls : forall acc r, NoDup ls.*1 -> createSelectors_loop ls acc = Ok r ->
  (forall k l, (k, l) ∈ ls -> exists x, r !! k = Some x /\ NewSelectorExpandedList (ValidatorsWeights l) = Ok x) /\
  (forall k, k ∉ ls.*1 -> r !! k = acc !! k).
Proof.
  induction ls as [|[k l] ls IH]; intros acc r ND; cbn [createSelectors_loop].
  - intros [= <-]. split; [by intros k l ?%elem_of_nil|done].
  - cbn in ND. apply NoDup_cons in ND as [Nk ND]. destruct (NewSelectorExpandedList _) as [x|] eqn:E; cbn; [|done].
    intros R. apply IH in R as [I1 I2]; [|done]. split.
    + intros k' l' [[= -> ->]|I]%elem_of_cons; [|by apply I1]. exists x. split; [|done].
      rewrite I2 by done. apply lookup_insert_eq.
    + intros k' [N1 N2]%not_elem_of_cons. rewrite I2 by done. by apply lookup_insert_ne.
Qed.

Lemma createSelectors_Ok cfg r : createSelectors cfg = Ok r -> forall k l, eligibleMap cfg !! k = Some l ->
  exists x, r !! k = Some x /\ NewSelectorExpandedList (ValidatorsWeights l) = Ok x.
Proof.
  intros R k l E. apply createSelectors_loop_Ok in R as [I _]; [|apply NoDup_fst_map_to_list].
  by apply I, elem_of_map_to_list.
Qed.

Lemma createSelectors_total cfg :
  (forall k l, eligibleMap cfg !! k = Some l ->
     l <> [] /\ valid (ValidatorsWeights l) /\ Z.of_nat (length l) < 2 ^ 32) ->
  exists r, createSelectors cfg = Ok r.
Proof.
  intros G. unfold createSelectors.
  assert (G' : forall k l, (k, l) ∈ map_to_list (eligibleMap cfg) ->
    l <> [] /\ valid (ValidatorsWeights l) /\ Z.of_nat (length l) < 2 ^ 32).
  { intros k l I. apply elem_of_map_to_list in I. by eapply G. }
  clear G. revert G'. generalize (∅ : gmap Z selectorExpandedList).
  induction (map_to_list (eligibleMap cfg)) as [|[k l] ls IH]; intros acc G; cbn; [by eexists|].
  destruct (G k l) as (Ne & V & L); [left|].
  assert (Lw : length (ValidatorsWeights l) = length l) by (unfold ValidatorsWeights; case_match; apply length_map).
  rewrite NewSelector_spec; [|by intros E; rewrite E in Lw; destruct l|done|by rewrite Lw].
  apply IH. intros k' l' I. eapply G. by right.
Qed.

Lemma weights_length l : length (ValidatorsWeights l) = length l.
Proof. unfold ValidatorsWeights. case_match; apply length_map. Qed.

(** The group of a round, from the stored lists alone. *)
Definition groupOf cfg (randomness : bytes) (round shardID epoch : Z) : result nc_error (Validator * list Validator) :=
  selectLeaderAndConsensusGroup (selectors cfg !! shardID) (roundRandomness round randomness)
    (listOf (eligibleMap cfg) shardID) (ConsensusGroupSizeForShardAndEpoch shardID epoch) epoch.

Definition consensusOf (cfgs : gmap Z epochNodesConfig) (randomness : bytes) (round shardID epoch : Z)
    : result nc_error (Validator * list Validator) :=
  if bool_decide (randomness = []) then Err ErrNilRandomness
  else if maxRandomnessSize <? Z.of_nat (length randomness) then Err ErrInvalidRandomnessSize
  else match cfgs !! epoch with
       | None => Err ErrEpochNodesConfigDoesNotExist
       | Some cfg => if bool_decide (hasShard (cfg_nbShards cfg) shardID)
                     then groupOf cfg randomness round shardID epoch else Err ErrInvalidShardId
       end.

(** Every shard of the epoch can be served. *)
Record servable (epoch : Z) cfg : Prop := {
  sv_selector shard : hasShard (cfg_nbShards cfg) shard -> exists sel, selectors cfg !! shard = Some sel /\
    NewSelectorExpandedList (ValidatorsWeights (listOf (eligibleMap cfg) shard)) = Ok sel;
  sv_group shard : hasShard (cfg_nbShards cfg) shard ->
    0 < ConsensusGroupSizeForShardAndEpoch shard epoch <= Z.of_nat (length (listOf (eligibleMap cfg) shard));
  sv_small shard : hasShard (cfg_nbShards cfg) shard -> Z.of_nat (length (listOf (eligibleMap cfg) shard)) < 2 ^ 32 /\
    sum (ValidatorsWeights (listOf (eligibleMap cfg) shard)) < 2 ^ 63;
}.

(** What a consensus group is: before Andromeda a selection of the eligible
    validators of the shard led by its first, after it all of them led by one. *)
Definition isGroup cfg (shard epoch : Z) (ldr : Validator) (group : list Validator) : Prop :=
  let l := listOf (eligibleMap cfg) shard in
  ldr ∈ group /\ (forall v, v ∈ group -> v ∈ l) /\ (NoDup (pks l) -> NoDup (pks group)) /\
  ConsensusGroupSizeForShardAndEpoch shard epoch <= Z.of_nat (length group) /\
  if AndromedaFlag epoch then group = l else Z.of_nat (length group) = ConsensusGroupSizeForShardAndEpoch shard epoch.

Lemma groupOf_ok (Hlen : forall b, (8 <= length (selection_Compute b))%nat) cfg randomness round shard epoch :
  servable epoch cfg -> hasShard (cfg_nbShards cfg) shard -> 0 <= round ->
  exists ldr group, groupOf cfg randomness round shard epoch = Ok (ldr, group) /\ isGroup cfg shard epoch ldr group.
Proof.
  intros [Sel Gr Sm] Hs Hr. destruct (Sel shard Hs) as (sel & E & N). specialize (Gr shard Hs). specialize (Sm shard Hs).
  unfold groupOf, selectLeaderAndConsensusGroup, isGroup. rewrite E. set (l := listOf _ _) in *.
  assert (Rn : roundRandomness round randomness <> []).
  { unfold roundRandomness. rewrite go_bytes_app. by destruct (go_bytes (itoa round)). }
  assert (G : forall k, 0 < k <= Z.of_nat (length l) -> exists ldr rest,
    selectValidators (Some sel) (roundRandomness round randomness) k l = Ok (ldr :: rest) /\ selection l k (ldr :: rest)).
  { intros k Hk. destruct (selectValidators_spec Hlen _ l (roundRandomness round randomness) k sel N) as ([|ldr rest] & R & S);
      [apply weights_length|lia|lia|done|done| |by exists ldr, rest].
    apply sel_size in S. cbn in S. lia. }
  destruct (AndromedaFlag epoch); cbn [negb].
  - destruct (G leaderSelectionSize) as (ldr & rest & -> & S); [unfold leaderSelectionSize; lia|].
    exists ldr, l. split; [done|]. split_and!; [|done|done|lia|done]. apply (sel_in _ _ _ S). left.
  - unfold u32. rewrite Z.mod_small by lia. destruct (G _ Gr) as (ldr & rest & -> & S).
    exists ldr, (ldr :: rest). split; [done|]. split_and!; [left|apply S|apply S|by rewrite (sel_size _ _ _ S)|apply S].
Qed.

(** ** Setting the lists *)

Lemma countEligible_Ok shards eligible size0 : (forall k, k ∈ shards -> size0 <= Z.of_nat (length (listOf eligible k))) ->
  forall total, exists r, countEligible_loop shards eligible size0 total = Ok r.
Proof.
  induction shards as [|k shards IH]; intros G total; cbn; [by eexists|].
  rewrite (proj2 (Z.ltb_ge _ _)) by (apply G; left). apply IH. intros j Hj. apply G. by right.
Qed.

Lemma shardMap_size n (E : ShardMap) : 0 <= n < MetachainShardId ->
  (forall k, is_Some (E !! k) <-> hasShard n k) -> Z.of_nat (base.size E) = n + 1.
Proof.
  intros Bn D. rewrite <- size_dom.
  assert (X : dom E = list_to_set (MetachainShardId :: shardIds n)).
  { apply set_eq. intros k. rewrite elem_of_dom, D, elem_of_list_to_set, elem_of_cons, elem_shardIds.
    unfold hasShard. naive_solver. }
  rewrite X, size_list_to_set.
  - cbn. unfold shardIds. rewrite length_map, length_seq. lia.
  - constructor; [rewrite elem_shardIds; lia|]. unfold shardIds. apply NoDup_fmap_2; [|apply NoDup_seq].
    intros a b. apply Nat2Z.inj.
Qed.

(** What makes [setNodesPerShards] accept the lists. *)
Record acceptable (p : ChainParametersByEpochConfig) (n : Z) (E : ShardMap) : Prop := {
  ac_shards : 0 <= n < MetachainShardId;
  ac_dom k : is_Some (E !! k) <-> hasShard n k;
  ac_group : 0 < ShardConsensusGroupSize p /\ 0 < MetachainConsensusGroupSize p;
  ac_size k : hasShard n k ->
    (if k =? MetachainShardId then MetachainConsensusGroupSize p else ShardConsensusGroupSize p)
      <= Z.of_nat (length (listOf E k));
  ac_weights k : hasShard n k -> valid (ValidatorsWeights (listOf E k)) /\
    sum (ValidatorsWeights (listOf E k)) < 2 ^ 63 /\ Z.of_nat (length (listOf E k)) < 2 ^ 32;
}.

Lemma acceptable_pos p n E k : acceptable p n E -> hasShard n k -> 0 < Z.of_nat (length (listOf E k)).
Proof. intros [Ns _ [G1 G2] Sz _] Hk. specialize (Sz k Hk). destruct (k =? MetachainShardId); lia. Qed.

Lemma acceptable_servable epoch p n E cfg : acceptable p n E -> chainParametersOr epoch = p ->
  eligibleMap cfg = E -> cfg_nbShards cfg = n -> createSelectors cfg = Ok (selectors cfg) -> servable epoch cfg.
Proof.
  intros A Hp He Hn Hsel. pose proof A as [Ns D G Sz Wt]. split; rewrite Hn, He.
  - intros shard Hs. destruct (proj2 (D shard) Hs) as [l El]. rewrite <- He in El.
    destruct (createSelectors_Ok cfg _ Hsel shard l El) as (x & Ex & Nx). exists x. split; [done|].
    unfold listOf. by rewrite <- He, El.
  - intros shard Hs. specialize (Sz shard Hs). unfold ConsensusGroupSizeForShardAndEpoch. rewrite Hp.
    destruct (shard =? MetachainShardId); lia.
  - intros shard Hs. by destruct (Wt shard Hs) as (_ & ? & ?).
Qed.

Lemma setNodesPerShards_ok p n E W L Sh epoch low s : ChainParametersForEpoch epoch = Some p -> acceptable p n E ->
  exists cfg s', setNodesPerShards (Some E) (Some W) L Sh epoch low s = (s', Ok ()) /\
    nodesConfig s' = <[epoch := cfg]> (nodesConfig s) /\
    eligibleMap cfg = E /\ waitingMap cfg = W /\ cfg_nbShards cfg = n /\ servable epoch cfg.
Proof.
  intros Hp A. pose proof A as [Ns D G Sz Wt]. unfold setNodesPerShards. rewrite Hp.
  assert (Em : Z.of_nat (length (listOf E MetachainShardId)) <? MetachainConsensusGroupSize p = false).
  { apply Z.ltb_ge. apply (Sz MetachainShardId). by right. }
  rewrite Em, (shardMap_size n E) by done. replace (u32 (n + 1 - 1)) with n.
  2: { replace (n + 1 - 1) with n by lia. unfold u32. rewrite Z.mod_small; [done|]. unfold MetachainShardId in Ns. lia. }
  destruct (countEligible_Ok (shardIds n) E (ShardConsensusGroupSize p)) with
    (total := Z.of_nat (length (listOf E MetachainShardId))) as [total Ht].
  { intros k Hk%elem_shardIds. specialize (Sz k (or_introl Hk)).
    by rewrite (proj2 (Z.eqb_neq _ _)) in Sz by lia. }
  rewrite Ht. cbv zeta. destruct (computeShardForSelfPublicKey _ s) as [shard isv].
  match goal with |- context [createSelectors ?c] => destruct (createSelectors_total c) as [sel Hsel] end.
  { intros k l Ekl. cbn in Ekl. assert (Hk : hasShard n k) by (apply D; by eexists).
    pose proof (acceptable_pos p n E k A Hk) as Pos. destruct (Wt k Hk) as (V & _ & Bl).
    unfold listOf in Pos, V, Bl. rewrite Ekl in Pos, V, Bl. cbn in Pos, V, Bl.
    split_and!; [|done|done]. intros ->. cbn in Pos. lia. }
  rewrite Hsel. eexists. eexists. split; [done|].
  split_and!; [done..|]. apply (acceptable_servable epoch p n E); [done| |done|done|].
  - unfold chainParametersOr. by rewrite Hp.
  - exact Hsel.
Qed.
End Config.

(** ** The cache *)

(** What the coordinator relies on in its cache. *)
Class CacherOk (C : Type) {CC : Cacher C} : Prop := {
  get_put k k' v (c : C) : forall w, cache_Get k (cache_Put k' v c) = Some w ->
    (k = k' /\ w = v) \/ cache_Get k c = Some w;
  get_clear k (c : C) : cache_Get k (cache_Clear c) = None;
}.

Section Cache.
Context {C B : Type} {CC : Cacher C} {CCok : CacherOk C} {BS : BootStorer B} {Env : CoordinatorEnv}.
Context {RE : RegistryEncoding} {SH : ShuffleHasher} {H : SelectionHasher}.
Abbreviation NC := (indexHashedNodesCoordinator C B).
Implicit Types (s : NC).

(** Every cached group is the group of its key in the stored lists. *)
Definition coherent s : Prop := forall r round shard epoch cg cfg,
  0 <= round -> 0 <= shard -> 0 <= epoch -> nodesConfig s !! epoch = Some cfg ->
  cache_Get (consensusKey r round shard epoch) (consensusGroupCacher s) = Some cg ->
  groupOf cfg r round shard epoch = Ok (leader cg, consensusGroup cg).

Lemma ComputeConsensusGroup_spec r round shard epoch s s' res : 0 <= round -> 0 <= shard -> 0 <= epoch -> coherent s ->
  ComputeConsensusGroup r round shard epoch s = (s', res) ->
  res = consensusOf (nodesConfig s) r round shard epoch /\ coherent s' /\ nodesConfig s' = nodesConfig s.
Proof.
  intros Hr Hs He Co. unfold ComputeConsensusGroup, consensusOf. destruct r as [|r0 r].
  { intros [= <- <-]. done. }
  rewrite bool_decide_false by done. destruct (_ <? _); [by intros [= <- <-]|].
  destruct (nodesConfig s !! epoch) as [cfg|] eqn:Ec; [|by intros [= <- <-]].
  assert (Eb : (cfg_nbShards cfg <=? shard) && negb (shard =? MetachainShardId)
               = negb (bool_decide (hasShard (cfg_nbShards cfg) shard))).
  { unfold hasShard. case_bool_decide as Hh; destruct (Z.leb_spec (cfg_nbShards cfg) shard),
      (Z.eqb_spec shard MetachainShardId); cbn; try done; exfalso; lia. }
  rewrite Eb. case_bool_decide as Hh; cbn [negb]; [|by intros [= <- <-]].
  unfold searchConsensusForKey. destruct (cache_Get _ _) as [cg|] eqn:Eg.
  { intros [= <- <-]. split; [|done]. symmetry. by eapply Co. }
  fold (groupOf cfg (r0 :: r) round shard epoch).
  destruct (groupOf cfg (r0 :: r) round shard epoch) as [[ldr group]|e] eqn:Eo; [|by intros [= <- <-]].
  intros [= <- <-]. split; [done|]. split; [|done].
  intros r' round' shard' epoch' cg cfg' Hr' Hs' He' Ec' Eg'. cbn in Ec', Eg'.
  apply get_put in Eg' as [[Ek ->]|Eg']; [|by eapply Co].
  destruct (consensusKey_inj r' (r0 :: r) round' round shard' shard epoch' epoch Hr' Hr Hs' Hs He' He Ek)
    as (-> & -> & -> & ->). rewrite Ec in Ec'. injection Ec' as <-. exact Eo.
Qed.

(** The lists may only be removed, unless the cache is cleared. *)
Lemma coherent_sub s s' : coherent s -> consensusGroupCacher s' = consensusGroupCacher s ->
  (forall epoch cfg, nodesConfig s' !! epoch = Some cfg -> nodesConfig s !! epoch = Some cfg) -> coherent s'.
Proof. intros Co Ec Sub r round shard epoch cg cfg Hr Hs He E1 E2. rewrite Ec in E2. eapply Co; eauto. Qed.

Lemma coherent_clear s : (forall k, cache_Get k (consensusGroupCacher s) = None) -> coherent s.
Proof. intros N r round shard epoch cg cfg _ _ _ _ E. by rewrite N in E. Qed.

Lemma saveState_keeps key epoch s : nodesConfig (saveState key epoch s).1 = nodesConfig s /\
  consensusGroupCacher (saveState key epoch s).1 = consensusGroupCacher s.
Proof. unfold saveState. destruct (GetRegistryData _ _); [|done]. by destruct (boot_Put _ _ _). Qed.

Lemma EpochStartPrepare_coherent hdr body s : coherent s -> coherent (EpochStartPrepare hdr body s).
Proof.
  intros Co. unfold EpochStartPrepare. destruct (negb _); [done|]. destruct (negb _); [done|].
  destruct (_ && _); [done|]. cbv zeta. set (s1 := updateEpochFlags (hdr_Epoch hdr) s).
  assert (C1 : coherent s1) by (by apply (coherent_sub s)).
  destruct (createValidatorInfoFromBody _ _) as [infos|]; [|done].
  destruct (computeNodesConfigFromList _ _) as [cfg|]; [|done]. destruct (ComputeAdditionalLeaving infos) as [m|]; [|done].
  destruct (runShuffler _ s1) as [s2 [res|e]] eqn:R.
  - apply coherent_clear. intros k. cbn. apply get_clear.
  - unfold runShuffler in R. destruct (UpdateNodeLists _ _) as [r x]. injection R as <- ->. by apply (coherent_sub s1).
Qed.

Lemma EpochStartAction_coherent hdr s : coherent s -> coherent (EpochStartAction hdr s).
Proof.
  intros Co. unfold EpochStartAction. cbv zeta. set (s1 := nc_with_epoch _ s).
  assert (C1 : coherent s1) by (by apply (coherent_sub s)).
  destruct (saveState_keeps (savedStateKey s1) (hdr_Epoch hdr) s1) as [K1 K2].
  set (s2 := (saveState _ _ s1).1) in *.
  assert (C2 : coherent s2) by (apply (coherent_sub s1); [done|done|]; intros epoch cfg E; by rewrite K1 in E).
  destruct (_ <=? _); [|done]. apply (coherent_sub s2); [done|done|]. intros epoch cfg E. cbn in E.
  by apply map_lookup_filter_Some in E as [E _].
Qed.

(** ** Runs of the coordinator *)

(** The operations that change the lists or the cache, from a state whose
    cache is empty, as it is when the node starts and after every start of an
    epoch.  [held]: the lists that there were since then; [replaced]: lists
    were loaded or set over those that the cache may be about. *)
Inductive ncRun : list (gmap Z epochNodesConfig) -> bool -> NC -> Prop :=
| run_empty s : (forall k, cache_Get k (consensusGroupCacher s) = None) -> ncRun [] false s
| run_compute held replaced r round shard epoch s : 0 <= round -> 0 <= shard -> 0 <= epoch ->
    ncRun held replaced s -> ncRun held replaced (ComputeConsensusGroup r round shard epoch s).1
| run_prepare held replaced hdr body s :
    ncRun held replaced s -> ncRun (nodesConfig s :: held) replaced (EpochStartPrepare hdr body s)
| run_action held replaced hdr s :
    ncRun held replaced s -> ncRun (nodesConfig s :: held) replaced (EpochStartAction hdr s)
| run_load held replaced key s : ncRun held replaced s -> ncRun (nodesConfig s :: held) true (LoadState key s).1
| run_set held replaced epoch randomness infos s :
    ncRun held replaced s -> ncRun (nodesConfig s :: held) true (SetNodesConfigFromValidatorsInfo epoch randomness infos s).1.

Lemma run_coherent held s : ncRun held false s -> coherent s.
Proof.
  intros R. remember false as replaced eqn:E. induction R as [s N|? ? r round shard epoch s Hr Hs He _ IH| | | |]; try done.
  - by apply coherent_clear.
  - destruct (ComputeConsensusGroup r round shard epoch s) as [s1 res] eqn:Ec.
    by destruct (ComputeConsensusGroup_spec _ _ _ _ _ _ _ Hr Hs He (IH E) Ec) as (_ & ? & _).
  - apply EpochStartPrepare_coherent. auto.
  - apply EpochStartAction_coherent. auto.
Qed.

(** Every cached group is that of its key in lists that were held. *)
Definition cachedFrom (held : list (gmap Z epochNodesConfig)) s : Prop := forall r round shard epoch cg,
  0 <= round -> 0 <= shard -> 0 <= epoch ->
  cache_Get (consensusKey r round shard epoch) (consensusGroupCacher s) = Some cg ->
  exists m cfg, m ∈ nodesConfig s :: held /\ m !! epoch = Some cfg /\ hasShard (cfg_nbShards cfg) shard /\
    groupOf cfg r round shard epoch = Ok (leader cg, consensusGroup cg).

(** A step that puts nothing in the cache. *)
Lemma cachedFrom_next held s s' : cachedFrom held s ->
  (forall k cg, cache_Get k (consensusGroupCacher s') = Some cg -> cache_Get k (consensusGroupCacher s) = Some cg) ->
  cachedFrom (nodesConfig s :: held) s'.
Proof.
  intros Cf Sub r round shard epoch cg Hr Hs He E. destruct (Cf r round shard epoch cg Hr Hs He (Sub _ _ E)) as (m & cfg & Hm & R).
  exists m, cfg. split; [by right|done].
Qed.

Lemma EpochStartPrepare_cache hdr body s k cg :
  cache_Get k (consensusGroupCacher (EpochStartPrepare hdr body s)) = Some cg -> cache_Get k (consensusGroupCacher s) = Some cg.
Proof.
  unfold EpochStartPrepare. destruct (negb _); [done|]. destruct (negb _); [done|].
  destruct (_ && _); [done|]. cbv zeta. set (s1 := updateEpochFlags (hdr_Epoch hdr) s).
  destruct (createValidatorInfoFromBody _ _) as [infos|]; [|done].
  destruct (computeNodesConfigFromList _ _) as [cfg|]; [|done]. destruct (ComputeAdditionalLeaving infos) as [m|]; [|done].
  destruct (runShuffler _ s1) as [s2 [res|e]] eqn:R.
  - cbn. by rewrite get_clear.
  - unfold runShuffler in R. destruct (UpdateNodeLists _ _) as [r x]. by injection R as <- ->.
Qed.

Lemma EpochStartAction_cache hdr s : consensusGroupCacher (EpochStartAction hdr s) = consensusGroupCacher s.
Proof.
  unfold EpochStartAction. cbv zeta. set (s1 := nc_with_epoch _ s).
  destruct (saveState_keeps (savedStateKey s1) (hdr_Epoch hdr) s1) as [_ K2]. destruct (_ <=? _); exact K2.
Qed.

Lemma LoadState_cache key s : consensusGroupCacher (LoadState key s).1 = consensusGroupCacher s.
Proof.
  unfold LoadState, baseLoadState. destruct (boot_Get _ _) as [data|]; [|done].
  destruct (CreateNodesCoordinatorRegistry data) as [config|]; [|done]. cbv zeta. by destruct (registryToNodesCoordinator _ _).
Qed.

Lemma setNodesPerShards_cache eligible waiting leaving shuffledOut epoch low s :
  consensusGroupCacher (setNodesPerShards eligible waiting leaving shuffledOut epoch low s).1 = consensusGroupCacher s.
Proof.
  unfold setNodesPerShards. destruct eligible as [eligible|]; [|done]. destruct waiting as [waiting|]; [|done].
  destruct (ChainParametersForEpoch epoch); [|done]. cbv zeta. destruct (_ <? _); [done|]. destruct (countEligible_loop _ _ _ _); [|done].
  destruct (computeShardForSelfPublicKey _ _). destruct (createSelectors _); [done|]. by destruct (nodesConfig s !! epoch).
Qed.

Lemma SetNodesConfig_cache epoch randomness infos s :
  consensusGroupCacher (SetNodesConfigFromValidatorsInfo epoch randomness infos s).1 = consensusGroupCacher s.
Proof.
  unfold SetNodesConfigFromValidatorsInfo. rewrite (se_bind_eq _ _ s s s) by done.
  unfold se_lift, mbind, se_bind. destruct (computeNodesConfigFromList _ _) as [cfg|]; [|done].
  destruct (ComputeAdditionalLeaving infos) as [m|]; [|done]. destruct (ChainParametersForEpoch epoch); [|done].
  unfold runShuffler. destruct (UpdateNodeLists _ _) as [r [res|]]; [|done]. unfold setShuffled.
  destruct (createActuallyLeavingPerShards _ _ _) as [leavingNodes rest].
  match goal with |- context [setNodesPerShards ?a ?b ?c ?d ?e ?f ?t] => pose proof (setNodesPerShards_cache a b c d e f t) as K;
    destruct (setNodesPerShards a b c d e f t) as [s3 [[]|]] end; cbn in *; [|exact K].
  unfold removeOlderEpochs. destruct (_ <? _); [exact K|]. by destruct (_ <? _).
Qed.

(** The group that is returned is that of lists that were held. *)
Lemma ComputeConsensusGroup_held held r round shard epoch s s' res : 0 <= round -> 0 <= shard -> 0 <= epoch ->
  cachedFrom held s -> ComputeConsensusGroup r round shard epoch s = (s', res) ->
  (exists m, m ∈ nodesConfig s :: held /\ res = consensusOf m r round shard epoch) /\ cachedFrom held s' /\
  nodesConfig s' = nodesConfig s.
Proof.
  intros Hr Hs He Cf. unfold ComputeConsensusGroup.
  assert (Now : forall res, res = consensusOf (nodesConfig s) r round shard epoch ->
    exists m, m ∈ nodesConfig s :: held /\ res = consensusOf m r round shard epoch)
    by (intros; exists (nodesConfig s); split; [left|done]).
  assert (Er : r <> [] -> maxRandomnessSize <? Z.of_nat (length r) = false -> forall (m : gmap Z epochNodesConfig) cfg,
    m !! epoch = Some cfg -> consensusOf m r round shard epoch =
      if bool_decide (hasShard (cfg_nbShards cfg) shard) then groupOf cfg r round shard epoch else Err ErrInvalidShardId).
  { intros N L m cfg E. unfold consensusOf. by rewrite bool_decide_false, L, E. }
  destruct r as [|r0 r]; [intros [= <- <-]; split; [by apply Now|done]|]. specialize (Er ltac:(done)).
  destruct (maxRandomnessSize <? _) eqn:L.
  { intros [= <- <-]. split; [|done]. apply Now. unfold consensusOf. by rewrite bool_decide_false, L. }
  specialize (Er eq_refl). destruct (nodesConfig s !! epoch) as [cfg|] eqn:Ec.
  2:{ intros [= <- <-]. split; [|done]. apply Now. unfold consensusOf. by rewrite bool_decide_false, L, Ec. }
  assert (Eb : (cfg_nbShards cfg <=? shard) && negb (shard =? MetachainShardId)
               = negb (bool_decide (hasShard (cfg_nbShards cfg) shard))).
  { unfold hasShard. case_bool_decide as Hh; destruct (Z.leb_spec (cfg_nbShards cfg) shard),
      (Z.eqb_spec shard MetachainShardId); cbn; try done; exfalso; lia. }
  rewrite Eb. case_bool_decide as Hh; cbn [negb].
  2:{ intros [= <- <-]. split; [|done]. apply Now. by rewrite (Er _ _ Ec), bool_decide_false. }
  unfold searchConsensusForKey. destruct (cache_Get _ _) as [cg|] eqn:Eg.
  { intros [= <- <-]. split; [|done]. destruct (Cf _ _ _ _ _ Hr Hs He Eg) as (m & cfg' & Hm & Em & Sh & G).
    exists m. split; [done|]. by rewrite (Er _ _ Em), bool_decide_true. }
  fold (groupOf cfg (r0 :: r) round shard epoch).
  destruct (groupOf cfg (r0 :: r) round shard epoch) as [[ldr group]|e] eqn:Eo; intros [= <- <-];
    (split; [apply Now; by rewrite (Er _ _ Ec), bool_decide_true|]); [|done]. split; [|done].
  intros r' round' shard' epoch' cg Hr' Hs' He' Eg'. cbn in Eg'.
  apply get_put in Eg' as [[Ek ->]|Eg']; [|by apply Cf].
  destruct (consensusKey_inj r' (r0 :: r) round' round shard' shard epoch' epoch Hr' Hr Hs' Hs He' He Ek)
    as (-> & -> & -> & ->). exists (nodesConfig s), cfg. split; [left|done].
Qed.

Lemma run_cachedFrom held replaced s : ncRun held replaced s -> cachedFrom held s.
Proof.
  induction 1 as [s N|? ? r round shard epoch s Hr Hs He _ IH|held ? hdr body s _ IH|held ? hdr s _ IH|held ? key s _ IH|
                  held ? epoch randomness infos s _ IH].
  - intros r round shard epoch cg _ _ _ E. by rewrite N in E.
  - destruct (ComputeConsensusGroup r round shard epoch s) as [s1 res] eqn:Ec.
    by destruct (ComputeConsensusGroup_held _ _ _ _ _ _ _ _ Hr Hs He IH Ec) as (_ & ? & _).
  - apply cachedFrom_next; [done|]. apply EpochStartPrepare_cache.
  - apply cachedFrom_next; [done|]. intros k cg. by rewrite EpochStartAction_cache.
  - apply cachedFrom_next; [done|]. intros k cg. by rewrite LoadState_cache.
  - apply cachedFrom_next; [done|]. intros k cg. by rewrite SetNodesConfig_cache.
Qed.
End Cache.

Definition isUint32 (z : Z) : Prop := 0 <= z < 2 ^ 32.

Lemma itoa_inj x y : itoa x = itoa y -> x = y.
Proof. unfold itoa. intros E. by apply (inj pretty) in E. Qed.

Lemma ParseInt64_uint32 z : isUint32 z -> ParseInt64 (itoa z) = Some z /\ u32 z = z.
Proof.
  unfold isUint32. intros Bz. split; [apply ParseInt64_itoa; lia|]. unfold u32. by apply Z.mod_small.
Qed.

(** ** Maps with printed keys *)

Lemma parse_loop {A A'} (g : A -> result nc_error A') (l : list (string * A)) : forall (acc : gmap Z A'),
  NoDup l.*1 -> (forall k a, (k, a) ∈ l -> exists z b, k = itoa z /\ isUint32 z /\ g a = Ok b) ->
  exists r, parseKeys_loop g l acc = Ok r /\
    (forall z a b, (itoa z, a) ∈ l -> g a = Ok b -> r !! z = Some b) /\
    (forall z, itoa z ∉ l.*1 -> r !! z = acc !! z).
Proof.
  induction l as [|[k a] l IH]; intros acc ND G; cbn [parseKeys_loop].
  - exists acc. split; [done|]. split; [by intros z a b ?%elem_of_nil|done].
  - cbn in ND. apply NoDup_cons in ND as [Nk ND]. destruct (G k a) as (z & b & -> & Bz & Eb); [left|].
    destruct (ParseInt64_uint32 z Bz) as [-> ->]. rewrite Eb. cbn.
    destruct (IH (<[z := b]> acc) ND) as (r & -> & R1 & R2); [intros k' a' I; apply G; by right|].
    exists r. split; [done|]. split.
    + intros z' a' b' [[= Ez ->]|I]%elem_of_cons Eb'; [|by eapply R1]. apply itoa_inj in Ez as ->.
      rewrite R2 by done. rewrite Eb' in Eb. injection Eb as <-. apply lookup_insert_eq.
    + intros z' [N1 N2]%not_elem_of_cons. rewrite R2 by done. apply lookup_insert_ne. intros ->. by apply N1.
Qed.

(** The map read from a map of strings [M] is [m]. *)
Lemma parse_map {A A'} (g : A -> result nc_error A') (M : gmap string A) (m : gmap Z A') :
  (forall k a, M !! k = Some a -> exists z b, k = itoa z /\ isUint32 z /\ g a = Ok b /\ m !! z = Some b) ->
  (forall z b, m !! z = Some b -> is_Some (M !! itoa z)) ->
  parseKeys_loop g (map_to_list M) ∅ = Ok m.
Proof.
  intros G1 G2. destruct (parse_loop g (map_to_list M) ∅) as (r & -> & R1 & R2).
  - apply NoDup_fst_map_to_list.
  - intros k a I%elem_of_map_to_list. destruct (G1 k a I) as (z & b & ? & ? & ? & _). eauto.
  - f_equal. apply map_eq. intros z. destruct (M !! itoa z) as [a|] eqn:E.
    + destruct (G1 _ _ E) as (z' & b & Ez & _ & Eb & Em). apply itoa_inj in Ez as <-. rewrite Em.
      eapply R1; [|exact Eb]. by apply elem_of_map_to_list.
    + rewrite R2, lookup_empty.
      * destruct (m !! z) eqn:Em; [|done]. apply G2 in Em. rewrite E in Em. by destruct Em.
      * intros ([k a] & Ek & I)%list_elem_of_fmap. cbn in Ek. subst k. apply elem_of_map_to_list in I. congruence.
Qed.

Lemma printKeys_lookup {A A'} (f : A -> A') (m : gmap Z A) k a :
  printKeys f m !! k = Some a <-> exists z v, k = itoa z /\ m !! z = Some v /\ a = f v.
Proof.
  unfold printKeys.
  assert (ND : NoDup (List.map (fun kv : Z * A => (itoa kv.1, f kv.2)) (map_to_list m)).*1).
  { assert (X : (List.map (fun kv : Z * A => (itoa kv.1, f kv.2)) (map_to_list m)).*1 = itoa <$> (map_to_list m).*1).
    { change (List.map (fun kv : Z * A => (itoa kv.1, f kv.2)) (map_to_list m))
        with ((fun kv : Z * A => (itoa kv.1, f kv.2)) <$> map_to_list m). by rewrite <- !list_fmap_compose. }
    rewrite X. apply NoDup_fmap_2; [exact itoa_inj|apply NoDup_fst_map_to_list]. }
  split.
  - intros E%elem_of_list_to_map_2. apply list_elem_of_fmap in E as ([z v] & [= -> ->] & I).
    apply elem_of_map_to_list in I. by exists z, v.
  - intros (z & v & -> & E & ->). apply elem_of_list_to_map_1; [exact ND|].
    apply list_elem_of_fmap. exists (z, v). split; [done|]. by apply elem_of_map_to_list.
Qed.

(** ** Lists *)

Lemma stored_list l : serializableValidatorArrayToValidatorArray (ValidatorArrayToSerializableValidatorArray l) = l.
Proof.
  unfold serializableValidatorArrayToValidatorArray, ValidatorArrayToSerializableValidatorArray.
  rewrite List.map_map. rewrite <- (List.map_id l) at 2. apply List.map_ext. by intros [].
Qed.

Definition uintKeys (m : ShardMap) : Prop := forall k, is_Some (m !! k) -> isUint32 k.

Lemma stored_map m : uintKeys m ->
  serializableValidatorsMapToValidatorsMap (printKeys ValidatorArrayToSerializableValidatorArray m) = Ok m.
Proof.
  intros U. apply parse_map.
  - intros k a (z & v & -> & E & ->)%printKeys_lookup. exists z, v.
    split_and!; [done|apply U; by eexists|by rewrite stored_list|done].
  - intros z b E. eexists. apply printKeys_lookup. eauto.
Qed.

(** ** Epochs *)

(** What is stored of an epoch can be read again. *)
Record storable {Env : CoordinatorEnv} (cfg : epochNodesConfig) : Prop := {
  st_eligible : uintKeys (eligibleMap cfg);
  st_waiting : uintKeys (waitingMap cfg);
  st_leaving : uintKeys (leavingMap cfg);
  st_shuffledOut : uintKeys (shuffledOutMap cfg);
  st_shards : 2 <= Z.of_nat (base.size (eligibleMap cfg)) < 2 ^ 32;
  st_selectors : exists sel, createSelectors cfg = Ok sel;
}.

(** [cfg'] is [cfg] as it is read again; the shuffled out validators and the
    low waiting list flag are only in the registry with auction. *)
Record restored {Env : CoordinatorEnv} (withAuction : bool) (cfg cfg' : epochNodesConfig) : Prop := {
  rs_eligible : eligibleMap cfg' = eligibleMap cfg;
  rs_waiting : waitingMap cfg' = waitingMap cfg;
  rs_leaving : leavingMap cfg' = leavingMap cfg;
  rs_shuffledOut : shuffledOutMap cfg' = if withAuction then shuffledOutMap cfg else ∅;
  rs_low : cfg_lowWaitingList cfg' = if withAuction then cfg_lowWaitingList cfg else false;
  rs_nbShards : cfg_nbShards cfg' = Z.of_nat (base.size (eligibleMap cfg)) - 1;
  rs_selectors : createSelectors cfg = Ok (selectors cfg');
}.

(** What the coordinator relies on in its storer and its encoders. *)
Class BootStorerOk (B : Type) {BS : BootStorer B} : Prop :=
  boot_get_put k v (b b' : B) : boot_Put k v b = (b', Ok ()) -> boot_Get k b' = Ok v.
Class RegistryEncodingOk {RE : RegistryEncoding} : Prop := {
  auction_roundtrip r data : marshaller_Marshal (RegistryWithAuction r) = Ok data -> marshaller_Unmarshal data = Ok r;
  json_roundtrip r data : json_Marshal (OldRegistry r) = Ok data -> json_Unmarshal data = Ok r;
  json_is_not_auction r data : json_Marshal (OldRegistry r) = Ok data -> exists e, marshaller_Unmarshal data = Err e;
}.

Section Epochs.
Context {C B : Type} {CC : Cacher C} {BS : BootStorer B} {BSok : BootStorerOk B} {Env : CoordinatorEnv}.
Context {RE : RegistryEncoding} {REok : RegistryEncodingOk}.
Abbreviation NC := (indexHashedNodesCoordinator C B).
Implicit Types (s : NC).

Definition handlerOf (withAuction : bool) (cfg : epochNodesConfig) : EpochValidatorsHandler :=
  if withAuction then EpochWithAuction (epochNodesConfigToEpochValidatorsWithAuction cfg)
  else OldEpoch (epochNodesConfigToEpochValidators cfg).

Lemma registryEpoch_spec withAuction cfg s : storable cfg ->
  exists cfg', registryEpoch (handlerOf withAuction cfg) s = Ok cfg' /\ restored withAuction cfg cfg'.
Proof.
  intros [U1 U2 U3 U4 Sh [sel Es]]. unfold registryEpoch, epochValidatorsToEpochNodesConfig.
  destruct withAuction; cbn [handlerOf GetEligibleValidators GetWaitingValidators GetLeavingValidators
    epochNodesConfigToEpochValidatorsWithAuction epochNodesConfigToEpochValidators Eligible Waiting Leaving ShuffledOut
    LowWaitingList EligibleValidators WaitingValidators LeavingValidators];
    rewrite !stored_map by done; cbn; unfold u32; rewrite Z.mod_small by lia;
    rewrite (proj2 (Z.ltb_ge _ _)) by lia;
    match goal with |- context [createSelectors ?c] => assert (createSelectors c = Ok sel) as -> by exact Es end;
    cbn; eexists; (split; [done|]); by split.
Qed.

Lemma elem_storedEpochs s e :
  e ∈ storedEpochs s <-> (getMinAndLastEpoch s).1 <= e <= (getMinAndLastEpoch s).2.
Proof.
  unfold storedEpochs. destruct (getMinAndLastEpoch s) as [mn lt]. cbn. rewrite list_elem_of_fmap. split.
  - intros (i & -> & Hi%elem_of_seq). lia.
  - intros Hb. exists (Z.to_nat (e - mn)). rewrite elem_of_seq. lia.
Qed.

Lemma lastEpoch_fold ks : forall z, let r := fold_left (fun lastEpoch epoch => if lastEpoch <? epoch then epoch else lastEpoch) ks z in
  z <= r /\ forall e, e ∈ ks -> e <= r.
Proof.
  induction ks as [|k ks IH]; intros z; cbn.
  - split; [lia|by intros e ?%elem_of_nil].
  - destruct (IH (if z <? k then k else z)) as [I1 I2]. destruct (Z.ltb_spec z k); (split; [lia|]);
      intros e [->|He]%elem_of_cons; [lia|by apply I2|lia|by apply I2].
Qed.

(** The last four epochs are stored. *)
Lemma stored_epoch s e cfg : nodesConfig s !! e = Some cfg -> 0 <= e ->
  e ∈ storedEpochs s <-> getLastEpochConfig s - nodesCoordinatorStoredEpochs < e.
Proof.
  intros E He. rewrite elem_storedEpochs. unfold getMinAndLastEpoch. cbn.
  assert (L : e <= getLastEpochConfig s).
  { unfold getLastEpochConfig. apply lastEpoch_fold. apply list_elem_of_fmap. exists (e, cfg).
    split; [done|]. by apply elem_of_map_to_list. }
  unfold nodesCoordinatorStoredEpochs. destruct (Z.leb_spec 4 (getLastEpochConfig s)); lia.
Qed.

Lemma epochs_fold {A} (f : epochNodesConfig -> A) (cfgs : gmap Z epochNodesConfig) es : forall (m : gmap string A) k a,
  fold_left (addEpoch f cfgs) es m !! k = Some a ->
  m !! k = Some a \/ exists e d, k = itoa e /\ e ∈ es /\ cfgs !! e = Some d /\ a = f d.
Proof.
  induction es as [|e es IH]; intros m k a; cbn; [by left|]. intros E. apply IH in E as [E|(e' & d & ? & I & ?)].
  - unfold addEpoch in E. destruct (cfgs !! e) as [d|] eqn:Ed; [|by left]. destruct (decide (k = itoa e)) as [->|N].
    + rewrite lookup_insert_eq in E. injection E as <-. right. exists e, d. split_and!; [done|left|done|done].
    + rewrite lookup_insert_ne in E by done. by left.
  - right. exists e', d. split_and!; [done|by right|tauto|tauto].
Qed.

Lemma epochs_fold_in {A} (f : epochNodesConfig -> A) (cfgs : gmap Z epochNodesConfig) es : forall (m : gmap string A) e,
  (is_Some (m !! itoa e) \/ (e ∈ es /\ is_Some (cfgs !! e))) ->
  is_Some (fold_left (addEpoch f cfgs) es m
             !! itoa e).
Proof.
  induction es as [|e' es IH]; intros m e; cbn; [by intros [?|[?%elem_of_nil _]]|]. intros G. apply IH.
  destruct G as [G|[[->|G]%elem_of_cons Se]].
  - left. unfold addEpoch. destruct (cfgs !! e'); [|done]. destruct (decide (itoa e' = itoa e)) as [->|N];
      [rewrite lookup_insert_eq; by eexists|by rewrite lookup_insert_ne].
  - left. unfold addEpoch. destruct Se as [d ->]. rewrite lookup_insert_eq. by eexists.
  - by right.
Qed.

Lemma GetEpochsConfig_spec epoch s k : 
  let h := handlerOf (StakingV4Step2Epoch <=? epoch) in
  GetEpochsConfig (NodesCoordinatorToRegistry epoch s) !! k = h <$> (epochsToRegistry id s !! k).
Proof.
  cbv zeta. unfold NodesCoordinatorToRegistry.
  assert (G : forall A (f : epochNodesConfig -> A), epochsToRegistry f s !! k = f <$> (epochsToRegistry id s !! k)).
  { intros A f. unfold epochsToRegistry. generalize (storedEpochs s). intros es.
    assert (X : forall (m1 : gmap string A) m2, m1 !! k = f <$> m2 !! k ->
      fold_left (addEpoch f (nodesConfig s)) es m1 !! k
      = f <$> fold_left (addEpoch id (nodesConfig s)) es m2 !! k).
    { induction es as [|e es IH]; intros m1 m2 E; cbn; [done|]. apply IH. unfold addEpoch. destruct (nodesConfig s !! e); [|done].
      destruct (decide (itoa e = k)) as [->|N]; [by rewrite !lookup_insert_eq|by rewrite !lookup_insert_ne]. }
    apply X. by rewrite !lookup_empty. }
  destruct (_ <=? _); cbn [GetEpochsConfig nodesCoordinatorToRegistryWithAuction nodesCoordinatorToOldRegistry
    EpochsConfigWithAuction EpochsConfig]; rewrite lookup_fmap, G; by destruct (epochsToRegistry id s !! k).
Qed.

Lemma epochsToRegistry_lookup s k cfg : epochsToRegistry id s !! k = Some cfg ->
  exists e, k = itoa e /\ e ∈ storedEpochs s /\ nodesConfig s !! e = Some cfg.
Proof.
  intros E. apply epochs_fold in E as [E|(e & d & ? & ? & ? & ->)]; [by rewrite lookup_empty in E|by exists e].
Qed.

(** The epochs that a registry of [s] holds, as they are read again. *)
Definition reloaded (withAuction : bool) s (m : gmap Z epochNodesConfig) : Prop := forall e,
  match nodesConfig s !! e with
  | Some cfg => if getLastEpochConfig s - nodesCoordinatorStoredEpochs <? e
                then exists cfg', m !! e = Some cfg' /\ restored withAuction cfg cfg' else m !! e = None
  | None => m !! e = None
  end.

Lemma registry_roundtrip epoch s s' :
  (forall e cfg, nodesConfig s !! e = Some cfg -> isUint32 e /\ storable cfg) ->
  exists m, registryToNodesCoordinator (NodesCoordinatorToRegistry epoch s) s' = Ok m /\
    reloaded (StakingV4Step2Epoch <=? epoch) s m.
Proof.
  intros G. unfold registryToNodesCoordinator. set (M := GetEpochsConfig _). set (wa := _ <=? epoch).
  assert (ML : forall k a, M !! k = Some a -> exists e cfg, k = itoa e /\ e ∈ storedEpochs s /\
    nodesConfig s !! e = Some cfg /\ a = handlerOf wa cfg).
  { intros k a E. unfold M in E. rewrite GetEpochsConfig_spec in E. destruct (epochsToRegistry id s !! k) as [cfg|] eqn:Ek; [|done].
    injection E as <-. destruct (epochsToRegistry_lookup s k cfg Ek) as (e & ? & ? & ?). by exists e, cfg. }
  destruct (parse_loop (fun ev => registryEpoch ev s') (map_to_list M) ∅) as (m & -> & R1 & R2).
  { apply NoDup_fst_map_to_list. }
  { intros k a I%elem_of_map_to_list. destruct (ML k a I) as (e & cfg & -> & _ & E & ->).
    destruct (G e cfg E) as [U St]. destruct (registryEpoch_spec wa cfg s' St) as (cfg' & Er & _). eauto. }
  exists m. split; [done|]. intros e.
  assert (None' : ~ is_Some (M !! itoa e) -> m !! e = None).
  { intros N. rewrite R2; [apply lookup_empty|]. intros ([k a] & Ek & I)%list_elem_of_fmap. cbn in Ek. subst k.
    apply N. apply elem_of_map_to_list in I. by eexists. }
  destruct (nodesConfig s !! e) as [cfg|] eqn:E.
  - destruct (G e cfg E) as [U St]. pose proof (stored_epoch s e cfg E ltac:(unfold isUint32 in U; lia)) as Hst.
    destruct (Z.ltb_spec (getLastEpochConfig s - nodesCoordinatorStoredEpochs) e) as [L|L].
    + destruct (registryEpoch_spec wa cfg s' St) as (cfg' & Er & Rs). exists cfg'. split; [|done].
      destruct (epochs_fold_in id (nodesConfig s) (storedEpochs s) ∅ e) as [d Ed].
      { right. split; [by apply Hst|by eexists]. }
      destruct (epochsToRegistry_lookup s _ _ Ed) as (e' & Ee & _ & Ed'). apply itoa_inj in Ee as <-.
      rewrite E in Ed'. injection Ed' as <-. eapply R1; [|exact Er]. apply elem_of_map_to_list.
      unfold M. rewrite GetEpochsConfig_spec. fold wa. unfold epochsToRegistry. by rewrite Ed.
    + apply None'. intros [a Ea]. destruct (ML _ _ Ea) as (e' & cfg0 & Ee & I & _ & _). apply itoa_inj in Ee as <-.
      apply Hst in I. lia.
  - apply None'. intros [a Ea]. destruct (ML _ _ Ea) as (e' & cfg & Ee & _ & E' & _). apply itoa_inj in Ee as <-. congruence.
Qed.
End Epochs.
