(* ===== verification/NodesProperties.v ===== *)
(** * Properties of the nodes coordinator and of the selection

    The theorems about sharding/nodesCoordinator: the consensus groups of the
    stored epochs, the cache of groups and the start of an epoch. *)

From Stdlib Require Import ZArith Lia String Ascii.
From stdpp Require Import base gmap list sorting strings fin_maps.
From S2P Require Import Prelude GoValues Config Validators ValidatorsSpec Shuffler ShufflerSpec.
From S2P Require Import Selection SelectionSpec NodesCoordinator NodesRegistry NodesEpoch NodesSpec ShufflerProperties.

(** ** Selection *)

Section Selection.
Context {H : SelectionHasher}.

(** C30. Selecting by the segments of the validators already drawn is cutting
    each drawn validator out of the expanded list before the next draw, for
    any weights: the provider's index arithmetic never errs, never draws a
    validator twice and always returns as many as asked for. *)
Theorem Select_is_reslicing weightList randSeed sampleSize selector
    (Hlen : forall b, (8 <= length (selection_Compute b))%nat)
    (New : NewSelectorExpandedList weightList = Ok selector)
    (Small : Z.of_nat (length weightList) < 2 ^ 32) (Sum : sum weightList < 2 ^ 63)
    (Seed : randSeed <> []) (Size : 0 < sampleSize <= Z.of_nat (length weightList)) :
  exists indexes, Select selector randSeed sampleSize = Ok indexes /\
    indexes = reslice (draws randSeed 0 (Z.to_nat sampleSize)) (expandedList selector) /\
    Z.of_nat (length indexes) = sampleSize /\ NoDup indexes /\
    forall i, i ∈ indexes -> 0 <= i < Z.of_nat (length weightList).
Proof.
  pose proof (NewSelector_inv _ _ New) as [Ne V]. rewrite (Select_spec Hlen _ _ _ _ New) by done.
  rewrite (NewSelector_spec _ Ne V Small) in New. injection New as <-. eexists. split; [done|]. split; [done|].
  split_and!.
  - rewrite reslice_expand_length by (done || (unfold draws; rewrite length_map, length_seq; lia)).
    unfold draws. rewrite length_map, length_seq. lia.
  - apply reslice_NoDup.
  - intros i Hi%reslice_sub. by apply (elem_expandFrom weightList V) in Hi.
Qed.
End Selection.

(** ** Consensus groups *)

Section Groups.
Context {C B : Type} {CC : Cacher C} {CCok : CacherOk C} {BS : BootStorer B} {Env : CoordinatorEnv}.
Context {RE : RegistryEncoding} {SH : ShuffleHasher} {H : SelectionHasher}.
Abbreviation NC := (indexHashedNodesCoordinator C B).
Implicit Types (s : NC).

(** C29. Since the cache of consensus groups was last empty, which it is when
    the node starts and after every start of an epoch that changes the lists,
    groups may have been computed, epochs started or confirmed, and lists
    loaded from the storage or set from validator infos.  The group of a round
    is then one that its randomness selects from lists that the coordinator
    had since: the cache never returns the group of another key.  When no lists
    were loaded or set they are the stored lists, so that the cache does not
    show; [LoadState] and [SetNodesConfigFromValidatorsInfo] replace lists and
    keep the groups that were cached.  Computing a group does not change the
    lists. *)
Theorem consensus_group_from_stored_lists held replaced s r round shard epoch (R : ncRun held replaced s)
    (Hround : 0 <= round) (Hshard : 0 <= shard) (Hepoch : 0 <= epoch) :
  let group := (ComputeConsensusGroup r round shard epoch s).2 in
  (exists m, m ∈ nodesConfig s :: held /\ group = consensusOf m r round shard epoch) /\
  (replaced = false -> group = consensusOf (nodesConfig s) r round shard epoch) /\
  nodesConfig (ComputeConsensusGroup r round shard epoch s).1 = nodesConfig s.
Proof.
  intros group. subst group. destruct (ComputeConsensusGroup r round shard epoch s) as [s' res] eqn:E.
  destruct (ComputeConsensusGroup_held _ _ _ _ _ _ _ _ Hround Hshard Hepoch (run_cachedFrom _ _ _ R) E) as (H1 & _ & H2).
  split; [done|]. split; [|done]. intros ->.
  by destruct (ComputeConsensusGroup_spec _ _ _ _ _ _ _ Hround Hshard Hepoch (run_coherent _ _ R) E) as (? & _ & _).
Qed.

(** The weight of a validator in the expanded list. *)
Definition weightOf (v : Validator) : Z :=
  match chanceComputer with
  | None => defaultSelectionChances
  | Some f => if Chances v <? f 0 then f 0 else Chances v
  end.

Lemma weights_map l : ValidatorsWeights l = List.map weightOf l.
Proof. unfold ValidatorsWeights, weightOf. by destruct chanceComputer. Qed.

Lemma weights_bound l : (forall v, v ∈ l -> 1 <= weightOf v <= 2 ^ 31) ->
  valid (ValidatorsWeights l) /\ sum (ValidatorsWeights l) <= 2 ^ 31 * Z.of_nat (length l).
Proof.
  rewrite weights_map. induction l as [|v l IH]; intros G; cbn [List.map]; [by split|].
  destruct IH as [V S]; [intros w Hw; apply G; by right|]. specialize (G v ltac:(left)). split.
  - constructor; [lia|done].
  - cbn. fold (sum (List.map weightOf l)). lia.
Qed.

(** The lists the shuffler returns are accepted for the epoch. *)
Lemma shuffled_acceptable arg res low gone p : shuffleInput arg -> shuffled arg res low gone ->
  nbShards arg < MetachainShardId -> nodesMeta arg = MetachainMinNumNodes p -> nodesPerShard arg = ShardMinNumNodes p ->
  0 < ShardConsensusGroupSize p <= ShardMinNumNodes p ->
  0 < MetachainConsensusGroupSize p <= MetachainMinNumNodes p ->
  (forall k, is_Some (eligible arg !! k) \/ is_Some (waiting arg !! k) -> hasShard (nbShards arg) k) ->
  (forall v, v ∈ candidates arg -> 1 <= weightOf v <= 2 ^ 31) ->
  acceptable p (nbShards arg) (res_Eligible res).
Proof.
  intros I [All _ _ En _ Dom] Bn Em Es Gs Gm D Wt. pose proof (si_shards _ I) as Sh.
  assert (Is : forall k, isShard arg k <-> hasShard (nbShards arg) k).
  { intros k. unfold isShard, hasShard. by rewrite elem_shardIds. }
  assert (In : forall k, exists r, candidates arg ≡ₚ listOf (res_Eligible res) k ++ r).
  { intros k. assert (P : allOf (res_Eligible res) ≡ₚ listOf (res_Eligible res) k ++ allOf (<[k := []]> (res_Eligible res)))
      by (apply allOf_shrink; by rewrite app_nil_r).
    set (rest := allOf (<[k := []]> _)) in P. unfold candidates. revert All.
    generalize (if negb (flagStakingV4Step2 arg) || low then [] else allOf (res_ShuffledOut res)). intros aside All.
    destruct (flagStakingV4Step3 arg || low).
    - exists (gone ++ rest ++ allOf (res_Waiting res) ++ aside). perm.
    - exists (gone ++ rest ++ allOf (res_Waiting res) ++ aside ++ auction arg). rewrite app_nil_r in All. perm. }
  split.
  - lia.
  - intros k. rewrite Dom, Is. split; [intros [?|[?|?]]; auto|auto].
  - lia.
  - intros k Hk. specialize (En k (proj2 (Is k) Hk)). unfold minNodes in En. rewrite Em, Es in En.
    destruct (k =? MetachainShardId); lia.
  - intros k Hk. destruct (In k) as [r P]. pose proof (si_small _ I) as Sm. rewrite P, length_app in Sm.
    destruct (weights_bound (listOf (res_Eligible res) k)) as [V S].
    { intros v Hv. apply Wt. rewrite P. apply elem_of_app. by left. }
    split_and!; [done|lia|lia].
Qed.

(** A successful start stores lists that can be served, and an empty cache. *)
Lemma EpochStartPrepare_stores s hdr miniBlocks infos cfg additional p r0 res :
  IsStartOfEpochBlock hdr = true -> isMetaHeader hdr = true ->
  createValidatorInfoFromBody (BlockBody miniBlocks) (hdr_Epoch hdr) = Ok infos ->
  computeNodesConfigFromList infos (updateEpochFlags (hdr_Epoch hdr) s) = Ok cfg ->
  ComputeAdditionalLeaving infos = Ok additional -> ChainParametersForEpoch (hdr_Epoch hdr) = Some p ->
  UpdateNodeLists (shufflerArgs p cfg additional (auctionList cfg) (PrevRandSeed hdr) (hdr_Epoch hdr)) (shuffler s)
    = (r0, Ok res) ->
  acceptable p (cfg_nbShards cfg) (res_Eligible res) ->
  let s' := EpochStartPrepare hdr (BlockBody miniBlocks) s in
  exists cfg', nodesConfig s' !! hdr_Epoch hdr = Some cfg' /\ eligibleMap cfg' = res_Eligible res /\
    cfg_nbShards cfg' = cfg_nbShards cfg /\ servable (hdr_Epoch hdr) cfg' /\ coherent s'.
Proof.
  intros Start Meta Infos Lists Extra Params Eu Acc s'.
  assert (Es : s' = EpochStartPrepare hdr (BlockBody miniBlocks) s) by done. clearbody s'.
  unfold EpochStartPrepare in Es. rewrite Start, Meta in Es. cbn [negb andb] in Es.
  rewrite Infos, Lists, Extra in Es. unfold chainParametersOr in Es. rewrite Params in Es. cbn in Es.
  change (id p) with p in Es.
  unfold runShuffler in Es. change (shuffler (updateEpochFlags (hdr_Epoch hdr) s)) with (shuffler s) in Es.
  rewrite Eu in Es. set (s1 := nc_with_shuffler r0 (updateEpochFlags (hdr_Epoch hdr) s)) in Es.
  unfold setShuffled in Es.
  destruct (createActuallyLeavingPerShards (leavingMap cfg) additional (res_Leaving res)) as [lv rm].
  destruct (setNodesPerShards_ok p (cfg_nbShards cfg) (res_Eligible res) (res_Waiting res) lv (res_ShuffledOut res)
    (hdr_Epoch hdr) (res_LowWaitingList res) s1 Params Acc) as (cfg' & s2 & E2 & N2 & El & _ & Nb & Sv).
  rewrite E2 in Es. cbn [fst] in Es. cbv zeta in Es. set (s3 := fillPublicKeyToValidatorMap s2) in Es.
  destruct (saveState_keeps (PrevRandSeed hdr) (hdr_Epoch hdr) s3) as [K1 _].
  exists cfg'. split_and!; [|done|done|done|].
  - rewrite Es. cbn. rewrite K1. cbn. rewrite N2. apply lookup_insert_eq.
  - rewrite Es. apply coherent_clear. intros k. cbn. apply get_clear.
Qed.

(** C16. When an epoch start block brings lists that the shuffler accepts, with
    consensus groups no larger than the least number of nodes of a shard and
    with positive weights, the coordinator can serve the whole new epoch:
    [EpochStartPrepare] stores the shuffled lists, and from then on every round
    of every shard, with any randomness of an allowed size, has a consensus
    group with a leader in it and without repetition.  Before Andromeda the
    group is drawn from the eligible validators of the shard and has the
    configured size; since Andromeda it is the whole list of them, which is at
    least as long. *)
Theorem epoch_start_serves_every_round s hdr miniBlocks infos cfg additional p res
    (Hlen : forall b, (8 <= length (selection_Compute b))%nat)
    (Start : IsStartOfEpochBlock hdr = true) (Meta : isMetaHeader hdr = true)
    (Infos : createValidatorInfoFromBody (BlockBody miniBlocks) (hdr_Epoch hdr) = Ok infos)
    (Lists : computeNodesConfigFromList infos (updateEpochFlags (hdr_Epoch hdr) s) = Ok cfg)
    (Extra : ComputeAdditionalLeaving infos = Ok additional)
    (Params : ChainParametersForEpoch (hdr_Epoch hdr) = Some p) :
  let args := shufflerArgs p cfg additional (auctionList cfg) (PrevRandSeed hdr) (hdr_Epoch hdr) in
  forall (Input : shuffleInput (nodesArg args (shuffler s)))
    (Shuffle : (UpdateNodeLists args (shuffler s)).2 = Ok res)
    (ShardGroup : 0 < ShardConsensusGroupSize p <= ShardMinNumNodes p)
    (MetaGroup : 0 < MetachainConsensusGroupSize p <= MetachainMinNumNodes p)
    (Number : cfg_nbShards cfg < MetachainShardId)
    (Shards : forall k, is_Some (eligibleMap cfg !! k) \/ is_Some (waitingMap cfg !! k) -> hasShard (cfg_nbShards cfg) k)
    (Weights : forall v, v ∈ candidates (nodesArg args (shuffler s)) -> 1 <= weightOf v <= 2 ^ 31),
  let s' := EpochStartPrepare hdr (BlockBody miniBlocks) s in
  exists cfg', nodesConfig s' !! hdr_Epoch hdr = Some cfg' /\ eligibleMap cfg' = res_Eligible res /\
    forall r round shard, r <> [] -> Z.of_nat (length r) <= maxRandomnessSize -> 0 <= round ->
      hasShard (cfg_nbShards cfg) shard -> 0 <= hdr_Epoch hdr ->
      exists ldr group, (ComputeConsensusGroup r round shard (hdr_Epoch hdr) s').2 = Ok (ldr, group) /\
        isGroup cfg' shard (hdr_Epoch hdr) ldr group.
Proof.
  intros args Input Shuffle ShardGroup MetaGroup Number Shards Weights s'.
  destruct (UpdateNodeLists_shuffled args (shuffler s) res Input Shuffle) as (low & gone & Sd).
  pose proof (shuffled_acceptable _ _ _ _ p Input Sd Number eq_refl eq_refl ShardGroup MetaGroup Shards Weights) as Acc.
  change (nbShards (nodesArg args (shuffler s))) with (cfg_nbShards cfg) in Acc.
  destruct (UpdateNodeLists args (shuffler s)) as [r0 x] eqn:Eu. cbn [snd] in Shuffle. subst x.
  subst s'. destruct (EpochStartPrepare_stores s hdr miniBlocks infos cfg additional p r0 res Start Meta Infos Lists Extra Params Eu Acc)
    as (cfg' & Ec & El & Nb & Sv & Co).
  set (s' := EpochStartPrepare hdr (BlockBody miniBlocks) s) in *.
  exists cfg'. split; [done|]. split; [done|]. intros r round shard Hr Hl Hround Hs He.
  destruct (ComputeConsensusGroup r round shard (hdr_Epoch hdr) s') as [s5 out] eqn:Eo.
  destruct (ComputeConsensusGroup_spec r round shard (hdr_Epoch hdr) s' s5 out Hround) as (-> & _ & _);
    [unfold hasShard, MetachainShardId in Hs; lia|done|done|done|].
  unfold consensusOf. rewrite bool_decide_false, (proj2 (Z.ltb_ge _ _)), Ec, Nb, bool_decide_true by done.
  apply groupOf_ok; [done|done|by rewrite Nb|done].
Qed.

(** C36. A coordinator that loads what another one saved under the same key has
    its current epoch and, for each of the last four stored epochs, its
    eligible, waiting and leaving lists with the selectors made from them;
    since staking v4 also the shuffled out lists and the low waiting list
    flag.  Older epochs are dropped. *)
Theorem saved_state_is_loaded {BSok : BootStorerOk B} {REok : RegistryEncodingOk} key epoch s s1 s'
    (Factory : factory_stakingV4Step2EnableEpoch = StakingV4Step2Epoch)
    (Storable : forall e cfg, nodesConfig s !! e = Some cfg -> isUint32 e /\ storable cfg)
    (Save : saveState key epoch s = (s1, Ok ())) (Disk : bootStorer s' = bootStorer s1) :
  exists s'', LoadState key s' = (s'', Ok ()) /\ currentEpoch s'' = currentEpoch s /\ savedStateKey s'' = key /\
    reloaded (StakingV4Step2Epoch <=? epoch) s (nodesConfig s'').
Proof.
  unfold saveState in Save. destruct (GetRegistryData _ _) as [data|] eqn:Ed; [|done].
  destruct (boot_Put _ _ _) as [b r] eqn:Eb. injection Save as <- ->. cbn in Disk.
  pose proof (boot_get_put _ _ _ _ Eb) as Get'.
  assert (Dec : CreateNodesCoordinatorRegistry data = Ok (NodesCoordinatorToRegistry epoch s)).
  { unfold GetRegistryData, NodesCoordinatorToRegistry, CreateNodesCoordinatorRegistry in *. rewrite Factory in Ed.
    destruct (StakingV4Step2Epoch <=? epoch).
    - by rewrite (auction_roundtrip _ _ Ed).
    - destruct (json_is_not_auction _ _ Ed) as [e ->]. unfold createOldRegistry. by rewrite (json_roundtrip _ _ Ed). }
  unfold LoadState, baseLoadState. rewrite Disk, Get', Dec. cbv zeta.
  set (s2 := nc_with_epoch _ _). destruct (registry_roundtrip epoch s s2 Storable) as (m & -> & R).
  eexists. split; [done|]. split_and!; [|done|exact R].
  cbn. unfold NodesCoordinatorToRegistry. by destruct (_ <=? _).
Qed.
End Groups.

(** ** The witnesses *)

#[export] Instance exCacher : Cacher (gmap bytes savedConsensusGroup) :=
  {| cache_Get k c := c !! k; cache_Put k v c := <[k := v]> c; cache_Clear _ := ∅ |}.
#[export] Instance exCacherOk : CacherOk (gmap bytes savedConsensusGroup).
Proof.
  split.
  - intros k k' v c w. cbn. destruct (decide (k = k')) as [->|N].
    + rewrite lookup_insert_eq. intros [= ->]. by left.
    + rewrite lookup_insert_ne by done. by right.
  - intros k c. cbn. apply lookup_empty.
Qed.

#[export] Instance exStorer : BootStorer (gmap bytes bytes) :=
  {| boot_Get k b := match b !! k with Some v => Ok v | None => Err ErrCollaborator end;
     boot_Put k v b := (<[k := v]> b, Ok ()) |}.
#[export] Instance exStorerOk : BootStorerOk (gmap bytes bytes).
Proof. intros k v b b' [= <-]. cbn. by rewrite lookup_insert_eq. Qed.

(** A validator info from four numbers: its list, shard, key and index. *)
Definition exInfo (hash : bytes) : result nc_error ShardValidatorInfo :=
  match hash with
  | [list; shard; key; index] =>
      Ok {| PublicKey := Some [key; key + 1]; ShardId := if shard =? 9 then MetachainShardId else shard;
            ListName := nth (Z.to_nat list) [EligibleList; peerWaitingList; LeavingList; SelectedFromAuctionList] NewList;
            vi_Index := index; TempRating := 50; PreviousList := EligibleList; PreviousIndex := index |}
  | _ => Err ErrCollaborator
  end.

#[export] Instance exCoordinatorEnv : CoordinatorEnv :=
  {| ChainParametersForEpoch _ := Some exChain; CurrentChainParameters := exChain; AndromedaFlag _ := false;
     StakingV4Step1EnableEpoch := 1; StakingV4Step2Epoch := 2; RefactorPeersMiniBlocksFlag _ := true;
     GetValidatorInfo := exInfo; UnmarshalValidatorInfo := exInfo; MinMetaHysteresisNodes := 1;
     MinShardHysteresisNodes := 1; chanceComputer := None |}.

#[export] Instance exSelectionHasher : SelectionHasher := fun b => List.rev b ++ replicate 8 3.
Lemma exSelectionHasher_length b : (8 <= length (selection_Compute b))%nat.
Proof. unfold selection_Compute, exSelectionHasher. rewrite length_app, length_replicate. lia. Qed.

(** Encoders that number the registries. *)
#[export] Instance SerializableValidator_eq_dec : EqDecision SerializableValidator.
Proof. solve_decision. Defined.
#[export] Instance SerializableValidator_countable : Countable SerializableValidator.
Proof.
  apply (inj_countable' (fun v => (sv_PubKey v, sv_Chances v, sv_Index v))
    (fun '(k, c, i) => {| sv_PubKey := k; sv_Chances := c; sv_Index := i |})). by intros [].
Defined.
#[export] Instance EpochValidators_eq_dec : EqDecision EpochValidators.
Proof. solve_decision. Defined.
#[export] Instance EpochValidators_countable : Countable EpochValidators.
Proof.
  apply (inj_countable' (fun v => (EligibleValidators v, WaitingValidators v, LeavingValidators v))
    (fun '(e, w, l) => {| EligibleValidators := e; WaitingValidators := w; LeavingValidators := l |})). by intros [].
Defined.
#[export] Instance EpochValidatorsWithAuction_eq_dec : EqDecision EpochValidatorsWithAuction.
Proof. solve_decision. Defined.
#[export] Instance EpochValidatorsWithAuction_countable : Countable EpochValidatorsWithAuction.
Proof.
  apply (inj_countable' (fun v => (Eligible v, Waiting v, Leaving v, ShuffledOut v, LowWaitingList v))
    (fun '(e, w, l, s, b) => {| Eligible := e; Waiting := w; Leaving := l; ShuffledOut := s; LowWaitingList := b |})).
  by intros [].
Defined.

#[export] Instance exEncoding : RegistryEncoding :=
  {| marshaller_Marshal r := match r with
       | RegistryWithAuction r => Ok [1; Z.pos (encode (EpochsConfigWithAuction r, wa_CurrentEpoch r))]
       | OldRegistry _ => Err ErrCollaborator
       end;
     marshaller_Unmarshal b := match b with
       | [1; Z.pos p] => match decode p with
                         | Some (m, e) => Ok {| EpochsConfigWithAuction := m; wa_CurrentEpoch := e |}
                         | None => Err ErrCollaborator
                         end
       | _ => Err ErrCollaborator
       end;
     json_Marshal r := match r with
       | OldRegistry r => Ok [2; Z.pos (encode (EpochsConfig r, CurrentEpoch r))]
       | RegistryWithAuction _ => Err ErrCollaborator
       end;
     json_Unmarshal b := match b with
       | [2; Z.pos p] => match decode p with
                         | Some (m, e) => Ok {| EpochsConfig := m; CurrentEpoch := e |}
                         | None => Err ErrCollaborator
                         end
       | _ => Err ErrCollaborator
       end;
     factory_stakingV4Step2EnableEpoch := 2 |}.

#[export] Instance exEncodingOk : RegistryEncodingOk.
Proof.
  split; intros [m e] data [= <-]; cbn [marshaller_Unmarshal json_Unmarshal exEncoding];
    [by rewrite decode_encode|by rewrite decode_encode|by eexists].
Qed.

(** A coordinator before epoch 5, and the block that starts it. *)
Definition exNode : indexHashedNodesCoordinator (gmap bytes savedConsensusGroup) (gmap bytes bytes) :=
  {| shardIDAsObserver := 0; currentEpoch := 4; numTotalEligible := 0; selfPubKey := [13; 14]; savedStateKey := [1];
     shuffler := exShuffler; bootStorer := ∅; nodesConfig := ∅; consensusGroupCacher := ∅; startEpoch := 0;
     publicKeyToValidatorMap := ∅; isFullArchive := false; stopRequests := 0; isValidatorNode := false;
     flagStakingV4Started := false; nc_flagStakingV4Step2 := false |}.
Definition exHeader : HeaderHandler :=
  {| IsStartOfEpochBlock := true; isMetaHeader := true; PrevRandSeed := [7; 9]; hdr_Epoch := 5 |}.
Definition exMiniBlocks : list MiniBlock :=
  [{| isPeerBlock := false; TxHashes := [[0]] |};
   {| isPeerBlock := true; TxHashes :=
        [[0; 0; 10; 1]; [0; 0; 12; 2]; [1; 0; 13; 3]; [2; 0; 11; 4]; [0; 1; 20; 1]; [2; 1; 21; 2];
         [0; 9; 30; 1]; [0; 9; 31; 2]; [1; 9; 32; 3]; [3; 0; 40; 1]; [3; 0; 41; 2]] |}].

Definition exInfos : list ShardValidatorInfo :=
  match createValidatorInfoFromBody (BlockBody exMiniBlocks) 5 with Ok l => l | Err _ => [] end.
Definition exConfig : epochNodesConfig :=
  match computeNodesConfigFromList exInfos (updateEpochFlags 5 exNode) with Ok c => c | Err _ => emptyNodesConfig end.
Definition exShufflerArgs : ArgsUpdateNodes :=
  shufflerArgs exChain exConfig ∅ (auctionList exConfig) (PrevRandSeed exHeader) (hdr_Epoch exHeader).
Definition exShuffled : ResUpdateNodes :=
  match (UpdateNodeLists (H := exHasher) exShufflerArgs exShuffler).2 with
  | Ok res => res
  | Err _ => {| res_Eligible := ∅; res_Waiting := ∅; res_ShuffledOut := ∅; res_Leaving := [];
                res_StillRemaining := []; res_LowWaitingList := false |}
  end.
Definition exStarted := EpochStartPrepare (SH := exHasher) exHeader (BlockBody exMiniBlocks) exNode.

Lemma exStartInput : shuffleInput (H := exHasher) (nodesArg exShufflerArgs exShuffler).
Proof.
  split; [apply (bool_decide_unpack _); by vm_compute|apply exNoCollision| |by vm_compute|by vm_compute
         |by vm_compute|by vm_compute].
  split; by vm_compute.
Qed.

Lemma exStartShards k : is_Some (eligibleMap exConfig !! k) \/ is_Some (waitingMap exConfig !! k) ->
  hasShard (cfg_nbShards exConfig) k.
Proof.
  assert (G : Forall (fun kv : Z * list Validator => hasShard (cfg_nbShards exConfig) kv.1)
    (map_to_list (eligibleMap exConfig) ++ map_to_list (waitingMap exConfig))).
  { apply (bool_decide_unpack _). by vm_compute. }
  rewrite Forall_forall in G.
  intros [[l E]|[l E]]; apply (G (k, l)), elem_of_app; [left|right]; by apply elem_of_map_to_list.
Qed.

Lemma Select_is_reslicing_witness : exists selector indexes,
  NewSelectorExpandedList [2; 1; 3] = Ok selector /\ Select selector [5] 2 = Ok indexes /\ NoDup indexes.
Proof.
  destruct (Select_is_reslicing [2; 1; 3] [5] 2 {| expandedList := [0; 0; 1; 2; 2; 2]; uniqueItems := 3 |}
    exSelectionHasher_length) as (indexes & E & _ & _ & ND & _).
  - by vm_compute.
  - by vm_compute.
  - by vm_compute.
  - done.
  - cbn. lia.
  - eexists. exists indexes. split; [|split; [exact E|exact ND]]. by vm_compute.
Defined.

(** A group is computed, the node loads the state that the start of the epoch
    saved, and the same round is asked for again. *)
Lemma consensus_group_from_stored_lists_witness :
  let s := (ComputeConsensusGroup [5] 7 0 5 exStarted).1 in
  (ComputeConsensusGroup [5] 7 0 5 s).2 = consensusOf (nodesConfig s) [5] 7 0 5 /\
  exists m, m ∈ [nodesConfig (LoadState (PrevRandSeed exHeader) s).1; nodesConfig s; nodesConfig exNode] /\
    (ComputeConsensusGroup [5] 7 0 5 (LoadState (PrevRandSeed exHeader) s).1).2 = consensusOf m [5] 7 0 5 /\
    is_Ok (LoadState (PrevRandSeed exHeader) s).2 = true.
Proof.
  intros s.
  assert (R : ncRun (SH := exHasher) [nodesConfig exNode] false s).
  { apply (run_compute (SH := exHasher) _ _ [5] 7 0 5 exStarted); [lia..|].
    apply (run_prepare (SH := exHasher) _ _ exHeader (BlockBody exMiniBlocks) exNode).
    apply run_empty. intros k. by cbn. }
  split.
  - apply (consensus_group_from_stored_lists (SH := exHasher) _ false s [5] 7 0 5 R); [lia..|done].
  - destruct (consensus_group_from_stored_lists (SH := exHasher) [nodesConfig s; nodesConfig exNode] true (LoadState (PrevRandSeed exHeader) s).1 [5] 7 0 5)
      as ((m & Hm & E) & _); [exact (run_load (SH := exHasher) _ false (PrevRandSeed exHeader) s R)|lia..|].
    exists m. split; [exact Hm|split; [exact E|by vm_compute]].
Defined.

Lemma epoch_start_serves_every_round_witness : exists cfg', nodesConfig exStarted !! 5 = Some cfg' /\
  forall r round shard, r <> [] -> Z.of_nat (length r) <= maxRandomnessSize -> 0 <= round ->
    hasShard (cfg_nbShards exConfig) shard ->
    exists ldr group, (ComputeConsensusGroup r round shard 5 exStarted).2 = Ok (ldr, group) /\
      isGroup cfg' shard 5 ldr group.
Proof.
  destruct (epoch_start_serves_every_round (SH := exHasher) exNode exHeader exMiniBlocks exInfos exConfig ∅ exChain exShuffled
    exSelectionHasher_length eq_refl eq_refl) as (cfg' & E & _ & G).
  - by vm_compute.
  - by vm_compute.
  - done.
  - done.
  - exact exStartInput.
  - by vm_compute.
  - cbn. lia.
  - cbn. lia.
  - by vm_compute.
  - exact exStartShards.
  - intros v _. cbn. unfold defaultSelectionChances. lia.
  - exists cfg'. split; [exact E|]. intros r round shard Hr Hl Hround Hs. apply G; [done|done|done|done|by cbn].
Defined.

Definition exSaved := saveState [8] 5 exStarted.

Lemma exSaves (s : indexHashedNodesCoordinator (gmap bytes savedConsensusGroup) (gmap bytes bytes)) key :
  saveState key 5 s = ((saveState key 5 s).1, Ok ()).
Proof. reflexivity. Qed.

Lemma exStorable e cfg : nodesConfig exStarted !! e = Some cfg -> isUint32 e /\ storable cfg.
Proof.
  assert (K : forall (m : ShardMap), Forall (fun kv : Z * list Validator => 0 <= kv.1 < 2 ^ 32) (map_to_list m) -> uintKeys m).
  { intros m F k [l E]. rewrite Forall_forall in F. apply (F (k, l)). by apply elem_of_map_to_list. }
  assert (G : Forall (fun kv : Z * epochNodesConfig => (0 <= kv.1 < 2 ^ 32) /\
    Forall (fun kv : Z * list Validator => 0 <= kv.1 < 2 ^ 32) (map_to_list (eligibleMap kv.2)) /\
    Forall (fun kv : Z * list Validator => 0 <= kv.1 < 2 ^ 32) (map_to_list (waitingMap kv.2)) /\
    Forall (fun kv : Z * list Validator => 0 <= kv.1 < 2 ^ 32) (map_to_list (leavingMap kv.2)) /\
    Forall (fun kv : Z * list Validator => 0 <= kv.1 < 2 ^ 32) (map_to_list (shuffledOutMap kv.2)) /\
    2 <= Z.of_nat (base.size (eligibleMap kv.2)) < 2 ^ 32 /\ is_Ok (createSelectors kv.2) = true)
    (map_to_list (nodesConfig exStarted))).
  { apply (bool_decide_unpack _). by vm_compute. }
  intros E. rewrite Forall_forall in G. apply elem_of_map_to_list in E. destruct (G _ E) as (U & F1 & F2 & F3 & F4 & Sz & Ok').
  split; [exact U|]. split; [by apply K..|exact Sz|]. cbn in Ok'. destruct (createSelectors cfg); [by eexists|done].
Qed.

Lemma saved_state_is_loaded_witness : exists s'', LoadState [8] (nc_with_storer (bootStorer exSaved.1) exNode) = (s'', Ok ()) /\
  currentEpoch s'' = 4 /\ reloaded true exStarted (nodesConfig s'').
Proof.
  destruct (saved_state_is_loaded [8] 5 exStarted exSaved.1 (nc_with_storer (bootStorer exSaved.1) exNode)) as (s'' & E & Ep & _ & R).
  - done.
  - exact exStorable.
  - exact (exSaves exStarted [8]).
  - done.
  - exists s''. split; [exact E|]. split; [exact Ep|exact R].
Defined.
