(* ===== verification/TxList.v ===== *)
(** * Transactions of the mempool and the list of a sender

    txcache/wrappedTransaction.go, txcache/orderedTransactionsList.go and
    txcache/txListForSender.go. *)

From Stdlib Require Import ZArith Lia.
From stdpp Require Import base gmap list.
From S2P Require Import Prelude GoValues GoCollections Validators.

(** What the getters of data.TransactionHandler give; the relayer is empty for
    a transaction that is not relayed. *)
Record TransactionHandler := {
  GetNonce : Z;
  GetSndAddr : bytes;
  GetGasLimit : Z;
  GetGasPrice : Z;
  GetData : bytes;
  GetRelayerAddr : bytes;
}.

(** [None] is a nil [big.Int]. *)
Record WrappedTransaction := {
  Tx : TransactionHandler;
  TxHash : bytes;
  Size : Z;
  ReceivedAt : Z;
  Fee : option Z;
  PricePerUnit : Z;
  TransferredValue : option Z;
  FeePayer : bytes;
}.
Abbreviation bunchOfTransactions := (list WrappedTransaction).

#[export] Instance TransactionHandler_eq_dec : EqDecision TransactionHandler.
Proof. solve_decision. Defined.
#[export] Instance WrappedTransaction_eq_dec : EqDecision WrappedTransaction.
Proof. solve_decision. Defined.

Definition nonceOf (tx : WrappedTransaction) : Z := GetNonce (Tx tx).
Definition senderOf (tx : WrappedTransaction) : bytes := GetSndAddr (Tx tx).

(** MempoolHost *)
Class MempoolHost := {
  ComputeTxFee : TransactionHandler -> Z;
  GetTransferredValue : TransactionHandler -> option Z;
}.

Definition decideFeePayer (tx : TransactionHandler) : bytes :=
  if (0 <? length (GetRelayerAddr tx))%nat then GetRelayerAddr tx else GetSndAddr tx.

(** [big.Int.Div], which is Euclidean, and [big.Int.Uint64]. *)
Definition big_Div (a b : Z) : Z := if b <? 0 then - (a / (- b)) else a / b.
Definition big_Uint64 (a : Z) : Z := u64 (Z.abs a).

Definition precomputeFields {H : MempoolHost} (wrappedTx : WrappedTransaction) : WrappedTransaction :=
  let tx := Tx wrappedTx in
  let fee := ComputeTxFee tx in
  {| Tx := tx; TxHash := TxHash wrappedTx; Size := Size wrappedTx; ReceivedAt := ReceivedAt wrappedTx;
     Fee := Some fee;
     PricePerUnit := if GetGasLimit tx =? 0 then PricePerUnit wrappedTx
                     else big_Uint64 (big_Div fee (i64 (GetGasLimit tx)));
     TransferredValue := GetTransferredValue tx;
     FeePayer := decideFeePayer tx |}.

(** [bytes.Compare] *)
Definition bytes_Compare (a b : bytes) : Z :=
  if decide (a = b) then 0 else if bytes_leb a b then -1 else 1.

Definition isTransactionMoreValuableForNetwork (wrappedTx otherTransaction : WrappedTransaction) : bool :=
  if negb (PricePerUnit wrappedTx =? PricePerUnit otherTransaction)
  then PricePerUnit otherTransaction <? PricePerUnit wrappedTx
  else
    let gasLimit := GetGasLimit (Tx wrappedTx) in
    let gasLimitOther := GetGasLimit (Tx otherTransaction) in
    if negb (gasLimit =? gasLimitOther) then gasLimitOther <? gasLimit
    else bytes_Compare (TxHash wrappedTx) (TxHash otherTransaction) <? 0.

Definition isFeePayerSameAsSender (tx : WrappedTransaction) : bool := bool_decide (FeePayer tx = senderOf tx).

(** ** The ordered list *)

Definition compareTxs (tx1 tx2 : WrappedTransaction) : Z :=
  if nonceOf tx1 <? nonceOf tx2 then -1
  else if nonceOf tx2 <? nonceOf tx1 then 1
  else if GetGasPrice (Tx tx2) <? GetGasPrice (Tx tx1) then -1
  else if GetGasPrice (Tx tx1) <? GetGasPrice (Tx tx2) then 1
  else bytes_Compare (TxHash tx1) (TxHash tx2).

Definition isGreater (tx1 tx2 : WrappedTransaction) : bool := 0 <? compareTxs tx1 tx2.

(** A function of the element at an index. *)
Definition atIndex (items : list WrappedTransaction) (f : WrappedTransaction -> bool) (i : nat) : bool :=
  match items !! i with Some tx => f tx | None => false end.

Definition findInsertionIndex (tx : WrappedTransaction) (items : list WrappedTransaction) : nat :=
  match last items with
  | None => 0
  | Some lastItem =>
      if isGreater tx lastItem then length items
      else sort_Search (length items) (atIndex items (fun item => 0 <=? compareTxs item tx))
  end.

Definition insertAt (tx : WrappedTransaction) (index : nat) (items : list WrappedTransaction)
    : option (list WrappedTransaction) :=
  if (index <? length items)%nat && atIndex items (fun item => compareTxs item tx =? 0) index then None
  else Some (take index items ++ tx :: drop index items).

Definition removeAt (index : nat) (items : list WrappedTransaction) : list WrappedTransaction :=
  base.delete index items.

Definition findIndexByNonce (targetNonce : Z) (items : list WrappedTransaction) : nat :=
  sort_Search (length items) (atIndex items (fun item => targetNonce <=? nonceOf item)).

(** What is removed, and what remains. *)
Definition removeAfterNonce (givenNonce : Z) (items : list WrappedTransaction)
    : list WrappedTransaction * list WrappedTransaction :=
  let cutoffIndex := firstIndex (fun tx => givenNonce <=? nonceOf tx) items in
  (drop cutoffIndex items, take cutoffIndex items).
Definition removeBeforeNonce (targetNonce : Z) (items : list WrappedTransaction)
    : list WrappedTransaction * list WrappedTransaction :=
  let cutoffIndex := firstIndex (fun tx => targetNonce <? nonceOf tx) items in
  (take cutoffIndex items, drop cutoffIndex items).

(** ** The list of a sender *)

Record senderConstraints := {
  maxNumTxs : Z;
  maxNumBytes : Z;
}.

Record txListForSender := {
  sender : bytes;
  items : list WrappedTransaction;
  totalBytes : Z;
  selectionOffset : nat;
}.

Definition newTxListForSender (sender : bytes) : txListForSender :=
  {| sender := sender; items := []; totalBytes := 0; selectionOffset := 0 |}.

Definition list_with (its : list WrappedTransaction) (bytes : Z) (offset : nat) (l : txListForSender) : txListForSender :=
  {| sender := sender l; items := its; totalBytes := bytes; selectionOffset := offset |}.

Section Lists.
Context (constraints : senderConstraints) (IsTransactionTracked : WrappedTransaction -> bool).

Definition list_isCapacityExceeded (l : txListForSender) : bool :=
  let tooManyBytes := maxNumBytes constraints <? totalBytes l in
  let tooManyTxs := maxNumTxs constraints <? Z.of_nat (length (items l)) in
  tooManyBytes || tooManyTxs.

(** The loop from index [i - 1] down. *)
Fixpoint applySizeConstraints_loop (i : nat) (evictedTxHashes : list bytes) (l : txListForSender)
    : txListForSender * list bytes :=
  match i with
  | O => (l, evictedTxHashes)
  | S i =>
      if negb (list_isCapacityExceeded l) then (l, evictedTxHashes)
      else
        match items l !! i with
        | None => applySizeConstraints_loop i evictedTxHashes l
        | Some tx =>
            if IsTransactionTracked tx then applySizeConstraints_loop i evictedTxHashes l
            else
              let offset := if (i <? selectionOffset l)%nat then (selectionOffset l - 1)%nat else selectionOffset l in
              applySizeConstraints_loop i (evictedTxHashes ++ [TxHash tx])
                (list_with (removeAt i (items l)) (i64 (totalBytes l - Size tx)) offset l)
        end
  end.
Definition applySizeConstraints (l : txListForSender) : txListForSender * list bytes :=
  applySizeConstraints_loop (length (items l)) [] l.

(** Added or not, and the hashes that were evicted. *)
Definition list_AddTx (tx : WrappedTransaction) (l : txListForSender) : txListForSender * (bool * list bytes) :=
  let insertionIndex := findInsertionIndex tx (items l) in
  match insertAt tx insertionIndex (items l) with
  | None => (l, (false, []))
  | Some its =>
      let offset := if (insertionIndex <? selectionOffset l)%nat then S (selectionOffset l) else selectionOffset l in
      let '(l, evicted) := applySizeConstraints (list_with its (i64 (totalBytes l + Size tx)) offset l) in
      (l, (true, evicted))
  end.
End Lists.

Definition IsEmpty (l : txListForSender) : bool := (length (items l) =? 0)%nat.
Definition getTxs (l : txListForSender) : list WrappedTransaction := items l.
Definition getTxsReversed (l : txListForSender) : list WrappedTransaction := List.rev (items l).

(** [onRemovedTransaction] for each of the transactions. *)
Definition subtractSizes (txs : list WrappedTransaction) (bytes : Z) : Z :=
  fold_left (fun bytes tx => i64 (bytes - Size tx)) txs bytes.

Definition removeTransactionsWithLowerOrEqualNonceReturnHashes (targetNonce : Z) (l : txListForSender)
    : txListForSender * list bytes :=
  let '(removed, its) := removeBeforeNonce targetNonce (items l) in
  (list_with its (subtractSizes removed (totalBytes l)) (selectionOffset l - length removed)%nat l,
   TxHash <$> removed).

Definition list_removeTransactionsWithHigherOrEqualNonce (givenNonce : Z) (l : txListForSender) : txListForSender :=
  let '(removed, its) := removeAfterNonce givenNonce (items l) in
  list_with its (subtractSizes removed (totalBytes l)) (selectionOffset l `min` length its)%nat l.

Definition getTxsForSelection (l : txListForSender) : list WrappedTransaction := drop (selectionOffset l) (items l).

Definition incrementSelectionOffset (count : nat) (l : txListForSender) : txListForSender :=
  list_with (items l) (totalBytes l) ((selectionOffset l + count) `min` length (items l))%nat l.
Definition resetSelectionOffset (l : txListForSender) : txListForSender :=
  list_with (items l) (totalBytes l) 0 l.
Definition resetSelectionOffsetByNonce (startNonce : Z) (l : txListForSender) : txListForSender :=
  list_with (items l) (totalBytes l) (findIndexByNonce startNonce (items l)) l.

(** The offset is not moved. *)
Definition removeSweepableTransactionsReturnHashes (targetNonce : Z) (IsTransactionTracked : WrappedTransaction -> bool)
    (l : txListForSender) : txListForSender * list bytes :=
  let cutoffIndex := firstIndex (fun tx => targetNonce <? nonceOf tx) (items l) in
  let candidates := take cutoffIndex (items l) in
  let evicted := List.filter (fun tx => negb (IsTransactionTracked tx)) candidates in
  let keptItems := List.filter IsTransactionTracked candidates in
  (list_with (keptItems ++ drop cutoffIndex (items l)) (subtractSizes evicted (totalBytes l)) (selectionOffset l) l,
   TxHash <$> evicted).
