(* ===== verification/Breadcrumbs.v ===== *)
(** * Breadcrumbs of tracked blocks

    What a proposed block does to the accounts: txcache/accountBreadcrumb.go
    and txcache/trackedBlock.go; what all tracked blocks do together:
    txcache/globalAccountBreadcrumb.go and
    txcache/globalAccountBreadcrumbsCompiler.go; and the check that they can
    follow each other: txcache/accountBreadcrumbsValidator.go. *)

From Stdlib Require Import ZArith Lia.
From stdpp Require Import base gmap list.
From S2P Require Import Prelude GoValues GoCollections TxList.

Inductive txcache_error :=
| errNilSelectionSession
| errEmptyBunchOfTransactions
| errNilBlockHash
| errBlockNotFound
| errDiscontinuousSequenceOfBlocks
| errNotFoundTx
| errDiscontinuousBreadcrumbs
| errNegativeBalanceForBreadcrumb
| errLastNonceNotFound
| errNonceGap
| errExceededBalance
| errNonceNotSet
| errReceivedLastNonceNotSet
| errInvalidMaxTrackedBlocks
| errBadBlockWhileMaxTrackedBlocksReached
| errNilBalance
| errGlobalBreadcrumbDoesNotExist
| errRootHashMismatch
| errToManyUniqueAccountsInBlock
| errSimulateSelectionContextInvalid
| errSession.

Record OptionalUint64 := {
  Value : Z;
  HasValue : bool;
}.
#[export] Instance OptionalUint64_eq_dec : EqDecision OptionalUint64.
Proof. solve_decision. Defined.

Definition someNonce (nonce : Z) : OptionalUint64 := {| Value := nonce; HasValue := true |}.
Definition noNonce : OptionalUint64 := {| Value := 0; HasValue := false |}.

(** ** Breadcrumbs of an account in a block *)

Record accountBreadcrumb := {
  firstNonce : OptionalUint64;
  lastNonce : OptionalUint64;
  consumedBalance : Z;
}.

Definition newAccountBreadcrumb (initialNonce : OptionalUint64) : accountBreadcrumb :=
  {| firstNonce := initialNonce; lastNonce := noNonce; consumedBalance := 0 |}.

Definition accumulateConsumedBalance (transferredValue : option Z) (b : accountBreadcrumb) : accountBreadcrumb :=
  match transferredValue with
  | Some v => {| firstNonce := firstNonce b; lastNonce := lastNonce b; consumedBalance := consumedBalance b + v |}
  | None => b
  end.

Definition updateNonceRange (last : OptionalUint64) (b : accountBreadcrumb) : result txcache_error accountBreadcrumb :=
  if negb (HasValue last) then Err errReceivedLastNonceNotSet
  else if HasValue (lastNonce b) && negb (u64 (Value (lastNonce b) + 1) =? Value last) then Err errNonceGap
  else Ok {| firstNonce := if HasValue (firstNonce b) then firstNonce b else last; lastNonce := last;
             consumedBalance := consumedBalance b |}.

(** [None] is a nil breadcrumb. *)
Definition verifyContinuityBetweenAccountBreadcrumbs (previous : option accountBreadcrumb) (b : accountBreadcrumb) : bool :=
  match previous with
  | None => true
  | Some previous => u64 (Value (lastNonce previous) + 1) =? Value (firstNonce b)
  end.
Definition verifyContinuityWithSessionNonce (sessionNonce : Z) (b : accountBreadcrumb) : bool :=
  Value (firstNonce b) =? sessionNonce.
Definition hasUnknownNonce (b : accountBreadcrumb) : bool :=
  negb (HasValue (firstNonce b)) && negb (HasValue (lastNonce b)).

(** ** Tracked blocks *)

Record trackedBlock := {
  tb_nonce : Z;
  tb_hash : bytes;
  tb_prevHash : bytes;
  breadcrumbsByAddress : gmap bytes accountBreadcrumb;
}.

Definition newTrackedBlock (nonce : Z) (blockHash prevHash : bytes) : trackedBlock :=
  {| tb_nonce := nonce; tb_hash := blockHash; tb_prevHash := prevHash; breadcrumbsByAddress := ∅ |}.

Definition hasSameNonceOrLower (otherNonce : Z) (tb : trackedBlock) : bool := tb_nonce tb <=? otherNonce.
Definition hasSameNonceOrHigherThanGivenNonce (nonce : Z) (tb : trackedBlock) : bool := nonce <=? tb_nonce tb.

Definition getOrCreateBreadcrumbWithNonce (address : bytes) (nonce : OptionalUint64) (m : gmap bytes accountBreadcrumb)
    : accountBreadcrumb :=
  default (newAccountBreadcrumb nonce) (m !! address).
Definition getOrCreateBreadcrumb (address : bytes) (m : gmap bytes accountBreadcrumb) : accountBreadcrumb :=
  default (newAccountBreadcrumb noNonce) (m !! address).

(** An empty fee payer is a nil one. *)
Definition compileBreadcrumb (tx : WrappedTransaction) (m : gmap bytes accountBreadcrumb)
    : result txcache_error (gmap bytes accountBreadcrumb) :=
  let sender := senderOf tx in
  let feePayer := FeePayer tx in
  let nonce := someNonce (nonceOf tx) in
  let senderBreadcrumb :=
    accumulateConsumedBalance (TransferredValue tx) (getOrCreateBreadcrumbWithNonce sender nonce m) in
  senderBreadcrumb ← updateNonceRange nonce senderBreadcrumb;
  let m := <[sender := senderBreadcrumb]> m in
  if (length feePayer =? 0)%nat then Ok m
  else if bool_decide (sender = feePayer)
       then Ok (<[sender := accumulateConsumedBalance (Fee tx) senderBreadcrumb]> m)
       else Ok (<[feePayer := accumulateConsumedBalance (Fee tx) (getOrCreateBreadcrumb feePayer m)]> m).

(** The breadcrumbs, and the last nonce of every sender. *)
Fixpoint compileBreadcrumbs (txs : list WrappedTransaction) (m : gmap bytes accountBreadcrumb)
    (lastNoncePerSender : gmap bytes Z) : result txcache_error (gmap bytes accountBreadcrumb * gmap bytes Z) :=
  match txs with
  | [] => Ok (m, lastNoncePerSender)
  | tx :: txs =>
      m ← compileBreadcrumb tx m;
      let sender := senderOf tx in
      let isHigher := match lastNoncePerSender !! sender with
                      | Some existingNonce => existingNonce <? nonceOf tx
                      | None => true
                      end in
      compileBreadcrumbs txs m (if (isHigher : bool) then <[sender := nonceOf tx]> lastNoncePerSender else lastNoncePerSender)
  end.

(** ** Global breadcrumbs *)

Record globalAccountBreadcrumb := {
  g_firstNonce : OptionalUint64;
  g_lastNonce : OptionalUint64;
  g_consumedBalance : Z;
}.

Definition resetFirst : OptionalUint64 := {| Value := maxUint64; HasValue := false |}.

Definition newGlobalAccountBreadcrumb : globalAccountBreadcrumb :=
  {| g_firstNonce := resetFirst; g_lastNonce := noNonce; g_consumedBalance := 0 |}.

Definition g_with_nonces (first last : OptionalUint64) (gab : globalAccountBreadcrumb) : globalAccountBreadcrumb :=
  {| g_firstNonce := first; g_lastNonce := last; g_consumedBalance := g_consumedBalance gab |}.
Definition g_with_balance (balance : Z) (gab : globalAccountBreadcrumb) : globalAccountBreadcrumb :=
  {| g_firstNonce := g_firstNonce gab; g_lastNonce := g_lastNonce gab; g_consumedBalance := balance |}.

Definition resetNonces (gab : globalAccountBreadcrumb) : globalAccountBreadcrumb := g_with_nonces resetFirst noNonce gab.

Definition isUser (gab : globalAccountBreadcrumb) : bool := HasValue (g_firstNonce gab) || HasValue (g_lastNonce gab).

Definition canBeDeleted (gab : globalAccountBreadcrumb) : bool := negb (isUser gab) && negb (0 <? g_consumedBalance gab).

Definition extendConsumedBalance (b : accountBreadcrumb) (gab : globalAccountBreadcrumb) : globalAccountBreadcrumb :=
  g_with_balance (g_consumedBalance gab + consumedBalance b) gab.

(** The breadcrumb is changed also when there is an error. *)
Definition reduceConsumedBalance (b : accountBreadcrumb) : SE globalAccountBreadcrumb txcache_error () := fun gab =>
  let gab := g_with_balance (g_consumedBalance gab - consumedBalance b) gab in
  (gab, if g_consumedBalance gab <? 0 then Err errNegativeBalanceForBreadcrumb else Ok ()).

Definition extendRightNonceRange (b : accountBreadcrumb) (gab : globalAccountBreadcrumb) : globalAccountBreadcrumb :=
  g_with_nonces (g_firstNonce gab) (someNonce (Z.max (Value (g_lastNonce gab)) (Value (lastNonce b)))) gab.
Definition reduceLeftNonceRange (b : accountBreadcrumb) (gab : globalAccountBreadcrumb) : globalAccountBreadcrumb :=
  g_with_nonces (someNonce (Z.max (Value (g_firstNonce gab)) (u64 (Value (lastNonce b) + 1)))) (g_lastNonce gab) gab.
Definition reduceRightNonceRange (b : accountBreadcrumb) (gab : globalAccountBreadcrumb) : globalAccountBreadcrumb :=
  g_with_nonces (g_firstNonce gab) (someNonce (Z.min (Value (g_lastNonce gab)) (u64 (Value (firstNonce b) - 1)))) gab.

Definition updateOnAddedBreadcrumb (b : accountBreadcrumb) (gab : globalAccountBreadcrumb) : globalAccountBreadcrumb :=
  let gab := extendConsumedBalance b gab in
  if hasUnknownNonce b then gab
  else
    let gab := if HasValue (g_firstNonce gab) then gab else g_with_nonces (firstNonce b) (g_lastNonce gab) gab in
    extendRightNonceRange b gab.

(** The rest of both removals, when the balance was reduced: whether the
    account can be deleted. *)
Definition updateOnRemoved (b : accountBreadcrumb) (isLastOne : bool)
    (reduceNonceRange : globalAccountBreadcrumb -> globalAccountBreadcrumb)
    : SE globalAccountBreadcrumb txcache_error bool := fun gab =>
  let gab := if isUser gab && isLastOne then resetNonces gab else gab in
  if isUser gab then
    if hasUnknownNonce b then (gab, Ok false)
    else let gab := reduceNonceRange gab in (gab, Ok (canBeDeleted gab))
  else (gab, Ok (canBeDeleted gab)).

Definition updateOnRemovedBreadcrumbWithSameNonceOrBelow (b : accountBreadcrumb)
    : SE globalAccountBreadcrumb txcache_error bool :=
  _ ← reduceConsumedBalance b;
  gab ← se_get;
  let hasSameLastNonce := bool_decide (g_lastNonce gab = lastNonce b) in
  updateOnRemoved b hasSameLastNonce (reduceLeftNonceRange b).

Definition updateOnRemoveBreadcrumbWithSameNonceOrAbove (b : accountBreadcrumb)
    : SE globalAccountBreadcrumb txcache_error bool :=
  _ ← reduceConsumedBalance b;
  gab ← se_get;
  let hasSameFirstNonce := bool_decide (g_firstNonce gab = firstNonce b) in
  updateOnRemoved b hasSameFirstNonce (reduceRightNonceRange b).

Definition isContinuousWithSessionNonce (sessionNonce : Z) (gab : globalAccountBreadcrumb) : bool :=
  if negb (isUser gab) then true else Value (g_firstNonce gab) =? sessionNonce.

(** ** The compiler *)

Abbreviation globalBreadcrumbs := (gmap bytes globalAccountBreadcrumb).

Section Compiler.
Context {KR : KeyRange}.

Definition addBreadcrumb (g : globalBreadcrumbs) (entry : bytes * accountBreadcrumb) : globalBreadcrumbs :=
  let '(account, breadcrumb) := entry in
  <[account := updateOnAddedBreadcrumb breadcrumb (default newGlobalAccountBreadcrumb (g !! account))]> g.

Definition updateOnAddedBlock (tb : trackedBlock) (g : globalBreadcrumbs) : globalBreadcrumbs :=
  fold_left addBreadcrumb (rangeMap (breadcrumbsByAddress tb)) g.

(** The loop of both removals; it stops at an error with the accounts before
    it changed. *)
Definition removeBreadcrumb (update : accountBreadcrumb -> SE globalAccountBreadcrumb txcache_error bool)
    (entry : bytes * accountBreadcrumb) : SE globalBreadcrumbs txcache_error () := fun g =>
  let '(account, breadcrumb) := entry in
  match g !! account with
  | None => (g, Err errGlobalBreadcrumbDoesNotExist)
  | Some gab =>
      match update breadcrumb gab with
      | (gab, Err e) => (<[account := gab]> g, Err e)
      | (gab, Ok shouldBeDeleted) => ((if (shouldBeDeleted : bool) then base.delete account g else <[account := gab]> g), Ok ())
      end
  end.

Definition updateOnRemovedBlockWithSameNonceOrAbove (tb : trackedBlock) : SE globalBreadcrumbs txcache_error () :=
  se_for (rangeMap (breadcrumbsByAddress tb)) (removeBreadcrumb updateOnRemoveBreadcrumbWithSameNonceOrAbove).
Definition updateOnRemovedBlockWithSameNonceOrBelow (tb : trackedBlock) : SE globalBreadcrumbs txcache_error () :=
  se_for (rangeMap (breadcrumbsByAddress tb)) (removeBreadcrumb updateOnRemovedBreadcrumbWithSameNonceOrBelow).
End Compiler.

Definition getGlobalBreadcrumbByAddress (address : bytes) (g : globalBreadcrumbs) : result txcache_error globalAccountBreadcrumb :=
  match g !! address with Some gab => Ok gab | None => Err errGlobalBreadcrumbDoesNotExist end.

(** ** The validator of a chain of blocks *)

Record virtualAccountBalance := {
  initialBalance : Z;
  consumed : Z;
}.

Definition newVirtualAccountBalance (initialBalance : option Z) : result txcache_error virtualAccountBalance :=
  match initialBalance with
  | None => Err errNilBalance
  | Some b => Ok {| initialBalance := b; consumed := 0 |}
  end.
Definition addConsumed (consumedBalance : Z) (b : virtualAccountBalance) : virtualAccountBalance :=
  {| initialBalance := initialBalance b; consumed := consumed b + consumedBalance |}.

Record breadcrumbsValidator := {
  sendersInContinuityWithSessionNonce : gset bytes;
  accountPreviousBreadcrumb : gmap bytes accountBreadcrumb;
  virtualBalancesByAddress : gmap bytes virtualAccountBalance;
  discontinuousAddresses : gset bytes;
}.

Definition newBreadcrumbValidator : breadcrumbsValidator :=
  {| sendersInContinuityWithSessionNonce := ∅; accountPreviousBreadcrumb := ∅; virtualBalancesByAddress := ∅;
     discontinuousAddresses := ∅ |}.

Abbreviation V := (SE breadcrumbsValidator txcache_error).

Definition validateContinuityWithSessionNonce (address : bytes) (accountNonce : Z) (b : accountBreadcrumb) : V bool := fun s =>
  if bool_decide (address ∈ sendersInContinuityWithSessionNonce s) then (s, Ok true)
  else if negb (verifyContinuityWithSessionNonce accountNonce b) then (s, Ok false)
  else ({| sendersInContinuityWithSessionNonce := {[address]} ∪ sendersInContinuityWithSessionNonce s;
           accountPreviousBreadcrumb := accountPreviousBreadcrumb s;
           virtualBalancesByAddress := virtualBalancesByAddress s;
           discontinuousAddresses := discontinuousAddresses s |}, Ok true).

Definition validateContinuityWithPreviousBreadcrumb (address : bytes) (b : accountBreadcrumb) : V bool := fun s =>
  if negb (verifyContinuityBetweenAccountBreadcrumbs (accountPreviousBreadcrumb s !! address) b) then (s, Ok false)
  else ({| sendersInContinuityWithSessionNonce := sendersInContinuityWithSessionNonce s;
           accountPreviousBreadcrumb := <[address := b]> (accountPreviousBreadcrumb s);
           virtualBalancesByAddress := virtualBalancesByAddress s;
           discontinuousAddresses := discontinuousAddresses s |}, Ok true).

Definition validateNonceContinuityOfBreadcrumb (address : bytes) (accountSessionNonce : Z) (b : accountBreadcrumb) : V bool :=
  if hasUnknownNonce b then mret true
  else
    withSession ← validateContinuityWithSessionNonce address accountSessionNonce b;
    if negb (withSession : bool) then mret false else validateContinuityWithPreviousBreadcrumb address b.

Definition markAddressAsDiscontinuous (address : bytes) : V () := se_modify (fun s =>
  {| sendersInContinuityWithSessionNonce := sendersInContinuityWithSessionNonce s;
     accountPreviousBreadcrumb := accountPreviousBreadcrumb s;
     virtualBalancesByAddress := virtualBalancesByAddress s;
     discontinuousAddresses := {[address]} ∪ discontinuousAddresses s |}).

Definition isAddressDiscontinuous (address : bytes) (s : breadcrumbsValidator) : bool :=
  bool_decide (address ∈ discontinuousAddresses s).

Definition validator_validateBalance (address : bytes) (initialBalance_ : option Z) (b : accountBreadcrumb) : V () := fun s =>
  match match virtualBalancesByAddress s !! address with
        | Some virtualBalance => Ok virtualBalance
        | None => newVirtualAccountBalance initialBalance_
        end with
  | Err e => (s, Err e)
  | Ok virtualBalance =>
      let virtualBalance := addConsumed (consumedBalance b) virtualBalance in
      ({| sendersInContinuityWithSessionNonce := sendersInContinuityWithSessionNonce s;
          accountPreviousBreadcrumb := accountPreviousBreadcrumb s;
          virtualBalancesByAddress := <[address := virtualBalance]> (virtualBalancesByAddress s);
          discontinuousAddresses := discontinuousAddresses s |},
       if initialBalance virtualBalance <? consumed virtualBalance then Err errExceededBalance else Ok ())
  end.
