(* ===== verification/TxHeap.v ===== *)
(** * Competing transactions

    txcache/transactionsHeapItem.go and txcache/transactionsHeap.go: the
    transactions of a sender compete one after the other with those of the
    other senders. *)

From Stdlib Require Import ZArith Lia.
From stdpp Require Import base gmap list.
From S2P Require Import Prelude GoValues GoCollections TxList Breadcrumbs.

Record transactionsHeapItem := {
  item_sender : bytes;
  bunch : bunchOfTransactions;
  currentTransactionIndex : nat;
  currentTransaction : WrappedTransaction;
  currentTransactionNonce : Z;
  latestSelectedTransaction : option WrappedTransaction;
  latestSelectedTransactionNonce : Z;
}.

Definition newTransactionsHeapItem (bunch : bunchOfTransactions) : result txcache_error transactionsHeapItem :=
  match bunch with
  | [] => Err errEmptyBunchOfTransactions
  | firstTransaction :: _ =>
      Ok {| item_sender := senderOf firstTransaction; bunch := bunch; currentTransactionIndex := 0;
            currentTransaction := firstTransaction; currentTransactionNonce := nonceOf firstTransaction;
            latestSelectedTransaction := None; latestSelectedTransactionNonce := 0 |}
  end.

Definition selectCurrentTransaction (item : transactionsHeapItem) : transactionsHeapItem :=
  {| item_sender := item_sender item; bunch := bunch item; currentTransactionIndex := currentTransactionIndex item;
     currentTransaction := currentTransaction item; currentTransactionNonce := currentTransactionNonce item;
     latestSelectedTransaction := Some (currentTransaction item);
     latestSelectedTransactionNonce := currentTransactionNonce item |}.

(** [None] when there is no next transaction. *)
Definition gotoNextTransaction (item : transactionsHeapItem) : option transactionsHeapItem :=
  tx ← bunch item !! S (currentTransactionIndex item);
  Some {| item_sender := item_sender item; bunch := bunch item;
          currentTransactionIndex := S (currentTransactionIndex item);
          currentTransaction := tx; currentTransactionNonce := nonceOf tx;
          latestSelectedTransaction := latestSelectedTransaction item;
          latestSelectedTransactionNonce := latestSelectedTransactionNonce item |}.

Definition isSelectedBefore (item : transactionsHeapItem) : bool :=
  match latestSelectedTransaction item with Some _ => true | None => false end.

Definition detectInitialGap (senderNonce : Z) (item : transactionsHeapItem) : bool :=
  if isSelectedBefore item then false else senderNonce <? currentTransactionNonce item.
Definition detectMiddleGap (item : transactionsHeapItem) : bool :=
  if negb (isSelectedBefore item) then false
  else u64 (latestSelectedTransactionNonce item + 1) <? currentTransactionNonce item.
Definition detectLowerNonce (senderNonce : Z) (item : transactionsHeapItem) : bool :=
  currentTransactionNonce item <? senderNonce.
Definition detectNonceDuplicate (item : transactionsHeapItem) : bool :=
  if negb (isSelectedBefore item) then false
  else currentTransactionNonce item =? latestSelectedTransactionNonce item.

Definition isCurrentTransactionMoreValuableForNetwork (item other : transactionsHeapItem) : bool :=
  isTransactionMoreValuableForNetwork (currentTransaction item) (currentTransaction other).

(** [less] of newMaxTransactionsHeap and of newMinTransactionsHeap. *)
Definition maxLess (i j : transactionsHeapItem) : bool := isCurrentTransactionMoreValuableForNetwork i j.
Definition minLess (i j : transactionsHeapItem) : bool := isCurrentTransactionMoreValuableForNetwork j i.

(** The heap with the first transaction of each bunch. *)
Fixpoint heapOfBunches (less : transactionsHeapItem -> transactionsHeapItem -> bool) (bunches : list bunchOfTransactions)
    (heap : list transactionsHeapItem) : list transactionsHeapItem :=
  match bunches with
  | [] => heap
  | bunch :: bunches =>
      heapOfBunches less bunches
        match newTransactionsHeapItem bunch with
        | Err _ => heap
        | Ok item => heap_Push less item heap
        end
  end.

(** How often the loops over a heap can go on. *)
Definition remaining (item : transactionsHeapItem) : nat := length (bunch item) - currentTransactionIndex item.
Definition heapFuel (heap : list transactionsHeapItem) : nat := S (sum_list_with remaining heap).
