(* ===== verification/TxCache.v ===== *)
(** * The mempool

    txcache/txByHashMap.go, txcache/txListBySenderMap.go, txcache/txCache.go,
    txcache/eviction.go and txcache/autoClean.go: transactions by their hash,
    and by their sender in the order of execution.  The maps of package maps
    are finite maps. *)

From Stdlib Require Import ZArith Lia.
From stdpp Require Import base gmap list.
From S2P Require Import Prelude GoValues GoCollections Validators TxList Breadcrumbs TxHeap.

(** The state of the selection tracker; a nil root hash is [None]. *)
Record selectionTracker := {
  latestNonce : Z;
  latestRootHash : option bytes;
  blocks : gmap bytes trackedBlock;
  globalAccountBreadcrumbs : globalBreadcrumbs;
}.

Record TxCache := {
  txListBySender : gmap bytes txListForSender;
  sendersCounter : Z;
  txByHash : gmap bytes WrappedTransaction;
  txCounter : Z;
  numBytes : Z;
  tracker : selectionTracker;
}.

(** Configuration; [counter_GetUint64] is that of the atomic counters. *)
Class TxCacheConfig := {
  EvictionEnabled : bool;
  NumBytesThreshold : Z;
  CountThreshold : Z;
  NumItemsToPreemptivelyEvict : Z;
  constraintsOfSenders : senderConstraints;
  selfShardId : Z;
  maxTrackedBlocks : Z;
  counter_GetUint64 : Z -> Z;
}.

Definition cache_with_lists (m : gmap bytes txListForSender) (counter : Z) (c : TxCache) : TxCache :=
  {| txListBySender := m; sendersCounter := counter; txByHash := txByHash c; txCounter := txCounter c;
     numBytes := numBytes c; tracker := tracker c |}.
Definition cache_with_hashes (m : gmap bytes WrappedTransaction) (counter bytes : Z) (c : TxCache) : TxCache :=
  {| txListBySender := txListBySender c; sendersCounter := sendersCounter c; txByHash := m; txCounter := counter;
     numBytes := bytes; tracker := tracker c |}.
Definition cache_with_tracker (t : selectionTracker) (c : TxCache) : TxCache :=
  {| txListBySender := txListBySender c; sendersCounter := sendersCounter c; txByHash := txByHash c;
     txCounter := txCounter c; numBytes := numBytes c; tracker := t |}.

(** A new mempool; the configuration is checked before. *)
Definition NewSelectionTracker {CF : TxCacheConfig} : result txcache_error selectionTracker :=
  if maxTrackedBlocks =? 0 then Err errInvalidMaxTrackedBlocks
  else Ok {| latestNonce := 0; latestRootHash := None; blocks := ∅; globalAccountBreadcrumbs := ∅ |}.
Definition NewTxCache {CF : TxCacheConfig} : result txcache_error TxCache :=
  tracker ← NewSelectionTracker;
  Ok {| txListBySender := ∅; sendersCounter := 0; txByHash := ∅; txCounter := 0; numBytes := 0; tracker := tracker |}.

(** selectionTracker.IsTransactionTracked *)
Definition IsTransactionTracked (t : selectionTracker) (transaction : WrappedTransaction) : bool :=
  match getGlobalBreadcrumbByAddress (senderOf transaction) (globalAccountBreadcrumbs t) with
  | Err _ => false
  | Ok gab =>
      let minNonce := g_firstNonce gab in
      let maxNonce := g_lastNonce gab in
      if negb (HasValue minNonce) || negb (HasValue maxNonce) then false
      else if (nonceOf transaction <? Value minNonce) || (Value maxNonce <? nonceOf transaction) then false
      else true
  end.

(** ** Transactions by hash *)

Definition byHash_addTx (tx : WrappedTransaction) (c : TxCache) : TxCache * bool :=
  match txByHash c !! TxHash tx with
  | Some _ => (c, false)
  | None => (cache_with_hashes (<[TxHash tx := tx]> (txByHash c)) (i64 (txCounter c + 1)) (i64 (numBytes c + Size tx)) c,
             true)
  end.

Definition byHash_removeTx (txHash : bytes) (c : TxCache) : TxCache * option WrappedTransaction :=
  match txByHash c !! txHash with
  | None => (c, None)
  | Some tx => (cache_with_hashes (base.delete txHash (txByHash c)) (i64 (txCounter c - 1)) (i64 (numBytes c - Size tx)) c,
                Some tx)
  end.

Definition RemoveTxsBulk (txHashes : list bytes) (c : TxCache) : TxCache :=
  fold_left (fun c txHash => fst (byHash_removeTx txHash c)) txHashes c.

(** The bytes are not reset. *)
Definition byHash_clear (c : TxCache) : TxCache := cache_with_hashes ∅ 0 (numBytes c) c.

(** ** Transactions by sender *)

Definition getListForSender (sender : bytes) (c : TxCache) : option txListForSender := txListBySender c !! sender.

Definition setList (l : txListForSender) (c : TxCache) : TxCache :=
  cache_with_lists (<[sender l := l]> (txListBySender c)) (sendersCounter c) c.

Definition addSender (sender : bytes) (c : TxCache) : TxCache * txListForSender :=
  let listForSender := newTxListForSender sender in
  (cache_with_lists (<[sender := listForSender]> (txListBySender c)) (i64 (sendersCounter c + 1)) c, listForSender).

Definition getOrAddListForSender (sender : bytes) (c : TxCache) : TxCache * txListForSender :=
  match getListForSender sender c with
  | Some listForSender => (c, listForSender)
  | None => addSender sender c
  end.

Definition removeSender (sender : bytes) (c : TxCache) : TxCache :=
  match getListForSender sender c with
  | Some _ => cache_with_lists (base.delete sender (txListBySender c)) (i64 (sendersCounter c - 1)) c
  | None => c
  end.

Definition removeSenderIfEmpty (l : txListForSender) (c : TxCache) : TxCache :=
  if IsEmpty l then removeSender (sender l) c else c.

Section Cache.
Context {KR : KeyRange} {CF : TxCacheConfig} {MH : MempoolHost}.

Definition addTxReturnEvicted (tx : WrappedTransaction) (c : TxCache) : TxCache * (bool * list bytes) :=
  let '(c, listForSender) := getOrAddListForSender (senderOf tx) c in
  let '(l, r) := list_AddTx constraintsOfSenders (IsTransactionTracked (tracker c)) tx listForSender in
  (setList l c, r).

Definition bySender_removeLowerOrEqual (tx : WrappedTransaction) (c : TxCache) : TxCache * list bytes :=
  match getListForSender (senderOf tx) c with
  | None => (c, [])
  | Some listForSender =>
      let '(l, evicted) := removeTransactionsWithLowerOrEqualNonceReturnHashes (nonceOf tx) listForSender in
      (removeSenderIfEmpty l (setList l c), evicted)
  end.

Definition removeTransactionsWithHigherOrEqualNonce (accountKey : bytes) (nonce : Z) (c : TxCache) : TxCache :=
  match getListForSender accountKey c with
  | None => c
  | Some listForSender =>
      let l := list_removeTransactionsWithHigherOrEqualNonce nonce listForSender in
      removeSenderIfEmpty l (setList l c)
  end.

Definition getSenders (c : TxCache) : list txListForSender := snd <$> rangeMap (txListBySender c).

Definition bySender_clear (c : TxCache) : TxCache := cache_with_lists ∅ 0 c.

(** ** Capacity and eviction *)

Definition NumBytes (c : TxCache) : Z := i64 (counter_GetUint64 (numBytes c)).
Definition CountTx (c : TxCache) : Z := counter_GetUint64 (txCounter c).
Definition CountSenders (c : TxCache) : Z := counter_GetUint64 (sendersCounter c).

Definition areThereTooManyBytes (c : TxCache) : bool := NumBytesThreshold <? NumBytes c.
Definition areThereTooManySenders (c : TxCache) : bool := CountThreshold <? CountSenders c.
Definition areThereTooManyTxs (c : TxCache) : bool := CountThreshold <? CountTx c.
Definition isCapacityExceeded (c : TxCache) : bool :=
  areThereTooManyBytes c || areThereTooManySenders c || areThereTooManyTxs c.

(** The inner loop: the item that is popped when there are enough transactions
    is dropped. *)
Fixpoint pass_loop (fuel : nat) (t : selectionTracker) (heap : list transactionsHeapItem) (toEvict : bunchOfTransactions)
    : list transactionsHeapItem * bunchOfTransactions :=
  match fuel with
  | O => (heap, toEvict)
  | S fuel =>
      match heap_Pop minLess heap with
      | None => (heap, toEvict)
      | Some (item, heap) =>
          if NumItemsToPreemptivelyEvict <=? Z.of_nat (length toEvict) then (heap, toEvict)
          else
            let toEvict := if IsTransactionTracked t (currentTransaction item) then toEvict
                           else toEvict ++ [currentTransaction item] in
            let heap := match gotoNextTransaction item with
                        | Some item => heap_Push minLess item heap
                        | None => heap
                        end in
            pass_loop fuel t heap toEvict
      end
  end.

Definition lowestToEvictBySender (toEvict : bunchOfTransactions) : gmap bytes Z :=
  fold_left (fun m tx => <[senderOf tx := nonceOf tx]> m) toEvict ∅.

(** What a pass removes. *)
Definition evictTransactions (toEvict : bunchOfTransactions) (c : TxCache) : TxCache :=
  let c := fold_left (fun c '(sender, nonce) => removeTransactionsWithHigherOrEqualNonce sender nonce c)
             (rangeMap (lowestToEvictBySender toEvict)) c in
  RemoveTxsBulk (TxHash <$> toEvict) c.

(** The outer loop; the journal has the numbers evicted by pass. *)
Fixpoint evict_loop (fuel : nat) (heap : list transactionsHeapItem) (numEvictedByPass : list nat) (c : TxCache)
    : TxCache * list nat :=
  match fuel with
  | O => (c, numEvictedByPass)
  | S fuel =>
      if negb (isCapacityExceeded c) then (c, numEvictedByPass)
      else
        let '(heap, toEvict) := pass_loop (heapFuel heap) (tracker c) heap [] in
        if (length toEvict =? 0)%nat then (c, numEvictedByPass)
        else evict_loop fuel heap (numEvictedByPass ++ [length toEvict]) (evictTransactions toEvict c)
  end.

Definition evictLeastLikelyToSelectTransactions (c : TxCache) : TxCache * list nat :=
  let bunches := getTxsReversed <$> getSenders c in
  let heap := heapOfBunches minLess bunches [] in
  evict_loop (heapFuel heap) heap [] c.

Definition doEviction (c : TxCache) : TxCache * option (list nat) :=
  if negb (isCapacityExceeded c) then (c, None)
  else let '(c, journal) := evictLeastLikelyToSelectTransactions c in (c, Some journal).

(** ** TxCache *)

Definition receivedAt (now : Z) (tx : WrappedTransaction) : WrappedTransaction :=
  {| Tx := Tx tx; TxHash := TxHash tx; Size := Size tx; ReceivedAt := now; Fee := Fee tx;
     PricePerUnit := PricePerUnit tx; TransferredValue := TransferredValue tx; FeePayer := FeePayer tx |}.

(** [None] is a nil transaction; [now] is the time; whether it is valid, and
    whether it was added. *)
Definition AddTx (now : Z) (tx : option WrappedTransaction) (c : TxCache) : TxCache * (bool * bool) :=
  match tx with
  | None => (c, (false, false))
  | Some tx =>
      match txByHash c !! TxHash tx with
      | Some _ => (c, (true, false))
      | None =>
          let tx := receivedAt now (precomputeFields tx) in
          let c := if EvictionEnabled then fst (doEviction c) else c in
          let '(c, addedInByHash) := byHash_addTx tx c in
          let '(c, (addedInBySender, evicted)) := addTxReturnEvicted tx c in
          let c := if (0 <? length evicted)%nat then RemoveTxsBulk evicted c else c in
          (c, (true, addedInByHash || addedInBySender))
      end
  end.

Definition GetByTxHash (txHash : bytes) (c : TxCache) : option WrappedTransaction := txByHash c !! txHash.

(** The offsets of the senders of a map from senders to nonces. *)
Definition resetOffsets (nonces : list (bytes * Z)) (c : TxCache) : TxCache :=
  fold_left (fun c '(sender, nonce) =>
    match getListForSender sender c with
    | None => c
    | Some l => setList (resetSelectionOffsetByNonce nonce l) c
    end) nonces c.
Definition SetSelectionOffsetsByLastNonce (lastNoncePerSender : gmap bytes Z) (c : TxCache) : TxCache :=
  resetOffsets ((fun '(sender, lastNonce) => (sender, u64 (lastNonce + 1))) <$> rangeMap lastNoncePerSender) c.
Definition ResetSelectionOffsetsToNonce (sendersWithFirstNonce : gmap bytes Z) (c : TxCache) : TxCache :=
  resetOffsets (rangeMap sendersWithFirstNonce) c.
Definition ResetAllSelectionOffsets (c : TxCache) : TxCache :=
  cache_with_lists (resetSelectionOffset <$> txListBySender c) (sendersCounter c) c.

Definition RemoveTxByHash (txHash : bytes) (c : TxCache) : TxCache * bool :=
  let '(c, removed) := byHash_removeTx txHash c in
  match removed with
  | None => (c, false)
  | Some tx =>
      let '(c, evicted) := bySender_removeLowerOrEqual tx c in
      (if (0 <? length evicted)%nat then RemoveTxsBulk evicted c else c, true)
  end.

Definition GetTransactionsPoolForSender (sender : bytes) (c : TxCache) : option (list WrappedTransaction) :=
  getTxs <$> getListForSender sender c.

Definition Clear (c : TxCache) : TxCache := byHash_clear (bySender_clear c).

(** ** Cleaning up *)

(** [sort.Slice] by a comparison of positions: all that is known of the result
    for a comparison that is not of the elements is that it is a permutation. *)
Context (SortSlice : (nat -> nat -> list bytes -> bool) -> list bytes -> list bytes) (sha256 : bytes -> bytes).

Definition littleEndian (x : Z) : bytes := (fun i => Z.shiftr x (8 * Z.of_nat i) mod 256) <$> seq 0 8.

(** The keys stay where they are while the senders are moved. *)
Definition shuffleSendersAddresses (senders : list bytes) (randomness : Z) : list bytes :=
  let keys := (fun addr => sha256 (addr ++ littleEndian randomness)) <$> senders in
  SortSlice (fun i j senders =>
    let cmp := bytes_Compare (default [] (keys !! i)) (default [] (keys !! j)) in
    if negb (cmp =? 0) then 0 <? cmp
    else 0 <? bytes_Compare (default [] (senders !! i)) (default [] (senders !! j))) senders.

Definition getDeterministicallyShuffledSenders (randomness : Z) (c : TxCache) : list txListForSender :=
  omap (fun sender => getListForSender sender c)
    (shuffleSendersAddresses (fst <$> rangeMap (txListBySender c)) randomness).

(** [timeIsUp n]: the time is over when [n] senders were visited.  The lists
    that are emptied stay. *)
Fixpoint sweep_loop (senders : list txListForSender) (GetAccountNonce : bytes -> option Z) (maxNum : nat)
    (timeIsUp : nat -> bool) (visited : nat) (evicted : list bytes) (c : TxCache) : TxCache * list bytes :=
  match senders with
  | [] => (c, evicted)
  | l :: senders =>
      match GetAccountNonce (sender l) with
      | None => sweep_loop senders GetAccountNonce maxNum timeIsUp (S visited) evicted c
      | Some accountNonce =>
          if accountNonce =? 0 then sweep_loop senders GetAccountNonce maxNum timeIsUp (S visited) evicted c
          else if (maxNum <=? length evicted)%nat then (c, evicted)
          else if timeIsUp visited then (c, evicted)
          else
            let targetNonce := u64 (accountNonce - 1) in
            let '(l, hashes) := removeSweepableTransactionsReturnHashes targetNonce (IsTransactionTracked (tracker c)) l in
            sweep_loop senders GetAccountNonce maxNum timeIsUp (S visited) (evicted ++ hashes) (setList l c)
      end
  end.

Definition RemoveSweepableTxs (GetAccountNonce : bytes -> option Z) (randomness : Z) (maxNum : nat)
    (timeIsUp : nat -> bool) (c : TxCache) : TxCache * Z :=
  let '(c, evicted) :=
    sweep_loop (getDeterministicallyShuffledSenders randomness c) GetAccountNonce maxNum timeIsUp 0 [] c in
  (if (0 <? length evicted)%nat then RemoveTxsBulk evicted c else c, Z.of_nat (length evicted)).
End Cache.
