(* ===== verification/SelectionTracker.v ===== *)
(** * The selection tracker

    txcache/selectionTracker.go and txcache/blocks.go: the proposed blocks that
    are not executed yet, with what they take from the accounts.  The tracker
    is part of the mempool, whose offsets it moves.  The preemption of
    selections that run ahead of time is left out. *)

From Stdlib Require Import ZArith Lia.
From stdpp Require Import base gmap list sorting.
From S2P Require Import Prelude GoValues GoCollections TxList Breadcrumbs TxHeap TxCache.

(** data/block.MiniBlock and the header, as far as they are read. *)
Inductive miniBlockType := TxBlock | InvalidBlock | OtherBlock.
Record MiniBlock := {
  mb_Type : miniBlockType;
  SenderShardID : Z;
  TxHashes : list bytes;
}.
Record HeaderHandler := {
  hdr_Nonce : Z;
  hdr_PrevHash : bytes;
  hdr_NumExecutionResults : Z;
}.

(** common.AccountNonceAndBalanceProvider; a nil balance is [None]. *)
Record AccountNonceAndBalanceProvider := {
  GetAccountNonceAndBalance : bytes -> result txcache_error (Z * option Z);
  GetRootHash : result txcache_error (option bytes);
}.

Definition maxAccountsPerBlock : Z := 12000.

Section Tracker.
Context {KR : KeyRange} {CF : TxCacheConfig}.

Abbreviation C := (SE TxCache txcache_error).

Definition tracker_with_blocks (b : gmap bytes trackedBlock) (g : globalBreadcrumbs) (t : selectionTracker) : selectionTracker :=
  {| latestNonce := latestNonce t; latestRootHash := latestRootHash t; blocks := b; globalAccountBreadcrumbs := g |}.

(** ** Transactions of a block *)

Fixpoint lookupTxs (txHashes : list bytes) (c : TxCache) : result txcache_error (list WrappedTransaction) :=
  match txHashes with
  | [] => Ok []
  | txHash :: txHashes =>
      match GetByTxHash txHash c with
      | None => Err errNotFoundTx
      | Some tx => txs ← lookupTxs txHashes c; Ok (tx :: txs)
      end
  end.

Fixpoint getTransactionsInBlock (miniBlocks : list MiniBlock) (c : TxCache) : result txcache_error (list WrappedTransaction) :=
  match miniBlocks with
  | [] => Ok []
  | miniBlock :: miniBlocks =>
      let isTxOrInvalid := match mb_Type miniBlock with OtherBlock => false | _ => true end in
      if negb isTxOrInvalid || negb (SenderShardID miniBlock =? selfShardId)
      then getTransactionsInBlock miniBlocks c
      else
        txs ← lookupTxs (TxHashes miniBlock) c;
        rest ← getTransactionsInBlock miniBlocks c;
        Ok (txs ++ rest)
  end.

Definition checkUniqueAccountsLimit (miniBlocks : list MiniBlock) (c : TxCache) : result txcache_error () :=
  match getTransactionsInBlock miniBlocks c with
  | Err _ => Ok ()
  | Ok txs =>
      let uniqueAccounts : gset bytes := list_to_set (senderOf <$> txs) in
      if maxAccountsPerBlock <? Z.of_nat (size uniqueAccounts) then Err errToManyUniqueAccountsInBlock else Ok ()
  end.

Definition checkReceivedBlockNoLock (miniBlocks : list MiniBlock) (blockHeader : HeaderHandler) (t : selectionTracker)
    : result txcache_error () :=
  if Z.of_nat (size (blocks t)) <? maxTrackedBlocks then Ok ()
  else
    let hasNewTransactions := negb (length miniBlocks =? 0)%nat in
    let hasNoNewExecutionResults := hdr_NumExecutionResults blockHeader =? 0 in
    if hasNewTransactions && hasNoNewExecutionResults then Err errBadBlockWhileMaxTrackedBlocksReached else Ok ().

(** ** The chain of a block *)

(** The loop that walks back; the chain grows at its head. *)
Fixpoint chain_loop (fuel : nat) (latestExecutedBlockHash : bytes) (previousBlock : option trackedBlock)
    (nonceOfNextBlock : Z) (chain : list trackedBlock) (t : selectionTracker) : result txcache_error (list trackedBlock) :=
  match fuel with
  | O => Err errBlockNotFound
  | S fuel =>
      if nonceOfNextBlock =? 0 then Ok chain
      else
        match previousBlock with
        | None => Err errBlockNotFound
        | Some previousBlock =>
            if negb (tb_nonce previousBlock =? u64 (nonceOfNextBlock - 1)) then Err errDiscontinuousSequenceOfBlocks
            else
              let chain := previousBlock :: chain in
              let previousBlockHash := tb_prevHash previousBlock in
              if bool_decide (latestExecutedBlockHash = previousBlockHash) then Ok chain
              else chain_loop fuel latestExecutedBlockHash (blocks t !! previousBlockHash) (u64 (nonceOfNextBlock - 1)) chain t
        end
  end.

Definition getChainOfTrackedPendingBlocks (latestExecutedBlockHash previousHashToBeFound : bytes) (nonceOfNextBlock : Z)
    (t : selectionTracker) : result txcache_error (list trackedBlock) :=
  if bool_decide (latestExecutedBlockHash = previousHashToBeFound) then Ok []
  else chain_loop (size (blocks t) + 2) latestExecutedBlockHash (blocks t !! previousHashToBeFound) nonceOfNextBlock [] t.

(** ** Validation *)

Definition validateEntry (isNewBlock : bool) (accountsProvider : AccountNonceAndBalanceProvider)
    (entry : bytes * accountBreadcrumb) : SE breadcrumbsValidator txcache_error () :=
  let '(address, breadcrumb) := entry in
  validator ← se_get;
  _ ← se_guard (isNewBlock && isAddressDiscontinuous address validator) errDiscontinuousBreadcrumbs;
  '(initialNonce, initialBalance) ← se_lift (GetAccountNonceAndBalance accountsProvider address);
  continuous ← validateNonceContinuityOfBreadcrumb address initialNonce breadcrumb;
  if negb (continuous : bool) then
    _ ← se_guard isNewBlock errDiscontinuousBreadcrumbs;
    markAddressAsDiscontinuous address
  else
    validator ← se_get;
    if isAddressDiscontinuous address validator then mret ()
    else validator_validateBalance address initialBalance breadcrumb.

Fixpoint validateBlocks (chain : list trackedBlock) (accountsProvider : AccountNonceAndBalanceProvider)
    : SE breadcrumbsValidator txcache_error () :=
  match chain with
  | [] => mret ()
  | tb :: chain =>
      let isNewBlock := (length chain =? 0)%nat in
      _ ← se_for (rangeMap (breadcrumbsByAddress tb)) (validateEntry isNewBlock accountsProvider);
      validateBlocks chain accountsProvider
  end.

Definition validateBreadcrumbsOfTrackedBlocks (chainOfTrackedBlocks : list trackedBlock)
    (accountsProvider : AccountNonceAndBalanceProvider) : result txcache_error () :=
  snd (validateBlocks chainOfTrackedBlocks accountsProvider newBreadcrumbValidator).

(** ** Removing blocks *)

(** The first nonces of the senders of removed blocks, the lowest of each. *)
Definition addFirstNonce (m : gmap bytes Z) (entry : bytes * accountBreadcrumb) : gmap bytes Z :=
  let '(address, breadcrumb) := entry in
  if HasValue (firstNonce breadcrumb) then
    match m !! address with
    | None => <[address := Value (firstNonce breadcrumb)]> m
    | Some existingNonce =>
        if Value (firstNonce breadcrumb) <? existingNonce then <[address := Value (firstNonce breadcrumb)]> m else m
    end
  else m.

(** Removal of a block from the map and from the global breadcrumbs. *)
Definition removeBlock (update : trackedBlock -> SE globalBreadcrumbs txcache_error ()) (mb : bytes * trackedBlock) : C () :=
  fun c =>
    let t := tracker c in
    let '(g, r) := update (snd mb) (globalAccountBreadcrumbs t) in
    (cache_with_tracker (tracker_with_blocks (base.delete (fst mb) (blocks t)) g t) c, r).

Definition higherNonce (a b : bytes * trackedBlock) : Prop := tb_nonce (snd b) <= tb_nonce (snd a).
#[export] Instance higherNonce_dec a b : Decision (higherNonce a b).
Proof. unfold higherNonce. apply _. Defined.
Definition lowerNonce (a b : bytes * trackedBlock) : Prop := tb_nonce (snd a) <= tb_nonce (snd b).
#[export] Instance lowerNonce_dec a b : Decision (lowerNonce a b).
Proof. unfold lowerNonce. apply _. Defined.

Fixpoint deleteBlocks_loop (matchingBlocks : list (bytes * trackedBlock)) (sendersWithFirstNonce : gmap bytes Z) : C (gmap bytes Z) :=
  match matchingBlocks with
  | [] => mret sendersWithFirstNonce
  | mb :: matchingBlocks =>
      let senders := fold_left addFirstNonce (rangeMap (breadcrumbsByAddress (snd mb))) sendersWithFirstNonce in
      _ ← removeBlock updateOnRemovedBlockWithSameNonceOrAbove mb;
      deleteBlocks_loop matchingBlocks senders
  end.

Definition deleteMatchedBlocksWithSameNonceOrAboveNoLock (matchingBlocks : list (bytes * trackedBlock)) : C () :=
  sendersWithFirstNonce ← deleteBlocks_loop (merge_sort higherNonce matchingBlocks) ∅;
  if (0 <? size sendersWithFirstNonce)%nat then se_modify (ResetSelectionOffsetsToNonce sendersWithFirstNonce) else mret ().

Definition removeBlocksAboveOrEqualToNonceNoLock (nonce : Z) : C () :=
  c ← se_get;
  deleteMatchedBlocksWithSameNonceOrAboveNoLock
    (List.filter (fun mb => hasSameNonceOrHigherThanGivenNonce nonce (snd mb)) (rangeMap (blocks (tracker c)))).

Definition removeUpToBlockNoLock (nonce : Z) : C () :=
  c ← se_get;
  se_for (merge_sort lowerNonce
            (List.filter (fun mb => hasSameNonceOrLower nonce (snd mb)) (rangeMap (blocks (tracker c)))))
    (removeBlock updateOnRemovedBlockWithSameNonceOrBelow).

(** ** Proposed and executed blocks *)

Definition addNewTrackedBlockNoLock (blockToBeAddedHash : bytes) (blockToBeAdded : trackedBlock) : C () :=
  _ ← removeBlocksAboveOrEqualToNonceNoLock (tb_nonce blockToBeAdded);
  se_modify (fun c =>
    let t := tracker c in
    cache_with_tracker (tracker_with_blocks (<[blockToBeAddedHash := blockToBeAdded]> (blocks t))
      (updateOnAddedBlock blockToBeAdded (globalAccountBreadcrumbs t)) t) c).

(** The block with its breadcrumbs, and the last nonces of the senders. *)
Definition compileBlock (tBlock : trackedBlock) (txs : list WrappedTransaction)
    : result txcache_error (trackedBlock * gmap bytes Z) :=
  '(m, lastNoncePerSender) ← compileBreadcrumbs txs (breadcrumbsByAddress tBlock) ∅;
  Ok ({| tb_nonce := tb_nonce tBlock; tb_hash := tb_hash tBlock; tb_prevHash := tb_prevHash tBlock;
         breadcrumbsByAddress := m |}, lastNoncePerSender).

Definition validateTrackedBlocksAndCompileBreadcrumbsNoLock (miniBlocks : list MiniBlock) (blockToTrack : trackedBlock)
    (accountsProvider : AccountNonceAndBalanceProvider) (latestExecutedHash : bytes) (c : TxCache)
    : result txcache_error (trackedBlock * gmap bytes Z) :=
  blocksToBeValidated ←
    getChainOfTrackedPendingBlocks latestExecutedHash (tb_prevHash blockToTrack) (tb_nonce blockToTrack) (tracker c);
  txs ← getTransactionsInBlock miniBlocks c;
  '(blockToTrack, lastNoncePerSender) ← compileBlock blockToTrack txs;
  _ ← validateBreadcrumbsOfTrackedBlocks (blocksToBeValidated ++ [blockToTrack]) accountsProvider;
  Ok (blockToTrack, lastNoncePerSender).

(** [bytes.Equal] of root hashes: nil is as good as empty. *)
Definition sameRootHash (a b : option bytes) : bool := bool_decide (default [] a = default [] b).

(** Nil arguments and bodies of another type are refused before anything else;
    here they are not nil. *)
Definition OnProposedBlock (blockHash : bytes) (miniBlocks : list MiniBlock) (blockHeader : HeaderHandler)
    (accountsProvider : AccountNonceAndBalanceProvider) (latestExecutedHash : bytes) : C () :=
  _ ← se_guard (length blockHash =? 0)%nat errNilBlockHash;
  accountsRootHash ← se_lift (GetRootHash accountsProvider);
  c ← se_get;
  _ ← se_lift (checkUniqueAccountsLimit miniBlocks c);
  _ ← se_guard (negb (sameRootHash (latestRootHash (tracker c)) accountsRootHash)) errRootHashMismatch;
  let tBlock := newTrackedBlock (hdr_Nonce blockHeader) blockHash (hdr_PrevHash blockHeader) in
  _ ← se_lift (checkReceivedBlockNoLock miniBlocks blockHeader (tracker c));
  '(tBlock, lastNoncePerSender) ← se_lift (validateTrackedBlocksAndCompileBreadcrumbsNoLock miniBlocks tBlock accountsProvider latestExecutedHash c);
  _ ← addNewTrackedBlockNoLock blockHash tBlock;
  se_modify (SetSelectionOffsetsByLastNonce lastNoncePerSender).

Definition OnBackfilledBlock (blockHash : bytes) (miniBlocks : list MiniBlock) (blockHeader : HeaderHandler) : C () :=
  _ ← se_guard (length blockHash =? 0)%nat errNilBlockHash;
  let tBlock := newTrackedBlock (hdr_Nonce blockHeader) blockHash (hdr_PrevHash blockHeader) in
  c ← se_get;
  txs ← se_lift (getTransactionsInBlock miniBlocks c);
  '(tBlock, lastNoncePerSender) ← se_lift (compileBlock tBlock txs);
  _ ← addNewTrackedBlockNoLock blockHash tBlock;
  se_modify (SetSelectionOffsetsByLastNonce lastNoncePerSender).

Definition updateLatestRootHashNoLock (receivedNonce : Z) (receivedRootHash : option bytes) (t : selectionTracker) : selectionTracker :=
  let updated := {| latestNonce := receivedNonce; latestRootHash := receivedRootHash; blocks := blocks t;
                    globalAccountBreadcrumbs := globalAccountBreadcrumbs t |} in
  match latestRootHash t with
  | None => updated
  | Some _ => if receivedNonce <=? latestNonce t then t else updated
  end.

Definition OnExecutedBlock (blockHeader : HeaderHandler) (rootHash : option bytes) : C () :=
  _ ← removeUpToBlockNoLock (hdr_Nonce blockHeader);
  se_modify (fun c => cache_with_tracker (updateLatestRootHashNoLock (hdr_Nonce blockHeader) rootHash (tracker c)) c).

Definition ResetTrackedBlocks (c : TxCache) : TxCache :=
  ResetAllSelectionOffsets (cache_with_tracker
    {| latestNonce := 0; latestRootHash := None; blocks := ∅; globalAccountBreadcrumbs := ∅ |} c).

Definition canDoSimulateSelection (nonce : Z) (t : selectionTracker) : bool :=
  if nonce =? 0 then true
  else
    let lastTrackedBlockNonce :=
      fold_left (fun last mb => if last <? tb_nonce (snd mb) then tb_nonce (snd mb) else last)
        (rangeMap (blocks t)) (latestNonce t) in
    nonce =? u64 (lastTrackedBlockNonce + 1).

Definition getVirtualNonceOfAccountWithRootHash (address : bytes) (t : selectionTracker)
    : result txcache_error (Z * option bytes) :=
  breadcrumb ← getGlobalBreadcrumbByAddress address (globalAccountBreadcrumbs t);
  if negb (HasValue (g_lastNonce breadcrumb)) then Err errLastNonceNotFound
  else Ok (u64 (Value (g_lastNonce breadcrumb) + 1), latestRootHash t).
End Tracker.
