(* ===== verification/TxSelection.v ===== *)
(** * Selection of transactions

    txcache/virtualAccountBalance.go, txcache/virtualAccountRecord.go,
    txcache/virtualSelectionSession.go, txcache/virtualSessionComputer.go and
    txcache/selection.go: the best transactions of all senders, in the order of
    their nonces and within what the accounts can pay when the tracked blocks
    are executed. *)

From Stdlib Require Import ZArith Lia.
From stdpp Require Import base gmap list.
From S2P Require Import Prelude GoValues GoCollections TxList Breadcrumbs TxHeap TxCache SelectionTracker.

(** SelectionSession *)
Record SelectionSession := {
  provider : AccountNonceAndBalanceProvider;
  session_IsIncorrectlyGuarded : TransactionHandler -> bool;
  session_IsGuarded : TransactionHandler -> bool;
}.

Record virtualAccountRecord := {
  initialNonce : OptionalUint64;
  virtualBalance : virtualAccountBalance;
  hasPendingChangeGuardianTransaction : bool;
}.

Definition newVirtualAccountRecord (initialNonce : OptionalUint64) (initialBalance : option Z)
    : result txcache_error virtualAccountRecord :=
  virtualBalance ← newVirtualAccountBalance initialBalance;
  Ok {| initialNonce := initialNonce; virtualBalance := virtualBalance; hasPendingChangeGuardianTransaction := false |}.

Definition getInitialNonce (r : virtualAccountRecord) : result txcache_error Z :=
  if negb (HasValue (initialNonce r)) then Err errNonceNotSet else Ok (Value (initialNonce r)).
Definition getInitialBalance (r : virtualAccountRecord) : Z := initialBalance (virtualBalance r).
Definition getConsumedBalance (r : virtualAccountRecord) : Z := consumed (virtualBalance r).

Definition consume (consumedBalance : Z) (r : virtualAccountRecord) : virtualAccountRecord :=
  {| initialNonce := initialNonce r; virtualBalance := addConsumed consumedBalance (virtualBalance r);
     hasPendingChangeGuardianTransaction := hasPendingChangeGuardianTransaction r |}.

(** ** The virtual session: records of accounts, created when they are read *)

Abbreviation VirtualRecords := (gmap bytes virtualAccountRecord).
Abbreviation VS := (SE VirtualRecords txcache_error).

Section Session.
Context (session : SelectionSession).

Definition createAccountRecord (address : bytes) : result txcache_error virtualAccountRecord :=
  '(nonce, balance) ← GetAccountNonceAndBalance (provider session) address;
  newVirtualAccountRecord (someNonce nonce) balance.

Definition getRecord (address : bytes) : VS virtualAccountRecord := fun records =>
  match records !! address with
  | Some virtualRecord => (records, Ok virtualRecord)
  | None =>
      match createAccountRecord address with
      | Err e => (records, Err e)
      | Ok virtualRecord => (<[address := virtualRecord]> records, Ok virtualRecord)
      end
  end.

(** A change of the record of an account that has one. *)
Definition changeRecord (address : bytes) (f : virtualAccountRecord -> virtualAccountRecord) : VS () :=
  se_modify (alter f address).

(** [sender] is the account of the record [senderRecord]. *)
Definition session_accumulateConsumedBalance (tx : WrappedTransaction) (sender : bytes) : VS () :=
  feePayer ← (if isFeePayerSameAsSender tx then mret sender
              else _ ← getRecord (FeePayer tx); mret (FeePayer tx));
  _ ← match Fee tx with Some fee => changeRecord feePayer (consume fee) | None => mret () end;
  match TransferredValue tx with Some v => changeRecord sender (consume v) | None => mret () end.

Definition consumedBalanceExceedsInitialBalance (address : bytes) (value : Z) : VS bool := fun records =>
  match getRecord address records with
  | (records, Err _) => (records, Ok true)
  | (records, Ok record) => (records, Ok (getInitialBalance record <? getConsumedBalance record + value))
  end.

Definition detectWillBalanceBeExceeded (tx : WrappedTransaction) : VS bool :=
  let sender := senderOf tx in
  match TransferredValue tx with
  | None => mret true
  | Some transferredValue =>
      exceeded ← consumedBalanceExceedsInitialBalance sender transferredValue;
      if (exceeded : bool) then mret true
      else
        match Fee tx with
        | None => mret true
        | Some fee =>
            exceeded ← consumedBalanceExceedsInitialBalance (FeePayer tx) fee;
            if (exceeded : bool) then mret true
            else if bool_decide (sender = FeePayer tx)
                 then consumedBalanceExceedsInitialBalance sender (transferredValue + fee)
                 else mret false
        end
  end.

(** process.IsSetGuardianCall: the data start with the name and an [@]. *)
Context (BuiltInFunctionSetGuardian : bytes).
Definition IsBuiltinFuncCallWithParam (txData function : bytes) : bool :=
  bool_decide ((function ++ [64]) `prefix_of` txData).
Definition IsSetGuardianCall (txData : bytes) : bool := IsBuiltinFuncCallWithParam txData BuiltInFunctionSetGuardian.

Definition setPending (r : virtualAccountRecord) : virtualAccountRecord :=
  {| initialNonce := initialNonce r; virtualBalance := virtualBalance r; hasPendingChangeGuardianTransaction := true |}.

Definition setChangeGuardianIfNeeded (tx : TransactionHandler) : VS () := fun records =>
  if negb (session_IsGuarded session tx) then (records, Ok ())
  else if session_IsIncorrectlyGuarded session tx then (records, Ok ())
  else
    match getRecord (GetSndAddr tx) records with
    | (records, Err _) => (records, Ok ())
    | (records, Ok _) => changeRecord (GetSndAddr tx) setPending records
    end.

Definition detectSkippableSender (item : transactionsHeapItem) (virtualRecord : virtualAccountRecord) : VS bool :=
  match getInitialNonce virtualRecord with
  | Err _ => mret true
  | Ok nonce =>
      if hasPendingChangeGuardianTransaction virtualRecord then mret true
      else if detectInitialGap nonce item then mret true
      else if detectMiddleGap item then mret true
      else
        exceeded ← detectWillBalanceBeExceeded (currentTransaction item);
        if (exceeded : bool) then mret true
        else if negb (IsSetGuardianCall (GetData (Tx (currentTransaction item)))) then mret false
        else _ ← setChangeGuardianIfNeeded (Tx (currentTransaction item)); mret false
  end.

Definition detectSkippableTransaction (item : transactionsHeapItem) (virtualRecord : virtualAccountRecord) : bool :=
  match getInitialNonce virtualRecord with
  | Err _ => true
  | Ok nonce =>
      detectLowerNonce nonce item || session_IsIncorrectlyGuarded session (Tx (currentTransaction item))
      || detectNonceDuplicate item
  end.

(** ** The selection loop *)

(** TxSelectionOptions; [HaveTimeForSelection n]: there is time when [n]
    transactions were processed. *)
Record TxSelectionOptions := {
  GasRequested : Z;
  MaxNumTxs : Z;
  LoopDurationCheckInterval : Z;
  HaveTimeForSelection : Z -> bool;
}.

Context (options : TxSelectionOptions) (selectionCutoff propagationGracePeriod : Z).

(** The variables of the loop. *)
Record selectionState := {
  records : VirtualRecords;
  transactionsHeap : list transactionsHeapItem;
  selectedTransactions : bunchOfTransactions;
  accumulatedGas : Z;
  uniqueSenderCount : Z;
  processedTxs : Z;
}.

Definition sel_with (r : VirtualRecords) (heap : list transactionsHeapItem) (s : selectionState) : selectionState :=
  {| records := r; transactionsHeap := heap; selectedTransactions := selectedTransactions s;
     accumulatedGas := accumulatedGas s; uniqueSenderCount := uniqueSenderCount s; processedTxs := processedTxs s |}.

(** [if item.gotoNextTransaction() { heap.Push(transactionsHeap, item) }] *)
Definition pushNext (item : transactionsHeapItem) (heap : list transactionsHeapItem) : list transactionsHeapItem :=
  match gotoNextTransaction item with
  | Some item => heap_Push maxLess item heap
  | None => heap
  end.

(** [break], or the next round. *)
Inductive roundResult :=
| Break (s : selectionState)
| Next (s : selectionState).

(** The current transaction is selected. *)
Definition selectItem (item : transactionsHeapItem) (r : VirtualRecords) (s : selectionState) : roundResult :=
  let isNewSender := negb (isSelectedBefore item) in
  let count := if isNewSender then uniqueSenderCount s + 1 else uniqueSenderCount s in
  if isNewSender && (maxAccountsPerBlock <? count) then Break (sel_with r (transactionsHeap s) s)
  else
    Next {| records := r;
            transactionsHeap := pushNext (selectCurrentTransaction item) (transactionsHeap s);
            selectedTransactions := selectedTransactions s ++ [currentTransaction item];
            accumulatedGas := u64 (accumulatedGas s + GetGasLimit (Tx (currentTransaction item)));
            uniqueSenderCount := count; processedTxs := processedTxs s |}.

(** The item that was popped is worth a look. *)
Definition considerItem (item : transactionsHeapItem) (s : selectionState) : roundResult :=
  let heap := transactionsHeap s in
  match getRecord (item_sender item) (records s) with
  | (r, Err _) => Next (sel_with r heap s)
  | (r, Ok senderRecord) =>
      match detectSkippableSender item senderRecord r with
      | (r, Err _) | (r, Ok true) => Next (sel_with r heap s)
      | (r, Ok false) =>
          (* the record may have been changed in the meantime *)
          let senderRecord := default senderRecord (r !! item_sender item) in
          if detectSkippableTransaction item senderRecord then Next (sel_with r (pushNext item heap) s)
          else
            match session_accumulateConsumedBalance (currentTransaction item) (item_sender item) r with
            | (r, Err _) => Next (sel_with r (pushNext item heap) s)
            | (r, Ok _) => selectItem item r s
            end
      end
  end.

(** One round with the item that was popped. *)
Definition selectionRound (item : transactionsHeapItem) (heap : list transactionsHeapItem) (s : selectionState) : roundResult :=
  let s := {| records := records s; transactionsHeap := heap; selectedTransactions := selectedTransactions s;
              accumulatedGas := accumulatedGas s; uniqueSenderCount := uniqueSenderCount s;
              processedTxs := processedTxs s + 1 |} in
  let gasLimit := GetGasLimit (Tx (currentTransaction item)) in
  if GasRequested options <? u64 (accumulatedGas s + gasLimit) then Break s
  else if MaxNumTxs options <=? Z.of_nat (length (selectedTransactions s)) then Break s
  else if (Z.rem (processedTxs s) (LoopDurationCheckInterval options) =? 0) && negb (HaveTimeForSelection options (processedTxs s))
       then Break s
  else if (0 <? propagationGracePeriod) && (selectionCutoff <? ReceivedAt (currentTransaction item)) then Next s
  else considerItem item s.

Fixpoint selection_loop (fuel : nat) (s : selectionState) : selectionState :=
  match fuel with
  | O => s
  | S fuel =>
      match heap_Pop maxLess (transactionsHeap s) with
      | None => s
      | Some (item, heap) =>
          match selectionRound item heap s with
          | Break s => s
          | Next s => selection_loop fuel s
          end
      end
  end.

(** The selected transactions, their gas and the records as they are left. *)
Definition selectTransactionsFromBunches (r : VirtualRecords) (bunches : list bunchOfTransactions) : selectionState :=
  let heap := heapOfBunches maxLess bunches [] in
  selection_loop (heapFuel heap)
    {| records := r; transactionsHeap := heap; selectedTransactions := []; accumulatedGas := 0;
       uniqueSenderCount := 0; processedTxs := 0 |}.
End Session.

(** ** The virtual session of the tracked blocks *)

Section Derive.
Context {KR : KeyRange} {CF : TxCacheConfig} (session : SelectionSession).

Definition fromGlobalBreadcrumbToVirtualRecord (address : bytes) (accountNonce : Z) (accountBalance : option Z)
    (gab : globalAccountBreadcrumb) (m : VirtualRecords) : result txcache_error VirtualRecords :=
  match m !! address with
  | Some _ => Ok m
  | None =>
      let nonce := if isUser gab then someNonce (u64 (Value (g_lastNonce gab) + 1)) else someNonce accountNonce in
      record ← newVirtualAccountRecord nonce accountBalance;
      Ok (<[address := consume (g_consumedBalance gab) record]> m)
  end.

Definition createBlockedVirtualRecord (address : bytes) (accountBalance : option Z) (gab : globalAccountBreadcrumb)
    (m : VirtualRecords) : result txcache_error VirtualRecords :=
  match m !! address with
  | Some _ => Ok m
  | None =>
      record ← newVirtualAccountRecord noNonce accountBalance;
      Ok (<[address := consume (g_consumedBalance gab) record]> m)
  end.

Fixpoint handleGlobalAccountBreadcrumbs (entries : list (bytes * globalAccountBreadcrumb)) (m : VirtualRecords)
    : result txcache_error VirtualRecords :=
  match entries with
  | [] => Ok m
  | (address, gab) :: entries =>
      '(accountNonce, accountBalance) ← GetAccountNonceAndBalance (provider session) address;
      m ← (if negb (isContinuousWithSessionNonce accountNonce gab)
           then createBlockedVirtualRecord address accountBalance gab m
           else fromGlobalBreadcrumbToVirtualRecord address accountNonce accountBalance gab m);
      handleGlobalAccountBreadcrumbs entries m
  end.

Definition createVirtualSelectionSession (g : globalBreadcrumbs) : result txcache_error VirtualRecords :=
  handleGlobalAccountBreadcrumbs (rangeMap g) ∅.

Definition deriveVirtualSelectionSession (nonce : Z) (isSimulation : bool) : SE TxCache txcache_error VirtualRecords :=
  _ ← (if negb isSimulation then removeBlocksAboveOrEqualToNonceNoLock nonce
       else c ← se_get; se_guard (negb (canDoSimulateSelection nonce (tracker c))) errSimulateSelectionContextInvalid);
  rootHash ← se_lift (GetRootHash (provider session));
  c ← se_get;
  _ ← se_guard (negb (sameRootHash (latestRootHash (tracker c)) rootHash)) errRootHashMismatch;
  se_lift (createVirtualSelectionSession (globalAccountBreadcrumbs (tracker c))).

(** The transactions that are not proposed yet, of the senders that have some. *)
Definition acquireBunchesOfTransactions (c : TxCache) : list bunchOfTransactions :=
  List.filter (fun bunch => negb (length bunch =? 0)%nat) (getTxsForSelection <$> getSenders c).

(** The transactions and their gas; [propagationGracePeriod] and the cutoff are
    in the unit of [ReceivedAt].  A check interval of zero is a division by
    zero in Go. *)
Definition selectTransactions (BuiltInFunctionSetGuardian : bytes) (options : TxSelectionOptions)
    (selectionCutoff propagationGracePeriod : Z) (nonce : Z) (isSimulation : bool)
    : SE TxCache txcache_error (bunchOfTransactions * Z) :=
  records ← deriveVirtualSelectionSession nonce isSimulation;
  c ← se_get;
  let s := selectTransactionsFromBunches session BuiltInFunctionSetGuardian options selectionCutoff
             propagationGracePeriod records (acquireBunchesOfTransactions c) in
  mret (selectedTransactions s, accumulatedGas s).
End Derive.
