(* ===== verification/TxListSpec.v ===== *)
(** * The list of a sender is ordered

    The order of execution is a total order, insertion by binary search keeps
    the list strictly ordered, and what is removed is what the nonces say.

    ** Competition is fair

    The comparison of transactions is a total order, so the heap always gives
    the best item; an item walks along its bunch, and the work that is left
    shrinks. *)

From Stdlib Require Import ZArith Lia Sorted.
From stdpp Require Import base gmap list.
From S2P Require Import Prelude GoValues GoCollections Validators ValidatorsSpec TxList Breadcrumbs TxHeap.

(** ** The orders *)

Lemma bytes_Compare_zero a b : bytes_Compare a b = 0 <-> a = b.
Proof. unfold bytes_Compare. case_decide; [done|]. destruct (bytes_leb a b); split; (lia || done). Qed.

Lemma bytes_Compare_opp a b : bytes_Compare b a = - bytes_Compare a b.
Proof.
  unfold bytes_Compare. destruct (decide (a = b)) as [->|N]; [by rewrite decide_True|].
  rewrite decide_False by done.
  destruct (bytes_leb a b) eqn:E, (bytes_leb b a) eqn:E'; try lia.
  - by destruct N; apply (anti_symm bytes_le).
  - destruct (total bytes_le a b) as [H|H]; unfold bytes_le in H; congruence.
Qed.

Lemma bytes_Compare_trans a b c : bytes_Compare a b < 0 -> bytes_Compare b c < 0 -> bytes_Compare a c < 0.
Proof.
  unfold bytes_Compare. case_decide; [lia|]. destruct (bytes_leb a b) eqn:E; [|lia]. intros _.
  case_decide; [lia|]. destruct (bytes_leb b c) eqn:E'; [|lia]. intros _.
  assert (H1 : bytes_le a c) by (by apply (transitivity (y := b))).
  destruct (decide (a = c)) as [->|_].
  - destruct H. by apply (anti_symm bytes_le).
  - unfold bytes_le in H1. rewrite H1. lia.
Qed.

(** [tx1] is executed before [tx2]. *)
Definition txBefore (tx1 tx2 : WrappedTransaction) : Prop := compareTxs tx1 tx2 < 0.

Ltac split_ltb := repeat match goal with
  | |- context [?a <? ?b] => destruct (Z.ltb_spec a b)
  | H : context [?a <? ?b] |- _ => destruct (Z.ltb_spec a b)
  end.

Lemma compareTxs_opp tx1 tx2 : compareTxs tx2 tx1 = - compareTxs tx1 tx2.
Proof. unfold compareTxs. split_ltb; try lia. apply bytes_Compare_opp. Qed.

Lemma compareTxs_zero tx1 tx2 : compareTxs tx1 tx2 = 0 <->
  nonceOf tx1 = nonceOf tx2 /\ GetGasPrice (Tx tx1) = GetGasPrice (Tx tx2) /\ TxHash tx1 = TxHash tx2.
Proof. unfold compareTxs. rewrite <- bytes_Compare_zero. split_ltb; lia. Qed.

Lemma compareTxs_nonce tx1 tx2 : compareTxs tx1 tx2 <= 0 -> nonceOf tx1 <= nonceOf tx2.
Proof. unfold compareTxs. split_ltb; lia. Qed.

Lemma compareTxs_trans tx1 tx2 tx3 : compareTxs tx1 tx2 <= 0 -> compareTxs tx2 tx3 <= 0 -> compareTxs tx1 tx3 <= 0.
Proof.
  unfold compareTxs. intros H1 H2. split_ltb; try lia.
  destruct (decide (bytes_Compare (TxHash tx1) (TxHash tx2) = 0)) as [E|E]; [apply bytes_Compare_zero in E; by rewrite E|].
  destruct (decide (bytes_Compare (TxHash tx2) (TxHash tx3) = 0)) as [E'|E']; [apply bytes_Compare_zero in E'; by rewrite <- E'|].
  pose proof (bytes_Compare_trans (TxHash tx1) (TxHash tx2) (TxHash tx3)). lia.
Qed.

Lemma compareTxs_same tx1 tx2 tx3 : compareTxs tx1 tx2 = 0 -> compareTxs tx1 tx3 = compareTxs tx2 tx3.
Proof. rewrite compareTxs_zero. unfold compareTxs. by intros (-> & -> & ->). Qed.

#[export] Instance txBefore_trans : Transitive txBefore.
Proof.
  unfold txBefore. intros a b c H1 H2. pose proof (compareTxs_trans a b c ltac:(lia) ltac:(lia)).
  destruct (decide (compareTxs a c = 0)) as [E|]; [|lia].
  pose proof (compareTxs_same a c b E). pose proof (compareTxs_opp b c). lia.
Qed.

Abbreviation ordered := (StronglySorted txBefore).

(** ** Ordered lists *)

Lemma ordered_lookup its i j a b : ordered its -> (i < j)%nat -> its !! i = Some a -> its !! j = Some b -> txBefore a b.
Proof.
  intros H. revert i j. induction H as [|x its _ IH F]; intros i j L Ea Eb; [done|].
  destruct i as [|i], j as [|j]; try lia; cbn in *.
  - injection Ea as <-. by eapply Forall_lookup in F.
  - eapply IH; [|done..]. lia.
Qed.

Lemma ordered_app its its' : ordered (its ++ its') <->
  ordered its /\ ordered its' /\ (forall a b, a ∈ its -> b ∈ its' -> txBefore a b).
Proof.
  induction its as [|x its IH]; cbn.
  - split; [intros H; split_and!; [constructor|done|by intros a b ?%elem_of_nil]|by intros (_ & ? & _)].
  - split.
    + intros H. inversion H as [|? ? O F]; subst. apply IH in O as (O1 & O2 & C). apply Forall_app in F as [F1 F2].
      split_and!; [by constructor|done|]. intros a b [->|Ha]%elem_of_cons Hb; [|by apply C].
      by apply (proj1 (Forall_forall _ _) F2).
    + intros (O1 & O2 & C). inversion O1 as [|? ? O F]; subst. constructor.
      * apply IH. split_and!; [done..|]. intros a b Ha. apply C. apply elem_of_cons. by right.
      * apply Forall_app. split; [done|]. apply Forall_forall. intros b Hb. apply C; [|done]. apply elem_of_cons. by left.
Qed.

Lemma ordered_sublist its its' : its `sublist_of` its' -> ordered its' -> ordered its.
Proof.
  induction 1 as [|x its its' S IH|x its its' S IH]; intros O; [done|inversion O as [|? ? O' F]; subst..]; [|by apply IH].
  constructor; [by apply IH|]. apply Forall_forall. intros y Hy. apply (proj1 (Forall_forall _ _) F).
  by eapply elem_of_sublist.
Qed.

Lemma ordered_NoDup its : ordered its -> NoDup its.
Proof.
  induction 1 as [|x its O IH F]; constructor; [|done]. intros H. apply (proj1 (Forall_forall _ _) F) in H.
  unfold txBefore in H. pose proof (compareTxs_opp x x). lia.
Qed.

(** A comparison with [tx] turns at most once along an ordered list. *)
Lemma compare_monotone tx its : ordered its ->
  monotone (length its) (atIndex its (fun item => 0 <=? compareTxs item tx)).
Proof.
  intros O a b [Hab Hb] E. unfold atIndex in *. destruct (its !! b) as [y|] eqn:Ey; [|apply lookup_ge_None in Ey; lia].
  destruct (decide (a = b)) as [->|N]; [by rewrite Ey in E|].
  destruct (its !! a) as [x|] eqn:Ex; [|done]. pose proof (ordered_lookup its a b x y O ltac:(lia) Ex Ey) as B.
  unfold txBefore in B. apply Z.leb_le in E. apply Z.leb_le.
  destruct (decide (compareTxs y tx < 0)); [|lia]. pose proof (compareTxs_trans x y tx). pose proof (compareTxs_opp y tx).
  destruct (decide (compareTxs x tx = 0)) as [Q|]; [|lia].
  pose proof (compareTxs_opp x y). pose proof (compareTxs_opp x tx).
  pose proof (compareTxs_same x tx y Q). lia.
Qed.

(** Everything before the insertion index goes before the transaction, and the
    rest does not. *)
Lemma findInsertionIndex_spec tx its : ordered its ->
  let i := findInsertionIndex tx its in
  (i <= length its)%nat /\ Forall (fun x => compareTxs x tx < 0) (take i its) /\
  Forall (fun x => 0 <= compareTxs x tx) (drop i its).
Proof.
  intros O. unfold findInsertionIndex. destruct (last its) as [x|] eqn:E.
  2:{ apply last_None in E as ->. by split_and!. }
  apply last_Some in E as [its' ->]. unfold isGreater. destruct (Z.ltb_spec 0 (compareTxs tx x)) as [L|L].
  - rewrite firstn_all, drop_all. split_and!; [done| |done].
    apply ordered_app in O as (_ & _ & C). apply Forall_app. split.
    + apply Forall_forall. intros y Hy. specialize (C y x Hy). rewrite list_elem_of_singleton in C.
      apply (transitivity (R := txBefore) (y := x)); [by apply C|]. unfold txBefore. pose proof (compareTxs_opp x tx). lia.
    + apply Forall_singleton. pose proof (compareTxs_opp x tx). lia.
  - set (its := its' ++ [x]) in *. destruct (sort_Search_spec _ _ (compare_monotone tx its O)) as (Hi & H0 & H1).
    set (i := sort_Search _ _) in *. split_and!; [done|..]; apply Forall_lookup; intros k y Hy.
    + apply lookup_take_Some in Hy as [Hy Hk]. specialize (H0 k Hk). unfold atIndex in H0. rewrite Hy in H0.
      by apply Z.leb_gt in H0.
    + rewrite lookup_drop in Hy. pose proof (lookup_lt_Some _ _ _ Hy).
      specialize (H1 (i + k)%nat ltac:(lia)). unfold atIndex in H1. rewrite Hy in H1. by apply Z.leb_le.
Qed.

(** Insertion keeps the order, and refuses a transaction with the nonce, price
    and hash of another. *)
Lemma insertAt_spec tx its : ordered its ->
  match insertAt tx (findInsertionIndex tx its) its with
  | Some its' => ordered its' /\ its' ≡ₚ tx :: its /\ Forall (fun x => compareTxs x tx <> 0) its
  | None => exists x, x ∈ its /\ compareTxs x tx = 0
  end.
Proof.
  intros O. destruct (findInsertionIndex_spec tx its O) as (Hi & F0 & F1). set (i := findInsertionIndex tx its) in *.
  unfold insertAt. destruct ((i <? length its)%nat && _) eqn:D.
  - apply andb_prop in D as [_ D]. unfold atIndex in D. destruct (its !! i) as [x|] eqn:Ex; [|done].
    exists x. split; [by eapply list_elem_of_lookup_2|]. by apply Z.eqb_eq.
  - assert (F2 : Forall (fun x => 0 < compareTxs x tx) (drop i its)).
    { destruct (drop i its) as [|x rest] eqn:Ed; [done|].
      assert (Ex : its !! i = Some x) by (rewrite <- (Nat.add_0_r i), <- lookup_drop, Ed; done).
      pose proof (lookup_lt_Some _ _ _ Ex) as L. apply Nat.ltb_lt in L. rewrite L in D. cbn in D.
      unfold atIndex in D. rewrite Ex in D. apply Z.eqb_neq in D.
      apply Forall_cons in F1 as [F1 F1']. apply Forall_cons. split; [lia|].
      rewrite <- (take_drop i its), Ed in O. apply ordered_app in O as (_ & O & _).
      inversion O as [|? ? _ Fx]; subst. eapply Forall_impl; [exact Fx|].
      intros y By. unfold txBefore in By. pose proof (compareTxs_opp y tx). pose proof (compareTxs_opp x tx).
      pose proof (transitivity (R := txBefore) (x := tx) (y := x) (z := y)) as T. unfold txBefore in T. lia. }
    split_and!.
    + rewrite <- (take_drop i its) in O. apply ordered_app in O as (O0 & O1 & C). apply ordered_app. split_and!; [done|..].
      * constructor; [done|]. eapply Forall_impl; [exact F2|]. intros y Hy. cbn in Hy. unfold txBefore.
        pose proof (compareTxs_opp y tx). lia.
      * intros a b Ha [->|Hb]%elem_of_cons; [|by apply C]. by apply (proj1 (Forall_forall _ _) F0).
    + rewrite <- Permutation_middle. by rewrite take_drop.
    + rewrite <- (take_drop i its). apply Forall_app.
      split; [eapply Forall_impl; [exact F0|]|eapply Forall_impl; [exact F2|]]; cbn; lia.
Qed.

(** ** Sizes *)

Fixpoint sizes (its : list WrappedTransaction) : Z :=
  match its with [] => 0 | tx :: its => Size tx + sizes its end.

Lemma sizes_app its its' : sizes (its ++ its') = sizes its + sizes its'.
Proof. induction its as [|x its IH]; cbn; [done|]. rewrite IH. lia. Qed.

#[export] Instance sizes_perm : Proper ((≡ₚ) ==> (=)) sizes.
Proof. induction 1; cbn; lia. Qed.

Lemma i64_eq a b : a mod 2 ^ 64 = b mod 2 ^ 64 -> i64 a = i64 b.
Proof.
  intros E. unfold i64. rewrite <- (Z.add_mod_idemp_l a), <- (Z.add_mod_idemp_l b) by lia. by rewrite E.
Qed.

Lemma i64_mod a : i64 a mod 2 ^ 64 = a mod 2 ^ 64.
Proof.
  unfold i64. rewrite <- Zminus_mod_idemp_l, Z.mod_mod, Zminus_mod_idemp_l by lia. f_equal. lia.
Qed.

Lemma i64_add a b : i64 (i64 a + b) = i64 (a + b).
Proof. apply i64_eq. by rewrite <- Z.add_mod_idemp_l, i64_mod, Z.add_mod_idemp_l by lia. Qed.

Lemma i64_sub a b : i64 (i64 a - b) = i64 (a - b).
Proof. rewrite <- !Z.add_opp_r. apply i64_add. Qed.

Lemma subtractSizes_spec txs a : subtractSizes txs (i64 a) = i64 (a - sizes txs).
Proof.
  unfold subtractSizes. revert a. induction txs as [|tx txs IH]; intros a; cbn; [f_equal; lia|].
  rewrite i64_sub, IH. f_equal. lia.
Qed.

(** ** The list of a sender *)

Record listOk (s : bytes) (l : txListForSender) : Prop := {
  list_sender : sender l = s;
  list_ordered : ordered (items l);
  list_senders : Forall (fun tx => senderOf tx = s) (items l);
  list_bytes : totalBytes l = i64 (sizes (items l));
}.

Lemma newTxListForSender_ok s : listOk s (newTxListForSender s).
Proof. constructor; cbn; [done|constructor|done|done]. Qed.

(** A list with some of its transactions. *)
Lemma list_with_ok s l its removed bytes offset : listOk s l -> its `sublist_of` items l -> items l ≡ₚ its ++ removed ->
  bytes = i64 (sizes (items l) - sizes removed) -> listOk s (list_with its bytes offset l).
Proof.
  intros [Ls Lo Lf Lb] S P ->. constructor; cbn; [done|by eapply ordered_sublist| |].
  - rewrite P in Lf. by apply Forall_app in Lf as [? _].
  - rewrite P, sizes_app. f_equal. lia.
Qed.

Section Constraints.
Context (constraints : senderConstraints) (IsTransactionTracked : WrappedTransaction -> bool).

(** What the loop over size constraints does: it removes transactions that are
    not tracked, until the limits are kept or all that remain are tracked. *)
Lemma applySizeConstraints_loop_spec s i : forall ev l, (i <= length (items l))%nat -> listOk s l ->
  Forall (fun tx => IsTransactionTracked tx = true) (drop i (items l)) ->
  let '(l', hashes) := applySizeConstraints_loop constraints IsTransactionTracked i ev l in
  exists removed, hashes = ev ++ (TxHash <$> removed) /\ listOk s l' /\
    items l' `sublist_of` items l /\ items l ≡ₚ items l' ++ removed /\
    Forall (fun tx => IsTransactionTracked tx = false) removed /\
    (list_isCapacityExceeded constraints l' = true ->
       Forall (fun tx => IsTransactionTracked tx = true) (items l')).
Proof.
  induction i as [|i IH]; intros ev l Hi L F; cbn [applySizeConstraints_loop].
  - exists []. rewrite !app_nil_r. by split_and!.
  - destruct (list_isCapacityExceeded constraints l) eqn:E; cbn [negb].
    2:{ exists []. rewrite !app_nil_r. split_and!; try done. by rewrite E. }
    destruct (items l !! i) as [tx|] eqn:Ex; [|apply lookup_ge_None in Ex; lia].
    destruct (IsTransactionTracked tx) eqn:T.
    + apply IH; [lia|done|]. by rewrite (drop_S _ _ _ Ex); constructor.
    + set (off := if (i <? selectionOffset l)%nat then (selectionOffset l - 1)%nat else selectionOffset l).
      set (l1 := list_with (removeAt i (items l)) (i64 (totalBytes l - Size tx)) off l).
      assert (P : items l ≡ₚ items l1 ++ [tx]).
      { cbn. rewrite <- Permutation_cons_append. by apply delete_Permutation. }
      assert (L1 : listOk s l1).
      { apply (list_with_ok s l _ [tx]); [done|apply sublist_delete|done|]. rewrite (list_bytes _ _ L), i64_sub.
        cbn. f_equal. lia. }
      assert (Hl : length (items l) = Datatypes.S (length (items l1))) by (rewrite P, length_app; cbn; lia).
      specialize (IH (ev ++ [TxHash tx]) l1 ltac:(lia) L1).
      assert (F1 : Forall (fun tx => IsTransactionTracked tx = true) (drop i (items l1))).
      { cbn. unfold removeAt. rewrite delete_take_drop, drop_app_ge by (rewrite length_take; lia).
        rewrite length_take. replace (i - i `min` length (items l))%nat with 0%nat by lia. done. }
      specialize (IH F1). destruct (applySizeConstraints_loop _ _ i _ l1) as [l' hashes].
      destruct IH as (removed & -> & L' & S & P' & Fr & C). exists (tx :: removed). rewrite <- app_assoc. cbn.
      split_and!; [done|done| | |by constructor|done].
      * etrans; [exact S|apply sublist_delete].
      * rewrite P, P'. rewrite <- Permutation_cons_append, <- Permutation_middle. done.
Qed.

(** A transaction is refused when there is one with its nonce, price and hash;
    otherwise it is among what remains, or among what is evicted. *)
Lemma list_AddTx_spec s tx l : listOk s l -> senderOf tx = s ->
  match list_AddTx constraints IsTransactionTracked tx l with
  | (l', (false, hashes)) => l' = l /\ hashes = [] /\ exists x, x ∈ items l /\ compareTxs x tx = 0
  | (l', (true, hashes)) =>
      exists removed, hashes = TxHash <$> removed /\ listOk s l' /\ tx :: items l ≡ₚ items l' ++ removed /\
        Forall (fun x => compareTxs x tx <> 0) (items l) /\
        Forall (fun tx => IsTransactionTracked tx = false) removed /\
        (list_isCapacityExceeded constraints l' = true ->
           Forall (fun tx => IsTransactionTracked tx = true) (items l'))
  end.
Proof.
  intros L E. unfold list_AddTx. pose proof (insertAt_spec tx (items l) (list_ordered _ _ L)) as I.
  destruct (insertAt tx _ (items l)) as [its|]; [|by split_and!].
  destruct I as (O & P & N). set (l1 := list_with its _ _ l).
  assert (L1 : listOk s l1).
  { constructor; cbn; [apply L|done| |].
    - rewrite P. constructor; [done|apply L].
    - rewrite (list_bytes _ _ L), i64_add, P. cbn. f_equal. lia. }
  unfold applySizeConstraints.
  assert (F0 : Forall (fun tx => IsTransactionTracked tx = true) (drop (length (items l1)) (items l1)))
    by (rewrite drop_all; constructor).
  pose proof (applySizeConstraints_loop_spec s (length (items l1)) [] l1 ltac:(done) L1 F0) as A.
  destruct (applySizeConstraints_loop _ _ _ _ l1) as [l' hashes]. destruct A as (removed & -> & L' & _ & P' & Fr & C).
  exists removed. split_and!; try done. rewrite <- P'. cbn. by rewrite P.
Qed.
End Constraints.

(** ** Removal by nonce *)

Lemma firstIndex_split f (its : list WrappedTransaction) : ordered its ->
  (forall x y, nonceOf x <= nonceOf y -> f x = true -> f y = true) ->
  take (firstIndex f its) its = List.filter (fun x => negb (f x)) its /\
  drop (firstIndex f its) its = List.filter f its.
Proof.
  intros O M. induction O as [|x its O IH F]; cbn; [done|]. destruct (f x) eqn:E; cbn.
  - assert (Fx : Forall (fun y => f y = true) its).
    { eapply Forall_impl; [exact F|]. intros y B. cbn. apply (M x); [|done]. apply compareTxs_nonce. unfold txBefore in B. lia. }
    clear IH O F. split.
    + symmetry. induction Fx as [|y its Ey _ IH]; cbn; [done|]. by rewrite Ey.
    + f_equal. symmetry. induction Fx as [|y its Ey _ IH]; cbn; [done|]. by rewrite Ey, IH.
  - destruct IH as [-> ->]. done.
Qed.

(** Exactly the transactions up to the nonce are removed. *)
Lemma removeLowerOrEqual_spec s n l : listOk s l ->
  let '(l', hashes) := removeTransactionsWithLowerOrEqualNonceReturnHashes n l in
  listOk s l' /\ items l' = List.filter (fun tx => n <? nonceOf tx) (items l) /\
  hashes = TxHash <$> List.filter (fun tx => negb (n <? nonceOf tx)) (items l).
Proof.
  intros L. unfold removeTransactionsWithLowerOrEqualNonceReturnHashes, removeBeforeNonce.
  destruct (firstIndex_split (fun tx => n <? nonceOf tx) (items l) (list_ordered _ _ L)) as [E1 E2].
  { intros x y H. rewrite !Z.ltb_lt. lia. }
  set (k := firstIndex _ _) in *. rewrite <- E1, <- E2. split_and!; [|done..].
  apply (list_with_ok s l _ (take k (items l))); [done|apply sublist_drop| |].
  - rewrite (comm (++)). by rewrite take_drop.
  - rewrite (list_bytes _ _ L). apply subtractSizes_spec.
Qed.

(** Exactly the transactions from the nonce on are removed. *)
Lemma removeHigherOrEqual_spec s n l : listOk s l ->
  let l' := list_removeTransactionsWithHigherOrEqualNonce n l in
  listOk s l' /\ items l' = List.filter (fun tx => negb (n <=? nonceOf tx)) (items l).
Proof.
  intros L. unfold list_removeTransactionsWithHigherOrEqualNonce, removeAfterNonce.
  destruct (firstIndex_split (fun tx => n <=? nonceOf tx) (items l) (list_ordered _ _ L)) as [E1 E2].
  { intros x y H. rewrite !Z.leb_le. lia. }
  set (k := firstIndex _ _) in *. rewrite <- E1. split; [|done].
  apply (list_with_ok s l _ (drop k (items l))); [done|apply sublist_take|by rewrite take_drop|].
  rewrite (list_bytes _ _ L). apply subtractSizes_spec.
Qed.

Lemma filter_partition {A} (f : A -> bool) (l : list A) :
  l ≡ₚ List.filter f l ++ List.filter (fun x => negb (f x)) l.
Proof.
  induction l as [|x l IH]; cbn; [done|]. destruct (f x); cbn; [by rewrite <- IH|].
  rewrite <- Permutation_middle. by rewrite <- IH.
Qed.

Lemma filter_sublist {A} (f : A -> bool) (l : list A) : List.filter f l `sublist_of` l.
Proof. induction l as [|x l IH]; cbn; [done|]. destruct (f x); by constructor. Qed.

Lemma resetOffset_ok s o l : listOk s l -> listOk s (list_with (items l) (totalBytes l) o l).
Proof. intros [? ? ? ?]. by constructor. Qed.

(** The transactions up to the nonce that are not tracked are removed. *)
Lemma removeSweepable_spec s n t l : listOk s l ->
  let '(l', hashes) := removeSweepableTransactionsReturnHashes n t l in
  exists removed, hashes = TxHash <$> removed /\ listOk s l' /\ items l ≡ₚ items l' ++ removed /\
    Forall (fun tx => t tx = false /\ nonceOf tx <= n) removed.
Proof.
  intros L. unfold removeSweepableTransactionsReturnHashes.
  destruct (firstIndex_split (fun tx => n <? nonceOf tx) (items l) (list_ordered _ _ L)) as [E1 E2].
  { intros x y H. rewrite !Z.ltb_lt. lia. }
  set (k := firstIndex _ _) in *. set (cand := take k (items l)) in *.
  eexists. split; [done|]. split_and!.
  - apply (list_with_ok s l _ (List.filter (fun tx => negb (t tx)) cand)); [done|..].
    + rewrite <- (take_drop k (items l)) at 2. apply sublist_app; [apply filter_sublist|done].
    + rewrite <- (take_drop k (items l)) at 1. fold cand. rewrite (filter_partition t cand) at 1.
      rewrite <- !(assoc (++)). f_equiv. apply Permutation_app_comm.
    + rewrite (list_bytes _ _ L). apply subtractSizes_spec.
  - cbn. rewrite <- (take_drop k (items l)) at 1. fold cand. rewrite (filter_partition t cand) at 1.
    rewrite <- !(assoc (++)). f_equiv. apply Permutation_app_comm.
  - rewrite E1. apply Forall_forall. intros x. rewrite !list_elem_of_In, !filter_In.
    intros [[_ H] H']. apply negb_true_iff in H, H'. apply Z.ltb_ge in H. auto.
Qed.

Lemma isMore_asym a b : isTransactionMoreValuableForNetwork a b = true -> isTransactionMoreValuableForNetwork b a = false.
Proof.
  unfold isTransactionMoreValuableForNetwork.
  destruct (Z.eqb_spec (PricePerUnit a) (PricePerUnit b)) as [->|N]; cbn [negb].
  - rewrite Z.eqb_refl. cbn [negb]. destruct (Z.eqb_spec (GetGasLimit (Tx a)) (GetGasLimit (Tx b))) as [->|N]; cbn [negb].
    + rewrite Z.eqb_refl. cbn [negb]. rewrite (bytes_Compare_opp (TxHash a)). lia.
    + rewrite (proj2 (Z.eqb_neq _ _)) by done. cbn [negb]. lia.
  - rewrite (proj2 (Z.eqb_neq (PricePerUnit b) _)) by done. cbn [negb]. lia.
Qed.

(** [b] is not more valuable than [a]. *)
Definition notMore (a b : WrappedTransaction) : Prop := isTransactionMoreValuableForNetwork b a = false.

Lemma notMore_alt a b : notMore a b <->
  PricePerUnit b < PricePerUnit a \/
  (PricePerUnit b = PricePerUnit a /\
   (GetGasLimit (Tx b) < GetGasLimit (Tx a) \/
    (GetGasLimit (Tx b) = GetGasLimit (Tx a) /\ bytes_Compare (TxHash a) (TxHash b) <= 0))).
Proof.
  unfold notMore, isTransactionMoreValuableForNetwork. pose proof (bytes_Compare_opp (TxHash a) (TxHash b)).
  destruct (Z.eqb_spec (PricePerUnit b) (PricePerUnit a)); cbn [negb]; [|lia].
  destruct (Z.eqb_spec (GetGasLimit (Tx b)) (GetGasLimit (Tx a))); cbn [negb]; lia.
Qed.

Lemma bytes_Compare_le_trans a b c : bytes_Compare a b <= 0 -> bytes_Compare b c <= 0 -> bytes_Compare a c <= 0.
Proof.
  intros H1 H2. destruct (decide (bytes_Compare a b = 0)) as [E|E]; [apply bytes_Compare_zero in E; by rewrite E|].
  destruct (decide (bytes_Compare b c = 0)) as [E'|E']; [apply bytes_Compare_zero in E'; by rewrite <- E'|].
  pose proof (bytes_Compare_trans a b c). lia.
Qed.

Lemma notMore_trans a b c : notMore a b -> notMore b c -> notMore a c.
Proof.
  rewrite !notMore_alt. intros H1 H2. pose proof (bytes_Compare_le_trans (TxHash a) (TxHash b) (TxHash c)). lia.
Qed.

#[export] Instance maxLess_order : TotalOrder maxLess.
Proof.
  constructor.
  - intros a b. apply isMore_asym.
  - intros a b c. apply notMore_trans.
Qed.

#[export] Instance minLess_order : TotalOrder minLess.
Proof.
  constructor.
  - intros a b. apply isMore_asym.
  - intros a b c H1 H2. by eapply notMore_trans.
Qed.

(** Neither of two items goes before the other only if their transactions have
    the same hash. *)
Lemma maxLess_hash a b : le maxLess a b -> le maxLess b a -> TxHash (currentTransaction a) = TxHash (currentTransaction b).
Proof.
  intros H1 H2. apply notMore_alt in H1. apply notMore_alt in H2. apply bytes_Compare_zero.
  pose proof (bytes_Compare_opp (TxHash (currentTransaction a)) (TxHash (currentTransaction b))). lia.
Qed.

(** ** Items *)

Section Items.
Context (R : WrappedTransaction -> WrappedTransaction -> Prop).

Record itemOk (item : transactionsHeapItem) : Prop := {
  io_current : bunch item !! currentTransactionIndex item = Some (currentTransaction item);
  io_nonce : currentTransactionNonce item = nonceOf (currentTransaction item);
  io_senders : Forall (fun tx => senderOf tx = item_sender item) (bunch item);
  io_sorted : StronglySorted R (bunch item);
}.

(** A bunch: the transactions of one sender, in order. *)
Definition bunchOk (b : bunchOfTransactions) : Prop :=
  StronglySorted R b /\ exists s, Forall (fun tx => senderOf tx = s) b.

Lemma newTransactionsHeapItem_ok b item : bunchOk b -> newTransactionsHeapItem b = Ok item ->
  itemOk item /\ bunch item = b /\ isSelectedBefore item = false.
Proof.
  intros [O [s F]]. destruct b as [|tx b]; [done|]. cbn. intros [= <-]. split_and!; [|done|done].
  apply Forall_cons in F as [<- F]. constructor; cbn; [done|done|by constructor|done].
Qed.

Lemma gotoNextTransaction_ok item item' : itemOk item -> gotoNextTransaction item = Some item' ->
  itemOk item' /\ bunch item' = bunch item /\ item_sender item' = item_sender item /\
  currentTransactionIndex item' = S (currentTransactionIndex item) /\
  latestSelectedTransaction item' = latestSelectedTransaction item /\
  latestSelectedTransactionNonce item' = latestSelectedTransactionNonce item /\
  R (currentTransaction item) (currentTransaction item').
Proof.
  intros [C N F O] E. unfold gotoNextTransaction in E.
  destruct (bunch item !! S (currentTransactionIndex item)) as [tx|] eqn:Etx; [|done]. cbn in E; injection E as <-. split_and!; try done; cbn.
  clear - C O Etx. revert C Etx. generalize (currentTransactionIndex item) (currentTransaction item).
  induction O as [|x b O IH F]; intros i cur C E; [done|].
  destruct i as [|i]; [|by eapply IH]. injection C as <-. by eapply Forall_lookup in F.
Qed.

Lemma selectCurrentTransaction_ok item : itemOk item -> itemOk (selectCurrentTransaction item).
Proof. intros [C N F O]. by constructor. Qed.

Lemma current_sender item : itemOk item -> senderOf (currentTransaction item) = item_sender item.
Proof. intros [C _ F _]. by eapply Forall_lookup in F. Qed.

Lemma current_in_bunch item : itemOk item -> currentTransaction item ∈ bunch item.
Proof. intros [C _ _ _]. by eapply list_elem_of_lookup_2. Qed.

Lemma remaining_pos item : itemOk item -> (0 < remaining item)%nat.
Proof. intros [C _ _ _]. unfold remaining. apply lookup_lt_Some in C. lia. Qed.

Lemma remaining_next item item' : itemOk item -> gotoNextTransaction item = Some item' ->
  remaining item = S (remaining item').
Proof.
  intros I E. destruct (gotoNextTransaction_ok item item' I E) as (I' & Eb & _ & Ei & _).
  pose proof (remaining_pos item' I'). unfold remaining in *. rewrite Ei, Eb in *. lia.
Qed.
End Items.

(** ** Heaps *)

#[export] Instance heapFuel_perm : Proper ((≡ₚ) ==> (=)) heapFuel.
Proof. intros h h' P. unfold heapFuel. f_equal. by rewrite P. Qed.

Lemma heapFuel_cons item h : heapFuel (item :: h) = (remaining item + heapFuel h)%nat.
Proof. unfold heapFuel. cbn. lia. Qed.

Section HeapOfBunches.
Context (less : transactionsHeapItem -> transactionsHeapItem -> bool) {TO : TotalOrder less}.

Definition firstItems (bunches : list bunchOfTransactions) : list transactionsHeapItem :=
  omap (fun b => match newTransactionsHeapItem b with Ok item => Some item | Err _ => None end) bunches.

Lemma heapOfBunches_spec bunches : forall h, heapOrd less h (length h) ->
  let h' := heapOfBunches less bunches h in
  heapOrd less h' (length h') /\ h' ≡ₚ firstItems bunches ++ h.
Proof.
  induction bunches as [|b bunches IH]; intros h H; cbn; [done|].
  destruct b as [|tx b]; cbn; [by apply IH|]. set (item := {| item_sender := _ |}).
  destruct (IH (heap_Push less item h)) as [O P]; [by apply heap_Push_heapOrd|]. split; [done|].
  rewrite P, heap_Push_perm. by rewrite <- Permutation_middle.
Qed.

Lemma heapOfBunches_ok bunches : let h := heapOfBunches less bunches [] in
  heapOrd less h (length h) /\ h ≡ₚ firstItems bunches.
Proof.
  destruct (heapOfBunches_spec bunches []) as [O P]; [intros k Hk; cbn in Hk; lia|].
  split; [done|]. by rewrite P, app_nil_r.
Qed.
End HeapOfBunches.

Lemma firstItems_ok R bunches item : Forall (bunchOk R) bunches -> item ∈ firstItems bunches ->
  itemOk R item /\ bunch item ∈ bunches /\ isSelectedBefore item = false.
Proof.
  intros F I. apply list_elem_of_omap in I as (b & Hb & E).
  destruct (newTransactionsHeapItem b) as [i|] eqn:En; [|done]. injection E as ->.
  destruct (newTransactionsHeapItem_ok R b item) as (Ok & Eb & L); [by apply (proj1 (Forall_forall _ _) F)|done|].
  rewrite Eb. by split_and!.
Qed.

Lemma firstItems_perm bunches bunches' : bunches ≡ₚ bunches' -> firstItems bunches ≡ₚ firstItems bunches'.
Proof. intros P. unfold firstItems. by rewrite P. Qed.
