(* ===== verification/TxSelectionSpec.v ===== *)
(** * What the selection of transactions guarantees

    The records of the virtual session keep what they were created with and add
    up what the selected transactions cost; every round of the selection drops
    the sender, skips its transaction, selects it, or ends the selection.

    ** The rounds of the selection of transactions

    What a round does, in a relation; and the rule of its loop, which ends. *)

From Stdlib Require Import ZArith Lia Sorted.
From stdpp Require Import base gmap list.
From S2P Require Import Prelude GoValues GoCollections TxList Breadcrumbs TxHeap TxCache SelectionTracker.
From S2P Require Import TxSelection TxListSpec.

(** What a transaction costs an account. *)
Definition cost (tx : WrappedTransaction) (a : bytes) : Z :=
  (if decide (a = FeePayer tx) then default 0 (Fee tx) else 0) +
  (if decide (a = senderOf tx) then default 0 (TransferredValue tx) else 0).
Fixpoint costs (txs : list WrappedTransaction) (a : bytes) : Z :=
  match txs with [] => 0 | tx :: txs => cost tx a + costs txs a end.

Lemma costs_app txs txs' a : costs (txs ++ txs') a = costs txs a + costs txs' a.
Proof. induction txs as [|tx txs IH]; cbn; [done|]. rewrite IH. lia. Qed.

Section Spec.
Context (session : SelectionSession) (guardianFunction : bytes).

(** The record that an account has, or would get. *)
Definition recordOf (r0 : VirtualRecords) (a : bytes) : result txcache_error virtualAccountRecord :=
  match r0 !! a with Some rec => Ok rec | None => createAccountRecord session a end.

(** [r] came from [r0] with the charges [c]. *)
Record charged (r0 r : VirtualRecords) (c : bytes -> Z) : Prop := {
  charged_some a rec : r !! a = Some rec -> exists rec0, recordOf r0 a = Ok rec0 /\ initialNonce rec = initialNonce rec0 /\
    getInitialBalance rec = getInitialBalance rec0 /\ getConsumedBalance rec = getConsumedBalance rec0 + c a;
  charged_none a : r !! a = None -> r0 !! a = None /\ c a = 0;
}.

Lemma charged_refl r0 : charged r0 r0 (fun _ => 0).
Proof.
  constructor; intros a; [|done]. intros rec E. exists rec. unfold recordOf. rewrite E. split_and!; (done || lia).
Qed.

(** Only new records. *)
Definition extends (r r' : VirtualRecords) : Prop := forall a rec, r !! a = Some rec -> r' !! a = Some rec.

Lemma getRecord_spec r0 r c a : charged r0 r c ->
  exists r', charged r0 r' c /\ extends r r' /\
    ((exists rec, getRecord session a r = (r', Ok rec) /\ r' !! a = Some rec) \/
     (exists e, getRecord session a r = (r', Err e))).
Proof.
  intros [C1 C2]. unfold getRecord. destruct (r !! a) as [rec|] eqn:E.
  - exists r. split; [by constructor|]. split; [by intros ? ?|]. left. by exists rec.
  - destruct (createAccountRecord session a) as [rec|e] eqn:Ec.
    2:{ exists r. split; [by constructor|]. split; [by intros ? ?|]. right. by exists e. }
    destruct (C2 a E) as [E0 Z0]. exists (<[a := rec]> r). split_and!.
    + constructor; intros b.
      * intros rec' Hb. destruct (decide (a = b)) as [<-|N].
        -- rewrite lookup_insert_eq in Hb. injection Hb as <-. exists rec. unfold recordOf. rewrite E0, Z0, Ec.
           split_and!; (done || lia).
        -- rewrite lookup_insert_ne in Hb by done. by apply C1.
      * intros Hb. destruct (decide (a = b)) as [<-|N]; [by rewrite lookup_insert_eq in Hb|].
        rewrite lookup_insert_ne in Hb by done. by apply C2.
    + intros b rec' Hb. rewrite lookup_insert_ne; [done|]. intros <-. by rewrite E in Hb.
    + left. exists rec. split; [done|]. apply lookup_insert_eq.
Qed.

(** Records with the nonces and balances of others. *)
Definition sameFunds (rec rec' : virtualAccountRecord) : Prop :=
  initialNonce rec' = initialNonce rec /\ virtualBalance rec' = virtualBalance rec.
Definition keeps (r r' : VirtualRecords) : Prop :=
  forall a rec, r !! a = Some rec -> exists rec', r' !! a = Some rec' /\ sameFunds rec rec'.

Lemma extends_keeps r r' : extends r r' -> keeps r r'.
Proof. intros X a rec E. exists rec. split; [by apply X|done]. Qed.

Lemma keeps_trans r r' r'' : keeps r r' -> keeps r' r'' -> keeps r r''.
Proof.
  intros H1 H2 a rec E. destruct (H1 a rec E) as (rec1 & E1 & N1 & B1). destruct (H2 a rec1 E1) as (rec2 & E2 & N2 & B2).
  exists rec2. split; [done|]. split; congruence.
Qed.

(** The account can pay [value] on top of what it was charged. *)
Definition covered (r : VirtualRecords) (a : bytes) (value : Z) : Prop :=
  exists rec, r !! a = Some rec /\ getConsumedBalance rec + value <= getInitialBalance rec.

Lemma covered_keeps r r' a value : keeps r r' -> covered r a value -> covered r' a value.
Proof.
  intros X (rec & E & L). destruct (X a rec E) as (rec' & E' & _ & B). exists rec'. split; [done|].
  unfold getConsumedBalance, getInitialBalance in *. by rewrite B.
Qed.

Lemma exceeds_spec r0 r c a value : charged r0 r c ->
  exists r' b, consumedBalanceExceedsInitialBalance session a value r = (r', Ok b) /\ charged r0 r' c /\ extends r r' /\
    (b = false -> covered r' a value).
Proof.
  intros C. unfold consumedBalanceExceedsInitialBalance.
  destruct (getRecord_spec r0 r c a C) as (r' & C' & X & [(rec & E & L)|(e & E)]); rewrite E; exists r'; eexists.
  - do 3 (split; [done|]). intros H. apply Z.ltb_ge in H. exists rec. by split.
  - by do 3 (split; [done|]).
Qed.

Lemma extends_refl r : extends r r.
Proof. by intros ? ?. Qed.
Hint Resolve extends_refl : core.

Lemma extends_trans r r' r'' : extends r r' -> extends r' r'' -> extends r r''.
Proof. intros H1 H2 a rec E. by apply H2, H1. Qed.

Lemma exceeded_spec r0 r c tx : charged r0 r c ->
  exists r' b, detectWillBalanceBeExceeded session tx r = (r', Ok b) /\ charged r0 r' c /\ extends r r' /\
    (b = false -> covered r' (senderOf tx) (cost tx (senderOf tx)) /\ covered r' (FeePayer tx) (cost tx (FeePayer tx))).
Proof.
  intros C. unfold detectWillBalanceBeExceeded, cost. destruct (TransferredValue tx) as [v|]; [|by exists r, true; split_and!; auto].
  destruct (exceeds_spec r0 r c (senderOf tx) v C) as (r1 & b1 & E1 & C1 & X1 & K1).
  unfold mbind, se_bind. rewrite E1. destruct b1; [by exists r1, true; split_and!; auto|].
  destruct (Fee tx) as [fee|]; [|by exists r1, true; split_and!; auto].
  destruct (exceeds_spec r0 r1 c (FeePayer tx) fee C1) as (r2 & b2 & E2 & C2 & X2 & K2). rewrite E2.
  pose proof (extends_trans _ _ _ X1 X2) as X12. destruct b2; [by exists r2, true; split_and!; auto|].
  rewrite (decide_True (P := FeePayer tx = FeePayer tx)), (decide_True (P := senderOf tx = senderOf tx)) by done.
  cbn [default id]. case_bool_decide as Q.
  - destruct (exceeds_spec r0 r2 c (senderOf tx) (v + fee) C2) as (r3 & b3 & E3 & C3 & X3 & K3). rewrite E3.
    exists r3, b3. split_and!; [done|done|by eapply extends_trans|]. intros H.
    rewrite <- Q, !decide_True by done. rewrite (Z.add_comm fee v). auto.
  - exists r2, false. split_and!; [done..|]. intros _. rewrite !decide_False by congruence.
    rewrite Z.add_0_l, Z.add_0_r. split; [apply (covered_keeps r1); auto using extends_keeps|auto].
Qed.

(** Charging an account that has a record. *)
Lemma charge_spec r0 r c a value : charged r0 r c -> is_Some (r !! a) ->
  exists r', changeRecord a (consume value) r = (r', Ok ()) /\
    charged r0 r' (fun b => c b + if decide (b = a) then value else 0) /\ (forall b, is_Some (r !! b) -> is_Some (r' !! b)).
Proof.
  intros [C1 C2] [rec Er]. eexists. split; [done|]. split.
  - constructor; intros b.
    + intros rec' E. destruct (decide (b = a)) as [->|N].
      * rewrite lookup_alter_eq, Er in E. injection E as <-. destruct (C1 a rec Er) as (rec0 & ? & ? & ? & Q).
        exists rec0. split_and!; [done..|]. unfold getConsumedBalance in *. cbn. lia.
      * rewrite lookup_alter_ne in E by done. destruct (C1 b rec' E) as (rec0 & ? & ? & ? & Q).
        exists rec0. split_and!; (done || lia).
    + intros E. destruct (decide (b = a)) as [->|N].
      * by rewrite lookup_alter_eq, Er in E.
      * rewrite lookup_alter_ne in E by done. destruct (C2 b E). split; (done || lia).
  - intros b [x E]. destruct (decide (b = a)) as [->|N]; [rewrite lookup_alter_eq, E|rewrite lookup_alter_ne, E by done]; eauto.
Qed.

Lemma charged_ext r0 r c c' : (forall a, c a = c' a) -> charged r0 r c -> charged r0 r c'.
Proof. intros E [C1 C2]. constructor; intros a; rewrite <- E; [apply C1|apply C2]. Qed.

Lemma accumulate_spec r0 r c tx : charged r0 r c -> is_Some (r !! senderOf tx) -> is_Some (r !! FeePayer tx) ->
  exists r', session_accumulateConsumedBalance session tx (senderOf tx) r = (r', Ok ()) /\
    charged r0 r' (fun a => c a + cost tx a).
Proof.
  intros C Hs [recF Hf]. unfold session_accumulateConsumedBalance, mbind, se_bind.
  assert (E0 : (if isFeePayerSameAsSender tx then mret (senderOf tx)
                else _ ← getRecord session (FeePayer tx); mret (FeePayer tx) : VS bytes) r = (r, Ok (FeePayer tx))).
  { unfold isFeePayerSameAsSender. case_bool_decide as Q; [by rewrite Q|]. unfold mbind, se_bind, getRecord. by rewrite Hf. }
  unfold mbind, se_bind in E0. rewrite E0.
  assert (H1 : exists r1, match Fee tx with Some fee => changeRecord (FeePayer tx) (consume fee) | None => mret () end r = (r1, Ok ()) /\
    charged r0 r1 (fun a => c a + if decide (a = FeePayer tx) then default 0 (Fee tx) else 0) /\
    (forall b, is_Some (r !! b) -> is_Some (r1 !! b))).
  { destruct (Fee tx) as [fee|]; cbn [default]; [apply charge_spec; eauto|]. exists r. split_and!; [done| |done].
    apply (charged_ext r0 r c); [|done]. intros a. destruct (decide _); lia. }
  destruct H1 as (r1 & E1 & C1 & M1). rewrite E1. unfold cost.
  destruct (TransferredValue tx) as [v|]; cbn [default id].
  - destruct (charge_spec r0 r1 _ (senderOf tx) v C1 (M1 _ Hs)) as (r2 & E2 & C2 & _). exists r2. split; [done|].
    eapply charged_ext; [|exact C2]. intros a. cbn. lia.
  - exists r1. split; [done|]. eapply charged_ext; [|exact C1]. intros a. cbn. destruct (decide (a = senderOf tx)); lia.
Qed.

Lemma setChangeGuardian_spec r0 r c tx : charged r0 r c ->
  exists r', setChangeGuardianIfNeeded session tx r = (r', Ok ()) /\ charged r0 r' c /\ keeps r r'.
Proof.
  intros C. unfold setChangeGuardianIfNeeded.
  destruct (negb _); [exists r; split_and!; auto using extends_keeps|].
  destruct (session_IsIncorrectlyGuarded _ _); [exists r; split_and!; auto using extends_keeps|].
  destruct (getRecord_spec r0 r c (GetSndAddr tx) C) as (r' & C' & X & [(rec & E & L)|(e & E)]); rewrite E.
  2:{ exists r'. split_and!; auto using extends_keeps. }
  eexists. split; [done|]. destruct C' as [C1 C2]. split.
  - constructor; intros b.
    + intros rec' Hb. destruct (decide (b = GetSndAddr tx)) as [->|N].
      * rewrite lookup_alter_eq, L in Hb. injection Hb as <-. exact (C1 _ rec L).
      * rewrite lookup_alter_ne in Hb by done. by apply C1.
    + intros Hb. destruct (decide (b = GetSndAddr tx)) as [->|N]; [by rewrite lookup_alter_eq, L in Hb|].
      rewrite lookup_alter_ne in Hb by done. by apply C2.
  - eapply keeps_trans; [by apply extends_keeps|]. intros b rec' Hb.
    destruct (decide (b = GetSndAddr tx)) as [->|N]; [|rewrite lookup_alter_ne by done; by exists rec'].
    rewrite lookup_alter_eq, Hb. by eexists.
Qed.

(** A sender that is not skipped: no gap, and its transaction can be paid. *)
Lemma detectSkippableSender_spec r0 r c item rec : charged r0 r c ->
  let tx := currentTransaction item in
  exists r' b, detectSkippableSender session guardianFunction item rec r = (r', Ok b) /\ charged r0 r' c /\ keeps r r' /\
    (b = false -> covered r' (senderOf tx) (cost tx (senderOf tx)) /\ covered r' (FeePayer tx) (cost tx (FeePayer tx)) /\
       detectMiddleGap item = false /\
       exists n, initialNonce rec = someNonce n /\ detectInitialGap n item = false).
Proof.
  intros C tx. unfold detectSkippableSender, getInitialNonce.
  destruct (initialNonce rec) as [n [|]] eqn:En; cbn [HasValue Value negb].
  2:{ exists r, true. split_and!; auto using extends_keeps; done. }
  destruct (hasPendingChangeGuardianTransaction rec).
  { exists r, true. split_and!; auto using extends_keeps; done. }
  destruct (detectInitialGap n item) eqn:Gi; [exists r, true; split_and!; auto using extends_keeps; done|].
  destruct (detectMiddleGap item) eqn:Gm; [exists r, true; split_and!; auto using extends_keeps; done|].
  destruct (exceeded_spec r0 r c tx C) as (r1 & b1 & E1 & C1 & X1 & K1). fold tx. unfold mbind, se_bind. rewrite E1.
  destruct b1; [exists r1, true; split_and!; auto using extends_keeps; done|]. destruct (K1 eq_refl) as [Ks Kf].
  destruct (negb _).
  { exists r1, false. split_and!; auto using extends_keeps. intros _. split_and!; auto. by exists n. }
  destruct (setChangeGuardian_spec r0 r1 c (Tx tx) C1) as (r2 & E2 & C2 & X2). rewrite E2. exists r2, false.
  split_and!; [done|done|eapply keeps_trans; [apply extends_keeps, X1|done]|].
  intros _. split_and!; [by apply (covered_keeps r1)..|done|]. by exists n.
Qed.

(** What [a] can pay is what it can pay by its first record. *)
Lemma covered_charged r0 r c a value : charged r0 r c -> covered r a value ->
  exists rec0, recordOf r0 a = Ok rec0 /\ getConsumedBalance rec0 + c a + value <= getInitialBalance rec0.
Proof.
  intros [C _] (rec & E & L). destruct (C a rec E) as (rec0 & E0 & _ & B & Q). exists rec0. split; [done|]. lia.
Qed.
End Spec.

Section Rounds.
Context (session : SelectionSession) (guardianFunction : bytes) (options : TxSelectionOptions)
  (selectionCutoff propagationGracePeriod : Z) (r0 : VirtualRecords).

(** The current transaction follows in nonce, and its accounts can pay for it on
    top of the charges [c]. *)
Record selectable (c : bytes -> Z) (item : transactionsHeapItem) : Prop := {
  selectable_nonce : exists rec0 n, recordOf session r0 (item_sender item) = Ok rec0 /\ initialNonce rec0 = someNonce n /\
    detectInitialGap n item = false /\ detectLowerNonce n item = false;
  selectable_gap : detectMiddleGap item = false;
  selectable_duplicate : detectNonceDuplicate item = false;
  selectable_paid a : a = senderOf (currentTransaction item) \/ a = FeePayer (currentTransaction item) ->
    exists rec0, recordOf session r0 a = Ok rec0 /\
      getConsumedBalance rec0 + c a + cost (currentTransaction item) a <= getInitialBalance rec0;
}.

Definition sameSelection (s s' : selectionState) : Prop :=
  selectedTransactions s' = selectedTransactions s /\ accumulatedGas s' = accumulatedGas s /\
  uniqueSenderCount s' = uniqueSenderCount s.

Inductive considered (c : bytes -> Z) (item : transactionsHeapItem) (s : selectionState) : roundResult -> Prop :=
| considered_next r heap : charged session r0 r c -> heap = transactionsHeap s \/ heap = pushNext item (transactionsHeap s) ->
    considered c item s (Next (sel_with r heap s))
| considered_select r : charged session r0 r (fun a => c a + cost (currentTransaction item) a) -> selectable c item ->
    considered c item s (selectItem item r s).

Lemma considerItem_spec c item s : charged session r0 (records s) c -> senderOf (currentTransaction item) = item_sender item ->
  considered c item s (considerItem session guardianFunction item s).
Proof.
  intros C Es. unfold considerItem.
  destruct (getRecord_spec session r0 _ c (item_sender item) C) as (r1 & C1 & X1 & [(rec & E1 & L1)|(e & E1)]); rewrite E1.
  2:{ apply considered_next; auto. }
  destruct (detectSkippableSender_spec session guardianFunction r0 r1 c item rec C1) as (r2 & b & E2 & C2 & X2 & K).
  rewrite E2. destruct b; [apply considered_next; auto|].
  destruct (K eq_refl) as (Ks & Kf & Gm & n & En & Gi). clear K.
  destruct (X2 _ _ L1) as (rec' & L2 & N2 & B2). rewrite L2. cbn [default id].
  destruct (detectSkippableTransaction session item rec') eqn:D; [apply considered_next; auto|].
  pose proof (accumulate_spec session r0 r2 c (currentTransaction item) C2) as A. rewrite Es in A, Ks.
  destruct Ks as (recs & Ls & Ps), Kf as (recf & Lf & Pf).
  destruct A as (r3 & E3 & C3); [by eexists..|]. rewrite E3. apply considered_select; [done|].
  unfold detectSkippableTransaction, getInitialNonce in D. rewrite N2, En in D. cbn in D.
  apply orb_false_iff in D as [D D3]. apply orb_false_iff in D as [D1 D2].
  destruct (charged_some _ _ _ _ C1 _ _ L1) as (rec0 & E0 & N0 & _).
  split; [|done..|].
  - exists rec0, n. split_and!; [done|congruence|done..].
  - intros a [->| ->]; apply (covered_charged session r0 r2); try done; rewrite ?Es; [by exists recs|by exists recf].
Qed.

(** ** Rounds *)

Inductive roundOutcome (item : transactionsHeapItem) (heap : list transactionsHeapItem) (s : selectionState) : roundResult -> Prop :=
| outcome_break s' : sameSelection s s' -> roundOutcome item heap s (Break s')
| outcome_next s' : sameSelection s s' -> charged session r0 (records s') (costs (selectedTransactions s)) ->
    transactionsHeap s' = heap \/ transactionsHeap s' = pushNext item heap -> roundOutcome item heap s (Next s')
| outcome_select s' : let tx := currentTransaction item in
    charged session r0 (records s') (costs (selectedTransactions s')) -> selectable (costs (selectedTransactions s)) item ->
    selectedTransactions s' = selectedTransactions s ++ [tx] ->
    u64 (accumulatedGas s + GetGasLimit (Tx tx)) <= GasRequested options ->
    accumulatedGas s' = u64 (accumulatedGas s + GetGasLimit (Tx tx)) ->
    Z.of_nat (length (selectedTransactions s)) < MaxNumTxs options ->
    uniqueSenderCount s' = (if isSelectedBefore item then uniqueSenderCount s else uniqueSenderCount s + 1) ->
    (isSelectedBefore item = false -> uniqueSenderCount s' <= maxAccountsPerBlock) ->
    transactionsHeap s' = pushNext (selectCurrentTransaction item) heap -> roundOutcome item heap s (Next s').

Abbreviation round := (selectionRound session guardianFunction options selectionCutoff propagationGracePeriod).
Abbreviation loop := (selection_loop session guardianFunction options selectionCutoff propagationGracePeriod).

Lemma selectItem_spec item heap s s1 r : transactionsHeap s1 = heap -> sameSelection s s1 ->
  charged session r0 r (fun a => costs (selectedTransactions s) a + cost (currentTransaction item) a) ->
  selectable (costs (selectedTransactions s)) item ->
  u64 (accumulatedGas s + GetGasLimit (Tx (currentTransaction item))) <= GasRequested options ->
  Z.of_nat (length (selectedTransactions s)) < MaxNumTxs options ->
  roundOutcome item heap s (selectItem item r s1).
Proof.
  intros Eh (S1 & S2 & S3) C Sb G N. unfold selectItem.
  destruct (negb (isSelectedBefore item) && _) eqn:D; [by apply outcome_break|].
  apply outcome_select; cbn; rewrite ?S1, ?S2, ?S3, ?Eh; try done.
  - eapply charged_ext; [|exact C]. intros a. rewrite costs_app. cbn. lia.
  - by destruct (isSelectedBefore item).
  - intros B. rewrite B in D |- *. cbn in D |- *. apply Z.ltb_ge in D. by rewrite S3 in D.
Qed.

Lemma selectionRound_spec item heap s : charged session r0 (records s) (costs (selectedTransactions s)) ->
  senderOf (currentTransaction item) = item_sender item ->
  roundOutcome item heap s (round item heap s).
Proof.
  intros C Es. unfold selectionRound. cbv zeta. set (s1 := {| records := records s |}). cbn [accumulatedGas s1].
  destruct (Z.ltb_spec (GasRequested options) (u64 (accumulatedGas s + GetGasLimit (Tx (currentTransaction item))))) as [|G];
    [by apply outcome_break|].
  cbn [selectedTransactions s1]. destruct (Z.leb_spec (MaxNumTxs options) (Z.of_nat (length (selectedTransactions s)))) as [|N];
    [by apply outcome_break|].
  destruct (_ && negb _); [by apply outcome_break|].
  destruct (_ && _); [apply outcome_next; by auto|].
  destruct (considerItem_spec (costs (selectedTransactions s)) item s1 C Es) as [r h C' H|r C' Sb].
  - by apply outcome_next.
  - by apply selectItem_spec.
Qed.

(** ** The loop *)

(** A property that all rounds keep, and what it has at the end. *)
Lemma selection_loop_rule (I P : selectionState -> Prop) :
  (forall s, I s -> P s) ->
  (forall s item heap, I s -> heap_Pop maxLess (transactionsHeap s) = Some (item, heap) ->
     match round item heap s with Break s' => P s' | Next s' => I s' end) ->
  forall fuel s, I s -> P (loop fuel s).
Proof.
  intros IP step fuel. induction fuel as [|fuel IH]; intros s H; cbn [selection_loop]; [auto|].
  destruct (heap_Pop maxLess (transactionsHeap s)) as [[item heap]|] eqn:E; [|auto].
  specialize (step s item heap H E). destruct (round item heap s) as [s'|s']; auto.
Qed.

Lemma pushNext_fuel R item heap : itemOk R item -> (heapFuel (pushNext item heap) < heapFuel (item :: heap))%nat.
Proof.
  intros I. rewrite heapFuel_cons. pose proof (remaining_pos R item I). unfold pushNext.
  destruct (gotoNextTransaction item) as [item'|] eqn:E; [|lia].
  rewrite heap_Push_perm, heapFuel_cons. rewrite (remaining_next R item item' I E). lia.
Qed.
End Rounds.
