(* ===== verification/TxSelectionTheory.v ===== *)
(** * The invariant of the selection

    The heap has at most one item of a sender, which knows what was selected of
    it; what was selected of a sender follows in nonce and can be paid.

    ** The selection ends, and its result does not depend on the order of the senders

    The loop without fuel is a relation that the one with fuel is in; two heaps
    with the same items give the same transaction whenever no two of them have
    one hash. *)

From Stdlib Require Import ZArith Lia Sorted.
From stdpp Require Import base gmap list.
From S2P Require Import Prelude GoValues GoCollections TxList Breadcrumbs TxHeap TxCache SelectionTracker.
From S2P Require Import TxSelection TxListSpec TxSelectionSpec.

(** The transactions of a sender. *)
Definition sentBy (a : bytes) (txs : list WrappedTransaction) : list WrappedTransaction :=
  List.filter (fun tx => bool_decide (senderOf tx = a)) txs.

Lemma sentBy_snoc a txs tx : sentBy a (txs ++ [tx]) = sentBy a txs ++ (if decide (senderOf tx = a) then [tx] else []).
Proof. unfold sentBy. rewrite List.filter_app. cbn. case_bool_decide; by case_decide. Qed.

Lemma sentBy_nil a txs : sentBy a txs = [] <-> a ∉ (list_to_set (senderOf <$> txs) : gset bytes).
Proof.
  rewrite elem_of_list_to_set. induction txs as [|tx txs IH]; cbn; [by split; [intros _; apply not_elem_of_nil|]|].
  case_bool_decide as D; rewrite not_elem_of_cons.
  - split; [done|]. intros [N _]. by destruct N.
  - rewrite IH. split; [|tauto]. intros H. by split; [congruence|].
Qed.

Definition gasOf (txs : list WrappedTransaction) : Z := foldr (fun tx gas => GetGasLimit (Tx tx) + gas) 0 txs.

Lemma gasOf_snoc txs tx : gasOf (txs ++ [tx]) = gasOf txs + GetGasLimit (Tx tx).
Proof. unfold gasOf. induction txs as [|x txs IH]; cbn [foldr app]; [cbn; lia|]. rewrite IH. lia. Qed.

Definition uniqueSenders (txs : list WrappedTransaction) : Z := Z.of_nat (size (list_to_set (senderOf <$> txs) : gset bytes)).

Lemma uniqueSenders_snoc txs tx : uniqueSenders (txs ++ [tx]) =
  if decide (sentBy (senderOf tx) txs = []) then uniqueSenders txs + 1 else uniqueSenders txs.
Proof.
  unfold uniqueSenders. rewrite fmap_app, list_to_set_app_L. cbn. rewrite union_empty_r_L.
  case_decide as D; rewrite sentBy_nil in D.
  - rewrite size_union, size_singleton by set_solver. lia.
  - apply dec_stable in D. by rewrite union_comm_L, subseteq_union_1_L by by apply singleton_subseteq_l.
Qed.

(** ** The heap *)

Section Theory.
Context (session : SelectionSession) (guardianFunction : bytes) (options : TxSelectionOptions)
  (selectionCutoff propagationGracePeriod : Z) (r0 : VirtualRecords) (valid : WrappedTransaction -> Prop).

Definition latestOk (sel : list WrappedTransaction) (item : transactionsHeapItem) : Prop :=
  match latestSelectedTransaction item with
  | None => sentBy (item_sender item) sel = []
  | Some t => last (sentBy (item_sender item) sel) = Some t /\ latestSelectedTransactionNonce item = nonceOf t /\
      nonceOf t <= nonceOf (currentTransaction item) /\ valid t
  end.

Record goodItem (sel : list WrappedTransaction) (item : transactionsHeapItem) : Prop := {
  good_ok : itemOk txBefore item;
  good_valid : Forall valid (bunch item);
  good_latest : latestOk sel item;
}.

Definition heapInv (sel : list WrappedTransaction) (heap : list transactionsHeapItem) : Prop :=
  NoDup (item_sender <$> heap) /\ Forall (goodItem sel) heap.

#[export] Instance heapInv_perm sel : Proper ((≡ₚ) ==> iff) (heapInv sel).
Proof. intros h h' P. unfold heapInv. by rewrite P. Qed.

Lemma heapInv_tail sel item heap : heapInv sel (item :: heap) -> heapInv sel heap.
Proof. intros [N F]. cbn in N. apply NoDup_cons in N as [_ N]. apply Forall_cons in F as [_ F]. by split. Qed.

Lemma goodItem_next sel item item' : goodItem sel item -> gotoNextTransaction item = Some item' -> goodItem sel item'.
Proof.
  intros [I V L] E. destruct (gotoNextTransaction_ok txBefore item item' I E) as (I' & Eb & Es & _ & E1 & E2 & B).
  split; [done|by rewrite Eb|]. unfold latestOk in *. rewrite E1, E2, Es.
  destruct (latestSelectedTransaction item) as [t|]; [|done]. destruct L as (? & ? & ? & ?). split_and!; [done..| |done].
  pose proof (compareTxs_nonce (currentTransaction item) (currentTransaction item')). unfold txBefore in B. lia.
Qed.

Lemma heapInv_pushNext sel item heap : heapInv sel (item :: heap) -> heapInv sel (pushNext item heap).
Proof.
  intros H. unfold pushNext. destruct (gotoNextTransaction item) as [item'|] eqn:E; [|by eapply heapInv_tail].
  rewrite heap_Push_perm. destruct H as [N F]. apply Forall_cons in F as [G F]. split.
  - cbn in *. by destruct (gotoNextTransaction_ok txBefore item item' (good_ok _ _ G) E) as (_ & _ & -> & _).
  - constructor; [|done]. by eapply goodItem_next.
Qed.

Lemma heapInv_select sel item heap : heapInv sel (item :: heap) ->
  heapInv (sel ++ [currentTransaction item]) (selectCurrentTransaction item :: heap).
Proof.
  intros [N F]. split; [done|]. apply Forall_cons in F as [[I V L] F]. pose proof (current_sender _ item I) as Es.
  constructor.
  - split; [by apply selectCurrentTransaction_ok|done|]. unfold latestOk. cbn. rewrite sentBy_snoc.
    rewrite decide_True by done. rewrite last_snoc. split_and!; [done|apply I|lia|].
    apply (proj1 (Forall_forall _ _) V). by eapply current_in_bunch.
  - cbn in N. apply NoDup_cons in N as [N _]. apply Forall_forall. intros y Hy.
    destruct (proj1 (Forall_forall _ _) F y Hy) as [Iy Vy Ly]. split; [done..|]. unfold latestOk in *. rewrite sentBy_snoc.
    rewrite decide_False, app_nil_r; [done|]. rewrite Es. intros Q. destruct N. rewrite Q. by apply list_elem_of_fmap_2.
Qed.

(** ** What was selected *)

Definition noncesFollow (sel : list WrappedTransaction) (a : bytes) : Prop :=
  sentBy a sel <> [] -> exists rec0 n, recordOf session r0 a = Ok rec0 /\ initialNonce rec0 = someNonce n /\
    nonceOf <$> sentBy a sel = seqZ n (Z.of_nat (length (sentBy a sel))).

Lemma seqZ_one m : seqZ m (Z.of_nat 1) = [m].
Proof. unfold seqZ. cbn. f_equal. Qed.

Lemma nonces_last l n t : nonceOf <$> l = seqZ n (Z.of_nat (length l)) -> last l = Some t ->
  nonceOf t = n + Z.of_nat (length l) - 1.
Proof.
  intros E L. apply last_Some in L as [l' ->]. rewrite length_app in *. cbn in *.
  rewrite Nat2Z.inj_add, seqZ_app, fmap_app in E by lia. apply app_inj_2 in E as [_ E]; [|by rewrite length_seqZ].
  cbn in E. injection E as E. lia.
Qed.

Lemma noncesFollow_snoc sel item a : (forall a, noncesFollow sel a) -> goodItem sel item ->
  (forall tx, valid tx -> 0 <= nonceOf tx <= maxUint64) ->
  selectable session r0 (costs sel) item -> noncesFollow (sel ++ [currentTransaction item]) a.
Proof.
  intros H [I V L] Vn [(rec0 & n & E0 & En & Gi & Gl) Gm Gd _]. pose proof (current_sender _ item I) as Es.
  pose proof (Vn _ (proj1 (Forall_forall _ _) V _ (current_in_bunch _ item I))) as Bc.
  unfold noncesFollow. rewrite sentBy_snoc, Es. case_decide as D; [subst a|rewrite app_nil_r; apply H].
  intros _. exists rec0, n. split_and!; [done..|].
  unfold detectInitialGap, detectLowerNonce, detectMiddleGap, detectNonceDuplicate, isSelectedBefore in *.
  rewrite (io_nonce _ _ I) in *. unfold latestOk in L. set (l := sentBy (item_sender item) sel) in *.
  rewrite fmap_app, length_app. cbn [fmap list_fmap length]. apply Z.ltb_ge in Gl.
  rewrite Nat2Z.inj_add, seqZ_app by lia.
  destruct (latestSelectedTransaction item) as [t|].
  - destruct L as (L1 & L2 & L3 & Vt). cbn in Gm, Gd. rewrite L2 in Gm, Gd. apply Z.ltb_ge in Gm. apply Z.eqb_neq in Gd.
    destruct (H (item_sender item)) as (rec1 & n1 & E1 & En1 & Nl); [intros Q; fold l in Q; by rewrite Q in L1|].
    rewrite E0 in E1. injection E1 as <-. rewrite En in En1. injection En1 as <-.
    fold l in Nl. rewrite Nl. f_equal. pose proof (nonces_last l n t Nl L1).
    pose proof (Vn t Vt).
    unfold u64, maxUint64 in *. rewrite Z.mod_small in Gm by lia. rewrite seqZ_one. f_equal. lia.
  - rewrite L. cbn in Gi. apply Z.ltb_ge in Gi. cbn [length]. rewrite seqZ_one, Z.add_0_r. replace (nonceOf (currentTransaction item)) with n by lia. done.
Qed.

(** ** The invariant *)

Record selDone (s : selectionState) : Prop := {
  sd_valid : Forall valid (selectedTransactions s);
  sd_nonces a : noncesFollow (selectedTransactions s) a;
  sd_paid k tx a : selectedTransactions s !! k = Some tx -> a = senderOf tx \/ a = FeePayer tx ->
    exists rec0, recordOf session r0 a = Ok rec0 /\
      getConsumedBalance rec0 + costs (take (S k) (selectedTransactions s)) a <= getInitialBalance rec0;
  sd_gas : accumulatedGas s = gasOf (selectedTransactions s) /\ 0 <= accumulatedGas s <= GasRequested options;
  sd_count : Z.of_nat (length (selectedTransactions s)) <= MaxNumTxs options;
  sd_senders : uniqueSenderCount s = uniqueSenders (selectedTransactions s) /\ uniqueSenderCount s <= maxAccountsPerBlock;
}.

Record selInv (s : selectionState) : Prop := {
  si_records : charged session r0 (records s) (costs (selectedTransactions s));
  si_heap : heapInv (selectedTransactions s) (transactionsHeap s);
  si_done : selDone s;
}.

Lemma selDone_same s s' : sameSelection s s' -> selDone s -> selDone s'.
Proof. intros (E1 & E2 & E3) [? ? ? ? ? ?]. constructor; rewrite ?E1, ?E2, ?E3; auto. Qed.

Context (valid_nonce : forall tx, valid tx -> 0 <= nonceOf tx <= maxUint64)
  (valid_gas : forall tx, valid tx -> 0 <= GetGasLimit (Tx tx) <= maxUint64 - GasRequested options).

Lemma paid_snoc sel item : selectable session r0 (costs sel) item ->
  (forall k tx a, sel !! k = Some tx -> a = senderOf tx \/ a = FeePayer tx ->
    exists rec0, recordOf session r0 a = Ok rec0 /\ getConsumedBalance rec0 + costs (take (S k) sel) a <= getInitialBalance rec0) ->
  forall k tx a, (sel ++ [currentTransaction item]) !! k = Some tx -> a = senderOf tx \/ a = FeePayer tx ->
    exists rec0, recordOf session r0 a = Ok rec0 /\
      getConsumedBalance rec0 + costs (take (S k) (sel ++ [currentTransaction item])) a <= getInitialBalance rec0.
Proof.
  intros [_ _ _ P] H k tx a E Ha. apply lookup_app_Some in E as [E|[L E]].
  - pose proof (lookup_lt_Some _ _ _ E). rewrite take_app_le by lia. by eapply H.
  - apply list_lookup_singleton_Some in E as [E <-]. rewrite firstn_all2 by (rewrite length_app; cbn; lia).
    destruct (P a Ha) as (rec0 & E0 & L0). exists rec0. split; [done|]. rewrite costs_app. cbn. lia.
Qed.

Lemma selInv_round s item heap : selInv s -> heap_Pop maxLess (transactionsHeap s) = Some (item, heap) ->
  match selectionRound session guardianFunction options selectionCutoff propagationGracePeriod item heap s with
  | Break s' => selDone s'
  | Next s' => selInv s'
  end.
Proof.
  intros [C H D] E. apply heap_Pop_perm in E. rewrite E in H.
  assert (G : goodItem (selectedTransactions s) item) by (destruct H as [_ F]; by apply Forall_cons in F as [? _]).
  pose proof (current_sender _ item (good_ok _ _ G)) as Es.
  destruct (selectionRound_spec session guardianFunction options selectionCutoff propagationGracePeriod r0 item heap s C Es)
    as [s' S|s' S C' Hh|s' tx C' Sb Et Gl Eg Nl Eu Lu Eh]; [by eapply selDone_same|..].
  - destruct (S) as (E1 & _ & _). split; [by rewrite E1| |by eapply selDone_same]. rewrite E1.
    destruct Hh as [-> | ->]; [by eapply heapInv_tail|by apply heapInv_pushNext].
  - split; [done|rewrite Et, Eh; by apply heapInv_pushNext, heapInv_select|].
    pose proof (valid_gas _ (proj1 (Forall_forall _ _) (good_valid _ _ G) _ (current_in_bunch _ item (good_ok _ _ G)))) as Vg.
    fold tx in Vg. destruct D as [D0 D1 D2 [D3 D3'] D4 [D5 D5']]. unfold u64, maxUint64 in *.
    rewrite Z.mod_small in Gl, Eg by lia. constructor; rewrite ?Et.
    + apply Forall_app. split; [done|]. apply Forall_singleton, (proj1 (Forall_forall _ _) (good_valid _ _ G)).
      eapply current_in_bunch, G.
    + intros a. by apply noncesFollow_snoc.
    + by apply paid_snoc.
    + rewrite gasOf_snoc. lia.
    + rewrite length_app. cbn. lia.
    + destruct G as [_ _ L]. unfold latestOk, isSelectedBefore in *. rewrite Eu in *. rewrite uniqueSenders_snoc.
      subst tx. rewrite Es. destruct (latestSelectedTransaction item) as [t|].
      * rewrite decide_False; [done|]. intros Q. rewrite Q in L. by destruct L.
      * rewrite decide_True by done. split; [lia|auto].
Qed.

(** Bunches of different senders, ordered, of valid transactions. *)
Definition bunchesOk (bunches : list bunchOfTransactions) : Prop :=
  Forall (fun b => ordered b /\ Forall valid b /\ exists a, Forall (fun tx => senderOf tx = a) b) bunches /\
  NoDup (omap (fun b => senderOf <$> head b) bunches).

Lemma firstItems_senders bunches : item_sender <$> firstItems bunches = omap (fun b => senderOf <$> head b) bunches.
Proof. induction bunches as [|[|tx b] bunches IH]; cbn; [done..|]. by rewrite <- IH. Qed.

Lemma firstItems_heapInv bunches : bunchesOk bunches -> heapInv [] (firstItems bunches).
Proof.
  intros [F N]. split; [by rewrite firstItems_senders|]. apply Forall_forall. intros item I.
  destruct (firstItems_ok txBefore bunches item) as (Ok & Hb & L); [|done|].
  - eapply Forall_impl; [exact F|]. intros b (O & _ & H). by split.
  - apply (proj1 (Forall_forall _ _) F) in Hb as (_ & V & _). split; [done..|].
    unfold latestOk, isSelectedBefore in *. by destruct (latestSelectedTransaction item).
Qed.

Lemma selectTransactionsFromBunches_done bunches : bunchesOk bunches ->
  0 <= GasRequested options -> 0 <= MaxNumTxs options ->
  selDone (selectTransactionsFromBunches session guardianFunction options selectionCutoff propagationGracePeriod r0 bunches).
Proof.
  intros B G N. unfold selectTransactionsFromBunches. cbv zeta.
  eapply (selection_loop_rule _ _ _ _ _ selInv selDone); [by intros s []|apply selInv_round|].
  assert (D : selDone {| records := r0; transactionsHeap := heapOfBunches maxLess bunches []; selectedTransactions := [];
    accumulatedGas := 0; uniqueSenderCount := 0; processedTxs := 0 |}).
  { constructor; cbn; [done| |done|lia..|]; [by intros a []|by unfold maxAccountsPerBlock]. }
  split; [apply charged_refl| |done]. cbn. destruct (heapOfBunches_ok maxLess bunches) as [_ P]. rewrite P.
  by apply firstItems_heapInv.
Qed.
End Theory.

(** The item is at its index. *)
Definition atCurrent (item : transactionsHeapItem) : Prop :=
  bunch item !! currentTransactionIndex item = Some (currentTransaction item).

Lemma atCurrent_next item item' : gotoNextTransaction item = Some item' -> atCurrent item' /\
  bunch item' = bunch item /\ currentTransactionIndex item' = S (currentTransactionIndex item).
Proof.
  unfold gotoNextTransaction. destruct (bunch item !! S (currentTransactionIndex item)) as [tx|] eqn:E; [|done].
  cbn. intros [= <-]. by split_and!.
Qed.

Lemma firstItems_atCurrent bunches : Forall atCurrent (firstItems bunches).
Proof. induction bunches as [|[|tx b] bunches IH]; cbn; [done..|]. by constructor. Qed.

(** What of its bunch an item still has to offer. *)
Definition rest (item : transactionsHeapItem) : bunchOfTransactions := drop (currentTransactionIndex item) (bunch item).

Lemma rest_current item : atCurrent item -> rest item = currentTransaction item :: drop (S (currentTransactionIndex item)) (bunch item).
Proof. intros A. unfold rest. by rewrite (drop_S _ _ _ A). Qed.

Lemma rest_next item item' : atCurrent item -> gotoNextTransaction item = Some item' ->
  rest item = currentTransaction item :: rest item'.
Proof.
  intros A E. destruct (atCurrent_next item item' E) as (_ & Eb & Ei). rewrite rest_current by done.
  unfold rest. by rewrite Eb, Ei.
Qed.

Lemma firstItems_rest bunches : mjoin (rest <$> firstItems bunches) = mjoin bunches.
Proof.
  induction bunches as [|[|tx b] bunches IH]; [done..|].
  change ((tx :: b) ++ mjoin (rest <$> firstItems bunches) = (tx :: b) ++ mjoin bunches). by rewrite IH.
Qed.

Section Order.
Context (session : SelectionSession) (guardianFunction : bytes) (options : TxSelectionOptions)
  (selectionCutoff propagationGracePeriod : Z).

Abbreviation round := (selectionRound session guardianFunction options selectionCutoff propagationGracePeriod).
Abbreviation loop := (selection_loop session guardianFunction options selectionCutoff propagationGracePeriod).

(** ** Rounds and the heap *)

(** The same state with another heap. *)
Definition onHeap (h : list transactionsHeapItem) (s : selectionState) : selectionState := sel_with (records s) h s.

(** Rounds treat any two heaps alike. *)
Inductive alike (item : transactionsHeapItem) (h1 h2 : list transactionsHeapItem) : roundResult -> roundResult -> Prop :=
| alike_break s h : alike item h1 h2 (Break s) (Break (onHeap h s))
| alike_next s f : transactionsHeap s = f h1 -> f = id \/ f = pushNext item \/ f = pushNext (selectCurrentTransaction item) ->
    alike item h1 h2 (Next s) (Next (onHeap (f h2) s)).

Lemma considerItem_alike item h1 h2 s : transactionsHeap s = h1 ->
  alike item h1 h2 (considerItem session guardianFunction item s) (considerItem session guardianFunction item (onHeap h2 s)).
Proof.
  intros <-. unfold considerItem. cbn.
  destruct (getRecord _ _ _) as [r1 [rec|e]]; [|by apply (alike_next _ _ _ (sel_with r1 _ s) id); auto].
  destruct (detectSkippableSender _ _ _ _ _) as [r2 [[|]|e]]; [by apply (alike_next _ _ _ (sel_with r2 _ s) id); auto| |
    by apply (alike_next _ _ _ (sel_with r2 _ s) id); auto].
  destruct (detectSkippableTransaction _ _ _); [by apply (alike_next _ _ _ (sel_with r2 _ s) (pushNext item)); auto|].
  destruct (session_accumulateConsumedBalance _ _ _ _) as [r3 [[]|e]];
    [|by apply (alike_next _ _ _ (sel_with r3 _ s) (pushNext item)); auto].
  unfold selectItem. cbn. destruct (_ && _); [by apply (alike_break _ _ _ (sel_with r3 _ s) h2)|].
  match goal with |- alike _ _ _ (Next ?x) _ => apply (alike_next _ _ _ x (pushNext (selectCurrentTransaction item))); auto end.
Qed.

Lemma selectionRound_alike item h1 h2 s : alike item h1 h2 (round item h1 s) (round item h2 (onHeap h2 s)).
Proof.
  unfold selectionRound. cbv zeta.
  set (s1 := {| records := records s; transactionsHeap := h1; selectedTransactions := selectedTransactions s;
                accumulatedGas := accumulatedGas s; uniqueSenderCount := uniqueSenderCount s;
                processedTxs := processedTxs s + 1 |}).
  match goal with |- context [Break ?x] => lazymatch x with s1 => fail | _ => change x with (onHeap h2 s1) end end.
  assert (E1 : transactionsHeap s1 = h1) by done. clearbody s1. cbn [onHeap sel_with accumulatedGas selectedTransactions processedTxs].
  destruct (_ <? _); [by apply alike_break|]. destruct (_ <=? _); [by apply alike_break|].
  destruct (_ && negb _); [by apply alike_break|].
  destruct (_ && _); [|by apply considerItem_alike].
  apply (alike_next _ _ _ s1 id); auto.
Qed.

(** What may become of the heap when [item] is off it. *)
Inductive successor (item : transactionsHeapItem) (h : list transactionsHeapItem) : list transactionsHeapItem -> Prop :=
| successor_off : successor item h h
| successor_next item' : atCurrent item' -> bunch item' = bunch item ->
    currentTransactionIndex item' = S (currentTransactionIndex item) -> successor item h (heap_Push maxLess item' h).

Lemma successor_function item h f : f = id \/ f = pushNext item \/ f = pushNext (selectCurrentTransaction item) ->
  successor item h (f h).
Proof.
  intros [-> |[-> | ->]]; [constructor|..]; unfold pushNext.
  - destruct (gotoNextTransaction item) as [item'|] eqn:E; [|constructor].
    destruct (atCurrent_next _ _ E) as (? & ? & ?). by constructor.
  - destruct (gotoNextTransaction (selectCurrentTransaction item)) as [item'|] eqn:E; [|constructor].
    destruct (atCurrent_next _ _ E) as (? & ? & ?). by constructor.
Qed.

Lemma selectionRound_next item h s s' : round item h s = Next s' -> successor item h (transactionsHeap s').
Proof.
  intros E. pose proof (selectionRound_alike item h h s) as A. rewrite E in A.
  inversion A as [|? f Ef Hf]; subst. rewrite Ef. by apply successor_function.
Qed.

Lemma successor_atCurrent item h h' : successor item h h' -> Forall atCurrent h -> Forall atCurrent h'.
Proof. intros [|item' A _ _] F; [done|]. rewrite heap_Push_perm. by constructor. Qed.

Lemma successor_heapOrd item h h' : successor item h h' -> heapOrd maxLess h (length h) -> heapOrd maxLess h' (length h').
Proof. intros [|item1 _ _ _] H; [exact H|]. exact (heap_Push_heapOrd maxLess item1 h H). Qed.

Lemma successor_fuel item h h' : atCurrent item -> successor item h h' -> (heapFuel h' < heapFuel (item :: h))%nat.
Proof.
  intros A [|item' A' Eb Ei]; rewrite ?heap_Push_perm, !heapFuel_cons; unfold remaining;
    apply lookup_lt_Some in A; [lia|]. apply lookup_lt_Some in A'. rewrite Eb, Ei in *. lia.
Qed.

(** ** The loop ends *)

(** The loop of the code: until the heap is empty, or a round breaks. *)
Inductive selectionRuns : selectionState -> selectionState -> Prop :=
| runs_empty s : transactionsHeap s = [] -> selectionRuns s s
| runs_break s item h s' : heap_Pop maxLess (transactionsHeap s) = Some (item, h) -> round item h s = Break s' ->
    selectionRuns s s'
| runs_next s item h s1 s' : heap_Pop maxLess (transactionsHeap s) = Some (item, h) -> round item h s = Next s1 ->
    selectionRuns s1 s' -> selectionRuns s s'.

Lemma selection_loop_runs fuel : forall s, Forall atCurrent (transactionsHeap s) ->
  (heapFuel (transactionsHeap s) <= fuel)%nat -> selectionRuns s (loop fuel s).
Proof.
  induction fuel as [|fuel IH]; intros s A L; [unfold heapFuel in L; lia|]. cbn [selection_loop].
  destruct (heap_Pop maxLess (transactionsHeap s)) as [[item h]|] eqn:E.
  2:{ apply runs_empty. by apply heap_Pop_nil in E. }
  pose proof (heap_Pop_perm maxLess _ _ _ E) as P. rewrite P in A, L. apply Forall_cons in A as [Ai A].
  destruct (round item h s) as [s'|s1] eqn:Er; [by eapply runs_break|]. eapply runs_next; [done..|].
  pose proof (selectionRound_next _ _ _ _ Er) as Sc. apply IH; [by eapply successor_atCurrent|].
  pose proof (successor_fuel _ _ _ Ai Sc). lia.
Qed.

Lemma selectionRuns_det s s1 s2 : selectionRuns s s1 -> selectionRuns s s2 -> s1 = s2.
Proof.
  intros R. revert s2. induction R as [s E|s item h s' E Er|s item h s1 s' E Er R IH]; intros s2 R2.
  - inversion R2 as [|? ? ? ? E'|? ? ? ? ? E']; subst; [done|by rewrite E in E'..].
  - inversion R2 as [? E'|? ? ? ? E' Er'|? ? ? ? ? E' Er']; subst; [by rewrite E' in E|congruence..].
  - inversion R2 as [? E'|? ? ? ? E' Er'|? ? ? ? ? E' Er' R2']; subst; [by rewrite E' in E|congruence|].
    rewrite E in E'. injection E' as <- <-. rewrite Er in Er'. injection Er' as <-. by apply IH.
Qed.

(** ** The order of the senders *)

(** No hash twice in what the items have to offer. *)
Definition distinct (h : list transactionsHeapItem) : Prop := NoDup (TxHash <$> mjoin (rest <$> h)).

#[export] Instance distinct_perm : Proper ((≡ₚ) ==> iff) distinct.
Proof. intros h h' P. unfold distinct. by rewrite P. Qed.

Lemma distinct_tail item h : distinct (item :: h) -> distinct h.
Proof. unfold distinct. cbn. rewrite fmap_app. intros N. by apply NoDup_app in N as (_ & _ & N). Qed.

Lemma successor_distinct item h h' : atCurrent item -> successor item h h' -> distinct (item :: h) -> distinct h'.
Proof.
  intros A [|item' A' Eb Ei] N; [by eapply distinct_tail|]. rewrite heap_Push_perm. unfold distinct in *. cbn in *.
  rewrite rest_current in N by done. unfold rest at 1. rewrite Eb, Ei. cbn in N. by apply NoDup_cons in N as [_ N].
Qed.

Lemma distinct_same h item1 item2 : Forall atCurrent h -> distinct h -> item1 ∈ h -> item2 ∈ h ->
  TxHash (currentTransaction item1) = TxHash (currentTransaction item2) -> item1 = item2.
Proof.
  intros A D I1 I2 E. destruct (proj1 (elem_of_Permutation _ _) I1) as [h1 P]. rewrite P in A, D, I2.
  apply elem_of_cons in I2 as [->|I2]; [done|]. exfalso.
  destruct (proj1 (elem_of_Permutation _ _) I2) as [h2 P2]. rewrite P2 in A, D. apply Forall_cons in A as [A1 A].
  apply Forall_cons in A as [A2 _]. unfold distinct in D. cbn in D. rewrite !rest_current in D by done.
  cbn in D. apply NoDup_cons in D as [D _]. apply D. rewrite E, !fmap_app. cbn. set_solver.
Qed.

(** The best of two heaps with the same items. *)
Lemma heap_Pop_same h1 h2 : h1 ≡ₚ h2 -> heapOrd maxLess h1 (length h1) -> heapOrd maxLess h2 (length h2) ->
  Forall atCurrent h1 -> distinct h1 ->
  match heap_Pop maxLess h1, heap_Pop maxLess h2 with
  | Some (item1, h1'), Some (item2, h2') => item1 = item2 /\ h1' ≡ₚ h2'
  | None, None => True
  | _, _ => False
  end.
Proof.
  intros P O1 O2 A D. destruct (heap_Pop maxLess h1) as [[item1 h1']|] eqn:E1.
  2:{ apply heap_Pop_nil in E1 as ->. by apply Permutation_nil in P as ->. }
  destruct (heap_Pop maxLess h2) as [[item2 h2']|] eqn:E2.
  2:{ apply heap_Pop_nil in E2 as ->. symmetry in P. by apply Permutation_nil in P as ->. }
  pose proof (heap_Pop_perm maxLess _ _ _ E1) as P1. pose proof (heap_Pop_perm maxLess _ _ _ E2) as P2.
  destruct (heap_Pop_min maxLess _ _ _ O1 E1) as [M1 _]. destruct (heap_Pop_min maxLess _ _ _ O2 E2) as [M2 _].
  assert (I1 : item1 ∈ h1) by (rewrite P1; by apply elem_of_cons; left).
  assert (I2 : item2 ∈ h1) by (rewrite P, P2; by apply elem_of_cons; left).
  assert (Es : item1 = item2).
  { apply (distinct_same h1); try done. apply maxLess_hash; [by apply M1|]. apply M2. by rewrite <- P. }
  subst item2. split; [done|]. rewrite P1, P2 in P. by apply Permutation_cons_inv in P.
Qed.

Lemma pushNext_perm item h1 h2 : h1 ≡ₚ h2 -> pushNext item h1 ≡ₚ pushNext item h2.
Proof. intros P. unfold pushNext. destruct (gotoNextTransaction item); [|done]. by rewrite !heap_Push_perm, P. Qed.

Lemma selectionRuns_perm s s' : selectionRuns s s' -> forall h, h ≡ₚ transactionsHeap s ->
  heapOrd maxLess h (length h) -> heapOrd maxLess (transactionsHeap s) (length (transactionsHeap s)) ->
  Forall atCurrent h -> distinct h ->
  exists h', selectionRuns (onHeap h s) (onHeap h' s').
Proof.
  induction 1 as [s E|s item k s' E Er|s item k s1 s' E Er R IH]; intros h P O O' A D;
    pose proof (heap_Pop_same _ _ P O O' A D) as Q.
  - rewrite E in P. apply Permutation_nil_r in P as ->. exists []. by apply runs_empty.
  - rewrite E in Q. destruct (heap_Pop maxLess h) as [[item' k']|] eqn:E'; [|done]. destruct Q as [-> Q].
    pose proof (selectionRound_alike item k k' s) as Al. rewrite Er in Al. inversion Al as [? h'' E1 E2|]; subst.
    exists h''. by eapply runs_break.
  - rewrite E in Q. destruct (heap_Pop maxLess h) as [[item' k']|] eqn:E'; [|done]. destruct Q as [-> Q].
    pose proof (selectionRound_alike item k k' s) as Al. rewrite Er in Al. inversion Al as [|? f Ef Hf E1 E2]; subst.
    pose proof (heap_Pop_perm maxLess _ _ _ E') as P'. rewrite P' in A, D.
    pose proof (heap_Pop_min maxLess _ _ _ O' E) as [_ Ok]. pose proof (heap_Pop_min maxLess _ _ _ O E') as [_ Ok'].
    apply Forall_cons in A as [Ai A]. pose proof (successor_function item k' f Hf) as Sc.
    destruct (IH (f k')) as [h' R'].
    + rewrite Ef. destruct Hf as [-> |[-> | ->]]; [done|by apply pushNext_perm..].
    + by eapply successor_heapOrd.
    + rewrite Ef. eapply successor_heapOrd; [by apply successor_function|done].
    + by eapply successor_atCurrent.
    + by eapply successor_distinct.
    + exists h'. eapply runs_next; [exact E'|exact (eq_sym E2)|done].
Qed.
End Order.
