(* ===== verification/TxPoolSpec.v ===== *)
(** * The mempool is consistent

    The lists of the senders are in order, every transaction of a list is found
    by its hash, and the counters count; removals from the lists and by hash
    keep it so.

    ** Transactions come and go

    What adding a transaction and removing one by its hash do to the lists, and
    that the mempool stays consistent.

    ** Eviction keeps the mempool consistent

    A pass takes from the heap transactions that are listed, the last nonces of
    every sender first; then the lists are cut at the lowest nonce taken, so
    that nothing stays in a list whose hash is forgotten.

    ** Every operation keeps the mempool consistent

    Adding, removal by hash, sweeping, the offsets and the tracked blocks; and
    the mempools that can be reached by them. *)

From Stdlib Require Import ZArith Lia Sorted.
From stdpp Require Import base gmap list sorting.
From S2P Require Import Prelude GoValues GoCollections TxList Breadcrumbs TxHeap TxCache SelectionTracker TxSelection.
From S2P Require Import TxListSpec.

(** The sizes of all transactions of a map. *)
Definition mapSize (m : gmap bytes WrappedTransaction) : Z := map_fold (fun _ tx z => Size tx + z) 0 m.

Lemma mapSize_insert h tx m : m !! h = None -> mapSize (<[h := tx]> m) = Size tx + mapSize m.
Proof. intros E. unfold mapSize. by rewrite map_fold_insert_L by (done || (intros; lia)). Qed.

Lemma mapSize_delete h tx m : m !! h = Some tx -> mapSize (base.delete h m) = mapSize m - Size tx.
Proof. intros E. unfold mapSize. rewrite (map_fold_delete_L _ _ h tx m) by (done || (intros; lia)). lia. Qed.

Lemma size_lookup {A} (m : gmap bytes A) h x : m !! h = Some x -> (0 < size m)%nat.
Proof. intros E. destruct (size m) eqn:Es; [|lia]. apply map_size_empty_iff in Es as ->. by rewrite lookup_empty in E. Qed.

(** The bytes of the transactions that clearing the mempool forgot: it keeps
    counting them. *)
Class ForgottenBytes := forgotten : Z.

(** A transaction of a list. *)
Definition listed (c : TxCache) (tx : WrappedTransaction) : Prop :=
  exists l, txListBySender c !! senderOf tx = Some l /\ tx ∈ items l.

Definition listsOk (c : TxCache) : Prop := forall s l, txListBySender c !! s = Some l -> listOk s l.

Section Consistent.
Context {FB : ForgottenBytes}.

Record poolOk (c : TxCache) : Prop := {
  pool_lists : listsOk c;
  pool_hashes h tx : txByHash c !! h = Some tx -> TxHash tx = h;
  pool_listed tx : listed c tx -> txByHash c !! TxHash tx = Some tx;
  pool_senders : sendersCounter c = i64 (Z.of_nat (size (txListBySender c)));
  pool_count : txCounter c = i64 (Z.of_nat (size (txByHash c)));
  pool_bytes : numBytes c = i64 (mapSize (txByHash c) + forgotten);
}.

(** All but the lists. *)
Record hashesOk (c : TxCache) : Prop := {
  ho_hashes h tx : txByHash c !! h = Some tx -> TxHash tx = h;
  ho_count : txCounter c = i64 (Z.of_nat (size (txByHash c)));
  ho_bytes : numBytes c = i64 (mapSize (txByHash c) + forgotten);
}.
Definition sendersOk (c : TxCache) : Prop :=
  listsOk c /\ sendersCounter c = i64 (Z.of_nat (size (txListBySender c))).

Lemma poolOk_alt c : poolOk c <-> sendersOk c /\ hashesOk c /\ (forall tx, listed c tx -> txByHash c !! TxHash tx = Some tx).
Proof.
  split; [intros [L H I S C B]; split_and!; [by split|by constructor|done]|].
  intros ([L S] & [H C B] & I). by constructor.
Qed.

Lemma listed_sender c s l tx : listsOk c -> txListBySender c !! s = Some l -> tx ∈ items l -> senderOf tx = s.
Proof. intros L E H. by apply (proj1 (Forall_forall _ _) (list_senders _ _ (L s l E))). Qed.

(** No two transactions of the lists have one hash. *)
Lemma listed_hash c tx tx' : poolOk c -> listed c tx -> listed c tx' -> TxHash tx = TxHash tx' -> tx = tx'.
Proof. intros P H H' E. apply (pool_listed c P) in H, H'. congruence. Qed.

(** ** The map by hash *)

Lemma byHash_addTx_spec tx c : hashesOk c -> txByHash c !! TxHash tx = None ->
  let '(c', added) := byHash_addTx tx c in
  added = true /\ hashesOk c' /\ txByHash c' = <[TxHash tx := tx]> (txByHash c) /\
  txListBySender c' = txListBySender c /\ sendersCounter c' = sendersCounter c /\ tracker c' = tracker c.
Proof.
  intros [H1 H2 H3] E. unfold byHash_addTx. rewrite E. split_and!; try done. constructor; cbn.
  - intros h tx' Hh. apply lookup_insert_Some in Hh as [[<- <-]|[_ Hh]]; [done|by apply H1].
  - rewrite H2, i64_add, map_size_insert_None by done. f_equal. lia.
  - rewrite H3, i64_add, mapSize_insert by done. f_equal. lia.
Qed.

Lemma byHash_removeTx_spec h c : hashesOk c ->
  let '(c', removed) := byHash_removeTx h c in
  removed = txByHash c !! h /\ hashesOk c' /\ txByHash c' = base.delete h (txByHash c) /\
  txListBySender c' = txListBySender c /\ sendersCounter c' = sendersCounter c /\ tracker c' = tracker c.
Proof.
  intros [H1 H2 H3]. unfold byHash_removeTx. destruct (txByHash c !! h) as [tx|] eqn:E.
  - split_and!; try done. constructor; cbn.
    + intros h' tx' Hh. apply lookup_delete_Some in Hh as [_ Hh]. by apply H1.
    + rewrite H2, i64_sub, map_size_delete_Some by done. f_equal.
      pose proof (size_lookup _ _ _ E). lia.
    + rewrite H3, i64_sub, (mapSize_delete h tx) by done. f_equal. lia.
  - split_and!; try done. by rewrite delete_id.
Qed.

Definition withoutHashes (hs : list bytes) (m : gmap bytes WrappedTransaction) : gmap bytes WrappedTransaction :=
  fold_left (fun m h => base.delete h m) hs m.

Lemma lookup_withoutHashes hs h m : withoutHashes hs m !! h = if decide (h ∈ hs) then None else m !! h.
Proof.
  revert m. induction hs as [|h' hs IH]; intros m; cbn; [by rewrite decide_False by (by apply not_elem_of_nil)|].
  fold (withoutHashes hs (base.delete h' m)). rewrite IH. destruct (decide (h ∈ hs)) as [I|N].
  - by rewrite decide_True by (apply elem_of_cons; by right).
  - destruct (decide (h = h')) as [->|N'].
    + rewrite decide_True by (apply elem_of_cons; by left). apply lookup_delete_eq.
    + rewrite decide_False by (rewrite elem_of_cons; tauto). by rewrite lookup_delete_ne.
Qed.

Lemma RemoveTxsBulk_spec hs c : hashesOk c -> let c' := RemoveTxsBulk hs c in
  hashesOk c' /\ txByHash c' = withoutHashes hs (txByHash c) /\
  txListBySender c' = txListBySender c /\ sendersCounter c' = sendersCounter c /\ tracker c' = tracker c.
Proof.
  cbv zeta. unfold RemoveTxsBulk, withoutHashes. revert c. induction hs as [|h hs IH]; intros c H; [done|]. cbn.
  pose proof (byHash_removeTx_spec h c H) as S. destruct (byHash_removeTx h c) as [c1 r]. cbn.
  destruct S as (_ & H1 & E1 & E2 & E3 & E4). destruct (IH c1 H1) as (H2 & F1 & F2 & F3 & F4).
  split_and!; [done|by rewrite F1, E1|congruence..].
Qed.

(** Removing the hashes of transactions that are not in the lists. *)
Lemma RemoveTxsBulk_ok hs c : poolOk c -> (forall tx, listed c tx -> TxHash tx ∉ hs) -> poolOk (RemoveTxsBulk hs c).
Proof.
  rewrite !poolOk_alt. intros ([L1 L2] & H & I) N. destruct (RemoveTxsBulk_spec hs c H) as (H' & E1 & E2 & E3 & _).
  unfold sendersOk, listsOk, listed in *. rewrite E2, E3. split_and!; [done..|]. intros tx Htx.
  rewrite E1, lookup_withoutHashes, decide_False by (by apply N). by apply I.
Qed.

(** The check for an empty list of hashes changes nothing. *)
Lemma RemoveTxsBulk_if hs c : (if (0 <? length hs)%nat then RemoveTxsBulk hs c else c) = RemoveTxsBulk hs c.
Proof. by destruct hs. Qed.

(** ** The map by sender *)

(** A list in the place of another, or of none. *)
Lemma setList_ok s l c : sendersOk c -> is_Some (txListBySender c !! s) -> listOk s l ->
  sendersOk (setList l c) /\ txListBySender (setList l c) = <[s := l]> (txListBySender c).
Proof.
  intros [L C] S O. unfold setList, sendersOk, listsOk. cbn. rewrite (list_sender _ _ O). split; [|done]. split.
  - intros s' l' E. apply lookup_insert_Some in E as [[<- <-]|[_ E]]; [done|by apply L].
  - destruct S as [l0 E]. by rewrite map_size_insert_Some by (by eexists).
Qed.

Lemma removeSender_ok s c : sendersOk c ->
  sendersOk (removeSender s c) /\ txListBySender (removeSender s c) = base.delete s (txListBySender c).
Proof.
  intros [L C]. unfold removeSender, getListForSender. destruct (txListBySender c !! s) as [l|] eqn:E.
  - split; [|done]. split; unfold listsOk; cbn.
    + intros s' l' E'. apply lookup_delete_Some in E' as [_ E']. by apply L.
    + rewrite C, i64_sub, map_size_delete_Some by done. f_equal.
      pose proof (size_lookup _ _ _ E). lia.
  - split; [by split|]. by rewrite delete_id.
Qed.

(** A shorter list instead of another one. *)
Lemma replaceList_ok s l l' c : sendersOk c -> txListBySender c !! s = Some l -> listOk s l' ->
  let c' := removeSenderIfEmpty l' (setList l' c) in
  sendersOk c' /\ (forall tx, listed c' tx <-> (senderOf tx = s /\ tx ∈ items l') \/ (senderOf tx <> s /\ listed c tx)) /\
  txByHash c' = txByHash c /\ txCounter c' = txCounter c /\ numBytes c' = numBytes c /\ tracker c' = tracker c.
Proof.
  intros S E O c'. destruct (setList_ok s l' c S ltac:(by eexists) O) as [S1 E1].
  assert (Q : forall tx, listed (setList l' c) tx <-> (senderOf tx = s /\ tx ∈ items l') \/ (senderOf tx <> s /\ listed c tx)).
  { intros tx. unfold listed. rewrite E1. destruct (decide (senderOf tx = s)) as [->|N].
    - rewrite lookup_insert_eq. split; [intros (? & [= <-] & ?); auto|intros [[_ ?]|[? _]]; [by exists l'|done]].
    - rewrite lookup_insert_ne by done. split; [auto|by intros [[? _]|[_ ?]]]. }
  unfold c', removeSenderIfEmpty. rewrite (list_sender _ _ O). destruct (IsEmpty l') eqn:Em; [|by split_and!].
  destruct (removeSender_ok s (setList l' c) S1) as [S2 E2]. split_and!; [done| |..].
  - intros tx. rewrite <- Q. unfold listed. rewrite E2, E1. apply Nat.eqb_eq, length_zero_iff_nil in Em.
    destruct (decide (senderOf tx = s)) as [->|N].
    + rewrite lookup_delete_eq, lookup_insert_eq. split; [by intros (? & ? & _)|].
      intros (? & [= <-] & H). rewrite Em in H. by apply elem_of_nil in H.
    + by rewrite lookup_delete_ne.
  - unfold removeSender. by destruct (getListForSender s _).
  - unfold removeSender. by destruct (getListForSender s _).
  - unfold removeSender. by destruct (getListForSender s _).
  - unfold removeSender. by destruct (getListForSender s _).
Qed.

(** The same map by hash and tracker. *)
Definition sameHashes (c c' : TxCache) : Prop :=
  txByHash c' = txByHash c /\ txCounter c' = txCounter c /\ numBytes c' = numBytes c /\ tracker c' = tracker c.

Lemma sameHashes_ok c c' : sameHashes c c' -> hashesOk c -> hashesOk c'.
Proof. intros (E1 & E2 & E3 & _) [H1 H2 H3]. constructor; rewrite ?E1, ?E2, ?E3; auto. Qed.

(** Fewer transactions, in the lists and by hash. *)
Record shrinks (c c' : TxCache) : Prop := {
  shrinks_listed tx : listed c' tx -> listed c tx;
  shrinks_hashes h tx : txByHash c' !! h = Some tx -> txByHash c !! h = Some tx;
  shrinks_tracker : tracker c' = tracker c;
}.

Lemma shrinks_refl c : shrinks c c.
Proof. by constructor. Qed.

Lemma shrinks_trans c c' c'' : shrinks c c' -> shrinks c' c'' -> shrinks c c''.
Proof. intros [? ? ?] [? ? ?]. constructor; [auto|auto|congruence]. Qed.

Lemma shrinks_absent c c' h : shrinks c c' -> txByHash c !! h = None -> txByHash c' !! h = None.
Proof.
  intros S E. destruct (txByHash c' !! h) as [tx|] eqn:E'; [|done]. apply (shrinks_hashes _ _ S) in E'. congruence.
Qed.

Lemma RemoveTxsBulk_shrinks hs c : hashesOk c -> shrinks c (RemoveTxsBulk hs c).
Proof.
  intros H. destruct (RemoveTxsBulk_spec hs c H) as (_ & E1 & E2 & _ & E3). constructor; [|intros h tx|done].
  - unfold listed. by rewrite E2.
  - rewrite E1, lookup_withoutHashes. by case_decide.
Qed.

(** Shorter lists over the same map by hash. *)
Lemma fewer_ok c c' : poolOk c -> sendersOk c' -> sameHashes c c' -> (forall tx, listed c' tx -> listed c tx) -> poolOk c'.
Proof.
  rewrite !poolOk_alt. intros (_ & H & I) S E L. split_and!; [done|by eapply sameHashes_ok|].
  destruct E as (-> & _). auto.
Qed.

(** ** Adding *)

Lemma addSender_ok s c : sendersOk c -> txListBySender c !! s = None -> let '(c', l) := addSender s c in
  sendersOk c' /\ txListBySender c' = <[s := newTxListForSender s]> (txListBySender c) /\ l = newTxListForSender s.
Proof.
  intros [L C] E. cbn. split_and!; try done. split; unfold listsOk; cbn.
  - intros s' l' E'. apply lookup_insert_Some in E' as [[<- <-]|[_ E']]; [apply newTxListForSender_ok|by apply L].
  - rewrite C, i64_add, map_size_insert_None by done. f_equal. lia.
Qed.

Lemma getOrAddListForSender_ok s c : sendersOk c -> let '(c', l) := getOrAddListForSender s c in
  sendersOk c' /\ txListBySender c' !! s = Some l /\ sameHashes c c' /\ (forall tx, listed c' tx <-> listed c tx).
Proof.
  intros S. unfold getOrAddListForSender, getListForSender. destruct (txListBySender c !! s) as [l|] eqn:E; [by split_and!|].
  pose proof (addSender_ok s c S E) as A. destruct (addSender s c) as [c' l] eqn:Ea. destruct A as (S' & E' & ->).
  split_and!; [done|by rewrite E', lookup_insert_eq| |].
  - injection Ea as <-. by split_and!.
  - intros tx. unfold listed. rewrite E'. destruct (decide (senderOf tx = s)) as [->|N]; [|by rewrite lookup_insert_ne].
    rewrite lookup_insert_eq, E. split; [|by intros (? & ? & _)]. intros (l & [= <-] & H). by apply elem_of_nil in H.
Qed.

(** Setting a list where there is one. *)
Lemma setList_listed s l c : sendersOk c -> is_Some (txListBySender c !! s) -> listOk s l ->
  sendersOk (setList l c) /\ sameHashes c (setList l c) /\
  forall tx, listed (setList l c) tx <-> (senderOf tx = s /\ tx ∈ items l) \/ (senderOf tx <> s /\ listed c tx).
Proof.
  intros S I O. destruct (setList_ok s l c S I O) as [S1 E1]. split_and!; [done|by split_and!|].
  intros tx. unfold listed. rewrite E1. destruct (decide (senderOf tx = s)) as [->|N].
  - rewrite lookup_insert_eq. split; [intros (? & [= <-] & ?); auto|intros [[_ ?]|[? _]]; [by exists l|done]].
  - rewrite lookup_insert_ne by done. split; [auto|by intros [[? _]|[_ ?]]].
Qed.

Lemma listed_at c s l tx : txListBySender c !! s = Some l -> senderOf tx = s -> listed c tx <-> tx ∈ items l.
Proof. intros E <-. unfold listed. rewrite E. split; [by intros (? & [= <-] & ?)|]. intros H. by exists l. Qed.

Section Add.
Context {KR : KeyRange} {CF : TxCacheConfig} {MH : MempoolHost}.

(** A transaction is refused for another with its nonce, price and hash, or it
    is added, and others may be evicted that are not tracked. *)
Lemma addTxReturnEvicted_ok tx c : sendersOk c -> let '(c', (added, hashes)) := addTxReturnEvicted tx c in
  sendersOk c' /\ sameHashes c c' /\
  if (added : bool) then
    exists removed, hashes = TxHash <$> removed /\ Forall (fun t => IsTransactionTracked (tracker c) t = false) removed /\
      (forall t, listed c' t \/ t ∈ removed <-> t = tx \/ listed c t) /\ (forall t, t ∈ removed -> ~ listed c' t)
  else hashes = [] /\ (forall t, listed c' t <-> listed c t) /\ exists x, listed c x /\ compareTxs x tx = 0.
Proof.
  intros S. unfold addTxReturnEvicted. pose proof (getOrAddListForSender_ok (senderOf tx) c S) as G.
  destruct (getOrAddListForSender (senderOf tx) c) as [c1 l] eqn:Eg. destruct G as (S1 & E1 & H1 & L1).
  assert (O : listOk (senderOf tx) l) by (by apply S1).
  pose proof (list_AddTx_spec constraintsOfSenders (IsTransactionTracked (tracker c1)) (senderOf tx) tx l O eq_refl) as A.
  destruct H1 as (H1a & H1b & H1c & H1d). rewrite H1d in *.
  destruct (list_AddTx _ _ tx l) as [l' [added hashes]]. destruct added.
  - destruct A as (removed & -> & O' & P & Fc & Fr & _).
    destruct (setList_listed (senderOf tx) l' c1 S1 ltac:(by eexists) O') as (S2 & (E2 & E3 & E4 & E5) & L2).
    split_and!; [done|by split_and!; congruence|]. exists removed.
    assert (M : forall t, t ∈ items l' \/ t ∈ removed <-> t = tx \/ t ∈ items l)
      by (intros t; by rewrite <- elem_of_app, <- P, elem_of_cons).
    assert (Sn : forall t, t = tx \/ t ∈ items l -> senderOf t = senderOf tx)
      by (intros t [->|I]; [done|by apply (proj1 (Forall_forall _ _) (list_senders _ _ O))]).
    assert (N : NoDup (items l' ++ removed)).
    { rewrite <- P. constructor; [|apply ordered_NoDup with (1 := list_ordered _ _ O)]. intros I.
      apply (proj1 (Forall_forall _ _) Fc) in I. apply I. by apply compareTxs_zero. }
    split_and!; [done..| |].
    + intros t. rewrite L2, <- L1. specialize (M t). specialize (Sn t).
      destruct (decide (senderOf t = senderOf tx)) as [Q|Q]; [rewrite (listed_at c1 _ l t E1 Q)|]; tauto.
    + intros t Ht. rewrite L2. intros [[_ I]|[Q _]]; [|by apply Q, Sn, M; right].
      apply NoDup_app in N as (_ & N & _). by apply (N t).
  - destruct A as (-> & -> & x & Hx & Ex).
    destruct (setList_listed (senderOf tx) l c1 S1 ltac:(by eexists) O) as (S2 & (E2 & E3 & E4 & E5) & L2).
    split_and!; [done|by split_and!; congruence|done| |].
    + intros t. rewrite L2, <- L1. destruct (decide (senderOf t = senderOf tx)) as [Q|Q]; [|tauto].
      rewrite (listed_at c1 _ l t E1 Q). tauto.
    + exists x. split; [|done]. apply L1. eexists. split; [|exact Hx].
      rewrite (proj1 (Forall_forall _ _) (list_senders _ _ O) x Hx). done.
Qed.
End Add.

Lemma range_NoDup {KR : KeyRange} {KOk : KeyRangeOk KR} {A} (m : gmap bytes A) : NoDup (fst <$> rangeMap m).
Proof.
  assert (Q : fst <$> rangeMap m = rangeKeys (dom m)).
  { unfold rangeMap. assert (F : Forall (fun k => is_Some (m !! k)) (rangeKeys (dom m))).
    { apply Forall_forall. intros k. rewrite rangeKeys_perm, elem_of_elements. by apply elem_of_dom. }
    induction F as [|k ks [v Ev] _ IH]; [done|]. cbn. rewrite Ev. cbn. by rewrite IH. }
  rewrite Q, rangeKeys_perm. apply NoDup_elements.
Qed.

Lemma omap_keys_NoDup {A} (g : bytes * A -> option bytes) entries : NoDup (fst <$> entries) ->
  (forall e k, e ∈ entries -> g e = Some k -> k = fst e) -> NoDup (omap g entries).
Proof.
  induction entries as [|e entries IH]; intros N H; cbn; [constructor|]. cbn in N. apply NoDup_cons in N as [N0 N].
  assert (N' : NoDup (omap g entries)) by (apply IH; [done|]; intros e' k' I; apply H; apply elem_of_cons; by right).
  destruct (g e) as [k|] eqn:E; [|done]. constructor; [|done]. intros I.
  apply list_elem_of_omap in I as (e' & Ie & E'). apply N0.
  rewrite <- (H e k (list_elem_of_here _ _) E), (H e' k (list_elem_of_further _ _ _ Ie) E'). by apply list_elem_of_fmap_2.
Qed.

Lemma rev_reverse {A} (l : list A) : List.rev l = reverse l.
Proof. unfold reverse. by rewrite rev_append_rev, app_nil_r. Qed.

Section Evict.
Context {KR : KeyRange} {KOk : KeyRangeOk KR} {CF : TxCacheConfig} {MH : MempoolHost}.

(** ** Cutting the lists *)

Lemma removeHigherOrEqual_ok a n c : poolOk c -> let c' := removeTransactionsWithHigherOrEqualNonce a n c in
  poolOk c' /\ sameHashes c c' /\ (forall tx, listed c' tx -> listed c tx /\ (senderOf tx = a -> nonceOf tx < n)).
Proof.
  intros P. unfold removeTransactionsWithHigherOrEqualNonce, getListForSender.
  destruct (txListBySender c !! a) as [l|] eqn:E; cbv zeta.
  2:{ split; [done|]. split; [by split_and!|]. intros tx H. split; [done|]. intros <-. destruct H as (l & E' & _). congruence. }
  pose proof (proj1 (poolOk_alt c) P) as (S & _ & _). pose proof (proj1 S a l E) as O.
  destruct (removeHigherOrEqual_spec a n l O) as [O' I'].
  destruct (replaceList_ok a l _ c S E O') as (S' & L & H). set (c' := removeSenderIfEmpty _ _) in *.
  assert (L' : forall tx, listed c' tx -> listed c tx /\ (senderOf tx = a -> nonceOf tx < n)).
  { intros tx H'. apply L in H' as [[Es Ht]|[Ns Ht]]; [|by split]. rewrite I' in Ht.
    apply list_elem_of_In, filter_In in Ht as [Ht Q]. apply list_elem_of_In in Ht.
    apply negb_true_iff, Z.leb_gt in Q. split; [by apply (listed_at c a l)|done]. }
  split; [|done]. apply (fewer_ok c); [done..|]. intros tx Htx. by apply L'.
Qed.

Lemma cutLists_ok entries : forall c, poolOk c ->
  let c' := fold_left (fun c '(sender, nonce) => removeTransactionsWithHigherOrEqualNonce sender nonce c) entries c in
  poolOk c' /\ sameHashes c c' /\
  (forall tx, listed c' tx -> listed c tx /\ forall n, (senderOf tx, n) ∈ entries -> nonceOf tx < n).
Proof.
  induction entries as [|[a n] entries IH]; intros c P; cbn.
  { split; [done|]. split; [by split_and!|]. intros tx H. split; [done|]. intros n I. by apply elem_of_nil in I. }
  destruct (removeHigherOrEqual_ok a n c P) as (P1 & (E1 & E2 & E3 & E4) & L1).
  destruct (IH _ P1) as (P2 & (F1 & F2 & F3 & F4) & L2). split; [done|]. split; [by split_and!; congruence|].
  intros tx H. apply L2 in H as [H N2]. apply L1 in H as [H N1]. split; [done|].
  intros m I. apply elem_of_cons in I as [I|I]; [|by auto]. injection I as I1 I2. rewrite I2. auto.
Qed.

(** For every transaction taken, the lists of its sender are cut at its nonce or below. *)
Definition cutOk (toEvict : bunchOfTransactions) : Prop :=
  forall tx, tx ∈ toEvict -> exists n, lowestToEvictBySender toEvict !! senderOf tx = Some n /\ n <= nonceOf tx.

Lemma evictTransactions_ok c0 toEvict c : poolOk c0 -> poolOk c -> shrinks c0 c -> cutOk toEvict -> Forall (listed c0) toEvict ->
  poolOk (evictTransactions toEvict c) /\ shrinks c0 (evictTransactions toEvict c).
Proof.
  intros P0 P S K F. unfold evictTransactions.
  destruct (cutLists_ok (rangeMap (lowestToEvictBySender toEvict)) c P) as (P1 & (E1 & E2 & E3 & E4) & L).
  set (c1 := fold_left _ _ c) in *.
  assert (S1 : shrinks c0 c1).
  { eapply shrinks_trans; [exact S|]. constructor; [intros tx H; by apply L|by rewrite E1|done]. }
  assert (P2 := proj1 (poolOk_alt c1) P1). split.
  - apply RemoveTxsBulk_ok; [done|]. intros tx H I. apply list_elem_of_fmap in I as (e & Eh & Ie).
    pose proof (proj1 (Forall_forall _ _) F e Ie) as Le.
    assert (tx = e) as <- by (apply (listed_hash c0); [done|by apply S1|done|done]).
    destruct (K tx Ie) as (n & En & Ln). apply L in H as [_ H]. specialize (H n). rewrite elem_of_rangeMap in H.
    specialize (H En). lia.
  - eapply shrinks_trans; [exact S1|]. apply RemoveTxsBulk_shrinks. apply P2.
Qed.

(** ** A pass *)

Definition laterFirst (a b : WrappedTransaction) : Prop := nonceOf b <= nonceOf a.

Definition evictable (c0 : TxCache) (item : transactionsHeapItem) : Prop :=
  itemOk laterFirst item /\ Forall (listed c0) (bunch item).

Definition evictionHeap (c0 : TxCache) (heap : list transactionsHeapItem) : Prop :=
  NoDup (item_sender <$> heap) /\ Forall (evictable c0) heap.

#[export] Instance evictionHeap_perm c0 : Proper ((≡ₚ) ==> iff) (evictionHeap c0).
Proof. intros h h' P. unfold evictionHeap. by rewrite P. Qed.

(** Of an item, nothing was taken below what it has next. *)
Definition notBelow (toEvict : bunchOfTransactions) (item : transactionsHeapItem) : Prop :=
  forall n, lowestToEvictBySender toEvict !! item_sender item = Some n -> nonceOf (currentTransaction item) <= n.

Lemma lowest_snoc toEvict tx : lowestToEvictBySender (toEvict ++ [tx]) = <[senderOf tx := nonceOf tx]> (lowestToEvictBySender toEvict).
Proof. unfold lowestToEvictBySender. by rewrite fold_left_app. Qed.

Lemma cutOk_snoc toEvict tx : cutOk toEvict ->
  (forall n, lowestToEvictBySender toEvict !! senderOf tx = Some n -> nonceOf tx <= n) -> cutOk (toEvict ++ [tx]).
Proof.
  intros K H e He. rewrite lowest_snoc. apply elem_of_app in He as [He|He].
  - destruct (K e He) as (n & E & L). destruct (decide (senderOf e = senderOf tx)) as [Q|Q].
    + rewrite Q, lookup_insert_eq. eexists. split; [done|]. rewrite Q in E. specialize (H n E). lia.
    + rewrite lookup_insert_ne by done. by exists n.
  - apply list_elem_of_singleton in He as ->. rewrite lookup_insert_eq. by exists (nonceOf tx).
Qed.

Record passOk (c0 : TxCache) (heap : list transactionsHeapItem) (toEvict : bunchOfTransactions) : Prop := {
  pass_heap : evictionHeap c0 heap;
  pass_notBelow : Forall (notBelow toEvict) heap;
  pass_cut : cutOk toEvict;
  pass_listed : Forall (listed c0) toEvict;
}.

(** What the item next on the heap becomes. *)
Lemma passOk_next c0 item item' heap toEvict : passOk c0 (item :: heap) toEvict -> gotoNextTransaction item = Some item' ->
  passOk c0 (heap_Push minLess item' heap) toEvict.
Proof.
  intros [[N F] B K L] E. apply Forall_cons in F as [[I V] F]. apply Forall_cons in B as [B0 B].
  destruct (gotoNextTransaction_ok laterFirst item item' I E) as (I' & Eb & Es & _ & _ & _ & R).
  constructor; [..|done|done]; rewrite heap_Push_perm; [split|].
  - cbn in *. by rewrite Es.
  - constructor; [|done]. split; [done|by rewrite Eb].
  - constructor; [|done]. intros n En. rewrite Es in En. specialize (B0 n En). unfold laterFirst in R. lia.
Qed.

Lemma passOk_tail c0 item heap toEvict : passOk c0 (item :: heap) toEvict -> passOk c0 heap toEvict.
Proof.
  intros [[N F] B K L]. cbn in N. apply NoDup_cons in N as [_ N]. apply Forall_cons in F as [_ F].
  apply Forall_cons in B as [_ B]. by constructor.
Qed.

Lemma passOk_take c0 item heap toEvict : passOk c0 (item :: heap) toEvict ->
  passOk c0 (item :: heap) (toEvict ++ [currentTransaction item]).
Proof.
  intros [[N F] B K L]. pose proof (proj1 (Forall_cons _ _ _) F) as [[I V] F'].
  apply Forall_cons in B as [B0 B]. pose proof (current_sender _ item I) as Es.
  constructor; [done| |apply cutOk_snoc; [done|by rewrite Es]|].
  - constructor.
    + intros n. rewrite lowest_snoc, Es, lookup_insert_eq. by intros [= <-].
    + apply Forall_forall. intros y Hy n. rewrite lowest_snoc, Es, lookup_insert_ne.
      * by apply (proj1 (Forall_forall _ _) B).
      * intros Q. cbn in N. apply NoDup_cons in N as [N _]. apply N. rewrite Q. by apply list_elem_of_fmap_2.
  - apply Forall_app. split; [done|]. apply Forall_singleton.
    apply (proj1 (Forall_forall _ _) V). by eapply current_in_bunch.
Qed.

Lemma pass_loop_ok c0 t fuel : forall heap toEvict, passOk c0 heap toEvict ->
  let '(heap', toEvict') := pass_loop fuel t heap toEvict in passOk c0 heap' toEvict'.
Proof.
  induction fuel as [|fuel IH]; intros heap toEvict P; cbn [pass_loop]; [done|].
  destruct (heap_Pop minLess heap) as [[item heap1]|] eqn:E; [|done]. apply heap_Pop_perm in E.
  assert (P1 : passOk c0 (item :: heap1) toEvict) by (destruct P as [H1 H2 H3 H4]; rewrite E in H1, H2; by constructor).
  destruct (_ <=? _); [by eapply passOk_tail|].
  set (taken := if IsTransactionTracked t (currentTransaction item) then toEvict else toEvict ++ [currentTransaction item]).
  assert (P2 : passOk c0 (item :: heap1) taken) by (unfold taken; destruct (IsTransactionTracked _ _); [done|by apply passOk_take]).
  apply IH. destruct (gotoNextTransaction item) as [item'|] eqn:En; [by eapply passOk_next|by eapply passOk_tail].
Qed.

(** ** All passes *)

Lemma evict_loop_ok c0 fuel : forall heap journal c, poolOk c0 -> evictionHeap c0 heap -> poolOk c -> shrinks c0 c ->
  let c' := fst (evict_loop fuel heap journal c) in poolOk c' /\ shrinks c0 c'.
Proof.
  induction fuel as [|fuel IH]; intros heap journal c P0 H P S; cbn [evict_loop]; [done|].
  destruct (negb _); [done|].
  assert (K : passOk c0 heap []).
  { constructor; [done| |by intros tx I%elem_of_nil|constructor]. apply Forall_forall. by intros item _ n. }
  pose proof (pass_loop_ok c0 (tracker c) (heapFuel heap) heap [] K) as K'.
  destruct (pass_loop _ _ heap []) as [heap' toEvict]. destruct (_ =? 0)%nat; [done|].
  destruct K' as [H' _ C' L']. destruct (evictTransactions_ok c0 toEvict c P0 P S C' L') as [P' S']. by apply IH.
Qed.

Lemma laterFirst_rev its : ordered its -> StronglySorted laterFirst (List.rev its).
Proof.
  induction 1 as [|x its O IH F]; cbn; [constructor|]. apply StronglySorted_app. split_and!; [|done|by repeat constructor].
  intros a b Ha ->%list_elem_of_singleton. rewrite rev_reverse, elem_of_reverse in Ha.
  apply (proj1 (Forall_forall _ _) F) in Ha. apply compareTxs_nonce. unfold txBefore in Ha. lia.
Qed.

Lemma sender_of_reversed s l : listOk s l -> Forall (fun tx => senderOf tx = s) (getTxsReversed l).
Proof. intros O. unfold getTxsReversed. rewrite rev_reverse. apply Forall_reverse. apply O. Qed.

Lemma firstItems_evictionHeap c : poolOk c -> evictionHeap c (firstItems (getTxsReversed <$> getSenders c)).
Proof.
  intros P. pose proof (pool_lists c P) as L. split.
  - assert (Q : item_sender <$> firstItems (getTxsReversed <$> getSenders c) =
      omap (fun e : bytes * txListForSender => senderOf <$> head (getTxsReversed e.2)) (rangeMap (txListBySender c))).
    { unfold getSenders. induction (rangeMap (txListBySender c)) as [|[s l] es IH]; [done|]. cbn.
      destruct (getTxsReversed l) as [|tx b]; cbn; [done|]. f_equal. exact IH. }
    rewrite Q. apply omap_keys_NoDup; [apply range_NoDup|]. intros [s l] k I E. apply elem_of_rangeMap in I. cbn in *.
    pose proof (sender_of_reversed s l (L s l I)) as F. destruct (getTxsReversed l) as [|tx b]; [done|]. cbn in E.
    apply Forall_cons in F as [<- _]. by injection E as <-.
  - apply Forall_forall. intros item Hi.
    assert (B : Forall (bunchOk laterFirst) (getTxsReversed <$> getSenders c)).
    { apply Forall_fmap, Forall_forall. intros l Hl. apply list_elem_of_fmap in Hl as ([s l'] & -> & I).
      apply elem_of_rangeMap in I. cbn. pose proof (L s l' I) as O. split; [apply laterFirst_rev, O|].
      exists s. by apply sender_of_reversed. }
    destruct (firstItems_ok laterFirst _ item B Hi) as (I & Hb & _). split; [done|].
    apply list_elem_of_fmap in Hb as (l & -> & Hl). apply list_elem_of_fmap in Hl as ([s l'] & -> & Hl).
    apply elem_of_rangeMap in Hl. apply Forall_forall. intros tx Ht. unfold getTxsReversed in Ht. cbn in Ht.
    rewrite rev_reverse, elem_of_reverse in Ht. exists l'. split; [|done].
    by rewrite (listed_sender c s l' tx L Hl Ht).
Qed.

Lemma doEviction_ok c : poolOk c -> poolOk (fst (doEviction c)) /\ shrinks c (fst (doEviction c)).
Proof.
  intros P. unfold doEviction. destruct (negb _); [by split; [|apply shrinks_refl]|].
  unfold evictLeastLikelyToSelectTransactions. set (heap := heapOfBunches minLess _ []).
  assert (H : evictionHeap c heap).
  { destruct (heapOfBunches_ok minLess (getTxsReversed <$> getSenders c)) as [_ Q]. unfold heap. rewrite Q.
    by apply firstItems_evictionHeap. }
  pose proof (evict_loop_ok c (heapFuel heap) heap [] c P H P (shrinks_refl c)) as E.
  by destruct (evict_loop _ heap [] c) as [c' journal].
Qed.
End Evict.

Section Ops.
Context {KR : KeyRange} {KOk : KeyRangeOk KR} {CF : TxCacheConfig} {MH : MempoolHost}.

(** ** Adding *)

(** What becomes of a transaction that is not there yet: it is added to both
    maps, and some that are not tracked, perhaps itself, leave both. *)
Lemma AddTx_new now tx c : poolOk c -> txByHash c !! TxHash tx = None ->
  let '(c', r) := AddTx now (Some tx) c in
  poolOk c' /\ r = (true, true) /\
  exists removed, let added := receivedAt now (precomputeFields tx) in
    Forall (fun t => IsTransactionTracked (tracker c) t = false) removed /\
    (added ∈ removed \/ (listed c' added /\ txByHash c' !! TxHash tx = Some added)).
Proof.
  intros P E. cbn [AddTx]. rewrite E. set (added := receivedAt now (precomputeFields tx)).
  set (c1 := if EvictionEnabled then fst (doEviction c) else c).
  assert (H1 : poolOk c1 /\ shrinks c c1) by (unfold c1; destruct EvictionEnabled; [by apply doEviction_ok|by split; [|apply shrinks_refl]]).
  destruct H1 as [P1 S1]. pose proof (shrinks_absent _ _ _ S1 E) as E1.
  pose proof (proj1 (poolOk_alt c1) P1) as (Q1 & H1 & I1). change (TxHash tx) with (TxHash added) in E1.
  pose proof (byHash_addTx_spec added c1 H1 E1) as A. destruct (byHash_addTx added c1) as [c2 b].
  destruct A as (-> & H2 & M2 & L2 & C2 & T2).
  assert (Q2 : sendersOk c2) by (unfold sendersOk, listsOk in *; by rewrite L2, C2).
  assert (I2 : forall t, t = added \/ listed c2 t -> txByHash c2 !! TxHash t = Some t).
  { intros t [->|Ht]; rewrite M2; [apply lookup_insert_eq|]. unfold listed in Ht. rewrite L2 in Ht. apply I1 in Ht.
    rewrite lookup_insert_ne; [done|]. intros Q. congruence. }
  pose proof (addTxReturnEvicted_ok added c2 Q2) as A. destruct (addTxReturnEvicted added c2) as [c3 [ok hashes]].
  destruct A as (Q3 & H3 & A). rewrite RemoveTxsBulk_if. pose proof (proj1 H3) as M3.
  assert (H3' : hashesOk c3) by (by eapply sameHashes_ok). destruct ok.
  2:{ exfalso. destruct A as (_ & _ & x & Hx & Ex). apply compareTxs_zero in Ex as (_ & _ & Ex).
      unfold listed in Hx. rewrite L2 in Hx. apply I1 in Hx. rewrite Ex in Hx. congruence. }
  destruct A as (removed & -> & Fr & Hl & Hn).
  assert (P3 : poolOk c3).
  { apply poolOk_alt. split_and!; [done..|]. intros t Ht. rewrite M3. apply I2, Hl. by left. }
  assert (D : forall t, listed c3 t -> TxHash t ∉ TxHash <$> removed).
  { intros t Ht I. apply list_elem_of_fmap in I as (e & Eh & Ie). apply (Hn e Ie).
    assert (Et : txByHash c2 !! TxHash t = Some t) by (apply I2, Hl; by left).
    assert (Ee : txByHash c2 !! TxHash e = Some e) by (apply I2, Hl; by right).
    rewrite Eh in Et. replace e with t by congruence. done. }
  split_and!; [by apply RemoveTxsBulk_ok|done|]. exists removed. rewrite T2, (shrinks_tracker _ _ S1) in Fr. split; [done|].
  destruct (proj2 (Hl added) (or_introl eq_refl)) as [Ht|Ht]; [right|by left].
  destruct (RemoveTxsBulk_spec (TxHash <$> removed) c3 H3') as (_ & E4 & E5 & _). unfold listed in Ht |- *. rewrite E5. split; [done|].
  rewrite E4, lookup_withoutHashes, decide_False by (by apply (D added)). change (TxHash tx) with (TxHash added).
  by apply (pool_listed _ P3).
Qed.

Lemma AddTx_ok now tx c : poolOk c -> poolOk (fst (AddTx now tx c)).
Proof.
  intros P. destruct tx as [tx|]; [|done]. destruct (txByHash c !! TxHash tx) as [t|] eqn:E.
  - cbn. by rewrite E.
  - pose proof (AddTx_new now tx c P E) as A. destruct (AddTx now (Some tx) c) as [c' r]. by destruct A.
Qed.

(** ** Removal by hash *)

Lemma RemoveTxByHash_ok h c : poolOk c -> let '(c', b) := RemoveTxByHash h c in
  poolOk c' /\ match txByHash c !! h with
  | None => b = false /\ c' = c
  | Some tx => b = true /\ txByHash c' !! h = None /\
      (forall t, listed c' t <-> listed c t /\ (senderOf t = senderOf tx -> nonceOf tx < nonceOf t))
  end.
Proof.
  intros P. pose proof (proj1 (poolOk_alt c) P) as (S & H & I). unfold RemoveTxByHash, byHash_removeTx at 1.
  pose proof (byHash_removeTx_spec h c H) as A. unfold byHash_removeTx in A |- *.
  destruct (txByHash c !! h) as [tx|] eqn:E; [|done]. set (c1 := cache_with_hashes _ _ _ c) in *.
  destruct A as (_ & H1 & M1 & _ & _ & _). pose proof (pool_hashes c P h tx E) as Eh.
  assert (S1 : sendersOk c1) by done. unfold bySender_removeLowerOrEqual, getListForSender. cbn [txListBySender c1].
  change (txListBySender c1) with (txListBySender c).
  destruct (txListBySender c !! senderOf tx) as [l|] eqn:El.
  - pose proof (removeLowerOrEqual_spec (senderOf tx) (nonceOf tx) l (proj1 S _ _ El)) as R.
    destruct (removeTransactionsWithLowerOrEqualNonceReturnHashes (nonceOf tx) l) as [l' hashes].
    destruct R as (O' & I' & ->).
    destruct (replaceList_ok (senderOf tx) l l' c1 S1 El O') as (S2 & L2 & H2). set (c2 := removeSenderIfEmpty l' (setList l' c1)) in *.
    pose proof (sameHashes_ok c1 c2 H2 H1) as H2'. rewrite RemoveTxsBulk_if. set (hs := TxHash <$> _).
    destruct (RemoveTxsBulk_spec hs c2 H2') as (H3 & M3 & L3 & C3 & _). destruct H2 as (M2 & _).
    assert (Lt : forall t, listed c2 t <-> listed c t /\ (senderOf t = senderOf tx -> nonceOf tx < nonceOf t)).
    { intros t. rewrite L2. destruct (decide (senderOf t = senderOf tx)) as [Q|Q]; [|tauto].
      change (listed c1 t) with (listed c t). rewrite (listed_at c _ l t El Q), I', list_elem_of_In, filter_In, <- list_elem_of_In.
      rewrite Z.ltb_lt. tauto. }
    split_and!; [|done|..].
    + apply poolOk_alt. unfold sendersOk, listsOk, listed. rewrite L3, C3. split_and!; [apply S2|apply S2|done|].
      intros t Ht. apply (Lt t) in Ht as [Ht N]. rewrite M3, lookup_withoutHashes.
      rewrite decide_False; [|intros J; apply list_elem_of_fmap in J as (e & Ee & Je)].
      * rewrite M2, M1, lookup_delete_ne; [by apply I|]. intros Q. pose proof (I t Ht) as It. rewrite <- Q, E in It.
        injection It as <-. specialize (N eq_refl). lia.
      * apply list_elem_of_In, filter_In in Je as [Je Ne]. apply list_elem_of_In in Je. apply negb_true_iff, Z.ltb_ge in Ne.
        pose proof (listed_sender c _ l e (proj1 S) El Je) as Se.
        assert (t = e) as -> by (apply (listed_hash c); [done|done|by apply (listed_at c _ l e El Se)|done]).
        specialize (N Se). lia.
    + rewrite M3, lookup_withoutHashes. case_decide; [done|]. rewrite M2, M1. apply lookup_delete_eq.
    + intros t. unfold listed at 1. rewrite L3. apply Lt.
  - change (0 <? length (@nil bytes))%nat with false. cbv iota. split_and!; [|done|by rewrite M1; apply lookup_delete_eq|].
    + apply poolOk_alt. split_and!; [done..|]. intros t Ht. rewrite M1, lookup_delete_ne; [by apply I|]. intros Q.
      pose proof (I t Ht) as It. rewrite <- Q, E in It. injection It as <-. destruct Ht as (l & El' & _). change (txListBySender c1) with (txListBySender c) in El'. congruence.
    + intros t. split; [|tauto]. intros Ht. split; [done|]. intros Q. destruct Ht as (l & El' & _).
      change (txListBySender c1) with (txListBySender c) in El'. congruence.
Qed.

(** ** Offsets *)

Lemma setOffset_ok s l o c : poolOk c -> txListBySender c !! s = Some l -> poolOk (setList (list_with (items l) (totalBytes l) o l) c).
Proof.
  intros P E. pose proof (proj1 (poolOk_alt c) P) as (S & H & I). pose proof (proj1 S s l E) as O.
  destruct (setList_listed s (list_with (items l) (totalBytes l) o l) c S ltac:(by eexists)) as (S' & H' & L); [by apply resetOffset_ok|].
  apply (fewer_ok c); [done..|]. intros t Ht. apply L in Ht as [[Es Ht]|[_ Ht]]; [|done]. by apply (listed_at c s l).
Qed.

Lemma resetOffsets_ok nonces : forall c, poolOk c -> poolOk (resetOffsets nonces c).
Proof.
  unfold resetOffsets. induction nonces as [|[s n] nonces IH]; intros c P; [done|]. cbn [fold_left]. apply IH.
  unfold getListForSender. destruct (txListBySender c !! s) as [l|] eqn:E; [|done]. by apply (setOffset_ok s).
Qed.

Lemma ResetSelectionOffsetsToNonce_ok m c : poolOk c -> poolOk (ResetSelectionOffsetsToNonce m c).
Proof. apply resetOffsets_ok. Qed.
Lemma SetSelectionOffsetsByLastNonce_ok m c : poolOk c -> poolOk (SetSelectionOffsetsByLastNonce m c).
Proof. apply resetOffsets_ok. Qed.

Lemma ResetAllSelectionOffsets_ok c : poolOk c -> poolOk (ResetAllSelectionOffsets c).
Proof.
  intros P. pose proof (proj1 (poolOk_alt c) P) as ([L S] & H & I). apply (fewer_ok c); [done|..].
  - split; unfold listsOk; cbn; [|by rewrite map_size_fmap]. intros s l E. rewrite lookup_fmap in E.
    destruct (txListBySender c !! s) as [l0|] eqn:E0; [|done]. injection E as <-. by apply resetOffset_ok, L.
  - by split_and!.
  - intros t (l & E & Ht). cbn in E. rewrite lookup_fmap in E. destruct (txListBySender c !! senderOf t) as [l0|] eqn:E0; [|done].
    injection E as <-. by exists l0.
Qed.

Lemma tracker_ok t c : poolOk c -> poolOk (cache_with_tracker t c).
Proof. intros [? ? ? ? ? ?]. by constructor. Qed.

(** ** Sweeping *)

Lemma sweep_loop_ok c0 nonceOfAccount maxNum timeIsUp senders : forall visited removed c,
  poolOk c0 -> sendersOk c -> sameHashes c0 c -> (forall t, listed c t <-> listed c0 t /\ t ∉ removed) -> Forall (listed c0) removed ->
  NoDup (sender <$> senders) -> Forall (fun l => txListBySender c !! sender l = Some l) senders ->
  let '(c', hashes) := sweep_loop senders nonceOfAccount maxNum timeIsUp visited (TxHash <$> removed) c in
  exists removed', hashes = TxHash <$> removed' /\ sendersOk c' /\ sameHashes c0 c' /\
    (forall t, listed c' t <-> listed c0 t /\ t ∉ removed') /\ Forall (listed c0) removed'.
Proof.
  induction senders as [|l senders IH]; intros visited removed c P S H L F N E; cbn [sweep_loop]; [by exists removed|].
  cbn in N. apply NoDup_cons in N as [N0 N]. apply Forall_cons in E as [E0 E].
  destruct (nonceOfAccount (sender l)) as [n|]; [|by apply IH]. destruct (n =? 0); [by apply IH|].
  destruct (_ <=? _)%nat; [by exists removed|]. destruct (timeIsUp visited); [by exists removed|].
  pose proof (proj1 S _ _ E0) as O.
  pose proof (removeSweepable_spec (sender l) (u64 (n - 1)) (IsTransactionTracked (tracker c)) l O) as R.
  destruct (removeSweepableTransactionsReturnHashes _ _ l) as [l' hashes]. destruct R as (rem & -> & O' & Pm & _).
  destruct (setList_listed (sender l) l' c S ltac:(by eexists) O') as (S' & (M1 & M2 & M3 & M4) & L').
  rewrite <- fmap_app. apply IH; try done.
  - intros t. rewrite L'. pose proof (L t) as Lt.
    assert (Nd : NoDup (items l' ++ rem)) by (rewrite <- Pm; apply ordered_NoDup with (1 := list_ordered _ _ O)).
    assert (Mt : t ∈ items l <-> t ∈ items l' \/ t ∈ rem) by (by rewrite Pm, elem_of_app).
    rewrite elem_of_app. destruct (decide (senderOf t = sender l)) as [Q|Q].
    + rewrite (listed_at c _ l t E0 Q) in Lt. apply NoDup_app in Nd as (_ & Nd & _). specialize (Nd t). tauto.
    + assert (t ∉ rem); [|tauto]. intros J. apply Q. apply (listed_sender c _ l t (proj1 S) E0). tauto.
  - apply Forall_app. split; [done|]. apply Forall_forall. intros t Ht. apply L.
    assert (Hl : t ∈ items l) by (rewrite Pm; apply elem_of_app; by right). apply (listed_at c _ l t E0); [|done].
    by apply (listed_sender c _ l t (proj1 S) E0).
  - apply Forall_forall. intros l2 H2. pose proof (proj1 (Forall_forall _ _) E l2 H2) as E2. unfold setList. cbn.
    rewrite (list_sender _ _ O'), lookup_insert_ne; [done|]. intros Q. apply N0. rewrite Q. by apply list_elem_of_fmap_2.
Qed.

Context (SortSlice : (nat -> nat -> list bytes -> bool) -> list bytes -> list bytes) (sha256 : bytes -> bytes)
  (SortSlice_perm : forall less l, SortSlice less l ≡ₚ l).

Lemma shuffled_senders randomness c : poolOk c -> let ls := getDeterministicallyShuffledSenders SortSlice sha256 randomness c in
  NoDup (sender <$> ls) /\ Forall (fun l => txListBySender c !! sender l = Some l) ls.
Proof.
  intros P. unfold getDeterministicallyShuffledSenders, getListForSender, shuffleSendersAddresses. cbv zeta.
  set (keys := SortSlice _ _). assert (Q : keys ≡ₚ fst <$> rangeMap (txListBySender c)) by apply SortSlice_perm. clearbody keys.
  assert (N : NoDup keys) by (rewrite Q; apply range_NoDup). clear Q. split.
  - induction keys as [|k keys IH]; cbn; [constructor|]. apply NoDup_cons in N as [N0 N].
    destruct (txListBySender c !! k) as [l|] eqn:E; [|by apply IH]. cbn. constructor; [|by apply IH].
    rewrite (list_sender _ _ (pool_lists c P k l E)). intros I. apply N0.
    apply list_elem_of_fmap in I as (l2 & -> & I). apply list_elem_of_omap in I as (k2 & I2 & E2).
    by rewrite (list_sender _ _ (pool_lists c P k2 l2 E2)).
  - apply Forall_forall. intros l I. apply list_elem_of_omap in I as (k & _ & E).
    by rewrite (list_sender _ _ (pool_lists c P k l E)).
Qed.

Lemma RemoveSweepableTxs_ok nonceOfAccount randomness maxNum timeIsUp c : poolOk c ->
  poolOk (fst (RemoveSweepableTxs SortSlice sha256 nonceOfAccount randomness maxNum timeIsUp c)).
Proof.
  intros P. unfold RemoveSweepableTxs. pose proof (proj1 (poolOk_alt c) P) as (S & H & I).
  destruct (shuffled_senders randomness c P) as [N E].
  pose proof (sweep_loop_ok c nonceOfAccount maxNum timeIsUp _ 0 [] c P S ltac:(by split_and!)
    ltac:(intros t; rewrite elem_of_nil; tauto) ltac:(constructor) N E) as L. cbn in L.
  destruct (sweep_loop _ _ _ _ _ _ c) as [c' hashes]. destruct L as (removed & -> & S' & H' & L & F).
  cbn [fst]. rewrite RemoveTxsBulk_if.
  assert (P' : poolOk c') by (apply (fewer_ok c); [done..|]; intros t Ht; by apply L).
  apply RemoveTxsBulk_ok; [done|]. intros t Ht J. apply list_elem_of_fmap in J as (e & Ee & Je).
  apply L in Ht as [Ht Nt]. apply Nt. pose proof (proj1 (Forall_forall _ _) F e Je) as Le.
  by rewrite (listed_hash c t e P Ht Le Ee).
Qed.
End Ops.

End Consistent.

(** Clearing forgets the transactions, and their bytes with them. *)
Lemma Clear_ok {FB : ForgottenBytes} c : poolOk c -> poolOk (FB := forgotten + mapSize (txByHash c)) (Clear c).
Proof.
  intros P. constructor; try done; cbn.
  - by intros tx (l & E & _).
  - rewrite (pool_bytes c P). unfold forgotten. f_equal. change (mapSize ∅) with 0. lia.
Qed.
