(* ===== verification/TxReachable.v ===== *)
(** * The mempools that can be reached

    Every sequence of operations, those of tracked blocks and selections among
    them, leads from the empty mempool to a consistent one.

    ** Selections from a consistent mempool

    The records that the tracked blocks leave for the accounts, and the bunches
    that the lists of the senders give, are what the selection needs. *)

From Stdlib Require Import ZArith Lia Sorted.
From stdpp Require Import base gmap list sorting.
From S2P Require Import Prelude GoValues GoCollections TxList Breadcrumbs TxHeap TxCache SelectionTracker.
From S2P Require Import TxSelection TxListSpec TxSelectionSpec TxSelectionTheory.
From S2P Require Import TxPoolSpec.

(** Methods that keep the mempool consistent, whatever they return. *)
Definition keepsPool {A} (m : SE TxCache txcache_error A) : Prop := 
  forall (FB : ForgottenBytes) c, poolOk c -> poolOk (fst (m c)).

Create HintDb pool.

Lemma keeps_bind {A B} (m : SE TxCache txcache_error A) (f : A -> SE TxCache txcache_error B) :
  keepsPool m -> (forall a, keepsPool (f a)) -> keepsPool (a ← m; f a).
Proof.
  intros Hm Hf FB c P. unfold mbind, se_bind. specialize (Hm FB c P). destruct (m c) as [c' [a|e]]; [|done]. by apply Hf.
Qed.

Lemma keeps_get_bind {B} (f : TxCache -> SE TxCache txcache_error B) :
  (forall c, keepsPool (f c)) -> keepsPool (c ← se_get; f c).
Proof. intros H FB c P. by apply H. Qed.

Lemma keeps_pure {A} (m : SE TxCache txcache_error A) : (forall c, fst (m c) = c) -> keepsPool m.
Proof. intros H FB c P. by rewrite H. Qed.

Lemma keeps_ret {A} (a : A) : keepsPool (mret a).
Proof. apply keeps_pure. intros c. reflexivity. Qed.
Lemma keeps_lift {A} (r : result txcache_error A) : keepsPool (se_lift r).
Proof. apply keeps_pure. intros c. reflexivity. Qed.
Lemma keeps_guard b e : keepsPool (se_guard b e).
Proof. apply keeps_pure. intros c. unfold se_guard. by destruct b. Qed.

Lemma keeps_modify f : (forall (FB : ForgottenBytes) c, poolOk c -> poolOk (f c)) -> keepsPool (se_modify f).
Proof. intros H FB c P. by apply H. Qed.

Lemma keeps_for {A} (l : list A) (body : A -> SE TxCache txcache_error ()) : (forall a, keepsPool (body a)) -> keepsPool (se_for l body).
Proof. intros H. induction l as [|a l IH]; cbn [se_for]; [apply keeps_ret|]. by apply keeps_bind. Qed.

#[export] Hint Resolve keeps_ret keeps_lift keeps_guard keeps_for : pool.
#[export] Hint Resolve ResetSelectionOffsetsToNonce_ok SetSelectionOffsetsByLastNonce_ok tracker_ok ResetAllSelectionOffsets_ok : pool.

Ltac keep := repeat match goal with
  | |- keepsPool (mbind _ se_get) => apply keeps_get_bind; intros ?
  | |- keepsPool (mbind _ _) => apply keeps_bind; [|intros ?]
  | |- keepsPool (se_modify _) => apply keeps_modify; intros ? ? ?
  | |- keepsPool (if ?b then _ else _) => destruct b
  | |- keepsPool (match ?p with (_, _) => _ end) => destruct p
  | |- _ => solve [auto with pool]
  end.

Section Reachable.
Context {KR : KeyRange} {KOk : KeyRangeOk KR} {CF : TxCacheConfig} {MH : MempoolHost}.

(** ** Tracked blocks *)

Lemma removeBlock_keeps update mb : keepsPool (removeBlock update mb).
Proof. intros FB c P. unfold removeBlock. destruct (update mb.2 _) as [g r]. by apply tracker_ok. Qed.
#[local] Hint Resolve removeBlock_keeps : pool.

Lemma deleteBlocks_loop_keeps mbs : forall m, keepsPool (deleteBlocks_loop mbs m).
Proof. induction mbs as [|mb mbs IH]; intros m; cbn [deleteBlocks_loop]; keep. Qed.
#[local] Hint Resolve deleteBlocks_loop_keeps : pool.

Lemma removeBlocksAboveOrEqual_keeps n : keepsPool (removeBlocksAboveOrEqualToNonceNoLock n).
Proof.
  unfold removeBlocksAboveOrEqualToNonceNoLock, deleteMatchedBlocksWithSameNonceOrAboveNoLock. keep.
Qed.
#[local] Hint Resolve removeBlocksAboveOrEqual_keeps : pool.

Lemma addNewTrackedBlock_keeps h tb : keepsPool (addNewTrackedBlockNoLock h tb).
Proof. unfold addNewTrackedBlockNoLock. keep. Qed.
#[local] Hint Resolve addNewTrackedBlock_keeps : pool.

Lemma OnProposedBlock_keeps h mbs hdr provider latest : keepsPool (OnProposedBlock h mbs hdr provider latest).
Proof. unfold OnProposedBlock. keep. Qed.

Lemma OnBackfilledBlock_keeps h mbs hdr : keepsPool (OnBackfilledBlock h mbs hdr).
Proof. unfold OnBackfilledBlock. keep. Qed.

Lemma OnExecutedBlock_keeps hdr rootHash : keepsPool (OnExecutedBlock hdr rootHash).
Proof. unfold OnExecutedBlock, removeUpToBlockNoLock. keep. Qed.

Lemma ResetTrackedBlocks_ok {FB : ForgottenBytes} c : poolOk c -> poolOk (ResetTrackedBlocks c).
Proof. intros P. by apply ResetAllSelectionOffsets_ok, tracker_ok. Qed.

Lemma derive_keeps session nonce isSimulation : keepsPool (deriveVirtualSelectionSession session nonce isSimulation).
Proof. unfold deriveVirtualSelectionSession. keep. Qed.
#[local] Hint Resolve derive_keeps : pool.

Lemma selectTransactions_keeps session guardian options cutoff grace nonce isSimulation :
  keepsPool (selectTransactions session guardian options cutoff grace nonce isSimulation).
Proof. unfold selectTransactions. keep. Qed.

(** ** Reachability *)

Context (SortSlice : (nat -> nat -> list bytes -> bool) -> list bytes -> list bytes) (sha256 : bytes -> bytes)
  (SortSlice_perm : forall less l, SortSlice less l ≡ₚ l).

(** The operations of other components on the mempool, successful or not, with
    the bytes that clearing it forgets to subtract. *)
Inductive poolStep (c : TxCache) : Z -> TxCache -> Prop :=
| step_AddTx now tx : poolStep c 0 (fst (AddTx now tx c))
| step_RemoveTxByHash h : poolStep c 0 (fst (RemoveTxByHash h c))
| step_Cleanup accountNonce randomness maxNum timeIsUp :
    poolStep c 0 (fst (RemoveSweepableTxs SortSlice sha256 accountNonce randomness maxNum timeIsUp c))
| step_OnProposedBlock h mbs hdr provider latest : poolStep c 0 (fst (OnProposedBlock h mbs hdr provider latest c))
| step_OnBackfilledBlock h mbs hdr : poolStep c 0 (fst (OnBackfilledBlock h mbs hdr c))
| step_OnExecutedBlock hdr rootHash : poolStep c 0 (fst (OnExecutedBlock hdr rootHash c))
| step_ResetTracker : poolStep c 0 (ResetTrackedBlocks c)
| step_SelectTransactions session guardian options cutoff grace nonce isSimulation :
    poolStep c 0 (fst (selectTransactions session guardian options cutoff grace nonce isSimulation c))
| step_SetSelectionOffsetsByLastNonce lastNonces : poolStep c 0 (SetSelectionOffsetsByLastNonce lastNonces c)
| step_ResetSelectionOffsetsToNonce firstNonces : poolStep c 0 (ResetSelectionOffsetsToNonce firstNonces c)
| step_ResetAllSelectionOffsets : poolStep c 0 (ResetAllSelectionOffsets c)
| step_Clear : poolStep c (mapSize (txByHash c)) (Clear c).

(** Reached from the empty mempool, when clearing forgot [forgottenBytes]. *)
Inductive reachableForgetting : Z -> TxCache -> Prop :=
| reachable_new c : NewTxCache = Ok c -> reachableForgetting 0 c
| reachable_step forgottenBytes z c c' : reachableForgetting forgottenBytes c -> poolStep c z c' ->
    reachableForgetting (forgottenBytes + z) c'.

Definition reachable (c : TxCache) : Prop := exists forgottenBytes, reachableForgetting forgottenBytes c.

Lemma NewTxCache_ok c : NewTxCache = Ok c -> poolOk (FB := 0) c.
Proof.
  unfold NewTxCache, NewSelectionTracker. destruct (maxTrackedBlocks =? 0); [done|]. cbn. intros [= <-].
  constructor; cbn; try done. by intros tx (l & E & _).
Qed.

Lemma poolStep_ok {FB : ForgottenBytes} c z c' : poolOk c -> poolStep c z c' -> poolOk (FB := forgotten + z) c'.
Proof.
  assert (Z0 : forgotten + 0 = forgotten) by lia. intros P S. destruct S; rewrite ?Z0.
  - by apply AddTx_ok.
  - pose proof (RemoveTxByHash_ok h c P) as R. by destruct (RemoveTxByHash h c), R.
  - by apply RemoveSweepableTxs_ok.
  - by apply OnProposedBlock_keeps.
  - by apply OnBackfilledBlock_keeps.
  - by apply OnExecutedBlock_keeps.
  - by apply ResetTrackedBlocks_ok.
  - by apply selectTransactions_keeps.
  - by apply SetSelectionOffsetsByLastNonce_ok.
  - by apply ResetSelectionOffsetsToNonce_ok.
  - by apply ResetAllSelectionOffsets_ok.
  - by apply Clear_ok.
Qed.

Lemma reachableForgetting_ok forgottenBytes c : reachableForgetting forgottenBytes c -> poolOk (FB := forgottenBytes) c.
Proof. induction 1 as [c E|n z c c' _ P S]; [by apply NewTxCache_ok|]. by apply (poolStep_ok (FB := n) c z). Qed.

Lemma reachable_ok c : reachable c -> exists FB : ForgottenBytes, poolOk c.
Proof. intros [n R]. exists n. by apply reachableForgetting_ok. Qed.
End Reachable.

Section Select.
Context {KR : KeyRange} {KOk : KeyRangeOk KR} {CF : TxCacheConfig} (session : SelectionSession).

(** ** Accounts after the tracked blocks *)

(** Nonce, consumed balance and balance of an account for which the tracked
    blocks left [o]: no nonce when these blocks do not start at the account's. *)
Definition accountAfter (o : option globalAccountBreadcrumb) (a : bytes) : result txcache_error (OptionalUint64 * Z * Z) :=
  '(nonce, balance) ← GetAccountNonceAndBalance (provider session) a;
  match balance with
  | None => Err errNilBalance
  | Some b =>
      Ok match o with
         | None => (someNonce nonce, 0, b)
         | Some gab =>
             (if negb (isUser gab) then someNonce nonce
              else if Value (g_firstNonce gab) =? nonce then someNonce (u64 (Value (g_lastNonce gab) + 1)) else noNonce,
              g_consumedBalance gab, b)
         end
  end.

Definition recordTriple (rec : virtualAccountRecord) : OptionalUint64 * Z * Z :=
  (initialNonce rec, getConsumedBalance rec, getInitialBalance rec).

Lemma createAccountRecord_after a rec : createAccountRecord session a = Ok rec -> accountAfter None a = Ok (recordTriple rec).
Proof.
  unfold createAccountRecord, accountAfter. destruct (GetAccountNonceAndBalance _ a) as [[n [b|]]|]; cbn; [|done..].
  by intros [= <-].
Qed.

Lemma addRecord_after a n b gab m m' : GetAccountNonceAndBalance (provider session) a = Ok (n, b) -> m !! a = None ->
  (if negb (isContinuousWithSessionNonce n gab) then createBlockedVirtualRecord a b gab m
   else fromGlobalBreadcrumbToVirtualRecord a n b gab m) = Ok m' ->
  exists rec, m' = <[a := rec]> m /\ accountAfter (Some gab) a = Ok (recordTriple rec).
Proof.
  intros E0 En. unfold accountAfter, createBlockedVirtualRecord, fromGlobalBreadcrumbToVirtualRecord, isContinuousWithSessionNonce.
  rewrite E0, En. destruct b as [b|]; [|by destruct (negb _)]. cbn. destruct (isUser gab); cbn [negb].
  - destruct (Value (g_firstNonce gab) =? n); cbn; intros [= <-]; by eexists.
  - cbn. intros [= <-]. by eexists.
Qed.

Lemma handle_after entries : forall m m', NoDup (fst <$> entries) -> (forall a, a ∈ fst <$> entries -> m !! a = None) ->
  handleGlobalAccountBreadcrumbs session entries m = Ok m' ->
  (forall a, a ∉ fst <$> entries -> m' !! a = m !! a) /\
  (forall a gab, (a, gab) ∈ entries -> exists rec, m' !! a = Some rec /\ accountAfter (Some gab) a = Ok (recordTriple rec)).
Proof.
  induction entries as [|[a0 gab0] entries IH]; intros m m' N H E; cbn in E.
  { injection E as <-. split; [done|]. by intros a gab I%elem_of_nil. }
  destruct (GetAccountNonceAndBalance (provider session) a0) as [[n b]|] eqn:E0; [|done]. cbn in E.
  destruct (if negb _ then _ else _) as [m1|] eqn:E1; [|done]. cbn in E. cbn in N, H. apply NoDup_cons in N as [N0 N].
  destruct (addRecord_after a0 n b gab0 m m1 E0 (H a0 (list_elem_of_here _ _)) E1) as (rec0 & -> & A0).
  destruct (IH (<[a0 := rec0]> m) m' N) as [IH1 IH2]; [|done|].
  { intros a Ha. rewrite lookup_insert_ne by (by intros <-). apply H. by apply list_elem_of_further. }
  split.
  - intros a Ha. cbn in Ha. rewrite not_elem_of_cons in Ha. destruct Ha as [Ha1 Ha2].
    rewrite IH1 by done. by rewrite lookup_insert_ne.
  - intros a gab I. apply elem_of_cons in I as [I|I]; [|by apply IH2]. injection I as -> ->. exists rec0. split; [|done].
    rewrite IH1 by done. apply lookup_insert_eq.
Qed.

(** The records of the virtual session, those created on the way included. *)
Lemma session_records g r a rec : createVirtualSelectionSession session g = Ok r -> recordOf session r a = Ok rec ->
  accountAfter (g !! a) a = Ok (recordTriple rec).
Proof.
  intros E R. destruct (handle_after _ _ _ (range_NoDup g) ltac:(intros; apply lookup_empty) E) as [H1 H2].
  unfold recordOf in R. destruct (g !! a) as [gab|] eqn:Eg.
  - apply elem_of_rangeMap in Eg. destruct (H2 a gab Eg) as (rec' & E' & A). rewrite E' in R. by injection R as <-.
  - rewrite H1 in R.
    + rewrite lookup_empty in R. by apply createAccountRecord_after.
    + intros I. apply list_elem_of_fmap in I as ([a' gab] & -> & I). apply elem_of_rangeMap in I. cbn in Eg. congruence.
Qed.

(** ** Bunches *)

Lemma acquire_heads (ls : list txListForSender) :
  omap (fun b => senderOf <$> head b) (List.filter (fun b => negb (length b =? 0)%nat) (getTxsForSelection <$> ls)) =
  omap (fun l => senderOf <$> head (getTxsForSelection l)) ls.
Proof. induction ls as [|l ls IH]; [done|]. cbn. destruct (getTxsForSelection l) as [|tx b]; cbn; [done|]. by f_equal. Qed.

Lemma getTxsForSelection_sublist l : getTxsForSelection l `sublist_of` items l.
Proof. apply sublist_drop. Qed.

Lemma acquire_ok {FB : ForgottenBytes} valid c : poolOk c -> (forall tx, listed c tx -> valid tx) -> bunchesOk valid (acquireBunchesOfTransactions c).
Proof.
  intros P V. pose proof (pool_lists c P) as L. split.
  - apply Forall_forall. intros b Hb. apply list_elem_of_In, filter_In in Hb as [Hb _]. apply list_elem_of_In in Hb.
    apply list_elem_of_fmap in Hb as (l & -> & Hl). apply list_elem_of_fmap in Hl as ([s l'] & -> & Hl).
    apply elem_of_rangeMap in Hl. cbn. pose proof (L s l' Hl) as O. pose proof (getTxsForSelection_sublist l') as Sb.
    assert (F : Forall (fun tx => senderOf tx = s) (getTxsForSelection l')).
    { apply Forall_forall. intros tx Ht. apply (proj1 (Forall_forall _ _) (list_senders _ _ O)). by eapply elem_of_sublist. }
    split_and!; [eapply ordered_sublist, O; done| |by exists s]. apply Forall_forall. intros tx Ht. apply V. exists l'.
    rewrite (proj1 (Forall_forall _ _) F tx Ht). split; [done|]. by eapply elem_of_sublist.
  - unfold acquireBunchesOfTransactions, getSenders. rewrite acquire_heads.
    assert (Q : omap (fun l => senderOf <$> head (getTxsForSelection l)) (snd <$> rangeMap (txListBySender c)) =
      omap (fun e : bytes * txListForSender => senderOf <$> head (getTxsForSelection e.2)) (rangeMap (txListBySender c))).
    { induction (rangeMap (txListBySender c)) as [|[s l] es IH]; [done|]. cbn. rewrite IH. by destruct (getTxsForSelection l). }
    rewrite Q. apply omap_keys_NoDup; [apply range_NoDup|]. intros [s l] k I E. apply elem_of_rangeMap in I. cbn in *.
    destruct (getTxsForSelection l) as [|tx b] eqn:Eb; [done|]. injection E as <-.
    apply (proj1 (Forall_forall _ _) (list_senders _ _ (L s l I))).
    eapply elem_of_sublist; [|apply getTxsForSelection_sublist]. rewrite Eb. apply list_elem_of_here.
Qed.

(** What a successful selection did. *)
Lemma selectTransactions_inv guardian options cutoff grace nonce isSimulation c c' txs gas :
  selectTransactions session guardian options cutoff grace nonce isSimulation c = (c', Ok (txs, gas)) ->
  exists r, createVirtualSelectionSession session (globalAccountBreadcrumbs (tracker c')) = Ok r /\
    let s := selectTransactionsFromBunches session guardian options cutoff grace r (acquireBunchesOfTransactions c') in
    txs = selectedTransactions s /\ gas = accumulatedGas s.
Proof.
  unfold selectTransactions, deriveVirtualSelectionSession. intros E.
  apply se_bind_Ok in E as (c1 & r & E1 & E). apply se_bind_Ok in E1 as (c2 & [] & _ & E1).
  apply se_bind_Ok in E1 as (c3 & rootHash & E3 & E1). apply se_bind_Ok in E1 as (c4 & c5 & E4 & E1).
  apply se_bind_Ok in E1 as (c6 & [] & E6 & E1). injection E4 as <- <-. unfold se_guard in E6.
  destruct (negb _) in E6; [done|]. injection E6 as <-. injection E1 as <- E1.
  apply se_bind_Ok in E as (c7 & c8 & E7 & E). injection E7 as <- <-. injection E as <- <- <-. by exists r.
Qed.
End Select.
