(* ===== verification/MempoolProperties.v ===== *)
(** * Properties of the mempool

    The mempool stays consistent, transactions come and go together in both of
    its maps, and a selection for a block can be executed. *)

From Stdlib Require Import ZArith Lia Sorted.
From stdpp Require Import base gmap list.
From S2P Require Import Prelude GoValues GoCollections TxList TxListSpec Breadcrumbs TxHeap.
From S2P Require Import TxCache SelectionTracker TxSelection TxSelectionSpec TxSelectionTheory.
From S2P Require Import TxPoolSpec TxReachable.

(** The numbers of a transaction are those of the machine, and its gas can be
    added to what is requested. *)
Definition validTx (options : TxSelectionOptions) (tx : WrappedTransaction) : Prop :=
  0 <= nonceOf tx <= maxUint64 /\ 0 <= GetGasLimit (Tx tx) <= maxUint64 - GasRequested options.

Definition sensibleOptions (options : TxSelectionOptions) : Prop := 0 <= GasRequested options /\ 0 <= MaxNumTxs options.

Section Pool.
Context {KR : KeyRange} {KOk : KeyRangeOk KR} {CF : TxCacheConfig} {MH : MempoolHost}.
Context (SortSlice : (nat -> nat -> list bytes -> bool) -> list bytes -> list bytes) (sha256 : bytes -> bytes)
  (SortSlice_perm : forall less l, SortSlice less l ≡ₚ l).

(** C21. However transactions are added, removed, evicted and swept, blocks are
    proposed, backfilled, executed and reset, selections are made, offsets are
    moved and the mempool is cleared: it stays consistent.  The list of every
    sender is in the order of execution and without duplicates, every
    transaction of a list is found by its hash, and the counters of
    transactions and senders are right; the counter of bytes is that of the
    transactions in the mempool and of those that clearing it has forgotten,
    which the code goes on counting. *)
Theorem pool_stays_consistent forgottenBytes c :
  reachableForgetting SortSlice sha256 forgottenBytes c -> poolOk (FB := forgottenBytes) c.
Proof. by apply reachableForgetting_ok. Qed.

(** A new transaction is added to both maps, and found by its hash and in
    the list of its sender afterwards, unless the limits of the sender evict
    it from both again; nothing that a tracked block uses is evicted. *)
Theorem new_transaction_is_added now tx c : reachable SortSlice sha256 c -> GetByTxHash (TxHash tx) c = None ->
  let '(c', r) := AddTx now (Some tx) c in
  r = (true, true) /\
  exists removed, let added := receivedAt now (precomputeFields tx) in
    Forall (fun t => IsTransactionTracked (tracker c) t = false) removed /\
    (added ∈ removed \/ (listed c' added /\ GetByTxHash (TxHash tx) c' = Some added)).
Proof.
  intros R E. destruct (reachable_ok SortSlice sha256 SortSlice_perm c R) as [FB P]. pose proof (AddTx_new now tx c P E) as A.
  destruct (AddTx now (Some tx) c) as [c' r]. by destruct A as (_ & ? & ?).
Qed.

(** Removing a transaction by its hash removes it and, of its sender,
    exactly the transactions with its nonce or a lower one. *)
Theorem removal_by_hash h c : reachable SortSlice sha256 c -> let '(c', removed) := RemoveTxByHash h c in
  match GetByTxHash h c with
  | None => removed = false /\ c' = c
  | Some tx => removed = true /\ GetByTxHash h c' = None /\
      forall t, listed c' t <-> listed c t /\ (senderOf t = senderOf tx -> nonceOf tx < nonceOf t)
  end.
Proof.
  intros R. destruct (reachable_ok SortSlice sha256 SortSlice_perm c R) as [FB P]. pose proof (RemoveTxByHash_ok h c P) as A.
  destruct (RemoveTxByHash h c) as [c' b]. by destruct A as [_ A].
Qed.

(** ** Selections *)

Context (session : SelectionSession) (guardianFunction : bytes) (options : TxSelectionOptions)
  (selectionCutoff propagationGracePeriod nonce : Z) (isSimulation : bool) (c c' : TxCache)
  (txs : bunchOfTransactions) (gas : Z).

(** A selection from a mempool that can be reached. *)
Record successfulSelection : Prop := {
  selected_reachable : reachable SortSlice sha256 c;
  selected_result : selectTransactions session guardianFunction options selectionCutoff propagationGracePeriod nonce isSimulation c =
    (c', Ok (txs, gas));
  selected_valid tx : listed c' tx -> validTx options tx;
  selected_options : sensibleOptions options;
}.

(** The account, by the tracked blocks that the selection builds on. *)
Definition accountOf (a : bytes) : result txcache_error (OptionalUint64 * Z * Z) :=
  accountAfter session (globalAccountBreadcrumbs (tracker c') !! a) a.

Lemma selection_done : successfulSelection ->
  exists FB : ForgottenBytes, poolOk c' /\ exists r s, txs = selectedTransactions s /\ gas = accumulatedGas s /\
    createVirtualSelectionSession session (globalAccountBreadcrumbs (tracker c')) = Ok r /\
    selDone session options r (fun tx => validTx options tx /\ listed c' tx) s.
Proof.
  intros [R E V [O1 O2]]. destruct (reachable_ok SortSlice sha256 SortSlice_perm c R) as [FB P]. exists FB.
  assert (P' : poolOk c').
  { pose proof (selectTransactions_keeps session guardianFunction options selectionCutoff propagationGracePeriod nonce isSimulation) as K.
    specialize (K FB c P). by rewrite E in K. }
  split; [done|]. destruct (selectTransactions_inv _ _ _ _ _ _ _ _ _ _ _ E) as (r & Er & -> & ->).
  exists r. eexists. split_and!; [done..|].
  apply selectTransactionsFromBunches_done; [by intros tx [[? ?] _]..| |done|done].
  apply acquire_ok; [done|]. auto.
Qed.

(** C22. A selection keeps its limits: all that is selected is in the pool, the
    gas is that of the selected transactions and at most what is requested,
    there are at most the allowed number of transactions, and no more than
    [maxAccountsPerBlock] senders. *)
Theorem selection_within_limits : successfulSelection ->
  Forall (fun tx => GetByTxHash (TxHash tx) c' = Some tx) txs /\
  gas = gasOf txs /\ gas <= GasRequested options /\
  Z.of_nat (length txs) <= MaxNumTxs options /\ uniqueSenders txs <= maxAccountsPerBlock.
Proof.
  intros H. destruct (selection_done H) as (FB & P & r & s & -> & -> & _ & [V _ _ [G1 G2] N [U1 U2]]). rewrite <- U1.
  split_and!; [|lia..]. eapply Forall_impl; [exact V|]. intros tx [_ L]. by apply (pool_listed c' P).
Qed.

(** C6. Of every sender, the selected transactions have the nonces that follow
    the one its account has when the tracked blocks are executed, in that order
    and without a gap or a repetition; a sender whose tracked blocks do not
    start at its account's nonce has none. *)
Theorem selected_nonces_follow a : successfulSelection -> sentBy a txs <> [] ->
  exists n consumed balance, accountOf a = Ok (someNonce n, consumed, balance) /\
    nonceOf <$> sentBy a txs = seqZ n (Z.of_nat (length (sentBy a txs))).
Proof.
  intros H N. destruct (selection_done H) as (FB & P & r & s & -> & -> & Er & D).
  destruct (sd_nonces _ _ _ _ _ D a N) as (rec & n & E & En & Q). exists n, (getConsumedBalance rec), (getInitialBalance rec).
  split; [|done]. rewrite <- En. by apply (session_records session _ r).
Qed.

(** C7. Whenever a transaction is selected, its sender and its fee payer can pay
    for it on top of what tracked blocks and the transactions selected before
    take from them. *)
Theorem selected_can_be_paid k tx a : successfulSelection -> txs !! k = Some tx -> a = senderOf tx \/ a = FeePayer tx ->
  exists n consumed balance, accountOf a = Ok (n, consumed, balance) /\ consumed + costs (take (S k) txs) a <= balance.
Proof.
  intros H E Ha. destruct (selection_done H) as (FB & P & r & s & -> & -> & Er & D).
  destruct (sd_paid _ _ _ _ _ D k tx a E Ha) as (rec & R & L).
  exists (initialNonce rec), (getConsumedBalance rec), (getInitialBalance rec). split; [|done].
  by apply (session_records session _ r).
Qed.
End Pool.

Section Selection.
Context (session : SelectionSession) (guardianFunction : bytes) (options : TxSelectionOptions)
  (selectionCutoff propagationGracePeriod : Z) (r0 : VirtualRecords).

Abbreviation select := (selectTransactionsFromBunches session guardianFunction options selectionCutoff propagationGracePeriod r0).

(** The state the loop starts with. *)
Definition initialState (bunches : list bunchOfTransactions) : selectionState :=
  {| records := r0; transactionsHeap := heapOfBunches maxLess bunches []; selectedTransactions := [];
     accumulatedGas := 0; uniqueSenderCount := 0; processedTxs := 0 |}.

Lemma select_runs bunches :
  selectionRuns session guardianFunction options selectionCutoff propagationGracePeriod (initialState bunches) (select bunches).
Proof.
  apply selection_loop_runs; [|done]. cbn. destruct (heapOfBunches_ok maxLess bunches) as [_ P]. rewrite P.
  apply firstItems_atCurrent.
Qed.

(** C23. The selection ends: the loop of the code, which goes on until the heap
    is empty or a limit is reached, comes to the result for all bunches of
    transactions, and to no other. *)
Theorem selection_ends bunches s :
  selectionRuns session guardianFunction options selectionCutoff propagationGracePeriod (initialState bunches) s <->
  s = select bunches.
Proof.
  split; [|intros ->; apply select_runs]. intros R. eapply selectionRuns_det; [exact R|]. apply select_runs.
Qed.

(** C20. The selection does not depend on the order in which the senders are
    visited, which Go leaves open for maps: when no hash is there twice, the
    same transactions are selected in the same order, with the same gas and the
    same records. *)
Theorem selection_order_irrelevant bunches bunches' : bunches ≡ₚ bunches' -> NoDup (TxHash <$> mjoin bunches) ->
  let outcome := selectTransactionsFromBunches session guardianFunction options selectionCutoff propagationGracePeriod r0 in
  let s := outcome bunches in let s' := outcome bunches' in
  selectedTransactions s' = selectedTransactions s /\ accumulatedGas s' = accumulatedGas s /\ records s' = records s.
Proof.
  intros P N outcome s s'. destruct (heapOfBunches_ok maxLess bunches) as [O1 P1]. destruct (heapOfBunches_ok maxLess bunches') as [O2 P2].
  assert (A : Forall atCurrent (heapOfBunches maxLess bunches' [])) by (rewrite P2; apply firstItems_atCurrent).
  assert (Q : heapOfBunches maxLess bunches' [] ≡ₚ heapOfBunches maxLess bunches [])
    by (rewrite P1, P2; by apply firstItems_perm).
  assert (D : distinct (heapOfBunches maxLess bunches' [])).
  { rewrite Q, P1. unfold distinct. by rewrite firstItems_rest. }
  destruct (selectionRuns_perm _ _ _ _ _ _ _ (select_runs bunches) _ Q O2 O1 A D) as [h R].
  pose proof (selectionRuns_det _ _ _ _ _ _ _ _ R (select_runs bunches')) as E.
  change s' with (select bunches'). by rewrite <- E.
Qed.
End Selection.

(** ** A mempool *)

#[export] Instance ex_range : KeyRange := fun X => elements X.
#[export] Instance ex_rangeOk : KeyRangeOk ex_range.
Proof. by intros X. Qed.

#[export] Instance ex_config : TxCacheConfig := {|
  EvictionEnabled := true; NumBytesThreshold := 1000; CountThreshold := 5; NumItemsToPreemptivelyEvict := 1;
  constraintsOfSenders := {| maxNumTxs := 4; maxNumBytes := 1000 |};
  selfShardId := 0; maxTrackedBlocks := 10; counter_GetUint64 := Z.max 0;
|}.

(** Every transaction moves 10. *)
#[export] Instance ex_host : MempoolHost := {|
  ComputeTxFee := fun tx => GetGasLimit tx * GetGasPrice tx;
  GetTransferredValue := fun _ => Some 10;
|}.

Definition ex_sort (less : nat -> nat -> list bytes -> bool) (l : list bytes) : list bytes := l.
Lemma ex_sort_perm less l : ex_sort less l ≡ₚ l.
Proof. done. Qed.
Abbreviation ex_reachable := (reachable ex_sort (fun b => b)).

(** The accounts have nonce 5 and 100 on them. *)
Definition ex_provider : AccountNonceAndBalanceProvider :=
  {| GetAccountNonceAndBalance := fun _ => Ok (5, Some 100); GetRootHash := Ok None |}.
Definition ex_session : SelectionSession :=
  {| provider := ex_provider; session_IsIncorrectlyGuarded := fun _ => false; session_IsGuarded := fun _ => false |}.
Definition ex_options : TxSelectionOptions :=
  {| GasRequested := 100; MaxNumTxs := 4; LoopDurationCheckInterval := 10; HaveTimeForSelection := fun _ => true |}.

Definition ex_tx (hash sender nonce price : Z) (relayer : bytes) : WrappedTransaction := {|
  Tx := {| GetNonce := nonce; GetSndAddr := [sender]; GetGasLimit := 10; GetGasPrice := price; GetData := []; GetRelayerAddr := relayer |};
  TxHash := [hash]; Size := 100; ReceivedAt := 0; Fee := None; PricePerUnit := 0; TransferredValue := None; FeePayer := [] |}.

Definition ex_new : TxCache := match NewTxCache with Ok c => c | Err _ => {| txListBySender := ∅; sendersCounter := 0; txByHash := ∅;
  txCounter := 0; numBytes := 0; tracker := {| latestNonce := 0; latestRootHash := None; blocks := ∅; globalAccountBreadcrumbs := ∅ |} |} end.
Definition ex_add (c : TxCache) (tx : WrappedTransaction) : TxCache := fst (AddTx 0 (Some tx) c).

(** [1] sends three transactions, of which it cannot pay the last; [2] sends a
    relayed one and leaves a gap after it.  The sixth transaction exceeds the
    capacity, and the one of [3], the cheapest, is evicted. *)
Definition ex_pool : TxCache :=
  fold_left ex_add [ex_tx 61 1 5 1 []; ex_tx 62 1 6 3 []; ex_tx 63 1 7 6 []; ex_tx 71 2 5 2 [3]; ex_tx 81 3 5 1 [];
                    ex_tx 82 3 6 1 []; ex_tx 72 2 7 9 []] ex_new.

(** The first transaction of [1] is in a block that was proposed. *)
Definition ex_block : SE TxCache txcache_error () :=
  OnProposedBlock [9] [{| mb_Type := TxBlock; SenderShardID := 0; TxHashes := [[61]] |}]
    {| hdr_Nonce := 1; hdr_PrevHash := [8]; hdr_NumExecutionResults := 0 |} ex_provider [8].
Definition ex_tracked : TxCache := fst (ex_block ex_pool).
Definition ex_selection : SE TxCache txcache_error (bunchOfTransactions * Z) :=
  selectTransactions ex_session [83] ex_options 0 0 2 false.
Definition ex_txs : bunchOfTransactions := match snd (ex_selection ex_tracked) with Ok (txs, _) => txs | Err _ => [] end.

Example ex_evicted : map fst (map_to_list (txByHash ex_pool)) = [[63]; [62]; [61]; [81]; [72]; [71]].
Proof. by vm_compute. Qed.
Example ex_selected : TxHash <$> ex_txs = [[62]; [71]; [81]].
Proof. by vm_compute. Qed.

Lemma ex_new_reachable : ex_reachable ex_new.
Proof. exists 0. apply reachable_new. by vm_compute. Qed.

Lemma ex_step c c' : ex_reachable c -> poolStep ex_sort (fun b => b) c 0 c' -> ex_reachable c'.
Proof. intros [n R] S. exists (n + 0). by eapply reachable_step. Qed.

Lemma ex_pool_reachable : ex_reachable ex_pool.
Proof. unfold ex_pool. cbn [fold_left]. do 7 (eapply ex_step; [|apply step_AddTx]). apply ex_new_reachable. Qed.

Lemma ex_tracked_reachable : ex_reachable ex_tracked.
Proof. eapply ex_step; [apply ex_pool_reachable|apply step_OnProposedBlock]. Qed.

Lemma ex_selection_ok c : ex_reachable c -> exists FB : ForgottenBytes, poolOk (fst (ex_selection c)).
Proof.
  intros R. destruct (reachable_ok ex_sort (fun b => b) ex_sort_perm c R) as [FB P]. exists FB.
  by apply selectTransactions_keeps.
Qed.

Lemma ex_valid tx : listed (fst (ex_selection ex_tracked)) tx -> validTx ex_options tx.
Proof.
  destruct (ex_selection_ok ex_tracked ex_tracked_reachable) as [FB P]. intros L.
  apply (pool_listed _ P) in L.
  assert (B : forallb (fun e => (0 <=? nonceOf e.2) && (nonceOf e.2 <=? 9) && (GetGasLimit (Tx e.2) =? 10))
                (map_to_list (txByHash (fst (ex_selection ex_tracked)))) = true) by (by vm_compute).
  apply elem_of_map_to_list, list_elem_of_In in L. apply (proj1 (forallb_forall _ _) B) in L. cbn [snd] in L.
  bool_prop. unfold validTx, maxUint64. cbn [GasRequested ex_options]. lia.
Qed.

Lemma ex_successful : successfulSelection ex_sort (fun b => b) ex_session [83] ex_options 0 0 2 false
  ex_tracked (fst (ex_selection ex_tracked)) ex_txs 30.
Proof. split; [apply ex_tracked_reachable|by vm_compute|apply ex_valid|by split]. Qed.

(** The mempool is cleared, and a transaction of 100 bytes is added to it: the
    600 bytes of the six transactions are counted for ever. *)
Definition ex_refilled : TxCache := ex_add (Clear ex_tracked) (ex_tx 61 1 5 1 []).

Lemma ex_refilled_reachable : exists n, reachableForgetting ex_sort (fun b => b) (n + 600 + 0) ex_refilled.
Proof.
  destruct ex_tracked_reachable as [n R]. exists n. eapply reachable_step; [|apply step_AddTx].
  replace 600 with (mapSize (txByHash ex_tracked)) by (by vm_compute). by eapply reachable_step; [|apply step_Clear].
Qed.

Lemma pool_stays_consistent_witness : exists forgottenBytes,
  reachableForgetting ex_sort (fun b => b) forgottenBytes ex_refilled /\ poolOk (FB := forgottenBytes) ex_refilled /\
  numBytes ex_refilled = 700 /\ size (txByHash ex_refilled) = 1%nat.
Proof.
  destruct ex_refilled_reachable as [n R]. exists (n + 600 + 0). split; [exact R|]. split; [|by vm_compute].
  exact (pool_stays_consistent ex_sort (fun b => b) ex_sort_perm (n + 600 + 0) ex_refilled R).
Defined.

(** The cheapest transaction of [3] leaves for the new one. *)
Lemma new_transaction_is_added_witness : GetByTxHash [99] ex_tracked = None /\
  snd (AddTx 0 (Some (ex_tx 99 4 5 1 [])) ex_tracked) = (true, true).
Proof.
  assert (E : GetByTxHash (TxHash (ex_tx 99 4 5 1 [])) ex_tracked = None) by (by vm_compute). split; [exact E|].
  pose proof (new_transaction_is_added ex_sort (fun b => b) ex_sort_perm 0 (ex_tx 99 4 5 1 []) ex_tracked ex_tracked_reachable E) as A.
  destruct (AddTx 0 _ ex_tracked) as [c' r]. exact (proj1 A).
Defined.

Lemma removal_by_hash_witness : snd (RemoveTxByHash [62] ex_tracked) = true /\
  (forall t, listed (fst (RemoveTxByHash [62] ex_tracked)) t -> senderOf t = [1] -> 6 < nonceOf t).
Proof.
  pose proof (removal_by_hash ex_sort (fun b => b) ex_sort_perm [62] ex_tracked ex_tracked_reachable) as A.
  destruct (RemoveTxByHash [62] ex_tracked) as [c' r].
  destruct (GetByTxHash [62] ex_tracked) as [tx|] eqn:E; [|by vm_compute in E].
  assert (T : senderOf tx = [1] /\ nonceOf tx = 6) by (vm_compute in E; by injection E as <-).
  destruct A as (-> & _ & L). split; [done|]. intros t Ht Q. destruct T as [T1 T2]. apply L in Ht as [_ Ht].
  rewrite T1, T2 in Ht. by apply Ht.
Defined.

Lemma selection_within_limits_witness : successfulSelection ex_sort (fun b => b) ex_session [83] ex_options 0 0 2 false
    ex_tracked (fst (ex_selection ex_tracked)) ex_txs 30 /\ gasOf ex_txs = 30.
Proof.
  split; [exact ex_successful|].
  destruct (selection_within_limits ex_sort (fun b => b) ex_sort_perm ex_session [83] ex_options 0 0 2 false
              ex_tracked (fst (ex_selection ex_tracked)) ex_txs 30 ex_successful) as (_ & G & _).
  exact (eq_sym G).
Defined.

Lemma selected_nonces_follow_witness : exists n, nonceOf <$> sentBy [1] ex_txs = seqZ n 1 /\ n = 6.
Proof.
  destruct (selected_nonces_follow ex_sort (fun b => b) ex_sort_perm ex_session [83] ex_options 0 0 2 false
              ex_tracked (fst (ex_selection ex_tracked)) ex_txs 30 [1] ex_successful) as (n & consumed & balance & A & Q); [by vm_compute|].
  exists n. split; [exact Q|]. vm_compute in A. by injection A.
Defined.

(** The relayer [3] pays for the second transaction of the selection. *)
Lemma selected_can_be_paid_witness : exists n consumed balance,
  accountOf ex_session (fst (ex_selection ex_tracked)) [3] = Ok (n, consumed, balance) /\
  consumed + costs (take 2 ex_txs) [3] <= balance.
Proof.
  apply (selected_can_be_paid ex_sort (fun b => b) ex_sort_perm ex_session [83] ex_options 0 0 2 false
           ex_tracked (fst (ex_selection ex_tracked)) ex_txs 30 1 (receivedAt 0 (precomputeFields (ex_tx 71 2 5 2 [3]))) [3] ex_successful);
    [by vm_compute|by right; vm_compute].
Defined.

Definition ex_bunches : list bunchOfTransactions := acquireBunchesOfTransactions ex_tracked.
Abbreviation ex_select := (selectTransactionsFromBunches ex_session [83] ex_options 0 0 ∅).

Lemma selection_order_irrelevant_witness : ex_bunches <> reverse ex_bunches /\
  selectedTransactions (ex_select (reverse ex_bunches)) = selectedTransactions (ex_select ex_bunches).
Proof.
  split; [by vm_compute|].
  apply (selection_order_irrelevant ex_session [83] ex_options 0 0 ∅ ex_bunches (reverse ex_bunches)).
  - by rewrite reverse_Permutation.
  - assert (E : TxHash <$> mjoin ex_bunches = [[81]; [62]; [63]; [71]; [72]]) by (by vm_compute). rewrite E.
    repeat constructor; rewrite ?not_elem_of_cons; (split_and!; [congruence..|apply not_elem_of_nil]) || apply not_elem_of_nil.
Defined.

(** ** Two oversights *)

(** Two transactions of [1] with one nonce: the eviction of the cheaper one cuts
    the list of the sender at the nonce, and the better one is left without a
    list. It is found by its hash, is never selected, and cannot be added again. *)
Lemma eviction_leaves_orphan : exists c tx, ex_reachable c /\ GetByTxHash [61] c = Some tx /\ ~ listed c tx /\
  snd (AddTx 0 (Some (ex_tx 61 1 5 3 [])) c) = (true, false).
Proof.
  exists (fold_left ex_add [ex_tx 61 1 5 3 []; ex_tx 62 1 5 1 []; ex_tx 71 2 5 9 []; ex_tx 72 2 6 9 []; ex_tx 73 2 7 9 [];
    ex_tx 74 2 8 9 []; ex_tx 81 3 5 9 []] ex_new), (receivedAt 0 (precomputeFields (ex_tx 61 1 5 3 []))).
  split_and!; [|by vm_compute| |by vm_compute].
  - cbn [fold_left]. do 7 (eapply ex_step; [|apply step_AddTx]). apply ex_new_reachable.
  - intros (l & E & _). by vm_compute in E.
Qed.

(** Clearing the mempool forgets the transactions, not their bytes. *)
Lemma clear_keeps_bytes c : txByHash (Clear c) = ∅ /\ txListBySender (Clear c) = ∅ /\ numBytes (Clear c) = numBytes c.
Proof. done. Qed.
